(* ===== verification/_CoqProject ===== *)
-Q . S2P
Prelude.v
StringUtil.v
FeatureFunctions.v
Duration.v
DateTime.v
Calendar.v
EebusData.v
EebusDataWrite.v
EebusDataFacts.v
EebusDataMerge.v
EebusDataTable.v
EebusDataList.v
SpineTables.v
EebusDataDemo.v
Queue.v
Timer.v
Vector.v
Pool.v
Lut.v
Json.v
JsonText.v
EebusDataJson.v
EebusDataWire.v
SpineFunction.v
SpineReplica.v
SpineTablesFacts.v
PairingEntry.v
PairingDigest.v
ShipPairing.v
PairingRun.v
PairingRequest.v
ShipTypes.v
ShipSerialize.v
ShipDeserialize.v
ShipFrame.v
ShipCodec.v
ShipState.v
ShipConnection.v
ShipHandshake.v
ShipReach.v
ShipRefine.v
ShipDemo.v
ShipWire.v
ShipProperties.v
NodeConnection.v
ShipNode.v
ShipNodeInv.v
ShipNodeSafe.v
ShipNodeProperties.v
Spine.v
FeatureLink.v
LinkManager.v
BindingManager.v
SubscriptionManager.v
Pending.v
Sender.v
Heartbeat.v
PendingWrite.v
Datagram.v
DatagramWire.v
FeatureData.v
FeatureReplica.v
UseCase.v
Discovery.v
UseCaseFacts.v
UseCaseTable.v
UseCaseSync.v
DiscoveryFacts.v
DiscoveryTree.v
DeviceBuild.v
DeviceLocal.v
RemoteLinks.v
DiscoveryInv.v
DeviceRouting.v
DeviceProperties.v
ScaledValue.v
LoadControl.v
DeviceConfiguration.v
CsLp.v
CsLpSafe.v
