(* ===== verification/Prelude.v ===== *)
(** * OpenEEBUS: a verification library

    OpenEEBUS implements the EEBUS protocols in C: SHIP, which connects two
    devices and establishes trust between them, and SPINE, which runs over
    a SHIP connection and carries the features, bindings and subscriptions
    of the devices.  This library models the parts of it below and proves
    what makes them correct.  Paths are relative to [src/src/] of the repository.

    ** Conventions

    A C function on shared state is a [Prog S A] of this file: from a state it
    returns a value and the new state, or waits for ever ([Block]), or does
    what C leaves undefined ([Crash]).  A NULL pointer is [None], an integer of
    width w a [Z] with its wrap-around written out ([u8], [u32], [u64]), an
    enumeration an inductive type with the constructors of the source.
    Definitions have the names of the source.  Calls that leave the
    model (callbacks, writes to a socket, published events) are entries of a
    trace or log, so that theorems can count and order them.

    ** The files

    - [Prelude]: integers, error codes ([common/eebus_errors.h]), [Prog] with its
      weakest preconditions and the notion [keeps], the hint databases [eebus].
    - [StringUtil] ([common/string_util.c]): comparisons that accept NULL, and bytes as
      hexadecimal digits with their round trip.
    - [Duration], [DateTime], [Calendar] ([common/eebus_date_time/],
      [spine/model/absolute_or_relative_time.c]): numbers in texts as [strtol] and [snprintf] treat them, and
      the times of SPINE.  Durations and points in time are read back from their texts, whatever is
      read is valid, and adding a duration agrees with the line of time of the calendar.
    - [EebusData], [EebusDataWrite], [EebusDataList] ([common/eebus_data/], and the interface of
      [spine/model/smart_energy_management_ps_cfg.c]): the data of SPINE.  A configuration ([EebusDataCfg]) describes
      a tree of data ([Data]) as the tables of the source do; comparison, copying, writing, partial writing, deleting and
      matching are the functions over it that the interfaces of the source dispatch to, and the iterator
      and the arrays the other layers use.  [EebusDataFacts] (writing copies, comparison is
      equality), [EebusDataMerge] (a partial write is an overlay) and [EebusDataTable] (a list
      with identifiers is a table: a partial write updates it, a delete removes what is selected) are its
      theory, [EebusDataDemo] has the load control limits of the witnesses and where lists go wrong.
    - [SpineTables] ([spine/model/*.inc]): every table of the SPINE data model, row by row.
      [SpineTablesFacts]: the tables agree with each other.
    - [EebusDataJson] (the [FromJson] and [ToJson] functions of [common/eebus_data/], over [Json]): the JSON of data.
      [EebusDataWire]: data that can be printed is read back as it was, up to empty arrays and the type of a choice
      that is NULL, and the parser makes only data of the configuration, whatever the text; its conversions are
      undefined only where a value is out of range.
    - [SpineFunction] ([spine/function/function.c], [spine/model/filter.c], [cmd.c], [model.c],
      [spine/feature/operations.c]): the functions of features, filters and commands; [SpineReplica]: a command
      made of an update does to a copy of a function what the update did.
    - [FeatureData] ([spine/feature/feature_local.c], [feature_remote.c]): what messages, updates and requests
      do to the functions of features.  [FeatureReplica]: subscribers keep up with any updates that carry data, a
      read is answered with the data; where a write sends old data; load control between two devices.
    - [Queue] ([common/eebus_queue/eebus_queue.c]) and [Timer]
      ([common/eebus_timer/eebus_timer_linux.c]): the cyclic message queue and
      the one-shot timer with its thread.  The queue refines a bounded FIFO list; a
      timer fires at most once between two stops, and its deadline and its
      remaining time are computed without overflow.
    - [Vector] ([common/vector.c]): the growing array of pointers, with
      failing allocation.  It refines a list.  [VectorInterface] is what the other
      files use of it.
    - [Pool]: a vector whose elements are heap objects the container owns, and
      the loops the containers run over it.  Loads, stores and frees of freed
      cells crash, so that theorems that run a container without a crash exclude
      dangling pointers and double frees; [pool_list] excludes leaks.
    - [Lut] ([common/uint64_lut.c], [common/string_lut.c]): the look-up tables,
      which refine association lists.
    - [PairingEntry], [PairingDigest] ([ship/ship_pairing/ship_pairing_entry.c],
      [ship_pairing_digest.c], part of [ship/tls_certificate/tls_certificate.c]): pairing requests as DNS TXT
      records, and the digest that authenticates them.  OpenSSL is the class [OpenSsl].  A
      digest determines the secret and every value of a request to a node, up to collisions of the HMAC.
    - [ShipPairing], [PairingRun] ([ship/ship_pairing/ship_pairing.c]): the evaluation of
      requests, in critical sections, and the interleavings of these with the timer and the
      reports.  Every step is a case of the relation [trans], from which the invariants are proved:
      no replay, protection of a pairing for fifteen minutes, true reports, no deadlock.
    - [PairingRequest] ([ship/ship_pairing/ship_pairing_request.c]): making and announcing a request, and
      its way to being evaluated as accepted by the node it is addressed to, and the concrete runs.
    - [ShipTypes], [ShipState], [ShipConnection], [ShipHandshake]
      ([ship/ship_connection/ship_connection.c], [client.c], [server.c]): the SHIP
      connection.  [ShipConnectionLoop n] is [n] rounds of the connection thread.
      The other threads are a schedule of events ([Ev]) that the model consumes
      wherever the thread reads shared state or waits: messages of the peer,
      timer wake-ups, trust decisions, requests to stop.  The message codec (class
      [ShipCodec]) and the answers of the environment ([ShipEnv]) are
      parameters of these files.
    - [Json]: the functions of the library cJSON as a class ([CJson]), what its
      documentation says of them ([CJsonLaws]), numbers and their conversion, C strings in
      buffers.  [JsonText] is a JSON printer and parser that satisfies the laws.
    - [ShipSerialize], [ShipDeserialize]
      ([ship/ship_connection/ship_message_serialize.c], [ship_message_deserialize.c]),
      [ShipFrame], [ShipCodec]: the codec of SHIP messages.  What can be sent is read back
      as it was; the reader makes only such values of any bytes; the loops that
      work in place are the functions they stand for; where options are lost and
      conversions undefined.
    - [ShipWire]: the connection with this codec: everything it writes is understood by
      the reader on the other side, and a handshake in bytes.
    - [ShipReach], [ShipRefine]: which states and which trace entries each
      function can produce, and the simulation: every round of the thread is a
      transition of the abstract handshake machine ([next], [can_fail],
      [can_stay], [hs_round]).
    - [ShipProperties]: the theorems on whole runs.  The thread refines the
      abstract machine and never follows NULL; nothing privileged happens
      before trust was given; the end of a connection is reported
      once; the handshake cannot go on for ever; SHIP ids are pinned and versions
      negotiated.  [ShipDemo] has the codec and the runs of the witnesses.
    - [NodeConnection], [ShipNode] ([ship/ship_node/node_connection.c],
      [node_connection_container.c], [ship_node.c]): the peers of a node and the node.
      [ShipNodeConnectionLoop n] is [n] rounds of the node's thread; the critical
      sections of the other threads are a schedule of events ([NodeEv]) that the
      model runs wherever the thread takes the mutex, waits for a message or joins
      a thread.  Connections are addresses that may be used again once freed;
      using a freed one is a [Crash].
    - [ShipNodeInv] (the invariant, and that every event keeps it), [ShipNodeSafe] (an
      event adds at most one peer, which bounds the loops; every
      function of the thread keeps the invariant), [ShipNodeProperties] (the theorems:
      no use of deleted connections, approvals are accepted once and for the connection
      they were given for, exactly who is admitted and trusted, what a
      close does; and four orders of events in which the node goes wrong).
    - [Spine] ([spine/model], [spine/feature], [spine/entity], [spine/device]):
      addresses, the device tree and the look-up of features in it.
    - [FeatureLink] ([spine/feature_link]), [LinkManager], [BindingManager]
      ([spine/binding/binding_manager.c]), [SubscriptionManager]
      ([spine/subscription/subscription_manager.c]): who is bound and subscribed
      to which local feature.  [LinkManager] holds the code the two managers
      repeat.  The theorems give the invariants over all sequences of calls,
      the round trip of adding and removing, the exact effect of the loss of
      a device, the notifications of a publication, and where the code is wrong.
    - [Pending] ([spine/feature/pending_reply.c], [pending_result.c] and their
      containers): requests that wait for an answer.  The containers refine an
      abstract list; each callback is called once; requests time out at the
      eleventh tick.

    - [Sender] ([spine/device/sender.c]): message counters, headers and the calls to
      the node management of a remote device.  Counters never repeat, answers go
      back to where the request came from, and the requests it makes are ones the
      managers of the other side grant safely.
    - [Datagram] ([spine/model/datagram.c], [datagram.h]): headers, datagrams and their encoding as data.
      [DatagramWire]: datagrams as text.  What the sender writes is understood on the other side, where it can be
      printed; any text of a peer is a datagram with commands of known functions, or none, unless a value in it
      cannot be converted; concrete messages, and four that go too far.
    - [UseCase] ([spine/model/usecase_information_types.c], [node_management_types.c],
      [spine/node_management/node_management_remote.c], [node_management_usecase.c], [spine/entity/entity_local.c]):
      the use cases entities announce and the events made of those of a peer.  [UseCaseFacts] (the
      set of use cases that data stands for, and what is published of a change), [UseCaseTable] (what the operations of
      entities do to it), [UseCaseSync]: the entities keep a set, and an observer on another device knows
      it; two entities, and four ways in which use cases go wrong.
    - [FeatureFunctions] ([spine/model/function_types.h], [spine/feature/feature_functions.c]): the
      numbers of functions and features, and which functions a feature has.
    - [Discovery] ([spine/node_management/node_management_detailed_discovery.c], [spine/device/device_remote.c],
      [spine/entity/], [spine/feature/feature_remote.c]): the trees of devices, what a device announces and what
      another makes of it.  [DiscoveryFacts], [DiscoveryTree]: the same tree; [DiscoveryInv]: a well-formed
      tree, whatever is announced, and announcements that do harm.
    - [DeviceBuild] ([common/eebus_device_info.c], [spine/device/device_local.c],
      [spine/entity/entity_local.c], [spine/feature/feature_local.c]): how devices are built; all that can be built is
      announced and discovered as it is.
    - [DeviceLocal] ([spine/device/device_local.c], [spine/node_management/]): the device with its queue, datagrams,
      bindings, subscriptions and the devices of its peers; entities that are added and removed.
      [DeviceRouting]: what each message can change.  [DeviceProperties]: data changes through writes of bound features
      only; a message touches no device but its sender; nothing peers do changes what the device announces; a
      device that is removed leaves exactly the links of the others, where devices have their own addresses; runs from
      discovery to a write, and six that go wrong.
    - [RemoteLinks] ([spine/feature/feature_address_container.c], [feature_local.c]): what a client is subscribed and
      bound to, how it gives that up, and when it never ends doing so.
    - [Heartbeat] ([spine/heartbeat/heartbeat_manager.c]): one heartbeat for every full
      period.
    - [PendingWrite] ([spine/feature/pending_write_request.c], its container, and the
      write handling of [spine/feature/feature_local.c]): writes that wait for the
      approval of the application.  No write is executed twice; what an approval
      and a tick do, exactly.
    - [ScaledValue] ([use_case/model/scaled_value.c], [common/eebus_math/eebus_math.c]): decimal values and
      their text: for every value, what is read back of it, and where C overflows.
    - [LoadControl], [DeviceConfiguration] ([use_case/specialization/], [spine/model/loadcontrol_types.c],
      [device_configuration_types.c], [use_case/actor/cs/cs_lp_public.c]): the limits and the failsafe values a local
      server feature holds, and the power limit of a controllable system.  The limit that is set is
      the limit that is read.
    - [CsLp] ([use_case/actor/cs/cs_lp.c], [cs_lp_public.c], [cs_lp_write_approval_container.c]): the approval of
      writes by a controllable system, over [PendingWrite].  [CsLpSafe]: no limit is executed without the
      approver that was shown it, but for the writes that escape the callback, where no counter is used twice; and
      runs in which the approver is passed by.

    ** Bounds and fuel

    Loops over containers run over the number of elements they have; the parsers of TXT records
    and of durations have the length of the text as fuel, of which each round uses a byte, and the loops that
    bring days into the range of a month have the number of days, of which each round uses a
    month.  The recursion over data follows the configuration.  The only other fuel is
    the number of rounds of [ShipConnectionLoop], which theorems quantify
    over ([handshake_progress] bounds the rounds of the handshake), and of the
    schedule, which is finite in each run and arbitrary; the loops of the node over peers
    that other threads add to are given the peers and the events left, which
    [ShipNodeSafe] shows to be enough.  Containers are assumed
    to stay below the number of elements the vector allows, and,
    above [Vector], allocation to succeed.

    ** What is not modelled

    The JSON library, the sockets, TLS and mDNS libraries, the service that puts the layers together ([service/]),
    the command line ([cli/]) and the actors in [use_case/] other than the limits and approvals of the controllable
    system, whose events are not modelled either; the conversions of scaled values from and to double.  The approval of
    writes ([CsLp]) has the data of the features as part of what an operation finds.  The containers of pending requests and writes, and
    the addresses of [RemoteLinks], are modelled beside the routing of messages, to which they are outputs.  Memory is there for data; whether an allocation of no
    bytes answers NULL is the parameter [Allocator].  The node ([ShipNode]) and the evaluation of pairing requests
    ([ShipPairing]) are modelled side by side; the loop of the node that hands found requests to the
    evaluation is not.  Callbacks into the application
    are recorded, but what they do to the object that calls them is not followed. *)

From Stdlib Require Export Strings.Byte.
From stdpp Require Export base tactics decidable numbers list option strings sets.

#[export] Instance byte_eq_dec : EqDecision byte := byte_eq_dec.

(** ** Machine integers

    A C integer of width [w] is a [Z]; every operation of the source that can
    leave the type's range is wrapped explicitly. *)

Definition u8 (x : Z) : Z := (x `mod` 2 ^ 8)%Z.
Definition u32 (x : Z) : Z := (x `mod` 2 ^ 32)%Z.
Definition u64 (x : Z) : Z := (x `mod` 2 ^ 64)%Z.

Definition is_u32 (x : Z) : Prop := (0 <= x < 2 ^ 32)%Z.

Lemma u32_range x : is_u32 (u32 x).
Proof. unfold is_u32, u32. apply Z.mod_pos_bound. lia. Qed.

Lemma u32_small x : is_u32 x → u32 x = x.
Proof. unfold is_u32, u32. intros. apply Z.mod_small. lia. Qed.

Lemma u64_small x : (0 <= x < 2 ^ 64)%Z → u64 x = x.
Proof. unfold u64. intros. apply Z.mod_small. lia. Qed.

Create HintDb eebus.
Create Rewrite HintDb eebus.
#[export] Hint Resolve u32_range : eebus.

(** ** The error codes of [src/common/eebus_errors.h] *)

Inductive EebusError :=
| kEebusErrorOk
| kEebusErrorNoChange
| kEebusErrorPending
| kEebusErrorInit
| kEebusErrorDeinit
| kEebusErrorActivate
| kEebusErrorDeactivate
| kEebusErrorThread
| kEebusErrorInput
| kEebusErrorInputType
| kEebusErrorInputSize
| kEebusErrorInputArgument
| kEebusErrorInputArgumentNull
| kEebusErrorInputArgumentOutOfRange
| kEebusErrorCommunicationBegin
| kEebusErrorCommunication
| kEebusErrorCommunicationEnd
| kEebusErrorCommunicationBusy
| kEebusErrorCommunicationUpload
| kEebusErrorMemory
| kEebusErrorMemoryAllocate
| kEebusErrorFileSystem
| kEebusErrorFileSystemAccess
| kEebusErrorFileSystemNoFile
| kEebusErrorFileSystemRemove
| kEebusErrorFileSystemCopy
| kEebusErrorTime
| kEebusErrorOther
| kEebusErrorUnknown
| kEebusErrorParse
| kEebusErrorNotImplemented
| kEebusErrorNotSupported
| kEebusErrorNotAvailable
| kEebusErrorCompressFile
| kEebusErrorOtherEnd
| kEebusErrorInvalid.

#[export] Instance EebusError_eq_dec : EqDecision EebusError.
Proof. solve_decision. Defined.

Definition is_ok (e : EebusError) : bool := bool_decide (e = kEebusErrorOk).

Lemma is_ok_true e : is_ok e = true ↔ e = kEebusErrorOk.
Proof. unfold is_ok. apply bool_decide_eq_true. Qed.

Lemma is_ok_false e : is_ok e = false ↔ e ≠ kEebusErrorOk.
Proof. unfold is_ok. apply bool_decide_eq_false. Qed.

(** ** Stateful code

    A C function that works on shared state is a [Prog S A]: from a state it
    returns a value and the new state, or it waits for ever on a condition
    no other thread will signal ([Block]), or it executes an operation C leaves
    undefined, a null-pointer dereference or an access outside an object
    ([Crash], with the reason). *)

Inductive outcome (S A : Type) :=
| Ret (a : A) (s : S)
| Block (s : S)
| Crash (why : string).
Arguments Ret {S A} _ _.
Arguments Block {S A} _.
Arguments Crash {S A} _.

Definition Prog (S A : Type) : Type := S → outcome S A.

Section prog.
Context {S : Type}.

#[export] Instance Prog_ret : MRet (Prog S) := λ A a s, Ret a s.
#[export] Instance Prog_bind : MBind (Prog S) := λ A B f m s,
  match m s with
  | Ret a s' => f a s'
  | Block s' => Block s'
  | Crash why => Crash why
  end.

Definition get : Prog S S := λ s, Ret s s.
Definition gets {A} (f : S → A) : Prog S A := λ s, Ret (f s) s.
Definition modify (f : S → S) : Prog S unit := λ s, Ret tt (f s).
Definition block {A} : Prog S A := λ s, Block s.
Definition crash {A} (why : string) : Prog S A := λ _, Crash why.

(** A C [if] whose condition reads the state. *)
Definition branch {A} (c : S → bool) (t e : Prog S A) : Prog S A :=
  λ s, if c s then t s else e s.
End prog.

(** ** Weakest preconditions

    [wp m Q s]: run from [s], the program does not crash, and if it returns
    [a] in [s'] then [Q a s'] holds. *)

Section wp.
Context {S : Type}.

Definition wp {A} (m : Prog S A) (Q : A → S → Prop) (s : S) : Prop :=
  match m s with
  | Ret a s' => Q a s'
  | Block _ => True
  | Crash _ => False
  end.

Lemma wp_ret {A} (a : A) Q s : Q a s → wp (mret a) Q s.
Proof. done. Qed.

Lemma wp_bind {A B} (m : Prog S A) (f : A → Prog S B) Q s :
  wp m (λ a, wp (f a) Q) s → wp (m ≫= f) Q s.
Proof. unfold wp, mbind, Prog_bind. by destruct (m s). Qed.

Lemma wp_mono {A} (m : Prog S A) (Q Q' : A → S → Prop) s :
  (∀ a s', Q a s' → Q' a s') → wp m Q s → wp m Q' s.
Proof. unfold wp. destruct (m s); auto. Qed.

Lemma wp_get (Q : S → S → Prop) s : Q s s → wp get Q s.
Proof. done. Qed.

Lemma wp_gets {A} (f : S → A) Q s : Q (f s) s → wp (gets f) Q s.
Proof. done. Qed.

Lemma wp_modify f (Q : unit → S → Prop) s : Q tt (f s) → wp (modify f) Q s.
Proof. done. Qed.

Lemma wp_block {A} (Q : A → S → Prop) s : wp block Q s.
Proof. done. Qed.

Lemma wp_branch {A} c (t e : Prog S A) Q s :
  (c s = true → wp t Q s) → (c s = false → wp e Q s) → wp (branch c t e) Q s.
Proof. unfold wp, branch. destruct (c s); intros Ht He; [by apply Ht | by apply He]. Qed.

Lemma wp_branch_true {A} c (t e : Prog S A) Q s : c s = true → wp t Q s → wp (branch c t e) Q s.
Proof. unfold wp, branch. by intros ->. Qed.

Lemma wp_branch_false {A} c (t e : Prog S A) Q s : c s = false → wp e Q s → wp (branch c t e) Q s.
Proof. unfold wp, branch. by intros ->. Qed.

Lemma wp_ret_inv {A} (m : Prog S A) Q s a s' : wp m Q s → m s = Ret a s' → Q a s'.
Proof. unfold wp. intros H E. by rewrite E in H. Qed.

Lemma wp_no_crash {A} (m : Prog S A) Q s why : wp m Q s → m s ≠ Crash why.
Proof. unfold wp. intros H E. by rewrite E in H. Qed.
End wp.

(** ** Programs that stay within a relation

    [keeps P R m]: from a state that satisfies the invariant [P], [m] does not
    crash, and the state it returns in satisfies [P] and is related by [R] to the
    one it started from.  With a preorder [R] the property is closed under
    sequencing, which is what lets a long C function be proved from the facts
    about its calls. *)

Section keeps.
Context {S : Type} (P : S → Prop) (R : S → S → Prop) `{!PreOrder R}.

Definition keeps {A} (m : Prog S A) : Prop :=
  ∀ s, P s → wp m (λ _ s', P s' ∧ R s s') s.

Lemma keeps_ret {A} (a : A) : keeps (mret a).
Proof. intros s H. split; [exact H|reflexivity]. Qed.

Lemma keeps_bind {A B} (m : Prog S A) (k : A → Prog S B) :
  keeps m → (∀ a, keeps (k a)) → keeps (m ≫= k).
Proof.
  intros Hm Hk s Hs. apply wp_bind. eapply wp_mono; [|apply (Hm s Hs)].
  intros a s' [Hs' HR]. eapply wp_mono; [|apply (Hk a s' Hs')].
  simpl. intros _ s'' [Hs'' HR']. split; [done|]. apply (transitivity HR HR').
Qed.

Lemma keeps_gets {A} (g : S → A) : keeps (gets g).
Proof. intros s H. split; [exact H|reflexivity]. Qed.

Lemma keeps_get : keeps get.
Proof. intros s H. split; [exact H|reflexivity]. Qed.

Lemma keeps_modify g : (∀ s, P s → P (g s) ∧ R s (g s)) → keeps (modify g).
Proof. intros H s. apply H. Qed.

Lemma keeps_block {A} : keeps (A := A) block.
Proof. done. Qed.

Lemma keeps_branch {A} c (t e : Prog S A) : keeps t → keeps e → keeps (branch c t e).
Proof. intros Ht He s Hs. apply wp_branch; intros _; [by apply Ht | by apply He]. Qed.

Lemma keeps_if {A} (b : bool) (t e : Prog S A) :
  keeps t → keeps e → keeps (if b then t else e).
Proof. by destruct b. Qed.

(** The rule that uses such a program inside a longer one. *)
Lemma wp_keeps {A B} (m : Prog S A) (k : A → Prog S B) Q s :
  keeps m → P s → (∀ a s', P s' → R s s' → wp (k a) Q s') → wp (m ≫= k) Q s.
Proof.
  intros Hm Hs Hk. apply wp_bind. eapply wp_mono; [|apply (Hm s Hs)].
  simpl. intros a s' [? ?]. auto.
Qed.
End keeps.

#[export] Hint Resolve keeps_ret keeps_gets keeps_get keeps_block : eebus.

Ltac keeps_step :=
  first
    [ solve [eauto with eebus typeclass_instances]
    | apply keeps_bind; [apply _| |intros ?]
    | apply keeps_branch
    | apply keeps_if
    | case_match ].

(** Closes goals of the form [keeps P R m]. *)
Ltac solve_keeps := repeat keeps_step.

(** Runs the monadic structure of a goal, leaving the named steps in place. *)
Ltac unfold_prog := cbv [mbind Prog_bind mret Prog_ret get gets modify block crash branch].

(** ** Lists *)

Section lists.
Context {A : Type}.

Lemma list_insert_middle (l1 l2 : list A) x y i :
  i = length l1 → <[i := y]> (l1 ++ x :: l2) = l1 ++ y :: l2.
Proof.
  intros ->. rewrite insert_app_r_alt by lia.
  by rewrite Nat.sub_diag.
Qed.

Lemma list_lookup_mid (l1 l2 : list A) x i :
  i = length l1 → (l1 ++ x :: l2) !! i = Some x.
Proof. intros ->. by apply list_lookup_middle. Qed.
End lists.
