(* ===== verification/StringUtil.v ===== *)
(** * Strings ([src/common/string_util.c], [string_util.h])

    A [const char*] is an [option string]: NULL is [None], and the terminator is
    the end of the string. *)

From Stdlib Require Import Ascii.
From S2P Require Import Prelude.

Local Open Scope Z_scope.

Fixpoint StringNCompare (a b : string) (n : nat) : bool :=
  match n with
  | O => match a, b with EmptyString, EmptyString => true | _, _ => false end
  | S n' =>
      match a, b with
      | EmptyString, EmptyString => true
      | String c a', String d b' => if bool_decide (c = d) then StringNCompare a' b' n' else false
      | _, _ => false
      end
  end.

Definition StringIsEmpty (s : option string) : bool :=
  match s with None => true | Some s => bool_decide (s = EmptyString) end.

(** [tolower] of the C locale, and the string it makes. *)
Definition tolower (c : ascii) : ascii :=
  let n := N_of_ascii c in
  if (65 <=? n)%N && (n <=? 90)%N then ascii_of_N (n + 32) else c.
Fixpoint lowercase (s : string) : string :=
  match s with
  | EmptyString => EmptyString
  | String c s' => String (tolower c) (lowercase s')
  end.

(** [strcasecmp(a, b) == 0] *)
Definition StringEqualsIgnoreCase (a b : option string) : bool :=
  match a, b with
  | Some a, Some b => bool_decide (lowercase a = lowercase b)
  | _, _ => false
  end.

(** ** Bytes as hexadecimal digits *)

Definition StringHexDigitValue (c : ascii) : Z :=
  let n := Z.of_N (N_of_ascii c) in
  if (48 <=? n) && (n <=? 57) then n - 48
  else if (97 <=? n) && (n <=? 102) then n - 97 + 10
  else if (65 <=? n) && (n <=? 70) then n - 65 + 10
  else -1.

(** The loop of [StringHexToBytes]: [data[i] = (uint8_t)((h << 4) | l)]. *)
Fixpoint hex_bytes (s : string) (data_len : nat) : option (list Z) :=
  match data_len with
  | O => Some []
  | S n =>
      match s with
      | String ch (String cl s') =>
          let h := StringHexDigitValue ch in
          let l := StringHexDigitValue cl in
          if (h <? 0) || (l <? 0) then None
          else bs ← hex_bytes s' n; Some (u8 (Z.lor (Z.shiftl h 4) l) :: bs)
      | _ => None
      end
  end.

(** The bytes, where the function returns true. *)
Definition StringHexToBytes (s : option string) (data_len : nat) : option (list Z) :=
  match s with
  | None => None
  | Some s =>
      if bool_decide (data_len = 0%nat) then None
      else if bool_decide (String.length s ≠ data_len * 2)%nat then None
      else hex_bytes s data_len
  end.

(** [((h >= 10) ? alpha_base - 10 : '0') + h] *)
Definition hex_digit (alpha_base h : Z) : ascii :=
  ascii_of_N (Z.to_N ((if 10 <=? h then alpha_base - 10 else 48) + h)).

Fixpoint hex_string (alpha_base : Z) (data : list Z) : string :=
  match data with
  | [] => EmptyString
  | b :: data' =>
      String (hex_digit alpha_base (Z.land (Z.shiftr b 4) 15))
        (String (hex_digit alpha_base (Z.land b 15)) (hex_string alpha_base data'))
  end.

(** [data] is NULL, or the bytes. *)
Definition StringWithHexAlphaBase (data : option (list Z)) (alpha_base : Z) : option string :=
  match data with
  | None | Some [] => None
  | Some bs => Some (hex_string alpha_base bs)
  end.
Definition StringWithHex (data : option (list Z)) : option string :=
  StringWithHexAlphaBase data 97.
Definition StringWithHexUpper (data : option (list Z)) : option string :=
  StringWithHexAlphaBase data 65.

(** ** Facts *)

(** The bounded comparison with the length of the first string is equality. *)
Lemma StringNCompare_eq a : ∀ b, StringNCompare a b (String.length a) = bool_decide (a = b).
Proof.
  induction a as [|c a IH]; intros [|d b]; simpl; try done.
  case_bool_decide as Hcd; [subst d|by rewrite bool_decide_false by congruence].
  rewrite IH. apply bool_decide_ext. split; congruence.
Qed.

Lemma StringIsEmpty_false s : StringIsEmpty s = false ↔ ∃ a, s = Some a ∧ a ≠ EmptyString.
Proof.
  destruct s as [a|]; simpl; [|naive_solver]. rewrite bool_decide_eq_false. naive_solver.
Qed.

Lemma StringEqualsIgnoreCase_sym a b : StringEqualsIgnoreCase a b = StringEqualsIgnoreCase b a.
Proof. destruct a, b; simpl; try done. by apply bool_decide_ext. Qed.

Lemma StringEqualsIgnoreCase_trans a b c :
  StringEqualsIgnoreCase a b = true → StringEqualsIgnoreCase b c = true →
  StringEqualsIgnoreCase a c = true.
Proof. destruct a, b, c; simpl; rewrite ?bool_decide_eq_true; try done. congruence. Qed.

Lemma StringEqualsIgnoreCase_empty a b :
  StringEqualsIgnoreCase a b = true → StringIsEmpty a = StringIsEmpty b.
Proof.
  destruct a as [a|], b as [b|]; simpl; rewrite ?bool_decide_eq_true; try done.
  intros E. apply bool_decide_ext. destruct a, b; naive_solver.
Qed.

(** Case does not matter to the digits, and every byte comes back. *)
Lemma hex_digit_value (upper : bool) h :
  0 <= h < 16 → StringHexDigitValue (hex_digit (if upper then 65 else 97) h) = h.
Proof.
  intros Hh. assert (h ∈ seqZ 0 16) as Hin by (apply elem_of_seqZ; lia).
  revert Hin. clear Hh. revert h. apply Forall_forall.
  destruct upper; apply (bool_decide_unpack _); vm_compute; exact I.
Qed.

Lemma nibbles b : 0 <= b < 256 → u8 (Z.lor (Z.shiftl (Z.land (Z.shiftr b 4) 15) 4) (Z.land b 15)) = b.
Proof.
  intros Hb. assert (b ∈ seqZ 0 256) as Hin by (apply elem_of_seqZ; lia).
  revert Hin. clear Hb. revert b. apply Forall_forall.
  apply (bool_decide_unpack _). vm_compute. exact I.
Qed.

Lemma hex_round_trip (upper : bool) data : Forall (λ b, 0 <= b < 256) data →
  hex_bytes (hex_string (if upper then 65 else 97) data) (length data) = Some data ∧
  String.length (hex_string (if upper then 65 else 97) data) = (length data * 2)%nat.
Proof.
  induction 1 as [|b data Hb _ [IH1 IH2]]; [done|]. cbn [hex_string hex_bytes length String.length].
  rewrite IH1, IH2. split; [|lia].
  assert (0 <= Z.land b 15 < 16 ∧ 0 <= Z.land (Z.shiftr b 4) 15 < 16) as [Hl Hh].
  { change 15 with (Z.ones 4). rewrite !Z.land_ones by lia. split; apply Z.mod_pos_bound; lia. }
  rewrite !hex_digit_value by done.
  rewrite !(proj2 (Z.ltb_ge _ _)) by lia. simpl. by rewrite nibbles.
Qed.

(** Bytes printed in hexadecimal, in either case, and parsed again come back:
    [StringHexToBytes] inverts [StringWithHex] and [StringWithHexUpper]. *)
Theorem hex_digits_round_trip data :
  data ≠ [] → Forall (λ b, 0 <= b < 256) data →
  StringHexToBytes (StringWithHex (Some data)) (length data) = Some data ∧
  StringHexToBytes (StringWithHexUpper (Some data)) (length data) = Some data.
Proof.
  intros Hne Hb. pose proof (hex_round_trip false data Hb) as [L1 L2].
  pose proof (hex_round_trip true data Hb) as [U1 U2].
  destruct data as [|b data]; [done|].
  unfold StringHexToBytes, StringWithHex, StringWithHexUpper, StringWithHexAlphaBase.
  rewrite !(bool_decide_false (length (b :: data) = 0%nat)) by done.
  by rewrite !bool_decide_false by (intros Hx; apply Hx; assumption).
Qed.

Lemma hex_digits_round_trip_witness :
  StringWithHex (Some [222; 173; 7]) = Some "dead07"%string ∧
  StringHexToBytes (Some "dead07"%string) 3 = Some [222; 173; 7].
Proof.
  split; [reflexivity|].
  refine (proj1 (hex_digits_round_trip [222; 173; 7] _ _)); [discriminate|].
  repeat constructor; lia.
Defined.
