(* ===== verification/FeatureFunctions.v ===== *)
(** * The functions of each feature ([spine/feature/feature_functions.c]) *)

From S2P Require Import Prelude.

Local Open Scope list_scope.

(** ** The numbers of functions and features ([spine/model/function_types.h], [feature_types.h])

    The enumerators, in their order.  The number of a function is also its index in the tables of the model. *)

(** ** Functions *)

Definition kFunctionTypeActuatorLevelData : nat := 0.
Definition kFunctionTypeActuatorLevelDescriptionData : nat := 1.
Definition kFunctionTypeActuatorSwitchData : nat := 2.
Definition kFunctionTypeActuatorSwitchDescriptionData : nat := 3.
Definition kFunctionTypeAlarmListData : nat := 4.
Definition kFunctionTypeBillConstraintsListData : nat := 5.
Definition kFunctionTypeBillDescriptionListData : nat := 6.
Definition kFunctionTypeBillListData : nat := 7.
Definition kFunctionTypeBindingManagementDeleteCall : nat := 8.
Definition kFunctionTypeBindingManagementEntryListData : nat := 9.
Definition kFunctionTypeBindingManagementRequestCall : nat := 10.
Definition kFunctionTypeCommodityListData : nat := 11.
Definition kFunctionTypeDataTunnelingCall : nat := 12.
Definition kFunctionTypeDeviceClassificationManufacturerData : nat := 13.
Definition kFunctionTypeDeviceClassificationUserData : nat := 14.
Definition kFunctionTypeDeviceConfigurationKeyValueConstraintsListData : nat := 15.
Definition kFunctionTypeDeviceConfigurationKeyValueDescriptionListData : nat := 16.
Definition kFunctionTypeDeviceConfigurationKeyValueListData : nat := 17.
Definition kFunctionTypeDeviceDiagnosisHeartbeatData : nat := 18.
Definition kFunctionTypeDeviceDiagnosisServiceData : nat := 19.
Definition kFunctionTypeDeviceDiagnosisStateData : nat := 20.
Definition kFunctionTypeDirectControlActivityListData : nat := 21.
Definition kFunctionTypeDirectControlDescriptionData : nat := 22.
Definition kFunctionTypeElectricalConnectionCharacteristicData : nat := 23.
Definition kFunctionTypeElectricalConnectionCharacteristicListData : nat := 24.
Definition kFunctionTypeElectricalConnectionDescriptionListData : nat := 25.
Definition kFunctionTypeElectricalConnectionParameterDescriptionListData : nat := 26.
Definition kFunctionTypeElectricalConnectionPermittedValueSetListData : nat := 27.
Definition kFunctionTypeElectricalConnectionStateListData : nat := 28.
Definition kFunctionTypeHvacOperationModeDescriptionListData : nat := 29.
Definition kFunctionTypeHvacOverrunDescriptionListData : nat := 30.
Definition kFunctionTypeHvacOverrunListData : nat := 31.
Definition kFunctionTypeHvacSystemFunctionDescriptionListData : nat := 32.
Definition kFunctionTypeHvacSystemFunctionListData : nat := 33.
Definition kFunctionTypeHvacSystemFunctionOperationModeRelationListData : nat := 34.
Definition kFunctionTypeHvacSystemFunctionPowerSequenceRelationListData : nat := 35.
Definition kFunctionTypeHvacSystemFunctionSetpointRelationListData : nat := 36.
Definition kFunctionTypeIdentificationListData : nat := 37.
Definition kFunctionTypeIncentiveDescriptionListData : nat := 38.
Definition kFunctionTypeIncentiveListData : nat := 39.
Definition kFunctionTypeIncentiveTableConstraintsData : nat := 40.
Definition kFunctionTypeIncentiveTableData : nat := 41.
Definition kFunctionTypeIncentiveTableDescriptionData : nat := 42.
Definition kFunctionTypeLoadControlEventListData : nat := 43.
Definition kFunctionTypeLoadControlLimitConstraintsListData : nat := 44.
Definition kFunctionTypeLoadControlLimitDescriptionListData : nat := 45.
Definition kFunctionTypeLoadControlLimitListData : nat := 46.
Definition kFunctionTypeLoadControlNodeData : nat := 47.
Definition kFunctionTypeLoadControlStateListData : nat := 48.
Definition kFunctionTypeMeasurementConstraintsListData : nat := 49.
Definition kFunctionTypeMeasurementDescriptionListData : nat := 50.
Definition kFunctionTypeMeasurementListData : nat := 51.
Definition kFunctionTypeMeasurementSeriesListData : nat := 52.
Definition kFunctionTypeMeasurementThresholdRelationListData : nat := 53.
Definition kFunctionTypeMessagingListData : nat := 54.
Definition kFunctionTypeNetworkManagementAbortCall : nat := 55.
Definition kFunctionTypeNetworkManagementAddNodeCall : nat := 56.
Definition kFunctionTypeNetworkManagementDeviceDescriptionListData : nat := 57.
Definition kFunctionTypeNetworkManagementDiscoverCall : nat := 58.
Definition kFunctionTypeNetworkManagementEntityDescriptionListData : nat := 59.
Definition kFunctionTypeNetworkManagementFeatureDescriptionListData : nat := 60.
Definition kFunctionTypeNetworkManagementJoiningModeData : nat := 61.
Definition kFunctionTypeNetworkManagementModifyNodeCall : nat := 62.
Definition kFunctionTypeNetworkManagementProcessStateData : nat := 63.
Definition kFunctionTypeNetworkManagementRemoveNodeCall : nat := 64.
Definition kFunctionTypeNetworkManagementReportCandidateData : nat := 65.
Definition kFunctionTypeNetworkManagementScanNetworkCall : nat := 66.
Definition kFunctionTypeNodeManagementBindingData : nat := 67.
Definition kFunctionTypeNodeManagementBindingDeleteCall : nat := 68.
Definition kFunctionTypeNodeManagementBindingRequestCall : nat := 69.
Definition kFunctionTypeNodeManagementDestinationListData : nat := 70.
Definition kFunctionTypeNodeManagementDetailedDiscoveryData : nat := 71.
Definition kFunctionTypeNodeManagementSubscriptionData : nat := 72.
Definition kFunctionTypeNodeManagementSubscriptionDeleteCall : nat := 73.
Definition kFunctionTypeNodeManagementSubscriptionRequestCall : nat := 74.
Definition kFunctionTypeNodeManagementUseCaseData : nat := 75.
Definition kFunctionTypeOperatingConstraintsDurationListData : nat := 76.
Definition kFunctionTypeOperatingConstraintsInterruptListData : nat := 77.
Definition kFunctionTypeOperatingConstraintsPowerDescriptionListData : nat := 78.
Definition kFunctionTypeOperatingConstraintsPowerLevelListData : nat := 79.
Definition kFunctionTypeOperatingConstraintsPowerRangeListData : nat := 80.
Definition kFunctionTypeOperatingConstraintsResumeImplicationListData : nat := 81.
Definition kFunctionTypePowerSequenceAlternativesRelationListData : nat := 82.
Definition kFunctionTypePowerSequenceDescriptionListData : nat := 83.
Definition kFunctionTypePowerSequenceNodeScheduleInformationData : nat := 84.
Definition kFunctionTypePowerSequencePriceCalculationRequestCall : nat := 85.
Definition kFunctionTypePowerSequencePriceListData : nat := 86.
Definition kFunctionTypePowerSequenceScheduleConfigurationRequestCall : nat := 87.
Definition kFunctionTypePowerSequenceScheduleConstraintsListData : nat := 88.
Definition kFunctionTypePowerSequenceScheduleListData : nat := 89.
Definition kFunctionTypePowerSequenceSchedulePreferenceListData : nat := 90.
Definition kFunctionTypePowerSequenceStateListData : nat := 91.
Definition kFunctionTypePowerTimeSlotScheduleConstraintsListData : nat := 92.
Definition kFunctionTypePowerTimeSlotScheduleListData : nat := 93.
Definition kFunctionTypePowerTimeSlotValueListData : nat := 94.
Definition kFunctionTypeResultData : nat := 95.
Definition kFunctionTypeSensingDescriptionData : nat := 96.
Definition kFunctionTypeSensingListData : nat := 97.
Definition kFunctionTypeSessionIdentificationListData : nat := 98.
Definition kFunctionTypeSessionMeasurementRelationListData : nat := 99.
Definition kFunctionTypeSetpointConstraintsListData : nat := 100.
Definition kFunctionTypeSetpointDescriptionListData : nat := 101.
Definition kFunctionTypeSetpointListData : nat := 102.
Definition kFunctionTypeSmartEnergyManagementPsConfigurationRequestCall : nat := 103.
Definition kFunctionTypeSmartEnergyManagementPsData : nat := 104.
Definition kFunctionTypeSmartEnergyManagementPsPriceCalculationRequestCall : nat := 105.
Definition kFunctionTypeSmartEnergyManagementPsPriceData : nat := 106.
Definition kFunctionTypeSpecificationVersionListData : nat := 107.
Definition kFunctionTypeStateInformationListData : nat := 108.
Definition kFunctionTypeSubscriptionManagementDeleteCall : nat := 109.
Definition kFunctionTypeSubscriptionManagementEntryListData : nat := 110.
Definition kFunctionTypeSubscriptionManagementRequestCall : nat := 111.
Definition kFunctionTypeSupplyConditionDescriptionListData : nat := 112.
Definition kFunctionTypeSupplyConditionListData : nat := 113.
Definition kFunctionTypeSupplyConditionThresholdRelationListData : nat := 114.
Definition kFunctionTypeTariffBoundaryRelationListData : nat := 115.
Definition kFunctionTypeTariffDescriptionListData : nat := 116.
Definition kFunctionTypeTariffListData : nat := 117.
Definition kFunctionTypeTariffOverallConstraintsData : nat := 118.
Definition kFunctionTypeTariffTierRelationListData : nat := 119.
Definition kFunctionTypeTaskManagementJobDescriptionListData : nat := 120.
Definition kFunctionTypeTaskManagementJobListData : nat := 121.
Definition kFunctionTypeTaskManagementJobRelationListData : nat := 122.
Definition kFunctionTypeTaskManagementOverviewData : nat := 123.
Definition kFunctionTypeThresholdConstraintsListData : nat := 124.
Definition kFunctionTypeThresholdDescriptionListData : nat := 125.
Definition kFunctionTypeThresholdListData : nat := 126.
Definition kFunctionTypeTierBoundaryDescriptionListData : nat := 127.
Definition kFunctionTypeTierBoundaryListData : nat := 128.
Definition kFunctionTypeTierDescriptionListData : nat := 129.
Definition kFunctionTypeTierIncentiveRelationListData : nat := 130.
Definition kFunctionTypeTierListData : nat := 131.
Definition kFunctionTypeTimeDistributorData : nat := 132.
Definition kFunctionTypeTimeDistributorEnquiryCall : nat := 133.
Definition kFunctionTypeTimeInformationData : nat := 134.
Definition kFunctionTypeTimePrecisionData : nat := 135.
Definition kFunctionTypeTimeSeriesConstraintsListData : nat := 136.
Definition kFunctionTypeTimeSeriesDescriptionListData : nat := 137.
Definition kFunctionTypeTimeSeriesListData : nat := 138.
Definition kFunctionTypeTimeTableConstraintsListData : nat := 139.
Definition kFunctionTypeTimeTableDescriptionListData : nat := 140.
Definition kFunctionTypeTimeTableListData : nat := 141.
Definition kFunctionTypeUseCaseInformationListData : nat := 142.
Definition kFunctionTypeNum : nat := 143.

(** ** Features *)

Definition kFeatureTypeTypeActuatorLevel : Z := 0.
Definition kFeatureTypeTypeActuatorSwitch : Z := 1.
Definition kFeatureTypeTypeAlarm : Z := 2.
Definition kFeatureTypeTypeDataTunneling : Z := 3.
Definition kFeatureTypeTypeDeviceClassification : Z := 4.
Definition kFeatureTypeTypeDeviceDiagnosis : Z := 5.
Definition kFeatureTypeTypeDirectControl : Z := 6.
Definition kFeatureTypeTypeElectricalConnection : Z := 7.
Definition kFeatureTypeTypeGeneric : Z := 8.
Definition kFeatureTypeTypeHvac : Z := 9.
Definition kFeatureTypeTypeLoadControl : Z := 10.
Definition kFeatureTypeTypeMeasurement : Z := 11.
Definition kFeatureTypeTypeMessaging : Z := 12.
Definition kFeatureTypeTypeNetworkManagement : Z := 13.
Definition kFeatureTypeTypeNodeManagement : Z := 14.
Definition kFeatureTypeTypeOperatingConstraints : Z := 15.
Definition kFeatureTypeTypePowerSequences : Z := 16.
Definition kFeatureTypeTypeSensing : Z := 17.
Definition kFeatureTypeTypeSetpoint : Z := 18.
Definition kFeatureTypeTypeSmartEnergyManagementPs : Z := 19.
Definition kFeatureTypeTypeTaskManagement : Z := 20.
Definition kFeatureTypeTypeThreshold : Z := 21.
Definition kFeatureTypeTypeTimeInformation : Z := 22.
Definition kFeatureTypeTypeTimeTable : Z := 23.
Definition kFeatureTypeTypeDeviceConfiguration : Z := 24.
Definition kFeatureTypeTypeSupplyCondition : Z := 25.
Definition kFeatureTypeTypeTimeSeries : Z := 26.
Definition kFeatureTypeTypeTariffInformation : Z := 27.
Definition kFeatureTypeTypeIncentiveTable : Z := 28.
Definition kFeatureTypeTypeBill : Z := 29.
Definition kFeatureTypeTypeIdentification : Z := 30.
Definition kFeatureTypeTypeStateInformation : Z := 31.

Definition actuator_level_functions : list nat :=
  [ kFunctionTypeActuatorLevelData;
    kFunctionTypeActuatorLevelDescriptionData ].

Definition actuator_switch_functions : list nat :=
  [ kFunctionTypeActuatorSwitchData;
    kFunctionTypeActuatorSwitchDescriptionData ].

Definition alarm_functions : list nat :=
  [ kFunctionTypeAlarmListData ].

Definition data_tunneling_functions : list nat :=
  [ kFunctionTypeDataTunnelingCall ].

Definition device_classification_functions : list nat :=
  [ kFunctionTypeDeviceClassificationManufacturerData;
    kFunctionTypeDeviceClassificationUserData ].

Definition device_diagnosis_functions : list nat :=
  [ kFunctionTypeDeviceDiagnosisStateData;
    kFunctionTypeDeviceDiagnosisHeartbeatData;
    kFunctionTypeDeviceDiagnosisServiceData ].

Definition direct_control_functions : list nat :=
  [ kFunctionTypeDirectControlActivityListData;
    kFunctionTypeDirectControlDescriptionData ].

Definition electrical_connection_functions : list nat :=
  [ kFunctionTypeElectricalConnectionDescriptionListData;
    kFunctionTypeElectricalConnectionParameterDescriptionListData;
    kFunctionTypeElectricalConnectionPermittedValueSetListData;
    kFunctionTypeElectricalConnectionStateListData;
    kFunctionTypeElectricalConnectionCharacteristicData;
    kFunctionTypeElectricalConnectionCharacteristicListData ].

Definition generic_functions : list nat :=
  [ kFunctionTypeActuatorLevelData;
    kFunctionTypeActuatorLevelDescriptionData;
    kFunctionTypeActuatorSwitchData;
    kFunctionTypeActuatorSwitchDescriptionData;
    kFunctionTypeAlarmListData;
    kFunctionTypeBillDescriptionListData;
    kFunctionTypeBillConstraintsListData;
    kFunctionTypeBillListData;
    kFunctionTypeDataTunnelingCall;
    kFunctionTypeDeviceClassificationManufacturerData;
    kFunctionTypeDeviceClassificationUserData;
    kFunctionTypeDeviceConfigurationKeyValueConstraintsListData;
    kFunctionTypeDeviceConfigurationKeyValueDescriptionListData;
    kFunctionTypeDeviceConfigurationKeyValueListData;
    kFunctionTypeDeviceDiagnosisStateData;
    kFunctionTypeDeviceDiagnosisHeartbeatData;
    kFunctionTypeDeviceDiagnosisServiceData;
    kFunctionTypeDirectControlActivityListData;
    kFunctionTypeDirectControlDescriptionData;
    kFunctionTypeElectricalConnectionDescriptionListData;
    kFunctionTypeElectricalConnectionParameterDescriptionListData;
    kFunctionTypeElectricalConnectionPermittedValueSetListData;
    kFunctionTypeElectricalConnectionStateListData;
    kFunctionTypeElectricalConnectionCharacteristicData;
    kFunctionTypeElectricalConnectionCharacteristicListData;
    kFunctionTypeHvacOperationModeDescriptionListData;
    kFunctionTypeHvacOverrunDescriptionListData;
    kFunctionTypeHvacOverrunListData;
    kFunctionTypeHvacSystemFunctionDescriptionListData;
    kFunctionTypeHvacSystemFunctionListData;
    kFunctionTypeHvacSystemFunctionOperationModeRelationListData;
    kFunctionTypeHvacSystemFunctionPowerSequenceRelationListData;
    kFunctionTypeHvacSystemFunctionSetpointRelationListData;
    kFunctionTypeIdentificationListData;
    kFunctionTypeSessionIdentificationListData;
    kFunctionTypeSessionMeasurementRelationListData;
    kFunctionTypeIncentiveTableDescriptionData;
    kFunctionTypeIncentiveTableConstraintsData;
    kFunctionTypeIncentiveTableData;
    kFunctionTypeLoadControlEventListData;
    kFunctionTypeLoadControlLimitConstraintsListData;
    kFunctionTypeLoadControlLimitDescriptionListData;
    kFunctionTypeLoadControlLimitListData;
    kFunctionTypeLoadControlNodeData;
    kFunctionTypeLoadControlStateListData;
    kFunctionTypeMeasurementListData;
    kFunctionTypeMeasurementDescriptionListData;
    kFunctionTypeMeasurementConstraintsListData;
    kFunctionTypeMeasurementThresholdRelationListData;
    kFunctionTypeMeasurementSeriesListData;
    kFunctionTypeMessagingListData;
    kFunctionTypeNetworkManagementAbortCall;
    kFunctionTypeNetworkManagementAddNodeCall;
    kFunctionTypeNetworkManagementDeviceDescriptionListData;
    kFunctionTypeNetworkManagementDiscoverCall;
    kFunctionTypeNetworkManagementEntityDescriptionListData;
    kFunctionTypeNetworkManagementFeatureDescriptionListData;
    kFunctionTypeNetworkManagementJoiningModeData;
    kFunctionTypeNetworkManagementModifyNodeCall;
    kFunctionTypeNetworkManagementProcessStateData;
    kFunctionTypeNetworkManagementRemoveNodeCall;
    kFunctionTypeNetworkManagementReportCandidateData;
    kFunctionTypeNetworkManagementScanNetworkCall;
    kFunctionTypeOperatingConstraintsDurationListData;
    kFunctionTypeOperatingConstraintsInterruptListData;
    kFunctionTypeOperatingConstraintsPowerDescriptionListData;
    kFunctionTypeOperatingConstraintsPowerLevelListData;
    kFunctionTypeOperatingConstraintsPowerRangeListData;
    kFunctionTypeOperatingConstraintsResumeImplicationListData;
    kFunctionTypePowerSequenceAlternativesRelationListData;
    kFunctionTypePowerSequenceDescriptionListData;
    kFunctionTypePowerSequenceNodeScheduleInformationData;
    kFunctionTypePowerSequencePriceCalculationRequestCall;
    kFunctionTypePowerSequencePriceListData;
    kFunctionTypePowerSequenceScheduleConfigurationRequestCall;
    kFunctionTypePowerSequenceScheduleConstraintsListData;
    kFunctionTypePowerSequenceScheduleListData;
    kFunctionTypePowerSequenceSchedulePreferenceListData;
    kFunctionTypePowerSequenceStateListData;
    kFunctionTypePowerTimeSlotScheduleConstraintsListData;
    kFunctionTypePowerTimeSlotScheduleListData;
    kFunctionTypePowerTimeSlotValueListData;
    kFunctionTypeSensingDescriptionData;
    kFunctionTypeSensingListData;
    kFunctionTypeSetpointConstraintsListData;
    kFunctionTypeSetpointDescriptionListData;
    kFunctionTypeSetpointListData;
    kFunctionTypeSmartEnergyManagementPsConfigurationRequestCall;
    kFunctionTypeSmartEnergyManagementPsData;
    kFunctionTypeSmartEnergyManagementPsPriceCalculationRequestCall;
    kFunctionTypeSmartEnergyManagementPsPriceData;
    kFunctionTypeStateInformationListData;
    kFunctionTypeSupplyConditionDescriptionListData;
    kFunctionTypeSupplyConditionListData;
    kFunctionTypeSupplyConditionThresholdRelationListData;
    kFunctionTypeIncentiveDescriptionListData;
    kFunctionTypeIncentiveListData;
    kFunctionTypeTariffBoundaryRelationListData;
    kFunctionTypeTariffDescriptionListData;
    kFunctionTypeTariffListData;
    kFunctionTypeTariffOverallConstraintsData;
    kFunctionTypeTariffTierRelationListData;
    kFunctionTypeTierBoundaryDescriptionListData;
    kFunctionTypeTierBoundaryListData;
    kFunctionTypeTierDescriptionListData;
    kFunctionTypeTierIncentiveRelationListData;
    kFunctionTypeTierListData;
    kFunctionTypeTaskManagementJobDescriptionListData;
    kFunctionTypeTaskManagementJobListData;
    kFunctionTypeTaskManagementJobRelationListData;
    kFunctionTypeTaskManagementOverviewData;
    kFunctionTypeThresholdConstraintsListData;
    kFunctionTypeThresholdDescriptionListData;
    kFunctionTypeThresholdListData;
    kFunctionTypeTimeDistributorData;
    kFunctionTypeTimeDistributorEnquiryCall;
    kFunctionTypeTimeInformationData;
    kFunctionTypeTimePrecisionData;
    kFunctionTypeTimeSeriesDescriptionListData;
    kFunctionTypeTimeSeriesConstraintsListData;
    kFunctionTypeTimeSeriesListData;
    kFunctionTypeTimeTableConstraintsListData;
    kFunctionTypeTimeTableDescriptionListData;
    kFunctionTypeTimeTableListData ].

Definition hvac_functions : list nat :=
  [ kFunctionTypeHvacOperationModeDescriptionListData;
    kFunctionTypeHvacOverrunDescriptionListData;
    kFunctionTypeHvacOverrunListData;
    kFunctionTypeHvacSystemFunctionDescriptionListData;
    kFunctionTypeHvacSystemFunctionListData;
    kFunctionTypeHvacSystemFunctionOperationModeRelationListData;
    kFunctionTypeHvacSystemFunctionPowerSequenceRelationListData;
    kFunctionTypeHvacSystemFunctionSetpointRelationListData ].

Definition load_control_functions : list nat :=
  [ kFunctionTypeLoadControlEventListData;
    kFunctionTypeLoadControlLimitConstraintsListData;
    kFunctionTypeLoadControlLimitDescriptionListData;
    kFunctionTypeLoadControlLimitListData;
    kFunctionTypeLoadControlNodeData;
    kFunctionTypeLoadControlStateListData ].

Definition measurement_functions : list nat :=
  [ kFunctionTypeMeasurementListData;
    kFunctionTypeMeasurementDescriptionListData;
    kFunctionTypeMeasurementConstraintsListData;
    kFunctionTypeMeasurementThresholdRelationListData;
    kFunctionTypeMeasurementSeriesListData ].

Definition messaging_functions : list nat :=
  [ kFunctionTypeMessagingListData ].

Definition network_management_functions : list nat :=
  [ kFunctionTypeNetworkManagementAbortCall;
    kFunctionTypeNetworkManagementAddNodeCall;
    kFunctionTypeNetworkManagementDeviceDescriptionListData;
    kFunctionTypeNetworkManagementDiscoverCall;
    kFunctionTypeNetworkManagementEntityDescriptionListData;
    kFunctionTypeNetworkManagementFeatureDescriptionListData;
    kFunctionTypeNetworkManagementJoiningModeData;
    kFunctionTypeNetworkManagementModifyNodeCall;
    kFunctionTypeNetworkManagementProcessStateData;
    kFunctionTypeNetworkManagementRemoveNodeCall;
    kFunctionTypeNetworkManagementReportCandidateData;
    kFunctionTypeNetworkManagementScanNetworkCall ].

Definition node_management_functions : list nat :=
  [ kFunctionTypeNodeManagementBindingData;
    kFunctionTypeNodeManagementBindingDeleteCall;
    kFunctionTypeNodeManagementBindingRequestCall;
    kFunctionTypeNodeManagementDestinationListData;
    kFunctionTypeNodeManagementDetailedDiscoveryData;
    kFunctionTypeNodeManagementSubscriptionData;
    kFunctionTypeNodeManagementSubscriptionDeleteCall;
    kFunctionTypeNodeManagementSubscriptionRequestCall;
    kFunctionTypeNodeManagementUseCaseData ].

Definition operating_constraints_functions : list nat :=
  [ kFunctionTypeOperatingConstraintsDurationListData;
    kFunctionTypeOperatingConstraintsInterruptListData;
    kFunctionTypeOperatingConstraintsPowerDescriptionListData;
    kFunctionTypeOperatingConstraintsPowerLevelListData;
    kFunctionTypeOperatingConstraintsPowerRangeListData;
    kFunctionTypeOperatingConstraintsResumeImplicationListData ].

Definition power_sequences_functions : list nat :=
  [ kFunctionTypePowerSequenceAlternativesRelationListData;
    kFunctionTypePowerSequenceDescriptionListData;
    kFunctionTypePowerSequenceNodeScheduleInformationData;
    kFunctionTypePowerSequencePriceCalculationRequestCall;
    kFunctionTypePowerSequencePriceListData;
    kFunctionTypePowerSequenceScheduleConfigurationRequestCall;
    kFunctionTypePowerSequenceScheduleConstraintsListData;
    kFunctionTypePowerSequenceScheduleListData;
    kFunctionTypePowerSequenceSchedulePreferenceListData;
    kFunctionTypePowerSequenceStateListData;
    kFunctionTypePowerTimeSlotScheduleConstraintsListData;
    kFunctionTypePowerTimeSlotScheduleListData;
    kFunctionTypePowerTimeSlotValueListData ].

Definition sensing_functions : list nat :=
  [ kFunctionTypeSensingDescriptionData;
    kFunctionTypeSensingListData ].

Definition setpoint_functions : list nat :=
  [ kFunctionTypeSetpointConstraintsListData;
    kFunctionTypeSetpointDescriptionListData;
    kFunctionTypeSetpointListData ].

Definition smart_energy_management_ps_functions : list nat :=
  [ kFunctionTypeSmartEnergyManagementPsConfigurationRequestCall;
    kFunctionTypeSmartEnergyManagementPsData;
    kFunctionTypeSmartEnergyManagementPsPriceCalculationRequestCall;
    kFunctionTypeSmartEnergyManagementPsPriceData ].

Definition task_management_functions : list nat :=
  [ kFunctionTypeTaskManagementJobDescriptionListData;
    kFunctionTypeTaskManagementJobListData;
    kFunctionTypeTaskManagementJobRelationListData;
    kFunctionTypeTaskManagementOverviewData ].

Definition threshold_functions : list nat :=
  [ kFunctionTypeThresholdConstraintsListData;
    kFunctionTypeThresholdDescriptionListData;
    kFunctionTypeThresholdListData ].

Definition time_information_functions : list nat :=
  [ kFunctionTypeTimeDistributorData;
    kFunctionTypeTimeDistributorEnquiryCall;
    kFunctionTypeTimeInformationData;
    kFunctionTypeTimePrecisionData ].

Definition timetable_functions : list nat :=
  [ kFunctionTypeTimeTableConstraintsListData;
    kFunctionTypeTimeTableDescriptionListData;
    kFunctionTypeTimeTableListData ].

Definition device_configuration_functions : list nat :=
  [ kFunctionTypeDeviceConfigurationKeyValueConstraintsListData;
    kFunctionTypeDeviceConfigurationKeyValueDescriptionListData;
    kFunctionTypeDeviceConfigurationKeyValueListData ].

Definition supply_condition_functions : list nat :=
  [ kFunctionTypeSupplyConditionDescriptionListData;
    kFunctionTypeSupplyConditionListData;
    kFunctionTypeSupplyConditionThresholdRelationListData ].

Definition time_series_functions : list nat :=
  [ kFunctionTypeTimeSeriesDescriptionListData;
    kFunctionTypeTimeSeriesConstraintsListData;
    kFunctionTypeTimeSeriesListData ].

Definition tariff_information_functions : list nat :=
  [ kFunctionTypeIncentiveDescriptionListData;
    kFunctionTypeIncentiveListData;
    kFunctionTypeTariffBoundaryRelationListData;
    kFunctionTypeTariffDescriptionListData;
    kFunctionTypeTariffListData;
    kFunctionTypeTariffOverallConstraintsData;
    kFunctionTypeTariffTierRelationListData;
    kFunctionTypeTierBoundaryDescriptionListData;
    kFunctionTypeTierBoundaryListData;
    kFunctionTypeTierDescriptionListData;
    kFunctionTypeTierIncentiveRelationListData;
    kFunctionTypeTierListData ].

Definition incentive_table_functions : list nat :=
  [ kFunctionTypeIncentiveTableDescriptionData;
    kFunctionTypeIncentiveTableConstraintsData;
    kFunctionTypeIncentiveTableData ].

Definition bill_functions : list nat :=
  [ kFunctionTypeBillDescriptionListData;
    kFunctionTypeBillConstraintsListData;
    kFunctionTypeBillListData ].

Definition identification_functions : list nat :=
  [ kFunctionTypeIdentificationListData;
    kFunctionTypeSessionIdentificationListData;
    kFunctionTypeSessionMeasurementRelationListData ].

Definition state_information_functions : list nat :=
  [ kFunctionTypeStateInformationListData ].

Definition feature_functions_table : list (Z * list nat) :=
  [ (kFeatureTypeTypeActuatorLevel, actuator_level_functions);
    (kFeatureTypeTypeActuatorSwitch, actuator_switch_functions);
    (kFeatureTypeTypeAlarm, alarm_functions);
    (kFeatureTypeTypeDataTunneling, data_tunneling_functions);
    (kFeatureTypeTypeDeviceClassification, device_classification_functions);
    (kFeatureTypeTypeDeviceDiagnosis, device_diagnosis_functions);
    (kFeatureTypeTypeDirectControl, direct_control_functions);
    (kFeatureTypeTypeElectricalConnection, electrical_connection_functions);
    (kFeatureTypeTypeGeneric, generic_functions);
    (kFeatureTypeTypeHvac, hvac_functions);
    (kFeatureTypeTypeLoadControl, load_control_functions);
    (kFeatureTypeTypeMeasurement, measurement_functions);
    (kFeatureTypeTypeMessaging, messaging_functions);
    (kFeatureTypeTypeNetworkManagement, network_management_functions);
    (kFeatureTypeTypeNodeManagement, node_management_functions);
    (kFeatureTypeTypeOperatingConstraints, operating_constraints_functions);
    (kFeatureTypeTypePowerSequences, power_sequences_functions);
    (kFeatureTypeTypeSensing, sensing_functions);
    (kFeatureTypeTypeSetpoint, setpoint_functions);
    (kFeatureTypeTypeSmartEnergyManagementPs, smart_energy_management_ps_functions);
    (kFeatureTypeTypeTaskManagement, task_management_functions);
    (kFeatureTypeTypeThreshold, threshold_functions);
    (kFeatureTypeTypeTimeInformation, time_information_functions);
    (kFeatureTypeTypeTimeTable, timetable_functions);
    (kFeatureTypeTypeDeviceConfiguration, device_configuration_functions);
    (kFeatureTypeTypeSupplyCondition, supply_condition_functions);
    (kFeatureTypeTypeTimeSeries, time_series_functions);
    (kFeatureTypeTypeTariffInformation, tariff_information_functions);
    (kFeatureTypeTypeIncentiveTable, incentive_table_functions);
    (kFeatureTypeTypeBill, bill_functions);
    (kFeatureTypeTypeIdentification, identification_functions);
    (kFeatureTypeTypeStateInformation, state_information_functions) ].

(** The first row of the type; NULL is [None]. *)
Definition GetFeatureFunctions (feature_type : Z) : option (list nat) :=
  snd <$> find (λ r, (fst r =? feature_type)%Z) feature_functions_table.
