(* ===== verification/Duration.v ===== *)
(** * Durations ([src/common/eebus_date_time/eebus_duration.c])

    A duration, its ISO 8601 text and what reads it.  A [char*] is the list of its
    characters up to the terminator. *)

From Stdlib Require Import Ascii DecimalN Strings.String.
From S2P Require Import Prelude.

Local Open Scope list_scope.

(** ** Decimal numbers in C text

    [strtol] and the conversions ["%d"], ["%02d"], ["%03d"] and ["%04d"] of [snprintf], over lists
    of characters; the digits of [JsonText] are the same. *)

Local Open Scope Z_scope.

(** ** Digits *)

Fixpoint print_uint (u : Decimal.uint) : list ascii :=
  match u with
  | Decimal.Nil => []
  | Decimal.D0 u => "0"%char :: print_uint u
  | Decimal.D1 u => "1"%char :: print_uint u
  | Decimal.D2 u => "2"%char :: print_uint u
  | Decimal.D3 u => "3"%char :: print_uint u
  | Decimal.D4 u => "4"%char :: print_uint u
  | Decimal.D5 u => "5"%char :: print_uint u
  | Decimal.D6 u => "6"%char :: print_uint u
  | Decimal.D7 u => "7"%char :: print_uint u
  | Decimal.D8 u => "8"%char :: print_uint u
  | Decimal.D9 u => "9"%char :: print_uint u
  end.

Fixpoint parse_uint (l : list ascii) : Decimal.uint * list ascii :=
  match l with
  | "0"%char :: l => let '(u, r) := parse_uint l in (Decimal.D0 u, r)
  | "1"%char :: l => let '(u, r) := parse_uint l in (Decimal.D1 u, r)
  | "2"%char :: l => let '(u, r) := parse_uint l in (Decimal.D2 u, r)
  | "3"%char :: l => let '(u, r) := parse_uint l in (Decimal.D3 u, r)
  | "4"%char :: l => let '(u, r) := parse_uint l in (Decimal.D4 u, r)
  | "5"%char :: l => let '(u, r) := parse_uint l in (Decimal.D5 u, r)
  | "6"%char :: l => let '(u, r) := parse_uint l in (Decimal.D6 u, r)
  | "7"%char :: l => let '(u, r) := parse_uint l in (Decimal.D7 u, r)
  | "8"%char :: l => let '(u, r) := parse_uint l in (Decimal.D8 u, r)
  | "9"%char :: l => let '(u, r) := parse_uint l in (Decimal.D9 u, r)
  | _ => (Decimal.Nil, l)
  end.

Definition isdigit (c : ascii) : bool :=
  let n := N_of_ascii c in (48 <=? n)%N && (n <=? 57)%N.

(** What follows the digits of a number. *)
Definition no_digit (l : list ascii) : Prop :=
  match l with [] => True | c :: _ => isdigit c = false end.

Lemma parse_uint_no_digit l : no_digit l → parse_uint l = (Decimal.Nil, l).
Proof.
  destruct l as [|c l]; [done|]. destruct c as [b0 b1 b2 b3 b4 b5 b6 b7].
  destruct b0, b1, b2, b3, b4, b5, b6, b7; done.
Qed.

Lemma parse_uint_print u rest : no_digit rest → parse_uint (print_uint u ++ rest) = (u, rest).
Proof.
  intros Hd. induction u as [|u IH|u IH|u IH|u IH|u IH|u IH|u IH|u IH|u IH|u IH]; simpl; try by rewrite IH.
  by apply parse_uint_no_digit.
Qed.

Lemma print_uint_length u : length (print_uint u) = Decimal.nb_digits u.
Proof. induction u; simpl; by f_equal. Qed.

Lemma to_uint_nonnil n : N.to_uint n ≠ Decimal.Nil.
Proof.
  intros E. assert (n = 0%N) as -> by (rewrite <- (DecimalN.Unsigned.of_to n), E; done). done.
Qed.

(** ** [strtol] with base 10

    The number and what follows it; without a digit it is 0 and the text is not consumed.
    [long] has 64 bits, and a number outside its range is cut to it. *)

Definition LONG_MAX : Z := 2 ^ 63 - 1.
Definition LONG_MIN : Z := - 2 ^ 63.

Definition isspace (c : ascii) : bool :=
  let n := N_of_ascii c in ((9 <=? n)%N && (n <=? 13)%N) || (n =? 32)%N.

Fixpoint skip_space (l : list ascii) : list ascii :=
  match l with
  | c :: l' => if isspace c then skip_space l' else l
  | [] => []
  end.

Definition strtol (s : list ascii) : Z * list ascii :=
  let l := skip_space s in
  let neg := bool_decide (head l = Some "-"%char) in
  let signed := neg || bool_decide (head l = Some "+"%char) in
  match parse_uint (if signed then tail l else l) with
  | (Decimal.Nil, _) => (0, s)
  | (u, rest) =>
      let z := Z.of_N (N.of_uint u) in
      (Z.max LONG_MIN (Z.min LONG_MAX (if neg then - z else z)), rest)
  end.

(** The conversion of a [long] to [int32_t] (implementation-defined; modulo 2^32). *)
Definition i32 (x : Z) : Z := (x + 2 ^ 31) `mod` 2 ^ 32 - 2 ^ 31.
Definition is_i32 (x : Z) : Prop := - 2 ^ 31 <= x < 2 ^ 31.

Lemma i32_small x : is_i32 x → i32 x = x.
Proof. unfold is_i32, i32. intros. rewrite Z.mod_small by lia. lia. Qed.

Lemma i32_range x : is_i32 (i32 x).
Proof. unfold is_i32, i32. pose proof (Z.mod_pos_bound (x + 2 ^ 31) (2 ^ 32)). lia. Qed.
#[export] Hint Resolve i32_range : eebus.

(** ** ["%d"] and ["%0wd"] of a number that is not negative *)

Definition print_nat (z : Z) : list ascii := print_uint (N.to_uint (Z.to_N z)).
Definition print_pad (w : nat) (z : Z) : list ascii :=
  let l := print_nat z in replicate (w - length l) "0"%char ++ l.

Lemma strtol_first l :
  match l with c :: _ => isdigit c = true | [] => False end →
  strtol l = match parse_uint l with
             | (Decimal.Nil, _) => (0, l)
             | (u, rest) => (Z.min LONG_MAX (Z.of_N (N.of_uint u)), rest)
             end.
Proof.
  destruct l as [|c l]; [done|]. intros Hc. unfold strtol.
  assert (isspace c = false ∧ c ≠ "-"%char ∧ c ≠ "+"%char) as (Hs & Hm & Hp).
  { destruct c as [b0 b1 b2 b3 b4 b5 b6 b7]. destruct b0, b1, b2, b3, b4, b5, b6, b7; done. }
  cbn [skip_space]. rewrite Hs. cbn [head tail].
  rewrite (bool_decide_false (Some c = _)) by congruence.
  rewrite (bool_decide_false (Some c = _)) by congruence. cbn [orb].
  destruct (parse_uint (c :: l)) as [[] r]; try done;
    (rewrite Z.max_r; [done|]); unfold LONG_MIN, LONG_MAX; lia.
Qed.

Lemma zeros_first k u rest : u ≠ Decimal.Nil →
  match replicate k "0"%char ++ print_uint u ++ rest with c :: _ => isdigit c = true | [] => False end.
Proof. intros Hu. destruct k; [|done]. simpl. by destruct u. Qed.

Lemma parse_zeros k u rest : u ≠ Decimal.Nil → no_digit rest →
  ∃ v, parse_uint (replicate k "0"%char ++ print_uint u ++ rest) = (v, rest) ∧
    v ≠ Decimal.Nil ∧ N.of_uint v = N.of_uint u.
Proof.
  intros Hu Hr. induction k as [|k IH].
  - exists u. simpl. rewrite parse_uint_print by done. done.
  - destruct IH as (v & E & Hv & Hof). exists (Decimal.D0 v). simpl. rewrite E. done.
Qed.

(** What is printed is read back, whatever it is padded to. *)
Lemma strtol_print_pad w z rest : 0 <= z <= LONG_MAX → no_digit rest →
  strtol (print_pad w z ++ rest) = (z, rest).
Proof.
  intros Hz Hr. unfold print_pad, print_nat. set (u := N.to_uint (Z.to_N z)).
  assert (u ≠ Decimal.Nil) as Hu by apply to_uint_nonnil.
  rewrite <- (assoc_L (++)). rewrite strtol_first by by apply zeros_first.
  destruct (parse_zeros (w - length (print_uint u)) u rest Hu Hr) as (v & -> & Hv & Hof).
  subst u. rewrite DecimalN.Unsigned.of_to in Hof.
  destruct v; try done; rewrite Hof, Z2N.id, Z.min_r by lia; done.
Qed.

Lemma print_pad_0 z : print_pad 0 z = print_nat z.
Proof. done. Qed.

Lemma strtol_print_nat z rest : 0 <= z <= LONG_MAX → no_digit rest →
  strtol (print_nat z ++ rest) = (z, rest).
Proof. apply (strtol_print_pad 0). Qed.

Lemma strtol_none l : no_digit l →
  match l with c :: _ => isspace c = false ∧ c ≠ "-"%char ∧ c ≠ "+"%char | [] => True end →
  strtol l = (0, l).
Proof.
  intros Hd. unfold strtol. destruct l as [|c l]; [done|]. intros (Hs & Hm & Hp).
  cbn [skip_space]. rewrite Hs. cbn [head tail].
  rewrite (bool_decide_false (Some c = _)) by congruence.
  rewrite (bool_decide_false (Some c = _)) by congruence. cbn [orb].
  by rewrite parse_uint_no_digit by done.
Qed.

(** A check over the numbers below a bound is a proof for them. *)
Lemma below_check (f : Z → bool) n z : forallb f (seqZ 0 n) = true → 0 <= z < n → f z = true.
Proof.
  intros Hf Hz. rewrite forallb_forall in Hf. apply Hf, list_elem_of_In, elem_of_seqZ. lia.
Qed.

(** Years, and the other fields of a date and a time, have their width. *)
Lemma print_pad_4 z : 0 <= z < 10000 → length (print_pad 4 z) = 4%nat.
Proof.
  intros Hz. apply Nat.eqb_eq.
  apply (below_check (λ z, length (print_pad 4 z) =? 4)%nat 10000); [by vm_compute|done].
Qed.

Lemma print_pad_2 z : 0 <= z < 100 → length (print_pad 2 z) = 2%nat.
Proof.
  intros Hz. apply Nat.eqb_eq.
  apply (below_check (λ z, length (print_pad 2 z) =? 2)%nat 100); [by vm_compute|done].
Qed.

Local Open Scope Z_scope.

Record EebusDuration := mkDuration {
  years : Z;
  months : Z;
  days : Z;
  hours : Z;
  minutes : Z;
  seconds : Z;
  milliseconds : Z;
}.
#[export] Instance EebusDuration_eq_dec : EqDecision EebusDuration.
Proof. solve_decision. Defined.

Definition zero_duration : EebusDuration := mkDuration 0 0 0 0 0 0 0.

Definition fields (d : EebusDuration) : list Z :=
  [years d; months d; days d; hours d; minutes d; seconds d; milliseconds d].

(** Every field is an [int32_t]. *)
Definition fields_i32 (d : EebusDuration) : Prop := Forall is_i32 (fields d).

(** ** Operations

    [None] where C gives the call no meaning: [-INT32_MIN] overflows. *)

Definition negate (x : Z) : option Z := if bool_decide (x = - 2 ^ 31) then None else Some (- x).

Definition EebusDurationInvertSign (d : EebusDuration) : option EebusDuration :=
  y ← negate (years d); mo ← negate (months d); da ← negate (days d);
  h ← negate (hours d); mi ← negate (minutes d); s ← negate (seconds d);
  ms ← negate (milliseconds d);
  Some (mkDuration y mo da h mi s ms).

(** [key]: [*ps], 0 at the end of the text. *)
Definition EebusDurationSetValue (self : EebusDuration) (key : option ascii) (is_time : bool) (value : Z) :
    EebusError * EebusDuration :=
  let '(mkDuration y mo d h mi s ms) := self in
  match is_time, key with
  | true, Some "H"%char => (kEebusErrorOk, mkDuration y mo d value mi s ms)
  | true, Some "M"%char => (kEebusErrorOk, mkDuration y mo d h value s ms)
  | true, Some "S"%char => (kEebusErrorOk, mkDuration y mo d h mi value ms)
  | false, Some "Y"%char => (kEebusErrorOk, mkDuration value mo d h mi s ms)
  | false, Some "M"%char => (kEebusErrorOk, mkDuration y value d h mi s ms)
  | false, Some "D"%char => (kEebusErrorOk, mkDuration y mo value h mi s ms)
  | _, _ => (kEebusErrorInputArgument, self)
  end.

Definition set_milliseconds (ms : Z) (d : EebusDuration) : EebusDuration :=
  mkDuration (years d) (months d) (days d) (hours d) (minutes d) (seconds d) ms.

(** The loop over the digits of the fraction: [factor] is 100, 10, 1 and then 0. *)
Fixpoint fraction (factors : list Z) (acc : Z) (ps : list ascii) : Z * list ascii :=
  match factors, ps with
  | factor :: factors', c :: ps' =>
      if isdigit c then fraction factors' (acc + (Z.of_N (N_of_ascii c) - 48) * factor) ps'
      else (acc, ps)
  | _, _ => (acc, ps)
  end.

(** [ps] is at the decimal point; the text the function leaves off at. *)
Definition EebusDurationParseMs (d : EebusDuration) (value : Z) (ps : list ascii) :
    EebusError * EebusDuration * list ascii :=
  let '(fractional, ps') := fraction [100; 10; 1] 0 (tail ps) in
  if bool_decide (head ps' ≠ Some "S"%char) then (kEebusErrorParse, d, ps)
  else
    let '(err, d) := EebusDurationSetValue d (head ps') true value in
    if bool_decide (err ≠ kEebusErrorOk) then (err, d, ps)
    else (kEebusErrorOk, set_milliseconds fractional d, ps').

(** The loop of [EebusDurationParse].  It moves on in every round; [fuel]: the
    length of the text. *)
Fixpoint parse_parts (fuel : nat) (is_time : bool) (d : EebusDuration) (ps : list ascii) :
    EebusError * EebusDuration :=
  match fuel, ps with
  | _, [] => (kEebusErrorOk, d)
  | O, _ => (kEebusErrorOther, d)
  | S fuel, "T"%char :: ps =>
      if is_time then (kEebusErrorParse, d) else parse_parts fuel true d ps
  | S fuel, ps =>
      let '(value, ps_end) := strtol ps in
      if bool_decide (ps = ps_end) then (kEebusErrorParse, d)
      else
        let value := i32 value in
        let '(err, d, ps) :=
          if bool_decide (head ps_end = Some "."%char) then EebusDurationParseMs d value ps_end
          else
            let '(err, d) := EebusDurationSetValue d (head ps_end) is_time value in
            (err, d, ps_end) in
        if bool_decide (err ≠ kEebusErrorOk) then (err, d)
        else parse_parts fuel is_time d (tail ps)
  end.

Definition EebusDurationParse (s : list ascii) : option (EebusError * EebusDuration) :=
  let neg := bool_decide (head s = Some "-"%char) in
  let ps := if neg || bool_decide (head s = Some "+"%char) then tail s else s in
  match ps with
  | "P"%char :: ps =>
      let '(err, d) := parse_parts (length ps) false zero_duration ps in
      if bool_decide (err ≠ kEebusErrorOk) then Some (err, d)
      else if neg then d ← EebusDurationInvertSign d; Some (kEebusErrorOk, d)
      else Some (kEebusErrorOk, d)
  | _ => Some (kEebusErrorParse, zero_duration)
  end.

Definition EebusDurationIsZero (self : EebusDuration) : bool :=
  forallb (λ x, x =? 0) (fields self).

Definition EebusDurationIsNegative (self : EebusDuration) : bool :=
  negb (EebusDurationIsZero self) && forallb (λ x, x <=? 0) (fields self).

Definition EebusDurationIsPositive (self : EebusDuration) : bool :=
  negb (EebusDurationIsZero self) && forallb (λ x, 0 <=? x) (fields self).

Definition EebusDurationIsValid (self : EebusDuration) : bool :=
  EebusDurationIsZero self || EebusDurationIsNegative self || EebusDurationIsPositive self.

(** What [print_non_zero] writes; [prefix], width and [suffix] are its format. *)
Definition print_non_zero (prefix : list ascii) (w : nat) (suffix : list ascii) (number : Z) :
    option (list ascii) :=
  if number =? 0 then Some []
  else
    number_tmp ← (if number <? 0 then negate number else Some number);
    Some (prefix ++ print_pad w number_tmp ++ suffix).

Definition has_time (self : EebusDuration) : bool :=
  negb (forallb (λ x, x =? 0) [hours self; minutes self; seconds self; milliseconds self]).

(** The pieces [EebusDurationToString] writes after the sign and the P, and whose
    sizes [EebusDurationGetStringLength] adds up. *)
Definition date_pieces (self : EebusDuration) : option (list ascii) :=
  y ← print_non_zero [] 0 ["Y"%char] (years self);
  mo ← print_non_zero [] 0 ["M"%char] (months self);
  d ← print_non_zero [] 0 ["D"%char] (days self);
  Some (y ++ mo ++ d).

Definition second_pieces (self : EebusDuration) : option (list ascii) :=
  if bool_decide (milliseconds self ≠ 0) then
    s ← print_non_zero [] 0 [] (seconds self);
    ms ← print_non_zero ["."%char] 3 ["S"%char] (milliseconds self);
    Some (s ++ ms)
  else print_non_zero [] 0 ["S"%char] (seconds self).

Definition time_pieces (self : EebusDuration) : option (list ascii) :=
  if has_time self then
    h ← print_non_zero [] 0 ["H"%char] (hours self);
    mi ← print_non_zero [] 0 ["M"%char] (minutes self);
    s ← second_pieces self;
    Some ("T"%char :: h ++ mi ++ s)
  else Some [].

Definition zero_duration_text : list ascii := list_ascii_of_string "PT0S".

(** [ARRAY_SIZE(zero_duration)] counts the terminator. *)
Definition EebusDurationGetStringLength (self : EebusDuration) : option nat :=
  if EebusDurationIsZero self then Some (S (length zero_duration_text))
  else
    d ← date_pieces self; t ← time_pieces self;
    Some (2 + (if EebusDurationIsNegative self then 1 else 0) + length d + length t)%nat.

(** [Some None]: NULL.  The text with its terminator is written into
    [GetStringLength + 1] bytes; [None] also when it would not fit. *)
Definition EebusDurationToString (self : EebusDuration) : option (option (list ascii)) :=
  if negb (EebusDurationIsValid self) then Some None
  else
    length' ← EebusDurationGetStringLength self;
    let size := (length' + 1)%nat in
    text ← (if EebusDurationIsZero self then Some zero_duration_text
            else
              d ← date_pieces self; t ← time_pieces self;
              Some ((if EebusDurationIsNegative self then ["-"%char] else []) ++ "P"%char :: d ++ t));
    if bool_decide (length text < size)%nat then Some (Some text) else None.

(** The constants of the conversion: months of 30 days, years of 365. *)
Definition EebusDurationToSeconds (self : EebusDuration) : Z :=
  if negb (EebusDurationIsValid self) then 0
  else years self * 31536000 + months self * 2592000 + days self * 86400 +
       hours self * 3600 + minutes self * 60 + seconds self + Z.quot (milliseconds self) 1000.

(** The first component that differs decides. *)
Fixpoint compare_fields (a b : list Z) : Z :=
  match a, b with
  | x :: a', y :: b' => if x =? y then compare_fields a' b' else if x <? y then -1 else 1
  | _, _ => 0
  end.

Definition EebusDurationCompare (self other : EebusDuration) : Z :=
  if negb (EebusDurationIsValid self) || negb (EebusDurationIsValid other) then 0
  else compare_fields (fields self) (fields other).

Example parse_mixed : EebusDurationParse (list_ascii_of_string "-P1Y2DT3H4.056S") =
  Some (kEebusErrorOk, mkDuration (-1) 0 (-2) (-3) 0 (-4) (-56)).
Proof. by vm_compute. Qed.
Example print_mixed : string_of_list_ascii <$> (mjoin (EebusDurationToString (mkDuration (-1) 0 (-2) (-3) 0 (-4) (-56)))) =
  Some "-P1Y2DT3H4.056S"%string.
Proof. by vm_compute. Qed.
Example print_half : (string_of_list_ascii <$> (mjoin (EebusDurationToString (mkDuration 0 0 0 0 0 0 500)))) =
  Some "PT.500S"%string.
Proof. by vm_compute. Qed.

(** ** The parser always comes to an end *)

Lemma skip_space_length l : (length (skip_space l) <= length l)%nat.
Proof. induction l as [|c l IH]; simpl; [done|]. destruct (isspace c); simpl; lia. Qed.

Lemma parse_uint_length l u r : parse_uint l = (u, r) → (length r <= length l)%nat ∧ (u ≠ Decimal.Nil → length r < length l)%nat.
Proof.
  revert u r. induction l as [|c l IH]; intros u r; [simpl; intros [= <- <-]; done|].
  destruct (isdigit c) eqn:Hc; [|rewrite parse_uint_no_digit by done; by intros [= <- <-]].
  destruct (parse_uint l) as [u' r'] eqn:E. destruct (IH _ _ eq_refl) as [Hl _].
  assert (∃ u'', parse_uint (c :: l) = (u'', r')) as [u'' ->].
  { destruct c as [b0 b1 b2 b3 b4 b5 b6 b7].
    destruct b0, b1, b2, b3, b4, b5, b6, b7; try discriminate Hc; cbn [parse_uint]; rewrite E; eauto. }
  intros [= <- <-]. simpl. split; [|intros _]; lia.
Qed.

Lemma strtol_length s z r : strtol s = (z, r) → s = r ∨ (length r < length s)%nat.
Proof.
  unfold strtol. pose proof (skip_space_length s) as Hs. set (l := skip_space s) in *.
  set (l' := if _ : bool then tail l else l).
  assert (length l' <= length s)%nat as Hl'.
  { subst l'. destruct (_ || _); destruct l; simpl in *; lia. }
  destruct (parse_uint l') as [u r'] eqn:E. apply parse_uint_length in E as [_ E].
  destruct u; intros [= <- <-]; auto; right; specialize (E ltac:(done)); lia.
Qed.

Lemma fraction_length fs acc ps : (length (snd (fraction fs acc ps)) <= length ps)%nat.
Proof.
  revert acc ps. induction fs as [|f fs IH]; intros acc [|c ps]; simpl; try done.
  destruct (isdigit c); simpl; [|done]. etrans; [apply IH|]. lia.
Qed.

Lemma SetValue_key d key is_time v d' :
  EebusDurationSetValue d key is_time v = (kEebusErrorOk, d') → key ≠ None.
Proof. intros E ->. destruct d, is_time; done. Qed.

Lemma ParseMs_length d v ps d' ps' :
  EebusDurationParseMs d v ps = (kEebusErrorOk, d', ps') → (length ps' <= length ps)%nat.
Proof.
  unfold EebusDurationParseMs. pose proof (fraction_length [100; 10; 1] 0 (tail ps)) as Hf.
  destruct (fraction _ _ _) as [f r]. simpl in Hf.
  assert (length (tail ps) <= length ps)%nat by (destruct ps; simpl; lia).
  case_bool_decide; [done|]. destruct (EebusDurationSetValue _ _ _ _) as [err d''].
  case_bool_decide; [by intros [= -> <- <-]|]. intros [= <- <-]. lia.
Qed.

(** The fuel of the parser is never used up: the error it would give does not occur. *)
Lemma parse_parts_total fuel is_time d ps : (length ps <= fuel)%nat →
  fst (parse_parts fuel is_time d ps) ≠ kEebusErrorOther.
Proof.
  revert is_time d ps. induction fuel as [|fuel IH]; intros is_time d ps Hps.
  { destruct ps; [done|simpl in Hps; lia]. }
  destruct ps as [|c ps]; [done|]. simpl in Hps.
  destruct (decide (c = "T"%char)) as [->|Hc].
  { simpl. destruct is_time; [done|]. apply IH. lia. }
  set (r := parse_parts _ _ _ _). revert r. cbn [parse_parts].
  set (t := let '(_, _) := strtol (c :: ps) in _).
  assert (fst t ≠ kEebusErrorOther) as Ht; [|by destruct c as [[] [] [] [] [] [] [] []]].
  subst t. destruct (strtol (c :: ps)) as [z r] eqn:E. apply strtol_length in E as Hr.
  case_bool_decide as Hne; [done|]. destruct Hr as [|Hr]; [done|]. simpl in Hr.
  case_bool_decide as Hdot.
  - destruct (EebusDurationParseMs _ _ _) as [[err d'] ps'] eqn:Em.
    case_bool_decide as He; [|apply IH; destruct err; try done; apply ParseMs_length in Em; destruct ps'; simpl in *; lia].
    clear -Em He. unfold EebusDurationParseMs in Em.
    destruct (fraction _ _ _) as [f r']. case_bool_decide; [by simplify_eq|].
    destruct (EebusDurationSetValue _ _ _ _) as [err' d''] eqn:Es.
    case_bool_decide; simplify_eq. simpl. clear -Es. destruct d, (head r') as [[[] [] [] [] [] [] [] []]|]; simpl in Es; congruence.
  - destruct (EebusDurationSetValue _ _ _ _) as [err d'] eqn:Es.
    case_bool_decide as He; [|apply IH; destruct r; simpl in *; lia].
    clear -Es. simpl. destruct d, is_time, (head r) as [[[] [] [] [] [] [] [] []]|]; simpl in Es; congruence.
Qed.

(** ** Printing *)

(** The piece of a field, whose sign is written once at the front. *)
Definition piece (prefix : list ascii) (w : nat) (suffix : list ascii) (x : Z) : list ascii :=
  if x =? 0 then [] else prefix ++ print_pad w (Z.abs x) ++ suffix.

Definition small (x : Z) : Prop := - 2 ^ 31 < x < 2 ^ 31.
Definition fields_small (d : EebusDuration) : Prop := Forall small (fields d).

Lemma print_non_zero_piece p w s x : small x → print_non_zero p w s x = Some (piece p w s x).
Proof.
  intros Hx. unfold print_non_zero, piece. destruct (Z.eqb_spec x 0); [done|].
  unfold negate. destruct (Z.ltb_spec x 0); simpl.
  - unfold small in Hx. rewrite bool_decide_false by lia. simpl. by rewrite Z.abs_neq by lia.
  - by rewrite Z.abs_eq by lia.
Qed.

Definition seconds_text (d : EebusDuration) : list ascii :=
  if bool_decide (milliseconds d ≠ 0)
  then piece [] 0 [] (seconds d) ++ piece ["."%char] 3 ["S"%char] (milliseconds d)
  else piece [] 0 ["S"%char] (seconds d).
Definition date_text (d : EebusDuration) : list ascii :=
  piece [] 0 ["Y"%char] (years d) ++ piece [] 0 ["M"%char] (months d) ++ piece [] 0 ["D"%char] (days d).
Definition time_text (d : EebusDuration) : list ascii :=
  if has_time d
  then "T"%char :: piece [] 0 ["H"%char] (hours d) ++ piece [] 0 ["M"%char] (minutes d) ++ seconds_text d
  else [].
Definition duration_text (d : EebusDuration) : list ascii :=
  if EebusDurationIsZero d then zero_duration_text
  else (if EebusDurationIsNegative d then ["-"%char] else []) ++ "P"%char :: date_text d ++ time_text d.

(** The text of a valid duration, which always fits the buffer. *)
Lemma EebusDurationToString_text d :
  fields_small d → EebusDurationIsValid d = true →
  EebusDurationToString d = Some (Some (duration_text d)).
Proof.
  intros Hd Hv. unfold fields_small, fields in Hd. rewrite !Forall_cons in Hd.
  destruct Hd as (?&?&?&?&?&?&?&_).
  unfold EebusDurationToString, EebusDurationGetStringLength. rewrite Hv. simpl.
  unfold duration_text. destruct (EebusDurationIsZero d); [by vm_compute|].
  assert (date_pieces d = Some (date_text d)) as ->.
  { unfold date_pieces. by rewrite !print_non_zero_piece by done. }
  assert (time_pieces d = Some (time_text d)) as ->.
  { unfold time_pieces, time_text, second_pieces, seconds_text. destruct (has_time d); [|done].
    rewrite !print_non_zero_piece by done. simpl. by case_bool_decide. }
  simpl. rewrite bool_decide_true; [done|].
  destruct (EebusDurationIsNegative d); simpl; rewrite !length_app; lia.
Qed.

(** ** Reading a piece back *)

Lemma print_pad_first w z : ∃ c l, print_pad w z = c :: l ∧ isdigit c = true.
Proof.
  pose proof (zeros_first (w - length (print_nat z)) (N.to_uint (Z.to_N z)) [] (to_uint_nonnil _)) as H.
  rewrite app_nil_r in H. unfold print_pad. fold (print_nat z) in H.
  destruct (replicate _ _ ++ _) as [|c l]; [done|]. eauto.
Qed.

Lemma parse_parts_number fuel is_time d c ps :
  isdigit c = true →
  parse_parts (S fuel) is_time d (c :: ps) =
    let '(value, ps_end) := strtol (c :: ps) in
    if bool_decide (c :: ps = ps_end) then (kEebusErrorParse, d)
    else
      let value := i32 value in
      let '(err, d, ps) :=
        if bool_decide (head ps_end = Some "."%char) then EebusDurationParseMs d value ps_end
        else
          let '(err, d) := EebusDurationSetValue d (head ps_end) is_time value in
          (err, d, ps_end) in
      if bool_decide (err ≠ kEebusErrorOk) then (err, d)
      else parse_parts fuel is_time d (tail ps).
Proof.
  intros Hc. destruct c as [b0 b1 b2 b3 b4 b5 b6 b7].
  destruct b0, b1, b2, b3, b4, b5, b6, b7; try discriminate Hc; reflexivity.
Qed.

(** A field that is still 0 gets the value of its piece. *)
Lemma parse_piece fuel is_time d key v d' rest :
  0 <= v < 2 ^ 31 → isdigit key = false → key ≠ "."%char →
  EebusDurationSetValue d (Some key) is_time 0 = (kEebusErrorOk, d) →
  EebusDurationSetValue d (Some key) is_time v = (kEebusErrorOk, d') →
  (length (piece [] 0 [key] v ++ rest) <= fuel)%nat →
  ∃ fuel', (length rest <= fuel')%nat ∧
    parse_parts fuel is_time d (piece [] 0 [key] v ++ rest) = parse_parts fuel' is_time d' rest.
Proof.
  intros Hv Hk Hdot H0 Hset. unfold piece. destruct (Z.eqb_spec v 0) as [->|Hne].
  { intros. exists fuel. rewrite H0 in Hset. by simplify_eq. }
  rewrite Z.abs_eq by lia. cbn [app]. rewrite <- (assoc_L (++)). cbn [app].
  pose proof (strtol_print_nat v (key :: rest)) as Hs. rewrite <- print_pad_0 in Hs.
  specialize (Hs ltac:(unfold LONG_MAX; lia) Hk).
  destruct (print_pad_first 0 v) as (c & l & E & Hc). rewrite E in *.
  cbn [app length] in *. intros Hf. destruct fuel as [|fuel]; [lia|].
  exists fuel. split; [rewrite length_app in Hf; simpl in Hf; lia|].
  rewrite parse_parts_number, Hs by done.
  rewrite bool_decide_false.
  2:{ intros Heq%(f_equal length). simpl in Heq. rewrite length_app in Heq. simpl in Heq. lia. }
  rewrite i32_small by (unfold is_i32; lia). cbn [head tail].
  rewrite bool_decide_false by congruence. rewrite Hset. by rewrite bool_decide_false by congruence.
Qed.

Lemma piece_abs p w s x : piece p w s x = piece p w s (Z.abs x).
Proof.
  unfold piece. rewrite Z.abs_idemp. destruct (Z.eqb_spec x 0) as [->|]; [done|].
  destruct (Z.eqb_spec (Z.abs x) 0); [lia|done].
Qed.

(** The three digits after the point. *)
Lemma fraction_print ms : 1 <= ms < 1000 →
  fraction [100; 10; 1] 0 (print_pad 3 ms ++ ["S"%char]) = (ms, ["S"%char]).
Proof.
  intros Hms.
  pose (f ms := bool_decide (ms = 0) ||
    bool_decide (fraction [100; 10; 1] 0 (print_pad 3 ms ++ ["S"%char]) = (ms, ["S"%char]))).
  pose proof (below_check f 1000 ms ltac:(by vm_compute) ltac:(lia)) as Hf.
  subst f. simpl in Hf. rewrite bool_decide_false in Hf by lia. simpl in Hf.
  by apply bool_decide_eq_true in Hf.
Qed.

(** Seconds with milliseconds, at the end of the text. *)
Lemma parse_fraction fuel d v ms :
  1 <= v < 2 ^ 31 → 1 <= ms < 1000 → (length (print_pad 0 v) < fuel)%nat →
  parse_parts fuel true d (print_pad 0 v ++ "."%char :: print_pad 3 ms ++ ["S"%char]) =
    (kEebusErrorOk, set_milliseconds ms (snd (EebusDurationSetValue d (Some "S"%char) true v))).
Proof.
  intros Hv Hms Hf.
  pose proof (strtol_print_nat v ("."%char :: print_pad 3 ms ++ ["S"%char])) as Hs.
  rewrite <- print_pad_0 in Hs. specialize (Hs ltac:(unfold LONG_MAX; lia) eq_refl).
  destruct (print_pad_first 0 v) as (c & l & E & Hc). rewrite E in *.
  cbn [app length] in *. destruct fuel as [|fuel]; [lia|].
  rewrite parse_parts_number, Hs by done.
  rewrite bool_decide_false.
  2:{ intros Heq%(f_equal length). simpl in Heq. rewrite length_app in Heq. simpl in Heq. lia. }
  rewrite i32_small by (unfold is_i32; lia). cbn [head tail]. rewrite bool_decide_true by done.
  unfold EebusDurationParseMs. cbn [tail]. rewrite fraction_print by done. cbn [head].
  rewrite bool_decide_false by naive_solver. destruct d as [y mo da h mi s m]. simpl. by destruct fuel.
Qed.

Definition map_fields (f : Z → Z) (d : EebusDuration) : EebusDuration :=
  mkDuration (f (years d)) (f (months d)) (f (days d)) (f (hours d)) (f (minutes d)) (f (seconds d))
    (f (milliseconds d)).

(** Milliseconds below a second, and written with the seconds they belong to. *)
Definition readable (d : EebusDuration) : Prop :=
  Z.abs (milliseconds d) < 1000 ∧ (milliseconds d ≠ 0 → seconds d ≠ 0).

Lemma parse_seconds fuel y mo da h mi d :
  small (seconds d) → readable d → (length (seconds_text d) <= fuel)%nat →
  parse_parts fuel true (mkDuration y mo da h mi 0 0) (seconds_text d) =
    (kEebusErrorOk, mkDuration y mo da h mi (Z.abs (seconds d)) (Z.abs (milliseconds d))).
Proof.
  unfold small. intros Hs [Hms Hsec]. unfold seconds_text. destruct (decide (milliseconds d = 0)) as [E|Hne].
  - rewrite bool_decide_false by (intros ?; done). rewrite E.
    rewrite piece_abs, <- (app_nil_r (piece _ _ _ _)). intros Hf.
    destruct (parse_piece fuel true (mkDuration y mo da h mi 0 0) "S" (Z.abs (seconds d))
      (mkDuration y mo da h mi (Z.abs (seconds d)) 0) [] ltac:(lia) eq_refl ltac:(done) eq_refl eq_refl Hf)
      as (fuel' & _ & ->). by destruct fuel'.
  - rewrite bool_decide_true by done. specialize (Hsec Hne). unfold piece.
    destruct (Z.eqb_spec (seconds d) 0); [done|]. destruct (Z.eqb_spec (milliseconds d) 0); [done|].
    cbn [app]. rewrite app_nil_r. rewrite length_app. simpl. intros Hf.
    by rewrite parse_fraction by lia.
Qed.

(** One piece after the other, as [parse_piece] has it. *)
Ltac parse_next k v d' Hf :=
  match goal with
  | |- context [parse_parts ?fuel ?t ?d (piece _ _ _ ?x ++ ?rest)] =>
      rewrite (piece_abs _ _ _ x) in *;
      destruct (parse_piece fuel t d k v d' rest ltac:(lia) eq_refl ltac:(done) eq_refl eq_refl Hf)
        as (? & Hf' & ->); clear Hf; rename Hf' into Hf
  end.

(** The date, and the hours and minutes, whatever follows them. *)
Lemma parse_head fuel d rest :
  fields_small d → (length (date_text d ++ rest) <= fuel)%nat →
  ∃ fuel', (length rest <= fuel')%nat ∧
    parse_parts fuel false zero_duration (date_text d ++ rest) =
      parse_parts fuel' false (mkDuration (Z.abs (years d)) (Z.abs (months d)) (Z.abs (days d)) 0 0 0 0) rest.
Proof.
  intros Hd Hf. destruct d as [y mo da h mi s ms]. unfold fields_small, fields, small in Hd.
  rewrite !Forall_cons in Hd. simpl in Hd. destruct Hd as (?&?&?&_).
  unfold date_text in *. simpl in *. rewrite <- !(assoc_L (++)) in *. unfold zero_duration.
  parse_next "Y"%char (Z.abs y) (mkDuration (Z.abs y) 0 0 0 0 0 0) Hf.
  parse_next "M"%char (Z.abs mo) (mkDuration (Z.abs y) (Z.abs mo) 0 0 0 0 0) Hf.
  parse_next "D"%char (Z.abs da) (mkDuration (Z.abs y) (Z.abs mo) (Z.abs da) 0 0 0 0) Hf.
  eauto.
Qed.

Lemma parse_time fuel d y mo da :
  fields_small d → (length (time_text d) <= fuel)%nat → has_time d = true →
  ∃ fuel', (length (seconds_text d) <= fuel')%nat ∧
    parse_parts fuel false (mkDuration y mo da 0 0 0 0) (time_text d) =
      parse_parts fuel' true (mkDuration y mo da (Z.abs (hours d)) (Z.abs (minutes d)) 0 0) (seconds_text d).
Proof.
  intros Hd Hf Ht. unfold time_text in *. rewrite Ht in *. unfold fields_small, fields, small in Hd.
  rewrite !Forall_cons in Hd. destruct Hd as (?&?&?&?&?&_).
  destruct fuel as [|fuel]; [simpl in Hf; lia|]. cbn [parse_parts]. simpl in Hf. apply le_S_n in Hf.
  parse_next "H"%char (Z.abs (hours d)) (mkDuration y mo da (Z.abs (hours d)) 0 0 0) Hf.
  parse_next "M"%char (Z.abs (minutes d)) (mkDuration y mo da (Z.abs (hours d)) (Z.abs (minutes d)) 0 0) Hf.
  eauto.
Qed.

Lemma parse_texts d :
  fields_small d → readable d →
  parse_parts (length (date_text d ++ time_text d)) false zero_duration (date_text d ++ time_text d) =
    (kEebusErrorOk, map_fields Z.abs d).
Proof.
  intros Hd Hr. destruct (parse_head _ d (time_text d) Hd (le_n _)) as (fuel & Hf & ->).
  destruct (has_time d) eqn:Ht.
  - destruct (parse_time fuel d (Z.abs (years d)) (Z.abs (months d)) (Z.abs (days d)) Hd Hf Ht)
      as (fuel' & Hf' & ->).
    unfold fields_small, fields in Hd. rewrite !Forall_cons in Hd. destruct Hd as (_&_&_&_&_&?&_).
    by rewrite parse_seconds.
  - unfold time_text, map_fields. rewrite Ht. unfold has_time in Ht. apply negb_false_iff in Ht. simpl in Ht.
    rewrite !andb_true_iff, !Z.eqb_eq in Ht. destruct Ht as (->&->&->&->&_). by destruct fuel.
Qed.

(** ** The text of a duration is read back *)

Lemma negate_abs x : small x → negate (Z.abs x) = Some (- Z.abs x).
Proof. intros Hx. unfold negate, small in *. by rewrite bool_decide_false by lia. Qed.

Lemma InvertSign_abs d : fields_small d → EebusDurationIsNegative d = true →
  EebusDurationInvertSign (map_fields Z.abs d) = Some d.
Proof.
  intros Hd Hn. unfold fields_small, fields in Hd. rewrite !Forall_cons in Hd.
  destruct Hd as (?&?&?&?&?&?&?&_).
  unfold EebusDurationIsNegative in Hn. apply andb_true_iff in Hn as [_ Hn].
  destruct d as [y mo da h mi s ms]. simpl in *. rewrite !andb_true_iff, !Z.leb_le in Hn.
  destruct Hn as (?&?&?&?&?&?&?&_).
  unfold EebusDurationInvertSign. simpl. rewrite !negate_abs by done. simpl.
  by rewrite !Z.abs_neq, !Z.opp_involutive by lia.
Qed.

Lemma map_abs_positive d : EebusDurationIsPositive d = true → map_fields Z.abs d = d.
Proof.
  unfold EebusDurationIsPositive. intros [_ Hp]%andb_true_iff.
  destruct d as [y mo da h mi s ms]. simpl in Hp. rewrite !andb_true_iff, !Z.leb_le in Hp.
  destruct Hp as (?&?&?&?&?&?&?&_). unfold map_fields. simpl. by rewrite !Z.abs_eq by lia.
Qed.

(** The text that [EebusDurationParse] is given after the sign. *)
Lemma parse_positive d : fields_small d → readable d →
  EebusDurationParse ("P"%char :: date_text d ++ time_text d) = Some (kEebusErrorOk, map_fields Z.abs d).
Proof.
  intros Hd Hr. unfold EebusDurationParse. cbn [head tail orb].
  rewrite (bool_decide_false (Some "P"%char = Some "-"%char)) by done.
  rewrite (bool_decide_false (Some "P"%char = Some "+"%char)) by done. cbn [orb].
  by rewrite parse_texts.
Qed.

Lemma parse_negative d : fields_small d → readable d → EebusDurationIsNegative d = true →
  EebusDurationParse ("-"%char :: "P"%char :: date_text d ++ time_text d) = Some (kEebusErrorOk, d).
Proof.
  intros Hd Hr Hn. unfold EebusDurationParse. cbn [head tail].
  rewrite (bool_decide_true (Some "-"%char = Some "-"%char)) by done. cbn [orb].
  rewrite parse_texts by done. rewrite bool_decide_false by naive_solver.
  by rewrite InvertSign_abs.
Qed.

(** A valid duration whose fields are not [INT32_MIN], with milliseconds below a second that go
    with seconds, is printed, in the memory taken for it, and its text is read back as the same
    duration. *)
Theorem duration_round_trip (d : EebusDuration)
  (Hsmall : fields_small d) (Hvalid : EebusDurationIsValid d = true) (Hread : readable d) :
  ∃ t, EebusDurationToString d = Some (Some t) ∧ EebusDurationParse t = Some (kEebusErrorOk, d).
Proof.
  exists (duration_text d). split; [by apply EebusDurationToString_text|].
  unfold duration_text. destruct (EebusDurationIsZero d) eqn:Hz.
  { unfold EebusDurationIsZero in Hz. destruct d. simpl in Hz. rewrite !andb_true_iff, !Z.eqb_eq in Hz.
    destruct Hz as (->&->&->&->&->&->&->&_). by vm_compute. }
  destruct (EebusDurationIsNegative d) eqn:Hn; [by apply parse_negative|].
  unfold EebusDurationIsValid in Hvalid. rewrite Hz, Hn in Hvalid.
  cbn [app]. by rewrite parse_positive, map_abs_positive.
Qed.

(** ** A part of a second is lost

    Without whole seconds the seconds are not printed: the number starts with the
    point, and no reader of the repository takes it. *)
Lemma parse_parts_point fuel d ps : (0 < fuel)%nat →
  parse_parts fuel true d ("."%char :: ps) = (kEebusErrorParse, d).
Proof.
  intros Hf. destruct fuel as [|fuel]; [lia|]. cbn [parse_parts].
  rewrite strtol_none by done. by rewrite bool_decide_true.
Qed.

Lemma parse_texts_unreadable d :
  fields_small d → seconds d = 0 → milliseconds d ≠ 0 →
  fst (parse_parts (length (date_text d ++ time_text d)) false zero_duration (date_text d ++ time_text d)) =
    kEebusErrorParse.
Proof.
  intros Hd Hs Hms. assert (has_time d = true) as Ht.
  { unfold has_time. simpl. by rewrite (proj2 (Z.eqb_neq _ _) Hms), !andb_false_r. }
  destruct (parse_head _ d (time_text d) Hd (le_n _)) as (fuel & Hf & ->).
  destruct (parse_time fuel d (Z.abs (years d)) (Z.abs (months d)) (Z.abs (days d)) Hd Hf Ht)
    as (fuel' & Hf' & ->).
  unfold seconds_text, piece in *. rewrite Hs, bool_decide_true in * by done.
  destruct (Z.eqb_spec (milliseconds d) 0); [done|]. cbn [Z.eqb app length] in *.
  by rewrite parse_parts_point by lia.
Qed.

(** A valid duration with milliseconds but no whole seconds, half a second for one, is printed
    as a text that [EebusDurationParse] refuses. *)
Theorem part_of_a_second_is_lost (d : EebusDuration)
  (Hsmall : fields_small d) (Hvalid : EebusDurationIsValid d = true)
  (Hs : seconds d = 0) (Hms : milliseconds d ≠ 0) :
  ∃ t e, EebusDurationToString d = Some (Some t) ∧ EebusDurationParse t = Some (kEebusErrorParse, e).
Proof.
  exists (duration_text d). pose proof (parse_texts_unreadable d Hsmall Hs Hms) as Hp.
  destruct (parse_parts _ _ _ _) as [err e] eqn:E in Hp. simpl in Hp. subst err.
  exists e. split; [by apply EebusDurationToString_text|].
  unfold duration_text. destruct (EebusDurationIsZero d) eqn:Hz.
  { unfold EebusDurationIsZero in Hz. destruct d. simpl in *. by rewrite (proj2 (Z.eqb_neq _ _) Hms), !andb_false_r in Hz. }
  unfold EebusDurationParse. destruct (EebusDurationIsNegative d); cbn [app head tail].
  - rewrite (bool_decide_true (Some "-"%char = Some "-"%char)) by done. cbn [orb]. rewrite E. done.
  - rewrite (bool_decide_false (Some "P"%char = Some "-"%char)) by done.
    rewrite (bool_decide_false (Some "P"%char = Some "+"%char)) by done. cbn [orb]. by rewrite E.
Qed.

Definition two_hours_ago : EebusDuration := mkDuration 0 0 0 (-2) 0 (-1) (-50).
Definition half_a_second : EebusDuration := mkDuration 0 0 0 0 0 0 500.

Lemma duration_round_trip_witness :
  ∃ t, EebusDurationToString two_hours_ago = Some (Some t) ∧
    EebusDurationParse t = Some (kEebusErrorOk, two_hours_ago).
Proof.
  apply duration_round_trip.
  - repeat constructor; done.
  - by vm_compute.
  - done.
Defined.

Lemma part_of_a_second_is_lost_witness :
  ∃ t e, EebusDurationToString half_a_second = Some (Some t) ∧ EebusDurationParse t = Some (kEebusErrorParse, e).
Proof.
  apply part_of_a_second_is_lost.
  - repeat constructor; done.
  - by vm_compute.
  - done.
  - done.
Defined.
