(* ===== verification/DateTime.v ===== *)
(** * Dates and times ([src/common/eebus_date_time/], [src/spine/model/absolute_or_relative_time.c])

    Dates, times of day, their ISO 8601 texts, and the addition of a duration, compared
    with the count of days and seconds of the calendar. *)

From Stdlib Require Import Ascii Strings.String.
From S2P Require Import Prelude Duration.

Local Open Scope list_scope.
Local Open Scope Z_scope.

Record EebusDate := mkDate { year : Z; month : Z; day : Z }.
Record EebusTime := mkTime { hour : Z; min : Z; sec : Z }.
Record EebusDateTime := mkDateTime { date : EebusDate; time : EebusTime }.

#[export] Instance EebusDate_eq_dec : EqDecision EebusDate.
Proof. solve_decision. Defined.
#[export] Instance EebusTime_eq_dec : EqDecision EebusTime.
Proof. solve_decision. Defined.
#[export] Instance EebusDateTime_eq_dec : EqDecision EebusDateTime.
Proof. solve_decision. Defined.

(** ** Dates ([eebus_date.c]) *)

Definition IsLeapYear (year : Z) : bool :=
  (bool_decide (Z.rem year 4 = 0) && bool_decide (Z.rem year 100 ≠ 0)) || bool_decide (Z.rem year 400 = 0).

Definition days_per_month : list Z := [31; 28; 31; 30; 31; 30; 31; 31; 30; 31; 30; 31].

Definition EebusDateGetDaysInMonthNum (self : EebusDate) : Z :=
  if (month self <? 1) || (12 <? month self) then 0
  else if month self =? 2 then if IsLeapYear (year self) then 29 else 28
  else default 0 (days_per_month !! Z.to_nat (month self - 1)).

Definition EebusDateIsValid (self : EebusDate) : bool :=
  if (year self <? 0) || (2100 <? year self) then false
  else if (month self <? 1) || (12 <? month self) || (day self <? 1) then false
  else negb ((day self <? 1) || (EebusDateGetDaysInMonthNum self <? day self)).

(** [strtol], and whether it fails: no number, or the text does not go on with [stop]. *)
Definition number_before (s : list ascii) (stop : option ascii) : option (Z * list ascii) :=
  let '(value, endptr) := strtol s in
  if bool_decide (endptr = s) || negb (bool_decide (head endptr = stop)) then None
  else Some (i32 value, tail endptr).

Definition EebusDateParse (s : list ascii) : EebusError * EebusDate :=
  match number_before s (Some "-"%char) with
  | None => (kEebusErrorParse, mkDate (i32 (fst (strtol s))) 0 0)
  | Some (y, s) =>
      match number_before s (Some "-"%char) with
      | None => (kEebusErrorParse, mkDate y (i32 (fst (strtol s))) 0)
      | Some (m, s) =>
          match number_before s None with
          | None => (kEebusErrorParse, mkDate y m (i32 (fst (strtol s))))
          | Some (d, _) =>
              let date := mkDate y m d in
              if EebusDateIsValid date then (kEebusErrorOk, date) else (kEebusErrorParse, date)
          end
      end
  end.

(** ["%04d-%02d-%02d"] *)
Definition date_format (self : EebusDate) : list ascii :=
  print_pad 4 (year self) ++ "-"%char :: print_pad 2 (month self) ++ "-"%char :: print_pad 2 (day self).

(** [snprintf] into [size] bytes keeps what fits. *)
Definition snprintf (size : nat) (text : list ascii) : list ascii := take (size - 1) text.

Definition EebusDateToString (self : EebusDate) : option (list ascii) :=
  if EebusDateIsValid self then Some (snprintf 20 (date_format self)) else None.

Definition EebusDateCompare (self other : EebusDate) : Z :=
  if bool_decide (year self ≠ year other) then year self - year other
  else if bool_decide (month self ≠ month other) then month self - month other
  else if bool_decide (day self ≠ day other) then day self - day other
  else 0.

(** ** Times of day ([eebus_time.c]) *)

Definition EebusTimeIsValid (self : EebusTime) : bool :=
  negb ((hour self <? 0) || (24 <=? hour self)) &&
  negb ((min self <? 0) || (60 <=? min self)) &&
  negb ((sec self <? 0) || (60 <=? sec self)).

Fixpoint skip_digits (l : list ascii) : list ascii :=
  match l with
  | c :: l' => if isdigit c then skip_digits l' else l
  | [] => []
  end.

(** What may follow the seconds: the end, a Z, or a fraction and then one of the two. *)
Definition seconds_end (endptr : list ascii) : bool :=
  let endptr := if bool_decide (head endptr = Some "."%char) then skip_digits (tail endptr) else endptr in
  bool_decide (head endptr = None) || bool_decide (head endptr = Some "Z"%char).

Definition EebusTimeParse (s : list ascii) : EebusError * EebusTime :=
  match number_before s (Some ":"%char) with
  | None => (kEebusErrorParse, mkTime (i32 (fst (strtol s))) 0 0)
  | Some (h, s) =>
      match number_before s (Some ":"%char) with
      | None => (kEebusErrorParse, mkTime h (i32 (fst (strtol s))) 0)
      | Some (m, s) =>
          let '(value, endptr) := strtol s in
          let time := mkTime h m (i32 value) in
          if bool_decide (endptr = s) || negb (seconds_end endptr) then (kEebusErrorParse, time)
          else if EebusTimeIsValid time then (kEebusErrorOk, time) else (kEebusErrorParse, time)
      end
  end.

(** ["%02d:%02d:%02dZ"] *)
Definition time_format (self : EebusTime) : list ascii :=
  print_pad 2 (hour self) ++ ":"%char :: print_pad 2 (min self) ++ ":"%char :: print_pad 2 (sec self) ++ ["Z"%char].

Definition EebusTimeToString (self : EebusTime) : option (list ascii) :=
  if EebusTimeIsValid self then Some (snprintf 10 (time_format self)) else None.

Definition EebusTimeCompare (self other : EebusTime) : Z :=
  if bool_decide (hour self ≠ hour other) then hour self - hour other
  else if bool_decide (min self ≠ min other) then min self - min other
  else sec self - sec other.

(** ** Date and time ([eebus_date_time.c]) *)

Definition EebusDateTimeIsValid (self : EebusDateTime) : bool :=
  EebusDateIsValid (date self) && EebusTimeIsValid (time self).

(** [strchr(s, 'T')]: what is before and after it. *)
Fixpoint split_at (c : ascii) (s : list ascii) : option (list ascii * list ascii) :=
  match s with
  | [] => None
  | d :: s' =>
      if Ascii.eqb d c then Some ([], s')
      else '(before, after) ← split_at c s'; Some (d :: before, after)
  end.

Definition DATE_BUF_SIZE : nat := 11.

(** [old]: the object of the caller, which keeps its time when the date is refused. *)
Definition EebusDateTimeParse (s : list ascii) (old : EebusDateTime) : EebusError * EebusDateTime :=
  match split_at "T" s with
  | None => (kEebusErrorParse, old)
  | Some (date_buf, rest) =>
      if bool_decide (DATE_BUF_SIZE <= length date_buf)%nat then (kEebusErrorParse, old)
      else
        let '(err, date) := EebusDateParse date_buf in
        if bool_decide (err ≠ kEebusErrorOk) then (err, mkDateTime date (time old))
        else let '(err, time) := EebusTimeParse rest in (err, mkDateTime date time)
  end.

Definition EebusDateTimeToString (self : EebusDateTime) : option (list ascii) :=
  if EebusDateTimeIsValid self
  then Some (snprintf 21 (date_format (date self) ++ "T"%char :: time_format (time self)))
  else None.

Definition EebusDateTimeCompare (self other : EebusDateTime) : Z :=
  let data_cmp_ret := EebusDateCompare (date self) (date other) in
  if bool_decide (data_cmp_ret ≠ 0) then data_cmp_ret else EebusTimeCompare (time self) (time other).

(** *** Adding a duration

    Sums of [int32_t]; [None] when one overflows, which C leaves undefined. *)

Definition add32 (a b : Z) : option Z :=
  if bool_decide (- 2 ^ 31 <= a + b < 2 ^ 31) then Some (a + b) else None.

(** The new [*filed] and [*filed_next]. *)
Definition Normalize (filed filed_next max : Z) : option (Z * Z) :=
  let rem := Z.rem filed max in
  if max <=? filed then
    next ← add32 filed_next (Z.quot filed max); Some (rem, next)
  else if filed <? 0 then
    neg ← negate filed;
    if rem =? 0 then next ← add32 filed_next (- Z.quot neg max); Some (0, next)
    else next ← add32 filed_next (- (1 + Z.quot neg max)); Some (max + rem, next)
  else Some (filed, filed_next).

Definition NormalizeMonths (self : EebusDate) : option EebusDate :=
  m ← add32 (month self) (-1);
  '(m, y) ← Normalize m (year self) 12;
  m ← add32 m 1;
  Some (mkDate y m (day self)).

(** The loops of [NormalizeDays]; each round changes the days by a month, so [fuel]
    rounds are enough for as many days. *)
Fixpoint days_forward (fuel : nat) (self : EebusDate) : option EebusDate :=
  let days_in_month := EebusDateGetDaysInMonthNum self in
  if days_in_month <=? day self then
    match fuel with
    | O => None
    | S fuel =>
        d ← add32 (day self) (- days_in_month);
        m ← add32 (month self) 1;
        self ← NormalizeMonths (mkDate (year self) m d);
        days_forward fuel self
    end
  else Some self.
Fixpoint days_back (fuel : nat) (self : EebusDate) : option EebusDate :=
  if day self <? 0 then
    match fuel with
    | O => None
    | S fuel =>
        m ← add32 (month self) (-1);
        self ← NormalizeMonths (mkDate (year self) m (day self));
        d ← add32 (day self) (EebusDateGetDaysInMonthNum self);
        days_back fuel (mkDate (year self) (month self) d)
    end
  else Some self.

Definition NormalizeDays (self : EebusDate) : option EebusDate :=
  d ← add32 (day self) (-1);
  let self := mkDate (year self) (month self) d in
  let fuel := Z.to_nat (Z.abs d) in
  self ← (if 0 <? d then days_forward fuel self else days_back fuel self);
  d ← add32 (day self) 1;
  Some (mkDate (year self) (month self) d).

Definition EebusDateTimeAddDuration (self : EebusDateTime) (duration : EebusDuration) :
    option (EebusError * EebusDateTime) :=
  if negb (EebusDateTimeIsValid self) || negb (EebusDurationIsValid duration)
  then Some (kEebusErrorInputArgument, self)
  else
    s ← add32 (sec (time self)) (seconds duration);
    '(s, m) ← Normalize s (min (time self)) 60;
    m ← add32 m (minutes duration);
    '(m, h) ← Normalize m (hour (time self)) 60;
    h ← add32 h (hours duration);
    '(h, d) ← Normalize h (day (date self)) 24;
    d ← add32 d (days duration);
    date ← NormalizeDays (mkDate (year (date self)) (month (date self)) d);
    mo ← add32 (month date) (months duration);
    date ← NormalizeMonths (mkDate (year date) mo (day date));
    Some (kEebusErrorOk, mkDateTime date (mkTime h m s)).

(** ** Absolute or relative *)

Inductive AbsoluteOrRelativeTimeType :=
| kAbsoluteOrRelativeTimeTypeDuration (duration : EebusDuration)
| kAbsoluteOrRelativeTimeTypeDateTime (date_time : EebusDateTime).

#[export] Instance AbsoluteOrRelativeTimeType_eq_dec : EqDecision AbsoluteOrRelativeTimeType.
Proof. solve_decision. Defined.

(** [now]: [EebusDateTimeNow()], the clock of the system.  The error of the addition
    is not looked at. *)
Definition AbsoluteOrRelativeTimeGetTime (now : EebusDateTime) (self : AbsoluteOrRelativeTimeType) :
    option EebusDateTime :=
  match self with
  | kAbsoluteOrRelativeTimeTypeDateTime date_time => Some date_time
  | kAbsoluteOrRelativeTimeTypeDuration duration => snd <$> EebusDateTimeAddDuration now duration
  end.

Definition new_year : EebusDateTime := mkDateTime (mkDate 2025 1 1) (mkTime 0 0 0).

Example back_to_leap_day :
  EebusDateTimeAddDuration (mkDateTime (mkDate 2024 3 1) (mkTime 0 30 0)) (mkDuration 0 0 0 (-1) 0 0 0) =
    Some (kEebusErrorOk, mkDateTime (mkDate 2024 2 29) (mkTime 23 30 0)).
Proof. by vm_compute. Qed.

(** ** What is printed is read back *)

Lemma number_before_print w z c rest : 0 <= z < 10000 → isdigit c = false →
  number_before (print_pad w z ++ c :: rest) (Some c) = Some (z, rest).
Proof.
  intros Hz Hc. unfold number_before. rewrite strtol_print_pad by (unfold LONG_MAX; done || lia).
  rewrite bool_decide_false, (bool_decide_true (head _ = _)) by (done || intros E%(f_equal length);
    rewrite length_app in E; destruct (print_pad_first w z) as (? & ? & Ew & _); rewrite Ew in E; simpl in E; lia).
  simpl. by rewrite i32_small by (unfold is_i32; lia).
Qed.

Lemma number_before_end w z : 0 <= z < 10000 →
  number_before (print_pad w z) None = Some (z, []).
Proof.
  intros Hz. unfold number_before. rewrite <- (app_nil_r (print_pad w z)).
  rewrite strtol_print_pad by (unfold LONG_MAX; done || lia). rewrite app_nil_r.
  destruct (print_pad_first w z) as (? & ? & Ew & _). rewrite Ew.
  rewrite bool_decide_false, (bool_decide_true (head _ = _)) by done.
  simpl. by rewrite i32_small by (unfold is_i32; lia).
Qed.

Lemma DateIsValid_iff d : EebusDateIsValid d = true ↔
  0 <= year d <= 2100 ∧ 1 <= month d <= 12 ∧ 1 <= day d <= EebusDateGetDaysInMonthNum d.
Proof.
  unfold EebusDateIsValid. destruct (_ || _) eqn:E1; [split; [done|]; lia|].
  destruct ((month d <? 1) || _ || _) eqn:E2; [split; [done|]; lia|]. lia.
Qed.

Lemma TimeIsValid_iff t : EebusTimeIsValid t = true ↔
  0 <= hour t < 24 ∧ 0 <= min t < 60 ∧ 0 <= sec t < 60.
Proof. unfold EebusTimeIsValid. lia. Qed.

Lemma days_in_month_range d : 1 <= month d <= 12 → 28 <= EebusDateGetDaysInMonthNum d <= 31.
Proof.
  intros Hm. unfold EebusDateGetDaysInMonthNum. replace ((month d <? 1) || (12 <? month d)) with false by lia.
  destruct (Z.eqb_spec (month d) 2); [destruct (IsLeapYear _); lia|].
  assert (Z.to_nat (month d - 1) < 12)%nat as Hi by lia. revert Hi. generalize (Z.to_nat (month d - 1)).
  intros i Hi. do 12 (destruct i as [|i]; [simpl; lia|]). lia.
Qed.

Lemma date_format_length d : EebusDateIsValid d = true → length (date_format d) = 10%nat.
Proof.
  intros (Hy & Hm & Hd)%DateIsValid_iff. pose proof (days_in_month_range d Hm).
  unfold date_format. rewrite length_app, print_pad_4 by lia. simpl.
  rewrite length_app, print_pad_2 by lia. simpl. by rewrite print_pad_2 by lia.
Qed.

Lemma time_format_length t : EebusTimeIsValid t = true → length (time_format t) = 9%nat.
Proof.
  intros (Hh & Hm & Hs)%TimeIsValid_iff. unfold time_format.
  rewrite length_app, print_pad_2 by lia. simpl. rewrite length_app, print_pad_2 by lia. simpl.
  by rewrite length_app, print_pad_2 by lia.
Qed.

Lemma snprintf_fits n text : (length text < n)%nat → snprintf n text = text.
Proof. intros. unfold snprintf. apply take_ge. lia. Qed.

Lemma DateParse_format d : EebusDateIsValid d = true → EebusDateParse (date_format d) = (kEebusErrorOk, d).
Proof.
  intros Hv. pose proof Hv as (Hy & Hm & Hd)%DateIsValid_iff. pose proof (days_in_month_range d Hm).
  unfold EebusDateParse, date_format. rewrite number_before_print by (done || lia).
  rewrite number_before_print by (done || lia). rewrite number_before_end by lia.
  destruct d. simpl in *. by rewrite Hv.
Qed.

Lemma TimeParse_format t : EebusTimeIsValid t = true → EebusTimeParse (time_format t) = (kEebusErrorOk, t).
Proof.
  intros Hv. pose proof Hv as (Hh & Hm & Hs)%TimeIsValid_iff.
  unfold EebusTimeParse, time_format. rewrite number_before_print by (done || lia).
  rewrite number_before_print by (done || lia).
  rewrite strtol_print_pad by (done || unfold LONG_MAX; lia).
  rewrite bool_decide_false by (destruct (print_pad_first 2 (sec t)) as (? & ? & Ew & _);
    rewrite Ew; intros E%(f_equal length); simpl in E; rewrite length_app in E; simpl in E; lia).
  simpl. rewrite i32_small by (unfold is_i32; lia). destruct t. simpl in *. by rewrite Hv.
Qed.

Lemma split_at_first c l rest : (c ∉ l) → split_at c (l ++ c :: rest) = Some (l, rest).
Proof.
  intros Hc. induction l as [|d l IH]; simpl; [by rewrite Ascii.eqb_refl|].
  apply not_elem_of_cons in Hc as [Hd Hc].
  destruct (Ascii.eqb_spec d c); [done|]. by rewrite IH.
Qed.

Lemma print_uint_digits u : Forall (λ c, isdigit c = true) (print_uint u).
Proof. induction u; simpl; by constructor. Qed.

Lemma print_pad_no_letter c w z : isdigit c = false → c ∉ print_pad w z.
Proof.
  intros Hc Hin. unfold print_pad in Hin. apply elem_of_app in Hin as [Hin|Hin].
  - apply elem_of_replicate in Hin as [-> _]. done.
  - pose proof (print_uint_digits (N.to_uint (Z.to_N z))) as Hf. rewrite Forall_forall in Hf.
    rewrite Hf in Hc; done.
Qed.

Lemma date_format_no_T d : "T"%char ∉ date_format d.
Proof.
  unfold date_format. rewrite !elem_of_app, !elem_of_cons, !elem_of_app, !elem_of_cons.
  pose proof (print_pad_no_letter "T"%char). naive_solver.
Qed.

(** A valid date and time is printed without being cut, and its text is read back as the same
    date and time. *)
Theorem date_time_round_trip (dt old : EebusDateTime) (Hvalid : EebusDateTimeIsValid dt = true) :
  ∃ t, EebusDateTimeToString dt = Some t ∧ length t = 20%nat ∧ EebusDateTimeParse t old = (kEebusErrorOk, dt).
Proof.
  unfold EebusDateTimeToString. rewrite Hvalid. eexists. split; [done|].
  unfold EebusDateTimeIsValid in Hvalid. apply andb_true_iff in Hvalid as [Hd Ht].
  assert (length (date_format (date dt) ++ "T"%char :: time_format (time dt)) = 20%nat) as Hlen.
  { rewrite length_app. simpl. by rewrite date_format_length, time_format_length. }
  rewrite snprintf_fits by lia. split; [done|].
  unfold EebusDateTimeParse. rewrite split_at_first by apply date_format_no_T.
  rewrite date_format_length by done. simpl. rewrite DateParse_format, TimeParse_format by done.
  by destruct dt.
Qed.

(** *** Whatever is read is valid *)

Lemma DateParse_valid s d : EebusDateParse s = (kEebusErrorOk, d) → EebusDateIsValid d = true.
Proof.
  unfold EebusDateParse. repeat case_match; intros; simplify_eq; done.
Qed.

Lemma TimeParse_valid s t : EebusTimeParse s = (kEebusErrorOk, t) → EebusTimeIsValid t = true.
Proof.
  unfold EebusTimeParse. repeat case_match; intros; simplify_eq; done.
Qed.

(** A date and time that is read from a text, whatever the text, is valid, and so can be printed
    again. *)
Theorem date_time_read_is_valid (s : list ascii) (old dt : EebusDateTime)
  (Hread : EebusDateTimeParse s old = (kEebusErrorOk, dt)) :
  EebusDateTimeIsValid dt = true ∧ is_Some (EebusDateTimeToString dt).
Proof.
  assert (EebusDateTimeIsValid dt = true) as Hv.
  { unfold EebusDateTimeParse in Hread. destruct (split_at _ _) as [[b r]|]; [|done].
    case_bool_decide; [done|]. destruct (EebusDateParse b) as [err d] eqn:Ed.
    case_bool_decide; [by destruct err|]. destruct (EebusTimeParse r) as [err' t] eqn:Et.
    injection Hread as -> <-. destruct err; try (exfalso; by eauto).
    unfold EebusDateTimeIsValid. simpl. by rewrite (DateParse_valid _ _ Ed), (TimeParse_valid _ _ Et). }
  split; [done|]. unfold EebusDateTimeToString. by rewrite Hv.
Qed.

Lemma date_time_round_trip_witness :
  ∃ t, EebusDateTimeToString new_year = Some t ∧ length t = 20%nat ∧
    EebusDateTimeParse t new_year = (kEebusErrorOk, new_year).
Proof. apply date_time_round_trip. by vm_compute. Defined.

Lemma date_time_read_is_valid_witness :
  EebusDateTimeIsValid (mkDateTime (mkDate 2024 2 29) (mkTime 7 5 0)) = true ∧
  is_Some (EebusDateTimeToString (mkDateTime (mkDate 2024 2 29) (mkTime 7 5 0))).
Proof.
  apply (date_time_read_is_valid (list_ascii_of_string "2024-2-29T7:05:00.5") new_year). by vm_compute.
Defined.
