(* ===== verification/Calendar.v ===== *)
(** * Adding a duration to a date and time

    [EebusDateTimeAddDuration] against the calendar: days are counted, a date is its number
    of the day, and adding a duration adds its seconds.  And what it does not add. *)

From S2P Require Import Prelude Duration DateTime.

Local Open Scope Z_scope.

(** ** The calendar

    The days of the years, and of the months of a year, before a date: year 1 begins
    with day 1. *)

Definition days_before_year (y : Z) : Z :=
  let p := y - 1 in 365 * p + p / 4 - p / 100 + p / 400.

Definition days_before_month (y m : Z) : Z :=
  days_before_year y +
  foldr Z.add 0 ((λ k, EebusDateGetDaysInMonthNum (mkDate y k 1)) <$> seqZ 1 (m - 1)).

Definition day_number (d : EebusDate) : Z := days_before_month (year d) (month d) + day d.

Definition seconds_of_day (t : EebusTime) : Z := hour t * 3600 + min t * 60 + sec t.
Definition time_line (dt : EebusDateTime) : Z := day_number (date dt) * 86400 + seconds_of_day (time dt).

(** A date of the calendar, in any year. *)
Definition calendar_date (d : EebusDate) : Prop :=
  1 <= month d <= 12 ∧ 1 <= day d <= EebusDateGetDaysInMonthNum d.

Example unix_epoch : day_number (mkDate 1970 1 1) = 719163.
Proof. by vm_compute. Qed.

Lemma IsLeapYear_iff y : IsLeapYear y = true ↔ (y `mod` 4 = 0 ∧ y `mod` 100 ≠ 0) ∨ y `mod` 400 = 0.
Proof.
  unfold IsLeapYear. rewrite orb_true_iff, andb_true_iff, !bool_decide_eq_true.
  assert (∀ n, 0 < n → Z.rem y n = 0 ↔ y `mod` n = 0) as H.
  { intros n Hn. rewrite Z.rem_divide, Z.mod_divide by lia. done. }
  by rewrite (H 4), (H 100), (H 400) by lia.
Qed.

Lemma div_step p n : 0 < n → (p + 1) / n = p / n + (if bool_decide ((p + 1) `mod` n = 0) then 1 else 0).
Proof.
  intros Hn. pose proof (Z.div_mod p n). pose proof (Z.mod_pos_bound p n).
  pose proof (Z.div_mod (p + 1) n). pose proof (Z.mod_pos_bound (p + 1) n).
  case_bool_decide; nia.
Qed.

Lemma days_of_year y : days_before_year (y + 1) - days_before_year y = if IsLeapYear y then 366 else 365.
Proof.
  unfold days_before_year. replace (y + 1 - 1) with (y - 1 + 1) by lia.
  rewrite !div_step by lia. replace (y - 1 + 1) with y by lia.
  assert (y `mod` 4 = 0 ∨ y `mod` 100 ≠ 0) as H1.
  { destruct (decide (y `mod` 100 = 0)) as [E|]; [left|by right].
    rewrite Z.mod_divide in * by lia. etrans; [|apply E]. by exists 25. }
  assert (y `mod` 100 = 0 ∨ y `mod` 400 ≠ 0) as H2.
  { destruct (decide (y `mod` 400 = 0)) as [E|]; [left|by right].
    rewrite Z.mod_divide in * by lia. etrans; [|apply E]. by exists 4. }
  destruct (IsLeapYear y) eqn:E; [|apply not_true_iff_false in E]; rewrite IsLeapYear_iff in E;
    repeat case_bool_decide; lia.
Qed.

Lemma days_in_month_day y m d d' :
  EebusDateGetDaysInMonthNum (mkDate y m d) = EebusDateGetDaysInMonthNum (mkDate y m d').
Proof. done. Qed.

Lemma next_month y m : 1 <= m →
  days_before_month y (m + 1) = days_before_month y m + EebusDateGetDaysInMonthNum (mkDate y m 1).
Proof.
  intros Hm. unfold days_before_month. replace (m + 1 - 1) with (m - 1 + 1) by lia.
  rewrite seqZ_app by lia. rewrite fmap_app, foldr_app. simpl.
  replace (1 + (m - 1)) with m by lia.
  set (l := _ <$> seqZ 1 (m - 1)). set (x := EebusDateGetDaysInMonthNum _).
  assert (∀ a, foldr Z.add a l = foldr Z.add 0 l + a) as H by (clear; intros a; induction l; simpl; lia).
  rewrite (H (x + 0)). lia.
Qed.

Lemma next_year y : days_before_month y 13 = days_before_month (y + 1) 1.
Proof.
  unfold days_before_month. pose proof (days_of_year y) as Hy.
  unfold fmap, list_fmap. simpl. unfold EebusDateGetDaysInMonthNum. simpl. destruct (IsLeapYear y); lia.
Qed.

(** ** Carrying over is division *)

Lemma add32_ok a b : is_i32 (a + b) → add32 a b = Some (a + b).
Proof. unfold is_i32, add32. intros. by rewrite bool_decide_true. Qed.

Lemma Normalize_div x next max :
  0 < max → small x → is_i32 (next + x / max) →
  Normalize x next max = Some (x `mod` max, next + x / max).
Proof.
  intros Hmax Hx Hn. unfold Normalize, small in *.
  destruct (Z.leb_spec max x).
  { rewrite Z.quot_div_nonneg, Z.rem_mod_nonneg by lia. by rewrite add32_ok by done. }
  destruct (Z.ltb_spec x 0); [|by rewrite Z.mod_small, Z.div_small, Z.add_0_r by lia].
  unfold negate. rewrite bool_decide_false by lia. simpl.
  assert (Z.rem x max = - ((- x) `mod` max)) as ->.
  { rewrite <- (Z.opp_involutive x) at 1. rewrite Z.rem_opp_l, Z.rem_mod_nonneg by lia. done. }
  rewrite (Z.quot_div_nonneg (- x)) by lia.
  rewrite <- (Z.opp_involutive x) in Hn |- *. set (n := - x) in *. rewrite (Z.opp_involutive n).
  destruct (Z.eqb_spec (- (n `mod` max)) 0) as [E|E].
  - rewrite Z.div_opp_l_z, Z.mod_opp_l_z in * by lia. by rewrite add32_ok.
  - rewrite Z.div_opp_l_nz, Z.mod_opp_l_nz in * by lia.
    replace (- (1 + n / max)) with (- (n / max) - 1) by lia. by rewrite add32_ok by done.
Qed.

Lemma NormalizeMonths_div d :
  - 2 ^ 31 + 1 < month d < 2 ^ 31 → is_i32 (year d + (month d - 1) / 12) →
  NormalizeMonths d = Some (mkDate (year d + (month d - 1) / 12) ((month d - 1) `mod` 12 + 1) (day d)).
Proof.
  intros Hm Hy. unfold NormalizeMonths.
  rewrite add32_ok by (unfold is_i32; lia). simpl. replace (month d + -1) with (month d - 1) by lia.
  rewrite Normalize_div by (done || unfold small; lia). simpl.
  pose proof (Z.mod_pos_bound (month d - 1) 12). by rewrite add32_ok by (unfold is_i32; lia).
Qed.

(** The date after [NormalizeMonths] has moved a month on, or back. *)
Lemma month_forward y m d : 1 <= m <= 12 → is_i32 y → is_i32 (y + 1) →
  ∃ y' m', NormalizeMonths (mkDate y (m + 1) d) = Some (mkDate y' m' d) ∧ 1 <= m' <= 12 ∧ y <= y' <= y + 1 ∧
    days_before_month y' m' = days_before_month y m + EebusDateGetDaysInMonthNum (mkDate y m 1).
Proof.
  intros Hm Hy Hy1. rewrite NormalizeMonths_div; simpl.
  - replace (m + 1 - 1) with m by lia. do 2 eexists. split; [done|]. rewrite <- next_month by lia.
    destruct (decide (m = 12)) as [->|].
    + change (12 / 12) with 1. change (12 `mod` 12) with 0. split_and!; try lia. by rewrite next_year.
    + rewrite Z.div_small, Z.mod_small by lia. split_and!; try lia. f_equal. lia.
  - lia.
  - replace (m + 1 - 1) with m by lia.
    assert (0 <= m / 12 < 2) by (split; [apply Z.div_le_lower_bound|apply Z.div_lt_upper_bound]; lia).
    unfold is_i32 in *. lia.
Qed.

Lemma month_back y m d : 1 <= m <= 12 → is_i32 y → is_i32 (y - 1) →
  ∃ y' m', NormalizeMonths (mkDate y (m - 1) d) = Some (mkDate y' m' d) ∧ 1 <= m' <= 12 ∧ y - 1 <= y' <= y ∧
    days_before_month y m = days_before_month y' m' + EebusDateGetDaysInMonthNum (mkDate y' m' 1).
Proof.
  intros Hm Hy Hy1. rewrite NormalizeMonths_div; simpl.
  - do 2 eexists. split; [done|]. rewrite <- next_month by (pose proof (Z.mod_pos_bound (m - 1 - 1) 12); lia).
    destruct (decide (m = 1)) as [->|].
    + change ((1 - 1 - 1) / 12) with (-1). change ((1 - 1 - 1) `mod` 12) with 11. split_and!; try lia.
      change (11 + 1 + 1) with 13. rewrite next_year. f_equal. lia.
    + rewrite Z.div_small, Z.mod_small by lia. split_and!; try lia. f_equal; lia.
  - lia.
  - assert (-1 <= (m - 1 - 1) / 12 < 1) by (split; [apply Z.div_le_lower_bound|apply Z.div_lt_upper_bound]; lia).
    unfold is_i32 in *. lia.
Qed.

(** ** The days of a date *)

Lemma days_forward_exact fuel y m d :
  1 <= m <= 12 → 0 <= d < 2 ^ 31 → d <= Z.of_nat fuel → -2 ^ 30 <= y → y + Z.of_nat fuel < 2 ^ 31 - 1 →
  ∃ y' m' d', days_forward fuel (mkDate y m d) = Some (mkDate y' m' d') ∧ 1 <= m' <= 12 ∧
    0 <= d' < EebusDateGetDaysInMonthNum (mkDate y' m' d') ∧
    days_before_month y' m' + d' = days_before_month y m + d.
Proof.
  revert y m d. induction fuel as [|fuel IH]; intros y m d Hm Hd Hf Hy Hy';
    pose proof (days_in_month_range (mkDate y m d) Hm) as Hr; cbn [days_forward month day year].
  all: destruct (Z.leb_spec (EebusDateGetDaysInMonthNum (mkDate y m d)) d) as [Hle|Hlt];
    [|exists y, m, d; split_and!; (done || lia)].
  { lia. }
  rewrite add32_ok by (unfold is_i32; lia). simpl. rewrite add32_ok by (unfold is_i32; lia). simpl.
  destruct (month_forward y m (d + - EebusDateGetDaysInMonthNum (mkDate y m d)) Hm)
    as (y' & m' & -> & Hm' & Hy1 & Hb); [unfold is_i32; lia..|]. simpl.
  destruct (IH y' m' (d + - EebusDateGetDaysInMonthNum (mkDate y m d)))
    as (y'' & m'' & d'' & -> & ? & ? & E); try lia.
  exists y'', m'', d''. split_and!; try done; try lia.
  rewrite E, Hb, (days_in_month_day y m 1 d). lia.
Qed.

Lemma days_back_exact fuel y m d :
  1 <= m <= 12 → - 2 ^ 31 <= d <= 0 → - d <= Z.of_nat fuel → y <= 2 ^ 30 → - 2 ^ 31 + 1 < y - Z.of_nat fuel →
  ∃ y' m' d', days_back fuel (mkDate y m d) = Some (mkDate y' m' d') ∧ 1 <= m' <= 12 ∧
    0 <= d' < EebusDateGetDaysInMonthNum (mkDate y' m' d') ∧
    days_before_month y' m' + d' = days_before_month y m + d.
Proof.
  intros Hm Hd. assert (d < EebusDateGetDaysInMonthNum (mkDate y m d)) as Hlast
    by (pose proof (days_in_month_range (mkDate y m d) Hm); simpl in *; lia).
  destruct Hd as [Hd _]. revert y m d Hm Hd Hlast.
  induction fuel as [|fuel IH]; intros y m d Hm Hd Hlast Hf Hy Hy'; cbn [days_back month day year].
  all: destruct (Z.ltb_spec d 0) as [Hlt|Hle]; [|exists y, m, d; split_and!; (done || lia)].
  { lia. }
  rewrite add32_ok by (unfold is_i32; lia). simpl. replace (m + -1) with (m - 1) by lia.
  destruct (month_back y m d Hm) as (y' & m' & -> & Hm' & Hy1 & Hb); [unfold is_i32; lia..|]. simpl.
  pose proof (days_in_month_range (mkDate y' m' d) Hm') as Hr.
  rewrite add32_ok by (unfold is_i32; lia). simpl.
  destruct (IH y' m' (d + EebusDateGetDaysInMonthNum (mkDate y' m' d)))
    as (y'' & m'' & d'' & -> & ? & ? & E); try lia.
  { change (EebusDateGetDaysInMonthNum (mkDate y' m' (d + EebusDateGetDaysInMonthNum (mkDate y' m' d))))
      with (EebusDateGetDaysInMonthNum (mkDate y' m' d)). lia. }
  exists y'', m'', d''. split_and!; try done; try lia.
  rewrite E, Hb, (days_in_month_day y' m' 1 d). lia.
Qed.

(** Any number of days is a date; the year stays far from the ends of [int32_t]. *)
Lemma NormalizeDays_exact y m d :
  1 <= m <= 12 → 0 <= y <= 10 ^ 4 → Z.abs d <= 15 * 10 ^ 8 →
  ∃ r, NormalizeDays (mkDate y m d) = Some r ∧ calendar_date r ∧ day_number r = day_number (mkDate y m d).
Proof.
  intros Hm Hy Hd. unfold NormalizeDays. simpl. rewrite add32_ok by (unfold is_i32; lia). simpl.
  assert (∃ y' m' d', (if 0 <? d + -1
      then days_forward (Z.to_nat (Z.abs (d + -1))) (mkDate y m (d + -1))
      else days_back (Z.to_nat (Z.abs (d + -1))) (mkDate y m (d + -1))) = Some (mkDate y' m' d') ∧
    1 <= m' <= 12 ∧ 0 <= d' < EebusDateGetDaysInMonthNum (mkDate y' m' d') ∧
    days_before_month y' m' + d' = days_before_month y m + (d + -1)) as (y' & m' & d' & -> & Hm' & Hd' & E).
  { destruct (Z.ltb_spec 0 (d + -1)); [apply days_forward_exact|apply days_back_exact]; lia. }
  simpl. pose proof (days_in_month_range (mkDate y' m' d') Hm') as Hr.
  rewrite add32_ok by (unfold is_i32; lia). simpl. eexists. split; [done|].
  unfold calendar_date, day_number. simpl.
  rewrite (days_in_month_day y' m' (d' + 1) d'). lia.
Qed.

(** ** The theorem *)

(** Days, hours, minutes and seconds within a thousand million. *)
Definition moderate (d : EebusDuration) : Prop :=
  Forall (λ x, Z.abs x <= 10 ^ 9) [days d; hours d; minutes d; seconds d].

(** To a valid date and time a valid duration of days, hours, minutes and seconds is added
    exactly: no sum overflows, every loop ends, the result is a date of the calendar with a valid
    time, and on the line of time it lies as many seconds later, or earlier, as the duration has. *)
Theorem AddDuration_exact (dt : EebusDateTime) (d : EebusDuration)
  (Hdt : EebusDateTimeIsValid dt = true) (Hd : EebusDurationIsValid d = true)
  (Hsmall : moderate d) (Hmonths : months d = 0) (Hyears : years d = 0) (Hms : milliseconds d = 0) :
  ∃ r, EebusDateTimeAddDuration dt d = Some (kEebusErrorOk, r) ∧
    calendar_date (date r) ∧ EebusTimeIsValid (time r) = true ∧
    time_line r = time_line dt + EebusDurationToSeconds d.
Proof.
  unfold EebusDateTimeAddDuration, EebusDurationToSeconds. rewrite Hdt, Hd. cbn [negb orb].
  unfold moderate in Hsmall. rewrite !Forall_cons in Hsmall. destruct Hsmall as (Hda & Hh & Hmi & Hs & _).
  unfold EebusDateTimeIsValid in Hdt. apply andb_true_iff in Hdt as [(Hy & Hmo & Hday)%DateIsValid_iff Ht].
  apply TimeIsValid_iff in Ht as (Ht1 & Ht2 & Ht3).
  pose proof (days_in_month_range (date dt) Hmo) as Hdim.
  destruct dt as [[y mo da] [h mi s]]. simpl in *.
  set (s1 := s + seconds d). set (m1 := mi + s1 / 60 + minutes d). set (h1 := h + m1 / 60 + hours d).
  set (d1 := da + h1 / 24 + days d).
  pose proof (Z.div_mod s1 60 ltac:(lia)). pose proof (Z.mod_pos_bound s1 60 ltac:(lia)).
  pose proof (Z.div_mod m1 60 ltac:(lia)). pose proof (Z.mod_pos_bound m1 60 ltac:(lia)).
  pose proof (Z.div_mod h1 24 ltac:(lia)). pose proof (Z.mod_pos_bound h1 24 ltac:(lia)).
  assert (s1 = s + seconds d ∧ m1 = mi + s1 / 60 + minutes d ∧ h1 = h + m1 / 60 + hours d ∧
    d1 = da + h1 / 24 + days d) as (Es & Em & Eh & Ed) by done.
  rewrite add32_ok by (unfold is_i32; lia). cbn [mbind option_bind]. fold s1.
  rewrite Normalize_div by (unfold small, is_i32; lia). cbn [mbind option_bind].
  rewrite add32_ok by (unfold is_i32; lia). cbn [mbind option_bind]. fold m1.
  rewrite Normalize_div by (unfold small, is_i32; lia). cbn [mbind option_bind].
  rewrite add32_ok by (unfold is_i32; lia). cbn [mbind option_bind]. fold h1.
  rewrite Normalize_div by (unfold small, is_i32; lia). cbn [mbind option_bind].
  rewrite add32_ok by (unfold is_i32; lia). cbn [mbind option_bind]. fold d1.
  destruct (NormalizeDays_exact y mo d1) as (r & -> & Hcal & E); [lia..|]. cbn [mbind option_bind].
  pose proof Hcal as [Hmr _]. rewrite Hmonths, add32_ok by (unfold is_i32; lia). cbn [mbind option_bind].
  assert (NormalizeMonths (mkDate (year r) (month r + 0) (day r)) = Some r) as ->.
  { unfold NormalizeMonths. simpl. rewrite Z.add_0_r, add32_ok by (unfold is_i32; lia). simpl.
    unfold Normalize. destruct (Z.leb_spec 12 (month r + -1)); [lia|].
    destruct (Z.ltb_spec (month r + -1) 0); [lia|]. simpl. rewrite add32_ok by (unfold is_i32; lia).
    simpl. destruct r. simpl. do 2 f_equal. lia. }
  eexists. split; [done|]. split; [done|]. split; [apply TimeIsValid_iff; simpl; lia|].
  unfold time_line, seconds_of_day. simpl. rewrite E, Hyears, Hms. unfold day_number. simpl. change (0 `quot` 1000) with 0. lia.
Qed.

(** ** What is not added

    The years and the milliseconds of the duration; and months are added after days,
    without a look at the length of the month they lead to. *)

(** The years and the milliseconds of a valid duration are not added: the result is that of the
    same duration without them. *)
Theorem AddDuration_drops_years (dt : EebusDateTime) (d d' : EebusDuration)
  (Hd : EebusDurationIsValid d = true) (Hd' : EebusDurationIsValid d' = true)
  (Hsame : months d' = months d ∧ days d' = days d ∧ hours d' = hours d ∧ minutes d' = minutes d ∧
    seconds d' = seconds d) :
  EebusDateTimeAddDuration dt d' = EebusDateTimeAddDuration dt d.
Proof.
  destruct Hsame as (Emo & Eda & Eh & Emi & Es). unfold EebusDateTimeAddDuration.
  by rewrite Hd, Hd', Emo, Eda, Eh, Emi, Es.
Qed.

Definition one_year : EebusDuration := mkDuration 1 0 0 0 0 0 0.
Definition one_month : EebusDuration := mkDuration 0 1 0 0 0 0 0.
Definition last_of_january : EebusDateTime := mkDateTime (mkDate 2023 1 31) (mkTime 0 0 0).

(** A month after the 31st of January is the 31st of February. *)
Example february_31 :
  EebusDateTimeAddDuration last_of_january one_month =
    Some (kEebusErrorOk, mkDateTime (mkDate 2023 2 31) (mkTime 0 0 0)) ∧
  EebusDateTimeToString (mkDateTime (mkDate 2023 2 31) (mkTime 0 0 0)) = None.
Proof. by vm_compute. Qed.

Lemma AddDuration_exact_witness :
  ∃ r, EebusDateTimeAddDuration last_of_january (mkDuration 0 0 400 0 0 1 0) = Some (kEebusErrorOk, r) ∧
    calendar_date (date r) ∧ EebusTimeIsValid (time r) = true ∧
    time_line r = time_line last_of_january + EebusDurationToSeconds (mkDuration 0 0 400 0 0 1 0).
Proof.
  apply AddDuration_exact.
  - by vm_compute.
  - by vm_compute.
  - repeat constructor; simpl; lia.
  - done.
  - done.
  - done.
Defined.

Lemma AddDuration_drops_years_witness :
  EebusDateTimeAddDuration last_of_january one_year = EebusDateTimeAddDuration last_of_january zero_duration.
Proof. apply AddDuration_drops_years; by vm_compute. Defined.
