(* ===== verification/EebusData.v ===== *)
(** * EEBUS data ([src/common/eebus_data/], [src/common/api/eebus_data_interface.h])

    SPINE data is a tree of C structures that a tree of configurations
    ([EebusDataCfg]) describes; every operation walks both.  Here: the configurations, the
    data and the operations that ask about it.  [EebusDataWrite] has those that
    change it, [EebusDataJson] its JSON. *)

From S2P Require Import Prelude Duration DateTime.

Local Open Scope list_scope.
Local Open Scope Z_scope.

(** ** Configurations

    One constructor for each interface ([eebus_data_*_methods]); [size] of a structure and the
    offsets are the positions of the fields.  [flags]: where a macro of the model
    can set it. *)

Inductive TimeKind := TDuration | TDate | TTime | TDateTime | TAbsoluteOrRelative.

Inductive SimpleKind :=
| KBool
| KNumeric (signed : bool) (bits : Z)          (** the [JsonNumConvInterface] *)
| KEnum (lut : list (string * Z))              (** [EnumMapping] *)
| KString
| KTime (parser : TimeKind).                   (** the [DateTimeParseInterface] *)

(** Containers inherit the methods of sequences and have partial access of their own. *)
Inductive ContainerKind := KContainer | KSmartEnergyManagementPs.

Inductive EebusDataCfg :=
| Simple (name : string) (flags : Z) (kind : SimpleKind)
| Tag (name : string)
| Stub (name : string)
| Sequence (name : string) (flags : Z) (metadata : list EebusDataCfg)
| Container (kind : ContainerKind) (name : string) (metadata : list EebusDataCfg)
| List_ (name : string) (metadata : EebusDataCfg)
| ListSimple (name : string) (metadata : EebusDataCfg)
| Choice (metadata : list EebusDataCfg).

#[export] Instance TimeKind_eq_dec : EqDecision TimeKind.
Proof. solve_decision. Defined.
#[export] Instance ContainerKind_eq_dec : EqDecision ContainerKind.
Proof. solve_decision. Defined.

Definition cfg_name (cfg : EebusDataCfg) : string :=
  match cfg with
  | Simple n _ _ | Tag n | Stub n | Sequence n _ _ | Container _ n _ | List_ n _ | ListSimple n _ => n
  | Choice _ => EmptyString
  end.

Definition kEebusDataFlagIsIdentifier : Z := 1.
Definition kEebusDataFlagIsSubIdentifier : Z := 2.

(** Induction over a configuration and those below it. *)
Section cfg_ind.
Context (P : EebusDataCfg → Prop).
Context (HSimple : ∀ n f k, P (Simple n f k)) (HTag : ∀ n, P (Tag n)) (HStub : ∀ n, P (Stub n)).
Context (HSequence : ∀ n f cs, Forall P cs → P (Sequence n f cs)).
Context (HContainer : ∀ k n cs, Forall P cs → P (Container k n cs)).
Context (HList : ∀ n c, P c → P (List_ n c)) (HListSimple : ∀ n c, P c → P (ListSimple n c)).
Context (HChoice : ∀ cs, Forall P cs → P (Choice cs)).

Fixpoint cfg_ind' (cfg : EebusDataCfg) : P cfg :=
  let fix all (cs : list EebusDataCfg) : Forall P cs :=
    match cs with [] => Forall_nil_2 P | c :: cs => Forall_cons_2 P c cs (cfg_ind' c) (all cs) end in
  match cfg with
  | Simple n f k => HSimple n f k
  | Tag n => HTag n
  | Stub n => HStub n
  | Sequence n f cs => HSequence n f cs (all cs)
  | Container k n cs => HContainer k n cs (all cs)
  | List_ n c => HList n c (cfg_ind' c)
  | ListSimple n c => HListSimple n c (cfg_ind' c)
  | Choice cs => HChoice cs (all cs)
  end.
End cfg_ind.

(** ** Data

    What a field holds.  No two pointers of a tree lead to the same block: the
    operations copy. *)

Inductive Block :=
| BInt (z : Z)                                 (** a [bool], the bits of a number, an [int32_t] *)
| BString (s : string)
| BDuration (d : EebusDuration)
| BDate (d : EebusDate)
| BTime (t : EebusTime)
| BDateTime (dt : EebusDateTime)
| BAbsoluteOrRelative (t : AbsoluteOrRelativeTimeType).

#[export] Instance Block_eq_dec : EqDecision Block.
Proof. solve_decision. Defined.

Inductive Data :=
| Null                                         (** NULL, and a tag that is reset *)
| Leaf (b : Block)                             (** a pointer to a block of a simple kind *)
| TagSet
| Struct (fields : list Data)                  (** a pointer to a structure *)
| Array (items : list Data)                    (** a pointer to a buffer, with its size *)
| Chosen (type_id : nat) (d : Data).           (** the type id and the pointer of a choice *)

Section data_ind.
Context (P : Data → Prop).
Context (HNull : P Null) (HLeaf : ∀ b, P (Leaf b)) (HTagSet : P TagSet).
Context (HStruct : ∀ l, Forall P l → P (Struct l)) (HArray : ∀ l, Forall P l → P (Array l)).
Context (HChosen : ∀ i d, P d → P (Chosen i d)).

Fixpoint data_ind' (d : Data) : P d :=
  let fix all (l : list Data) : Forall P l :=
    match l with [] => Forall_nil_2 P | d :: l => Forall_cons_2 P d l (data_ind' d) (all l) end in
  match d with
  | Null => HNull
  | Leaf b => HLeaf b
  | TagSet => HTagSet
  | Struct l => HStruct l (all l)
  | Array l => HArray l (all l)
  | Chosen i d => HChosen i d (data_ind' d)
  end.
End data_ind.

Definition null (d : Data) : bool := match d with Null => true | _ => false end.

(** *** The data of a configuration *)

Definition block_of (kind : SimpleKind) (b : Block) : bool :=
  match kind, b with
  | KBool, BInt z => (0 <=? z) && (z <=? 1)
  | KNumeric _ bits, BInt z => (0 <=? z) && (z <? 2 ^ bits)
  | KEnum _, BInt z => (- 2 ^ 31 <=? z) && (z <? 2 ^ 31)
  | KString, BString _ => true
  | KTime TDuration, BDuration _ => true
  | KTime TDate, BDate _ => true
  | KTime TTime, BTime _ => true
  | KTime TDateTime, BDateTime _ => true
  | KTime TAbsoluteOrRelative, BAbsoluteOrRelative _ => true
  | _, _ => false
  end.

(** Both lists have the same length and are related item by item. *)
Fixpoint forall2b {A B} (f : A → B → bool) (l : list A) (k : list B) : bool :=
  match l, k with
  | [], [] => true
  | a :: l, b :: k => f a b && forall2b f l k
  | _, _ => false
  end.

(** [f] of the [n]-th item. *)
Fixpoint pick {A B} (f : A → B) (l : list A) (n : nat) : option B :=
  match l, n with
  | [], _ => None
  | a :: _, O => Some (f a)
  | _ :: l, S n => pick f l n
  end.

Fixpoint typed (cfg : EebusDataCfg) (d : Data) : bool :=
  match cfg, d with
  | Choice cs, Chosen i d => default false (pick (λ c, typed c d) cs i)
  | Choice _, _ => false
  | _, Null => true
  | Simple _ _ k, Leaf b => block_of k b
  | Tag _, TagSet => true
  | Sequence _ _ cs, Struct l | Container _ _ cs, Struct l => forall2b typed cs l
  | List_ _ c, Array l | ListSimple _ c, Array l => forallb (typed c) l
  | _, _ => false
  end.

(** ** Questions *)

(** [eebus_data_*.c], [IsNull]; a type id out of range is an assertion, and false. *)
Fixpoint is_null (cfg : EebusDataCfg) (d : Data) : bool :=
  match cfg with
  | Stub _ => true
  | Choice cs =>
      match d with Chosen i d => default false (pick (λ c, is_null c d) cs i) | _ => false end
  | _ => null d
  end.

(** Every field is null. *)
Fixpoint all_null (cs : list EebusDataCfg) (l : list Data) : bool :=
  match cs, l with
  | c :: cs, d :: l => is_null c d && all_null cs l
  | _, _ => true
  end.

Fixpoint is_empty (cfg : EebusDataCfg) (d : Data) : bool :=
  match cfg with
  | Sequence _ _ cs | Container _ _ cs => match d with Struct l => all_null cs l | _ => false end
  | Choice cs => match d with Chosen i d => default false (pick (λ c, is_empty c d) cs i) | _ => false end
  | _ => false
  end.

Definition has_identifiers_flags (flags : Z) : bool :=
  negb (Z.land flags kEebusDataFlagIsIdentifier =? 0) ||
  negb (Z.land flags kEebusDataFlagIsSubIdentifier =? 0).

(** [EebusDataBaseHasIdentifiersFlags] *)
Definition HasIdentifiersFlags (cfg : EebusDataCfg) : bool :=
  match cfg with Simple _ f _ | Sequence _ f _ => has_identifiers_flags f | _ => false end.

#[global] Arguments HasIdentifiersFlags : simpl never.

(** Whether [f] holds of a field. *)
Section any_field.
Context (f : EebusDataCfg → Data → bool).
Fixpoint any_field (cs : list EebusDataCfg) (l : list Data) : bool :=
  match cs, l with
  | c :: cs, d :: l => f c d || any_field cs l
  | _, _ => false
  end.
End any_field.

Fixpoint has_identifiers (cfg : EebusDataCfg) (d : Data) : bool :=
  match cfg with
  | Simple _ _ _ | Tag _ => negb (is_null cfg d) && HasIdentifiersFlags cfg
  | Sequence _ _ cs | Container _ _ cs =>
      match d with
      | Struct l => HasIdentifiersFlags cfg || any_field has_identifiers cs l
      | _ => false
      end
  | Stub _ | List_ _ _ | ListSimple _ _ | Choice _ => false
  end.

(** *** Comparing

    [None]: a comparison of blocks that have not the same layout (C reads beyond
    one of them), or of data that is not of its configuration. *)

(** A [memcmp] or [strcmp] where the interfaces are the same. *)
Definition compare_blocks (ka kb : SimpleKind) (a b : Block) : option bool :=
  match ka, kb with
  | KBool, KBool | KEnum _, KEnum _ | KString, KString => Some (bool_decide (a = b))
  | KNumeric _ n, KNumeric _ m => if bool_decide (n = m) then Some (bool_decide (a = b)) else None
  | KTime k, KTime k' => if bool_decide (k = k') then Some (bool_decide (a = b)) else None
  | _, _ => Some false
  end.

Definition same_interface (ka kb : SimpleKind) : bool :=
  match ka, kb with
  | KBool, KBool | KNumeric _ _, KNumeric _ _ | KEnum _, KEnum _ | KString, KString | KTime _, KTime _ => true
  | _, _ => false
  end.

(** The comparison goes on while it is true. *)
Definition and_then (a b : option bool) : option bool :=
  x ← a; if x : bool then b else Some false.

Section cmp_fields.
Context (f : EebusDataCfg → EebusDataCfg → Data → Data → option bool).
Fixpoint cmp_fields (acs bcs : list EebusDataCfg) (la lb : list Data) : option bool :=
  match acs, bcs, la, lb with
  | [], [], [], [] => Some true
  | ac :: acs, bc :: bcs, x :: la, y :: lb => and_then (f ac bc x y) (cmp_fields acs bcs la lb)
  | _, _, _, _ => None
  end.
End cmp_fields.

Section cmp_items.
Context (f : Data → Data → option bool).
Fixpoint cmp_items (la lb : list Data) : option bool :=
  match la, lb with
  | [], [] => Some true
  | x :: la, y :: lb => and_then (f x y) (cmp_items la lb)
  | _, _ => None
  end.
End cmp_items.

Fixpoint compare (a_cfg b_cfg : EebusDataCfg) (a b : Data) : option bool :=
  let both_null := if null a || null b then Some (null a && null b) else None in
  match a_cfg, b_cfg with
  | Simple _ _ ka, Simple _ _ kb =>
      if negb (same_interface ka kb) then Some false
      else match a, b with
           | Leaf x, Leaf y => compare_blocks ka kb x y
           | _, _ => both_null
           end
  | Tag _, Tag _ => Some (eqb (null a) (null b))
  | Stub _, _ => Some true
  | Sequence _ _ acs, Sequence _ _ bcs =>
      match a, b with
      | Struct la, Struct lb =>
          if bool_decide (length acs ≠ length bcs) then Some false else cmp_fields compare acs bcs la lb
      | _, _ => both_null
      end
  | Container ka _ acs, Container kb _ bcs =>
      if bool_decide (ka ≠ kb) then Some false
      else
        match a, b with
        | Struct la, Struct lb =>
            if bool_decide (length acs ≠ length bcs) then Some false else cmp_fields compare acs bcs la lb
        | _, _ => both_null
        end
  | List_ _ ac, List_ _ bc | List_ _ ac, ListSimple _ bc
  | ListSimple _ ac, List_ _ bc | ListSimple _ ac, ListSimple _ bc =>
      match a, b with
      | Array la, Array lb => if bool_decide (length la ≠ length lb) then Some false else cmp_items (compare ac bc) la lb
      | _, _ => both_null
      end
  | List_ _ _, _ | ListSimple _ _, _ => None
  | Choice acs, Choice bcs =>
      match a, b with
      | Chosen i x, Chosen j y =>
          if bool_decide (length acs <= i)%nat || bool_decide (length bcs <= j)%nat then Some false
          else bc ← bcs !! j; default None (pick (λ ac, compare ac bc x y) acs i)
      | _, _ => None
      end
  | _, _ => Some false
  end.

(** *** Matching *)

Section match_fields.
Context (f : EebusDataCfg → Data → Data → option bool).
Fixpoint match_fields (cs : list EebusDataCfg) (bs ss : list Data) : option bool :=
  match cs, bs, ss with
  | [], [], [] => Some true
  | c :: cs, b :: bs, s :: ss => and_then (f c b s) (match_fields cs bs ss)
  | _, _, _ => None
  end.
End match_fields.

(** The identifiers the source has are those of the data. *)
Fixpoint identifiers_match (cfg : EebusDataCfg) (base src : Data) : option bool :=
  match cfg with
  | Simple _ _ _ =>
      if negb (HasIdentifiersFlags cfg) then Some true
      else if is_null cfg src then Some true
      else compare cfg cfg base src
  | Tag _ | List_ _ _ | ListSimple _ _ => Some true
  | Sequence _ _ cs | Container _ _ cs =>
      if HasIdentifiersFlags cfg then compare cfg cfg base src
      else if negb (has_identifiers cfg src) then Some true
      else match base, src with
           | Null, _ => Some false
           | Struct bs, Struct ss => match_fields identifiers_match cs bs ss
           | _, _ => None
           end
  | Stub _ | Choice _ => Some false
  end.

(** [EebusDataSequenceGetFieldCfg], with the field. *)
Fixpoint get_field (cs : list EebusDataCfg) (l : list Data) (name : string) : option (EebusDataCfg * Data) :=
  match cs, l with
  | c :: cs, d :: l => if bool_decide (cfg_name c = name) then Some (c, d) else get_field cs l name
  | _, _ => None
  end.

Fixpoint selectors_loop (cs : list EebusDataCfg) (bs : list Data) (scs : list EebusDataCfg) (ss : list Data) :
    option bool :=
  match scs, ss with
  | [], [] => Some true
  | sc :: scs, s :: ss =>
      if is_null sc s then selectors_loop cs bs scs ss
      else match get_field cs bs (cfg_name sc) with
           | None => selectors_loop cs bs scs ss
           | Some (c, b) => and_then (compare c sc b s) (selectors_loop cs bs scs ss)
           end
  | _, _ => None
  end.

Definition selectors_match (cfg : EebusDataCfg) (base : Data) (selectors_cfg : EebusDataCfg) (selectors : Data) :
    option bool :=
  match cfg with
  | Sequence _ _ cs =>
      match selectors_cfg with
      | Sequence _ _ scs =>
          match selectors, base with
          | Null, _ => Some true
          | _, Null => Some false
          | Struct ss, Struct bs => selectors_loop cs bs scs ss
          | _, _ => None
          end
      | _ => Some false
      end
  | _ => Some false
  end.
