(* ===== verification/EebusDataWrite.v ===== *)
(** * Operations that change EEBUS data ([src/common/eebus_data/])

    A method returns its error code and what its field holds afterwards; [None]
    where C gives the call no meaning: a read or write beyond a buffer, or data that is not
    of its configuration.  Memory is there for every request the code makes, except
    where the code itself refuses (lists of more than 10000 items) and for
    [malloc(0)], which may return NULL. *)

From S2P Require Import Prelude Duration DateTime EebusData.

Local Open Scope list_scope.

Class Allocator := malloc_zero : bool.

Abbreviation R := (option (EebusError * Data)).
Abbreviation RL := (option (EebusError * list Data)).

(** Go on with the next field or item while there is no error. *)
Definition next (r : R) (rest : list Data) (k : unit → RL) : RL :=
  '(err, d) ← r;
  if is_ok err then '(err, l) ← k tt; Some (err, d :: l) else Some (err, d :: rest).

Section each_field.
Context (f : EebusDataCfg → Data → Data → R).
Fixpoint each_field (cs : list EebusDataCfg) (bs ss : list Data) : RL :=
  match cs, bs, ss with
  | [], [], [] => Some (kEebusErrorOk, [])
  | c :: cs, b :: bs, s :: ss => next (f c b s) bs (λ _, each_field cs bs ss)
  | _, _, _ => None
  end.
End each_field.

Section each_item.
Context (f : Data → Data → R).
Fixpoint each_item (bs ss : list Data) : RL :=
  match bs, ss with
  | [], [] => Some (kEebusErrorOk, [])
  | b :: bs, s :: ss => next (f b s) bs (λ _, each_item bs ss)
  | _, _ => None
  end.
End each_item.

(** [EebusDataSequenceGetFieldCfg] finds a field. *)
Definition has_field (name : string) (cs : list EebusDataCfg) : bool :=
  existsb (λ c, bool_decide (cfg_name c = name)) cs.

(** [f] of the first field with the name. *)
Section named_field.
Context (f : EebusDataCfg → Data → Data → R) (name : string).
Fixpoint named_field (cs : list EebusDataCfg) (bs ss : list Data) : RL :=
  match cs, bs, ss with
  | c :: cs, b :: bs, s :: ss =>
      if bool_decide (cfg_name c = name) then '(err, b) ← f c b s; Some (err, b :: bs)
      else '(err, bs) ← named_field cs bs ss; Some (err, b :: bs)
  | _, _, _ => None
  end.
End named_field.

Fixpoint every (f : Data → R) (bs : list Data) : RL :=
  match bs with
  | [] => Some (kEebusErrorOk, [])
  | b :: bs => next (f b) bs (λ _, every f bs)
  end.

Definition into (mk : list Data → Data) (r : RL) : R := '(err, l) ← r; Some (err, mk l).

(** ** Creating and deleting

    [memset] to 0: pointers are NULL, tags are reset, and a choice has type id 0. *)

Definition zeroed (cfg : EebusDataCfg) : Data :=
  match cfg with Choice _ => Chosen 0 Null | _ => Null end.

Definition create_empty (cs : list EebusDataCfg) : list Data := zeroed <$> cs.

Definition kMaxElementsNum : Z := 10000.

Definition delete (cfg : EebusDataCfg) (base : Data) : Data :=
  match cfg with
  | Stub _ => base
  | Choice cs =>
      match base with
      | Chosen i d => if bool_decide (length cs <= i)%nat then base else Chosen i Null
      | _ => base
      end
  | _ => Null
  end.

Section operations.
Context `{Allocator}.

(** Whether the buffer is made. *)
Definition CreateListBuffer (n : nat) : bool :=
  (Z.of_nat n <=? kMaxElementsNum)%Z && (malloc_zero || negb (n =? 0)%nat).

(** ** Writing *)

Fixpoint write (cfg : EebusDataCfg) (base src : Data) : R :=
  let write_list (c : EebusDataCfg) : R :=
    match src with
    | Null => Some (kEebusErrorOk, Null)
    | Array ss =>
        let create := if CreateListBuffer (length ss) then Some (replicate (length ss) Null) else None in
        buf ← (match base with
               | Array bs => if bool_decide (length bs = length ss) then Some (Some bs) else Some create
               | Null => Some create
               | _ => None
               end);
        match buf with
        | Some bs => into Array (each_item (write c) bs ss)
        | None => Some (kEebusErrorMemoryAllocate, Null)
        end
    | _ => None
    end in
  match cfg with
  | Simple _ _ _ =>
      match src with Null => Some (kEebusErrorOk, Null) | Leaf b => Some (kEebusErrorOk, Leaf b) | _ => None end
  | Tag _ =>
      match src with Null => Some (kEebusErrorOk, Null) | TagSet => Some (kEebusErrorOk, TagSet) | _ => None end
  | Stub _ => Some (kEebusErrorOk, base)
  | Sequence _ _ cs | Container _ _ cs =>
      match src with
      | Null => Some (kEebusErrorOk, Null)
      | Struct ss =>
          bs ← (match base with Null => Some (create_empty cs) | Struct bs => Some bs | _ => None end);
          into Struct (each_field write cs bs ss)
      | _ => None
      end
  | List_ _ c => write_list c
  | ListSimple _ c => write_list c
  | Choice cs =>
      match base, src with
      | Chosen _ b, Chosen i s =>
          if bool_decide (length cs <= i)%nat then Some (kEebusErrorInputArgument, base)
          else
            (* the error of the alternative is dropped *)
            '(_, d) ← default None (pick (λ c, write c b s) cs i);
            Some (kEebusErrorOk, Chosen i d)
      | _, _ => None
      end
  end.

(** [EebusDataBaseCopy] *)
Definition copy (cfg : EebusDataCfg) (base dst : Data) : R := write cfg dst base.

(** [EebusDataBaseWriteElements]: what the source does not have is left. *)
Definition base_write_elements (cfg : EebusDataCfg) (base src : Data) : R :=
  if is_null cfg src then Some (kEebusErrorOk, base) else write cfg base src.

Fixpoint write_elements (cfg : EebusDataCfg) (base src : Data) : R :=
  match cfg with
  | Stub _ => Some (kEebusErrorOk, base)
  | Sequence _ _ cs | Container _ _ cs =>
      match src with
      | Null => Some (kEebusErrorOk, base)
      | Struct ss =>
          bs ← (match base with Null => Some (create_empty cs) | Struct bs => Some bs | _ => None end);
          into Struct (each_field write_elements cs bs ss)
      | _ => None
      end
  | _ => base_write_elements cfg base src
  end.

(** ** Partial writing of a list ([eebus_data_list.c]) *)

(** The items of a list; a list that is NULL has none. *)
Definition list_items (d : Data) : option (list Data) :=
  match d with Null => Some [] | Array l => Some l | _ => None end.
Definition with_items (d : Data) (l : list Data) : Data :=
  match d with Null => Null | _ => Array l end.

(** The first item is looked at alone. *)
Definition ListElementsHaveIdentifiers (c : EebusDataCfg) (src : Data) : bool :=
  match src with Array (s :: _) => has_identifiers c s | _ => false end.

Definition CopyToSelectedData (c : EebusDataCfg) (base src : Data) (selectors_cfg : EebusDataCfg)
    (selectors : Data) : R :=
  if null src then Some (kEebusErrorOk, base)
  else
    bs ← list_items base;
    into (with_items base)
      (every (λ b,
         m ← selectors_match c b selectors_cfg selectors;
         if m : bool then s ← list_items src ≫= head; write_elements c b s
         else Some (kEebusErrorOk, b)) bs).

Section partial.
(** [EEBUS_DATA_WRITE_PARTIAL] of an item. *)
Context (c : EebusDataCfg) (write_partial : Data → Data → R).

Definition CopyToAllData (base src : Data) : R :=
  if null src then Some (kEebusErrorOk, base)
  else
    bs ← list_items base;
    into (with_items base) (every (λ b, s ← list_items src ≫= head; write_partial b s) bs).

(** The index of the item, or [None] inside for NULL. *)
Fixpoint GetItemMatchingIdentifiers (ar : list Data) (el : Data) : option (option nat) :=
  match ar with
  | [] => Some None
  | b :: ar =>
      m ← identifiers_match c b el;
      if m : bool then Some (Some 0%nat)
      else i ← GetItemMatchingIdentifiers ar el; Some (option_map S i)
  end.

Fixpoint count_new (ar : list Data) (ss : list Data) : option nat :=
  match ss with
  | [] => Some 0%nat
  | s :: ss =>
      m ← GetItemMatchingIdentifiers ar s; k ← count_new ar ss;
      Some (match m with None => S k | Some _ => k end)
  end.

(** The third part of [MergeData]: [ar] is the new buffer, [ar_size] the number of old
    items in it, [j] the next free place; writing beyond the buffer is [None]. *)
Fixpoint merge_loop (ar_size : nat) (ar : list Data) (j : nat) (ss : list Data) : RL :=
  match ss with
  | [] => Some (kEebusErrorOk, ar)
  | s :: ss =>
      m ← GetItemMatchingIdentifiers (take ar_size ar) s;
      '(err, ar, j) ← (match m with
        | Some i => b ← ar !! i; '(err, b) ← write_partial b s; Some (err, <[i := b]> ar, j)
        | None => b ← ar !! j; '(err, b) ← write c b s; Some (err, <[j := b]> ar, S j)
        end);
      if is_ok err then merge_loop ar_size ar j ss else Some (err, ar)
  end.

Definition MergeData (base src : Data) : R :=
  bs ← list_items base; ss ← list_items src;
  added ← count_new bs ss;
  let new_size := (length bs + added)%nat in
  if (0 <? added)%nat && negb (CreateListBuffer new_size) then Some (kEebusErrorMemoryAllocate, base)
  else
    '(err, l) ← merge_loop (length bs) (bs ++ replicate added Null) (length bs) ss;
    Some (err, if (0 <? added)%nat then Array l else with_items base l).
End partial.

(** [selectors]: their configuration and the data, or NULL. *)
Abbreviation Selectors := (option (EebusDataCfg * Data)).

(** The structure that is written into: what is there, or an empty one. *)
Definition opened (cs : list EebusDataCfg) (base : Data) : option (list Data) :=
  match base with Null => Some (create_empty cs) | Struct bs => Some bs | _ => None end.

Section partial_methods.
Context (write_partial : EebusDataCfg → Data → Data → Selectors → R).

Definition SequenceWritePartial (cs : list EebusDataCfg) (base src : Data) : R :=
  match src with
  | Null => Some (kEebusErrorOk, base)
  | Struct ss => bs ← opened cs base; into Struct (each_field (λ c b s, write_partial c b s None) cs bs ss)
  | _ => None
  end.

Definition ContainerWritePartial (cs : list EebusDataCfg) (base src : Data) (selectors : Selectors) : R :=
  match cs with
  | List_ _ _ as c :: _ =>
      match src with
      | Null => Some (kEebusErrorInputArgument, base)
      | Struct (s :: _) =>
          bs ← opened cs base;
          match bs with
          | b :: bs => '(err, d) ← write_partial c b s selectors; Some (err, Struct (d :: bs))
          | [] => None
          end
      | _ => None
      end
  | _ => Some (kEebusErrorInputArgument, base)
  end.

(** [smart_energy_management_ps_cfg.c]: an error of the first field is dropped. *)
Definition SmartEnergyManagementPsWritePartial (cs : list EebusDataCfg) (base src : Data)
    (selectors : Selectors) : R :=
  if negb (has_field "nodeScheduleInformation" cs && has_field "alternatives" cs) then Some (kEebusErrorInit, base)
  else
    match src with
    | Null => Some (kEebusErrorInputArgument, base)
    | Struct ss =>
        bs ← opened cs base;
        '(err, bs) ← named_field (λ c b s, write_partial c b s selectors) "nodeScheduleInformation" cs bs ss;
        if negb (is_ok err) then Some (kEebusErrorOk, Struct bs)
        else
          '(scfg, sel) ← selectors;
          if negb (is_null scfg sel) then Some (kEebusErrorNotImplemented, Struct bs)
          else into Struct (named_field (λ c b s, write_partial c b s None) "alternatives" cs bs ss)
    | _ => None
    end.

Definition ListWritePartial (c : EebusDataCfg) (base src : Data) (selectors : Selectors) : R :=
  let wp := λ b s, write_partial c b s None in
  match (match selectors with
         | Some (scfg, sel) => if is_null scfg sel then None else Some (scfg, sel)
         | None => None
         end) with
  | Some (scfg, sel) => CopyToSelectedData c base src scfg sel
  | None =>
      if negb (ListElementsHaveIdentifiers c src) then CopyToAllData wp base src
      else MergeData c wp base src
  end.
End partial_methods.

Fixpoint write_partial (cfg : EebusDataCfg) (base src : Data) (selectors : Selectors) : R :=
  match cfg with
  | Stub _ => Some (kEebusErrorOk, base)
  | Sequence _ _ cs => SequenceWritePartial write_partial cs base src
  | Container KContainer _ cs => ContainerWritePartial write_partial cs base src selectors
  | Container KSmartEnergyManagementPs _ cs => SmartEnergyManagementPsWritePartial write_partial cs base src selectors
  | List_ _ c => ListWritePartial write_partial c base src selectors
  | _ => write_elements cfg base src
  end.

(** ** Deleting *)

Fixpoint delete_elements (cfg : EebusDataCfg) (base : Data) (elements_cfg : EebusDataCfg) (elements : Data) :
    option Data :=
  let fix fields (cs : list EebusDataCfg) (bs : list Data) (ecs : list EebusDataCfg) (es : list Data) :
      option (list Data) :=
    match cs, bs, ecs, es with
    | c :: cs, b :: bs, ec :: ecs, e :: es =>
        b ← (if is_null ec e then Some b
             else if is_empty ec e then Some (delete c b)
             else delete_elements c b ec e);
        bs ← fields cs bs ecs es; Some (b :: bs)
    | [], [], _, _ => Some []
    | _, _, [], [] => Some bs
    | _, _, _, _ => None
    end in
  match cfg with
  | Simple _ _ _ | Tag _ | List_ _ _ | ListSimple _ _ =>
      Some (if is_null elements_cfg elements then base else delete cfg base)
  | Stub _ | Choice _ => Some base
  | Sequence _ _ cs | Container _ _ cs =>
      match elements_cfg with
      | Sequence _ _ ecs =>
          match base, elements with
          | Null, _ | _, Null => Some base
          | Struct bs, Struct es =>
              if is_empty elements_cfg elements then Some (delete cfg base)
              else Struct <$> fields cs bs ecs es
          | _, _ => None
          end
      | _ => Some base
      end
  end.

Fixpoint deselect (f : Data → option bool) (bs : list Data) : option (list Data) :=
  match bs with
  | [] => Some []
  | b :: bs => m ← f b; bs ← deselect f bs; Some (if m : bool then bs else b :: bs)
  end.

Definition DeleteListItems (c : EebusDataCfg) (base : Data) (selectors_cfg : EebusDataCfg) (selectors : Data) :
    option Data :=
  bs ← list_items base;
  kept ← deselect (λ b, selectors_match c b selectors_cfg selectors) bs;
  if bool_decide (length kept = length bs) then Some base
  else if CreateListBuffer (length kept) then Some (Array kept) else Some base.

Definition DeleteListItemsElements (c : EebusDataCfg) (base : Data) (selectors_cfg : EebusDataCfg)
    (selectors : Data) (elements_cfg : EebusDataCfg) (elements : Data) : option Data :=
  bs ← list_items base;
  bs ← mapM (λ b, m ← selectors_match c b selectors_cfg selectors;
                  if m : bool then delete_elements c b elements_cfg elements else Some b) bs;
  Some (with_items base bs).

Definition delete_partial_list (c : EebusDataCfg) (base : Data) (selectors_cfg : EebusDataCfg) (selectors : Data)
    (elements_cfg : EebusDataCfg) (elements : Data) : option Data :=
  let selectors_buf_is_null := is_null selectors_cfg selectors in
  let elements_buf_is_null := is_null elements_cfg elements in
  if selectors_buf_is_null && elements_buf_is_null then Some base
  else if negb selectors_buf_is_null && elements_buf_is_null
  then DeleteListItems c base selectors_cfg selectors
  else DeleteListItemsElements c base selectors_cfg selectors elements_cfg elements.

Definition delete_partial (cfg : EebusDataCfg) (base : Data) (selectors_cfg : EebusDataCfg) (selectors : Data)
    (elements_cfg : EebusDataCfg) (elements : Data) : option Data :=
  match cfg with
  | Stub _ => Some base
  | Container KContainer _ (List_ _ c :: _) =>
      match base with
      | Null => Some base
      | Struct (b :: bs) =>
          d ← delete_partial_list c b selectors_cfg selectors elements_cfg elements; Some (Struct (d :: bs))
      | _ => None
      end
  | Container _ _ _ => Some base
  | List_ _ c | ListSimple _ c =>
      delete_partial_list c base selectors_cfg selectors elements_cfg elements
  | _ => delete_elements cfg base elements_cfg elements
  end.
End operations.
