(* ===== verification/EebusDataFacts.v ===== *)
(** * What the operations on EEBUS data do

    Writing copies; comparing is equality; a partial write of data without lists lays the
    source over what is there. *)

From S2P Require Import Prelude Duration DateTime EebusData EebusDataWrite.

Local Open Scope list_scope.

(** ** Configurations without some of the constructors *)

Definition is_choice (cfg : EebusDataCfg) : bool := match cfg with Choice _ => true | _ => false end.

(** A choice is a field, never an item or an alternative, and has alternatives. *)
Fixpoint cfg_ok (cfg : EebusDataCfg) : bool :=
  match cfg with
  | Sequence _ _ cs | Container _ _ cs => forallb cfg_ok cs
  | List_ _ c | ListSimple _ c => cfg_ok c && negb (is_choice c)
  | Choice cs => negb (bool_decide (cs = [])) && forallb (λ c, cfg_ok c && negb (is_choice c)) cs
  | _ => true
  end.

(** No choice at all: the data of the functions is such. *)
Fixpoint plain (cfg : EebusDataCfg) : bool :=
  match cfg with
  | Sequence _ _ cs | Container _ _ cs => forallb plain cs
  | List_ _ c | ListSimple _ c => plain c
  | Choice _ => false
  | _ => true
  end.

(** And no list but simple ones: a partial write goes field by field. *)
Fixpoint flat (cfg : EebusDataCfg) : bool :=
  match cfg with
  | Simple _ _ _ | Tag _ => true
  | Sequence _ _ cs => forallb flat cs
  | ListSimple _ c => plain c
  | _ => false
  end.

(** Every choice in the data is NULL: the data is new, or has no choices. *)
Fixpoint blank (d : Data) : bool :=
  match d with
  | Struct l | Array l => forallb blank l
  | Chosen _ d => null d
  | _ => true
  end.

Section facts.
Context `{Allocator}.

(** Every list of the data is one the code would make. *)
Fixpoint fits (d : Data) : bool :=
  match d with
  | Struct l => forallb fits l
  | Array l => CreateListBuffer (length l) && forallb fits l
  | Chosen _ d => fits d
  | _ => true
  end.

Lemma plain_ok cfg : plain cfg = true → cfg_ok cfg = true ∧ is_choice cfg = false.
Proof.
  induction cfg as [| | |n f cs IH|kd n cs IH|n c IH|n c IH|cs IH] using cfg_ind'; simpl; try done.
  1, 2: intros Hp; split; [|done]; induction IH as [|c cs Hc _ IH]; [done|]; simpl in *;
    apply andb_true_iff in Hp as [Hp Hps]; rewrite IH by done; by rewrite (proj1 (Hc Hp)).
  1, 2: intros [-> ->]%IH; done.
Qed.

Lemma forall2b_cons_inv {A B} (f : A → B → bool) l b k : forall2b f l (b :: k) = true →
  ∃ a l', l = a :: l' ∧ f a b = true ∧ forall2b f l' k = true.
Proof. destruct l; simpl; [done|]. intros [? ?]%andb_true_iff. eauto. Qed.

Lemma forall2b_length {A B} (f : A → B → bool) l k : forall2b f l k = true → length l = length k.
Proof. revert k. induction l; intros []; simpl; try done. intros [_ ?]%andb_true_iff. f_equal. auto. Qed.

Lemma typed_plain_blank cfg d : plain cfg = true → typed cfg d = true → blank d = true.
Proof.
  revert d. induction cfg as [| | |n f cs IH|kd n cs IH|n c IH|n c IH|cs IH] using cfg_ind'; intros [| | |l|l|]; simpl; try done.
  1, 2: revert l; induction IH as [|c cs Hc _ IH]; intros [|d l]; simpl; try done;
    intros [? ?]%andb_true_iff [? ?]%andb_true_iff; rewrite IH by done; rewrite Hc by done; done.
  1, 2: intros Hp; induction l as [|d l IHl]; simpl; [done|];
    intros [? ?]%andb_true_iff; rewrite IH, IHl by done; done.
Qed.

(** A field that is zeroed is of its configuration. *)
Lemma zeroed_not_choice c : is_choice c = false → zeroed c = Null.
Proof. by destruct c. Qed.

Lemma typed_null c : is_choice c = false → typed c Null = true.
Proof. by destruct c. Qed.

Lemma typed_zeroed cfg : cfg_ok cfg = true → typed cfg (zeroed cfg) = true ∧ blank (zeroed cfg) = true.
Proof.
  destruct cfg as [| | | | | | |[|c cs]]; try done. simpl. intros [[_ Hc]%andb_true_iff _]%andb_true_iff.
  apply negb_true_iff in Hc. by rewrite typed_null.
Qed.

Lemma typed_create cs : forallb cfg_ok cs = true →
  forall2b typed cs (create_empty cs) = true ∧ forallb blank (create_empty cs) = true.
Proof.
  induction cs as [|c cs IH]; simpl; [done|]. intros [[Ht Hb]%typed_zeroed [Hts Hbs]%IH]%andb_true_iff.
  unfold create_empty in *. by rewrite Ht, Hb, Hts, Hbs.
Qed.

Lemma pick_lookup {A B} (f : A → B) l i : pick f l i = f <$> l !! i.
Proof. revert i. induction l as [|a l IH]; intros [|i]; simpl; auto. Qed.

(** ** Going through fields and items *)

Lemma next_ok (r : R) d rest k : r = Some (kEebusErrorOk, d) →
  next r rest k = ('(err, l) ← k tt; Some (err, d :: l)).
Proof. intros ->. done. Qed.

(** ** Writing copies *)

(** [f] copies every value of the configuration. *)
Definition copies (f : EebusDataCfg → Data → Data → R) (c : EebusDataCfg) : Prop :=
  ∀ base src, cfg_ok c = true → typed c base = true → typed c src = true → fits src = true →
    blank base = true → f c base src = Some (kEebusErrorOk, src).

Lemma copies_fields f cs bs ss : Forall (copies f) cs → forallb cfg_ok cs = true →
  forall2b typed cs bs = true → forall2b typed cs ss = true → forallb fits ss = true →
  forallb blank bs = true → each_field f cs bs ss = Some (kEebusErrorOk, ss).
Proof.
  intros HF. revert bs ss. induction HF as [|c cs Hc _ IH]; intros [|b bs] [|s ss]; simpl; try done.
  intros [? ?]%andb_true_iff [? ?]%andb_true_iff [? ?]%andb_true_iff [? ?]%andb_true_iff [? ?]%andb_true_iff.
  rewrite (next_ok _ s) by by apply Hc. by rewrite IH.
Qed.

Lemma copies_items f c bs ss : copies f c → cfg_ok c = true → length bs = length ss →
  forallb (typed c) bs = true → forallb (typed c) ss = true → forallb fits ss = true →
  forallb blank bs = true → each_item (f c) bs ss = Some (kEebusErrorOk, ss).
Proof.
  intros Hc Hok. revert ss. induction bs as [|b bs IH]; intros [|s ss]; simpl; try done.
  intros Hlen [? ?]%andb_true_iff [? ?]%andb_true_iff [? ?]%andb_true_iff [? ?]%andb_true_iff.
  rewrite (next_ok _ s) by by apply Hc. by rewrite IH by (done || lia).
Qed.

Lemma forallb_replicate {A} (f : A → bool) n x : f x = true → forallb f (replicate n x) = true.
Proof. intros Hx. induction n; simpl; [done|]. by rewrite Hx. Qed.

Lemma write_structure (write : EebusDataCfg → Data → Data → R) cs base ss :
  Forall (copies write) cs → forallb cfg_ok cs = true →
  (base = Null ∨ ∃ bs, base = Struct bs ∧ forall2b typed cs bs = true ∧ forallb blank bs = true) →
  forall2b typed cs ss = true → forallb fits ss = true →
  (bs ← (match base with Null => Some (create_empty cs) | Struct bs => Some bs | _ => None end);
   into Struct (each_field write cs bs ss)) = Some (kEebusErrorOk, Struct ss).
Proof.
  intros HF Hok Hb Hts Hfs.
  destruct Hb as [->|(bs & -> & Htb & Hbb)]; simpl.
  - destruct (typed_create cs Hok). by rewrite (copies_fields write cs _ ss).
  - by rewrite (copies_fields write cs _ ss).
Qed.

Lemma write_copies cfg : copies write cfg.
Proof.
  induction cfg as [n f k|n|n|n f cs IH|kd n cs IH|n c IH|n c IH|cs IH] using cfg_ind';
    intros base src Hok Hb Hs Hf Hbl.
  1-3: destruct base, src; done.
  1-2: cbn [write]; destruct src; try done; apply (write_structure write cs base _ IH Hok); [|done..];
    destruct base; try done; eauto.
  1-2: cbn [write]; simpl in Hok; apply andb_true_iff in Hok as [Hok Hnc]; apply negb_true_iff in Hnc;
    destruct src as [| | | |ss|]; try done; simpl in Hf; apply andb_true_iff in Hf as [Hbuf Hf]; rewrite Hbuf;
    assert (∀ bs, length bs = length ss → forallb (typed c) bs = true → forallb blank bs = true →
      into Array (each_item (write c) bs ss) = Some (kEebusErrorOk, Array ss)) as Hall
      by (intros; by rewrite (copies_items write c _ ss));
    assert (into Array (each_item (write c) (replicate (length ss) Null) ss) = Some (kEebusErrorOk, Array ss)) as Hnew
      by (apply Hall; [apply length_replicate|apply forallb_replicate; by apply typed_null|by apply forallb_replicate]);
    destruct base as [| | | |bs|]; try done; case_bool_decide; [by apply Hall|done].
  - cbn [write]. destruct base as [| | | | |i b], src as [| | | | |j s]; try done.
    simpl in *. destruct b; try done. rewrite pick_lookup in Hs.
    destruct (cs !! j) as [c|] eqn:Ej; [|done]. simpl in Hs.
    rewrite bool_decide_false by (apply lookup_lt_Some in Ej; lia).
    rewrite pick_lookup, Ej. simpl. apply andb_true_iff in Hok as [_ Hok].
    rewrite forallb_forall in Hok. apply list_elem_of_lookup_2 in Ej as Hin.
    specialize (Hok c ltac:(by apply list_elem_of_In)). apply andb_true_iff in Hok as [Hok Hnc].
    apply negb_true_iff in Hnc. rewrite Forall_forall in IH.
    rewrite (IH c Hin Null s) by (done || by apply typed_null). done.
Qed.

(** ** Comparing data of one configuration is equality *)

Definition decides (r : option bool) (P : Prop) : Prop := ∃ x, r = Some x ∧ (x = true ↔ P).

Lemma decides_true r P : decides r P → P → r = Some true.
Proof. intros (x & -> & Hx) HP. f_equal. by apply Hx. Qed.
Lemma decides_inv r P : decides r P → r = Some true → P.
Proof. intros (x & -> & Hx) [= ->]. by apply Hx. Qed.
Lemma decides_iff r P Q : decides r P → (P ↔ Q) → decides r Q.
Proof. intros (x & -> & Hx) HPQ. exists x. by rewrite Hx. Qed.

Lemma decides_and r r' P Q : decides r P → decides r' Q → decides (and_then r r') (P ∧ Q).
Proof.
  intros (x & -> & Hx) (y & -> & Hy). destruct x; simpl.
  - exists y. rewrite Hy. split; [done|]. split; [|by intros [_ ?]]. intros ?. split; [by apply Hx|done].
  - exists false. split; [done|]. split; [done|]. by intros [?%Hx _].
Qed.

Lemma decides_bool (P : Prop) `{Decision P} : decides (Some (bool_decide P)) P.
Proof. exists (bool_decide P). split; [done|]. apply bool_decide_eq_true. Qed.

Lemma decides_false P : ¬ P → decides (Some false) P.
Proof. exists false. split; [done|]. split; [done|]. done. Qed.

(** Comparing with [f] is equality for every value of the configuration. *)
Definition compares (f : EebusDataCfg → EebusDataCfg → Data → Data → option bool) (c : EebusDataCfg) : Prop :=
  ∀ a b, plain c = true → typed c a = true → typed c b = true → decides (f c c a b) (a = b).

Lemma compares_fields f cs la lb : Forall (compares f) cs → forallb plain cs = true →
  forall2b typed cs la = true → forall2b typed cs lb = true → decides (cmp_fields f cs cs la lb) (la = lb).
Proof.
  intros HF. revert la lb. induction HF as [|c cs Hc _ IH]; intros [|x la] [|y lb]; try done; simpl.
  { intros. by exists true. }
  intros [? ?]%andb_true_iff [? ?]%andb_true_iff [? ?]%andb_true_iff.
  apply (decides_iff _ (x = y ∧ la = lb)); [|naive_solver]. apply decides_and; eauto.
Qed.

Lemma compares_items f c la lb : compares f c → plain c = true → length la = length lb →
  forallb (typed c) la = true → forallb (typed c) lb = true → decides (cmp_items (f c c) la lb) (la = lb).
Proof.
  intros Hc Hp. revert lb. induction la as [|x la IH]; intros [|y lb]; try done; simpl.
  { intros. by exists true. }
  intros Hl [? ?]%andb_true_iff [? ?]%andb_true_iff.
  apply (decides_iff _ (x = y ∧ la = lb)); [|naive_solver]. apply decides_and; eauto.
Qed.

Lemma compare_equal cfg : compares compare cfg.
Proof.
  induction cfg as [n f k|n|n|n f cs IH|kd n cs IH|n c IH|n c IH|cs IH] using cfg_ind';
    intros a b Hp Ha Hb; try done.
  - destruct a as [|x| | | |], b as [|y| | | |]; try done; simpl; (destruct (same_interface k k) eqn:Ek; [|by destruct k]); simpl;
      try (by exists true); try (by exists false).
    apply (decides_iff _ (x = y)); [|split; congruence].
    destruct k; simpl; rewrite ?bool_decide_true by done; apply decides_bool.
  - destruct a, b; try done; (by exists true) || (by exists false).
  - destruct a, b; try done. by exists true.
  - destruct a as [| | |la| |], b as [| | |lb| |]; try done; simpl; try (by exists true); try (by exists false).
    rewrite bool_decide_false by congruence. apply (decides_iff _ (la = lb)); [|split; congruence].
    by apply compares_fields.
  - destruct a as [| | |la| |], b as [| | |lb| |]; try done; cbn [compare];
      rewrite (bool_decide_false (kd ≠ kd)) by tauto; simpl; try (by exists true); try (by exists false).
    rewrite bool_decide_false by congruence. apply (decides_iff _ (la = lb)); [|split; congruence].
    by apply compares_fields.
  - destruct a as [| | | |la|], b as [| | | |lb|]; try done; simpl; try (by exists true); try (by exists false).
    apply (decides_iff _ (la = lb)); [|split; congruence]. case_bool_decide as Hl.
    + apply decides_false. by intros ->.
    + apply compares_items; (done || lia).
  - destruct a as [| | | |la|], b as [| | | |lb|]; try done; simpl; try (by exists true); try (by exists false).
    apply (decides_iff _ (la = lb)); [|split; congruence]. case_bool_decide as Hl.
    + apply decides_false. by intros ->.
    + apply compares_items; (done || lia).
Qed.

Lemma compare_true cfg a b : plain cfg = true → typed cfg a = true → typed cfg b = true →
  compare cfg cfg a b = Some true → a = b.
Proof. intros Hp Ha Hb. by apply decides_inv, compare_equal. Qed.
End facts.
