(* ===== verification/EebusDataMerge.v ===== *)
(** * Partial writes of a list ([MergeData])

    [overlay] is what a partial write means for data without lists; [merged] what it means for
    a list whose items have identifiers.  [MergeData] is shown to do that. *)

From S2P Require Import Prelude Duration DateTime EebusData EebusDataWrite EebusDataFacts.

Local Open Scope list_scope.

(** ** Laying data over data *)

Section overlays.
Context (f : Data → Data → Data).
Fixpoint overlays (bs ss : list Data) : list Data :=
  match bs, ss with
  | b :: bs, s :: ss => f b s :: overlays bs ss
  | _, _ => ss
  end.
End overlays.

(** What the source has replaces what is there, field by field. *)
Fixpoint overlay (base src : Data) : Data :=
  match base, src with
  | _, Null => base
  | Struct bs, Struct ss => Struct (overlays overlay bs ss)
  | _, _ => src
  end.

Lemma overlay_null_r b : overlay b Null = b.
Proof. by destruct b. Qed.
Lemma overlay_null_l s : overlay Null s = s.
Proof. by destruct s. Qed.

Lemma overlay_idem d : overlay d d = d.
Proof.
  induction d as [| | |l IH|l IH|i d IH] using data_ind'; try done.
  simpl. f_equal. induction IH as [|d l Hd _ IH]; simpl; [done|]. by rewrite Hd, IH.
Qed.

Section merge.
Context `{Allocator}.

(** [f] lays over, for every value of the configuration. *)
Definition lays (f : EebusDataCfg → Data → Data → R) (c : EebusDataCfg) : Prop :=
  ∀ base src, flat c = true → typed c base = true → typed c src = true → fits src = true →
    f c base src = Some (kEebusErrorOk, overlay base src) ∧ typed c (overlay base src) = true.

Lemma flat_plain c : flat c = true → plain c = true.
Proof.
  induction c as [| | |n f cs IH| | | |] using cfg_ind'; simpl; try done.
  induction IH as [|c cs Hc _ IH]; simpl; [done|]. intros [? ?]%andb_true_iff. by rewrite Hc, IH.
Qed.

Lemma flat_zeroed c : flat c = true → zeroed c = Null.
Proof. by destruct c. Qed.

Lemma lays_fields f cs bs ss : Forall (lays f) cs → forallb flat cs = true →
  forall2b typed cs bs = true → forall2b typed cs ss = true → forallb fits ss = true →
  each_field f cs bs ss = Some (kEebusErrorOk, overlays overlay bs ss) ∧
  forall2b typed cs (overlays overlay bs ss) = true.
Proof.
  intros HF. revert bs ss. induction HF as [|c cs Hc _ IH]; intros [|b bs] [|s ss]; simpl; try done.
  intros [? ?]%andb_true_iff [? ?]%andb_true_iff [? ?]%andb_true_iff [? ?]%andb_true_iff.
  destruct (Hc b s) as [E ->]; [done..|]. rewrite (next_ok _ _ _ _ E).
  destruct (IH bs ss) as [-> ->]; done.
Qed.

Lemma create_empty_typed cs : forallb flat cs = true → forall2b typed cs (create_empty cs) = true.
Proof.
  induction cs as [|c cs IH]; simpl; [done|]. intros [Hc ?]%andb_true_iff.
  rewrite flat_zeroed by done. by rewrite typed_null, IH by (done || by destruct c).
Qed.

Lemma overlays_empty cs ss : forallb flat cs = true → length cs = length ss →
  overlays overlay (create_empty cs) ss = ss.
Proof.
  revert ss. induction cs as [|c cs IH]; intros [|s ss]; simpl; try done.
  intros [Hc ?]%andb_true_iff Hl. rewrite flat_zeroed by done. rewrite overlay_null_l. f_equal.
  apply IH; [done|lia].
Qed.

(** The two ways to write a structure: over nothing, and over one. *)
Lemma lays_structure f cs base ss : Forall (lays f) cs → forallb flat cs = true →
  (base = Null ∨ ∃ bs, base = Struct bs ∧ forall2b typed cs bs = true) →
  forall2b typed cs ss = true → forallb fits ss = true →
  (bs ← (match base with Null => Some (create_empty cs) | Struct bs => Some bs | _ => None end);
   into Struct (each_field f cs bs ss)) = Some (kEebusErrorOk, overlay base (Struct ss)) ∧
  ∃ ls, overlay base (Struct ss) = Struct ls ∧ forall2b typed cs ls = true.
Proof.
  intros HF Hfl Hb Ht Hf. destruct Hb as [->|(bs & -> & Hb)]; simpl.
  - destruct (lays_fields f cs _ ss HF Hfl (create_empty_typed cs Hfl) Ht Hf) as [-> _].
    rewrite overlays_empty by (done || by apply (forall2b_length typed)). eauto.
  - destruct (lays_fields f cs bs ss HF Hfl Hb Ht Hf) as [-> ?]. eauto.
Qed.

Lemma write_over cfg base src : plain cfg = true → typed cfg base = true → typed cfg src = true →
  fits src = true → write cfg base src = Some (kEebusErrorOk, src).
Proof.
  intros Hp Hb Hs Hf. apply write_copies; try done; [by apply plain_ok|by apply (typed_plain_blank cfg)].
Qed.

Lemma overlay_leaf cfg base src : match cfg with Sequence _ _ _ | Container _ _ _ => False | _ => True end →
  typed cfg base = true → typed cfg src = true → is_choice cfg = false → null src = false →
  overlay base src = src.
Proof. destruct cfg, base, src; done. Qed.

Lemma base_write_elements_lays cfg base src :
  match cfg with Simple _ _ _ | Tag _ | ListSimple _ _ => True | _ => False end →
  plain cfg = true → typed cfg base = true → typed cfg src = true → fits src = true →
  base_write_elements cfg base src = Some (kEebusErrorOk, overlay base src) ∧
  typed cfg (overlay base src) = true.
Proof.
  intros Hc Hp Hb Hs Hf. unfold base_write_elements.
  destruct (null src) eqn:Hn.
  - destruct src; try done. rewrite overlay_null_r. by destruct cfg.
  - rewrite (overlay_leaf cfg) by (done || by destruct cfg). rewrite write_over by done.
    split; [|done]. by destruct cfg, src.
Qed.

Lemma write_elements_lays cfg : lays write_elements cfg.
Proof.
  induction cfg as [n f k|n|n|n f cs IH|kd n cs IH|n c IH|n c IH|cs IH] using cfg_ind';
    intros base src Hfl Hb Hs Hf; try done; try (by apply base_write_elements_lays).
  cbn [write_elements]. destruct src as [| | |ss| |]; try done.
  { rewrite overlay_null_r. done. }
  destruct (lays_structure write_elements cs base ss IH Hfl) as (-> & ls & -> & ?); try done.
  destruct base; try done; eauto.
Qed.

Lemma write_partial_lays cfg : lays (λ c b s, write_partial c b s None) cfg.
Proof.
  induction cfg as [n f k|n|n|n f cs IH|kd n cs IH|n c IH|n c IH|cs IH] using cfg_ind';
    intros base src Hfl Hb Hs Hf; try done; try (by apply base_write_elements_lays).
  cbn [write_partial]. unfold SequenceWritePartial, opened. destruct src as [| | |ss| |]; try done.
  { rewrite overlay_null_r. done. }
  destruct (lays_structure (λ c b s, write_partial c b s None) cs base ss IH Hfl) as (-> & ls & -> & ?); try done.
  destruct base; try done; eauto.
Qed.

(** ** Identifiers stay where they are *)

Lemma and_then_some x y : and_then (Some x) (Some y) = Some (x && y).
Proof. by destruct x. Qed.

Definition match_is_defined (c : EebusDataCfg) : Prop :=
  ∀ b s, flat c = true → typed c b = true → typed c s = true → is_Some (identifiers_match c b s).

Lemma compare_defined c b s : plain c = true → typed c b = true → typed c s = true → is_Some (compare c c b s).
Proof. intros Hp Hb Hs. destruct (compare_equal c b s Hp Hb Hs) as (r & -> & _). eauto. Qed.

Lemma match_fields_defined cs bs ss : Forall match_is_defined cs → forallb flat cs = true →
  forall2b typed cs bs = true → forall2b typed cs ss = true → is_Some (match_fields identifiers_match cs bs ss).
Proof.
  intros HF. revert bs ss. induction HF as [|c cs Hc _ IH]; intros [|b bs] [|s ss]; simpl; try done.
  intros [? ?]%andb_true_iff [? ?]%andb_true_iff [? ?]%andb_true_iff.
  destruct (Hc b s) as [x ->]; [done..|]. destruct (IH bs ss) as [y ->]; [done..|].
  rewrite and_then_some. eauto.
Qed.

Lemma match_defined c : match_is_defined c.
Proof.
  induction c as [n f k|n|n|n f cs IH|kd n cs IH|n c IH|n c IH|cs IH] using cfg_ind';
    intros b s Hfl Hb Hs; cbn [identifiers_match]; try (by eauto); try done.
  - destruct (negb _); [eauto|]. destruct (is_null _ _); [eauto|]. by apply compare_defined.
  - destruct (HasIdentifiersFlags _); [apply compare_defined; try done; by apply flat_plain|].
    destruct (has_identifiers _ s) eqn:Hi; simpl; [|eauto].
    destruct s as [| | |ss| |]; try done. destruct b as [| | |bs| |]; try done.
    by apply match_fields_defined.
Qed.

Lemma match_fields_false cs bs ss : forallb flat cs = true →
  forall2b typed cs bs = true → forall2b typed cs ss = true →
  (∃ i c b s, cs !! i = Some c ∧ bs !! i = Some b ∧ ss !! i = Some s ∧ identifiers_match c b s = Some false) →
  match_fields identifiers_match cs bs ss = Some false.
Proof.
  revert bs ss. induction cs as [|c cs IH]; intros [|b bs] [|s ss]; simpl; try done.
  { intros _ _ _ (i & ? & ? & ? & ? & _). done. }
  intros [? ?]%andb_true_iff [? ?]%andb_true_iff [? ?]%andb_true_iff (i & c' & b' & s' & Ec & Eb & Es & Hm).
  destruct i as [|i]; simpl in *; [by simplify_eq; rewrite Hm|].
  destruct (match_defined c b s) as [x ->]; [done..|]. rewrite IH by naive_solver.
  by destruct x.
Qed.

Lemma any_field_lookup f cs l : any_field f cs l = true ↔
  ∃ i c d, cs !! i = Some c ∧ l !! i = Some d ∧ f c d = true.
Proof.
  revert l. induction cs as [|c cs IH]; intros [|d l]; simpl.
  1-3: split; [done|]; intros (i & ? & ? & ? & ? & _); try done; by destruct i.
  rewrite orb_true_iff, IH. split.
  - intros [?|(i & ? & ? & ? & ? & ?)]; [exists 0|exists (S i)]; simpl; eauto 10.
  - intros (i & c' & d' & Ec & Ed & ?). destruct i as [|i]; simpl in *; [left; by simplify_eq|right; eauto 10].
Qed.

Lemma forall2b_lookup cs l i c : forall2b typed cs l = true → cs !! i = Some c →
  ∃ d, l !! i = Some d ∧ typed c d = true.
Proof.
  revert l i. induction cs as [|c' cs IH]; intros [|d l] [|i]; simpl; try done;
    intros [? ?]%andb_true_iff; [intros [= ->]; eauto|eauto].
Qed.

Lemma flat_lookup cs i c : forallb flat cs = true → cs !! i = Some c → flat c = true.
Proof.
  rewrite forallb_forall. intros Hf Hi. apply Hf, list_elem_of_In. by eapply list_elem_of_lookup_2.
Qed.

(** Data without identifiers is not what a source with identifiers is about. *)
Lemma no_identifiers_no_match c b s : flat c = true → typed c b = true → typed c s = true →
  has_identifiers c b = false → has_identifiers c s = true → identifiers_match c b s = Some false.
Proof.
  revert b s. induction c as [n f k|n|n|n f cs IH|kd n cs IH|n c IH|n c IH|cs IH] using cfg_ind';
    intros b s Hfl Hb Hs; cbn [has_identifiers identifiers_match]; try done.
  - intros Hnb [Hn Hflag]%andb_true_iff. rewrite Hflag in *. rewrite andb_true_r in Hnb.
    destruct b, s; try done. simpl. by destruct k.
  - simpl. by rewrite !andb_false_r.
  - destruct (HasIdentifiersFlags (Sequence n f cs)) eqn:Hflag; simpl.
    { destruct b, s; try done. }
    destruct s as [| | |ss| |]; try done. simpl.
    intros Hnb Hns. rewrite Hns. simpl. destruct b as [| | |bs| |]; try done.
    simpl in Hfl, Hb, Hs, Hnb. apply match_fields_false; try done.
    apply any_field_lookup in Hns as (i & c & s & Ec & Es & Hi).
    destruct (forall2b_lookup cs bs i c Hb Ec) as (b & Eb & Htb).
    destruct (forall2b_lookup cs ss i c Hs Ec) as (s' & Es' & Hts). simplify_eq.
    exists i, c, b, s. split_and!; try done. rewrite Forall_forall in IH.
    apply IH; try done; [by eapply list_elem_of_lookup_2|by eapply flat_lookup|].
    apply not_true_iff_false. intros Hx. apply not_true_iff_false in Hnb. apply Hnb.
    apply any_field_lookup. eauto 10.
Qed.

Lemma match_fields_true cs bs ss : match_fields identifiers_match cs bs ss = Some true →
  ∀ i c b s, cs !! i = Some c → bs !! i = Some b → ss !! i = Some s → identifiers_match c b s = Some true.
Proof.
  revert bs ss. induction cs as [|c cs IH]; intros [|b bs] [|s ss]; simpl; try done.
  destruct (identifiers_match c b s) as [[]|] eqn:E; simpl; try done.
  intros Hm i c' b' s' Ec Eb Es. destruct i as [|i]; simpl in *; [by simplify_eq|by eapply IH].
Qed.

(** What is laid over data leaves the identifiers, when it has none or the same. *)
Definition same_identity (c : EebusDataCfg) (b s : Data) : Prop :=
  has_identifiers c s = false ∨ identifiers_match c b s = Some true.

Definition keeps_identity (c : EebusDataCfg) : Prop :=
  ∀ b s s', flat c = true → typed c b = true → typed c s = true → typed c s' = true → same_identity c b s →
    identifiers_match c (overlay b s) s' = identifiers_match c b s'.

Lemma keeps_identity_fields cs bs ss ss' : Forall keeps_identity cs → forallb flat cs = true →
  forall2b typed cs bs = true → forall2b typed cs ss = true → forall2b typed cs ss' = true →
  (∀ i c b s, cs !! i = Some c → bs !! i = Some b → ss !! i = Some s → same_identity c b s) →
  match_fields identifiers_match cs (overlays overlay bs ss) ss' = match_fields identifiers_match cs bs ss'.
Proof.
  intros HF. revert bs ss ss'. induction HF as [|c cs Hc _ IH]; intros [|b bs] [|s ss] [|s' ss']; simpl; try done.
  intros [? ?]%andb_true_iff [? ?]%andb_true_iff [? ?]%andb_true_iff [? ?]%andb_true_iff Hid.
  rewrite (Hc b s s'), IH; try done.
  - intros i. apply (Hid (S i)).
  - by apply (Hid 0).
Qed.

Lemma fields_without_identifiers cs ss : any_field has_identifiers cs ss = false →
  ∀ i c s, cs !! i = Some c → ss !! i = Some s → has_identifiers c s = false.
Proof.
  intros Hn i c s Ec Es. apply not_true_iff_false. intros Hi. apply not_true_iff_false in Hn. apply Hn.
  apply any_field_lookup. eauto 10.
Qed.

Lemma overlay_keeps_identity c : keeps_identity c.
Proof.
  induction c as [n f k|n|n|n f cs IH|kd n cs IH|n c IH|n c IH|cs IH] using cfg_ind';
    intros b s s' Hfl Hb Hs Hs' Hid; try done.
  - destruct s as [|x| | | |]; try done; [by rewrite overlay_null_r|].
    cbn [identifiers_match]. destruct (HasIdentifiersFlags _) eqn:Hflag; [|done].
    destruct Hid as [Hid|Hid]; cbn [has_identifiers identifiers_match] in Hid; rewrite Hflag in Hid; [done|].
    simpl is_null in Hid. simpl negb in Hid.
    by apply compare_true in Hid as ->.
  - destruct s as [| | |ss| |]; try done; [by rewrite overlay_null_r|].
    destruct (HasIdentifiersFlags (Sequence n f cs)) eqn:Hflag.
    { destruct Hid as [Hid|Hid]; cbn [has_identifiers identifiers_match] in Hid; rewrite Hflag in Hid; [done|].
      apply compare_true in Hid as ->; try done; [by rewrite overlay_idem|by apply flat_plain]. }
    destruct (has_identifiers (Sequence n f cs) s') eqn:Hi'.
    2:{ cbn [identifiers_match]. by rewrite Hflag, Hi'. }
    destruct b as [| | |bs| |]; try done.
    + assert (has_identifiers (Sequence n f cs) (Struct ss) = false) as Hn.
      { destruct Hid as [|Hid]; [done|]. apply not_true_iff_false. intros Hx.
        cbn [identifiers_match] in Hid. by rewrite Hflag, Hx in Hid. }
      rewrite overlay_null_l. rewrite no_identifiers_no_match by done.
      cbn [identifiers_match]. by rewrite Hflag, Hi'.
    + cbn [identifiers_match]. rewrite Hflag, Hi'. cbn [negb overlay].
      destruct s' as [| | |ss'| |]; try done.
      apply keeps_identity_fields; try done.
      intros i c b s Ec Eb Es. unfold same_identity.
      destruct (has_identifiers (Sequence n f cs) (Struct ss)) eqn:Hi.
      * destruct Hid as [|Hid]; [congruence|]. cbn [identifiers_match] in Hid. rewrite Hflag, Hi in Hid. simpl in Hid.
        right. by eapply match_fields_true.
      * left. cbn [has_identifiers] in Hi. rewrite Hflag in Hi. by eapply fields_without_identifiers.
Qed.

(** ** The merge

    The item of a list that an item of a message is about, and what becomes of the list. *)

Definition same_item (c : EebusDataCfg) (s b : Data) : Prop := identifiers_match c b s = Some true.
#[global] Instance same_item_dec c s b : Decision (same_item c s b).
Proof. unfold same_item. apply _. Defined.

Definition place (c : EebusDataCfg) (bs : list Data) (s : Data) : option nat :=
  fst <$> list_find (same_item c s) bs.

Definition merged (c : EebusDataCfg) (bs ss : list Data) : list Data :=
  imap (λ i b, foldl overlay b (filter (λ s, place c bs s = Some i) ss)) bs ++
  filter (λ s, place c bs s = None) ss.

Lemma GetItem_place c ar el : flat c = true → forallb (typed c) ar = true → typed c el = true →
  GetItemMatchingIdentifiers c ar el = Some (place c ar el).
Proof.
  intros Hfl Har Hel. unfold place. induction ar as [|b ar IH]; simpl; [done|].
  simpl in Har. apply andb_true_iff in Har as [Hb Har].
  destruct (match_defined c b el Hfl Hb Hel) as [m Hm]. rewrite Hm. simpl.
  destruct m.
  - by rewrite decide_True by exact Hm.
  - rewrite decide_False by (unfold same_item; congruence). rewrite IH by done. simpl.
    by destruct (list_find _ ar) as [[]|].
Qed.

Lemma count_new_place c bs ss : flat c = true → forallb (typed c) bs = true → forallb (typed c) ss = true →
  count_new c bs ss = Some (length (filter (λ s, place c bs s = None) ss)).
Proof.
  intros Hfl Hbs. induction ss as [|s ss IH]; simpl; [done|]. intros [Hs Hss]%andb_true_iff.
  rewrite GetItem_place, IH by done. simpl. rewrite filter_cons.
  destruct (place c bs s) eqn:E; [by rewrite decide_False|by rewrite decide_True].
Qed.

(** The items the loop has changed are still about the same. *)
Definition alike (c : EebusDataCfg) (b b' : Data) : Prop :=
  ∀ s, typed c s = true → identifiers_match c b' s = identifiers_match c b s.

Lemma place_alike c bs bs' s : Forall2 (alike c) bs bs' → typed c s = true → place c bs' s = place c bs s.
Proof.
  intros Hal Hs. unfold place. induction Hal as [|b b' bs bs' Hb _ IH]; simpl; [done|].
  specialize (Hb s Hs).
  destruct (decide (same_item c s b')) as [Hm|Hm], (decide (same_item c s b)) as [Hm'|Hm'];
    unfold same_item in Hm, Hm'; try congruence; [done|].
  assert (∀ o : option (nat * Data), fst <$> (prod_map S id <$> o) = S <$> (fst <$> o)) as E by by intros [[]|].
  by rewrite !E, IH.
Qed.

Lemma place_Some c bs s i : place c bs s = Some i → ∃ b, bs !! i = Some b ∧ same_item c s b.
Proof.
  unfold place. intros Hp. apply fmap_Some in Hp as ([j b] & Hf & ->).
  apply list_find_Some in Hf as (? & ? & _). eauto.
Qed.

Lemma place_alike_Some c bs bs' s i : Forall2 (alike c) bs bs' → typed c s = true → place c bs s = Some i →
  ∃ b', bs' !! i = Some b' ∧ identifiers_match c b' s = Some true.
Proof.
  intros Hal Hs Hp. rewrite <- (place_alike c bs bs') in Hp by done. by apply place_Some in Hp.
Qed.

(** What the loop leaves of the items that were there. *)
Definition updated (c : EebusDataCfg) (bs bs' ss : list Data) : list Data :=
  imap (λ i b, foldl overlay b (filter (λ s, place c bs s = Some i) ss)) bs'.

Lemma updated_nil c bs bs' : updated c bs bs' [] = bs'.
Proof. apply list_eq. intros k. unfold updated. rewrite list_lookup_imap. by destruct (bs' !! k). Qed.

Lemma updated_old c bs bs' s ss i b : place c bs s = Some i → bs' !! i = Some b →
  updated c bs bs' (s :: ss) = updated c bs (<[i := overlay b s]> bs') ss.
Proof.
  intros Hp Hb. unfold updated. apply list_eq. intros k. rewrite !list_lookup_imap.
  destruct (decide (k = i)) as [->|Hk].
  - rewrite Hb, list_lookup_insert_eq by by eapply lookup_lt_Some. simpl.
    by rewrite filter_cons, decide_True by done.
  - rewrite list_lookup_insert_ne by done. destruct (bs' !! k); simpl; [|done].
    rewrite filter_cons, decide_False by congruence. done.
Qed.

Lemma updated_new c bs bs' s ss : place c bs s = None → updated c bs bs' (s :: ss) = updated c bs bs' ss.
Proof.
  intros Hp. unfold updated. apply imap_ext. intros k b _. by rewrite filter_cons, decide_False by congruence.
Qed.

Section loop.
Context (c : EebusDataCfg) (Hfl : flat c = true).
Abbreviation wp := (λ b s, write_partial c b s None).

Lemma forallb_lookup {A} (f : A → bool) l i x : forallb f l = true → l !! i = Some x → f x = true.
Proof. rewrite forallb_forall. intros Hf Hi. apply Hf, list_elem_of_In. by eapply list_elem_of_lookup_2. Qed.

Lemma forallb_insert {A} (f : A → bool) l i x : forallb f l = true → f x = true → forallb f (<[i := x]> l) = true.
Proof.
  revert i. induction l as [|y l IH]; intros [|i]; simpl; try done; intros [Hy Hl]%andb_true_iff Hx;
    apply andb_true_iff; auto.
Qed.

Lemma merge_loop_exact bs bs' news ss j :
  Forall2 (alike c) bs bs' → forallb (typed c) bs' = true → forallb (typed c) ss = true → forallb fits ss = true →
  j = length bs + length news →
  merge_loop c wp (length bs)
    (bs' ++ news ++ replicate (length (filter (λ s, place c bs s = None) ss)) Null) j ss =
    Some (kEebusErrorOk, updated c bs bs' ss ++ news ++ filter (λ s, place c bs s = None) ss).
Proof.
  revert bs' news j. induction ss as [|s ss IH]; intros bs' news j Hal Hbs Hts Hfs Hj.
  { simpl. by rewrite updated_nil. }
  pose proof (Forall2_length _ _ _ Hal) as Hlen.
  simpl in Hts, Hfs. apply andb_true_iff in Hts as [Hs Hts]. apply andb_true_iff in Hfs as [Hf Hfs].
  cbn [merge_loop]. rewrite take_app_length' by lia. rewrite GetItem_place by done. cbn [mbind option_bind].
  rewrite (place_alike c bs bs') by done. rewrite filter_cons.
  destruct (place c bs s) as [i|] eqn:Hp.
  - rewrite decide_False by done.
    destruct (place_alike_Some c bs bs' s i Hal Hs Hp) as (b & Hb & Hm).
    assert (typed c b = true) as Htb by by apply (forallb_lookup (typed c) bs' i).
    apply lookup_lt_Some in Hb as Hi.
    rewrite lookup_app_l, Hb by done. cbn [mbind option_bind].
    destruct (write_partial_lays c b s Hfl Htb Hs Hf) as [-> Hov]. cbn [mbind option_bind].
    change (is_ok kEebusErrorOk) with true. cbn match. rewrite insert_app_l by done.
    rewrite (updated_old c bs bs' s ss i b Hp Hb). apply IH; try done; [|by apply forallb_insert].
    clear IH. apply Forall2_lookup. intros k. destruct (decide (k = i)) as [->|Hk].
    + rewrite list_lookup_insert_eq by done.
      destruct (Forall2_lookup_r _ _ _ _ _ Hal Hb) as (b0 & Hb0 & Hal0). rewrite Hb0. constructor.
      intros s' Hs'. rewrite <- (Hal0 s' Hs'). apply overlay_keeps_identity; try done. by right.
    + rewrite list_lookup_insert_ne by done. by apply Forall2_lookup.
  - rewrite decide_True by done. cbn [length replicate].
    rewrite lookup_app_r, lookup_app_r by lia. replace (j - length bs' - length news) with 0 by lia.
    match goal with |- context [(Null :: ?l) !! 0] => change ((Null :: l) !! 0) with (Some Null) end.
    cbn [mbind option_bind]. rewrite (write_over c Null s) by (done || by apply flat_plain || by apply typed_null; destruct c).
    cbn [mbind option_bind].
    change (is_ok kEebusErrorOk) with true. cbn match.
    rewrite insert_app_r_alt, insert_app_r_alt by lia. replace (j - length bs' - length news) with 0 by lia.
    rewrite updated_new by done. simpl.
    rewrite (cons_middle s news), (assoc_L (++) news [s]).
    rewrite IH; try done; [by rewrite <- (assoc_L (++))|rewrite length_app; simpl; lia].
Qed.

Lemma alike_refl bs : Forall2 (alike c) bs bs.
Proof. induction bs; by constructor. Qed.

Lemma merged_length bs ss :
  length (merged c bs ss) = length bs + length (filter (λ s, place c bs s = None) ss).
Proof. unfold merged. by rewrite length_app, length_imap. Qed.

(** The whole function: nothing is changed when the list would be too long. *)
Lemma MergeData_exact bs ss :
  forallb (typed c) bs = true → forallb (typed c) ss = true → forallb fits ss = true →
  MergeData c wp (Array bs) (Array ss) =
    Some (if bool_decide (length bs < length (merged c bs ss) ∧
                          (kMaxElementsNum < Z.of_nat (length (merged c bs ss)))%Z)
          then (kEebusErrorMemoryAllocate, Array bs)
          else (kEebusErrorOk, Array (merged c bs ss))).
Proof.
  intros Hbs Hss Hf. unfold MergeData. cbn [list_items mbind option_bind].
  rewrite count_new_place by done. cbn [mbind option_bind]. rewrite <- merged_length.
  assert ((0 <? length (filter (λ s, place c bs s = None) ss)) = bool_decide (length bs < length (merged c bs ss))) as ->.
  { rewrite merged_length. case_bool_decide; [apply Nat.ltb_lt|apply Nat.ltb_ge]; lia. }
  case_bool_decide as Hnew.
  - unfold CreateListBuffer. replace (length (merged c bs ss) =? 0) with false by (symmetry; apply Nat.eqb_neq; lia).
    rewrite orb_true_r, andb_true_r. simpl.
    destruct (Z.leb_spec (Z.of_nat (length (merged c bs ss))) kMaxElementsNum).
    + rewrite bool_decide_false by lia. cbn [negb].
      pose proof (merge_loop_exact bs bs [] ss (length bs)) as E. simpl in E.
      rewrite E; (done || lia || apply alike_refl).
    + rewrite bool_decide_true by lia. done.
  - rewrite andb_false_l. rewrite bool_decide_false by tauto.
    pose proof (merge_loop_exact bs bs [] ss (length bs)) as E. simpl in E.
    rewrite E; (done || lia || apply alike_refl).
Qed.
End loop.
End merge.
