(* ===== verification/EebusDataTable.v ===== *)
(** * A list of SPINE data as a table

    Most lists of SPINE are tables: each item has identifiers that no other item has.  On
    such lists a partial write is an update of the table, key by key, and a delete
    removes what the selectors select. *)

From S2P Require Import Prelude Duration DateTime EebusData EebusDataWrite EebusDataFacts EebusDataMerge.

Local Open Scope list_scope.

(** ** Looking up by a key *)

Section find_by.
Context {A K : Type} `{EqDecision K} (key : A → K).

Fixpoint find_by (l : list A) (k : K) : option A :=
  match l with
  | [] => None
  | a :: l => if bool_decide (key a = k) then Some a else find_by l k
  end.

Lemma find_by_key l k a : find_by l k = Some a → key a = k ∧ a ∈ l.
Proof.
  induction l as [|b l IH]; simpl; [done|]. case_bool_decide.
  - intros [= ->]. split; [done|by left].
  - intros [? ?]%IH. split; [done|by right].
Qed.

Lemma find_by_None l k : find_by l k = None ↔ k ∉ key <$> l.
Proof.
  induction l as [|b l IH]; simpl; [split; [intros _ []%elem_of_nil|done]|].
  rewrite not_elem_of_cons. case_bool_decide; [intuition congruence|]. rewrite IH. intuition congruence.
Qed.

Lemma find_by_app l l' k : find_by (l ++ l') k = from_option Some (find_by l' k) (find_by l k).
Proof. induction l as [|b l IH]; simpl; [done|]. by case_bool_decide. Qed.

Lemma find_by_map (g : A → A) l k : Forall (λ a, key (g a) = key a) l → find_by (g <$> l) k = g <$> find_by l k.
Proof.
  induction 1 as [|a l Ha _ IH]; simpl; [done|]. rewrite Ha. by case_bool_decide.
Qed.

Lemma find_by_filter (P : K → Prop) `{∀ k, Decision (P k)} l k :
  find_by (filter (λ a, P (key a)) l) k = if decide (P k) then find_by l k else None.
Proof.
  induction l as [|a l IH]; simpl; [by destruct (decide _)|]. rewrite filter_cons.
  destruct (bool_decide (key a = k)) eqn:Hk.
  - apply bool_decide_eq_true in Hk as <-. destruct (decide (P (key a))); simpl; [|done].
    by rewrite bool_decide_true.
  - destruct (decide (P (key a))); simpl; by rewrite ?Hk.
Qed.

(** Where the keys are unique the items with a key are the one that is found. *)
Lemma filter_key l k : NoDup (key <$> l) → filter (λ a, key a = k) l = option_list (find_by l k).
Proof.
  induction l as [|a l IH]; simpl; [done|]. rewrite NoDup_cons. intros [Hin Hnd].
  rewrite filter_cons, IH by done. case_bool_decide as Hk; [|by rewrite decide_False].
  rewrite decide_True by done. subst k. by rewrite (proj2 (find_by_None l _) Hin).
Qed.
End find_by.

Lemma list_filter_iff' {A} (P Q : A → Prop) `{∀ a, Decision (P a), ∀ a, Decision (Q a)} l :
  Forall (λ a, P a ↔ Q a) l → filter P l = filter Q l.
Proof.
  induction 1 as [|a l Ha _ IH]; [done|]. rewrite !filter_cons, IH.
  destruct (decide (P a)), (decide (Q a)); (done || tauto).
Qed.

Lemma filter_all {A} (l : list A) : filter (λ _, True) l = l.
Proof. induction l as [|a l IH]; [done|]. by rewrite filter_cons, decide_True, IH. Qed.

(** ** The key of an item *)

Fixpoint data_eqb (a b : Data) : bool :=
  match a, b with
  | Null, Null | TagSet, TagSet => true
  | Leaf x, Leaf y => bool_decide (x = y)
  | Struct l, Struct k | Array l, Array k => forall2b data_eqb l k
  | Chosen i x, Chosen j y => bool_decide (i = j) && data_eqb x y
  | _, _ => false
  end.

Lemma forall2b_eq {A} (f : A → A → bool) l k :
  Forall (λ a, ∀ b, f a b = true ↔ a = b) l → forall2b f l k = true ↔ l = k.
Proof.
  intros HF. revert k. induction HF as [|a l Ha _ IH]; intros [|b k]; simpl; try done.
  rewrite andb_true_iff, Ha, IH. split; [by intros [-> ->]|by intros [= -> ->]].
Qed.

Lemma data_eqb_eq a b : data_eqb a b = true ↔ a = b.
Proof.
  revert b. induction a as [|x| |l IH|l IH|i d IH] using data_ind'; intros [|y| |k|k|j d']; simpl; try done.
  - rewrite bool_decide_eq_true. split; congruence.
  - rewrite forall2b_eq by done. split; congruence.
  - rewrite forall2b_eq by done. split; congruence.
  - rewrite andb_true_iff, bool_decide_eq_true, IH. split; [by intros [-> ->]|by intros [= -> ->]].
Qed.

#[export] Instance Data_eq_dec : EqDecision Data.
Proof. refine (λ a b, cast_if (decide (data_eqb a b = true))); by rewrite <- data_eqb_eq. Defined.

(** No identifiers anywhere below. *)
Fixpoint no_identifiers (c : EebusDataCfg) : bool :=
  match c with
  | Simple _ _ _ => negb (HasIdentifiersFlags c)
  | Sequence _ _ cs | Container _ _ cs => negb (HasIdentifiersFlags c) && forallb no_identifiers cs
  | _ => true
  end.

(** The items of a table: some fields are identifiers, the others have none. *)
Definition keyed (c : EebusDataCfg) : bool :=
  match c with
  | Sequence _ _ cs =>
      negb (HasIdentifiersFlags c) && existsb HasIdentifiersFlags cs &&
      forallb (λ c, HasIdentifiersFlags c || no_identifiers c) cs
  | _ => false
  end.

Fixpoint keys (cs : list EebusDataCfg) (l : list Data) : list Data :=
  match cs, l with
  | c :: cs, d :: l => if HasIdentifiersFlags c then d :: keys cs l else keys cs l
  | _, _ => []
  end.

Definition identity (c : EebusDataCfg) (d : Data) : list Data :=
  match c, d with Sequence _ _ cs, Struct l => keys cs l | _, _ => [] end.

(** It has all of them. *)
Definition identified (c : EebusDataCfg) (d : Data) : bool :=
  negb (null d) && forallb (λ k, negb (null k)) (identity c d).

Lemma flagged_key c d : flat c = true → HasIdentifiersFlags c = true → typed c d = true → null d = false →
  has_identifiers c d = true.
Proof.
  destruct c as [n f k| | |n f cs| | | |]; intros Hfl Hfg Ht Hn; try done.
  - cbn [has_identifiers]. rewrite Hfg. by destruct d.
  - cbn [has_identifiers]. rewrite Hfg. by destruct d.
Qed.

Lemma any_field_none cs l : Forall (λ c, no_identifiers c = true → ∀ d, has_identifiers c d = false) cs →
  forallb no_identifiers cs = true → any_field has_identifiers cs l = false.
Proof.
  intros HF. revert l. induction HF as [|c cs Hc _ IH]; intros [|d l]; simpl; try done.
  intros [Hn Hns]%andb_true_iff. by rewrite Hc, IH.
Qed.

Lemma no_identifiers_has c : no_identifiers c = true → ∀ d, has_identifiers c d = false.
Proof.
  induction c as [n f k|n|n|n f cs IH|kd n cs IH|n c IH|n c IH|cs IH] using cfg_ind'; cbn [no_identifiers has_identifiers]; try done.
  - intros Hn d. apply negb_true_iff in Hn. by rewrite Hn, andb_false_r.
  - intros _ d. by rewrite andb_false_r.
  - intros [Hn Hns]%andb_true_iff []; try done. apply negb_true_iff in Hn. rewrite Hn. simpl. by apply any_field_none.
  - intros [Hn Hns]%andb_true_iff []; try done. apply negb_true_iff in Hn. rewrite Hn. simpl. by apply any_field_none.
Qed.

Lemma no_identifiers_match c b s : flat c = true → no_identifiers c = true → identifiers_match c b s = Some true.
Proof.
  destruct c as [n f k|n|n|n f cs|kd n cs|n c|n c|cs]; try done; intros _ Hn.
  - simpl in *. by rewrite Hn.
  - cbn [identifiers_match]. rewrite no_identifiers_has by done.
    cbn [no_identifiers] in Hn. apply andb_true_iff in Hn as [Hn _]. apply negb_true_iff in Hn. by rewrite Hn.
Qed.

Definition key_or_none (c : EebusDataCfg) : bool := HasIdentifiersFlags c || no_identifiers c.
Abbreviation present := (forallb (λ k, negb (null k))).

Lemma flagged_match c b s : flat c = true → HasIdentifiersFlags c = true → typed c b = true → typed c s = true →
  null s = false → identifiers_match c b s = Some (bool_decide (b = s)).
Proof.
  intros Hfl Hfg Hb Hs Hn. destruct (compare_equal c b s (flat_plain c Hfl) Hb Hs) as (x & Hx & Hiff).
  assert (compare c c b s = Some (bool_decide (b = s))) as Hc.
  { rewrite Hx. f_equal. apply eq_bool_prop_intro. rewrite bool_decide_spec. by rewrite <- Hiff, Is_true_true. }
  destruct c as [n f k| | |n f cs| | | |]; try done; cbn [identifiers_match]; rewrite Hfg; [|done].
  cbn [negb is_null]. by rewrite Hn.
Qed.

Lemma match_keys cs bs ss : forallb flat cs = true → forallb key_or_none cs = true →
  forall2b typed cs bs = true → forall2b typed cs ss = true → present (keys cs ss) = true →
  match_fields identifiers_match cs bs ss = Some (bool_decide (keys cs bs = keys cs ss)).
Proof.
  revert bs ss. induction cs as [|c cs IH]; intros [|b bs] [|s ss]; try done; simpl.
  intros [Hfl ?]%andb_true_iff [Hk ?]%andb_true_iff [Hb ?]%andb_true_iff [Hs ?]%andb_true_iff.
  destruct (HasIdentifiersFlags c) eqn:Hfg; simpl.
  - intros [Hn ?]%andb_true_iff. apply negb_true_iff in Hn. rewrite flagged_match, IH by done. rewrite and_then_some.
    f_equal. apply eq_bool_prop_intro. rewrite andb_True, !bool_decide_spec. split; [by intros [-> ->]|by intros [= -> ->]].
  - intros ?. unfold key_or_none in Hk. rewrite Hfg in Hk. rewrite no_identifiers_match, IH by done. done.
Qed.

Lemma keyed_has cs l : forallb flat cs = true → existsb HasIdentifiersFlags cs = true →
  forall2b typed cs l = true → present (keys cs l) = true → any_field has_identifiers cs l = true.
Proof.
  revert l. induction cs as [|c cs IH]; intros [|d l]; try done; simpl.
  intros [Hfl ?]%andb_true_iff Hex [Ht ?]%andb_true_iff Hp. destruct (HasIdentifiersFlags c) eqn:Hfg; simpl in *.
  - apply andb_true_iff in Hp as [Hn _]. apply negb_true_iff in Hn. by rewrite flagged_key.
  - rewrite IH by done. by rewrite orb_true_r.
Qed.

(** Items match when their keys are equal. *)
Lemma match_identity c b s : flat c = true → keyed c = true → typed c b = true → typed c s = true →
  identified c b = true → identified c s = true →
  identifiers_match c b s = Some (bool_decide (identity c b = identity c s)).
Proof.
  destruct c as [| | |n f cs| | | |]; try done. unfold keyed, identified. intros Hfl Hk Hb Hs [Hnb Hib]%andb_true_iff [Hns His]%andb_true_iff.
  rewrite !andb_true_iff in Hk. destruct Hk as [[Hfg Hex] Hall]. apply negb_true_iff in Hfg.
  destruct b as [| | |bs| |], s as [| | |ss| |]; try done. simpl in Hfl, Hb, Hs.
  cbn [identifiers_match]. rewrite Hfg. cbn [has_identifiers]. rewrite Hfg, keyed_has by done. simpl.
  by apply match_keys.
Qed.

(** Laying an item over one with the same key leaves the key. *)
Lemma overlay_keys cs bs ss : forall2b typed cs bs = true → forall2b typed cs ss = true →
  keys cs bs = keys cs ss → keys cs (overlays overlay bs ss) = keys cs bs.
Proof.
  revert bs ss. induction cs as [|c cs IH]; intros [|b bs] [|s ss]; try done; simpl.
  intros [Hb ?]%andb_true_iff [Hs ?]%andb_true_iff. destruct (HasIdentifiersFlags c).
  - intros [= -> Hk]. by rewrite overlay_idem, IH.
  - intros Hk. by rewrite IH.
Qed.

Lemma overlay_identity c b s : keyed c = true → typed c b = true → typed c s = true →
  identified c b = true → identified c s = true → identity c b = identity c s → identity c (overlay b s) = identity c b.
Proof.
  destruct c as [| | |n f cs| | | |]; try done. unfold identified. intros _ Hb Hs [? _]%andb_true_iff [? _]%andb_true_iff.
  destruct b, s; try done. simpl in *. by apply overlay_keys.
Qed.

Lemma overlay_not_null b s : null b = false → null (overlay b s) = false.
Proof. by destruct b, s. Qed.

(** ** The table *)

Section table.
Context `{Allocator} (c : EebusDataCfg) (Hfl : flat c = true) (Hkeyed : keyed c = true).

(** The items have all identifiers, and no two the same. *)
Record is_table (l : list Data) : Prop := {
  table_typed : forallb (typed c) l = true;
  table_identified : Forall (λ d, identified c d = true) l;
  table_unique : NoDup (identity c <$> l)
}.

Abbreviation entry := (find_by (identity c)).

Lemma place_find bs s : is_table bs → typed c s = true → identified c s = true →
  place c bs s = None ↔ entry bs (identity c s) = None.
Proof.
  intros [Ht Hi _] Hs His. unfold place. induction bs as [|b bs IH]; simpl; [done|].
  simpl in Ht. apply andb_true_iff in Ht as [Hb Ht]. apply Forall_cons in Hi as [Hib Hi].
  pose proof (match_identity c b s Hfl Hkeyed Hb Hs Hib His) as Hm. unfold same_item at 1.
  case_bool_decide; [by rewrite decide_True by done|]. rewrite decide_False by congruence.
  rewrite <- IH by done. by destruct (list_find _ bs).
Qed.

Lemma place_at bs s i b : is_table bs → typed c s = true → identified c s = true → bs !! i = Some b →
  place c bs s = Some i ↔ identity c s = identity c b.
Proof.
  intros [Ht Hi Hnd] Hs His Hb.
  assert (∀ j b', bs !! j = Some b' → identifiers_match c b' s = Some (bool_decide (identity c b' = identity c s))) as Hm.
  { intros j b' Hj. apply match_identity; try done.
    - rewrite forallb_forall in Ht. apply Ht, list_elem_of_In. by eapply list_elem_of_lookup_2.
    - rewrite Forall_forall in Hi. apply Hi. by eapply list_elem_of_lookup_2. }
  assert (∀ j b', bs !! j = Some b' → identity c b' = identity c b → j = i) as Hun.
  { intros j b' Hj Hid. rewrite NoDup_alt in Hnd. apply (Hnd j i (identity c b)); rewrite list_lookup_fmap.
    - by rewrite Hj; simpl; rewrite Hid.
    - by rewrite Hb. }
  split.
  - intros (b' & Hb' & Hsame)%place_Some. simplify_eq. unfold same_item in Hsame. rewrite (Hm i) in Hsame by done.
    injection Hsame as Hsame. by apply bool_decide_eq_true in Hsame.
  - intros Hid. unfold place. apply fmap_Some. exists (i, b). split; [|done]. apply list_find_Some. split_and!; [done| |].
    + unfold same_item. rewrite (Hm i b Hb). by rewrite bool_decide_true.
    + intros j b' Hj Hlt Hsame. unfold same_item in Hsame. rewrite (Hm j b' Hj) in Hsame.
      injection Hsame as Hsame. apply bool_decide_eq_true in Hsame.
      assert (j = i) by (apply (Hun j b'); [done|congruence]). lia.
Qed.

(** What a message does to an item. *)
Definition updated_item (ss : list Data) (b : Data) : Data := from_option (overlay b) b (entry ss (identity c b)).

Lemma table_item l d : is_table l → d ∈ l → typed c d = true ∧ identified c d = true.
Proof.
  intros [Ht Hi _] Hd. rewrite forallb_forall in Ht. rewrite Forall_forall in Hi.
  split; [by apply Ht, list_elem_of_In|by apply Hi].
Qed.

Lemma entry_item l k s : is_table l → entry l k = Some s →
  typed c s = true ∧ identified c s = true ∧ identity c s = k ∧ s ∈ l.
Proof. intros Hl (? & Hin)%find_by_key. by destruct (table_item l s Hl Hin). Qed.

(** The merge, item by item. *)
Lemma merged_items bs ss : is_table bs → is_table ss →
  merged c bs ss = (updated_item ss <$> bs) ++ filter (λ s, entry bs (identity c s) = None) ss.
Proof.
  intros Hbs Hss. unfold merged. f_equal.
  - apply list_eq. intros i. rewrite list_lookup_imap, list_lookup_fmap.
    destruct (bs !! i) as [b|] eqn:Hb; [|done]. simpl. f_equal. unfold updated_item.
    rewrite (list_filter_iff' (λ s, place c bs s = Some i) (λ s, identity c s = identity c b)).
    + rewrite filter_key by apply Hss. by destruct (entry ss _).
    + apply Forall_forall. intros s Hs. destruct (table_item ss s Hss Hs). by apply place_at.
  - apply list_filter_iff'. apply Forall_forall. intros s Hs. destruct (table_item ss s Hss Hs). by apply place_find.
Qed.

Lemma updated_identity bs ss b : is_table bs → is_table ss → b ∈ bs → identity c (updated_item ss b) = identity c b.
Proof.
  intros Hbs Hss Hb. unfold updated_item. destruct (table_item bs b Hbs Hb).
  destruct (entry ss _) as [s|] eqn:Hs; [|done]. simpl.
  destruct (entry_item ss _ s Hss Hs) as (? & ? & ? & _). by apply overlay_identity.
Qed.

Lemma updated_typed bs ss b : is_table bs → is_table ss → forallb fits ss = true → b ∈ bs →
  typed c (updated_item ss b) = true ∧ identified c (updated_item ss b) = true.
Proof.
  intros Hbs Hss Hf Hb. pose proof (updated_identity bs ss b Hbs Hss Hb) as Hid.
  destruct (table_item bs b Hbs Hb) as [Ht Hi]. unfold identified in *. rewrite Hid.
  apply andb_true_iff in Hi as [Hn Hi]. rewrite Hi, andb_true_r. apply negb_true_iff in Hn.
  unfold updated_item. destruct (entry ss _) as [s|] eqn:Hs; simpl; [|by rewrite Hn].
  destruct (entry_item ss _ s Hss Hs) as (Hts & _ & _ & Hin).
  rewrite overlay_not_null by done. split; [|done].
  rewrite forallb_forall in Hf. by apply (write_partial_lays c b s Hfl Ht Hts), Hf, list_elem_of_In.
Qed.

Lemma merged_table bs ss : is_table bs → is_table ss → forallb fits ss = true →
  is_table (merged c bs ss) ∧
  ∀ k, entry (merged c bs ss) k = union_with (λ b s, Some (overlay b s)) (entry bs k) (entry ss k).
Proof.
  intros Hbs Hss Hf. rewrite merged_items by done.
  assert (∀ d, d ∈ filter (λ s, entry bs (identity c s) = None) ss → typed c d = true ∧ identified c d = true) as Hnew.
  { intros d [_ Hd]%list_elem_of_filter. by apply (table_item ss). }
  assert (∀ d, d ∈ updated_item ss <$> bs → typed c d = true ∧ identified c d = true) as Hold.
  { intros d (b & -> & Hb)%list_elem_of_fmap. by apply (updated_typed bs). }
  split.
  - constructor.
    + apply forallb_forall. intros d [Hd|Hd]%list_elem_of_In%elem_of_app; [by apply Hold|by apply Hnew].
    + apply Forall_forall. intros d [Hd|Hd]%elem_of_app; [by apply Hold|by apply Hnew].
    + rewrite fmap_app, <- list_fmap_compose. apply NoDup_app.
      assert (identity c ∘ updated_item ss <$> bs = identity c <$> bs) as ->.
      { apply list_fmap_ext. intros i b Hb. apply (updated_identity bs); try done. by eapply list_elem_of_lookup_2. }
      split_and!; [apply Hbs| |].
      * intros k Hk (s & -> & [Hs _]%list_elem_of_filter)%list_elem_of_fmap.
        by apply (find_by_None (identity c)) in Hs.
      * destruct Hss as [_ _ Hnd]. clear -Hnd. induction ss as [|s ss IH]; simpl; [done|].
        simpl in Hnd. apply NoDup_cons in Hnd as [Hs Hnd]. rewrite filter_cons. case_decide; [|by apply IH].
        simpl. apply NoDup_cons. split; [|by apply IH].
        intros (s' & E & [_ Hin]%list_elem_of_filter)%list_elem_of_fmap. apply Hs. rewrite E. by apply list_elem_of_fmap_2.
  - intros k. rewrite find_by_app, find_by_map.
    pose proof (find_by_filter (identity c) (λ k, entry bs k = None) ss k) as Ef. cbn beta in Ef. rewrite Ef.
    + destruct (entry bs k) as [b|] eqn:Hb; simpl.
      * destruct (entry_item bs k b Hbs Hb) as (_ & _ & Hk & _). unfold updated_item. rewrite Hk.
        by destruct (entry ss k).
      * by destruct (entry ss k).
    + apply Forall_forall. intros b Hb. by apply (updated_identity bs).
Qed.

(** ** Partial writes *)

Lemma table_has_identifiers s ss : is_table (s :: ss) → has_identifiers c s = true.
Proof.
  intros Hl. destruct (table_item _ s Hl (list_elem_of_here _ _)) as [Ht Hi].
  unfold keyed in Hkeyed. unfold identified in Hi. destruct c as [| | |n f cs| | | |]; try done.
  rewrite !andb_true_iff in Hkeyed. destruct Hkeyed as [[_ Hex] _]. apply andb_true_iff in Hi as [Hn Hi].
  destruct s as [| | |l| |]; try done. cbn [has_identifiers]. rewrite keyed_has by done. by rewrite orb_true_r.
Qed.

(** The items of the list, which may be NULL. *)
Definition items (d : Data) : list Data := match d with Array l => l | _ => [] end.

Lemma MergeData_items wp base ss : base = Null ∨ base = Array (items base) → ss ≠ [] →
  (Z.of_nat (length (items base) + length ss) <= kMaxElementsNum)%Z → forallb (typed c) ss = true →
  MergeData c wp base (Array ss) = MergeData c wp (Array (items base)) (Array ss).
Proof.
  intros [->| ->] Hne Hlen Ht; [|done]. simpl in *. unfold MergeData. cbn [list_items mbind option_bind items].
  rewrite count_new_place by done. unfold place. simpl. rewrite (list_filter_iff' _ (λ _, True)) by (by apply Forall_forall). rewrite filter_all.
  unfold CreateListBuffer. replace (0 <? length ss) with true by (symmetry; apply Nat.ltb_lt; destruct ss; simpl; [done|lia]).
  replace (length ss =? 0) with false by (symmetry; apply Nat.eqb_neq; destruct ss; simpl; [done|lia]).
  rewrite orb_true_r, andb_true_r. apply Z.leb_le in Hlen as ->. done.
Qed.

(** A partial write of such a list, of no more than 10000 items together, merges the items. *)
Lemma list_update_merges cname lname cs list rest ss rest' :
  list = Null ∨ list = Array (items list) → is_table (items list) → is_table ss → ss ≠ [] → forallb fits ss = true →
  (Z.of_nat (length (items list) + length ss) <= kMaxElementsNum)%Z →
  write_partial (Container KContainer cname (List_ lname c :: cs)) (Struct (list :: rest)) (Struct (Array ss :: rest')) None =
    Some (kEebusErrorOk, Struct (Array (merged c (items list) ss) :: rest)).
Proof.
  intros Hl Hbs Hss Hne Hf Hlen. cbn [write_partial]. unfold ContainerWritePartial, opened.
  cbn [write_partial mbind option_bind]. unfold ListWritePartial.
  destruct ss as [|s ss]; [done|]. unfold ListElementsHaveIdentifiers. rewrite table_has_identifiers with (ss := ss) by done.
  cbn [negb]. rewrite MergeData_items by (done || apply Hss). rewrite MergeData_exact by (done || apply Hbs || apply Hss).
  rewrite bool_decide_false; [done|]. intros [_ Hgt]. rewrite merged_length in Hgt.
  pose proof (length_filter (λ s, place c (items list) s = None) (s :: ss)). lia.
Qed.


(** ** Deleting the selected items *)

Lemma deselect_filter f sel bs : Forall (λ b, f b = Some (sel b)) bs →
  deselect f bs = Some (filter (λ b, sel b = false) bs).
Proof.
  induction 1 as [|b bs Hb _ IH]; simpl; [done|]. rewrite Hb, IH. simpl. rewrite filter_cons.
  by destruct (sel b).
Qed.

Lemma filter_same_length {A} (P : A → Prop) `{∀ a, Decision (P a)} l : length (filter P l) = length l → filter P l = l.
Proof.
  induction l as [|a l IH]; simpl; [done|]. rewrite filter_cons. pose proof (length_filter P l).
  case_decide; simpl; [|lia]. intros Hl. f_equal. apply IH. lia.
Qed.

Lemma find_by_filter_unique (P : Data → Prop) `{∀ a, Decision (P a)} l k : NoDup (identity c <$> l) →
  entry (filter P l) k = (entry l k ≫= λ b, if decide (P b) then Some b else None).
Proof.
  induction l as [|a l IH]; simpl; [done|]. rewrite NoDup_cons. intros [Hin Hnd]. rewrite filter_cons.
  case_bool_decide as Hk.
  - simpl. destruct (decide (P a)); simpl; [by rewrite bool_decide_true|].
    apply find_by_None. intros (b & -> & [_ Hb]%list_elem_of_filter)%list_elem_of_fmap.
    apply Hin. rewrite Hk. by apply list_elem_of_fmap_2.
  - destruct (decide (P a)); simpl; [rewrite bool_decide_false by done|]; by apply IH.
Qed.

(** Deleting with selectors, and without elements, removes exactly the selected items of such a
    list and keeps the others as they are, unless all are selected and [malloc(0)] gives NULL. *)
Theorem selected_items_deleted cname lname cs bs rest scfg selectors ecfg elements (sel : Data → bool) :
  is_table bs → (Z.of_nat (length bs) <= kMaxElementsNum)%Z →
  is_null scfg selectors = false → is_null ecfg elements = true →
  Forall (λ b, selectors_match c b scfg selectors = Some (sel b)) bs →
  malloc_zero = true ∨ Exists (λ b, sel b = false) bs →
  ∃ l, delete_partial (Container KContainer cname (List_ lname c :: cs)) (Struct (Array bs :: rest)) scfg selectors ecfg elements =
         Some (Struct (Array l :: rest)) ∧
    is_table l ∧ ∀ k, entry l k = (entry bs k ≫= λ b, if sel b then None else Some b).
Proof.
  intros Hbs Hlen Hns Hne Hsel Hroom. exists (filter (λ b, sel b = false) bs). split_and!.
  - cbn [delete_partial]. unfold delete_partial_list. rewrite Hns, Hne. cbn [negb andb]. unfold DeleteListItems.
    cbn [list_items mbind option_bind]. rewrite (deselect_filter _ sel) by done. cbn [mbind option_bind].
    pose proof (length_filter (λ b, sel b = false) bs) as Hle.
    case_bool_decide as Hall; cbn [mbind option_bind]; [by rewrite filter_same_length|].
    unfold CreateListBuffer. assert ((Z.of_nat (length (filter (λ b, sel b = false) bs)) <=? kMaxElementsNum)%Z = true) as -> by (apply Z.leb_le; lia).
    destruct Hroom as [-> |Hroom]; [done|].
    destruct (filter (λ b, sel b = false) bs) eqn:E; [|by rewrite orb_true_r].
    apply Exists_exists in Hroom as (b & Hb & Hs).
    assert (b ∈ filter (λ b, sel b = false) bs) as Hin by by apply list_elem_of_filter. rewrite E in Hin. by apply not_elem_of_nil in Hin.
  - destruct Hbs as [Ht Hi Hnd]. constructor.
    + rewrite forallb_forall in *. intros d Hd%list_elem_of_In. apply Ht, list_elem_of_In. by apply list_elem_of_filter in Hd as [_ ?].
    + rewrite Forall_forall in *. intros d [_ Hd]%list_elem_of_filter. by apply Hi.
    + apply (sublist_NoDup _ (identity c <$> bs)); [done|]. apply fmap_sublist, sublist_filter.
  - intros k. rewrite find_by_filter_unique by apply Hbs. destruct (entry bs k) as [b|]; [|done]. simpl. by destruct (sel b).
Qed.
End table.
