(* ===== verification/EebusDataList.v ===== *)
(** * Lists of SPINE data in the hands of their users ([common/eebus_data/eebus_data_list.c])

    The iterator over the items that match, with which the use cases look for data; reading
    with elements and copying what matches; and the arrays of pointers that the
    node management grows and shrinks. *)

From S2P Require Import Prelude Duration DateTime EebusData EebusDataWrite EebusDataFacts.

Local Open Scope list_scope.

(** ** Reading *)

Section reading.
Context `{Allocator}.

Section read_fields.
Context (read_elements : EebusDataCfg → Data → Data → EebusDataCfg → Data → R).
(** Fields and elements by position, while there are both. *)
Fixpoint read_fields (cs : list EebusDataCfg) (bs ds : list Data) (ecs : list EebusDataCfg) (es : list Data) : RL :=
  match cs, bs, ds, ecs, es with
  | c :: cs, b :: bs, d :: ds, ec :: ecs, e :: es =>
      next (if is_null ec e then Some (kEebusErrorOk, d)
            else if is_empty ec e then copy c b (delete c d)
            else read_elements c b d ec e)
           ds (λ _, read_fields cs bs ds ecs es)
  | [], [], ds, _, _ => Some (kEebusErrorOk, ds)
  | _, _, ds, [], [] => Some (kEebusErrorOk, ds)
  | _, _, _, _, _ => None
  end.
End read_fields.

Fixpoint read_elements (cfg : EebusDataCfg) (base dst : Data) (elements_cfg : EebusDataCfg) (elements : Data) : R :=
  match cfg with
  | Stub _ => Some (kEebusErrorOk, dst)
  | Choice _ => Some (kEebusErrorOther, dst)
  | Sequence _ _ cs | Container _ _ cs =>
      match elements_cfg with
      | Sequence _ _ ecs =>
          match base, elements with
          | Null, _ | _, Null => Some (kEebusErrorOk, dst)
          | Struct bs, Struct es =>
              if is_empty elements_cfg elements then copy cfg base (delete cfg dst)
              else
                ds ← opened cs dst;
                into Struct (read_fields read_elements cs bs ds ecs es)
          | _, _ => None
          end
      | _ => Some (kEebusErrorInputArgument, dst)
      end
  | List_ _ _ | ListSimple _ _ =>
      if is_null elements_cfg elements then Some (kEebusErrorOk, dst) else copy cfg base (delete cfg dst)
  | _ => if is_null elements_cfg elements then Some (kEebusErrorOk, dst) else copy cfg base dst
  end.

(** *** The items that match

    The data to match is an item itself; its fields are taken as selectors. *)
Definition item_matches (c : EebusDataCfg) (data_to_match b : Data) : option bool := selectors_match c b c data_to_match.

Fixpoint matching (c : EebusDataCfg) (data_to_match : Data) (bs : list Data) : option (list Data) :=
  match bs with
  | [] => Some []
  | b :: bs => m ← item_matches c data_to_match b; bs ← matching c data_to_match bs; Some (if m : bool then b :: bs else bs)
  end.

(** [CopyMatching] of a list. *)
Definition CopyMatching (c : EebusDataCfg) (base data_to_match : Data) : R :=
  match base with
  | Null => Some (kEebusErrorOk, Null)
  | Array bs =>
      found ← matching c data_to_match bs;
      if (length found =? 0)%nat then Some (kEebusErrorOk, Null)
      else if CreateListBuffer (length found)
      then into Array (each_item (write c) (replicate (length found) Null) found)
      else Some (kEebusErrorMemoryAllocate, Null)
  | _ => None
  end.

(** [CopyMatching] of a container. *)
Definition ContainerCopyMatching (cs : list EebusDataCfg) (base dst data_to_match : Data) : R :=
  match cs with
  | List_ _ c :: _ =>
      match base with
      | Null => Some (kEebusErrorInputArgument, dst)
      | Struct (b :: _) =>
          ds ← opened cs dst;
          match ds with
          | _ :: ds => '(err, d) ← CopyMatching c b data_to_match; Some (err, Struct (d :: ds))
          | [] => None
          end
      | _ => None
      end
  | _ => Some (kEebusErrorInputArgument, dst)
  end.
End reading.

(** ** The iterator

    A position is the index of the item; [first] is 0 and [last] the end of the list. *)

Record EebusDataListMatchIterator := mkIterator {
  ar_element_cfg : option EebusDataCfg;
  ar : list Data;
  data_to_match : Data;
  current : option nat
}.

Fixpoint find_from (c : EebusDataCfg) (data : Data) (p : nat) (l : list Data) : option (option nat) :=
  match l with
  | [] => Some None
  | d :: l => m ← item_matches c data d; if m : bool then Some (Some p) else find_from c data (S p) l
  end.

(** From the position [first] to the end. *)
Definition EebusDataListDataFindMatching (cfg : option EebusDataCfg) (l : list Data) (first : nat) (data : Data) :
    option (option nat) :=
  match cfg with None => Some None | Some c => find_from c data first (drop first l) end.

(** The list and the data to match may be NULL pointers. *)
Definition EebusDataListMatchIteratorConstruct (cfg : option EebusDataCfg) (base data : option Data) :
    option EebusDataListMatchIterator :=
  match cfg, base, data with
  | Some (List_ _ c), Some d, Some m | Some (ListSimple _ c), Some d, Some m =>
      l ← list_items d;
      if (length l =? 0)%nat then Some (mkIterator (Some c) l Null None)
      else p ← EebusDataListDataFindMatching (Some c) l 0 m; Some (mkIterator (Some c) l m p)
  | Some _, Some _, Some _ => None
  | _, _, _ => Some (mkIterator None [] Null None)
  end.

Definition EebusDataListMatchIteratorGet (self : EebusDataListMatchIterator) : option Data :=
  current self ≫= λ p, ar self !! p.

Definition EebusDataListMatchIteratorIsDone (self : EebusDataListMatchIterator) : bool :=
  match current self with None => true | Some _ => false end.

Definition EebusDataListMatchIteratorNext (self : EebusDataListMatchIterator) : option EebusDataListMatchIterator :=
  match current self with
  | None => Some self
  | Some p =>
      q ← EebusDataListDataFindMatching (ar_element_cfg self) (ar self) (S p) (data_to_match self);
      Some (mkIterator (ar_element_cfg self) (ar self) (data_to_match self) q)
  end.

(** The loop of the users: get until done. *)
Fixpoint iterate (fuel : nat) (it : EebusDataListMatchIterator) : option (list Data) :=
  match fuel with
  | O => None
  | S fuel =>
      if EebusDataListMatchIteratorIsDone it then Some []
      else
        d ← EebusDataListMatchIteratorGet it;
        it ← EebusDataListMatchIteratorNext it;
        l ← iterate fuel it; Some (d :: l)
  end.

Section iterator.
Context (c : EebusDataCfg) (m : Data) (sel : Data → bool).

Lemma find_from_spec p l : Forall (λ b, item_matches c m b = Some (sel b)) l →
  (find_from c m p l = Some None ∧ filter (λ b, sel b = true) l = []) ∨
  (∃ pre b post, l = pre ++ b :: post ∧ find_from c m p l = Some (Some (p + length pre)) ∧
     filter (λ b, sel b = true) l = b :: filter (λ b, sel b = true) post).
Proof.
  intros Hl. revert p. induction Hl as [|b l Hb Hl IH]; intros p; simpl; [by left|].
  rewrite Hb. simpl. rewrite filter_cons. destruct (sel b) eqn:Hs.
  - right. exists [], b, l. rewrite decide_True by done. split_and!; try done. by rewrite Nat.add_0_r.
  - rewrite decide_False by done. destruct (IH (S p)) as [[-> ->]|(pre & b' & post & -> & -> & ->)]; [by left|].
    right. exists (b :: pre), b', post. split_and!; try done. simpl. do 2 f_equal. lia.
Qed.

Lemma iterate_from fuel l p q : Forall (λ b, item_matches c m b = Some (sel b)) l → length l - p < fuel →
  find_from c m p (drop p l) = Some q →
  iterate fuel (mkIterator (Some c) l m q) = Some (filter (λ b, sel b = true) (drop p l)).
Proof.
  intros Hl. revert p q. induction fuel as [|fuel IH]; intros p q Hf Hq; [lia|].
  destruct (find_from_spec p (drop p l)) as [[E ->]|(pre & b & post & Ed & E & ->)]; [by apply Forall_drop| |];
    rewrite E in Hq; injection Hq as <-; [done|].
  assert (l !! (p + length pre) = Some b) as Hb.
  { rewrite <- lookup_drop, Ed. by rewrite list_lookup_middle. }
  assert (drop (S (p + length pre)) l = post) as Hpost.
  { replace (S (p + length pre)) with (p + S (length pre)) by lia. rewrite <- drop_drop, Ed.
    replace (S (length pre)) with (length (pre ++ [b])) by (rewrite length_app; simpl; lia).
    rewrite (cons_middle b pre post), (assoc_L (++)). by rewrite drop_app_length. }
  assert (∃ q, find_from c m (S (p + length pre)) post = Some q) as [q Hq].
  { destruct (find_from_spec (S (p + length pre)) post) as [[-> _]|(? & ? & ? & _ & -> & _)]; eauto.
    rewrite <- Hpost. by apply Forall_drop. }
  cbn [iterate EebusDataListMatchIteratorIsDone EebusDataListMatchIteratorGet EebusDataListMatchIteratorNext
       current EebusDataList.ar ar_element_cfg data_to_match mbind option_bind EebusDataListDataFindMatching].
  rewrite Hb, Hpost, Hq. cbn [mbind option_bind].
  rewrite (IH (S (p + length pre))), Hpost; [done| |by rewrite Hpost].
  apply lookup_lt_Some in Hb. lia.
Qed.

(** A loop over the iterator ends and gets exactly the items that match, in the order of the list,
    when the comparisons it makes are defined. *)
Theorem iterator_gets_matches name l : l ≠ [] → Forall (λ b, item_matches c m b = Some (sel b)) l →
  ∃ it, EebusDataListMatchIteratorConstruct (Some (List_ name c)) (Some (Array l)) (Some m) = Some it ∧
    ∀ fuel, length l < fuel → iterate fuel it = Some (filter (λ b, sel b = true) l).
Proof.
  intros Hne Hl. assert ((length l =? 0) = false) as Hlen by (destruct l; done).
  cbn [EebusDataListMatchIteratorConstruct list_items mbind option_bind]. rewrite Hlen.
  destruct (find_from_spec 0 l Hl) as [[E _]|(? & ? & ? & _ & E & _)]; eexists;
    (split; [simpl; rewrite drop_0, E; reflexivity|]); intros fuel Hf;
    rewrite (iterate_from fuel l 0); try done; try lia; by rewrite drop_0.
Qed.
End iterator.

(** ** Arrays of pointers

    A buffer and the size that is kept with it; the pointers are known by their
    addresses. *)

Section arrays.
Context `{Allocator} {A : Type} `{EqDecision A}.

Abbreviation RA := (option (EebusError * (list A * Z))).

(** The elements that the size says are there: beyond the buffer C gives a read no meaning. *)
Definition elements_of (buf : list A) (n : Z) : option (list A) :=
  if (n <=? Z.of_nat (length buf))%Z then Some (take (Z.to_nat n) buf) else None.

Definition EebusDataListDataAppend (buf : list A) (n : Z) (el : option A) : RA :=
  match el with
  | None => Some (kEebusErrorInputArgumentNull, (buf, n))
  | Some el =>
      l ← elements_of buf n;
      if CreateListBuffer (S (length l)) then Some (kEebusErrorOk, (l ++ [el], u64 (n + 1)))
      else Some (kEebusErrorMemoryAllocate, (buf, n))
  end.

Definition EebusDataListDataRemove (buf : list A) (n : Z) (el : option A) : RA :=
  match el with
  | None => Some (kEebusErrorInputArgumentNull, (buf, n))
  | Some el =>
      l ← elements_of buf n;
      let kept := filter (λ x, x ≠ el) l in
      if (0 <? length kept)%nat && negb (CreateListBuffer (length kept))
      then Some (kEebusErrorMemoryAllocate, (buf, n))
      else Some (kEebusErrorOk, (kept, u64 (n - 1)))
  end.

Definition EebusDataListDataAppendList (buf : list A) (n : Z) (els : list A) : RA :=
  if (length els =? 0)%nat then Some (kEebusErrorInputArgumentNull, (buf, n))
  else
    l ← elements_of buf n;
    if CreateListBuffer (length l + length els) then Some (kEebusErrorOk, (l ++ els, u64 (n + Z.of_nat (length els))))
    else Some (kEebusErrorMemoryAllocate, (buf, n)).

(** The size is that of the buffer. *)
Definition sized (l : list A) : list A * Z := (l, Z.of_nat (length l)).

Lemma elements_of_sized l : elements_of l (Z.of_nat (length l)) = Some l.
Proof. unfold elements_of. by rewrite Z.leb_refl, Nat2Z.id, firstn_all. Qed.

Lemma CreateListBuffer_some n : 0 < n → (Z.of_nat n <= kMaxElementsNum)%Z → CreateListBuffer n = true.
Proof.
  intros Hn Hm. unfold CreateListBuffer. apply Z.leb_le in Hm as ->. destruct n; [lia|]. by rewrite orb_true_r.
Qed.

Lemma append_exact l el : (Z.of_nat (length l) < kMaxElementsNum)%Z →
  EebusDataListDataAppend l (Z.of_nat (length l)) (Some el) = Some (kEebusErrorOk, sized (l ++ [el])).
Proof.
  intros Hm. unfold EebusDataListDataAppend, sized. rewrite elements_of_sized. cbn [mbind option_bind].
  rewrite CreateListBuffer_some by lia. unfold kMaxElementsNum in Hm. rewrite u64_small, length_app by lia.
  simpl. do 3 f_equal. lia.
Qed.

(** An element that is there once is taken out. *)
Lemma remove_exact l l' el : el ∉ l → el ∉ l' → (Z.of_nat (length (l ++ el :: l')) <= kMaxElementsNum)%Z →
  EebusDataListDataRemove (l ++ el :: l') (Z.of_nat (length (l ++ el :: l'))) (Some el) =
    Some (kEebusErrorOk, sized (l ++ l')).
Proof.
  intros Hl Hl' Hm. unfold EebusDataListDataRemove, sized. rewrite elements_of_sized. cbn [mbind option_bind].
  assert (filter (λ x, x ≠ el) (l ++ el :: l') = l ++ l') as ->.
  { rewrite filter_app, filter_cons, decide_False by tauto.
    assert (∀ k : list A, el ∉ k → filter (λ x, x ≠ el) k = k) as Hf; [|by rewrite !Hf].
    induction k as [|x k IHk]; [done|]. rewrite not_elem_of_cons. intros [? ?].
    by rewrite filter_cons, decide_True, IHk. }
  rewrite !length_app in *. cbn [length] in *. unfold kMaxElementsNum in Hm. rewrite u64_small by lia.
  destruct (0 <? length l + length l') eqn:E; cbn [andb].
  - rewrite CreateListBuffer_some by (apply Nat.ltb_lt in E; unfold kMaxElementsNum; lia). cbn [negb]. do 3 f_equal. lia.
  - do 3 f_equal. lia.
Qed.
End arrays.

Section demo.
#[local] Instance malloc_zero_null : Allocator := false.

(** Taking out what is not there forgets the last element; from an empty array, it leaves a size of
    2^64 - 1; and what is there twice is read again beyond the new buffer. *)
Example remove_missing : EebusDataListDataRemove [1; 2; 3] 3 (Some 4) = Some (kEebusErrorOk, ([1; 2; 3], 2%Z)).
Proof. by vm_compute. Qed.
Example remove_from_empty : EebusDataListDataRemove [] 0 (Some 4) = Some (kEebusErrorOk, ([], 2 ^ 64 - 1)%Z).
Proof. by vm_compute. Qed.
Example remove_twice :
  EebusDataListDataRemove [4; 2; 4] 3 (Some 4) = Some (kEebusErrorOk, ([2], 2%Z)) ∧
  EebusDataListDataAppend [2] 2 (Some 5) = None.
Proof. by vm_compute. Qed.
End demo.
