(* ===== verification/SpineTables.v ===== *)
(** * The tables of the SPINE data model ([spine/model/*.inc])

    Every table of configurations and of enumerations of the SPINE types, row by row.  A field has the
    position of its row; the numbers of an enumeration are those of its C constants.  The
    constructors are the macros of [common/eebus_data/]. *)

From S2P Require Import Prelude Duration DateTime EebusData.

Local Open Scope list_scope.
Local Open Scope Z_scope.

(** ** The macros *)

Definition EEBUS_DATA_BOOL (name : string) : EebusDataCfg := Simple name 0 KBool.
Definition EEBUS_DATA_STRING (name : string) : EebusDataCfg := Simple name 0 KString.
Definition EEBUS_DATA_TAG (name : string) : EebusDataCfg := Tag name.
Definition EEBUS_DATA_UINT8 (name : string) : EebusDataCfg := Simple name 0 (KNumeric false 8).
Definition EEBUS_DATA_UINT16 (name : string) : EebusDataCfg := Simple name 0 (KNumeric false 16).
Definition EEBUS_DATA_UINT32 (name : string) : EebusDataCfg := Simple name 0 (KNumeric false 32).
Definition EEBUS_DATA_UINT32_WITH_FLAGS (name : string) (flags : Z) : EebusDataCfg :=
  Simple name flags (KNumeric false 32).
Definition EEBUS_DATA_UINT64 (name : string) : EebusDataCfg := Simple name 0 (KNumeric false 64).
Definition EEBUS_DATA_INT8 (name : string) : EebusDataCfg := Simple name 0 (KNumeric true 8).
Definition EEBUS_DATA_INT16 (name : string) : EebusDataCfg := Simple name 0 (KNumeric true 16).
Definition EEBUS_DATA_INT32 (name : string) : EebusDataCfg := Simple name 0 (KNumeric true 32).
Definition EEBUS_DATA_INT64 (name : string) : EebusDataCfg := Simple name 0 (KNumeric true 64).
Definition EEBUS_DATA_ENUM (name : string) (ecfg : list (string * Z)) : EebusDataCfg := Simple name 0 (KEnum ecfg).
Definition EEBUS_DATA_ENUM_WITH_FLAGS (name : string) (ecfg : list (string * Z)) (flags : Z) : EebusDataCfg :=
  Simple name flags (KEnum ecfg).
Definition EEBUS_DATA_DURATION (name : string) : EebusDataCfg := Simple name 0 (KTime TDuration).
Definition EEBUS_DATA_TIME (name : string) : EebusDataCfg := Simple name 0 (KTime TTime).
Definition EEBUS_DATA_DATE (name : string) : EebusDataCfg := Simple name 0 (KTime TDate).
Definition EEBUS_DATA_DATE_TIME (name : string) : EebusDataCfg := Simple name 0 (KTime TDateTime).
Definition EEBUS_DATA_ABSOLUTE_OR_RELATIVE_TIME (name : string) : EebusDataCfg :=
  Simple name 0 (KTime TAbsoluteOrRelative).
Definition EEBUS_DATA_SEQUENCE (name : string) (se_cfg : list EebusDataCfg) : EebusDataCfg := Sequence name 0 se_cfg.
Definition EEBUS_DATA_SEQUENCE_WITH_FLAGS (name : string) (se_cfg : list EebusDataCfg) (flags : Z) : EebusDataCfg :=
  Sequence name flags se_cfg.
Definition EEBUS_DATA_LIST (name : string) (le_cfg : EebusDataCfg) : EebusDataCfg := List_ name le_cfg.
Definition EEBUS_DATA_LIST_SIMPLE (name : string) (le_cfg : EebusDataCfg) : EebusDataCfg := ListSimple name le_cfg.
Definition EEBUS_DATA_CHOICE (ce_cfg : list EebusDataCfg) : EebusDataCfg := Choice ce_cfg.
Definition EEBUS_DATA_CHOICE_ELEMENT_EMPTY (name : string) : EebusDataCfg := Stub name.

(** ** [common_data_types.inc] *)

Definition time_period_cfg : list EebusDataCfg :=
  [ EEBUS_DATA_ABSOLUTE_OR_RELATIVE_TIME "startTime";
    EEBUS_DATA_ABSOLUTE_OR_RELATIVE_TIME "endTime" ].

Definition time_period_elements_cfg : list EebusDataCfg :=
  [ EEBUS_DATA_TAG "startTime";
    EEBUS_DATA_TAG "endTime" ].

Definition timestamp_interval_cfg : list EebusDataCfg :=
  [ EEBUS_DATA_ABSOLUTE_OR_RELATIVE_TIME "startTime";
    EEBUS_DATA_ABSOLUTE_OR_RELATIVE_TIME "endTime" ].

Definition recurring_interval_lut : list (string * Z) :=
  [ ("yearly", 0); ("monthly", 1); ("weekly", 2); ("daily", 3); ("hourly", 4); ("everyMinute", 5);
    ("everySecond", 6) ].

Definition month_lut : list (string * Z) :=
  [ ("january", 0); ("february", 1); ("march", 2); ("april", 3); ("may", 4); ("june", 5); ("july", 6);
    ("august", 7); ("september", 8); ("october", 9); ("november", 10); ("december", 11) ].

Definition day_of_week_lut : list (string * Z) :=
  [ ("monday", 0); ("tuesday", 1); ("wednesday", 2); ("thursday", 3); ("friday", 4); ("saturday", 5);
    ("sunday", 6) ].

Definition days_of_week_cfg : list EebusDataCfg :=
  [ EEBUS_DATA_TAG "monday";
    EEBUS_DATA_TAG "tuesday";
    EEBUS_DATA_TAG "wednesday";
    EEBUS_DATA_TAG "thursday";
    EEBUS_DATA_TAG "friday";
    EEBUS_DATA_TAG "saturday";
    EEBUS_DATA_TAG "sunday" ].

Definition occurrence_lut : list (string * Z) :=
  [ ("first", 0); ("second", 1); ("third", 2); ("fourth", 3); ("last", 4) ].

Definition absolute_or_recurring_time_cfg : list EebusDataCfg :=
  [ EEBUS_DATA_DATE_TIME "dateTime";
    EEBUS_DATA_ENUM "month" month_lut;
    EEBUS_DATA_UINT8 "dayOfMonth";
    EEBUS_DATA_UINT8 "calendarWeek";
    EEBUS_DATA_ENUM "dayOfWeekOccurrence" occurrence_lut;
    EEBUS_DATA_SEQUENCE "daysOfWeek" days_of_week_cfg;
    EEBUS_DATA_TIME "time";
    EEBUS_DATA_DURATION "relative" ].

Definition absolute_or_recurring_time_elements_cfg : list EebusDataCfg :=
  [ EEBUS_DATA_TAG "dateTime";
    EEBUS_DATA_TAG "month";
    EEBUS_DATA_TAG "dayOfMonth";
    EEBUS_DATA_TAG "calendarWeek";
    EEBUS_DATA_TAG "dayOfWeekOccurrence";
    EEBUS_DATA_TAG "daysOfWeek";
    EEBUS_DATA_TAG "time";
    EEBUS_DATA_TAG "relative" ].

Definition recurrence_information_cfg : list EebusDataCfg :=
  [ EEBUS_DATA_ENUM "recurringInterval" recurring_interval_lut;
    EEBUS_DATA_UINT32 "recurringIntervalStep";
    EEBUS_DATA_DATE_TIME "firstExecution";
    EEBUS_DATA_UINT32 "executionCount";
    EEBUS_DATA_DATE_TIME "lastExecution" ].

Definition recurrence_information_elements_cfg : list EebusDataCfg :=
  [ EEBUS_DATA_TAG "recurringInterval";
    EEBUS_DATA_TAG "recurringIntervalStep";
    EEBUS_DATA_TAG "firstExecution";
    EEBUS_DATA_TAG "executionCount";
    EEBUS_DATA_TAG "lastExecution" ].

Definition scaled_number_cfg : list EebusDataCfg :=
  [ EEBUS_DATA_INT64 "number";
    EEBUS_DATA_INT8 "scale" ].

Definition scaled_number_elements_cfg : list EebusDataCfg :=
  [ EEBUS_DATA_TAG "number";
    EEBUS_DATA_TAG "scale" ].

Definition scaled_number_range_cfg : list EebusDataCfg :=
  [ EEBUS_DATA_SEQUENCE "min" scaled_number_cfg;
    EEBUS_DATA_SEQUENCE "max" scaled_number_cfg ].

Definition scaled_number_range_elements_cfg : list EebusDataCfg :=
  [ EEBUS_DATA_TAG "min";
    EEBUS_DATA_TAG "max" ].

Definition value_element_data_cfg : EebusDataCfg := Sequence "" 0 scaled_number_cfg.

Definition range_element_data_cfg : EebusDataCfg := Sequence "" 0 scaled_number_range_cfg.

Definition scaled_number_set_cfg : list EebusDataCfg :=
  [ EEBUS_DATA_LIST "value" value_element_data_cfg;
    EEBUS_DATA_LIST "range" range_element_data_cfg ].

Definition scaled_number_set_elements_cfg : list EebusDataCfg :=
  [ EEBUS_DATA_TAG "value";
    EEBUS_DATA_TAG "range" ].

Definition commodity_type_lut : list (string * Z) :=
  [ ("electricity", 0); ("gas", 1); ("oil", 2); ("water", 3); ("wasteWater", 4); ("domesticHotWater", 5);
    ("heatingWater", 6); ("steam", 7); ("heat", 8); ("coolingLoad", 9); ("air", 10) ].

Definition energy_direction_lut : list (string * Z) :=
  [ ("consume", 0); ("produce", 1) ].

Definition energy_mode_lut : list (string * Z) :=
  [ ("consume", 0); ("produce", 1); ("idle", 2); ("auto", 3) ].

Definition unit_of_measurement_lut : list (string * Z) :=
  [ ("unknown", 0); ("1", 1); ("m", 2); ("kg", 3); ("s", 4); ("A", 5); ("K", 6); ("mol", 7); ("cd", 8); ("V",
    9); ("W", 10); ("Wh", 11); ("VA", 12); ("VAh", 13); ("var", 14); ("varh", 15); ("degC", 16); ("degF", 17);
    ("Lm", 18); ("lx", 19); ("Ohm", 20); ("Hz", 21); ("dB", 22); ("dBm", 23); ("pct", 24); ("ppm", 25); ("l",
    26); ("l/s", 27); ("l/h", 28); ("deg", 29); ("rad", 30); ("rad/s", 31); ("sr", 32); ("Gy", 33); ("Bq",
    34); ("Bq/m^3", 35); ("Sv", 36); ("Rd", 37); ("C", 38); ("F", 39); ("H", 40); ("J", 41); ("N", 42);
    ("N_m", 43); ("N_s", 44); ("Wb", 45); ("T", 46); ("Pa", 47); ("bar", 48); ("atm", 49); ("psi", 50);
    ("mmHg", 51); ("m^2", 52); ("m^3", 53); ("m^3/h", 54); ("m/s", 55); ("m/s^2", 56); ("m^3/s", 57);
    ("m/m^3", 58); ("kg/m^3", 59); ("kg_m", 60); ("m^2/s", 61); ("W/m_K", 62); ("J/K", 63); ("1/s", 64);
    ("W/m^2", 65); ("J/m^2", 66); ("S", 67); ("S/m", 68); ("K/s", 69); ("Pa/s", 70); ("J/kg_K", 71); ("Vs",
    72); ("V/m", 73); ("V/Hz", 74); ("As", 75); ("A/m", 76); ("Hz/s", 77); ("kg/s", 78); ("kg_m^2", 79);
    ("J/Wh", 80); ("W/s", 81); ("ft^3", 82); ("ft^3/h", 83); ("ccf", 84); ("ccf/h", 85); ("US.liq.gal", 86);
    ("US.liq.gal/h", 87); ("Imp.gal", 88); ("Imp.gal/h", 89); ("Btu", 90); ("Btu/h", 91); ("Ah", 92);
    ("kg/Wh", 93) ].

Definition currency_lut : list (string * Z) :=
  [ ("AED", 0); ("AFN", 1); ("ALL", 2); ("AMD", 3); ("ANG", 4); ("AOA", 5); ("ARS", 6); ("AUD", 7); ("AWG",
    8); ("AZN", 9); ("BAM", 10); ("BBD", 11); ("BDT", 12); ("BGN", 13); ("BHD", 14); ("BIF", 15); ("BMD", 16);
    ("BND", 17); ("BOB", 18); ("BOV", 19); ("BRL", 20); ("BSD", 21); ("BTN", 22); ("BWP", 23); ("BYR", 24);
    ("BZD", 25); ("CAD", 26); ("CDF", 27); ("CHE", 28); ("CHF", 29); ("CHW", 30); ("CLF", 31); ("CLP", 32);
    ("CNY", 33); ("COP", 34); ("COU", 35); ("CRC", 36); ("CUC", 37); ("CUP", 38); ("CVE", 39); ("CZK", 40);
    ("DJF", 41); ("DKK", 42); ("DOP", 43); ("DZD", 44); ("EGP", 45); ("ERN", 46); ("ETB", 47); ("EUR", 48);
    ("FJD", 49); ("FKP", 50); ("GBP", 51); ("GEL", 52); ("GHS", 53); ("GIP", 54); ("GMD", 55); ("GNF", 56);
    ("GTQ", 57); ("GYD", 58); ("HKD", 59); ("HNL", 60); ("HRK", 61); ("HTG", 62); ("HUF", 63); ("IDR", 64);
    ("ILS", 65); ("INR", 66); ("IQD", 67); ("IRR", 68); ("ISK", 69); ("JMD", 70); ("JOD", 71); ("JPY", 72);
    ("KES", 73); ("KGS", 74); ("KHR", 75); ("KMF", 76); ("KPW", 77); ("KRW", 78); ("KWD", 79); ("KYD", 80);
    ("KZT", 81); ("LAK", 82); ("LBP", 83); ("LKR", 84); ("LRD", 85); ("LSL", 86); ("LYD", 87); ("MAD", 88);
    ("MDL", 89); ("MGA", 90); ("MKD", 91); ("MMK", 92); ("MNT", 93); ("MOP", 94); ("MRO", 95); ("MUR", 96);
    ("MVR", 97); ("MWK", 98); ("MXN", 99); ("MXV", 100); ("MYR", 101); ("MZN", 102); ("NAD", 103); ("NGN",
    104); ("NIO", 105); ("NOK", 106); ("NPR", 107); ("NZD", 108); ("OMR", 109); ("PAB", 110); ("PEN", 111);
    ("PGK", 112); ("PHP", 113); ("PKR", 114); ("PLN", 115); ("PYG", 116); ("QAR", 117); ("RON", 118); ("RSD",
    119); ("RUB", 120); ("RWF", 121); ("SAR", 122); ("SBD", 123); ("SCR", 124); ("SDG", 125); ("SEK", 126);
    ("SGD", 127); ("SHP", 128); ("SLL", 129); ("SOS", 130); ("SRD", 131); ("SSP", 132); ("STD", 133); ("SVC",
    134); ("SYP", 135); ("SZL", 136); ("THB", 137); ("TJS", 138); ("TMT", 139); ("TND", 140); ("TOP", 141);
    ("TRY", 142); ("TTD", 143); ("TWD", 144); ("TZS", 145); ("UAH", 146); ("UGX", 147); ("USD", 148); ("USN",
    149); ("UYI", 150); ("UYU", 151); ("UZS", 152); ("VEF", 153); ("VND", 154); ("VUV", 155); ("WST", 156);
    ("XAF", 157); ("XAG", 158); ("XAU", 159); ("XBA", 160); ("XBB", 161); ("XBC", 162); ("XBD", 163); ("XCD",
    164); ("XDR", 165); ("XOF", 166); ("XPD", 167); ("XPF", 168); ("XPT", 169); ("XSU", 170); ("XTS", 171);
    ("XUA", 172); ("XXX", 173); ("YER", 174); ("ZAR", 175); ("ZMW", 176); ("ZWL", 177) ].

Definition scope_type_lut : list (string * Z) :=
  [ ("ac", 0); ("acCosPhiGrid", 1); ("acCurrentA", 2); ("acCurrentB", 3); ("acCurrentC", 4); ("acFrequency",
    5); ("acFrequencyGrid", 6); ("acPowerA", 7); ("acPowerB", 8); ("acPowerC", 9); ("acPowerLimitPct", 10);
    ("acPowerTotal", 11); ("acVoltageA", 12); ("acVoltageB", 13); ("acVoltageC", 14); ("acYieldDay", 15);
    ("acYieldTotal", 16); ("dcCurrent", 17); ("dcPower", 18); ("dcString1", 19); ("dcString2", 20);
    ("dcString3", 21); ("dcString4", 22); ("dcString5", 23); ("dcString6", 24); ("dcTotal", 25); ("dcVoltage",
    26); ("dhwTemperature", 27); ("flowTemperature", 28); ("outsideAirTemperature", 29); ("returnTemperature",
    30); ("roomAirTemperature", 31); ("charge", 32); ("stateOfCharge", 33); ("discharge", 34);
    ("gridConsumption", 35); ("gridFeedIn", 36); ("selfConsumption", 37); ("overloadProtection", 38);
    ("acPower", 39); ("acEnergy", 40); ("acCurrent", 41); ("acVoltage", 42); ("batteryControl", 43);
    ("simpleIncentiveTable", 44); ("stateOfHealth", 45); ("travelRange", 46); ("nominalEnergyCapacity", 47);
    ("acPowerReal", 48); ("acPowerApparent", 49); ("acPowerReactive", 50); ("acYieldMonth", 51);
    ("acYieldYear", 52); ("acCosPhi", 53); ("dcEnergy", 54); ("insulationResistance", 55); ("stateOfEnergy",
    56); ("useableCapacity", 57); ("dcChargeEnergy", 58); ("dcDischargeEnergy", 59); ("loadCycleCount", 60);
    ("componentTemperature", 61); ("gridLimit", 62); ("gridLimitFallback", 63); ("acPowerApparentTotal", 64);
    ("acPowerReactiveTotal", 65); ("acCurrentTotal", 66); ("acEnergyConsumed", 67); ("acEnergyProduced", 68);
    ("batteryAcPower", 69); ("batteryAcPowerPhaseSpecific", 70); ("batteryDcPower", 71); ("pccPower", 72);
    ("activePowerLimit", 73); ("activePowerLimitPercentage", 74); ("simpleCommittedIncentiveTable", 75);
    ("simplePreliminaryIncentiveTable", 76); ("committedPowerPlan", 77); ("preliminaryPowerPlan", 78);
    ("incentiveTableEnConsWithPoETF", 79); ("incentiveTableEnProdWithPoETF", 80);
    ("incentiveTableEnConsWithPoE", 81); ("incentiveTableEnProdWithPoE", 82); ("incentiveTableEnConsWithTF",
    83); ("incentiveTableEnProdWithTF", 84); ("activePowerForecast", 85) ].

(** ** [actuator_level_types.inc] *)

Definition actuator_level_fct_lut : list (string * Z) :=
  [ ("start", 0); ("up", 1); ("down", 2); ("stop", 3); ("percentageAbsolute", 4); ("percentageRelative", 5);
    ("absolut", 6); ("relative", 7) ].

Definition actuator_level_data_cfg : list EebusDataCfg :=
  [ EEBUS_DATA_ENUM "function" actuator_level_fct_lut;
    EEBUS_DATA_SEQUENCE "value" scaled_number_cfg ].

Definition actuator_level_data_elements_cfg : list EebusDataCfg :=
  [ EEBUS_DATA_TAG "function";
    EEBUS_DATA_SEQUENCE "value" scaled_number_elements_cfg ].

Definition actuator_level_description_data_cfg : list EebusDataCfg :=
  [ EEBUS_DATA_STRING "label";
    EEBUS_DATA_STRING "description";
    EEBUS_DATA_ENUM "levelDefaultUnit" unit_of_measurement_lut ].

Definition actuator_level_description_data_elements_cfg : list EebusDataCfg :=
  [ EEBUS_DATA_TAG "label";
    EEBUS_DATA_TAG "description";
    EEBUS_DATA_TAG "levelDefaultUnit" ].

(** ** [actuator_switch_types.inc] *)

Definition actuator_switch_fct_lut : list (string * Z) :=
  [ ("on", 0); ("off", 1); ("toggle", 2) ].

Definition actuator_switch_data_cfg : list EebusDataCfg :=
  [ EEBUS_DATA_ENUM "function" actuator_switch_fct_lut ].

Definition actuator_switch_data_elements_cfg : list EebusDataCfg :=
  [ EEBUS_DATA_TAG "function" ].

Definition actuator_switch_description_data_cfg : list EebusDataCfg :=
  [ EEBUS_DATA_STRING "label";
    EEBUS_DATA_STRING "description" ].

Definition actuator_switch_description_data_elements_cfg : list EebusDataCfg :=
  [ EEBUS_DATA_TAG "label";
    EEBUS_DATA_TAG "description" ].

(** ** [alarm_types.inc] *)

Definition alarm_type_lut : list (string * Z) :=
  [ ("alarmCancelled", 0); ("underThreshold", 1); ("overThreshold", 2) ].

Definition alarm_data_cfg : list EebusDataCfg :=
  [ EEBUS_DATA_UINT32_WITH_FLAGS "alarmId" kEebusDataFlagIsIdentifier;
    EEBUS_DATA_UINT32 "thresholdId";
    EEBUS_DATA_ABSOLUTE_OR_RELATIVE_TIME "timestamp";
    EEBUS_DATA_ENUM "alarmType" alarm_type_lut;
    EEBUS_DATA_SEQUENCE "measuredValue" scaled_number_cfg;
    EEBUS_DATA_SEQUENCE "evaluationPeriod" time_period_cfg;
    EEBUS_DATA_ENUM "scopeType" scope_type_lut;
    EEBUS_DATA_STRING "label";
    EEBUS_DATA_STRING "description" ].

Definition alarm_data_elements_cfg : list EebusDataCfg :=
  [ EEBUS_DATA_TAG "alarmId";
    EEBUS_DATA_TAG "thresholdId";
    EEBUS_DATA_TAG "timestamp";
    EEBUS_DATA_TAG "alarmType";
    EEBUS_DATA_SEQUENCE "measuredValue" scaled_number_elements_cfg;
    EEBUS_DATA_SEQUENCE "evaluationPeriod" time_period_elements_cfg;
    EEBUS_DATA_TAG "scopeType";
    EEBUS_DATA_TAG "label";
    EEBUS_DATA_TAG "description" ].

Definition alarm_list_data_element_data_cfg : EebusDataCfg := Sequence "" 0 alarm_data_cfg.

Definition alarm_list_data_cfg : list EebusDataCfg :=
  [ EEBUS_DATA_LIST "alarmListData" alarm_list_data_element_data_cfg ].

Definition alarm_list_data_selectors_cfg : list EebusDataCfg :=
  [ EEBUS_DATA_UINT32 "alarmId";
    EEBUS_DATA_ENUM "scopeType" scope_type_lut ].

(** ** [bill_types.inc] *)

Definition bill_type_lut : list (string * Z) :=
  [ ("chargingSummary", 0) ].

Definition bill_position_type_lut : list (string * Z) :=
  [ ("gridElectricEnergy", 0); ("selfProducedElectricEnergy", 1) ].

Definition bill_cost_type_lut : list (string * Z) :=
  [ ("absolutePrice", 0); ("relativePrice", 1); ("co2Emission", 2); ("renewableEnergy", 3);
    ("radioactiveWaste", 4) ].

Definition bill_value_cfg : list EebusDataCfg :=
  [ EEBUS_DATA_UINT32 "valueId";
    EEBUS_DATA_ENUM "unit" unit_of_measurement_lut;
    EEBUS_DATA_SEQUENCE "value" scaled_number_cfg;
    EEBUS_DATA_SEQUENCE "valuePercentage" scaled_number_cfg ].

Definition bill_value_elements_cfg : list EebusDataCfg :=
  [ EEBUS_DATA_TAG "valueId";
    EEBUS_DATA_TAG "unit";
    EEBUS_DATA_TAG "value";
    EEBUS_DATA_TAG "valuePercentage" ].

Definition bill_cost_cfg : list EebusDataCfg :=
  [ EEBUS_DATA_UINT32 "costId";
    EEBUS_DATA_ENUM "costType" bill_cost_type_lut;
    EEBUS_DATA_UINT32 "valueId";
    EEBUS_DATA_ENUM "unit" unit_of_measurement_lut;
    EEBUS_DATA_ENUM "currency" currency_lut;
    EEBUS_DATA_SEQUENCE "cost" scaled_number_cfg;
    EEBUS_DATA_SEQUENCE "costPercentage" scaled_number_cfg ].

Definition bill_cost_elements_cfg : list EebusDataCfg :=
  [ EEBUS_DATA_TAG "costId";
    EEBUS_DATA_TAG "costType";
    EEBUS_DATA_TAG "valueId";
    EEBUS_DATA_TAG "unit";
    EEBUS_DATA_TAG "currency";
    EEBUS_DATA_SEQUENCE "cost" scaled_number_elements_cfg;
    EEBUS_DATA_SEQUENCE "costPercentage" scaled_number_elements_cfg ].

Definition bill_position_cfg : list EebusDataCfg :=
  [ EEBUS_DATA_UINT32 "positionId";
    EEBUS_DATA_ENUM "positionType" bill_position_type_lut;
    EEBUS_DATA_SEQUENCE "timePeriod" time_period_cfg;
    EEBUS_DATA_SEQUENCE "value" bill_value_cfg;
    EEBUS_DATA_SEQUENCE "cost" bill_cost_cfg;
    EEBUS_DATA_STRING "label";
    EEBUS_DATA_STRING "description" ].

Definition bill_position_elements_cfg : list EebusDataCfg :=
  [ EEBUS_DATA_TAG "positionId";
    EEBUS_DATA_TAG "positionType";
    EEBUS_DATA_SEQUENCE "timePeriod" time_period_elements_cfg;
    EEBUS_DATA_SEQUENCE "value" bill_value_elements_cfg;
    EEBUS_DATA_SEQUENCE "cost" bill_cost_elements_cfg;
    EEBUS_DATA_TAG "label";
    EEBUS_DATA_TAG "description" ].

Definition position_element_data_cfg : EebusDataCfg := Sequence "" 0 bill_position_cfg.

Definition bill_data_cfg : list EebusDataCfg :=
  [ EEBUS_DATA_UINT32_WITH_FLAGS "billId" kEebusDataFlagIsIdentifier;
    EEBUS_DATA_ENUM "billType" bill_type_lut;
    EEBUS_DATA_ENUM "scopeType" scope_type_lut;
    EEBUS_DATA_SEQUENCE "total" bill_position_cfg;
    EEBUS_DATA_LIST "position" position_element_data_cfg ].

Definition bill_data_elements_cfg : list EebusDataCfg :=
  [ EEBUS_DATA_TAG "billId";
    EEBUS_DATA_TAG "billType";
    EEBUS_DATA_TAG "scopeType";
    EEBUS_DATA_SEQUENCE "total" bill_position_elements_cfg;
    EEBUS_DATA_SEQUENCE "position" bill_position_elements_cfg ].

Definition bill_data_element_data_cfg : EebusDataCfg := Sequence "" 0 bill_data_cfg.

Definition bill_list_data_cfg : list EebusDataCfg :=
  [ EEBUS_DATA_LIST "billData" bill_data_element_data_cfg ].

Definition bill_list_data_selectors_cfg : list EebusDataCfg :=
  [ EEBUS_DATA_UINT32 "billId";
    EEBUS_DATA_ENUM "scopeType" scope_type_lut ].

Definition bill_constraints_data_cfg : list EebusDataCfg :=
  [ EEBUS_DATA_UINT32_WITH_FLAGS "billId" kEebusDataFlagIsIdentifier;
    EEBUS_DATA_UINT32 "positionCountMin";
    EEBUS_DATA_UINT32 "positionCountMax" ].

Definition bill_constraints_data_elements_cfg : list EebusDataCfg :=
  [ EEBUS_DATA_TAG "billId";
    EEBUS_DATA_TAG "positionCountMin";
    EEBUS_DATA_TAG "positionCountMax" ].

Definition bill_constraints_data_element_data_cfg : EebusDataCfg := Sequence "" 0 bill_constraints_data_cfg.

Definition bill_constraints_list_data_cfg : list EebusDataCfg :=
  [ EEBUS_DATA_LIST "billConstraintsData" bill_constraints_data_element_data_cfg ].

Definition bill_constraints_list_data_selectors_cfg : list EebusDataCfg :=
  [ EEBUS_DATA_UINT32 "billId" ].

Definition supported_bill_type_element_data_cfg : EebusDataCfg := Simple "" 0 (KEnum bill_type_lut).

Definition bill_description_data_cfg : list EebusDataCfg :=
  [ EEBUS_DATA_UINT32_WITH_FLAGS "billId" kEebusDataFlagIsIdentifier;
    EEBUS_DATA_BOOL "billWriteable";
    EEBUS_DATA_BOOL "updateRequired";
    EEBUS_DATA_LIST "supportedBillType" supported_bill_type_element_data_cfg;
    EEBUS_DATA_UINT32 "sessionId" ].

Definition bill_description_data_elements_cfg : list EebusDataCfg :=
  [ EEBUS_DATA_TAG "billId";
    EEBUS_DATA_TAG "billWriteable";
    EEBUS_DATA_TAG "updateRequired";
    EEBUS_DATA_TAG "supportedBillType";
    EEBUS_DATA_TAG "sessionId" ].

Definition bill_description_data_element_data_cfg : EebusDataCfg := Sequence "" 0 bill_description_data_cfg.

Definition bill_description_list_data_cfg : list EebusDataCfg :=
  [ EEBUS_DATA_LIST "billDescriptionData" bill_description_data_element_data_cfg ].

Definition bill_description_list_data_selectors_cfg : list EebusDataCfg :=
  [ EEBUS_DATA_UINT32 "billId" ].

(** ** [feature_types.inc] *)

Definition entity_element_data_cfg : EebusDataCfg := Simple "" 0 (KNumeric false 32).

Definition feature_address_cfg : list EebusDataCfg :=
  [ EEBUS_DATA_STRING "device";
    EEBUS_DATA_LIST "entity" entity_element_data_cfg;
    EEBUS_DATA_UINT32 "feature" ].

Definition feature_address_elements_cfg : list EebusDataCfg :=
  [ EEBUS_DATA_TAG "device";
    EEBUS_DATA_TAG "entity";
    EEBUS_DATA_TAG "feature" ].

Definition role_lut : list (string * Z) :=
  [ ("client", 0); ("server", 1); ("special", 2) ].

Definition feature_type_lut : list (string * Z) :=
  [ ("ActuatorLevel", 0); ("ActuatorSwitch", 1); ("Alarm", 2); ("DataTunneling", 3); ("DeviceClassification",
    4); ("DeviceDiagnosis", 5); ("DirectControl", 6); ("ElectricalConnection", 7); ("Generic", 8); ("HVAC",
    9); ("LoadControl", 10); ("Measurement", 11); ("Messaging", 12); ("NetworkManagement", 13);
    ("NodeManagement", 14); ("OperatingConstraints", 15); ("PowerSequences", 16); ("Sensing", 17);
    ("Setpoint", 18); ("SmartEnergyManagementPs", 19); ("TaskManagement", 20); ("Threshold", 21);
    ("TimeInformation", 22); ("TimeTable", 23); ("DeviceConfiguration", 24); ("SupplyCondition", 25);
    ("TimeSeries", 26); ("TariffInformation", 27); ("IncentiveTable", 28); ("Bill", 29); ("Identification",
    30); ("StateInformation", 31) ].

Definition feature_specific_usage_lut : list (string * Z) :=
  [ ("History", 0); ("RealTime", 1); ("OperationMode", 2); ("Overrun", 3); ("Contact", 4); ("Electrical", 5);
    ("Heat", 6); ("Level", 7); ("Pressure", 8); ("Temperature", 9); ("FixedForecast", 10);
    ("FlexibleChosenForecast", 11); ("FlexibleOptionalForecast", 12);
    ("OptionalSequenceBasedImmediateControl", 13) ].

(** ** [binding_management_types.inc] *)

Definition binding_management_entry_data_cfg : list EebusDataCfg :=
  [ EEBUS_DATA_UINT32_WITH_FLAGS "bindingId" kEebusDataFlagIsIdentifier;
    EEBUS_DATA_SEQUENCE "clientAddress" feature_address_cfg;
    EEBUS_DATA_SEQUENCE "serverAddress" feature_address_cfg;
    EEBUS_DATA_STRING "label";
    EEBUS_DATA_STRING "description" ].

Definition binding_management_entry_data_elements_cfg : list EebusDataCfg :=
  [ EEBUS_DATA_TAG "bindingId";
    EEBUS_DATA_TAG "clientAddress";
    EEBUS_DATA_TAG "serverAddress";
    EEBUS_DATA_TAG "label";
    EEBUS_DATA_TAG "description" ].

Definition binding_management_entry_data_element_data_cfg : EebusDataCfg :=
  Sequence "" 0 binding_management_entry_data_cfg.

Definition binding_management_entry_list_data_cfg : list EebusDataCfg :=
  [ EEBUS_DATA_LIST "bindingManagementEntryData" binding_management_entry_data_element_data_cfg ].

Definition binding_management_entry_list_data_selectors_cfg : list EebusDataCfg :=
  [ EEBUS_DATA_UINT32 "bindingId";
    EEBUS_DATA_SEQUENCE "clientAddress" feature_address_cfg;
    EEBUS_DATA_SEQUENCE "serverAddress" feature_address_cfg ].

Definition binding_management_request_call_cfg : list EebusDataCfg :=
  [ EEBUS_DATA_SEQUENCE "clientAddress" feature_address_cfg;
    EEBUS_DATA_SEQUENCE "serverAddress" feature_address_cfg;
    EEBUS_DATA_ENUM "serverFeatureType" feature_type_lut ].

Definition binding_management_request_call_elements_cfg : list EebusDataCfg :=
  [ EEBUS_DATA_TAG "clientAddress";
    EEBUS_DATA_TAG "serverAddress";
    EEBUS_DATA_TAG "serverFeatureType" ].

Definition binding_management_delete_call_cfg : list EebusDataCfg :=
  [ EEBUS_DATA_UINT32 "bindingId";
    EEBUS_DATA_SEQUENCE "clientAddress" feature_address_cfg;
    EEBUS_DATA_SEQUENCE "serverAddress" feature_address_cfg ].

Definition binding_management_delete_call_elements_cfg : list EebusDataCfg :=
  [ EEBUS_DATA_TAG "bindingId";
    EEBUS_DATA_TAG "clientAddress";
    EEBUS_DATA_TAG "serverAddress" ].

(** ** [tariff_information_types.inc] *)

Definition tier_boundary_type_lut : list (string * Z) :=
  [ ("powerBoundary", 0); ("energyBoundary", 1); ("countBoundary", 2) ].

Definition tier_type_lut : list (string * Z) :=
  [ ("fixedCost", 0); ("dynamicCost", 1) ].

Definition incentive_type_lut : list (string * Z) :=
  [ ("absoluteCost", 0); ("relativeCost", 1); ("renewableEnergyPercentage", 2); ("co2Emission", 3) ].

Definition incentive_value_type_lut : list (string * Z) :=
  [ ("value", 0); ("averageValue", 1); ("minValue", 2); ("maxValue", 3) ].

Definition tariff_overall_constraints_data_cfg : list EebusDataCfg :=
  [ EEBUS_DATA_UINT32 "maxTariffCount";
    EEBUS_DATA_UINT32 "maxBoundaryCount";
    EEBUS_DATA_UINT32 "maxTierCount";
    EEBUS_DATA_UINT32 "maxIncentiveCount";
    EEBUS_DATA_UINT32 "maxBoundariesPerTariff";
    EEBUS_DATA_UINT32 "maxTiersPerTariff";
    EEBUS_DATA_UINT32 "maxBoundariesPerTier";
    EEBUS_DATA_UINT32 "maxIncentivesPerTier" ].

Definition tariff_overall_constraints_data_elements_cfg : list EebusDataCfg :=
  [ EEBUS_DATA_TAG "maxTariffCount";
    EEBUS_DATA_TAG "maxBoundaryCount";
    EEBUS_DATA_TAG "maxTierCount";
    EEBUS_DATA_TAG "maxIncentiveCount";
    EEBUS_DATA_TAG "maxBoundariesPerTariff";
    EEBUS_DATA_TAG "maxTiersPerTariff";
    EEBUS_DATA_TAG "maxBoundariesPerTier";
    EEBUS_DATA_TAG "maxIncentivesPerTier" ].

Definition active_tier_id_element_data_cfg : EebusDataCfg := Simple "" 0 (KNumeric false 32).

Definition tariff_data_cfg : list EebusDataCfg :=
  [ EEBUS_DATA_UINT32_WITH_FLAGS "tariffId" kEebusDataFlagIsIdentifier;
    EEBUS_DATA_LIST "activeTierId" active_tier_id_element_data_cfg ].

Definition tariff_data_elements_cfg : list EebusDataCfg :=
  [ EEBUS_DATA_TAG "tariffId";
    EEBUS_DATA_TAG "activeTierId" ].

Definition tariff_data_element_data_cfg : EebusDataCfg := Sequence "" 0 tariff_data_cfg.

Definition tariff_list_data_cfg : list EebusDataCfg :=
  [ EEBUS_DATA_LIST "tariffData" tariff_data_element_data_cfg ].

Definition tariff_list_data_selectors_cfg : list EebusDataCfg :=
  [ EEBUS_DATA_UINT32 "tariffId";
    EEBUS_DATA_UINT32 "activeTierId" ].

Definition tier_id_element_data_cfg : EebusDataCfg := Simple "" 0 (KNumeric false 32).

Definition tariff_tier_relation_data_cfg : list EebusDataCfg :=
  [ EEBUS_DATA_UINT32_WITH_FLAGS "tariffId" kEebusDataFlagIsIdentifier;
    EEBUS_DATA_LIST "tierId" tier_id_element_data_cfg ].

Definition tariff_tier_relation_data_elements_cfg : list EebusDataCfg :=
  [ EEBUS_DATA_TAG "tariffId";
    EEBUS_DATA_TAG "tierId" ].

Definition tariff_tier_relation_data_element_data_cfg : EebusDataCfg :=
  Sequence "" 0 tariff_tier_relation_data_cfg.

Definition tariff_tier_relation_list_data_cfg : list EebusDataCfg :=
  [ EEBUS_DATA_LIST "tariffTierRelationData" tariff_tier_relation_data_element_data_cfg ].

Definition tariff_tier_relation_list_data_selectors_cfg : list EebusDataCfg :=
  [ EEBUS_DATA_UINT32 "tariffId";
    EEBUS_DATA_UINT32 "tierId" ].

Definition boundary_id_element_data_cfg : EebusDataCfg := Simple "" 0 (KNumeric false 32).

Definition tariff_boundary_relation_data_cfg : list EebusDataCfg :=
  [ EEBUS_DATA_UINT32_WITH_FLAGS "tariffId" kEebusDataFlagIsIdentifier;
    EEBUS_DATA_LIST "boundaryId" boundary_id_element_data_cfg ].

Definition tariff_boundary_relation_data_elements_cfg : list EebusDataCfg :=
  [ EEBUS_DATA_TAG "tariffId";
    EEBUS_DATA_TAG "boundaryId" ].

Definition tariff_boundary_relation_data_element_data_cfg : EebusDataCfg :=
  Sequence "" 0 tariff_boundary_relation_data_cfg.

Definition tariff_boundary_relation_list_data_cfg : list EebusDataCfg :=
  [ EEBUS_DATA_LIST "tariffBoundaryRelationData" tariff_boundary_relation_data_element_data_cfg ].

Definition tariff_boundary_relation_list_data_selectors_cfg : list EebusDataCfg :=
  [ EEBUS_DATA_UINT32 "tariffId";
    EEBUS_DATA_UINT32 "boundaryId" ].

Definition tariff_description_data_cfg : list EebusDataCfg :=
  [ EEBUS_DATA_UINT32_WITH_FLAGS "tariffId" kEebusDataFlagIsIdentifier;
    EEBUS_DATA_UINT32 "commodityId";
    EEBUS_DATA_UINT32 "measurementId";
    EEBUS_DATA_BOOL "tariffWriteable";
    EEBUS_DATA_BOOL "updateRequired";
    EEBUS_DATA_ENUM "scopeType" scope_type_lut;
    EEBUS_DATA_STRING "label";
    EEBUS_DATA_STRING "description";
    EEBUS_DATA_BOOL "slotIdSupport" ].

Definition tariff_description_data_elements_cfg : list EebusDataCfg :=
  [ EEBUS_DATA_TAG "tariffId";
    EEBUS_DATA_TAG "commodityId";
    EEBUS_DATA_TAG "measurementId";
    EEBUS_DATA_TAG "tariffWriteable";
    EEBUS_DATA_TAG "updateRequired";
    EEBUS_DATA_TAG "scopeType";
    EEBUS_DATA_TAG "label";
    EEBUS_DATA_TAG "description";
    EEBUS_DATA_TAG "slotIdSupport" ].

Definition tariff_description_data_element_data_cfg : EebusDataCfg := Sequence "" 0 tariff_description_data_cfg.

Definition tariff_description_list_data_cfg : list EebusDataCfg :=
  [ EEBUS_DATA_LIST "tariffDescriptionData" tariff_description_data_element_data_cfg ].

Definition tariff_description_list_data_selectors_cfg : list EebusDataCfg :=
  [ EEBUS_DATA_UINT32 "tariffId";
    EEBUS_DATA_UINT32 "commodityId";
    EEBUS_DATA_UINT32 "measurementId";
    EEBUS_DATA_ENUM "scopeType" scope_type_lut ].

Definition tier_boundary_data_cfg : list EebusDataCfg :=
  [ EEBUS_DATA_UINT32_WITH_FLAGS "boundaryId" kEebusDataFlagIsIdentifier;
    EEBUS_DATA_SEQUENCE "timePeriod" time_period_cfg;
    EEBUS_DATA_UINT32 "timeTableId";
    EEBUS_DATA_SEQUENCE "lowerBoundaryValue" scaled_number_cfg;
    EEBUS_DATA_SEQUENCE "upperBoundaryValue" scaled_number_cfg ].

Definition tier_boundary_data_elements_cfg : list EebusDataCfg :=
  [ EEBUS_DATA_TAG "boundaryId";
    EEBUS_DATA_SEQUENCE "timePeriod" time_period_elements_cfg;
    EEBUS_DATA_TAG "timeTableId";
    EEBUS_DATA_SEQUENCE "lowerBoundaryValue" scaled_number_elements_cfg;
    EEBUS_DATA_SEQUENCE "upperBoundaryValue" scaled_number_elements_cfg ].

Definition tier_boundary_data_element_data_cfg : EebusDataCfg := Sequence "" 0 tier_boundary_data_cfg.

Definition tier_boundary_list_data_cfg : list EebusDataCfg :=
  [ EEBUS_DATA_LIST "tierBoundaryData" tier_boundary_data_element_data_cfg ].

Definition tier_boundary_list_data_selectors_cfg : list EebusDataCfg :=
  [ EEBUS_DATA_UINT32 "boundaryId" ].

Definition tier_boundary_description_data_cfg : list EebusDataCfg :=
  [ EEBUS_DATA_UINT32_WITH_FLAGS "boundaryId" kEebusDataFlagIsIdentifier;
    EEBUS_DATA_ENUM "boundaryType" tier_boundary_type_lut;
    EEBUS_DATA_UINT32 "validForTierId";
    EEBUS_DATA_UINT32 "switchToTierIdWhenLower";
    EEBUS_DATA_UINT32 "switchToTierIdWhenHigher";
    EEBUS_DATA_ENUM "boundaryUnit" unit_of_measurement_lut;
    EEBUS_DATA_STRING "label";
    EEBUS_DATA_STRING "description" ].

Definition tier_boundary_description_data_elements_cfg : list EebusDataCfg :=
  [ EEBUS_DATA_TAG "boundaryId";
    EEBUS_DATA_TAG "boundaryType";
    EEBUS_DATA_TAG "validForTierId";
    EEBUS_DATA_TAG "switchToTierIdWhenLower";
    EEBUS_DATA_TAG "switchToTierIdWhenHigher";
    EEBUS_DATA_TAG "boundaryUnit";
    EEBUS_DATA_TAG "label";
    EEBUS_DATA_TAG "description" ].

Definition tier_boundary_description_data_element_data_cfg : EebusDataCfg :=
  Sequence "" 0 tier_boundary_description_data_cfg.

Definition tier_boundary_description_list_data_cfg : list EebusDataCfg :=
  [ EEBUS_DATA_LIST "tierBoundaryDescriptionData" tier_boundary_description_data_element_data_cfg ].

Definition tier_boundary_description_list_data_selectors_cfg : list EebusDataCfg :=
  [ EEBUS_DATA_UINT32 "boundaryId";
    EEBUS_DATA_ENUM "boundaryType" tier_boundary_type_lut ].

Definition commodity_data_cfg : list EebusDataCfg :=
  [ EEBUS_DATA_UINT32_WITH_FLAGS "commodityId" kEebusDataFlagIsIdentifier;
    EEBUS_DATA_ENUM "commodityType" commodity_type_lut;
    EEBUS_DATA_ENUM "positiveEnergyDirection" energy_direction_lut;
    EEBUS_DATA_STRING "label";
    EEBUS_DATA_STRING "description" ].

Definition commodity_data_elements_cfg : list EebusDataCfg :=
  [ EEBUS_DATA_TAG "commodityId";
    EEBUS_DATA_TAG "commodityType";
    EEBUS_DATA_TAG "positiveEnergyDirection";
    EEBUS_DATA_TAG "label";
    EEBUS_DATA_TAG "description" ].

Definition commodity_data_element_data_cfg : EebusDataCfg := Sequence "" 0 commodity_data_cfg.

Definition commodity_list_data_cfg : list EebusDataCfg :=
  [ EEBUS_DATA_LIST "commodityData" commodity_data_element_data_cfg ].

Definition commodity_list_data_selectors_cfg : list EebusDataCfg :=
  [ EEBUS_DATA_UINT32 "commodityId";
    EEBUS_DATA_ENUM "commodityType" commodity_type_lut ].

Definition active_incentive_id_element_data_cfg : EebusDataCfg := Simple "" 0 (KNumeric false 32).

Definition tier_data_cfg : list EebusDataCfg :=
  [ EEBUS_DATA_UINT32_WITH_FLAGS "tierId" kEebusDataFlagIsIdentifier;
    EEBUS_DATA_SEQUENCE "timePeriod" time_period_cfg;
    EEBUS_DATA_UINT32 "timeTableId";
    EEBUS_DATA_LIST "activeIncentiveId" active_incentive_id_element_data_cfg ].

Definition tier_data_elements_cfg : list EebusDataCfg :=
  [ EEBUS_DATA_TAG "tierId";
    EEBUS_DATA_TAG "timePeriod";
    EEBUS_DATA_TAG "timeTableId";
    EEBUS_DATA_TAG "activeIncentiveId" ].

Definition tier_data_element_data_cfg : EebusDataCfg := Sequence "" 0 tier_data_cfg.

Definition tier_list_data_cfg : list EebusDataCfg :=
  [ EEBUS_DATA_LIST "tierData" tier_data_element_data_cfg ].

Definition tier_list_data_selectors_cfg : list EebusDataCfg :=
  [ EEBUS_DATA_UINT32 "tierId";
    EEBUS_DATA_UINT32 "activeIncentiveId" ].

Definition incentive_id_element_data_cfg : EebusDataCfg := Simple "" 0 (KNumeric false 32).

Definition tier_incentive_relation_data_cfg : list EebusDataCfg :=
  [ EEBUS_DATA_UINT32_WITH_FLAGS "tierId" kEebusDataFlagIsIdentifier;
    EEBUS_DATA_LIST "incentiveId" incentive_id_element_data_cfg ].

Definition tier_incentive_relation_data_elements_cfg : list EebusDataCfg :=
  [ EEBUS_DATA_TAG "tierId";
    EEBUS_DATA_TAG "incentiveId" ].

Definition tier_incentive_relation_data_element_data_cfg : EebusDataCfg :=
  Sequence "" 0 tier_incentive_relation_data_cfg.

Definition tier_incentive_relation_list_data_cfg : list EebusDataCfg :=
  [ EEBUS_DATA_LIST "tierIncentiveRelationData" tier_incentive_relation_data_element_data_cfg ].

Definition tier_incentive_relation_list_data_selectors_cfg : list EebusDataCfg :=
  [ EEBUS_DATA_UINT32 "tierId";
    EEBUS_DATA_UINT32 "incentiveId" ].

Definition tier_description_data_cfg : list EebusDataCfg :=
  [ EEBUS_DATA_UINT32_WITH_FLAGS "tierId" kEebusDataFlagIsIdentifier;
    EEBUS_DATA_ENUM "tierType" tier_type_lut;
    EEBUS_DATA_STRING "label";
    EEBUS_DATA_STRING "description" ].

Definition tier_description_data_elements_cfg : list EebusDataCfg :=
  [ EEBUS_DATA_TAG "tierId";
    EEBUS_DATA_TAG "tierType";
    EEBUS_DATA_TAG "label";
    EEBUS_DATA_TAG "description" ].

Definition tier_description_data_element_data_cfg : EebusDataCfg := Sequence "" 0 tier_description_data_cfg.

Definition tier_description_list_data_cfg : list EebusDataCfg :=
  [ EEBUS_DATA_LIST "tierDescriptionData" tier_description_data_element_data_cfg ].

Definition tier_description_list_data_selectors_cfg : list EebusDataCfg :=
  [ EEBUS_DATA_UINT32 "tierId";
    EEBUS_DATA_ENUM "tierType" tier_type_lut ].

Definition incentive_data_cfg : list EebusDataCfg :=
  [ EEBUS_DATA_UINT32_WITH_FLAGS "incentiveId" kEebusDataFlagIsIdentifier;
    EEBUS_DATA_ENUM "valueType" incentive_value_type_lut;
    EEBUS_DATA_ABSOLUTE_OR_RELATIVE_TIME "timestamp";
    EEBUS_DATA_SEQUENCE "timePeriod" time_period_cfg;
    EEBUS_DATA_UINT32 "timeTableId";
    EEBUS_DATA_SEQUENCE "value" scaled_number_cfg ].

Definition incentive_data_elements_cfg : list EebusDataCfg :=
  [ EEBUS_DATA_TAG "incentiveId";
    EEBUS_DATA_TAG "valueType";
    EEBUS_DATA_TAG "timestamp";
    EEBUS_DATA_SEQUENCE "timePeriod" time_period_elements_cfg;
    EEBUS_DATA_TAG "timeTableId";
    EEBUS_DATA_SEQUENCE "value" scaled_number_elements_cfg ].

Definition incentive_data_element_data_cfg : EebusDataCfg := Sequence "" 0 incentive_data_cfg.

Definition incentive_list_data_cfg : list EebusDataCfg :=
  [ EEBUS_DATA_LIST "incentiveData" incentive_data_element_data_cfg ].

Definition incentive_list_data_selectors_cfg : list EebusDataCfg :=
  [ EEBUS_DATA_UINT32 "incentiveId";
    EEBUS_DATA_ENUM "valueType" incentive_value_type_lut;
    EEBUS_DATA_SEQUENCE "timestampInterval" timestamp_interval_cfg ].

Definition incentive_description_data_cfg : list EebusDataCfg :=
  [ EEBUS_DATA_UINT32_WITH_FLAGS "incentiveId" kEebusDataFlagIsIdentifier;
    EEBUS_DATA_ENUM "incentiveType" incentive_type_lut;
    EEBUS_DATA_UINT32 "incentivePriority";
    EEBUS_DATA_ENUM "currency" currency_lut;
    EEBUS_DATA_ENUM "unit" unit_of_measurement_lut;
    EEBUS_DATA_STRING "label";
    EEBUS_DATA_STRING "description" ].

Definition incentive_description_data_elements_cfg : list EebusDataCfg :=
  [ EEBUS_DATA_TAG "incentiveId";
    EEBUS_DATA_TAG "incentiveType";
    EEBUS_DATA_TAG "incentivePriority";
    EEBUS_DATA_TAG "currency";
    EEBUS_DATA_TAG "unit";
    EEBUS_DATA_TAG "label";
    EEBUS_DATA_TAG "description" ].

Definition incentive_description_data_element_data_cfg : EebusDataCfg :=
  Sequence "" 0 incentive_description_data_cfg.

Definition incentive_description_list_data_cfg : list EebusDataCfg :=
  [ EEBUS_DATA_LIST "incentiveDescriptionData" incentive_description_data_element_data_cfg ].

Definition incentive_description_list_data_selectors_cfg : list EebusDataCfg :=
  [ EEBUS_DATA_UINT32 "incentiveId";
    EEBUS_DATA_ENUM "incentiveType" incentive_type_lut ].

(** ** [device_configuration_types.inc] *)

Definition device_configuration_key_value_string_lut : list (string * Z) :=
  [ ("iso15118-2ed1", 0); ("iso15118-2ed2", 1); ("iec61851", 2) ].

Definition device_configuration_key_name_lut : list (string * Z) :=
  [ ("peakPowerOfPvSystem", 0); ("pvCurtailmentLimitFactor", 1); ("asymmetricChargingSupported", 2);
    ("communicationsStandard", 3); ("inverterGridCode", 4); ("pvStringAvailabilityStatus", 5);
    ("batteryAvailabilityStatus", 6); ("gridConnectionStatus", 7); ("timeToAcChargePowerMax", 8);
    ("timeToAcDischargePowerMax", 9); ("tilt", 10); ("azimuth", 11); ("batteryType", 12);
    ("maxCycleCountPerDay", 13); ("failsafeConsumptionActivePowerLimit", 14);
    ("failsafeProductionActivePowerLimit", 15); ("failsafePositiveReactivePowerLimit", 16);
    ("failsafeNegativeReactivePowerLimit", 17); ("failsafePositiveCosPhiLimit", 18);
    ("failsafeNegativeCosPhiLimit", 19); ("maxAcChargePower", 20); ("maxAcDischargePower", 21);
    ("maxDcChargePower", 22); ("maxDcDischargePower", 23); ("batteryActiveControlMode", 24);
    ("defaultAcPower", 25); ("defaultDcPower", 26); ("defaultPccPower", 27); ("failsafeAcPowerSetpoint", 28);
    ("failsafeDcPowerSetpoint", 29); ("failsafePccPowerSetpoint", 30); ("failsafeDurationMinimum", 31);
    ("dischargingBelowTargetEnergyRequestPermitted", 32); ("incentivesSimulationCyclesMax", 33);
    ("incentivesSimulationConcurrent", 34); ("incentivesTimeoutIncentiveRequest", 35);
    ("incentivesWaitIncentiveWriteable", 36) ].

Definition device_configuration_key_value_type_lut : list (string * Z) :=
  [ ("boolean", 0); ("date", 1); ("dateTime", 2); ("duration", 3); ("string", 4); ("time", 5);
    ("scaledNumber", 6); ("integer", 7) ].

Definition device_configuration_key_value_value_cfg : list EebusDataCfg :=
  [ EEBUS_DATA_BOOL "boolean";
    EEBUS_DATA_DATE "date";
    EEBUS_DATA_DATE_TIME "dateTime";
    EEBUS_DATA_DURATION "duration";
    EEBUS_DATA_ENUM "string" device_configuration_key_value_string_lut;
    EEBUS_DATA_TIME "time";
    EEBUS_DATA_SEQUENCE "scaledNumber" scaled_number_cfg;
    EEBUS_DATA_INT64 "integer" ].

Definition device_configuration_key_value_value_elements_cfg : list EebusDataCfg :=
  [ EEBUS_DATA_TAG "boolean";
    EEBUS_DATA_TAG "date";
    EEBUS_DATA_TAG "dateTime";
    EEBUS_DATA_TAG "duration";
    EEBUS_DATA_TAG "string";
    EEBUS_DATA_TAG "time";
    EEBUS_DATA_SEQUENCE "scaledNumber" scaled_number_elements_cfg ].

Definition device_configuration_key_value_data_cfg : list EebusDataCfg :=
  [ EEBUS_DATA_UINT32_WITH_FLAGS "keyId" kEebusDataFlagIsIdentifier;
    EEBUS_DATA_SEQUENCE "value" device_configuration_key_value_value_cfg;
    EEBUS_DATA_BOOL "isValueChangeable" ].

Definition device_configuration_key_value_data_elements_cfg : list EebusDataCfg :=
  [ EEBUS_DATA_TAG "keyId";
    EEBUS_DATA_SEQUENCE "value" device_configuration_key_value_value_elements_cfg;
    EEBUS_DATA_TAG "isValueChangeable" ].

Definition device_configuration_key_value_data_element_data_cfg : EebusDataCfg :=
  Sequence "" 0 device_configuration_key_value_data_cfg.

Definition device_configuration_key_value_list_data_cfg : list EebusDataCfg :=
  [ EEBUS_DATA_LIST "deviceConfigurationKeyValueData" device_configuration_key_value_data_element_data_cfg ].

Definition device_configuration_key_value_list_data_selectors_cfg : list EebusDataCfg :=
  [ EEBUS_DATA_UINT32 "keyId" ].

Definition device_configuration_key_value_description_data_cfg : list EebusDataCfg :=
  [ EEBUS_DATA_UINT32_WITH_FLAGS "keyId" kEebusDataFlagIsIdentifier;
    EEBUS_DATA_ENUM "keyName" device_configuration_key_name_lut;
    EEBUS_DATA_ENUM "valueType" device_configuration_key_value_type_lut;
    EEBUS_DATA_ENUM "unit" unit_of_measurement_lut;
    EEBUS_DATA_STRING "label";
    EEBUS_DATA_STRING "description" ].

Definition device_configuration_key_value_description_data_elements_cfg : list EebusDataCfg :=
  [ EEBUS_DATA_TAG "keyId";
    EEBUS_DATA_TAG "keyName";
    EEBUS_DATA_TAG "valueType";
    EEBUS_DATA_TAG "unit";
    EEBUS_DATA_TAG "label";
    EEBUS_DATA_TAG "description" ].

Definition device_configuration_key_value_description_data_element_data_cfg : EebusDataCfg :=
  Sequence "" 0 device_configuration_key_value_description_data_cfg.

Definition device_configuration_key_value_description_list_data_cfg : list EebusDataCfg :=
  [ EEBUS_DATA_LIST "deviceConfigurationKeyValueDescriptionData" device_configuration_key_value_description_data_element_data_cfg ].

Definition device_configuration_key_value_description_list_data_selectors_cfg : list EebusDataCfg :=
  [ EEBUS_DATA_UINT32 "keyId";
    EEBUS_DATA_ENUM "keyName" device_configuration_key_name_lut ].

Definition device_configuration_key_value_constraints_data_cfg : list EebusDataCfg :=
  [ EEBUS_DATA_UINT32_WITH_FLAGS "keyId" kEebusDataFlagIsIdentifier;
    EEBUS_DATA_SEQUENCE "valueRangeMin" device_configuration_key_value_value_cfg;
    EEBUS_DATA_SEQUENCE "valueRangeMax" device_configuration_key_value_value_cfg;
    EEBUS_DATA_SEQUENCE "valueStepSize" device_configuration_key_value_value_cfg ].

Definition device_configuration_key_value_constraints_data_elements_cfg : list EebusDataCfg :=
  [ EEBUS_DATA_TAG "keyId";
    EEBUS_DATA_SEQUENCE "valueRangeMin" device_configuration_key_value_value_elements_cfg;
    EEBUS_DATA_SEQUENCE "valueRangeMax" device_configuration_key_value_value_elements_cfg;
    EEBUS_DATA_SEQUENCE "valueStepSize" device_configuration_key_value_value_elements_cfg ].

Definition device_configuration_key_value_constraints_data_element_data_cfg : EebusDataCfg :=
  Sequence "" 0 device_configuration_key_value_constraints_data_cfg.

Definition device_configuration_key_value_constraints_list_data_cfg : list EebusDataCfg :=
  [ EEBUS_DATA_LIST "deviceConfigurationKeyValueConstraintsData" device_configuration_key_value_constraints_data_element_data_cfg ].

Definition device_configuration_key_value_constraints_list_data_selectors_cfg : list EebusDataCfg :=
  [ EEBUS_DATA_UINT32 "keyId" ].

(** ** [direct_control_types.inc] *)

Definition direct_control_activity_data_cfg : list EebusDataCfg :=
  [ EEBUS_DATA_ABSOLUTE_OR_RELATIVE_TIME "timestamp";
    EEBUS_DATA_STRING "activityState";
    EEBUS_DATA_BOOL "isActivityStateChangeable";
    EEBUS_DATA_ENUM "energyMode" energy_mode_lut;
    EEBUS_DATA_BOOL "isEnergyModeChangeable";
    EEBUS_DATA_SEQUENCE "power" scaled_number_cfg;
    EEBUS_DATA_BOOL "isPowerChangeable";
    EEBUS_DATA_SEQUENCE "energy" scaled_number_cfg;
    EEBUS_DATA_BOOL "isEnergyChangeable";
    EEBUS_DATA_UINT32 "sequence_id" ].

Definition direct_control_activity_data_elements_cfg : list EebusDataCfg :=
  [ EEBUS_DATA_TAG "timestamp";
    EEBUS_DATA_TAG "activityState";
    EEBUS_DATA_TAG "isActivityStateChangeable";
    EEBUS_DATA_TAG "energyMode";
    EEBUS_DATA_TAG "isEnergyModeChangeable";
    EEBUS_DATA_SEQUENCE "power" scaled_number_elements_cfg;
    EEBUS_DATA_TAG "isPowerChangeable";
    EEBUS_DATA_SEQUENCE "energy" scaled_number_elements_cfg;
    EEBUS_DATA_TAG "isEnergyChangeable";
    EEBUS_DATA_TAG "sequence_id" ].

Definition direct_control_activity_data_elements_element_data_cfg : EebusDataCfg :=
  Sequence "" 0 direct_control_activity_data_cfg.

Definition direct_control_activity_list_data_cfg : list EebusDataCfg :=
  [ EEBUS_DATA_LIST "directControlActivityDataElements" direct_control_activity_data_elements_element_data_cfg ].

Definition direct_control_activity_list_data_selectors_cfg : list EebusDataCfg :=
  [ EEBUS_DATA_SEQUENCE "timestampInterval" timestamp_interval_cfg ].

Definition direct_control_description_data_cfg : list EebusDataCfg :=
  [ EEBUS_DATA_ENUM "positiveEnergyDirection" energy_direction_lut;
    EEBUS_DATA_ENUM "powerUnit" unit_of_measurement_lut;
    EEBUS_DATA_ENUM "energyUnit" unit_of_measurement_lut ].

Definition direct_control_description_data_elements_cfg : list EebusDataCfg :=
  [ EEBUS_DATA_TAG "positiveEnergyDirection";
    EEBUS_DATA_TAG "powerUnit";
    EEBUS_DATA_TAG "energyUnit" ].

(** ** [electrical_connection_types.inc] *)

Definition electrical_connection_measurand_variant_lut : list (string * Z) :=
  [ ("amplitude", 0); ("rms", 1); ("instantaneous", 2); ("angle", 3); ("cosPhi", 4) ].

Definition electrical_connection_voltage_type_lut : list (string * Z) :=
  [ ("ac", 0); ("dc", 1) ].

Definition electrical_connection_ac_measurement_type_lut : list (string * Z) :=
  [ ("real", 0); ("reactive", 1); ("apparent", 2); ("phase", 3) ].

Definition electrical_connection_phase_name_lut : list (string * Z) :=
  [ ("a", 1); ("b", 2); ("c", 4); ("ab", 3); ("bc", 6); ("ac", 5); ("abc", 7); ("neutral", 8); ("ground", 16);
    ("none", 0) ].

Definition electrical_connection_connection_point_lut : list (string * Z) :=
  [ ("grid", 0); ("home", 1); ("pv", 2); ("sd", 3); ("other", 4) ].

Definition electrical_connection_characteristic_context_lut : list (string * Z) :=
  [ ("device", 0); ("entity", 1); ("inverter", 2); ("pvString", 3); ("battery", 4) ].

Definition electrical_connection_characteristic_type_lut : list (string * Z) :=
  [ ("powerConsumptionMin", 0); ("powerConsumptionMax", 1); ("powerConsumptionNominalMin", 2);
    ("powerConsumptionNominalMax", 3); ("powerProductionMin", 4); ("powerProductionMax", 5);
    ("powerProductionNominalMin", 6); ("powerProductionNominalMax", 7); ("energyCapacityNominalMax", 8);
    ("contractualConsumptionNominalMax", 9); ("contractualProductionNominalMax", 10);
    ("apparentPowerProductionNominalMax", 11); ("apparentPowerConsumptionNominalMax", 12) ].

Definition electrical_connection_parameter_description_data_cfg : list EebusDataCfg :=
  [ EEBUS_DATA_UINT32_WITH_FLAGS "electricalConnectionId" kEebusDataFlagIsIdentifier;
    EEBUS_DATA_UINT32_WITH_FLAGS "parameterId" kEebusDataFlagIsIdentifier;
    EEBUS_DATA_UINT32 "measurementId";
    EEBUS_DATA_ENUM "voltageType" electrical_connection_voltage_type_lut;
    EEBUS_DATA_ENUM "acMeasuredPhases" electrical_connection_phase_name_lut;
    EEBUS_DATA_ENUM "acMeasuredInReferenceTo" electrical_connection_phase_name_lut;
    EEBUS_DATA_ENUM "acMeasurementType" electrical_connection_ac_measurement_type_lut;
    EEBUS_DATA_ENUM "acMeasurementVariant" electrical_connection_measurand_variant_lut;
    EEBUS_DATA_UINT8 "acMeasuredHarmonic";
    EEBUS_DATA_ENUM "scopeType" scope_type_lut;
    EEBUS_DATA_STRING "label";
    EEBUS_DATA_STRING "description" ].

Definition electrical_connection_parameter_description_data_elements_cfg : list EebusDataCfg :=
  [ EEBUS_DATA_TAG "electricalConnectionId";
    EEBUS_DATA_TAG "parameterId";
    EEBUS_DATA_TAG "measurementId";
    EEBUS_DATA_TAG "voltageType";
    EEBUS_DATA_TAG "acMeasuredPhases";
    EEBUS_DATA_TAG "acMeasuredInReferenceTo";
    EEBUS_DATA_TAG "acMeasurementType";
    EEBUS_DATA_TAG "acMeasurementVariant";
    EEBUS_DATA_TAG "acMeasuredHarmonic";
    EEBUS_DATA_TAG "scopeType";
    EEBUS_DATA_TAG "label";
    EEBUS_DATA_TAG "description" ].

Definition electrical_connection_parameter_description_data_element_data_cfg : EebusDataCfg :=
  Sequence "" 0 electrical_connection_parameter_description_data_cfg.

Definition electrical_connection_parameter_description_list_data_cfg : list EebusDataCfg :=
  [ EEBUS_DATA_LIST "electricalConnectionParameterDescriptionData" electrical_connection_parameter_description_data_element_data_cfg ].

Definition electrical_connection_parameter_description_list_data_selectors_cfg : list EebusDataCfg :=
  [ EEBUS_DATA_UINT32 "electricalConnectionId";
    EEBUS_DATA_UINT32 "parameterId";
    EEBUS_DATA_UINT32 "measurementId";
    EEBUS_DATA_ENUM "scopeType" scope_type_lut ].

Definition permitted_value_set_element_data_cfg : EebusDataCfg := Sequence "" 0 scaled_number_set_cfg.

Definition electrical_connection_permitted_value_set_data_cfg : list EebusDataCfg :=
  [ EEBUS_DATA_UINT32_WITH_FLAGS "electricalConnectionId" kEebusDataFlagIsIdentifier;
    EEBUS_DATA_UINT32_WITH_FLAGS "parameterId" kEebusDataFlagIsIdentifier;
    EEBUS_DATA_LIST "permittedValueSet" permitted_value_set_element_data_cfg ].

Definition electrical_connection_permitted_value_set_data_elements_cfg : list EebusDataCfg :=
  [ EEBUS_DATA_TAG "electricalConnectionId";
    EEBUS_DATA_TAG "parameterId";
    EEBUS_DATA_TAG "permittedValueSet" ].

Definition electrical_connection_permitted_value_set_data_element_data_cfg : EebusDataCfg :=
  Sequence "" 0 electrical_connection_permitted_value_set_data_cfg.

Definition electrical_connection_permitted_value_set_list_data_cfg : list EebusDataCfg :=
  [ EEBUS_DATA_LIST "electricalConnectionPermittedValueSetData" electrical_connection_permitted_value_set_data_element_data_cfg ].

Definition electrical_connection_permitted_value_set_list_data_selectors_cfg : list EebusDataCfg :=
  [ EEBUS_DATA_UINT32 "electricalConnectionId";
    EEBUS_DATA_UINT32 "parameterId" ].

Definition electrical_connection_state_data_cfg : list EebusDataCfg :=
  [ EEBUS_DATA_UINT32_WITH_FLAGS "electricalConnectionId" kEebusDataFlagIsIdentifier;
    EEBUS_DATA_ABSOLUTE_OR_RELATIVE_TIME "timestamp";
    EEBUS_DATA_ENUM "currentEnergyMode" energy_mode_lut;
    EEBUS_DATA_DURATION "consumptionTime";
    EEBUS_DATA_DURATION "productionTime";
    EEBUS_DATA_DURATION "totalConsumptionTime";
    EEBUS_DATA_DURATION "totalProductionTime" ].

Definition electrical_connection_state_data_elements_cfg : list EebusDataCfg :=
  [ EEBUS_DATA_TAG "electricalConnectionId";
    EEBUS_DATA_TAG "timestamp";
    EEBUS_DATA_TAG "currentEnergyMode";
    EEBUS_DATA_TAG "consumptionTime";
    EEBUS_DATA_TAG "productionTime";
    EEBUS_DATA_TAG "totalConsumptionTime";
    EEBUS_DATA_TAG "totalProductionTime" ].

Definition electrical_connection_state_data_element_data_cfg : EebusDataCfg :=
  Sequence "" 0 electrical_connection_state_data_cfg.

Definition electrical_connection_state_list_data_cfg : list EebusDataCfg :=
  [ EEBUS_DATA_LIST "electricalConnectionStateData" electrical_connection_state_data_element_data_cfg ].

Definition electrical_connection_state_list_data_selectors_cfg : list EebusDataCfg :=
  [ EEBUS_DATA_UINT32 "electricalConnectionId" ].

Definition electrical_connection_description_data_cfg : list EebusDataCfg :=
  [ EEBUS_DATA_UINT32_WITH_FLAGS "electricalConnectionId" kEebusDataFlagIsIdentifier;
    EEBUS_DATA_ENUM "powerSupplyType" electrical_connection_voltage_type_lut;
    EEBUS_DATA_UINT32 "acConnectedPhases";
    EEBUS_DATA_DURATION "acRmsPeriodDuration";
    EEBUS_DATA_ENUM "positiveEnergyDirection" energy_direction_lut;
    EEBUS_DATA_ENUM "scopeType" scope_type_lut;
    EEBUS_DATA_STRING "label";
    EEBUS_DATA_STRING "description" ].

Definition electrical_connection_description_data_elements_cfg : list EebusDataCfg :=
  [ EEBUS_DATA_TAG "electricalConnectionId";
    EEBUS_DATA_TAG "powerSupplyType";
    EEBUS_DATA_TAG "acConnectedPhases";
    EEBUS_DATA_TAG "acRmsPeriodDuration";
    EEBUS_DATA_TAG "positiveEnergyDirection";
    EEBUS_DATA_TAG "scopeType";
    EEBUS_DATA_TAG "label";
    EEBUS_DATA_TAG "description" ].

Definition electrical_connection_description_data_element_data_cfg : EebusDataCfg :=
  Sequence "" 0 electrical_connection_description_data_cfg.

Definition electrical_connection_description_list_data_cfg : list EebusDataCfg :=
  [ EEBUS_DATA_LIST "electricalConnectionDescriptionData" electrical_connection_description_data_element_data_cfg ].

Definition electrical_connection_description_list_data_selectors_cfg : list EebusDataCfg :=
  [ EEBUS_DATA_UINT32 "electricalConnectionId";
    EEBUS_DATA_ENUM "scopeType" scope_type_lut ].

Definition electrical_connection_characteristic_data_cfg : list EebusDataCfg :=
  [ EEBUS_DATA_UINT32_WITH_FLAGS "electricalConnectionId" kEebusDataFlagIsIdentifier;
    EEBUS_DATA_UINT32_WITH_FLAGS "parameterId" kEebusDataFlagIsIdentifier;
    EEBUS_DATA_UINT32_WITH_FLAGS "characteristicId" kEebusDataFlagIsIdentifier;
    EEBUS_DATA_ENUM "characteristicContext" electrical_connection_characteristic_context_lut;
    EEBUS_DATA_ENUM "characteristicType" electrical_connection_characteristic_type_lut;
    EEBUS_DATA_SEQUENCE "value" scaled_number_cfg;
    EEBUS_DATA_ENUM "unit" unit_of_measurement_lut ].

Definition electrical_connection_characteristic_data_elements_cfg : list EebusDataCfg :=
  [ EEBUS_DATA_TAG "electricalConnectionId";
    EEBUS_DATA_TAG "parameterId";
    EEBUS_DATA_TAG "characteristicId";
    EEBUS_DATA_TAG "characteristicContext";
    EEBUS_DATA_TAG "characteristicType";
    EEBUS_DATA_SEQUENCE "value" scaled_number_elements_cfg;
    EEBUS_DATA_TAG "unit" ].

Definition electrical_connection_characteristic_data_element_data_cfg : EebusDataCfg :=
  Sequence "" 0 electrical_connection_characteristic_data_cfg.

Definition electrical_connection_characteristic_list_data_cfg : list EebusDataCfg :=
  [ EEBUS_DATA_LIST "electricalConnectionCharacteristicData" electrical_connection_characteristic_data_element_data_cfg ].

Definition electrical_connection_characteristic_list_data_selectors_cfg : list EebusDataCfg :=
  [ EEBUS_DATA_UINT32 "electricalConnectionId";
    EEBUS_DATA_UINT32 "parameterId";
    EEBUS_DATA_UINT32 "characteristicId";
    EEBUS_DATA_ENUM "characteristicContext" electrical_connection_characteristic_context_lut;
    EEBUS_DATA_ENUM "characteristicType" electrical_connection_characteristic_type_lut ].

(** ** [measurement_types.inc] *)

Definition measurement_type_lut : list (string * Z) :=
  [ ("acceleration", 0); ("angle", 1); ("angularVelocity", 2); ("area", 3); ("atmosphericPressure", 4);
    ("capacity", 5); ("concentration", 6); ("count", 7); ("current", 8); ("density", 9); ("distance", 10);
    ("electricField", 11); ("energy", 12); ("force", 13); ("frequency", 14); ("harmonicDistortion", 15);
    ("heat", 16); ("heatFlux", 17); ("illuminance", 18); ("impulse", 19); ("level", 20); ("magneticField",
    21); ("mass", 22); ("massFlow", 23); ("particles", 24); ("percentage", 25); ("power", 26); ("powerFactor",
    27); ("pressure", 28); ("radonActivity", 29); ("relativeHumidity", 30); ("resistance", 31);
    ("solarRadiation", 32); ("speed", 33); ("temperature", 34); ("time", 35); ("torque", 36); ("unknown", 37);
    ("velocity", 38); ("voltage", 39); ("volume", 40); ("volumetricFlow", 41) ].

Definition measurement_value_type_lut : list (string * Z) :=
  [ ("value", 0); ("averageValue", 1); ("minValue", 2); ("maxValue", 3); ("standardDeviation", 4) ].

Definition measurement_value_source_lut : list (string * Z) :=
  [ ("measuredValue", 0); ("calculatedValue", 1); ("empiricalValue", 2) ].

Definition measurement_value_tendency_lut : list (string * Z) :=
  [ ("rising", 0); ("stable", 1); ("falling", 2) ].

Definition measurement_value_state_lut : list (string * Z) :=
  [ ("normal", 0); ("outOfRange", 1); ("error", 2) ].

Definition measurement_data_cfg : list EebusDataCfg :=
  [ EEBUS_DATA_UINT32_WITH_FLAGS "measurementId" kEebusDataFlagIsIdentifier;
    EEBUS_DATA_ENUM_WITH_FLAGS "valueType" measurement_value_type_lut kEebusDataFlagIsIdentifier;
    EEBUS_DATA_ABSOLUTE_OR_RELATIVE_TIME "timestamp";
    EEBUS_DATA_SEQUENCE "value" scaled_number_cfg;
    EEBUS_DATA_SEQUENCE "evaluationPeriod" time_period_cfg;
    EEBUS_DATA_ENUM "valueSource" measurement_value_source_lut;
    EEBUS_DATA_ENUM "valueTendency" measurement_value_tendency_lut;
    EEBUS_DATA_ENUM "valueState" measurement_value_state_lut ].

Definition measurement_data_elements_cfg : list EebusDataCfg :=
  [ EEBUS_DATA_TAG "measurementId";
    EEBUS_DATA_TAG "valueType";
    EEBUS_DATA_TAG "timestamp";
    EEBUS_DATA_TAG "value";
    EEBUS_DATA_TAG "evaluationPeriod";
    EEBUS_DATA_TAG "valueSource";
    EEBUS_DATA_TAG "valueTendency";
    EEBUS_DATA_TAG "valueState" ].

Definition measurement_data_element_data_cfg : EebusDataCfg := Sequence "" 0 measurement_data_cfg.

Definition measurement_list_data_cfg : list EebusDataCfg :=
  [ EEBUS_DATA_LIST "measurementData" measurement_data_element_data_cfg ].

Definition measurement_list_data_selectors_cfg : list EebusDataCfg :=
  [ EEBUS_DATA_UINT32 "measurementId";
    EEBUS_DATA_ENUM "valueType" measurement_value_type_lut;
    EEBUS_DATA_SEQUENCE "timestampInterval" timestamp_interval_cfg ].

Definition measurement_series_data_cfg : list EebusDataCfg :=
  [ EEBUS_DATA_UINT32_WITH_FLAGS "measurementId" kEebusDataFlagIsIdentifier;
    EEBUS_DATA_ENUM_WITH_FLAGS "valueType" measurement_value_type_lut kEebusDataFlagIsIdentifier;
    EEBUS_DATA_ABSOLUTE_OR_RELATIVE_TIME "timestamp";
    EEBUS_DATA_SEQUENCE "value" scaled_number_cfg;
    EEBUS_DATA_SEQUENCE "evaluationPeriod" time_period_cfg;
    EEBUS_DATA_ENUM "valueSource" measurement_value_source_lut;
    EEBUS_DATA_ENUM "valueTendency" measurement_value_tendency_lut;
    EEBUS_DATA_ENUM "valueState" measurement_value_state_lut ].

Definition measurement_series_data_elements_cfg : list EebusDataCfg :=
  [ EEBUS_DATA_TAG "measurementId";
    EEBUS_DATA_TAG "valueType";
    EEBUS_DATA_TAG "timestamp";
    EEBUS_DATA_TAG "value";
    EEBUS_DATA_TAG "evaluationPeriod";
    EEBUS_DATA_TAG "valueSource";
    EEBUS_DATA_TAG "valueTendency";
    EEBUS_DATA_TAG "valueState" ].

Definition measurement_series_data_element_data_cfg : EebusDataCfg := Sequence "" 0 measurement_series_data_cfg.

Definition measurement_series_list_data_cfg : list EebusDataCfg :=
  [ EEBUS_DATA_LIST "measurementSeriesData" measurement_series_data_element_data_cfg ].

Definition measurement_series_list_data_selectors_cfg : list EebusDataCfg :=
  [ EEBUS_DATA_UINT32 "measurementId";
    EEBUS_DATA_ENUM "valueType" measurement_value_type_lut;
    EEBUS_DATA_SEQUENCE "timestampInterval" timestamp_interval_cfg ].

Definition measurement_constraints_data_cfg : list EebusDataCfg :=
  [ EEBUS_DATA_UINT32_WITH_FLAGS "measurementId" kEebusDataFlagIsIdentifier;
    EEBUS_DATA_SEQUENCE "valueRangeMin" scaled_number_cfg;
    EEBUS_DATA_SEQUENCE "valueRangeMax" scaled_number_cfg;
    EEBUS_DATA_SEQUENCE "valueStepSize" scaled_number_cfg ].

Definition measurement_constraints_data_elements_cfg : list EebusDataCfg :=
  [ EEBUS_DATA_TAG "measurementId";
    EEBUS_DATA_SEQUENCE "valueRangeMin" scaled_number_elements_cfg;
    EEBUS_DATA_SEQUENCE "valueRangeMax" scaled_number_elements_cfg;
    EEBUS_DATA_SEQUENCE "valueStepSize" scaled_number_elements_cfg ].

Definition measurement_constraints_data_element_data_cfg : EebusDataCfg :=
  Sequence "" 0 measurement_constraints_data_cfg.

Definition measurement_constraints_list_data_cfg : list EebusDataCfg :=
  [ EEBUS_DATA_LIST "measurementConstraintsData" measurement_constraints_data_element_data_cfg ].

Definition measurement_constraints_list_data_selectors_cfg : list EebusDataCfg :=
  [ EEBUS_DATA_UINT32 "measurementId" ].

Definition measurement_description_data_cfg : list EebusDataCfg :=
  [ EEBUS_DATA_UINT32_WITH_FLAGS "measurementId" kEebusDataFlagIsIdentifier;
    EEBUS_DATA_ENUM "measurementType" measurement_type_lut;
    EEBUS_DATA_ENUM "commodityType" commodity_type_lut;
    EEBUS_DATA_ENUM "unit" unit_of_measurement_lut;
    EEBUS_DATA_SEQUENCE "calibrationValue" scaled_number_cfg;
    EEBUS_DATA_ENUM "scopeType" scope_type_lut;
    EEBUS_DATA_STRING "label";
    EEBUS_DATA_STRING "description" ].

Definition measurement_description_data_elements_cfg : list EebusDataCfg :=
  [ EEBUS_DATA_TAG "measurementId";
    EEBUS_DATA_TAG "measurementType";
    EEBUS_DATA_TAG "commodityType";
    EEBUS_DATA_TAG "unit";
    EEBUS_DATA_SEQUENCE "calibrationValue" scaled_number_elements_cfg;
    EEBUS_DATA_TAG "scopeType";
    EEBUS_DATA_TAG "label";
    EEBUS_DATA_TAG "description" ].

Definition measurement_description_data_element_data_cfg : EebusDataCfg :=
  Sequence "" 0 measurement_description_data_cfg.

Definition measurement_description_list_data_cfg : list EebusDataCfg :=
  [ EEBUS_DATA_LIST "measurementDescriptionData" measurement_description_data_element_data_cfg ].

Definition measurement_description_list_data_selectors_cfg : list EebusDataCfg :=
  [ EEBUS_DATA_UINT32 "measurementId";
    EEBUS_DATA_ENUM "measurementType" measurement_type_lut;
    EEBUS_DATA_ENUM "commodityType" commodity_type_lut;
    EEBUS_DATA_ENUM "scopeType" scope_type_lut ].

Definition threshold_id_element_data_cfg : EebusDataCfg := Simple "" 0 (KNumeric false 32).

Definition measurement_threshold_relation_data_cfg : list EebusDataCfg :=
  [ EEBUS_DATA_UINT32_WITH_FLAGS "measurementId" kEebusDataFlagIsIdentifier;
    EEBUS_DATA_LIST "thresholdId" threshold_id_element_data_cfg ].

Definition measurement_threshold_relation_data_elements_cfg : list EebusDataCfg :=
  [ EEBUS_DATA_TAG "measurementId";
    EEBUS_DATA_TAG "thresholdId" ].

Definition measurement_threshold_relation_data_element_data_cfg : EebusDataCfg :=
  Sequence "" 0 measurement_threshold_relation_data_cfg.

Definition measurement_threshold_relation_list_data_cfg : list EebusDataCfg :=
  [ EEBUS_DATA_LIST "measurementThresholdRelationData" measurement_threshold_relation_data_element_data_cfg ].

Definition measurement_threshold_relation_list_data_selectors_cfg : list EebusDataCfg :=
  [ EEBUS_DATA_UINT32 "measurementId";
    EEBUS_DATA_UINT32 "thresholdId" ].

(** ** [power_sequences_types.inc] *)

Definition power_time_slot_value_type_lut : list (string * Z) :=
  [ ("power", 0); ("powerMin", 1); ("powerMax", 2); ("powerExpectedValue", 3); ("powerStandardDeviation", 4);
    ("powerSkewness", 5); ("energy", 6); ("energyMin", 7); ("energyMax", 8); ("energyExpectedValue", 9);
    ("energyStandardDeviation", 10); ("energySkewness", 11) ].

Definition power_sequence_scope_lut : list (string * Z) :=
  [ ("forecast", 0); ("measurement", 1); ("recommendation", 2) ].

Definition power_sequence_state_lut : list (string * Z) :=
  [ ("running", 0); ("paused", 1); ("scheduled", 2); ("scheduledPaused", 3); ("pending", 4); ("inactive", 5);
    ("completed", 6); ("invalid", 7) ].

Definition power_time_slot_schedule_data_cfg : list EebusDataCfg :=
  [ EEBUS_DATA_UINT32_WITH_FLAGS "sequenceId" kEebusDataFlagIsIdentifier;
    EEBUS_DATA_UINT32_WITH_FLAGS "slotNumber" kEebusDataFlagIsSubIdentifier;
    EEBUS_DATA_SEQUENCE "timePeriod" time_period_cfg;
    EEBUS_DATA_DURATION "defaultDuration";
    EEBUS_DATA_DURATION "durationUncertainty";
    EEBUS_DATA_BOOL "slotActivated";
    EEBUS_DATA_STRING "description" ].

Definition power_time_slot_schedule_data_elements_cfg : list EebusDataCfg :=
  [ EEBUS_DATA_TAG "sequenceId";
    EEBUS_DATA_TAG "slotNumber";
    EEBUS_DATA_TAG "timePeriod";
    EEBUS_DATA_TAG "defaultDuration";
    EEBUS_DATA_TAG "durationUncertainty";
    EEBUS_DATA_TAG "slotActivated";
    EEBUS_DATA_TAG "description" ].

Definition power_time_slot_schedule_data_element_data_cfg : EebusDataCfg :=
  Sequence "" 0 power_time_slot_schedule_data_cfg.

Definition power_time_slot_schedule_list_data_cfg : list EebusDataCfg :=
  [ EEBUS_DATA_LIST "powerTimeSlotScheduleData" power_time_slot_schedule_data_element_data_cfg ].

Definition power_time_slot_schedule_list_data_selectors_cfg : list EebusDataCfg :=
  [ EEBUS_DATA_UINT32 "sequenceId";
    EEBUS_DATA_UINT32 "slotNumber" ].

Definition power_time_slot_value_data_cfg : list EebusDataCfg :=
  [ EEBUS_DATA_UINT32_WITH_FLAGS "sequenceId" kEebusDataFlagIsIdentifier;
    EEBUS_DATA_UINT32 "slotNumber";
    EEBUS_DATA_ENUM "valueType" power_time_slot_value_type_lut;
    EEBUS_DATA_SEQUENCE "value" scaled_number_cfg ].

Definition power_time_slot_value_data_elements_cfg : list EebusDataCfg :=
  [ EEBUS_DATA_TAG "sequenceId";
    EEBUS_DATA_TAG "slotNumber";
    EEBUS_DATA_TAG "valueType";
    EEBUS_DATA_SEQUENCE "value" scaled_number_elements_cfg ].

Definition power_time_slot_value_data_element_data_cfg : EebusDataCfg :=
  Sequence "" 0 power_time_slot_value_data_cfg.

Definition power_time_slot_value_list_data_cfg : list EebusDataCfg :=
  [ EEBUS_DATA_LIST "powerTimeSlotValueListData" power_time_slot_value_data_element_data_cfg ].

Definition power_time_slot_value_list_data_selectors_cfg : list EebusDataCfg :=
  [ EEBUS_DATA_UINT32 "sequenceId";
    EEBUS_DATA_UINT32 "slotNumber";
    EEBUS_DATA_ENUM "valueType" power_time_slot_value_type_lut ].

Definition power_time_slot_schedule_constraints_data_cfg : list EebusDataCfg :=
  [ EEBUS_DATA_UINT32_WITH_FLAGS "sequenceId" kEebusDataFlagIsIdentifier;
    EEBUS_DATA_UINT32 "slotNumber";
    EEBUS_DATA_ABSOLUTE_OR_RELATIVE_TIME "earliestStartTime";
    EEBUS_DATA_ABSOLUTE_OR_RELATIVE_TIME "latestEndTime";
    EEBUS_DATA_DURATION "minDuration";
    EEBUS_DATA_DURATION "maxDuration";
    EEBUS_DATA_BOOL "optionalSlot" ].

Definition power_time_slot_schedule_constraints_data_elements_cfg : list EebusDataCfg :=
  [ EEBUS_DATA_TAG "sequenceId";
    EEBUS_DATA_TAG "slotNumber";
    EEBUS_DATA_TAG "earliestStartTime";
    EEBUS_DATA_TAG "latestEndTime";
    EEBUS_DATA_TAG "minDuration";
    EEBUS_DATA_TAG "maxDuration";
    EEBUS_DATA_TAG "optionalSlot" ].

Definition power_time_slot_schedule_constraints_data_element_data_cfg : EebusDataCfg :=
  Sequence "" 0 power_time_slot_schedule_constraints_data_cfg.

Definition power_time_slot_schedule_constraints_list_data_cfg : list EebusDataCfg :=
  [ EEBUS_DATA_LIST "powerTimeSlotScheduleConstraintsData" power_time_slot_schedule_constraints_data_element_data_cfg ].

Definition power_time_slot_schedule_constraints_list_data_selectors_cfg : list EebusDataCfg :=
  [ EEBUS_DATA_UINT32 "sequenceId";
    EEBUS_DATA_UINT32 "slotNumber" ].

Definition sequence_id_element_data_cfg : EebusDataCfg := Simple "" 0 (KNumeric false 32).

Definition power_sequence_alternatives_relation_data_cfg : list EebusDataCfg :=
  [ EEBUS_DATA_UINT32_WITH_FLAGS "alternativesId" kEebusDataFlagIsIdentifier;
    EEBUS_DATA_LIST "sequenceId" sequence_id_element_data_cfg ].

Definition power_sequence_alternatives_relation_data_elements_cfg : list EebusDataCfg :=
  [ EEBUS_DATA_TAG "alternativesId";
    EEBUS_DATA_TAG "sequenceId" ].

Definition power_sequence_alternatives_relation_data_element_data_cfg : EebusDataCfg :=
  Sequence "" 0 power_sequence_alternatives_relation_data_cfg.

Definition power_sequence_alternatives_relation_list_data_cfg : list EebusDataCfg :=
  [ EEBUS_DATA_LIST "powerSequenceAlternativesRelationData" power_sequence_alternatives_relation_data_element_data_cfg ].

Definition power_sequence_alternatives_relation_list_data_selectors_cfg : list EebusDataCfg :=
  [ EEBUS_DATA_UINT32 "alternativesId";
    EEBUS_DATA_LIST "sequenceId" sequence_id_element_data_cfg ].

Definition power_sequence_description_data_cfg : list EebusDataCfg :=
  [ EEBUS_DATA_UINT32_WITH_FLAGS "sequenceId" kEebusDataFlagIsIdentifier;
    EEBUS_DATA_STRING "description";
    EEBUS_DATA_ENUM "positiveEnergyDirection" energy_direction_lut;
    EEBUS_DATA_ENUM "powerUnit" unit_of_measurement_lut;
    EEBUS_DATA_ENUM "energyUnit" unit_of_measurement_lut;
    EEBUS_DATA_ENUM "valueSource" measurement_value_source_lut;
    EEBUS_DATA_ENUM "scope" power_sequence_scope_lut;
    EEBUS_DATA_UINT32 "taskIdentifier";
    EEBUS_DATA_UINT32 "repetitionsTotal" ].

Definition power_sequence_description_data_elements_cfg : list EebusDataCfg :=
  [ EEBUS_DATA_TAG "sequenceId";
    EEBUS_DATA_TAG "description";
    EEBUS_DATA_TAG "positiveEnergyDirection";
    EEBUS_DATA_TAG "powerUnit";
    EEBUS_DATA_TAG "energyUnit";
    EEBUS_DATA_TAG "valueSource";
    EEBUS_DATA_TAG "scope";
    EEBUS_DATA_TAG "taskIdentifier";
    EEBUS_DATA_TAG "repetitionsTotal" ].

Definition power_sequence_description_data_element_data_cfg : EebusDataCfg :=
  Sequence "" 0 power_sequence_description_data_cfg.

Definition power_sequence_description_list_data_cfg : list EebusDataCfg :=
  [ EEBUS_DATA_LIST "powerSequenceDescriptionData" power_sequence_description_data_element_data_cfg ].

Definition power_sequence_description_list_data_selectors_cfg : list EebusDataCfg :=
  [ EEBUS_DATA_LIST "sequenceId" sequence_id_element_data_cfg ].

Definition power_sequence_state_data_cfg : list EebusDataCfg :=
  [ EEBUS_DATA_UINT32_WITH_FLAGS "sequenceId" kEebusDataFlagIsIdentifier;
    EEBUS_DATA_ENUM "state" power_sequence_state_lut;
    EEBUS_DATA_UINT32 "activeSlotNumber";
    EEBUS_DATA_DURATION "elapsedSlotTime";
    EEBUS_DATA_DURATION "remainingSlotTime";
    EEBUS_DATA_BOOL "sequenceRemoteControllable";
    EEBUS_DATA_UINT32 "activeRepetitionNumber";
    EEBUS_DATA_DURATION "remainingPauseTime" ].

Definition power_sequence_state_data_elements_cfg : list EebusDataCfg :=
  [ EEBUS_DATA_TAG "sequenceId";
    EEBUS_DATA_TAG "state";
    EEBUS_DATA_TAG "activeSlotNumber";
    EEBUS_DATA_TAG "elapsedSlotTime";
    EEBUS_DATA_TAG "remainingSlotTime";
    EEBUS_DATA_TAG "sequenceRemoteControllable";
    EEBUS_DATA_TAG "activeRepetitionNumber";
    EEBUS_DATA_TAG "remainingPauseTime" ].

Definition power_sequence_state_data_element_data_cfg : EebusDataCfg :=
  Sequence "" 0 power_sequence_state_data_cfg.

Definition power_sequence_state_list_data_cfg : list EebusDataCfg :=
  [ EEBUS_DATA_LIST "powerSequenceStateData" power_sequence_state_data_element_data_cfg ].

Definition power_sequence_state_list_data_selectors_cfg : list EebusDataCfg :=
  [ EEBUS_DATA_UINT32 "sequenceId" ].

Definition power_sequence_schedule_data_cfg : list EebusDataCfg :=
  [ EEBUS_DATA_UINT32_WITH_FLAGS "sequenceId" kEebusDataFlagIsIdentifier;
    EEBUS_DATA_ABSOLUTE_OR_RELATIVE_TIME "startTime";
    EEBUS_DATA_ABSOLUTE_OR_RELATIVE_TIME "endTime" ].

Definition power_sequence_schedule_data_elements_cfg : list EebusDataCfg :=
  [ EEBUS_DATA_TAG "sequenceId";
    EEBUS_DATA_TAG "startTime";
    EEBUS_DATA_TAG "endTime" ].

Definition power_sequence_schedule_data_element_data_cfg : EebusDataCfg :=
  Sequence "" 0 power_sequence_schedule_data_cfg.

Definition power_sequence_schedule_list_data_cfg : list EebusDataCfg :=
  [ EEBUS_DATA_LIST "powerSequenceScheduleData" power_sequence_schedule_data_element_data_cfg ].

Definition power_sequence_schedule_list_data_selectors_cfg : list EebusDataCfg :=
  [ EEBUS_DATA_UINT32 "sequenceId" ].

Definition power_sequence_schedule_constraints_data_cfg : list EebusDataCfg :=
  [ EEBUS_DATA_UINT32_WITH_FLAGS "sequenceId" kEebusDataFlagIsIdentifier;
    EEBUS_DATA_ABSOLUTE_OR_RELATIVE_TIME "earliestStartTime";
    EEBUS_DATA_ABSOLUTE_OR_RELATIVE_TIME "latestStartTime";
    EEBUS_DATA_ABSOLUTE_OR_RELATIVE_TIME "earliestEndTime";
    EEBUS_DATA_ABSOLUTE_OR_RELATIVE_TIME "latestEndTime";
    EEBUS_DATA_BOOL "optionalSequence" ].

Definition power_sequence_schedule_constraints_data_elements_cfg : list EebusDataCfg :=
  [ EEBUS_DATA_TAG "sequenceId";
    EEBUS_DATA_TAG "earliestStartTime";
    EEBUS_DATA_TAG "latestStartTime";
    EEBUS_DATA_TAG "earliestEndTime";
    EEBUS_DATA_TAG "latestEndTime";
    EEBUS_DATA_TAG "optionalSequence" ].

Definition power_sequence_schedule_constraints_data_element_data_cfg : EebusDataCfg :=
  Sequence "" 0 power_sequence_schedule_constraints_data_cfg.

Definition power_sequence_schedule_constraints_list_data_cfg : list EebusDataCfg :=
  [ EEBUS_DATA_LIST "powerSequenceScheduleConstraintsData" power_sequence_schedule_constraints_data_element_data_cfg ].

Definition power_sequence_schedule_constraints_list_data_selectors_cfg : list EebusDataCfg :=
  [ EEBUS_DATA_UINT32 "sequenceId" ].

Definition power_sequence_price_data_cfg : list EebusDataCfg :=
  [ EEBUS_DATA_UINT32_WITH_FLAGS "sequenceId" kEebusDataFlagIsIdentifier;
    EEBUS_DATA_ABSOLUTE_OR_RELATIVE_TIME "potentialStartTime";
    EEBUS_DATA_SEQUENCE "price" scaled_number_cfg;
    EEBUS_DATA_ENUM "currency" currency_lut ].

Definition power_sequence_price_data_elements_cfg : list EebusDataCfg :=
  [ EEBUS_DATA_TAG "sequenceId";
    EEBUS_DATA_TAG "potentialStartTime";
    EEBUS_DATA_TAG "price";
    EEBUS_DATA_TAG "currency" ].

Definition power_sequence_price_data_element_data_cfg : EebusDataCfg :=
  Sequence "" 0 power_sequence_price_data_cfg.

Definition power_sequence_price_list_data_cfg : list EebusDataCfg :=
  [ EEBUS_DATA_LIST "powerSequencePriceData" power_sequence_price_data_element_data_cfg ].

Definition power_sequence_price_list_data_selectors_cfg : list EebusDataCfg :=
  [ EEBUS_DATA_UINT32 "sequenceId";
    EEBUS_DATA_SEQUENCE "potentialStartTimeInterval" timestamp_interval_cfg ].

Definition power_sequence_schedule_preference_data_cfg : list EebusDataCfg :=
  [ EEBUS_DATA_UINT32_WITH_FLAGS "sequenceId" kEebusDataFlagIsIdentifier;
    EEBUS_DATA_BOOL "greenest";
    EEBUS_DATA_BOOL "cheapest" ].

Definition power_sequence_schedule_preference_data_elements_cfg : list EebusDataCfg :=
  [ EEBUS_DATA_TAG "sequenceId";
    EEBUS_DATA_TAG "greenest";
    EEBUS_DATA_TAG "cheapest" ].

Definition power_sequence_schedule_preference_data_element_data_cfg : EebusDataCfg :=
  Sequence "" 0 power_sequence_schedule_preference_data_cfg.

Definition power_sequence_schedule_preference_list_data_cfg : list EebusDataCfg :=
  [ EEBUS_DATA_LIST "powerSequenceSchedulePreferenceData" power_sequence_schedule_preference_data_element_data_cfg ].

Definition power_sequence_schedule_preference_list_data_selectors_cfg : list EebusDataCfg :=
  [ EEBUS_DATA_UINT32 "sequenceId" ].

Definition power_sequence_node_schedule_information_data_cfg : list EebusDataCfg :=
  [ EEBUS_DATA_BOOL "nodeRemoteControllable";
    EEBUS_DATA_BOOL "supportsSingleSlotSchedulingOnly";
    EEBUS_DATA_UINT32 "alternativesCount";
    EEBUS_DATA_UINT32 "totalSequencesCountMax";
    EEBUS_DATA_BOOL "supportsReselection" ].

Definition power_sequence_node_schedule_information_data_elements_cfg : list EebusDataCfg :=
  [ EEBUS_DATA_TAG "nodeRemoteControllable";
    EEBUS_DATA_TAG "supportsSingleSlotSchedulingOnly";
    EEBUS_DATA_TAG "alternativesCount";
    EEBUS_DATA_TAG "totalSequencesCountMax";
    EEBUS_DATA_TAG "supportsReselection" ].

Definition power_sequence_schedule_configuration_request_call_cfg : list EebusDataCfg :=
  [ EEBUS_DATA_UINT32 "sequenceId" ].

Definition power_sequence_schedule_configuration_request_call_elements_cfg : list EebusDataCfg :=
  [ EEBUS_DATA_TAG "sequenceId" ].

Definition power_sequence_price_calculation_request_call_cfg : list EebusDataCfg :=
  [ EEBUS_DATA_UINT32 "sequenceId";
    EEBUS_DATA_ABSOLUTE_OR_RELATIVE_TIME "potentialStartTime" ].

Definition power_sequence_price_calculation_request_call_elements_cfg : list EebusDataCfg :=
  [ EEBUS_DATA_TAG "sequenceId";
    EEBUS_DATA_TAG "potentialStartTime" ].

(** ** [hvac_types.inc] *)

Definition hvac_system_function_type_lut : list (string * Z) :=
  [ ("heating", 0); ("cooling", 1); ("ventilation", 2); ("dhw", 3) ].

Definition hvac_operation_mode_type_lut : list (string * Z) :=
  [ ("auto", 0); ("on", 1); ("off", 2); ("eco", 3) ].

Definition hvac_overrun_type_lut : list (string * Z) :=
  [ ("oneTimeDhw", 0); ("party", 1); ("sgReadyCondition1", 2); ("sgReadyCondition3", 3); ("sgReadyCondition4",
    4); ("oneDayAway", 5); ("oneDayAtHome", 6); ("oneTimeVentilation", 7); ("hvacSystemOff", 8); ("valveKick",
    9) ].

Definition hvac_overrun_status_lut : list (string * Z) :=
  [ ("active", 0); ("running", 1); ("finished", 2); ("inactive", 3) ].

Definition hvac_system_function_data_cfg : list EebusDataCfg :=
  [ EEBUS_DATA_UINT32_WITH_FLAGS "systemFunctionId" kEebusDataFlagIsIdentifier;
    EEBUS_DATA_UINT32 "currentOperationModeId";
    EEBUS_DATA_BOOL "isOperationModeIdChangeable";
    EEBUS_DATA_UINT32 "currentSetpointId";
    EEBUS_DATA_BOOL "isSetpointIdChangeable";
    EEBUS_DATA_BOOL "isOverrunActive" ].

Definition hvac_system_function_data_elements_cfg : list EebusDataCfg :=
  [ EEBUS_DATA_TAG "systemFunctionId";
    EEBUS_DATA_TAG "currentOperationModeId";
    EEBUS_DATA_TAG "isOperationModeIdChangeable";
    EEBUS_DATA_TAG "currentSetpointId";
    EEBUS_DATA_TAG "isSetpointIdChangeable";
    EEBUS_DATA_TAG "isOverrunActive" ].

Definition hvac_system_function_data_element_data_cfg : EebusDataCfg :=
  Sequence "" 0 hvac_system_function_data_cfg.

Definition hvac_system_function_list_data_cfg : list EebusDataCfg :=
  [ EEBUS_DATA_LIST "hvacSystemFunctionData" hvac_system_function_data_element_data_cfg ].

Definition system_function_id_element_data_cfg : EebusDataCfg := Simple "" 0 (KNumeric false 32).

Definition hvac_system_function_list_data_selectors_cfg : list EebusDataCfg :=
  [ EEBUS_DATA_LIST "systemFunctionId" system_function_id_element_data_cfg ].

Definition hvac_system_function_operation_mode_relation_data_cfg : list EebusDataCfg :=
  [ EEBUS_DATA_UINT32_WITH_FLAGS "systemFunctionId" kEebusDataFlagIsIdentifier;
    EEBUS_DATA_UINT32 "operationModeId" ].

Definition hvac_system_function_operation_mode_relation_data_elements_cfg : list EebusDataCfg :=
  [ EEBUS_DATA_TAG "systemFunctionId";
    EEBUS_DATA_TAG "operationModeId" ].

Definition hvac_system_function_operation_mode_relation_data_element_data_cfg : EebusDataCfg :=
  Sequence "" 0 hvac_system_function_operation_mode_relation_data_cfg.

Definition hvac_system_function_operation_mode_relation_list_data_cfg : list EebusDataCfg :=
  [ EEBUS_DATA_LIST "hvacSystemFunctionOperationModeRelationData" hvac_system_function_operation_mode_relation_data_element_data_cfg ].

Definition hvac_system_function_operation_mode_relation_list_data_selectors_cfg : list EebusDataCfg :=
  [ EEBUS_DATA_LIST "systemFunctionId" system_function_id_element_data_cfg ].

Definition hvac_system_function_setpoint_relation_data_cfg : list EebusDataCfg :=
  [ EEBUS_DATA_UINT32_WITH_FLAGS "systemFunctionId" kEebusDataFlagIsIdentifier;
    EEBUS_DATA_UINT32 "operationModeId";
    EEBUS_DATA_UINT32 "setpointId" ].

Definition hvac_system_function_setpoint_relation_data_elements_cfg : list EebusDataCfg :=
  [ EEBUS_DATA_TAG "systemFunctionId";
    EEBUS_DATA_TAG "operationModeId";
    EEBUS_DATA_TAG "setpointId" ].

Definition hvac_system_function_setpoint_relation_data_element_data_cfg : EebusDataCfg :=
  Sequence "" 0 hvac_system_function_setpoint_relation_data_cfg.

Definition hvac_system_function_setpoint_relation_list_data_cfg : list EebusDataCfg :=
  [ EEBUS_DATA_LIST "hvacSystemFunctionSetpointRelationData" hvac_system_function_setpoint_relation_data_element_data_cfg ].

Definition hvac_system_function_setpoint_relation_list_data_selectors_cfg : list EebusDataCfg :=
  [ EEBUS_DATA_UINT32 "systemFunctionId";
    EEBUS_DATA_UINT32 "operationModeId" ].

Definition hvac_system_function_power_sequence_relation_data_cfg : list EebusDataCfg :=
  [ EEBUS_DATA_UINT32_WITH_FLAGS "systemFunctionId" kEebusDataFlagIsIdentifier;
    EEBUS_DATA_LIST "sequenceId" sequence_id_element_data_cfg ].

Definition hvac_system_function_power_sequence_relation_data_elements_cfg : list EebusDataCfg :=
  [ EEBUS_DATA_TAG "systemFunctionId";
    EEBUS_DATA_TAG "sequenceId" ].

Definition hvac_system_function_power_sequence_relation_data_element_data_cfg : EebusDataCfg :=
  Sequence "" 0 hvac_system_function_power_sequence_relation_data_cfg.

Definition hvac_system_function_power_sequence_relation_list_data_cfg : list EebusDataCfg :=
  [ EEBUS_DATA_LIST "hvacSystemFunctionPowerSequenceRelationData" hvac_system_function_power_sequence_relation_data_element_data_cfg ].

Definition hvac_system_function_power_sequence_relation_list_data_selectors_cfg : list EebusDataCfg :=
  [ EEBUS_DATA_UINT32 "systemFunctionId" ].

Definition hvac_system_function_description_data_cfg : list EebusDataCfg :=
  [ EEBUS_DATA_UINT32_WITH_FLAGS "systemFunctionId" kEebusDataFlagIsIdentifier;
    EEBUS_DATA_ENUM "systemFunctionType" hvac_system_function_type_lut;
    EEBUS_DATA_STRING "label";
    EEBUS_DATA_STRING "description" ].

Definition hvac_system_function_description_data_elements_cfg : list EebusDataCfg :=
  [ EEBUS_DATA_TAG "systemFunctionId";
    EEBUS_DATA_TAG "systemFunctionType";
    EEBUS_DATA_TAG "label";
    EEBUS_DATA_TAG "description" ].

Definition hvac_system_function_description_data_element_data_cfg : EebusDataCfg :=
  Sequence "" 0 hvac_system_function_description_data_cfg.

Definition hvac_system_function_description_list_data_cfg : list EebusDataCfg :=
  [ EEBUS_DATA_LIST "hvacSystemFunctionDescriptionData" hvac_system_function_description_data_element_data_cfg ].

Definition hvac_system_function_description_list_data_selectors_cfg : list EebusDataCfg :=
  [ EEBUS_DATA_UINT32 "systemFunctionId" ].

Definition hvac_operation_mode_description_data_cfg : list EebusDataCfg :=
  [ EEBUS_DATA_UINT32_WITH_FLAGS "operationModeId" kEebusDataFlagIsIdentifier;
    EEBUS_DATA_ENUM "operationModeType" hvac_operation_mode_type_lut;
    EEBUS_DATA_STRING "label";
    EEBUS_DATA_STRING "description" ].

Definition hvac_operation_mode_description_data_elements_cfg : list EebusDataCfg :=
  [ EEBUS_DATA_TAG "operationModeId";
    EEBUS_DATA_TAG "operationModeType";
    EEBUS_DATA_TAG "label";
    EEBUS_DATA_TAG "description" ].

Definition hvac_operation_mode_description_data_element_data_cfg : EebusDataCfg :=
  Sequence "" 0 hvac_operation_mode_description_data_cfg.

Definition hvac_operation_mode_description_list_data_cfg : list EebusDataCfg :=
  [ EEBUS_DATA_LIST "hvacOperationModeDescriptionData" hvac_operation_mode_description_data_element_data_cfg ].

Definition hvac_operation_mode_description_list_data_selectors_cfg : list EebusDataCfg :=
  [ EEBUS_DATA_UINT32 "operationModeId" ].

Definition hvac_overrun_data_cfg : list EebusDataCfg :=
  [ EEBUS_DATA_UINT32_WITH_FLAGS "overrunId" kEebusDataFlagIsIdentifier;
    EEBUS_DATA_ENUM "overrunStatus" hvac_overrun_status_lut;
    EEBUS_DATA_UINT32 "timeTableId";
    EEBUS_DATA_BOOL "isOverrunStatusChangeable" ].

Definition hvac_overrun_data_elements_cfg : list EebusDataCfg :=
  [ EEBUS_DATA_TAG "overrunId";
    EEBUS_DATA_TAG "overrunStatus";
    EEBUS_DATA_TAG "timeTableId";
    EEBUS_DATA_TAG "isOverrunStatusChangeable" ].

Definition hvac_overrun_data_element_data_cfg : EebusDataCfg := Sequence "" 0 hvac_overrun_data_cfg.

Definition hvac_overrun_list_data_cfg : list EebusDataCfg :=
  [ EEBUS_DATA_LIST "hvacOverrunData" hvac_overrun_data_element_data_cfg ].

Definition hvac_overrun_list_data_selectors_cfg : list EebusDataCfg :=
  [ EEBUS_DATA_UINT32 "overrunId" ].

Definition affected_system_function_id_element_data_cfg : EebusDataCfg := Simple "" 0 (KNumeric false 32).

Definition hvac_overrun_description_data_cfg : list EebusDataCfg :=
  [ EEBUS_DATA_UINT32_WITH_FLAGS "overrunId" kEebusDataFlagIsIdentifier;
    EEBUS_DATA_ENUM "overrunType" hvac_overrun_type_lut;
    EEBUS_DATA_LIST "affectedSystemFunctionId" affected_system_function_id_element_data_cfg;
    EEBUS_DATA_STRING "label";
    EEBUS_DATA_STRING "description" ].

Definition hvac_overrun_description_data_elements_cfg : list EebusDataCfg :=
  [ EEBUS_DATA_TAG "overrunId";
    EEBUS_DATA_TAG "overrunType";
    EEBUS_DATA_TAG "affectedSystemFunctionId";
    EEBUS_DATA_TAG "label";
    EEBUS_DATA_TAG "description" ].

Definition hvac_overrun_description_data_element_data_cfg : EebusDataCfg :=
  Sequence "" 0 hvac_overrun_description_data_cfg.

Definition hvac_overrun_description_list_data_cfg : list EebusDataCfg :=
  [ EEBUS_DATA_LIST "hvacOverrunDescriptionData" hvac_overrun_description_data_element_data_cfg ].

Definition hvac_overrun_description_list_data_selectors_cfg : list EebusDataCfg :=
  [ EEBUS_DATA_UINT32 "overrunId" ].

(** ** [identification_types.inc] *)

Definition identification_type_lut : list (string * Z) :=
  [ ("eui48", 0); ("eui64", 1); ("userRfidTag", 2) ].

Definition identification_data_cfg : list EebusDataCfg :=
  [ EEBUS_DATA_UINT32_WITH_FLAGS "identificationId" kEebusDataFlagIsIdentifier;
    EEBUS_DATA_ENUM "identificationType" identification_type_lut;
    EEBUS_DATA_STRING "identificationValue";
    EEBUS_DATA_BOOL "authorized" ].

Definition identification_data_elements_cfg : list EebusDataCfg :=
  [ EEBUS_DATA_TAG "identificationId";
    EEBUS_DATA_TAG "identificationType";
    EEBUS_DATA_TAG "identificationValue";
    EEBUS_DATA_TAG "authorized" ].

Definition identification_data_element_data_cfg : EebusDataCfg := Sequence "" 0 identification_data_cfg.

Definition identification_list_data_cfg : list EebusDataCfg :=
  [ EEBUS_DATA_LIST "identificationData" identification_data_element_data_cfg ].

Definition identification_list_data_selectors_cfg : list EebusDataCfg :=
  [ EEBUS_DATA_UINT32 "identificationId";
    EEBUS_DATA_ENUM "identificationType" identification_type_lut ].

Definition session_identification_data_cfg : list EebusDataCfg :=
  [ EEBUS_DATA_UINT32_WITH_FLAGS "sessionId" kEebusDataFlagIsIdentifier;
    EEBUS_DATA_UINT32 "identificationId";
    EEBUS_DATA_BOOL "isLatestSession";
    EEBUS_DATA_SEQUENCE "timePeriod" time_period_cfg ].

Definition session_identification_data_elements_cfg : list EebusDataCfg :=
  [ EEBUS_DATA_TAG "sessionId";
    EEBUS_DATA_TAG "identificationId";
    EEBUS_DATA_TAG "isLatestSession";
    EEBUS_DATA_SEQUENCE "timePeriod" time_period_elements_cfg ].

Definition session_identification_data_element_data_cfg : EebusDataCfg :=
  Sequence "" 0 session_identification_data_cfg.

Definition session_identification_list_data_cfg : list EebusDataCfg :=
  [ EEBUS_DATA_LIST "sessionIdentificationData" session_identification_data_element_data_cfg ].

Definition session_identification_list_data_selectors_cfg : list EebusDataCfg :=
  [ EEBUS_DATA_UINT32 "sessionId";
    EEBUS_DATA_UINT32 "identificationId";
    EEBUS_DATA_BOOL "isLatestSession";
    EEBUS_DATA_SEQUENCE "timePeriod" time_period_cfg ].

Definition measurement_id_element_data_cfg : EebusDataCfg := Simple "" 0 (KNumeric false 32).

Definition session_measurement_relation_data_cfg : list EebusDataCfg :=
  [ EEBUS_DATA_UINT32_WITH_FLAGS "sessionId" kEebusDataFlagIsIdentifier;
    EEBUS_DATA_LIST "measurementId" measurement_id_element_data_cfg ].

Definition session_measurement_relation_data_elements_cfg : list EebusDataCfg :=
  [ EEBUS_DATA_TAG "sessionId";
    EEBUS_DATA_TAG "measurementId" ].

Definition session_measurement_relation_data_element_data_cfg : EebusDataCfg :=
  Sequence "" 0 session_measurement_relation_data_cfg.

Definition session_measurement_relation_list_data_cfg : list EebusDataCfg :=
  [ EEBUS_DATA_LIST "sessionMeasurementRelationData" session_measurement_relation_data_element_data_cfg ].

Definition session_measurement_relation_list_data_selectors_cfg : list EebusDataCfg :=
  [ EEBUS_DATA_UINT32 "sessionId";
    EEBUS_DATA_UINT32 "measurementId" ].

(** ** [timetable_types.inc] *)

Definition time_slot_time_mode_lut : list (string * Z) :=
  [ ("absolute", 0); ("recurring", 1); ("both", 2) ].

Definition time_table_data_cfg : list EebusDataCfg :=
  [ EEBUS_DATA_UINT32_WITH_FLAGS "timeTableId" kEebusDataFlagIsIdentifier;
    EEBUS_DATA_UINT32 "timeSlotId";
    EEBUS_DATA_SEQUENCE "recurrenceInformation" recurrence_information_cfg;
    EEBUS_DATA_SEQUENCE "startTime" absolute_or_recurring_time_cfg;
    EEBUS_DATA_SEQUENCE "endTime" absolute_or_recurring_time_cfg ].

Definition time_table_data_elements_cfg : list EebusDataCfg :=
  [ EEBUS_DATA_TAG "timeTableId";
    EEBUS_DATA_TAG "timeSlotId";
    EEBUS_DATA_SEQUENCE "recurrenceInformation" recurrence_information_elements_cfg;
    EEBUS_DATA_SEQUENCE "startTime" absolute_or_recurring_time_elements_cfg;
    EEBUS_DATA_SEQUENCE "endTime" absolute_or_recurring_time_elements_cfg ].

Definition time_table_data_element_data_cfg : EebusDataCfg := Sequence "" 0 time_table_data_cfg.

Definition time_table_list_data_cfg : list EebusDataCfg :=
  [ EEBUS_DATA_LIST "timeTableData" time_table_data_element_data_cfg ].

Definition time_table_list_data_selectors_cfg : list EebusDataCfg :=
  [ EEBUS_DATA_UINT32 "timeTableId";
    EEBUS_DATA_UINT32 "timeSlotId" ].

Definition time_table_constraints_data_cfg : list EebusDataCfg :=
  [ EEBUS_DATA_UINT32_WITH_FLAGS "timeTableId" kEebusDataFlagIsIdentifier;
    EEBUS_DATA_UINT32 "slotCountMin";
    EEBUS_DATA_UINT32 "slotCountMax";
    EEBUS_DATA_DURATION "slotDurationMin";
    EEBUS_DATA_DURATION "slotDurationMax";
    EEBUS_DATA_DURATION "slotDurationStepSize";
    EEBUS_DATA_DURATION "slotShiftStepSize";
    EEBUS_DATA_TIME "firstSlotBeginsAt" ].

Definition time_table_constraints_data_elements_cfg : list EebusDataCfg :=
  [ EEBUS_DATA_TAG "timeTableId";
    EEBUS_DATA_TAG "slotCountMin";
    EEBUS_DATA_TAG "slotCountMax";
    EEBUS_DATA_TAG "slotDurationMin";
    EEBUS_DATA_TAG "slotDurationMax";
    EEBUS_DATA_TAG "slotDurationStepSize";
    EEBUS_DATA_TAG "slotShiftStepSize";
    EEBUS_DATA_TAG "firstSlotBeginsAt" ].

Definition time_table_constraints_data_element_data_cfg : EebusDataCfg :=
  Sequence "" 0 time_table_constraints_data_cfg.

Definition time_table_constraints_list_data_cfg : list EebusDataCfg :=
  [ EEBUS_DATA_LIST "timeTableConstraintsData" time_table_constraints_data_element_data_cfg ].

Definition time_table_constraints_list_data_selectors_cfg : list EebusDataCfg :=
  [ EEBUS_DATA_UINT32 "timeTableId" ].

Definition time_table_description_data_cfg : list EebusDataCfg :=
  [ EEBUS_DATA_UINT32_WITH_FLAGS "timeTableId" kEebusDataFlagIsIdentifier;
    EEBUS_DATA_BOOL "timeSlotCountChangeable";
    EEBUS_DATA_BOOL "timeSlotTimesChangeable";
    EEBUS_DATA_ENUM "timeSlotTimeMode" time_slot_time_mode_lut;
    EEBUS_DATA_STRING "label";
    EEBUS_DATA_STRING "description" ].

Definition time_table_description_data_elements_cfg : list EebusDataCfg :=
  [ EEBUS_DATA_TAG "timeTableId";
    EEBUS_DATA_TAG "timeSlotCountChangeable";
    EEBUS_DATA_TAG "timeSlotTimesChangeable";
    EEBUS_DATA_TAG "timeSlotTimeMode";
    EEBUS_DATA_TAG "label";
    EEBUS_DATA_TAG "description" ].

Definition time_table_description_data_element_data_cfg : EebusDataCfg :=
  Sequence "" 0 time_table_description_data_cfg.

Definition time_table_description_list_data_cfg : list EebusDataCfg :=
  [ EEBUS_DATA_LIST "timeTableDescriptionData" time_table_description_data_element_data_cfg ].

Definition time_table_description_list_data_selectors_cfg : list EebusDataCfg :=
  [ EEBUS_DATA_UINT32 "timeTableId" ].

(** ** [incentive_table_types.inc] *)

Definition boundary_element_data_cfg : EebusDataCfg := Sequence "" 0 tier_boundary_data_cfg.

Definition incentive_element_data_cfg : EebusDataCfg := Sequence "" 0 incentive_data_cfg.

Definition incentive_table_tier_cfg : list EebusDataCfg :=
  [ EEBUS_DATA_SEQUENCE "tier" tier_data_cfg;
    EEBUS_DATA_LIST "boundary" boundary_element_data_cfg;
    EEBUS_DATA_LIST "incentive" incentive_element_data_cfg ].

Definition tier_element_data_cfg : EebusDataCfg := Sequence "" 0 incentive_table_tier_cfg.

Definition incentive_table_incentive_slot_cfg : list EebusDataCfg :=
  [ EEBUS_DATA_SEQUENCE "timeInterval" time_table_data_cfg;
    EEBUS_DATA_LIST "tier" tier_element_data_cfg ].

Definition incentive_slot_element_data_cfg : EebusDataCfg := Sequence "" 0 incentive_table_incentive_slot_cfg.

Definition incentive_table_cfg : list EebusDataCfg :=
  [ EEBUS_DATA_SEQUENCE "tariff" tariff_data_cfg;
    EEBUS_DATA_LIST "incentiveSlot" incentive_slot_element_data_cfg ].

Definition incentive_table_tier_elements_cfg : list EebusDataCfg :=
  [ EEBUS_DATA_SEQUENCE "tier" tier_data_elements_cfg;
    EEBUS_DATA_SEQUENCE "boundary" tier_boundary_data_elements_cfg;
    EEBUS_DATA_SEQUENCE "incentive" incentive_data_elements_cfg ].

Definition incentive_table_incentive_slot_elements_cfg : list EebusDataCfg :=
  [ EEBUS_DATA_SEQUENCE "timeInterval" time_table_data_elements_cfg;
    EEBUS_DATA_SEQUENCE "tier" incentive_table_tier_elements_cfg ].

Definition incentive_table_elements_cfg : list EebusDataCfg :=
  [ EEBUS_DATA_SEQUENCE "tariff" tariff_data_elements_cfg;
    EEBUS_DATA_SEQUENCE "incentiveSlot" incentive_table_incentive_slot_elements_cfg ].

Definition incentive_table_element_data_cfg : EebusDataCfg := Sequence "" 0 incentive_table_cfg.

Definition incentive_table_data_cfg : list EebusDataCfg :=
  [ EEBUS_DATA_LIST "incentiveTable" incentive_table_element_data_cfg ].

Definition incentive_table_data_elements_cfg : list EebusDataCfg :=
  [ EEBUS_DATA_SEQUENCE "incentiveTable" incentive_table_elements_cfg ].

Definition incentive_table_data_selectors_cfg : list EebusDataCfg :=
  [ EEBUS_DATA_SEQUENCE "tariff" tariff_list_data_selectors_cfg ].

Definition boundary_description_element_data_cfg : EebusDataCfg :=
  Sequence "" 0 tier_boundary_description_data_cfg.

Definition incentive_description_element_data_cfg : EebusDataCfg :=
  Sequence "" 0 incentive_description_data_cfg.

Definition incentive_table_description_tier_cfg : list EebusDataCfg :=
  [ EEBUS_DATA_SEQUENCE "tierDescription" tier_description_data_cfg;
    EEBUS_DATA_LIST "boundaryDescription" boundary_description_element_data_cfg;
    EEBUS_DATA_LIST "incentiveDescription" incentive_description_element_data_cfg ].

Definition incentive_table_description_cfg : list EebusDataCfg :=
  [ EEBUS_DATA_SEQUENCE "tariffDescription" tariff_description_data_cfg;
    EEBUS_DATA_LIST "tier" tier_element_data_cfg ].

Definition incentive_table_description_elements_cfg : list EebusDataCfg :=
  [ EEBUS_DATA_SEQUENCE "tariffDescription" tariff_description_data_elements_cfg;
    EEBUS_DATA_SEQUENCE "tier" incentive_table_description_tier_cfg ].

Definition incentive_table_description_tier_elements_cfg : list EebusDataCfg :=
  [ EEBUS_DATA_SEQUENCE "tierDescription" tier_description_data_elements_cfg;
    EEBUS_DATA_SEQUENCE "boundaryDescription" tier_boundary_description_data_elements_cfg;
    EEBUS_DATA_SEQUENCE "incentiveDescription" incentive_description_data_elements_cfg ].

Definition incentive_table_description_element_data_cfg : EebusDataCfg :=
  Sequence "" 0 incentive_table_description_cfg.

Definition incentive_table_description_data_cfg : list EebusDataCfg :=
  [ EEBUS_DATA_LIST "incentiveTableDescription" incentive_table_description_element_data_cfg ].

Definition incentive_table_description_data_elements_cfg : list EebusDataCfg :=
  [ EEBUS_DATA_SEQUENCE "incentiveTableDescription" incentive_table_description_elements_cfg ].

Definition incentive_table_description_data_selectors_cfg : list EebusDataCfg :=
  [ EEBUS_DATA_SEQUENCE "tariffDescription" tariff_description_list_data_selectors_cfg ].

Definition incentive_table_constraints_cfg : list EebusDataCfg :=
  [ EEBUS_DATA_SEQUENCE "tariff" tariff_data_cfg;
    EEBUS_DATA_SEQUENCE "tariffConstraints" tariff_overall_constraints_data_cfg;
    EEBUS_DATA_SEQUENCE "incentiveSlotConstraints" time_table_constraints_data_cfg ].

Definition incentive_table_constraints_elements_cfg : list EebusDataCfg :=
  [ EEBUS_DATA_SEQUENCE "tariff" tariff_data_elements_cfg;
    EEBUS_DATA_SEQUENCE "tariffConstraints" tariff_overall_constraints_data_elements_cfg;
    EEBUS_DATA_SEQUENCE "incentiveSlotConstraints" time_table_constraints_data_elements_cfg ].

Definition incentive_table_constraints_element_data_cfg : EebusDataCfg :=
  Sequence "" 0 incentive_table_constraints_cfg.

Definition incentive_table_constraints_data_cfg : list EebusDataCfg :=
  [ EEBUS_DATA_LIST "incentiveTableConstraints" incentive_table_constraints_element_data_cfg ].

Definition incentive_table_constraints_data_elements_cfg : list EebusDataCfg :=
  [ EEBUS_DATA_SEQUENCE "incentiveTableConstraints" incentive_table_constraints_elements_cfg ].

Definition incentive_table_constraints_data_selectors_cfg : list EebusDataCfg :=
  [ EEBUS_DATA_SEQUENCE "tariff" tariff_list_data_selectors_cfg ].

(** ** [loadcontrol_types.inc] *)

Definition load_control_event_action_lut : list (string * Z) :=
  [ ("pause", 0); ("resume", 1); ("reduce", 2); ("increase", 3); ("emergency", 4); ("normal", 5) ].

Definition load_control_event_state_lut : list (string * Z) :=
  [ ("eventAccepted", 0); ("eventStarted", 1); ("eventStopped", 2); ("eventRejected", 3); ("eventCancelled",
    4); ("eventError", 5) ].

Definition load_control_limit_type_lut : list (string * Z) :=
  [ ("minValueLimit", 0); ("maxValueLimit", 1); ("signDependentAbsValueLimit", 2) ].

Definition load_control_category_lut : list (string * Z) :=
  [ ("obligation", 0); ("recommendation", 1); ("optimization", 2) ].

Definition load_control_node_data_cfg : list EebusDataCfg :=
  [ EEBUS_DATA_BOOL "isNodeRemoteControllable" ].

Definition load_control_node_data_elements_cfg : list EebusDataCfg :=
  [ EEBUS_DATA_TAG "isNodeRemoteControllable" ].

Definition load_control_event_data_cfg : list EebusDataCfg :=
  [ EEBUS_DATA_ABSOLUTE_OR_RELATIVE_TIME "timestamp";
    EEBUS_DATA_UINT32_WITH_FLAGS "eventId" kEebusDataFlagIsIdentifier;
    EEBUS_DATA_ENUM "eventActionConsume" load_control_event_action_lut;
    EEBUS_DATA_ENUM "eventActionProduce" load_control_event_action_lut;
    EEBUS_DATA_SEQUENCE "timePeriod" time_period_cfg ].

Definition load_control_event_data_elements_cfg : list EebusDataCfg :=
  [ EEBUS_DATA_TAG "timestamp";
    EEBUS_DATA_TAG "eventId";
    EEBUS_DATA_TAG "eventActionConsume";
    EEBUS_DATA_TAG "eventActionProduce";
    EEBUS_DATA_SEQUENCE "timePeriod" time_period_elements_cfg ].

Definition load_control_event_data_element_data_cfg : EebusDataCfg := Sequence "" 0 load_control_event_data_cfg.

Definition load_control_event_list_data_cfg : list EebusDataCfg :=
  [ EEBUS_DATA_LIST "loadControlEventData" load_control_event_data_element_data_cfg ].

Definition load_control_event_list_data_selectors_cfg : list EebusDataCfg :=
  [ EEBUS_DATA_SEQUENCE "timestampInterval" timestamp_interval_cfg;
    EEBUS_DATA_UINT32 "eventId" ].

Definition load_control_state_data_cfg : list EebusDataCfg :=
  [ EEBUS_DATA_ABSOLUTE_OR_RELATIVE_TIME "timestamp";
    EEBUS_DATA_UINT32_WITH_FLAGS "eventId" kEebusDataFlagIsIdentifier;
    EEBUS_DATA_ENUM "eventStateConsume" load_control_event_state_lut;
    EEBUS_DATA_ENUM "appliedEventActionConsume" load_control_event_action_lut;
    EEBUS_DATA_ENUM "eventStateProduce" load_control_event_state_lut;
    EEBUS_DATA_ENUM "appliedEventActionProduce" load_control_event_action_lut ].

Definition load_control_state_data_elements_cfg : list EebusDataCfg :=
  [ EEBUS_DATA_TAG "timestamp";
    EEBUS_DATA_TAG "eventId";
    EEBUS_DATA_TAG "eventStateConsume";
    EEBUS_DATA_TAG "appliedEventActionConsume";
    EEBUS_DATA_TAG "eventStateProduce";
    EEBUS_DATA_TAG "appliedEventActionProduce" ].

Definition load_control_state_data_element_data_cfg : EebusDataCfg := Sequence "" 0 load_control_state_data_cfg.

Definition load_control_state_list_data_cfg : list EebusDataCfg :=
  [ EEBUS_DATA_LIST "loadControlStateData" load_control_state_data_element_data_cfg ].

Definition load_control_state_list_data_selectors_cfg : list EebusDataCfg :=
  [ EEBUS_DATA_SEQUENCE "timestampInterval" timestamp_interval_cfg;
    EEBUS_DATA_UINT32 "eventId" ].

Definition load_control_limit_data_cfg : list EebusDataCfg :=
  [ EEBUS_DATA_UINT32_WITH_FLAGS "limitId" kEebusDataFlagIsIdentifier;
    EEBUS_DATA_BOOL "isLimitChangeable";
    EEBUS_DATA_BOOL "isLimitActive";
    EEBUS_DATA_SEQUENCE "timePeriod" time_period_cfg;
    EEBUS_DATA_SEQUENCE "value" scaled_number_cfg ].

Definition load_control_limit_data_elements_cfg : list EebusDataCfg :=
  [ EEBUS_DATA_TAG "limitId";
    EEBUS_DATA_TAG "isLimitChangeable";
    EEBUS_DATA_TAG "isLimitActive";
    EEBUS_DATA_SEQUENCE "timePeriod" time_period_elements_cfg;
    EEBUS_DATA_SEQUENCE "value" scaled_number_elements_cfg ].

Definition load_control_limit_data_element_data_cfg : EebusDataCfg := Sequence "" 0 load_control_limit_data_cfg.

Definition load_control_limit_list_data_cfg : list EebusDataCfg :=
  [ EEBUS_DATA_LIST "loadControlLimitData" load_control_limit_data_element_data_cfg ].

Definition load_control_limit_list_data_selectors_cfg : list EebusDataCfg :=
  [ EEBUS_DATA_UINT32 "limitId" ].

Definition load_control_limit_constraints_data_cfg : list EebusDataCfg :=
  [ EEBUS_DATA_UINT32_WITH_FLAGS "limitId" kEebusDataFlagIsIdentifier;
    EEBUS_DATA_SEQUENCE "valueRangeMin" scaled_number_cfg;
    EEBUS_DATA_SEQUENCE "valueRangeMax" scaled_number_cfg;
    EEBUS_DATA_SEQUENCE "valueStepSize" scaled_number_cfg ].

Definition load_control_limit_constraints_data_elements_cfg : list EebusDataCfg :=
  [ EEBUS_DATA_TAG "limitId";
    EEBUS_DATA_SEQUENCE "valueRangeMin" scaled_number_elements_cfg;
    EEBUS_DATA_SEQUENCE "valueRangeMax" scaled_number_elements_cfg;
    EEBUS_DATA_SEQUENCE "valueStepSize" scaled_number_elements_cfg ].

Definition load_control_limit_constraints_data_element_data_cfg : EebusDataCfg :=
  Sequence "" 0 load_control_limit_constraints_data_cfg.

Definition load_control_limit_constraints_list_data_cfg : list EebusDataCfg :=
  [ EEBUS_DATA_LIST "loadControlLimitConstraintsData" load_control_limit_constraints_data_element_data_cfg ].

Definition load_control_limit_constraints_list_data_selectors_cfg : list EebusDataCfg :=
  [ EEBUS_DATA_UINT32 "limitId" ].

Definition load_control_limit_description_data_cfg : list EebusDataCfg :=
  [ EEBUS_DATA_UINT32_WITH_FLAGS "limitId" kEebusDataFlagIsIdentifier;
    EEBUS_DATA_ENUM "limitType" load_control_limit_type_lut;
    EEBUS_DATA_ENUM "limitCategory" load_control_category_lut;
    EEBUS_DATA_ENUM "limitDirection" energy_direction_lut;
    EEBUS_DATA_UINT32 "measurementId";
    EEBUS_DATA_ENUM "unit" unit_of_measurement_lut;
    EEBUS_DATA_ENUM "scopeType" scope_type_lut;
    EEBUS_DATA_STRING "label";
    EEBUS_DATA_STRING "description" ].

Definition load_control_limit_description_data_elements_cfg : list EebusDataCfg :=
  [ EEBUS_DATA_TAG "limitId";
    EEBUS_DATA_TAG "limitType";
    EEBUS_DATA_TAG "limitCategory";
    EEBUS_DATA_TAG "limitDirection";
    EEBUS_DATA_TAG "measurementId";
    EEBUS_DATA_TAG "unit";
    EEBUS_DATA_TAG "scopeType";
    EEBUS_DATA_TAG "label";
    EEBUS_DATA_TAG "description" ].

Definition load_control_limit_description_data_element_data_cfg : EebusDataCfg :=
  Sequence "" 0 load_control_limit_description_data_cfg.

Definition load_control_limit_description_list_data_cfg : list EebusDataCfg :=
  [ EEBUS_DATA_LIST "loadControlLimitDescriptionData" load_control_limit_description_data_element_data_cfg ].

Definition load_control_limit_description_list_data_selectors_cfg : list EebusDataCfg :=
  [ EEBUS_DATA_UINT32 "limitId";
    EEBUS_DATA_ENUM "limitType" load_control_limit_type_lut;
    EEBUS_DATA_ENUM "limitDirection" energy_direction_lut;
    EEBUS_DATA_UINT32 "measurementId";
    EEBUS_DATA_ENUM "scopeType" scope_type_lut ].

(** ** [messaging_types.inc] *)

Definition messaging_type_lut : list (string * Z) :=
  [ ("logging", 0); ("information", 1); ("warning", 2); ("alarm", 3); ("emergency", 4); ("obsolete", 5) ].

Definition messaging_data_cfg : list EebusDataCfg :=
  [ EEBUS_DATA_ABSOLUTE_OR_RELATIVE_TIME "timestamp";
    EEBUS_DATA_UINT32_WITH_FLAGS "messagingNumber" kEebusDataFlagIsIdentifier;
    EEBUS_DATA_ENUM "type" messaging_type_lut;
    EEBUS_DATA_STRING "text" ].

Definition messaging_data_elements_cfg : list EebusDataCfg :=
  [ EEBUS_DATA_TAG "timestamp";
    EEBUS_DATA_TAG "messagingNumber";
    EEBUS_DATA_TAG "type";
    EEBUS_DATA_TAG "text" ].

Definition messaging_data_element_data_cfg : EebusDataCfg := Sequence "" 0 messaging_data_cfg.

Definition messaging_list_data_cfg : list EebusDataCfg :=
  [ EEBUS_DATA_LIST "messagingData" messaging_data_element_data_cfg ].

Definition messaging_list_data_selectors_cfg : list EebusDataCfg :=
  [ EEBUS_DATA_SEQUENCE "timestampInterval" timestamp_interval_cfg;
    EEBUS_DATA_UINT32 "messagingNumber" ].

(** ** [device_types.inc] *)

Definition device_address_cfg : list EebusDataCfg :=
  [ EEBUS_DATA_STRING "device" ].

Definition device_type_lut : list (string * Z) :=
  [ ("Dishwasher", 0); ("Dryer", 1); ("EnvironmentSensor", 2); ("Generic", 3); ("HeatGenerationSystem", 4);
    ("HeatSinkSystem", 5); ("HeatStorageSystem", 6); ("HVACController", 7); ("SubMeter", 8); ("Washer", 9);
    ("ElectricitySupplySystem", 10); ("EnergyManagementSystem", 11); ("Inverter", 12); ("ChargingStation", 13)
    ].

(** ** [entity_types.inc] *)

Definition entity_address_cfg : list EebusDataCfg :=
  [ EEBUS_DATA_STRING "device";
    EEBUS_DATA_LIST "entity" entity_element_data_cfg ].

Definition entity_type_lut : list (string * Z) :=
  [ ("Battery", 0); ("Compressor", 1); ("DeviceInformation", 2); ("DHWCircuit", 3); ("DHWStorage", 4);
    ("Dishwasher", 5); ("Dryer", 6); ("ElectricalImmersionHeater", 7); ("Fan", 8); ("GasHeatingAppliance", 9);
    ("Generic", 10); ("HeatingBufferStorage", 11); ("HeatingCircuit", 12); ("HeatingObject", 13);
    ("HeatingZone", 14); ("HeatPumpAppliance", 15); ("HeatSinkCircuit", 16); ("HeatSourceCircuit", 17);
    ("HeatSourceUnit", 18); ("HVACController", 19); ("HVACRoom", 20); ("InstantDHWHeater", 21); ("Inverter",
    22); ("OilHeatingAppliance", 23); ("Pump", 24); ("RefrigerantCircuit", 25); ("SmartEnergyAppliance", 26);
    ("SolarDHWStorage", 27); ("SolarThermalCircuit", 28); ("SubMeterElectricity", 29); ("TemperatureSensor",
    30); ("Washer", 31); ("BatterySystem", 32); ("ElectricityGenerationSystem", 33);
    ("ElectricityStorageSystem", 34); ("GridConnectionPointOfPremises", 35); ("Household", 36); ("PVSystem",
    37); ("EV", 38); ("EVSE", 39); ("ChargingOutlet", 40); ("CEM", 41); ("PV", 42); ("PVESHybrid", 43);
    ("ElectricalStorage", 44); ("PVString", 45); ("GridGuard", 46); ("ControllableSystem", 47) ].

(** ** [possible_operations_types.inc] *)

Definition possible_operations_classifier_cfg : list EebusDataCfg :=
  [ EEBUS_DATA_TAG "partial" ].

Definition possible_operations_read_cfg : list EebusDataCfg :=
  [ EEBUS_DATA_TAG "partial" ].

Definition possible_operations_write_cfg : list EebusDataCfg :=
  [ EEBUS_DATA_TAG "partial" ].

Definition possible_operations_cfg : list EebusDataCfg :=
  [ EEBUS_DATA_SEQUENCE "read" possible_operations_read_cfg;
    EEBUS_DATA_SEQUENCE "write" possible_operations_write_cfg ].

Definition possible_operations_elements_cfg : list EebusDataCfg :=
  [ EEBUS_DATA_TAG "read";
    EEBUS_DATA_TAG "write" ].

(** ** [function_types.inc] *)

Definition function_lut : list (string * Z) :=
  [ ("actuatorLevelData", 0); ("actuatorLevelDescriptionData", 1); ("actuatorSwitchData", 2);
    ("actuatorSwitchDescriptionData", 3); ("alarmListData", 4); ("billConstraintsListData", 5);
    ("billDescriptionListData", 6); ("billListData", 7); ("bindingManagementDeleteCall", 8);
    ("bindingManagementEntryListData", 9); ("bindingManagementRequestCall", 10); ("commodityListData", 11);
    ("dataTunnelingCall", 12); ("deviceClassificationManufacturerData", 13); ("deviceClassificationUserData",
    14); ("deviceConfigurationKeyValueConstraintsListData", 15);
    ("deviceConfigurationKeyValueDescriptionListData", 16); ("deviceConfigurationKeyValueListData", 17);
    ("deviceDiagnosisHeartbeatData", 18); ("deviceDiagnosisServiceData", 19); ("deviceDiagnosisStateData",
    20); ("directControlActivityListData", 21); ("directControlDescriptionData", 22);
    ("electricalConnectionCharacteristicData", 23); ("electricalConnectionCharacteristicListData", 24);
    ("electricalConnectionDescriptionListData", 25); ("electricalConnectionParameterDescriptionListData", 26);
    ("electricalConnectionPermittedValueSetListData", 27); ("electricalConnectionStateListData", 28);
    ("hvacOperationModeDescriptionListData", 29); ("hvacOverrunDescriptionListData", 30);
    ("hvacOverrunListData", 31); ("hvacSystemFunctionDescriptionListData", 32); ("hvacSystemFunctionListData",
    33); ("hvacSystemFunctionOperationModeRelationListData", 34);
    ("hvacSystemFunctionPowerSequenceRelationListData", 35); ("hvacSystemFunctionSetpointRelationListData",
    36); ("identificationListData", 37); ("incentiveDescriptionListData", 38); ("incentiveListData", 39);
    ("incentiveTableConstraintsData", 40); ("incentiveTableData", 41); ("incentiveTableDescriptionData", 42);
    ("loadControlEventListData", 43); ("loadControlLimitConstraintsListData", 44);
    ("loadControlLimitDescriptionListData", 45); ("loadControlLimitListData", 46); ("loadControlNodeData",
    47); ("loadControlStateListData", 48); ("measurementConstraintsListData", 49);
    ("measurementDescriptionListData", 50); ("measurementListData", 51); ("measurementSeriesListData", 52);
    ("measurementThresholdRelationListData", 53); ("messagingListData", 54); ("networkManagementAbortCall",
    55); ("networkManagementAddNodeCall", 56); ("networkManagementDeviceDescriptionListData", 57);
    ("networkManagementDiscoverCall", 58); ("networkManagementEntityDescriptionListData", 59);
    ("networkManagementFeatureDescriptionListData", 60); ("networkManagementJoiningModeData", 61);
    ("networkManagementModifyNodeCall", 62); ("networkManagementProcessStateData", 63);
    ("networkManagementRemoveNodeCall", 64); ("networkManagementReportCandidateData", 65);
    ("networkManagementScanNetworkCall", 66); ("nodeManagementBindingData", 67);
    ("nodeManagementBindingDeleteCall", 68); ("nodeManagementBindingRequestCall", 69);
    ("nodeManagementDestinationListData", 70); ("nodeManagementDetailedDiscoveryData", 71);
    ("nodeManagementSubscriptionData", 72); ("nodeManagementSubscriptionDeleteCall", 73);
    ("nodeManagementSubscriptionRequestCall", 74); ("nodeManagementUseCaseData", 75);
    ("operatingConstraintsDurationListData", 76); ("operatingConstraintsInterruptListData", 77);
    ("operatingConstraintsPowerDescriptionListData", 78); ("operatingConstraintsPowerLevelListData", 79);
    ("operatingConstraintsPowerRangeListData", 80); ("operatingConstraintsResumeImplicationListData", 81);
    ("powerSequenceAlternativesRelationListData", 82); ("powerSequenceDescriptionListData", 83);
    ("powerSequenceNodeScheduleInformationData", 84); ("powerSequencePriceCalculationRequestCall", 85);
    ("powerSequencePriceListData", 86); ("powerSequenceScheduleConfigurationRequestCall", 87);
    ("powerSequenceScheduleConstraintsListData", 88); ("powerSequenceScheduleListData", 89);
    ("powerSequenceSchedulePreferenceListData", 90); ("powerSequenceStateListData", 91);
    ("powerTimeSlotScheduleConstraintsListData", 92); ("powerTimeSlotScheduleListData", 93);
    ("powerTimeSlotValueListData", 94); ("resultData", 95); ("sensingDescriptionData", 96);
    ("sensingListData", 97); ("sessionIdentificationListData", 98); ("sessionMeasurementRelationListData",
    99); ("setpointConstraintsListData", 100); ("setpointDescriptionListData", 101); ("setpointListData",
    102); ("smartEnergyManagementPsConfigurationRequestCall", 103); ("smartEnergyManagementPsData", 104);
    ("smartEnergyManagementPsPriceCalculationRequestCall", 105); ("smartEnergyManagementPsPriceData", 106);
    ("specificationVersionListData", 107); ("stateInformationListData", 108);
    ("subscriptionManagementDeleteCall", 109); ("subscriptionManagementEntryListData", 110);
    ("subscriptionManagementRequestCall", 111); ("supplyConditionDescriptionListData", 112);
    ("supplyConditionListData", 113); ("supplyConditionThresholdRelationListData", 114);
    ("tariffBoundaryRelationListData", 115); ("tariffDescriptionListData", 116); ("tariffListData", 117);
    ("tariffOverallConstraintsData", 118); ("tariffTierRelationListData", 119);
    ("taskManagementJobDescriptionListData", 120); ("taskManagementJobListData", 121);
    ("taskManagementJobRelationListData", 122); ("taskManagementOverviewData", 123);
    ("thresholdConstraintsListData", 124); ("thresholdDescriptionListData", 125); ("thresholdListData", 126);
    ("tierBoundaryDescriptionListData", 127); ("tierBoundaryListData", 128); ("tierDescriptionListData", 129);
    ("tierIncentiveRelationListData", 130); ("tierListData", 131); ("timeDistributorData", 132);
    ("timeDistributorEnquiryCall", 133); ("timeInformationData", 134); ("timePrecisionData", 135);
    ("timeSeriesConstraintsListData", 136); ("timeSeriesDescriptionListData", 137); ("timeSeriesListData",
    138); ("timeTableConstraintsListData", 139); ("timeTableDescriptionListData", 140); ("timeTableListData",
    141); ("useCaseInformationListData", 142) ].

Definition function_property_cfg : list EebusDataCfg :=
  [ EEBUS_DATA_ENUM "function" function_lut;
    EEBUS_DATA_SEQUENCE "possibleOperations" possible_operations_cfg ].

Definition function_property_elements_cfg : list EebusDataCfg :=
  [ EEBUS_DATA_TAG "function";
    EEBUS_DATA_TAG "possibleOperations" ].

(** ** [network_management_types.inc] *)

Definition network_management_feature_set_lut : list (string * Z) :=
  [ ("gateway", 0); ("router", 1); ("smart", 2); ("simple", 3) ].

Definition network_management_process_state_state_lut : list (string * Z) :=
  [ ("succeeded", 0); ("failed", 1); ("aborted", 2) ].

Definition network_management_state_change_lut : list (string * Z) :=
  [ ("added", 0); ("removed", 1); ("modified", 2) ].

Definition network_management_add_node_call_cfg : list EebusDataCfg :=
  [ EEBUS_DATA_SEQUENCE "nodeAddress" feature_address_cfg;
    EEBUS_DATA_STRING "nativeSetup";
    EEBUS_DATA_DURATION "timeout";
    EEBUS_DATA_STRING "label";
    EEBUS_DATA_STRING "description" ].

Definition network_management_add_node_call_elements_cfg : list EebusDataCfg :=
  [ EEBUS_DATA_SEQUENCE "nodeAddress" feature_address_elements_cfg;
    EEBUS_DATA_TAG "nativeSetup";
    EEBUS_DATA_TAG "timeout";
    EEBUS_DATA_TAG "label";
    EEBUS_DATA_TAG "description" ].

Definition network_management_remove_node_call_cfg : list EebusDataCfg :=
  [ EEBUS_DATA_SEQUENCE "nodeAddress" feature_address_cfg;
    EEBUS_DATA_DURATION "timeout" ].

Definition network_management_remove_node_call_elements_cfg : list EebusDataCfg :=
  [ EEBUS_DATA_SEQUENCE "nodeAddress" feature_address_elements_cfg;
    EEBUS_DATA_TAG "timeout" ].

Definition network_management_modify_node_call_cfg : list EebusDataCfg :=
  [ EEBUS_DATA_SEQUENCE "nodeAddress" feature_address_cfg;
    EEBUS_DATA_STRING "nativeSetup";
    EEBUS_DATA_DURATION "timeout";
    EEBUS_DATA_STRING "label";
    EEBUS_DATA_STRING "description" ].

Definition network_management_modify_node_call_elements_cfg : list EebusDataCfg :=
  [ EEBUS_DATA_SEQUENCE "nodeAddress" feature_address_elements_cfg;
    EEBUS_DATA_TAG "nativeSetup";
    EEBUS_DATA_TAG "timeout";
    EEBUS_DATA_TAG "label";
    EEBUS_DATA_TAG "description" ].

Definition network_management_scan_network_call_cfg : list EebusDataCfg :=
  [ EEBUS_DATA_STRING "scanSetup";
    EEBUS_DATA_DURATION "timeout" ].

Definition network_management_scan_network_call_elements_cfg : list EebusDataCfg :=
  [ EEBUS_DATA_TAG "scanSetup";
    EEBUS_DATA_TAG "timeout" ].

Definition network_management_discover_call_cfg : list EebusDataCfg :=
  [ EEBUS_DATA_SEQUENCE "discoverAddress" feature_address_cfg ].

Definition network_management_discover_call_elements_cfg : list EebusDataCfg :=
  [ EEBUS_DATA_SEQUENCE "discoverAddress" feature_address_elements_cfg ].

Definition network_management_process_state_data_cfg : list EebusDataCfg :=
  [ EEBUS_DATA_ENUM "state" network_management_process_state_state_lut;
    EEBUS_DATA_STRING "description" ].

Definition network_management_process_state_data_elements_cfg : list EebusDataCfg :=
  [ EEBUS_DATA_TAG "state";
    EEBUS_DATA_TAG "description" ].

Definition network_management_joining_mode_data_cfg : list EebusDataCfg :=
  [ EEBUS_DATA_STRING "setup" ].

Definition network_management_joining_mode_data_elements_cfg : list EebusDataCfg :=
  [ EEBUS_DATA_TAG "setup" ].

Definition network_management_report_candidate_data_cfg : list EebusDataCfg :=
  [ EEBUS_DATA_STRING "candidateSetup";
    EEBUS_DATA_BOOL "setupUsableForAdd";
    EEBUS_DATA_STRING "label";
    EEBUS_DATA_STRING "description" ].

Definition network_management_report_candidate_data_elements_cfg : list EebusDataCfg :=
  [ EEBUS_DATA_TAG "candidateSetup";
    EEBUS_DATA_TAG "setupUsableForAdd";
    EEBUS_DATA_TAG "label";
    EEBUS_DATA_TAG "description" ].

Definition network_management_device_description_data_cfg : list EebusDataCfg :=
  [ EEBUS_DATA_SEQUENCE_WITH_FLAGS "deviceAddress" device_address_cfg kEebusDataFlagIsIdentifier;
    EEBUS_DATA_ENUM "deviceType" device_type_lut;
    EEBUS_DATA_SEQUENCE "networkManagementResponsibleAddress" feature_address_cfg;
    EEBUS_DATA_STRING "nativeSetup";
    EEBUS_DATA_STRING "technologyAddress";
    EEBUS_DATA_STRING "communicationsTechnologyInformation";
    EEBUS_DATA_ENUM "networkFeatureSet" network_management_feature_set_lut;
    EEBUS_DATA_ENUM "lastStateChange" network_management_state_change_lut;
    EEBUS_DATA_STRING "minimumTrustLevel";
    EEBUS_DATA_STRING "label";
    EEBUS_DATA_STRING "description" ].

Definition network_management_device_description_data_elements_cfg : list EebusDataCfg :=
  [ EEBUS_DATA_TAG "deviceAddress";
    EEBUS_DATA_TAG "deviceType";
    EEBUS_DATA_TAG "networkManagementResponsibleAddress";
    EEBUS_DATA_TAG "nativeSetup";
    EEBUS_DATA_TAG "technologyAddress";
    EEBUS_DATA_TAG "communicationsTechnologyInformation";
    EEBUS_DATA_TAG "networkFeatureSet";
    EEBUS_DATA_TAG "lastStateChange";
    EEBUS_DATA_TAG "minimumTrustLevel";
    EEBUS_DATA_TAG "label";
    EEBUS_DATA_TAG "description" ].

Definition network_management_device_description_data_element_data_cfg : EebusDataCfg :=
  Sequence "" 0 network_management_device_description_data_cfg.

Definition network_management_device_description_list_data_cfg : list EebusDataCfg :=
  [ EEBUS_DATA_LIST "networkManagementDeviceDescriptionData" network_management_device_description_data_element_data_cfg ].

Definition network_management_device_description_list_data_selectors_cfg : list EebusDataCfg :=
  [ EEBUS_DATA_SEQUENCE "deviceAddress" device_address_cfg;
    EEBUS_DATA_ENUM "deviceType" device_type_lut ].

Definition network_management_entity_description_data_cfg : list EebusDataCfg :=
  [ EEBUS_DATA_SEQUENCE_WITH_FLAGS "entityAddress" entity_address_cfg kEebusDataFlagIsIdentifier;
    EEBUS_DATA_ENUM "entityType" entity_type_lut;
    EEBUS_DATA_ENUM "lastStateChange" network_management_state_change_lut;
    EEBUS_DATA_STRING "minimumTrustLevel";
    EEBUS_DATA_STRING "label";
    EEBUS_DATA_STRING "description" ].

Definition network_management_entity_description_data_elements_cfg : list EebusDataCfg :=
  [ EEBUS_DATA_TAG "entityAddress";
    EEBUS_DATA_TAG "entityType";
    EEBUS_DATA_TAG "lastStateChange";
    EEBUS_DATA_TAG "minimumTrustLevel";
    EEBUS_DATA_TAG "label";
    EEBUS_DATA_TAG "description" ].

Definition network_management_entity_description_data_element_data_cfg : EebusDataCfg :=
  Sequence "" 0 network_management_entity_description_data_cfg.

Definition network_management_entity_description_list_data_cfg : list EebusDataCfg :=
  [ EEBUS_DATA_LIST "networkManagementEntityDescriptionData" network_management_entity_description_data_element_data_cfg ].

Definition network_management_entity_description_list_data_selectors_cfg : list EebusDataCfg :=
  [ EEBUS_DATA_SEQUENCE "entityAddress" entity_address_cfg;
    EEBUS_DATA_ENUM "entityType" entity_type_lut ].

Definition specific_usage_element_data_cfg : EebusDataCfg := Simple "" 0 (KEnum feature_specific_usage_lut).

Definition supported_function_element_data_cfg : EebusDataCfg := Sequence "" 0 function_property_cfg.

Definition network_management_feature_description_data_cfg : list EebusDataCfg :=
  [ EEBUS_DATA_SEQUENCE_WITH_FLAGS "featureAddress" feature_address_cfg kEebusDataFlagIsIdentifier;
    EEBUS_DATA_ENUM "featureType" feature_type_lut;
    EEBUS_DATA_LIST "specificUsage" specific_usage_element_data_cfg;
    EEBUS_DATA_STRING "featureGroup";
    EEBUS_DATA_ENUM "role" role_lut;
    EEBUS_DATA_LIST "supportedFunction" supported_function_element_data_cfg;
    EEBUS_DATA_ENUM "lastStateChange" network_management_state_change_lut;
    EEBUS_DATA_STRING "minimumTrustLevel";
    EEBUS_DATA_STRING "label";
    EEBUS_DATA_STRING "description";
    EEBUS_DATA_DURATION "maxResponseDelay" ].

Definition network_management_feature_description_data_elements_cfg : list EebusDataCfg :=
  [ EEBUS_DATA_SEQUENCE "featureAddress" feature_address_elements_cfg;
    EEBUS_DATA_TAG "featureType";
    EEBUS_DATA_TAG "specificUsage";
    EEBUS_DATA_TAG "featureGroup";
    EEBUS_DATA_TAG "role";
    EEBUS_DATA_SEQUENCE "supportedFunction" function_property_elements_cfg;
    EEBUS_DATA_TAG "lastStateChange";
    EEBUS_DATA_TAG "minimumTrustLevel";
    EEBUS_DATA_TAG "label";
    EEBUS_DATA_TAG "description";
    EEBUS_DATA_TAG "maxResponseDelay" ].

Definition network_management_feature_description_data_element_data_cfg : EebusDataCfg :=
  Sequence "" 0 network_management_feature_description_data_cfg.

Definition network_management_feature_description_list_data_cfg : list EebusDataCfg :=
  [ EEBUS_DATA_LIST "networkManagementFeatureDescriptionData" network_management_feature_description_data_element_data_cfg ].

Definition network_management_feature_description_list_data_selectors_cfg : list EebusDataCfg :=
  [ EEBUS_DATA_SEQUENCE "featureAddress" feature_address_cfg;
    EEBUS_DATA_ENUM "featureType" feature_type_lut ].

(** ** [subscription_management_types.inc] *)

Definition subscription_management_entry_data_cfg : list EebusDataCfg :=
  [ EEBUS_DATA_UINT32_WITH_FLAGS "subscriptionId" kEebusDataFlagIsIdentifier;
    EEBUS_DATA_SEQUENCE "clientAddress" feature_address_cfg;
    EEBUS_DATA_SEQUENCE "serverAddress" feature_address_cfg;
    EEBUS_DATA_STRING "label";
    EEBUS_DATA_STRING "description" ].

Definition subscription_management_entry_data_elements_cfg : list EebusDataCfg :=
  [ EEBUS_DATA_TAG "subscriptionId";
    EEBUS_DATA_SEQUENCE "clientAddress" feature_address_elements_cfg;
    EEBUS_DATA_SEQUENCE "serverAddress" feature_address_elements_cfg;
    EEBUS_DATA_TAG "label";
    EEBUS_DATA_TAG "description" ].

Definition subscription_management_entry_data_element_data_cfg : EebusDataCfg :=
  Sequence "" 0 subscription_management_entry_data_cfg.

Definition subscription_management_entry_list_data_cfg : list EebusDataCfg :=
  [ EEBUS_DATA_LIST "subscriptionManagementEntryData" subscription_management_entry_data_element_data_cfg ].

Definition subscription_management_entry_list_data_selectors_cfg : list EebusDataCfg :=
  [ EEBUS_DATA_UINT32 "subscriptionId";
    EEBUS_DATA_SEQUENCE "clientAddress" feature_address_cfg;
    EEBUS_DATA_SEQUENCE "serverAddress" feature_address_cfg ].

Definition subscription_management_request_call_cfg : list EebusDataCfg :=
  [ EEBUS_DATA_SEQUENCE "clientAddress" feature_address_cfg;
    EEBUS_DATA_SEQUENCE "serverAddress" feature_address_cfg;
    EEBUS_DATA_ENUM "serverFeatureType" feature_type_lut ].

Definition subscription_management_request_call_elements_cfg : list EebusDataCfg :=
  [ EEBUS_DATA_SEQUENCE "clientAddress" feature_address_elements_cfg;
    EEBUS_DATA_SEQUENCE "serverAddress" feature_address_elements_cfg;
    EEBUS_DATA_TAG "serverFeatureType" ].

Definition subscription_management_delete_call_cfg : list EebusDataCfg :=
  [ EEBUS_DATA_UINT32 "subscriptionId";
    EEBUS_DATA_SEQUENCE "clientAddress" feature_address_cfg;
    EEBUS_DATA_SEQUENCE "serverAddress" feature_address_cfg ].

Definition subscription_management_delete_call_elements_cfg : list EebusDataCfg :=
  [ EEBUS_DATA_TAG "subscriptionId";
    EEBUS_DATA_SEQUENCE "clientAddress" feature_address_elements_cfg;
    EEBUS_DATA_SEQUENCE "serverAddress" feature_address_elements_cfg ].

(** ** [usecase_information_types.inc] *)

Definition use_case_actor_lut : list (string * Z) :=
  [ ("Battery", 0); ("BatterySystem", 1); ("CEM", 2); ("ConfigurationAppliance", 3); ("Compressor", 4);
    ("ControllableSystem", 5); ("DHWCircuit", 6); ("EnergyBroker", 7); ("EnergyConsumer", 8); ("EnergyGuard",
    9); ("EVSE", 10); ("EV", 11); ("GridConnectionPoint", 12); ("HeatPump", 13); ("HeatingCircuit", 14);
    ("HeatingZone", 15); ("HVACRoom", 16); ("Inverter", 17); ("MonitoredUnit", 18); ("MonitoringAppliance",
    19); ("OutdoorTemperatureSensor", 20); ("PVString", 21); ("PVSystem", 22); ("SmartAppliance", 23);
    ("VisualizationAppliance", 24) ].

Definition use_case_name_lut : list (string * Z) :=
  [ ("configurationOfDhwSystemFunction", 0); ("configurationOfDhwTemperature", 1);
    ("configurationOfRoomCoolingSystemFunction", 2); ("configurationOfRoomCoolingTemperature", 3);
    ("configurationOfRoomHeatingSystemFunction", 4); ("configurationOfRoomHeatingTemperature", 5);
    ("controlOfBattery", 6); ("coordinatedEvCharging", 7); ("evChargingSummary", 8);
    ("evCommissioningAndConfiguration", 9); ("evseCommissioningAndConfiguration", 10); ("evStateOfCharge",
    11); ("flexibleLoad", 12); ("flexibleStartForWhiteGoods", 13); ("limitationOfPowerConsumption", 14);
    ("limitationOfPowerProduction", 15); ("incentiveTableBasedPowerConsumptionManagement", 16);
    ("measurementOfElectricityDuringEvCharging", 17); ("monitoringAndControlOfSmartGridReadyConditions", 18);
    ("monitoringOfBattery", 19); ("monitoringOfDhwSystemFunction", 20); ("monitoringOfDhwTemperature", 21);
    ("monitoringOfGridConnectionPoint", 22); ("monitoringOfInverter", 23); ("monitoringOfOutdoorTemperature",
    24); ("monitoringOfPowerConsumption", 25); ("monitoringOfPvString", 26);
    ("monitoringOfRoomCoolingSystemFunction", 27); ("monitoringOfRoomHeatingSystemFunction", 28);
    ("monitoringOfRoomTemperature", 29); ("optimizationOfSelfConsumptionByHeatPumpCompressorFlexibility", 30);
    ("optimizationOfSelfConsumptionDuringEvCharging", 31);
    ("overloadProtectionByEvChargingCurrentCurtailment", 32); ("visualizationOfAggregatedBatteryData", 33);
    ("visualizationOfAggregatedPhotovoltaicData", 34); ("visualizationOfHeatingAreaName", 35) ].

Definition scenario_support_element_data_cfg : EebusDataCfg := Simple "" 0 (KNumeric false 32).

Definition use_case_support_cfg : list EebusDataCfg :=
  [ EEBUS_DATA_ENUM "useCaseName" use_case_name_lut;
    EEBUS_DATA_STRING "useCaseVersion";
    EEBUS_DATA_BOOL "useCaseAvailable";
    EEBUS_DATA_LIST "scenarioSupport" scenario_support_element_data_cfg;
    EEBUS_DATA_STRING "useCaseDocumentSubRevision" ].

Definition use_case_support_elements_cfg : list EebusDataCfg :=
  [ EEBUS_DATA_TAG "useCaseName";
    EEBUS_DATA_TAG "useCaseVersion";
    EEBUS_DATA_TAG "useCaseAvailable";
    EEBUS_DATA_TAG "scenarioSupport";
    EEBUS_DATA_TAG "useCaseDocumentSubRevision" ].

Definition use_case_support_selectors_cfg : list EebusDataCfg :=
  [ EEBUS_DATA_ENUM "useCaseName" use_case_name_lut;
    EEBUS_DATA_STRING "useCaseVersion";
    EEBUS_DATA_UINT32 "scenarioSupport" ].

Definition use_case_support_element_data_cfg : EebusDataCfg := Sequence "" 0 use_case_support_cfg.

Definition use_case_information_data_cfg : list EebusDataCfg :=
  [ EEBUS_DATA_SEQUENCE "address" feature_address_cfg;
    EEBUS_DATA_ENUM "actor" use_case_actor_lut;
    EEBUS_DATA_LIST "useCaseSupport" use_case_support_element_data_cfg ].

Definition use_case_information_data_elements_cfg : list EebusDataCfg :=
  [ EEBUS_DATA_TAG "address";
    EEBUS_DATA_TAG "actor";
    EEBUS_DATA_TAG "useCaseSupport" ].

Definition use_case_information_data_element_data_cfg : EebusDataCfg :=
  Sequence "" 0 use_case_information_data_cfg.

Definition use_case_information_list_data_cfg : list EebusDataCfg :=
  [ EEBUS_DATA_LIST "useCaseInformationData" use_case_information_data_element_data_cfg ].

Definition use_case_information_list_data_selectors_cfg : list EebusDataCfg :=
  [ EEBUS_DATA_SEQUENCE "address" feature_address_cfg;
    EEBUS_DATA_ENUM "actor" use_case_actor_lut;
    EEBUS_DATA_SEQUENCE "useCaseSupport" use_case_support_selectors_cfg ].

(** ** [node_management_types.inc] *)

Definition specification_version_element_data_cfg : EebusDataCfg := Simple "" 0 KString.

Definition node_management_specification_version_list_cfg : list EebusDataCfg :=
  [ EEBUS_DATA_LIST "specificationVersion" specification_version_element_data_cfg ].

Definition node_management_specification_version_list_elements_cfg : list EebusDataCfg :=
  [ EEBUS_DATA_TAG "specificationVersion" ].

Definition node_management_detailed_discovery_device_information_cfg : list EebusDataCfg :=
  [ EEBUS_DATA_SEQUENCE "description" network_management_device_description_data_cfg ].

Definition node_management_detailed_discovery_device_information_elements_cfg : list EebusDataCfg :=
  [ EEBUS_DATA_SEQUENCE "description" network_management_device_description_data_elements_cfg ].

Definition node_management_detailed_discovery_entity_information_cfg : list EebusDataCfg :=
  [ EEBUS_DATA_SEQUENCE "description" network_management_entity_description_data_cfg ].

Definition node_management_detailed_discovery_entity_information_elements_cfg : list EebusDataCfg :=
  [ EEBUS_DATA_SEQUENCE "description" network_management_entity_description_data_elements_cfg ].

Definition node_management_detailed_discovery_feature_information_cfg : list EebusDataCfg :=
  [ EEBUS_DATA_SEQUENCE "description" network_management_feature_description_data_cfg ].

Definition node_management_detailed_discovery_feature_information_elements_cfg : list EebusDataCfg :=
  [ EEBUS_DATA_SEQUENCE "description" network_management_feature_description_data_elements_cfg ].

Definition entity_information_element_data_cfg : EebusDataCfg :=
  Sequence "" 0 node_management_detailed_discovery_entity_information_cfg.

Definition feature_information_element_data_cfg : EebusDataCfg :=
  Sequence "" 0 node_management_detailed_discovery_feature_information_cfg.

Definition node_management_detailed_discovery_data_cfg : list EebusDataCfg :=
  [ EEBUS_DATA_SEQUENCE "specificationVersionList" node_management_specification_version_list_cfg;
    EEBUS_DATA_SEQUENCE "deviceInformation" node_management_detailed_discovery_device_information_cfg;
    EEBUS_DATA_LIST "entityInformation" entity_information_element_data_cfg;
    EEBUS_DATA_LIST "featureInformation" feature_information_element_data_cfg ].

Definition node_management_detailed_discovery_data_elements_cfg : list EebusDataCfg :=
  [ EEBUS_DATA_SEQUENCE "specificationVersionList" node_management_specification_version_list_elements_cfg;
    EEBUS_DATA_SEQUENCE "deviceInformation" node_management_detailed_discovery_device_information_elements_cfg;
    EEBUS_DATA_SEQUENCE "entityInformation" node_management_detailed_discovery_entity_information_elements_cfg;
    EEBUS_DATA_SEQUENCE "featureInformation" node_management_detailed_discovery_feature_information_elements_cfg ].

Definition node_management_detailed_discovery_data_selectors_cfg : list EebusDataCfg :=
  [ EEBUS_DATA_SEQUENCE "deviceInformation" network_management_device_description_list_data_selectors_cfg;
    EEBUS_DATA_SEQUENCE "entityInformation" network_management_entity_description_list_data_selectors_cfg;
    EEBUS_DATA_SEQUENCE "featureInformation" network_management_feature_description_list_data_selectors_cfg ].

Definition binding_entry_element_data_cfg : EebusDataCfg := Sequence "" 0 binding_management_entry_data_cfg.

Definition node_management_binding_data_cfg : list EebusDataCfg :=
  [ EEBUS_DATA_LIST "bindingEntry" binding_entry_element_data_cfg ].

Definition node_management_binding_data_elements_cfg : list EebusDataCfg :=
  [ EEBUS_DATA_SEQUENCE "bindingEntry" binding_management_entry_data_elements_cfg ].

Definition node_management_binding_data_selectors_cfg : list EebusDataCfg :=
  [ EEBUS_DATA_SEQUENCE "bindingEntry" binding_management_entry_list_data_selectors_cfg ].

Definition node_management_binding_request_call_cfg : list EebusDataCfg :=
  [ EEBUS_DATA_SEQUENCE "bindingRequest" binding_management_request_call_cfg ].

Definition node_management_binding_request_call_elements_cfg : list EebusDataCfg :=
  [ EEBUS_DATA_SEQUENCE "bindingRequest" binding_management_request_call_elements_cfg ].

Definition node_management_binding_delete_call_cfg : list EebusDataCfg :=
  [ EEBUS_DATA_SEQUENCE "bindingDelete" binding_management_delete_call_cfg ].

Definition node_management_binding_delete_call_elements_cfg : list EebusDataCfg :=
  [ EEBUS_DATA_SEQUENCE "bindingDelete" binding_management_delete_call_elements_cfg ].

Definition subscription_entry_element_data_cfg : EebusDataCfg :=
  Sequence "" 0 subscription_management_entry_data_cfg.

Definition node_management_subscription_data_cfg : list EebusDataCfg :=
  [ EEBUS_DATA_LIST "subscriptionEntry" subscription_entry_element_data_cfg ].

Definition node_management_subscription_data_elements_cfg : list EebusDataCfg :=
  [ EEBUS_DATA_SEQUENCE "subscriptionEntry" subscription_management_entry_data_elements_cfg ].

Definition node_management_subscription_data_selectors_cfg : list EebusDataCfg :=
  [ EEBUS_DATA_SEQUENCE "subscriptionEntry" subscription_management_entry_list_data_selectors_cfg ].

Definition node_management_subscription_request_call_cfg : list EebusDataCfg :=
  [ EEBUS_DATA_SEQUENCE "subscriptionRequest" subscription_management_request_call_cfg ].

Definition node_management_subscription_request_call_elements_cfg : list EebusDataCfg :=
  [ EEBUS_DATA_SEQUENCE "subscriptionRequest" subscription_management_request_call_elements_cfg ].

Definition node_management_subscription_delete_call_cfg : list EebusDataCfg :=
  [ EEBUS_DATA_SEQUENCE "subscriptionDelete" subscription_management_delete_call_cfg ].

Definition node_management_subscription_delete_call_elements_cfg : list EebusDataCfg :=
  [ EEBUS_DATA_SEQUENCE "subscriptionDelete" subscription_management_delete_call_elements_cfg ].

Definition node_management_destination_data_cfg : list EebusDataCfg :=
  [ EEBUS_DATA_SEQUENCE "deviceDescription" network_management_device_description_data_cfg ].

Definition node_management_destination_data_elements_cfg : list EebusDataCfg :=
  [ EEBUS_DATA_SEQUENCE "deviceDescription" network_management_device_description_data_elements_cfg ].

Definition node_management_destination_data_element_data_cfg : EebusDataCfg :=
  Sequence "" 0 node_management_destination_data_cfg.

Definition node_management_destination_list_data_cfg : list EebusDataCfg :=
  [ EEBUS_DATA_LIST "nodeManagementDestinationData" node_management_destination_data_element_data_cfg ].

Definition node_management_destination_list_data_selectors_cfg : list EebusDataCfg :=
  [ EEBUS_DATA_SEQUENCE "deviceDescription" network_management_device_description_list_data_selectors_cfg ].

Definition use_case_information_element_data_cfg : EebusDataCfg := Sequence "" 0 use_case_information_data_cfg.

Definition node_management_use_case_data_cfg : list EebusDataCfg :=
  [ EEBUS_DATA_LIST "useCaseInformation" use_case_information_element_data_cfg ].

Definition node_management_use_case_data_elements_cfg : list EebusDataCfg :=
  [ EEBUS_DATA_SEQUENCE "useCaseInformation" use_case_information_data_elements_cfg ].

Definition node_management_use_case_data_selectors_cfg : list EebusDataCfg :=
  [ EEBUS_DATA_SEQUENCE "useCaseInformation" use_case_information_list_data_selectors_cfg ].

(** ** [operating_constraints_types.inc] *)

Definition operating_constraints_interrupt_data_cfg : list EebusDataCfg :=
  [ EEBUS_DATA_UINT32_WITH_FLAGS "sequenceId" kEebusDataFlagIsIdentifier;
    EEBUS_DATA_BOOL "isPausable";
    EEBUS_DATA_BOOL "isStoppable";
    EEBUS_DATA_BOOL "notInterruptibleAtHighPower";
    EEBUS_DATA_UINT32 "maxCyclesPerDay" ].

Definition operating_constraints_interrupt_data_elements_cfg : list EebusDataCfg :=
  [ EEBUS_DATA_TAG "sequenceId";
    EEBUS_DATA_TAG "isPausable";
    EEBUS_DATA_TAG "isStoppable";
    EEBUS_DATA_TAG "notInterruptibleAtHighPower";
    EEBUS_DATA_TAG "maxCyclesPerDay" ].

Definition operating_constraints_interrupt_data_element_data_cfg : EebusDataCfg :=
  Sequence "" 0 operating_constraints_interrupt_data_cfg.

Definition operating_constraints_interrupt_list_data_cfg : list EebusDataCfg :=
  [ EEBUS_DATA_LIST "operatingConstraintsInterruptData" operating_constraints_interrupt_data_element_data_cfg ].

Definition operating_constraints_interrupt_list_data_selectors_cfg : list EebusDataCfg :=
  [ EEBUS_DATA_UINT32 "sequenceId" ].

Definition operating_constraints_duration_data_cfg : list EebusDataCfg :=
  [ EEBUS_DATA_UINT32_WITH_FLAGS "sequenceId" kEebusDataFlagIsIdentifier;
    EEBUS_DATA_DURATION "activeDurationMin";
    EEBUS_DATA_DURATION "activeDurationMax";
    EEBUS_DATA_DURATION "pauseDurationMin";
    EEBUS_DATA_DURATION "pauseDurationMax";
    EEBUS_DATA_DURATION "activeDurationSumMin";
    EEBUS_DATA_DURATION "activeDurationSumMax" ].

Definition operating_constraints_duration_data_elements_cfg : list EebusDataCfg :=
  [ EEBUS_DATA_TAG "sequenceId";
    EEBUS_DATA_TAG "activeDurationMin";
    EEBUS_DATA_TAG "activeDurationMax";
    EEBUS_DATA_TAG "pauseDurationMin";
    EEBUS_DATA_TAG "pauseDurationMax";
    EEBUS_DATA_TAG "activeDurationSumMin";
    EEBUS_DATA_TAG "activeDurationSumMax" ].

Definition operating_constraints_duration_data_element_data_cfg : EebusDataCfg :=
  Sequence "" 0 operating_constraints_duration_data_cfg.

Definition operating_constraints_duration_list_data_cfg : list EebusDataCfg :=
  [ EEBUS_DATA_LIST "operatingConstraintsDurationData" operating_constraints_duration_data_element_data_cfg ].

Definition operating_constraints_duration_list_data_selectors_cfg : list EebusDataCfg :=
  [ EEBUS_DATA_UINT32 "sequenceId" ].

Definition operating_constraints_power_description_data_cfg : list EebusDataCfg :=
  [ EEBUS_DATA_UINT32_WITH_FLAGS "sequenceId" kEebusDataFlagIsIdentifier;
    EEBUS_DATA_ENUM "positiveEnergyDirection" energy_direction_lut;
    EEBUS_DATA_ENUM "powerUnit" unit_of_measurement_lut;
    EEBUS_DATA_ENUM "energyUnit" unit_of_measurement_lut;
    EEBUS_DATA_STRING "description" ].

Definition operating_constraints_power_description_data_elements_cfg : list EebusDataCfg :=
  [ EEBUS_DATA_TAG "sequenceId";
    EEBUS_DATA_TAG "positiveEnergyDirection";
    EEBUS_DATA_TAG "powerUnit";
    EEBUS_DATA_TAG "energyUnit";
    EEBUS_DATA_TAG "description" ].

Definition operating_constraints_power_description_data_element_data_cfg : EebusDataCfg :=
  Sequence "" 0 operating_constraints_power_description_data_cfg.

Definition operating_constraints_power_description_list_data_cfg : list EebusDataCfg :=
  [ EEBUS_DATA_LIST "operatingConstraintsPowerDescriptionData" operating_constraints_power_description_data_element_data_cfg ].

Definition operating_constraints_power_description_list_data_selectors_cfg : list EebusDataCfg :=
  [ EEBUS_DATA_UINT32 "sequenceId" ].

Definition operating_constraints_power_range_data_cfg : list EebusDataCfg :=
  [ EEBUS_DATA_UINT32_WITH_FLAGS "sequenceId" kEebusDataFlagIsIdentifier;
    EEBUS_DATA_SEQUENCE "powerMin" scaled_number_cfg;
    EEBUS_DATA_SEQUENCE "powerMax" scaled_number_cfg;
    EEBUS_DATA_SEQUENCE "energyMin" scaled_number_cfg;
    EEBUS_DATA_SEQUENCE "energyMax" scaled_number_cfg ].

Definition operating_constraints_power_range_data_elements_cfg : list EebusDataCfg :=
  [ EEBUS_DATA_TAG "sequenceId";
    EEBUS_DATA_TAG "powerMin";
    EEBUS_DATA_TAG "powerMax";
    EEBUS_DATA_TAG "energyMin";
    EEBUS_DATA_TAG "energyMax" ].

Definition operating_constraints_power_range_data_element_data_cfg : EebusDataCfg :=
  Sequence "" 0 operating_constraints_power_range_data_cfg.

Definition operating_constraints_power_range_list_data_cfg : list EebusDataCfg :=
  [ EEBUS_DATA_LIST "operatingConstraintsPowerRangeData" operating_constraints_power_range_data_element_data_cfg ].

Definition operating_constraints_power_range_list_data_selectors_cfg : list EebusDataCfg :=
  [ EEBUS_DATA_UINT32 "sequenceId" ].

Definition operating_constraints_power_level_data_cfg : list EebusDataCfg :=
  [ EEBUS_DATA_UINT32_WITH_FLAGS "sequenceId" kEebusDataFlagIsIdentifier;
    EEBUS_DATA_SEQUENCE "power" scaled_number_cfg ].

Definition operating_constraints_power_level_data_elements_cfg : list EebusDataCfg :=
  [ EEBUS_DATA_TAG "sequenceId";
    EEBUS_DATA_TAG "power" ].

Definition operating_constraints_power_level_data_element_data_cfg : EebusDataCfg :=
  Sequence "" 0 operating_constraints_power_level_data_cfg.

Definition operating_constraints_power_level_list_data_cfg : list EebusDataCfg :=
  [ EEBUS_DATA_LIST "operatingConstraintsPowerLevelData" operating_constraints_power_level_data_element_data_cfg ].

Definition operating_constraints_power_level_list_data_selectors_cfg : list EebusDataCfg :=
  [ EEBUS_DATA_UINT32 "sequenceId" ].

Definition operating_constraints_resume_implication_data_cfg : list EebusDataCfg :=
  [ EEBUS_DATA_UINT32_WITH_FLAGS "sequenceId" kEebusDataFlagIsIdentifier;
    EEBUS_DATA_SEQUENCE "resumeEnergyEstimated" scaled_number_cfg;
    EEBUS_DATA_ENUM "energyUnit" unit_of_measurement_lut;
    EEBUS_DATA_SEQUENCE "resumeCostEstimated" scaled_number_cfg;
    EEBUS_DATA_ENUM "currency" currency_lut ].

Definition operating_constraints_resume_implication_data_elements_cfg : list EebusDataCfg :=
  [ EEBUS_DATA_TAG "sequenceId";
    EEBUS_DATA_SEQUENCE "resumeEnergyEstimated" scaled_number_elements_cfg;
    EEBUS_DATA_TAG "energyUnit";
    EEBUS_DATA_SEQUENCE "resumeCostEstimated" scaled_number_elements_cfg;
    EEBUS_DATA_TAG "currency" ].

Definition operating_constraints_resume_implication_data_element_data_cfg : EebusDataCfg :=
  Sequence "" 0 operating_constraints_resume_implication_data_cfg.

Definition operating_constraints_resume_implication_list_data_cfg : list EebusDataCfg :=
  [ EEBUS_DATA_LIST "operatingConstraintsResumeImplicationData" operating_constraints_resume_implication_data_element_data_cfg ].

Definition operating_constraints_resume_implication_list_data_selectors_cfg : list EebusDataCfg :=
  [ EEBUS_DATA_UINT32 "sequenceId" ].

(** ** [sensing_types.inc] *)

Definition sensing_state_lut : list (string * Z) :=
  [ ("on", 0); ("off", 1); ("toggle", 2); ("level", 3); ("levelUp", 4); ("levelDown", 5); ("levelStart", 6);
    ("levelStop", 7); ("levelAbsolute", 8); ("levelRelative", 9); ("levelPercentageAbsolute", 10);
    ("levelPercentageRelative", 11); ("pressed", 12); ("longPressed", 13); ("released", 14); ("changed", 15);
    ("started", 16); ("stopped", 17); ("paused", 18); ("middle", 19); ("up", 20); ("down", 21); ("forward",
    22); ("backwards", 23); ("open", 24); ("closed", 25); ("opening", 26); ("closing", 27); ("high", 28);
    ("low", 29); ("day", 30); ("night", 31); ("detected", 32); ("notDetected", 33); ("alarmed", 34);
    ("notAlarmed", 35) ].

Definition sensing_type_lut : list (string * Z) :=
  [ ("switch", 0); ("button", 1); ("level", 2); ("levelSwitch", 3); ("windowHandle", 4); ("contactSensor", 5);
    ("occupancySensor", 6); ("motionDetector", 7); ("fireDetector", 8); ("smokeDetector", 9); ("heatDetector",
    10); ("waterDetector", 11); ("gasDetector", 12); ("alarmSensor", 13); ("powerAlarmSensor", 14);
    ("dayNightIndicator", 15) ].

Definition sensing_data_cfg : list EebusDataCfg :=
  [ EEBUS_DATA_ABSOLUTE_OR_RELATIVE_TIME "timestamp";
    EEBUS_DATA_ENUM "state" sensing_state_lut;
    EEBUS_DATA_SEQUENCE "value" scaled_number_cfg ].

Definition sensing_data_elements_cfg : list EebusDataCfg :=
  [ EEBUS_DATA_TAG "timestamp";
    EEBUS_DATA_TAG "state";
    EEBUS_DATA_SEQUENCE "value" scaled_number_elements_cfg ].

Definition sensing_data_element_data_cfg : EebusDataCfg := Sequence "" 0 sensing_data_cfg.

Definition sensing_list_data_cfg : list EebusDataCfg :=
  [ EEBUS_DATA_LIST "sensingData" sensing_data_element_data_cfg ].

Definition sensing_list_data_selectors_cfg : list EebusDataCfg :=
  [ EEBUS_DATA_SEQUENCE "timestampInterval" timestamp_interval_cfg ].

Definition sensing_description_data_cfg : list EebusDataCfg :=
  [ EEBUS_DATA_ENUM "sensingType" sensing_type_lut;
    EEBUS_DATA_ENUM "unit" unit_of_measurement_lut;
    EEBUS_DATA_ENUM "scopeType" scope_type_lut;
    EEBUS_DATA_STRING "label";
    EEBUS_DATA_STRING "description" ].

Definition sensing_description_data_elements_cfg : list EebusDataCfg :=
  [ EEBUS_DATA_TAG "sensingType";
    EEBUS_DATA_TAG "unit";
    EEBUS_DATA_TAG "scopeType";
    EEBUS_DATA_TAG "label";
    EEBUS_DATA_TAG "description" ].

(** ** [setpoint_types.inc] *)

Definition setpoint_type_lut : list (string * Z) :=
  [ ("valueAbsolute", 0); ("valueRelative", 1) ].

Definition setpoint_data_cfg : list EebusDataCfg :=
  [ EEBUS_DATA_UINT32_WITH_FLAGS "setpointId" kEebusDataFlagIsIdentifier;
    EEBUS_DATA_SEQUENCE "value" scaled_number_cfg;
    EEBUS_DATA_SEQUENCE "valueMin" scaled_number_cfg;
    EEBUS_DATA_SEQUENCE "valueMax" scaled_number_cfg;
    EEBUS_DATA_SEQUENCE "valueToleranceAbsolute" scaled_number_cfg;
    EEBUS_DATA_SEQUENCE "valueTolerancePercentage" scaled_number_cfg;
    EEBUS_DATA_BOOL "isSetpointChangeable";
    EEBUS_DATA_BOOL "isSetpointActive";
    EEBUS_DATA_SEQUENCE "timePeriod" time_period_cfg ].

Definition setpoint_data_elements_cfg : list EebusDataCfg :=
  [ EEBUS_DATA_TAG "setpointId";
    EEBUS_DATA_SEQUENCE "value" scaled_number_elements_cfg;
    EEBUS_DATA_SEQUENCE "valueMin" scaled_number_elements_cfg;
    EEBUS_DATA_SEQUENCE "valueMax" scaled_number_elements_cfg;
    EEBUS_DATA_SEQUENCE "valueToleranceAbsolute" scaled_number_elements_cfg;
    EEBUS_DATA_SEQUENCE "valueTolerancePercentage" scaled_number_elements_cfg;
    EEBUS_DATA_TAG "isSetpointChangeable";
    EEBUS_DATA_TAG "isSetpointActive";
    EEBUS_DATA_SEQUENCE "timePeriod" time_period_elements_cfg ].

Definition setpoint_data_element_data_cfg : EebusDataCfg := Sequence "" 0 setpoint_data_cfg.

Definition setpoint_list_data_cfg : list EebusDataCfg :=
  [ EEBUS_DATA_LIST "setpointData" setpoint_data_element_data_cfg ].

Definition setpoint_list_data_selectors_cfg : list EebusDataCfg :=
  [ EEBUS_DATA_UINT32 "setpointId" ].

Definition setpoint_constraints_data_cfg : list EebusDataCfg :=
  [ EEBUS_DATA_UINT32_WITH_FLAGS "setpointId" kEebusDataFlagIsIdentifier;
    EEBUS_DATA_SEQUENCE "setpointRangeMin" scaled_number_cfg;
    EEBUS_DATA_SEQUENCE "setpointRangeMax" scaled_number_cfg;
    EEBUS_DATA_SEQUENCE "setpointStepSize" scaled_number_cfg ].

Definition setpoint_constraints_data_elements_cfg : list EebusDataCfg :=
  [ EEBUS_DATA_TAG "setpointId";
    EEBUS_DATA_SEQUENCE "setpointRangeMin" scaled_number_elements_cfg;
    EEBUS_DATA_SEQUENCE "setpointRangeMax" scaled_number_elements_cfg;
    EEBUS_DATA_SEQUENCE "setpointStepSize" scaled_number_elements_cfg ].

Definition setpoint_constraints_data_element_data_cfg : EebusDataCfg :=
  Sequence "" 0 setpoint_constraints_data_cfg.

Definition setpoint_constraints_list_data_cfg : list EebusDataCfg :=
  [ EEBUS_DATA_LIST "setpointConstraintsData" setpoint_constraints_data_element_data_cfg ].

Definition setpoint_constraints_list_data_selectors_cfg : list EebusDataCfg :=
  [ EEBUS_DATA_UINT32 "setpointId" ].

Definition setpoint_description_data_cfg : list EebusDataCfg :=
  [ EEBUS_DATA_UINT32_WITH_FLAGS "setpointId" kEebusDataFlagIsIdentifier;
    EEBUS_DATA_UINT32_WITH_FLAGS "measurementId" kEebusDataFlagIsIdentifier;
    EEBUS_DATA_UINT32_WITH_FLAGS "timeTableId" kEebusDataFlagIsIdentifier;
    EEBUS_DATA_ENUM "setpointType" setpoint_type_lut;
    EEBUS_DATA_SEQUENCE "unit" scaled_number_cfg;
    EEBUS_DATA_SEQUENCE "scopeType" scaled_number_cfg;
    EEBUS_DATA_STRING "label";
    EEBUS_DATA_STRING "description" ].

Definition setpoint_description_data_elements_cfg : list EebusDataCfg :=
  [ EEBUS_DATA_TAG "setpointId";
    EEBUS_DATA_TAG "measurementId";
    EEBUS_DATA_TAG "timeTableId";
    EEBUS_DATA_TAG "setpointType";
    EEBUS_DATA_TAG "unit";
    EEBUS_DATA_TAG "scopeType";
    EEBUS_DATA_TAG "label";
    EEBUS_DATA_TAG "description" ].

Definition setpoint_description_data_element_data_cfg : EebusDataCfg :=
  Sequence "" 0 setpoint_description_data_cfg.

Definition setpoint_description_list_data_cfg : list EebusDataCfg :=
  [ EEBUS_DATA_LIST "setpointDescriptionData" setpoint_description_data_element_data_cfg ].

Definition setpoint_description_list_data_selectors_cfg : list EebusDataCfg :=
  [ EEBUS_DATA_UINT32 "setpointId";
    EEBUS_DATA_UINT32 "measurementId";
    EEBUS_DATA_UINT32 "timeTableId";
    EEBUS_DATA_UINT32 "setpointType";
    EEBUS_DATA_SEQUENCE "scopeType" scaled_number_cfg ].

(** ** [smart_energy_management_ps_types.inc] *)

Definition smart_energy_management_ps_power_time_slot_value_list_cfg : list EebusDataCfg :=
  [ EEBUS_DATA_LIST_SIMPLE "value" power_time_slot_value_data_element_data_cfg ].

Definition smart_energy_management_ps_power_time_slot_cfg : list EebusDataCfg :=
  [ EEBUS_DATA_SEQUENCE "schedule" power_time_slot_schedule_data_cfg;
    EEBUS_DATA_SEQUENCE "valueList" smart_energy_management_ps_power_time_slot_value_list_cfg;
    EEBUS_DATA_SEQUENCE "scheduleConstraints" power_time_slot_schedule_constraints_data_cfg ].

Definition power_time_slot_element_data_cfg : EebusDataCfg :=
  Sequence "" 0 smart_energy_management_ps_power_time_slot_cfg.

Definition smart_energy_management_ps_power_sequence_cfg : list EebusDataCfg :=
  [ EEBUS_DATA_SEQUENCE "description" power_sequence_description_data_cfg;
    EEBUS_DATA_SEQUENCE "state" power_sequence_state_data_cfg;
    EEBUS_DATA_SEQUENCE "schedule" power_sequence_schedule_data_cfg;
    EEBUS_DATA_SEQUENCE "scheduleConstraints" power_sequence_schedule_constraints_data_cfg;
    EEBUS_DATA_SEQUENCE "schedulePreference" power_sequence_schedule_preference_data_cfg;
    EEBUS_DATA_SEQUENCE "operatingConstraintsInterrupt" operating_constraints_interrupt_data_cfg;
    EEBUS_DATA_SEQUENCE "operatingConstraintsDuration" operating_constraints_duration_data_cfg;
    EEBUS_DATA_SEQUENCE "operatingConstraintsResumeImplication" operating_constraints_resume_implication_data_cfg;
    EEBUS_DATA_LIST "powerTimeSlot" power_time_slot_element_data_cfg ].

Definition power_sequence_element_data_cfg : EebusDataCfg :=
  Sequence "" 0 smart_energy_management_ps_power_sequence_cfg.

Definition smart_energy_management_ps_alternatives_cfg : list EebusDataCfg :=
  [ EEBUS_DATA_SEQUENCE "relation" power_sequence_alternatives_relation_data_cfg;
    EEBUS_DATA_LIST "powerSequence" power_sequence_element_data_cfg ].

Definition smart_energy_management_ps_power_time_slot_value_list_elements_cfg : list EebusDataCfg :=
  [ EEBUS_DATA_SEQUENCE "value" power_time_slot_value_data_elements_cfg ].

Definition smart_energy_management_ps_power_time_slot_elements_cfg : list EebusDataCfg :=
  [ EEBUS_DATA_SEQUENCE "schedule" power_time_slot_schedule_data_elements_cfg;
    EEBUS_DATA_SEQUENCE "valueList" smart_energy_management_ps_power_time_slot_value_list_elements_cfg;
    EEBUS_DATA_SEQUENCE "scheduleConstraints" power_time_slot_schedule_constraints_data_elements_cfg ].

Definition smart_energy_management_ps_power_sequence_elements_cfg : list EebusDataCfg :=
  [ EEBUS_DATA_SEQUENCE "description" power_sequence_description_data_elements_cfg;
    EEBUS_DATA_SEQUENCE "state" power_sequence_state_data_elements_cfg;
    EEBUS_DATA_SEQUENCE "schedule" power_sequence_schedule_data_elements_cfg;
    EEBUS_DATA_SEQUENCE "scheduleConstraints" power_sequence_schedule_constraints_data_elements_cfg;
    EEBUS_DATA_SEQUENCE "schedulePreference" power_sequence_schedule_preference_data_elements_cfg;
    EEBUS_DATA_SEQUENCE "operatingConstraintsInterrupt" operating_constraints_interrupt_data_elements_cfg;
    EEBUS_DATA_SEQUENCE "operatingConstraintsDuration" operating_constraints_duration_data_elements_cfg;
    EEBUS_DATA_SEQUENCE "operatingConstraintsResumeImplication" operating_constraints_resume_implication_data_elements_cfg;
    EEBUS_DATA_SEQUENCE "powerTimeSlot" smart_energy_management_ps_power_time_slot_elements_cfg ].

Definition smart_energy_management_ps_alternatives_elements_cfg : list EebusDataCfg :=
  [ EEBUS_DATA_SEQUENCE "relation" power_sequence_alternatives_relation_data_elements_cfg;
    EEBUS_DATA_SEQUENCE "powerSequence" smart_energy_management_ps_power_sequence_elements_cfg ].

Definition alternatives_element_data_cfg : EebusDataCfg :=
  Sequence "" 0 smart_energy_management_ps_alternatives_cfg.

Definition smart_energy_management_ps_data_cfg : list EebusDataCfg :=
  [ EEBUS_DATA_SEQUENCE "nodeScheduleInformation" power_sequence_node_schedule_information_data_cfg;
    EEBUS_DATA_LIST "alternatives" alternatives_element_data_cfg ].

Definition smart_energy_management_ps_data_elements_cfg : list EebusDataCfg :=
  [ EEBUS_DATA_SEQUENCE "nodeScheduleInformation" power_sequence_node_schedule_information_data_elements_cfg;
    EEBUS_DATA_SEQUENCE "alternatives" smart_energy_management_ps_alternatives_elements_cfg ].

Definition smart_energy_management_ps_data_selectors_cfg : list EebusDataCfg :=
  [ EEBUS_DATA_SEQUENCE "alternativesRelation" power_sequence_alternatives_relation_list_data_selectors_cfg;
    EEBUS_DATA_SEQUENCE "powerSequenceDescription" power_sequence_description_list_data_selectors_cfg;
    EEBUS_DATA_SEQUENCE "powerTimeSlotSchedule" power_time_slot_schedule_list_data_selectors_cfg;
    EEBUS_DATA_SEQUENCE "powerTimeSlotValue" power_time_slot_value_list_data_selectors_cfg ].

Definition smart_energy_management_ps_price_data_cfg : list EebusDataCfg :=
  [ EEBUS_DATA_SEQUENCE "price" power_sequence_price_data_cfg ].

Definition smart_energy_management_ps_price_data_elements_cfg : list EebusDataCfg :=
  [ EEBUS_DATA_SEQUENCE "price" power_sequence_price_data_elements_cfg ].

Definition smart_energy_management_ps_price_data_selectors_cfg : list EebusDataCfg :=
  [ EEBUS_DATA_SEQUENCE "price" power_sequence_price_list_data_selectors_cfg ].

Definition smart_energy_management_ps_configuration_request_call_cfg : list EebusDataCfg :=
  [ EEBUS_DATA_SEQUENCE "scheduleConfigurationRequest" power_sequence_schedule_configuration_request_call_cfg ].

Definition smart_energy_management_ps_configuration_request_call_elements_cfg : list EebusDataCfg :=
  [ EEBUS_DATA_SEQUENCE "scheduleConfigurationRequest" power_sequence_schedule_configuration_request_call_elements_cfg ].

Definition smart_energy_management_ps_price_calculation_request_call_cfg : list EebusDataCfg :=
  [ EEBUS_DATA_SEQUENCE "priceCalculationRequest" power_sequence_price_calculation_request_call_cfg ].

Definition smart_energy_management_ps_price_calculation_request_call_elements_cfg : list EebusDataCfg :=
  [ EEBUS_DATA_SEQUENCE "priceCalculationRequest" power_sequence_price_calculation_request_call_elements_cfg ].

(** ** [state_information_types.inc] *)

Definition state_information_lut : list (string * Z) :=
  [ ("externalOverrideFromGrid", 0); ("autonomousGridSupport", 1); ("islandingMode", 2); ("balancing", 3);
    ("trickleCharging", 4); ("calibration", 5); ("commissioningMissing", 6); ("sleeping", 7); ("starting", 8);
    ("mppt", 9); ("throttled", 10); ("shuttingDown", 11); ("manualShutdown", 12); ("inverterDefective", 13);
    ("batteryOvercurrentProtection", 14); ("pvStringOvercurrentProtection", 15); ("gridFault", 16);
    ("groundFault", 17); ("acDisconnected", 18); ("dcDisconnected", 19); ("cabinetOpen", 20);
    ("overTemperature", 21); ("underTemperature", 22); ("frequencyAboveLimit", 23); ("frequencyBelowLimit",
    24); ("acVoltageAboveLimit", 25); ("acVoltageBelowLimit", 26); ("dcVoltageAboveLimit", 27);
    ("dcVoltageBelowLimit", 28); ("hardwareTestFailure", 29); ("genericInternalError", 30) ].

Definition state_information_functionality_lut : list (string * Z) :=
  [ ("externalOverrideFromGrid", 0); ("autonomousGridSupport", 1); ("islandingMode", 2); ("balancing", 3);
    ("trickleCharging", 4); ("calibration", 5); ("commissioningMissing", 6); ("sleeping", 7); ("starting", 8);
    ("mppt", 9); ("throttled", 10); ("shuttingDown", 11); ("manualShutdown", 12) ].

Definition state_information_failure_lut : list (string * Z) :=
  [ ("inverterDefective", 0); ("batteryOvercurrentProtection", 1); ("pvStringOvercurrentProtection", 2);
    ("gridFault", 3); ("groundFault", 4); ("acDisconnected", 5); ("dcDisconnected", 6); ("cabinetOpen", 7);
    ("overTemperature", 8); ("underTemperature", 9); ("frequencyAboveLimit", 10); ("frequencyBelowLimit", 11);
    ("acVoltageAboveLimit", 12); ("acVoltageBelowLimit", 13); ("dcVoltageAboveLimit", 14);
    ("dcVoltageBelowLimit", 15); ("hardwareTestFailure", 16); ("genericInternalError", 17) ].

Definition state_information_category_lut : list (string * Z) :=
  [ ("functionality", 0); ("failure", 1) ].

Definition state_information_data_cfg : list EebusDataCfg :=
  [ EEBUS_DATA_UINT32_WITH_FLAGS "stateInformationId" kEebusDataFlagIsIdentifier;
    EEBUS_DATA_ENUM "stateInformation" state_information_lut;
    EEBUS_DATA_BOOL "isActive";
    EEBUS_DATA_ENUM "category" state_information_category_lut;
    EEBUS_DATA_ABSOLUTE_OR_RELATIVE_TIME "timeOfLastChange" ].

Definition state_information_data_elements_cfg : list EebusDataCfg :=
  [ EEBUS_DATA_TAG "stateInformationId";
    EEBUS_DATA_TAG "stateInformation";
    EEBUS_DATA_TAG "isActive";
    EEBUS_DATA_TAG "category";
    EEBUS_DATA_TAG "timeOfLastChange" ].

Definition state_information_data_element_data_cfg : EebusDataCfg := Sequence "" 0 state_information_data_cfg.

Definition state_information_list_data_cfg : list EebusDataCfg :=
  [ EEBUS_DATA_LIST "stateInformationData" state_information_data_element_data_cfg ].

Definition state_information_list_data_selectors_cfg : list EebusDataCfg :=
  [ EEBUS_DATA_UINT32 "stateInformationId";
    EEBUS_DATA_ENUM "stateInformation" state_information_lut;
    EEBUS_DATA_BOOL "isActive";
    EEBUS_DATA_ENUM "category" state_information_category_lut ].

(** ** [supply_conditions_types.inc] *)

Definition supply_condition_event_type_lut : list (string * Z) :=
  [ ("thesholdExceeded", 0); ("fallenBelowThreshold", 1); ("supplyInterrupt", 2); ("releaseOfLimitations", 3);
    ("otherProblem", 4); ("gridConditionUpdate", 5) ].

Definition supply_condition_originator_lut : list (string * Z) :=
  [ ("externDSO", 0); ("externSupplier", 1); ("internalLimit", 2); ("internalService", 3); ("internalUser", 4)
    ].

Definition grid_condition_lut : list (string * Z) :=
  [ ("consumptionRed", 0); ("consumptionYellow", 1); ("good", 2); ("productionRed", 3); ("productionYellow",
    4) ].

Definition supply_condition_data_cfg : list EebusDataCfg :=
  [ EEBUS_DATA_UINT32_WITH_FLAGS "conditionId" kEebusDataFlagIsIdentifier;
    EEBUS_DATA_ABSOLUTE_OR_RELATIVE_TIME "timestamp";
    EEBUS_DATA_ENUM "eventType" supply_condition_event_type_lut;
    EEBUS_DATA_ENUM "originator" supply_condition_originator_lut;
    EEBUS_DATA_UINT32 "thresholdId";
    EEBUS_DATA_SEQUENCE "thresholdPercentage" scaled_number_cfg;
    EEBUS_DATA_SEQUENCE "relevantPeriod" time_period_cfg;
    EEBUS_DATA_STRING "description";
    EEBUS_DATA_ENUM "gridCondition" grid_condition_lut ].

Definition supply_condition_data_elements_cfg : list EebusDataCfg :=
  [ EEBUS_DATA_TAG "conditionId";
    EEBUS_DATA_TAG "timestamp";
    EEBUS_DATA_TAG "eventType";
    EEBUS_DATA_TAG "originator";
    EEBUS_DATA_TAG "thresholdId";
    EEBUS_DATA_SEQUENCE "thresholdPercentage" scaled_number_elements_cfg;
    EEBUS_DATA_SEQUENCE "relevantPeriod" time_period_elements_cfg;
    EEBUS_DATA_TAG "description";
    EEBUS_DATA_TAG "gridCondition" ].

Definition supply_condition_data_element_data_cfg : EebusDataCfg := Sequence "" 0 supply_condition_data_cfg.

Definition supply_condition_list_data_cfg : list EebusDataCfg :=
  [ EEBUS_DATA_LIST "supplyConditionData" supply_condition_data_element_data_cfg ].

Definition supply_condition_list_data_selectors_cfg : list EebusDataCfg :=
  [ EEBUS_DATA_UINT32 "conditionId";
    EEBUS_DATA_SEQUENCE "timestampInterval" timestamp_interval_cfg;
    EEBUS_DATA_ENUM "eventType" supply_condition_event_type_lut;
    EEBUS_DATA_ENUM "originator" supply_condition_originator_lut ].

Definition supply_condition_description_data_cfg : list EebusDataCfg :=
  [ EEBUS_DATA_UINT32_WITH_FLAGS "conditionId" kEebusDataFlagIsIdentifier;
    EEBUS_DATA_ENUM "commodityType" commodity_type_lut;
    EEBUS_DATA_ENUM "positiveEnergyDirection" energy_direction_lut;
    EEBUS_DATA_STRING "label";
    EEBUS_DATA_STRING "description" ].

Definition supply_condition_description_data_elements_cfg : list EebusDataCfg :=
  [ EEBUS_DATA_TAG "conditionId";
    EEBUS_DATA_TAG "commodityType";
    EEBUS_DATA_TAG "positiveEnergyDirection";
    EEBUS_DATA_TAG "label";
    EEBUS_DATA_TAG "description" ].

Definition supply_condition_description_data_element_data_cfg : EebusDataCfg :=
  Sequence "" 0 supply_condition_description_data_cfg.

Definition supply_condition_description_list_data_cfg : list EebusDataCfg :=
  [ EEBUS_DATA_LIST "supplyConditionDescriptionData" supply_condition_description_data_element_data_cfg ].

Definition supply_condition_description_list_data_selectors_cfg : list EebusDataCfg :=
  [ EEBUS_DATA_UINT32 "conditionId" ].

Definition supply_condition_threshold_relation_data_cfg : list EebusDataCfg :=
  [ EEBUS_DATA_UINT32_WITH_FLAGS "conditionId" kEebusDataFlagIsIdentifier;
    EEBUS_DATA_LIST "thresholdId" threshold_id_element_data_cfg ].

Definition supply_condition_threshold_relation_data_elements_cfg : list EebusDataCfg :=
  [ EEBUS_DATA_TAG "conditionId";
    EEBUS_DATA_TAG "thresholdId" ].

Definition supply_condition_threshold_relation_data_element_data_cfg : EebusDataCfg :=
  Sequence "" 0 supply_condition_threshold_relation_data_cfg.

Definition supply_condition_threshold_relation_list_data_cfg : list EebusDataCfg :=
  [ EEBUS_DATA_LIST "SupplyConditionThresholdRelationDataType" supply_condition_threshold_relation_data_element_data_cfg ].

Definition supply_condition_threshold_relation_list_data_selectors_cfg : list EebusDataCfg :=
  [ EEBUS_DATA_UINT32 "conditionId";
    EEBUS_DATA_UINT32 "thresholdId" ].

(** ** [task_management_types.inc] *)

Definition task_management_job_state_lut : list (string * Z) :=
  [ ("Running", 0); ("paused", 1); ("inactive", 2); ("active", 3); ("finished", 4); ("eventAccepted", 5);
    ("eventStarted", 6); ("eventStopped", 7); ("eventRejected", 8); ("eventCancelled", 9); ("eventError", 10);
    ("scheduled", 11); ("scheduledPaused", 12); ("pending", 13); ("completed", 14); ("invalid", 15) ].

Definition task_management_job_source_lut : list (string * Z) :=
  [ ("InternalMechanism", 0); ("UserInteraction", 1); ("ExternalConfiguration", 2) ].

Definition task_management_hvac_related_cfg : list EebusDataCfg :=
  [ EEBUS_DATA_UINT32 "overrunId" ].

Definition task_management_hvac_related_elements_cfg : list EebusDataCfg :=
  [ EEBUS_DATA_TAG "overrunId" ].

Definition task_management_load_control_releated_cfg : list EebusDataCfg :=
  [ EEBUS_DATA_UINT32 "eventId" ].

Definition task_management_load_control_releated_elements_cfg : list EebusDataCfg :=
  [ EEBUS_DATA_TAG "eventId" ].

Definition task_management_power_sequences_related_cfg : list EebusDataCfg :=
  [ EEBUS_DATA_UINT32 "sequenceId" ].

Definition task_management_power_sequences_related_elements_cfg : list EebusDataCfg :=
  [ EEBUS_DATA_TAG "sequenceId" ].

Definition task_management_smart_energy_management_ps_related_cfg : list EebusDataCfg :=
  [ EEBUS_DATA_UINT32 "sequenceId" ].

Definition task_management_smart_energy_management_ps_related_elements_cfg : list EebusDataCfg :=
  [ EEBUS_DATA_TAG "sequenceId" ].

Definition task_management_job_data_cfg : list EebusDataCfg :=
  [ EEBUS_DATA_UINT32_WITH_FLAGS "jobId" kEebusDataFlagIsIdentifier;
    EEBUS_DATA_ABSOLUTE_OR_RELATIVE_TIME "timestamp";
    EEBUS_DATA_ENUM "jobState" task_management_job_state_lut;
    EEBUS_DATA_DURATION "elapsedTime";
    EEBUS_DATA_DURATION "remainingTime" ].

Definition task_management_job_data_elements_cfg : list EebusDataCfg :=
  [ EEBUS_DATA_TAG "jobId";
    EEBUS_DATA_TAG "timestamp";
    EEBUS_DATA_TAG "jobState";
    EEBUS_DATA_TAG "elapsedTime";
    EEBUS_DATA_TAG "remainingTime" ].

Definition task_management_job_data_element_data_cfg : EebusDataCfg :=
  Sequence "" 0 task_management_job_data_cfg.

Definition task_management_job_list_data_cfg : list EebusDataCfg :=
  [ EEBUS_DATA_LIST "taskManagementJobData" task_management_job_data_element_data_cfg ].

Definition task_management_job_list_data_selectors_cfg : list EebusDataCfg :=
  [ EEBUS_DATA_UINT32 "jobId";
    EEBUS_DATA_ENUM "jobState" task_management_job_state_lut ].

Definition task_management_job_relation_data_cfg : list EebusDataCfg :=
  [ EEBUS_DATA_UINT32_WITH_FLAGS "jobId" kEebusDataFlagIsIdentifier;
    EEBUS_DATA_TAG "directControlRelated";
    EEBUS_DATA_SEQUENCE "hvacRelated" task_management_hvac_related_cfg;
    EEBUS_DATA_SEQUENCE "loadControlReleated" task_management_load_control_releated_cfg;
    EEBUS_DATA_SEQUENCE "powerSequencesRelated" task_management_power_sequences_related_cfg;
    EEBUS_DATA_SEQUENCE "smartEnergyManagementPsRelated" task_management_smart_energy_management_ps_related_cfg ].

Definition task_management_job_relation_data_elements_cfg : list EebusDataCfg :=
  [ EEBUS_DATA_TAG "jobId";
    EEBUS_DATA_TAG "directControlRelated";
    EEBUS_DATA_SEQUENCE "hvacRelated" task_management_hvac_related_elements_cfg;
    EEBUS_DATA_SEQUENCE "loadControlReleated" task_management_load_control_releated_elements_cfg;
    EEBUS_DATA_SEQUENCE "powerSequencesRelated" task_management_power_sequences_related_elements_cfg;
    EEBUS_DATA_SEQUENCE "smartEnergyManagementPsRelated" task_management_smart_energy_management_ps_related_elements_cfg ].

Definition task_management_job_relation_data_element_data_cfg : EebusDataCfg :=
  Sequence "" 0 task_management_job_relation_data_cfg.

Definition task_management_job_relation_list_data_cfg : list EebusDataCfg :=
  [ EEBUS_DATA_LIST "taskManagementJobRelationData" task_management_job_relation_data_element_data_cfg ].

Definition task_management_job_relation_list_data_selectors_cfg : list EebusDataCfg :=
  [ EEBUS_DATA_UINT32 "jobId" ].

Definition task_management_job_description_data_cfg : list EebusDataCfg :=
  [ EEBUS_DATA_UINT32_WITH_FLAGS "jobId" kEebusDataFlagIsIdentifier;
    EEBUS_DATA_ENUM "jobSource" task_management_job_source_lut;
    EEBUS_DATA_STRING "label";
    EEBUS_DATA_STRING "description" ].

Definition task_management_job_description_data_elements_cfg : list EebusDataCfg :=
  [ EEBUS_DATA_TAG "jobId";
    EEBUS_DATA_TAG "jobSource";
    EEBUS_DATA_TAG "label";
    EEBUS_DATA_TAG "description" ].

Definition task_management_job_description_data_element_data_cfg : EebusDataCfg :=
  Sequence "" 0 task_management_job_description_data_cfg.

Definition task_management_job_description_list_data_cfg : list EebusDataCfg :=
  [ EEBUS_DATA_LIST "taskManagementJobDescriptionData" task_management_job_description_data_element_data_cfg ].

Definition task_management_job_description_list_data_selectors_cfg : list EebusDataCfg :=
  [ EEBUS_DATA_UINT32 "jobId";
    EEBUS_DATA_ENUM "jobSource" task_management_job_source_lut ].

Definition task_management_overview_data_cfg : list EebusDataCfg :=
  [ EEBUS_DATA_BOOL "remoteControllable";
    EEBUS_DATA_BOOL "jobsActive" ].

Definition task_management_overview_data_elements_cfg : list EebusDataCfg :=
  [ EEBUS_DATA_TAG "remoteControllable";
    EEBUS_DATA_TAG "jobsActive" ].

(** ** [threshold_types.inc] *)

Definition threshold_type_lut : list (string * Z) :=
  [ ("goodAbove", 0); ("badAbove", 1); ("goodBelow", 2); ("badBelow", 3); ("minValueThreshold", 4);
    ("maxValueThreshold", 5); ("minValueThresholdExtreme", 6); ("maxValueThresholdExtreme", 7);
    ("sagThreshold", 8); ("swellThreshold", 9) ].

Definition threshold_data_cfg : list EebusDataCfg :=
  [ EEBUS_DATA_UINT32_WITH_FLAGS "thresholdId" kEebusDataFlagIsIdentifier;
    EEBUS_DATA_SEQUENCE "thresholdValue" scaled_number_cfg ].

Definition threshold_data_elements_cfg : list EebusDataCfg :=
  [ EEBUS_DATA_TAG "thresholdId";
    EEBUS_DATA_SEQUENCE "thresholdValue" scaled_number_elements_cfg ].

Definition threshold_data_element_data_cfg : EebusDataCfg := Sequence "" 0 threshold_data_cfg.

Definition threshold_list_data_cfg : list EebusDataCfg :=
  [ EEBUS_DATA_LIST "thresholdData" threshold_data_element_data_cfg ].

Definition threshold_list_data_selectors_cfg : list EebusDataCfg :=
  [ EEBUS_DATA_UINT32 "thresholdId" ].

Definition threshold_constraints_data_cfg : list EebusDataCfg :=
  [ EEBUS_DATA_UINT32_WITH_FLAGS "thresholdId" kEebusDataFlagIsIdentifier;
    EEBUS_DATA_SEQUENCE "thresholdRangeMin" scaled_number_cfg;
    EEBUS_DATA_SEQUENCE "thresholdRangeMax" scaled_number_cfg;
    EEBUS_DATA_SEQUENCE "thresholdStepSize" scaled_number_cfg ].

Definition threshold_constraints_data_elements_cfg : list EebusDataCfg :=
  [ EEBUS_DATA_TAG "thresholdId";
    EEBUS_DATA_SEQUENCE "thresholdRangeMin" scaled_number_elements_cfg;
    EEBUS_DATA_SEQUENCE "thresholdRangeMax" scaled_number_elements_cfg;
    EEBUS_DATA_SEQUENCE "thresholdStepSize" scaled_number_elements_cfg ].

Definition threshold_constraints_data_element_data_cfg : EebusDataCfg :=
  Sequence "" 0 threshold_constraints_data_cfg.

Definition threshold_constraints_list_data_cfg : list EebusDataCfg :=
  [ EEBUS_DATA_LIST "thresholdConstraintsData" threshold_constraints_data_element_data_cfg ].

Definition threshold_constraints_list_data_selectors_cfg : list EebusDataCfg :=
  [ EEBUS_DATA_UINT32 "thresholdId" ].

Definition threshold_description_data_cfg : list EebusDataCfg :=
  [ EEBUS_DATA_UINT32_WITH_FLAGS "thresholdId" kEebusDataFlagIsIdentifier;
    EEBUS_DATA_ENUM "thresholdType" threshold_type_lut;
    EEBUS_DATA_ENUM "unit" unit_of_measurement_lut;
    EEBUS_DATA_ENUM "scopeType" scope_type_lut;
    EEBUS_DATA_STRING "label";
    EEBUS_DATA_STRING "description" ].

Definition threshold_description_data_elements_cfg : list EebusDataCfg :=
  [ EEBUS_DATA_TAG "thresholdId";
    EEBUS_DATA_TAG "thresholdType";
    EEBUS_DATA_TAG "unit";
    EEBUS_DATA_TAG "scopeType";
    EEBUS_DATA_TAG "label";
    EEBUS_DATA_TAG "description" ].

Definition threshold_description_data_element_data_cfg : EebusDataCfg :=
  Sequence "" 0 threshold_description_data_cfg.

Definition threshold_description_list_data_cfg : list EebusDataCfg :=
  [ EEBUS_DATA_LIST "thresholdDescriptionData" threshold_description_data_element_data_cfg ].

Definition threshold_description_list_data_selectors_cfg : list EebusDataCfg :=
  [ EEBUS_DATA_UINT32 "thresholdId";
    EEBUS_DATA_ENUM "scopeType" scope_type_lut ].

(** ** [time_series_types.inc] *)

Definition time_series_type_lut : list (string * Z) :=
  [ ("plan", 0); ("singleDemand", 1); ("constraints", 2); ("energyRequest", 3); ("dischargingEnergyRequest",
    4); ("consumptionLimitCurve", 5); ("productionLimitCurve", 6) ].

Definition time_series_slot_cfg : list EebusDataCfg :=
  [ EEBUS_DATA_UINT32 "timeSeriesSlotId";
    EEBUS_DATA_SEQUENCE "timePeriod" time_period_cfg;
    EEBUS_DATA_DURATION "duration";
    EEBUS_DATA_SEQUENCE "recurrenceInformation" absolute_or_recurring_time_cfg;
    EEBUS_DATA_SEQUENCE "value" scaled_number_cfg;
    EEBUS_DATA_SEQUENCE "minValue" scaled_number_cfg;
    EEBUS_DATA_SEQUENCE "maxValue" scaled_number_cfg ].

Definition time_series_slot_elements_cfg : list EebusDataCfg :=
  [ EEBUS_DATA_TAG "timeSeriesSlotId";
    EEBUS_DATA_TAG "timePeriod";
    EEBUS_DATA_TAG "duration";
    EEBUS_DATA_SEQUENCE "recurrenceInformation" absolute_or_recurring_time_elements_cfg;
    EEBUS_DATA_SEQUENCE "value" scaled_number_elements_cfg;
    EEBUS_DATA_SEQUENCE "minValue" scaled_number_elements_cfg;
    EEBUS_DATA_SEQUENCE "maxValue" scaled_number_elements_cfg ].

Definition time_series_slot_element_data_cfg : EebusDataCfg := Sequence "" 0 time_series_slot_cfg.

Definition time_series_data_cfg : list EebusDataCfg :=
  [ EEBUS_DATA_UINT32_WITH_FLAGS "timeSeriesId" kEebusDataFlagIsIdentifier;
    EEBUS_DATA_SEQUENCE "timePeriod" time_period_cfg;
    EEBUS_DATA_LIST "timeSeriesSlot" time_series_slot_element_data_cfg ].

Definition time_series_data_elements_cfg : list EebusDataCfg :=
  [ EEBUS_DATA_TAG "timeSeriesId";
    EEBUS_DATA_SEQUENCE "timePeriod" time_period_elements_cfg;
    EEBUS_DATA_SEQUENCE "timeSeriesSlot" time_series_slot_elements_cfg ].

Definition time_series_data_element_data_cfg : EebusDataCfg := Sequence "" 0 time_series_data_cfg.

Definition time_series_list_data_cfg : list EebusDataCfg :=
  [ EEBUS_DATA_LIST "timeSeriesData" time_series_data_element_data_cfg ].

Definition time_series_list_data_selectors_cfg : list EebusDataCfg :=
  [ EEBUS_DATA_UINT32 "timeSeriesId";
    EEBUS_DATA_UINT32 "timeSeriesSlotId" ].

Definition time_series_description_data_cfg : list EebusDataCfg :=
  [ EEBUS_DATA_UINT32_WITH_FLAGS "timeSeriesId" kEebusDataFlagIsIdentifier;
    EEBUS_DATA_ENUM "timeSeriesType" time_series_type_lut;
    EEBUS_DATA_BOOL "timeSeriesWriteable";
    EEBUS_DATA_BOOL "updateRequired";
    EEBUS_DATA_UINT32 "measurementId";
    EEBUS_DATA_ENUM "currency" currency_lut;
    EEBUS_DATA_ENUM "unit" unit_of_measurement_lut;
    EEBUS_DATA_STRING "label";
    EEBUS_DATA_STRING "description";
    EEBUS_DATA_ENUM "scopeType" scope_type_lut ].

Definition time_series_description_data_elements_cfg : list EebusDataCfg :=
  [ EEBUS_DATA_TAG "timeSeriesId";
    EEBUS_DATA_TAG "timeSeriesType";
    EEBUS_DATA_TAG "timeSeriesWriteable";
    EEBUS_DATA_TAG "updateRequired";
    EEBUS_DATA_TAG "measurementId";
    EEBUS_DATA_TAG "currency";
    EEBUS_DATA_TAG "unit";
    EEBUS_DATA_TAG "label";
    EEBUS_DATA_TAG "description";
    EEBUS_DATA_TAG "scopeType" ].

Definition time_series_description_data_element_data_cfg : EebusDataCfg :=
  Sequence "" 0 time_series_description_data_cfg.

Definition time_series_description_list_data_cfg : list EebusDataCfg :=
  [ EEBUS_DATA_LIST "timeSeriesDescriptionData" time_series_description_data_element_data_cfg ].

Definition time_series_description_list_data_selectors_cfg : list EebusDataCfg :=
  [ EEBUS_DATA_UINT32 "timeSeriesId";
    EEBUS_DATA_ENUM "timeSeriesType" time_series_type_lut;
    EEBUS_DATA_UINT32 "measurementId";
    EEBUS_DATA_ENUM "scopeType" scope_type_lut ].

Definition time_series_constraints_data_cfg : list EebusDataCfg :=
  [ EEBUS_DATA_UINT32_WITH_FLAGS "timeSeriesId" kEebusDataFlagIsIdentifier;
    EEBUS_DATA_UINT32 "slotCountMin";
    EEBUS_DATA_UINT32 "slotCountMax";
    EEBUS_DATA_DURATION "slotDurationMin";
    EEBUS_DATA_DURATION "slotDurationMax";
    EEBUS_DATA_DURATION "slotDurationStepSize";
    EEBUS_DATA_ABSOLUTE_OR_RELATIVE_TIME "earliestTimeSeriesStartTime";
    EEBUS_DATA_ABSOLUTE_OR_RELATIVE_TIME "latestTimeSeriesEndTime";
    EEBUS_DATA_SEQUENCE "slotValueMin" scaled_number_cfg;
    EEBUS_DATA_SEQUENCE "slotValueMax" scaled_number_cfg;
    EEBUS_DATA_SEQUENCE "slotValueStepSize" scaled_number_cfg ].

Definition time_series_constraints_data_elements_cfg : list EebusDataCfg :=
  [ EEBUS_DATA_TAG "timeSeriesId";
    EEBUS_DATA_TAG "slotCountMin";
    EEBUS_DATA_TAG "slotCountMax";
    EEBUS_DATA_TAG "slotDurationMin";
    EEBUS_DATA_TAG "slotDurationMax";
    EEBUS_DATA_TAG "slotDurationStepSize";
    EEBUS_DATA_TAG "earliestTimeSeriesStartTime";
    EEBUS_DATA_TAG "latestTimeSeriesEndTime";
    EEBUS_DATA_TAG "slotValueMin";
    EEBUS_DATA_TAG "slotValueMax";
    EEBUS_DATA_TAG "slotValueStepSize" ].

Definition time_series_constraints_data_element_data_cfg : EebusDataCfg :=
  Sequence "" 0 time_series_constraints_data_cfg.

Definition time_series_constraints_list_data_cfg : list EebusDataCfg :=
  [ EEBUS_DATA_LIST "timeSeriesConstraintsData" time_series_constraints_data_element_data_cfg ].

Definition time_series_constraints_list_data_selectors_cfg : list EebusDataCfg :=
  [ EEBUS_DATA_UINT32 "timeSeriesId" ].

(** ** [data_tunneling_types.inc] *)

Definition data_tunneling_header_cfg : list EebusDataCfg :=
  [ EEBUS_DATA_STRING "purposeId";
    EEBUS_DATA_UINT32 "channelId";
    EEBUS_DATA_UINT32 "sequenceId" ].

Definition data_tunneling_header_elements_cfg : list EebusDataCfg :=
  [ EEBUS_DATA_TAG "purposeId";
    EEBUS_DATA_TAG "channelId";
    EEBUS_DATA_TAG "sequenceId" ].

Definition data_tunneling_call_cfg : list EebusDataCfg :=
  [ EEBUS_DATA_SEQUENCE "header" data_tunneling_header_cfg;
    EEBUS_DATA_STRING "payload" ].

Definition data_tunneling_call_elements_cfg : list EebusDataCfg :=
  [ EEBUS_DATA_SEQUENCE "header" data_tunneling_header_elements_cfg;
    EEBUS_DATA_TAG "payload" ].

(** ** [device_classification_types.inc] *)

Definition power_source_lut : list (string * Z) :=
  [ ("unknown", 0); ("mainsSinglePhase", 1); ("mains3Phase", 2); ("battery", 3); ("dc", 4) ].

Definition device_classification_manufacturer_data_cfg : list EebusDataCfg :=
  [ EEBUS_DATA_STRING "deviceName";
    EEBUS_DATA_STRING "deviceCode";
    EEBUS_DATA_STRING "serialNumber";
    EEBUS_DATA_STRING "softwareRevision";
    EEBUS_DATA_STRING "hardwareRevision";
    EEBUS_DATA_STRING "vendorName";
    EEBUS_DATA_STRING "vendorCode";
    EEBUS_DATA_STRING "brandName";
    EEBUS_DATA_ENUM "powerSource" power_source_lut;
    EEBUS_DATA_STRING "manufacturerNodeIdentification";
    EEBUS_DATA_STRING "manufacturerLabel";
    EEBUS_DATA_STRING "manufacturerDescription" ].

Definition device_classification_manufacturer_data_elements_cfg : list EebusDataCfg :=
  [ EEBUS_DATA_TAG "deviceName";
    EEBUS_DATA_TAG "deviceCode";
    EEBUS_DATA_TAG "serialNumber";
    EEBUS_DATA_TAG "softwareRevision";
    EEBUS_DATA_TAG "hardwareRevision";
    EEBUS_DATA_TAG "vendorName";
    EEBUS_DATA_TAG "vendorCode";
    EEBUS_DATA_TAG "brandName";
    EEBUS_DATA_TAG "powerSource";
    EEBUS_DATA_TAG "manufacturerNodeIdentification";
    EEBUS_DATA_TAG "manufacturerLabel";
    EEBUS_DATA_TAG "manufacturerDescription" ].

Definition device_classification_user_data_cfg : list EebusDataCfg :=
  [ EEBUS_DATA_STRING "userNodeIdentification";
    EEBUS_DATA_STRING "userLabel";
    EEBUS_DATA_STRING "userDescription" ].

Definition device_classification_user_data_elements_cfg : list EebusDataCfg :=
  [ EEBUS_DATA_TAG "userNodeIdentification";
    EEBUS_DATA_TAG "userLabel";
    EEBUS_DATA_TAG "userDescription" ].

(** ** [device_diagnosis_types.inc] *)

Definition device_diagnosis_operating_state_lut : list (string * Z) :=
  [ ("normalOperation", 0); ("standby", 1); ("failure", 2); ("serviceNeeded", 3); ("overrideDetected", 4);
    ("inAlarm", 5); ("notReachable", 6); ("finished", 7); ("temporarilyNotReady", 8); ("off", 9) ].

Definition power_supply_condition_lut : list (string * Z) :=
  [ ("good", 0); ("low", 1); ("critical", 2); ("unknown", 3); ("error", 4) ].

Definition device_diagnosis_state_data_cfg : list EebusDataCfg :=
  [ EEBUS_DATA_ABSOLUTE_OR_RELATIVE_TIME "timestamp";
    EEBUS_DATA_ENUM "operatingState" device_diagnosis_operating_state_lut;
    EEBUS_DATA_STRING "vendorStateCode";
    EEBUS_DATA_STRING "lastErrorCode";
    EEBUS_DATA_DURATION "upTime";
    EEBUS_DATA_DURATION "totalUpTime";
    EEBUS_DATA_ENUM "powerSupplyCondition" power_supply_condition_lut ].

Definition device_diagnosis_state_data_elements_cfg : list EebusDataCfg :=
  [ EEBUS_DATA_TAG "timestamp";
    EEBUS_DATA_TAG "operatingState";
    EEBUS_DATA_TAG "vendorStateCode";
    EEBUS_DATA_TAG "lastErrorCode";
    EEBUS_DATA_TAG "upTime";
    EEBUS_DATA_TAG "totalUpTime";
    EEBUS_DATA_TAG "powerSupplyCondition" ].

Definition device_diagnosis_heartbeat_data_cfg : list EebusDataCfg :=
  [ EEBUS_DATA_ABSOLUTE_OR_RELATIVE_TIME "timestamp";
    EEBUS_DATA_UINT64 "heartbeatCounter";
    EEBUS_DATA_DURATION "heartbeatTimeout" ].

Definition device_diagnosis_heartbeat_data_elements_cfg : list EebusDataCfg :=
  [ EEBUS_DATA_TAG "timestamp";
    EEBUS_DATA_TAG "heartbeatCounter";
    EEBUS_DATA_TAG "heartbeatTimeout" ].

Definition device_diagnosis_service_data_cfg : list EebusDataCfg :=
  [ EEBUS_DATA_ABSOLUTE_OR_RELATIVE_TIME "timestamp";
    EEBUS_DATA_ABSOLUTE_OR_RELATIVE_TIME "installationTime";
    EEBUS_DATA_UINT64 "bootCounter";
    EEBUS_DATA_STRING "nextService" ].

Definition device_diagnosis_service_data_elements_cfg : list EebusDataCfg :=
  [ EEBUS_DATA_TAG "timestamp";
    EEBUS_DATA_TAG "installationTime";
    EEBUS_DATA_TAG "bootCounter";
    EEBUS_DATA_TAG "nextService" ].

(** ** [time_information_types.inc] *)

Definition time_information_data_cfg : list EebusDataCfg :=
  [ EEBUS_DATA_DATE_TIME "utc";
    EEBUS_DATA_DURATION "utcOffset";
    EEBUS_DATA_ENUM "dayOfWeek" day_of_week_lut;
    EEBUS_DATA_UINT8 "calendarWeek" ].

Definition time_information_data_elements_cfg : list EebusDataCfg :=
  [ EEBUS_DATA_TAG "utc";
    EEBUS_DATA_TAG "utcOffset";
    EEBUS_DATA_TAG "dayOfWeek";
    EEBUS_DATA_TAG "calendarWeek" ].

Definition time_distributor_data_cfg : list EebusDataCfg :=
  [ EEBUS_DATA_BOOL "isTimeDistributor";
    EEBUS_DATA_UINT32 "distributorPriority" ].

Definition time_distributor_data_elements_cfg : list EebusDataCfg :=
  [ EEBUS_DATA_TAG "isTimeDistributor";
    EEBUS_DATA_TAG "distributorPriority" ].

Definition time_precision_data_cfg : list EebusDataCfg :=
  [ EEBUS_DATA_BOOL "isSynchronised";
    EEBUS_DATA_DATE_TIME "lastSyncAt";
    EEBUS_DATA_INT32 "clockDrift" ].

Definition time_precision_data_elements_cfg : list EebusDataCfg :=
  [ EEBUS_DATA_TAG "isSynchronised";
    EEBUS_DATA_TAG "lastSyncAt";
    EEBUS_DATA_TAG "clockDrift" ].

(** ** [result_types.inc] *)

Definition result_data_cfg : list EebusDataCfg :=
  [ EEBUS_DATA_UINT32 "errorNumber";
    EEBUS_DATA_STRING "description" ].

(** ** [version_types.inc] *)

Definition specification_version_data_element_data_cfg : EebusDataCfg := Simple "" 0 KString.

Definition specification_version_list_data_cfg : list EebusDataCfg :=
  [ EEBUS_DATA_LIST "specificationVersionData" specification_version_data_element_data_cfg ].

(** ** [command_frame_types.inc] *)

Definition command_classifier_lut : list (string * Z) :=
  [ ("read", 0); ("reply", 1); ("notify", 2); ("write", 3); ("call", 4); ("result", 5) ].

Definition cmd_control_cfg : list EebusDataCfg :=
  [ EEBUS_DATA_TAG "delete";
    EEBUS_DATA_TAG "partial" ].

Definition data_selectors_choice_data_cfg : list EebusDataCfg :=
  [ EEBUS_DATA_CHOICE_ELEMENT_EMPTY "actuatorLevelDataSelectors";
    EEBUS_DATA_CHOICE_ELEMENT_EMPTY "actuatorLevelDescriptionDataSelectors";
    EEBUS_DATA_CHOICE_ELEMENT_EMPTY "actuatorSwitchDataSelectors";
    EEBUS_DATA_CHOICE_ELEMENT_EMPTY "actuatorSwitchDescriptionDataSelectors";
    Sequence "alarmListDataSelectors" 0 alarm_list_data_selectors_cfg;
    Sequence "billConstraintsListDataSelectors" 0 bill_constraints_list_data_selectors_cfg;
    Sequence "billDescriptionListDataSelectors" 0 bill_description_list_data_selectors_cfg;
    Sequence "billListDataSelectors" 0 bill_list_data_selectors_cfg;
    EEBUS_DATA_CHOICE_ELEMENT_EMPTY "bindingManagementDeleteCallSelectors";
    Sequence "bindingManagementEntryListDataSelectors" 0 binding_management_entry_list_data_selectors_cfg;
    EEBUS_DATA_CHOICE_ELEMENT_EMPTY "bindingManagementRequestCallSelectors";
    Sequence "commodityListDataSelectors" 0 commodity_list_data_selectors_cfg;
    EEBUS_DATA_CHOICE_ELEMENT_EMPTY "dataTunnelingCallSelectors";
    EEBUS_DATA_CHOICE_ELEMENT_EMPTY "deviceClassificationManufacturerDataSelectors";
    EEBUS_DATA_CHOICE_ELEMENT_EMPTY "deviceClassificationUserDataSelectors";
    Sequence "deviceConfigurationKeyValueConstraintsListDataSelectors" 0 device_configuration_key_value_constraints_list_data_selectors_cfg;
    Sequence "deviceConfigurationKeyValueDescriptionListDataSelectors" 0 device_configuration_key_value_description_list_data_selectors_cfg;
    Sequence "deviceConfigurationKeyValueListDataSelectors" 0 device_configuration_key_value_list_data_selectors_cfg;
    EEBUS_DATA_CHOICE_ELEMENT_EMPTY "deviceDiagnosisHeartbeatDataSelectors";
    EEBUS_DATA_CHOICE_ELEMENT_EMPTY "deviceDiagnosisServiceDataSelectors";
    EEBUS_DATA_CHOICE_ELEMENT_EMPTY "deviceDiagnosisStateDataSelectors";
    Sequence "directControlActivityListDataSelectors" 0 direct_control_activity_list_data_selectors_cfg;
    EEBUS_DATA_CHOICE_ELEMENT_EMPTY "directControlDescriptionDataSelectors";
    EEBUS_DATA_CHOICE_ELEMENT_EMPTY "electricalConnectionCharacteristicDataSelectors";
    Sequence "electricalConnectionCharacteristicListDataSelectors" 0 electrical_connection_characteristic_list_data_selectors_cfg;
    Sequence "electricalConnectionDescriptionListDataSelectors" 0 electrical_connection_description_list_data_selectors_cfg;
    Sequence "electricalConnectionParameterDescriptionListDataSelectors" 0 electrical_connection_parameter_description_list_data_selectors_cfg;
    Sequence "electricalConnectionPermittedValueSetListDataSelectors" 0 electrical_connection_permitted_value_set_list_data_selectors_cfg;
    Sequence "electricalConnectionStateListDataSelectors" 0 electrical_connection_state_list_data_selectors_cfg;
    Sequence "hvacOperationModeDescriptionListDataSelectors" 0 hvac_operation_mode_description_list_data_selectors_cfg;
    Sequence "hvacOverrunDescriptionListDataSelectors" 0 hvac_overrun_description_list_data_selectors_cfg;
    Sequence "hvacOverrunListDataSelectors" 0 hvac_overrun_list_data_selectors_cfg;
    Sequence "hvacSystemFunctionDescriptionListDataSelectors" 0 hvac_system_function_description_list_data_selectors_cfg;
    Sequence "hvacSystemFunctionListDataSelectors" 0 hvac_system_function_list_data_selectors_cfg;
    Sequence "hvacSystemFunctionOperationModeRelationListDataSelectors" 0 hvac_system_function_operation_mode_relation_list_data_selectors_cfg;
    Sequence "hvacSystemFunctionPowerSequenceRelationListDataSelectors" 0 hvac_system_function_power_sequence_relation_list_data_selectors_cfg;
    Sequence "hvacSystemFunctionSetpointRelationListDataSelectors" 0 hvac_system_function_setpoint_relation_list_data_selectors_cfg;
    Sequence "identificationListDataSelectors" 0 identification_list_data_selectors_cfg;
    Sequence "incentiveDescriptionListDataSelectors" 0 incentive_description_list_data_selectors_cfg;
    Sequence "incentiveListDataSelectors" 0 incentive_list_data_selectors_cfg;
    Sequence "incentiveTableConstraintsDataSelectors" 0 incentive_table_constraints_data_selectors_cfg;
    Sequence "incentiveTableDataSelectors" 0 incentive_table_data_selectors_cfg;
    Sequence "incentiveTableDescriptionDataSelectors" 0 incentive_table_description_data_selectors_cfg;
    Sequence "loadControlEventListDataSelectors" 0 load_control_event_list_data_selectors_cfg;
    Sequence "loadControlLimitConstraintsListDataSelectors" 0 load_control_limit_constraints_list_data_selectors_cfg;
    Sequence "loadControlLimitDescriptionListDataSelectors" 0 load_control_limit_description_list_data_selectors_cfg;
    Sequence "loadControlLimitListDataSelectors" 0 load_control_limit_list_data_selectors_cfg;
    EEBUS_DATA_CHOICE_ELEMENT_EMPTY "loadControlNodeDataSelectors";
    Sequence "loadControlStateListDataSelectors" 0 load_control_state_list_data_selectors_cfg;
    Sequence "measurementConstraintsListDataSelectors" 0 measurement_constraints_list_data_selectors_cfg;
    Sequence "measurementDescriptionListDataSelectors" 0 measurement_description_list_data_selectors_cfg;
    Sequence "measurementListDataSelectors" 0 measurement_list_data_selectors_cfg;
    Sequence "measurementSeriesListDataSelectors" 0 measurement_series_list_data_selectors_cfg;
    Sequence "measurementThresholdRelationListDataSelectors" 0 measurement_threshold_relation_list_data_selectors_cfg;
    Sequence "messagingListDataSelectors" 0 messaging_list_data_selectors_cfg;
    EEBUS_DATA_CHOICE_ELEMENT_EMPTY "networkManagementAbortCallSelectors";
    EEBUS_DATA_CHOICE_ELEMENT_EMPTY "networkManagementAddNodeCallSelectors";
    Sequence "networkManagementDeviceDescriptionListDataSelectors" 0 network_management_device_description_list_data_selectors_cfg;
    EEBUS_DATA_CHOICE_ELEMENT_EMPTY "networkManagementDiscoverCallSelectors";
    Sequence "networkManagementEntityDescriptionListDataSelectors" 0 network_management_entity_description_list_data_selectors_cfg;
    Sequence "networkManagementFeatureDescriptionListDataSelectors" 0 network_management_feature_description_list_data_selectors_cfg;
    EEBUS_DATA_CHOICE_ELEMENT_EMPTY "networkManagementJoiningModeDataSelectors";
    EEBUS_DATA_CHOICE_ELEMENT_EMPTY "networkManagementModifyNodeCallSelectors";
    EEBUS_DATA_CHOICE_ELEMENT_EMPTY "networkManagementProcessStateDataSelectors";
    EEBUS_DATA_CHOICE_ELEMENT_EMPTY "networkManagementRemoveNodeCallSelectors";
    EEBUS_DATA_CHOICE_ELEMENT_EMPTY "networkManagementReportCandidateDataSelectors";
    EEBUS_DATA_CHOICE_ELEMENT_EMPTY "networkManagementScanNetworkCallSelectors";
    Sequence "nodeManagementBindingDataSelectors" 0 node_management_binding_data_selectors_cfg;
    EEBUS_DATA_CHOICE_ELEMENT_EMPTY "nodeManagementBindingDeleteCallSelectors";
    EEBUS_DATA_CHOICE_ELEMENT_EMPTY "nodeManagementBindingRequestCallSelectors";
    Sequence "nodeManagementDestinationListDataSelectors" 0 node_management_destination_list_data_selectors_cfg;
    Sequence "nodeManagementDetailedDiscoveryDataSelectors" 0 node_management_detailed_discovery_data_selectors_cfg;
    Sequence "nodeManagementSubscriptionDataSelectors" 0 node_management_subscription_data_selectors_cfg;
    EEBUS_DATA_CHOICE_ELEMENT_EMPTY "nodeManagementSubscriptionDeleteCallSelectors";
    EEBUS_DATA_CHOICE_ELEMENT_EMPTY "nodeManagementSubscriptionRequestCallSelectors";
    Sequence "nodeManagementUseCaseDataSelectors" 0 node_management_use_case_data_selectors_cfg;
    Sequence "operatingConstraintsDurationListDataSelectors" 0 operating_constraints_duration_list_data_selectors_cfg;
    Sequence "operatingConstraintsInterruptListDataSelectors" 0 operating_constraints_interrupt_list_data_selectors_cfg;
    Sequence "operatingConstraintsPowerDescriptionListDataSelectors" 0 operating_constraints_power_description_list_data_selectors_cfg;
    Sequence "operatingConstraintsPowerLevelListDataSelectors" 0 operating_constraints_power_level_list_data_selectors_cfg;
    Sequence "operatingConstraintsPowerRangeListDataSelectors" 0 operating_constraints_power_range_list_data_selectors_cfg;
    Sequence "operatingConstraintsResumeImplicationListDataSelectors" 0 operating_constraints_resume_implication_list_data_selectors_cfg;
    Sequence "powerSequenceAlternativesRelationListDataSelectors" 0 power_sequence_alternatives_relation_list_data_selectors_cfg;
    Sequence "powerSequenceDescriptionListDataSelectors" 0 power_sequence_description_list_data_selectors_cfg;
    EEBUS_DATA_CHOICE_ELEMENT_EMPTY "powerSequenceNodeScheduleInformationDataSelectors";
    EEBUS_DATA_CHOICE_ELEMENT_EMPTY "powerSequencePriceCalculationRequestCallSelectors";
    Sequence "powerSequencePriceListDataSelectors" 0 power_sequence_price_list_data_selectors_cfg;
    EEBUS_DATA_CHOICE_ELEMENT_EMPTY "powerSequenceScheduleConfigurationRequestCallSelectors";
    Sequence "powerSequenceScheduleConstraintsListDataSelectors" 0 power_sequence_schedule_constraints_list_data_selectors_cfg;
    Sequence "powerSequenceScheduleListDataSelectors" 0 power_sequence_schedule_list_data_selectors_cfg;
    Sequence "powerSequenceSchedulePreferenceListDataSelectors" 0 power_sequence_schedule_preference_list_data_selectors_cfg;
    Sequence "powerSequenceStateListDataSelectors" 0 power_sequence_state_list_data_selectors_cfg;
    Sequence "powerTimeSlotScheduleConstraintsListDataSelectors" 0 power_time_slot_schedule_constraints_list_data_selectors_cfg;
    Sequence "powerTimeSlotScheduleListDataSelectors" 0 power_time_slot_schedule_list_data_selectors_cfg;
    Sequence "powerTimeSlotValueListDataSelectors" 0 power_time_slot_value_list_data_selectors_cfg;
    EEBUS_DATA_CHOICE_ELEMENT_EMPTY "resultDataSelectors";
    EEBUS_DATA_CHOICE_ELEMENT_EMPTY "sensingDescriptionDataSelectors";
    Sequence "sensingListDataSelectors" 0 sensing_list_data_selectors_cfg;
    Sequence "sessionIdentificationListDataSelectors" 0 session_identification_list_data_selectors_cfg;
    Sequence "sessionMeasurementRelationListDataSelectors" 0 session_measurement_relation_list_data_selectors_cfg;
    Sequence "setpointConstraintsListDataSelectors" 0 setpoint_constraints_list_data_selectors_cfg;
    Sequence "setpointDescriptionListDataSelectors" 0 setpoint_description_list_data_selectors_cfg;
    Sequence "setpointListDataSelectors" 0 setpoint_list_data_selectors_cfg;
    EEBUS_DATA_CHOICE_ELEMENT_EMPTY "smartEnergyManagementPsConfigurationRequestCallSelectors";
    Sequence "smartEnergyManagementPsDataSelectors" 0 smart_energy_management_ps_data_selectors_cfg;
    EEBUS_DATA_CHOICE_ELEMENT_EMPTY "smartEnergyManagementPsPriceCalculationRequestCallSelectors";
    Sequence "smartEnergyManagementPsPriceDataSelectors" 0 smart_energy_management_ps_price_data_selectors_cfg;
    Tag "specificationVersionListDataSelectors";
    Sequence "stateInformationListDataSelectors" 0 state_information_list_data_selectors_cfg;
    EEBUS_DATA_CHOICE_ELEMENT_EMPTY "subscriptionManagementDeleteCallSelectors";
    Sequence "subscriptionManagementEntryListDataSelectors" 0 subscription_management_entry_list_data_selectors_cfg;
    EEBUS_DATA_CHOICE_ELEMENT_EMPTY "subscriptionManagementRequestCallSelectors";
    Sequence "supplyConditionDescriptionListDataSelectors" 0 supply_condition_description_list_data_selectors_cfg;
    Sequence "supplyConditionListDataSelectors" 0 supply_condition_list_data_selectors_cfg;
    Sequence "supplyConditionThresholdRelationListDataSelectors" 0 supply_condition_threshold_relation_list_data_selectors_cfg;
    Sequence "tariffBoundaryRelationListDataSelectors" 0 tariff_boundary_relation_list_data_selectors_cfg;
    Sequence "tariffDescriptionListDataSelectors" 0 tariff_description_list_data_selectors_cfg;
    Sequence "tariffListDataSelectors" 0 tariff_list_data_selectors_cfg;
    EEBUS_DATA_CHOICE_ELEMENT_EMPTY "tariffOverallConstraintsDataSelectors";
    Sequence "tariffTierRelationListDataSelectors" 0 tariff_tier_relation_list_data_selectors_cfg;
    Sequence "taskManagementJobDescriptionListDataSelectors" 0 task_management_job_description_list_data_selectors_cfg;
    Sequence "taskManagementJobListDataSelectors" 0 task_management_job_list_data_selectors_cfg;
    Sequence "taskManagementJobRelationListDataSelectors" 0 task_management_job_relation_list_data_selectors_cfg;
    EEBUS_DATA_CHOICE_ELEMENT_EMPTY "taskManagementOverviewDataSelectors";
    Sequence "thresholdConstraintsListDataSelectors" 0 threshold_constraints_list_data_selectors_cfg;
    Sequence "thresholdDescriptionListDataSelectors" 0 threshold_description_list_data_selectors_cfg;
    Sequence "thresholdListDataSelectors" 0 threshold_list_data_selectors_cfg;
    Sequence "tierBoundaryDescriptionListDataSelectors" 0 tier_boundary_description_list_data_selectors_cfg;
    Sequence "tierBoundaryListDataSelectors" 0 tier_boundary_list_data_selectors_cfg;
    Sequence "tierDescriptionListDataSelectors" 0 tier_description_list_data_selectors_cfg;
    Sequence "tierIncentiveRelationListDataSelectors" 0 tier_incentive_relation_list_data_selectors_cfg;
    Sequence "tierListDataSelectors" 0 tier_list_data_selectors_cfg;
    EEBUS_DATA_CHOICE_ELEMENT_EMPTY "timeDistributorDataSelectors";
    EEBUS_DATA_CHOICE_ELEMENT_EMPTY "timeDistributorEnquiryCallSelectors";
    EEBUS_DATA_CHOICE_ELEMENT_EMPTY "timeInformationDataSelectors";
    EEBUS_DATA_CHOICE_ELEMENT_EMPTY "timePrecisionDataSelectors";
    Sequence "timeSeriesConstraintsListDataSelectors" 0 time_series_constraints_list_data_selectors_cfg;
    Sequence "timeSeriesDescriptionListDataSelectors" 0 time_series_description_list_data_selectors_cfg;
    Sequence "timeSeriesListDataSelectors" 0 time_series_list_data_selectors_cfg;
    Sequence "timeTableConstraintsListDataSelectors" 0 time_table_constraints_list_data_selectors_cfg;
    Sequence "timeTableDescriptionListDataSelectors" 0 time_table_description_list_data_selectors_cfg;
    Sequence "timeTableListDataSelectors" 0 time_table_list_data_selectors_cfg;
    Sequence "useCaseInformationListDataSelectors" 0 use_case_information_list_data_selectors_cfg ].

Definition data_elements_choice_data_cfg : list EebusDataCfg :=
  [ Sequence "actuatorLevelDataElements" 0 actuator_level_data_elements_cfg;
    Sequence "actuatorLevelDescriptionDataElements" 0 actuator_level_description_data_elements_cfg;
    Sequence "actuatorSwitchDataElements" 0 actuator_switch_data_elements_cfg;
    Sequence "actuatorSwitchDescriptionDataElements" 0 actuator_switch_description_data_elements_cfg;
    Sequence "alarmDataElements" 0 alarm_data_elements_cfg;
    Sequence "billConstraintsDataElements" 0 bill_constraints_data_elements_cfg;
    Sequence "billDescriptionDataElements" 0 bill_description_data_elements_cfg;
    Sequence "billDataElements" 0 bill_data_elements_cfg;
    Sequence "bindingManagementDeleteCallElements" 0 binding_management_delete_call_elements_cfg;
    Sequence "bindingManagementEntryDataElements" 0 binding_management_entry_data_elements_cfg;
    Sequence "bindingManagementRequestCallElements" 0 binding_management_request_call_elements_cfg;
    Sequence "commodityDataElements" 0 commodity_data_elements_cfg;
    Sequence "dataTunnelingCallElements" 0 data_tunneling_call_elements_cfg;
    Sequence "deviceClassificationManufacturerDataElements" 0 device_classification_manufacturer_data_elements_cfg;
    Sequence "deviceClassificationUserDataElements" 0 device_classification_user_data_elements_cfg;
    Sequence "deviceConfigurationKeyValueConstraintsDataElements" 0 device_configuration_key_value_constraints_data_elements_cfg;
    Sequence "deviceConfigurationKeyValueDescriptionDataElements" 0 device_configuration_key_value_description_data_elements_cfg;
    Sequence "deviceConfigurationKeyValueDataElements" 0 device_configuration_key_value_data_elements_cfg;
    Sequence "deviceDiagnosisHeartbeatDataElements" 0 device_diagnosis_heartbeat_data_elements_cfg;
    Sequence "deviceDiagnosisServiceDataElements" 0 device_diagnosis_service_data_elements_cfg;
    Sequence "deviceDiagnosisStateDataElements" 0 device_diagnosis_state_data_elements_cfg;
    Sequence "directControlActivityDataElements" 0 direct_control_activity_data_elements_cfg;
    Sequence "directControlDescriptionDataElements" 0 direct_control_description_data_elements_cfg;
    Sequence "electricalConnectionCharacteristicDataElements" 0 electrical_connection_characteristic_data_elements_cfg;
    Sequence "electricalConnectionCharacteristicDataElements" 0 electrical_connection_characteristic_data_elements_cfg;
    Sequence "electricalConnectionDescriptionDataElements" 0 electrical_connection_description_data_elements_cfg;
    Sequence "electricalConnectionParameterDescriptionDataElements" 0 electrical_connection_parameter_description_data_elements_cfg;
    Sequence "electricalConnectionPermittedValueSetDataElements" 0 electrical_connection_permitted_value_set_data_elements_cfg;
    Sequence "electricalConnectionStateDataElements" 0 electrical_connection_state_data_elements_cfg;
    Sequence "hvacOperationModeDescriptionDataElements" 0 hvac_operation_mode_description_data_elements_cfg;
    Sequence "hvacOverrunDescriptionDataElements" 0 hvac_overrun_description_data_elements_cfg;
    Sequence "hvacOverrunDataElements" 0 hvac_overrun_data_elements_cfg;
    Sequence "hvacSystemFunctionDescriptionDataElements" 0 hvac_system_function_description_data_elements_cfg;
    Sequence "hvacSystemFunctionDataElements" 0 hvac_system_function_data_elements_cfg;
    Sequence "hvacSystemFunctionOperationModeRelationDataElements" 0 hvac_system_function_operation_mode_relation_data_elements_cfg;
    Sequence "hvacSystemFunctionPowerSequenceRelationDataElements" 0 hvac_system_function_power_sequence_relation_data_elements_cfg;
    Sequence "hvacSystemFunctionSetpointRelationDataElements" 0 hvac_system_function_setpoint_relation_data_elements_cfg;
    Sequence "identificationDataElements" 0 identification_data_elements_cfg;
    Sequence "incentiveDescriptionDataElements" 0 incentive_description_data_elements_cfg;
    Sequence "incentiveDataElements" 0 incentive_data_elements_cfg;
    Sequence "incentiveTableConstraintsDataElements" 0 incentive_table_constraints_data_elements_cfg;
    Sequence "incentiveTableDataElements" 0 incentive_table_data_elements_cfg;
    Sequence "incentiveTableDescriptionDataElements" 0 incentive_table_description_data_elements_cfg;
    Sequence "loadControlEventDataElements" 0 load_control_event_data_elements_cfg;
    Sequence "loadControlLimitConstraintsDataElements" 0 load_control_limit_constraints_data_elements_cfg;
    Sequence "loadControlLimitDescriptionDataElements" 0 load_control_limit_description_data_elements_cfg;
    Sequence "loadControlLimitDataElements" 0 load_control_limit_data_elements_cfg;
    Sequence "loadControlNodeDataElements" 0 load_control_node_data_elements_cfg;
    Sequence "loadControlStateDataElements" 0 load_control_state_data_elements_cfg;
    Sequence "measurementConstraintsDataElements" 0 measurement_constraints_data_elements_cfg;
    Sequence "measurementDescriptionDataElements" 0 measurement_description_data_elements_cfg;
    Sequence "measurementDataElements" 0 measurement_data_elements_cfg;
    Sequence "measurementSeriesDataElements" 0 measurement_series_data_elements_cfg;
    Sequence "measurementThresholdRelationDataElements" 0 measurement_threshold_relation_data_elements_cfg;
    Sequence "messagingDataElements" 0 messaging_data_elements_cfg;
    Tag "networkManagementAbortCallElements";
    Sequence "networkManagementAddNodeCallElements" 0 network_management_add_node_call_elements_cfg;
    Sequence "networkManagementDeviceDescriptionDataElements" 0 network_management_device_description_data_elements_cfg;
    Sequence "networkManagementDiscoverCallElements" 0 network_management_discover_call_elements_cfg;
    Sequence "networkManagementEntityDescriptionDataElements" 0 network_management_entity_description_data_elements_cfg;
    Sequence "networkManagementFeatureDescriptionDataElements" 0 network_management_feature_description_data_elements_cfg;
    Sequence "networkManagementJoiningModeDataElements" 0 network_management_joining_mode_data_elements_cfg;
    Sequence "networkManagementModifyNodeCallElements" 0 network_management_modify_node_call_elements_cfg;
    Sequence "networkManagementProcessStateDataElements" 0 network_management_process_state_data_elements_cfg;
    Sequence "networkManagementRemoveNodeCallElements" 0 network_management_remove_node_call_elements_cfg;
    Sequence "networkManagementReportCandidateDataElements" 0 network_management_report_candidate_data_elements_cfg;
    Sequence "networkManagementScanNetworkCallElements" 0 network_management_scan_network_call_elements_cfg;
    Sequence "nodeManagementBindingDataElements" 0 node_management_binding_data_elements_cfg;
    Sequence "nodeManagementBindingDeleteCallElements" 0 node_management_binding_delete_call_elements_cfg;
    Sequence "nodeManagementBindingRequestCallElements" 0 node_management_binding_request_call_elements_cfg;
    Sequence "nodeManagementDestinationDataElements" 0 node_management_destination_data_elements_cfg;
    Sequence "nodeManagementDetailedDiscoveryDataElements" 0 node_management_detailed_discovery_data_elements_cfg;
    Sequence "nodeManagementSubscriptionDataElements" 0 node_management_subscription_data_elements_cfg;
    Sequence "nodeManagementSubscriptionDeleteCallElements" 0 node_management_subscription_delete_call_elements_cfg;
    Sequence "nodeManagementSubscriptionRequestCallElements" 0 node_management_subscription_request_call_elements_cfg;
    Sequence "nodeManagementUseCaseDataElements" 0 node_management_use_case_data_elements_cfg;
    Sequence "operatingConstraintsDurationDataElements" 0 operating_constraints_duration_data_elements_cfg;
    Sequence "operatingConstraintsInterruptDataElements" 0 operating_constraints_interrupt_data_elements_cfg;
    Sequence "operatingConstraintsPowerDescriptionDataElements" 0 operating_constraints_power_description_data_elements_cfg;
    Sequence "operatingConstraintsPowerLevelDataElements" 0 operating_constraints_power_level_data_elements_cfg;
    Sequence "operatingConstraintsPowerRangeDataElements" 0 operating_constraints_power_range_data_elements_cfg;
    Sequence "operatingConstraintsResumeImplicationDataElements" 0 operating_constraints_resume_implication_data_elements_cfg;
    Sequence "powerSequenceAlternativesRelationDataElements" 0 power_sequence_alternatives_relation_data_elements_cfg;
    Sequence "powerSequenceDescriptionDataElements" 0 power_sequence_description_data_elements_cfg;
    Sequence "powerSequenceNodeScheduleInformationDataElements" 0 power_sequence_node_schedule_information_data_elements_cfg;
    Sequence "powerSequencePriceCalculationRequestCallElements" 0 power_sequence_price_calculation_request_call_elements_cfg;
    Sequence "powerSequencePriceDataElements" 0 power_sequence_price_data_elements_cfg;
    Sequence "powerSequenceScheduleConfigurationRequestCallElements" 0 power_sequence_schedule_configuration_request_call_elements_cfg;
    Sequence "powerSequenceScheduleConstraintsDataElements" 0 power_sequence_schedule_constraints_data_elements_cfg;
    Sequence "powerSequenceScheduleDataElements" 0 power_sequence_schedule_data_elements_cfg;
    Sequence "powerSequenceSchedulePreferenceDataElements" 0 power_sequence_schedule_preference_data_elements_cfg;
    Sequence "powerSequenceStateDataElements" 0 power_sequence_state_data_elements_cfg;
    Sequence "powerTimeSlotScheduleConstraintsDataElements" 0 power_time_slot_schedule_constraints_data_elements_cfg;
    Sequence "powerTimeSlotScheduleDataElements" 0 power_time_slot_schedule_data_elements_cfg;
    Sequence "powerTimeSlotValueDataElements" 0 power_time_slot_value_data_elements_cfg;
    EEBUS_DATA_CHOICE_ELEMENT_EMPTY "resultDataElements";
    Sequence "sensingDescriptionDataElements" 0 sensing_description_data_elements_cfg;
    Sequence "sensingDataElements" 0 sensing_data_elements_cfg;
    Sequence "sessionIdentificationDataElements" 0 session_identification_data_elements_cfg;
    Sequence "sessionMeasurementRelationDataElements" 0 session_measurement_relation_data_elements_cfg;
    Sequence "setpointConstraintsDataElements" 0 setpoint_constraints_data_elements_cfg;
    Sequence "setpointDescriptionDataElements" 0 setpoint_description_data_elements_cfg;
    Sequence "setpointDataElements" 0 setpoint_data_elements_cfg;
    Sequence "smartEnergyManagementPsConfigurationRequestCallElements" 0 smart_energy_management_ps_configuration_request_call_elements_cfg;
    Sequence "smartEnergyManagementPsDataElements" 0 smart_energy_management_ps_data_elements_cfg;
    Sequence "smartEnergyManagementPsPriceCalculationRequestCallElements" 0 smart_energy_management_ps_price_calculation_request_call_elements_cfg;
    Sequence "smartEnergyManagementPsPriceDataElements" 0 smart_energy_management_ps_price_data_elements_cfg;
    Tag "specificationVersionDataElements";
    Sequence "stateInformationDataElements" 0 state_information_data_elements_cfg;
    Sequence "subscriptionManagementDeleteCallElements" 0 subscription_management_delete_call_elements_cfg;
    Sequence "subscriptionManagementEntryDataElements" 0 subscription_management_entry_data_elements_cfg;
    Sequence "subscriptionManagementRequestCallElements" 0 subscription_management_request_call_elements_cfg;
    Sequence "supplyConditionDescriptionDataElements" 0 supply_condition_description_data_elements_cfg;
    Sequence "supplyConditionDataElements" 0 supply_condition_data_elements_cfg;
    Sequence "supplyConditionThresholdRelationDataElements" 0 supply_condition_threshold_relation_data_elements_cfg;
    Sequence "tariffBoundaryRelationDataElements" 0 tariff_boundary_relation_data_elements_cfg;
    Sequence "tariffDescriptionDataElements" 0 tariff_description_data_elements_cfg;
    Sequence "tariffDataElements" 0 tariff_data_elements_cfg;
    Sequence "tariffOverallConstraintsDataElements" 0 tariff_overall_constraints_data_elements_cfg;
    Sequence "tariffTierRelationDataElements" 0 tariff_tier_relation_data_elements_cfg;
    Sequence "taskManagementJobDescriptionDataElements" 0 task_management_job_description_data_elements_cfg;
    Sequence "taskManagementJobDataElements" 0 task_management_job_data_elements_cfg;
    Sequence "taskManagementJobRelationDataElements" 0 task_management_job_relation_data_elements_cfg;
    Sequence "taskManagementOverviewDataElements" 0 task_management_overview_data_elements_cfg;
    Sequence "thresholdConstraintsDataElements" 0 threshold_constraints_data_elements_cfg;
    Sequence "thresholdDescriptionDataElements" 0 threshold_description_data_elements_cfg;
    Sequence "thresholdDataElements" 0 threshold_data_elements_cfg;
    Sequence "tierBoundaryDescriptionDataElements" 0 tier_boundary_description_data_elements_cfg;
    Sequence "tierBoundaryDataElements" 0 tier_boundary_data_elements_cfg;
    Sequence "tierDescriptionDataElements" 0 tier_description_data_elements_cfg;
    Sequence "tierIncentiveRelationDataElements" 0 tier_incentive_relation_data_elements_cfg;
    Sequence "tierDataElements" 0 tier_data_elements_cfg;
    Sequence "timeDistributorDataElements" 0 time_distributor_data_elements_cfg;
    Tag "timeDistributorEnquiryCallElements";
    Sequence "timeInformationDataElements" 0 time_information_data_elements_cfg;
    Sequence "timePrecisionDataElements" 0 time_precision_data_elements_cfg;
    Sequence "timeSeriesConstraintsDataElements" 0 time_series_constraints_data_elements_cfg;
    Sequence "timeSeriesDescriptionDataElements" 0 time_series_description_data_elements_cfg;
    Sequence "timeSeriesDataElements" 0 time_series_data_elements_cfg;
    Sequence "timeTableConstraintsDataElements" 0 time_table_constraints_data_elements_cfg;
    Sequence "timeTableDescriptionDataElements" 0 time_table_description_data_elements_cfg;
    Sequence "timeTableDataElements" 0 time_table_data_elements_cfg;
    Sequence "useCaseInformationDataElements" 0 use_case_information_data_elements_cfg ].

Definition filter_cfg : list EebusDataCfg :=
  [ EEBUS_DATA_UINT32 "filterId";
    EEBUS_DATA_SEQUENCE "cmdControl" cmd_control_cfg;
    EEBUS_DATA_CHOICE data_selectors_choice_data_cfg;
    EEBUS_DATA_CHOICE data_elements_choice_data_cfg ].

Definition filter_element_data_cfg : EebusDataCfg := Sequence "" 0 filter_cfg.

Definition data_choice_data_cfg : list EebusDataCfg :=
  [ Sequence "actuatorLevelData" 0 actuator_level_data_cfg;
    Sequence "actuatorLevelDescriptionData" 0 actuator_level_description_data_cfg;
    Sequence "actuatorSwitchData" 0 actuator_switch_data_cfg;
    Sequence "actuatorSwitchDescriptionData" 0 actuator_switch_description_data_cfg;
    Container KContainer "alarmListData" alarm_list_data_cfg;
    Container KContainer "billConstraintsListData" bill_constraints_list_data_cfg;
    Container KContainer "billDescriptionListData" bill_description_list_data_cfg;
    Container KContainer "billListData" bill_list_data_cfg;
    Sequence "bindingManagementDeleteCall" 0 binding_management_delete_call_cfg;
    Container KContainer "bindingManagementEntryListData" binding_management_entry_list_data_cfg;
    Sequence "bindingManagementRequestCall" 0 binding_management_request_call_cfg;
    Container KContainer "commodityListData" commodity_list_data_cfg;
    Sequence "dataTunnelingCall" 0 data_tunneling_call_cfg;
    Sequence "deviceClassificationManufacturerData" 0 device_classification_manufacturer_data_cfg;
    Sequence "deviceClassificationUserData" 0 device_classification_user_data_cfg;
    Container KContainer "deviceConfigurationKeyValueConstraintsListData" device_configuration_key_value_constraints_list_data_cfg;
    Container KContainer "deviceConfigurationKeyValueDescriptionListData" device_configuration_key_value_description_list_data_cfg;
    Container KContainer "deviceConfigurationKeyValueListData" device_configuration_key_value_list_data_cfg;
    Sequence "deviceDiagnosisHeartbeatData" 0 device_diagnosis_heartbeat_data_cfg;
    Sequence "deviceDiagnosisServiceData" 0 device_diagnosis_service_data_cfg;
    Sequence "deviceDiagnosisStateData" 0 device_diagnosis_state_data_cfg;
    Container KContainer "directControlActivityListData" direct_control_activity_list_data_cfg;
    Sequence "directControlDescriptionData" 0 direct_control_description_data_cfg;
    Sequence "electricalConnectionCharacteristicData" 0 electrical_connection_characteristic_data_cfg;
    Container KContainer "electricalConnectionCharacteristicListData" electrical_connection_characteristic_list_data_cfg;
    Container KContainer "electricalConnectionDescriptionListData" electrical_connection_description_list_data_cfg;
    Container KContainer "electricalConnectionParameterDescriptionListData" electrical_connection_parameter_description_list_data_cfg;
    Container KContainer "electricalConnectionPermittedValueSetListData" electrical_connection_permitted_value_set_list_data_cfg;
    Container KContainer "electricalConnectionStateListData" electrical_connection_state_list_data_cfg;
    Container KContainer "hvacOperationModeDescriptionListData" hvac_operation_mode_description_list_data_cfg;
    Container KContainer "hvacOverrunDescriptionListData" hvac_overrun_description_list_data_cfg;
    Container KContainer "hvacOverrunListData" hvac_overrun_list_data_cfg;
    Container KContainer "hvacSystemFunctionDescriptionListData" hvac_system_function_description_list_data_cfg;
    Container KContainer "hvacSystemFunctionListData" hvac_system_function_list_data_cfg;
    Container KContainer "hvacSystemFunctionOperationModeRelationListData" hvac_system_function_operation_mode_relation_list_data_cfg;
    Container KContainer "hvacSystemFunctionPowerSequenceRelationListData" hvac_system_function_power_sequence_relation_list_data_cfg;
    Container KContainer "hvacSystemFunctionSetpointRelationListData" hvac_system_function_setpoint_relation_list_data_cfg;
    Container KContainer "identificationListData" identification_list_data_cfg;
    Container KContainer "incentiveDescriptionListData" incentive_description_list_data_cfg;
    Container KContainer "incentiveListData" incentive_list_data_cfg;
    Sequence "incentiveTableConstraintsData" 0 incentive_table_constraints_data_cfg;
    Sequence "incentiveTableData" 0 incentive_table_data_cfg;
    Sequence "incentiveTableDescriptionData" 0 incentive_table_description_data_cfg;
    Container KContainer "loadControlEventListData" load_control_event_list_data_cfg;
    Container KContainer "loadControlLimitConstraintsListData" load_control_limit_constraints_list_data_cfg;
    Container KContainer "loadControlLimitDescriptionListData" load_control_limit_description_list_data_cfg;
    Container KContainer "loadControlLimitListData" load_control_limit_list_data_cfg;
    Sequence "loadControlNodeData" 0 load_control_node_data_cfg;
    Container KContainer "loadControlStateListData" load_control_state_list_data_cfg;
    Container KContainer "measurementConstraintsListData" measurement_constraints_list_data_cfg;
    Container KContainer "measurementDescriptionListData" measurement_description_list_data_cfg;
    Container KContainer "measurementListData" measurement_list_data_cfg;
    Container KContainer "measurementSeriesListData" measurement_series_list_data_cfg;
    Container KContainer "measurementThresholdRelationListData" measurement_threshold_relation_list_data_cfg;
    Container KContainer "messagingListData" messaging_list_data_cfg;
    Tag "networkManagementAbortCall";
    Sequence "networkManagementAddNodeCall" 0 network_management_add_node_call_cfg;
    Container KContainer "networkManagementDeviceDescriptionListData" network_management_device_description_list_data_cfg;
    Sequence "networkManagementDiscoverCall" 0 network_management_discover_call_cfg;
    Container KContainer "networkManagementEntityDescriptionListData" network_management_entity_description_list_data_cfg;
    Container KContainer "networkManagementFeatureDescriptionListData" network_management_feature_description_list_data_cfg;
    Sequence "networkManagementJoiningModeData" 0 network_management_joining_mode_data_cfg;
    Sequence "networkManagementModifyNodeCall" 0 network_management_modify_node_call_cfg;
    Sequence "networkManagementProcessStateData" 0 network_management_process_state_data_cfg;
    Sequence "networkManagementRemoveNodeCall" 0 network_management_remove_node_call_cfg;
    Sequence "networkManagementReportCandidateData" 0 network_management_report_candidate_data_cfg;
    Sequence "networkManagementScanNetworkCall" 0 network_management_scan_network_call_cfg;
    Sequence "nodeManagementBindingData" 0 node_management_binding_data_cfg;
    Sequence "nodeManagementBindingDeleteCall" 0 node_management_binding_delete_call_cfg;
    Sequence "nodeManagementBindingRequestCall" 0 node_management_binding_request_call_cfg;
    Container KContainer "nodeManagementDestinationListData" node_management_destination_list_data_cfg;
    Sequence "nodeManagementDetailedDiscoveryData" 0 node_management_detailed_discovery_data_cfg;
    Sequence "nodeManagementSubscriptionData" 0 node_management_subscription_data_cfg;
    Sequence "nodeManagementSubscriptionDeleteCall" 0 node_management_subscription_delete_call_cfg;
    Sequence "nodeManagementSubscriptionRequestCall" 0 node_management_subscription_request_call_cfg;
    Sequence "nodeManagementUseCaseData" 0 node_management_use_case_data_cfg;
    Container KContainer "operatingConstraintsDurationListData" operating_constraints_duration_list_data_cfg;
    Container KContainer "operatingConstraintsInterruptListData" operating_constraints_interrupt_list_data_cfg;
    Container KContainer "operatingConstraintsPowerDescriptionListData" operating_constraints_power_description_list_data_cfg;
    Container KContainer "operatingConstraintsPowerLevelListData" operating_constraints_power_level_list_data_cfg;
    Container KContainer "operatingConstraintsPowerRangeListData" operating_constraints_power_range_list_data_cfg;
    Container KContainer "operatingConstraintsResumeImplicationListData" operating_constraints_resume_implication_list_data_cfg;
    Container KContainer "powerSequenceAlternativesRelationListData" power_sequence_alternatives_relation_list_data_cfg;
    Container KContainer "powerSequenceDescriptionListData" power_sequence_description_list_data_cfg;
    Sequence "powerSequenceNodeScheduleInformationData" 0 power_sequence_node_schedule_information_data_cfg;
    Sequence "powerSequencePriceCalculationRequestCall" 0 power_sequence_price_calculation_request_call_cfg;
    Container KContainer "powerSequencePriceListData" power_sequence_price_list_data_cfg;
    Sequence "powerSequenceScheduleConfigurationRequestCall" 0 power_sequence_schedule_configuration_request_call_cfg;
    Container KContainer "powerSequenceScheduleConstraintsListData" power_sequence_schedule_constraints_list_data_cfg;
    Container KContainer "powerSequenceScheduleListData" power_sequence_schedule_list_data_cfg;
    Container KContainer "powerSequenceSchedulePreferenceListData" power_sequence_schedule_preference_list_data_cfg;
    Container KContainer "powerSequenceStateListData" power_sequence_state_list_data_cfg;
    Container KContainer "powerTimeSlotScheduleConstraintsListData" power_time_slot_schedule_constraints_list_data_cfg;
    Container KContainer "powerTimeSlotScheduleListData" power_time_slot_schedule_list_data_cfg;
    Container KContainer "powerTimeSlotValueListData" power_time_slot_value_list_data_cfg;
    Sequence "resultData" 0 result_data_cfg;
    Sequence "sensingDescriptionData" 0 sensing_description_data_cfg;
    Container KContainer "sensingListData" sensing_list_data_cfg;
    Container KContainer "sessionIdentificationListData" session_identification_list_data_cfg;
    Container KContainer "sessionMeasurementRelationListData" session_measurement_relation_list_data_cfg;
    Container KContainer "setpointConstraintsListData" setpoint_constraints_list_data_cfg;
    Container KContainer "setpointDescriptionListData" setpoint_description_list_data_cfg;
    Container KContainer "setpointListData" setpoint_list_data_cfg;
    Sequence "smartEnergyManagementPsConfigurationRequestCall" 0 smart_energy_management_ps_configuration_request_call_cfg;
    Container KSmartEnergyManagementPs "smartEnergyManagementPsData" smart_energy_management_ps_data_cfg;
    Sequence "smartEnergyManagementPsPriceCalculationRequestCall" 0 smart_energy_management_ps_price_calculation_request_call_cfg;
    Sequence "smartEnergyManagementPsPriceData" 0 smart_energy_management_ps_price_data_cfg;
    Container KContainer "specificationVersionListData" specification_version_list_data_cfg;
    Container KContainer "stateInformationListData" state_information_list_data_cfg;
    Sequence "subscriptionManagementDeleteCall" 0 subscription_management_delete_call_cfg;
    Container KContainer "subscriptionManagementEntryListData" subscription_management_entry_list_data_cfg;
    Sequence "subscriptionManagementRequestCall" 0 subscription_management_request_call_cfg;
    Container KContainer "supplyConditionDescriptionListData" supply_condition_description_list_data_cfg;
    Container KContainer "supplyConditionListData" supply_condition_list_data_cfg;
    Container KContainer "supplyConditionThresholdRelationListData" supply_condition_threshold_relation_list_data_cfg;
    Container KContainer "tariffBoundaryRelationListData" tariff_boundary_relation_list_data_cfg;
    Container KContainer "tariffDescriptionListData" tariff_description_list_data_cfg;
    Container KContainer "tariffListData" tariff_list_data_cfg;
    Sequence "tariffOverallConstraintsData" 0 tariff_overall_constraints_data_cfg;
    Container KContainer "tariffTierRelationListData" tariff_tier_relation_list_data_cfg;
    Container KContainer "taskManagementJobDescriptionListData" task_management_job_description_list_data_cfg;
    Container KContainer "taskManagementJobListData" task_management_job_list_data_cfg;
    Container KContainer "taskManagementJobRelationListData" task_management_job_relation_list_data_cfg;
    Sequence "taskManagementOverviewData" 0 task_management_overview_data_cfg;
    Container KContainer "thresholdConstraintsListData" threshold_constraints_list_data_cfg;
    Container KContainer "thresholdDescriptionListData" threshold_description_list_data_cfg;
    Container KContainer "thresholdListData" threshold_list_data_cfg;
    Container KContainer "tierBoundaryDescriptionListData" tier_boundary_description_list_data_cfg;
    Container KContainer "tierBoundaryListData" tier_boundary_list_data_cfg;
    Container KContainer "tierDescriptionListData" tier_description_list_data_cfg;
    Container KContainer "tierIncentiveRelationListData" tier_incentive_relation_list_data_cfg;
    Container KContainer "tierListData" tier_list_data_cfg;
    Sequence "timeDistributorData" 0 time_distributor_data_cfg;
    Tag "timeDistributorEnquiryCall";
    Sequence "timeInformationData" 0 time_information_data_cfg;
    Sequence "timePrecisionData" 0 time_precision_data_cfg;
    Container KContainer "timeSeriesConstraintsListData" time_series_constraints_list_data_cfg;
    Container KContainer "timeSeriesDescriptionListData" time_series_description_list_data_cfg;
    Container KContainer "timeSeriesListData" time_series_list_data_cfg;
    Container KContainer "timeTableConstraintsListData" time_table_constraints_list_data_cfg;
    Container KContainer "timeTableDescriptionListData" time_table_description_list_data_cfg;
    Container KContainer "timeTableListData" time_table_list_data_cfg;
    Container KContainer "useCaseInformationListData" use_case_information_list_data_cfg ].

Definition cmd_cfg : list EebusDataCfg :=
  [ EEBUS_DATA_ENUM "function" function_lut;
    EEBUS_DATA_LIST "filter" filter_element_data_cfg;
    EEBUS_DATA_CHOICE data_choice_data_cfg;
    EEBUS_DATA_ABSOLUTE_OR_RELATIVE_TIME "lastUpdateAt";
    EEBUS_DATA_STRING "manufacturerSpecificExtension" ].

(** ** [datagram.inc] *)

Definition cmd_classifiers : list (string * Z) :=
  [ ("read", 0); ("reply", 1); ("notify", 2); ("write", 3); ("call", 4); ("result", 5) ].

Definition datagram_header_data_cfg : list EebusDataCfg :=
  [ EEBUS_DATA_STRING "specificationVersion";
    EEBUS_DATA_SEQUENCE "addressSource" feature_address_cfg;
    EEBUS_DATA_SEQUENCE "addressDestination" feature_address_cfg;
    EEBUS_DATA_SEQUENCE "addressOriginator" feature_address_cfg;
    EEBUS_DATA_UINT64 "msgCounter";
    EEBUS_DATA_UINT64 "msgCounterReference";
    EEBUS_DATA_ENUM "cmdClassifier" cmd_classifiers;
    EEBUS_DATA_BOOL "ackRequest";
    EEBUS_DATA_ABSOLUTE_OR_RELATIVE_TIME "timestamp" ].

Definition cmd_element_data_cfg : EebusDataCfg := Sequence "" 0 cmd_cfg.

Definition datagram_payload_data_cfg : list EebusDataCfg :=
  [ EEBUS_DATA_LIST "cmd" cmd_element_data_cfg ].

Definition datagram_sequence_data_cfg : list EebusDataCfg :=
  [ EEBUS_DATA_SEQUENCE "header" datagram_header_data_cfg;
    EEBUS_DATA_SEQUENCE "payload" datagram_payload_data_cfg ].

Definition datagram_data_cfg : EebusDataCfg := Sequence "datagram" 0 datagram_sequence_data_cfg.
