(* ===== verification/EebusDataDemo.v ===== *)
(** * EEBUS data of load control, and what goes wrong elsewhere

    The tables of the function [loadControlLimitListData] ([spine/model/loadcontrol_types.inc]),
    the data of the witnesses, and three partial writes that do not do what they should. *)

From S2P Require Import Prelude Duration DateTime EebusData EebusDataWrite EebusDataFacts EebusDataMerge EebusDataTable EebusDataList SpineTables.

Local Open Scope list_scope.

(** ** The tables *)

(** The entries of the choices. *)
Definition loadControlLimitListData : EebusDataCfg :=
  Container KContainer "loadControlLimitListData" load_control_limit_list_data_cfg.
Definition loadControlLimitListDataSelectors : EebusDataCfg :=
  Sequence "loadControlLimitListDataSelectors" 0 load_control_limit_list_data_selectors_cfg.
Definition loadControlLimitDataElements : EebusDataCfg :=
  Sequence "loadControlLimitDataElements" 0 load_control_limit_data_elements_cfg.

(** ** Data *)

Definition num (z : Z) : Data := Leaf (BInt z).
Definition limit (id : Z) (active : option bool) (watts : option Z) : Data :=
  Struct [num id; Null; from_option (λ a : bool, num (if a then 1 else 0)) Null active; Null;
          from_option (λ w, Struct [num w; Null]) Null watts].

Definition two_limits : list Data := [limit 1 (Some false) (Some 4200%Z); limit 2 (Some false) (Some 6000%Z)].
Definition activate_and_add : list Data := [limit 2 (Some true) None; limit 3 (Some false) (Some 100%Z)].

Section demo.
#[local] Instance malloc_zero_is_not_null : Allocator := true.
Abbreviation item := load_control_limit_data_element_data_cfg.

Lemma limits_are_a_table : is_table item two_limits ∧ is_table item activate_and_add.
Proof. split; constructor; (by vm_compute) || (repeat constructor; by vm_compute) || (by apply (bool_decide_unpack _); vm_compute). Qed.

(** The limit 2 becomes active and keeps its value, the limit 3 is added. *)
Example merge_two : write_partial loadControlLimitListData (Struct [Array two_limits]) (Struct [Array activate_and_add]) None =
  Some (kEebusErrorOk, Struct [Array [limit 1 (Some false) (Some 4200%Z); limit 2 (Some true) (Some 6000%Z);
                                      limit 3 (Some false) (Some 100%Z)]]).
Proof. by vm_compute. Qed.


Definition is_limit (id : Z) (b : Data) : bool := match b with Struct (k :: _) => bool_decide (k = num id) | _ => false end.

Lemma selected_items_deleted_witness :
  ∃ l, delete_partial loadControlLimitListData (Struct [Array two_limits]) loadControlLimitListDataSelectors
           (Struct [num 1]) loadControlLimitDataElements Null = Some (Struct [Array l]) ∧
    is_table item l ∧
    ∀ k, find_by (identity item) l k = (find_by (identity item) two_limits k ≫= λ b, if is_limit 1 b then None else Some b).
Proof.
  destruct limits_are_a_table as [Hbs _].
  apply (selected_items_deleted item "loadControlLimitListData" "loadControlLimitData" [] two_limits []).
  - done.
  - done.
  - done.
  - done.
  - repeat constructor.
  - by left.
Defined.

Lemma iterator_gets_matches_witness :
  ∃ it, EebusDataListMatchIteratorConstruct (Some (List_ "loadControlLimitData" item)) (Some (Array two_limits))
          (Some (limit 2 None None)) = Some it ∧
    ∀ fuel, length two_limits < fuel →
      iterate fuel it = Some (filter (λ b, is_limit 2 b = true) two_limits).
Proof.
  apply iterator_gets_matches.
  - done.
  - repeat constructor.
Defined.

(** *** What goes wrong

    Two new items with the same identifiers in one message are both added: the items
    of the message are compared with those that were there before. *)
Example added_twice :
  write_partial loadControlLimitListData (Struct [Array two_limits]) (Struct [Array [limit 3 None None; limit 3 (Some true) None]]) None =
    Some (kEebusErrorOk, Struct [Array (two_limits ++ [limit 3 None None; limit 3 (Some true) None])]).
Proof. by vm_compute. Qed.

(** The identifier of an entity is its address, which has a list of numbers; a list has no
    identifiers, so a partial write copies the first number of the source to all that are there. *)
Definition entity_descriptions : EebusDataCfg :=
  Container KContainer "networkManagementEntityDescriptionListData" network_management_entity_description_list_data_cfg.
Definition described (l : list Z) (label : string) : Data :=
  Struct [Struct [Null; Array (num <$> l)]; Null; Null; Null; Leaf (BString label); Null].

Example address_of_another_entity :
  write_partial entity_descriptions (Struct [Array [described [1; 2]%Z "a"]]) (Struct [Array [described [1; 2]%Z "b"]]) None =
    Some (kEebusErrorOk, Struct [Array [described [1; 1]%Z "b"]]).
Proof. by vm_compute. Qed.

(** And because that changes the identifier of an item the loop has found, the second
    item about the same entity is not found any more: it is written behind the buffer. *)
Example written_beyond_the_buffer :
  write_partial entity_descriptions (Struct [Array [described [1; 2]%Z "a"]])
    (Struct [Array [described [1; 2]%Z "b"; described [1; 2]%Z "c"]]) None = None.
Proof. by vm_compute. Qed.
End demo.
