(* ===== verification/Queue.v ===== *)
(** * The bounded message queue of [src/common/eebus_queue/eebus_queue.c]

    A cyclic buffer of [max_msg] slots with a write position [head], a read
    position [tail] and the two flags [is_full] and [is_empty] that tell the two
    situations with [head = tail] apart.  Positions are slot numbers: the
    source keeps byte pointers that only ever move by [msg_size], so
    [head - msg_buf] is [msg_size] times the slot number.

    An operation runs with the queue's mutex held.  A wait on a condition
    variable with [kTimeoutInfinite] is [Block] (the operation happens later,
    once the predicate holds); a finite wait that is not satisfied returns
    [kEebusErrorTime].  [EEBUS_MALLOC] and the pthread initialisers succeed.

    The second half proves that the buffer implements a bounded FIFO list. *)

From S2P Require Import Prelude.

Definition kTimeoutInfinite : Z := 0xFFFFFFFF%Z.
Definition SIZE_MAX : Z := (2 ^ 64 - 1)%Z.

Record EebusQueue (A : Type) := mkQueue {
  max_msg : nat;
  msg_size : Z;
  msg_deallocator : bool;      (* the deallocator pointer is not NULL *)
  msg_buf : list (option A);   (* [None]: a slot never written *)
  head : nat;
  tail : nat;
  is_closed : bool;
  is_full : bool;
  is_empty : bool;
}.
Arguments mkQueue {A} _ _ _ _ _ _ _ _ _.
Arguments max_msg {A} _.
Arguments msg_size {A} _.
Arguments msg_deallocator {A} _.
Arguments msg_buf {A} _.
Arguments head {A} _.
Arguments tail {A} _.
Arguments is_closed {A} _.
Arguments is_full {A} _.
Arguments is_empty {A} _.

Section queue.
Context {A : Type}.
Abbreviation Q := (EebusQueue A).

(** [EebusQueueConstruct] / [EebusQueueCreate]: [None] is the NULL returned
    when the construction fails. *)
Definition EebusQueueCreate (max_msg : nat) (msg_size : Z) (dealloc : bool) : option Q :=
  if bool_decide (max_msg = 0) || bool_decide (msg_size = 0)%Z
     || bool_decide (SIZE_MAX `div` msg_size < Z.of_nat max_msg)%Z
  then None
  else Some (mkQueue max_msg msg_size dealloc (replicate max_msg None) 0 0 false false true).

(** [p += msg_size; if (p >= msg_buf + msg_size * max_msg) p = msg_buf;] *)
Definition advance (q : Q) (i : nat) : nat := if bool_decide (max_msg q ≤ S i) then 0 else S i.

Definition SendPredicate (q : Q) : bool := negb (is_full q) || is_closed q.
Definition ReceivePredicate (q : Q) : bool := negb (is_empty q) || is_closed q.

(** [true]: the predicate holds; [false]: the wait timed out. *)
Definition WaitCond (timeout_ms : Z) (predicate : Q → bool) : Prog Q bool :=
  branch predicate (mret true)
    (if bool_decide (timeout_ms = kTimeoutInfinite) then block else mret false).

Definition write_head (msg : A) (q : Q) : Q :=
  let head' := advance q (head q) in
  mkQueue (max_msg q) (msg_size q) (msg_deallocator q) (<[head q := Some msg]> (msg_buf q))
    head' (tail q) (is_closed q) (bool_decide (head' = tail q)) false.

Definition SendInternal (msg : A) (timeout_ms : Z) : Prog Q EebusError :=
  ok ← WaitCond timeout_ms SendPredicate;
  if negb ok then mret kEebusErrorTime
  else branch is_closed (mret kEebusErrorNoChange)
         (modify (write_head msg);; mret kEebusErrorOk).

Definition Send (msg : A) (timeout_ms : Z) : Prog Q EebusError :=
  branch (negb ∘ is_closed) (SendInternal msg timeout_ms) (mret kEebusErrorNoChange).

Definition drop_tail (q : Q) : Q :=
  let tail' := advance q (tail q) in
  mkQueue (max_msg q) (msg_size q) (msg_deallocator q) (msg_buf q)
    (head q) tail' (is_closed q) false (bool_decide (head q = tail')).

(** The message at a position of the buffer. *)
Definition slot (i : nat) : Prog Q A := λ q,
  match msg_buf q !! i with
  | Some (Some m) => Ret m q
  | Some None => Crash "queue: read of a slot never written"
  | None => Crash "queue: read outside the buffer"
  end.

Definition ReceiveInternal (timeout_ms : Z) : Prog Q (EebusError * option A) :=
  ok ← WaitCond timeout_ms ReceivePredicate;
  if negb ok then mret (kEebusErrorTime, None)
  else branch is_closed (mret (kEebusErrorNoChange, None))
         (t ← gets tail; m ← slot t; modify drop_tail;; mret (kEebusErrorOk, Some m)).

Definition Receive (timeout_ms : Z) : Prog Q (EebusError * option A) :=
  branch (negb ∘ is_closed) (ReceiveInternal timeout_ms) (mret (kEebusErrorNoChange, None)).

Definition IsEmpty : Prog Q bool := gets is_empty.
Definition IsFull : Prog Q bool := gets is_full.

(** The loop [while (tail != head)] of [ClearInternal], with the messages it
    hands to the deallocator.  [max_msg] rounds are always enough. *)
Fixpoint clear_loop (fuel : nat) (freed : list A) : Prog Q (list A) :=
  branch (λ q, bool_decide (tail q = head q)) (mret freed)
    (match fuel with
     | 0 => crash "queue: clear_loop ran out of fuel"
     | S fuel' =>
         q ← get;
         freed' ← (if msg_deallocator q
                   then m ← slot (tail q); mret (freed ++ [m])
                   else mret freed);
         modify (λ q, mkQueue (max_msg q) (msg_size q) (msg_deallocator q) (msg_buf q)
                        (head q) (advance q (tail q)) (is_closed q) (is_full q) (is_empty q));;
         clear_loop fuel' freed'
     end).

Definition ClearInternal : Prog Q (list A) :=
  fuel ← gets max_msg;
  freed ← clear_loop fuel [];
  modify (λ q, mkQueue (max_msg q) (msg_size q) (msg_deallocator q) (msg_buf q)
                 (head q) (tail q) (is_closed q) false true);;
  mret freed.

Definition Clear : Prog Q (list A) := ClearInternal.

(** [Destruct] up to the release of the buffer itself. *)
Definition Destruct : Prog Q (list A) :=
  modify (λ q, mkQueue (max_msg q) (msg_size q) (msg_deallocator q) (msg_buf q)
                 (head q) (tail q) true (is_full q) (is_empty q));;
  ClearInternal.
End queue.

(** ** The bounded FIFO the buffer implements *)

(** [content q l]: the slots from [tail] to [head] hold the messages [l], oldest
    first; [fifo q l]: and the two flags agree. *)
Record content {A} (q : EebusQueue A) (l : list A) : Prop := {
  content_len : length (msg_buf q) = max_msg q;
  content_tail : tail q < max_msg q;
  content_head : head q = (tail q + length l) `mod` max_msg q;
  content_cap : length l ≤ max_msg q;
  content_slots i x : l !! i = Some x →
    msg_buf q !! ((tail q + i) `mod` max_msg q) = Some (Some x);
}.

Record fifo {A} (q : EebusQueue A) (l : list A) : Prop := {
  fifo_content : content q l;
  fifo_empty : is_empty q = bool_decide (length l = 0);
  fifo_full : is_full q = bool_decide (length l = max_msg q);
}.

Section fifo.
Context {A : Type}.
Abbreviation Q := (EebusQueue A).
Implicit Types (q : Q) (l : list A) (m : A).

Lemma advance_mod q i : i < max_msg q → advance q i = (i + 1) `mod` max_msg q.
Proof.
  unfold advance. intros Hi. case_bool_decide.
  - replace (i + 1) with (max_msg q) by lia. by rewrite Nat.Div0.mod_same.
  - rewrite Nat.mod_small by lia. lia.
Qed.

Lemma advance_add q i k :
  max_msg q ≠ 0 → advance q ((i + k) `mod` max_msg q) = (i + S k) `mod` max_msg q.
Proof.
  intros Hn. rewrite advance_mod by (by apply Nat.mod_upper_bound).
  rewrite Nat.Div0.add_mod_idemp_l. f_equal; lia.
Qed.

Lemma mod_shift_neq (n t i j : nat) :
  t < n → i < n → j < n → i ≠ j → (t + i) `mod` n ≠ (t + j) `mod` n.
Proof.
  intros Ht Hi Hj Hij.
  assert (∀ k, k < n → (t + k) `mod` n = if decide (t + k < n) then t + k else t + k - n) as E.
  { intros k Hk. case_decide; [by apply Nat.mod_small|].
    symmetry. apply (Nat.mod_unique _ _ 1); lia. }
  rewrite !E by done. repeat case_decide; lia.
Qed.

Lemma EebusQueueCreate_fifo n sz d q :
  EebusQueueCreate n sz d = Some q → fifo q [] ∧ is_closed q = false ∧ max_msg q = n.
Proof.
  unfold EebusQueueCreate. intros H.
  destruct (bool_decide (n = 0)) eqn:En; simpl in H; [done|].
  apply bool_decide_eq_false in En.
  destruct (bool_decide (sz = 0%Z)); simpl in H; [done|].
  destruct (bool_decide _); simplify_eq. split_and!; [|done..].
  constructor; [|by rewrite bool_decide_true|rewrite bool_decide_false; simpl; [done|lia]].
  constructor; simpl; try lia.
  - apply length_replicate.
  - by rewrite Nat.Div0.mod_0_l.
  - intros i x Hi. by rewrite lookup_nil in Hi.
Qed.

(** With messages inside and room left, the two positions differ. *)
Lemma content_head_tail q l :
  content q l → (head q = tail q ↔ length l = 0 ∨ length l = max_msg q).
Proof.
  intros [_ Htail Hhead Hcap _]. rewrite Hhead. split.
  - intros E. destruct (decide (length l = max_msg q)) as [|Hne]; [by right|left].
    destruct (decide (length l = 0)) as [|Hz]; [done|exfalso].
    apply (mod_shift_neq (max_msg q) (tail q) (length l) 0); [lia..|].
    by rewrite E, Nat.add_0_r, Nat.mod_small.
  - intros [->| ->].
    + rewrite Nat.add_0_r. by apply Nat.mod_small.
    + replace (tail q + max_msg q) with (tail q + 1 * max_msg q) by lia.
      rewrite Nat.Div0.mod_add. by apply Nat.mod_small.
Qed.

Lemma content_snoc q l m :
  content q l → length l < max_msg q → content (write_head m q) (l ++ [m]).
Proof.
  intros [Hlen Htail Hhead Hcap Hslots] Hroom.
  assert (head q < max_msg q) as Hhd by (rewrite Hhead; apply Nat.mod_upper_bound; lia).
  constructor; simpl; try done.
  - by rewrite length_insert.
  - rewrite Hhead, advance_add, length_app by lia. simpl. f_equal; lia.
  - rewrite length_app; simpl; lia.
  - intros i x Hi. apply lookup_app_Some in Hi as [Hi|[Hi1 Hi2]].
    + rewrite list_lookup_insert_ne; [by apply Hslots|].
      rewrite Hhead. apply lookup_lt_Some in Hi. apply mod_shift_neq; lia.
    + apply list_lookup_singleton_Some in Hi2 as [Hi2 <-].
      replace i with (length l) by lia. rewrite <- Hhead.
      apply list_lookup_insert_eq. lia.
Qed.

(** Moving [tail] forward forgets the oldest message, whatever the flags. *)
Lemma content_uncons q m l c fl em :
  content q (m :: l) →
  content (mkQueue (max_msg q) (msg_size q) (msg_deallocator q) (msg_buf q)
             (head q) (advance q (tail q)) c fl em) l.
Proof.
  intros [Hlen Htail Hhead Hcap Hslots]. simpl in *.
  assert (∀ k, (advance q (tail q) + k) `mod` max_msg q = (tail q + S k) `mod` max_msg q) as Hsh.
  { intros k. rewrite advance_mod, Nat.Div0.add_mod_idemp_l by done. f_equal; lia. }
  constructor; simpl; try done; try lia.
  - rewrite advance_mod by done. apply Nat.mod_upper_bound. lia.
  - by rewrite Hsh.
  - intros i x Hi. rewrite Hsh. by apply Hslots.
Qed.

Lemma write_head_fifo q l m :
  fifo q l → length l < max_msg q → fifo (write_head m q) (l ++ [m]).
Proof.
  intros [Hc _ _] Hroom. pose proof (content_snoc q l m Hc Hroom) as Hc'.
  constructor; [done| |]; simpl.
  - rewrite bool_decide_false; [done|rewrite length_app; simpl; lia].
  - apply bool_decide_ext. change (head (write_head m q) = tail (write_head m q) ↔
      length (l ++ [m]) = max_msg (write_head m q)).
    rewrite (content_head_tail _ _ Hc'), length_app; simpl. lia.
Qed.

Lemma drop_tail_fifo q m l : fifo q (m :: l) → fifo (drop_tail q) l.
Proof.
  intros [Hc _ _].
  assert (content (drop_tail q) l) as Hc' by (by eapply content_uncons).
  pose proof (content_cap _ _ Hc) as Hcap. simpl in Hcap.
  constructor; [done| |]; simpl.
  - apply bool_decide_ext. change (head (drop_tail q) = tail (drop_tail q) ↔ length l = 0).
    rewrite (content_head_tail _ _ Hc'). simpl. lia.
  - rewrite bool_decide_false; [done|lia].
Qed.

Lemma slot_tail q m l : content q (m :: l) → slot (tail q) q = Ret m q.
Proof.
  intros H. unfold slot.
  assert (msg_buf q !! tail q = Some (Some m)) as ->; [|done].
  pose proof (content_slots _ _ H 0 m eq_refl) as Hs.
  by rewrite Nat.add_0_r, Nat.mod_small in Hs by apply (content_tail _ _ H).
Qed.

(** [ClearInternal] on a queue that is not full: it walks the messages in
    order, giving each to the deallocator, and stops at [head]. *)
Lemma clear_loop_spec l : ∀ q fuel freed,
  content q l → length l < max_msg q → length l ≤ fuel →
  ∃ q', clear_loop fuel freed q = Ret (if msg_deallocator q then freed ++ l else freed) q' ∧
    content q' [] ∧ max_msg q' = max_msg q ∧ is_closed q' = is_closed q ∧
    msg_deallocator q' = msg_deallocator q.
Proof.
  induction l as [|m l IH]; intros q fuel freed Hc Hroom Hfuel;
    pose proof (content_head_tail _ _ Hc) as Hht.
  - exists q. split_and!; try done. assert (tail q = head q) as E by (symmetry; apply Hht; by left).
    destruct fuel; simpl; unfold branch; rewrite bool_decide_true by done;
      by rewrite app_nil_r; destruct (msg_deallocator q).
  - destruct fuel as [|fuel]; simpl in *; [lia|].
    unfold branch. rewrite bool_decide_false by (intros E; symmetry in E; apply Hht in E; lia).
    pose proof (slot_tail q m l Hc) as Hslot.
    edestruct (IH _ fuel (if msg_deallocator q then freed ++ [m] else freed)
                 (content_uncons q m l (is_closed q) (is_full q) (is_empty q) Hc))
      as (q' & Hrun & H'); simpl; [lia..|].
    exists q'. split; [|exact H'].
    destruct (msg_deallocator q) eqn:Ed; simpl in Hrun; unfold_prog; cbn; rewrite ?Ed.
    + rewrite Hslot; cbn. rewrite Ed, Hrun. by rewrite <- app_assoc.
    + by rewrite Hrun.
Qed.

(** On a full queue the loop does not even start. *)
Lemma clear_loop_full q l fuel freed :
  content q l → length l = max_msg q → clear_loop fuel freed q = Ret freed q.
Proof.
  intros Hc Hl. assert (tail q = head q) as E
    by (symmetry; apply (content_head_tail _ _ Hc); by right).
  destruct fuel; simpl; unfold branch; by rewrite bool_decide_true.
Qed.
End fifo.

(** The queue's calls, the specification's answers and the implementation's. *)
Inductive QOp (A : Type) :=
| OpSend (m : A) (timeout_ms : Z)
| OpReceive (timeout_ms : Z)
| OpIsEmpty
| OpIsFull
| OpClear.
Arguments OpSend {A} _ _.
Arguments OpReceive {A} _.
Arguments OpIsEmpty {A}.
Arguments OpIsFull {A}.
Arguments OpClear {A}.

Inductive QAns (A : Type) :=
| AnsSend (e : EebusError)
| AnsReceive (e : EebusError) (m : option A)
| AnsBool (b : bool)
| AnsCleared
| AnsBlocked.
Arguments AnsSend {A} _.
Arguments AnsReceive {A} _ _.
Arguments AnsBool {A} _.
Arguments AnsCleared {A}.
Arguments AnsBlocked {A}.

Section simulation.
Context {A : Type}.
Abbreviation Q := (EebusQueue A).
Implicit Types (q : Q) (l : list A).

(** Specification: a list of at most [n] messages. *)
Definition spec_wait (timeout_ms : Z) (late : QAns A) : QAns A :=
  if bool_decide (timeout_ms = kTimeoutInfinite) then AnsBlocked else late.

Definition spec_step (n : nat) (l : list A) (op : QOp A) : QAns A * list A :=
  match op with
  | OpSend m t =>
      if bool_decide (length l < n) then (AnsSend kEebusErrorOk, l ++ [m])
      else (spec_wait t (AnsSend kEebusErrorTime), l)
  | OpReceive t =>
      match l with
      | m :: l' => (AnsReceive kEebusErrorOk (Some m), l')
      | [] => (spec_wait t (AnsReceive kEebusErrorTime None), [])
      end
  | OpIsEmpty => (AnsBool (bool_decide (length l = 0)), l)
  | OpIsFull => (AnsBool (bool_decide (length l = n)), l)
  | OpClear => (AnsCleared, [])
  end.

Definition answer {R} (f : R → QAns A) (o : outcome Q R) : option (QAns A * Q) :=
  match o with
  | Ret r q => Some (f r, q)
  | Block q => Some (AnsBlocked, q)
  | Crash _ => None
  end.

Definition impl_step q (op : QOp A) : option (QAns A * Q) :=
  match op with
  | OpSend m t => answer AnsSend (Send m t q)
  | OpReceive t => answer (λ r, AnsReceive r.1 r.2) (Receive t q)
  | OpIsEmpty => answer AnsBool (IsEmpty q)
  | OpIsFull => answer AnsBool (IsFull q)
  | OpClear => answer (λ _, AnsCleared) (Clear q)
  end.

Fixpoint spec_run (n : nat) (l : list A) (ops : list (QOp A)) : list (QAns A) * list A :=
  match ops with
  | [] => ([], l)
  | op :: ops' =>
      let '(a, l') := spec_step n l op in
      let '(as', l'') := spec_run n l' ops' in
      (a :: as', l'')
  end.

Fixpoint impl_run q (ops : list (QOp A)) : option (list (QAns A) * Q) :=
  match ops with
  | [] => Some ([], q)
  | op :: ops' =>
      '(a, q') ← impl_step q op;
      '(as', q'') ← impl_run q' ops';
      Some (a :: as', q'')
  end.

Definition open_fifo (n : nat) q l : Prop := fifo q l ∧ is_closed q = false ∧ max_msg q = n.

Lemma is_full_spec n q l : open_fifo n q l → is_full q = bool_decide (length l = n).
Proof. intros (H & _ & <-). apply H. Qed.

Lemma is_empty_spec n q l : open_fifo n q l → is_empty q = bool_decide (length l = 0).
Proof. intros (H & _ & _). apply H. Qed.

Lemma wait_send_room n q l t :
  open_fifo n q l → length l < n → WaitCond t SendPredicate q = Ret true q.
Proof.
  intros Hq Hl. unfold WaitCond, branch, SendPredicate.
  rewrite (is_full_spec _ _ _ Hq), bool_decide_false; [done|lia].
Qed.

Lemma wait_send_full n q l t :
  open_fifo n q l → ¬ length l < n →
  WaitCond t SendPredicate q
  = (if bool_decide (t = kTimeoutInfinite) then Block q else Ret false q).
Proof.
  intros Hq Hl. unfold WaitCond, branch, SendPredicate.
  rewrite (is_full_spec _ _ _ Hq), bool_decide_true.
  - destruct Hq as (_ & -> & _). simpl. by case_bool_decide.
  - destruct Hq as ([Hc _ _] & _ & <-). pose proof (content_cap _ _ Hc). lia.
Qed.

Lemma Send_spec n q l m t : open_fifo n q l →
  ∃ a q', answer AnsSend (Send m t q) = Some (a, q') ∧
    a = (spec_step n l (OpSend m t)).1 ∧ open_fifo n q' (spec_step n l (OpSend m t)).2.
Proof.
  intros Hq. pose proof Hq as (Hf & Hc & Hn). simpl.
  unfold Send, branch. simpl. rewrite Hc. simpl.
  unfold SendInternal. unfold_prog. case_bool_decide as Hl.
  - rewrite (wait_send_room n q l) by done. simpl. unfold branch. rewrite Hc.
    eexists _, _. split_and!; [done..|]. split; [|done].
    by apply write_head_fifo; [|rewrite Hn].
  - rewrite (wait_send_full n q l) by done. unfold spec_wait.
    case_bool_decide; eexists _, _; done.
Qed.

Lemma Receive_spec n q l t : open_fifo n q l →
  ∃ a q', answer (λ r, AnsReceive r.1 r.2) (Receive t q) = Some (a, q') ∧
    a = (spec_step n l (OpReceive t)).1 ∧ open_fifo n q' (spec_step n l (OpReceive t)).2.
Proof.
  intros Hq. pose proof Hq as (Hf & Hc & Hn). simpl.
  unfold Receive, branch. simpl. rewrite Hc. simpl.
  unfold ReceiveInternal, mbind, Prog_bind, WaitCond, branch, ReceivePredicate.
  rewrite (is_empty_spec _ _ _ Hq), Hc. destruct l as [|m l']; simpl.
  - unfold spec_wait. case_bool_decide; eexists _, _; done.
  - unfold branch. rewrite Hc. unfold gets. simpl. rewrite (slot_tail q m l') by apply Hf. simpl.
    eexists _, _. split_and!; [done..|]. split; [by eapply drop_tail_fifo|done].
Qed.

Lemma Clear_spec n q l : open_fifo n q l →
  ∃ freed q', Clear q = Ret freed q' ∧ open_fifo n q' [] ∧
    freed = (if msg_deallocator q && bool_decide (length l < n) then l else []).
Proof.
  intros (Hf & Hc & Hn). pose proof (fifo_content _ _ Hf) as Hcon.
  assert (0 < n) as Hpos by (rewrite <- Hn; pose proof (content_tail _ _ Hcon); lia).
  unfold Clear, ClearInternal. unfold_prog.
  case_bool_decide as Hl.
  - destruct (clear_loop_spec l q (max_msg q) [] Hcon) as (q' & Hrun & Hcon' & Hm & Hcl & Hd);
      [lia..|].
    rewrite Hrun. simpl. eexists _, _. split; [done|].
    split; [|by destruct (msg_deallocator q)].
    split_and!; simpl; [|congruence|congruence].
    constructor; simpl; [|done|rewrite bool_decide_false; [done|lia]].
    by destruct Hcon'.
  - rewrite (clear_loop_full q l) by (done || (pose proof (content_cap _ _ Hcon); lia)).
    eexists _, _. split; [done|]. split; [|by destruct (msg_deallocator q)].
    split_and!; simpl; [|done..].
    constructor; simpl; [|done|rewrite bool_decide_false; [done|lia]].
    destruct Hcon as [Hlen Htail Hhead Hcap _]. constructor; simpl; try done; try lia.
    rewrite Hhead, Nat.add_0_r. replace (length l) with (1 * max_msg q) by lia.
    apply Nat.Div0.mod_add.
Qed.

(** One call of the implementation is one call of the specification. *)
Lemma impl_step_spec n q l op : open_fifo n q l →
  ∃ q', impl_step q op = Some ((spec_step n l op).1, q') ∧ open_fifo n q' (spec_step n l op).2.
Proof.
  intros Hq. destruct op as [m t|t| | |].
  - destruct (Send_spec n q l m t Hq) as (a & q' & H & -> & Hq'). eauto.
  - destruct (Receive_spec n q l t Hq) as (a & q' & H & -> & Hq'). eauto.
  - exists q. simpl. unfold IsEmpty, gets. simpl. by rewrite (is_empty_spec _ _ _ Hq).
  - exists q. simpl. unfold IsFull, gets. simpl. by rewrite (is_full_spec _ _ _ Hq).
  - destruct (Clear_spec n q l Hq) as (freed & q' & H & Hq' & _).
    exists q'. simpl. by rewrite H.
Qed.

Lemma impl_run_spec n ops : ∀ q l, open_fifo n q l →
  ∃ q', impl_run q ops = Some ((spec_run n l ops).1, q') ∧ open_fifo n q' (spec_run n l ops).2.
Proof.
  induction ops as [|op ops IH]; intros q l Hq; simpl; [by exists q|].
  destruct (impl_step_spec n q l op Hq) as (q1 & -> & Hq1). simpl.
  destruct (spec_step n l op) as [a l1]. simpl in *.
  destruct (IH q1 l1 Hq1) as (q2 & -> & Hq2). simpl.
  destruct (spec_run n l1 ops) as [as' l2]. by exists q2.
Qed.
End simulation.

(** ** Properties *)

(** C36: every sequence of calls on a freshly created queue gets the answers of
    a FIFO list bounded by [max_msg]: messages come out in the order they went
    in, none is lost, duplicated or read uninitialised, a send on a full queue
    and a receive on an empty one wait (or time out), and the two flags are
    exact, wrap-around of the two positions included. *)
Theorem queue_refines_fifo {A} n sz d (q : EebusQueue A) ops :
  EebusQueueCreate n sz d = Some q →
  ∃ q', impl_run q ops = Some ((spec_run n [] ops).1, q') ∧ fifo q' (spec_run n [] ops).2.
Proof.
  intros (Hf & Hc & Hm)%EebusQueueCreate_fifo.
  destruct (impl_run_spec n ops q []) as (q' & Hrun & Hq' & _); [done|eauto].
Qed.

Lemma queue_refines_fifo_witness :
  ∃ q : EebusQueue nat, EebusQueueCreate 2 8 true = Some q ∧
    ∃ q', impl_run q [OpSend 1 kTimeoutInfinite; OpSend 2 kTimeoutInfinite; OpReceive 5%Z;
                      OpSend 3 kTimeoutInfinite; OpSend 4 7%Z; OpReceive 5%Z; OpReceive 5%Z]
          = Some ([AnsSend kEebusErrorOk; AnsSend kEebusErrorOk; AnsReceive kEebusErrorOk (Some 1);
                   AnsSend kEebusErrorOk; AnsSend kEebusErrorTime;
                   AnsReceive kEebusErrorOk (Some 2); AnsReceive kEebusErrorOk (Some 3)], q')
          ∧ fifo q' [].
Proof.
  eexists. split; [reflexivity|].
  exact (queue_refines_fifo 2 8 true _
           [OpSend 1 kTimeoutInfinite; OpSend 2 kTimeoutInfinite; OpReceive 5%Z;
            OpSend 3 kTimeoutInfinite; OpSend 4 7%Z; OpReceive 5%Z; OpReceive 5%Z] eq_refl).
Defined.

(** [Clear] on an open queue empties it, never runs past the buffer, and
    hands the pending messages to the deallocator, oldest first, exactly when
    the queue is not full: on a full queue [tail = head] stops the loop before
    its first round, and the [max_msg] pending messages are dropped without
    being released. *)
Theorem clear_releases_unless_full {A} n (q : EebusQueue A) l :
  open_fifo n q l → msg_deallocator q = true →
  ∃ freed q', Clear q = Ret freed q' ∧ open_fifo n q' [] ∧
    (length l < n → freed = l) ∧ (length l = n → freed = []).
Proof.
  intros Hq Hd. destruct (Clear_spec n q l Hq) as (freed & q' & Hrun & Hq' & Hfreed).
  exists freed, q'. split_and!; [done|done| |]; intros Hl; rewrite Hfreed, Hd; simpl.
  - by rewrite bool_decide_true.
  - rewrite bool_decide_false; [done|lia].
Qed.

Lemma clear_releases_unless_full_witness :
  ∃ freed q',
    Clear (write_head 8 (write_head 7 (mkQueue 2 1 true [None; None] 0 0 false false true)))
    = Ret freed q' ∧ open_fifo 2 q' [] ∧
    (length [7; 8] < 2 → freed = [7; 8]) ∧ (length [7; 8] = 2 → freed = []).
Proof.
  apply (clear_releases_unless_full 2 _ [7; 8]); [|reflexivity].
  split; [|split; reflexivity].
  apply (write_head_fifo _ [7]); [|simpl; lia].
  apply (write_head_fifo _ []); [|simpl; lia].
  exact (proj1 (EebusQueueCreate_fifo 2 1 true _ eq_refl)).
Defined.
