(* ===== verification/Timer.v ===== *)
(** * The software timer of [src/common/eebus_timer/eebus_timer_linux.c]

    A timer owns at most one helper thread.  [Start] creates it, the thread
    sleeps in [pthread_cond_timedwait], calls the callback when the wait ends and
    exits (or waits again when [autoreload] is set), and [Stop] cancels and joins
    it.  The thread handle stays in the timer after the thread has exited: only
    [Stop] clears it.

    The environment decides when the wait of the helper thread ends ([Wake]); a
    deadline that has passed and a spurious wake-up are not told apart by the
    code, which does not check its deadline.  Time is one clock, in
    nanoseconds, read through [CLOCK_MONOTONIC] and [CLOCK_REALTIME] alike; thread
    and condition variable creation succeed. *)

From S2P Require Import Prelude.

Local Open Scope Z_scope.

Inductive EebusTimerState :=
| kEebusTimerStateIdle
| kEebusTimerStateRunning
| kEebusTimerStateExpired.

#[export] Instance EebusTimerState_eq_dec : EqDecision EebusTimerState.
Proof. solve_decision. Defined.

(** The helper thread: no handle, handle of a thread that waits, handle of a
    thread that has left [TimerLoop]. *)
Inductive TimerThread := ThreadNone | ThreadWaiting | ThreadExited.

#[export] Instance TimerThread_eq_dec : EqDecision TimerThread.
Proof. solve_decision. Defined.

Record timespec := mkTimespec { tv_sec : Z; tv_nsec : Z }.

(** [clock_gettime] at [now] nanoseconds. *)
Definition clock_gettime (now : Z) : timespec :=
  mkTimespec (now `div` 10 ^ 9) (now `mod` 10 ^ 9).

Record EebusTimer := mkTimer {
  timeout_ms : Z;
  timeout : timespec;
  autoreload : bool;
  cancel : bool;
  start_time : timespec;
  thread : TimerThread;
  timer_state : EebusTimerState;
}.

Definition EebusTimerCreate : EebusTimer :=
  mkTimer 0 (mkTimespec 0 0) false false (mkTimespec 0 0) ThreadNone kEebusTimerStateIdle.

Definition NANOSECONDS (t : Z) : Z := u32 (t * 1000000).
Definition TIME_MS_TO_S (t : Z) : Z := t `div` 1000.

Definition UpdateWaitCondTimeout (now : Z) (ms : Z) : timespec :=
  let ts := clock_gettime now in
  let sec := tv_sec ts + TIME_MS_TO_S ms in
  let nsec := tv_nsec ts + NANOSECONDS (ms `mod` 1000) in
  if bool_decide (10 ^ 9 <= nsec)
  then mkTimespec (sec + nsec `div` 10 ^ 9) (nsec `mod` 10 ^ 9)
  else mkTimespec sec nsec.

Definition Start (now : Z) (ms : Z) (auto : bool) (t : EebusTimer) : EebusTimer :=
  if bool_decide (thread t ≠ ThreadNone) then t
  else
    let t1 := mkTimer ms (timeout t) auto false (start_time t) ThreadNone kEebusTimerStateIdle in
    if bool_decide (ms = 0) then t1
    else
      let deadline := UpdateWaitCondTimeout now ms in
      let t2 := mkTimer ms deadline auto false (clock_gettime now) ThreadNone
                  kEebusTimerStateIdle in
      if bool_decide (tv_sec deadline = 0 ∧ tv_nsec deadline = 0) then t2
      else mkTimer ms deadline auto false (clock_gettime now) ThreadWaiting
             kEebusTimerStateRunning.

(** One round of [TimerLoop], from the end of the timed wait to the next wait
    or to the exit of the thread.  The boolean says that the callback ran. *)
Definition Wake (now : Z) (t : EebusTimer) : EebusTimer * bool :=
  if bool_decide (thread t ≠ ThreadWaiting) then (t, false)
  else if cancel t then
    (mkTimer (timeout_ms t) (timeout t) (autoreload t) (cancel t) (start_time t)
       ThreadExited (timer_state t), false)
  else if autoreload t then
    (mkTimer (timeout_ms t) (UpdateWaitCondTimeout now (timeout_ms t)) (autoreload t) (cancel t)
       (start_time t) ThreadWaiting (timer_state t), true)
  else
    (mkTimer (timeout_ms t) (timeout t) (autoreload t) (cancel t) (start_time t)
       ThreadExited kEebusTimerStateExpired, true).

Definition set_cancel (t : EebusTimer) : EebusTimer :=
  mkTimer (timeout_ms t) (timeout t) (autoreload t) true (start_time t) (thread t) (timer_state t).

(** [Stop]: cancel, wake the thread and join it, then forget the handle. *)
Definition Stop (now : Z) (t : EebusTimer) : EebusTimer :=
  if bool_decide (thread t = ThreadNone) then t
  else
    let t1 := (Wake now (set_cancel t)).1 in
    mkTimer (timeout_ms t1) (timeout t1) (autoreload t1) (cancel t1) (start_time t1) ThreadNone
      (if bool_decide (timer_state t1 ≠ kEebusTimerStateExpired)
       then kEebusTimerStateIdle else timer_state t1).

Definition GetRemainingTime (now : Z) (t : EebusTimer) : Z :=
  let ts := clock_gettime now in
  let sec := tv_sec ts - tv_sec (start_time t) in
  let nsec := tv_nsec ts - tv_nsec (start_time t) in
  let '(sec, nsec) := if bool_decide (nsec < 0) then (sec - 1, nsec + 1000000000) else (sec, nsec) in
  if bool_decide (sec < 0) then 0
  else
    let elapsed_ms := u64 (u64 (sec * 1000) + nsec `div` 1000000) in
    if bool_decide (timeout_ms t <= elapsed_ms) then 0
    else u32 (timeout_ms t - elapsed_ms).

Definition GetTimerState (t : EebusTimer) : EebusTimerState := timer_state t.

(** [Destruct] up to the release of the pthread objects. *)
Definition Destruct (now : Z) (t : EebusTimer) : EebusTimer :=
  if bool_decide (thread t = ThreadNone) then t
  else
    let t1 := (Wake now (set_cancel t)).1 in
    mkTimer (timeout_ms t1) (timeout t1) (autoreload t1) (cancel t1) (start_time t1) ThreadNone
      (timer_state t1).

(** ** Lemmas *)

Definition ns_of (ts : timespec) : Z := tv_sec ts * 10 ^ 9 + tv_nsec ts.

Lemma ns_of_clock now : ns_of (clock_gettime now) = now.
Proof. unfold ns_of, clock_gettime. cbn [tv_sec tv_nsec]. rewrite Z.mul_comm. symmetry. by apply Z.div_mod. Qed.

Lemma clock_nsec now : 0 <= tv_nsec (clock_gettime now) < 10 ^ 9.
Proof. apply Z.mod_pos_bound. lia. Qed.

(** Once the timer is armed, it is armed until [Stop]. *)
Lemma Start_busy now ms auto t : thread t ≠ ThreadNone → Start now ms auto t = t.
Proof. intros H. unfold Start. by rewrite bool_decide_true. Qed.

Lemma Stop_thread now t : thread (Stop now t) = ThreadNone.
Proof. unfold Stop. by case_bool_decide. Qed.

Lemma Stop_idle now t : thread t = ThreadNone → Stop now t = t.
Proof. intros H. unfold Stop. by rewrite bool_decide_true. Qed.

Lemma Stop_waiting now t : thread t = ThreadWaiting → timer_state t = kEebusTimerStateRunning →
  timer_state (Stop now t) = kEebusTimerStateIdle.
Proof.
  intros Ht Hs. unfold Stop, Wake, set_cancel. simpl.
  rewrite bool_decide_false by congruence. rewrite Ht, Hs. reflexivity.
Qed.

Lemma Stop_expired now t : thread t = ThreadExited → timer_state t = kEebusTimerStateExpired →
  timer_state (Stop now t) = kEebusTimerStateExpired.
Proof.
  intros Ht Hs. unfold Stop, Wake, set_cancel. simpl. by rewrite Ht, Hs.
Qed.

(** A fresh start with a positive timeout on a clock past the epoch runs. *)
Lemma Start_fresh now ms auto t :
  thread t = ThreadNone → 0 < ms → 10 ^ 9 <= now →
  thread (Start now ms auto t) = ThreadWaiting ∧
  timer_state (Start now ms auto t) = kEebusTimerStateRunning ∧
  cancel (Start now ms auto t) = false ∧ autoreload (Start now ms auto t) = auto ∧
  timeout_ms (Start now ms auto t) = ms ∧ start_time (Start now ms auto t) = clock_gettime now.
Proof.
  intros Ht Hms Hnow. unfold Start. rewrite Ht. rewrite bool_decide_false by (intros H; by apply H).
  rewrite (bool_decide_false (ms = 0)) by lia.
  rewrite bool_decide_false; [done|]. intros [Hz _]. revert Hz.
  unfold UpdateWaitCondTimeout, clock_gettime, TIME_MS_TO_S. simpl.
  assert (1 <= now `div` 10 ^ 9) by (apply Z.div_le_lower_bound; lia).
  assert (0 <= ms `div` 1000) by (apply Z.div_pos; lia).
  case_bool_decide as Hn; simpl; [|lia].
  assert (1 <= (now `mod` 10 ^ 9 + NANOSECONDS (ms `mod` 1000)) `div` 10 ^ 9)
    by (apply Z.div_le_lower_bound; lia). lia.
Qed.

(** ** Properties *)

(** The timer's remaining time is the configured timeout less the whole
    milliseconds elapsed since [Start], and 0 once they have all elapsed or if
    the clock were to be read before the start: the second/nanosecond borrow and
    the unsigned arithmetic of [GetRemainingTime] compute exactly that. *)
Theorem GetRemainingTime_correct now start t :
  start_time t = clock_gettime start → is_u32 (timeout_ms t) → now - start < 2 ^ 63 →
  GetRemainingTime now t
  = if bool_decide (now < start) then 0
    else Z.max 0 (timeout_ms t - (now - start) `div` 10 ^ 6).
Proof.
  intros Hst Hto Hrange. unfold GetRemainingTime. rewrite Hst. unfold is_u32 in Hto.
  set (n := clock_gettime now). set (s := clock_gettime start).
  assert (Hn := ns_of_clock now). assert (Hs := ns_of_clock start).
  assert (Hn' := clock_nsec now). assert (Hs' := clock_nsec start).
  fold n in Hn, Hn'. fold s in Hs, Hs'. unfold ns_of in Hn, Hs.
  set (sec := if bool_decide (tv_nsec n - tv_nsec s < 0) then tv_sec n - tv_sec s - 1
              else tv_sec n - tv_sec s).
  set (nsec := if bool_decide (tv_nsec n - tv_nsec s < 0) then tv_nsec n - tv_nsec s + 1000000000
               else tv_nsec n - tv_nsec s).
  assert (sec * 10 ^ 9 + nsec = now - start ∧ 0 <= nsec < 10 ^ 9) as [Hsum Hnsec].
  { unfold sec, nsec. case_bool_decide; lia. }
  assert ((if bool_decide (tv_nsec n - tv_nsec s < 0)
           then (tv_sec n - tv_sec s - 1, tv_nsec n - tv_nsec s + 1000000000)
           else (tv_sec n - tv_sec s, tv_nsec n - tv_nsec s)) = (sec, nsec)) as ->.
  { unfold sec, nsec. by case_bool_decide. }
  clearbody sec nsec n s. clear Hst.
  case_bool_decide as Hneg; [rewrite bool_decide_true by lia; done|].
  rewrite (bool_decide_false (now < start)) by lia.
  assert ((now - start) `div` 10 ^ 6 = sec * 1000 + nsec `div` 1000000) as Hms.
  { rewrite <- Hsum. replace (sec * 10 ^ 9) with (sec * 1000 * 10 ^ 6) by lia.
    rewrite Z.div_add_l by lia. reflexivity. }
  assert (0 <= nsec `div` 1000000 < 1000)
    by (split; [apply Z.div_pos; lia | apply Z.div_lt_upper_bound; lia]).
  rewrite (u64_small (sec * 1000)) by lia. rewrite u64_small by lia. rewrite Hms.
  case_bool_decide; [lia|]. rewrite u32_small; unfold is_u32; lia.
Qed.

Lemma GetRemainingTime_correct_witness :
  GetRemainingTime 61_250_000_000 (Start 1_900_000_000 60000 false EebusTimerCreate)
  = if bool_decide (61_250_000_000 < 1_900_000_000) then 0
    else Z.max 0 (60000 - (61_250_000_000 - 1_900_000_000) `div` 10 ^ 6).
Proof.
  apply (GetRemainingTime_correct _ 1_900_000_000); [reflexivity|vm_compute; split; congruence|].
  vm_compute. reflexivity.
Defined.

(** [UpdateWaitCondTimeout] computes the wake-up time [ms] milliseconds
    ahead, as a normalised [timespec]. *)
Theorem UpdateWaitCondTimeout_correct now ms :
  is_u32 ms →
  ns_of (UpdateWaitCondTimeout now ms) = now + ms * 10 ^ 6 ∧
  0 <= tv_nsec (UpdateWaitCondTimeout now ms) < 10 ^ 9.
Proof.
  unfold is_u32. intros Hms. unfold UpdateWaitCondTimeout, TIME_MS_TO_S, NANOSECONDS.
  assert (Hn := ns_of_clock now). assert (Hn' := clock_nsec now).
  set (c := clock_gettime now) in *. clearbody c. unfold ns_of in *.
  assert (0 <= ms `mod` 1000 < 1000) by (apply Z.mod_pos_bound; lia).
  rewrite u32_small by (unfold is_u32; lia).
  assert (ms = 1000 * (ms `div` 1000) + ms `mod` 1000) as Hd by (apply Z.div_mod; lia).
  case_bool_decide; cbn [tv_sec tv_nsec].
  - set (nn := tv_nsec c + ms `mod` 1000 * 1000000) in *.
    assert (nn = 10 ^ 9 * (nn `div` 10 ^ 9) + nn `mod` 10 ^ 9) by (apply Z.div_mod; lia).
    assert (0 <= nn `mod` 10 ^ 9 < 10 ^ 9) by (apply Z.mod_pos_bound; lia). lia.
  - lia.
Qed.

Lemma UpdateWaitCondTimeout_correct_witness :
  ns_of (UpdateWaitCondTimeout 1_900_000_000 1150) = 1_900_000_000 + 1150 * 10 ^ 6 ∧
  0 <= tv_nsec (UpdateWaitCondTimeout 1_900_000_000 1150) < 10 ^ 9.
Proof. apply UpdateWaitCondTimeout_correct. vm_compute. split; congruence. Defined.

(** A history of a timer: calls of its interface and wake-ups of its thread. *)
Inductive TimerOp :=
| TStart (now ms : Z) (auto : bool)
| TStop (now : Z)
| TWake (now : Z).

Definition timer_step (op : TimerOp) (t : EebusTimer) : EebusTimer * nat :=
  match op with
  | TStart now ms auto => (Start now ms auto t, 0%nat)
  | TStop now => (Stop now t, 0%nat)
  | TWake now => let '(t', fired) := Wake now t in (t', if fired then 1%nat else 0%nat)
  end.

(** The timer after the history, and how often its callback ran. *)
Fixpoint timer_run (ops : list TimerOp) (t : EebusTimer) : EebusTimer * nat :=
  match ops with
  | [] => (t, 0%nat)
  | op :: ops' =>
      let '(t1, n1) := timer_step op t in
      let '(t2, n2) := timer_run ops' t1 in
      (t2, (n1 + n2)%nat)
  end.

Definition is_stop (op : TimerOp) : bool := match op with TStop _ => true | _ => false end.
Definition is_wake (op : TimerOp) : bool := match op with TWake _ => true | _ => false end.

Lemma run_exited ops : ∀ t, thread t = ThreadExited → forallb (negb ∘ is_stop) ops = true →
  timer_run ops t = (t, 0%nat).
Proof.
  induction ops as [|op ops IH]; intros t Ht Hns; [done|].
  simpl in Hns. apply andb_prop in Hns as [Hop Hns].
  assert (timer_step op t = (t, 0%nat)) as Hstep.
  { destruct op; simpl; [|done|].
    - by rewrite Start_busy by congruence.
    - unfold Wake. by rewrite Ht. }
  simpl. by rewrite Hstep, IH.
Qed.

Lemma run_waiting ops : ∀ t,
  thread t = ThreadWaiting → cancel t = false → autoreload t = false →
  timer_state t = kEebusTimerStateRunning → forallb (negb ∘ is_stop) ops = true →
  timer_state (timer_run ops t).1
  = (if existsb is_wake ops then kEebusTimerStateExpired else kEebusTimerStateRunning) ∧
  (timer_run ops t).2 = (if existsb is_wake ops then 1%nat else 0%nat).
Proof.
  induction ops as [|op ops IH]; intros t Ht Hc Ha Hst Hns; [done|].
  simpl in Hns. apply andb_prop in Hns as [Hop Hns]. destruct op as [now ms auto|now|now]; simpl.
  - rewrite Start_busy by congruence. specialize (IH t Ht Hc Ha Hst Hns).
    by destruct (timer_run ops t).
  - done.
  - unfold Wake. rewrite Ht, Hc, Ha. rewrite bool_decide_false by (intros H; by apply H).
    rewrite run_exited by done. done.
Qed.

(** A one-shot timer that has been started calls back at most once, namely
    when its wait first ends, and is [Expired] from then on and [Running] before;
    until [Stop] is called every further [Start] is ignored, also the ones that
    come after the timer has expired. *)
Theorem timer_fires_once_until_stopped now ms t ops :
  thread t = ThreadNone → 0 < ms → 10 ^ 9 <= now → forallb (negb ∘ is_stop) ops = true →
  let '(t', fired) := timer_run ops (Start now ms false t) in
  fired = (if existsb is_wake ops then 1%nat else 0%nat) ∧
  timer_state t' = (if existsb is_wake ops then kEebusTimerStateExpired
                    else kEebusTimerStateRunning).
Proof.
  intros Ht Hms Hnow Hns.
  destruct (Start_fresh now ms false t Ht Hms Hnow) as (H1 & H2 & H3 & H4 & _).
  pose proof (run_waiting ops (Start now ms false t) H1 H3 H4 H2 Hns) as [E1 E2].
  by destruct (timer_run ops (Start now ms false t)).
Qed.

Lemma timer_fires_once_until_stopped_witness :
  let '(t', fired) :=
    timer_run [TWake 46_000_000_000; TStart 47_000_000_000 90000 false; TWake 140_000_000_000]
      (Start 1_000_000_000 45000 false EebusTimerCreate) in
  fired = 1%nat ∧ timer_state t' = kEebusTimerStateExpired.
Proof.
  apply (timer_fires_once_until_stopped 1_000_000_000 45000 EebusTimerCreate
    [TWake 46_000_000_000; TStart 47_000_000_000 90000 false; TWake 140_000_000_000]);
    [reflexivity|lia|lia|reflexivity].
Defined.
