(* ===== verification/Vector.v ===== *)
(** * The pointer vector of [src/common/vector.c]

    [elements] points to a buffer of [buffer_size] bytes, or is NULL; the first
    [num_elements] slots of the buffer are in use.  An element is a non-NULL
    pointer: NULL arguments are [None].  [EEBUS_MALLOC] may fail: [malloc_ok]
    says whether the call of this operation succeeds.

    [VectorInterface] is what the containers built on the vector rely on; the
    instance at the end shows that the buffer provides it. *)

From S2P Require Import Prelude.

Definition sizeof_pointer : Z := 8.

Record Vector (A : Type) := mkVector {
  elements : option (list (option A));   (* [None] slot: a stale or fresh pointer *)
  num_elements : nat;
  buffer_size : Z;
}.
Arguments mkVector {A} _ _ _.
Arguments elements {A} _.
Arguments num_elements {A} _.
Arguments buffer_size {A} _.

Section vector.
Context {A : Type} `{EqDecision A}.

Definition VectorConstructWithDeallocator : Vector A := mkVector None 0 0%Z.

Definition VectorClear (v : Vector A) : Vector A :=
  match elements v with
  | None => v
  | Some _ => mkVector None 0 0%Z
  end.

Definition VectorDestruct (v : Vector A) : Vector A := VectorClear v.

(** The elements handed to the deallocator; their slots become NULL. *)
Definition VectorFreeElements (v : Vector A) : list A * Vector A :=
  match elements v with
  | None => ([], v)
  | Some buf =>
      (omap id (take (num_elements v) buf),
       mkVector (Some (replicate (num_elements v) None ++ drop (num_elements v) buf))
         (num_elements v) (buffer_size v))
  end.

(** Destination and source afterwards. *)
Definition VectorMove (dest src : Vector A) : Vector A * Vector A :=
  (src, mkVector None 0 0%Z).

Definition VectorGetSize (v : option (Vector A)) : nat :=
  match v with None => 0 | Some v => num_elements v end.

Definition VectorGetElement (v : Vector A) (index : nat) : option A :=
  if bool_decide (num_elements v ≤ index) then None
  else match elements v with None => None | Some buf => mjoin (buf !! index) end.

Definition num_elements_max : Z := (2 ^ 64 - 1) `div` sizeof_pointer.

(** [buffer[num_elements++] = element], checked against the buffer's end. *)
Definition write_slot (x : A) : Prog (Vector A) unit := λ v,
  match elements v with
  | None => Ret tt v
  | Some buf =>
      if bool_decide (num_elements v < length buf)
      then Ret tt (mkVector (Some (<[num_elements v := Some x]> buf)) (S (num_elements v))
                     (buffer_size v))
      else Crash "vector: write past the end of the buffer"
  end.

Definition VectorPushBack (malloc_ok : bool) (element : option A) : Prog (Vector A) unit :=
  match element with
  | None => mret tt
  | Some x =>
      branch (λ v, bool_decide (num_elements_max <= Z.of_nat (num_elements v))%Z) (mret tt)
        (modify (λ v,
           let size := ((Z.of_nat (num_elements v) + 1) * sizeof_pointer)%Z in
           if bool_decide (buffer_size v < size)%Z && malloc_ok
           then mkVector
                  (Some (take (num_elements v) (default [] (elements v)) ++
                         replicate (S (num_elements v) -
                                    length (take (num_elements v) (default [] (elements v)))) None))
                  (num_elements v) size
           else v);;
         write_slot x)
  end.

(** The index of the first slot that holds [x], among the first [n]. *)
Fixpoint find_slot (x : A) (buf : list (option A)) (n i : nat) {struct n} : option nat :=
  match n, buf with
  | S n', y :: buf' => if bool_decide (y = Some x) then Some i else find_slot x buf' n' (S i)
  | _, _ => None
  end.

(** [for (j = i; j < num - 1; ++j) elements[j] = elements[j + 1]], [n] rounds. *)
Fixpoint shift_down (n j : nat) (buf : list (option A)) : list (option A) :=
  match n with
  | 0 => buf
  | S n' =>
      shift_down n' (S j) (match buf !! S j with Some y => <[j := y]> buf | None => buf end)
  end.

Definition VectorRemove (element : option A) (v : Vector A) : Vector A :=
  match element, elements v with
  | Some x, Some buf =>
      match find_slot x buf (num_elements v) 0 with
      | None => v
      | Some i =>
          mkVector (Some (shift_down (num_elements v - 1 - i) i buf)) (pred (num_elements v))
            (buffer_size v)
      end
  | _, _ => v
  end.
End vector.

(** ** The list a vector holds *)

(** The slots in use hold [l], and [buffer_size] is the size of the buffer. *)
Definition vector_list {A} (v : Vector A) (l : list A) : Prop :=
  num_elements v = length l ∧
  take (length l) (default [] (elements v)) = Some <$> l ∧
  buffer_size v = (Z.of_nat (length (default [] (elements v))) * sizeof_pointer)%Z ∧
  (elements v = None → l = []).

(** Removes the first occurrence. *)
Fixpoint remove_first {A} `{EqDecision A} (x : A) (l : list A) : list A :=
  match l with
  | [] => []
  | y :: l' => if bool_decide (y = x) then l' else y :: remove_first x l'
  end.

(** What a container may assume of its vector. *)
Class VectorInterface (V : Type → Type) := {
  vec_list {A} : V A → list A → Prop;
  vec_new {A} : V A;
  vec_push {A} : A → Prog (V A) unit;
  vec_remove {A} `{EqDecision A} : A → V A → V A;
  vec_get {A} : V A → nat → option A;
  vec_size {A} : V A → nat;
  vec_new_list {A} : vec_list (vec_new (A := A)) [];
  vec_push_list {A} (v : V A) l x : (Z.of_nat (length l) < num_elements_max)%Z → vec_list v l →
    ∃ v', vec_push x v = Ret tt v' ∧ vec_list v' (l ++ [x]);
  vec_remove_list {A} `{EqDecision A} (v : V A) l x :
    vec_list v l → vec_list (vec_remove x v) (remove_first x l);
  vec_get_list {A} (v : V A) l i : vec_list v l → vec_get v i = l !! i;
  vec_size_list {A} (v : V A) l : vec_list v l → vec_size v = length l;
}.

Section vector_list.
Context {A : Type} `{EqDecision A}.
Implicit Types (v : Vector A) (l : list A).

Lemma vector_room v l : vector_list v l → length l ≤ length (default [] (elements v)).
Proof.
  intros (_ & Ht & _ & _). apply (f_equal length) in Ht.
  rewrite length_take, length_fmap in Ht. lia.
Qed.

Lemma VectorConstruct_list : vector_list (VectorConstructWithDeallocator (A := A)) [].
Proof. by split_and!. Qed.

Lemma VectorClear_list v l : vector_list v l → vector_list (VectorClear v) [].
Proof.
  intros (Hn & Ht & Hb & He). unfold VectorClear.
  destruct (elements v) eqn:E; [by split_and!|].
  specialize (He eq_refl). subst l. split_and!; [done|by rewrite take_0|by rewrite E in *|done].
Qed.

Lemma write_slot_list v l x : vector_list v l → length l < length (default [] (elements v)) →
  ∃ v', write_slot x v = Ret tt v' ∧ vector_list v' (l ++ [x]).
Proof.
  intros (Hn & Ht & Hb & He) Hroom. unfold write_slot.
  destruct (elements v) as [buf|] eqn:E; simpl in *; [|lia].
  rewrite bool_decide_true by lia. eexists. split; [done|].
  split_and!; simpl; [rewrite length_app; simpl; lia| |by rewrite length_insert|done].
  rewrite Hn, length_app, fmap_app. simpl. rewrite Nat.add_1_r.
  rewrite (take_S_r _ _ (Some x)) by (apply list_lookup_insert_eq; lia).
  f_equal. rewrite take_insert_ge by lia. done.
Qed.

Lemma VectorPushBack_list v l x :
  (Z.of_nat (length l) < num_elements_max)%Z → vector_list v l →
  ∃ v', VectorPushBack true (Some x) v = Ret tt v' ∧ vector_list v' (l ++ [x]).
Proof.
  intros Hmax Hv. pose proof (vector_room _ _ Hv) as Hroom.
  pose proof Hv as (Hn & Ht & Hb & He).
  unfold VectorPushBack. unfold_prog. rewrite Hn, bool_decide_false by lia.
  rewrite andb_true_r. case_bool_decide as Hgrow.
  - apply write_slot_list; simpl.
    + rewrite Ht. split_and!; simpl; try done.
      * rewrite take_app_le by (rewrite length_fmap; lia).
        by rewrite take_ge by (rewrite length_fmap; lia).
      * rewrite length_app, length_replicate, length_fmap. lia.
    + rewrite Ht, length_app, length_replicate, length_fmap. lia.
  - apply write_slot_list; [done|]. unfold sizeof_pointer in *. lia.
Qed.

Lemma find_slot_absent x l : ∀ rest i, x ∉ l →
  find_slot x ((Some <$> l) ++ rest) (length l) i = None.
Proof.
  induction l as [|y l IH]; intros rest i Hx; [done|]. simpl.
  apply not_elem_of_cons in Hx as [Hxy Hx].
  rewrite bool_decide_false by congruence. by apply IH.
Qed.

Lemma find_slot_present x l1 l2 : ∀ rest i, x ∉ l1 →
  find_slot x ((Some <$> (l1 ++ x :: l2)) ++ rest) (length (l1 ++ x :: l2)) i
  = Some (i + length l1).
Proof.
  induction l1 as [|y l1 IH]; intros rest i Hx; simpl.
  - rewrite bool_decide_true by done. f_equal. lia.
  - apply not_elem_of_cons in Hx as [Hxy Hx].
    rewrite bool_decide_false by congruence. rewrite IH by done. f_equal. lia.
Qed.

Lemma shift_down_spec (B : list (option A)) : ∀ front y rest,
  ∃ last, shift_down (length B) (length front) (front ++ y :: B ++ rest)
          = front ++ B ++ last :: rest.
Proof.
  induction B as [|b B IH]; intros front y rest; simpl; [by exists y|].
  rewrite lookup_app_r by lia.
  replace (S (length front) - length front) with 1 by lia. simpl.
  rewrite list_insert_middle by done.
  destruct (IH (front ++ [b]) b rest) as [last Hl]. exists last.
  rewrite length_app in Hl. simpl in Hl. rewrite Nat.add_1_r in Hl.
  rewrite <- !app_assoc in Hl. exact Hl.
Qed.

Lemma remove_first_absent x l : x ∉ l → remove_first x l = l.
Proof.
  induction l as [|y l IH]; intros Hx; [done|]. apply not_elem_of_cons in Hx as [Hxy Hx].
  simpl. rewrite bool_decide_false by congruence. by rewrite IH.
Qed.

Lemma remove_first_present x l1 l2 : x ∉ l1 → remove_first x (l1 ++ x :: l2) = l1 ++ l2.
Proof.
  induction l1 as [|y l1 IH]; intros Hx; simpl; [by rewrite bool_decide_true|].
  apply not_elem_of_cons in Hx as [Hxy Hx].
  rewrite bool_decide_false by congruence. by rewrite IH.
Qed.

(** A list either lacks [x] or splits at its first occurrence. *)
Lemma first_occurrence x l : x ∉ l ∨ ∃ l1 l2, l = l1 ++ x :: l2 ∧ x ∉ l1.
Proof.
  induction l as [|y l IH]; [left; apply not_elem_of_nil|].
  destruct (decide (y = x)) as [->|Hne]; [right; exists [], l; split; [done|apply not_elem_of_nil]|].
  destruct IH as [Hl|(l1 & l2 & -> & Hl)]; [left|right].
  - apply not_elem_of_cons. split; [congruence|done].
  - exists (y :: l1), l2. split; [done|]. apply not_elem_of_cons. split; [congruence|done].
Qed.

Lemma vector_buffer v l : vector_list v l → elements v ≠ None →
  ∃ rest, elements v = Some ((Some <$> l) ++ rest).
Proof.
  intros (Hn & Ht & _ & _) He. destruct (elements v) as [buf|]; [|done]. simpl in Ht.
  exists (drop (length l) buf). by rewrite <- Ht, take_drop.
Qed.

Lemma VectorRemove_list v l x : vector_list v l →
  vector_list (VectorRemove (Some x) v) (remove_first x l).
Proof.
  intros Hv. pose proof Hv as (Hn & Ht & Hb & He). unfold VectorRemove.
  destruct (elements v) as [buf|] eqn:E;
    [|specialize (He eq_refl); subst l; exact Hv].
  destruct (vector_buffer v l Hv) as [rest Hbuf]; [by rewrite E|].
  rewrite E in Hbuf. injection Hbuf as ->. rewrite Hn.
  destruct (first_occurrence x l) as [Hx|(l1 & l2 & -> & Hx)].
  - rewrite find_slot_absent, remove_first_absent by done. by rewrite E in Hv || exact Hv.
  - rewrite find_slot_present, remove_first_present by done. simpl.
    replace (length (l1 ++ x :: l2) - 1 - length l1) with (length (Some <$> l2))
      by (rewrite length_fmap, length_app; simpl; lia).
    replace (length l1) with (length (Some <$> l1)) by apply length_fmap.
    rewrite fmap_app, <- app_assoc, fmap_cons. cbn [app].
    destruct (shift_down_spec (Some <$> l2) (Some <$> l1) (Some x) rest) as [last ->].
    split_and!; simpl.
    + rewrite !length_app. simpl. lia.
    + rewrite app_assoc, <- fmap_app, take_app_le by (by rewrite length_fmap).
      by rewrite take_ge by (by rewrite length_fmap).
    + rewrite Hb. simpl. rewrite !length_app, !length_fmap, !length_app. simpl. f_equal. lia.
    + done.
Qed.

Lemma VectorGetElement_list v l i : vector_list v l → VectorGetElement v i = l !! i.
Proof.
  intros Hv. pose proof Hv as (Hn & _ & _ & He). unfold VectorGetElement. rewrite Hn.
  case_bool_decide as Hi; [symmetry; by apply lookup_ge_None|].
  destruct (elements v) as [buf|] eqn:E; [|rewrite He in Hi by done; simpl in Hi; lia].
  destruct (vector_buffer v l Hv) as [rest Hbuf]; [by rewrite E|].
  rewrite E in Hbuf. injection Hbuf as ->.
  rewrite lookup_app_l by (rewrite length_fmap; lia). rewrite list_lookup_fmap.
  by destruct (l !! i).
Qed.

Lemma VectorFreeElements_list v l : vector_list v l →
  (VectorFreeElements v).1 = l ∧ num_elements (VectorFreeElements v).2 = length l.
Proof.
  intros Hv. pose proof Hv as (Hn & Ht & _ & He). unfold VectorFreeElements.
  destruct (elements v) as [buf|] eqn:E; simpl in *.
  - split; [|done]. rewrite Hn, Ht. clear. induction l; simpl; by f_equal.
  - specialize (He eq_refl). by subst l.
Qed.
End vector_list.

(** The buffer provides what the containers assume. *)
#[export] Program Instance Vector_interface : VectorInterface Vector := {|
  vec_list A := vector_list;
  vec_new A := VectorConstructWithDeallocator;
  vec_push A x := VectorPushBack true (Some x);
  vec_remove A _ x := VectorRemove (Some x);
  vec_get A := VectorGetElement;
  vec_size A v := VectorGetSize (Some v);
|}.
Next Obligation. intros A. apply VectorConstruct_list. Qed.
Next Obligation. intros A. apply VectorPushBack_list. Qed.
Next Obligation. intros A ? v l x. apply VectorRemove_list. Qed.
Next Obligation. intros A v l i. apply VectorGetElement_list. Qed.
Next Obligation. intros A v l Hv. apply Hv. Qed.

(** ** Properties *)

(** Calls of a vector, and what a list answers. *)
Inductive VecOp (A : Type) :=
| VPush (x : A)
| VRemove (x : A)
| VGet (i : nat)
| VSize
| VClear.
Arguments VPush {A} _.
Arguments VRemove {A} _.
Arguments VGet {A} _.
Arguments VSize {A}.
Arguments VClear {A}.

Section run.
Context {A : Type} `{EqDecision A}.

Definition vec_step (op : VecOp A) (v : Vector A) : outcome (Vector A) (option A * nat) :=
  match op with
  | VPush x =>
      match VectorPushBack true (Some x) v with
      | Ret _ v' => Ret (None, num_elements v') v'
      | Block v' => Block v'
      | Crash why => Crash why
      end
  | VRemove x => Ret (None, num_elements (VectorRemove (Some x) v)) (VectorRemove (Some x) v)
  | VGet i => Ret (VectorGetElement v i, num_elements v) v
  | VSize => Ret (None, VectorGetSize (Some v)) v
  | VClear => Ret (None, 0) (VectorClear v)
  end.

Definition list_step (op : VecOp A) (l : list A) : (option A * nat) * list A :=
  match op with
  | VPush x => ((None, S (length l)), l ++ [x])
  | VRemove x => ((None, length (remove_first x l)), remove_first x l)
  | VGet i => ((l !! i, length l), l)
  | VSize => ((None, length l), l)
  | VClear => ((None, 0), [])
  end.

Lemma vec_step_spec op v l : (Z.of_nat (length l) < num_elements_max)%Z → vector_list v l →
  ∃ v', vec_step op v = Ret (list_step op l).1 v' ∧ vector_list v' (list_step op l).2.
Proof.
  intros Hmax Hv. destruct op as [x|x|i| |]; cbn [vec_step list_step fst snd VectorGetSize].
  - destruct (VectorPushBack_list v l x Hmax Hv) as (v' & -> & Hv').
    exists v'. split; [|done]. pose proof Hv' as (-> & _). by rewrite length_app, Nat.add_comm.
  - pose proof (VectorRemove_list v l x Hv) as Hv'. pose proof Hv' as (-> & _). eauto.
  - rewrite (VectorGetElement_list _ _ _ Hv). pose proof Hv as (-> & _). eauto.
  - pose proof Hv as (-> & _). eauto.
  - eauto using VectorClear_list.
Qed.
End run.

Fixpoint vec_run {A} `{EqDecision A} (ops : list (VecOp A)) (v : Vector A)
    : option (list (option A * nat)) :=
  match ops with
  | [] => Some []
  | op :: ops' =>
      match vec_step op v with
      | Ret a v' => rest ← vec_run ops' v'; Some (a :: rest)
      | _ => None
      end
  end.

Fixpoint list_run {A} `{EqDecision A} (ops : list (VecOp A)) (l : list A)
    : list (option A * nat) :=
  match ops with
  | [] => []
  | op :: ops' => (list_step op l).1 :: list_run ops' (list_step op l).2
  end.

Lemma list_step_grows {A} `{EqDecision A} (op : VecOp A) l :
  length (list_step op l).2 ≤ S (length l).
Proof.
  destruct op; simpl; try lia.
  - rewrite length_app. simpl. lia.
  - induction l as [|y l IH]; simpl; [lia|]. case_bool_decide; simpl; lia.
Qed.

Lemma vec_run_spec {A} `{EqDecision A} (ops : list (VecOp A)) : ∀ v l,
  (Z.of_nat (length l + length ops) < num_elements_max)%Z → vector_list v l →
  vec_run ops v = Some (list_run ops l).
Proof.
  induction ops as [|op ops IH]; intros v l Hmax Hv; simpl in *; [done|].
  destruct (vec_step_spec op v l) as (v' & -> & Hv'); [lia|done|].
  pose proof (list_step_grows op l). rewrite (IH v' (list_step op l).2); [done|lia|done].
Qed.

(** As long as memory is available the vector is a list: any sequence of push,
    remove, get, size and clear on a new vector gives the answers of a list in
    which remove drops the first occurrence, and no slot outside the buffer or
    never written is touched, whatever stale pointers earlier removals left. *)
Theorem vector_refines_list {A} `{EqDecision A} (ops : list (VecOp A)) :
  (Z.of_nat (length ops) < num_elements_max)%Z →
  vec_run ops VectorConstructWithDeallocator = Some (list_run ops []).
Proof. intros Hmax. apply vec_run_spec; [done|apply VectorConstruct_list]. Qed.

Lemma vector_refines_list_witness :
  vec_run [VPush 3; VPush 5; VPush 3; VRemove 3; VGet 1; VPush 7; VSize; VClear; VGet 0]
    VectorConstructWithDeallocator
  = Some [(None, 1); (None, 2); (None, 3); (None, 2); (Some 3, 2); (None, 3); (None, 3);
          (None, 0); (None, 0)].
Proof.
  exact (vector_refines_list
    [VPush 3; VPush 5; VPush 3; VRemove 3; VGet 1; VPush 7; VSize; VClear; VGet 0] eq_refl).
Defined.

(** When the allocation that grows the buffer fails, [VectorPushBack] on a full
    non-empty vector does not report it: it writes one slot past the end of the
    old buffer. *)
Theorem push_overflows_without_memory {A} (v : Vector A) l x :
  vector_list v l → l ≠ [] → length (default [] (elements v)) = length l →
  (Z.of_nat (length l) < num_elements_max)%Z →
  ∃ why, VectorPushBack false (Some x) v = Crash why.
Proof.
  intros (Hn & _ & _ & He) Hl Hfull Hmax. eexists. unfold VectorPushBack. unfold_prog.
  rewrite Hn, bool_decide_false by lia. rewrite andb_false_r. unfold write_slot.
  destruct (elements v) as [buf|]; [|by rewrite He in Hl].
  simpl in Hfull. rewrite bool_decide_false by lia. reflexivity.
Qed.

Lemma push_overflows_without_memory_witness :
  ∃ why, VectorPushBack false (Some 4) (mkVector (Some [Some 9]) 1 8) = Crash why.
Proof.
  apply (push_overflows_without_memory _ [9]); [|discriminate|reflexivity|reflexivity].
  split_and!; [reflexivity..|discriminate].
Defined.
