(* ===== verification/Pool.v ===== *)
(** * Vectors of owned heap objects

    Most containers of the library are a [Vector] of pointers to objects they
    allocate and free themselves.  [Pool] is such a container's memory: the
    vector, the heap cells that belong to it, and the calls that leave the
    container ([log], newest first).  A load, store or free of a cell that is
    not allocated is a [Crash]: the operations below cannot use freed memory
    unnoticed.

    [pool_list p l] says that the vector lists exactly the allocated objects
    [l]: nothing dangles and nothing is leaked.  The rules turn each call and the
    two loops the containers use into operations on [l]. *)

From stdpp Require Import gmap.
From S2P Require Import Prelude Vector.

Abbreviation ptr := nat.

Section pool.
Context {V : Type → Type} `{VectorInterface V}.

Record Pool (A E : Type) := mkPool {
  items : V ptr;
  heap : gmap ptr A;
  next_ptr : ptr;
  log : list E;
}.
Arguments mkPool {A E} _ _ _ _.
Arguments items {A E} _.
Arguments heap {A E} _.
Arguments next_ptr {A E} _.
Arguments log {A E} _.

Definition pool_empty {A E} : Pool A E := mkPool vec_new ∅ 1 [].

Section ops.
Context {A E : Type}.

Definition pool_alloc (a : A) : Prog (Pool A E) ptr := λ p,
  Ret (next_ptr p) (mkPool (items p) (<[next_ptr p := a]> (heap p)) (S (next_ptr p)) (log p)).
Definition pool_load (x : ptr) : Prog (Pool A E) A := λ p,
  match heap p !! x with Some a => Ret a p | None => Crash "load of a freed object" end.
Definition pool_store (x : ptr) (a : A) : Prog (Pool A E) unit := λ p,
  match heap p !! x with
  | Some _ => Ret tt (mkPool (items p) (<[x := a]> (heap p)) (next_ptr p) (log p))
  | None => Crash "store to a freed object"
  end.
Definition pool_free (x : ptr) : Prog (Pool A E) unit := λ p,
  match heap p !! x with
  | Some _ => Ret tt (mkPool (items p) (delete x (heap p)) (next_ptr p) (log p))
  | None => Crash "free of a freed object"
  end.
(** [VectorPushBack(&items, x)] *)
Definition pool_push (x : ptr) : Prog (Pool A E) unit := λ p,
  match vec_push x (items p) with
  | Ret _ v => Ret tt (mkPool v (heap p) (next_ptr p) (log p))
  | Block _ => Block p
  | Crash why => Crash why
  end.
(** [VectorRemove(&items, x)] *)
Definition pool_unlink (x : ptr) : Prog (Pool A E) unit :=
  modify (λ p, mkPool (vec_remove x (items p)) (heap p) (next_ptr p) (log p)).
Definition pool_size : Prog (Pool A E) nat := gets (λ p, vec_size (items p)).
(** [VectorGetElement(&items, i)], dereferenced by all callers. *)
Definition pool_elem (i : nat) : Prog (Pool A E) ptr := λ p,
  match vec_get (items p) i with Some x => Ret x p | None => Crash "NULL element" end.
Definition pool_log (e : E) : Prog (Pool A E) unit :=
  modify (λ p, mkPool (items p) (heap p) (next_ptr p) (e :: log p)).

(** [for (i = 0; i < size; ++i)] with an early return: [n] rounds from [i]. *)
Fixpoint search {R} (body : ptr → Prog (Pool A E) (option R)) (n i : nat)
    : Prog (Pool A E) (option R) :=
  match n with
  | 0 => mret None
  | S n' =>
      x ← pool_elem i;
      r ← body x;
      match r with Some r => mret (Some r) | None => search body n' (S i) end
  end.
Definition for_each {R} (body : ptr → Prog (Pool A E) (option R)) : Prog (Pool A E) (option R) :=
  n ← pool_size; search body n 0.

(** [i = size; while (i > 0) { --i; body }] *)
Fixpoint sweep (body : ptr → Prog (Pool A E) unit) (i : nat) : Prog (Pool A E) unit :=
  match i with
  | 0 => mret tt
  | S i' => x ← pool_elem i'; body x;; sweep body i'
  end.
Definition for_each_down (body : ptr → Prog (Pool A E) unit) : Prog (Pool A E) unit :=
  n ← pool_size; sweep body n.

(** [for (i = 0; i < size;) { body or ++i }]: the body tells whether it removed
    the element; each round uses up one of the [n] initial elements. *)
Fixpoint sift (body : ptr → Prog (Pool A E) bool) (n i : nat) : Prog (Pool A E) unit :=
  size ← pool_size;
  if bool_decide (size ≤ i) then mret tt
  else
    match n with
    | 0 => crash "sift: out of fuel"
    | S n' =>
        x ← pool_elem i;
        removed ← body x;
        sift body n' (if (removed : bool) then i else S i)
    end.
Definition for_each_removing (body : ptr → Prog (Pool A E) bool) : Prog (Pool A E) unit :=
  n ← pool_size; sift body n 0.
End ops.

(** ** The objects of a pool *)

Section pool_list.
Context {A E : Type}.
Implicit Types (p : Pool A E) (l : list A) (ps : list ptr).

(** With the pointers. *)
Record pool_at p ps l : Prop := {
  pool_items : vec_list (items p) ps;
  pool_nodup : NoDup ps;
  pool_objects : Forall2 (λ x a, heap p !! x = Some a) ps l;
  pool_owned x : is_Some (heap p !! x) → x ∈ ps;
  pool_fresh x : is_Some (heap p !! x) → x < next_ptr p;
}.
Definition pool_list p l : Prop := ∃ ps, pool_at p ps l.

Lemma pool_empty_at : pool_at pool_empty [] [].
Proof.
  constructor; simpl; [apply vec_new_list|constructor|constructor|..];
    intros x [a Ha]; by rewrite lookup_empty in Ha.
Qed.

Lemma pool_empty_list : pool_list pool_empty [].
Proof. exists []. apply pool_empty_at. Qed.

Lemma pool_length p ps l : pool_at p ps l → length ps = length l.
Proof. intros Hp. by eapply Forall2_length, pool_objects. Qed.

Lemma pool_size_at p ps l : pool_at p ps l → pool_size p = Ret (length l) p.
Proof.
  intros Hp. unfold pool_size, gets. f_equal.
  rewrite (vec_size_list _ ps) by apply Hp. by eapply pool_length.
Qed.

(** The pointer at a position, and its object. *)
Lemma pool_split p ps l1 a l2 : pool_at p ps (l1 ++ a :: l2) →
  ∃ ps1 x ps2, ps = ps1 ++ x :: ps2 ∧ length ps1 = length l1 ∧ heap p !! x = Some a ∧
    Forall2 (λ x a, heap p !! x = Some a) ps1 l1 ∧ Forall2 (λ x a, heap p !! x = Some a) ps2 l2.
Proof.
  intros Hp. pose proof (pool_objects _ _ _ Hp) as Hob.
  apply Forall2_app_inv_r in Hob as (ps1 & ps' & H1 & H2 & ->).
  inversion H2 as [|x a' ps2 l2' Hx H2' E1 E2]; subst.
  exists ps1, x, ps2. split_and!; try done. by eapply Forall2_length.
Qed.

Lemma pool_elem_at p ps1 x ps2 l : pool_at p (ps1 ++ x :: ps2) l →
  pool_elem (length ps1) p = Ret x p.
Proof.
  intros Hp. unfold pool_elem. rewrite (vec_get_list _ _ _ (pool_items _ _ _ Hp)).
  by rewrite list_lookup_middle.
Qed.

Lemma pool_load_at p x a : heap p !! x = Some a → pool_load x p = Ret a p.
Proof. intros Hx. unfold pool_load. by rewrite Hx. Qed.

(** Cells that are not looked at do not matter. *)
Lemma objects_frame (h h' : gmap ptr A) ps l :
  Forall2 (λ x a, h !! x = Some a) ps l → (∀ x, x ∈ ps → h' !! x = h !! x) →
  Forall2 (λ x a, h' !! x = Some a) ps l.
Proof.
  induction 1 as [|x a ps l Hx Hl IH]; intros Hframe; constructor.
  - rewrite Hframe by apply list_elem_of_here. done.
  - apply IH. intros y Hy. apply Hframe. by apply list_elem_of_further.
Qed.

(** Allocation and push: a new last object. *)
Definition pool_add (a : A) : Prog (Pool A E) unit := x ← pool_alloc a; pool_push x.

Lemma pool_add_list p l a : pool_list p l → (Z.of_nat (length l) < num_elements_max)%Z →
  ∃ p', pool_add a p = Ret tt p' ∧ pool_list p' (l ++ [a]) ∧ log p' = log p.
Proof.
  intros [ps Hp] Hmax. unfold pool_add, pool_alloc, pool_push. unfold_prog. simpl.
  destruct (vec_push_list (items p) ps (next_ptr p)) as (v' & -> & Hv').
  { by rewrite (pool_length _ _ _ Hp). }
  { apply Hp. }
  eexists. split; [done|]. split; [|done]. exists (ps ++ [next_ptr p]).
  assert (∀ x, x ∈ ps → x < next_ptr p) as Hlt.
  { intros x Hx. apply list_elem_of_lookup in Hx as [i Hi].
    destruct (Forall2_lookup_l _ _ _ _ _ (pool_objects _ _ _ Hp) Hi) as (a' & _ & Ha').
    eapply pool_fresh; [exact Hp|eauto]. }
  constructor; simpl.
  - done.
  - apply NoDup_app. split_and!; [apply Hp| |apply NoDup_singleton].
    intros x Hx Hin. apply list_elem_of_singleton in Hin as ->. apply Hlt in Hx. lia.
  - apply Forall2_app; [|constructor; [apply lookup_insert_eq|constructor]].
    eapply objects_frame; [apply Hp|]. intros x Hx.
    rewrite lookup_insert_ne; [done|]. apply Hlt in Hx. lia.
  - intros x [b Hb]. apply elem_of_app. destruct (decide (x = next_ptr p)) as [->|Hne].
    + right. by apply list_elem_of_singleton.
    + left. rewrite lookup_insert_ne in Hb by done. eapply pool_owned; eauto.
  - intros x [b Hb]. destruct (decide (x = next_ptr p)) as [->|Hne]; [lia|].
    rewrite lookup_insert_ne in Hb by done.
    assert (x < next_ptr p) by (eapply pool_fresh; eauto). lia.
Qed.

Lemma nodup_split (ps1 ps2 : list ptr) x :
  NoDup (ps1 ++ x :: ps2) → (x ∉ ps1) ∧ (x ∉ ps2) ∧ NoDup (ps1 ++ ps2).
Proof.
  intros (H1 & H2 & H3)%NoDup_app. apply NoDup_cons in H3 as [Hx H3].
  split_and!; [|done|].
  - intros Hin. eapply H2; [exact Hin|apply list_elem_of_here].
  - apply NoDup_app. split_and!; [done| |done].
    intros y Hy Hy2. eapply H2; [exact Hy|by apply list_elem_of_further].
Qed.

(** Overwriting the object at a position. *)
Lemma pool_store_at p ps1 x ps2 l1 a l2 b :
  pool_at p (ps1 ++ x :: ps2) (l1 ++ a :: l2) → length ps1 = length l1 →
  ∃ p', pool_store x b p = Ret tt p' ∧
    pool_at p' (ps1 ++ x :: ps2) (l1 ++ b :: l2) ∧ log p' = log p.
Proof.
  intros Hp Hlen. destruct (nodup_split _ _ _ (pool_nodup _ _ _ Hp)) as (Hx1 & Hx2 & _).
  pose proof (pool_objects _ _ _ Hp) as Hob.
  apply Forall2_app_inv in Hob as [Ho1 Ho2]; [|done].
  apply Forall2_cons in Ho2 as [Hx Ho2]. unfold pool_store. rewrite Hx.
  eexists. split; [done|]. split; [|done]. constructor; simpl; try apply Hp.
  - apply Forall2_app; [|constructor; [apply lookup_insert_eq|]];
      (eapply objects_frame; [eassumption|]); intros y Hy;
      (rewrite lookup_insert_ne; [done|]); intros ->; done.
  - intros y Hy. apply lookup_insert_is_Some in Hy as [->|[_ Hy]].
    + apply elem_of_app. right. apply list_elem_of_here.
    + by eapply pool_owned.
  - intros y Hy. apply lookup_insert_is_Some in Hy as [->|[_ Hy]];
      (eapply pool_fresh; [exact Hp|eauto]).
Qed.

(** The log is of no concern to the objects. *)
Lemma pool_at_log p ps l lg :
  pool_at p ps l → pool_at (mkPool (items p) (heap p) (next_ptr p) lg) ps l.
Proof. intros [? ? ? ? ?]. by constructor. Qed.

(** Unlinking and freeing the object at a position. *)
Definition pool_drop (x : ptr) : Prog (Pool A E) unit := pool_unlink x;; pool_free x.

Lemma pool_drop_at p ps1 x ps2 l1 a l2 :
  pool_at p (ps1 ++ x :: ps2) (l1 ++ a :: l2) → length ps1 = length l1 →
  let p' := mkPool (vec_remove x (items p)) (delete x (heap p)) (next_ptr p) (log p) in
  pool_drop x p = Ret tt p' ∧ pool_at p' (ps1 ++ ps2) (l1 ++ l2).
Proof.
  intros Hp Hlen. destruct (nodup_split _ _ _ (pool_nodup _ _ _ Hp)) as (Hx1 & Hx2 & Hnd).
  pose proof (pool_objects _ _ _ Hp) as Hob.
  apply Forall2_app_inv in Hob as [Ho1 Ho2]; [|done].
  apply Forall2_cons in Ho2 as [Hx Ho2].
  unfold pool_drop, pool_unlink, pool_free. unfold_prog. simpl. rewrite Hx.
  split; [done|]. constructor; simpl.
  - rewrite <- (remove_first_present x ps1 ps2) by done. apply vec_remove_list, Hp.
  - done.
  - apply Forall2_app; (eapply objects_frame; [eassumption|]); intros y Hy;
      (rewrite lookup_delete_ne; [done|]); intros ->; done.
  - intros y Hy. apply lookup_delete_is_Some in Hy as [Hne Hy].
    apply (pool_owned _ _ _ Hp) in Hy. apply elem_of_app in Hy as [Hy|Hy]; [set_solver|].
    apply elem_of_cons in Hy as [Hy|Hy]; [by subst|set_solver].
  - intros y Hy. apply lookup_delete_is_Some in Hy as [Hne Hy]. by eapply pool_fresh.
Qed.

(** ** Loops *)

(** The search for an object: the body goes past every object, or stops at one. *)
Lemma for_each_pass {R} (body : ptr → Prog (Pool A E) (option R)) p l :
  pool_list p l → (∀ x a, a ∈ l → heap p !! x = Some a → body x p = Ret None p) →
  for_each body p = Ret None p.
Proof.
  intros [ps Hp] Hno. unfold for_each, mbind at 1, Prog_bind at 1.
  rewrite (pool_size_at _ _ _ Hp).
  assert (∀ l2 l1 ps1 ps2, ps = ps1 ++ ps2 → l = l1 ++ l2 → length ps1 = length l1 →
    search body (length l2) (length l1) p = Ret None p) as Hgo; [|by apply (Hgo l [] [] ps)].
  induction l2 as [|a l2 IH]; intros l1 ps1 ps2 -> -> Hlen; [done|].
  destruct (pool_split _ _ _ _ _ Hp) as (qs1 & x & qs2 & Eps & Hq & Hx & _ & _).
  apply app_inj_1 in Eps as [<- ->]; [|congruence].
  cbn [search length]. unfold mbind, Prog_bind. rewrite <- Hlen at 1.
  rewrite (pool_elem_at _ _ _ _ _ Hp), (Hno x a) by (done || set_solver).
  specialize (IH (l1 ++ [a]) (ps1 ++ [x]) qs2). rewrite !length_app, <- !app_assoc in IH.
  simpl in IH. rewrite !Nat.add_1_r in IH. apply IH; [done..|lia].
Qed.

Lemma for_each_stop {R} (body : ptr → Prog (Pool A E) (option R)) p ps1 x ps2 l1 a l2 r p' :
  pool_at p (ps1 ++ x :: ps2) (l1 ++ a :: l2) → length ps1 = length l1 →
  (∀ y b, b ∈ l1 → heap p !! y = Some b → body y p = Ret None p) →
  body x p = Ret (Some r) p' → for_each body p = Ret (Some r) p'.
Proof.
  intros Hp Hlen Hno Hyes. unfold for_each, mbind at 1, Prog_bind at 1.
  rewrite (pool_size_at _ _ _ Hp).
  assert (∀ l1b l1a ps1a ps1b n, ps1 = ps1a ++ ps1b → l1 = l1a ++ l1b → length ps1a = length l1a →
    length l1b < n → search body n (length l1a) p = Ret (Some r) p') as Hgo.
  2: { apply (Hgo l1 [] [] ps1); [done..|]. rewrite length_app. simpl. lia. }
  induction l1b as [|b l1b IH]; intros l1a ps1a ps1b n -> -> Hla Hn;
    (destruct n as [|n]; [simpl in Hn; lia|]); cbn [search]; unfold mbind, Prog_bind.
  - rewrite app_nil_r in *. assert (ps1b = []) as ->.
    { apply length_zero_iff_nil. rewrite length_app in Hlen. lia. }
    rewrite app_nil_r in *. rewrite <- Hla at 1. by rewrite (pool_elem_at _ _ _ _ _ Hp), Hyes.
  - assert (Hp' := Hp). rewrite <- !app_assoc in Hp'. simpl in Hp'.
    destruct (pool_split _ _ _ _ _ Hp') as (qs1 & y & qs2 & Eps & Hq & Hy & _ & _).
    apply app_inj_1 in Eps as [<- Eps]; [|congruence].
    destruct ps1b as [|y' ps1b]; [rewrite !length_app in Hlen; simpl in Hlen; lia|].
    injection Eps as -> _.
    assert (Hpe := Hp). rewrite <- !app_assoc in Hpe. simpl in Hpe.
    rewrite <- Hla at 1. rewrite (pool_elem_at _ _ _ _ _ Hpe), (Hno y b) by (done || set_solver).
    specialize (IH (l1a ++ [b]) (ps1a ++ [y]) ps1b n).
    rewrite !length_app, <- !app_assoc in IH. simpl in IH. rewrite !Nat.add_1_r in IH.
    apply IH; [done..|lia|simpl in Hn; lia].
Qed.

(** The common shape: a test of the loaded object. *)
Lemma for_each_none {R} (cond : A → bool) (act : ptr → A → Prog (Pool A E) (option R)) p l :
  pool_list p l → Forall (λ a, cond a = false) l →
  for_each (λ x, a ← pool_load x; if cond a then act x a else mret None) p = Ret None p.
Proof.
  intros Hp Hno. eapply for_each_pass; [exact Hp|]. intros x a Ha Hx.
  unfold mbind, Prog_bind. rewrite (pool_load_at _ _ _ Hx).
  rewrite Forall_forall in Hno. by rewrite (Hno a Ha).
Qed.

Lemma for_each_some {R} (cond : A → bool) (act : ptr → A → Prog (Pool A E) (option R))
    p ps1 x ps2 l1 a l2 r p' :
  pool_at p (ps1 ++ x :: ps2) (l1 ++ a :: l2) → length ps1 = length l1 →
  Forall (λ a, cond a = false) l1 → cond a = true → act x a p = Ret (Some r) p' →
  for_each (λ x, a ← pool_load x; if cond a then act x a else mret None) p = Ret (Some r) p'.
Proof.
  intros Hp Hlen Hno Hyes Hact. eapply for_each_stop; [exact Hp|exact Hlen| |].
  - intros y b Hb Hy. unfold mbind, Prog_bind. rewrite (pool_load_at _ _ _ Hy).
    rewrite Forall_forall in Hno. by rewrite (Hno b Hb).
  - destruct (pool_split _ _ _ _ _ Hp) as (qs1 & y & qs2 & Eps & Hq & Hy & _ & _).
    apply app_inj_1 in Eps as [<- Eps]; [|congruence]. injection Eps as <- <-.
    unfold mbind, Prog_bind. by rewrite (pool_load_at _ _ _ Hy), Hyes.
Qed.

(** The loop that only logs. *)
Lemma for_each_logs {R} (body : ptr → Prog (Pool A E) (option R)) (out : A → list E)
    (G : A → Prop) p l :
  (∀ p x a, heap p !! x = Some a → G a →
     body x p = Ret None (mkPool (items p) (heap p) (next_ptr p) (out a ++ log p))) →
  pool_list p l → Forall G l →
  for_each body p
  = Ret None (mkPool (items p) (heap p) (next_ptr p) (concat (out <$> reverse l) ++ log p)).
Proof.
  intros Hbody [ps Hp] HG. unfold for_each, mbind at 1, Prog_bind at 1.
  rewrite (pool_size_at _ _ _ Hp).
  assert (∀ l2 l1 lg, l = l1 ++ l2 →
    search body (length l2) (length l1) (mkPool (items p) (heap p) (next_ptr p) lg)
    = Ret None (mkPool (items p) (heap p) (next_ptr p) (concat (out <$> reverse l2) ++ lg))) as Hgo.
  2: { specialize (Hgo l [] (log p) eq_refl). simpl in Hgo. rewrite <- Hgo. by destruct p. }
  induction l2 as [|a l2 IH]; intros l1 lg El; [done|].
  rewrite El in Hp, HG. destruct (pool_split _ _ _ _ _ Hp) as (ps1 & x & ps2 & Eps & Hq & Hx & _ & _).
  rewrite Eps in Hp. cbn [search length]. unfold mbind, Prog_bind.
  pose proof (pool_elem_at _ _ _ _ _ (pool_at_log _ _ _ lg Hp)) as He. rewrite Hq in He.
  rewrite He, (Hbody _ x a); [|done|rewrite Forall_forall in HG; apply HG; set_solver]. simpl.
  specialize (IH (l1 ++ [a]) (out a ++ lg)). rewrite length_app, Nat.add_1_r in IH.
  rewrite IH by (by rewrite <- app_assoc).
  by rewrite reverse_cons, fmap_app, List.concat_app, <- app_assoc; simpl; rewrite app_nil_r.
Qed.

(** The downward loop that replaces or removes every object. *)
Lemma for_each_down_list (body : ptr → Prog (Pool A E) unit) (step : A → option A)
    (out : A → list E) p l :
  (∀ p ps1 x ps2 l1 a l2, pool_at p (ps1 ++ x :: ps2) (l1 ++ a :: l2) →
     length ps1 = length l1 →
     ∃ p', body x p = Ret tt p' ∧ log p' = out a ++ log p ∧
       match step a with
       | None => pool_at p' (ps1 ++ ps2) (l1 ++ l2)
       | Some b => pool_at p' (ps1 ++ x :: ps2) (l1 ++ b :: l2)
       end) →
  pool_list p l →
  ∃ p', for_each_down body p = Ret tt p' ∧ pool_list p' (omap step l) ∧
    log p' = concat (out <$> l) ++ log p.
Proof.
  intros Hbody [ps Hp]. unfold for_each_down, mbind, Prog_bind.
  rewrite (pool_size_at _ _ _ Hp).
  assert (∀ l1 ps1 p ps2 l2, pool_at p (ps1 ++ ps2) (l1 ++ l2) → length ps1 = length l1 →
    ∃ p', sweep body (length l1) p = Ret tt p' ∧ pool_list p' (omap step l1 ++ l2) ∧
      log p' = concat (out <$> l1) ++ log p) as Hgo.
  2: { destruct (Hgo l ps p [] []) as (p' & Hrun & Hl & Hlog);
         [by rewrite !app_nil_r|by eapply pool_length|].
       exists p'. rewrite app_nil_r in Hl. done. }
  clear p l ps Hp. induction l1 as [|a l1 IH] using rev_ind; intros ps1 p ps2 l2 Hp Hlen.
  - exists p. split_and!; [done| |done]. exists ps2. destruct ps1; [done|simpl in Hlen; lia].
  - rewrite <- app_assoc in Hp. simpl in Hp.
    destruct (pool_split _ _ _ _ _ Hp) as (qs1 & x & qs2 & Eps & Hq & Hx & _ & _).
    rewrite Eps in Hp.
    replace (length (l1 ++ [a])) with (S (length l1)) by (rewrite length_app; simpl; lia).
    cbn [sweep].
    unfold mbind, Prog_bind.
    pose proof (pool_elem_at _ _ _ _ _ Hp) as He. rewrite Hq in He. rewrite He.
    destruct (Hbody _ _ _ _ _ _ _ Hp Hq) as (p1 & -> & Hlog1 & Hp1).
    rewrite omap_app, fmap_app, List.concat_app. simpl.
    destruct (step a) as [b|] eqn:Hstep.
    + destruct (IH qs1 p1 (x :: qs2) (b :: l2)) as (p2 & Hrun2 & Hl2 & Hlog2); [done..|].
      exists p2. split; [exact Hrun2|]. split; [by rewrite <- app_assoc|].
      by rewrite Hlog2, Hlog1, app_nil_r, app_assoc.
    + destruct (IH qs1 p1 qs2 l2) as (p2 & Hrun2 & Hl2 & Hlog2); [done..|].
      exists p2. split; [exact Hrun2|]. split; [by rewrite <- app_assoc|].
      by rewrite Hlog2, Hlog1, app_nil_r, app_assoc.
Qed.

(** The upward loop that removes the objects that do not stay. *)
Lemma for_each_removing_list (body : ptr → Prog (Pool A E) bool) (stay : A → bool)
    (out : A → list E) (G : A → Prop) p l :
  (∀ p ps1 x ps2 l1 a l2, pool_at p (ps1 ++ x :: ps2) (l1 ++ a :: l2) →
     length ps1 = length l1 → G a →
     if stay a then body x p = Ret false p
     else ∃ p', body x p = Ret true p' ∧ log p' = out a ++ log p ∧
            pool_at p' (ps1 ++ ps2) (l1 ++ l2)) →
  pool_list p l → Forall G l →
  ∃ p', for_each_removing body p = Ret tt p' ∧ pool_list p' (filter (λ a, stay a = true) l) ∧
    log p' = concat (out <$> reverse (filter (λ a, stay a = false) l)) ++ log p.
Proof.
  intros Hbody [ps Hp] HG. unfold for_each_removing, mbind, Prog_bind.
  rewrite (pool_size_at _ _ _ Hp).
  assert (∀ l2 l1 ps p, pool_at p ps (l1 ++ l2) → Forall G l2 →
    ∃ p', sift body (length l2) (length l1) p = Ret tt p' ∧
      pool_list p' (l1 ++ filter (λ a, stay a = true) l2) ∧
      log p' = concat (out <$> reverse (filter (λ a, stay a = false) l2)) ++ log p) as Hgo;
    [|by apply (Hgo l [] ps p)].
  clear p l ps Hp HG. induction l2 as [|a l2 IH]; intros l1 ps p Hp HG; cbn [sift length];
    unfold mbind, Prog_bind; rewrite (pool_size_at _ _ _ Hp).
  - rewrite app_nil_r in *. exists p. rewrite bool_decide_true by lia.
    split_and!; [done| |done]. rewrite app_nil_r. by exists ps.
  - rewrite bool_decide_false by (rewrite length_app; simpl; lia). cbn [length].
    destruct (pool_split _ _ _ _ _ Hp) as (qs1 & x & qs2 & -> & Hq & Hx & _ & _).
    pose proof (pool_elem_at _ _ _ _ _ Hp) as He. rewrite Hq in He. rewrite He.
    apply Forall_cons in HG as [HGa HG].
    specialize (Hbody _ _ _ _ _ _ _ Hp Hq HGa). rewrite !filter_cons.
    destruct (stay a); simpl.
    + rewrite Hbody. destruct (IH (l1 ++ [a]) (qs1 ++ x :: qs2) p) as (p' & Hrun & Hl & Hlog).
      { by rewrite <- app_assoc. }
      { done. }
      exists p'.
      replace (length (l1 ++ [a])) with (S (length l1)) in Hrun by (rewrite length_app; simpl; lia).
      split; [exact Hrun|].
      by rewrite <- app_assoc in Hl.
    + destruct Hbody as (p1 & -> & Hlog1 & Hp1).
      destruct (IH l1 _ p1 Hp1 HG) as (p' & Hrun & Hl & Hlog). exists p'.
      split; [exact Hrun|]. split; [done|].
      by rewrite Hlog, Hlog1, reverse_cons, fmap_app, List.concat_app, <- app_assoc; simpl; rewrite app_nil_r.
Qed.
End pool_list.
End pool.

Arguments mkPool {V A E} _ _ _ _.
Arguments items {V A E} _.
Arguments heap {V A E} _.
Arguments next_ptr {V A E} _.
Arguments log {V A E} _.
