(* ===== verification/Lut.v ===== *)
(** * Look-up tables ([src/common/uint64_lut.c], [src/common/string_lut.c])

    A table is a vector of owned records.  Values are pointers (NULL is [None])
    which the table hands to the record's deleter when it drops the record;
    the pool's log lists these calls.  The two tables differ in their keys: a
    string key may be NULL and is copied. *)

From S2P Require Import Prelude Vector Pool.

(** [struct Uint64LutRecord], [struct StringLutRecord] *)
Record LutRecord (K : Type) := mkRecord {
  key : K;
  value : nat;
  deleter : option nat;
}.
Arguments mkRecord {K} _ _ _.
Arguments key {K} _.
Arguments value {K} _.
Arguments deleter {K} _.

(** The call [deleter(value)] *)
Definition DeleterCall : Type := nat * nat.

Section lut.
Context {V : Type → Type} `{VectorInterface V}.

Section keyed.
Context {K : Type} `{EqDecision K}.
Abbreviation Lut := (Pool (V := V) (LutRecord K) DeleterCall).

Definition LutConstruct : Lut := pool_empty.

(** A record that could not be initialised is all zero and is freed again,
    without a deleter: nothing remains of it. *)
Definition LutRecordCreate (k : K) (v : option nat) (del : option nat) : Prog Lut (option ptr) :=
  match v with
  | None => mret None
  | Some v => x ← pool_alloc (mkRecord k v del); mret (Some x)
  end.

Definition LutRecordRelease (r : LutRecord K) : Prog Lut unit :=
  match deleter r with
  | Some d => pool_log (d, value r)
  | None => mret tt
  end.

Definition LutRecordDelete (x : ptr) : Prog Lut unit :=
  r ← pool_load x; LutRecordRelease r;; pool_free x.

Definition LutDestruct : Prog Lut unit :=
  for_each (λ x, LutRecordDelete x;; mret (None : option unit));;
  modify (λ p, mkPool vec_new (heap p) (next_ptr p) (log p)).

Definition LutFindRecord (k : K) : Prog Lut (option ptr) :=
  for_each (λ x, r ← pool_load x;
                 if bool_decide (key r = k) then mret (Some x) else mret None).

Definition LutFind (k : K) : Prog Lut (option nat) :=
  r ← LutFindRecord k;
  match r with
  | None => mret None
  | Some x => rec ← pool_load x; mret (Some (value rec))
  end.

Definition LutInsert (k : K) (v : option nat) (del : option nat) : Prog Lut EebusError :=
  r ← LutRecordCreate k v del;
  match r with
  | None => mret kEebusErrorMemoryAllocate
  | Some x => pool_push x;; mret kEebusErrorOk
  end.

Definition LutRemove (k : K) : Prog Lut EebusError :=
  r ← LutFindRecord k;
  match r with
  | None => mret kEebusErrorInputArgument
  | Some x => pool_unlink x;; LutRecordDelete x;; mret kEebusErrorOk
  end.
End keyed.

(** ** 64-bit keys *)

Abbreviation Uint64Lut := (Pool (V := V) (LutRecord Z) DeleterCall).
Definition Uint64LutFind : Z → Prog Uint64Lut (option nat) := LutFind.
Definition Uint64LutInsert : Z → option nat → option nat → Prog Uint64Lut EebusError := LutInsert.
Definition Uint64LutRemove : Z → Prog Uint64Lut EebusError := LutRemove.

(** ** String keys *)

Abbreviation StringLut := (Pool (V := V) (LutRecord string) DeleterCall).

Definition StringLutFindRecord (k : option string) : Prog StringLut (option ptr) :=
  match k with None => mret None | Some k => LutFindRecord k end.

Definition StringLutFind (k : option string) : Prog StringLut (option nat) :=
  r ← StringLutFindRecord k;
  match r with
  | None => mret None
  | Some x => rec ← pool_load x; mret (Some (value rec))
  end.

Definition StringLutInsert (k : option string) (v del : option nat) : Prog StringLut EebusError :=
  match k with
  | None => mret kEebusErrorMemoryAllocate
  | Some k => LutInsert k v del
  end.

Definition StringLutRemove (k : option string) : Prog StringLut EebusError :=
  r ← StringLutFindRecord k;
  match r with
  | None => mret kEebusErrorInputArgument
  | Some x => pool_unlink x;; LutRecordDelete x;; mret kEebusErrorOk
  end.

Definition StringLutGetSize : Prog StringLut nat := pool_size.

Definition StringLutGetElementValue (idx : nat) : Prog StringLut nat :=
  x ← pool_elem idx; r ← pool_load x; mret (value r).

(** ** The association list a table is *)

Section spec.
Context {K : Type} `{EqDecision K}.
Abbreviation Lut := (Pool (V := V) (LutRecord K) DeleterCall).
Implicit Types (l : list (LutRecord K)).

Definition assoc_find (k : K) l : option (LutRecord K) :=
  snd <$> list_find (λ r, key r = k) l.

(** Drops the first record of the key. *)
Fixpoint assoc_remove (k : K) l : list (LutRecord K) :=
  match l with
  | [] => []
  | r :: l' => if bool_decide (key r = k) then l' else r :: assoc_remove k l'
  end.

Lemma assoc_split k l :
  (assoc_find k l = None ∧ Forall (λ r, bool_decide (key r = k) = false) l) ∨
  ∃ l1 r l2, l = l1 ++ r :: l2 ∧ Forall (λ r, bool_decide (key r = k) = false) l1 ∧
    bool_decide (key r = k) = true ∧ assoc_find k l = Some r ∧ assoc_remove k l = l1 ++ l2.
Proof.
  unfold assoc_find. induction l as [|r l IH]; [by left|]. simpl.
  destruct (decide (key r = k)) as [Hk|Hk].
  - right. exists [], r, l. rewrite (bool_decide_true (key r = k)) by done. by split_and!.
  - rewrite (bool_decide_false (key r = k)) by done.
    destruct IH as [[Hn Hf]|(l1 & r' & l2 & -> & Hf & Hk' & He & Hr)]; [left|right].
    + split; [|by constructor; [apply bool_decide_eq_false|]].
      by destruct (list_find _ _) as [[]|].
    + exists (r :: l1), r', l2. split_and!; [done| |done| |by rewrite Hr].
      * constructor; [by apply bool_decide_eq_false|done].
      * by destruct (list_find _ _) as [[]|].
Qed.

Lemma LutFindRecord_none k p l : pool_list p l →
  Forall (λ r, bool_decide (key r = k) = false) l → LutFindRecord k p = Ret None p.
Proof. intros Hp Hno. by apply (for_each_none _ (λ x _, mret (Some x)) _ l). Qed.

Lemma LutFindRecord_some k p ps1 x ps2 l1 r l2 :
  pool_at p (ps1 ++ x :: ps2) (l1 ++ r :: l2) → length ps1 = length l1 →
  Forall (λ r, bool_decide (key r = k) = false) l1 → bool_decide (key r = k) = true →
  LutFindRecord k p = Ret (Some x) p.
Proof. intros Hp Hl Hno Hk. by apply (for_each_some _ (λ x _, mret (Some x)) p ps1 x ps2 l1 r l2). Qed.

Lemma LutFind_spec k p l : pool_list p l →
  LutFind k p = Ret (value <$> assoc_find k l) p.
Proof.
  intros Hp. unfold LutFind, mbind, Prog_bind.
  destruct (assoc_split k l) as [[-> Hno]|(l1 & r & l2 & -> & Hno & Hk & -> & _)].
  - by rewrite (LutFindRecord_none _ _ _ Hp Hno).
  - destruct Hp as [ps Hp]. destruct (pool_split _ _ _ _ _ Hp) as (ps1 & x & ps2 & -> & Hl & Hx & _).
    rewrite (LutFindRecord_some _ _ _ _ _ _ _ _ Hp Hl Hno Hk).
    by rewrite (pool_load_at _ _ _ Hx).
Qed.

Lemma LutInsert_spec k v del p l : pool_list p l → (Z.of_nat (length l) < num_elements_max)%Z →
  ∃ p', LutInsert k (Some v) del p = Ret kEebusErrorOk p' ∧
    pool_list p' (l ++ [mkRecord k v del]) ∧ log p' = log p.
Proof.
  intros Hp Hmax. destruct (pool_add_list p l (mkRecord k v del) Hp Hmax) as (p' & Hadd & Hp' & Hlog).
  exists p'. split; [|done]. revert Hadd.
  unfold LutInsert, LutRecordCreate, pool_add. unfold_prog. simpl.
  destruct (pool_push _ _); [|done|done]. by intros [= _ <-].
Qed.

Definition deleter_call (r : LutRecord K) : list DeleterCall :=
  match deleter r with Some d => [(d, value r)] | None => [] end.

Lemma LutRemove_spec k p l : pool_list p l →
  ∃ p', LutRemove k p =
          Ret (match assoc_find k l with Some _ => kEebusErrorOk | None => kEebusErrorInputArgument end) p' ∧
    pool_list p' (assoc_remove k l) ∧
    log p' = (match assoc_find k l with Some r => deleter_call r | None => [] end) ++ log p.
Proof.
  intros Hp. unfold LutRemove, mbind, Prog_bind.
  destruct (assoc_split k l) as [[Hn Hno]|(l1 & r & l2 & -> & Hno & Hk & -> & ->)].
  - rewrite (LutFindRecord_none _ _ _ Hp Hno), Hn. exists p. split_and!; [done| |done].
    replace (assoc_remove k l) with l; [done|]. clear Hp Hn. induction Hno as [|r l Hr _ IH]; simpl.
    + done.
    + by rewrite Hr, <- IH.
  - destruct Hp as [ps Hp]. destruct (pool_split _ _ _ _ _ Hp) as (ps1 & x & ps2 & -> & Hl & Hx & _).
    rewrite (LutFindRecord_some _ _ _ _ _ _ _ _ Hp Hl Hno Hk).
    destruct (pool_drop_at _ _ _ _ _ _ _ Hp Hl) as [_ Hp'].
    unfold LutRecordDelete, LutRecordRelease, pool_load, pool_free, deleter_call. unfold_prog. simpl.
    rewrite Hx. destruct (deleter r) as [d|]; simpl; rewrite Hx; eexists;
      (split; [done|]); (split; [|done]); exists (ps1 ++ ps2); [|done].
    apply (pool_at_log _ _ _ _ Hp').
Qed.
End spec.
End lut.

(** ** Properties *)

(** A call on a table and its answer; keys may be inserted more than once. *)
Inductive LutOp (K : Type) :=
| LInsert (k : K) (v : nat) (del : option nat)
| LFind (k : K)
| LRemove (k : K).
Arguments LInsert {K} _ _ _.
Arguments LFind {K} _.
Arguments LRemove {K} _.

Section run.
Context {V : Type → Type} `{VectorInterface V} {K : Type} `{EqDecision K}.
Abbreviation Lut := (Pool (V := V) (LutRecord K) DeleterCall).

Definition lut_step (op : LutOp K) (p : Lut) : outcome Lut (EebusError * option nat) :=
  match op with
  | LInsert k v del => (e ← LutInsert k (Some v) del; mret (e, None)) p
  | LFind k => (v ← LutFind k; mret (kEebusErrorOk, v)) p
  | LRemove k => (e ← LutRemove k; mret (e, None)) p
  end.

Fixpoint lut_run (ops : list (LutOp K)) (p : Lut)
    : option (list (EebusError * option nat) * Lut) :=
  match ops with
  | [] => Some ([], p)
  | op :: ops' =>
      match lut_step op p with
      | Ret a p' => '(as', p'') ← lut_run ops' p'; Some (a :: as', p'')
      | _ => None
      end
  end.

(** Answer, records and deleter calls of the association list. *)
Definition assoc_step (op : LutOp K) (l : list (LutRecord K))
    : (EebusError * option nat) * list (LutRecord K) * list DeleterCall :=
  match op with
  | LInsert k v del => ((kEebusErrorOk, None), l ++ [mkRecord k v del], [])
  | LFind k => ((kEebusErrorOk, value <$> assoc_find k l), l, [])
  | LRemove k =>
      match assoc_find k l with
      | Some r => ((kEebusErrorOk, None), assoc_remove k l, deleter_call r)
      | None => ((kEebusErrorInputArgument, None), assoc_remove k l, [])
      end
  end.

Fixpoint assoc_run (ops : list (LutOp K)) (l : list (LutRecord K))
    : list (EebusError * option nat) * list (LutRecord K) * list DeleterCall :=
  match ops with
  | [] => ([], l, [])
  | op :: ops' =>
      let '(a, l', c) := assoc_step op l in
      let '(as', l'', cs) := assoc_run ops' l' in
      (a :: as', l'', cs ++ c)
  end.

Lemma lut_step_spec op p l : (Z.of_nat (length l) < num_elements_max)%Z → pool_list p l →
  ∃ p', lut_step op p = Ret (assoc_step op l).1.1 p' ∧ pool_list p' (assoc_step op l).1.2 ∧
    log p' = (assoc_step op l).2 ++ log p.
Proof.
  intros Hmax Hp. destruct op as [k v del|k|k]; unfold lut_step, mbind, Prog_bind; simpl.
  - destruct (LutInsert_spec k v del p l Hp Hmax) as (p' & -> & Hp'). by exists p'.
  - rewrite (LutFind_spec k p l Hp). by exists p.
  - destruct (LutRemove_spec k p l Hp) as (p' & -> & Hp' & Hlog). exists p'.
    by destruct (assoc_find k l).
Qed.

Lemma assoc_step_grows op l : length (assoc_step op l).1.2 ≤ S (length l).
Proof.
  assert (∀ k, length (assoc_remove k l) ≤ S (length l)) as Hrm.
  { intros k. induction l as [|r l IH]; simpl; [lia|]. case_bool_decide; simpl; lia. }
  destruct op as [k v del|k|k]; simpl; [rewrite length_app; simpl; lia|lia|].
  destruct (assoc_find k l); apply Hrm.
Qed.

Lemma lut_run_spec ops : ∀ p l,
  (Z.of_nat (length l + length ops) < num_elements_max)%Z → pool_list p l →
  ∃ p', lut_run ops p = Some ((assoc_run ops l).1.1, p') ∧ pool_list p' (assoc_run ops l).1.2 ∧
    log p' = (assoc_run ops l).2 ++ log p.
Proof.
  induction ops as [|op ops IH]; intros p l Hmax Hp; cbn [lut_run assoc_run]; [by exists p|].
  simpl in Hmax. destruct (lut_step_spec op p l) as (p1 & -> & Hp1 & Hlog1); [lia|done|].
  pose proof (assoc_step_grows op l) as Hgrow.
  destruct (assoc_step op l) as [[a l1] c]. simpl in *.
  destruct (IH p1 l1) as (p2 & -> & Hp2 & Hlog2); [lia|done|].
  destruct (assoc_run ops l1) as [[as' l2] cs]. simpl in *.
  exists p2. split_and!; [done|done|]. by rewrite Hlog2, Hlog1, app_assoc.
Qed.
End run.

(** A look-up table is an association list with insertion at the end: any
    sequence of calls on a new table returns what the list returns, no record is
    leaked, freed twice or used after its release, and the deleter is called once
    for each removed value and for no other.  An insert never replaces an entry
    of the same key: until that is removed, finds return the older value. *)
Theorem lut_refines_assoc {V} `{VectorInterface V} {K} `{EqDecision K} (ops : list (LutOp K)) :
  (Z.of_nat (length ops) < num_elements_max)%Z →
  ∃ p, lut_run ops (LutConstruct (V := V)) = Some ((assoc_run ops []).1.1, p) ∧
    pool_list p (assoc_run ops []).1.2 ∧ log p = (assoc_run ops []).2.
Proof.
  intros Hmax. destruct (lut_run_spec (V := V) ops LutConstruct []) as (p & Hrun & Hp & Hlog);
    [done|apply pool_empty_list|].
  exists p. split_and!; [done|done|]. by rewrite Hlog, app_nil_r.
Qed.

Lemma lut_refines_assoc_witness :
  ∃ p, lut_run [LInsert 7%Z 1 (Some 9); LInsert 7%Z 2 (Some 9); LFind 7%Z; LRemove 7%Z; LFind 7%Z;
                LRemove 8%Z] (LutConstruct (V := Vector))
       = Some ([(kEebusErrorOk, None); (kEebusErrorOk, None); (kEebusErrorOk, Some 1);
                (kEebusErrorOk, None); (kEebusErrorOk, Some 2); (kEebusErrorInputArgument, None)], p) ∧
    pool_list p [mkRecord 7%Z 2 (Some 9)] ∧ log p = [(9, 1)].
Proof.
  exact (lut_refines_assoc (V := Vector)
    [LInsert 7%Z 1 (Some 9); LInsert 7%Z 2 (Some 9); LFind 7%Z; LRemove 7%Z; LFind 7%Z;
     LRemove 8%Z] eq_refl).
Defined.
