(* ===== verification/Json.v ===== *)
(** * JSON text over cJSON

    The codecs of the repository read and build JSON trees with the library cJSON.
    It is a parameter of this development: the class [CJson] holds the functions the
    source calls, [CJsonLaws] what their documentation says of them.  Also here: the
    [double] of its numbers with the conversions of C, C strings in buffers,
    and the array helpers of [src/common/json_impl_cjson.c]. *)

From Stdlib Require Import QArith_base Ascii Strings.String.
From S2P Require Import Prelude StringUtil.

Local Open Scope string_scope.
Local Open Scope list_scope.
Local Open Scope Z_scope.

(** ** Functions that fill an object and return whether they succeeded

    [Parsed a]: the function returns true and [a] is what it has stored; [Rejected]:
    it returns false; [Undefined]: C gives it no meaning. *)

Inductive parsed (A : Type) :=
| Parsed (a : A)
| Rejected
| Undefined.
Arguments Parsed {A} _.
Arguments Rejected {A}.
Arguments Undefined {A}.

#[export] Instance parsed_ret : MRet parsed := λ A a, Parsed a.
#[export] Instance parsed_bind : MBind parsed := λ A B f m,
  match m with Parsed a => f a | Rejected => Rejected | Undefined => Undefined end.
#[export] Instance parsed_fmap : FMap parsed := λ A B f m,
  match m with Parsed a => Parsed (f a) | Rejected => Rejected | Undefined => Undefined end.

(** A NULL result that makes the caller return false. *)
Definition non_null {A} (o : option A) : parsed A :=
  match o with Some a => Parsed a | None => Rejected end.
Definition require (b : bool) : parsed unit := if b then Parsed tt else Rejected.

(** [a || b] *)
Definition or_else {A} (a b : parsed A) : parsed A :=
  match a with Rejected => b | _ => a end.

Lemma parsed_bind_inv {A B} (m : parsed A) (f : A → parsed B) b :
  m ≫= f = Parsed b → ∃ a, m = Parsed a ∧ f a = Parsed b.
Proof. destruct m; simpl; try discriminate. eauto. Qed.

Lemma parsed_fmap_inv {A B} (f : A → B) (m : parsed A) b :
  f <$> m = Parsed b → ∃ a, m = Parsed a ∧ b = f a.
Proof. destruct m; simpl; try discriminate. intros [= <-]. eauto. Qed.

Lemma non_null_inv {A} (o : option A) a : non_null o = Parsed a → o = Some a.
Proof. destruct o; simpl; congruence. Qed.

Lemma require_inv b u : require b = Parsed u → b = true.
Proof. by destruct b. Qed.

(** ** Numbers

    A [double] is its value in lowest terms, or an infinity or NaN.  Conversion
    to an integer drops the fraction; it is undefined outside the range of the type
    (C11 6.3.1.4). *)

Inductive double :=
| Finite (q : Q)
| NotFinite.

Definition double_of_Z (z : Z) : double := Finite (inject_Z z).

Definition double_to_int (lo hi : Z) (d : double) : parsed Z :=
  match d with
  | Finite q =>
      let z := Z.quot (Qnum q) (Zpos (Qden q)) in
      if bool_decide (lo <= z < hi) then Parsed z else Undefined
  | NotFinite => Undefined
  end.
Definition double_to_u8 : double → parsed Z := double_to_int 0 (2 ^ 8).
Definition double_to_u32 : double → parsed Z := double_to_int 0 (2 ^ 32).
Definition double_to_i32 : double → parsed Z := double_to_int (- 2 ^ 31) (2 ^ 31).

Lemma double_to_int_of_Z lo hi z : lo <= z < hi → double_to_int lo hi (double_of_Z z) = Parsed z.
Proof. intros Hz. simpl. rewrite Z.quot_1_r. by rewrite bool_decide_true. Qed.

Lemma double_to_int_range lo hi d z : double_to_int lo hi d = Parsed z → lo <= z < hi.
Proof. destruct d as [q|]; simpl; [|done]. case_bool_decide; congruence. Qed.

(** ** C strings in buffers *)

Fixpoint no_nul (s : string) : bool :=
  match s with
  | EmptyString => true
  | String c s' => negb (Ascii.eqb c Ascii.zero) && no_nul s'
  end.

(** The C string a buffer starts with; [None] when nothing in it ends the string. *)
Fixpoint c_str (data : list byte) : option string :=
  match data with
  | [] => None
  | b :: data' =>
      if bool_decide (b = x00) then Some EmptyString
      else String (ascii_of_byte b) <$> c_str data'
  end.

(** The characters of a string, and the array that holds it. *)
Definition c_chars (s : string) : list byte := String.list_byte_of_string s.
Definition c_array (s : string) : list byte := c_chars s ++ [x00].

Lemma c_chars_cons c s : c_chars (String c s) = byte_of_ascii c :: c_chars s.
Proof. done. Qed.

Lemma c_chars_length s : length (c_chars s) = String.length s.
Proof. induction s as [|c s IH]; [done|]. rewrite c_chars_cons. simpl. by rewrite IH. Qed.

Lemma c_str_array s l : no_nul s = true → c_str (c_chars s ++ x00 :: l) = Some s.
Proof.
  induction s as [|c s IH]; intros Hs; [done|].
  simpl in Hs. apply andb_true_iff in Hs as [Hc Hs].
  rewrite c_chars_cons. simpl. rewrite ascii_of_byte_of_ascii, IH by done.
  rewrite bool_decide_false; [done|]. intros E.
  rewrite <- (ascii_of_byte_of_ascii c), E in Hc. done.
Qed.

Lemma c_str_c_array s : no_nul s = true → c_str (c_array s) = Some s.
Proof. apply c_str_array. Qed.

Lemma c_str_no_nul data s : c_str data = Some s → no_nul s = true.
Proof.
  revert s. induction data as [|b data IH]; intros s; simpl; [done|].
  case_bool_decide as Hb; [by intros [= <-]|].
  intros (s' & Es & Hs)%fmap_Some. subst s. simpl. rewrite (IH _ Es).
  destruct (Ascii.eqb_spec (ascii_of_byte b) Ascii.zero) as [E|]; [|done].
  destruct Hb. by rewrite <- (byte_of_ascii_of_byte b), E.
Qed.

(** ** The library

    NULL given to a function of cJSON makes it answer NULL, false or 0; where
    the source passes a pointer that may be NULL the definitions bind it. *)

Class CJson := {
  cJSON : Type;
  cJSON_CreateNull : cJSON;
  cJSON_CreateBool : bool → cJSON;
  cJSON_CreateNumber : double → cJSON;
  cJSON_CreateString : string → cJSON;
  cJSON_CreateRaw : string → cJSON;
(** An array, or an object, to which items were added in this order. *)
cJSON_Array : list cJSON → cJSON;
cJSON_Object : list (string * cJSON) → cJSON;
cJSON_GetObjectItem : cJSON → string → option cJSON;
cJSON_IsArray : cJSON → bool;
cJSON_GetArrayItem : cJSON → nat → option cJSON;
cJSON_GetArraySize : cJSON → nat;
cJSON_IsString : cJSON → bool;
cJSON_GetStringValue : cJSON → option string;
cJSON_IsNumber : cJSON → bool;
cJSON_GetNumberValue : cJSON → double;
cJSON_IsBool : cJSON → bool;
cJSON_IsTrue : cJSON → bool;
cJSON_PrintUnformatted : cJSON → option string;
cJSON_Parse : string → option cJSON;
}.

(** [reads d j j']: [j], nested at most [d] deep, is printed as text that is parsed as [j'].
    The two differ in raw text only, which is text that was printed before. *)
Inductive reads `{CJson} : nat → cJSON → cJSON → Prop :=
| reads_null d : reads d cJSON_CreateNull cJSON_CreateNull
| reads_bool d b : reads d (cJSON_CreateBool b) (cJSON_CreateBool b)
| reads_number d z : Z.abs z < 10 ^ 15 →
    reads d (cJSON_CreateNumber (double_of_Z z)) (cJSON_CreateNumber (double_of_Z z))
| reads_string d s : no_nul s = true → reads d (cJSON_CreateString s) (cJSON_CreateString s)
| reads_raw d s j : cJSON_PrintUnformatted j = Some s → reads d j j → reads d (cJSON_CreateRaw s) j
| reads_array d l l' : reads_items d l l' → reads (S d) (cJSON_Array l) (cJSON_Array l')
| reads_object d l l' : reads_members d l l' → reads (S d) (cJSON_Object l) (cJSON_Object l')
with reads_items `{CJson} : nat → list cJSON → list cJSON → Prop :=
| reads_nil d : reads_items d [] []
| reads_cons d j j' l l' : reads d j j' → reads_items d l l' → reads_items d (j :: l) (j' :: l')
with reads_members `{CJson} : nat → list (string * cJSON) → list (string * cJSON) → Prop :=
| reads_no_member d : reads_members d [] []
| reads_member d k j j' l l' :
    no_nul k = true → reads d j j' → reads_members d l l' →
    reads_members d ((k, j) :: l) ((k, j') :: l').

(** [CJSON_NESTING_LIMIT] *)
Definition CJSON_NESTING_LIMIT : nat := 1000.

Class CJsonLaws `{CJson} := {
  GetObjectItem_Object l k :
    cJSON_GetObjectItem (cJSON_Object l) k
    = snd <$> List.find (λ kv, StringEqualsIgnoreCase (Some k) (Some kv.1)) l;
  IsArray_Array l : cJSON_IsArray (cJSON_Array l) = true;
  GetArrayItem_Array l i : cJSON_GetArrayItem (cJSON_Array l) i = l !! i;
  GetArraySize_Array l : cJSON_GetArraySize (cJSON_Array l) = length l;
  GetArraySize_Null : cJSON_GetArraySize cJSON_CreateNull = 0%nat;
  GetArrayItem_below j i : (i < cJSON_GetArraySize j)%nat → is_Some (cJSON_GetArrayItem j i);
  IsString_value j : cJSON_IsString j = true ↔ is_Some (cJSON_GetStringValue j);
  GetStringValue_String s : no_nul s = true → cJSON_GetStringValue (cJSON_CreateString s) = Some s;
  GetStringValue_no_nul j s : cJSON_GetStringValue j = Some s → no_nul s = true;
  IsNumber_Number d : cJSON_IsNumber (cJSON_CreateNumber d) = true;
  GetNumberValue_Number d : cJSON_GetNumberValue (cJSON_CreateNumber d) = d;
  IsBool_Bool b : cJSON_IsBool (cJSON_CreateBool b) = true;
  IsTrue_Bool b : cJSON_IsTrue (cJSON_CreateBool b) = b;
  Print_no_nul j s : cJSON_PrintUnformatted j = Some s → no_nul s = true;
  Print_Object l s : cJSON_PrintUnformatted (cJSON_Object l) = Some s → (2 ≤ String.length s)%nat;
  Parse_Print d j j' :
    (d ≤ CJSON_NESTING_LIMIT)%nat → reads d j j' →
    ∃ s, cJSON_PrintUnformatted j = Some s ∧ cJSON_Parse s = Some j';
}.

#[export] Hint Constructors reads reads_items reads_members : eebus.

(** ** Arrays and members ([json_impl_cjson.c])

    Memory is available, so adding succeeds; what a new object is then filled
    with is the argument. *)

Section json.
Context `{CJson}.

(** [JsonAddObjectToArray(ar)], followed by [cJSON_Add...ToObject(obj, k, v)]. *)
Definition JsonAddObjectToArray (ar : list cJSON) (k : string) (v : cJSON) : list cJSON :=
  ar ++ [cJSON_Object [(k, v)]].

(** [s] may be NULL, which adds nothing. *)
Definition JsonAddStringToArray (ar : list cJSON) (s : option string) : option (list cJSON) :=
  match s with
  | None => None
  | Some s => Some (ar ++ [cJSON_CreateString s])
  end.

(** The member of an object; where the object is not the root, the first object of an array that has
    the member.  [n] items from [j] on; NULL where there is none. *)
Fixpoint find_item (json_obj : cJSON) (name : string) (j n : nat) : option cJSON :=
  match n with
  | O => None
  | S n =>
      match cJSON_GetArrayItem json_obj j ≫= λ json_el, cJSON_GetObjectItem json_el name with
      | Some json_item => Some json_item
      | None => find_item json_obj name (S j) n
      end
  end.

Definition JsonGetItem (json_obj : cJSON) (name : string) (is_root : bool) : option cJSON :=
  if is_root then cJSON_GetObjectItem json_obj name
  else find_item json_obj name 0 (cJSON_GetArraySize json_obj).

(** What [JsonAddItem] makes of members added in this order. *)
Definition json_of (is_root : bool) (members : list (string * cJSON)) : cJSON :=
  if is_root then cJSON_Object members else cJSON_Array ((λ kv, cJSON_Object [kv]) <$> members).

(** The first member with the name, ignoring case. *)
Definition member_of (members : list (string * cJSON)) (name : string) : option cJSON :=
  snd <$> List.find (λ kv, StringEqualsIgnoreCase (Some name) (Some kv.1)) members.

Lemma member_of_cons kv members name :
  member_of (kv :: members) name =
    if StringEqualsIgnoreCase (Some name) (Some kv.1) then Some kv.2 else member_of members name.
Proof. unfold member_of. cbn [List.find]. by destruct (StringEqualsIgnoreCase _ _). Qed.

Lemma find_item_members `{!CJsonLaws} name pre members :
  find_item (cJSON_Array ((λ kv, cJSON_Object [kv]) <$> (pre ++ members))) name (length pre) (length members)
    = member_of members name.
Proof.
  revert pre. induction members as [|kv members IH]; intros pre; [done|]. cbn [length find_item].
  rewrite GetArrayItem_Array, list_lookup_fmap, list_lookup_middle by done. cbn [fmap option_fmap option_map mbind option_bind].
  rewrite GetObjectItem_Object, member_of_cons. cbn [List.find].
  destruct (StringEqualsIgnoreCase _ _); [done|]. cbn [fmap option_fmap option_map].
  specialize (IH (pre ++ [kv])). rewrite <- (assoc_L (++)) in IH. rewrite <- IH.
  f_equal. rewrite length_app. simpl. lia.
Qed.

Lemma JsonGetItem_of `{!CJsonLaws} is_root members name :
  JsonGetItem (json_of is_root members) name is_root = member_of members name.
Proof.
  destruct is_root; [apply GetObjectItem_Object|]. unfold JsonGetItem, json_of.
  rewrite GetArraySize_Array, length_fmap. apply (find_item_members name []).
Qed.

(** Trees without raw text are read back as they are; [d] bounds their depth. *)
Lemma reads_deeper d j j' : reads d j j' → ∀ d', (d ≤ d')%nat → reads d' j j'
with reads_items_deeper d l l' : reads_items d l l' → ∀ d', (d ≤ d')%nat → reads_items d' l l'
with reads_members_deeper d l l' : reads_members d l l' → ∀ d', (d ≤ d')%nat → reads_members d' l l'.
Proof.
  - destruct 1; intros d' Hd; try (constructor; done).
    + econstructor; [done|]. by eapply reads_deeper.
    + destruct d'; [lia|]. constructor. eapply reads_items_deeper; [done|lia].
    + destruct d'; [lia|]. constructor. eapply reads_members_deeper; [done|lia].
  - destruct 1; intros d' Hd; constructor; eauto.
  - destruct 1; intros d' Hd; constructor; eauto.
Qed.

Lemma reads_json_of is_root d members :
  reads_members d members members → reads (S (S d)) (json_of is_root members) (json_of is_root members).
Proof.
  intros Hm. destruct is_root; [constructor; eapply reads_members_deeper; [exact Hm|lia]|].
  constructor. induction members as [|[k j] members IH]; [constructor|].
  inversion Hm; subst. constructor; [|by apply IH]. constructor. by repeat constructor.
Qed.
End json.
