(* ===== verification/JsonText.v ===== *)
(** * A JSON printer and parser

    A concrete [CJson]: compact JSON text with whole numbers.  It shows that the laws of
    [CJsonLaws] can hold together, and the witnesses run on it: their messages are
    the bytes a device sends. *)

From Stdlib Require Import Ascii Strings.String QArith_base DecimalN.
From S2P Require Import Prelude StringUtil Duration Json.

Local Open Scope string_scope.
Local Open Scope list_scope.

Inductive jtree :=
| JNull
| JBool (b : bool)
| JNumber (d : double)
| JString (s : string)
| JRaw (s : string)
| JArray (l : list jtree)
| JObject (l : list (string * jtree)).

(** Characters with a meaning in the text. *)
Definition quote : ascii := "034"%char.
Definition backslash : ascii := "092"%char.

(** ** Printing *)

Fixpoint print_chars (s : string) : list ascii :=
  match s with
  | EmptyString => []
  | String c s' =>
      if Ascii.eqb c quote || Ascii.eqb c backslash then backslash :: c :: print_chars s'
      else c :: print_chars s'
  end.
Definition print_string (s : string) : list ascii := quote :: print_chars s ++ [quote].

Definition print_number (d : double) : option (list ascii) :=
  match d with
  | Finite {| Qnum := z; Qden := 1 |} =>
      Some (if bool_decide (z < 0)%Z
            then "-"%char :: print_uint (N.to_uint (Z.abs_N z))
            else print_uint (N.to_uint (Z.abs_N z)))
  | _ => None
  end.

Definition comma (first : bool) : list ascii := if first then [] else [","%char].

Fixpoint print (j : jtree) : option (list ascii) :=
  match j with
  | JNull => Some (list_ascii_of_string "null")
  | JBool true => Some (list_ascii_of_string "true")
  | JBool false => Some (list_ascii_of_string "false")
  | JNumber d => print_number d
  | JString s => Some (print_string s)
  | JRaw s => Some (list_ascii_of_string s)
  | JArray l =>
      let fix items (first : bool) (l : list jtree) : option (list ascii) :=
        match l with
        | [] => Some ["]"%char]
        | j :: l' => s ← print j; t ← items false l'; Some (comma first ++ s ++ t)
        end in
      t ← items true l; Some ("["%char :: t)
  | JObject l =>
      let fix members (first : bool) (l : list (string * jtree)) : option (list ascii) :=
        match l with
        | [] => Some ["}"%char]
        | (k, j) :: l' =>
            s ← print j; t ← members false l';
            Some (comma first ++ print_string k ++ ":"%char :: s ++ t)
        end in
      t ← members true l; Some ("{"%char :: t)
  end.

(** ** Parsing *)

Fixpoint parse_chars (l : list ascii) : option (string * list ascii) :=
  match l with
  | [] => None
  | c :: l =>
      if Ascii.eqb c quote then Some (EmptyString, l)
      else if Ascii.eqb c backslash then
        match l with
        | [] => None
        | c :: l => '(s, l) ← parse_chars l; Some (String c s, l)
        end
      else '(s, l) ← parse_chars l; Some (String c s, l)
  end.

Definition parse_number (l : list ascii) : option (jtree * list ascii) :=
  let neg := bool_decide (head l = Some "-"%char) in
  match parse_uint (if neg then tail l else l) with
  | (Decimal.Nil, _) => None
  | (u, l) =>
      let z := Z.of_N (N.of_uint u) in
      Some (JNumber (double_of_Z (if neg then - z else z)%Z), l)
  end.

(** [l] after the text [w]. *)
Fixpoint strip (w l : list ascii) : option (list ascii) :=
  match w, l with
  | [], _ => Some l
  | c :: w, d :: l => if Ascii.eqb c d then strip w l else None
  | _, [] => None
  end.
Definition skip_comma (first : bool) (l : list ascii) : option (list ascii) := strip (comma first) l.

(** [fuel]: at least the length of what is parsed. *)
Fixpoint parse_value (fuel : nat) (l : list ascii) : option (jtree * list ascii) :=
  match fuel with
  | O => None
  | S fuel =>
      match l with
      | "["%char :: l => '(js, l) ← parse_items fuel true l; Some (JArray js, l)
      | "{"%char :: l => '(ms, l) ← parse_members fuel true l; Some (JObject ms, l)
      | "034"%char :: l => '(s, l) ← parse_chars l; Some (JString s, l)
      | "n"%char :: _ => l ← strip (list_ascii_of_string "null") l; Some (JNull, l)
      | "t"%char :: _ => l ← strip (list_ascii_of_string "true") l; Some (JBool true, l)
      | "f"%char :: _ => l ← strip (list_ascii_of_string "false") l; Some (JBool false, l)
      | _ => parse_number l
      end
  end
with parse_items (fuel : nat) (first : bool) (l : list ascii) : option (list jtree * list ascii) :=
  match fuel with
  | O => None
  | S fuel =>
      if bool_decide (head l = Some "]"%char) then Some ([], tail l)
      else
        l ← skip_comma first l;
        '(j, l) ← parse_value fuel l;
        '(js, l) ← parse_items fuel false l;
        Some (j :: js, l)
  end
with parse_members (fuel : nat) (first : bool) (l : list ascii)
    : option (list (string * jtree) * list ascii) :=
  match fuel with
  | O => None
  | S fuel =>
      if bool_decide (head l = Some "}"%char) then Some ([], tail l)
      else
        l ← skip_comma first l;
        l ← strip [quote] l;
        '(k, l) ← parse_chars l;
        l ← strip [":"%char] l;
        '(j, l) ← parse_value fuel l;
        '(ms, l) ← parse_members fuel false l;
        Some ((k, j) :: ms, l)
  end.

(** ** The library on these trees *)

#[local] Instance jtree_json : CJson := {|
  cJSON := jtree;
  cJSON_CreateNull := JNull;
  cJSON_CreateBool := JBool;
  cJSON_CreateNumber := JNumber;
  cJSON_CreateString := JString;
  cJSON_CreateRaw := JRaw;
  cJSON_Array := JArray;
  cJSON_Object := JObject;
  cJSON_GetObjectItem j k :=
    match j with
    | JObject l => snd <$> List.find (λ kv, StringEqualsIgnoreCase (Some k) (Some kv.1)) l
    | _ => None
    end;
  cJSON_IsArray j := match j with JArray _ => true | _ => false end;
  cJSON_GetArrayItem j i :=
    match j with JArray l => l !! i | JObject l => snd <$> l !! i | _ => None end;
  cJSON_GetArraySize j :=
    match j with JArray l => length l | JObject l => length l | _ => 0 end;
  cJSON_IsString j := match j with JString s => no_nul s | _ => false end;
  cJSON_GetStringValue j :=
    match j with JString s => if no_nul s then Some s else None | _ => None end;
  cJSON_IsNumber j := match j with JNumber _ => true | _ => false end;
  cJSON_GetNumberValue j := match j with JNumber d => d | _ => NotFinite end;
  cJSON_IsBool j := match j with JBool _ => true | _ => false end;
  cJSON_IsTrue j := match j with JBool b => b | _ => false end;
  cJSON_PrintUnformatted j :=
    t ← print j;
    let s := string_of_list_ascii t in if no_nul s then Some s else None;
  cJSON_Parse s := fst <$> parse_value (S (String.length s)) (list_ascii_of_string s);
|}.

(** ** The text is read back *)

(** What may follow a value. *)
Definition delim (l : list ascii) : Prop :=
  match l with [] => True | c :: _ => c = ","%char ∨ c = "]"%char ∨ c = "}"%char end.

Lemma parse_chars_print s rest : parse_chars (print_chars s ++ quote :: rest) = Some (s, rest).
Proof.
  induction s as [|c s IH]; [done|]. cbn [print_chars].
  destruct (Ascii.eqb_spec c quote) as [->|Hq]; [simpl; by rewrite IH|].
  destruct (Ascii.eqb_spec c backslash) as [->|Hb]; [simpl; by rewrite IH|].
  simpl. destruct (Ascii.eqb_spec c quote); [done|]. destruct (Ascii.eqb_spec c backslash); [done|].
  by rewrite IH.
Qed.

Lemma delim_no_digit l : delim l → no_digit l.
Proof. destruct l as [|c l]; [done|]. by intros [->|[->| ->]]. Qed.

Lemma parse_number_print z t rest :
  print_number (double_of_Z z) = Some t → delim rest →
  parse_number (t ++ rest) = Some (JNumber (double_of_Z z), rest).
Proof.
  simpl. intros [= <-] Hd. unfold parse_number.
  assert (∀ n, ∃ u, N.to_uint n = u ∧ u ≠ Decimal.Nil ∧ N.of_uint u = n) as Hu.
  { intros n. exists (N.to_uint n). split; [done|]. split; [|apply DecimalN.Unsigned.of_to].
    intros E. pose proof (DecimalN.Unsigned.to_of Decimal.Nil) as Hn. change (N.of_uint Decimal.Nil) with 0%N in Hn.
    assert (n = 0%N) as -> by (rewrite <- (DecimalN.Unsigned.of_to n), E; done). done. }
  destruct (Hu (Z.abs_N z)) as (u & -> & Hnil & Hof).
  destruct (decide (z < 0)%Z) as [Hz|Hz].
  - rewrite (bool_decide_true (z < 0)%Z), bool_decide_true by done. cbn [app tail]. rewrite parse_uint_print by by apply delim_no_digit. rewrite Hof, N2Z.inj_abs_N.
    replace (- Z.abs z)%Z with z by lia. by destruct u.
  - rewrite (bool_decide_false (z < 0)%Z), bool_decide_false by (done || by destruct u). rewrite parse_uint_print by by apply delim_no_digit.
    rewrite Hof, N2Z.inj_abs_N.
    replace (Z.abs z)%Z with z by lia. by destruct u.
Qed.

Scheme reads_all := Induction for reads Sort Prop
  with reads_items_all := Induction for reads_items Sort Prop
  with reads_members_all := Induction for reads_members Sort Prop.
Combined Scheme reads_mutual from reads_all, reads_items_all, reads_members_all.

(** The texts of the items, or members, up to the closing bracket. *)
Fixpoint print_items (first : bool) (l : list jtree) : option (list ascii) :=
  match l with
  | [] => Some ["]"%char]
  | j :: l' => s ← print j; t ← print_items false l'; Some (comma first ++ s ++ t)
  end.
Fixpoint print_members (first : bool) (l : list (string * jtree)) : option (list ascii) :=
  match l with
  | [] => Some ["}"%char]
  | (k, j) :: l' =>
      s ← print j; t ← print_members false l';
      Some (comma first ++ print_string k ++ ":"%char :: s ++ t)
  end.

Lemma print_array l : print (JArray l) = t ← print_items true l; Some ("["%char :: t).
Proof. done. Qed.
Lemma print_object l : print (JObject l) = t ← print_members true l; Some ("{"%char :: t).
Proof. done. Qed.

(** Text of a value, with what is needed to parse it in its place. *)
Definition value_text (j j' : jtree) : Prop :=
  ∃ s c s', print j = Some s ∧ s = c :: s' ∧ c ≠ "]"%char ∧ c ≠ "}"%char ∧ c ≠ ","%char ∧
    no_nul (string_of_list_ascii s) = true ∧
    ∀ f rest, (length s ≤ f)%nat → delim rest → parse_value f (s ++ rest) = Some (j', rest).
Definition items_text (l l' : list jtree) : Prop :=
  ∀ first, ∃ t c t', print_items first l = Some t ∧ t = c :: t' ∧ (first = false → delim t) ∧
    no_nul (string_of_list_ascii t) = true ∧
    ∀ f rest, (length t ≤ f)%nat → parse_items f first (t ++ rest) = Some (l', rest).
Definition members_text (l l' : list (string * jtree)) : Prop :=
  ∀ first, ∃ t c t', print_members first l = Some t ∧ t = c :: t' ∧ (first = false → delim t) ∧
    no_nul (string_of_list_ascii t) = true ∧
    ∀ f rest, (length t ≤ f)%nat → parse_members f first (t ++ rest) = Some (l', rest).

Lemma no_nul_app l1 l2 :
  no_nul (string_of_list_ascii (l1 ++ l2))
  = no_nul (string_of_list_ascii l1) && no_nul (string_of_list_ascii l2).
Proof. induction l1 as [|c l1 IH]; [done|]. simpl. by rewrite IH, andb_assoc. Qed.

Lemma no_nul_chars s : no_nul s = true → no_nul (string_of_list_ascii (print_chars s)) = true.
Proof.
  induction s as [|c s IH]; [done|]. cbn [print_chars no_nul]. intros [Hc Hs]%andb_true_iff.
  destruct (_ || _); simpl; by rewrite Hc, IH.
Qed.

Lemma no_nul_uint u : no_nul (string_of_list_ascii (print_uint u)) = true.
Proof. by induction u. Qed.

Lemma print_string_text s : no_nul s = true →
  ∃ t, print_string s = quote :: t ∧ no_nul (string_of_list_ascii (quote :: t)) = true ∧
    ∀ rest, parse_chars (t ++ rest) = Some (s, rest).
Proof.
  intros Hs. unfold print_string. eexists. split; [done|]. split.
  - simpl. rewrite no_nul_app, no_nul_chars by done. done.
  - intros rest. rewrite <- (assoc_L (++)). apply parse_chars_print.
Qed.

(** *** Values *)

Lemma print_uint_first u l : u ≠ Decimal.Nil →
  ∃ c l', print_uint u ++ l = c :: l' ∧ c ∈ list_ascii_of_string "0123456789".
Proof. intros Hu. destruct u; [done|..]; do 2 eexists; (split; [reflexivity|]); set_solver. Qed.

(** A number begins with a sign or a digit. *)
Lemma print_number_first z s : print_number (double_of_Z z) = Some s →
  ∃ c s', s = c :: s' ∧ c ∈ list_ascii_of_string "-0123456789" ∧ no_nul (string_of_list_ascii s) = true.
Proof.
  simpl. intros [= <-]. case_bool_decide.
  - do 2 eexists. split; [done|]. split; [set_solver|]. simpl. apply no_nul_uint.
  - pose proof (no_nul_uint (N.to_uint (Z.abs_N z))) as Hn. pose proof (to_uint_nonnil (Z.abs_N z)) as Hne.
    destruct (print_uint_first (N.to_uint (Z.abs_N z)) []) as (c & l' & E & Hc); [done|].
    rewrite app_nil_r in E. exists c, l'. rewrite E in *. split_and!; [done| |done]. set_solver.
Qed.

Lemma number_text z : value_text (JNumber (double_of_Z z)) (JNumber (double_of_Z z)).
Proof.
  destruct (print_number (double_of_Z z)) as [s|] eqn:E; [|by simpl in E; case_bool_decide].
  destruct (print_number_first z s E) as (c & s' & -> & Hc & Hn).
  exists (c :: s'), c, s'. change (print (JNumber (double_of_Z z))) with (print_number (double_of_Z z)).
  assert (c ≠ "]"%char ∧ c ≠ "}"%char ∧ c ≠ ","%char ∧ ∀ f l,
    parse_value (S f) (c :: l) = parse_number (c :: l)) as (?&?&?&Hp).
  { simpl list_ascii_of_string in Hc. rewrite !elem_of_cons, elem_of_nil in Hc.
    by repeat (destruct Hc as [->|Hc]; [done|]). }
  split_and!; try done. intros f rest Hf Hd. destruct f as [|f]; [simpl in Hf; lia|].
  simpl app. rewrite Hp. by apply (parse_number_print z (c :: s')).
Qed.

Lemma string_text s : no_nul s = true → value_text (JString s) (JString s).
Proof.
  intros Hs. destruct (print_string_text s Hs) as (t & E & Hn & Hp).
  exists (quote :: t), quote, t. split_and!; try done; [simpl; by rewrite E|]. intros [|f] rest Hf _; [simpl in Hf; lia|].
  change (match parse_chars (t ++ rest) with Some p => let '(s, l) := p in Some (JString s, l) | None => None end
          = Some (JString s, rest)).
  by rewrite Hp.
Qed.

Lemma word_text j w : j = JNull ∧ w = "null" ∨ j = JBool true ∧ w = "true" ∨ j = JBool false ∧ w = "false" →
  value_text j j.
Proof.
  intros Hw. exists (list_ascii_of_string w).
  destruct Hw as [[-> ->]|[[-> ->]|[-> ->]]]; do 2 eexists; split_and!; try reflexivity; try done;
    (intros [|f] rest Hf _; [simpl in Hf; lia|done]).
Qed.

(** *** Sequences *)

Lemma delim_app l rest : l ≠ [] → delim l → delim (l ++ rest).
Proof. by destruct l. Qed.

Lemma items_nil : items_text [] [].
Proof.
  intros first. do 3 eexists. split_and!; try reflexivity.
  - simpl. auto.
  - intros [|f] rest Hf; [simpl in Hf; lia|done].
Qed.

Lemma parse_items_cons f first c l :
  c ≠ "]"%char →
  parse_items (S f) first (c :: l)
  = l ← skip_comma first (c :: l);
    '(j, l) ← parse_value f l; '(js, l) ← parse_items f false l; Some (j :: js, l).
Proof. intros Hc. cbn [parse_items]. by rewrite bool_decide_false by (simpl; congruence). Qed.

Lemma items_cons j j' l l' : value_text j j' → items_text l l' → items_text (j :: l) (j' :: l').
Proof.
  intros (s & c & s' & Ep & -> & Hc1 & Hc2 & Hc3 & Hn & Hp) Hl first.
  destruct (Hl false) as (t & c' & t' & Et & -> & Hd & Hnt & Hpt). specialize (Hd eq_refl).
  assert (∀ f rest, (length ((c :: s') ++ c' :: t') ≤ S f)%nat →
    ('(j, l) ← parse_value f (((c :: s') ++ c' :: t') ++ rest);
     '(js, l) ← parse_items f false l; Some (j :: js, l)) = Some (j' :: l', rest)) as Hgo.
  { intros f rest Hf. rewrite length_app in Hf. rewrite <- (assoc_L (++)).
    rewrite Hp; [simpl|simpl in *; lia|by apply (delim_app (c' :: t'))].
    change (c' :: t' ++ rest) with ((c' :: t') ++ rest). by rewrite Hpt by (simpl in *; lia). }
  exists (comma first ++ (c :: s') ++ c' :: t').
  assert (no_nul (string_of_list_ascii ((c :: s') ++ c' :: t')) = true) as Hnul
    by (by rewrite no_nul_app, Hn, Hnt).
  destruct first; do 2 eexists.
  - split_and!; [cbn [print_items]; by rewrite Ep, Et|reflexivity|done|done|].
    intros [|f] rest Hf; [simpl in Hf; lia|]. cbn [comma app]. rewrite parse_items_cons by done.
    apply Hgo. simpl in *. lia.
  - split_and!; [cbn [print_items]; by rewrite Ep, Et|reflexivity|by left|done|].
    intros [|f] rest Hf; [simpl in Hf; lia|]. cbn [comma app]. rewrite parse_items_cons by done.
    apply (Hgo f). simpl in *. lia.
Qed.

Lemma members_nil : members_text [] [].
Proof.
  intros first. do 3 eexists. split_and!; try reflexivity.
  - simpl. auto.
  - intros [|f] rest Hf; [simpl in Hf; lia|done].
Qed.

Lemma parse_members_cons f first c l :
  c ≠ "}"%char →
  parse_members (S f) first (c :: l)
  = l ← skip_comma first (c :: l);
    l ← strip [quote] l; '(k, l) ← parse_chars l; l ← strip [":"%char] l;
    '(j, l) ← parse_value f l; '(ms, l) ← parse_members f false l; Some ((k, j) :: ms, l).
Proof. intros Hc. cbn [parse_members]. by rewrite bool_decide_false by (simpl; congruence). Qed.

Lemma members_cons k j j' l l' :
  no_nul k = true → value_text j j' → members_text l l' → members_text ((k, j) :: l) ((k, j') :: l').
Proof.
  intros Hk (s & c & s' & Ep & -> & Hc1 & Hc2 & Hc3 & Hn & Hp) Hl first.
  destruct (Hl false) as (t & c' & t' & Et & -> & Hd & Hnt & Hpt). specialize (Hd eq_refl).
  destruct (print_string_text k Hk) as (q & Eq & Hnq & Hq).
  set (text := (quote :: q) ++ ":"%char :: (c :: s') ++ c' :: t').
  assert (∀ f rest, (length text ≤ S f)%nat →
    (l ← strip [quote] (text ++ rest); '(k, l) ← parse_chars l; l ← strip [":"%char] l;
     '(j, l) ← parse_value f l; '(ms, l) ← parse_members f false l; Some ((k, j) :: ms, l))
    = Some ((k, j') :: l', rest)) as Hgo.
  { intros f rest Hf. unfold text in *. rewrite length_app in Hf. simpl in Hf. rewrite length_app in Hf.
    simpl.
    rewrite <- (assoc_L (++)). rewrite Hq. simpl. rewrite <- (assoc_L (++)).
    change (c :: s' ++ (c' :: t') ++ rest) with ((c :: s') ++ (c' :: t') ++ rest).
    rewrite Hp; [simpl|simpl in *; lia|by apply (delim_app (c' :: t'))].
    change (c' :: t' ++ rest) with ((c' :: t') ++ rest). by rewrite Hpt by (simpl in *; lia). }
  exists (comma first ++ text).
  assert (no_nul (string_of_list_ascii text) = true) as Hnul.
  { unfold text. rewrite no_nul_app, Hnq. change (no_nul (string_of_list_ascii ((c :: s') ++ c' :: t')) = true).
    by rewrite no_nul_app, Hn, Hnt. }
  assert (print_members first ((k, j) :: l) = Some (comma first ++ text)) as Epm
    by (cbn [print_members]; by rewrite Eq, Ep, Et).
  destruct first; do 2 eexists.
  - split_and!; [exact Epm|reflexivity|done|done|].
    intros [|f] rest Hf; [simpl in Hf; lia|]. cbn [comma app]. unfold text. cbn [app].
    rewrite parse_members_cons by done. apply Hgo. simpl in *. lia.
  - split_and!; [exact Epm|reflexivity|by left|done|].
    intros [|f] rest Hf; [simpl in Hf; lia|]. cbn [comma app]. rewrite parse_members_cons by done.
    apply (Hgo f). simpl in *. lia.
Qed.

(** *** All values *)

Lemma reads_text :
  (∀ d j j', reads d j j' → value_text j j') ∧
  (∀ d l l', reads_items d l l' → items_text l l') ∧
  (∀ d l l', reads_members d l l' → members_text l l').
Proof.
  apply (reads_mutual jtree_json (λ d j j' _, value_text j j') (λ d l l' _, items_text l l')
           (λ d l l' _, members_text l l')); simpl; intros.
  - apply (word_text JNull "null"). auto.
  - destruct b; [apply (word_text _ "true")|apply (word_text _ "false")]; auto.
  - apply number_text.
  - by apply string_text.
  - destruct H as (t & c & t' & Et & H). rewrite Et in *. simpl in e.
    destruct (no_nul (string_of_list_ascii t)) eqn:Hn; [injection e as <-|discriminate].
    exists t, c, t'. split; [|by rewrite Hn]. cbn [print]. by rewrite list_ascii_of_string_of_list_ascii.
  - destruct (H true) as (t & c & t' & Et & -> & _ & Hn & Hp).
    exists ("["%char :: c :: t'), "["%char, (c :: t'). split_and!; try done.
    + by rewrite print_array, Et.
    + intros [|f] rest Hf _; [simpl in Hf; lia|]. simpl in Hf.
      change (('(js, l) ← parse_items f true ((c :: t') ++ rest); Some (JArray js, l)) = Some (JArray l', rest)).
      by rewrite Hp by (simpl; lia).
  - destruct (H true) as (t & c & t' & Et & -> & _ & Hn & Hp).
    exists ("{"%char :: c :: t'), "{"%char, (c :: t'). split_and!; try done.
    + by rewrite print_object, Et.
    + intros [|f] rest Hf _; [simpl in Hf; lia|]. simpl in Hf.
      change (('(ms, l) ← parse_members f true ((c :: t') ++ rest); Some (JObject ms, l)) = Some (JObject l', rest)).
      by rewrite Hp by (simpl; lia).
  - apply items_nil.
  - by apply items_cons.
  - apply members_nil.
  - by apply members_cons.
Qed.

#[local] Instance jtree_laws : CJsonLaws.
Proof.
  constructor; try done.
  - intros j i Hi. destruct j; simpl in *; try lia; [by apply lookup_lt_is_Some_2|].
    destruct (lookup_lt_is_Some_2 _ _ Hi) as [x ->]. by eexists.
  - intros j. destruct j; simpl; try (by split; [|intros []]). destruct (no_nul s); by split; [|intros []].
  - intros s Hs. simpl. by rewrite Hs.
  - intros j r E; destruct j; simpl in E; try done. case_match; by simplify_eq.
  - intros j s E. simpl in E. apply bind_Some in E as (t & _ & E). case_match; by simplify_eq.
  - intros l s E. simpl in E. apply bind_Some in E as (t & Et & E). case_match; simplify_eq.
    change (print (JObject l) = Some t) in Et. rewrite print_object in Et.
    apply bind_Some in Et as (t' & Et & [= <-]). simpl.
    destruct l as [|[k j] l]; [by simplify_eq/=|]. cbn [print_members] in Et.
    apply bind_Some in Et as (? & _ & Et). apply bind_Some in Et as (? & _ & [= <-]). simpl. lia.
  - intros d j j' _ Hr. destruct (proj1 reads_text d j j' Hr) as (t & c & t' & Et & _ & _ & _ & _ & Hn & Hp).
    exists (string_of_list_ascii t). split; [simpl; rewrite Et; simpl; by rewrite Hn|].
    change (fst <$> parse_value (S (String.length (string_of_list_ascii t)))
              (list_ascii_of_string (string_of_list_ascii t)) = Some j').
    rewrite list_ascii_of_string_of_list_ascii.
    specialize (Hp (S (String.length (string_of_list_ascii t))) []). rewrite app_nil_r in Hp.
    rewrite Hp; [done| |exact I]. clear -t. induction t; simpl; lia.
Qed.
