(* ===== verification/EebusDataJson.v ===== *)
(** * EEBUS data as JSON ([src/common/eebus_data/])

    Each interface makes JSON of data and data of JSON.  A sequence is an array of objects with
    one member each; the root of a message is an object.  The JSON library is the class [CJson]; members under
    construction are a list of names and values, in the order they are added.

    The methods return their error code; [None] is what C leaves undefined: a number out of the range of its
    type, or data that is not of its configuration.  Memory is there. *)

From Stdlib Require Import Ascii Strings.String.
From S2P Require Import Prelude StringUtil Duration DateTime EebusData EebusDataWrite Json.

Local Open Scope list_scope.
Local Open Scope Z_scope.

(** ** Numbers ([eebus_data_numeric.c])

    A block holds the bits of a number. *)

Definition number_value (signed : bool) (bits z : Z) : Z :=
  if signed && (2 ^ (bits - 1) <=? z) then z - 2 ^ bits else z.

Definition number_lo (signed : bool) (bits : Z) : Z := if signed then - 2 ^ (bits - 1) else 0.
Definition number_hi (signed : bool) (bits : Z) : Z := if signed then 2 ^ (bits - 1) else 2 ^ bits.

(** The conversion of an integer to [double]: 53 bits are kept, rounded to the nearest, ties to even. *)
Definition round_double (z : Z) : Z :=
  let n := Z.log2 (Z.abs z) in
  if n <? 53 then z
  else
    let u := 2 ^ (n - 52) in
    let q := Z.abs z / u in
    let r := Z.abs z mod u in
    let q := if 2 * r <? u then q else if u <? 2 * r then q + 1 else if Z.even q then q else q + 1 in
    Z.sgn z * (q * u).

(** [JSON_NUM_CONV_DECL] *)
Definition JsonToNum (signed : bool) (bits : Z) (d : double) : parsed Z :=
  (λ z, z mod 2 ^ bits) <$> double_to_int (number_lo signed bits) (number_hi signed bits) d.
Definition NumToJson (signed : bool) (bits z : Z) : double :=
  double_of_Z (round_double (number_value signed bits z)).

(** ** Times ([eebus_data_date_time.c]) *)

Definition zero_date_time : EebusDateTime := mkDateTime (mkDate 0 0 0) (mkTime 0 0 0).

(** The buffer is zeroed; where a time is refused it is deleted again. *)
Definition ParseAbsoluteOrRelativeTime (s : list ascii) : option (EebusError * AbsoluteOrRelativeTimeType) :=
  '(err, d) ← EebusDurationParse s;
  if is_ok err then Some (kEebusErrorOk, kAbsoluteOrRelativeTimeTypeDuration d)
  else
    let '(err, dt) := EebusDateTimeParse s zero_date_time in
    Some (if is_ok err then (kEebusErrorOk, kAbsoluteOrRelativeTimeTypeDateTime dt)
          else (kEebusErrorParse, kAbsoluteOrRelativeTimeTypeDateTime dt)).

(** [DATE_TIME_PARSE] *)
Definition time_parse (k : TimeKind) (s : list ascii) : option (EebusError * Block) :=
  match k with
  | TDuration => '(err, d) ← EebusDurationParse s; Some (err, BDuration d)
  | TDate => let '(err, d) := EebusDateParse s in Some (err, BDate d)
  | TTime => let '(err, t) := EebusTimeParse s in Some (err, BTime t)
  | TDateTime => let '(err, dt) := EebusDateTimeParse s zero_date_time in Some (err, BDateTime dt)
  | TAbsoluteOrRelative => '(err, t) ← ParseAbsoluteOrRelativeTime s; Some (err, BAbsoluteOrRelative t)
  end.

(** [DATE_TIME_TO_STRING]; NULL is [None] inside. *)
Definition time_to_string (b : Block) : option (option (list ascii)) :=
  match b with
  | BDuration d | BAbsoluteOrRelative (kAbsoluteOrRelativeTimeTypeDuration d) => EebusDurationToString d
  | BDate d => Some (EebusDateToString d)
  | BTime t => Some (EebusTimeToString t)
  | BDateTime dt | BAbsoluteOrRelative (kAbsoluteOrRelativeTimeTypeDateTime dt) => Some (EebusDateTimeToString dt)
  | _ => None
  end.

Section json.
Context `{Allocator} `{CJson}.

(** ** Data to JSON

    [JR]: the error and the item, which may be NULL; [JL]: the error and the members added. *)

Abbreviation JR := (option (EebusError * option cJSON)).
Abbreviation JL := (option (EebusError * list (string * cJSON))).

(** [ToJsonObjectItem] of the interfaces of one block. *)
Definition bool_to_json (z : Z) : JR := Some (kEebusErrorOk, Some (cJSON_CreateBool (negb (z =? 0)))).

Definition numeric_to_json (signed : bool) (bits z : Z) : JR :=
  Some (kEebusErrorOk, Some (cJSON_CreateNumber (NumToJson signed bits z))).

Definition enum_to_json (lut : list (string * Z)) (z : Z) : JR :=
  Some (match list_find (λ e, snd e = z) lut with
        | Some (_, (name, _)) => (kEebusErrorOk, Some (cJSON_CreateString name))
        | None => (kEebusErrorInputArgumentOutOfRange, None)
        end).

Definition string_to_json (s : string) : JR := Some (kEebusErrorOk, Some (cJSON_CreateString s)).

Definition time_to_json (b : Block) : JR :=
  s ← time_to_string b;
  Some (match s with
        | Some s => (kEebusErrorOk, Some (cJSON_CreateString (string_of_list_ascii s)))
        | None => (kEebusErrorMemoryAllocate, None)
        end).

Definition block_to_json (k : SimpleKind) (b : Block) : JR :=
  match k, b with
  | KBool, BInt z => bool_to_json z
  | KNumeric signed bits, BInt z => numeric_to_json signed bits z
  | KEnum lut, BInt z => enum_to_json lut z
  | KString, BString s => string_to_json s
  | KTime _, _ => time_to_json b
  | _, _ => None
  end.

Section to_json_object.
(** [EEBUS_DATA_TO_JSON_OBJECT_ITEM] *)
Context (to_json_item : EebusDataCfg → Data → JR).

(** [ToJsonObject]: at most one member. *)
Fixpoint to_json_object (cfg : EebusDataCfg) (d : Data) : JL :=
  match cfg with
  | Stub _ => Some (kEebusErrorOk, [])
  | Choice cs =>
      match d with
      | Chosen i x =>
          if null x then Some (kEebusErrorOk, [])
          else if bool_decide (length cs <= i)%nat then Some (kEebusErrorInputArgumentOutOfRange, [])
          else default None (pick (λ c, to_json_object c x) cs i)
      | _ => None
      end
  | _ =>
      '(err, json_item) ← to_json_item cfg d;
      Some (err, if is_ok err then match json_item with Some j => [(cfg_name cfg, j)] | None => [] end else [])
  end.

(** The loop of a sequence over its fields. *)
Fixpoint fields_to_json (cs : list EebusDataCfg) (l : list Data) : JL :=
  match cs, l with
  | [], [] => Some (kEebusErrorOk, [])
  | c :: cs, d :: l =>
      '(err, ms) ← to_json_object c d;
      if is_ok err then '(err, ms') ← fields_to_json cs l; Some (err, ms ++ ms') else Some (err, ms)
  | _, _ => None
  end.
End to_json_object.

(** The loop of a list over its items; NULL cannot be added to an array. *)
Section items_to_json.
Context (to_json_item : Data → JR).
Fixpoint items_to_json (l : list Data) : option (EebusError * list cJSON) :=
  match l with
  | [] => Some (kEebusErrorOk, [])
  | d :: l =>
      '(err, json_el) ← to_json_item d;
      if negb (is_ok err) then Some (err, [])
      else
        match json_el with
        | None => Some (kEebusErrorMemoryAllocate, [])
        | Some j => '(err, js) ← items_to_json l; Some (err, j :: js)
        end
  end.
End items_to_json.

Definition tag_to_json (d : Data) : JR :=
  match d with
  | Null => Some (kEebusErrorOk, None)
  | TagSet => Some (kEebusErrorOk, Some (cJSON_Array []))
  | _ => None
  end.

(** [ToJsonObjectItem]; that of a choice is an assertion. *)
Fixpoint to_json_item (cfg : EebusDataCfg) (d : Data) : JR :=
  match cfg with
  | Stub _ => Some (kEebusErrorOk, None)
  | Choice _ => Some (kEebusErrorOther, None)
  | Simple _ _ k =>
      match d with Null => Some (kEebusErrorOk, None) | Leaf b => block_to_json k b | _ => None end
  | Tag _ => tag_to_json d
  | Sequence _ _ cs | Container _ _ cs =>
      match d with
      | Null => Some (kEebusErrorOk, None)
      | Struct l =>
          '(err, ms) ← fields_to_json to_json_item cs l;
          Some (err, if is_ok err then Some (json_of false ms) else None)
      | _ => None
      end
  | List_ _ c | ListSimple _ c =>
      match d with
      | Null => Some (kEebusErrorOk, None)
      | Array l =>
          '(err, js) ← items_to_json (to_json_item c) l;
          Some (err, if is_ok err then Some (cJSON_Array js) else None)
      | _ => None
      end
  end.

(** [EebusDataBasePrintUnformatted]; NULL is [None] inside. *)
Definition EebusDataPrintUnformatted (cfg : EebusDataCfg) (d : Data) : option (option string) :=
  '(err, ms) ← to_json_object to_json_item cfg d;
  Some (if is_ok err then cJSON_PrintUnformatted (json_of true ms) else None).

(** ** JSON to data *)

(** [strcmp] over the table of an enumeration. *)
Definition enum_value (lut : list (string * Z)) (s : string) : option Z :=
  (λ e, snd (snd e)) <$> list_find (λ e, fst e = s) lut.

(** [FromJsonObjectItem] of the interfaces of one block; an unknown name of an enumeration is NULL. *)
Definition bool_from_json (base : Data) (j : cJSON) : R :=
  Some (if cJSON_IsBool j then (kEebusErrorOk, Leaf (BInt (if cJSON_IsTrue j then 1 else 0))) else (kEebusErrorParse, base)).

Definition numeric_from_json (signed : bool) (bits : Z) (base : Data) (j : cJSON) : R :=
  if negb (cJSON_IsNumber j) then Some (kEebusErrorParse, base)
  else
    match JsonToNum signed bits (cJSON_GetNumberValue j) with
    | Parsed z => Some (kEebusErrorOk, Leaf (BInt z))
    | _ => None
    end.

Definition enum_from_json (lut : list (string * Z)) (base : Data) (j : cJSON) : R :=
  if negb (cJSON_IsString j) then Some (kEebusErrorParse, base)
  else
    s ← cJSON_GetStringValue j;
    Some (kEebusErrorOk, match enum_value lut s with Some z => Leaf (BInt z) | None => Null end).

Definition string_from_json (base : Data) (j : cJSON) : R :=
  if negb (cJSON_IsString j) then Some (kEebusErrorParse, base)
  else s ← cJSON_GetStringValue j; Some (kEebusErrorOk, Leaf (BString s)).

Definition time_from_json (k : TimeKind) (base : Data) (j : cJSON) : R :=
  if negb (cJSON_IsString j) then Some (kEebusErrorParse, base)
  else
    s ← cJSON_GetStringValue j; '(err, b) ← time_parse k (list_ascii_of_string s);
    Some (if is_ok err then (kEebusErrorOk, Leaf b) else (kEebusErrorParse, Null)).

Definition block_from_json (k : SimpleKind) : Data → cJSON → R :=
  match k with
  | KBool => bool_from_json
  | KNumeric signed bits => numeric_from_json signed bits
  | KEnum lut => enum_from_json lut
  | KString => string_from_json
  | KTime k => time_from_json k
  end.

Section from_json_object.
(** [EEBUS_DATA_FROM_JSON_OBJECT_ITEM] *)
Context (from_json_item : EebusDataCfg → Data → cJSON → R) (json_obj : cJSON) (is_root : bool).

(** The first alternative, from the [i]-th on, that the object has a member for. *)
Fixpoint choice_from_json (cs : list EebusDataCfg) (i : nat) (base x : Data) : R :=
  match cs with
  | [] => Some (kEebusErrorOk, base)
  | c :: cs =>
      match JsonGetItem json_obj (cfg_name c) is_root with
      | Some json_item => '(err, x) ← from_json_item c x json_item; Some (err, Chosen i x)
      | None => choice_from_json cs (S i) base x
      end
  end.

Definition from_json_object (cfg : EebusDataCfg) (base : Data) : R :=
  match cfg with
  | Stub _ => Some (kEebusErrorOk, base)
  | Choice cs => match base with Chosen _ x => choice_from_json cs 0 base x | _ => None end
  | _ =>
      match JsonGetItem json_obj (cfg_name cfg) is_root with
      | None => Some (kEebusErrorOk, base)
      | Some json_item => from_json_item cfg base json_item
      end
  end.

(** The loop of a sequence over its fields, which are new. *)
Fixpoint fields_from_json (cs : list EebusDataCfg) : RL :=
  match cs with
  | [] => Some (kEebusErrorOk, [])
  | c :: cs => next (from_json_object c (zeroed c)) (create_empty cs) (λ _, fields_from_json cs)
  end.
End from_json_object.

(** The loop of a list over its items, which are NULL before. *)
Section items_from_json.
Context (from_json_item : Data → cJSON → R).
Fixpoint items_from_json (j : cJSON) (i n : nat) : RL :=
  match n with
  | O => Some (kEebusErrorOk, [])
  | S n =>
      json_el ← cJSON_GetArrayItem j i;
      next (from_json_item Null json_el) (replicate n Null) (λ _, items_from_json j (S i) n)
  end.
End items_from_json.

Definition tag_from_json (base : Data) (j : cJSON) : R :=
  Some (if cJSON_IsArray j && (cJSON_GetArraySize j =? 0)%nat then (kEebusErrorOk, TagSet) else (kEebusErrorParse, base)).

Fixpoint from_json_item (cfg : EebusDataCfg) (base : Data) (j : cJSON) : R :=
  match cfg with
  | Stub _ => Some (kEebusErrorOk, base)
  | Choice _ => Some (kEebusErrorOther, base)
  | Simple _ _ k => block_from_json k base j
  | Tag _ => tag_from_json base j
  | Sequence _ _ cs | Container _ _ cs =>
      if cJSON_IsArray j then into Struct (fields_from_json from_json_item j false cs) else Some (kEebusErrorParse, base)
  | List_ _ c | ListSimple _ c =>
      if negb (cJSON_IsArray j) then Some (kEebusErrorParse, base)
      else if (cJSON_GetArraySize j =? 0)%nat then Some (kEebusErrorOk, base)
      else if CreateListBuffer (cJSON_GetArraySize j)
           then into Array (items_from_json (from_json_item c) j 0 (cJSON_GetArraySize j))
           else Some (kEebusErrorMemoryAllocate, Null)
  end.

(** [EebusDataBaseParse]; NULL is [None] inside. *)
Definition EebusDataParse (cfg : EebusDataCfg) (s : string) : option (option Data) :=
  match cJSON_Parse s with
  | None => Some None
  | Some json_root =>
      '(err, d) ← from_json_object from_json_item json_root true cfg Null;
      Some (if is_ok err then Some d else None)
  end.
End json.
