(* ===== verification/EebusDataWire.v ===== *)
(** * EEBUS data is read back as it was sent

    Data that can be printed ([printable]) is printed as JSON text, and the reader makes the same of the text, up to
    what JSON does not tell ([wire]): an empty array and NULL, and the alternative of a choice that is NULL.
    Whatever text it is given, the reader makes only data of its configuration; it is undefined only where a value
    of the text cannot be converted ([cannot_convert]). *)

From Stdlib Require Import Ascii Strings.String.
From S2P Require Import Prelude StringUtil Duration DateTime EebusData EebusDataWrite EebusDataFacts Json EebusDataJson.

Local Open Scope list_scope.
Local Open Scope Z_scope.

(** ** Texts of times *)

(** No character ends the string. *)
Definition clean (l : list ascii) : bool := forallb (λ c, negb (Ascii.eqb c Ascii.zero)) l.

Lemma clean_app l k : clean (l ++ k) = clean l && clean k.
Proof. apply forallb_app. Qed.

Lemma clean_cons c l : clean (c :: l) = negb (Ascii.eqb c Ascii.zero) && clean l.
Proof. done. Qed.

Lemma clean_digits l : Forall (λ c, isdigit c = true) l → clean l = true.
Proof.
  induction 1 as [|c l Hc _ IH]; [done|]. simpl. rewrite IH, andb_true_r.
  destruct (Ascii.eqb_spec c Ascii.zero) as [->|]; done.
Qed.

Lemma clean_print_pad w z : clean (print_pad w z) = true.
Proof.
  unfold print_pad. rewrite clean_app. apply andb_true_iff. split; apply clean_digits.
  - induction (w - _)%nat; simpl; by constructor.
  - apply print_uint_digits.
Qed.

Lemma clean_no_nul l : clean l = true → no_nul (string_of_list_ascii l) = true.
Proof. induction l; simpl; [done|]. intros [-> ?]%andb_true_iff. auto. Qed.

Lemma clean_piece p w s x : clean p = true → clean s = true → clean (piece p w s x) = true.
Proof. intros Hp Hs. unfold piece. destruct (x =? 0); [done|]. by rewrite !clean_app, Hp, Hs, clean_print_pad. Qed.

Lemma clean_duration d : clean (duration_text d) = true.
Proof.
  unfold duration_text. destruct (EebusDurationIsZero d); [done|]. rewrite clean_app, clean_cons, clean_app.
  assert (clean (date_text d) = true) as -> by (unfold date_text; by rewrite !clean_app, !clean_piece).
  assert (clean (time_text d) = true) as ->.
  { unfold time_text. destruct (has_time d); [|done]. rewrite clean_cons, !clean_app, !clean_piece by done.
    unfold seconds_text. case_bool_decide; rewrite ?clean_app, ?clean_piece; done. }
  by destruct (EebusDurationIsNegative d).
Qed.

Lemma clean_date d : clean (date_format d) = true.
Proof. unfold date_format. by rewrite !clean_app, !clean_cons, !clean_app, !clean_cons, !clean_print_pad. Qed.

Lemma clean_time t : clean (time_format t) = true.
Proof. unfold time_format. by rewrite !clean_app, !clean_cons, !clean_app, !clean_cons, !clean_app, !clean_print_pad. Qed.

(** A text that starts with a digit is no duration. *)
Lemma duration_of_digit c l : isdigit c = true → EebusDurationParse (c :: l) = Some (kEebusErrorParse, zero_duration).
Proof. intros Hc. destruct c as [[] [] [] [] [] [] [] []]; try discriminate Hc; reflexivity. Qed.

(** *** The times that are read back *)

Definition duration_printable (d : EebusDuration) : bool :=
  forallb (λ x, (- 2 ^ 31 <? x) && (x <? 2 ^ 31)) (fields d) && EebusDurationIsValid d &&
  (Z.abs (milliseconds d) <? 1000) && ((milliseconds d =? 0) || negb (seconds d =? 0)).

Definition time_printable (b : Block) : bool :=
  match b with
  | BDuration d | BAbsoluteOrRelative (kAbsoluteOrRelativeTimeTypeDuration d) => duration_printable d
  | BDate d => EebusDateIsValid d
  | BTime t => EebusTimeIsValid t
  | BDateTime dt | BAbsoluteOrRelative (kAbsoluteOrRelativeTimeTypeDateTime dt) => EebusDateTimeIsValid dt
  | _ => false
  end.

Lemma duration_printed d : duration_printable d = true →
  ∃ t, EebusDurationToString d = Some (Some t) ∧ clean t = true ∧ EebusDurationParse t = Some (kEebusErrorOk, d).
Proof.
  unfold duration_printable. rewrite !andb_true_iff. intros [[[Hs Hv] Hms] Hsec].
  assert (fields_small d) as Hsmall.
  { apply Forall_forall. intros x Hx. rewrite forallb_forall in Hs. apply list_elem_of_In in Hx. specialize (Hs x Hx).
    unfold small. lia. }
  exists (duration_text d). rewrite clean_duration.
  destruct (duration_round_trip d Hsmall Hv) as (t & Ht & Hp); [split; [lia|]; rewrite orb_true_iff, negb_true_iff in Hsec; lia|].
  rewrite EebusDurationToString_text in Ht |- * by done. by injection Ht as <-.
Qed.

Lemma date_time_printed dt : EebusDateTimeIsValid dt = true →
  ∃ c t, EebusDateTimeToString dt = Some (c :: t) ∧ isdigit c = true ∧ clean (c :: t) = true ∧
    ∀ old, EebusDateTimeParse (c :: t) old = (kEebusErrorOk, dt).
Proof.
  intros Hv. pose proof Hv as [Hd Ht]%andb_true_iff.
  destruct (date_time_round_trip dt zero_date_time Hv) as (t & Et & _ & _).
  pose proof Et as Et'. unfold EebusDateTimeToString in Et'. rewrite Hv in Et'. injection Et' as Et'.
  rewrite snprintf_fits in Et' by (rewrite length_app; simpl; rewrite date_format_length, time_format_length by done; lia).
  destruct (print_pad_first 4 (year (date dt))) as (c & w & Ew & Hc).
  assert (∃ t', t = c :: t') as [t' ->]. { rewrite <- Et'. unfold date_format. rewrite Ew. eauto. }
  exists c, t'. split_and!; [done|done| |].
  - rewrite <- Et', clean_app, clean_cons, clean_date, clean_time. done.
  - intros old. destruct (date_time_round_trip dt old Hv) as (t2 & E2 & _ & Hp). rewrite Et in E2. by injection E2 as <-.
Qed.

Lemma time_printed k b : block_of (KTime k) b = true → time_printable b = true →
  ∃ t, time_to_string b = Some (Some t) ∧ clean t = true ∧ time_parse k t = Some (kEebusErrorOk, b).
Proof.
  destruct k, b as [| |d|d|t|dt|[d|dt]]; try done; intros _; cbn [time_printable time_to_string time_parse].
  - intros (t & -> & ? & Hp)%duration_printed. exists t. by rewrite Hp.
  - intros Hv. unfold EebusDateToString. rewrite Hv. eexists. split; [done|].
    rewrite snprintf_fits by (rewrite date_format_length by done; lia). by rewrite clean_date, DateParse_format.
  - intros Hv. unfold EebusTimeToString. rewrite Hv. eexists. split; [done|].
    rewrite snprintf_fits by (rewrite time_format_length by done; lia). by rewrite clean_time, TimeParse_format.
  - intros (c & t & -> & _ & ? & Hp)%date_time_printed. eexists. by rewrite Hp.
  - intros (t & -> & ? & Hp)%duration_printed. exists t. unfold ParseAbsoluteOrRelativeTime. by rewrite Hp.
  - intros (c & t & -> & Hc & ? & Hp)%date_time_printed. eexists. split_and!; [done|done|].
    unfold ParseAbsoluteOrRelativeTime. rewrite duration_of_digit by done. simpl. by rewrite Hp.
Qed.

(** ** Configurations JSON can tell apart *)

Definition same_name (a b : string) : bool := StringEqualsIgnoreCase (Some a) (Some b).

Fixpoint no_dup {A} (eqb : A → A → bool) (l : list A) : bool :=
  match l with [] => true | x :: l => negb (existsb (eqb x) l) && no_dup eqb l end.

(** The names of the members a field can have. *)
Definition field_names (c : EebusDataCfg) : list string :=
  match c with Choice alternatives => cfg_name <$> alternatives | _ => [cfg_name c] end.

Definition taken (n : string) (l : list string) : bool := existsb (same_name n) l.

(** No name of a field is the name of another; alternatives of a choice may have the same. *)
Fixpoint fields_apart (cs : list EebusDataCfg) : bool :=
  match cs with
  | [] => true
  | c :: cs => forallb (λ n, negb (taken n (cs ≫= field_names))) (field_names c) && fields_apart cs
  end.

(** No two fields of a sequence have the same name, and no two entries of an enumeration; a choice is a field. *)
Fixpoint json_ok (cfg : EebusDataCfg) : bool :=
  no_nul (cfg_name cfg) &&
  match cfg with
  | Simple _ _ (KEnum lut) =>
      no_dup String.eqb (fst <$> lut) && forallb (λ e, no_nul (fst e) && (- 2 ^ 31 <=? snd e) && (snd e <? 2 ^ 31)) lut
  | Simple _ _ (KNumeric _ bits) => (1 <=? bits) && (bits <=? 64)
  | Sequence _ _ cs | Container _ _ cs => fields_apart cs && forallb json_ok cs
  | List_ _ c | ListSimple _ c => json_ok c && negb (is_choice c)
  | Choice cs => forallb (λ c, json_ok c && negb (is_choice c)) cs
  | _ => true
  end.

(** How deep the JSON of the data is nested. *)
Fixpoint json_depth (cfg : EebusDataCfg) : nat :=
  match cfg with
  | Simple _ _ _ | Stub _ => 0
  | Tag _ => 1
  | Sequence _ _ cs | Container _ _ cs => S (S (foldr Nat.max 0%nat (map json_depth cs)))
  | List_ _ c | ListSimple _ c => S (json_depth c)
  | Choice cs => foldr Nat.max 0%nat (map json_depth cs)
  end.

(** ** Data that can be printed *)

Definition block_printable (k : SimpleKind) (b : Block) : bool :=
  block_of k b &&
  match k, b with
  | KNumeric signed bits, BInt z => Z.abs (number_value signed bits z) <? 10 ^ 15
  | KEnum lut, BInt z => existsb (λ e, snd e =? z) lut
  | KString, BString s => no_nul s
  | KTime _, _ => time_printable b
  | _, _ => true
  end.

(** The alternative that is chosen is the first of its name. *)
Fixpoint printable (cfg : EebusDataCfg) (d : Data) : bool :=
  match cfg, d with
  | Choice cs, Chosen i x =>
      default false (pick (λ c, (null x || negb (taken (cfg_name c) (cfg_name <$> take i cs))) && printable c x) cs i)
  | Choice _, _ => false
  | _, Null => true
  | Simple _ _ k, Leaf b => block_printable k b
  | Tag _, TagSet => true
  | Sequence _ _ cs, Struct l | Container _ _ cs, Struct l => forall2b printable cs l
  | List_ _ c, Array l | ListSimple _ c, Array l =>
      (Z.of_nat (length l) <=? kMaxElementsNum) && forallb (λ x, negb (null x) && printable c x) l
  | _, _ => false
  end.

(** What the reader makes of it. *)
Fixpoint wire (d : Data) : Data :=
  match d with
  | Struct l => Struct (map wire l)
  | Array [] => Null
  | Array l => Array (map wire l)
  | Chosen i x => if null x then Chosen 0 Null else Chosen i (wire x)
  | _ => d
  end.

(** Nothing is lost. *)
Fixpoint tight (d : Data) : bool :=
  match d with
  | Struct l => forallb tight l
  | Array l => negb (length l =? 0)%nat && forallb tight l
  | Chosen i x => if null x then (i =? 0)%nat else tight x
  | _ => true
  end.

Lemma map_id_forallb (f : Data → Data) (p : Data → bool) l :
  Forall (λ x, p x = true → f x = x) l → forallb p l = true → map f l = l.
Proof. induction 1 as [|x l Hx _ IH]; [done|]. simpl. intros [? ?]%andb_true_iff. by rewrite Hx, IH. Qed.

Lemma wire_tight d : tight d = true → wire d = d.
Proof.
  induction d as [| | |l IH|l IH|i x IH] using data_ind'; try done; simpl.
  - intros H. f_equal. by apply (map_id_forallb wire tight).
  - destruct l as [|x l]; [done|]. cbn [length Nat.eqb negb]. rewrite andb_true_l. intros H. f_equal.
    by apply (map_id_forallb wire tight).
  - destruct (null x) eqn:Hx; [|by intros; f_equal; apply IH]. intros ->%Nat.eqb_eq. by destruct x.
Qed.

Lemma typed_printable cfg d : printable cfg d = true → typed cfg d = true.
Proof.
  revert d. induction cfg as [| | |n f cs IH|kd n cs IH|n c IH|n c IH|cs IH] using cfg_ind';
    intros [|b| |l|l|i x]; simpl; try done.
  - unfold block_printable. by intros [-> _]%andb_true_iff.
  - revert l. induction IH as [|c cs Hc _ IH]; intros [|d l]; simpl; try done. intros [? ?]%andb_true_iff.
    by rewrite Hc, IH.
  - revert l. induction IH as [|c cs Hc _ IH]; intros [|d l]; simpl; try done. intros [? ?]%andb_true_iff.
    by rewrite Hc, IH.
  - intros [_ H]%andb_true_iff. rewrite forallb_forall in H |- *. intros x Hx. apply H in Hx as [_ ?]%andb_true_iff. auto.
  - intros [_ H]%andb_true_iff. rewrite forallb_forall in H |- *. intros x Hx. apply H in Hx as [_ ?]%andb_true_iff. auto.
  - rewrite !pick_lookup. destruct (cs !! i) as [c|] eqn:Hi; [|done]. simpl.
    rewrite Forall_forall in IH. intros [_ ?]%andb_true_iff. apply IH; [|done]. by eapply list_elem_of_lookup_2.
Qed.

(** ** Numbers *)

Lemma round_double_small z : Z.abs z < 2 ^ 53 → round_double z = z.
Proof.
  intros Hz. unfold round_double. destruct (Z.ltb_spec (Z.log2 (Z.abs z)) 53); [done|].
  destruct (decide (z = 0)) as [->|]; [done|].
  pose proof (Z.log2_spec (Z.abs z)) as [Hl _]; [lia|].
  assert (2 ^ 53 <= 2 ^ Z.log2 (Z.abs z)) by (apply Z.pow_le_mono_r; lia). lia.
Qed.

Lemma number_bits signed bits z : 1 <= bits → 0 <= z < 2 ^ bits →
  number_lo signed bits <= number_value signed bits z < number_hi signed bits ∧
  number_value signed bits z mod 2 ^ bits = z.
Proof.
  intros Hb Hz. unfold number_lo, number_hi, number_value.
  assert (2 ^ bits = 2 * 2 ^ (bits - 1)) as E by (rewrite <- Z.pow_succ_r by lia; f_equal; lia).
  destruct signed; simpl; [|split; [done|by apply Z.mod_small]].
  destruct (Z.leb_spec (2 ^ (bits - 1)) z); (split; [lia|]); [|by apply Z.mod_small].
  symmetry. apply (Zmod_unique _ _ (-1)); lia.
Qed.

Lemma number_read signed bits z : 1 <= bits → 0 <= z < 2 ^ bits → Z.abs (number_value signed bits z) < 10 ^ 15 →
  JsonToNum signed bits (NumToJson signed bits z) = Parsed z.
Proof.
  intros Hb Hz Hv. pose proof (number_bits signed bits z Hb Hz) as [Hr Hm].
  unfold JsonToNum, NumToJson. rewrite round_double_small by lia. rewrite double_to_int_of_Z by done. cbn [fmap parsed_fmap].
  by rewrite Hm.
Qed.

Lemma enum_read lut z : no_dup String.eqb (fst <$> lut) = true → existsb (λ e, snd e =? z) lut = true →
  ∃ i name, list_find (λ e : string * Z, snd e = z) lut = Some (i, (name, z)) ∧ enum_value lut name = Some z.
Proof.
  unfold enum_value. induction lut as [|[n v] lut IH]; simpl; [done|]. intros [Hn Hd]%andb_true_iff.
  destruct (Z.eqb_spec v z) as [->|Hne]; simpl; intros He.
  - exists 0%nat, n. by rewrite !decide_True.
  - rewrite decide_False by done. destruct (IH Hd He) as (i & name & Hf & Hv). rewrite Hf. simpl.
    exists (S i), name. split; [done|]. rewrite decide_False; [|].
    + revert Hv. clear. destruct (list_find (λ e : string * Z, fst e = name) lut) as [[j e]|]; exact id.
    + intros ->. apply negb_true_iff, not_true_iff_false in Hn. apply list_find_Some in Hf as (Hf & _ & _).
      apply Hn, existsb_exists. exists name. split; [|by apply String.eqb_refl].
      apply list_elem_of_In, list_elem_of_fmap. exists (name, z). split; [done|]. by eapply list_elem_of_lookup_2.
Qed.

(** ** Members *)

Lemma same_name_refl a : same_name a a = true.
Proof. unfold same_name. simpl. by apply bool_decide_true. Qed.

Lemma not_taken n l : taken n l = false → ∀ k, k ∈ l → same_name n k = false.
Proof.
  intros Hn k Hk. apply not_true_is_false. intros E. apply not_true_iff_false in Hn. apply Hn, existsb_exists.
  exists k. by rewrite <- list_elem_of_In.
Qed.

Lemma fields_apart_cons c cs : fields_apart (c :: cs) = true →
  fields_apart cs = true ∧ ∀ x y, x ∈ field_names c → y ∈ cs ≫= field_names → same_name x y = false.
Proof.
  cbn [fields_apart]. intros [Hc Hcs]%andb_true_iff. split; [done|]. intros x y Hx Hy. rewrite forallb_forall in Hc.
  apply (not_taken x (cs ≫= field_names)); [|done]. apply negb_true_iff, Hc. by apply list_elem_of_In.
Qed.

Section round_trip.
Context `{Allocator} `{CJsonLaws}.

Lemma member_of_app (a b : list (string * cJSON)) n :
  member_of (a ++ b) n = match member_of a n with Some j => Some j | None => member_of b n end.
Proof. induction a as [|kv a IH]; [done|]. cbn [app]. rewrite !member_of_cons. by destruct (StringEqualsIgnoreCase _ _). Qed.

Lemma member_of_None (ms : list (string * cJSON)) (ns : list string) n :
  Forall (λ kv, fst kv ∈ ns) ms → (∀ k, k ∈ ns → same_name n k = false) → member_of ms n = None.
Proof.
  intros Hms Hn. induction Hms as [|kv ms Hkv _ IH]; [done|]. rewrite member_of_cons.
  pose proof (Hn _ Hkv) as E. unfold same_name in E. by rewrite E.
Qed.

(** ** Items and fields that are read back *)

Definition item_read (c : EebusDataCfg) : Prop := ∀ d, printable c d = true →
  d = Null ∧ to_json_item c Null = Some (kEebusErrorOk, None) ∨
  null d = false ∧ ∃ j, to_json_item c d = Some (kEebusErrorOk, Some j) ∧ reads (json_depth c) j j ∧
    from_json_item c Null j = Some (kEebusErrorOk, wire d).

(** In any object that has the members [ms] made of the field, the field is found. *)
Definition finds (c : EebusDataCfg) (ms : list (string * cJSON)) (d : Data) : Prop :=
  ∀ all is_root, (∀ n, n ∈ field_names c → member_of all n = member_of ms n) →
    from_json_object from_json_item (json_of is_root all) is_root c (zeroed c) = Some (kEebusErrorOk, wire d).

Definition field_read (c : EebusDataCfg) : Prop := ∀ d, printable c d = true →
  ∃ ms, to_json_object to_json_item c d = Some (kEebusErrorOk, ms) ∧
    Forall (λ kv, fst kv ∈ field_names c) ms ∧ reads_members (json_depth c) ms ms ∧ finds c ms d.

Lemma to_json_object_item c d : is_choice c = false →
  to_json_object to_json_item c d =
    '(err, json_item) ← to_json_item c d;
    Some (err, if is_ok err then match json_item with Some j => [(cfg_name c, j)] | None => [] end else []).
Proof. by destruct c. Qed.

Lemma from_json_object_item c j r base : is_choice c = false → (∀ n, c ≠ Stub n) →
  from_json_object from_json_item j r c base =
    match JsonGetItem j (cfg_name c) r with None => Some (kEebusErrorOk, base) | Some i => from_json_item c base i end.
Proof. destruct c as [| |n| | | | |]; try done. intros _ Hs. by destruct (Hs n). Qed.

Lemma json_ok_name c : json_ok c = true → no_nul (cfg_name c) = true.
Proof. destruct c; cbn [json_ok]; by intros [? _]%andb_true_iff. Qed.

Lemma field_names_item c : is_choice c = false → field_names c = [cfg_name c].
Proof. by destruct c. Qed.

Lemma field_of_item c : is_choice c = false → json_ok c = true → item_read c → field_read c.
Proof.
  intros Hc Hok Hi d Hp. pose proof (json_ok_name c Hok) as Hname.
  assert (zeroed c = Null) as Hz by by apply zeroed_not_choice.
  assert ((∃ n, c = Stub n) ∨ ∀ n, c ≠ Stub n) as [[n ->]|Hs] by (destruct c; eauto).
  { destruct d; try done. exists []. split_and!; try done; constructor. }
  unfold finds. rewrite to_json_object_item, field_names_item by done. setoid_rewrite from_json_object_item; [|done..].
  setoid_rewrite JsonGetItem_of. rewrite Hz.
  destruct (Hi d Hp) as [[-> E]|(Hn & j & E & Hr & Hf)]; rewrite E; cbn [mbind option_bind]; eexists;
    (split; [reflexivity|]); change (is_ok kEebusErrorOk) with true; cbn match beta iota.
  - split_and!; [constructor|constructor|]. intros all r Hall. rewrite Hall by set_solver. done.
  - split_and!; [repeat constructor; set_solver|by repeat constructor|].
    intros all r Hall. rewrite Hall, member_of_cons by set_solver. pose proof (same_name_refl (cfg_name c)) as Es.
    unfold same_name in Es. cbn [fst snd]. by rewrite Es.
Qed.

(** The loop over the alternatives of a choice. *)
Lemma choice_found cs k i c base x all r : cs !! i = Some c →
  (∀ i' c', (i' < i)%nat → cs !! i' = Some c' → member_of all (cfg_name c') = None) →
  choice_from_json from_json_item (json_of r all) r cs k base x =
    match member_of all (cfg_name c) with
    | Some j => '(err, x) ← from_json_item c x j; Some (err, Chosen (k + i) x)
    | None => choice_from_json from_json_item (json_of r all) r (drop (S i) cs) (k + S i) base x
    end.
Proof.
  revert k i. induction cs as [|c0 cs IH]; intros k [|i]; simpl; try done.
  - intros [= ->] _. rewrite JsonGetItem_of, Nat.add_0_r, Nat.add_1_r. by destruct (member_of _ _).
  - intros Hi Hb. rewrite JsonGetItem_of, (Hb 0%nat c0) by (done || lia).
    rewrite (IH (S k) i); [|done|intros i' c' ? ?; apply (Hb (S i') c'); [lia|done]].
    by replace (S k + i)%nat with (k + S i)%nat by lia; replace (S k + S i)%nat with (k + S (S i))%nat by lia.
Qed.

Lemma choice_absent cs k base x all r : (∀ c, c ∈ cs → member_of all (cfg_name c) = None) →
  choice_from_json from_json_item (json_of r all) r cs k base x = Some (kEebusErrorOk, base).
Proof.
  revert k. induction cs as [|c cs IH]; intros k Hn; [done|]. cbn [choice_from_json]. rewrite JsonGetItem_of, Hn by set_solver.
  apply IH. set_solver.
Qed.

Lemma depth_below c cs : c ∈ cs → (json_depth c ≤ foldr Nat.max 0 (map json_depth cs))%nat.
Proof. induction 1; simpl; lia. Qed.

Lemma field_of_choice cs : json_ok (Choice cs) = true → Forall item_read cs → field_read (Choice cs).
Proof.
  intros Hok Hi d Hp. destruct d as [| | | | |i x]; try done. cbn [printable] in Hp. rewrite pick_lookup in Hp.
  destruct (cs !! i) as [c|] eqn:Hc; [|done]. cbn [fmap option_fmap option_map default] in Hp.
  apply andb_true_iff in Hp as [Hfirst Hp].
  assert (c ∈ cs) as Hin by by eapply list_elem_of_lookup_2.
  cbn [json_ok] in Hok. apply andb_true_iff in Hok as [_ Hok]. rewrite forallb_forall in Hok.
  pose proof (Hok c (proj1 (list_elem_of_In _ _) Hin)) as [Hcok Hcc%negb_true_iff]%andb_true_iff.
  rewrite Forall_forall in Hi. destruct (Hi c Hin x Hp) as [[-> _]|(Hn & j & Hj & Hr & Hf)].
  { exists []. split_and!; [done|constructor|constructor|]. intros all r Hall. simpl.
    apply choice_absent. intros c' Hc'. rewrite Hall; [done|]. simpl. apply list_elem_of_fmap. eauto. }
  exists [(cfg_name c, j)]. cbn [to_json_object]. rewrite Hn, bool_decide_false by (apply lookup_lt_Some in Hc; lia).
  rewrite pick_lookup, Hc. cbn [fmap option_fmap option_map default]. rewrite to_json_object_item, Hj by done.
  pose proof (depth_below c cs Hin) as Hd. split_and!; [done| | |].
  - repeat constructor. simpl. apply list_elem_of_fmap. eauto.
  - constructor; [by apply json_ok_name| |constructor]. by eapply reads_deeper.
  - intros all r Hall. cbn [from_json_object zeroed wire]. rewrite Hn.
    assert (∀ i' c', cs !! i' = Some c' → member_of all (cfg_name c') = member_of [(cfg_name c, j)] (cfg_name c')) as Hall'.
    { intros i' c' Hc'. apply Hall. simpl. apply list_elem_of_fmap. exists c'. split; [done|]. by eapply list_elem_of_lookup_2. }
    rewrite (choice_found cs 0 i c) by first [done|
      intros i' c' Hlt Hc'; rewrite (Hall' i' c' Hc'); apply (member_of_None _ [cfg_name c]); [repeat constructor; set_solver|];
      intros n ->%list_elem_of_singleton; unfold same_name; rewrite StringEqualsIgnoreCase_sym;
      rewrite Hn in Hfirst; apply negb_true_iff in Hfirst; apply (not_taken _ _ Hfirst);
      apply list_elem_of_fmap; exists c'; (split; [done|]);
      apply (list_elem_of_lookup_2 _ i'); by rewrite lookup_take_lt ].
    rewrite (Hall' i c Hc), member_of_cons. pose proof (same_name_refl (cfg_name c)) as Es. unfold same_name in Es.
    cbn [fst snd]. rewrite Es, Hf. done.
Qed.

Lemma fields_read cs l : Forall field_read cs → fields_apart cs = true →
  forall2b printable cs l = true →
  ∃ ms, fields_to_json to_json_item cs l = Some (kEebusErrorOk, ms) ∧
    Forall (λ kv, fst kv ∈ cs ≫= field_names) ms ∧
    reads_members (foldr Nat.max 0%nat (map json_depth cs)) ms ms ∧
    ∀ all is_root, (∀ n, n ∈ cs ≫= field_names → member_of all n = member_of ms n) →
      fields_from_json from_json_item (json_of is_root all) is_root cs = Some (kEebusErrorOk, map wire l).
Proof.
  intros Hcs. revert l. induction Hcs as [|c cs Hc _ IH]; intros [|d l]; cbn [forall2b]; try done.
  { intros _ _. exists []. split_and!; [done|constructor|constructor|done]. }
  intros [Hnd Hsep]%fields_apart_cons [Hp Hps]%andb_true_iff. simpl.
  destruct (Hc d Hp) as (ms & -> & Hms & Hr & Hf). destruct (IH l Hnd Hps) as (ms' & -> & Hms' & Hr' & Hf').
  cbn [mbind option_bind]. change (is_ok kEebusErrorOk) with true. cbn match. exists (ms ++ ms'). split_and!; [done| | |].
  - apply Forall_app. split; [eapply Forall_impl; [exact Hms|set_solver]|eapply Forall_impl; [exact Hms'|set_solver]].
  - clear -Hr Hr'. assert (∀ d (a b : list (string * cJSON)), reads_members d a a → reads_members d b b → reads_members d (a ++ b) (a ++ b)) as Happ.
    { intros d a b. induction a as [|[k j] a IHa]; [done|]. intros Ha ?. inversion Ha; subst. constructor; auto. }
    apply Happ; (eapply reads_members_deeper; [done|lia]).
  - intros all r Hall. rewrite (next_ok _ (wire d)).
    + rewrite Hf'; [done|]. intros n Hn. rewrite Hall by set_solver. rewrite member_of_app.
      rewrite (member_of_None ms (field_names c)); [done|done|]. intros k Hk.
      unfold same_name. rewrite StringEqualsIgnoreCase_sym. by apply Hsep.
    + apply Hf. intros n Hn. rewrite Hall by set_solver. rewrite member_of_app.
      destruct (member_of ms n) eqn:E; [done|]. apply (member_of_None ms' (cs ≫= field_names)); [done|].
      intros k Hk. by apply Hsep.
Qed.

Lemma items_read c l : item_read c → forallb (λ x, negb (null x) && printable c x) l = true →
  ∃ js, items_to_json (to_json_item c) l = Some (kEebusErrorOk, js) ∧ length js = length l ∧
    reads_items (json_depth c) js js ∧
    ∀ pre, items_from_json (from_json_item c) (cJSON_Array (pre ++ js)) (length pre) (length js) =
      Some (kEebusErrorOk, map wire l).
Proof.
  intros Hc. induction l as [|d l IH]; simpl.
  { intros _. exists []. split_and!; [done|done|constructor|done]. }
  intros [[Hn Hp]%andb_true_iff Hps]%andb_true_iff. destruct (IH Hps) as (js & -> & Hlen & Hr' & Hf').
  destruct (Hc d Hp) as [[-> _]|(_ & j & -> & Hr & Hf)]; [done|]. exists (j :: js). split_and!; [done|simpl; lia|by constructor|].
  intros pre. cbn [length items_from_json]. rewrite GetArrayItem_Array, list_lookup_middle by done.
  cbn [mbind option_bind]. rewrite (next_ok _ (wire d)) by done.
  specialize (Hf' (pre ++ [j])). rewrite <- (assoc_L (++)), length_app, Nat.add_1_r in Hf'. simpl in Hf'. by rewrite Hf'.
Qed.

(** *** A block *)

Ltac json_block :=
  cbn [block_to_json block_from_json];
  unfold bool_to_json, numeric_to_json, enum_to_json, string_to_json, time_to_json,
    bool_from_json, numeric_from_json, enum_from_json, string_from_json, time_from_json.

Lemma block_read k b n f : json_ok (Simple n f k) = true → block_printable k b = true →
  ∃ j, block_to_json k b = Some (kEebusErrorOk, Some j) ∧ reads 0%nat j j ∧
    block_from_json k Null j = Some (kEebusErrorOk, Leaf b).
Proof.
  intros Hok [Hty Hp]%andb_true_iff. cbn [json_ok] in Hok. apply andb_true_iff in Hok as [_ Hok].
  destruct k as [|signed bits|lut| |tk]; [destruct b as [z|s|d|d|t|dt|at_]; try done ..|]; json_block.
  - eexists. split_and!; [done|constructor|]. json_block. rewrite IsBool_Bool, IsTrue_Bool. cbn [block_of] in Hty.
    destruct (Z.eqb_spec z 0) as [->|]; [done|]. by replace z with 1 by lia.
  - cbn [block_of] in Hty. assert (1 <= bits ∧ 0 <= z < 2 ^ bits) as [Hb Hz] by lia.
    eexists. split_and!; [done| |].
    + unfold NumToJson. rewrite round_double_small by lia. constructor. lia.
    + json_block. rewrite IsNumber_Number, GetNumberValue_Number, number_read by (done || lia). done.
  - apply andb_true_iff in Hok as [Hnd Hlut]. destruct (enum_read lut z Hnd Hp) as (i & name & Hf & Hv).
    rewrite Hf. eexists. split; [done|]. rewrite forallb_forall in Hlut. apply list_find_Some in Hf as (Hf & _ & _).
    assert (no_nul name = true) as Hname.
    { specialize (Hlut (name, z)). rewrite <- list_elem_of_In in Hlut.
      pose proof (Hlut (list_elem_of_lookup_2 _ _ _ Hf)) as E. rewrite !andb_true_iff in E. tauto. }
    split; [by constructor|]. json_block. rewrite (proj2 (IsString_value _)) by (rewrite GetStringValue_String by done; eauto).
    rewrite GetStringValue_String by done. simpl. by rewrite Hv.
  - eexists. split_and!; [done|by constructor|]. json_block.
    rewrite (proj2 (IsString_value _)) by (rewrite GetStringValue_String by done; eauto). by rewrite GetStringValue_String.
  - destruct (time_printed tk b Hty) as (t & -> & Ht & Hr); [by destruct b|]. eexists. split; [reflexivity|].
    pose proof (clean_no_nul t Ht). split; [by constructor|]. json_block.
    rewrite (proj2 (IsString_value _)) by (rewrite GetStringValue_String by done; eauto).
    rewrite GetStringValue_String by done. cbn [negb mbind option_bind].
    by rewrite list_ascii_of_string_of_list_ascii, Hr.
Qed.

(** ** The round trip *)

(** A configuration, or the alternatives of a choice, are read back. *)
Definition cfg_read (c : EebusDataCfg) : Prop :=
  json_ok c = true → match c with Choice cs => Forall item_read cs | _ => item_read c end.

Lemma fields_ok cs : Forall cfg_read cs → forallb json_ok cs = true →
  Forall field_read cs.
Proof.
  induction 1 as [|c cs Hc _ IH]; [constructor|]. simpl. intros [Hok ?]%andb_true_iff.
  constructor; [|by apply IH]. specialize (Hc Hok).
  destruct c as [| | | | | | |alts]; [by apply field_of_item..|by apply field_of_choice].
Qed.

Lemma list_read c l : item_read c → printable (List_ EmptyString c) (Array l) = true →
  ∃ j, to_json_item (List_ EmptyString c) (Array l) = Some (kEebusErrorOk, Some j) ∧ reads (S (json_depth c)) j j ∧
    from_json_item (List_ EmptyString c) Null j = Some (kEebusErrorOk, wire (Array l)).
Proof.
  intros Hc. cbn [printable]. intros [Hlen Hl]%andb_true_iff. destruct (items_read c l Hc Hl) as (js & Hto & Hjs & Hr & Hf).
  cbn [to_json_item]. rewrite Hto. cbn [mbind option_bind]. change (is_ok kEebusErrorOk) with true. eexists. split_and!; [done|by constructor|].
  cbn [from_json_item]. rewrite IsArray_Array, GetArraySize_Array, Hjs. cbn [negb].
  destruct l as [|d l]; [done|]. assert (CreateListBuffer (length (d :: l)) = true) as ->.
  { unfold CreateListBuffer. rewrite Hlen. by rewrite orb_true_r. }
  cbn [length Nat.eqb]. specialize (Hf []). rewrite Hjs in Hf. cbn [app length] in Hf. by rewrite Hf.
Qed.

Lemma structure_read name cs l : Forall cfg_read cs → json_ok (Sequence name 0 cs) = true → forall2b printable cs l = true →
  ∃ ms, fields_to_json to_json_item cs l = Some (kEebusErrorOk, ms) ∧
    reads (json_depth (Sequence name 0 cs)) (json_of false ms) (json_of false ms) ∧
    fields_from_json from_json_item (json_of false ms) false cs = Some (kEebusErrorOk, map wire l).
Proof.
  intros IH Hok Hl. cbn [json_ok] in Hok. rewrite !andb_true_iff in Hok. destruct Hok as (_ & Hnd & Hoks).
  destruct (fields_read cs l (fields_ok cs IH Hoks) Hnd Hl) as (ms & Hto & _ & Hr & Hf).
  exists ms. split_and!; [done|by apply reads_json_of|by apply Hf].
Qed.

Lemma all_read cfg : cfg_read cfg.
Proof.
  induction cfg as [n f k|n|n|n f cs IH|kd n cs IH|n c IH|n c IH|cs IH] using cfg_ind'; intros Hok.
  1-7: intros d Hp; destruct d as [|b| |l|l|i x] eqn:Ed; try done; first [by left|right; split; [done|]].
  - destruct (block_read k b n f Hok Hp) as (j & Hto & Hr & Hf). by exists j.
  - eexists. split_and!; [done|by repeat constructor|]. cbn [from_json_item]; unfold tag_from_json. by rewrite IsArray_Array, GetArraySize_Array.
  - destruct (structure_read n cs l IH Hok Hp) as (ms & Hto & Hr & Hf). cbn [to_json_item]. rewrite Hto. cbn [mbind option_bind].
    change (is_ok kEebusErrorOk) with true. eexists. split_and!; [done|done|]. cbn [from_json_item].
    change (cJSON_IsArray (json_of false ms)) with (cJSON_IsArray (cJSON_Array ((λ kv, cJSON_Object [kv]) <$> ms))).
    rewrite IsArray_Array, Hf. done.
  - destruct (structure_read n cs l IH Hok Hp) as (ms & Hto & Hr & Hf). cbn [to_json_item]. rewrite Hto. cbn [mbind option_bind].
    change (is_ok kEebusErrorOk) with true. eexists. split_and!; [done|done|]. cbn [from_json_item].
    change (cJSON_IsArray (json_of false ms)) with (cJSON_IsArray (cJSON_Array ((λ kv, cJSON_Object [kv]) <$> ms))).
    rewrite IsArray_Array, Hf. done.
  - cbn [json_ok] in Hok. rewrite !andb_true_iff, negb_true_iff in Hok. destruct Hok as (_ & Hcok & Hcc).
    apply (list_read c l); [|done]. specialize (IH Hcok). by destruct c.
  - cbn [json_ok] in Hok. rewrite !andb_true_iff, negb_true_iff in Hok. destruct Hok as (_ & Hcok & Hcc).
    apply (list_read c l); [|done]. specialize (IH Hcok). by destruct c.
  - cbn [json_ok] in Hok. apply andb_true_iff in Hok as [_ Hok]. rewrite forallb_forall in Hok.
    apply Forall_forall. intros c Hin. rewrite Forall_forall in IH.
    pose proof (Hok c (proj1 (list_elem_of_In _ _) Hin)) as [Hcok Hcc%negb_true_iff]%andb_true_iff.
    specialize (IH c Hin Hcok). by destruct c.
Qed.

Lemma printed_read cfg d :
  json_ok cfg = true → is_choice cfg = false → (S (json_depth cfg) ≤ CJSON_NESTING_LIMIT)%nat →
  printable cfg d = true → null d = false →
  ∃ s, EebusDataPrintUnformatted cfg d = Some (Some s) ∧ EebusDataParse cfg s = Some (Some (wire d)).
Proof.
  intros Hok Hc Hd Hp Hn. assert (field_read cfg) as Hf.
  { apply field_of_item; [done|done|]. pose proof (all_read cfg Hok) as Hi. by destruct cfg. }
  destruct (Hf d Hp) as (ms & Hto & _ & Hr & Hfrom). unfold EebusDataPrintUnformatted. rewrite Hto. cbn [mbind option_bind].
  change (is_ok kEebusErrorOk) with true. cbn match.
  destruct (Parse_Print (S (json_depth cfg)) (json_of true ms) (json_of true ms) Hd) as (s & Hs & Hparse); [by constructor|].
  exists s. split; [by rewrite Hs|]. unfold EebusDataParse. rewrite Hparse.
  rewrite <- (zeroed_not_choice cfg Hc), Hfrom by done. done.
Qed.

(** C8: data that can be printed is printed as a text, and the reader makes the same data of the text, but
    for empty arrays, which become NULL, and the alternatives of choices that are NULL. *)
Theorem data_round_trip (cfg : EebusDataCfg) (d : Data) :
  json_ok cfg = true → is_choice cfg = false → (S (json_depth cfg) ≤ CJSON_NESTING_LIMIT)%nat →
  printable cfg d = true → null d = false →
  ∃ s, EebusDataPrintUnformatted cfg d = Some (Some s) ∧ EebusDataParse cfg s = Some (Some (wire d)).
Proof. apply printed_read. Qed.

(** ** What is read is of its configuration *)

(** An enumeration has a value of its table. *)
Definition block_known (k : SimpleKind) (b : Block) : bool :=
  block_of k b && match k, b with KEnum lut, BInt z => existsb (λ e, snd e =? z) lut | _, _ => true end.

(** What is no item of an array: an item is NULL only where its text can be nothing the reader knows. *)
Definition may_be_null (c : EebusDataCfg) : bool :=
  match c with Simple _ _ (KEnum _) | Stub _ | List_ _ _ | ListSimple _ _ => true | _ => false end.

Fixpoint known (cfg : EebusDataCfg) (d : Data) : bool :=
  match cfg, d with
  | Choice cs, Chosen i d => default false (pick (λ c, known c d) cs i)
  | Choice _, _ => false
  | _, Null => true
  | Simple _ _ k, Leaf b => block_known k b
  | Tag _, TagSet => true
  | Sequence _ _ cs, Struct l | Container _ _ cs, Struct l => forall2b known cs l
  | List_ _ c, Array l | ListSimple _ c, Array l => forallb (λ x, (may_be_null c || negb (null x)) && known c x) l
  | _, _ => false
  end.

Lemma known_typed cfg d : known cfg d = true → typed cfg d = true.
Proof.
  revert d. induction cfg as [| | |n f cs IH|kd n cs IH|n c IH|n c IH|cs IH] using cfg_ind';
    intros [|b| |l|l|i x]; simpl; try done.
  - unfold block_known. by intros [-> _]%andb_true_iff.
  - revert l. induction IH as [|c cs Hc _ IH]; intros [|d l]; simpl; try done. intros [? ?]%andb_true_iff. by rewrite Hc, IH.
  - revert l. induction IH as [|c cs Hc _ IH]; intros [|d l]; simpl; try done. intros [? ?]%andb_true_iff. by rewrite Hc, IH.
  - intros Hall. rewrite forallb_forall in Hall |- *. intros x Hx. apply Hall in Hx as [_ ?]%andb_true_iff. auto.
  - intros Hall. rewrite forallb_forall in Hall |- *. intros x Hx. apply Hall in Hx as [_ ?]%andb_true_iff. auto.
  - rewrite !pick_lookup. destruct (cs !! i) as [c|] eqn:Hi; [|done]. simpl.
    rewrite Forall_forall in IH. apply IH. by eapply list_elem_of_lookup_2.
Qed.

Lemma known_null c : is_choice c = false → known c Null = true.
Proof. by destruct c. Qed.

(** As long as there is no error. *)
Definition reads_typed (c : EebusDataCfg) : Prop := ∀ base j d, json_ok c = true → is_choice c = false →
  known c base = true → from_json_item c base j = Some (kEebusErrorOk, d) → known c d = true.

Lemma next_inv r rest k l : next r rest k = Some (kEebusErrorOk, l) →
  ∃ d l', r = Some (kEebusErrorOk, d) ∧ k tt = Some (kEebusErrorOk, l') ∧ l = d :: l'.
Proof.
  unfold next. intros E. destruct r as [[e d]|]; [|done]. cbn [mbind option_bind] in E. destruct (is_ok e) eqn:He.
  - apply is_ok_true in He as ->. destruct (k tt) as [[e' l']|]; [|done]. simplify_eq/=. eauto.
  - by simplify_eq/=.
Qed.

Lemma block_typed k j err b n f : json_ok (Simple n f k) = true →
  block_from_json k Null j = Some (err, Leaf b) → block_known k b = true.
Proof.
  intros Hok. cbn [json_ok] in Hok. apply andb_true_iff in Hok as [_ Hok].
  destruct k as [|signed bits|lut| |tk]; json_block.
  - destruct (cJSON_IsBool j); [|done]. destruct (cJSON_IsTrue j); by intros [= <- <-].
  - destruct (cJSON_IsNumber j); [|done]. cbn [negb]. unfold JsonToNum.
    destruct (double_to_int _ _ _) as [z| |]; try done. cbn [fmap parsed_fmap]. intros [= <- <-]. unfold block_known. cbn [block_of]. rewrite andb_true_r.
    pose proof (Z.mod_pos_bound z (2 ^ bits)). assert (0 < 2 ^ bits) by (apply Z.pow_pos_nonneg; lia). lia.
  - destruct (cJSON_IsString j); [|done]. cbn [negb]. destruct (cJSON_GetStringValue j) as [s|]; [|done]. cbn [mbind option_bind].
    destruct (enum_value lut s) as [z|] eqn:E; [|done]. intros [= <- <-]. unfold enum_value in E.
    apply andb_true_iff in Hok as [_ Hlut]. apply fmap_Some in E as ([i e] & Hf & ->). apply list_find_Some in Hf as (Hf & _ & _).
    rewrite forallb_forall in Hlut. apply list_elem_of_lookup_2, list_elem_of_In in Hf. cbn [block_known block_of fmap option_fmap option_map snd].
    apply andb_true_iff. split; [apply Hlut in Hf; simpl in *; lia|]. apply existsb_exists. exists e. split; [done|]. apply Z.eqb_refl.
  - destruct (cJSON_IsString j); [|done]. cbn [negb]. destruct (cJSON_GetStringValue j) as [s|]; [|done]. by intros [= <- <-].
  - destruct (cJSON_IsString j); [|done]. cbn [negb]. destruct (cJSON_GetStringValue j) as [s|]; [|done]. cbn [mbind option_bind].
    destruct (time_parse tk _) as [[e b']|] eqn:E; [|done]. cbn [mbind option_bind]. destruct (is_ok e); [|done]. intros [= <- <-].
    destruct tk; cbn [time_parse] in E.
    + destruct (EebusDurationParse _) as [[? ?]|]; by simplify_eq/=.
    + destruct (EebusDateParse _); by simplify_eq/=.
    + destruct (EebusTimeParse _); by simplify_eq/=.
    + destruct (EebusDateTimeParse _ _); by simplify_eq/=.
    + destruct (ParseAbsoluteOrRelativeTime _) as [[? ?]|]; by simplify_eq/=.
Qed.

(** A block, NULL, or the data that was there. *)
Lemma block_from_json_cases k base j err d : block_from_json k base j = Some (err, d) →
  d = base ∨ d = Null ∨ ∃ b, d = Leaf b ∧ block_from_json k Null j = Some (err, Leaf b).
Proof.
  destruct k as [|signed bits|lut| |tk]; json_block.
  - destruct (cJSON_IsBool j); intros [= <- <-]; eauto.
  - destruct (cJSON_IsNumber j); cbn [negb]; [|intros [= <- <-]; by left].
    destruct (JsonToNum _ _ _); intros [= <- <-]; eauto.
  - destruct (cJSON_IsString j); cbn [negb]; [|intros [= <- <-]; by left].
    destruct (cJSON_GetStringValue j) as [s|]; [|done]. cbn [mbind option_bind].
    destruct (enum_value lut s); intros [= <- <-]; eauto.
  - destruct (cJSON_IsString j); cbn [negb]; [|intros [= <- <-]; by left].
    destruct (cJSON_GetStringValue j) as [s|]; [|done]. intros [= <- <-]. eauto.
  - destruct (cJSON_IsString j); cbn [negb]; [|intros [= <- <-]; by left].
    destruct (cJSON_GetStringValue j) as [s|]; [|done]. cbn [mbind option_bind].
    destruct (time_parse tk _) as [[e b]|]; [|done]. cbn [mbind option_bind]. destruct (is_ok e); intros [= <- <-]; eauto.
Qed.

Lemma block_base_typed k base j err d n f : json_ok (Simple n f k) = true → known (Simple n f k) base = true →
  block_from_json k base j = Some (err, d) → known (Simple n f k) d = true.
Proof.
  intros Hok Hb [->|[->|(b & -> & E)]]%block_from_json_cases; [done|done|]. by apply (block_typed k j err b n f Hok).
Qed.

Lemma choice_typed r j cs k base x d alts : Forall reads_typed cs →
  (∀ c, c ∈ cs → json_ok c = true ∧ is_choice c = false ∧ known c x = true) →
  (∀ i c, cs !! i = Some c → alts !! (k + i)%nat = Some c) → known (Choice alts) base = true →
  choice_from_json from_json_item j r cs k base x = Some (kEebusErrorOk, d) → known (Choice alts) d = true.
Proof.
  intros Hcs. revert k. induction Hcs as [|c cs Hc _ IH]; intros k Hok Halts Hb; [by intros [= <-]|].
  cbn [choice_from_json]. destruct (JsonGetItem _ _ _) as [i|].
  - destruct (from_json_item c x i) as [[e x']|] eqn:E; [|done]. intros [= -> <-]. cbn [known]. rewrite pick_lookup.
    specialize (Halts 0%nat c eq_refl). rewrite Nat.add_0_r in Halts. rewrite Halts. simpl.
    destruct (Hok c) as (? & ? & ?); [set_solver|]. by eapply Hc.
  - apply (IH (S k)); [set_solver| |done]. intros i c' Hi. rewrite <- (Halts (S i) c' Hi). f_equal. lia.
Qed.

(** A field starts zeroed. *)
Definition field_typed (c : EebusDataCfg) : Prop := ∀ r j d, json_ok c = true →
  from_json_object from_json_item j r c (zeroed c) = Some (kEebusErrorOk, d) → known c d = true.

Lemma fields_typed r j cs l : Forall field_typed cs → forallb json_ok cs = true →
  fields_from_json from_json_item j r cs = Some (kEebusErrorOk, l) → forall2b known cs l = true.
Proof.
  intros Hcs. revert l. induction Hcs as [|c cs Hc _ IH]; intros l; [by intros _ [= <-]|].
  cbn [fields_from_json forallb]. intros [Hok Hoks]%andb_true_iff (d & l' & Hd & Hl & ->)%next_inv.
  cbn [forall2b]. by rewrite (Hc _ _ _ Hok Hd), (IH _ Hoks Hl).
Qed.

Lemma item_there c j d : is_choice c = false → from_json_item c Null j = Some (kEebusErrorOk, d) →
  may_be_null c || negb (null d) = true.
Proof.
  destruct c as [n f k|n|n|n f cs|kd n cs|n c|n c|cs]; try done; intros _; cbn [from_json_item may_be_null].
  - destruct k as [|signed bits|lut| |tk]; try done; json_block.
    + destruct (cJSON_IsBool j); by intros [= <-].
    + destruct (cJSON_IsNumber j); [|done]. cbn [negb]. destruct (JsonToNum _ _ _); by intros [= <-].
    + destruct (cJSON_IsString j); [|done]. cbn [negb]. destruct (cJSON_GetStringValue j); by intros [= <-].
    + destruct (cJSON_IsString j); [|done]. cbn [negb]. destruct (cJSON_GetStringValue j) as [s|]; [|done]. cbn [mbind option_bind].
      destruct (time_parse tk _) as [[e b]|]; [|done]. cbn [mbind option_bind]. destruct (is_ok e); by intros [= <-].
  - unfold tag_from_json. destruct (_ && _); by intros [= <-].
  - destruct (cJSON_IsArray j); [|done]. destruct (fields_from_json _ _ _ _) as [[e l]|]; [|done]. by intros [= _ <-].
  - destruct (cJSON_IsArray j); [|done]. destruct (fields_from_json _ _ _ _) as [[e l]|]; [|done]. by intros [= _ <-].
Qed.

Lemma items_typed c j i n l : reads_typed c → json_ok c = true → is_choice c = false →
  items_from_json (from_json_item c) j i n = Some (kEebusErrorOk, l) →
  forallb (λ x, (may_be_null c || negb (null x)) && known c x) l = true.
Proof.
  intros Hc Hok Hcc. revert i l. induction n as [|n IH]; intros i l; [by intros [= <-]|].
  cbn [items_from_json]. destruct (cJSON_GetArrayItem j i) as [el|]; [|done]. cbn [mbind option_bind].
  intros (d & l' & Hd & Hl & ->)%next_inv. cbn [forallb]. rewrite (item_there c el d Hcc Hd), (IH _ _ Hl).
  rewrite (Hc Null el d); [done|done|done|by apply known_null|done].
Qed.

Lemma alternatives_ok cs : json_ok (Choice cs) = true → ∀ c, c ∈ cs → json_ok c = true ∧ is_choice c = false ∧ known c Null = true.
Proof.
  cbn [json_ok]. intros [_ Hok]%andb_true_iff c Hin. rewrite forallb_forall in Hok.
  apply list_elem_of_In, Hok in Hin. apply andb_true_iff in Hin as [? ?%negb_true_iff]. split_and!; [done|done|by apply known_null].
Qed.

Lemma field_typed_of c : match c with Choice cs => cs ≠ [] ∧ Forall reads_typed cs | _ => reads_typed c end → field_typed c.
Proof.
  intros Hc r j d Hok.
  assert (is_choice c = false → reads_typed c → from_json_object from_json_item j r c (zeroed c) = Some (kEebusErrorOk, d) → known c d = true) as Hitem.
  { intros Hcc Hc' E. assert (known c (zeroed c) = true) as Hz by (rewrite zeroed_not_choice by done; by apply known_null).
    destruct c; try done; cbn [from_json_object] in E; (destruct (JsonGetItem _ _ _); [by eapply Hc'|by simplify_eq/=]) || by simplify_eq/=. }
  destruct c as [| | | | | | |cs]; [by apply Hitem..|]. cbn [from_json_object zeroed]. destruct Hc as [Hne Hc].
  apply choice_typed; [done|by apply alternatives_ok|done|]. destruct cs as [|c cs]; [done|].
  simpl. apply known_null. by apply (alternatives_ok (c :: cs) Hok c), list_elem_of_here.
Qed.

Lemma structure_typed j cs d : forallb cfg_ok cs = true →
  Forall (λ c, cfg_ok c = true → match c with Choice cs => Forall reads_typed cs | _ => reads_typed c end) cs →
  forallb json_ok cs = true → into Struct (fields_from_json from_json_item j false cs) = Some (kEebusErrorOk, d) →
  ∃ l, d = Struct l ∧ forall2b known cs l = true.
Proof.
  intros Hcfg Hcs Hok E. destruct (fields_from_json _ _ _ _) as [[e l]|] eqn:El; [|done]. injection E as -> <-.
  exists l. split; [done|]. eapply fields_typed; [|done|exact El].
  rewrite forallb_forall in Hcfg. rewrite Forall_forall in Hcs. apply Forall_forall. intros c Hin.
  apply field_typed_of. pose proof (Hcfg c (proj1 (list_elem_of_In _ _) Hin)) as Hc. specialize (Hcs c Hin Hc).
  destruct c as [| | | | | | |alts]; [done..|]. split; [|done]. cbn [cfg_ok] in Hc.
  apply andb_true_iff in Hc as [Hne%negb_true_iff _]. by apply bool_decide_eq_false in Hne.
Qed.

Lemma list_typed c base j d : reads_typed c → json_ok c = true → is_choice c = false →
  known (List_ EmptyString c) base = true → from_json_item (List_ EmptyString c) base j = Some (kEebusErrorOk, d) →
  known (List_ EmptyString c) d = true.
Proof.
  intros Hc Hok Hcc Hb. cbn [from_json_item]. destruct (cJSON_IsArray j); cbn [negb]; [|done].
  destruct (_ =? 0)%nat; [by intros [= <-]|]. destruct (CreateListBuffer _); [|done].
  destruct (items_from_json _ _ _ _) as [[e l]|] eqn:El; [|done]. intros [= -> <-]. cbn [known].
  by eapply items_typed.
Qed.

Lemma all_typed cfg : cfg_ok cfg = true → match cfg with Choice cs => Forall reads_typed cs | _ => reads_typed cfg end.
Proof.
  induction cfg as [n f k|n|n|n f cs IH|kd n cs IH|n c IH|n c IH|cs IH] using cfg_ind'; intros Hcfg.
  - intros base j d Hok _ Hb. by apply block_base_typed.
  - intros base j d _ _ Hb. cbn [from_json_item]; unfold tag_from_json. destruct (_ && _); by intros [= <-].
  - intros base j d _ _ Hb. by intros [= <-].
  - intros base j d Hok _ Hb. cbn [from_json_item]. destruct (cJSON_IsArray j); [|done].
    cbn [json_ok] in Hok. rewrite !andb_true_iff in Hok. intros E.
    destruct (structure_typed j cs d Hcfg IH (proj2 (proj2 Hok)) E) as (l & -> & ?). done.
  - intros base j d Hok _ Hb. cbn [from_json_item]. destruct (cJSON_IsArray j); [|done].
    cbn [json_ok] in Hok. rewrite !andb_true_iff in Hok. intros E.
    destruct (structure_typed j cs d Hcfg IH (proj2 (proj2 Hok)) E) as (l & -> & ?). done.
  - cbn [cfg_ok] in Hcfg. apply andb_true_iff in Hcfg as [Hcfg Hcc%negb_true_iff]. intros base j d Hok _ Hb.
    cbn [json_ok] in Hok. rewrite !andb_true_iff in Hok. apply (list_typed c base j d); [|tauto|done|done].
    specialize (IH Hcfg). by destruct c.
  - cbn [cfg_ok] in Hcfg. apply andb_true_iff in Hcfg as [Hcfg Hcc%negb_true_iff]. intros base j d Hok _ Hb.
    cbn [json_ok] in Hok. rewrite !andb_true_iff in Hok. apply (list_typed c base j d); [|tauto|done|done].
    specialize (IH Hcfg). by destruct c.
  - cbn [cfg_ok] in Hcfg. apply andb_true_iff in Hcfg as [_ Hcfg]. rewrite forallb_forall in Hcfg.
    apply Forall_forall. intros c Hin. rewrite Forall_forall in IH.
    pose proof (Hcfg c (proj1 (list_elem_of_In _ _) Hin)) as [Hcok Hcc%negb_true_iff]%andb_true_iff.
    specialize (IH c Hin Hcok). by destruct c.
Qed.

Lemma parsed_known cfg s d : json_ok cfg = true → cfg_ok cfg = true → is_choice cfg = false →
  EebusDataParse cfg s = Some (Some d) → known cfg d = true.
Proof.
  intros Hok Hcfg Hc. unfold EebusDataParse. destruct (cJSON_Parse s) as [j|]; [|done].
  destruct (from_json_object _ _ _ _ _) as [[e d']|] eqn:E; [|done]. cbn [mbind option_bind].
  destruct (is_ok e) eqn:He; [|done]. apply is_ok_true in He as ->. intros [= <-].
  assert (field_typed cfg) as Hf. { apply field_typed_of. pose proof (all_typed cfg Hcfg). by destruct cfg. }
  eapply Hf; [done|]. by rewrite zeroed_not_choice.
Qed.

(** Whatever text it is given, the reader makes only data of its configuration, with values of the enumerations'
    tables and no NULL among the structures of an array, so that every operation on data can take it. *)
Theorem parsed_data_typed (cfg : EebusDataCfg) (s : string) (d : Data) :
  json_ok cfg = true → cfg_ok cfg = true → is_choice cfg = false →
  EebusDataParse cfg s = Some (Some d) → known cfg d = true ∧ typed cfg d = true.
Proof. intros Hok Hcfg Hc E. pose proof (parsed_known cfg s d Hok Hcfg Hc E). split; [done|by apply known_typed]. Qed.

(** ** Where reading is undefined *)

(** Reading [j] for a configuration reads [j'] for a block of the kind [k]. *)
Inductive reads_value : EebusDataCfg → cJSON → SimpleKind → cJSON → Prop :=
| ReadsHere n f k j : reads_value (Simple n f k) j k j
| ReadsField n f cs c j k j' : c ∈ cs → reads_member c j false k j' → reads_value (Sequence n f cs) j k j'
| ReadsContainer kd n cs c j k j' : c ∈ cs → reads_member c j false k j' → reads_value (Container kd n cs) j k j'
| ReadsItem n c j i item k j' : cJSON_GetArrayItem j i = Some item → reads_value c item k j' → reads_value (List_ n c) j k j'
| ReadsItemSimple n c j i item k j' : cJSON_GetArrayItem j i = Some item → reads_value c item k j' → reads_value (ListSimple n c) j k j'
with reads_member : EebusDataCfg → cJSON → bool → SimpleKind → cJSON → Prop :=
| ReadsNamed c obj is_root item k j' : JsonGetItem obj (cfg_name c) is_root = Some item → reads_value c item k j' → reads_member c obj is_root k j'
| ReadsAlternative cs c obj is_root item k j' : c ∈ cs → JsonGetItem obj (cfg_name c) is_root = Some item → reads_value c item k j' →
    reads_member (Choice cs) obj is_root k j'.

(** A number that is not in the range of its type once its fraction is dropped, and a negative duration of which a part
    is [INT32_MIN], the negation of which overflows. *)
Definition out_of_range (signed : bool) (bits : Z) (d : double) : Prop :=
  match d with
  | Finite q => let z := Z.quot (QArith_base.Qnum q) (Zpos (QArith_base.Qden q)) in z < number_lo signed bits ∨ number_hi signed bits <= z
  | NotFinite => True
  end.
Definition duration_overflows (t : list ascii) : Prop :=
  ∃ ps d, t = "-"%char :: "P"%char :: ps ∧ parse_parts (length ps) false zero_duration ps = (kEebusErrorOk, d) ∧ - 2 ^ 31 ∈ fields d.
Definition cannot_convert (k : SimpleKind) (j : cJSON) : Prop :=
  match k with
  | KNumeric signed bits => cJSON_IsNumber j = true ∧ out_of_range signed bits (cJSON_GetNumberValue j)
  | KTime _ => ∃ s, cJSON_GetStringValue j = Some s ∧ duration_overflows (list_ascii_of_string s)
  | _ => False
  end.

Lemma negation_overflows d : EebusDurationInvertSign d = None → - 2 ^ 31 ∈ fields d.
Proof.
  unfold EebusDurationInvertSign, negate, fields. intros Hinv.
  repeat (case_bool_decide as Hx; [rewrite <- Hx; set_solver|clear Hx; cbn [mbind option_bind] in Hinv]). done.
Qed.

Lemma duration_undefined t : EebusDurationParse t = None → duration_overflows t.
Proof.
  unfold EebusDurationParse. case_bool_decide as Hneg; cbn [orb].
  - destruct t as [|c ps]; [done|]. injection Hneg as ->. cbn [tail]. destruct ps as [|c ps]; [done|].
    destruct (decide (c = "P"%char)) as [->|Hc].
    2: { destruct c as [[] [] [] [] [] [] [] []]; done. }
    destruct (parse_parts _ _ _ _) as [err d] eqn:E. destruct (decide (err = kEebusErrorOk)) as [->|Herr]; [rewrite bool_decide_false by auto|by rewrite bool_decide_true].
    intros Hinv. exists ps, d. split_and!; [done..|]. apply negation_overflows. by destruct (EebusDurationInvertSign d).
  - destruct (if bool_decide _ then tail t else t) as [|c ps]; [done|]. destruct c as [[] [] [] [] [] [] [] []]; try done.
    destruct (parse_parts _ _ _ _) as [err d]. by case_bool_decide.
Qed.

Lemma time_undefined tk t : time_parse tk t = None → duration_overflows t.
Proof.
  destruct tk; cbn [time_parse].
  - destruct (EebusDurationParse t) as [[? ?]|] eqn:E; [done|]. intros _. by apply duration_undefined.
  - by destruct (EebusDateParse t).
  - by destruct (EebusTimeParse t).
  - by destruct (EebusDateTimeParse t _).
  - unfold ParseAbsoluteOrRelativeTime. destruct (EebusDurationParse t) as [[err d]|] eqn:E; [|intros _; by apply duration_undefined].
    cbn [mbind option_bind]. destruct (is_ok err); [done|]. destruct (EebusDateTimeParse t _) as [err' dt]. by destruct (is_ok err').
Qed.

Lemma block_undefined k base j : block_from_json k base j = None → cannot_convert k j.
Proof.
  destruct k as [|signed bits|lut| |tk]; json_block.
  - done.
  - destruct (cJSON_IsNumber j) eqn:Hn; [|done]. cbn [negb]. intros E. split; [done|]. unfold JsonToNum, double_to_int in E.
    destruct (cJSON_GetNumberValue j) as [q|]; [|done]. unfold out_of_range. case_bool_decide as Hz; [done|]. cbv zeta in Hz. lia.
  - destruct (cJSON_IsString j) eqn:Hs; [|done]. cbn [negb]. apply IsString_value in Hs as [s ->]. done.
  - destruct (cJSON_IsString j) eqn:Hs; [|done]. cbn [negb]. apply IsString_value in Hs as [s ->]. done.
  - destruct (cJSON_IsString j) eqn:Hs; [|done]. cbn [negb]. apply IsString_value in Hs as [s Hv]. rewrite Hv. cbn [mbind option_bind].
    destruct (time_parse tk _) as [[err b]|] eqn:E; [by destruct (is_ok err)|]. intros _. exists s. split; [done|by eapply time_undefined].
Qed.

Definition undefined_at (cfg : EebusDataCfg) : Prop :=
  ∀ base j, from_json_item cfg base j = None → ∃ k j', reads_value cfg j k j' ∧ cannot_convert k j'.
Definition undefined_in (cfg : EebusDataCfg) : Prop := match cfg with Choice cs => Forall undefined_at cs | _ => undefined_at cfg end.

Lemma choice_undefined obj r cs : Forall undefined_at cs → ∀ i base x, choice_from_json from_json_item obj r cs i base x = None →
  ∃ k j', reads_member (Choice cs) obj r k j' ∧ cannot_convert k j'.
Proof.
  induction 1 as [|c cs Hc _ IH]; intros i base x; [done|]. cbn [choice_from_json].
  destruct (JsonGetItem obj (cfg_name c) r) as [item|] eqn:Hi.
  - destruct (from_json_item c x item) as [[err x']|] eqn:E; [done|]. intros _. destruct (Hc _ _ E) as (k & j' & Hr & Hk).
    exists k, j'. split; [|done]. eapply ReadsAlternative; [left|exact Hi|exact Hr].
  - intros (k & j' & Hr & Hk)%IH. exists k, j'. split; [|done]. inversion Hr as [? ? ? ? ? ? _ Hv|]; subst; [by inversion Hv|].
    eapply ReadsAlternative; [right; eassumption|eassumption..].
Qed.

(** A field, which starts zeroed. *)
Lemma member_undefined obj r c : undefined_in c → from_json_object from_json_item obj r c (zeroed c) = None →
  ∃ k j', reads_member c obj r k j' ∧ cannot_convert k j'.
Proof.
  intros Hc. assert (∀ base, undefined_at c → (match JsonGetItem obj (cfg_name c) r with None => Some (kEebusErrorOk, base) | Some item => from_json_item c base item end) = None →
    ∃ k j', reads_member c obj r k j' ∧ cannot_convert k j') as Hitem.
  { intros base Hat. destruct (JsonGetItem obj (cfg_name c) r) as [item|] eqn:Hi; [|done]. intros (k & j' & Hr & Hk)%Hat.
    exists k, j'. split; [|done]. by eapply ReadsNamed. }
  destruct c as [| | | | | | |cs]; cbn [from_json_object zeroed]; first [done|by apply Hitem|by apply choice_undefined].
Qed.

Lemma fields_undefined obj r cs : Forall undefined_in cs → fields_from_json from_json_item obj r cs = None →
  ∃ c k j', c ∈ cs ∧ reads_member c obj r k j' ∧ cannot_convert k j'.
Proof.
  induction 1 as [|c cs Hc _ IH]; [done|]. cbn [fields_from_json]. unfold next.
  destruct (from_json_object from_json_item obj r c (zeroed c)) as [[err d]|] eqn:E.
  - cbn [mbind option_bind]. destruct (is_ok err); [|done]. destruct (fields_from_json _ _ _ _) as [[err' l]|]; [done|]. intros _.
    destruct (IH eq_refl) as (c' & k & j' & Hin & ?). exists c', k, j'. split; [by right|done].
  - intros _. destruct (member_undefined _ _ _ Hc E) as (k & j' & ?). exists c, k, j'. split; [left|done].
Qed.

Lemma structure_undefined j cs : Forall undefined_in cs →
  (if cJSON_IsArray j then into Struct (fields_from_json from_json_item j false cs) else Some (kEebusErrorParse, Null)) = None ∨
  fields_from_json from_json_item j false cs = None → ∃ c k j', c ∈ cs ∧ reads_member c j false k j' ∧ cannot_convert k j'.
Proof.
  intros Hcs [E|E]; [|by apply (fields_undefined _ false)]. destruct (cJSON_IsArray j); [|done]. apply (fields_undefined _ false); [done|].
  by destruct (fields_from_json _ _ _ _) as [[? ?]|].
Qed.

Lemma items_undefined c j n : undefined_at c → ∀ i, (i + n ≤ cJSON_GetArraySize j)%nat → items_from_json (from_json_item c) j i n = None →
  ∃ i item k j', cJSON_GetArrayItem j i = Some item ∧ reads_value c item k j' ∧ cannot_convert k j'.
Proof.
  intros Hc. induction n as [|n IH]; intros i Hi; [done|]. cbn [items_from_json]. destruct (GetArrayItem_below j i) as [item Hitem]; [lia|].
  rewrite Hitem. cbn [mbind option_bind]. unfold next. destruct (from_json_item c Null item) as [[err d]|] eqn:E.
  - cbn [mbind option_bind]. destruct (is_ok err); [|done]. destruct (items_from_json _ _ _ _) as [[err' l]|] eqn:El; [done|]. intros _.
    apply (IH (S i)); [lia|done].
  - intros _. destruct (Hc _ _ E) as (k & j' & ?). by exists i, item, k, j'.
Qed.

Lemma list_undefined c base j : undefined_at c → from_json_item (List_ EmptyString c) base j = None →
  ∃ i item k j', cJSON_GetArrayItem j i = Some item ∧ reads_value c item k j' ∧ cannot_convert k j'.
Proof.
  intros Hc. cbn [from_json_item]. destruct (cJSON_IsArray j); [|done]. cbn [negb]. destruct (_ =? 0)%nat; [done|].
  destruct (CreateListBuffer _); [|done]. destruct (items_from_json _ _ _ _) as [[err l]|] eqn:E; [done|]. intros _.
  by apply (items_undefined c j (cJSON_GetArraySize j) Hc 0).
Qed.

(** Reading is undefined only at a value that cannot be converted. *)
Lemma all_undefined cfg : undefined_in cfg.
Proof.
  induction cfg as [n f k|n|n|n f cs IH|kd n cs IH|n c IH|n c IH|cs IH] using cfg_ind'.
  - intros base j E%block_undefined. exists k, j. split; [constructor|done].
  - intros base j. cbn [from_json_item]. unfold tag_from_json. by destruct (_ && _).
  - done.
  - intros base j E. destruct (structure_undefined j cs IH) as (c & k & j' & Hin & Hr & Hk); [|exists k, j'; split; [by eapply ReadsField|done]].
    cbn [from_json_item] in E. left. by destruct (cJSON_IsArray j).
  - intros base j E. destruct (structure_undefined j cs IH) as (c & k & j' & Hin & Hr & Hk); [|exists k, j'; split; [by eapply ReadsContainer|done]].
    cbn [from_json_item] in E. left. by destruct (cJSON_IsArray j).
  - intros base j E. assert (undefined_at c) as Hc by (by destruct c).
    destruct (list_undefined c base j Hc E) as (i & item & k & j' & Hi & Hr & Hk). exists k, j'. split; [by eapply ReadsItem|done].
  - intros base j E. assert (undefined_at c) as Hc by (by destruct c).
    destruct (list_undefined c base j Hc E) as (i & item & k & j' & Hi & Hr & Hk). exists k, j'. split; [by eapply ReadsItemSimple|done].
  - cbn. eapply Forall_impl; [exact IH|]. intros c Hc. by destruct c.
Qed.

Lemma parse_undefined cfg s : is_choice cfg = false → EebusDataParse cfg s = None →
  ∃ json k j, cJSON_Parse s = Some json ∧ reads_member cfg json true k j ∧ cannot_convert k j.
Proof.
  intros Hc. unfold EebusDataParse. destruct (cJSON_Parse s) as [json|]; [|done].
  rewrite <- (zeroed_not_choice cfg Hc). destruct (from_json_object _ _ _ _ _) as [[err d]|] eqn:E; [done|]. intros _.
  destruct (member_undefined _ _ _ (all_undefined cfg) E) as (k & j & ?). by exists json, k, j.
Qed.
End round_trip.
