(* ===== verification/SpineFunction.v ===== *)
(** * Functions, filters and commands ([spine/function/function.c], [spine/model/])

    A function of a feature holds data of its type.  A command carries such data, and filters
    say which part of it is meant.  [UpdateData] applies a command to a function,
    the [Create...Cmd] make commands of it: so two devices keep copies of the same data.

    The tables of the SPINE types are arguments ([SpineModel]); memory is there. *)

From S2P Require Import Prelude Duration DateTime EebusData EebusDataWrite EebusDataFacts EebusDataMerge.

Local Open Scope list_scope.

(** ** The tables

    A [FunctionType] is the index into each of the three tables. *)

Class SpineModel := {
  data_choice_data_cfg : list EebusDataCfg;
  data_selectors_choice_data_cfg : list EebusDataCfg;
  data_elements_choice_data_cfg : list EebusDataCfg;
  function_lut : list (string * Z);
}.

Section model.
Context {M : SpineModel}.

Definition ModelGetDataCfg (function_type : nat) : option EebusDataCfg := data_choice_data_cfg !! function_type.
Definition ModelGetDataSelectorsCfg (function_type : nat) : option EebusDataCfg :=
  data_selectors_choice_data_cfg !! function_type.
Definition ModelGetDataElementsCfg (function_type : nat) : option EebusDataCfg :=
  data_elements_choice_data_cfg !! function_type.

Definition cmd_control_cfg : list EebusDataCfg := [Tag "delete"; Tag "partial"].
Definition filter_cfg : list EebusDataCfg :=
  [ Simple "filterId" 0 (KNumeric false 32);
    Sequence "cmdControl" 0 cmd_control_cfg;
    Choice data_selectors_choice_data_cfg;
    Choice data_elements_choice_data_cfg ].
Definition GetFilterCfg : EebusDataCfg := Sequence "filter" 0 filter_cfg.
Definition filter_element_data_cfg : EebusDataCfg := Sequence "" 0 filter_cfg.
Definition cmd_cfg : list EebusDataCfg :=
  [ Simple "function" 0 (KEnum function_lut);
    List_ "filter" filter_element_data_cfg;
    Choice data_choice_data_cfg;
    Simple "lastUpdateAt" 0 (KTime TAbsoluteOrRelative);
    Simple "manufacturerSpecificExtension" 0 KString ].
Definition cmd_element_data_cfg : EebusDataCfg := Sequence "" 0 cmd_cfg.
End model.

(** What [EEBUS_DATA_CREATE_EMPTY] leaves; a simple block would be zeroed, but the tables have no
    function of a simple kind. *)
Definition create_empty_data (cfg : EebusDataCfg) : Data :=
  match cfg with Sequence _ _ cs | Container _ _ cs => Struct (create_empty cs) | _ => Null end.

(** ** C structures as data

    A structure of the source is a record here; its data is the encoding by which the tables see it. *)

Definition num_data (z : Z) : Data := Leaf (BInt z).
Definition str_data (s : string) : Data := Leaf (BString s).
Definition flag_data (b : bool) : Data := num_data (if b then 1 else 0).
Definition time_data (t : AbsoluteOrRelativeTimeType) : Data := Leaf (BAbsoluteOrRelative t).
Definition tag (b : bool) : Data := if b then TagSet else Null.
(** A pointer that may be NULL, an array. *)
Definition opt {A} (f : A → Data) (x : option A) : Data := from_option f Null x.
Definition array {A} (f : A → Data) (l : list A) : Data := match l with [] => Null | _ => Array (f <$> l) end.

Definition data_num (d : Data) : option Z := match d with Leaf (BInt z) => Some z | _ => None end.
Definition data_str (d : Data) : option string := match d with Leaf (BString s) => Some s | _ => None end.
Definition data_flag (d : Data) : option bool := match d with Leaf (BInt z) => Some (negb (z =? 0)%Z) | _ => None end.
Definition data_time (d : Data) : option AbsoluteOrRelativeTimeType :=
  match d with Leaf (BAbsoluteOrRelative t) => Some t | _ => None end.
Definition is_tag_set (d : Data) : bool := match d with TagSet => true | _ => false end.
Definition read_opt {A} (f : Data → option A) (d : Data) : option (option A) :=
  match d with Null => Some None | _ => Some <$> f d end.
Definition read_array {A} (f : Data → option A) (d : Data) : option (list A) :=
  match d with Null => Some [] | Array l => mapM f l | _ => None end.

Lemma read_opt_opt {A} (f : A → Data) g x :
  (∀ a, g (f a) = Some a) → (∀ a, f a ≠ Null) → read_opt g (opt f x) = Some x.
Proof.
  intros Hgf Hn. destruct x as [a|]; [|done]. simpl. specialize (Hn a). unfold read_opt. rewrite Hgf. by destruct (f a).
Qed.

Lemma read_items {A} (f : A → Data) g l : (∀ a, g (f a) = Some a) → mapM g (f <$> l) = Some l.
Proof. intros Hgf. apply mapM_Some. apply Forall2_fmap_l, Forall_Forall2_diag, Forall_true. intros x. apply Hgf. Qed.

Lemma read_array_array {A} (f : A → Data) g l : (∀ a, g (f a) = Some a) → read_array g (array f l) = Some l.
Proof. intros Hgf. destruct l as [|a l]; [done|]. by apply (read_items f g (a :: l)). Qed.

(** ** Operations ([spine/feature/operations.c]) *)

Record Operations := mkOperations { op_read : bool; op_read_partial : bool; op_write : bool; op_write_partial : bool }.

Definition OperationsToString (self : Operations) : string :=
  if op_read self && negb (op_write self) then "RO" else if op_read self && op_write self then "RW" else "--".

(** [PossibleOperationsType]: for each of read and write, whether it is there, and its partial tag. *)
Definition PossibleOperationsCreate (read read_partial write write_partial : bool) : option bool * option bool :=
  (if read then Some read_partial else None, if write then Some write_partial else None).
Definition OperationsGetInformation (self : Operations) : option bool * option bool :=
  PossibleOperationsCreate (op_read self) (op_read_partial self) (op_write self) (op_write_partial self).

(** ** Filters ([spine/model/filter.c]) *)

Record CmdControlType := mkCmdControl { partial : bool; delete_ : bool }.

Record FilterType := mkFilter {
  filter_id : option Z;
  cmd_ctrl : option CmdControlType;
  data_selectors_choice_type_id : nat;
  data_selectors_choice : Data;
  data_elements_choice_type_id : nat;
  data_elements_choice : Data;
}.

Definition ctrl_partial : CmdControlType := mkCmdControl true false.
Definition ctrl_delete : CmdControlType := mkCmdControl false true.

Inductive FilterTypeType := kFilterTypeUndefined | kFilterTypePartial | kFilterTypeDelete.
#[export] Instance FilterTypeType_eq_dec : EqDecision FilterTypeType.
Proof. solve_decision. Defined.

Definition FilterGetType (filter : FilterType) : FilterTypeType :=
  match cmd_ctrl filter with
  | None => kFilterTypeUndefined
  | Some c =>
      if partial c && delete_ c then kFilterTypeUndefined
      else if partial c then kFilterTypePartial
      else if delete_ c then kFilterTypeDelete
      else kFilterTypeUndefined
  end.

Definition ctrl_data (c : CmdControlType) : Data := Struct [tag (delete_ c); tag (partial c)].
Definition data_ctrl (d : Data) : option CmdControlType :=
  match d with Struct [d; p] => Some (mkCmdControl (is_tag_set p) (is_tag_set d)) | _ => None end.

Definition filter_data (f : FilterType) : Data :=
  Struct [ opt num_data (filter_id f); opt ctrl_data (cmd_ctrl f);
           Chosen (data_selectors_choice_type_id f) (data_selectors_choice f);
           Chosen (data_elements_choice_type_id f) (data_elements_choice f) ].
Definition data_filter (d : Data) : option FilterType :=
  match d with
  | Struct [id; ctrl; Chosen i s; Chosen j e] =>
      id ← read_opt data_num id; ctrl ← read_opt data_ctrl ctrl; Some (mkFilter id ctrl i s j e)
  | _ => None
  end.

Lemma data_filter_data f : data_filter (filter_data f) = Some f.
Proof. by destruct f as [[] [[[] []]|]]. Qed.

(** ** Commands ([spine/model/cmd.c]) *)

Record CmdType := mkCmd {
  cmd_function : option nat;
  cmd_filter : list FilterType;
  data_choice_type_id : nat;
  data_choice : Data;
  last_update_at : option AbsoluteOrRelativeTimeType;
  manufacturer_specific_extension : option string;
}.

Definition CmdCreateEmpty : CmdType := mkCmd None [] 0 Null None None.

(** The first filter of the type; NULL is [None]. *)
Definition CmdGetFilterWithType (cmd : CmdType) (filter_type : FilterTypeType) : option FilterType :=
  snd <$> list_find (λ f, FilterGetType f = filter_type) (cmd_filter cmd).
Definition CmdGetFilterPartial (cmd : CmdType) : option FilterType := CmdGetFilterWithType cmd kFilterTypePartial.
Definition CmdGetFilterDelete (cmd : CmdType) : option FilterType := CmdGetFilterWithType cmd kFilterTypeDelete.

Definition cmd_data (cmd : CmdType) : Data :=
  Struct [ opt (λ f, num_data (Z.of_nat f)) (cmd_function cmd);
           array filter_data (cmd_filter cmd);
           Chosen (data_choice_type_id cmd) (data_choice cmd);
           opt time_data (last_update_at cmd);
           opt str_data (manufacturer_specific_extension cmd) ].
Definition data_cmd (d : Data) : option CmdType :=
  match d with
  | Struct [f; l; Chosen i c; t; e] =>
      f ← read_opt data_num f; l ← read_array data_filter l;
      t ← read_opt data_time t; e ← read_opt data_str e;
      Some (mkCmd (Z.to_nat <$> f) l i c t e)
  | _ => None
  end.

Lemma data_cmd_data c : data_cmd (cmd_data c) = Some c.
Proof.
  destruct c as [f l i d t e]. unfold cmd_data, data_cmd.
  cbn [cmd_function cmd_filter data_choice_type_id data_choice last_update_at manufacturer_specific_extension].
  rewrite read_array_array by apply data_filter_data. rewrite !read_opt_opt by done.
  destruct f as [f|], t, e; simpl; by rewrite ?Nat2Z.id.
Qed.

Section functions.
Context `{Allocator} {M : SpineModel}.

(** A pointer that is NULL is [None] inside; [None] outside is undefined behaviour. *)
Definition FilterCreate (function_type : nat) (id : option Z) (ctrl : option CmdControlType)
    (selectors elements : Data) : option (option FilterType) :=
  let filter_tmp := mkFilter id ctrl function_type selectors function_type elements in
  '(err, d) ← copy GetFilterCfg (filter_data filter_tmp) Null;
  if is_ok err then f ← data_filter d; Some (Some f) else Some None.

Definition FilterPartialCreate (function_type : nat) (id : option Z) (selectors elements : Data) :=
  FilterCreate function_type id (Some ctrl_partial) selectors elements.
Definition FilterDeleteCreate (function_type : nat) (id : option Z) (selectors elements : Data) :=
  FilterCreate function_type id (Some ctrl_delete) selectors elements.

Definition CmdCopy (cmd : CmdType) : option (option CmdType) :=
  '(err, d) ← copy cmd_element_data_cfg (cmd_data cmd) Null;
  if is_ok err then c ← data_cmd d; Some (Some c) else Some None.

Definition CmdAddFilterPartialEmpty (cmd : CmdType) : option (EebusError * CmdType) :=
  f ← FilterPartialCreate 0 None Null Null;
  Some (match f with
        | Some f => (kEebusErrorOk, mkCmd (cmd_function cmd) [f] (data_choice_type_id cmd) (data_choice cmd)
                                          (last_update_at cmd) (manufacturer_specific_extension cmd))
        | None => (kEebusErrorMemoryAllocate, mkCmd (cmd_function cmd) [] (data_choice_type_id cmd) (data_choice cmd)
                                          (last_update_at cmd) (manufacturer_specific_extension cmd))
        end).

(** ** Functions *)

Record Function := mkFunction { type : nat; data : Data; operations : option Operations }.

Definition set_function_data (d : Data) (self : Function) : Function := mkFunction (type self) d (operations self).

Definition FunctionCreate (function_type : nat) : option Function :=
  cfg ← ModelGetDataCfg function_type; Some (mkFunction function_type (create_empty_data cfg) None).

(** Only once. *)
Definition SetOperations (read read_partial write write_partial : bool) (self : Function) : Function :=
  match operations self with
  | Some _ => self
  | None => mkFunction (type self) (data self) (Some (mkOperations read read_partial write write_partial))
  end.

Definition DataCopy (self : Function) : option Data :=
  cfg ← ModelGetDataCfg (type self);
  '(err, d) ← copy cfg (data self) Null;
  Some (if is_ok err then d else Null).

Definition UpdateData (self : Function) (new_data : Data) (filter_partial filter_delete : option FilterType)
    (wr_remote persist : bool) : option (EebusError * Function) :=
  cfg ← ModelGetDataCfg (type self);
  match filter_partial, filter_delete, persist with
  | None, None, true =>
      '(err, d) ← write cfg (delete cfg (data self)) new_data; Some (err, set_function_data d self)
  | _, _, _ =>
      self ← (match filter_delete with
              | None => Some self
              | Some f =>
                  scfg ← ModelGetDataSelectorsCfg (type self); ecfg ← ModelGetDataElementsCfg (type self);
                  d ← delete_partial cfg (data self) scfg (data_selectors_choice f) ecfg (data_elements_choice f);
                  Some (set_function_data d self)
              end);
      match filter_partial with
      | None => Some (kEebusErrorOk, self)
      | Some f =>
          scfg ← ModelGetDataSelectorsCfg (type self);
          '(err, d) ← write_partial cfg (data self) new_data (Some (scfg, data_selectors_choice f));
          Some (err, set_function_data d self)
      end
  end.

(** *** Commands made of a function *)

Definition AddDataToReadCmd (self : Function) (cmd : CmdType) : option (EebusError * CmdType) :=
  cfg ← ModelGetDataCfg (type self);
  let d := create_empty_data cfg in
  Some (if null d then kEebusErrorMemoryAllocate else kEebusErrorOk,
        mkCmd (cmd_function cmd) (cmd_filter cmd) (type self) d (last_update_at cmd) (manufacturer_specific_extension cmd)).

Definition AddFilterToReadCmd (self : Function) (cmd : CmdType) (filter_partial : option FilterType) :
    option (EebusError * CmdType) :=
  match filter_partial with
  | None => Some (kEebusErrorOk, cmd)
  | Some f =>
      p ← FilterPartialCreate (data_choice_type_id cmd) (filter_id f) (data_selectors_choice f) (data_elements_choice f);
      Some (match p with
            | None => (kEebusErrorMemoryAllocate, cmd)
            | Some p => (kEebusErrorOk, mkCmd (Some (type self)) [p] (data_choice_type_id cmd) (data_choice cmd)
                                              (last_update_at cmd) (manufacturer_specific_extension cmd))
            end)
  end.

Definition CreateReadCmd (self : Function) (filter_partial : option FilterType) : option (option CmdType) :=
  '(err, cmd) ← AddDataToReadCmd self CmdCreateEmpty;
  if negb (is_ok err) then Some None
  else '(err, cmd) ← AddFilterToReadCmd self cmd filter_partial; Some (if is_ok err then Some cmd else None).

Definition CreateReplyCmd (self : Function) : option (option CmdType) :=
  cfg ← ModelGetDataCfg (type self);
  '(err, d) ← copy cfg (data self) (data_choice CmdCreateEmpty);
  Some (if is_ok err then Some (mkCmd None [] (type self) d None None) else None).

Definition AddDataToWriteCmd (self : Function) (cmd : CmdType) (new_data : Data) : option (EebusError * CmdType) :=
  cfg ← ModelGetDataCfg (type self);
  '(err, d) ← copy cfg new_data (data_choice cmd);
  Some (err, mkCmd (cmd_function cmd) (cmd_filter cmd) (type self) d (last_update_at cmd) (manufacturer_specific_extension cmd)).

(** The elements of a partial filter are not sent. *)
Definition AddFiltersToWriteCmd (self : Function) (cmd : CmdType) (filter_partial filter_delete : option FilterType) :
    option (EebusError * CmdType) :=
  match filter_partial, filter_delete with
  | None, None => Some (kEebusErrorOk, cmd)
  | _, _ =>
      p ← (match filter_partial with
           | None => Some (Some [])
           | Some f =>
               p ← FilterPartialCreate (data_choice_type_id cmd) (filter_id f) (data_selectors_choice f) Null;
               Some (p ← p; Some [p])
           end);
      d ← (match p, filter_delete with
           | Some p, Some f =>
               d ← FilterDeleteCreate (data_choice_type_id cmd) (filter_id f) (data_selectors_choice f) (data_elements_choice f);
               Some (d ← d; Some (p ++ [d]))
           | _, _ => Some p
           end);
      Some (match d with
            | None => (kEebusErrorMemoryAllocate, cmd)
            | Some l => (kEebusErrorOk, mkCmd (Some (type self)) l (data_choice_type_id cmd) (data_choice cmd)
                                              (last_update_at cmd) (manufacturer_specific_extension cmd))
            end)
  end.

Definition CreateWriteCmd (self : Function) (new_data : Data) (filter_partial filter_delete : option FilterType) :
    option (option CmdType) :=
  '(err, cmd) ← AddDataToWriteCmd self CmdCreateEmpty new_data;
  if negb (is_ok err) then Some None
  else
    '(err, cmd) ← AddFiltersToWriteCmd self cmd filter_partial filter_delete;
    Some (if is_ok err then Some cmd else None).

Definition CreateNotifyCmd (self : Function) (new_data : Data) (filter_partial filter_delete : option FilterType) :
    option (option CmdType) :=
  CreateWriteCmd self new_data filter_partial filter_delete.
End functions.
