(* ===== verification/SpineReplica.v ===== *)
(** * Commands carry what they are made of

    Filters and commands come out of the copies as they went in, and a notification, or a
    reply, makes the data of a copy of the function equal to that of the function. *)

From S2P Require Import Prelude Duration DateTime EebusData EebusDataWrite EebusDataFacts EebusDataMerge SpineFunction.

Local Open Scope list_scope.

Section replica.
Context `{Allocator} {M : SpineModel}.

(** The tables are of the same length and their entries are no choices. *)
Definition entries_ok (cs : list EebusDataCfg) : Prop :=
  cs ≠ [] ∧ Forall (λ c, cfg_ok c = true ∧ is_choice c = false) cs.

Record model_ok : Prop := {
  model_data : entries_ok data_choice_data_cfg;
  model_selectors : entries_ok data_selectors_choice_data_cfg;
  model_elements : entries_ok data_elements_choice_data_cfg;
  model_selectors_length : length data_selectors_choice_data_cfg = length data_choice_data_cfg;
  model_elements_length : length data_elements_choice_data_cfg = length data_choice_data_cfg;
}.

(** Data of one of the entries of a table. *)
Definition data_of (cs : list EebusDataCfg) (t : nat) (d : Data) : Prop :=
  ∃ c, cs !! t = Some c ∧ typed c d = true ∧ fits d = true.

Definition is_u32 (id : option Z) : bool := from_option (λ z, (0 <=? z) && (z <? 2 ^ 32))%Z true id.

(** Selectors and elements are those of the function type. *)
Record filter_of (t : nat) (f : FilterType) : Prop := {
  filter_id_u32 : is_u32 (filter_id f) = true;
  filter_selectors : data_of data_selectors_choice_data_cfg t (data_selectors_choice f);
  filter_elements : data_of data_elements_choice_data_cfg t (data_elements_choice f);
}.

Lemma entries_choice cs : entries_ok cs → cfg_ok (Choice cs) = true.
Proof.
  intros [Hne Hall]. simpl. rewrite bool_decide_false by done. simpl. apply forallb_forall. intros c Hc%list_elem_of_In.
  rewrite Forall_forall in Hall. destruct (Hall c Hc) as [-> ->]. done.
Qed.

Lemma filter_cfg_ok : model_ok → cfg_ok GetFilterCfg = true.
Proof.
  intros Hm. cbn [cfg_ok GetFilterCfg filter_cfg forallb cmd_control_cfg].
  pose proof (entries_choice _ (model_selectors Hm)) as Hs. pose proof (entries_choice _ (model_elements Hm)) as He.
  cbn [cfg_ok] in *. by rewrite Hs, He.
Qed.

Lemma data_of_chosen cs t d : data_of cs t d → typed (Choice cs) (Chosen t d) = true.
Proof. intros (c & Hc & Ht & _). cbn [typed]. by rewrite pick_lookup, Hc. Qed.

Lemma filter_data_typed t f ctrl : filter_of t f → ∀ e, data_of data_elements_choice_data_cfg t e →
  typed GetFilterCfg (filter_data (mkFilter (filter_id f) ctrl t (data_selectors_choice f) t e)) = true ∧
  fits (filter_data (mkFilter (filter_id f) ctrl t (data_selectors_choice f) t e)) = true.
Proof.
  intros Hf e He.
  pose proof (filter_selectors t f Hf) as Hs. pose proof (data_of_chosen _ t _ Hs) as Hts. pose proof (data_of_chosen _ t _ He) as Hte.
  destruct Hs as (_ & _ & _ & Hfs), He as (_ & _ & _ & Hfe).
  pose proof (filter_id_u32 t f Hf) as Hid. split.
  - cbn [typed GetFilterCfg filter_cfg forall2b filter_data filter_id data_selectors_choice data_elements_choice cmd_ctrl
         data_selectors_choice_type_id data_elements_choice_type_id cmd_control_cfg] in *.
    rewrite Hts, Hte. destruct (filter_id f); simpl in *; destruct ctrl as [[[] []]|]; simpl; by rewrite ?Hid.
  - simpl. rewrite Hfs, Hfe. destruct (filter_id f), ctrl as [[[] []]|]; done.
Qed.

(** A filter is made as it is asked for. *)
Lemma FilterCreate_exact t f ctrl e : model_ok → filter_of t f → data_of data_elements_choice_data_cfg t e →
  FilterCreate t (filter_id f) ctrl (data_selectors_choice f) e =
    Some (Some (mkFilter (filter_id f) ctrl t (data_selectors_choice f) t e)).
Proof.
  intros Hm Hf He. destruct (filter_data_typed t f ctrl Hf e He) as [Ht Hfi].
  unfold FilterCreate, copy. rewrite write_copies; try done; [|by apply filter_cfg_ok].
  cbn [mbind option_bind is_ok]. by rewrite data_filter_data.
Qed.

Lemma no_elements t f : model_ok → filter_of t f → data_of data_elements_choice_data_cfg t Null.
Proof.
  intros Hm [_ _ (c & Hc & _)]. exists c. split_and!; [done| |done]. apply typed_null.
  destruct (model_elements Hm) as [_ Hall]. rewrite Forall_forall in Hall. by apply Hall; eapply list_elem_of_lookup_2.
Qed.

Lemma copy_exact t d : model_ok → data_of data_choice_data_cfg t d →
  ∃ cfg, ModelGetDataCfg t = Some cfg ∧ copy cfg d Null = Some (kEebusErrorOk, d) ∧
    ∀ base, delete cfg base = Null ∨ cfg = Stub (cfg_name cfg).
Proof.
  intros Hm (c & Hc & Ht & Hf). exists c. split; [done|].
  destruct (model_data Hm) as [_ Hall]. rewrite Forall_forall in Hall.
  destruct (Hall c) as [Hok Hnc]; [by eapply list_elem_of_lookup_2|]. split.
  - apply write_copies; try done. by apply typed_null.
  - intros base. destruct c; try done; (by left) || (by right).
Qed.

(** The command of a notification or a write. *)
Definition sent_partial (t : nat) (f : FilterType) : FilterType :=
  mkFilter (filter_id f) (Some ctrl_partial) t (data_selectors_choice f) t Null.
Definition sent_delete (t : nat) (f : FilterType) : FilterType :=
  mkFilter (filter_id f) (Some ctrl_delete) t (data_selectors_choice f) t (data_elements_choice f).
Definition sent_filters (t : nat) (fp fd : option FilterType) : list FilterType :=
  option_list (sent_partial t <$> fp) ++ option_list (sent_delete t <$> fd).

Lemma CreateWriteCmd_exact self new fp fd : model_ok → data_of data_choice_data_cfg (type self) new →
  from_option (filter_of (type self)) True fp → from_option (filter_of (type self)) True fd →
  CreateWriteCmd self new fp fd =
    Some (Some (mkCmd (if bool_decide (fp = None ∧ fd = None) then None else Some (type self))
                      (sent_filters (type self) fp fd) (type self) new None None)).
Proof.
  intros Hm Hn Hp Hd. destruct (copy_exact _ _ Hm Hn) as (cfg & Hcfg & Hcopy & _).
  unfold CreateWriteCmd, AddDataToWriteCmd. rewrite Hcfg. cbn [mbind option_bind data_choice CmdCreateEmpty].
  rewrite Hcopy. cbn [mbind option_bind is_ok negb]. unfold AddFiltersToWriteCmd, FilterPartialCreate, FilterDeleteCreate.
  destruct fp as [p|], fd as [d|]; cbn [from_option data_choice_type_id] in *;
    repeat (rewrite FilterCreate_exact; [|done|done|first [by eapply no_elements|by apply filter_elements]];
            cbn [mbind option_bind]);
    cbn [is_ok app sent_filters option_list fmap option_fmap option_map]; first [rewrite bool_decide_true by done; done | rewrite bool_decide_false by (intros [? ?]; congruence); done].
Qed.

Lemma sent_filters_found t fp fd cmd : cmd_filter cmd = sent_filters t fp fd →
  CmdGetFilterPartial cmd = sent_partial t <$> fp ∧ CmdGetFilterDelete cmd = sent_delete t <$> fd.
Proof.
  intros E. unfold CmdGetFilterPartial, CmdGetFilterDelete, CmdGetFilterWithType. rewrite E. by destruct fp, fd.
Qed.

(** The update looks at nothing of a filter but what is sent of it. *)
Lemma UpdateData_sent self new fp fd wr wr' :
  UpdateData self new (sent_partial (type self) <$> fp) (sent_delete (type self) <$> fd) wr true =
  UpdateData self new fp fd wr' true.
Proof. by destruct fp, fd. Qed.

(** What an update makes of the data. *)
Definition updated_data (t : nat) (d new : Data) (fp fd : option FilterType) (persist : bool) : R :=
  cfg ← ModelGetDataCfg t;
  match fp, fd, persist with
  | None, None, true => write cfg (delete cfg d) new
  | _, _, _ =>
      d ← (match fd with
           | None => Some d
           | Some f =>
               scfg ← ModelGetDataSelectorsCfg t; ecfg ← ModelGetDataElementsCfg t;
               delete_partial cfg d scfg (data_selectors_choice f) ecfg (data_elements_choice f)
           end);
      match fp with
      | None => Some (kEebusErrorOk, d)
      | Some f => scfg ← ModelGetDataSelectorsCfg t; write_partial cfg d new (Some (scfg, data_selectors_choice f))
      end
  end.

Lemma set_function_data_same self : set_function_data (data self) self = self.
Proof. by destruct self. Qed.

Lemma UpdateData_data self new fp fd wr persist :
  UpdateData self new fp fd wr persist =
    ('(err, d) ← updated_data (type self) (data self) new fp fd persist; Some (err, set_function_data d self)).
Proof.
  unfold UpdateData, updated_data. destruct (ModelGetDataCfg (type self)) as [cfg|]; [|done]. cbn [mbind option_bind].
  destruct fp as [p|], fd as [d|], persist; cbn [mbind option_bind]; rewrite ?set_function_data_same; try done;
    destruct (ModelGetDataSelectorsCfg (type self)) as [scfg|] eqn:Es; cbn [mbind option_bind]; try done.
  all: destruct (ModelGetDataElementsCfg (type self)) as [ecfg|]; cbn [mbind option_bind]; try done.
  all: destruct (delete_partial _ _ _ _ _ _) as [d'|]; cbn [mbind option_bind type data set_function_data]; rewrite ?Es; done.
Qed.

(** A notification of an update makes the copy of another device what the data becomes, and a
    reply makes it what the data is. *)
Lemma notify_replicates self copy_ new fp fd err self' :
  model_ok → data_of data_choice_data_cfg (type self) new →
  from_option (filter_of (type self)) True fp → from_option (filter_of (type self)) True fd →
  type copy_ = type self → data copy_ = data self →
  UpdateData self new fp fd false true = Some (err, self') →
  ∃ cmd copy', CreateNotifyCmd self' new fp fd = Some (Some cmd) ∧ data_choice_type_id cmd = type self ∧ data_choice cmd = new ∧
    UpdateData copy_ (data_choice cmd) (CmdGetFilterPartial cmd) (CmdGetFilterDelete cmd) false true = Some (err, copy') ∧
    type copy' = type self' ∧ data copy' = data self'.
Proof.
  intros Hm Hn Hp Hd Ht Hsame Hup. rewrite UpdateData_data in Hup.
  destruct (updated_data _ _ _ _ _ _) as [[err' d]|] eqn:E; [|done]. injection Hup as -> <-.
  unfold CreateNotifyCmd. rewrite CreateWriteCmd_exact by done. eexists _, (set_function_data d copy_). split_and!; try done.
  cbn [data_choice].
  match goal with |- UpdateData _ _ (CmdGetFilterPartial ?c) _ _ _ = _ =>
    destruct (sent_filters_found (type self) fp fd c eq_refl) as [-> ->] end.
  rewrite <- Ht. rewrite (UpdateData_sent copy_ new fp fd false false), UpdateData_data, Ht, Hsame, E. done.
Qed.

Lemma write_over_plain cfg base new : cfg_ok cfg = true → is_choice cfg = false → typed cfg new = true → fits new = true →
  null new = false → write cfg (delete cfg base) new = Some (kEebusErrorOk, new).
Proof.
  intros Hok Hnc Ht Hf Hn. destruct cfg; try done; try (by destruct new); by apply write_copies.
Qed.

Lemma reply_replicates self copy_ :
  model_ok → data_of data_choice_data_cfg (type self) (data self) → null (data self) = false → type copy_ = type self →
  ∃ cmd copy', CreateReplyCmd self = Some (Some cmd) ∧ data_choice_type_id cmd = type self ∧ data_choice cmd = data self ∧
    CmdGetFilterPartial cmd = None ∧ CmdGetFilterDelete cmd = None ∧
    UpdateData copy_ (data_choice cmd) None None false true = Some (kEebusErrorOk, copy') ∧
    type copy' = type self ∧ data copy' = data self.
Proof.
  intros Hm Hd Hn Ht. destruct (copy_exact _ _ Hm Hd) as (cfg & Hcfg & Hcopy & _).
  unfold CreateReplyCmd. rewrite Hcfg. cbn [mbind option_bind data_choice CmdCreateEmpty]. rewrite Hcopy. cbn [mbind option_bind is_ok].
  eexists _, (set_function_data (data self) copy_). split_and!; try done.
  unfold UpdateData. rewrite Ht, Hcfg. cbn [mbind option_bind data_choice].
  destruct Hd as (c & Hc & Hty & Hf). unfold ModelGetDataCfg in Hcfg. simplify_eq.
  destruct (model_data Hm) as [_ Hall]. rewrite Forall_forall in Hall.
  destruct (Hall c) as [Hok Hnc]; [by eapply list_elem_of_lookup_2|]. by rewrite write_over_plain.
Qed.
End replica.
