(* ===== verification/SpineTablesFacts.v ===== *)
(** * What the tables of SPINE must satisfy

    The generic operations rely on the tables: elements are matched with fields by position,
    selectors by name, JSON members by name ignoring case, enumerations both ways.  Here the
    tables are checked for it, by computation, and their exceptions named. *)

From Stdlib Require Import Ascii String.
From S2P Require Import Prelude Duration DateTime EebusData EebusDataWrite EebusDataFacts EebusDataMerge EebusDataTable StringUtil Json EebusDataJson EebusDataWire SpineFunction SpineReplica SpineTables.

Local Open Scope list_scope.

#[export] Instance spine_model : SpineModel := {
  SpineFunction.data_choice_data_cfg := SpineTables.data_choice_data_cfg;
  SpineFunction.data_selectors_choice_data_cfg := SpineTables.data_selectors_choice_data_cfg;
  SpineFunction.data_elements_choice_data_cfg := SpineTables.data_elements_choice_data_cfg;
  SpineFunction.function_lut := SpineTables.function_lut;
}.

(** ** The checks *)

(** The JSON of the data is unambiguous ([json_ok]), and no enumeration has a number twice. *)
Fixpoint numbers_once (c : EebusDataCfg) : bool :=
  match c with
  | Simple _ _ (KEnum lut) => no_dup Z.eqb (snd <$> lut)
  | Sequence _ _ cs | Container _ _ cs | Choice cs => forallb numbers_once cs
  | List_ _ c | ListSimple _ c => numbers_once c
  | _ => true
  end.

Definition unambiguous (c : EebusDataCfg) : bool := json_ok c && numbers_once c.

(** Each element has the name of the field at its position. *)
Fixpoint aligned (c e : EebusDataCfg) : bool :=
  let fix fields (cs es : list EebusDataCfg) : bool :=
    match cs, es with
    | [], [] => true
    | c :: cs, e :: es => String.eqb (cfg_name c) (cfg_name e) && aligned c e && fields cs es
    | _, _ => false
    end in
  match c, e with
  | Sequence _ _ cs, Sequence _ _ es => fields cs es
  | _, _ => true
  end.

(** What selectors and elements are about: the items of a list function, or its data. *)
Definition item_of (d : EebusDataCfg) : EebusDataCfg :=
  match d with Container KContainer _ (List_ _ c :: _) => c | Container _ n cs => Sequence n 0 cs | _ => d end.

Definition fields_of (c : EebusDataCfg) : list string := match c with Sequence _ _ cs => cfg_name <$> cs | _ => [] end.

(** The selectors no field has the name of. *)
Definition unknown_selectors (d s : EebusDataCfg) : list string :=
  filter (λ n, negb (existsb (String.eqb n) (fields_of (item_of d))) = true) (fields_of s).

Definition string_minus_list (s : string) : string :=
  match index 0 "ListData" s with
  | Some i => substring 0 i s ++ "Data" ++ substring (i + 8) (String.length s) s
  | None => s
  end%string.

(** Names of a function: [xData] or [xListData], its selectors [..Selectors], its elements [xDataElements]. *)
Definition names_agree (d s e : EebusDataCfg) : bool :=
  String.eqb (cfg_name s) (cfg_name d ++ "Selectors") &&
  (String.eqb (cfg_name e) (string_minus_list (cfg_name d) ++ "Elements") || String.eqb (cfg_name e) (cfg_name d ++ "Elements")).

(** The member of a list function [xListData] is [xData]. *)
Definition list_named (d : EebusDataCfg) : bool :=
  match d with
  | Container KContainer n (List_ l _ :: _) => String.eqb l (string_minus_list n)
  | _ => true
  end.

(** ** Exceptions *)

(** Their lists have names of their own. *)
Definition irregular_lists : list string :=
  ["alarmListData"; "directControlActivityListData"; "powerTimeSlotValueListData"; "supplyConditionThresholdRelationListData"].
(** Selectors no field has the name of; those of nested lists among them. *)
Definition with_unknown_selectors : list (string * list string) :=
  [ ("directControlActivityListData", ["timestampInterval"]); ("incentiveListData", ["timestampInterval"]);
    ("loadControlEventListData", ["timestampInterval"]); ("loadControlStateListData", ["timestampInterval"]);
    ("measurementListData", ["timestampInterval"]); ("measurementSeriesListData", ["timestampInterval"]);
    ("messagingListData", ["timestampInterval"]); ("powerSequencePriceListData", ["potentialStartTimeInterval"]);
    ("sensingListData", ["timestampInterval"]); ("supplyConditionListData", ["timestampInterval"]);
    ("timeSeriesListData", ["timeSeriesSlotId"]);
    ("incentiveTableConstraintsData", ["tariff"]); ("incentiveTableData", ["tariff"]);
    ("incentiveTableDescriptionData", ["tariffDescription"]);
    ("smartEnergyManagementPsData",
      ["alternativesRelation"; "powerSequenceDescription"; "powerTimeSlotSchedule"; "powerTimeSlotValue"]) ].
(** One field more than elements. *)
Definition misaligned : list string :=
  ["deviceConfigurationKeyValueConstraintsListData"; "deviceConfigurationKeyValueListData"].

Definition is_in (s : string) (l : list string) : bool := existsb (String.eqb s) l.

Definition entry_ok (d s e : EebusDataCfg) : bool :=
  cfg_ok d && cfg_ok s && cfg_ok e &&
  negb (is_choice d) && negb (is_choice s) && negb (is_choice e) &&
  plain d && plain s && plain e &&
  unambiguous d && unambiguous s && unambiguous e && names_agree d s e &&
  Bool.eqb (list_named d) (negb (is_in (cfg_name d) irregular_lists)) &&
  Bool.eqb (aligned (item_of d) e) (negb (is_in (cfg_name d) misaligned)) &&
  bool_decide (unknown_selectors d s =
    from_option snd [] (find (λ x, String.eqb (fst x) (cfg_name d)) with_unknown_selectors)).

Definition table : list (EebusDataCfg * (EebusDataCfg * EebusDataCfg)) :=
  zip SpineTables.data_choice_data_cfg (zip SpineTables.data_selectors_choice_data_cfg SpineTables.data_elements_choice_data_cfg).

Lemma table_ok : forallb (λ x, entry_ok (fst x) (fst (snd x)) (snd (snd x))) table = true.
Proof. by vm_compute. Qed.

Lemma table_lookup t d : ModelGetDataCfg t = Some d →
  ∃ s e, ModelGetDataSelectorsCfg t = Some s ∧ ModelGetDataElementsCfg t = Some e ∧ entry_ok d s e = true.
Proof.
  unfold ModelGetDataCfg, ModelGetDataSelectorsCfg, ModelGetDataElementsCfg. intros Hd. apply lookup_lt_Some in Hd as Ht.
  assert (length SpineTables.data_choice_data_cfg = 143 ∧ length SpineTables.data_selectors_choice_data_cfg = 143 ∧
    length SpineTables.data_elements_choice_data_cfg = 143) as (Ld & Ls & Le) by by vm_compute.
  change (length SpineFunction.data_choice_data_cfg) with (length SpineTables.data_choice_data_cfg) in Ht.
  destruct (lookup_lt_is_Some_2 SpineTables.data_selectors_choice_data_cfg t) as [s Hs]; [lia|].
  destruct (lookup_lt_is_Some_2 SpineTables.data_elements_choice_data_cfg t) as [e He]; [lia|].
  exists s, e. split_and!; [done|done|]. pose proof table_ok as Hok. rewrite forallb_forall in Hok.
  apply (Hok (d, (s, e))). apply list_elem_of_In, (list_elem_of_lookup_2 _ t). unfold table.
  apply lookup_zip_with_Some. exists d, (s, e). split_and!; [done|exact Hd|]. apply lookup_zip_with_Some. by exists s, e.
Qed.

(** The three tables agree about a function. *)
Record consistent (d s e : EebusDataCfg) : Prop := {
  function_cfg_ok : cfg_ok d = true ∧ plain d = true ∧ plain s = true ∧ plain e = true;
  function_unambiguous : unambiguous d = true ∧ unambiguous s = true ∧ unambiguous e = true;
  function_names : names_agree d s e = true;
  function_elements : aligned (item_of d) e = true ↔ is_in (cfg_name d) misaligned = false;
  function_selectors : unknown_selectors d s =
    from_option snd [] (find (λ x, String.eqb (fst x) (cfg_name d)) with_unknown_selectors);
}.

(** C25: in the tables of all 143 functions of SPINE no two members of a sequence have names that differ
    in case at most, no enumeration has a name or a number twice, the selectors and elements carry the name of the
    function, no choice is nested; every element has the name of the field at its position, but for two
    functions with a field more, and every selector of a list that of a field, but for the intervals and nested
    lists that are named. *)
Theorem spine_tables_consistent (t : nat) (d : EebusDataCfg) :
  ModelGetDataCfg t = Some d →
  t < 143 ∧ ∃ s e, ModelGetDataSelectorsCfg t = Some s ∧ ModelGetDataElementsCfg t = Some e ∧ consistent d s e.
Proof.
  intros Hd. destruct (table_lookup t d Hd) as (s & e & Hs & He & Hok). split.
  { apply lookup_lt_Some in Hd. replace 143 with (length SpineTables.data_choice_data_cfg) by by vm_compute. done. }
  exists s, e. split_and!; [done|done|]. unfold entry_ok in Hok. rewrite !andb_true_iff, bool_decide_eq_true, !eqb_true_iff in Hok.
  constructor; try (repeat split; tauto).
  destruct Hok as [[_ Ha] _]. rewrite Ha. by destruct (is_in _ _).
Qed.

Lemma spine_tables_consistent_witness :
  46 < 143 ∧ ∃ s e, ModelGetDataSelectorsCfg 46 = Some s ∧ ModelGetDataElementsCfg 46 = Some e ∧
    consistent (Container KContainer "loadControlLimitListData" load_control_limit_list_data_cfg) s e.
Proof. apply spine_tables_consistent. by vm_compute. Defined.

Lemma spine_model_ok : model_ok.
Proof.
  assert (∀ cs, negb (bool_decide (cs = [])) && forallb (λ c, cfg_ok c && negb (is_choice c)) cs = true → entries_ok cs) as Hall.
  { intros cs [Hne Hc]%andb_true_iff. apply negb_true_iff, bool_decide_eq_false in Hne. split; [done|].
    apply Forall_forall. intros c Hin. rewrite forallb_forall in Hc. apply list_elem_of_In in Hin. specialize (Hc c Hin).
    apply andb_true_iff in Hc as [? ?%negb_true_iff]. done. }
  constructor; (apply Hall; by vm_compute) || by vm_compute.
Qed.

(** ** An interval selects everything

    Selectors no field has the name of are passed over: selecting the measurements of an interval
    selects all, and a delete with such selectors empties the list. *)
Lemma get_field_none cs l name : existsb (String.eqb name) (cfg_name <$> cs) = false → get_field cs l name = None.
Proof.
  revert l. induction cs as [|c cs IH]; intros [|d l]; simpl; try done. intros [Hn Hex]%orb_false_iff.
  rewrite bool_decide_false; [by apply IH|]. intros E. by rewrite E, String.eqb_refl in Hn.
Qed.

Example interval_selects_all (m interval : Data) (l : list Data) :
  ∃ c s, ModelGetDataCfg 51 = Some (Container KContainer "measurementListData" [List_ "measurementData" c]) ∧
    ModelGetDataSelectorsCfg 51 = Some s ∧
    selectors_match c (Struct l) s (Struct [Null; Null; interval]) = Some true.
Proof.
  eexists _, _. split; [reflexivity|]. split; [reflexivity|].
  cbn [selectors_match measurement_data_element_data_cfg selectors_loop measurement_list_data_selectors_cfg is_null null].
  rewrite get_field_none by by vm_compute. by destruct (is_null _ interval).
Qed.
