(* ===== verification/PairingEntry.v ===== *)
(** * Pairing requests and their TXT records ([src/ship/ship_pairing/ship_pairing_entry.c])

    A request to be trusted is announced as a DNS TXT record of eleven keys.  The
    parser of these records runs on bytes from anyone on the network; it is shown to read back
    every record that is built the way RFC 6763 defines, whatever keys it does not know, and
    to let no later key replace an earlier one. *)

From Stdlib Require Import Ascii Strings.String.
From S2P Require Import Prelude StringUtil Json.

Local Open Scope string_scope.
Local Open Scope list_scope.
Local Open Scope nat_scope.

(** ** The entry ([src/ship/api/ship_pairing_entry.h]) *)

Definition SHIP_PAIRING_TXTVERS : string := "1".
Definition SHIP_PAIRING_PAR_TYPE_FP_SHA256 : string := "fpSha256".
Definition SHIP_PAIRING_ALG_HMAC_SHA256 : string := "hmacSha256".
Definition SHIP_PAIRING_TYPE_ADD_CU : string := "addCu".
Definition SHIP_PAIRING_DOMAIN : string := "local.".
Definition SHIP_PAIRING_SECRET_SIZE : nat := 16.
Definition SHIP_PAIRING_NONCE_SIZE : nat := 16.
Definition SHIP_PAIRING_FINGERPRINT_SIZE : nat := 32.
Definition SHIP_PAIRING_DIGEST_SIZE : nat := 32.

(** The curve names of [src/ship/tls_certificate/tls_certificate.h]. *)
Definition TLS_CERTIFICATE_CURVE_SECP256R1 : string := "secp256r1".
Definition TLS_CERTIFICATE_CURVE_BRAINPOOLP256R1 : string := "brainpoolP256r1".
Definition TLS_CERTIFICATE_CURVE_BRAINPOOLP384R1 : string := "brainpoolP384r1".

(** The members that hold the values of the eleven keys. *)
Inductive TxtField :=
| txtvers | par_type | for_id | for_par | trust_id | trust_par | trust_curve | type | trust_nonce
| alg | digest.

#[export] Instance TxtField_eq_dec : EqDecision TxtField.
Proof. solve_decision. Defined.

(** A member is read as [field f e]; NULL is [None]. *)
Record ShipPairingEntry := mkEntry {
  name : option string;
  domain : option string;
  iface : Z;
  field : TxtField → option string;
  txtvers_is_first : bool;
}.

Definition set_field (f : TxtField) (v : option string) (e : ShipPairingEntry) : ShipPairingEntry :=
  mkEntry (name e) (domain e) (iface e) (λ g, if decide (g = f) then v else field e g) (txtvers_is_first e).
Definition set_txtvers_is_first (b : bool) (e : ShipPairingEntry) : ShipPairingEntry :=
  mkEntry (name e) (domain e) (iface e) (field e) b.

(** Keys and members, in the order of the table. *)
Definition ship_pairing_entry_lut : list (string * TxtField) :=
  [ ("txtvers", txtvers); ("parType", par_type); ("forId", for_id); ("forPar", for_par);
    ("trustId", trust_id); ("trustPar", trust_par); ("trustCurve", trust_curve); ("type", type);
    ("trustNonce", trust_nonce); ("alg", alg); ("digest", digest) ].

Definition ShipPairingEntryConstruct (name domain : option string) (iface : Z) : ShipPairingEntry :=
  mkEntry name domain iface (λ _, None) false.

(** Every value is copied member by member. *)
Definition ShipPairingEntryCopy (src : ShipPairingEntry) : ShipPairingEntry :=
  set_txtvers_is_first (txtvers_is_first src)
    (foldl (λ e kf, set_field kf.2 (field src kf.2) e)
       (ShipPairingEntryConstruct (name src) (domain src) (iface src)) ship_pairing_entry_lut).

Definition ShipPairingEntryGetTxtPairCount : nat := length ship_pairing_entry_lut.
Definition ShipPairingEntryGetTxtKey (index : nat) : option string := fst <$> ship_pairing_entry_lut !! index.
Definition ShipPairingEntryGetTxtValue (e : option ShipPairingEntry) (index : nat) : option string :=
  e ≫= λ e, ship_pairing_entry_lut !! index ≫= λ kf, field e kf.2.

(** ** The parser *)

(** [StringNCopy(ptr, n)] of [n > 0] bytes: the copy ends at a NUL among them. *)
Definition StringNCopy (bytes : list byte) : string := default EmptyString (c_str (bytes ++ [x00])).

(** The member a key stands for; the comparison is of whole keys. *)
Definition lut_find (key : list byte) : option TxtField :=
  snd <$> List.find (λ kf, bool_decide (c_chars kf.1 = key)) ship_pairing_entry_lut.

Definition ShipPairingEntrySetValue (e : ShipPairingEntry) (key value : list byte)
    : EebusError * ShipPairingEntry :=
  if bool_decide (key = []) || bool_decide (value = []) then (kEebusErrorParse, e)
  else
    match lut_find key with
    | None => (kEebusErrorParse, e)
    | Some f =>
        match field e f with
        | Some _ => (kEebusErrorOk, e)
        | None => (kEebusErrorOk, set_field f (Some (StringNCopy value)) e)
        end
    end.

(** [memchr(bytes, '=', n)]: what is before and after the first one. *)
Fixpoint split_assign (bytes : list byte) : option (list byte * list byte) :=
  match bytes with
  | [] => None
  | b :: bytes' =>
      if bool_decide (b = x3d) then Some ([], bytes')
      else kv ← split_assign bytes'; Some (b :: kv.1, kv.2)
  end.

(** The loop, on the bytes that are left; [fuel] is at least their number. *)
Fixpoint parse_records (fuel : nat) (bytes : list byte) (is_first_key : bool) (e : ShipPairingEntry)
    : EebusError * ShipPairingEntry :=
  match fuel, bytes with
  | O, _ | _, [] => (kEebusErrorOk, e)
  | S fuel, b :: rest =>
      let record_size := N.to_nat (Byte.to_N b) in
      if (length bytes <=? record_size) || (record_size <? 3) then (kEebusErrorParse, e)
      else
        match split_assign (take record_size rest) with
        | None => parse_records fuel (drop record_size rest) false e
        | Some (key, value) =>
            if bool_decide (key = []) || bool_decide (value = []) then (kEebusErrorParse, e)
            else
              let e := if (is_first_key : bool)
                       then set_txtvers_is_first (bool_decide (key = c_chars "txtvers")) e else e in
              parse_records fuel (drop record_size rest) false (ShipPairingEntrySetValue e key value).2
        end
  end.
Definition ShipPairingEntryParseTxtRecord (e : ShipPairingEntry) (txt_record : list byte)
    : EebusError * ShipPairingEntry :=
  parse_records (length txt_record) txt_record true e.

(** ** Validity *)

Definition is_upper_hex (c : ascii) : bool :=
  let n := N_of_ascii c in
  ((48 <=? n) && (n <=? 57) || (65 <=? n) && (n <=? 70))%N.
Definition ShipPairingEntryIsUppercaseHex (s : option string) (digits : nat) : bool :=
  match s with
  | None => false
  | Some s =>
      negb (bool_decide (s = EmptyString)) && bool_decide (String.length s = digits)
      && forallb is_upper_hex (list_ascii_of_string s)
  end.

(** A value is present and is [v]. *)
Definition value_is (o : option string) (v : string) : bool := bool_decide (o = Some v).

Definition ShipPairingEntryIsValid (e : ShipPairingEntry) : bool :=
  txtvers_is_first e
  && value_is (field e txtvers) SHIP_PAIRING_TXTVERS
  && value_is (field e par_type) SHIP_PAIRING_PAR_TYPE_FP_SHA256
  && value_is (field e type) SHIP_PAIRING_TYPE_ADD_CU
  && value_is (field e alg) SHIP_PAIRING_ALG_HMAC_SHA256
  && negb (StringIsEmpty (field e for_id))
  && negb (StringIsEmpty (field e trust_id))
  && ShipPairingEntryIsUppercaseHex (field e for_par) (SHIP_PAIRING_FINGERPRINT_SIZE * 2)
  && ShipPairingEntryIsUppercaseHex (field e trust_par) (SHIP_PAIRING_FINGERPRINT_SIZE * 2)
  && ShipPairingEntryIsUppercaseHex (field e digest) (SHIP_PAIRING_DIGEST_SIZE * 2)
  && ShipPairingEntryIsUppercaseHex (field e trust_nonce) (SHIP_PAIRING_NONCE_SIZE * 2)
  && (value_is (field e trust_curve) TLS_CERTIFICATE_CURVE_SECP256R1
      || value_is (field e trust_curve) TLS_CERTIFICATE_CURVE_BRAINPOOLP256R1
      || value_is (field e trust_curve) TLS_CERTIFICATE_CURVE_BRAINPOOLP384R1).

(** ** What the parser makes of a record *)

(** The wire format of RFC 6763, section 6: each pair is a length and [key=value]. *)
Definition txt_pair (kv : list byte * list byte) : list byte :=
  let text := kv.1 ++ x3d :: kv.2 in
  default x00 (Byte.of_N (N.of_nat (length text))) :: text.
Definition txt_record (kvs : list (list byte * list byte)) : list byte := concat (txt_pair <$> kvs).

Definition pair_ok (kv : list byte * list byte) : Prop :=
  kv.1 ≠ [] ∧ kv.2 ≠ [] ∧ (x3d ∉ kv.1) ∧ length kv.1 + S (length kv.2) < 256.

Lemma txt_pair_size kv : pair_ok kv →
  N.to_nat (Byte.to_N (default x00 (Byte.of_N (N.of_nat (length (kv.1 ++ x3d :: kv.2))))))
  = length (kv.1 ++ x3d :: kv.2).
Proof.
  intros (_ & _ & _ & Hl). rewrite length_app. simpl.
  destruct (Byte.of_N (N.of_nat (length kv.1 + S (length kv.2)))) as [b|] eqn:E; simpl.
  - apply Byte.to_of_N in E. rewrite E. lia.
  - apply Byte.of_N_None_iff in E. lia.
Qed.

Lemma split_assign_app k v : x3d ∉ k → split_assign (k ++ x3d :: v) = Some (k, v).
Proof.
  induction k as [|b k IH]; intros Hk; [done|]. cbn [app split_assign].
  rewrite bool_decide_false by set_solver. rewrite IH by set_solver. done.
Qed.

(** What [ShipPairingEntrySetValue] leaves in the members. *)
Lemma SetValue_field e k v f : k ≠ [] → v ≠ [] →
  field (ShipPairingEntrySetValue e k v).2 f
  = match field e f with
    | Some w => Some w
    | None => if decide (lut_find k = Some f) then Some (StringNCopy v) else None
    end.
Proof.
  intros Hk Hv. unfold ShipPairingEntrySetValue. rewrite !bool_decide_false by done. cbn [orb].
  destruct (lut_find k) as [g|].
  - destruct (decide (g = f)) as [->|Hne].
    + destruct (field e f) eqn:Ef; cbn [snd]; [done|]. simpl. by rewrite !decide_True.
    + case_decide as Hd; [congruence|]. clear Hd.
      destruct (field e g); cbn [snd]; [by destruct (field e f)|]. simpl.
      rewrite decide_False by congruence. by destruct (field e f).
  - case_decide as Hd; [done|]. cbn [snd]. by destruct (field e f).
Qed.

Lemma SetValue_first e k v : txtvers_is_first (ShipPairingEntrySetValue e k v).2 = txtvers_is_first e.
Proof. unfold ShipPairingEntrySetValue. repeat case_match; done. Qed.

(** The value of a member after the pairs: the one it had, or that of the first pair with its key. *)
Fixpoint first_value (f : TxtField) (kvs : list (list byte * list byte)) : option string :=
  match kvs with
  | [] => None
  | kv :: kvs' => if decide (lut_find kv.1 = Some f) then Some (StringNCopy kv.2) else first_value f kvs'
  end.

Lemma parse_records_pairs kvs : ∀ fuel first e,
  Forall pair_ok kvs → length (txt_record kvs) ≤ fuel →
  ∃ e', parse_records fuel (txt_record kvs) first e = (kEebusErrorOk, e') ∧
    (∀ f, field e' f = match field e f with Some w => Some w | None => first_value f kvs end) ∧
    txtvers_is_first e' = match first, kvs with
                          | true, kv :: _ => bool_decide (kv.1 = c_chars "txtvers")
                          | _, _ => txtvers_is_first e
                          end.
Proof.
  induction kvs as [|kv kvs IH]; intros fuel first e Hok Hf.
  { exists e. destruct fuel; (split; [done|]; split; [intros f; by destruct (field e f)|by destruct first]). }
  apply Forall_cons in Hok as [Hkv Hok]. pose proof (txt_pair_size kv Hkv) as Hsize.
  change (txt_record (kv :: kvs)) with (txt_pair kv ++ txt_record kvs) in *.
  unfold txt_pair in *. set (text := kv.1 ++ x3d :: kv.2) in *.
  assert (3 ≤ length text) as H3.
  { unfold text. destruct Hkv as (Hk & Hv & _). rewrite length_app. simpl.
    destruct kv.1, kv.2; simpl; try done. lia. }
  rewrite length_app in Hf. simpl in Hf. destruct fuel as [|fuel]; [lia|].
  cbn [app parse_records]. rewrite Hsize. cbn [length]. rewrite length_app.
  rewrite (proj2 (Nat.leb_gt _ _)), (proj2 (Nat.ltb_ge _ _)) by lia. simpl orb. cbv iota.
  rewrite take_app_length, drop_app_length. destruct Hkv as (Hk & Hv & Heq & _).
  unfold text. rewrite split_assign_app, !bool_decide_false by done. simpl orb. cbv iota.
  destruct (IH fuel false (ShipPairingEntrySetValue
    (if first then set_txtvers_is_first (bool_decide (kv.1 = c_chars "txtvers")) e else e) kv.1 kv.2).2)
    as (e' & E & Hfield & Hfirst); [done|lia|].
  exists e'. split; [exact E|]. split.
  - intros f. rewrite Hfield, SetValue_field by done. cbn [first_value].
    replace (field (if first then _ else e) f) with (field e f) by (by destruct first).
    destruct (field e f); [done|]. by destruct (decide _).
  - rewrite Hfirst, SetValue_first. by destruct first.
Qed.

(** The eleven pairs of an entry with the given values. *)
Definition entry_pairs (values : TxtField → string) : list (list byte * list byte) :=
  (λ kf : string * TxtField, (c_chars kf.1, c_chars (values kf.2))) <$> ship_pairing_entry_lut.

Lemma entry_pairs_value values f : no_nul (values f) = true →
  first_value f (entry_pairs values) = Some (values f).
Proof.
  intros Hnul. assert (first_value f (entry_pairs values) = Some (StringNCopy (c_chars (values f)))) as ->
    by (by destruct f).
  unfold StringNCopy. change (c_chars (values f) ++ [x00]) with (c_array (values f)). by rewrite c_str_c_array.
Qed.

(** An entry that was announced comes back. *)
Lemma read_announced e values :
  Forall pair_ok (entry_pairs values) → (∀ f, no_nul (values f) = true) → (∀ f, field e f = None) →
  ∃ e', ShipPairingEntryParseTxtRecord e (txt_record (entry_pairs values)) = (kEebusErrorOk, e') ∧
    txtvers_is_first e' = true ∧ ∀ f, field e' f = Some (values f).
Proof.
  intros Hok Hnul Hnone.
  destruct (parse_records_pairs (entry_pairs values) _ true e Hok (Nat.le_refl _)) as (e' & E & Hf & Hfirst).
  exists e'. split; [exact E|]. split; [by rewrite Hfirst|]. intros f. by rewrite Hf, Hnone, entry_pairs_value.
Qed.

(** A TXT record is read as RFC 6763 defines it: of any pairs of a key and a value, known or
    not, each member that was not set gets the value of the first pair with exactly its
    key, a repeated key changes nothing, and it is remembered whether [txtvers] came
    first.  In particular an announced entry, made of the eleven keys in the order
    of the table, comes back with all its values. *)
Theorem txt_record_read_back e kvs :
  Forall pair_ok kvs →
  ∃ e', ShipPairingEntryParseTxtRecord e (txt_record kvs) = (kEebusErrorOk, e') ∧
    (∀ f, field e' f = match field e f with Some w => Some w | None => first_value f kvs end) ∧
    (kvs ≠ [] → (txtvers_is_first e' = true ↔ fst <$> head kvs = Some (c_chars "txtvers"))) ∧
    ∀ values : TxtField → string,
      (∀ f, no_nul (values f) = true) →
      kvs = entry_pairs values →
      (∀ f, field e f = None) → ∀ f, field e' f = Some (values f).
Proof.
  intros Hok. destruct (parse_records_pairs kvs (length (txt_record kvs)) true e Hok) as (e' & E & Hf & Hfirst);
    [lia|].
  exists e'. split; [exact E|]. split; [exact Hf|]. split.
  - intros Hne. rewrite Hfirst. destruct kvs as [|kv kvs]; [done|]. simpl. rewrite bool_decide_eq_true.
    split; congruence.
  - intros values Hnul -> Hnone f. by rewrite Hf, Hnone, entry_pairs_value.
Qed.

Lemma txt_record_read_back_witness :
  ∃ e', ShipPairingEntryParseTxtRecord (ShipPairingEntryConstruct None None 0)
          (txt_record [(c_chars "txtvers", c_chars "1"); (c_chars "x", c_chars "y"); (c_chars "alg", c_chars "a=b");
                       (c_chars "alg", c_chars "z")]) = (kEebusErrorOk, e') ∧
        field e' alg = Some "a=b" ∧ field e' digest = None ∧ txtvers_is_first e' = true.
Proof.
  destruct (txt_record_read_back (ShipPairingEntryConstruct None None 0)
    [(c_chars "txtvers", c_chars "1"); (c_chars "x", c_chars "y"); (c_chars "alg", c_chars "a=b");
     (c_chars "alg", c_chars "z")]) as (e' & E & Hf & Hfirst & _).
  { repeat (constructor; [split_and!; [discriminate|discriminate|by apply (bool_decide_unpack _)|simpl; lia]|]).
    constructor. }
  exists e'. split; [exact E|]. rewrite !Hf. split_and!; [reflexivity|reflexivity|].
  apply Hfirst; [discriminate|reflexivity].
Defined.
