(* ===== verification/PairingDigest.v ===== *)
(** * The digest of a pairing request ([src/ship/ship_pairing/ship_pairing_digest.c])

    A request is authenticated with an HMAC over its other values, keyed with the secret of
    the node it is addressed to and the nonce of the request.  OpenSSL is a parameter;
    the functions of [src/ship/tls_certificate/tls_certificate.c] around it are defined. *)

From Stdlib Require Import Ascii Strings.String.
From S2P Require Import Prelude StringUtil Json PairingEntry.

Local Open Scope string_scope.
Local Open Scope list_scope.
Local Open Scope nat_scope.

(** What the source uses of OpenSSL; NULL and error codes are [None].  The curve is that
    of a public key given by the OID of a named curve. *)
Inductive NamedCurve := NID_X9_62_prime256v1 | NID_brainpoolP256r1 | NID_brainpoolP384r1 | NID_other.
Class OpenSsl := {
  X509 : Type;
  d2i_X509 : list byte → option X509;
  X509_digest_sha256 : X509 → option (list byte);
  X509_named_curve : X509 → option NamedCurve;
  HMAC_sha256 : list Z → list byte → option (list byte);
}.
Definition TLS_CERTIFICATE_SHA256_SIZE : nat := 32.

(** The octets of a buffer as numbers. *)
Definition octets (bs : list byte) : list Z := (λ b, Z.of_N (Byte.to_N b)) <$> bs.

Lemma octets_range bs : Forall (λ b, 0 <= b < 256)%Z (octets bs).
Proof.
  unfold octets. apply Forall_fmap, Forall_true. intros b. simpl.
  pose proof (Byte.to_N_bounded b). lia.
Qed.

Lemma octets_length bs : length (octets bs) = length bs.
Proof. apply length_fmap. Qed.

Section tls.
Context `{OpenSsl}.

Definition TlsCertificateCalcFingerprintSha256 (cert : list byte) : option string :=
  if bool_decide (cert = []) then None
  else
    x509_cert ← d2i_X509 cert;
    sha256 ← X509_digest_sha256 x509_cert;
    if bool_decide (length sha256 ≠ TLS_CERTIFICATE_SHA256_SIZE) then None
    else StringWithHexUpper (Some (octets sha256)).

Definition TlsCertificateGetCurveName (cert : list byte) : option string :=
  if bool_decide (cert = []) then None
  else
    x509_cert ← d2i_X509 cert;
    nid ← X509_named_curve x509_cert;
    match nid with
    | NID_X9_62_prime256v1 => Some TLS_CERTIFICATE_CURVE_SECP256R1
    | NID_brainpoolP256r1 => Some TLS_CERTIFICATE_CURVE_BRAINPOOLP256R1
    | NID_brainpoolP384r1 => Some TLS_CERTIFICATE_CURVE_BRAINPOOLP384R1
    | NID_other => None
    end.

(** [answer] is what [RAND_bytes] of OpenSSL puts into the buffer, when it succeeds. *)
Definition TlsCertificateRandomBytes (answer : option (list byte)) (buf_size : nat) : option (list byte) :=
  if bool_decide (buf_size = 0) then None else answer.

Definition TlsCertificateHmacSha256 (key : list Z) (msg : list byte) : option (list byte) :=
  if bool_decide (key = []) then None
  else
    digest ← HMAC_sha256 key msg;
    if bool_decide (length digest ≠ TLS_CERTIFICATE_SHA256_SIZE) then None else Some digest.

(** ** The message *)

(** The keys the message is made of, in its order. *)
Definition message_keys : list (string * TxtField) :=
  [ ("txtvers", txtvers); ("parType", par_type); ("forId", for_id); ("forPar", for_par);
    ("trustId", trust_id); ("trustPar", trust_par); ("trustCurve", trust_curve); ("type", type);
    ("trustNonce", trust_nonce); ("alg", alg) ].

(** ["key=%s;"] *)
Definition message_part (key value : string) : list byte :=
  c_chars key ++ x3d :: c_chars value ++ [x3b].

Definition ShipPairingBuildMessage (e : ShipPairingEntry) : option (list byte) :=
  if existsb (λ kf, StringIsEmpty (field e kf.2)) message_keys then None
  else Some (concat ((λ kf, message_part kf.1 (default "" (field e kf.2))) <$> message_keys)).

Definition ShipPairingCalcDigest (e : ShipPairingEntry) (secret : list Z) : option string :=
  if bool_decide (length secret ≠ SHIP_PAIRING_SECRET_SIZE) then None
  else if negb (value_is (field e alg) SHIP_PAIRING_ALG_HMAC_SHA256) then None
  else
    nonce ← StringHexToBytes (field e trust_nonce) SHIP_PAIRING_NONCE_SIZE;
    message ← ShipPairingBuildMessage e;
    let key := secret ++ nonce in
    digest ← TlsCertificateHmacSha256 key message;
    StringWithHexUpper (Some (octets digest)).

(** The loop of [ShipPairingVerifyDigest]: [diff |= digest[i] ^ expected[i]]. *)
Fixpoint digest_diff (a b : list byte) (diff : Z) : Z :=
  match a, b with
  | x :: a', y :: b' =>
      digest_diff a' b' (Z.lor diff (u8 (Z.lxor (Z.of_N (Byte.to_N x)) (Z.of_N (Byte.to_N y)))))
  | _, _ => diff
  end.

Definition ShipPairingVerifyDigest (e : ShipPairingEntry) (secret : list Z) : bool :=
  if StringIsEmpty (field e digest) then false
  else
    match ShipPairingCalcDigest e secret, field e digest with
    | Some expected, Some d =>
        bool_decide (String.length d = String.length expected)
        && bool_decide (digest_diff (c_chars d) (c_chars expected) 0 = 0%Z)
    | _, _ => false
    end.
End tls.

(** ** The comparison *)

Lemma xor_bytes x y : u8 (Z.lxor (Z.of_N (Byte.to_N x)) (Z.of_N (Byte.to_N y))) = 0%Z ↔ x = y.
Proof.
  assert (0 <= Z.lxor (Z.of_N (Byte.to_N x)) (Z.of_N (Byte.to_N y)) < 2 ^ 8)%Z as Hr.
  { split; [apply Z.lxor_nonneg; lia|].
    pose proof (Byte.to_N_bounded x). pose proof (Byte.to_N_bounded y).
    destruct (decide (Z.lxor (Z.of_N (Byte.to_N x)) (Z.of_N (Byte.to_N y)) = 0)%Z) as [->|]; [done|].
    apply Z.log2_lt_pow2; [pose proof (proj2 (Z.lxor_nonneg (Z.of_N (Byte.to_N x)) (Z.of_N (Byte.to_N y)))); lia|].
    eapply Z.le_lt_trans; [apply Z.log2_lxor; lia|].
    apply Z.max_lub_lt; (eapply Z.le_lt_trans; [apply Z.log2_le_mono with (b := 255%Z); lia|done]). }
  unfold u8. rewrite Z.mod_small by done. rewrite Z.lxor_eq_0_iff. split; [|by intros ->].
  intros E%N2Z.inj. assert (Some x = Some y) as [= ->]; [|done].
  rewrite <- (Byte.of_to_N x), <- (Byte.of_to_N y). by rewrite E.
Qed.

Lemma digest_diff_zero a : ∀ b diff,
  length a = length b → digest_diff a b diff = 0%Z ↔ diff = 0%Z ∧ a = b.
Proof.
  induction a as [|x a IH]; intros [|y b] diff Hl; simplify_eq/=; [naive_solver|].
  rewrite IH, Z.lor_eq_0_iff, xor_bytes by done. naive_solver.
Qed.

Lemma c_chars_inj s t : c_chars s = c_chars t → s = t.
Proof.
  intros E. unfold c_chars in E.
  rewrite <- (String.string_of_list_byte_of_string s), <- (String.string_of_list_byte_of_string t). by rewrite E.
Qed.

Lemma ShipPairingVerifyDigest_spec `{OpenSsl} e secret :
  ShipPairingVerifyDigest e secret = true ↔
  ∃ d, d ≠ "" ∧ field e digest = Some d ∧ ShipPairingCalcDigest e secret = Some d.
Proof.
  unfold ShipPairingVerifyDigest. destruct (StringIsEmpty (field e digest)) eqn:Ee.
  - split; [done|]. intros (d & Hd & E & _). rewrite E in Ee. simpl in Ee.
    by apply bool_decide_eq_true in Ee.
  - apply StringIsEmpty_false in Ee as (d & Ed & Hne). rewrite Ed.
    destruct (ShipPairingCalcDigest e secret) as [x|]; [|naive_solver].
    rewrite andb_true_iff, !bool_decide_eq_true. split.
    + intros [Hl Hx]. apply digest_diff_zero in Hx as [_ Hx]; [|by rewrite !c_chars_length].
      apply c_chars_inj in Hx as ->. eauto.
    + intros (d' & _ & [= ->] & [= ->]). split; [done|]. by apply digest_diff_zero.
Qed.

(** ** Valid requests *)

(** The values of a valid request that are not fixed. *)
Record Request := mkRequest {
  r_for_id : string; r_for_par : string; r_trust_id : string; r_trust_par : string;
  r_curve : string; r_nonce : string; r_digest : string;
}.
Definition request_value (r : Request) (f : TxtField) : string :=
  match f with
  | txtvers => SHIP_PAIRING_TXTVERS
  | par_type => SHIP_PAIRING_PAR_TYPE_FP_SHA256
  | for_id => r_for_id r
  | for_par => r_for_par r
  | trust_id => r_trust_id r
  | trust_par => r_trust_par r
  | trust_curve => r_curve r
  | type => SHIP_PAIRING_TYPE_ADD_CU
  | trust_nonce => r_nonce r
  | alg => SHIP_PAIRING_ALG_HMAC_SHA256
  | digest => r_digest r
  end.
Definition curves : list string :=
  [TLS_CERTIFICATE_CURVE_SECP256R1; TLS_CERTIFICATE_CURVE_BRAINPOOLP256R1; TLS_CERTIFICATE_CURVE_BRAINPOOLP384R1].
Definition upper_hex (n : nat) (s : string) : Prop :=
  String.length s = n ∧ forallb is_upper_hex (list_ascii_of_string s) = true.
Definition request_ok (r : Request) : Prop :=
  r_for_id r ≠ "" ∧ r_trust_id r ≠ "" ∧ upper_hex 64 (r_for_par r) ∧ upper_hex 64 (r_trust_par r) ∧
  upper_hex 64 (r_digest r) ∧ upper_hex 32 (r_nonce r) ∧ r_curve r ∈ curves.

Lemma IsUppercaseHex_spec o n : n ≠ 0 →
  ShipPairingEntryIsUppercaseHex o n = true ↔ ∃ s, o = Some s ∧ upper_hex n s.
Proof.
  intros Hn. destruct o as [s|]; simpl; [|naive_solver].
  rewrite !andb_true_iff, negb_true_iff, bool_decide_eq_false, bool_decide_eq_true.
  unfold upper_hex. split; [naive_solver|]. intros (t & [= <-] & Hl & Hx).
  split_and!; [|done|done]. intros ->. simpl in Hl. congruence.
Qed.

Lemma value_is_spec o v : value_is o v = true ↔ o = Some v.
Proof. apply bool_decide_eq_true. Qed.

Lemma IsValid_spec e :
  ShipPairingEntryIsValid e = true ↔
  txtvers_is_first e = true ∧ ∃ r, request_ok r ∧ ∀ f, field e f = Some (request_value r f).
Proof.
  unfold ShipPairingEntryIsValid. rewrite !andb_true_iff, !orb_true_iff, !value_is_spec, !negb_true_iff,
    !IsUppercaseHex_spec, !StringIsEmpty_false by done.
  split.
  - intros (((((((((((H1 & Hv) & Hp) & Ht) & Ha) & (F & EF & HF)) & (T & ET & HT)) & (X & EX & HX)) &
      (Y & EY & HY)) & (D & ED & HD)) & (N & EN & HN)) & Hc).
    split; [done|].
    assert (∃ C, C ∈ curves ∧ field e trust_curve = Some C) as (C & HC & EC).
    { destruct Hc as [[Hc|Hc]|Hc]; (eexists; split; [|exact Hc]); by apply (bool_decide_unpack _). }
    exists (mkRequest F X T Y C N D). split; [|by intros []]. unfold request_ok. simpl. auto 10.
  - intros (H1 & r & (HF & HT & HX & HY & HD & HN & HC) & Hf). rewrite !Hf. split_and!; eauto.
    simpl. apply elem_of_cons in HC as [->|HC]; [by left; left|].
    apply elem_of_cons in HC as [->|HC]; [by left; right|].
    apply list_elem_of_singleton in HC as ->. by right.
Qed.

Definition request_message (r : Request) : list byte :=
  concat ((λ kf, message_part kf.1 (request_value r kf.2)) <$> message_keys).

Lemma BuildMessage_request e r :
  request_ok r → (∀ f, f ≠ digest → field e f = Some (request_value r f)) →
  ShipPairingBuildMessage e = Some (request_message r).
Proof.
  intros (HF & HT & (HX & _) & (HY & _) & _ & (HN & _) & HC) Hf. unfold ShipPairingBuildMessage.
  assert (∀ f, f ≠ digest → request_value r f ≠ "") as Hne.
  { intros [] Hd; simpl; try done.
    - intros E. by rewrite E in HX.
    - intros E. by rewrite E in HY.
    - intros E. rewrite E in HC. by apply (bool_decide_pack _) in HC.
    - intros E. by rewrite E in HN. }
  assert (∀ f, f ≠ digest → StringIsEmpty (field e f) = false) as Hemp.
  { intros f Hd. apply StringIsEmpty_false. exists (request_value r f). by rewrite Hf; auto. }
  cbn [existsb message_keys snd]. rewrite !Hemp by done. cbn [orb].
  f_equal. unfold request_message. f_equal. cbn [message_keys fmap list_fmap fst snd]. by rewrite !Hf by done.
Qed.

Lemma request_message_eq r :
  request_message r =
  c_chars "txtvers=1;parType=fpSha256;forId=" ++ c_chars (r_for_id r) ++
  c_chars ";forPar=" ++ c_chars (r_for_par r) ++ c_chars ";trustId=" ++
  (((c_chars (r_trust_id r) ++ c_chars ";trustPar=") ++ c_chars (r_trust_par r)) ++
   c_chars ";trustCurve=" ++ c_chars (r_curve r)) ++
  c_chars ";type=addCu;trustNonce=" ++ c_chars (r_nonce r) ++ c_chars ";alg=hmacSha256;".
Proof.
  unfold request_message, message_part. simpl. repeat (rewrite <- (assoc_L (++)); simpl). done.
Qed.

(** ** What the message determines *)

Lemma last_bytes {A} (a b c d : list A) : length b = length d → a ++ b = c ++ d → a = c ∧ b = d.
Proof. intros Hl. by apply app_inj_2. Qed.

Lemma curve_split (a b : list byte) C C' :
  C ∈ curves → C' ∈ curves →
  a ++ c_chars ";trustCurve=" ++ c_chars C = b ++ c_chars ";trustCurve=" ++ c_chars C' → a = b ∧ C = C'.
Proof.
  assert (∀ x y : list byte,
    x ++ c_chars ";trustCurve=" ++ c_chars TLS_CERTIFICATE_CURVE_SECP256R1
      ≠ y ++ c_chars ";trustCurve=" ++ c_chars TLS_CERTIFICATE_CURVE_BRAINPOOLP256R1 ∧
    x ++ c_chars ";trustCurve=" ++ c_chars TLS_CERTIFICATE_CURVE_SECP256R1
      ≠ y ++ c_chars ";trustCurve=" ++ c_chars TLS_CERTIFICATE_CURVE_BRAINPOOLP384R1) as Hdiff.
  { intros x y. split; intros E.
    - change (c_chars ";trustCurve=" ++ c_chars TLS_CERTIFICATE_CURVE_BRAINPOOLP256R1)
        with (c_chars ";trustCurve=brainp" ++ c_chars "oolP256r1") in E.
      rewrite !(assoc_L (++)) in E. by apply last_bytes in E as [_ E].
    - change (c_chars ";trustCurve=" ++ c_chars TLS_CERTIFICATE_CURVE_BRAINPOOLP384R1)
        with (c_chars ";trustCurve=brainp" ++ c_chars "oolP384r1") in E.
      rewrite !(assoc_L (++)) in E. by apply last_bytes in E as [_ E]. }
  unfold curves. rewrite !elem_of_cons, !elem_of_nil.
  intros [->|[->|[->|[]]]] [->|[->|[->|[]]]] E;
    try (by destruct (proj1 (Hdiff a b) E)); try (by destruct (proj2 (Hdiff a b) E));
    try (by destruct (proj1 (Hdiff b a) (eq_sym E))); try (by destruct (proj2 (Hdiff b a) (eq_sym E)));
    (apply last_bytes in E as [-> E]; [by vm_compute in E|done]).
Qed.

(** The values of a valid request can be read off its message, once the id of the
    addressed node is known. *)
Lemma request_message_inj r r' :
  request_ok r → request_ok r' → r_for_id r = r_for_id r' → request_message r = request_message r' →
  ∀ f, f ≠ digest → request_value r f = request_value r' f.
Proof.
  intros (_ & _ & [HX _] & [HY _] & _ & [HN _] & HC) (_ & _ & [HX' _] & [HY' _] & _ & [HN' _] & HC') EF.
  rewrite !request_message_eq, EF. intros E%(inj _)%(inj _)%(inj _).
  apply app_inj_1 in E as [EX%c_chars_inj E]; [|rewrite !c_chars_length; congruence].
  apply (inj _) in E. apply last_bytes in E as [E EN];
    [|rewrite !length_app, !c_chars_length; congruence].
  apply (inj _) in EN. apply last_bytes in EN as [EN%c_chars_inj _]; [|done].
  apply curve_split in E as [E EC]; [|done..].
  apply last_bytes in E as [E EY%c_chars_inj]; [|rewrite !c_chars_length; congruence].
  apply last_bytes in E as [ET%c_chars_inj _]; [|done]. intros []; simpl; congruence.
Qed.

(** Without the id the values run into each other. *)
Example message_ambiguous :
  let r id trust := mkRequest id (String.concat "" (replicate 64 "A")) trust (String.concat "" (replicate 64 "B"))
                      "secp256r1" (String.concat "" (replicate 32 "C")) (String.concat "" (replicate 64 "D")) in
  let pad := (";forPar=" ++ String.concat "" (replicate 64 "A") ++ ";trustId=")%string in
  request_message (r "a" ("b" ++ pad ++ "c")%string) = request_message (r ("a" ++ pad ++ "b")%string "c").
Proof. vm_compute. reflexivity. Qed.

(** ** What the digest determines *)

Lemma hex_bytes_length n : ∀ s bs, hex_bytes s n = Some bs → length bs = n.
Proof.
  induction n as [|n IH]; intros [|ch [|cl s]] bs E; simpl in E; try done; try by injection E as <-.
  destruct (_ || _); [done|]. destruct (hex_bytes s n) as [bs'|] eqn:Es; simplify_eq/=. by erewrite IH.
Qed.

Lemma HexToBytes_length s n bs : StringHexToBytes s n = Some bs → length bs = n.
Proof. unfold StringHexToBytes. intros. repeat case_match; try done. by eapply hex_bytes_length. Qed.

Lemma WithHexUpper_spec bs : bs ≠ [] →
  ∃ s, StringWithHexUpper (Some (octets bs)) = Some s ∧ String.length s = length bs * 2 ∧
       hex_bytes s (length bs) = Some (octets bs).
Proof.
  intros Hne. exists (hex_string 65 (octets bs)).
  destruct (hex_round_trip true (octets bs) (octets_range bs)) as [H1 H2]. rewrite octets_length in *.
  split; [|done]. unfold StringWithHexUpper, StringWithHexAlphaBase. by destruct bs.
Qed.

Lemma octets_inj bs bs' : octets bs = octets bs' → bs = bs'.
Proof.
  apply list_fmap_eq_inj. intros x y E%N2Z.inj.
  assert (Some x = Some y) as [= ->]; [|done].
  rewrite <- (Byte.of_to_N x), <- (Byte.of_to_N y). by rewrite E.
Qed.

Section binding.
Context `{OpenSsl}.

(** A digest comes from the HMAC of the message under the secret and the nonce. *)
Lemma ShipPairingCalcDigest_inv e secret d : ShipPairingCalcDigest e secret = Some d →
  length secret = SHIP_PAIRING_SECRET_SIZE ∧ ∃ nonce message bytes,
    StringHexToBytes (field e trust_nonce) SHIP_PAIRING_NONCE_SIZE = Some nonce ∧
    length nonce = SHIP_PAIRING_NONCE_SIZE ∧
    ShipPairingBuildMessage e = Some message ∧
    HMAC_sha256 (secret ++ nonce) message = Some bytes ∧ length bytes = TLS_CERTIFICATE_SHA256_SIZE ∧
    StringWithHexUpper (Some (octets bytes)) = Some d.
Proof.
  unfold ShipPairingCalcDigest. case_bool_decide as Hs; [done|].
  destruct (value_is _ _); [|done]. simpl.
  destruct (StringHexToBytes _ _) as [nonce|] eqn:En; [|done]. simpl.
  destruct (ShipPairingBuildMessage e) as [message|]; [|done]. simpl.
  unfold TlsCertificateHmacSha256. case_bool_decide as Hk; [done|].
  destruct (HMAC_sha256 _ _) as [bytes|] eqn:Eh; [|done]. simpl. case_bool_decide as Hl; [done|].
  simpl. intros E. split; [done|]. exists nonce, message, bytes.
  split_and!; try done. by eapply HexToBytes_length.
Qed.

(** Two inputs of the HMAC, with keys of the size the code uses, and the same result. *)
Definition hmac_collision : Prop :=
  ∃ key message key' message' bytes,
    length key = SHIP_PAIRING_SECRET_SIZE + SHIP_PAIRING_NONCE_SIZE ∧ length key' = length key ∧
    (key, message) ≠ (key', message') ∧
    HMAC_sha256 key message = Some bytes ∧ HMAC_sha256 key' message' = Some bytes.

(** C30: A digest authenticates a request: when two valid requests to the same node carry the
    same digest and both are verified, under any two secrets, then the secrets are
    the same and so are all the values of the requests, unless the HMAC itself collides.  So who
    does not know the secret can change nothing in a request that was announced, neither the
    node nor the certificate that is to be trusted. *)
Theorem digest_authenticates e e' secret secret' :
  ShipPairingEntryIsValid e = true → ShipPairingEntryIsValid e' = true →
  field e for_id = field e' for_id → field e digest = field e' digest →
  ShipPairingVerifyDigest e secret = true → ShipPairingVerifyDigest e' secret' = true →
  (secret = secret' ∧ ∀ f, field e f = field e' f) ∨ hmac_collision.
Proof.
  intros (_ & r & Hr & Hf)%IsValid_spec (_ & r' & Hr' & Hf')%IsValid_spec Eid Ed
    (d & _ & Hd & Hc)%ShipPairingVerifyDigest_spec (d' & _ & Hd' & Hc')%ShipPairingVerifyDigest_spec.
  assert (d' = d) as -> by congruence.
  apply ShipPairingCalcDigest_inv in Hc as (Hs & n & m & b & En & Hn & Em & Hb & Hbl & Eb).
  apply ShipPairingCalcDigest_inv in Hc' as (Hs' & n' & m' & b' & En' & Hn' & Em' & Hb' & Hbl' & Eb').
  rewrite (BuildMessage_request e r) in Em by auto. rewrite (BuildMessage_request e' r') in Em' by auto.
  simplify_eq.
  assert (b' = b) as ->.
  { destruct (WithHexUpper_spec b) as (s & E1 & _ & E2); [by intros ->|].
    destruct (WithHexUpper_spec b') as (s' & E1' & _ & E2'); [by intros ->|].
    apply octets_inj. rewrite Hbl in E2. rewrite Hbl' in E2'. congruence. }
  destruct (decide ((secret ++ n, request_message r) = (secret' ++ n', request_message r'))) as [E|Hne].
  - left. pose proof (f_equal fst E) as Ek. pose proof (f_equal snd E) as Em. cbn [fst snd] in Ek, Em.
    apply app_inj_1 in Ek as [Ek _]; [|congruence]. split; [done|]. intros f.
    destruct (decide (f = digest)) as [->|Hfd]; [done|].
    rewrite Hf, Hf'. f_equal. apply request_message_inj; try done.
    rewrite Hf, Hf' in Eid. by injection Eid.
  - right. exists (secret ++ n), (request_message r), (secret' ++ n'), (request_message r'), b.
    split_and!; try done; rewrite !length_app; congruence.
Qed.
End binding.
