(* ===== verification/ShipPairing.v ===== *)
(** * Evaluation of pairing requests ([src/ship/ship_pairing/ship_pairing.c])

    The state of the evaluator and its operations, each as the critical sections the code
    divides it into; [PairingRun] puts these together with the timer and the other threads.
    Here: what a request has to be to be accepted, and the ring buffer of the digests that were. *)

From Stdlib Require Import Ascii Strings.String.
From S2P Require Import Prelude StringUtil Json PairingEntry PairingDigest.

Local Open Scope string_scope.
Local Open Scope list_scope.
Local Open Scope nat_scope.

(** ** Data ([src/ship/api/ship_pairing_interface.h], [ship_pairing_internal.h]) *)

Definition SHIP_PAIRING_RING_BUFFER_SIZE : nat := 10.
Definition SHIP_PAIRING_ALG_BUF_SIZE : nat := 16.
Definition SHIP_PAIRING_DIGEST_BUF_SIZE : nat := SHIP_PAIRING_DIGEST_SIZE * 2 + 1.
Definition SHIP_PAIRING_REACTIVATION_MINUTES : Z := 15.

Definition kShipPairingCurveSecp256r1 : Z := Z.shiftl 1 0.
Definition kShipPairingCurveBrainpoolP256r1 : Z := Z.shiftl 1 1.
Definition kShipPairingCurveBrainpoolP384r1 : Z := Z.shiftl 1 2.

Inductive ShipPairingResult :=
| kShipPairingResultAccepted
| kShipPairingResultInvalidRecord
| kShipPairingResultNotForThisNode
| kShipPairingResultUnsupported
| kShipPairingResultNotProcessing
| kShipPairingResultAlreadySeen
| kShipPairingResultDigestMismatch
| kShipPairingResultError.

#[export] Instance ShipPairingResult_eq_dec : EqDecision ShipPairingResult.
Proof. solve_decision. Defined.

(** The two arrays of characters of an entry. *)
Record ShipPairingRingEntry := mkRing { ring_alg : list byte; ring_digest : list byte }.
Record ShipPairingRingBuffer := mkRingBuffer { entries : list ShipPairingRingEntry; next : Z }.

Record ShipPairing := mkPairing {
  activation_revision : Z;
  timer_restart_in_progress : bool;
  reporting_enabled : bool;
  own_ship_id : string;
  own_fingerprint : string;
  secret : list Z;
  secret_size : nat;
  supported_curves : Z;
  add_cu_activated : bool;
  ring_buffer : ShipPairingRingBuffer;
  message_exchange_available_cb : bool;
  on_enabled_cb : bool;
  reported_enabled : bool;
}.

(** The assignments of the code, by the members they change. *)
Definition set_revision (v : Z) (p : ShipPairing) : ShipPairing :=
  mkPairing v (timer_restart_in_progress p) (reporting_enabled p) (own_ship_id p) (own_fingerprint p)
    (secret p) (secret_size p) (supported_curves p) (add_cu_activated p) (ring_buffer p)
    (message_exchange_available_cb p) (on_enabled_cb p) (reported_enabled p).
Definition set_restart (v : bool) (p : ShipPairing) : ShipPairing :=
  mkPairing (activation_revision p) v (reporting_enabled p) (own_ship_id p) (own_fingerprint p)
    (secret p) (secret_size p) (supported_curves p) (add_cu_activated p) (ring_buffer p)
    (message_exchange_available_cb p) (on_enabled_cb p) (reported_enabled p).
Definition set_reporting (v r : bool) (p : ShipPairing) : ShipPairing :=
  mkPairing (activation_revision p) (timer_restart_in_progress p) v (own_ship_id p) (own_fingerprint p)
    (secret p) (secret_size p) (supported_curves p) (add_cu_activated p) (ring_buffer p)
    (message_exchange_available_cb p) (on_enabled_cb p) r.
Definition set_secret (v : list Z) (n : nat) (p : ShipPairing) : ShipPairing :=
  mkPairing (activation_revision p) (timer_restart_in_progress p) (reporting_enabled p) (own_ship_id p)
    (own_fingerprint p) v n (supported_curves p) (add_cu_activated p) (ring_buffer p)
    (message_exchange_available_cb p) (on_enabled_cb p) (reported_enabled p).
Definition set_curves (v : Z) (p : ShipPairing) : ShipPairing :=
  mkPairing (activation_revision p) (timer_restart_in_progress p) (reporting_enabled p) (own_ship_id p)
    (own_fingerprint p) (secret p) (secret_size p) v (add_cu_activated p) (ring_buffer p)
    (message_exchange_available_cb p) (on_enabled_cb p) (reported_enabled p).
Definition set_activated (v : bool) (p : ShipPairing) : ShipPairing :=
  mkPairing (activation_revision p) (timer_restart_in_progress p) (reporting_enabled p) (own_ship_id p)
    (own_fingerprint p) (secret p) (secret_size p) (supported_curves p) v (ring_buffer p)
    (message_exchange_available_cb p) (on_enabled_cb p) (reported_enabled p).
Definition set_ring_buffer (v : ShipPairingRingBuffer) (p : ShipPairing) : ShipPairing :=
  mkPairing (activation_revision p) (timer_restart_in_progress p) (reporting_enabled p) (own_ship_id p)
    (own_fingerprint p) (secret p) (secret_size p) (supported_curves p) (add_cu_activated p) v
    (message_exchange_available_cb p) (on_enabled_cb p) (reported_enabled p).
Definition set_callbacks (m o : bool) (p : ShipPairing) : ShipPairing :=
  mkPairing (activation_revision p) (timer_restart_in_progress p) (reporting_enabled p) (own_ship_id p)
    (own_fingerprint p) (secret p) (secret_size p) (supported_curves p) (add_cu_activated p) (ring_buffer p)
    m o (reported_enabled p).

(** [++self->activation_revision] *)
Definition next_revision (p : ShipPairing) : ShipPairing := set_revision (u64 (activation_revision p + 1)) p.

Definition zeros (n : nat) : list byte := replicate n x00.
Definition empty_ring_entry : ShipPairingRingEntry :=
  mkRing (zeros SHIP_PAIRING_ALG_BUF_SIZE) (zeros SHIP_PAIRING_DIGEST_BUF_SIZE).
Definition empty_ring_buffer : ShipPairingRingBuffer :=
  mkRingBuffer (replicate SHIP_PAIRING_RING_BUFFER_SIZE empty_ring_entry) 0.

(** ** The ring buffer *)

Definition ShipPairingNextIndex (p : ShipPairing) : nat :=
  if (next (ring_buffer p) =? 0)%Z then 0 else Z.to_nat (next (ring_buffer p) - 1).
Definition ShipPairingCurrentIndex (p : ShipPairing) : nat :=
  let next := ShipPairingNextIndex p in
  if next =? 0 then SHIP_PAIRING_RING_BUFFER_SIZE - 1 else next - 1.

Abbreviation PairingProg := (Prog ShipPairing).

(** An element of the array; none outside of it. *)
Definition ring_entry (i : nat) : PairingProg ShipPairingRingEntry := λ p,
  match entries (ring_buffer p) !! i with
  | Some r => Ret r p
  | None => Crash "ring_buffer.entries"
  end.

(** [buf[0] == '\0'] *)
Definition starts_nul (buf : list byte) : bool := bool_decide (head buf = Some x00).

(** [strcmp(a, b) == 0]: both have to be strings that end. *)
Definition strcmp_eq (a b : option string) : PairingProg bool :=
  match a, b with
  | Some a, Some b => mret (bool_decide (a = b))
  | _, _ => crash "strcmp"
  end.

Fixpoint known_loop (rs : list ShipPairingRingEntry) (e : ShipPairingEntry) : PairingProg bool :=
  match rs with
  | [] => mret false
  | stored :: rs =>
      if starts_nul (ring_digest stored) then known_loop rs e
      else
        same_alg ← strcmp_eq (c_str (ring_alg stored)) (field e alg);
        if same_alg : bool then
          same ← strcmp_eq (c_str (ring_digest stored)) (field e digest);
          if same : bool then mret true else known_loop rs e
        else known_loop rs e
  end.
Definition ShipPairingIsKnownDigest (e : ShipPairingEntry) : PairingProg bool :=
  rs ← gets (λ p, entries (ring_buffer p));
  known_loop rs e.

Definition ShipPairingCopyTo (dst : list byte) (dst_size : nat) (src : option string) : list byte :=
  let size := match src with None => 0 | Some s => String.length s + 1 end in
  if (size =? 0) || (dst_size <? size) then x00 :: drop 1 dst
  else c_array (default "" src) ++ drop size dst.

Definition ShipPairingAddDigest (e : ShipPairingEntry) : PairingProg unit :=
  i ← gets ShipPairingNextIndex;
  _ ← ring_entry i;
  let stored := mkRing
    (ShipPairingCopyTo (zeros SHIP_PAIRING_ALG_BUF_SIZE) SHIP_PAIRING_ALG_BUF_SIZE (field e alg))
    (ShipPairingCopyTo (zeros SHIP_PAIRING_DIGEST_BUF_SIZE) SHIP_PAIRING_DIGEST_BUF_SIZE (field e digest)) in
  modify (λ p,
    let next := if (next (ring_buffer p) =? 0)%Z then 1%Z else next (ring_buffer p) in
    set_ring_buffer (mkRingBuffer (<[i := stored]> (entries (ring_buffer p)))
      (if (Z.of_nat SHIP_PAIRING_RING_BUFFER_SIZE <=? next)%Z then 1%Z else u8 (next + 1))) p).

Definition ShipPairingHasTrustedPeerLocked : PairingProg bool :=
  branch (λ p, next (ring_buffer p) =? 0)%Z (mret false)
    (i ← gets ShipPairingCurrentIndex;
     r ← ring_entry i;
     mret (negb (starts_nul (ring_digest r)))).

Definition ShipPairingRingEntryIsValid (r : ShipPairingRingEntry) : bool :=
  if starts_nul (ring_digest r) then starts_nul (ring_alg r)
  else
    let digits := SHIP_PAIRING_DIGEST_SIZE * 2 in
    bool_decide (take (String.length SHIP_PAIRING_ALG_HMAC_SHA256 + 1) (ring_alg r)
                 = c_array SHIP_PAIRING_ALG_HMAC_SHA256)
    && bool_decide (ring_digest r !! digits = Some x00)
    && forallb (λ b, is_upper_hex (ascii_of_byte b)) (take digits (ring_digest r)).

(** ** The operations, up to where they give the mutex back *)

Definition ShipPairingIsCurveSupported (p : ShipPairing) (curve : option string) : bool :=
  if StringIsEmpty curve then false
  else if value_is curve TLS_CERTIFICATE_CURVE_SECP256R1 then
    negb (Z.land (supported_curves p) kShipPairingCurveSecp256r1 =? 0)%Z
  else if value_is curve TLS_CERTIFICATE_CURVE_BRAINPOOLP256R1 then
    negb (Z.land (supported_curves p) kShipPairingCurveBrainpoolP256r1 =? 0)%Z
  else if value_is curve TLS_CERTIFICATE_CURVE_BRAINPOOLP384R1 then
    negb (Z.land (supported_curves p) kShipPairingCurveBrainpoolP384r1 =? 0)%Z
  else false.

Section operations.
Context `{OpenSsl}.

(** [certificate] is what the object [tls_certificate] holds, if there is one. *)
Definition ShipPairingCreate (own_ship_id : option string) (certificate : option (list byte)) : option ShipPairing :=
  if StringIsEmpty own_ship_id then None
  else
    id ← own_ship_id;
    cert ← certificate;
    fingerprint ← TlsCertificateCalcFingerprintSha256 cert;
    Some (mkPairing 0 false false id fingerprint (replicate SHIP_PAIRING_SECRET_SIZE 0%Z) 0
            (Z.lor (Z.lor kShipPairingCurveSecp256r1 kShipPairingCurveBrainpoolP256r1)
               kShipPairingCurveBrainpoolP384r1)
            true empty_ring_buffer false false false).

Definition ShipPairingEvaluateLocked (entry : option ShipPairingEntry) : PairingProg ShipPairingResult :=
  match entry with
  | None => mret kShipPairingResultError
  | Some e =>
      if negb (ShipPairingEntryIsValid e) then mret kShipPairingResultInvalidRecord
      else
        same_id ← (p ← get; strcmp_eq (field e for_id) (Some (own_ship_id p)));
        if negb same_id then mret kShipPairingResultNotForThisNode
        else
          same_par ← (p ← get; strcmp_eq (field e for_par) (Some (own_fingerprint p)));
          if negb same_par then mret kShipPairingResultNotForThisNode
          else
            branch (λ p, negb (ShipPairingIsCurveSupported p (field e trust_curve)))
              (mret kShipPairingResultUnsupported)
              (is_add_cu ← strcmp_eq (field e type) (Some SHIP_PAIRING_TYPE_ADD_CU);
               branch (λ p, is_add_cu && negb (add_cu_activated p)) (mret kShipPairingResultNotProcessing)
                 (branch (λ p, secret_size p =? 0) (mret kShipPairingResultError)
                    (known ← ShipPairingIsKnownDigest e;
                     if known : bool then mret kShipPairingResultAlreadySeen
                     else
                       branch (λ p, negb (ShipPairingVerifyDigest e (take (secret_size p) (secret p))))
                         (mret kShipPairingResultDigestMismatch)
                         (ShipPairingAddDigest e;;
                          modify (λ p, set_restart true (next_revision (set_activated false p)));;
                          mret kShipPairingResultAccepted))))
  end.

Definition NotifyMessageExchange_locked : PairingProg unit :=
  trusted ← ShipPairingHasTrustedPeerLocked;
  (if trusted : bool then modify (set_activated false) else mret tt);;
  modify (λ p, set_restart true (next_revision p)).

(** The check comes before the mutex; [None] is NULL. *)
Definition ring_buffer_valid (rb : ShipPairingRingBuffer) : bool :=
  (next rb <=? Z.of_nat SHIP_PAIRING_RING_BUFFER_SIZE)%Z && forallb ShipPairingRingEntryIsValid (entries rb).
Definition SetRingBuffer_locked (rb : ShipPairingRingBuffer) : PairingProg unit :=
  modify (set_ring_buffer (if ring_buffer_valid rb then rb else empty_ring_buffer));;
  trusted ← ShipPairingHasTrustedPeerLocked;
  modify (λ p, set_restart true (next_revision (set_activated (negb trusted) p))).

Definition ActivateAddCu_locked (p : ShipPairing) : ShipPairing := next_revision (set_activated true p).
Definition DeactivateAddCu_locked (p : ShipPairing) : ShipPairing := next_revision (set_activated false p).

(** [secret] is the bytes and [None] for NULL. *)
Definition SetSecret_locked (s : option (list Z)) (p : ShipPairing) : ShipPairing :=
  match s with
  | Some bs =>
      if bool_decide (length bs = SHIP_PAIRING_SECRET_SIZE) then set_secret bs (length bs) p
      else set_secret (replicate SHIP_PAIRING_SECRET_SIZE 0%Z) 0 p
  | None => set_secret (replicate SHIP_PAIRING_SECRET_SIZE 0%Z) 0 p
  end.
Definition SetSupportedCurves (curves : Z) (p : ShipPairing) : ShipPairing := set_curves curves p.
Definition SetEnabledCallback (cb : bool) (p : ShipPairing) : ShipPairing :=
  set_callbacks (message_exchange_available_cb p) cb p.
Definition ShipPairingSetMessageExchangeAvailableCallback (cb : bool) (p : ShipPairing) : ShipPairing :=
  next_revision (set_callbacks cb (on_enabled_cb p) p).

Definition IsEnabled (p : ShipPairing) : bool := (0 <? secret_size p) && add_cu_activated p.
Definition IsAddCuActivated (p : ShipPairing) : bool := add_cu_activated p.
Definition GetRingBuffer (p : ShipPairing) : ShipPairingRingBuffer := ring_buffer p.
End operations.

(** ** The invariant *)

(** The size of the arrays. *)
Definition ring_typed (rb : ShipPairingRingBuffer) : Prop :=
  length (entries rb) = SHIP_PAIRING_RING_BUFFER_SIZE ∧ (0 <= next rb < 256)%Z ∧
  Forall (λ r, length (ring_alg r) = SHIP_PAIRING_ALG_BUF_SIZE ∧
               length (ring_digest r) = SHIP_PAIRING_DIGEST_BUF_SIZE) (entries rb).

(** An entry is unset, or it has the one algorithm and a digest, both ended. *)
Definition entry_ok (r : ShipPairingRingEntry) : Prop :=
  c_str (ring_digest r) = Some "" ∨
  c_str (ring_alg r) = Some SHIP_PAIRING_ALG_HMAC_SHA256 ∧
  ∃ d, d ≠ "" ∧ c_str (ring_digest r) = Some d.
Definition ring_ok (rb : ShipPairingRingBuffer) : Prop :=
  length (entries rb) = SHIP_PAIRING_RING_BUFFER_SIZE ∧
  (0 <= next rb <= Z.of_nat SHIP_PAIRING_RING_BUFFER_SIZE)%Z ∧ Forall entry_ok (entries rb).
Definition pairing_ok (p : ShipPairing) : Prop :=
  ring_ok (ring_buffer p) ∧ (secret_size p = 0 ∨ secret_size p = SHIP_PAIRING_SECRET_SIZE) ∧
  length (secret p) = SHIP_PAIRING_SECRET_SIZE.

(** What the ring buffer stands for: the digests from the last to the tenth to last. *)
Definition stored_digest (r : ShipPairingRingEntry) : option string :=
  match c_str (ring_digest r) with Some (String c d) => Some (String c d) | _ => None end.
Definition next_index (rb : ShipPairingRingBuffer) : nat :=
  if (next rb =? 0)%Z then 0 else Z.to_nat (next rb - 1).
Definition recent (rb : ShipPairingRingBuffer) : list (option string) :=
  (λ i, entries rb !! ((next_index rb + 9 - i) mod 10) ≫= stored_digest) <$> seq 0 10.
Definition has_trusted_peer (rb : ShipPairingRingBuffer) : bool :=
  negb (next rb =? 0)%Z && match recent rb with Some _ :: _ => true | _ => false end.

Lemma entry_starts_nul r : entry_ok r → starts_nul (ring_digest r) = bool_decide (stored_digest r = None).
Proof.
  unfold entry_ok, starts_nul, stored_digest. intros Hok.
  assert (∃ d, c_str (ring_digest r) = Some d) as [d Hd] by (destruct Hok as [|(_ & d & _ & ?)]; eauto). clear Hok.
  destruct (ring_digest r) as [|b l]; [done|]. simpl in *.
  destruct (decide (b = x00)) as [->|Hb]; [done|].
  rewrite (bool_decide_false (b = x00)) in * by congruence.
  rewrite (bool_decide_false (Some b = Some x00)) by congruence.
  by destruct (c_str l).
Qed.

Lemma elem_of_cons_ne {A} (x y : A) l : x ≠ y → x ∈ l ↔ x ∈ y :: l.
Proof. intros Hne. rewrite elem_of_cons. split; [by right|]. by intros [|]. Qed.

Lemma known_loop_spec rs e d p :
  Forall entry_ok rs → field e alg = Some SHIP_PAIRING_ALG_HMAC_SHA256 → field e digest = Some d → d ≠ "" →
  known_loop rs e p = Ret (bool_decide (Some d ∈ stored_digest <$> rs)) p.
Proof.
  intros Hrs Ha Hd Hne. induction Hrs as [|r rs Hr _ IH]; [done|]. cbn [known_loop fmap list_fmap].
  rewrite (entry_starts_nul r Hr).
  destruct (decide (stored_digest r = None)) as [Hn|Hn];
    [rewrite (bool_decide_true _ Hn)|rewrite (bool_decide_false _ Hn)].
  - rewrite IH. f_equal. apply bool_decide_ext, elem_of_cons_ne. congruence.
  - destruct Hr as [Hr|(Hra & x & Hx & Hrd)]; [by unfold stored_digest in Hn; rewrite Hr in Hn|].
    rewrite Ha, Hd, Hra, Hrd. unfold mbind, Prog_bind. simpl.
    assert (stored_digest r = Some x) as Es by (unfold stored_digest; rewrite Hrd; by destruct x).
    destruct (decide (x = d)) as [->|Hxd]; [rewrite (bool_decide_true (d = d)) by done|
      rewrite (bool_decide_false _ Hxd)].
    + rewrite bool_decide_true; [done|]. rewrite Es. by left.
    + rewrite IH. f_equal. apply bool_decide_ext, elem_of_cons_ne. congruence.
Qed.

(** The ten elements of the array. *)
Lemma ten_elements {A} (l : list A) : length l = 10 →
  ∃ a b c d e f g h i j, l = [a; b; c; d; e; f; g; h; i; j].
Proof. intros H. do 10 (destruct l as [|? l]; [done|]). destruct l; [by repeat eexists|done]. Qed.

Lemma next_values n : (0 <= n <= 10)%Z →
  n ∈ [0; 1; 2; 3; 4; 5; 6; 7; 8; 9; 10]%Z.
Proof. intros H. rewrite !elem_of_cons. lia. Qed.

(** Case analysis on a well-formed ring buffer: eleven concrete ones. *)
Ltac ring_cases rb Hok :=
  let Hl := fresh in let Hn := fresh in
  destruct rb as [es nx]; destruct Hok as (Hl & Hn & Hok); cbn [entries next] in *;
  apply ten_elements in Hl as (?&?&?&?&?&?&?&?&?&?&->); apply next_values in Hn;
  repeat (apply elem_of_cons in Hn as [->|Hn]); [..|by apply not_elem_of_nil in Hn].

Lemma recent_elem rb d : ring_ok rb → Some d ∈ recent rb ↔ Some d ∈ stored_digest <$> entries rb.
Proof.
  intros Hok. ring_cases rb Hok; cbn; rewrite !elem_of_cons; tauto.
Qed.

Lemma recent_length rb : length (recent rb) = 10.
Proof. done. Qed.

Definition push_entry (r : ShipPairingRingEntry) (rb : ShipPairingRingBuffer) : ShipPairingRingBuffer :=
  let n := if (next rb =? 0)%Z then 1%Z else next rb in
  mkRingBuffer (<[next_index rb := r]> (entries rb))
    (if (Z.of_nat SHIP_PAIRING_RING_BUFFER_SIZE <=? n)%Z then 1%Z else u8 (n + 1)).

Lemma push_entry_spec r rb : ring_ok rb → entry_ok r →
  ring_ok (push_entry r rb) ∧ next (push_entry r rb) ≠ 0%Z ∧
  recent (push_entry r rb) = stored_digest r :: take 9 (recent rb).
Proof.
  intros Hok Hr. split; [|split].
  - destruct Hok as (Hl & Hn & Hf). split; [|split].
    + cbn. by rewrite length_insert.
    + assert (next rb ∈ [0; 1; 2; 3; 4; 5; 6; 7; 8; 9; 10]%Z) as Hv by (by apply next_values).
      unfold push_entry. cbn [next]. repeat (apply elem_of_cons in Hv as [->|Hv]); [..|by apply not_elem_of_nil in Hv];
        vm_compute; split; congruence.
    + cbn. by apply Forall_insert.
  - ring_cases rb Hok; done.
  - ring_cases rb Hok; reflexivity.
Qed.

Lemma ring_entry_next p : ring_ok (ring_buffer p) →
  ∃ r, ring_entry (ShipPairingNextIndex p) p = Ret r p.
Proof.
  intros (Hl & Hn & _). unfold ring_entry, ShipPairingNextIndex.
  destruct (lookup_lt_is_Some_2 (entries (ring_buffer p))
    (if (next (ring_buffer p) =? 0)%Z then 0 else Z.to_nat (next (ring_buffer p) - 1))) as [r ->]; [|eauto].
  rewrite Hl. unfold SHIP_PAIRING_RING_BUFFER_SIZE in *. destruct (Z.eqb_spec (next (ring_buffer p)) 0); lia.
Qed.

Lemma current_entry rb : ring_ok rb → next rb ≠ 0%Z →
  ∃ r, entries rb !! (if next_index rb =? 0 then 9 else next_index rb - 1) = Some r ∧ entry_ok r ∧
       head (recent rb) = Some (stored_digest r).
Proof.
  intros Hok Hn. pose proof Hok as (_ & _ & Hf).
  assert (∃ r, entries rb !! (if next_index rb =? 0 then 9 else next_index rb - 1) = Some r ∧
               head (recent rb) = Some (stored_digest r)) as (r & Hr & Hh).
  { clear Hf. ring_cases rb Hok; try done; eexists; split; reflexivity. }
  exists r. split_and!; [done| |done]. by eapply Forall_lookup_1.
Qed.

Lemma HasTrustedPeer_spec p : ring_ok (ring_buffer p) →
  ShipPairingHasTrustedPeerLocked p = Ret (has_trusted_peer (ring_buffer p)) p.
Proof.
  intros Hok. unfold ShipPairingHasTrustedPeerLocked, branch, has_trusted_peer.
  destruct (Z.eqb_spec (next (ring_buffer p)) 0) as [E|E]; [done|]. cbn [negb andb].
  destruct (current_entry _ Hok E) as (r & Hr & Hrok & Hh).
  unfold mbind, Prog_bind, gets, ring_entry, ShipPairingCurrentIndex, ShipPairingNextIndex.
  fold (next_index (ring_buffer p)). cbv zeta.
  change (SHIP_PAIRING_RING_BUFFER_SIZE - 1) with 9. rewrite Hr.
  rewrite (entry_starts_nul r Hrok). destruct (recent (ring_buffer p)) as [|o l]; [done|].
  injection Hh as ->. by destruct (stored_digest r).
Qed.

(** ** Stored values *)

Lemma upper_hex_no_nul n s : upper_hex n s → no_nul s = true.
Proof.
  intros [_ H]. revert H. clear n. induction s as [|c s IH]; [done|]. simpl. intros [Hc Hs]%andb_true_iff.
  rewrite IH by done. rewrite andb_true_r, negb_true_iff. destruct (Ascii.eqb_spec c Ascii.zero) as [->|]; done.
Qed.

Lemma CopyTo_zeros s n : String.length s + 1 <= n → no_nul s = true →
  c_str (ShipPairingCopyTo (zeros n) n (Some s)) = Some s.
Proof.
  intros Hl Hs. unfold ShipPairingCopyTo.
  rewrite (proj2 (Nat.eqb_neq _ _)), (proj2 (Nat.ltb_ge _ _)) by lia. simpl.
  unfold c_array. rewrite <- (assoc_L (++)). by apply c_str_array.
Qed.

Definition pushed (e : ShipPairingEntry) : ShipPairingRingEntry :=
  mkRing (ShipPairingCopyTo (zeros SHIP_PAIRING_ALG_BUF_SIZE) SHIP_PAIRING_ALG_BUF_SIZE (field e alg))
    (ShipPairingCopyTo (zeros SHIP_PAIRING_DIGEST_BUF_SIZE) SHIP_PAIRING_DIGEST_BUF_SIZE (field e digest)).

Lemma pushed_spec e d : ShipPairingEntryIsValid e = true → field e digest = Some d →
  entry_ok (pushed e) ∧ stored_digest (pushed e) = Some d.
Proof.
  intros (_ & r & (_ & _ & _ & _ & Hd & _) & Hf)%IsValid_spec Ed. rewrite Hf in Ed. injection Ed as <-.
  pose proof (upper_hex_no_nul _ _ Hd) as Hnul. destruct Hd as [Hl _].
  assert (c_str (ring_digest (pushed e)) = Some (r_digest r)) as E.
  { unfold pushed. rewrite (Hf digest). cbn [ring_digest request_value]. apply CopyTo_zeros; [|done].
    rewrite Hl. vm_compute. lia. }
  split.
  - right. split; [|exists (r_digest r); split; [by intros Ex; rewrite Ex in Hl|done]].
    unfold pushed. rewrite (Hf alg). reflexivity.
  - unfold stored_digest. rewrite E. by destruct (r_digest r).
Qed.

Lemma AddDigest_spec e p : ring_ok (ring_buffer p) →
  ShipPairingAddDigest e p = Ret tt (set_ring_buffer (push_entry (pushed e) (ring_buffer p)) p).
Proof.
  intros Hok. destruct (ring_entry_next p Hok) as [r Hr].
  unfold ShipPairingAddDigest, mbind, Prog_bind, gets. by rewrite Hr.
Qed.

(** The check of restored entries admits only well-formed ones. *)
Lemma c_str_ends l l' : Forall (λ b, b ≠ x00) l → l ≠ [] → ∃ d, d ≠ "" ∧ c_str (l ++ x00 :: l') = Some d.
Proof.
  intros Hl Hne.
  assert (∃ d, String.length d = length l ∧ c_str (l ++ x00 :: l') = Some d) as (d & Hd & E).
  { clear Hne. induction Hl as [|b l Hb _ (d & Hd & E)]; [by exists ""|].
    exists (String (ascii_of_byte b) d). simpl. rewrite E, bool_decide_false by done. simpl. by rewrite Hd. }
  exists d. split; [|done]. intros ->. by destruct l.
Qed.

Lemma starts_nul_str buf : starts_nul buf = true → c_str buf = Some "".
Proof. unfold starts_nul. rewrite bool_decide_eq_true. destruct buf; [done|]. simpl. intros [= ->]. done. Qed.

Lemma RingEntryIsValid_ok r : ShipPairingRingEntryIsValid r = true → entry_ok r.
Proof.
  unfold ShipPairingRingEntryIsValid. destruct (starts_nul (ring_digest r)) eqn:Es.
  { intros _. left. by apply starts_nul_str. }
  cbv zeta. rewrite !andb_true_iff, !bool_decide_eq_true. intros [[Ha Hd] Hx]. right. split.
  - rewrite <- (take_drop (String.length SHIP_PAIRING_ALG_HMAC_SHA256 + 1) (ring_alg r)), Ha.
    unfold c_array. rewrite <- (assoc_L (++)). by apply c_str_array.
  - rewrite <- (take_drop_middle _ _ _ Hd). apply c_str_ends.
    + apply Is_true_true, forallb_True in Hx. eapply Forall_impl; [exact Hx|]. by intros b Hb ->.
    + intros E%(f_equal length). rewrite length_take in E. apply lookup_lt_Some in Hd.
      change (SHIP_PAIRING_DIGEST_SIZE * 2) with 64 in *. cbn [length] in E. lia.
Qed.

Lemma empty_ring_ok : ring_ok empty_ring_buffer.
Proof. split; [done|]. split; [vm_compute; split; congruence|]. apply Forall_replicate. by left. Qed.

Lemma ring_buffer_valid_ok rb : ring_typed rb → ring_buffer_valid rb = true → ring_ok rb.
Proof.
  intros (Hl & Hn & _) [Hv Hf]%andb_true_iff. apply Z.leb_le in Hv. split; [done|]. split; [lia|].
  apply Forall_forall. intros r Hr. apply RingEntryIsValid_ok.
  rewrite forallb_forall in Hf. apply Hf. by apply list_elem_of_In.
Qed.

(** ** What is accepted *)

Section evaluate.
Context `{OpenSsl}.

(** A request this node can look at: well formed, addressed to it and with a curve it has. *)
Definition relevant (p : ShipPairing) (e : ShipPairingEntry) : Prop :=
  ShipPairingEntryIsValid e = true ∧ field e for_id = Some (own_ship_id p) ∧
  field e for_par = Some (own_fingerprint p) ∧
  ((field e trust_curve = Some TLS_CERTIFICATE_CURVE_SECP256R1 ∧ Z.testbit (supported_curves p) 0 = true) ∨
   (field e trust_curve = Some TLS_CERTIFICATE_CURVE_BRAINPOOLP256R1 ∧ Z.testbit (supported_curves p) 1 = true) ∨
   (field e trust_curve = Some TLS_CERTIFICATE_CURVE_BRAINPOOLP384R1 ∧ Z.testbit (supported_curves p) 2 = true)).

(** The digest was accepted before, and it is one of the last ten. *)
Definition seen (p : ShipPairing) (e : ShipPairingEntry) : Prop :=
  ∃ d, field e digest = Some d ∧ Some d ∈ recent (ring_buffer p).

Definition authentic (p : ShipPairing) (e : ShipPairingEntry) : Prop :=
  ∃ d, field e digest = Some d ∧ ShipPairingCalcDigest e (secret p) = Some d.

(** What acceptance does. *)
Definition accepted_state (p : ShipPairing) (e : ShipPairingEntry) : ShipPairing :=
  set_restart true (next_revision (set_activated false
    (set_ring_buffer (push_entry (pushed e) (ring_buffer p)) p))).

Lemma bit_set v n : (0 <= n)%Z → negb (Z.land v (Z.shiftl 1 n) =? 0)%Z = Z.testbit v n.
Proof.
  intros Hn. rewrite Z.shiftl_1_l. destruct (Z.testbit v n) eqn:E.
  - destruct (Z.eqb_spec (Z.land v (2 ^ n)) 0) as [E0|]; [|done]. exfalso.
    apply (f_equal (λ x, Z.testbit x n)) in E0.
    rewrite Z.land_spec, E, Z.pow2_bits_true, Z.bits_0 in E0 by done. done.
  - destruct (Z.eqb_spec (Z.land v (2 ^ n)) 0) as [|E0]; [done|]. exfalso. apply E0, Z.bits_inj'. intros m Hm.
    rewrite Z.land_spec, Z.bits_0, Z.pow2_bits_eqb by done.
    destruct (Z.eqb_spec n m) as [->|]; [by rewrite E|by rewrite andb_false_r].
Qed.

Lemma IsCurveSupported_spec p o C : C ∈ curves → o = Some C →
  ShipPairingIsCurveSupported p o = true ↔
  ((o = Some TLS_CERTIFICATE_CURVE_SECP256R1 ∧ Z.testbit (supported_curves p) 0 = true) ∨
   (o = Some TLS_CERTIFICATE_CURVE_BRAINPOOLP256R1 ∧ Z.testbit (supported_curves p) 1 = true) ∨
   (o = Some TLS_CERTIFICATE_CURVE_BRAINPOOLP384R1 ∧ Z.testbit (supported_curves p) 2 = true)).
Proof.
  unfold curves, ShipPairingIsCurveSupported. rewrite !elem_of_cons, elem_of_nil.
  unfold kShipPairingCurveSecp256r1, kShipPairingCurveBrainpoolP256r1, kShipPairingCurveBrainpoolP384r1.
  rewrite !bit_set by lia.
  intros [->|[->|[->|[]]]] ->; cbn [StringIsEmpty]; rewrite bool_decide_false by done; unfold value_is;
    repeat (first [rewrite bool_decide_true by done | rewrite bool_decide_false by done]); cbv iota;
    (split; [auto|]); intros [[E ?]|[[E ?]|[E ?]]]; done.
Qed.

(** The function on a well-formed state, in one equation. *)
Lemma EvaluateLocked_eq p e :
  pairing_ok p →
  ShipPairingEvaluateLocked (Some e) p =
  if negb (ShipPairingEntryIsValid e) then Ret kShipPairingResultInvalidRecord p
  else if negb (bool_decide (field e for_id = Some (own_ship_id p))
                && bool_decide (field e for_par = Some (own_fingerprint p)))
  then Ret kShipPairingResultNotForThisNode p
  else if negb (ShipPairingIsCurveSupported p (field e trust_curve)) then Ret kShipPairingResultUnsupported p
  else if negb (add_cu_activated p) then Ret kShipPairingResultNotProcessing p
  else if secret_size p =? 0 then Ret kShipPairingResultError p
  else if bool_decide (default "" (field e digest) ∈ omap id (recent (ring_buffer p)))
  then Ret kShipPairingResultAlreadySeen p
  else if negb (ShipPairingVerifyDigest e (secret p)) then Ret kShipPairingResultDigestMismatch p
  else Ret kShipPairingResultAccepted (accepted_state p e).
Proof.
  intros (Hring & Hsize & Hsec). unfold ShipPairingEvaluateLocked.
  destruct (ShipPairingEntryIsValid e) eqn:Ev; [|done]. cbn [negb].
  pose proof Ev as (_ & r & (_ & _ & _ & _ & Hd & _) & Hf)%IsValid_spec.
  unfold mbind, Prog_bind, get. rewrite (Hf for_id), (Hf for_par). cbn [strcmp_eq].
  unfold mret, Prog_ret at 1. cbv beta iota.
  rewrite (bool_decide_ext (Some (request_value r for_id) = Some (own_ship_id p))
    (request_value r for_id = own_ship_id p)), (bool_decide_ext (Some (request_value r for_par) = _)
    (request_value r for_par = own_fingerprint p)) by (split; congruence).
  destruct (bool_decide (request_value r for_id = own_ship_id p)); [|done]. cbn [negb andb].
  unfold mret, Prog_ret at 1. cbv beta iota.
  destruct (bool_decide (request_value r for_par = own_fingerprint p)); [|done]. cbn [negb].
  unfold branch. destruct (ShipPairingIsCurveSupported _ _); [|done]. cbn [negb].
  rewrite (Hf type). cbn [strcmp_eq]. unfold mret, Prog_ret at 1. cbv beta iota.
  cbn [request_value]. rewrite bool_decide_true by done. cbn [andb].
  destruct (add_cu_activated p) eqn:Eact; [|done]. cbn [negb].
  destruct (Nat.eqb_spec (secret_size p) 0) as [|Hs]; [done|].
  destruct Hsize as [|Hsize]; [done|].
  unfold ShipPairingIsKnownDigest, mbind, Prog_bind, gets.
  rewrite (known_loop_spec _ e (r_digest r)).
  2:{ by destruct Hring as (_ & _ & ?). } 2:{ apply Hf. } 2:{ apply Hf. }
  2:{ intros Ex. destruct Hd as [Hd _]. by rewrite Ex in Hd. }
  rewrite (bool_decide_ext (Some (r_digest r) ∈ _) (default "" (field e digest) ∈ omap id (recent (ring_buffer p)))).
  2:{ rewrite <- recent_elem by done. rewrite (Hf digest). cbn [default request_value]. rewrite list_elem_of_omap.
      split; [intros ?; by exists (Some (r_digest r))|]. intros (? & ? & E). simpl in E. by subst. }
  destruct (bool_decide _); [done|]. rewrite Hsize, take_ge by (by rewrite Hsec).
  destruct (ShipPairingVerifyDigest _ _); [|done]. cbn [negb].
  by rewrite AddDigest_spec.
Qed.

Lemma relevant_spec p e : relevant p e ↔
  ShipPairingEntryIsValid e = true ∧ field e for_id = Some (own_ship_id p) ∧
  field e for_par = Some (own_fingerprint p) ∧ ShipPairingIsCurveSupported p (field e trust_curve) = true.
Proof.
  unfold relevant. split; intros (Hv & Hi & Hp & Hc); split_and!; try done;
    apply IsValid_spec in Hv as (_ & r & (_ & _ & _ & _ & _ & _ & HC) & Hf);
    by apply (IsCurveSupported_spec p _ _ HC (Hf trust_curve)).
Qed.

Lemma seen_spec p e d : field e digest = Some d →
  seen p e ↔ default "" (field e digest) ∈ omap id (recent (ring_buffer p)).
Proof.
  intros Hd. unfold seen. rewrite Hd, list_elem_of_omap. cbn [default]. split.
  - intros (x & [= <-] & Hin). by exists (Some d).
  - intros (? & Hin & E). simpl in E. subst. eauto.
Qed.

Lemma authentic_spec p e d : field e digest = Some d → d ≠ "" →
  ShipPairingVerifyDigest e (secret p) = true ↔ authentic p e.
Proof.
  intros Hd Hne. rewrite ShipPairingVerifyDigest_spec. unfold authentic. split.
  - intros (? & _ & ? & ?). eauto.
  - intros (x & E & ?). exists x. split_and!; try done. congruence.
Qed.

Lemma accepted_ok p e : pairing_ok p → ShipPairingEntryIsValid e = true → pairing_ok (accepted_state p e).
Proof.
  intros (Hr & Hs) Hv. split; [|exact Hs]. pose proof Hv as (_ & r & _ & Hf)%IsValid_spec.
  destruct (pushed_spec e (r_digest r) Hv (Hf digest)) as [Hok _].
  by destruct (push_entry_spec (pushed e) (ring_buffer p) Hr Hok).
Qed.

(** Closes the case of a result that leaves the state as it is. *)
Ltac refused := eexists _, _; split; [reflexivity|]; split; [assumption|]; intuition congruence.

(** C31: A request is accepted exactly when its record is valid, it is addressed to this node
    and its certificate, the node has the curve, additions are being processed, a
    secret is set, the digest is not one of the last ten accepted ones and it is the one this
    node computes.  Acceptance enters the digest as the most recent one, drops the oldest,
    and stops the processing of additions; with any other result nothing
    changes.  A digest that was accepted is reported as seen whether or not it is
    authentic, and a mismatch only of a digest that is new. *)
Theorem evaluate_exact p e :
  pairing_ok p →
  ∃ r p', ShipPairingEvaluateLocked (Some e) p = Ret r p' ∧ pairing_ok p' ∧
    (r = kShipPairingResultAccepted ↔
       relevant p e ∧ add_cu_activated p = true ∧ secret_size p ≠ 0 ∧ ¬ seen p e ∧ authentic p e) ∧
    (r = kShipPairingResultAccepted →
       recent (ring_buffer p') = field e digest :: take 9 (recent (ring_buffer p)) ∧
       has_trusted_peer (ring_buffer p') = true ∧ IsEnabled p' = false ∧
       timer_restart_in_progress p' = true) ∧
    (r ≠ kShipPairingResultAccepted → p' = p) ∧
    (r = kShipPairingResultAlreadySeen ↔
       relevant p e ∧ add_cu_activated p = true ∧ secret_size p ≠ 0 ∧ seen p e) ∧
    (r = kShipPairingResultDigestMismatch ↔
       relevant p e ∧ add_cu_activated p = true ∧ secret_size p ≠ 0 ∧ ¬ seen p e ∧ ¬ authentic p e).
Proof.
  intros Hok. rewrite (EvaluateLocked_eq p e Hok). setoid_rewrite (relevant_spec p e).
  destruct (ShipPairingEntryIsValid e) eqn:Ev; cbn [negb].
  2: refused.
  pose proof Ev as (_ & r & (_ & _ & _ & _ & [Hd _] & _) & Hf)%IsValid_spec.
  assert (r_digest r ≠ "") as Hne by (intros E; by rewrite E in Hd).
  setoid_rewrite (seen_spec p e _ (Hf digest)). setoid_rewrite <- (authentic_spec p e _ (Hf digest) Hne).
  destruct (decide (field e for_id = Some (own_ship_id p))) as [Hi|Hi];
    [rewrite (bool_decide_true _ Hi)|rewrite (bool_decide_false _ Hi); cbn [negb andb];
      refused].
  destruct (decide (field e for_par = Some (own_fingerprint p))) as [Hp|Hp];
    [rewrite (bool_decide_true _ Hp)|rewrite (bool_decide_false _ Hp); cbn [negb andb];
      refused].
  cbn [negb andb].
  destruct (ShipPairingIsCurveSupported _ _); cbn [negb];
    [|refused].
  destruct (add_cu_activated p) eqn:Eact; cbn [negb]; [|refused].
  destruct (Nat.eqb_spec (secret_size p) 0) as [Hs|Hs]; [refused|].
  destruct (decide (default "" (field e digest) ∈ omap id (recent (ring_buffer p)))) as [Hx|Hx];
    [rewrite (bool_decide_true _ Hx)|rewrite (bool_decide_false _ Hx)];
    [refused|].
  destruct (ShipPairingVerifyDigest e (secret p)); cbn [negb]; [|refused].
  eexists _, _. split; [done|]. split; [by apply accepted_ok|].
  destruct (pushed_spec e (r_digest r) Ev (Hf digest)) as [Hpok Hps]. destruct Hok as [Hring _].
  destruct (push_entry_spec (pushed e) (ring_buffer p) Hring Hpok) as (_ & Hnext & Hrec).
  split; [intuition congruence|]. split; [|intuition congruence]. intros _.
  change (ring_buffer (accepted_state p e)) with (push_entry (pushed e) (ring_buffer p)).
  rewrite Hrec, Hps, (Hf digest). split_and!; try done.
  - unfold has_trusted_peer. rewrite Hrec, Hps. by destruct (Z.eqb_spec (next (push_entry (pushed e) (ring_buffer p))) 0).
  - unfold IsEnabled, accepted_state. simpl. by rewrite andb_false_r.
Qed.
End evaluate.
