(* ===== verification/PairingRun.v ===== *)
(** * Pairing over time ([src/ship/ship_pairing/ship_pairing.c])

    The evaluator is called by the thread that browses, by the threads of the connections, by the
    application, and by the thread of its timer.  A step of this file is one critical section of
    one of them, or the passing of time; any order of steps in which each
    thread keeps its own order is a run.

    The operations that restart the timer hold [timer_mutex] from before their first section to
    after their last, so there is at most one of them ([restart]).  The callback of the timer runs
    with the mutex of the timer, so [EEBUS_TIMER_STOP] waits for it.  The timer does not fire before
    its deadline: spurious wake-ups and jumps of the clock, which [Timer] leaves
    open, are excluded here. *)

From Stdlib Require Import Ascii Strings.String.
From S2P Require Import Prelude StringUtil Json PairingEntry PairingDigest ShipPairing.

Local Open Scope string_scope.
Local Open Scope list_scope.
Local Open Scope nat_scope.

Arguments recent : simpl never.

(** ** The system *)

(** Where the operation that holds [timer_mutex] is in [ShipPairingRestartReactivationTimer]. *)
Inductive RestartPc := RestartIdle | RestartStop | RestartCheck | RestartStart (has_trusted_peer : bool) | RestartClear.

(** Where the thread of the timer is in [ShipPairingTimeoutCallback]. *)
Inductive CallbackPc :=
| CallbackNone
| CallbackFired
| CallbackAsk (revision : Z) (cb : bool)
| CallbackDecide (revision : Z) (message_exchange_available : bool)
| CallbackReport
| CallbackReporting.

(** Who is in the loop of [ShipPairingReportEnabled]. *)
Inductive Reporter := ReporterTimer | ReporterCaller.

#[export] Instance RestartPc_eq_dec : EqDecision RestartPc.
Proof. solve_decision. Defined.
#[export] Instance CallbackPc_eq_dec : EqDecision CallbackPc.
Proof. solve_decision. Defined.

(** What can be observed, with its time: a digest was accepted; a message exchange was
    notified or a ring buffer was restored, with a trusted peer or without; additions were
    activated or deactivated by a call, or activated by the timer; a change was reported. *)
Inductive Event :=
| EvAccepted (d : string)
| EvNotified (trusted : bool)
| EvRestored (trusted : bool)
| EvActivated
| EvDeactivated
| EvReactivated
| EvReport (enabled delivered : bool).

Record Sys := mkSys {
  pairing : ShipPairing;
  now : Z;
  timer : option Z;
  restart : RestartPc;
  callback : CallbackPc;
  waiting : nat;
  reporter : option Reporter;
  log : list (Z * Event);
}.

(** Seconds from the start of the timer to its deadline. *)
Definition reactivation_seconds : Z := SHIP_PAIRING_REACTIVATION_MINUTES * 60.

Definition init (p : ShipPairing) (now : Z) : Sys := mkSys p now None RestartIdle CallbackNone 0 None [].

Inductive Label :=
| Tick (seconds : Z)
| Evaluate (entry : option ShipPairingEntry)
| NotifyMessageExchange
| SetRingBuffer (rb : ShipPairingRingBuffer)
| ActivateAddCu
| DeactivateAddCu
| SetSecret (s : option (list Z))
| CallSetSupportedCurves (curves : Z)
| CallSetEnabledCallback (cb : bool)
| CallSetMessageExchangeAvailableCallback (cb : bool)
| TimerFires
| RestartStep
| CallbackStep (answer : bool)
| CallReport (who : Reporter)
| ReportStep.

Definition set_pairing (p : ShipPairing) (s : Sys) : Sys :=
  mkSys p (now s) (timer s) (restart s) (callback s) (waiting s) (reporter s) (log s).
Definition set_timer (t : option Z) (s : Sys) : Sys :=
  mkSys (pairing s) (now s) t (restart s) (callback s) (waiting s) (reporter s) (log s).
Definition set_restart_pc (r : RestartPc) (s : Sys) : Sys :=
  mkSys (pairing s) (now s) (timer s) r (callback s) (waiting s) (reporter s) (log s).
Definition set_callback (c : CallbackPc) (s : Sys) : Sys :=
  mkSys (pairing s) (now s) (timer s) (restart s) c (waiting s) (reporter s) (log s).
Definition set_waiting (n : nat) (s : Sys) : Sys :=
  mkSys (pairing s) (now s) (timer s) (restart s) (callback s) n (reporter s) (log s).
Definition set_reporter (r : option Reporter) (s : Sys) : Sys :=
  mkSys (pairing s) (now s) (timer s) (restart s) (callback s) (waiting s) r (log s).
Definition add_event (ev : Event) (s : Sys) : Sys :=
  mkSys (pairing s) (now s) (timer s) (restart s) (callback s) (waiting s) (reporter s) ((now s, ev) :: log s).

Section run.
Context `{OpenSsl}.

Abbreviation SysProg := (Prog Sys).

(** A section that works on the evaluator only. *)
Definition on_pairing {A} (m : PairingProg A) : SysProg A := λ s,
  match m (pairing s) with
  | Ret a p => Ret a (set_pairing p s)
  | Block p => Block (set_pairing p s)
  | Crash why => Crash why
  end.

(** Waits until a condition holds. *)
Definition await (c : Sys → bool) : SysProg unit := branch c (mret tt) block.

(** The first section of [Evaluate]; the rest is the restart. *)
Definition Evaluate_step (entry : option ShipPairingEntry) : SysProg unit :=
  await (λ s, bool_decide (restart s = RestartIdle));;
  result ← on_pairing (ShipPairingEvaluateLocked entry);
  if bool_decide (result = kShipPairingResultAccepted)
  then modify (λ s, add_event (EvAccepted (default "" (entry ≫= λ e, field e digest))) (set_restart_pc RestartStop s))
  else mret tt.

Definition NotifyMessageExchange_step : SysProg unit :=
  await (λ s, bool_decide (restart s = RestartIdle));;
  trusted ← on_pairing ShipPairingHasTrustedPeerLocked;
  on_pairing NotifyMessageExchange_locked;;
  modify (λ s, add_event (EvNotified trusted) (set_restart_pc RestartStop s)).

Definition SetRingBuffer_step (rb : ShipPairingRingBuffer) : SysProg unit :=
  await (λ s, bool_decide (restart s = RestartIdle));;
  on_pairing (SetRingBuffer_locked rb);;
  trusted ← on_pairing ShipPairingHasTrustedPeerLocked;
  modify (λ s, add_event (EvRestored trusted) (set_restart_pc RestartStop s)).

(** [ShipPairingRestartReactivationTimer], up to the next lock or wait. *)
Definition RestartReactivationTimer_step : SysProg unit :=
  pc ← gets restart;
  match pc with
  | RestartIdle => block
  | RestartStop =>
      await (λ s, bool_decide (callback s = CallbackNone));;
      modify (λ s, set_restart_pc RestartCheck (set_timer None s))
  | RestartCheck =>
      has_trusted_peer ← on_pairing ShipPairingHasTrustedPeerLocked;
      modify (set_restart_pc (RestartStart has_trusted_peer))
  | RestartStart has_trusted_peer =>
      modify (λ s, set_restart_pc RestartClear
        (if has_trusted_peer then set_timer (Some (now s + reactivation_seconds)%Z) s else s))
  | RestartClear =>
      on_pairing (modify (set_restart false));;
      modify (λ s, set_restart_pc RestartIdle (set_waiting (S (waiting s)) s))
  end.

Definition TimerFires_step : SysProg unit :=
  await (λ s, match timer s with Some d => (d <=? now s)%Z | None => false end
              && bool_decide (callback s = CallbackNone));;
  modify (λ s, set_callback CallbackFired (set_timer None s)).

(** [ShipPairingTimeoutCallback], up to the next lock; [answer] is that of the application. *)
Definition TimeoutCallback_step (answer : bool) : SysProg unit :=
  pc ← gets callback;
  match pc with
  | CallbackFired =>
      branch (λ s, timer_restart_in_progress (pairing s))
        (modify (set_callback CallbackNone))
        (modify (λ s, set_callback (CallbackAsk (activation_revision (pairing s))
                                     (message_exchange_available_cb (pairing s))) s))
  | CallbackAsk revision cb => modify (set_callback (CallbackDecide revision (cb && answer)))
  | CallbackDecide revision message_exchange_available =>
      branch (λ s, negb (revision =? activation_revision (pairing s))%Z || timer_restart_in_progress (pairing s))
        (modify (set_callback CallbackNone))
        (on_pairing (modify (λ p, next_revision (set_activated (negb message_exchange_available) p)));;
         (if message_exchange_available : bool then mret tt else modify (add_event EvReactivated));;
         modify (set_callback CallbackReport))
  | CallbackNone | CallbackReport | CallbackReporting => block
  end.

(** The loop of [ShipPairingReportEnabled] from its test to the unlock before the callback, or
    to its end. *)
Definition report_iterate (who : Reporter) : SysProg unit :=
  branch (λ s, bool_decide (IsEnabled (pairing s) = reported_enabled (pairing s)))
    (on_pairing (modify (λ p, set_reporting false (reported_enabled p) p));;
     modify (set_reporter None);;
     match who with ReporterTimer => modify (set_callback CallbackNone) | ReporterCaller => mret tt end)
    (modify (λ s, add_event (EvReport (IsEnabled (pairing s)) (on_enabled_cb (pairing s)))
               (set_reporter (Some who)
                 (set_pairing (set_reporting (reporting_enabled (pairing s)) (IsEnabled (pairing s)) (pairing s)) s)));;
     match who with ReporterTimer => modify (set_callback CallbackReporting) | ReporterCaller => mret tt end).

(** The call of [ShipPairingReportEnabled], by the thread of the timer or by one that waits to
    make it; another one may be in the loop already. *)
Definition ReportEnabled_step (who : Reporter) : SysProg unit :=
  match who with
  | ReporterTimer => await (λ s, bool_decide (callback s = CallbackReport))
  | ReporterCaller => await (λ s, 0 <? waiting s);; modify (λ s, set_waiting (waiting s - 1) s)
  end;;
  branch (λ s, reporting_enabled (pairing s))
    match who with ReporterTimer => modify (set_callback CallbackNone) | ReporterCaller => mret tt end
    (on_pairing (modify (λ p, set_reporting true (reported_enabled p) p));; report_iterate who).

(** The callback of the application has returned. *)
Definition ReportNext_step : SysProg unit :=
  who ← gets reporter;
  match who with None => block | Some who => report_iterate who end.

Definition step (l : Label) : SysProg unit :=
  match l with
  | Tick seconds =>
      await (λ _, 0 <=? seconds)%Z;;
      modify (λ s, mkSys (pairing s) (now s + seconds) (timer s) (restart s) (callback s) (waiting s) (reporter s) (log s))
  | Evaluate entry => Evaluate_step entry
  | NotifyMessageExchange => NotifyMessageExchange_step
  | SetRingBuffer rb => SetRingBuffer_step rb
  | ActivateAddCu =>
      on_pairing (modify ActivateAddCu_locked);;
      modify (λ s, add_event EvActivated (set_waiting (S (waiting s)) s))
  | DeactivateAddCu =>
      on_pairing (modify DeactivateAddCu_locked);;
      modify (λ s, add_event EvDeactivated (set_waiting (S (waiting s)) s))
  | SetSecret sec => on_pairing (modify (SetSecret_locked sec));; modify (λ s, set_waiting (S (waiting s)) s)
  | CallSetSupportedCurves curves => on_pairing (modify (SetSupportedCurves curves))
  | CallSetEnabledCallback cb => on_pairing (modify (SetEnabledCallback cb))
  | CallSetMessageExchangeAvailableCallback cb =>
      on_pairing (modify (ShipPairingSetMessageExchangeAvailableCallback cb))
  | TimerFires => TimerFires_step
  | RestartStep => RestartReactivationTimer_step
  | CallbackStep answer => TimeoutCallback_step answer
  | CallReport who => ReportEnabled_step who
  | ReportStep => ReportNext_step
  end.

Fixpoint run (ls : list Label) : SysProg unit :=
  match ls with
  | [] => mret tt
  | l :: ls => step l;; run ls
  end.

(** The buffers given to [SetRingBuffer] have the size of their type. *)
Definition label_ok (l : Label) : Prop :=
  match l with SetRingBuffer rb => ring_typed rb | _ => True end.
End run.

(** ** The steps as a relation

    What each section does to a well-formed state. *)

Definition leave (who : Reporter) (s : Sys) : Sys :=
  match who with ReporterTimer => set_callback CallbackNone s | ReporterCaller => s end.
Definition enter (who : Reporter) (s : Sys) : Sys :=
  match who with ReporterTimer => s | ReporterCaller => set_waiting (waiting s - 1) s end.
Definition can_enter (who : Reporter) (s : Sys) : Prop :=
  match who with ReporterTimer => callback s = CallbackReport | ReporterCaller => 0 < waiting s end.
Definition finish (who : Reporter) (s : Sys) : Sys :=
  leave who (set_reporter None (set_pairing (set_reporting false (reported_enabled (pairing s)) (pairing s)) s)).
Definition tell (who : Reporter) (s : Sys) : Sys :=
  let s' := add_event (EvReport (IsEnabled (pairing s)) (on_enabled_cb (pairing s)))
    (set_reporter (Some who) (set_pairing (set_reporting true (IsEnabled (pairing s)) (pairing s)) s)) in
  match who with ReporterTimer => set_callback CallbackReporting s' | ReporterCaller => s' end.

(** Those that finish what was begun. *)
Inductive itrans (s : Sys) : Sys → Prop :=
| ItRestartStop : restart s = RestartStop → callback s = CallbackNone →
    itrans s (set_restart_pc RestartCheck (set_timer None s))
| ItRestartCheck trusted : restart s = RestartCheck → itrans s (set_restart_pc (RestartStart trusted) s)
| ItRestartStart (trusted : bool) : restart s = RestartStart trusted →
    itrans s (set_restart_pc RestartClear
      (if trusted then set_timer (Some (now s + reactivation_seconds)%Z) s else s))
| ItRestartClear : restart s = RestartClear →
    itrans s (set_restart_pc RestartIdle (set_waiting (S (waiting s)) (set_pairing (set_restart false (pairing s)) s)))
| ItSuppressed : callback s = CallbackFired → timer_restart_in_progress (pairing s) = true →
    itrans s (set_callback CallbackNone s)
| ItAsk cb : callback s = CallbackFired → timer_restart_in_progress (pairing s) = false →
    itrans s (set_callback (CallbackAsk (activation_revision (pairing s)) cb) s)
| ItAnswer revision cb available : callback s = CallbackAsk revision cb →
    itrans s (set_callback (CallbackDecide revision available) s)
| ItStale revision available : callback s = CallbackDecide revision available →
    revision ≠ activation_revision (pairing s) ∨ timer_restart_in_progress (pairing s) = true →
    itrans s (set_callback CallbackNone s)
| ItAvailable : callback s = CallbackDecide (activation_revision (pairing s)) true →
    timer_restart_in_progress (pairing s) = false →
    itrans s (set_callback CallbackReport (set_pairing (next_revision (set_activated false (pairing s))) s))
| ItReactivate : callback s = CallbackDecide (activation_revision (pairing s)) false →
    timer_restart_in_progress (pairing s) = false →
    itrans s (set_callback CallbackReport (add_event EvReactivated
      (set_pairing (next_revision (set_activated true (pairing s))) s)))
| ItReportBusy who : can_enter who s → reporting_enabled (pairing s) = true → itrans s (leave who (enter who s))
| ItReportFinish who : can_enter who s → reporting_enabled (pairing s) = false →
    IsEnabled (pairing s) = reported_enabled (pairing s) → itrans s (finish who (enter who s))
| ItReportTell who : can_enter who s → reporting_enabled (pairing s) = false →
    IsEnabled (pairing s) ≠ reported_enabled (pairing s) → itrans s (tell who (enter who s))
| ItNextFinish who : reporter s = Some who →
    IsEnabled (pairing s) = reported_enabled (pairing s) → itrans s (finish who s)
| ItNextTell who : reporter s = Some who → reporting_enabled (pairing s) = true →
    IsEnabled (pairing s) ≠ reported_enabled (pairing s) → itrans s (tell who s).

Inductive trans (s : Sys) : Sys → Prop :=
| TrNothing : trans s s
| TrTick seconds : (0 <= seconds)%Z →
    trans s (mkSys (pairing s) (now s + seconds) (timer s) (restart s) (callback s) (waiting s) (reporter s) (log s))
| TrAccept e d :
    restart s = RestartIdle → add_cu_activated (pairing s) = true → ShipPairingEntryIsValid e = true →
    field e digest = Some d → Some d ∉ recent (ring_buffer (pairing s)) →
    trans s (add_event (EvAccepted d) (set_restart_pc RestartStop (set_pairing (accepted_state (pairing s) e) s)))
| TrNotify trusted :
    restart s = RestartIdle →
    trans s (add_event (EvNotified trusted) (set_restart_pc RestartStop (set_pairing
      (set_restart true (next_revision (if trusted : bool then set_activated false (pairing s) else pairing s))) s)))
| TrRestore rb :
    restart s = RestartIdle → ring_ok rb →
    trans s (add_event (EvRestored (has_trusted_peer rb)) (set_restart_pc RestartStop (set_pairing
      (set_restart true (next_revision (set_activated (negb (has_trusted_peer rb))
        (set_ring_buffer rb (pairing s))))) s)))
| TrActivate :
    trans s (add_event EvActivated (set_waiting (S (waiting s)) (set_pairing (ActivateAddCu_locked (pairing s)) s)))
| TrDeactivate :
    trans s (add_event EvDeactivated (set_waiting (S (waiting s)) (set_pairing (DeactivateAddCu_locked (pairing s)) s)))
| TrSecret sec :
    trans s (set_waiting (S (waiting s)) (set_pairing (SetSecret_locked sec (pairing s)) s))
| TrCurves curves : trans s (set_pairing (SetSupportedCurves curves (pairing s)) s)
| TrEnabledCallback cb : trans s (set_pairing (SetEnabledCallback cb (pairing s)) s)
| TrExchangeCallback cb :
    trans s (set_pairing (ShipPairingSetMessageExchangeAvailableCallback cb (pairing s)) s)
| TrFire d : timer s = Some d → (d <= now s)%Z → callback s = CallbackNone →
    trans s (set_callback CallbackFired (set_timer None s))
| TrInternal s' : itrans s s' → trans s s'.

(** What makes a state one the relation speaks of. *)
Record sys_ok (s : Sys) : Prop := {
  ok_pairing : pairing_ok (pairing s);
  ok_flag : timer_restart_in_progress (pairing s) = negb (bool_decide (restart s = RestartIdle));
  ok_reporter : reporting_enabled (pairing s) = bool_decide (reporter s ≠ None);
  ok_reporting : callback s = CallbackReporting ↔ reporter s = Some ReporterTimer;
}.

Lemma SetSecret_ok sec p : pairing_ok p → pairing_ok (SetSecret_locked sec p).
Proof.
  intros (Hr & _). unfold SetSecret_locked. destruct sec as [bs|]; [case_bool_decide as Hb|];
    (split; [done|]); simpl; auto.
Qed.

Lemma SetSecret_eq sec p : ∃ bs n, SetSecret_locked sec p = set_secret bs n p.
Proof. unfold SetSecret_locked. repeat case_match; eauto. Qed.

(** The cases of a transition, with what its conditions say put into the hypotheses. *)
Ltac trans_cases Ht :=
  destruct Ht; try match goal with Hi : itrans _ _ |- _ => destruct Hi end;
  repeat match goal with
    | who : Reporter |- _ => destruct who
    | trusted : bool, _ : restart _ = RestartStart ?trusted |- _ => destruct trusted
    | trusted : bool |- context [if ?trusted then _ else _] => destruct trusted
    | |- context [SetSecret_locked ?sec ?p] =>
        let E := fresh "Esec" in destruct (SetSecret_eq sec p) as (? & ? & E); rewrite E in *
    end; cbn in *;
  repeat match goal with
    | E : restart ?s = _ |- _ => rewrite !E in *; revert E
    | E : callback ?s = _ |- _ => rewrite !E in *; revert E
    | E : reporter ?s = _ |- _ => rewrite !E in *; revert E
    end; intros.

Lemma not_reporting s : sys_ok s → reporting_enabled (pairing s) = false → reporter s = None.
Proof.
  intros Hok E. rewrite (ok_reporter s Hok), bool_decide_eq_false in E. by apply dec_stable in E.
Qed.

Lemma sys_ok_trans s s' : sys_ok s → trans s s' → sys_ok s'.
Proof.
  intros Hok Ht. pose proof (not_reporting s Hok) as Hnot. destruct Hok as [Hp Hf Hr Hc].
  pose proof Hp as (Hring & Hsec). pose proof (λ sec, SetSecret_ok sec _ Hp) as Hsecret.
  trans_cases Ht; constructor; cbn; rewrite ?bool_decide_true by done; rewrite ?bool_decide_false by done;
    try done; try (by apply accepted_ok); try (intuition congruence).
  rewrite <- Esec. apply Hsecret.
Qed.

Section steps.
Context `{OpenSsl}.

Lemma wp_on_pairing {A} (m : PairingProg A) (a : A) p Q s :
  m (pairing s) = Ret a p → Q a (set_pairing p s) → wp (on_pairing m) Q s.
Proof. intros E HQ. unfold wp, on_pairing. by rewrite E. Qed.

Lemma wp_await c Q s : (c s = true → Q tt s) → wp (await c) Q s.
Proof. intros HQ. unfold await. apply wp_branch; [apply HQ|done]. Qed.

Lemma Notify_spec p : pairing_ok p →
  NotifyMessageExchange_locked p = Ret tt (set_restart true (next_revision
    (if has_trusted_peer (ring_buffer p) then set_activated false p else p))).
Proof.
  intros (Hr & _). unfold NotifyMessageExchange_locked, mbind, Prog_bind.
  rewrite HasTrustedPeer_spec by done. by destruct (has_trusted_peer _).
Qed.

Lemma SetRingBuffer_spec rb p : ring_typed rb →
  ∃ rb', ring_ok rb' ∧ rb' = (if ring_buffer_valid rb then rb else empty_ring_buffer) ∧
    SetRingBuffer_locked rb p = Ret tt (set_restart true (next_revision
      (set_activated (negb (has_trusted_peer rb')) (set_ring_buffer rb' p)))).
Proof.
  intros Ht. eexists. split; [|split; [reflexivity|]].
  - destruct (ring_buffer_valid rb) eqn:Ev; [by apply ring_buffer_valid_ok|apply empty_ring_ok].
  - unfold SetRingBuffer_locked, mbind, Prog_bind, modify. rewrite HasTrustedPeer_spec; [done|]. simpl.
    destruct (ring_buffer_valid rb) eqn:Ev; [by apply ring_buffer_valid_ok|apply empty_ring_ok].
Qed.

(** What is left of [evaluate_exact] for a run. *)
Lemma Evaluate_spec entry p : pairing_ok p →
  ∃ r p', ShipPairingEvaluateLocked entry p = Ret r p' ∧
    (r ≠ kShipPairingResultAccepted ∧ p' = p ∨
     r = kShipPairingResultAccepted ∧ ∃ e d, entry = Some e ∧ field e digest = Some d ∧
       ShipPairingEntryIsValid e = true ∧ add_cu_activated p = true ∧
       (Some d ∉ recent (ring_buffer p)) ∧ p' = accepted_state p e).
Proof.
  intros Hok. destruct entry as [e|]; [|by eexists _, _; split; [reflexivity|left]].
  rewrite (EvaluateLocked_eq p e Hok). destruct (ShipPairingEntryIsValid e) eqn:Ev; cbn [negb];
    [|by eexists _, _; split; [reflexivity|left]].
  pose proof Ev as (_ & r & _ & Hf)%IsValid_spec.
  destruct (bool_decide _ && _); cbn [negb]; [|by eexists _, _; split; [reflexivity|left]].
  destruct (ShipPairingIsCurveSupported _ _); cbn [negb]; [|by eexists _, _; split; [reflexivity|left]].
  destruct (add_cu_activated p) eqn:Ea; cbn [negb]; [|by eexists _, _; split; [reflexivity|left]].
  destruct (secret_size p =? 0); [by eexists _, _; split; [reflexivity|left]|].
  destruct (decide (default "" (field e digest) ∈ omap id (recent (ring_buffer p)))) as [Hx|Hx];
    [rewrite (bool_decide_true _ Hx)|rewrite (bool_decide_false _ Hx)];
    [by eexists _, _; split; [reflexivity|left]|].
  destruct (ShipPairingVerifyDigest _ _); cbn [negb]; [|by eexists _, _; split; [reflexivity|left]].
  eexists _, _. split; [reflexivity|]. right. split; [done|]. exists e, (request_value r digest).
  rewrite (Hf digest). split_and!; try done. intros Hin. apply Hx. rewrite (Hf digest).
  apply list_elem_of_omap. by exists (Some (request_value r digest)).
Qed.

Lemma Evaluate_trans entry s : sys_ok s → wp (Evaluate_step entry) (λ _, trans s) s.
Proof.
  intros Hok. apply wp_bind, wp_await. intros Hi. apply bool_decide_eq_true in Hi.
  destruct (Evaluate_spec entry (pairing s) (ok_pairing s Hok)) as (r & p' & E & Hr).
  apply wp_bind. eapply wp_on_pairing; [exact E|].
  destruct Hr as [[Hr ->]|(-> & e & d & -> & Hd & Hv & Ha & Hn & ->)].
  - rewrite bool_decide_false by done. apply wp_ret. destruct s. apply TrNothing.
  - rewrite bool_decide_true by done. apply wp_modify. simpl. rewrite Hd. simpl. by apply TrAccept.
Qed.

Lemma Notify_trans s : sys_ok s → wp NotifyMessageExchange_step (λ _, trans s) s.
Proof.
  intros Hok. apply wp_bind, wp_await. intros Hi. apply bool_decide_eq_true in Hi.
  pose proof (ok_pairing s Hok) as Hp.
  apply wp_bind. eapply wp_on_pairing; [by apply HasTrustedPeer_spec; destruct Hp|].
  apply wp_bind. eapply wp_on_pairing; [by apply (Notify_spec (pairing s))|]. apply wp_modify.
  destruct s as [p nw t rs cb w rep lg]. by apply (TrNotify (mkSys p nw t rs cb w rep lg)).
Qed.

Lemma SetRingBuffer_trans rb s : ring_typed rb → wp (SetRingBuffer_step rb) (λ _, trans s) s.
Proof.
  intros Ht. apply wp_bind, wp_await. intros Hi. apply bool_decide_eq_true in Hi.
  destruct (SetRingBuffer_spec rb (pairing s) Ht) as (rb' & Hrb & _ & E).
  apply wp_bind. eapply wp_on_pairing; [exact E|].
  apply wp_bind. eapply wp_on_pairing; [by apply HasTrustedPeer_spec|]. apply wp_modify. simpl.
  exact (TrRestore s rb' Hi Hrb).
Qed.

Lemma RestartReactivationTimer_trans s : sys_ok s → wp RestartReactivationTimer_step (λ _, itrans s) s.
Proof.
  intros Hok. apply wp_bind, wp_gets. destruct (restart s) as [| | |trusted|] eqn:Er.
  - apply wp_block.
  - apply wp_bind, wp_await. intros Hc. apply bool_decide_eq_true in Hc. apply wp_modify. by apply ItRestartStop.
  - apply wp_bind. eapply wp_on_pairing; [apply HasTrustedPeer_spec, (ok_pairing s Hok)|].
    apply wp_modify. by apply (ItRestartCheck s).
  - apply wp_modify. by apply ItRestartStart.
  - apply wp_bind. eapply wp_on_pairing; [reflexivity|]. apply wp_modify. by apply (ItRestartClear s).
Qed.

Lemma TimeoutCallback_trans answer s : wp (TimeoutCallback_step answer) (λ _, itrans s) s.
Proof.
  apply wp_bind, wp_gets. destruct (callback s) as [| |r cb|r av| |] eqn:Ec; try apply wp_block.
  - apply wp_branch; intros Hf; apply wp_modify; [by apply ItSuppressed|by apply ItAsk].
  - apply wp_modify. by eapply ItAnswer.
  - apply wp_branch.
    + intros Hs%orb_true_iff. apply wp_modify. eapply ItStale; [done|].
      destruct Hs as [Hs|Hs]; [left|by right]. by apply negb_true_iff, Z.eqb_neq in Hs.
    + intros [Hs Hf]%orb_false_iff. apply negb_false_iff, Z.eqb_eq in Hs. subst r.
      apply wp_bind. eapply wp_on_pairing; [reflexivity|]. apply wp_bind.
      destruct av; [apply wp_ret|]; apply wp_modify; [by apply ItAvailable|by apply ItReactivate].
Qed.

Lemma iterate_wp who s s0 :
  reporting_enabled (pairing s0) = true →
  (IsEnabled (pairing s0) = reported_enabled (pairing s0) → itrans s (finish who s0)) →
  (IsEnabled (pairing s0) ≠ reported_enabled (pairing s0) → itrans s (tell who s0)) →
  wp (report_iterate who) (λ _, itrans s) s0.
Proof.
  intros Hr Hf Ht. apply wp_branch; [rewrite bool_decide_eq_true|rewrite bool_decide_eq_false]; intros E.
  - by destruct who; apply Hf.
  - specialize (Ht E). unfold tell in Ht. rewrite <- Hr in Ht. by destruct who.
Qed.

Lemma ReportEnabled_trans who s : wp (ReportEnabled_step who) (λ _, itrans s) s.
Proof.
  unfold ReportEnabled_step. apply wp_bind.
  assert (∀ Q : unit → Sys → Prop, (can_enter who s → Q tt (enter who s)) →
    wp match who with
       | ReporterTimer => await (λ s, bool_decide (callback s = CallbackReport))
       | ReporterCaller => await (λ s, 0 <? waiting s);; modify (λ s, set_waiting (waiting s - 1) s)
       end Q s) as Henter.
  { intros Q HQ. destruct who; [apply wp_await|apply wp_bind, wp_await].
    - intros Hc. apply bool_decide_eq_true in Hc. by apply HQ.
    - intros Hw. apply Nat.ltb_lt in Hw. by apply wp_modify, HQ. }
  apply Henter. intros Hc. apply wp_branch; intros Hr.
  - assert (itrans s (leave who (enter who s))) by (apply ItReportBusy; [done|by destruct who]). by destruct who.
  - assert (reporting_enabled (pairing s) = false) by (by destruct who).
    apply wp_bind. eapply wp_on_pairing; [reflexivity|]. apply iterate_wp; [done|..]; intros E.
    + assert (itrans s (finish who (enter who s))) as Ht by (apply ItReportFinish; [done..|by destruct who]).
      by destruct who.
    + assert (itrans s (tell who (enter who s))) as Ht by (apply ItReportTell; [done..|by destruct who]).
      by destruct who.
Qed.

Lemma ReportNext_trans s : sys_ok s → wp ReportNext_step (λ _, itrans s) s.
Proof.
  intros Hok. apply wp_bind, wp_gets. destruct (reporter s) as [who|] eqn:Er; [|apply wp_block].
  assert (reporting_enabled (pairing s) = true) by (rewrite (ok_reporter s Hok), Er; done).
  apply iterate_wp; [done|..]; intros E; [by apply ItNextFinish|by apply ItNextTell].
Qed.

Lemma step_trans l s : sys_ok s → label_ok l → wp (step l) (λ _, trans s) s.
Proof.
  intros Hok Hl. destruct l; cbn [step].
  - apply wp_bind, wp_await. intros Hs%Z.leb_le. by apply wp_modify, TrTick.
  - by apply Evaluate_trans.
  - by apply Notify_trans.
  - by apply SetRingBuffer_trans.
  - apply wp_bind. eapply wp_on_pairing; [reflexivity|]. apply wp_modify, (TrActivate s).
  - apply wp_bind. eapply wp_on_pairing; [reflexivity|]. apply wp_modify, (TrDeactivate s).
  - apply wp_bind. eapply wp_on_pairing; [reflexivity|]. apply wp_modify, (TrSecret s).
  - eapply wp_on_pairing; [reflexivity|]. apply TrCurves.
  - eapply wp_on_pairing; [reflexivity|]. apply TrEnabledCallback.
  - eapply wp_on_pairing; [reflexivity|]. apply TrExchangeCallback.
  - apply wp_bind, wp_await. intros [Ht Hc]%andb_true_iff. apply bool_decide_eq_true in Hc.
    destruct (timer s) as [d|] eqn:Et; [|done]. apply Z.leb_le in Ht. apply wp_modify. by eapply TrFire.
  - eapply wp_mono; [|by apply RestartReactivationTimer_trans]. intros ? s'. apply TrInternal.
  - eapply wp_mono; [|apply TimeoutCallback_trans]. intros ? s'. apply TrInternal.
  - eapply wp_mono; [|apply ReportEnabled_trans]. intros ? s'. apply TrInternal.
  - eapply wp_mono; [|by apply ReportNext_trans]. intros ? s'. apply TrInternal.
Qed.
End steps.

(** ** Invariants of the runs *)

(** The end of the time in which the pairing is protected: fifteen minutes after the last acceptance,
    message exchange with the trusted node or restoring of its pairing, unless additions were
    activated by a call, or a buffer without a trusted node was restored, since. *)
Fixpoint protected_until (log : list (Z * Event)) : option Z :=
  match log with
  | [] => None
  | (t, ev) :: log =>
      match ev with
      | EvAccepted _ | EvNotified true | EvRestored true => Some (t + reactivation_seconds)%Z
      | EvRestored false | EvActivated => None
      | _ => protected_until log
      end
  end.

(** No entry that opens or uses the pairing lies within the time that is protected. *)
Fixpoint log_ok (log : list (Z * Event)) : Prop :=
  match log with
  | [] => True
  | (t, ev) :: log =>
      match ev with
      | EvAccepted _ | EvReactivated => ∀ D, protected_until log = Some D → (D <= t)%Z
      | _ => True
      end ∧ log_ok log
  end.

(** The snapshot of the revision the callback works with. *)
Definition snapshot (c : CallbackPc) : option Z :=
  match c with CallbackAsk r _ | CallbackDecide r _ => Some r | _ => None end.

(** After [n] steps.  [protected_until] is in the past when additions are processed; a timer, a
    callback that has begun and one whose snapshot is current can only be of that deadline or later. *)
Record protect (n : Z) (s : Sys) : Prop := {
  pr_revision : (0 <= activation_revision (pairing s) <= n)%Z;
  pr_snapshot : ∀ r, snapshot (callback s) = Some r → (r <= activation_revision (pairing s))%Z;
  pr_open : ∀ D, protected_until (log s) = Some D → add_cu_activated (pairing s) = true → (D <= now s)%Z;
  pr_reach : ∀ D, protected_until (log s) = Some D → (D <= now s + reactivation_seconds)%Z;
  pr_timer : ∀ D d, protected_until (log s) = Some D → restart s ≠ RestartStop → timer s = Some d → (D <= d)%Z;
  pr_fired : ∀ D, protected_until (log s) = Some D → restart s ≠ RestartStop → callback s = CallbackFired → (D <= now s)%Z;
  pr_current : ∀ D r, protected_until (log s) = Some D → snapshot (callback s) = Some r →
                 r = activation_revision (pairing s) → (D <= now s)%Z;
  pr_log : log_ok (log s);
}.

Lemma revision_step p n : (0 <= activation_revision p <= n)%Z → (n + 1 < 2 ^ 64)%Z →
  u64 (activation_revision p + 1) = (activation_revision p + 1)%Z.
Proof. intros. apply u64_small. lia. Qed.

Lemma protect_trans n s s' : (n + 1 < 2 ^ 64)%Z → sys_ok s → protect n s → trans s s' → protect (n + 1) s'.
Proof.
  intros Hn Hok [Hr Hs Ho Hreach Ht Hf Hc Hl] Htr. pose proof (ok_flag s Hok) as Hflag.
  pose proof (revision_step _ _ Hr Hn) as Hrev. pose proof (eq_refl : reactivation_seconds = 900%Z) as Hsec.
  assert (timer_restart_in_progress (pairing s) = false → restart s ≠ RestartStop) as Hidle
    by (intros E Es; by rewrite Hflag, Es in E).
  trans_cases Htr; try (destruct (has_trusted_peer _) eqn:?); constructor; cbn; rewrite ?Hrev; try done; try lia;
    intros; simplify_eq/=; try done; eauto with lia;
    try match goal with E : snapshot _ = Some _ |- _ => pose proof (Hs _ E); lia end.
  all: first [ congruence
             | match goal with E : callback _ = CallbackNone, E' : snapshot _ = _ |- _ => by rewrite E in E' end
             | match goal with E : callback _ = CallbackAsk _ _ |- _ =>
                 first [apply Hs; by rewrite E | eapply Hc; [done|by rewrite E|done]] end
             | etrans; [eapply Hreach; by eauto|lia] | etrans; [eapply Ho; by eauto|lia] | etrans; [eapply Hf; by eauto|lia]
             | etrans; [eapply Hc; by eauto|lia] | etrans; [eapply Ht; by eauto|lia] ].
Qed.

(** The digests accepted since the ring buffer was last restored, the last one first. *)
Fixpoint accepted_since_restore (log : list (Z * Event)) : list string :=
  match log with
  | [] => []
  | (_, EvAccepted d) :: log => d :: accepted_since_restore log
  | (_, EvRestored _) :: _ => []
  | _ :: log => accepted_since_restore log
  end.

(** The same digest is not in the list again for ten places. *)
Definition apart (ds : list string) : Prop :=
  ∀ i j d, ds !! i = Some d → ds !! j = Some d → i < j → i + 10 < j.

Definition replay (s : Sys) : Prop :=
  (∃ base, recent (ring_buffer (pairing s)) = take 10 ((Some <$> accepted_since_restore (log s)) ++ base)) ∧
  apart (accepted_since_restore (log s)).

Lemma apart_cons d ds base :
  (Some d ∉ take 10 ((Some <$> ds) ++ base)) → apart ds → apart (d :: ds).
Proof.
  intros Hd Hds [|i] [|j] x Hi Hj Hij; simpl in *; try lia.
  - injection Hi as ->. destruct (decide (j < 10)) as [Hlt|]; [|lia]. exfalso. apply Hd.
    apply list_elem_of_lookup. exists j. rewrite lookup_take_lt by done.
    rewrite lookup_app_l by (rewrite length_fmap; by eapply lookup_lt_Some).
    by rewrite list_lookup_fmap, Hj.
  - assert (i + 10 < j); [|lia]. apply (Hds i j x); [done|done|lia].
Qed.

Lemma recent_take rb : take 10 (recent rb) = recent rb.
Proof. by rewrite take_ge. Qed.

Lemma replay_trans s s' : sys_ok s → replay s → trans s s' → replay s'.
Proof.
  intros Hok [[base Hb] Ha] Htr. pose proof (ok_pairing s Hok) as [Hring _].
  trans_cases Htr; try (split; [by eexists|done]).
  - pose proof H1 as (_ & r & _ & Hf)%IsValid_spec.
    destruct (pushed_spec e d H1 H2) as [Hp1 Hp2].
    destruct (push_entry_spec (pushed e) _ Hring Hp1) as (_ & _ & Hrec).
    split; [|rewrite Hb in H3; by eapply apart_cons]. exists base.
    change (recent (push_entry (pushed e) (ring_buffer (pairing s)))
            = Some d :: take 9 ((Some <$> accepted_since_restore (log s)) ++ base)).
    by rewrite Hrec, Hp2, Hb, take_take.
  - split; [|intros i j x Hi; done]. exists (recent rb). exact (eq_sym (recent_take rb)).
Qed.

(** The changes that were reported, the last one first. *)
Fixpoint reports (log : list (Z * Event)) : list bool :=
  match log with
  | [] => []
  | (_, EvReport b _) :: log => b :: reports log
  | _ :: log => reports log
  end.
Fixpoint alternating (bs : list bool) : Prop :=
  match bs with
  | [] => True
  | b :: bs => b = negb (default false (head bs)) ∧ alternating bs
  end.

(** The last report is what [reported_enabled] says, and while it is not the current value there is
    someone who will compare the two. *)
Record reporting (s : Sys) : Prop := {
  rp_last : reported_enabled (pairing s) = default false (head (reports (log s)));
  rp_alternating : alternating (reports (log s));
  rp_due : IsEnabled (pairing s) ≠ reported_enabled (pairing s) →
    restart s ≠ RestartIdle ∨ 0 < waiting s ∨ callback s = CallbackReport ∨ reporter s ≠ None;
}.

Lemma reporting_trans s s' : sys_ok s → reporting s → trans s s' → reporting s'.
Proof.
  intros Hok [Hl Ha Hd] Htr. pose proof (not_reporting s Hok) as Hnot.
  pose proof (ok_reporter s Hok) as Hrep. pose proof (ok_reporting s Hok) as Hring.
  assert (∀ b c : bool, b ≠ c → b = negb c) as Hneg by (by intros [] []).
  trans_cases Htr; constructor; cbn; try done; try (split; [|done]; rewrite <- Hl; by apply Hneg);
    try (intuition congruence); try (intros; lia).
  all: intros _; right; right; right; apply (bool_decide_unpack _); rewrite <- Hrep;
    match goal with E : reporting_enabled _ = true |- _ => by rewrite E end.
Qed.

(** ** From the creation on *)

Definition inv (n : Z) (s : Sys) : Prop := sys_ok s ∧ protect n s ∧ replay s ∧ reporting s.

Lemma inv_trans n s s' : (n + 1 < 2 ^ 64)%Z → inv n s → trans s s' → inv (n + 1) s'.
Proof.
  intros Hn (Hok & Hp & Hr & Hrep) Ht.
  repeat split; try (by eapply sys_ok_trans); try (by eapply protect_trans); try (by eapply replay_trans);
    by eapply reporting_trans.
Qed.

Section runs.
Context `{OpenSsl}.

Lemma init_inv id cert p t : ShipPairingCreate id cert = Some p → inv 0 (init p t).
Proof.
  unfold ShipPairingCreate. destruct (StringIsEmpty id); [done|].
  destruct id as [id|]; [|done]. destruct cert as [cert|]; [|done]. simpl.
  destruct (TlsCertificateCalcFingerprintSha256 cert) as [fp|]; [|done]. intros [= <-].
  split_and!.
  - constructor; cbn; try done. split; [apply empty_ring_ok|]. split; [by left|done].
  - constructor; cbn; done.
  - split; [exists (recent empty_ring_buffer); reflexivity|intros i j d Hi; done].
  - constructor; cbn; done.
Qed.

Lemma run_inv ls : ∀ n s, inv n s → Forall label_ok ls → (n + Z.of_nat (length ls) < 2 ^ 64)%Z →
  wp (run ls) (λ _, inv (n + Z.of_nat (length ls))) s.
Proof.
  induction ls as [|l ls IH]; intros n s Hs Hl Hn; cbn [run length] in *.
  { apply wp_ret. by rewrite Z.add_0_r. }
  apply Forall_cons in Hl as [Hl Hls]. apply wp_bind. eapply wp_mono; [|apply step_trans; [apply Hs|done]].
  intros ? s' Ht. replace (n + Z.of_nat (S (length ls)))%Z with (n + 1 + Z.of_nat (length ls))%Z by lia.
  apply IH; [eapply inv_trans; [lia|done..]|done|lia].
Qed.



(** *** Work that ends *)

Definition internal (l : Label) : Prop :=
  match l with RestartStep | CallbackStep _ | CallReport _ | ReportStep => True | _ => False end.

(** The sections that are still to come of what was begun. *)
Definition restart_work (r : RestartPc) : nat :=
  match r with
  | RestartIdle => 0 | RestartClear => 1 | RestartStart _ => 2 | RestartCheck => 3 | RestartStop => 4
  end.
Definition callback_work (c : CallbackPc) : nat :=
  match c with
  | CallbackNone | CallbackReporting => 0 | CallbackReport => 1 | CallbackDecide _ _ => 2
  | CallbackAsk _ _ => 3 | CallbackFired => 4
  end.
Definition report_work (r : option Reporter) (enabled reported : bool) : nat :=
  match r with None => 0 | Some _ => if bool_decide (enabled = reported) then 1 else 2 end.
Definition work (s : Sys) : nat :=
  8 * restart_work (restart s) + 6 * callback_work (callback s) + 3 * waiting s
  + report_work (reporter s) (IsEnabled (pairing s)) (reported_enabled (pairing s)).

Lemma report_work_le r b c : report_work r b c ≤ 2.
Proof. unfold report_work. repeat case_match; lia. Qed.
Lemma report_work_some who b c : 1 ≤ report_work (Some who) b c.
Proof. unfold report_work. repeat case_match; lia. Qed.
Lemma report_work_eq who b : report_work (Some who) b b = 1.
Proof. unfold report_work. by rewrite bool_decide_true. Qed.
Lemma report_work_ne who b c : b ≠ c → report_work (Some who) b c = 2.
Proof. intros. unfold report_work. by rewrite bool_decide_false. Qed.

Lemma internal_trans l s : sys_ok s → internal l → wp (step l) (λ _, itrans s) s.
Proof.
  intros Hok Hl. destruct l; try done; cbn [step].
  - by apply RestartReactivationTimer_trans.
  - apply TimeoutCallback_trans.
  - apply ReportEnabled_trans.
  - by apply ReportNext_trans.
Qed.

Lemma work_decreases s s' : sys_ok s → itrans s s' → work s' < work s.
Proof.
  intros Hok Ht. pose proof (not_reporting s Hok) as Hnot. unfold work.
  destruct Ht; repeat match goal with who : Reporter |- _ => destruct who end;
    try match goal with E : restart s = RestartStart ?b |- _ => destruct b end;
    cbn [can_enter] in *;
    cbn [restart callback waiting reporter pairing set_pairing set_timer set_restart_pc set_callback set_waiting
         set_reporter add_event leave enter finish tell];
    repeat match goal with
    | E : restart _ = _ |- _ => rewrite !E; clear E
    | E : callback _ = _ |- _ => rewrite !E; clear E
    | E : reporter _ = _ |- _ => rewrite !E; clear E
    end; cbn [restart_work callback_work].
  all: repeat match goal with
       | |- context [IsEnabled (set_reporting ?b ?r ?p)] => change (IsEnabled (set_reporting b r p)) with (IsEnabled p)
       | |- context [reported_enabled (set_reporting ?b ?r ?p)] =>
           change (reported_enabled (set_reporting b r p)) with r
       end; rewrite ?report_work_eq; try rewrite (report_work_ne _ _ _) by done.
  all: repeat match goal with
       | |- context [report_work None ?b ?c] => change (report_work None b c) with 0
       | |- context [report_work (Some ?who) ?b ?c] =>
           pose proof (report_work_some who b c); pose proof (report_work_le (Some who) b c);
           generalize dependent (report_work (Some who) b c); intros
       | |- context [report_work ?r ?b ?c] =>
           pose proof (report_work_le r b c); generalize dependent (report_work r b c); intros
       end; lia.
Qed.

(** A state in which nothing that was begun can go on has nothing left. *)
Lemma stuck_idle s : sys_ok s → (∀ l s', internal l → step l s ≠ Ret tt s') →
  restart s = RestartIdle ∧ callback s = CallbackNone ∧ waiting s = 0 ∧ reporter s = None.
Proof.
  intros Hok Hstuck.
  assert (∀ l, internal l → ∃ s', step l s = Block s') as Hblock.
  { intros l Hl. pose proof (internal_trans l s Hok Hl) as Hw. unfold wp in Hw.
    destruct (step l s) as [[] s'| |] eqn:E; [by destruct (Hstuck l s' Hl)|eauto|done]. }
  assert (reporter s = None) as Hrep.
  { destruct (Hblock ReportStep I) as [s' E]. cbn in E. unfold ReportNext_step, mbind, Prog_bind, gets in E.
    destruct (reporter s) as [who|]; [|done]. exfalso. revert E. unfold report_iterate, branch.
    by destruct (bool_decide _), who. }
  assert (reporting_enabled (pairing s) = false) as Hr by (by rewrite (ok_reporter s Hok), Hrep).
  assert (waiting s = 0) as Hwait.
  { destruct (Hblock (CallReport ReporterCaller) I) as [s' E]. destruct (waiting s) as [|n] eqn:Ew; [done|].
    exfalso. revert E. cbn. unfold ReportEnabled_step, await, mbind, Prog_bind, branch. rewrite Ew. cbn.
    rewrite Hr. unfold report_iterate, branch. cbn. by destruct (bool_decide _). }
  assert (callback s = CallbackNone) as Hcb.
  { destruct (Hblock (CallbackStep true) I) as [s' E].
    destruct (Hblock (CallReport ReporterTimer) I) as [s'' E'].
    revert E E'. cbn. unfold TimeoutCallback_step, ReportEnabled_step, await, mbind, Prog_bind, branch, gets.
    destruct (callback s) as [| |r cb|r av| |] eqn:Ec; cbn; try done.
    - by destruct (timer_restart_in_progress _).
    - by destruct (negb _ || _); destruct av.
    - rewrite bool_decide_true by done. unfold mret, Prog_ret. cbv beta iota. rewrite Hr. unfold report_iterate, branch. cbn. by destruct (bool_decide _).
    - apply (ok_reporting s Hok) in Ec. congruence. }
  split_and!; try done.
  destruct (Hblock RestartStep I) as [s' E]. revert E. cbn.
  unfold RestartReactivationTimer_step, await, mbind, Prog_bind, branch, gets.
  destruct (restart s) as [| | |b|]; try done; [by rewrite Hcb|].
  unfold on_pairing. rewrite HasTrustedPeer_spec by apply (ok_pairing s Hok). done.
Qed.

(** Changes of whether a request could be accepted are reported faithfully: in every run the
    reports alternate, starting with one that it became possible.  What was begun,
    restarting the timer, its callback and the reports, ends by itself: each of its steps makes the work that
    is left smaller, and as long as there is any some step can be made, so the threads do not
    wait for each other in a circle.  When it has ended the last report is true to the
    state. *)
Theorem reports_settle id cert p t ls :
  ShipPairingCreate id cert = Some p → Forall label_ok ls → (Z.of_nat (length ls) < 2 ^ 64)%Z →
  wp (run ls) (λ _ s,
    alternating (reports (log s)) ∧
    (∀ l, internal l → wp (step l) (λ _ s', work s' < work s) s) ∧
    ((∀ l s', internal l → step l s ≠ Ret tt s') →
     restart s = RestartIdle ∧ callback s = CallbackNone ∧
     IsEnabled (pairing s) = default false (head (reports (log s))))) (init p t).
Proof.
  intros Hp Hl Hn. eapply wp_mono; [|apply (run_inv ls 0); [by eapply init_inv|done|lia]].
  intros _ s (Hok & _ & _ & [Hlast Halt Hdue]). split; [exact Halt|]. split.
  - intros l Hi. eapply wp_mono; [|by apply internal_trans]. intros ? s'. by apply work_decreases.
  - intros Hstuck.
    destruct (stuck_idle s Hok Hstuck) as (Hr & Hc & Hw & Hrep).
    split_and!; try done. rewrite <- Hlast.
    destruct (decide (IsEnabled (pairing s) = reported_enabled (pairing s))) as [|Hne]; [done|].
    destruct (Hdue Hne) as [|[|[|]]]; [done|lia|congruence|done].
Qed.
End runs.
