(* ===== verification/PairingRequest.v ===== *)
(** * Making a pairing request ([src/ship/ship_pairing/ship_pairing_request.c])

    The other side of [ShipPairing]: a device that wants to be trusted builds a request and
    announces it until a connection has held for fifteen minutes.  A request that was built, announced as
    a TXT record, found and parsed by the node it is addressed to is accepted there. *)

From Stdlib Require Import Ascii Strings.String.
From S2P Require Import Prelude StringUtil Timer Json PairingEntry PairingDigest ShipPairing.

Local Open Scope string_scope.
Local Open Scope list_scope.
Local Open Scope nat_scope.

(** ** The request *)

(** NULL is [None]; the certificate is what the object holds. *)
Record ShipPairingRequestConfig := mkConfig {
  instance_name : option string;
  config_for_id : option string;
  config_for_par : option string;
  config_secret : option (list Z);
  config_trust_id : option string;
  tls_certificate : option (list byte);
}.

Record ShipPairingRequest := mkPairingRequest {
  entry : ShipPairingEntry;
  announcing : bool;
  settled_timer : EebusTimer;
}.

Definition SHIP_PAIRING_REQUEST_SETTLED_MINUTES : Z := 15.
Definition SECONDS (t : Z) : Z := (t * 1000)%Z.

Section build.
Context `{OpenSsl}.

(** The assignments to the members, in their order; [random] is the answer of OpenSSL. *)
Definition ShipPairingRequestBuildEntry (random : option (list byte)) (e : ShipPairingEntry)
    (config : ShipPairingRequestConfig) : option ShipPairingEntry :=
  let cert := default [] (tls_certificate config) in
  trust_curve ← TlsCertificateGetCurveName cert;
  nonce ← TlsCertificateRandomBytes random SHIP_PAIRING_NONCE_SIZE;
  let e := foldl (λ e fv, set_field fv.1 fv.2 e) e
    [ (txtvers, Some SHIP_PAIRING_TXTVERS);
      (par_type, Some SHIP_PAIRING_PAR_TYPE_FP_SHA256);
      (for_id, config_for_id config);
      (for_par, config_for_par config);
      (trust_id, config_trust_id config);
      (trust_par, TlsCertificateCalcFingerprintSha256 cert);
      (PairingEntry.trust_curve, Some trust_curve);
      (type, Some SHIP_PAIRING_TYPE_ADD_CU);
      (trust_nonce, StringWithHexUpper (Some (octets nonce)));
      (alg, Some SHIP_PAIRING_ALG_HMAC_SHA256) ] in
  let e := set_txtvers_is_first true e in
  let e := set_field digest (ShipPairingCalcDigest e (default [] (config_secret config))) e in
  if ShipPairingEntryIsValid e then Some e else None.

Definition ShipPairingRequestCreate (random : option (list byte)) (config : option ShipPairingRequestConfig)
    : option ShipPairingRequest :=
  config ← config;
  if bool_decide (tls_certificate config = None) || bool_decide (config_secret config = None)
     || bool_decide (config_secret config = Some []) then None
  else if StringIsEmpty (instance_name config) || StringIsEmpty (config_for_id config)
          || StringIsEmpty (config_for_par config) || StringIsEmpty (config_trust_id config) then None
  else
    e ← ShipPairingRequestBuildEntry random
          (ShipPairingEntryConstruct (instance_name config) (Some SHIP_PAIRING_DOMAIN) 0) config;
    Some (mkPairingRequest e true EebusTimerCreate).
End build.

Definition ShipPairingRequestGetEntry (request : option ShipPairingRequest) : option ShipPairingEntry :=
  entry <$> request.
Definition ShipPairingRequestIsAnnouncing (request : option ShipPairingRequest) : bool :=
  match request with None => false | Some r => announcing r end.

(** The callback of the timer. *)
Definition ShipPairingRequestTimeoutCallback (r : ShipPairingRequest) : ShipPairingRequest :=
  mkPairingRequest (entry r) false (settled_timer r).

(** [now] is the time of the call, in nanoseconds. *)
Definition ShipPairingRequestNotifyConnected (now : Z) (r : ShipPairingRequest) : ShipPairingRequest :=
  if negb (ShipPairingRequestIsAnnouncing (Some r)) then r
  else mkPairingRequest (entry r) (announcing r)
         (Start now (SECONDS (SHIP_PAIRING_REQUEST_SETTLED_MINUTES * 60)) false (Stop now (settled_timer r))).
Definition ShipPairingRequestNotifyDisconnected (now : Z) (r : ShipPairingRequest) : ShipPairingRequest :=
  mkPairingRequest (entry r) (announcing r) (Stop now (settled_timer r)).
Definition ShipPairingRequestStop (now : Z) (r : ShipPairingRequest) : ShipPairingRequest :=
  mkPairingRequest (entry r) false (Stop now (settled_timer r)).

(** ** How long it is announced *)

Inductive RequestOp := Connected (now : Z) | Disconnected (now : Z) | Stopped (now : Z) | Woken (now : Z).

Definition request_step (op : RequestOp) (r : ShipPairingRequest) : ShipPairingRequest :=
  match op with
  | Connected now => ShipPairingRequestNotifyConnected now r
  | Disconnected now => ShipPairingRequestNotifyDisconnected now r
  | Stopped now => ShipPairingRequestStop now r
  | Woken now =>
      let '(t, fired) := Wake now (settled_timer r) in
      let r := mkPairingRequest (entry r) (announcing r) t in
      if fired : bool then ShipPairingRequestTimeoutCallback r else r
  end.

(** A history has the last operation first. *)
Fixpoint request_after (hist : list RequestOp) (r : ShipPairingRequest) : ShipPairingRequest :=
  match hist with [] => r | op :: hist => request_step op (request_after hist r) end.

(** When the connection began that has not been interrupted since. *)
Fixpoint connected_since (hist : list RequestOp) : option Z :=
  match hist with
  | [] => None
  | Connected now :: _ => Some now
  | Woken _ :: hist => connected_since hist
  | _ :: _ => None
  end.

Definition fifteen_minutes : Z := (15 * 60 * 10 ^ 9)%Z.

(** A clock that does not stand still: the wait of the timer ends at its deadline or later. *)
Fixpoint timely (hist : list RequestOp) : Prop :=
  match hist with
  | [] => True
  | op :: hist =>
      match op with
      | Woken t => ∀ c, connected_since hist = Some c → (c + fifteen_minutes <= t)%Z
      | Connected t => (0 <= t)%Z
      | _ => True
      end ∧ timely hist
  end.

(** The history contains a stop, or a connection that held for fifteen minutes. *)
Fixpoint settled (hist : list RequestOp) : Prop :=
  match hist with
  | [] => False
  | op :: hist =>
      match op with
      | Stopped _ => True
      | Woken t => ∃ c, connected_since hist = Some c ∧ (c + fifteen_minutes <= t)%Z
      | _ => False
      end ∨ settled hist
  end.

Lemma Start_stopped now t : (0 <= now)%Z → thread t = ThreadNone →
  thread (Start now (SECONDS (SHIP_PAIRING_REQUEST_SETTLED_MINUTES * 60)) false t) = ThreadWaiting ∧
  autoreload (Start now (SECONDS (SHIP_PAIRING_REQUEST_SETTLED_MINUTES * 60)) false t) = false ∧
  cancel (Start now (SECONDS (SHIP_PAIRING_REQUEST_SETTLED_MINUTES * 60)) false t) = false.
Proof.
  intros Hn Ht. unfold Start. rewrite bool_decide_false by (by intros ?).
  change (SECONDS (SHIP_PAIRING_REQUEST_SETTLED_MINUTES * 60)) with 900000%Z.
  rewrite bool_decide_false by done. cbv zeta.
  rewrite bool_decide_false; [done|]. intros [E _].
  destruct (UpdateWaitCondTimeout_correct now 900000) as [E1 E2]; [vm_compute; split; congruence|].
  unfold ns_of in E1. rewrite E in E1. lia.
Qed.

(** A request is announced from its creation until it is stopped or a connection has held for fifteen
    minutes, and then never again. *)
Theorem announced_until_settled hist r :
  announcing r = true → settled_timer r = EebusTimerCreate → timely hist →
  announcing (request_after hist r) = true ↔ ¬ settled hist.
Proof.
  intros Ha Ht0 Htime.
  enough ((announcing (request_after hist r) = true ↔ ¬ settled hist) ∧
          (announcing (request_after hist r) = true →
           match connected_since hist with
           | Some _ => thread (settled_timer (request_after hist r)) = ThreadWaiting ∧
                       autoreload (settled_timer (request_after hist r)) = false ∧
                       cancel (settled_timer (request_after hist r)) = false
           | None => thread (settled_timer (request_after hist r)) = ThreadNone
           end)) as [? _] by done.
  induction hist as [|op hist IH]; [split; [simpl; tauto|simpl; by rewrite Ht0]|].
  destruct Htime as [Hop Htime]. destruct (IH Htime) as [IH1 IH2]. clear IH.
  cbn [request_after settled connected_since]. set (r' := request_after hist r) in *.
  destruct op as [t|t|t|t]; cbn [request_step].
  - unfold ShipPairingRequestNotifyConnected. cbn [ShipPairingRequestIsAnnouncing].
    destruct (announcing r') eqn:E; cbn [negb]; [|rewrite E; split; [tauto|done]].
    cbn [announcing settled_timer]. split; [tauto|]. intros _. apply Start_stopped; [done|]. apply Stop_thread.
  - cbn. split; [tauto|]. intros _. apply Stop_thread.
  - cbn. split; [split; [done|tauto]|done].
  - destruct (announcing r') eqn:E.
    + specialize (IH2 eq_refl). destruct (connected_since hist) as [c|].
      * destruct IH2 as (Ht & Hr & Hc). unfold Wake. rewrite Ht, Hr, Hc. cbn.
        split; [|done]. split; [done|]. intros Hx. exfalso. apply Hx. left. exists c. auto.
      * unfold Wake. rewrite IH2. cbn. split; [|done].
        assert (¬ ∃ c, None = Some c ∧ (c + fifteen_minutes <= t)%Z) by (intros (? & ? & _); done). tauto.
    + destruct (Wake t (settled_timer r')) as [t' []]; cbn; (split; [|done]); (split; [done|tauto]).
Qed.

(** ** A request reaches its node *)

(** What [MdnsRegisterPairingServiceLocked] of [src/ship/mdns/ship_mdns_bonjour.c] puts into the
    record: each key with its value, whose size is passed as [uint8_t]. *)
Definition MdnsRegisterPairingService_pairs (e : ShipPairingEntry) : option (list (list byte * list byte)) :=
  mapM (λ i,
    key ← ShipPairingEntryGetTxtKey i;
    value ← ShipPairingEntryGetTxtValue (Some e) i;
    Some (c_chars key, take (Z.to_nat (u8 (Z.of_nat (String.length value)))) (c_chars value)))
    (seq 0 ShipPairingEntryGetTxtPairCount).

Lemma whole_value s : String.length s < 256 → take (Z.to_nat (u8 (Z.of_nat (String.length s)))) (c_chars s) = c_chars s.
Proof.
  intros Hs. unfold u8. rewrite Z.mod_small by lia. rewrite Nat2Z.id. apply take_ge. by rewrite c_chars_length.
Qed.

Lemma pairs_announced e values :
  (∀ f, field e f = Some (values f)) → (∀ f, String.length (values f) < 256) →
  MdnsRegisterPairingService_pairs e = Some (entry_pairs values).
Proof.
  intros Hf Hl. unfold MdnsRegisterPairingService_pairs.
  cbn -[u8 c_chars take Z.to_nat Z.of_nat String.length entry_pairs]. rewrite !Hf.
  cbn -[u8 c_chars take Z.to_nat Z.of_nat String.length entry_pairs]. rewrite !whole_value by apply Hl. done.
Qed.

(** The pairs of a valid request fit the format, when the two ids do. *)
Lemma announced_ok q : request_ok q →
  no_nul (r_for_id q) = true ∧ String.length (r_for_id q) < 248 →
  no_nul (r_trust_id q) = true ∧ String.length (r_trust_id q) < 248 →
  (∀ f, String.length (request_value q f) < 256) ∧ (∀ f, no_nul (request_value q f) = true) ∧
  Forall pair_ok (entry_pairs (request_value q)).
Proof.
  intros (HF & HT & HX & HY & HD & HN & HC) [HF1 HF2] [HT1 HT2].
  assert (String.length (r_curve q) < 20 ∧ no_nul (r_curve q) = true ∧ r_curve q ≠ "") as (HC1 & HC2 & HC3).
  { unfold curves in HC. rewrite !elem_of_cons, elem_of_nil in HC. destruct HC as [->|[->|[->|[]]]];
      (split; [cbn; lia|done]). }
  pose proof (upper_hex_no_nul _ _ HX). pose proof (upper_hex_no_nul _ _ HY).
  pose proof (upper_hex_no_nul _ _ HD). pose proof (upper_hex_no_nul _ _ HN).
  assert (∀ f, request_value q f ≠ "" ∧
    String.length (request_value q f) < match f with for_id | trust_id => 248 | _ => 65 end) as Hval.
  { destruct HX as [HX _], HY as [HY _], HD as [HD _], HN as [HN _].
    intros []; cbn [request_value]; (split; [try done|try (cbn; lia)]); intros E; rewrite E in *; done. }
  split; [intros f; specialize (Hval f); destruct f; lia|]. split; [by intros []|].
  unfold entry_pairs, ship_pairing_entry_lut. cbn [fmap list_fmap fst snd].
  repeat (apply Forall_cons; split); [..|constructor];
    match goal with |- pair_ok (_, c_chars (request_value q ?f)) => destruct (Hval f) as [Hne Hl] end;
    (split_and!; cbn [fst snd];
     [done|intros E; apply Hne; by apply c_chars_inj|by apply (bool_decide_unpack _)|]);
    rewrite !c_chars_length; cbn [String.length] in *; lia.
Qed.

Section arrival.
Context `{OpenSsl}.

(** The digest is computed from the values of the other ten keys. *)
Lemma CalcDigest_ext e e' s : (∀ f, f ≠ digest → field e f = field e' f) →
  ShipPairingCalcDigest e s = ShipPairingCalcDigest e' s.
Proof.
  intros Hf. unfold ShipPairingCalcDigest, ShipPairingBuildMessage. cbn -[value_is]. by rewrite !Hf by done.
Qed.

Lemma RequestCreate_spec random config r : ShipPairingRequestCreate random (Some config) = Some r →
  announcing r = true ∧ settled_timer r = EebusTimerCreate ∧ ShipPairingEntryIsValid (entry r) = true ∧
  field (entry r) for_id = config_for_id config ∧ field (entry r) for_par = config_for_par config ∧
  field (entry r) trust_id = config_trust_id config ∧
  field (entry r) trust_par = TlsCertificateCalcFingerprintSha256 (default [] (tls_certificate config)) ∧
  field (entry r) trust_curve = TlsCertificateGetCurveName (default [] (tls_certificate config)) ∧
  field (entry r) digest = ShipPairingCalcDigest (entry r) (default [] (config_secret config)).
Proof.
  unfold ShipPairingRequestCreate. simpl. destruct (_ || _ || _); [done|]. destruct (_ || _ || _ || _); [done|].
  unfold ShipPairingRequestBuildEntry.
  destruct (TlsCertificateGetCurveName _) as [curve|] eqn:Ec; [|done].
  destruct (TlsCertificateRandomBytes _ _) as [nonce|]; [|done]. cbn [mbind option_bind].
  match goal with |- context [ShipPairingEntryIsValid ?x] => set (e := x) end.
  destruct (ShipPairingEntryIsValid e) eqn:Ev; [|done]. intros [= <-]. split_and!; try done.
Qed.

(** C33: A request arrives: whatever [ShipPairingRequestCreate] builds, announced as the TXT record of RFC
    6763 and parsed from it, is evaluated as accepted by the node it is addressed to by id and fingerprint, provided the node
    is well formed, has the same secret, supports the curve of the certificate, processes additions, and has not
    seen the digest, and the two ids are shorter than 248 bytes and hold no NUL; and the id and the fingerprint the entry
    asks to trust are those of the device that made it.  The pairing then remembers the digest, stops processing additions and asks for its timer to be
    restarted; that the node registers the trust is not part of it. *)
Theorem request_arrives random config r p fresh curve :
  ShipPairingRequestCreate random (Some config) = Some r →
  pairing_ok p → add_cu_activated p = true → secret_size p ≠ 0 →
  config_for_id config = Some (own_ship_id p) → config_for_par config = Some (own_fingerprint p) →
  config_secret config = Some (secret p) →
  TlsCertificateGetCurveName (default [] (tls_certificate config)) = Some curve →
  ShipPairingIsCurveSupported p (Some curve) = true →
  (∀ d, field (entry r) digest = Some d → Some d ∉ recent (ring_buffer p)) →
  (∀ s, s ∈ [config_for_id config; config_trust_id config] →
     ∃ id, s = Some id ∧ no_nul id = true ∧ String.length id < 248) →
  (∀ f, field fresh f = None) →
  ∃ pairs e,
    MdnsRegisterPairingService_pairs (entry r) = Some pairs ∧
    ShipPairingEntryParseTxtRecord fresh (txt_record pairs) = (kEebusErrorOk, e) ∧
    ShipPairingEvaluateLocked (Some e) p = Ret kShipPairingResultAccepted (accepted_state p e) ∧
    field e trust_id = config_trust_id config ∧
    field e trust_par = TlsCertificateCalcFingerprintSha256 (default [] (tls_certificate config)).
Proof.
  intros Hc Hok Hact Hsec Eid Epar Esecret Ecurve Hcurve Hnew Hids Hfresh.
  apply RequestCreate_spec in Hc as (_ & _ & Hv & Hid & Hpar & Htid & Htpar & Htcurve & Hdig).
  pose proof Hv as (_ & q & Hq & Hf)%IsValid_spec.
  destruct (announced_ok q Hq) as (Hlen & Hnul & Hpairs).
  { rewrite Hf in Hid. destruct (Hids (config_for_id config)) as (id & E & ?); [by left|].
    rewrite E in Hid. simpl in Hid. injection Hid as ->. done. }
  { rewrite Hf in Htid. destruct (Hids (config_trust_id config)) as (id & E & ?); [by right; left|].
    rewrite E in Htid. simpl in Htid. injection Htid as ->. done. }
  destruct (read_announced fresh (request_value q) Hpairs Hnul Hfresh) as (e & Ee & Hfirst & Hfe).
  exists (entry_pairs (request_value q)), e. split; [by apply pairs_announced|]. split; [exact Ee|].
  assert (∀ f, field e f = field (entry r) f) as Hsame by (intros f; by rewrite Hfe, Hf).
  split; [|by rewrite !Hsame].
  assert (ShipPairingEntryIsValid e = true) as Hve by (apply IsValid_spec; eauto).
  rewrite (EvaluateLocked_eq p e Hok), Hve, !Hsame, Hid, Eid, Hpar, Epar, Htcurve, Ecurve, Hcurve, Hact.
  rewrite !bool_decide_true by done. cbn [negb andb]. destruct (Nat.eqb_spec (secret_size p) 0) as [|_]; [done|].
  rewrite bool_decide_false.
  - assert (ShipPairingVerifyDigest e (secret p) = true) as ->; [|done].
    apply ShipPairingVerifyDigest_spec. exists (r_digest q). split_and!; [|apply Hfe|].
    + destruct Hq as (_ & _ & _ & _ & [Hl _] & _). intros E. by rewrite E in Hl.
    + rewrite (CalcDigest_ext e (entry r)) by auto. rewrite Esecret in Hdig. simpl in Hdig.
      rewrite <- Hdig. apply (Hf digest).
  - rewrite (Hf digest). intros ([d|] & Hin & E)%list_elem_of_omap; [|done]. simpl in E. injection E as ->.
    by apply (Hnew (r_digest q)).
Qed.
End arrival.

(** ** Pairing at work

    A concrete stand-in for OpenSSL, a request and a node it is addressed to, and runs of the node.
    The witnesses of the theorems on pairing are at these inputs. *)

From S2P Require Import PairingRun.

Local Open Scope string_scope.
Local Open Scope list_scope.
Local Open Scope nat_scope.

Definition demo_byte (z : Z) : byte := default x00 (Byte.of_N (Z.to_N (z mod 256))).
Definition demo_pad (bs : list byte) : list byte := take 32 (bs ++ replicate 32 x00).

(** Certificates are their own fingerprints; the code of a message is the key with the sum of the message
    added to each of its octets. *)
#[local] Instance demo_ssl : OpenSsl := {|
  X509 := list byte;
  d2i_X509 := Some;
  X509_digest_sha256 := λ cert, Some (demo_pad cert);
  X509_named_curve := λ cert, Some NID_X9_62_prime256v1;
  HMAC_sha256 := λ key message,
    Some (demo_pad ((λ k, demo_byte (k + foldr Z.add 0 (octets message))%Z) <$> key));
|}.

Definition demo_secret : list Z := seqZ 1 16.
Definition demo_certificate : list byte := [x41; x42; x43].
Definition demo_node : ShipPairing :=
  match ShipPairingCreate (Some "node") (Some demo_certificate) with
  | Some p => p
  | None => mkPairing 0 false false "" "" [] 0 0 false empty_ring_buffer false false false
  end.

(** A device makes a request, with the nonce it happens to draw. *)
Definition demo_config (trust_id : string) : ShipPairingRequestConfig :=
  mkConfig (Some "service") (Some "node") (Some (own_fingerprint demo_node)) (Some demo_secret) (Some trust_id)
    (Some [x61; x62]).
Definition demo_request (trust_id : string) (nonce : byte) : ShipPairingEntry :=
  match ShipPairingRequestCreate (Some (replicate 16 nonce)) (Some (demo_config trust_id)) with
  | Some r => entry r
  | None => ShipPairingEntryConstruct None None 0
  end.
Definition demo_digest (e : ShipPairingEntry) : string := default "" (field e digest).

(** The node with its secret. *)
Definition demo_ready : ShipPairing := SetSecret_locked (Some demo_secret) demo_node.

Lemma demo_ready_ok : pairing_ok demo_ready.
Proof. split; [apply empty_ring_ok|]. split; [by right|done]. Qed.

Lemma evaluate_exact_witness :
  pairing_ok demo_ready ∧
  ∃ p', ShipPairingEvaluateLocked (Some (demo_request "cu" x07)) demo_ready = Ret kShipPairingResultAccepted p' ∧
    IsEnabled p' = false ∧ has_trusted_peer (ring_buffer p') = true.
Proof.
  split; [apply demo_ready_ok|].
  destruct (evaluate_exact demo_ready (demo_request "cu" x07) demo_ready_ok)
    as (r & p' & E & _ & _ & Hacc & _).
  assert (r = kShipPairingResultAccepted) as ->.
  { assert (match ShipPairingEvaluateLocked (Some (demo_request "cu" x07)) demo_ready with
            | Ret r _ => r | _ => kShipPairingResultError end = kShipPairingResultAccepted) as Er
      by (vm_compute; reflexivity).
    by rewrite E in Er. }
  exists p'. destruct (Hacc eq_refl) as (_ & ? & ? & _). auto.
Defined.

(** The same request under another name of its service: the name is not signed, the values are. *)
Lemma digest_authenticates_witness :
  let e := demo_request "cu" x07 in
  let e' := mkEntry (Some "other") (domain e) 3 (field e) true in
  ShipPairingVerifyDigest e demo_secret = true ∧ ShipPairingVerifyDigest e' demo_secret = true ∧
  ((demo_secret = demo_secret ∧ ∀ f, field e f = field e' f) ∨ hmac_collision).
Proof.
  intros e e'.
  assert (ShipPairingVerifyDigest e demo_secret = true) as H1 by (vm_compute; reflexivity).
  assert (ShipPairingVerifyDigest e' demo_secret = true) as H2 by (vm_compute; reflexivity).
  split; [exact H1|]. split; [exact H2|].
  apply (digest_authenticates e e' demo_secret demo_secret); try assumption; vm_compute; reflexivity.
Defined.

Lemma request_arrives_witness :
  ∃ pairs e,
    MdnsRegisterPairingService_pairs (demo_request "cu" x07) = Some pairs ∧
    ShipPairingEntryParseTxtRecord (ShipPairingEntryConstruct None None 0) (txt_record pairs) = (kEebusErrorOk, e) ∧
    ShipPairingEvaluateLocked (Some e) demo_ready = Ret kShipPairingResultAccepted (accepted_state demo_ready e) ∧
    field e trust_id = Some "cu".
Proof.
  destruct (ShipPairingRequestCreate (Some (replicate 16 x07)) (Some (demo_config "cu"))) as [r|] eqn:Er;
    [|vm_compute in Er; discriminate].
  assert (entry r = demo_request "cu" x07) as Ee by (unfold demo_request; rewrite Er; reflexivity).
  assert (TlsCertificateGetCurveName (default [] (tls_certificate (demo_config "cu"))) = Some "secp256r1") as Hc
    by (vm_compute; reflexivity).
  assert (ShipPairingIsCurveSupported demo_ready (Some "secp256r1") = true) as Hs by (vm_compute; reflexivity).
  assert (∀ d, field (entry r) digest = Some d → Some d ∉ recent (ring_buffer demo_ready)) as Hnew.
  { intros d _. assert (recent (ring_buffer demo_ready) = replicate 10 None) as -> by (vm_compute; reflexivity).
    intros Hin. by apply elem_of_replicate_inv in Hin. }
  assert (∀ s, s ∈ [config_for_id (demo_config "cu"); config_trust_id (demo_config "cu")] →
     ∃ id, s = Some id ∧ no_nul id = true ∧ String.length id < 248) as Hids.
  { intros s Hin. apply elem_of_cons in Hin as [->|Hin]; [|apply list_elem_of_singleton in Hin as ->];
      (eexists; split; [reflexivity|]; split; [reflexivity|cbn; lia]). }
  assert (config_for_par (demo_config "cu") = Some (own_fingerprint demo_ready)) as Hpar by (vm_compute; reflexivity).
  assert (config_secret (demo_config "cu") = Some (secret demo_ready)) as Hsec by (vm_compute; reflexivity).
  destruct (request_arrives (Some (replicate 16 x07)) (demo_config "cu") r demo_ready
    (ShipPairingEntryConstruct None None 0) "secp256r1" Er demo_ready_ok eq_refl ltac:(discriminate) eq_refl Hpar
    Hsec Hc Hs Hnew Hids (λ f, eq_refl)) as (pairs & e & H1 & H2 & H3 & H4 & _).
  exists pairs, e. rewrite <- Ee. auto.
Defined.

(** ** Runs *)

(** A restart of the timer and the report that follows it. *)
Definition demo_restart : list Label := [RestartStep; RestartStep; RestartStep; RestartStep].
Definition demo_report : list Label := [CallReport ReporterCaller; ReportStep].

(** The secret is set, a request is accepted and offered again; after fifteen minutes without a message
    exchange the timer lets additions be processed again: the old request is still known, a new
    one is accepted. *)
Definition demo_run : list Label :=
  [SetSecret (Some demo_secret)] ++ demo_report ++
  [Evaluate (Some (demo_request "cu" x07))] ++ demo_restart ++ demo_report ++
  [Evaluate (Some (demo_request "cu" x07)); Tick 900; TimerFires; CallbackStep true; CallbackStep true;
   CallbackStep true; CallReport ReporterTimer; ReportStep;
   Evaluate (Some (demo_request "cu" x07)); Evaluate (Some (demo_request "other" x08))] ++
  demo_restart ++ demo_report.

Definition demo_log : list (Z * Event) :=
  let first := demo_digest (demo_request "cu" x07) in
  let second := demo_digest (demo_request "other" x08) in
  [ (900, EvReport false false); (900, EvAccepted second); (900, EvReport true false); (900, EvReactivated);
    (0, EvReport false false); (0, EvAccepted first); (0, EvReport true false) ]%Z.

Example demo_run_log :
  match run demo_run (init demo_node 0) with Ret _ s => log s = demo_log | _ => False end.
Proof. vm_compute. reflexivity. Qed.

Lemma demo_labels_ok : Forall label_ok demo_run.
Proof. repeat constructor. Qed.

(** A run that returns, and what a theorem on all runs says of it. *)
Lemma demo_returns : ∃ s, run demo_run (init demo_node 0) = Ret tt s ∧ log s = demo_log.
Proof.
  pose proof demo_run_log as Hlog. destruct (run demo_run (init demo_node 0)) as [[] s| |]; [|done..]. eauto.
Qed.



Lemma reports_settle_witness :
  ∃ s, run demo_run (init demo_node 0) = Ret tt s ∧ reports (log s) = [false; true; false; true] ∧
       alternating (reports (log s)).
Proof.
  destruct demo_returns as (s & E & Hlog). exists s. split; [exact E|]. split; [rewrite Hlog; reflexivity|].
  refine (proj1 (wp_ret_inv _ _ _ _ _
    (reports_settle (Some "node") (Some demo_certificate) demo_node 0 demo_run _ _ _) E)).
  - reflexivity.
  - apply demo_labels_ok.
  - reflexivity.
Defined.

(** A timer that expires while a message exchange is being notified: its callback, which has
    begun, has to give way, and the pairing stays protected. *)
Definition demo_race : list Label :=
  [SetSecret (Some demo_secret)] ++ demo_report ++
  [Evaluate (Some (demo_request "cu" x07))] ++ demo_restart ++ demo_report ++
  [Tick 900; TimerFires; CallbackStep false; NotifyMessageExchange; CallbackStep false; CallbackStep false] ++
  demo_restart.

Example demo_race_protected :
  match run demo_race (init demo_node 0) with
  | Ret _ s => add_cu_activated (pairing s) = false ∧ timer s = Some 1800%Z ∧ callback s = CallbackNone
  | _ => False
  end.
Proof. vm_compute. auto. Qed.

(** A call of [deactivate_add_cu] does not stop the timer: when the fifteen minutes are over, additions
    are processed again. *)
Example deactivation_ends_with_the_timer :
  match run ([SetSecret (Some demo_secret)] ++ demo_report ++
             [Evaluate (Some (demo_request "cu" x07))] ++ demo_restart ++ demo_report ++
             [DeactivateAddCu; Tick 900; TimerFires; CallbackStep false; CallbackStep false; CallbackStep false])
        (init demo_node 0) with
  | Ret _ s => add_cu_activated (pairing s) = true
  | _ => False
  end.
Proof. vm_compute. reflexivity. Qed.
