(* ===== verification/ShipTypes.v ===== *)
(** * The data of the SHIP connection

    The enumerations and structs of [src/ship/model/types.h],
    [src/ship/model/model.h], [src/ship/ship_connection/types.h] and
    [ship_connection_internal.h], and the interface to the message codec. *)

From S2P Require Import Prelude.

(** [enum SmeState] *)
Inductive SmeState :=
| kCmiStateInitStart
| kCmiStateClientSend
| kCmiStateClientWait
| kCmiStateClientEvaluate
| kCmiStateServerWait
| kCmiStateServerEvaluate
| kSmeHelloState
| kSmeHelloStateReadyInit
| kSmeHelloStateReadyListen
| kSmeHelloStateReadyTimeout
| kSmeHelloStatePendingInit
| kSmeHelloStatePendingListen
| kSmeHelloStatePendingTimeout
| kSmeHelloStateOk
| kSmeHelloStateAbort
| kSmeHelloStateAbortDone
| kSmeHelloStateRemoteAbortDone
| kSmeHelloStateRejected
| kSmeProtHStateServerInit
| kSmeProtHStateClientInit
| kSmeProtHStateServerListenProposal
| kSmeProtHStateServerListenConfirm
| kSmeProtHStateClientListenChoice
| kSmeProtHStateTimeout
| kSmeProtHStateClientOk
| kSmeProtHStateServerOk
| kSmePinStateCheckInit
| kSmePinStateCheckListen
| kSmePinStateCheckError
| kSmePinStateCheckBusyInit
| kSmePinStateCheckBusyWait
| kSmePinStateCheckOk
| kSmePinStateAskInit
| kSmePinStateAskProcess
| kSmePinStateAskRestrictedOk
| kSmePinStateAskOk
| kSmeAccessMethodsRequest
| kSmeStateApproved
| kDataExchange
| kSmeStateError.

#[export] Instance SmeState_eq_dec : EqDecision SmeState.
Proof. solve_decision. Defined.

Inductive ShipRole := kShipRoleServer | kShipRoleClient | kShipRoleAuto.

#[export] Instance ShipRole_eq_dec : EqDecision ShipRole.
Proof. solve_decision. Defined.

(** The SHIP timeouts, in milliseconds. *)
Definition cmiTimeout : Z := 10000.
Definition tHelloInit : Z := 60000.
Definition tHelloInc : Z := 60000.
Definition tHelloProlongThrInc : Z := 30000.
Definition tHelloProlongWaitingGap : Z := 15000.
Definition tHelloProlongMin : Z := 1000.

(** [kShipInitMessage = { kMsgTypeInit, 0x00 }] *)
Definition kShipInitMessage : list byte := [x00; x00].

(** A [MessageBuffer]: [None] is [data == NULL]. *)
Abbreviation MessageBuffer := (option (list byte)).

(** [enum MsgValueType] *)
Inductive MsgValueType :=
| kValueUndefined
| kSmeHello
| kSmeProtocolHandshake
| kSmeProtocolHandshakeError
| kSmeConnectionPinState
| kSmeConnectionPinInput
| kSmeConnectionPinError
| kData
| kSmeConnectionAccessMethodsRequest
| kSmeConnectionAccessMethods
| kSmeClose.

#[export] Instance MsgValueType_eq_dec : EqDecision MsgValueType.
Proof. solve_decision. Defined.

Definition SHIP_PROTOCOL_ID : string := "ee1.0".
Definition SHIP_PROTOCOL_MAX_SUPPORTED_MAJOR_VERSION : Z := 1.
Definition SHIP_PROTOCOL_MAX_SUPPORTED_MINOR_VERSION : Z := 0.

(** An optional C field addressed through a pointer is an [option]. *)
Inductive ConnectionHelloPhase :=
| kConnectionHelloPhasePending
| kConnectionHelloPhaseReady
| kConnectionHelloPhaseAborted.

Record ConnectionHello := mkHello {
  hello_phase : ConnectionHelloPhase;
  waiting : option Z;
  prolongation_request : option bool;
}.

Inductive MessageProtocolFormatType :=
| kMessageProtocolFormatTypeUTF8
| kMessageProtocolFormatTypeUTF16.

#[export] Instance MessageProtocolFormatType_eq_dec : EqDecision MessageProtocolFormatType.
Proof. solve_decision. Defined.

Inductive ProtocolHandshakeType :=
| kProtocolHandshakeTypeAnnounceMax
| kProtocolHandshakeTypeSelect.

#[export] Instance ProtocolHandshakeType_eq_dec : EqDecision ProtocolHandshakeType.
Proof. solve_decision. Defined.

(** [formats]: the first [format_size] entries of the C array. *)
Record MessageProtocolHandshake := mkProtHs {
  handshake_type : ProtocolHandshakeType;
  version_major : Z;
  version_minor : Z;
  formats : list MessageProtocolFormatType;
}.

Inductive MessageProtocolHandshakeErrorType :=
| kMessageProtocolHandshakeErrorTypeRFU
| kMessageProtocolHandshakeErrorTypeTimeout
| kMessageProtocolHandshakeErrorTypeUnexpectedMessage
| kMessageProtocolHandshakeErrorTypeSelectionMismatch.

Inductive PinStateType :=
| kPinStateTypeRequired
| kPinStateTypeOptional
| kPinStateTypePinOk
| kPinStateTypeNone.

Inductive PinInputPermissionType :=
| kPinInputPermissionTypeBusy
| kPinInputPermissionTypeOk.

Record ConnectionPinState := mkPinState {
  pin_state : PinStateType;
  input_permission : option PinInputPermissionType;
}.

Record Data := mkData {
  protocol_id : string;
  payload : MessageBuffer;
}.

Record AccessMethods := mkAccessMethods {
  access_id : option string;
  dns_sd_mdns : bool;
  dns_uri : option string;
}.

Inductive ConnectionClosePhaseType :=
| kConnectionClosePhaseTypeAnnounce
| kConnectionClosePhaseTypeConfirm.

Record ConnectionClose := mkClose {
  close_phase : ConnectionClosePhaseType;
  max_time : option Z;
  close_reason : option string;
}.

(** A message value together with its [MsgValueType]: the [void*] of the
    serializer's and deserializer's interface. *)
Inductive ShipValue :=
| VHello (v : ConnectionHello)
| VProtocolHandshake (v : MessageProtocolHandshake)
| VProtocolHandshakeError (v : MessageProtocolHandshakeErrorType)
| VPinState (v : ConnectionPinState)
| VPinInput (pin : Z)
| VPinError (error : Z)
| VData (v : Data)
| VAccessMethodsRequest
| VAccessMethods (v : AccessMethods)
| VClose (v : ConnectionClose).

(** Equality of message values is decidable. *)
#[export] Instance ConnectionHelloPhase_eq_dec : EqDecision ConnectionHelloPhase.
Proof. solve_decision. Defined.
#[export] Instance ConnectionHello_eq_dec : EqDecision ConnectionHello.
Proof. solve_decision. Defined.
#[export] Instance MessageProtocolHandshake_eq_dec : EqDecision MessageProtocolHandshake.
Proof. solve_decision. Defined.
#[export] Instance MessageProtocolHandshakeErrorType_eq_dec : EqDecision MessageProtocolHandshakeErrorType.
Proof. solve_decision. Defined.
#[export] Instance PinStateType_eq_dec : EqDecision PinStateType.
Proof. solve_decision. Defined.
#[export] Instance PinInputPermissionType_eq_dec : EqDecision PinInputPermissionType.
Proof. solve_decision. Defined.
#[export] Instance ConnectionPinState_eq_dec : EqDecision ConnectionPinState.
Proof. solve_decision. Defined.
#[export] Instance Data_eq_dec : EqDecision Data.
Proof. solve_decision. Defined.
#[export] Instance AccessMethods_eq_dec : EqDecision AccessMethods.
Proof. solve_decision. Defined.
#[export] Instance ConnectionClosePhaseType_eq_dec : EqDecision ConnectionClosePhaseType.
Proof. solve_decision. Defined.
#[export] Instance ConnectionClose_eq_dec : EqDecision ConnectionClose.
Proof. solve_decision. Defined.
#[export] Instance ShipValue_eq_dec : EqDecision ShipValue.
Proof. solve_decision. Defined.

Definition ship_value_type (v : ShipValue) : MsgValueType :=
  match v with
  | VHello _ => kSmeHello
  | VProtocolHandshake _ => kSmeProtocolHandshake
  | VProtocolHandshakeError _ => kSmeProtocolHandshakeError
  | VPinState _ => kSmeConnectionPinState
  | VPinInput _ => kSmeConnectionPinInput
  | VPinError _ => kSmeConnectionPinError
  | VData _ => kData
  | VAccessMethodsRequest => kSmeConnectionAccessMethodsRequest
  | VAccessMethods _ => kSmeConnectionAccessMethods
  | VClose _ => kSmeClose
  end.

(** The message codec ([ship_message_serialize.c], [ship_message_deserialize.c]):
    [None] is a NULL buffer, or an object without a value. *)
Class ShipCodec := {
  ship_serialize : ShipValue → option (list byte);
  ship_deserialize : list byte → option ShipValue;
}.

(** The deserializer object: [GetValue] and [GetValueType]. *)
Record ShipMessageDeserialize := mkDeserialize {
  value : option ShipValue;
  value_type : MsgValueType;
}.

Definition ShipMessageDeserializeCreate `{ShipCodec} (buf : MessageBuffer) : ShipMessageDeserialize :=
  match buf ≫= ship_deserialize with
  | Some v => mkDeserialize (Some v) (ship_value_type v)
  | None => mkDeserialize None kValueUndefined
  end.

(** The casts of [GetValue]'s result, each guarded by the value type. *)
Definition hello_of (v : option ShipValue) : option ConnectionHello :=
  match v with Some (VHello h) => Some h | _ => None end.
Definition prot_hs_of (v : option ShipValue) : option MessageProtocolHandshake :=
  match v with Some (VProtocolHandshake h) => Some h | _ => None end.
Definition pin_state_of (v : option ShipValue) : option ConnectionPinState :=
  match v with Some (VPinState p) => Some p | _ => None end.
Definition data_of (v : option ShipValue) : option Data :=
  match v with Some (VData d) => Some d | _ => None end.
Definition access_methods_of (v : option ShipValue) : option AccessMethods :=
  match v with Some (VAccessMethods a) => Some a | _ => None end.
Definition close_of (v : option ShipValue) : option ConnectionClose :=
  match v with Some (VClose c) => Some c | _ => None end.

(** [enum ShipConnectionQueueMsgType] *)
Inductive ShipConnectionQueueMsgType :=
| kShipConnectionQueueMsgTypeDataReceived
| kShipConnectionQueueMsgTypeSpineDataToSend
| kShipConnectionQueueMsgTypeTimeout
| kShipConnectionQueueMsgTypeWebsocketError
| kShipConnectionQueueMsgTypeWebsocketClose
| kShipConnectionQueueMsgTypeCancel
| kShipConnectionQueueMsgTypeTrustGranted
| kShipConnectionQueueMsgTypeTrustDenied.

#[export] Instance ShipConnectionQueueMsgType_eq_dec : EqDecision ShipConnectionQueueMsgType.
Proof. solve_decision. Defined.

Inductive ShipConnectionTrustDecision :=
| kShipConnectionTrustDecisionNone
| kShipConnectionTrustDecisionGranted
| kShipConnectionTrustDecisionDenied.

#[export] Instance ShipConnectionTrustDecision_eq_dec : EqDecision ShipConnectionTrustDecision.
Proof. solve_decision. Defined.

(** Callback and context pointers are numbers; [None] is NULL. *)
Record ShipConnectionQueueMessage := mkQMsg {
  qtype : ShipConnectionQueueMsgType;
  qbuf : MessageBuffer;
  approval_id : Z;
  accept_cb : option nat;
  accept_ctx : nat;
}.

Definition qmsg (t : ShipConnectionQueueMsgType) (buf : MessageBuffer) : ShipConnectionQueueMessage :=
  mkQMsg t buf 0 None 0.

(** [enum WebsocketCallbackType] *)
Inductive WebsocketCallbackType :=
| kWebsocketCallbackTypeError
| kWebsocketCallbackTypeRead
| kWebsocketCallbackTypeClose.
