(* ===== verification/ShipSerialize.v ===== *)
(** * Writing SHIP messages ([src/ship/ship_connection/ship_message_serialize.c])

    A value becomes a JSON object with one array, whose items are objects with one
    member each; in front of its text goes a byte with the type of the message.
    The helpers that add to an array take the items it has and give the items it
    has afterwards, [None] where the C function returns false. *)

From Stdlib Require Import Strings.String.
From S2P Require Import Prelude StringUtil Json ShipTypes.

Local Open Scope string_scope.
Local Open Scope list_scope.
Local Open Scope Z_scope.

(** [enum MsgType] *)
Inductive MsgType := kMsgTypeInit | kMsgTypeControl | kMsgTypeData | kMsgTypeEnd.
Definition MsgType_byte (t : MsgType) : byte :=
  match t with
  | kMsgTypeInit => x00
  | kMsgTypeControl => x01
  | kMsgTypeData => x02
  | kMsgTypeEnd => x03
  end.

(** ** The frame of a message *)

(** The loop of [StringToShipMessage]: [for (i = len; i >= 1; --i) s[i] = s[i - 1]]. *)
Fixpoint frame_loop (i : nat) (s : list byte) : list byte :=
  match i with
  | O => s
  | S i' => frame_loop i' (<[i := default x00 (s !! i')]> s)
  end.

(** The buffer, where the function returns true; [s] is the text with its NUL. *)
Definition StringToShipMessage (s : string) (msg_type : MsgType) : option (list byte) :=
  let len := String.length s in
  if (len <? 2)%nat then None
  else Some (<[0%nat := MsgType_byte msg_type]> (frame_loop len (c_array s))).

(** ** The digits of a PIN *)

(** The loop over [pin]: the last digit first, [fuel] at least the number of digits. *)
Fixpoint pin_digits (fuel : nat) (pin : Z) : list Z :=
  match fuel with
  | O => []
  | S fuel' => if pin >? 0 then Z.land pin 15 :: pin_digits fuel' (Z.shiftr pin 4) else []
  end.
(** [d += (d < 10) ? '0' : ('A' - 10)] *)
Definition pin_char (d : Z) : Ascii.ascii := hex_digit 65 d.
(** The loop that turns the string round: [n] of the [pin_str_len / 2] swaps left. *)
Fixpoint pin_swap (n i : nat) (s : list Ascii.ascii) : list Ascii.ascii :=
  match n with
  | O => s
  | S n' =>
      match s !! i, s !! (length s - i - 1)%nat with
      | Some tmp, Some c => pin_swap n' (S i) (<[(length s - i - 1)%nat := tmp]> (<[i := c]> s))
      | _, _ => s
      end
  end.
Definition pin_str (pin : Z) : string :=
  let s := pin_char <$> pin_digits 16 pin in
  string_of_list_ascii (pin_swap (length s / 2) 0 s).

Section serialize.
Context `{CJson}.

(** ** Hello *)

Definition ConnectionHelloAddPhase (h : ConnectionHello) (ar : list cJSON) : option (list cJSON) :=
  let phase :=
    match hello_phase h with
    | kConnectionHelloPhasePending => "pending"
    | kConnectionHelloPhaseReady => "ready"
    | kConnectionHelloPhaseAborted => "aborted"
    end in
  Some (JsonAddObjectToArray ar "phase" (cJSON_CreateString phase)).

Definition ConnectionHelloAddWaiting (h : ConnectionHello) (ar : list cJSON) : option (list cJSON) :=
  match waiting h with
  | None => Some ar
  | Some w => Some (JsonAddObjectToArray ar "waiting" (cJSON_CreateNumber (double_of_Z w)))
  end.

Definition ConnectionHelloAddProlongationRequest (h : ConnectionHello) (ar : list cJSON) : option (list cJSON) :=
  match prolongation_request h with
  | None => Some ar
  | Some b => Some (JsonAddObjectToArray ar "prolongationRequest" (cJSON_CreateBool b))
  end.

(** The name of the array and its items. *)
Definition SmeHelloSerialize (h : ConnectionHello) : option (string * list cJSON) :=
  ar ← ConnectionHelloAddPhase h [];
  ar ← ConnectionHelloAddWaiting h ar;
  ar ← ConnectionHelloAddProlongationRequest h ar;
  Some ("connectionHello", ar).

(** ** Protocol handshake *)

Definition MessageProtocolHandshakeAddType (v : MessageProtocolHandshake) (ar : list cJSON) : option (list cJSON) :=
  let handshake_type_str :=
    match handshake_type v with
    | kProtocolHandshakeTypeAnnounceMax => "announceMax"
    | kProtocolHandshakeTypeSelect => "select"
    end in
  Some (JsonAddObjectToArray ar "handshakeType" (cJSON_CreateString handshake_type_str)).

Definition MessageProtocolHandshakeAddVersion (v : MessageProtocolHandshake) (ar : list cJSON) : option (list cJSON) :=
  let version_ar := [] in
  let version_ar := JsonAddObjectToArray version_ar "major" (cJSON_CreateNumber (double_of_Z (version_major v))) in
  let version_ar := JsonAddObjectToArray version_ar "minor" (cJSON_CreateNumber (double_of_Z (version_minor v))) in
  Some (JsonAddObjectToArray ar "version" (cJSON_Array version_ar)).

Definition format_str (t : MessageProtocolFormatType) : option string :=
  match t with
  | kMessageProtocolFormatTypeUTF8 => Some "JSON-UTF8"
  | kMessageProtocolFormatTypeUTF16 => Some "JSON-UTF16"
  end.

Fixpoint add_formats (fs : list MessageProtocolFormatType) (format_ar : list cJSON) : option (list cJSON) :=
  match fs with
  | [] => Some format_ar
  | f :: fs' => format_ar ← JsonAddStringToArray format_ar (format_str f); add_formats fs' format_ar
  end.

(** [ARRAY_SIZE(formats.format)] *)
Definition formats_max : nat := 2.

Definition MessageProtocolHandshakeAddFormats (v : MessageProtocolHandshake) (ar : list cJSON) : option (list cJSON) :=
  if (formats_max <? length (formats v))%nat then None
  else
    format ←
      (if bool_decide (length (formats v) = 0%nat) then Some cJSON_CreateNull
       else cJSON_Array <$> add_formats (formats v) []);
    let formats_ar := JsonAddObjectToArray [] "format" format in
    Some (JsonAddObjectToArray ar "formats" (cJSON_Array formats_ar)).

Definition SmeProtocolHandshakeSerialize (v : MessageProtocolHandshake) : option (string * list cJSON) :=
  ar ← MessageProtocolHandshakeAddType v [];
  ar ← MessageProtocolHandshakeAddVersion v ar;
  ar ← MessageProtocolHandshakeAddFormats v ar;
  Some ("messageProtocolHandshake", ar).

Definition handshake_error_code (e : MessageProtocolHandshakeErrorType) : Z :=
  match e with
  | kMessageProtocolHandshakeErrorTypeRFU => 0
  | kMessageProtocolHandshakeErrorTypeTimeout => 1
  | kMessageProtocolHandshakeErrorTypeUnexpectedMessage => 2
  | kMessageProtocolHandshakeErrorTypeSelectionMismatch => 3
  end.

Definition MessageProtocolHandshakeErrorAddError
    (e : MessageProtocolHandshakeErrorType) (ar : list cJSON) : option (list cJSON) :=
  Some (JsonAddObjectToArray ar "error" (cJSON_CreateNumber (double_of_Z (handshake_error_code e)))).

Definition SmeProtocolHandshakeErrorSerialize
    (e : MessageProtocolHandshakeErrorType) : option (string * list cJSON) :=
  ar ← MessageProtocolHandshakeErrorAddError e [];
  Some ("messageProtocolHandshakeError", ar).

(** ** PIN *)

Definition ConnectionPinStateAddPinState (v : ConnectionPinState) (ar : list cJSON) : option (list cJSON) :=
  let pin_state_str :=
    match pin_state v with
    | kPinStateTypeRequired => "required"
    | kPinStateTypeOptional => "optional"
    | kPinStateTypePinOk => "pinOk"
    | kPinStateTypeNone => "none"
    end in
  Some (JsonAddObjectToArray ar "pinState" (cJSON_CreateString pin_state_str)).

Definition ConnectionPinStateAddInputPermission (v : ConnectionPinState) (ar : list cJSON) : option (list cJSON) :=
  match input_permission v with
  | None => Some ar
  | Some p =>
      let input_permission_str :=
        match p with
        | kPinInputPermissionTypeBusy => "busy"
        | kPinInputPermissionTypeOk => "ok"
        end in
      Some (JsonAddObjectToArray ar "inputPermission" (cJSON_CreateString input_permission_str))
  end.

Definition SmeConnectionPinStateSerialize (v : ConnectionPinState) : option (string * list cJSON) :=
  ar ← ConnectionPinStateAddPinState v [];
  ar ← ConnectionPinStateAddInputPermission v ar;
  Some ("connectionPinState", ar).

Definition ConnectionPinInputAddPin (pin : Z) (ar : list cJSON) : option (list cJSON) :=
  Some (JsonAddObjectToArray ar "pin" (cJSON_CreateString (pin_str pin))).

Definition SmeConnectionPinInputSerialize (pin : Z) : option (string * list cJSON) :=
  ar ← ConnectionPinInputAddPin pin [];
  Some ("connectionPinInput", ar).

Definition ConnectionPinErrorAddError (error : Z) (ar : list cJSON) : option (list cJSON) :=
  Some (JsonAddObjectToArray ar "error" (cJSON_CreateNumber (double_of_Z error))).

Definition SmeConnectionPinErrorSerialize (error : Z) : option (string * list cJSON) :=
  ar ← ConnectionPinErrorAddError error [];
  Some ("connectionPinError", ar).

(** ** Data *)

Definition DataAddHeader (d : Data) (ar : list cJSON) : option (list cJSON) :=
  let header_ar := JsonAddObjectToArray [] "protocolId" (cJSON_CreateString (protocol_id d)) in
  Some (JsonAddObjectToArray ar "header" (cJSON_Array header_ar)).

(** The payload is taken as a C string: a buffer without a NUL is read past its end. *)
Definition DataAddPayload (d : Data) (ar : list cJSON) : parsed (list cJSON) :=
  match payload d with
  | None => Rejected
  | Some data =>
      match c_str data with
      | None => Undefined
      | Some s => Parsed (JsonAddObjectToArray ar "payload" (cJSON_CreateRaw s))
      end
  end.

Definition DataSerialize (d : Data) : parsed (string * list cJSON) :=
  ar ← non_null (DataAddHeader d []);
  ar ← DataAddPayload d ar;
  Parsed ("data", ar).

(** ** Access methods *)

Definition SmeConnectionAccessMethodsRequestSerialize : option (string * list cJSON) :=
  Some ("accessMethodsRequest", []).

(** Adding a NULL string fails. *)
Definition AccessMethodsAddId (v : AccessMethods) (ar : list cJSON) : option (list cJSON) :=
  id ← access_id v;
  Some (JsonAddObjectToArray ar "id" (cJSON_CreateString id)).

Definition AccessMethodsAddDnsSdMdns (v : AccessMethods) (ar : list cJSON) : option (list cJSON) :=
  if negb (dns_sd_mdns v) then Some ar
  else Some (JsonAddObjectToArray ar "dnsSd_mDns" (cJSON_Array [])).

Definition AccessMethodsAddDns (v : AccessMethods) (ar : list cJSON) : option (list cJSON) :=
  match dns_uri v with
  | None => Some ar
  | Some uri =>
      let uri_ar := JsonAddObjectToArray [] "uri" (cJSON_CreateString uri) in
      Some (JsonAddObjectToArray ar "dns" (cJSON_Array uri_ar))
  end.

Definition SmeConnectionAccessMethodsSerialize (v : AccessMethods) : option (string * list cJSON) :=
  ar ← AccessMethodsAddId v [];
  ar ← AccessMethodsAddDnsSdMdns v ar;
  ar ← AccessMethodsAddDns v ar;
  Some ("accessMethods", ar).

(** ** Close *)

Definition ConnectionCloseAddPhase (v : ConnectionClose) (ar : list cJSON) : option (list cJSON) :=
  let phase_str :=
    match close_phase v with
    | kConnectionClosePhaseTypeAnnounce => "announce"
    | kConnectionClosePhaseTypeConfirm => "confirm"
    end in
  Some (JsonAddObjectToArray ar "phase" (cJSON_CreateString phase_str)).

Definition ConnectionCloseAddMaxTime (v : ConnectionClose) (ar : list cJSON) : option (list cJSON) :=
  match max_time v with
  | None => Some ar
  | Some t => Some (JsonAddObjectToArray ar "maxTime" (cJSON_CreateNumber (double_of_Z t)))
  end.

Definition ConnectionCloseAddReason (v : ConnectionClose) (ar : list cJSON) : option (list cJSON) :=
  match close_reason v with
  | None => Some ar
  | Some r => Some (JsonAddObjectToArray ar "reason" (cJSON_CreateString r))
  end.

Definition SmeCloseSerialize (v : ConnectionClose) : option (string * list cJSON) :=
  ar ← ConnectionCloseAddPhase v [];
  ar ← ConnectionCloseAddMaxTime v ar;
  ar ← ConnectionCloseAddReason v ar;
  Some ("connectionClose", ar).

(** ** Any message *)

Definition SerializeMessage (v : ShipValue) : parsed cJSON :=
  (λ '(name, ar), cJSON_Object [(name, cJSON_Array ar)]) <$>
  match v with
  | VHello v => non_null (SmeHelloSerialize v)
  | VProtocolHandshake v => non_null (SmeProtocolHandshakeSerialize v)
  | VProtocolHandshakeError e => non_null (SmeProtocolHandshakeErrorSerialize e)
  | VPinState v => non_null (SmeConnectionPinStateSerialize v)
  | VPinInput pin => non_null (SmeConnectionPinInputSerialize pin)
  | VPinError e => non_null (SmeConnectionPinErrorSerialize e)
  | VData d => DataSerialize d
  | VAccessMethodsRequest => non_null SmeConnectionAccessMethodsRequestSerialize
  | VAccessMethods v => non_null (SmeConnectionAccessMethodsSerialize v)
  | VClose v => non_null (SmeCloseSerialize v)
  end.

Definition value_msg_type (value_type : MsgValueType) : MsgType :=
  if bool_decide (value_type = kSmeClose) then kMsgTypeEnd
  else if bool_decide (value_type = kData) then kMsgTypeData
  else kMsgTypeControl.

(** [Serialize]: the bytes of the buffer; [Rejected] when the buffer is NULL. *)
Definition Serialize (v : ShipValue) : parsed (list byte) :=
  json_obj ← SerializeMessage v;
  s ← non_null (cJSON_PrintUnformatted json_obj);
  non_null (StringToShipMessage s (value_msg_type (ship_value_type v))).
End serialize.
