(* ===== verification/ShipDeserialize.v ===== *)
(** * Reading SHIP messages ([src/ship/ship_connection/ship_message_deserialize.c])

    A [Parse] function that stores into an object is a [parsed] of what it stores:
    [Rejected] is the result false, or the error, after which the object is
    deleted.  A JSON node the source passes may be NULL. *)

From Stdlib Require Import Strings.String Ascii.
From S2P Require Import Prelude StringUtil Json ShipTypes ShipSerialize.

Local Open Scope string_scope.
Local Open Scope list_scope.
Local Open Scope Z_scope.

(** ** The frame of a message *)

(** The loop of [ShipMessageToString]: [for (i = 0; i < data_size - 1; ++i) data[i] = data[i + 1]];
    [n] of its rounds are left. *)
Fixpoint unframe_loop (n i : nat) (data : list byte) : list byte :=
  match n with
  | O => data
  | S n' => unframe_loop n' (S i) (<[i := default x00 (data !! S i)]> data)
  end.

(** The buffer, where the function returns true. *)
Definition ShipMessageToString (data : list byte) : option (list byte) :=
  let data_size := length data in
  if (data_size <? 2)%nat then None
  else Some (<[(data_size - 1)%nat := x00]> (unframe_loop (data_size - 1) 0 data)).

(** ** The digits of a PIN *)

(** [isdigit], [isalpha], [toupper] in the C locale. *)
Definition isdigit (c : ascii) : bool :=
  let n := Z.of_N (N_of_ascii c) in (48 <=? n) && (n <=? 57).
Definition isalpha (c : ascii) : bool :=
  let n := Z.of_N (N_of_ascii c) in ((65 <=? n) && (n <=? 90)) || ((97 <=? n) && (n <=? 122)).
Definition toupper (c : ascii) : Z :=
  let n := Z.of_N (N_of_ascii c) in if (97 <=? n) && (n <=? 122) then n - 32 else n.

(** The loop of [ConnectionPinInputParsePin]: [pin] in 64 bits. *)
Fixpoint parse_pin (s : string) (pin : Z) : option Z :=
  match s with
  | EmptyString => Some pin
  | String c s' =>
      let pin := u64 (Z.shiftl pin 4) in
      if isdigit c then parse_pin s' (u64 (pin + (Z.of_N (N_of_ascii c) - 48)))
      else if isalpha c then
        if toupper c >? 70 then None
        else parse_pin s' (u64 (pin + (toupper c - 65 + 10)))
      else None
  end.

Section deserialize.
Context `{CJson}.

(** The functions of cJSON on a node that may be NULL. *)
Definition get_item (j : option cJSON) (k : string) : option cJSON :=
  j ≫= λ j, cJSON_GetObjectItem j k.
Definition get_at (j : option cJSON) (i : nat) : option cJSON :=
  j ≫= λ j, cJSON_GetArrayItem j i.
Definition get_string (j : option cJSON) : option string := j ≫= cJSON_GetStringValue.
Definition get_size (j : option cJSON) : nat := from_option cJSON_GetArraySize 0%nat j.
(** The value of a node after the check that it is a number. *)
Definition get_number (j : option cJSON) : parsed double :=
  j ← non_null j; require (cJSON_IsNumber j);; Parsed (cJSON_GetNumberValue j).

(** ** Hello *)

Definition ConnectionHelloParsePhase (j : option cJSON) : parsed ConnectionHelloPhase :=
  phase_str ← non_null (get_string (get_item j "phase"));
  if String.eqb phase_str "pending" then Parsed kConnectionHelloPhasePending
  else if String.eqb phase_str "ready" then Parsed kConnectionHelloPhaseReady
  else if String.eqb phase_str "aborted" then Parsed kConnectionHelloPhaseAborted
  else Rejected.

Definition ConnectionHelloParseWaiting (j : cJSON) : parsed Z :=
  d ← get_number (get_item (Some j) "waiting"); double_to_u32 d.

Definition ConnectionHelloParseProlongReq (j : cJSON) : parsed bool :=
  j ← non_null (get_item (Some j) "prolongationRequest");
  require (cJSON_IsBool j);; Parsed (cJSON_IsTrue j).

(** Only the second item of the array is looked at for the optional members. *)
Definition SmeHelloDeserialize (ar : cJSON) : parsed ConnectionHello :=
  phase ← ConnectionHelloParsePhase (get_at (Some ar) 0);
  match get_at (Some ar) 1 with
  | None => Parsed (mkHello phase None None)
  | Some sme_hello_1 =>
      or_else
        ((λ w, mkHello phase (Some w) None) <$> ConnectionHelloParseWaiting sme_hello_1)
        ((λ b, mkHello phase None (Some b)) <$> ConnectionHelloParseProlongReq sme_hello_1)
  end.

(** ** Protocol handshake *)

Definition MessageProtocolHandshakeParseType (j : option cJSON) : parsed ProtocolHandshakeType :=
  s ← non_null (get_string (get_item j "handshakeType"));
  if String.eqb s "announceMax" then Parsed kProtocolHandshakeTypeAnnounceMax
  else if String.eqb s "select" then Parsed kProtocolHandshakeTypeSelect
  else Rejected.

Definition MessageProtocolHandshakeParseVersion (j : option cJSON) : parsed (Z * Z) :=
  let version_ar := get_item j "version" in
  major ← get_number (get_item (get_at version_ar 0) "major");
  major ← double_to_u8 major;
  minor ← get_number (get_item (get_at version_ar 1) "minor");
  minor ← double_to_u8 minor;
  Parsed (major, minor).

Definition parse_format (s : string) : parsed MessageProtocolFormatType :=
  if String.eqb s "JSON-UTF8" then Parsed kMessageProtocolFormatTypeUTF8
  else if String.eqb s "JSON-UTF16" then Parsed kMessageProtocolFormatTypeUTF16
  else Rejected.

(** The loop over [format_ar] from index [i], [n] items left. *)
Fixpoint parse_formats (format_ar : cJSON) (n i : nat) : parsed (list MessageProtocolFormatType) :=
  match n with
  | O => Parsed []
  | S n' =>
      s ← non_null (get_string (get_at (Some format_ar) i));
      f ← parse_format s;
      fs ← parse_formats format_ar n' (S i);
      Parsed (f :: fs)
  end.

Definition MessageProtocolHandshakeParseFormats (j : option cJSON) : parsed (list MessageProtocolFormatType) :=
  let formats_0 := get_at (get_item j "formats") 0 in
  format_ar ← non_null (get_item formats_0 "format");
  let format_size := cJSON_GetArraySize format_ar in
  require (format_size <=? formats_max)%nat;;
  parse_formats format_ar format_size 0.

Definition SmeProtocolHandshakeDeserialize (ar : cJSON) : parsed MessageProtocolHandshake :=
  t ← MessageProtocolHandshakeParseType (get_at (Some ar) 0);
  v ← MessageProtocolHandshakeParseVersion (get_at (Some ar) 1);
  fs ← MessageProtocolHandshakeParseFormats (get_at (Some ar) 2);
  Parsed (mkProtHs t v.1 v.2 fs).

Definition handshake_error_of (error : Z) : option MessageProtocolHandshakeErrorType :=
  if error =? 0 then Some kMessageProtocolHandshakeErrorTypeRFU
  else if error =? 1 then Some kMessageProtocolHandshakeErrorTypeTimeout
  else if error =? 2 then Some kMessageProtocolHandshakeErrorTypeUnexpectedMessage
  else if error =? 3 then Some kMessageProtocolHandshakeErrorTypeSelectionMismatch
  else None.

Definition MessageProtocolHandshakeErrorParseError (j : option cJSON) : parsed MessageProtocolHandshakeErrorType :=
  d ← get_number (get_item j "error");
  error ← double_to_i32 d;
  non_null (handshake_error_of error).

Definition SmeProtocolHandshakeErrorDeserialize (ar : cJSON) : parsed MessageProtocolHandshakeErrorType :=
  MessageProtocolHandshakeErrorParseError (get_at (Some ar) 0).

(** ** PIN *)

Definition ConnectionPinStateParsePinState (j : option cJSON) : parsed PinStateType :=
  s ← non_null (get_string (get_item j "pinState"));
  if String.eqb s "required" then Parsed kPinStateTypeRequired
  else if String.eqb s "optional" then Parsed kPinStateTypeOptional
  else if String.eqb s "pinOk" then Parsed kPinStateTypePinOk
  else if String.eqb s "none" then Parsed kPinStateTypeNone
  else Rejected.

Definition ConnectionPinStateParseInputPermission (j : cJSON) : parsed PinInputPermissionType :=
  s ← non_null (get_string (get_item (Some j) "inputPermission"));
  if String.eqb s "busy" then Parsed kPinInputPermissionTypeBusy
  else if String.eqb s "ok" then Parsed kPinInputPermissionTypeOk
  else Rejected.

Definition SmeConnectionPinStateDeserialize (ar : cJSON) : parsed ConnectionPinState :=
  st ← ConnectionPinStateParsePinState (get_at (Some ar) 0);
  match get_at (Some ar) 1 with
  | None => Parsed (mkPinState st None)
  | Some pin_state_ar_1 =>
      p ← ConnectionPinStateParseInputPermission pin_state_ar_1;
      Parsed (mkPinState st (Some p))
  end.

Definition ConnectionPinInputParsePin (j : option cJSON) : parsed Z :=
  pin_str ← non_null (get_string (get_item j "pin"));
  require (negb (match pin_str with String c _ => Ascii.eqb c "0" | EmptyString => false end));;
  let pin_str_len := String.length pin_str in
  require (negb ((pin_str_len <? 8)%nat || (16 <? pin_str_len)%nat));;
  non_null (parse_pin pin_str 0).

Definition SmeConnectionPinInputDeserialize (ar : cJSON) : parsed Z :=
  ConnectionPinInputParsePin (get_at (Some ar) 0).

(** [kConnectionPinErrorTypeWrongPin] is 1; the enumeration is an [unsigned int]. *)
Definition kConnectionPinErrorTypeWrongPin : Z := 1.
Definition ConnectionPinErrorParseError (j : option cJSON) : parsed Z :=
  d ← get_number (get_item j "error");
  error ← double_to_u32 d;
  require (error =? kConnectionPinErrorTypeWrongPin);;
  Parsed error.

Definition SmeConnectionPinErrorDeserialize (ar : cJSON) : parsed Z :=
  ConnectionPinErrorParseError (get_at (Some ar) 0).

(** ** Data *)

(** [sizeof(data->header.protocol_id)] *)
Definition protocol_id_size : nat := 8.

Definition DataParseHeader (j : option cJSON) : parsed string :=
  let header_0 := get_at (get_item j "header") 0 in
  protocol_id_str ← non_null (get_string (get_item header_0 "protocolId"));
  require (String.length protocol_id_str <? protocol_id_size)%nat;;
  Parsed protocol_id_str.

Definition DataParsePayload (j : option cJSON) : parsed MessageBuffer :=
  payload_str ← non_null (get_item j "payload" ≫= cJSON_PrintUnformatted);
  Parsed (Some (c_array payload_str)).

Definition DataDeserialize (ar : cJSON) : parsed Data :=
  id ← DataParseHeader (get_at (Some ar) 0);
  buf ← DataParsePayload (get_at (Some ar) 1);
  Parsed (mkData id buf).

(** ** Access methods *)

Definition SmeConnectionAccessMethodsRequestDeserialize (ar : cJSON) : parsed unit :=
  require (bool_decide (cJSON_GetArraySize ar = 0%nat)).

Definition AccessMethodsParseId (j : option cJSON) : parsed string :=
  non_null (get_string (get_item j "id")).

(** [dns_sd_mdns], which is then true. *)
Definition AccessMethodsParseDnsSdMdns (j : cJSON) : parsed bool :=
  require (bool_decide (get_size (get_item (Some j) "dnsSd_mDns") = 0%nat));; Parsed true.

Definition AccessMethodsParseDns (j : cJSON) : parsed string :=
  let dns_0 := get_at (get_item (Some j) "dns") 0 in
  non_null (get_string (get_item dns_0 "uri")).

(** The two branches on the second item: [dns_sd_mdns] and [dns.uri]. *)
Definition access_methods_second (ar : cJSON) : parsed (bool * option string) :=
  match get_at (Some ar) 1 with
  | None => Parsed (false, None)
  | Some ar_1 =>
      match get_item (Some ar_1) "dnsSd_mDns", get_item (Some ar_1) "Dns" with
      | Some _, _ => b ← AccessMethodsParseDnsSdMdns ar_1; Parsed (b, None)
      | None, Some _ =>
          uri ← AccessMethodsParseDns ar_1;
          require (bool_decide (cJSON_GetArraySize ar = 2%nat));; Parsed (false, Some uri)
      | None, None => Rejected
      end
  end.

Definition SmeConnectionAccessMethodsDeserialize (ar : cJSON) : parsed AccessMethods :=
  id ← AccessMethodsParseId (get_at (Some ar) 0);
  m ← access_methods_second ar;
  uri ← match get_at (Some ar) 2 with
        | None => Parsed m.2
        | Some ar_2 => Some <$> AccessMethodsParseDns ar_2
        end;
  Parsed (mkAccessMethods (Some id) m.1 uri).

(** ** Close *)

Definition ConnectionCloseParsePhase (j : option cJSON) : parsed ConnectionClosePhaseType :=
  s ← non_null (get_string (get_item j "phase"));
  if String.eqb s "announce" then Parsed kConnectionClosePhaseTypeAnnounce
  else if String.eqb s "confirm" then Parsed kConnectionClosePhaseTypeConfirm
  else Rejected.

Definition ConnectionCloseParseMaxTime (j : cJSON) : parsed Z :=
  d ← get_number (get_item (Some j) "maxTime"); double_to_u32 d.

(** [StringCopy] of NULL is NULL. *)
Definition ConnectionCloseParseReason (j : cJSON) : parsed string :=
  non_null (get_string (get_item (Some j) "reason")).

(** The two branches on the second item: [max_time] and [reason]. *)
Definition close_second (ar : cJSON) : parsed (option Z * option string) :=
  match get_at (Some ar) 1 with
  | None => Parsed (None, None)
  | Some ar_1 =>
      match get_item (Some ar_1) "maxTime", get_item (Some ar_1) "reason" with
      | Some _, _ => t ← ConnectionCloseParseMaxTime ar_1; Parsed (Some t, None)
      | None, Some _ =>
          r ← ConnectionCloseParseReason ar_1;
          require (bool_decide (cJSON_GetArraySize ar = 2%nat));; Parsed (None, Some r)
      | None, None => Rejected
      end
  end.

Definition SmeCloseDeserialize (ar : cJSON) : parsed ConnectionClose :=
  phase ← ConnectionCloseParsePhase (get_at (Some ar) 0);
  m ← close_second ar;
  r ← match get_at (Some ar) 2 with
      | None => Parsed m.2
      | Some ar_2 => Some <$> ConnectionCloseParseReason ar_2
      end;
  Parsed (mkClose phase m.1 r).

(** ** Any message *)

Definition DeserializeControlMessage (root : cJSON) : parsed ShipValue :=
  match cJSON_GetObjectItem root "connectionHello" with
  | Some ar => VHello <$> SmeHelloDeserialize ar
  | None =>
  match cJSON_GetObjectItem root "messageProtocolHandshake" with
  | Some ar => VProtocolHandshake <$> SmeProtocolHandshakeDeserialize ar
  | None =>
  match cJSON_GetObjectItem root "messageProtocolHandshakeError" with
  | Some ar => VProtocolHandshakeError <$> SmeProtocolHandshakeErrorDeserialize ar
  | None =>
  match cJSON_GetObjectItem root "connectionPinState" with
  | Some ar => VPinState <$> SmeConnectionPinStateDeserialize ar
  | None =>
  match cJSON_GetObjectItem root "connectionPinInput" with
  | Some ar => VPinInput <$> SmeConnectionPinInputDeserialize ar
  | None =>
  match cJSON_GetObjectItem root "connectionPinError" with
  | Some ar => VPinError <$> SmeConnectionPinErrorDeserialize ar
  | None =>
  match cJSON_GetObjectItem root "accessMethodsRequest" with
  | Some ar => (λ _, VAccessMethodsRequest) <$> SmeConnectionAccessMethodsRequestDeserialize ar
  | None =>
  match cJSON_GetObjectItem root "accessMethods" with
  | Some ar => VAccessMethods <$> SmeConnectionAccessMethodsDeserialize ar
  | None => Rejected
  end end end end end end end end.

Definition DeserializeDataMessage (root : cJSON) : parsed ShipValue :=
  match cJSON_GetObjectItem root "data" with
  | Some ar => VData <$> DataDeserialize ar
  | None => Rejected
  end.

Definition DeserializeEndMessage (root : cJSON) : parsed ShipValue :=
  match cJSON_GetObjectItem root "connectionClose" with
  | Some ar => VClose <$> SmeCloseDeserialize ar
  | None => Rejected
  end.

(** [Deserialize]: the value of the object; [Rejected] when it stays without one. *)
Definition Deserialize (data : list byte) : parsed ShipValue :=
  match data with
  | [] => Rejected
  | msg_type :: _ =>
      require (Byte.to_N msg_type <=? 3)%N;;
      text ← non_null (ShipMessageToString data);
      json_root ← non_null (c_str text ≫= cJSON_Parse);
      if bool_decide (msg_type = MsgType_byte kMsgTypeControl) then DeserializeControlMessage json_root
      else if bool_decide (msg_type = MsgType_byte kMsgTypeData) then DeserializeDataMessage json_root
      else if bool_decide (msg_type = MsgType_byte kMsgTypeEnd) then DeserializeEndMessage json_root
      else Rejected
  end.
End deserialize.

(** Unfolds what reads a message of one kind. *)
Create HintDb ship_read.
#[export] Hint Unfold
  ConnectionHelloParsePhase ConnectionHelloParseWaiting ConnectionHelloParseProlongReq
  SmeHelloDeserialize MessageProtocolHandshakeParseType MessageProtocolHandshakeParseVersion
  MessageProtocolHandshakeParseFormats SmeProtocolHandshakeDeserialize
  MessageProtocolHandshakeErrorParseError SmeProtocolHandshakeErrorDeserialize
  ConnectionPinStateParsePinState ConnectionPinStateParseInputPermission
  SmeConnectionPinStateDeserialize ConnectionPinInputParsePin SmeConnectionPinInputDeserialize
  ConnectionPinErrorParseError SmeConnectionPinErrorDeserialize DataParseHeader DataParsePayload
  DataDeserialize SmeConnectionAccessMethodsRequestDeserialize AccessMethodsParseId
  AccessMethodsParseDnsSdMdns AccessMethodsParseDns SmeConnectionAccessMethodsDeserialize
  ConnectionCloseParsePhase ConnectionCloseParseMaxTime ConnectionCloseParseReason
  SmeCloseDeserialize get_number access_methods_second close_second get_item get_at get_string
  get_size
  : ship_read.
