(* ===== verification/ShipFrame.v ===== *)
(** * The frame and the PIN of SHIP messages

    The loops of the codec that work in place against what they compute: the shift of
    a text by one byte ([StringToShipMessage], [ShipMessageToString]) and the digits of a
    PIN, which the writer makes from the last to the first and turns round. *)

From Stdlib Require Import Strings.String Ascii.
From S2P Require Import Prelude StringUtil Json ShipTypes ShipSerialize ShipDeserialize.

Local Open Scope string_scope.
Local Open Scope list_scope.
Local Open Scope Z_scope.

(** ** Shifting in place *)

Lemma frame_loop_length i s : length (frame_loop i s) = length s.
Proof. revert s. induction i as [|i IH]; intros s; simpl; [done|]. by rewrite IH, length_insert. Qed.

Lemma frame_loop_lookup i s j : (i < length s)%nat →
  frame_loop i s !! j = if decide (1 ≤ j ≤ i)%nat then s !! (j - 1)%nat else s !! j.
Proof.
  revert s. induction i as [|i IH]; intros s Hi; simpl; [by rewrite decide_False by lia|].
  rewrite IH by (rewrite length_insert; lia).
  destruct (lookup_lt_is_Some_2 s i) as [x Hx]; [lia|].
  destruct (decide (1 ≤ j ≤ i)%nat).
  - rewrite decide_True by lia. by rewrite list_lookup_insert_ne by lia.
  - destruct (decide (j = S i)) as [->|Hne].
    + rewrite decide_True by lia. rewrite list_lookup_insert_eq by lia.
      replace (S i - 1)%nat with i by lia. by rewrite Hx.
    + rewrite decide_False by lia. by rewrite list_lookup_insert_ne by lia.
Qed.

Lemma unframe_loop_length n i s : length (unframe_loop n i s) = length s.
Proof. revert i s. induction n as [|n IH]; intros i s; simpl; [done|]. by rewrite IH, length_insert. Qed.

Lemma unframe_loop_lookup n i s j : (i + n < length s)%nat →
  unframe_loop n i s !! j = if decide (i ≤ j < i + n)%nat then s !! S j else s !! j.
Proof.
  revert i s. induction n as [|n IH]; intros i s Hi; simpl; [by rewrite decide_False by lia|].
  rewrite IH by (rewrite length_insert; lia).
  destruct (lookup_lt_is_Some_2 s (S i)) as [x Hx]; [lia|].
  destruct (decide (S i ≤ j < S i + n)%nat).
  - rewrite decide_True by lia. by rewrite list_lookup_insert_ne by lia.
  - destruct (decide (j = i)) as [->|Hne].
    + rewrite decide_True by lia. rewrite list_lookup_insert_eq by lia. by rewrite Hx.
    + rewrite decide_False by lia. by rewrite list_lookup_insert_ne by lia.
Qed.

(** What the two functions compute. *)
Definition frame (s : string) (t : MsgType) : list byte := MsgType_byte t :: c_chars s.

Lemma c_array_length s : length (c_array s) = S (String.length s).
Proof. unfold c_array. rewrite length_app, c_chars_length. simpl. lia. Qed.

Lemma StringToShipMessage_frame s t :
  StringToShipMessage s t = if (String.length s <? 2)%nat then None else Some (frame s t).
Proof.
  unfold StringToShipMessage. destruct (String.length s <? 2)%nat eqn:E; [done|]. f_equal.
  apply Nat.ltb_ge in E. apply list_eq_same_length with (S (String.length s)).
  - unfold frame. simpl. by rewrite c_chars_length.
  - by rewrite length_insert, frame_loop_length, c_array_length.
  - intros j x y Hj Hx Hy. unfold frame in Hy. destruct j as [|j].
    + rewrite list_lookup_insert_eq in Hx by (rewrite frame_loop_length, c_array_length; lia).
      simpl in Hy. congruence.
    + rewrite list_lookup_insert_ne, frame_loop_lookup, decide_True in Hx by (rewrite ?c_array_length; lia).
      simpl in Hx, Hy. rewrite Nat.sub_0_r in Hx. unfold c_array in Hx.
      rewrite lookup_app_l in Hx by (rewrite c_chars_length; lia). congruence.
Qed.

Lemma ShipMessageToString_tail b l : l ≠ [] → ShipMessageToString (b :: l) = Some (l ++ [x00]).
Proof.
  intros Hl. unfold ShipMessageToString.
  assert (1 ≤ length l)%nat as Hn by (destruct l; simpl; [done|lia]).
  rewrite (proj2 (Nat.ltb_ge _ _)) by (simpl; lia). f_equal. simpl length. rewrite Nat.sub_succ, Nat.sub_0_r.
  apply list_eq_same_length with (S (length l)).
  - rewrite length_app. simpl. lia.
  - by rewrite length_insert, unframe_loop_length.
  - intros j x y Hj Hx Hy. destruct (decide (j = length l)) as [->|Hne].
    + rewrite list_lookup_insert_eq in Hx by (rewrite unframe_loop_length; simpl; lia).
      rewrite list_lookup_mid in Hy by done. congruence.
    + rewrite list_lookup_insert_ne, unframe_loop_lookup, decide_True in Hx by (simpl; lia).
      rewrite lookup_app_l in Hy by lia. simpl in Hx. congruence.
Qed.

(** The two in-place loops that frame a message are the simple functions they stand for:
    writing puts the type in front of the characters of the text, and reading gives the
    rest of the bytes, ended by a NUL; so any text of two characters or more without a
    NUL comes out of the frame as it went in. *)
Theorem framing_in_place s t :
  (2 ≤ String.length s)%nat → no_nul s = true →
  StringToShipMessage s t = Some (MsgType_byte t :: c_chars s) ∧
  ShipMessageToString (MsgType_byte t :: c_chars s) = Some (c_array s) ∧
  c_str (c_array s) = Some s.
Proof.
  intros Hs Hn. repeat split.
  - rewrite StringToShipMessage_frame. by rewrite (proj2 (Nat.ltb_ge _ _)) by lia.
  - apply ShipMessageToString_tail. intros E%(f_equal length). rewrite c_chars_length in E.
    simpl in E. lia.
  - by apply c_str_c_array.
Qed.

Lemma framing_in_place_witness :
  StringToShipMessage "{}" kMsgTypeControl = Some [x01; x7b; x7d] ∧
  ShipMessageToString [x01; x7b; x7d] = Some [x7b; x7d; x00].
Proof.
  destruct (framing_in_place "{}" kMsgTypeControl) as (H1 & H2 & _); [simpl; lia|done|].
  split; [exact H1|exact H2].
Defined.

(** ** Digits *)

Lemma pin_swap_rev_aux n : ∀ i a m b,
  i = length a → i = length b → n = (length m / 2)%nat →
  pin_swap n i (a ++ m ++ b) = a ++ reverse m ++ b.
Proof.
  induction n as [|n IH]; intros i a m b Ha Hb Hn.
  { simpl. symmetry in Hn. apply Nat.div_small_iff in Hn; [|done].
    destruct m as [|x [|y m]]; simpl in Hn; [done|done|lia]. }
  destruct m as [|x m]; [done|]. destruct m as [|y m' _] using rev_ind; [done|].
  rewrite length_cons, length_app, length_cons, length_nil in Hn.
  assert (n = length m' / 2)%nat as Hn'.
  { replace (S (length m' + 1)) with (length m' + 1 * 2)%nat in Hn by lia.
    rewrite Nat.div_add in Hn by done. lia. }
  assert (a ++ (x :: m' ++ [y]) ++ b = (a ++ x :: m') ++ y :: b) as ->
    by (simpl; rewrite <- !(assoc_L (++)); done).
  cbn [pin_swap].
  replace (((a ++ x :: m') ++ y :: b) !! i) with (Some x)
    by (rewrite <- (assoc_L (++)); simpl; by rewrite list_lookup_mid).
  replace (length ((a ++ x :: m') ++ y :: b) - i - 1)%nat with (length (a ++ x :: m'))
    by (rewrite !length_app, !length_cons; lia).
  rewrite list_lookup_mid by done.
  replace (<[i:=y]> ((a ++ x :: m') ++ y :: b)) with ((a ++ y :: m') ++ y :: b).
  2: { rewrite <- !(assoc_L (++)). simpl. by rewrite list_insert_middle. }
  rewrite list_insert_middle by (rewrite !length_app; done).
  replace ((a ++ y :: m') ++ x :: b) with ((a ++ [y]) ++ m' ++ (x :: b))
    by (rewrite <- !(assoc_L (++)); done).
  rewrite (IH (S i)) by (rewrite ?length_app, ?length_cons, ?length_nil; first [done|lia]).
  rewrite reverse_cons, reverse_app. simpl. by rewrite <- !(assoc_L (++)).
Qed.

Lemma pin_swap_reverse s : pin_swap (length s / 2) 0 s = reverse s.
Proof.
  pose proof (pin_swap_rev_aux (length s / 2) 0 [] s []) as H. rewrite !app_nil_r in H. by apply H.
Qed.

(** A PIN from its digits, last digit first. *)
Fixpoint digits_value (ds : list Z) : Z :=
  match ds with [] => 0 | d :: ds' => d + 16 * digits_value ds' end.

Lemma land_15 x : Z.land x 15 = x `mod` 16.
Proof. change 15 with (Z.ones 4). by rewrite Z.land_ones by lia. Qed.

Lemma pin_digits_range fuel pin : Forall (λ d, 0 <= d < 16) (pin_digits fuel pin).
Proof.
  revert pin. induction fuel as [|fuel IH]; intros pin; simpl; [constructor|].
  destruct (pin >? 0); constructor; [|apply IH]. rewrite land_15. apply Z.mod_pos_bound. lia.
Qed.

Lemma pin_digits_value fuel pin :
  0 <= pin < 16 ^ Z.of_nat fuel → digits_value (pin_digits fuel pin) = pin.
Proof.
  revert pin. induction fuel as [|fuel IH]; intros pin Hp; simpl; [lia|].
  rewrite Nat2Z.inj_succ, Z.pow_succ_r in Hp by lia.
  destruct (Z.gtb_spec pin 0) as [Hpos|]; simpl; [|lia].
  rewrite IH; rewrite Z.shiftr_div_pow2 by lia; change (2 ^ 4) with 16.
  - rewrite land_15. pose proof (Z.div_mod pin 16). lia.
  - split; [apply Z.div_pos; lia|]. apply Z.div_lt_upper_bound; lia.
Qed.

(** A number of [n + 1] digits has that many. *)
Lemma pin_digits_length fuel pin n :
  (n < fuel)%nat → 16 ^ Z.of_nat n <= pin < 16 ^ Z.of_nat (S n) →
  length (pin_digits fuel pin) = S n ∧ ∃ d ds, pin_digits fuel pin = ds ++ [d] ∧ 0 < d.
Proof.
  revert pin n. induction fuel as [|fuel IH]; intros pin n Hn Hp; [lia|].
  rewrite Nat2Z.inj_succ, Z.pow_succ_r in Hp by lia. simpl.
  assert (0 < 16 ^ Z.of_nat n) by (apply Z.pow_pos_nonneg; lia).
  destruct (Z.gtb_spec pin 0) as [_|]; [|lia].
  assert (Z.shiftr pin 4 = pin / 16) as Hs by (by rewrite Z.shiftr_div_pow2 by lia).
  destruct n as [|n].
  - simpl in Hp. assert (pin / 16 = 0) as E by (apply Z.div_small; lia).
    rewrite Hs, E. replace (pin_digits fuel 0) with (@nil Z) by (by destruct fuel).
    split; [done|]. exists (Z.land pin 15), []. split; [done|].
    rewrite land_15, Z.mod_small by lia. lia.
  - rewrite Nat2Z.inj_succ, Z.pow_succ_r in Hp by lia. rewrite Hs.
    destruct (IH (pin / 16) n) as (Hl & d & ds & E & Hd); [lia| |].
    + rewrite Nat2Z.inj_succ, Z.pow_succ_r by lia.
      split; [apply Z.div_le_lower_bound; lia|apply Z.div_lt_upper_bound; lia].
    + split; [simpl; lia|]. exists d, (Z.land pin 15 :: ds). by rewrite E.
Qed.

(** The reader's loop. *)
Lemma pin_char_digit d : 0 <= d < 16 →
  (if isdigit (pin_char d) then Z.of_N (N_of_ascii (pin_char d)) - 48
   else toupper (pin_char d) - 65 + 10) = d ∧
  (isdigit (pin_char d) = false → isalpha (pin_char d) = true ∧ (toupper (pin_char d) >? 70) = false) ∧
  (0 < d → Ascii.eqb (pin_char d) "0" = false) ∧ pin_char d ≠ zero.
Proof.
  intros Hd. assert (d ∈ seqZ 0 16) as Hin by (apply elem_of_seqZ; lia).
  revert Hin. clear Hd. revert d. apply Forall_forall.
  repeat (constructor; [vm_compute; repeat split; intros; congruence|]). constructor.
Qed.

Lemma parse_pin_digits ds : ∀ pin,
  Forall (λ d, 0 <= d < 16) ds →
  0 <= pin → pin * 16 ^ Z.of_nat (length ds) + digits_value (reverse ds) < 2 ^ 64 →
  parse_pin (string_of_list_ascii (pin_char <$> ds)) pin
  = Some (pin * 16 ^ Z.of_nat (length ds) + digits_value (reverse ds)).
Proof.
  assert (∀ l d, digits_value (l ++ [d]) = digits_value l + d * 16 ^ Z.of_nat (length l)) as Happ.
  { induction l as [|x l IH]; intros d; [simpl; lia|]. rewrite <- app_comm_cons.
    cbn [digits_value length]. rewrite IH, Nat2Z.inj_succ, Z.pow_succ_r by lia. lia. }
  assert (∀ l, Forall (λ d, 0 <= d < 16) l → 0 <= digits_value l) as Hpos.
  { induction 1; simpl; lia. }
  induction ds as [|d ds IH]; intros pin Hds Hp Hlt; [simpl; f_equal; lia|].
  apply Forall_cons in Hds as [Hd Hds].
  rewrite reverse_cons, Happ, length_reverse, length_cons, Nat2Z.inj_succ, Z.pow_succ_r in * by lia.
  assert (0 < 16 ^ Z.of_nat (length ds)) by (apply Z.pow_pos_nonneg; lia).
  assert (0 <= digits_value (reverse ds)) by (apply Hpos; by apply Forall_reverse).
  assert (pin * 16 + d < 2 ^ 64) by nia.
  cbn [fmap list_fmap string_of_list_ascii parse_pin].
  rewrite Z.shiftl_mul_pow2 by lia. change (2 ^ 4) with 16.
  rewrite (u64_small (pin * 16)) by lia.
  destruct (pin_char_digit d Hd) as (Hv & Hnd & _ & _).
  destruct (isdigit (pin_char d)).
  - rewrite Hv, u64_small by lia. rewrite IH by (try done; nia). f_equal. nia.
  - destruct (Hnd eq_refl) as [-> ->]. rewrite Hv, u64_small by lia.
    rewrite IH by (try done; nia). f_equal. nia.
Qed.

Lemma pin_str_eq pin : pin_str pin = string_of_list_ascii (pin_char <$> reverse (pin_digits 16 pin)).
Proof. unfold pin_str. by rewrite pin_swap_reverse, fmap_reverse. Qed.

Lemma string_of_list_ascii_length l : String.length (string_of_list_ascii l) = length l.
Proof. induction l; simpl; congruence. Qed.

Lemma no_nul_pin ds : Forall (λ d, 0 <= d < 16) ds → no_nul (string_of_list_ascii (pin_char <$> ds)) = true.
Proof.
  induction 1 as [|d ds Hd _ IH]; [done|]. cbn [fmap list_fmap string_of_list_ascii no_nul].
  change (string_of_list_ascii (list_fmap _ _ pin_char ds)) with (string_of_list_ascii (pin_char <$> ds)).
  rewrite IH, andb_true_r. destruct (pin_char_digit d Hd) as (_ & _ & _ & Hz).
  by destruct (Ascii.eqb_spec (pin_char d) zero).
Qed.

(** The PINs the reader accepts: 8 to 16 digits, the first of them not 0. *)
Definition pin_in_range (pin : Z) : Prop := 2 ^ 28 <= pin < 2 ^ 64.

Lemma pin_str_parse pin : pin_in_range pin →
  parse_pin (pin_str pin) 0 = Some pin ∧ no_nul (pin_str pin) = true ∧
  (8 ≤ String.length (pin_str pin) ≤ 16)%nat ∧
  (match pin_str pin with String c _ => Ascii.eqb c "0" | EmptyString => false end) = false.
Proof.
  intros Hp. unfold pin_in_range in Hp. rewrite pin_str_eq.
  assert (∃ n, (7 ≤ n < 16)%nat ∧ 16 ^ Z.of_nat n <= pin < 16 ^ Z.of_nat (S n)) as (n & Hn & Hr).
  { pose proof (Z.log2_spec pin). assert (28 <= Z.log2 pin < 64).
    { split; [apply Z.log2_le_pow2|apply Z.log2_lt_pow2]; lia. }
    pose proof (Z.div_mod (Z.log2 pin) 4). pose proof (Z.mod_pos_bound (Z.log2 pin) 4).
    remember (Z.log2 pin / 4) as q eqn:Eq. exists (Z.to_nat q).
    rewrite Nat2Z.inj_succ, Z2Nat.id by lia.
    change 16 with (2 ^ 4). rewrite <- !Z.pow_mul_r by lia.
    split; [lia|]. split.
    - transitivity (2 ^ Z.log2 pin); [apply Z.pow_le_mono_r|]; lia.
    - eapply Z.lt_le_trans; [|apply Z.pow_le_mono_r with (b := Z.succ (Z.log2 pin))]; lia. }
  destruct (pin_digits_length 16 pin n) as (Hl & d & ds & E & Hd); [lia|done|].
  pose proof (pin_digits_range 16 pin) as Hall.
  pose proof (pin_digits_value 16 pin) as Hv.
  assert (0 <= pin < 16 ^ Z.of_nat 16) as Hlt by (change (16 ^ Z.of_nat 16) with (2 ^ 64); lia).
  specialize (Hv Hlt).
  repeat split.
  - rewrite parse_pin_digits, reverse_involutive; [f_equal; lia|by apply Forall_reverse|lia|].
    rewrite reverse_involutive. lia.
  - apply no_nul_pin. by apply Forall_reverse.
  - rewrite string_of_list_ascii_length, length_fmap, length_reverse. lia.
  - rewrite string_of_list_ascii_length, length_fmap, length_reverse. lia.
  - rewrite E, reverse_app. cbn [reverse]. simpl. apply pin_char_digit; [|done].
    rewrite E in Hall. apply Forall_app in Hall as [_ Hall]. by inversion Hall.
Qed.

(** What the reader accepts as a digit, and the PINs it makes. *)
Definition pin_digit (c : ascii) : option Z :=
  if isdigit c then Some (Z.of_N (N_of_ascii c) - 48)
  else if isalpha c && negb (toupper c >? 70) then Some (toupper c - 65 + 10)
  else None.

Lemma parse_pin_cons c s pin :
  parse_pin (String c s) pin
  = d ← pin_digit c; parse_pin s (u64 (u64 (Z.shiftl pin 4) + d)).
Proof.
  unfold pin_digit. simpl. destruct (isdigit c); [done|].
  destruct (isalpha c); [|done]. by destruct (toupper c >? 70).
Qed.

Lemma pin_digit_range c d : pin_digit c = Some d →
  0 <= d < 16 ∧ (Ascii.eqb c "0" = false → 0 < d).
Proof.
  unfold pin_digit, isdigit, isalpha, toupper. set (n := Z.of_N (N_of_ascii c)).
  destruct ((48 <=? n) && (n <=? 57)) eqn:E1.
  - intros [= <-]. split; [lia|]. intros Hc. assert (n ≠ 48); [|lia]. intros En.
    assert (N_of_ascii c = 48%N) as Hn by lia. rewrite <- (ascii_N_embedding c), Hn in Hc. done.
  - repeat case_match; intros; simplify_eq/=; lia.
Qed.

Lemma parse_pin_range s : ∀ pin r,
  parse_pin s pin = Some r → 0 <= pin → (pin + 1) * 16 ^ Z.of_nat (String.length s) <= 2 ^ 64 →
  pin * 16 ^ Z.of_nat (String.length s) <= r < (pin + 1) * 16 ^ Z.of_nat (String.length s).
Proof.
  induction s as [|c s IH]; intros pin r Hr Hp Hlt; [simpl in *; simplify_eq; lia|].
  rewrite parse_pin_cons in Hr. apply bind_Some in Hr as (d & Hd & Hr).
  apply pin_digit_range in Hd as [Hd _]. cbn [String.length] in *.
  rewrite Nat2Z.inj_succ, Z.pow_succ_r in * by lia.
  assert (0 < 16 ^ Z.of_nat (String.length s)) by (apply Z.pow_pos_nonneg; lia).
  rewrite Z.shiftl_mul_pow2 in Hr by lia. change (2 ^ 4) with 16 in Hr.
  rewrite (u64_small (pin * 16)), u64_small in Hr by nia.
  apply IH in Hr; nia.
Qed.

Lemma parse_pin_in_range s pin :
  parse_pin s 0 = Some pin → (8 ≤ String.length s ≤ 16)%nat →
  (match s with String c _ => Ascii.eqb c "0" | EmptyString => false end) = false → pin_in_range pin.
Proof.
  intros Hp Hlen Hfirst. destruct s as [|c s]; [simpl in Hlen; lia|].
  rewrite parse_pin_cons in Hp. apply bind_Some in Hp as (d & Hd & Hp).
  apply pin_digit_range in Hd as [Hd Hpos]. specialize (Hpos Hfirst). simpl in Hlen.
  rewrite Z.shiftl_0_l, !u64_small, Z.add_0_l in Hp by (rewrite ?u64_small; lia).
  assert (16 ^ 7 <= 16 ^ Z.of_nat (String.length s) <= 16 ^ 15) as [Hlo Hhi].
  { split; apply Z.pow_le_mono_r; lia. }
  apply parse_pin_range in Hp; [|lia|nia].
  change (16 ^ 7) with (2 ^ 28) in Hlo. change (16 ^ 15) with (2 ^ 60) in Hhi.
  unfold pin_in_range. nia.
Qed.
