(* ===== verification/ShipCodec.v ===== *)
(** * The SHIP message codec

    Writer and reader of SHIP messages together: which values can be sent
    ([sendable]), that the reader gives back exactly those, that whatever bytes
    it is given it accepts no other value, and the messages for which the C code goes wrong. *)

From Stdlib Require Import Strings.String Ascii.
From S2P Require Import Prelude StringUtil Json JsonText ShipTypes ShipSerialize ShipDeserialize ShipFrame.

Local Open Scope string_scope.
Local Open Scope list_scope.
Local Open Scope Z_scope.

(** The codec of the repository as the [ShipCodec] the connection is proved
    against: what is undefined is no message. *)
Definition defined {A} (p : parsed A) : option A :=
  match p with Parsed a => Some a | _ => None end.

#[export] Instance ship_message_codec `{CJson} : ShipCodec := {|
  ship_serialize v := defined (Serialize v);
  ship_deserialize bs := defined (Deserialize bs);
|}.

Definition is_u8 (x : Z) : Prop := 0 <= x < 2 ^ 8.
Definition opt_all {A} (P : A → Prop) (o : option A) : Prop :=
  match o with None => True | Some a => P a end.
Definition is_cstring (s : string) : Prop := no_nul s = true.

Section codec.
Context `{CJsonLaws}.

(** A buffer of JSON text, with its NUL, that another writer can have produced,
    nested at most [d] deep. *)
Definition json_text (d : nat) (buf : MessageBuffer) : Prop :=
  ∃ j s, cJSON_PrintUnformatted j = Some s ∧ reads d j j ∧ buf = Some (c_array s).

(** The values the reader can have made: a hello carries one of its options, a PIN has
    8 to 16 digits, an error of the PIN is a wrong PIN. *)
Definition well_typed (v : ShipValue) : Prop :=
  match v with
  | VHello h => opt_all is_u32 (waiting h) ∧ (waiting h = None ∨ prolongation_request h = None)
  | VProtocolHandshake p =>
      is_u8 (version_major p) ∧ is_u8 (version_minor p) ∧ (length (formats p) ≤ formats_max)%nat
  | VPinInput pin => pin_in_range pin
  | VPinError e => e = kConnectionPinErrorTypeWrongPin
  | VData d =>
      is_cstring (protocol_id d) ∧ (String.length (protocol_id d) < protocol_id_size)%nat ∧
      ∃ j s, cJSON_PrintUnformatted j = Some s ∧ payload d = Some (c_array s)
  | VAccessMethods a => (∃ id, access_id a = Some id ∧ is_cstring id) ∧ opt_all is_cstring (dns_uri a)
  | VClose c => opt_all is_u32 (max_time c) ∧ opt_all is_cstring (close_reason c)
  | VProtocolHandshakeError _ | VPinState _ | VAccessMethodsRequest => True
  end.

(** The nesting that is left for a payload, three levels below the limit. *)
Definition payload_depth : nat := 997.

Definition sendable (v : ShipValue) : Prop :=
  well_typed v ∧ match v with VData d => json_text payload_depth (payload d) | _ => True end.

(** ** Reading what was built *)

Lemma one_member k k' v b : StringEqualsIgnoreCase (Some k) (Some k') = b →
  cJSON_GetObjectItem (cJSON_Object [(k', v)]) k = if b then Some v else None.
Proof. intros <-. rewrite GetObjectItem_Object. simpl. by destruct (bool_decide _). Qed.

Lemma own_member k v l : cJSON_GetObjectItem (cJSON_Object ((k, v) :: l)) k = Some v.
Proof. rewrite GetObjectItem_Object. simpl. by rewrite bool_decide_true. Qed.
End codec.

(** Evaluates the reader on a tree the writer has built. *)
Ltac json_look_up :=
  match goal with
  | |- context [cJSON_GetObjectItem (cJSON_Object ((?k, _) :: _)) ?k] => rewrite own_member
  | |- context [cJSON_GetObjectItem (cJSON_Object [(?k', ?v)]) ?k] =>
      let b := eval vm_compute in (StringEqualsIgnoreCase (Some k) (Some k')) in
      rewrite (one_member k k' v b eq_refl)
  end.
Ltac json_eval :=
  cbn -[double_to_int double_of_Z parse_pin c_array cJSON_GetObjectItem cJSON_GetArrayItem
        cJSON_GetStringValue cJSON_IsNumber cJSON_GetNumberValue cJSON_IsBool cJSON_IsTrue
        cJSON_GetArraySize cJSON_PrintUnformatted Z.pow].
Ltac json_read :=
  autounfold with ship_read;
  repeat first
    [ progress json_look_up
    | rewrite GetArrayItem_Array | rewrite GetStringValue_String by first [reflexivity | assumption] | rewrite IsNumber_Number
    | rewrite GetNumberValue_Number | rewrite IsBool_Bool | rewrite IsTrue_Bool
    | rewrite GetArraySize_Array | rewrite GetArraySize_Null
    | progress json_eval ].

Lemma u32_number z : is_u32 z → Z.abs z < 10 ^ 15.
Proof. unfold is_u32. lia. Qed.
Lemma u8_number z : is_u8 z → Z.abs z < 10 ^ 15.
Proof. unfold is_u8. lia. Qed.

Lemma u32_read z : is_u32 z → double_to_u32 (double_of_Z z) = Parsed z.
Proof. apply double_to_int_of_Z. Qed.
Lemma u8_read z : is_u8 z → double_to_u8 (double_of_Z z) = Parsed z.
Proof. apply double_to_int_of_Z. Qed.

Ltac json_reads :=
  repeat first [ apply reads_cons | apply reads_nil | apply reads_member | apply reads_no_member
               | apply reads_object | apply reads_array | apply reads_string | apply reads_number
               | apply reads_bool | apply reads_null | reflexivity
               | by auto using u32_number, u8_number | lia ].

Section round_trip.
Context `{CJsonLaws}.

(** What is proved of each kind of message: its array survives the text, and is
    read as the value. *)
Definition survives {A} (ser : option (string * list cJSON)) (name : string)
    (des : cJSON → parsed A) (v : A) : Prop :=
  ∃ ar, ser = Some (name, ar) ∧ reads_items 998 ar ar ∧ des (cJSON_Array ar) = Parsed v.

Lemma hello_survives h : well_typed (VHello h) →
  survives (SmeHelloSerialize h) "connectionHello" SmeHelloDeserialize h.
Proof.
  destruct h as [p w b]. intros [Hw Hone].
  destruct p, w as [w|], b as [b|]; simpl in *; try (destruct Hone; discriminate);
    (eexists; split; [reflexivity|]; split; [json_reads|]).
  all: json_read; rewrite ?u32_read by done; reflexivity.
Qed.

Lemma handshake_survives v : well_typed (VProtocolHandshake v) →
  survives (SmeProtocolHandshakeSerialize v) "messageProtocolHandshake" SmeProtocolHandshakeDeserialize v.
Proof.
  destruct v as [t ma mi fs]. intros (Hma & Hmi & Hfs). simpl in *. unfold formats_max in Hfs.
  destruct t, fs as [|[] [|[] [|]]]; simpl in Hfs; try lia;
    (eexists; split; [reflexivity|]; split; [json_reads|]).
  all: json_read; rewrite ?u8_read by done; json_read; reflexivity.
Qed.

Lemma handshake_error_survives e :
  survives (SmeProtocolHandshakeErrorSerialize e) "messageProtocolHandshakeError"
    SmeProtocolHandshakeErrorDeserialize e.
Proof. destruct e; (eexists; split; [reflexivity|]; split; [json_reads|]); json_read; reflexivity. Qed.

Lemma pin_state_survives v :
  survives (SmeConnectionPinStateSerialize v) "connectionPinState" SmeConnectionPinStateDeserialize v.
Proof.
  destruct v as [[] [[]|]]; (eexists; split; [reflexivity|]; split; [json_reads|]); json_read; reflexivity.
Qed.

Lemma pin_input_survives pin : well_typed (VPinInput pin) →
  survives (SmeConnectionPinInputSerialize pin) "connectionPinInput" SmeConnectionPinInputDeserialize pin.
Proof.
  intros Hp. destruct (pin_str_parse pin Hp) as (Hparse & Hnul & Hlen & Hfirst).
  eexists. split; [reflexivity|]. split; [json_reads|].
  unfold SmeConnectionPinInputDeserialize, ConnectionPinInputParsePin. revert Hparse Hnul Hlen Hfirst.
  generalize (pin_str pin). intros s Hparse Hnul Hlen Hfirst. json_read.
  rewrite Hfirst. revert Hlen. generalize (String.length s). intros n Hn.
  do 17 (destruct n as [|n]; [by first [exfalso; lia | simpl; rewrite Hparse]|]). exfalso. lia.
Qed.

Lemma pin_error_survives e : well_typed (VPinError e) →
  survives (SmeConnectionPinErrorSerialize e) "connectionPinError" SmeConnectionPinErrorDeserialize e.
Proof. intros ->. eexists. split; [reflexivity|]. split; [json_reads|]. json_read. reflexivity. Qed.

Lemma request_survives :
  survives SmeConnectionAccessMethodsRequestSerialize "accessMethodsRequest"
    SmeConnectionAccessMethodsRequestDeserialize tt.
Proof. eexists. split; [reflexivity|]. split; [json_reads|]. json_read. reflexivity. Qed.

Lemma access_methods_survives v : well_typed (VAccessMethods v) →
  survives (SmeConnectionAccessMethodsSerialize v) "accessMethods" SmeConnectionAccessMethodsDeserialize v.
Proof.
  destruct v as [id mdns uri]. intros [(i & Hi & Hid) Huri]. simpl in *. subst id.
  destruct mdns, uri as [uri|]; simpl in *;
    (eexists; split; [reflexivity|]; split; [json_reads|]); json_read; reflexivity.
Qed.

Lemma close_survives v : well_typed (VClose v) →
  survives (SmeCloseSerialize v) "connectionClose" SmeCloseDeserialize v.
Proof.
  destruct v as [[] t r]; intros [Ht Hr]; destruct t as [t|], r as [r|]; simpl in *;
    (eexists; split; [reflexivity|]; split; [json_reads|]);
    json_read; rewrite ?u32_read by done; json_read; reflexivity.
Qed.

Lemma data_survives d : sendable (VData d) →
  ∃ ar ar', DataSerialize d = Parsed ("data", ar) ∧ reads_items 998 ar ar' ∧
    DataDeserialize (cJSON_Array ar') = Parsed d.
Proof.
  destruct d as [id buf]. intros [(Hid & Hlen & _) (j & s & Hp & Hr & Hbuf)]. simpl in *. subst buf.
  unfold DataSerialize, DataAddPayload. simpl.
  rewrite c_str_c_array by eauto using Print_no_nul. simpl. do 2 eexists. split; [reflexivity|]. split.
  - apply reads_cons; [json_reads|]. apply reads_cons; [|apply reads_nil]. apply reads_object.
    apply reads_member; [reflexivity|by apply reads_raw|apply reads_no_member].
  - autounfold with ship_read. json_read. unfold protocol_id_size in *.
    rewrite (proj2 (Nat.leb_le _ _)) by lia. json_read. rewrite Hp. reflexivity.
Qed.

(** ** Whole messages *)

Definition by_type (t : MsgType) (root : cJSON) : parsed ShipValue :=
  match t with
  | kMsgTypeInit => Rejected
  | kMsgTypeControl => DeserializeControlMessage root
  | kMsgTypeData => DeserializeDataMessage root
  | kMsgTypeEnd => DeserializeEndMessage root
  end.

Lemma Deserialize_frame s t root :
  (2 ≤ String.length s)%nat → no_nul s = true → cJSON_Parse s = Some root →
  Deserialize (frame s t) = by_type t root.
Proof.
  intros Hs Hn Hp. unfold Deserialize, frame. rewrite ShipMessageToString_tail.
  - simpl. change (c_chars s ++ [x00]) with (c_array s). rewrite c_str_c_array by done.
    simpl. rewrite Hp. by destruct t.
  - intros E%(f_equal length). rewrite c_chars_length in E. simpl in E. lia.
Qed.

Lemma message_delivered v name ar ar' :
  SerializeMessage v = Parsed (cJSON_Object [(name, cJSON_Array ar)]) →
  no_nul name = true → reads_items 998 ar ar' →
  ∃ bs, Serialize v = Parsed bs ∧
    Deserialize bs = by_type (value_msg_type (ship_value_type v)) (cJSON_Object [(name, cJSON_Array ar')]).
Proof.
  intros Hs Hname Hr.
  destruct (Parse_Print 1000 (cJSON_Object [(name, cJSON_Array ar)]) (cJSON_Object [(name, cJSON_Array ar')]))
    as (s & Hp & Hparse); [done| |].
  { apply reads_object. apply reads_member; [done| |apply reads_no_member]. by apply reads_array. }
  pose proof (Print_Object _ _ Hp) as Hlen. pose proof (Print_no_nul _ _ Hp) as Hn.
  unfold Serialize. rewrite Hs. simpl. rewrite Hp. simpl.
  rewrite StringToShipMessage_frame, (proj2 (Nat.ltb_ge _ _)) by lia.
  eexists. split; [reflexivity|]. by apply Deserialize_frame.
Qed.

Lemma control_delivered {A} (mk : A → ShipValue) (v : A) ser name des :
  survives ser name des v → no_nul name = true →
  SerializeMessage (mk v) = (λ '(name, ar), cJSON_Object [(name, cJSON_Array ar)]) <$> non_null ser →
  (∀ ar, by_type (value_msg_type (ship_value_type (mk v))) (cJSON_Object [(name, cJSON_Array ar)])
         = mk <$> des (cJSON_Array ar)) →
  ∃ bs, Serialize (mk v) = Parsed bs ∧ Deserialize bs = Parsed (mk v).
Proof.
  intros (ar & -> & Hr & Hd) Hname Hs Hby. simpl in Hs.
  destruct (message_delivered (mk v) name ar ar Hs Hname Hr) as (bs & Hbs & E).
  exists bs. split; [done|]. by rewrite E, Hby, Hd.
Qed.

(** C2: Every value that can be sent is written, and the reader makes exactly this
    value of the bytes: phases, options, versions, formats, PINs, texts and
    payloads come through, under the documented behaviour of the JSON library. *)
Theorem codec_round_trip v :
  sendable v → ∃ bs, Serialize v = Parsed bs ∧ Deserialize bs = Parsed v.
Proof.
  intros Hv. pose proof (proj1 Hv) as Ht. destruct v as [h|p|e|p|pin|e|d| |a|c].
  all: try (eapply control_delivered;
    [ by eauto using hello_survives, handshake_survives, handshake_error_survives, pin_state_survives,
        pin_input_survives, pin_error_survives, access_methods_survives, close_survives
    | reflexivity | reflexivity
    | intros ar; unfold by_type, DeserializeControlMessage, DeserializeEndMessage; simpl;
      repeat json_look_up; reflexivity ]).
  - destruct (data_survives d Hv) as (ar & ar' & Hs & Hr & Hd).
    destruct (message_delivered (VData d) "data" ar ar') as (bs & Hbs & E); [|done|done|].
    { unfold SerializeMessage. by rewrite Hs. }
    exists bs. split; [done|]. rewrite E. simpl. unfold DeserializeDataMessage.
    json_look_up. by rewrite Hd.
  - eapply (control_delivered (λ _ : unit, VAccessMethodsRequest) tt); [apply request_survives|done|done|].
    intros ar; unfold by_type, DeserializeControlMessage; simpl; repeat json_look_up; reflexivity.
Qed.
End round_trip.

(** ** Reading what anyone may have sent *)

Section reader.
Context `{CJsonLaws}.

(** Follows a reader back through its checks. *)
Ltac parsed_inv :=
  repeat match goal with
  | E : _ ≫= _ = Parsed _ |- _ => apply parsed_bind_inv in E as (? & ? & ?)
  | E : _ <$> _ = Parsed _ |- _ => apply parsed_fmap_inv in E as (? & ? & ->)
  | E : non_null _ = Parsed _ |- _ => apply non_null_inv in E
  | E : require _ = Parsed _ |- _ => apply require_inv in E
  | E : Parsed _ = Parsed _ |- _ => injection E as <-
  | E : Rejected = Parsed _ |- _ => discriminate E
  | E : double_to_int _ _ _ = Parsed _ |- _ => apply double_to_int_range in E
  end.

Lemma get_string_no_nul j s : get_string j = Some s → no_nul s = true.
Proof. destruct j as [j|]; [apply GetStringValue_no_nul|done]. Qed.

Lemma hello_typed ar h : SmeHelloDeserialize ar = Parsed h → well_typed (VHello h).
Proof.
  unfold SmeHelloDeserialize, ConnectionHelloParseWaiting, double_to_u32. intros E. parsed_inv.
  case_match; parsed_inv; [|simpl; auto].
  unfold or_else in *. repeat case_match; parsed_inv; try discriminate; simpl; auto.
Qed.

Lemma parse_formats_length ar n : ∀ i fs, parse_formats ar n i = Parsed fs → length fs = n.
Proof.
  induction n as [|n IH]; intros i fs E; simpl in E; parsed_inv; [done|].
  simpl. by erewrite IH.
Qed.

Lemma handshake_typed ar p : SmeProtocolHandshakeDeserialize ar = Parsed p → well_typed (VProtocolHandshake p).
Proof.
  unfold SmeProtocolHandshakeDeserialize, MessageProtocolHandshakeParseVersion, double_to_u8,
    MessageProtocolHandshakeParseFormats. intros E. parsed_inv.
  match goal with E : parse_formats _ _ _ = _ |- _ => apply parse_formats_length in E as Hl end.
  match goal with E : (_ <=? formats_max)%nat = true |- _ => apply Nat.leb_le in E as Hle end.
  unfold well_typed, is_u8. simpl. rewrite Hl. auto.
Qed.

Lemma pin_input_typed ar pin : SmeConnectionPinInputDeserialize ar = Parsed pin → well_typed (VPinInput pin).
Proof.
  unfold SmeConnectionPinInputDeserialize, ConnectionPinInputParsePin. intros E. parsed_inv.
  simpl. eapply parse_pin_in_range; [done| |by apply negb_true_iff].
  match goal with E : negb (_ || _) = true |- _ =>
    apply negb_true_iff, orb_false_iff in E as [?%Nat.ltb_ge ?%Nat.ltb_ge] end. lia.
Qed.

Lemma pin_error_typed ar e : SmeConnectionPinErrorDeserialize ar = Parsed e → well_typed (VPinError e).
Proof.
  unfold SmeConnectionPinErrorDeserialize, ConnectionPinErrorParseError, double_to_u32.
  intros E. parsed_inv. simpl. by apply Z.eqb_eq.
Qed.

Lemma data_typed ar d : DataDeserialize ar = Parsed d → well_typed (VData d).
Proof.
  unfold DataDeserialize, DataParseHeader, DataParsePayload. intros E. parsed_inv.
  match goal with E : get_item _ "payload" ≫= _ = Some _ |- _ => apply bind_Some in E as (j & _ & Hp) end.
  simpl. split; [by eapply get_string_no_nul|]. split; [by apply Nat.ltb_lt|]. eauto.
Qed.

Lemma access_methods_typed ar a :
  SmeConnectionAccessMethodsDeserialize ar = Parsed a → well_typed (VAccessMethods a).
Proof.
  unfold SmeConnectionAccessMethodsDeserialize, AccessMethodsParseId, access_methods_second,
    AccessMethodsParseDns. intros E.
  repeat (parsed_inv; try case_match); simplify_eq/=;
    (split; [by eexists; split; [done|eapply get_string_no_nul]|]); simpl; try done; by eapply get_string_no_nul.
Qed.

Lemma close_typed ar c : SmeCloseDeserialize ar = Parsed c → well_typed (VClose c).
Proof.
  unfold SmeCloseDeserialize, close_second, ConnectionCloseParseMaxTime, ConnectionCloseParseReason,
    double_to_u32. intros E.
  repeat (parsed_inv; try case_match); simplify_eq/=; split; simpl;
    first [done | assumption | eapply get_string_no_nul; eassumption
          | eapply GetStringValue_no_nul; eassumption].
Qed.

(** C4: The reader is typed: whatever bytes it is given, a value it makes is of a kind that
    belongs to the type byte of the message and satisfies every restriction of its
    kind (numbers within their width, at most two formats, PINs of 8 to 16 digits, short
    protocol ids, texts that are C strings).  Except for payloads, whose text the JSON
    library chooses, such a value can be sent, and comes out the same. *)
Theorem reader_typed bs v :
  Deserialize bs = Parsed v →
  well_typed v ∧
  head bs = Some (MsgType_byte (value_msg_type (ship_value_type v))) ∧
  (ship_value_type v ≠ kData →
   sendable v ∧ ∃ bs', Serialize v = Parsed bs' ∧ Deserialize bs' = Parsed v).
Proof.
  intros E. assert (well_typed v ∧ head bs = Some (MsgType_byte (value_msg_type (ship_value_type v))))
    as [Ht Hh].
  { destruct bs as [|b bs]; [discriminate|]. unfold Deserialize in E. parsed_inv.
    match goal with E : (if _ then _ else _) = _ |- _ => revert E end.
    repeat case_bool_decide; intros; simplify_eq; parsed_inv;
      unfold DeserializeControlMessage, DeserializeDataMessage, DeserializeEndMessage in *;
      repeat case_match; parsed_inv; try discriminate;
      (split; [|reflexivity]); try exact I;
      eauto using hello_typed, handshake_typed, pin_input_typed, pin_error_typed, data_typed,
        access_methods_typed, close_typed. }
  split; [done|]. split; [done|]. intros Hk.
  assert (sendable v) as Hs by (split; [done|]; by destruct v).
  split; [done|]. by apply codec_round_trip.
Qed.
End reader.

(** ** Where it goes wrong *)

Section lost.
Context `{CJsonLaws}.

(** A hello may carry both a waiting time and a request for prolongation.  The writer
    writes both, as the second and the third item; the reader looks for options in the
    second item only, so the request for prolongation is lost without an error. *)
Theorem prolongation_request_lost phase w b :
  is_u32 w →
  ∃ bs, Serialize (VHello (mkHello phase (Some w) (Some b))) = Parsed bs ∧
        Deserialize bs = Parsed (VHello (mkHello phase (Some w) None)).
Proof.
  intros Hw.
  assert (∃ ar, SmeHelloSerialize (mkHello phase (Some w) (Some b)) = Some ("connectionHello", ar) ∧
    reads_items 998 ar ar ∧ SmeHelloDeserialize (cJSON_Array ar) = Parsed (mkHello phase (Some w) None))
    as (ar & Hs & Hr & Hd).
  { destruct phase; (eexists; split; [reflexivity|]; split; [json_reads|]);
      json_read; rewrite ?u32_read by done; reflexivity. }
  destruct (message_delivered (VHello (mkHello phase (Some w) (Some b))) "connectionHello" ar ar)
    as (bs & Hbs & E); [|done|done|].
  { unfold SerializeMessage. by rewrite Hs. }
  exists bs. split; [done|]. rewrite E. unfold by_type, DeserializeControlMessage. simpl.
  repeat json_look_up. by rewrite Hd.
Qed.
End lost.

(** ** Witnesses, on the text of [JsonText] *)

#[local] Existing Instances jtree_json jtree_laws.

(** The bytes of a message: its type and its text, with [^] for the quotation mark. *)
Definition wire (t : MsgType) (s : string) : list byte :=
  MsgType_byte t :: c_chars (string_of_list_ascii
    ((λ c, if Ascii.eqb c "^" then quote else c) <$> list_ascii_of_string s)).

Example hello_bytes :
  Serialize (VHello (mkHello kConnectionHelloPhaseReady (Some 60000) None))
  = Parsed (wire kMsgTypeControl "{^connectionHello^:[{^phase^:^ready^},{^waiting^:60000}]}").
Proof. vm_compute. reflexivity. Qed.

(** A peer can make the reader convert a number outside the range of its target. *)
Example waiting_out_of_range :
  Deserialize (wire kMsgTypeControl "{^connectionHello^:[{^phase^:^ready^},{^waiting^:-1}]}") = Undefined ∧
  Deserialize (wire kMsgTypeControl "{^connectionPinError^:[{^error^:-1}]}") = Undefined ∧
  Deserialize (wire kMsgTypeEnd "{^connectionClose^:[{^phase^:^announce^},{^maxTime^:5000000000}]}") = Undefined.
Proof. vm_compute. done. Qed.

(** A PIN of fewer than eight digits is written, and refused by the reader. *)
Example short_pin_refused :
  Serialize (VPinInput 4660) = Parsed (wire kMsgTypeControl "{^connectionPinInput^:[{^pin^:^1234^}]}") ∧
  Deserialize (wire kMsgTypeControl "{^connectionPinInput^:[{^pin^:^1234^}]}") = Rejected.
Proof. vm_compute. done. Qed.

Definition demo_data : Data :=
  mkData SHIP_PROTOCOL_ID (Some (tail (wire kMsgTypeData "{^datagram^:[^x^,7]}") ++ [x00])).

Lemma codec_round_trip_witness :
  ∃ bs, Serialize (VData demo_data) = Parsed bs ∧ Deserialize bs = Parsed (VData demo_data).
Proof.
  apply (codec_round_trip (VData demo_data)).
  set (j := cJSON_Object [("datagram", cJSON_Array [cJSON_CreateString "x"; cJSON_CreateNumber (double_of_Z 7)])]).
  assert (reads 997 j j) as Hr by (unfold j; json_reads).
  assert (∃ s, cJSON_PrintUnformatted j = Some s ∧ payload demo_data = Some (c_array s)) as (s & Hp & Hb)
    by (eexists; split; vm_compute; reflexivity).
  split; [split; [done|split; [vm_compute; lia|by exists j, s]]|]. by exists j, s.
Defined.

Lemma reader_typed_witness :
  well_typed (VPinInput 2864434397) ∧ sendable (VPinInput 2864434397).
Proof.
  destruct (reader_typed (wire kMsgTypeControl "{^ConnectionPinInput^:[{^PIN^:^aabbccdd^}]}")
              (VPinInput 2864434397)) as (Ht & _ & Hs); [vm_compute; reflexivity|].
  split; [exact Ht|]. apply Hs. discriminate.
Defined.

Lemma prolongation_request_lost_witness :
  ∃ bs, Serialize (VHello (mkHello kConnectionHelloPhasePending (Some 30000) (Some true))) = Parsed bs ∧
        Deserialize bs = Parsed (VHello (mkHello kConnectionHelloPhasePending (Some 30000) None)).
Proof. apply (prolongation_request_lost kConnectionHelloPhasePending 30000 true). split; lia. Defined.

