(* ===== verification/ShipState.v ===== *)
(** * The state of a SHIP connection and its surroundings

    [ShipConnection] is the struct of [ship_connection_internal.h].  It is
    shared between the connection thread, which runs the state machine, and the
    threads of the timers, of the websocket and of the application, which only
    post messages to [msg_queue].  [St] adds what the code cannot see: the
    clock, the future actions of the other threads ([sched]) and the trace
    of the calls the connection has made.

    The other threads act at the synchronisation points of the connection
    thread: calls of the queue and of the timers.  There [sync] lets them perform
    the scheduled actions up to the next [EvYield], and a receive on an empty
    queue goes on until a message is there.  A schedule is an arbitrary list, so
    every interleaving at this granularity is covered.  A thread that finds the
    queue full waits: its action does not happen. *)

From S2P Require Import Prelude Queue Timer ShipTypes.

Record ShipConnection := mkSC {
  role : ShipRole;
  remote_ski : string;
  remote_ship_id : option string;
  local_ship_id : string;
  data_reader : option nat;
  websocket : bool;   (* the pointer is not NULL *)
  sme_state : SmeState;
  sme_error : EebusError;
  is_access_methods_req_sent : bool;
  wait_for_ready_timer : EebusTimer;
  send_prolongation_request_timer : EebusTimer;
  prolongation_request_reply_timer : EebusTimer;
  last_received_waiting_value : Z;
  trust_decision : ShipConnectionTrustDecision;
  trust_decision_id : Z;
  trust_accept_cb : option nat;
  trust_accept_ctx : nat;
  remote_hello_ready : bool;
  shutdown_once : bool;
  cancel : bool;
  msg_queue : option (EebusQueue ShipConnectionQueueMessage);
  msg : MessageBuffer;
}.

Definition set_remote_ship_id (x : option string) (c : ShipConnection) : ShipConnection :=
  mkSC (role c) (remote_ski c) x (local_ship_id c) (data_reader c) (websocket c) (sme_state c)
    (sme_error c) (is_access_methods_req_sent c) (wait_for_ready_timer c)
    (send_prolongation_request_timer c) (prolongation_request_reply_timer c)
    (last_received_waiting_value c) (trust_decision c) (trust_decision_id c) (trust_accept_cb c)
    (trust_accept_ctx c) (remote_hello_ready c) (shutdown_once c) (cancel c) (msg_queue c)
    (msg c).
Definition set_data_reader (x : option nat) (c : ShipConnection) : ShipConnection :=
  mkSC (role c) (remote_ski c) (remote_ship_id c) (local_ship_id c) x (websocket c)
    (sme_state c) (sme_error c) (is_access_methods_req_sent c) (wait_for_ready_timer c)
    (send_prolongation_request_timer c) (prolongation_request_reply_timer c)
    (last_received_waiting_value c) (trust_decision c) (trust_decision_id c) (trust_accept_cb c)
    (trust_accept_ctx c) (remote_hello_ready c) (shutdown_once c) (cancel c) (msg_queue c)
    (msg c).
Definition set_websocket (x : bool) (c : ShipConnection) : ShipConnection :=
  mkSC (role c) (remote_ski c) (remote_ship_id c) (local_ship_id c) (data_reader c) x
    (sme_state c) (sme_error c) (is_access_methods_req_sent c) (wait_for_ready_timer c)
    (send_prolongation_request_timer c) (prolongation_request_reply_timer c)
    (last_received_waiting_value c) (trust_decision c) (trust_decision_id c) (trust_accept_cb c)
    (trust_accept_ctx c) (remote_hello_ready c) (shutdown_once c) (cancel c) (msg_queue c)
    (msg c).
Definition set_sme_state (x : SmeState) (c : ShipConnection) : ShipConnection :=
  mkSC (role c) (remote_ski c) (remote_ship_id c) (local_ship_id c) (data_reader c)
    (websocket c) x (sme_error c) (is_access_methods_req_sent c) (wait_for_ready_timer c)
    (send_prolongation_request_timer c) (prolongation_request_reply_timer c)
    (last_received_waiting_value c) (trust_decision c) (trust_decision_id c) (trust_accept_cb c)
    (trust_accept_ctx c) (remote_hello_ready c) (shutdown_once c) (cancel c) (msg_queue c)
    (msg c).
Definition set_is_access_methods_req_sent (x : bool) (c : ShipConnection) : ShipConnection :=
  mkSC (role c) (remote_ski c) (remote_ship_id c) (local_ship_id c) (data_reader c)
    (websocket c) (sme_state c) (sme_error c) x (wait_for_ready_timer c)
    (send_prolongation_request_timer c) (prolongation_request_reply_timer c)
    (last_received_waiting_value c) (trust_decision c) (trust_decision_id c) (trust_accept_cb c)
    (trust_accept_ctx c) (remote_hello_ready c) (shutdown_once c) (cancel c) (msg_queue c)
    (msg c).
Definition set_wait_for_ready_timer (x : EebusTimer) (c : ShipConnection) : ShipConnection :=
  mkSC (role c) (remote_ski c) (remote_ship_id c) (local_ship_id c) (data_reader c)
    (websocket c) (sme_state c) (sme_error c) (is_access_methods_req_sent c) x
    (send_prolongation_request_timer c) (prolongation_request_reply_timer c)
    (last_received_waiting_value c) (trust_decision c) (trust_decision_id c) (trust_accept_cb c)
    (trust_accept_ctx c) (remote_hello_ready c) (shutdown_once c) (cancel c) (msg_queue c)
    (msg c).
Definition set_send_prolongation_request_timer (x : EebusTimer) (c : ShipConnection) : ShipConnection :=
  mkSC (role c) (remote_ski c) (remote_ship_id c) (local_ship_id c) (data_reader c)
    (websocket c) (sme_state c) (sme_error c) (is_access_methods_req_sent c)
    (wait_for_ready_timer c) x (prolongation_request_reply_timer c)
    (last_received_waiting_value c) (trust_decision c) (trust_decision_id c) (trust_accept_cb c)
    (trust_accept_ctx c) (remote_hello_ready c) (shutdown_once c) (cancel c) (msg_queue c)
    (msg c).
Definition set_prolongation_request_reply_timer (x : EebusTimer) (c : ShipConnection) : ShipConnection :=
  mkSC (role c) (remote_ski c) (remote_ship_id c) (local_ship_id c) (data_reader c)
    (websocket c) (sme_state c) (sme_error c) (is_access_methods_req_sent c)
    (wait_for_ready_timer c) (send_prolongation_request_timer c) x (last_received_waiting_value c)
    (trust_decision c) (trust_decision_id c) (trust_accept_cb c) (trust_accept_ctx c)
    (remote_hello_ready c) (shutdown_once c) (cancel c) (msg_queue c) (msg c).
Definition set_last_received_waiting_value (x : Z) (c : ShipConnection) : ShipConnection :=
  mkSC (role c) (remote_ski c) (remote_ship_id c) (local_ship_id c) (data_reader c)
    (websocket c) (sme_state c) (sme_error c) (is_access_methods_req_sent c)
    (wait_for_ready_timer c) (send_prolongation_request_timer c)
    (prolongation_request_reply_timer c) x (trust_decision c) (trust_decision_id c)
    (trust_accept_cb c) (trust_accept_ctx c) (remote_hello_ready c) (shutdown_once c) (cancel c)
    (msg_queue c) (msg c).
Definition set_trust_decision (x : ShipConnectionTrustDecision) (c : ShipConnection) : ShipConnection :=
  mkSC (role c) (remote_ski c) (remote_ship_id c) (local_ship_id c) (data_reader c)
    (websocket c) (sme_state c) (sme_error c) (is_access_methods_req_sent c)
    (wait_for_ready_timer c) (send_prolongation_request_timer c)
    (prolongation_request_reply_timer c) (last_received_waiting_value c) x (trust_decision_id c)
    (trust_accept_cb c) (trust_accept_ctx c) (remote_hello_ready c) (shutdown_once c) (cancel c)
    (msg_queue c) (msg c).
Definition set_trust_decision_id (x : Z) (c : ShipConnection) : ShipConnection :=
  mkSC (role c) (remote_ski c) (remote_ship_id c) (local_ship_id c) (data_reader c)
    (websocket c) (sme_state c) (sme_error c) (is_access_methods_req_sent c)
    (wait_for_ready_timer c) (send_prolongation_request_timer c)
    (prolongation_request_reply_timer c) (last_received_waiting_value c) (trust_decision c) x
    (trust_accept_cb c) (trust_accept_ctx c) (remote_hello_ready c) (shutdown_once c) (cancel c)
    (msg_queue c) (msg c).
Definition set_trust_accept_cb (x : option nat) (c : ShipConnection) : ShipConnection :=
  mkSC (role c) (remote_ski c) (remote_ship_id c) (local_ship_id c) (data_reader c)
    (websocket c) (sme_state c) (sme_error c) (is_access_methods_req_sent c)
    (wait_for_ready_timer c) (send_prolongation_request_timer c)
    (prolongation_request_reply_timer c) (last_received_waiting_value c) (trust_decision c)
    (trust_decision_id c) x (trust_accept_ctx c) (remote_hello_ready c) (shutdown_once c)
    (cancel c) (msg_queue c) (msg c).
Definition set_trust_accept_ctx (x : nat) (c : ShipConnection) : ShipConnection :=
  mkSC (role c) (remote_ski c) (remote_ship_id c) (local_ship_id c) (data_reader c)
    (websocket c) (sme_state c) (sme_error c) (is_access_methods_req_sent c)
    (wait_for_ready_timer c) (send_prolongation_request_timer c)
    (prolongation_request_reply_timer c) (last_received_waiting_value c) (trust_decision c)
    (trust_decision_id c) (trust_accept_cb c) x (remote_hello_ready c) (shutdown_once c)
    (cancel c) (msg_queue c) (msg c).
Definition set_remote_hello_ready (x : bool) (c : ShipConnection) : ShipConnection :=
  mkSC (role c) (remote_ski c) (remote_ship_id c) (local_ship_id c) (data_reader c)
    (websocket c) (sme_state c) (sme_error c) (is_access_methods_req_sent c)
    (wait_for_ready_timer c) (send_prolongation_request_timer c)
    (prolongation_request_reply_timer c) (last_received_waiting_value c) (trust_decision c)
    (trust_decision_id c) (trust_accept_cb c) (trust_accept_ctx c) x (shutdown_once c) (cancel c)
    (msg_queue c) (msg c).
Definition set_shutdown_once (x : bool) (c : ShipConnection) : ShipConnection :=
  mkSC (role c) (remote_ski c) (remote_ship_id c) (local_ship_id c) (data_reader c)
    (websocket c) (sme_state c) (sme_error c) (is_access_methods_req_sent c)
    (wait_for_ready_timer c) (send_prolongation_request_timer c)
    (prolongation_request_reply_timer c) (last_received_waiting_value c) (trust_decision c)
    (trust_decision_id c) (trust_accept_cb c) (trust_accept_ctx c) (remote_hello_ready c) x
    (cancel c) (msg_queue c) (msg c).
Definition set_cancel (x : bool) (c : ShipConnection) : ShipConnection :=
  mkSC (role c) (remote_ski c) (remote_ship_id c) (local_ship_id c) (data_reader c)
    (websocket c) (sme_state c) (sme_error c) (is_access_methods_req_sent c)
    (wait_for_ready_timer c) (send_prolongation_request_timer c)
    (prolongation_request_reply_timer c) (last_received_waiting_value c) (trust_decision c)
    (trust_decision_id c) (trust_accept_cb c) (trust_accept_ctx c) (remote_hello_ready c)
    (shutdown_once c) x (msg_queue c) (msg c).
Definition set_msg_queue (x : option (EebusQueue ShipConnectionQueueMessage)) (c : ShipConnection) : ShipConnection :=
  mkSC (role c) (remote_ski c) (remote_ship_id c) (local_ship_id c) (data_reader c)
    (websocket c) (sme_state c) (sme_error c) (is_access_methods_req_sent c)
    (wait_for_ready_timer c) (send_prolongation_request_timer c)
    (prolongation_request_reply_timer c) (last_received_waiting_value c) (trust_decision c)
    (trust_decision_id c) (trust_accept_cb c) (trust_accept_ctx c) (remote_hello_ready c)
    (shutdown_once c) (cancel c) x (msg c).
Definition set_msg (x : MessageBuffer) (c : ShipConnection) : ShipConnection :=
  mkSC (role c) (remote_ski c) (remote_ship_id c) (local_ship_id c) (data_reader c)
    (websocket c) (sme_state c) (sme_error c) (is_access_methods_req_sent c)
    (wait_for_ready_timer c) (send_prolongation_request_timer c)
    (prolongation_request_reply_timer c) (last_received_waiting_value c) (trust_decision c)
    (trust_decision_id c) (trust_accept_cb c) (trust_accept_ctx c) (remote_hello_ready c)
    (shutdown_once c) (cancel c) (msg_queue c) x.


(** The three timers of the connection. *)
Inductive TimerId := WaitForReady | SendProlongationRequest | ProlongationRequestReply.

Definition get_timer (t : TimerId) (c : ShipConnection) : EebusTimer :=
  match t with
  | WaitForReady => wait_for_ready_timer c
  | SendProlongationRequest => send_prolongation_request_timer c
  | ProlongationRequestReply => prolongation_request_reply_timer c
  end.

Definition set_timer (t : TimerId) (x : EebusTimer) (c : ShipConnection) : ShipConnection :=
  match t with
  | WaitForReady => set_wait_for_ready_timer x c
  | SendProlongationRequest => set_send_prolongation_request_timer x c
  | ProlongationRequestReply => set_prolongation_request_reply_timer x c
  end.

(** ** Actions of the other threads *)

(** Time passes, the wait of a timer thread ends, the application or the node
    calls the connection's interface, the websocket reports; [EvYield] hands
    control back to the connection thread. *)
Inductive Ev :=
| EvTick (ns : Z)
| EvTimer (t : TimerId)
| EvApprovePendingHandshake
| EvApprovePendingHandshakeWithToken (id : Z) (cb : option nat) (ctx : nat)
| EvAbortPendingHandshake
| EvWriteMessage (msg : list byte)
| EvWebsocket (type : WebsocketCallbackType) (data : list byte)
| EvStop
| EvYield.

(** What the connection does to its surroundings, with the answers it gets;
    [OApprove] records that the application approved the peer. *)
Inductive Out :=
| OStateUpdate (s : SmeState)
| OIsPaired (answer : bool)
| OAcceptCallback (cb : nat) (id : Z) (answer : bool)
| OSetupRemoteDevice
| OReportShipId (id : option string)
| OConnectionClosed (handshake_ended : bool)
| OHandleMessage (payload : MessageBuffer)
| OWebsocketWrite (data : list byte)
| OWebsocketClose (code : Z) (reason : option string)
| OSleep (us : Z)
| OApprove.

Record St := mkSt {
  sc : ShipConnection;
  clock : Z;   (* nanoseconds *)
  sched : list Ev;   (* what the other threads do next *)
  calls : nat;   (* calls of the environment made so far *)
  trace : list Out;   (* newest first *)
}.

Definition set_sc (x : ShipConnection) (s : St) : St :=
  mkSt x (clock s) (sched s) (calls s) (trace s).
Definition set_clock (x : Z) (s : St) : St :=
  mkSt (sc s) x (sched s) (calls s) (trace s).
Definition set_sched (x : list Ev) (s : St) : St :=
  mkSt (sc s) (clock s) x (calls s) (trace s).

Definition set_calls_trace (n : nat) (t : list Out) (s : St) : St :=
  mkSt (sc s) (clock s) (sched s) n t.

(** The answers of the code around the connection, by number of the call. *)
Class ShipEnv := {
  env_write : nat → list byte → Z;                (* WEBSOCKET_WRITE, an int32_t *)
  env_paired : nat → string → bool;               (* IS_REMOTE_SERVICE_FOR_SKI_PAIRED *)
  env_accept : nat → nat → Z → nat → bool;        (* the trust acceptance callback *)
  env_setup : nat → string → option nat;          (* SETUP_REMOTE_DEVICE *)
}.

(** [f] on the connection inside the state. *)
Definition upd (f : ShipConnection → ShipConnection) : Prog St unit :=
  modify (λ s, set_sc (f (sc s)) s).
Definition rd {A} (f : ShipConnection → A) : Prog St A := gets (λ s, f (sc s)).
Definition emit (o : Out) : Prog St unit :=
  modify (λ s, set_calls_trace (calls s) (o :: trace s) s).
(** The number of the next call of the environment. *)
Definition next_call : Prog St nat := λ s,
  Ret (calls s) (set_calls_trace (S (calls s)) (trace s) s).

(** ** The entry points of the other threads *)

Definition queue_send (m : ShipConnectionQueueMessage) : Prog ShipConnection EebusError := λ c,
  match msg_queue c with
  | None => Crash "send on a NULL queue"
  | Some q =>
      match Queue.Send m kTimeoutInfinite q with
      | Ret e q' => Ret e (set_msg_queue (Some q') c)
      | Block q' => Block (set_msg_queue (Some q') c)
      | Crash why => Crash why
      end
  end.

Definition ShipConnectionPostTrustDecision (type : ShipConnectionQueueMsgType) (id : Z)
    (cb : option nat) (ctx : nat) : Prog ShipConnection EebusError :=
  branch (λ c, bool_decide (msg_queue c = None)) (mret kEebusErrorNotAvailable)
    (queue_send (mkQMsg type None id cb ctx)).

Definition ApprovePendingHandshake : Prog ShipConnection EebusError :=
  ShipConnectionPostTrustDecision kShipConnectionQueueMsgTypeTrustGranted 0 None 0.

Definition ShipConnectionApprovePendingHandshakeWithToken (id : Z) (cb : option nat) (ctx : nat)
    : Prog ShipConnection EebusError :=
  match cb with
  | None => mret kEebusErrorInputArgumentNull
  | Some _ => ShipConnectionPostTrustDecision kShipConnectionQueueMsgTypeTrustGranted id cb ctx
  end.

Definition AbortPendingHandshake : Prog ShipConnection EebusError :=
  ShipConnectionPostTrustDecision kShipConnectionQueueMsgTypeTrustDenied 0 None 0.

Definition GetPendingWaitingMs (c : ShipConnection) : Z :=
  if bool_decide (sme_state c = kSmeHelloStatePendingListen)
  then last_received_waiting_value c else 0.

Definition GetState (c : ShipConnection) : SmeState * EebusError := (sme_state c, sme_error c).

Definition WriteMessage (m : list byte) : Prog ShipConnection EebusError :=
  queue_send (qmsg kShipConnectionQueueMsgTypeSpineDataToSend (Some m)).

Definition ShipConnectionWebsocketCallback (type : WebsocketCallbackType) (data : list byte)
    : Prog ShipConnection EebusError :=
  branch (λ c, cancel c || shutdown_once c) (mret kEebusErrorOk)
    (match type with
     | kWebsocketCallbackTypeRead =>
         queue_send (qmsg kShipConnectionQueueMsgTypeDataReceived (Some data))
     | kWebsocketCallbackTypeError =>
         queue_send (qmsg kShipConnectionQueueMsgTypeWebsocketError None)
     | kWebsocketCallbackTypeClose =>
         queue_send (qmsg kShipConnectionQueueMsgTypeWebsocketClose None)
     end).

Definition ShipConnectionTimeoutCallback : Prog ShipConnection EebusError :=
  queue_send (qmsg kShipConnectionQueueMsgTypeTimeout None).

(** The wait of a timer's thread ends: [Timer.Wake] with the connection's
    callback, which runs before the timer turns [Expired]. *)
Definition timer_wakes (now : Z) (t : TimerId) : Prog ShipConnection unit := λ c,
  let '(t', fired) := Timer.Wake now (get_timer t c) in
  if fired
  then match ShipConnectionTimeoutCallback c with
       | Ret _ c' => Ret tt (set_timer t t' c')
       | Block c' => Block c'
       | Crash why => Crash why
       end
  else Ret tt (set_timer t t' c).

(** [Stop] up to the join of the connection thread. *)
Definition StopRequest : Prog ShipConnection EebusError :=
  modify (set_cancel true);;
  queue_send (qmsg kShipConnectionQueueMsgTypeCancel None).

(** ** Interleaving *)

Definition run_on_sc {A} (m : Prog ShipConnection A) (s : St) : St :=
  match m (sc s) with
  | Ret _ c' | Block c' => set_sc c' s
  | Crash _ => s
  end.

Definition env_step (e : Ev) (s : St) : St :=
  match e with
  | EvTick ns => set_clock (clock s + Z.max 0 ns) s
  | EvTimer t => run_on_sc (timer_wakes (clock s) t) s
  | EvApprovePendingHandshake =>
      run_on_sc ApprovePendingHandshake (set_calls_trace (calls s) (OApprove :: trace s) s)
  | EvApprovePendingHandshakeWithToken id cb ctx =>
      run_on_sc (ShipConnectionApprovePendingHandshakeWithToken id cb ctx) s
  | EvAbortPendingHandshake => run_on_sc AbortPendingHandshake s
  | EvWriteMessage m => run_on_sc (WriteMessage m) s
  | EvWebsocket type data => run_on_sc (ShipConnectionWebsocketCallback type data) s
  | EvStop => run_on_sc StopRequest s
  | EvYield => s
  end.

Fixpoint env_until_yield (evs : list Ev) (s : St) : St :=
  match evs with
  | [] => set_sched [] s
  | EvYield :: evs' => set_sched evs' s
  | e :: evs' => env_until_yield evs' (env_step e s)
  end.

Definition message_waits (c : ShipConnection) : bool :=
  match msg_queue c with Some q => Queue.ReceivePredicate q | None => true end.

Fixpoint env_until_message (evs : list Ev) (s : St) : St :=
  if message_waits (sc s) then set_sched evs s
  else match evs with
       | [] => set_sched [] s
       | e :: evs' => env_until_message evs' (env_step e s)
       end.

Definition sync : Prog St unit := modify (λ s, env_until_yield (sched s) s).
Definition wait_message : Prog St unit := modify (λ s, env_until_message (sched s) s).

(** ** Calls of the connection thread on the queue, the timers and the socket *)

Definition queue_take : Prog St (EebusError * option ShipConnectionQueueMessage) := λ s,
  match msg_queue (sc s) with
  | None => Crash "receive on a NULL queue"
  | Some q =>
      match Queue.Receive kTimeoutInfinite q with
      | Ret r q' => Ret r (set_sc (set_msg_queue (Some q') (sc s)) s)
      | Block _ => Block s
      | Crash why => Crash why
      end
  end.

Definition EEBUS_QUEUE_RECEIVE : Prog St (EebusError * option ShipConnectionQueueMessage) :=
  sync;; wait_message;; queue_take.

Definition EEBUS_TIMER_START (t : TimerId) (ms : Z) : Prog St unit :=
  sync;;
  modify (λ s, set_sc (set_timer t (Timer.Start (clock s) ms false (get_timer t (sc s))) (sc s)) s).

Definition EEBUS_TIMER_STOP (t : TimerId) : Prog St unit :=
  sync;;
  modify (λ s, set_sc (set_timer t (Timer.Stop (clock s) (get_timer t (sc s))) (sc s)) s).

Definition EEBUS_TIMER_GET_TIMER_STATE (t : TimerId) : Prog St EebusTimerState :=
  sync;; rd (λ c, timer_state (get_timer t c)).

Definition EEBUS_TIMER_GET_REMAINING_TIME (t : TimerId) : Prog St Z :=
  sync;; gets (λ s, Timer.GetRemainingTime (clock s) (get_timer t (sc s))).

Definition need_websocket : Prog St unit :=
  branch (λ s, websocket (sc s)) (mret tt) (crash "NULL websocket").

Section env_calls.
Context `{ShipEnv}.

(** The value of [WEBSOCKET_WRITE], an [int32_t], as the [size_t] it is assigned to. *)
Definition WEBSOCKET_WRITE (data : list byte) : Prog St Z :=
  need_websocket;;
  n ← next_call;
  emit (OWebsocketWrite data);;
  mret (u64 (env_write n data)).

Definition WEBSOCKET_CLOSE (code : Z) (reason : option string) : Prog St unit :=
  need_websocket;; emit (OWebsocketClose code reason).

Definition INFO_PROVIDER_IS_REMOTE_SERVICE_FOR_SKI_PAIRED : Prog St bool :=
  n ← next_call;
  ski ← rd remote_ski;
  emit (OIsPaired (env_paired n ski));;
  mret (env_paired n ski).

Definition call_accept_cb (cb : nat) (id : Z) (ctx : nat) : Prog St bool :=
  n ← next_call;
  emit (OAcceptCallback cb id (env_accept n cb id ctx));;
  mret (env_accept n cb id ctx).

Definition INFO_PROVIDER_SETUP_REMOTE_DEVICE : Prog St (option nat) :=
  n ← next_call;
  ski ← rd remote_ski;
  emit OSetupRemoteDevice;;
  mret (env_setup n ski).

Definition DATA_READER_HANDLE_MESSAGE (p : MessageBuffer) : Prog St unit :=
  branch (λ s, bool_decide (data_reader (sc s) = None)) (crash "NULL data reader")
    (emit (OHandleMessage p)).
End env_calls.
