(* ===== verification/ShipConnection.v ===== *)
(** * The SHIP connection ([src/ship/ship_connection/ship_connection.c])

    One definition per function, in the order of calls.  Debug output is left
    out; [EEBUS_MALLOC] succeeds; ownership of message buffers is not tracked,
    except that a released buffer is NULL. *)

From S2P Require Import Prelude StringUtil Queue Timer ShipTypes ShipState.
From Stdlib Require Import SpecFloat.

Local Open Scope Z_scope.

(** [(uint32_t)(x * 1.1)], the product of a [uint32_t] and a [double]. *)
Definition double_1_1 : spec_float := S754_finite false 4953959590107546 (-52).
Definition times_1_1 (x : Z) : Z :=
  match SFmul 53 1024 (binary_normalize 53 1024 x 0 false) double_1_1 with
  | S754_finite false m e => u32 (Z.shiftl (Zpos m) e)
  | _ => 0
  end.

(** [ShipConnectionConstruct] *)
Definition ShipConnectionConstruct (r : ShipRole) (local_id ski : string) (remote_id : option string)
    : ShipConnection :=
  mkSC r ski remote_id local_id None false
    (if bool_decide (r = kShipRoleServer) then kCmiStateServerWait else kCmiStateClientSend)
    kEebusErrorOk false EebusTimerCreate EebusTimerCreate EebusTimerCreate 0
    kShipConnectionTrustDecisionNone 0 None 0%nat false false false None None.

(** [sizeof(ShipConnectionQueueMessage)] on a 64-bit target. *)
Definition sizeof_ShipConnectionQueueMessage : Z := 56.
Definition kQueueMaxMsg : nat := 60.

(** [ShipConnectionTryStart]; [created] says whether the websocket creator
    returned a websocket.  The thread creation that follows succeeds. *)
Definition ShipConnectionTryStart (created : bool) : Prog ShipConnection EebusError :=
  match EebusQueueCreate kQueueMaxMsg sizeof_ShipConnectionQueueMessage true with
  | None => mret kEebusErrorMemory
  | Some q =>
      modify (set_msg_queue (Some q));;
      modify (set_websocket created);;
      mret (if created then kEebusErrorOk else kEebusErrorCommunicationBegin)
  end.

Section ship_connection.
Context `{ShipEnv, ShipCodec}.

Definition ShipConnectionSetSmeState (state : SmeState) : Prog St unit :=
  branch (λ s, bool_decide (sme_state (sc s) ≠ state))
    (upd (set_sme_state state);; emit (OStateUpdate state))
    (mret tt).

Definition ShipConnectionSend (buf : MessageBuffer) : Prog St EebusError :=
  let data := default [] buf in
  ret ← WEBSOCKET_WRITE data;
  mret (if bool_decide (ret ≠ Z.of_nat (length data))
        then kEebusErrorCommunication else kEebusErrorOk).

Definition ShipConnectionSerializeAndSendMessage (message : ShipValue) : Prog St EebusError :=
  match ship_serialize message with
  | None => mret kEebusErrorParse
  | Some buf => ShipConnectionSend (Some buf)
  end.

Definition CloseConnection (safe : bool) (code : Z) (reason : option string) : Prog St unit :=
  branch (λ s, shutdown_once (sc s)) (mret tt)
    (EEBUS_TIMER_STOP WaitForReady;;
     EEBUS_TIMER_STOP ProlongationRequestReply;;
     EEBUS_TIMER_STOP SendProlongationRequest;;
     state ← rd sme_state;
     let is_hs_ended :=
       bool_decide (state = kDataExchange) || bool_decide (state = kSmeHelloStateAbortDone)
       || bool_decide (state = kSmeHelloStateRemoteAbortDone)
       || bool_decide (state = kSmeHelloStateRejected) in
     (if safe && bool_decide (state = kDataExchange)
      then ShipConnectionSerializeAndSendMessage
             (VClose (mkClose kConnectionClosePhaseTypeAnnounce None reason));;
           emit (OSleep 500000);;
           WEBSOCKET_CLOSE 4001 (Some "close"%string)
      else WEBSOCKET_CLOSE (if bool_decide (code ≠ 0) then code else 4001) reason);;
     upd (set_cancel true);;
     upd (set_shutdown_once true);;
     emit (OConnectionClosed is_hs_ended)).

Definition ReportConnectionError : Prog St unit :=
  state ← rd sme_state;
  if bool_decide (state = kSmeHelloStateReadyListen)
  then ShipConnectionSetSmeState kSmeHelloStateRejected;;
       CloseConnection false 0 (Some ""%string)
  else if bool_decide (state = kSmeHelloStateRemoteAbortDone)
  then CloseConnection false 0 (Some ""%string)
  else if bool_decide (state = kSmeHelloStateAbort)
          || bool_decide (state = kSmeHelloStateAbortDone)
  then CloseConnection false 4452 (Some "Node rejected by application"%string)
  else ShipConnectionSetSmeState kSmeStateError;;
       CloseConnection false 0 (Some ""%string);;
       emit (OStateUpdate kSmeStateError).

Definition ShipConnectionCloseWithError (err : string) : Prog St unit :=
  ShipConnectionSetSmeState kSmeStateError;;
  CloseConnection true 0 (Some err).

(** [Stop] after the join of the connection thread. *)
Definition StopFinish : Prog St unit := CloseConnection false 0 (Some ""%string).

(** The loop of [ShipConnectionWaitForMessage]: reads until an error, a message
    that is no trust decision, or a trust decision in PENDING.  A dropped
    decision is one message less, so [fuel] may be any bound on the number of
    messages; running out is reported as a crash. *)
Fixpoint wait_loop (fuel : nat) : Prog St (EebusError * option ShipConnectionQueueMessage) :=
  match fuel with
  | O => crash "wait_loop: out of fuel"
  | S fuel' =>
      r ← EEBUS_QUEUE_RECEIVE;
      match r with
      | (kEebusErrorOk, Some m) =>
          let is_trust_decision :=
            bool_decide (qtype m = kShipConnectionQueueMsgTypeTrustGranted)
            || bool_decide (qtype m = kShipConnectionQueueMsgTypeTrustDenied) in
          if negb is_trust_decision then mret r
          else
            branch (λ s, bool_decide (sme_state (sc s) ≠ kSmeHelloStatePendingListen))
              (wait_loop fuel')
              (upd (set_trust_decision
                      (if bool_decide (qtype m = kShipConnectionQueueMsgTypeTrustGranted)
                       then kShipConnectionTrustDecisionGranted
                       else kShipConnectionTrustDecisionDenied));;
               upd (set_trust_decision_id (approval_id m));;
               upd (set_trust_accept_cb (accept_cb m));;
               upd (set_trust_accept_ctx (accept_ctx m));;
               mret r)
      | _ => mret r
      end
  end.

(** Messages waiting and actions still to come: more than can be received. *)
Definition wait_fuel (s : St) : nat :=
  S (match msg_queue (sc s) with Some q => max_msg q | None => 0%nat end + length (sched s)).

Definition ShipConnectionWaitForMessage (timeout : Z)
    : Prog St (EebusError * option ShipConnectionQueueMessage) :=
  EEBUS_TIMER_START WaitForReady timeout;;
  fuel ← gets wait_fuel;
  r ← wait_loop fuel;
  EEBUS_TIMER_STOP WaitForReady;;
  mret r.

(** The error, and the payload copied to [*buf] when data was received. *)
Definition ShipConnectionTranslateQueueMessage (m : ShipConnectionQueueMessage)
    : Prog St (EebusError * option MessageBuffer) :=
  branch (λ s, bool_decide (trust_decision (sc s) ≠ kShipConnectionTrustDecisionNone))
    (mret (kEebusErrorNoChange, None))
    (mret match qtype m with
          | kShipConnectionQueueMsgTypeDataReceived => (kEebusErrorOk, Some (qbuf m))
          | kShipConnectionQueueMsgTypeTimeout => (kEebusErrorTime, None)
          | kShipConnectionQueueMsgTypeCancel => (kEebusErrorDeactivate, None)
          | kShipConnectionQueueMsgTypeWebsocketError => (kEebusErrorCommunication, None)
          | kShipConnectionQueueMsgTypeWebsocketClose => (kEebusErrorCommunicationEnd, None)
          | _ => (kEebusErrorInputType, None)
          end).

(** Every caller passes [&self->msg] as the buffer. *)
Definition ShipConnectionReceive (timeout : Z) : Prog St EebusError :=
  r ← ShipConnectionWaitForMessage timeout;
  match r with
  | (kEebusErrorOk, Some m) =>
      t ← ShipConnectionTranslateQueueMessage m;
      match t.2 with Some buf => upd (set_msg buf) | None => mret tt end;;
      mret t.1
  | (e, _) => mret e
  end.

Definition ShipConnectionEvaluateInitMsg (buf : MessageBuffer) : bool :=
  match buf with
  | Some [b0; b1] => bool_decide (b0 = x00) && bool_decide (b1 = x00)
  | _ => false
  end.

Definition MessageBufferRelease_msg : Prog St unit := upd (set_msg None).

(** ** SME "hello" *)

Definition SmeHelloStateSendHelloMsg (phase : ConnectionHelloPhase) (wait_duration : Z)
    (prolongation : bool) : Prog St EebusError :=
  ShipConnectionSerializeAndSendMessage
    (VHello (mkHello phase
               (if bool_decide (wait_duration > 0) then Some wait_duration else None)
               (if prolongation then Some true else None))).

Definition SmeHelloStateReadyInit : Prog St unit :=
  EEBUS_TIMER_STOP SendProlongationRequest;;
  EEBUS_TIMER_STOP ProlongationRequestReply;;
  err ← SmeHelloStateSendHelloMsg kConnectionHelloPhaseReady tHelloInit false;
  if negb (is_ok err) then ShipConnectionSetSmeState kSmeHelloStateAbort
  else
    branch (λ s, remote_hello_ready (sc s))
      (ShipConnectionSetSmeState kSmeHelloStateOk)
      (ShipConnectionSetSmeState kSmeHelloStateReadyListen).

Definition SmeHelloStateCommonUpdateHelloMessageSendProcedure (m : ConnectionHello)
    : Prog St unit :=
  st ← EEBUS_TIMER_GET_TIMER_STATE WaitForReady;
  remaining_time ← (if bool_decide (st = kEebusTimerStateRunning)
                    then EEBUS_TIMER_GET_REMAINING_TIME WaitForReady else mret 0);
  err ← SmeHelloStateSendHelloMsg (hello_phase m) remaining_time false;
  if is_ok err then mret tt else ShipConnectionSetSmeState kSmeHelloStateAbort.

Definition SmeHelloStateCommonProlongationRequestAndUpdateMessageSendProcedure
    (m : ConnectionHello) : Prog St unit :=
  match prolongation_request m with
  | Some true =>
      remaining ← EEBUS_TIMER_GET_REMAINING_TIME WaitForReady;
      EEBUS_TIMER_START WaitForReady (u32 (remaining + tHelloInc));;
      SmeHelloStateCommonUpdateHelloMessageSendProcedure m
  | _ => mret tt
  end.

Definition SmeHelloStateAbort : Prog St unit :=
  SmeHelloStateSendHelloMsg kConnectionHelloPhaseAborted 0 false;;
  ShipConnectionCloseWithError "SME Hello state connection aborted".

Definition SmeHelloReadyStateEvaluateReceivedHelloMessage : Prog St unit :=
  buf ← rd msg;
  let deserialize := ShipMessageDeserializeCreate buf in
  if bool_decide (value_type deserialize ≠ kSmeHello)
  then ShipConnectionSetSmeState kSmeHelloStateAbort;; MessageBufferRelease_msg
  else
    match hello_of (value deserialize) with
    | Some sme_hello =>
        match hello_phase sme_hello with
        | kConnectionHelloPhaseReady => ShipConnectionSetSmeState kSmeHelloStateOk
        | kConnectionHelloPhasePending =>
            SmeHelloStateCommonProlongationRequestAndUpdateMessageSendProcedure sme_hello
        | kConnectionHelloPhaseAborted => ShipConnectionSetSmeState kSmeHelloStateAbort
        end
    | None => SmeHelloStateAbort
    end;;
    MessageBufferRelease_msg.

Definition SmeHelloStateReadyListen : Prog St unit :=
  error ← ShipConnectionReceive tHelloInit;
  match error with
  | kEebusErrorOk => SmeHelloReadyStateEvaluateReceivedHelloMessage
  | kEebusErrorTime => ShipConnectionSetSmeState kSmeHelloStateReadyTimeout
  | _ => ShipConnectionSetSmeState kSmeHelloStateAbort
  end.

Definition SmeHelloStatePendingInit : Prog St unit :=
  EEBUS_TIMER_STOP SendProlongationRequest;;
  EEBUS_TIMER_STOP ProlongationRequestReply;;
  err ← SmeHelloStateSendHelloMsg kConnectionHelloPhasePending tHelloInit false;
  if is_ok err then ShipConnectionSetSmeState kSmeHelloStatePendingListen
  else ShipConnectionSetSmeState kSmeHelloStateAbort.

Definition ShipConnectionSetWaitingValue (w : Z) : Prog St unit :=
  upd (set_last_received_waiting_value w).

(** [*msg->waiting], read through a pointer that may be NULL. *)
Definition SmeHelloCalculateNewWaitValueAndSetTimer (m : ConnectionHello) : Prog St unit :=
  match waiting m with
  | None => crash "NULL waiting"
  | Some w =>
      ShipConnectionSetWaitingValue w;;
      if bool_decide (tHelloProlongThrInc <= w)
      then
        let new_wait_duration := u32 (w - tHelloProlongWaitingGap) in
        if bool_decide (tHelloProlongMin <= new_wait_duration)
        then EEBUS_TIMER_START SendProlongationRequest new_wait_duration
        else EEBUS_TIMER_STOP SendProlongationRequest
      else EEBUS_TIMER_STOP SendProlongationRequest
  end.

Definition SmeHelloStateCheckWaitAndProlongationRequestSubelements (m : ConnectionHello)
    : Prog St unit :=
  match waiting m, prolongation_request m with
  | Some _, None =>
      EEBUS_TIMER_STOP ProlongationRequestReply;;
      SmeHelloCalculateNewWaitValueAndSetTimer m
  | _, _ => SmeHelloStateCommonProlongationRequestAndUpdateMessageSendProcedure m
  end.

Definition SmeHelloStateCheckWaitingSubelement (m : ConnectionHello) : Prog St unit :=
  match waiting m with
  | Some _ =>
      EEBUS_TIMER_STOP WaitForReady;;
      EEBUS_TIMER_STOP ProlongationRequestReply;;
      SmeHelloCalculateNewWaitValueAndSetTimer m
  | None => ShipConnectionSetSmeState kSmeHelloStateAbort
  end.

Definition SmeHelloPendingStateEvaluateReceivedHelloMessage : Prog St unit :=
  buf ← rd msg;
  let deserialize := ShipMessageDeserializeCreate buf in
  if bool_decide (value_type deserialize ≠ kSmeHello)
  then ShipConnectionSetSmeState kSmeHelloStateAbort;; MessageBufferRelease_msg
  else
    match hello_of (value deserialize) with
    | Some sme_hello =>
        match hello_phase sme_hello with
        | kConnectionHelloPhaseReady =>
            upd (set_remote_hello_ready true);;
            SmeHelloStateCheckWaitingSubelement sme_hello
        | kConnectionHelloPhasePending =>
            SmeHelloStateCheckWaitAndProlongationRequestSubelements sme_hello
        | kConnectionHelloPhaseAborted => ShipConnectionSetSmeState kSmeHelloStateAbort
        end
    | None => SmeHelloStateAbort
    end;;
    MessageBufferRelease_msg.

Definition SmeHelloStatePendingListen : Prog St unit :=
  error ← ShipConnectionReceive tHelloInit;
  match error with
  | kEebusErrorOk => SmeHelloPendingStateEvaluateReceivedHelloMessage
  | kEebusErrorNoChange =>
      decision ← rd trust_decision;
      id ← rd trust_decision_id;
      ctx ← rd trust_accept_ctx;
      cb ← rd trust_accept_cb;
      upd (set_trust_decision kShipConnectionTrustDecisionNone);;
      upd (set_trust_decision_id 0);;
      upd (set_trust_accept_cb None);;
      upd (set_trust_accept_ctx 0%nat);;
      if bool_decide (decision = kShipConnectionTrustDecisionGranted)
      then
        accepted ← match cb with
                   | Some f => call_accept_cb f id ctx
                   | None => mret (bool_decide (id = 0))
                   end;
        if negb accepted then ShipConnectionSetSmeState kSmeHelloStateAbort
        else
          EEBUS_TIMER_STOP SendProlongationRequest;;
          EEBUS_TIMER_STOP ProlongationRequestReply;;
          ShipConnectionSetSmeState kSmeHelloStateReadyInit
      else ShipConnectionSetSmeState kSmeHelloStateAbort
  | kEebusErrorTime => ShipConnectionSetSmeState kSmeHelloStatePendingTimeout
  | _ => ShipConnectionSetSmeState kSmeHelloStateAbort
  end.

Definition SmeHelloStatePendingTimeout : Prog St unit :=
  w ← EEBUS_TIMER_GET_TIMER_STATE WaitForReady;
  expired ← (if bool_decide (w = kEebusTimerStateExpired) then mret true
             else r ← EEBUS_TIMER_GET_TIMER_STATE ProlongationRequestReply;
                  mret (bool_decide (r = kEebusTimerStateExpired)));
  if (expired : bool) then ShipConnectionSetSmeState kSmeHelloStateAbort
  else
    p ← EEBUS_TIMER_GET_TIMER_STATE SendProlongationRequest;
    if bool_decide (p = kEebusTimerStateExpired)
    then
      err ← SmeHelloStateSendHelloMsg kConnectionHelloPhasePending 0 true;
      if negb (is_ok err) then ShipConnectionCloseWithError "Error sending hello message"
      else
        branch (λ s, bool_decide (last_received_waiting_value (sc s) = 0))
          (remaining ← EEBUS_TIMER_GET_REMAINING_TIME ProlongationRequestReply;
           ShipConnectionSetWaitingValue (times_1_1 remaining))
          (mret tt);;
        w ← rd last_received_waiting_value;
        EEBUS_TIMER_START ProlongationRequestReply w;;
        ShipConnectionSetSmeState kSmeHelloStatePendingListen
    else mret tt.

(** ** SME protocol handshake, PIN and access methods *)

Definition SmeProtHandshakeStateAbort (error : MessageProtocolHandshakeErrorType)
    : Prog St unit :=
  EEBUS_TIMER_STOP WaitForReady;;
  ret ← ShipConnectionSerializeAndSendMessage (VProtocolHandshakeError error);
  if negb (is_ok ret) then ShipConnectionCloseWithError "Error sending ship message"
  else
    ShipConnectionSetSmeState kSmeStateError;;
    ShipConnectionCloseWithError "Abort protocol handshake".

Definition SmePinStateCommonPinRequirementSendProcedure (node_pin_state : PinStateType)
    (node_input_permission : option PinInputPermissionType) : Prog St EebusError :=
  match node_pin_state with
  | kPinStateTypeNone | kPinStateTypePinOk =>
      ShipConnectionSerializeAndSendMessage (VPinState (mkPinState node_pin_state None))
  | _ =>
      match node_input_permission with
      | Some p =>
          ShipConnectionSerializeAndSendMessage (VPinState (mkPinState node_pin_state (Some p)))
      | None => mret kEebusErrorInputArgument
      end
  end.

Definition SmePinStateHandlePermissionType (req : option PinInputPermissionType) : Prog St unit :=
  match req with
  | None => ShipConnectionCloseWithError "node_pin_requirement is missing"
  | Some kPinInputPermissionTypeBusy => ShipConnectionSetSmeState kSmePinStateCheckBusyWait
  | Some kPinInputPermissionTypeOk => ShipConnectionSetSmeState kSmePinStateCheckListen
  end.

Definition SmePinStateCheckPinStateAndRequirement (node_pin_state : PinStateType)
    (req : option PinInputPermissionType) : Prog St unit :=
  match node_pin_state with
  | kPinStateTypeRequired => SmePinStateHandlePermissionType req
  | kPinStateTypeOptional => SmePinStateHandlePermissionType req
  | kPinStateTypePinOk | kPinStateTypeNone => ShipConnectionSetSmeState kSmePinStateCheckOk
  end.

Definition SmePinStateCheckInit : Prog St unit :=
  err ← SmePinStateCommonPinRequirementSendProcedure kPinStateTypeNone
          (Some kPinInputPermissionTypeOk);
  if negb (is_ok err) then ShipConnectionCloseWithError "Error sending PIN requirement message"
  else
    err ← ShipConnectionReceive cmiTimeout;
    if negb (is_ok err) then ShipConnectionCloseWithError "Error receiving pin requirement"
    else
      buf ← rd msg;
      let deserialize := ShipMessageDeserializeCreate buf in
      if bool_decide (value_type deserialize ≠ kSmeConnectionPinState)
      then ShipConnectionSetSmeState kSmeHelloStateAbort;; MessageBufferRelease_msg
      else
        match pin_state_of (value deserialize) with
        | Some p => SmePinStateCheckPinStateAndRequirement (pin_state p) (input_permission p)
        | None => ShipConnectionSetSmeState kSmeHelloStateAbort
        end;;
        MessageBufferRelease_msg.

Definition SmePinStateCheckListen : Prog St unit :=
  error ← ShipConnectionReceive tHelloInit;
  if negb (is_ok error)
  then ShipConnectionCloseWithError "SmePinStateCheckListen: Error receiving SHIP message"
  else
    buf ← rd msg;
    let deserialize := ShipMessageDeserializeCreate buf in
    if bool_decide (value_type deserialize ≠ kSmeConnectionPinState)
    then ShipConnectionCloseWithError "Error deserializing PIN message";; MessageBufferRelease_msg
    else
      match pin_state_of (value deserialize) with
      | Some p =>
          match pin_state p with
          | kPinStateTypeNone => ShipConnectionSetSmeState kSmePinStateCheckOk
          | kPinStateTypeRequired =>
              ShipConnectionCloseWithError "Unsupported PIN state: required"
          | kPinStateTypeOptional =>
              ShipConnectionCloseWithError "Unsupported PIN state: optional"
          | kPinStateTypePinOk => ShipConnectionCloseWithError "Unsupported PIN state: ok"
          end
      | None => ShipConnectionCloseWithError "Error deserializing PIN message"
      end;;
      MessageBufferRelease_msg.

(** ** Access methods and data exchange *)

Definition SmeHandshakeAccessMethodsInit : Prog St unit :=
  error ← ShipConnectionSerializeAndSendMessage VAccessMethodsRequest;
  if negb (is_ok error)
  then ShipConnectionCloseWithError
         "SmeAccessMethodsRequest: Error sending kSmeConnectionAccessMethodsRequest message"
  else EEBUS_TIMER_START WaitForReady cmiTimeout.

Definition SmeHandshakeAccessMethodsRequestHandle : Prog St EebusError :=
  id ← rd local_ship_id;
  ShipConnectionSerializeAndSendMessage (VAccessMethods (mkAccessMethods (Some id) false None)).

Definition SmeHandshakeAccessMethodsCheckMessageVal (deserialize : ShipMessageDeserialize)
    : Prog St bool :=
  match access_methods_of (value deserialize) with
  | None => mret false
  | Some access_msg_val =>
      match access_id access_msg_val with
      | None => mret false
      | Some id =>
          remote ← rd remote_ship_id;
          if negb (StringIsEmpty remote)
          then
            let remote := default EmptyString remote in
            mret (StringNCompare remote id (String.length remote))
          else
            upd (set_remote_ship_id (Some id));;
            mret true
      end
  end.

Definition SmeHandshakeAccessMethodsHandle (deserialize : ShipMessageDeserialize)
    : Prog St EebusError :=
  EEBUS_TIMER_STOP WaitForReady;;
  ok ← SmeHandshakeAccessMethodsCheckMessageVal deserialize;
  if negb ok then mret kEebusErrorCommunication
  else
    id ← rd remote_ship_id;
    emit (OReportShipId id);;
    mret kEebusErrorOk.

Definition SmeStateApproved : Prog St unit :=
  reader ← INFO_PROVIDER_SETUP_REMOTE_DEVICE;
  upd (set_data_reader reader);;
  EEBUS_TIMER_STOP WaitForReady;;
  ShipConnectionSetSmeState kDataExchange.

Definition DataExchangeHandleClose (sme_close : ConnectionClose) : Prog St EebusError :=
  match close_phase sme_close with
  | kConnectionClosePhaseTypeAnnounce =>
      ShipConnectionSerializeAndSendMessage
        (VClose (mkClose kConnectionClosePhaseTypeConfirm None None));;
      emit (OSleep 500000);;
      WEBSOCKET_CLOSE 4001 (Some "close"%string)
  | kConnectionClosePhaseTypeConfirm => WEBSOCKET_CLOSE 4001 (Some "close"%string)
  end;;
  EEBUS_TIMER_STOP WaitForReady;;
  EEBUS_TIMER_STOP SendProlongationRequest;;
  EEBUS_TIMER_STOP ProlongationRequestReply;;
  upd (set_cancel true);;
  upd (set_shutdown_once true);;
  emit (OConnectionClosed true);;
  mret kEebusErrorOk.

Definition DataExchangeHandleReceive (buf : MessageBuffer) : Prog St EebusError :=
  let deserialize := ShipMessageDeserializeCreate buf in
  match value_type deserialize with
  | kData =>
      match data_of (value deserialize) with
      | Some d => DATA_READER_HANDLE_MESSAGE (payload d);; mret kEebusErrorOk
      | None => mret kEebusErrorParse
      end
  | kSmeConnectionAccessMethodsRequest => SmeHandshakeAccessMethodsRequestHandle
  | kSmeConnectionAccessMethods => SmeHandshakeAccessMethodsHandle deserialize
  | kSmeClose =>
      match close_of (value deserialize) with
      | Some c => DataExchangeHandleClose c
      | None => mret kEebusErrorParse
      end
  | _ => mret kEebusErrorCommunication
  end.

Definition DataExchangeHandleSendSpineData (buf : MessageBuffer) : Prog St EebusError :=
  ShipConnectionSerializeAndSendMessage (VData (mkData SHIP_PROTOCOL_ID buf)).

Definition DataExchangeHandle : Prog St EebusError :=
  r ← EEBUS_QUEUE_RECEIVE;
  match r with
  | (kEebusErrorOk, Some queue_msg) =>
      match qtype queue_msg with
      | kShipConnectionQueueMsgTypeDataReceived => DataExchangeHandleReceive (qbuf queue_msg)
      | kShipConnectionQueueMsgTypeSpineDataToSend =>
          DataExchangeHandleSendSpineData (qbuf queue_msg)
      | kShipConnectionQueueMsgTypeCancel => mret kEebusErrorDeactivate
      | kShipConnectionQueueMsgTypeTimeout => mret kEebusErrorCommunication
      | kShipConnectionQueueMsgTypeWebsocketClose =>
          CloseConnection true 0 None;;
          mret kEebusErrorCommunicationEnd
      | kShipConnectionQueueMsgTypeWebsocketError => mret kEebusErrorCommunication
      | _ => mret kEebusErrorInputType
      end
  | (e, _) => mret e
  end.

Definition DataExchange : Prog St unit :=
  branch (λ s, negb (is_access_methods_req_sent (sc s)))
    (SmeHandshakeAccessMethodsInit;;
     upd (set_is_access_methods_req_sent true))
    (mret tt);;
  err ← DataExchangeHandle;
  if negb (is_ok err)
  then ShipConnectionCloseWithError "kDataExchange: data exchange failed"
  else mret tt.
End ship_connection.
