(* ===== verification/ShipHandshake.v ===== *)
(** * The SHIP handshake: client, server and the connection thread

    [src/ship/ship_connection/client.c], [server.c], and [HandleState] and
    [ShipConnectionLoop] of [ship_connection.c]. *)

From S2P Require Import Prelude Queue Timer ShipTypes ShipState ShipConnection.

Local Open Scope Z_scope.

Section ship_handshake.
Context `{ShipEnv, ShipCodec}.

(** [EebusThreadSleep] takes seconds. *)
Definition EebusThreadSleep (seconds : Z) : Prog St unit := emit (OSleep (seconds * 1000000)).

(** What both roles do in the state [kSmeHelloState]. *)
Definition SmeHelloEnter : Prog St unit :=
  paired ← INFO_PROVIDER_IS_REMOTE_SERVICE_FOR_SKI_PAIRED;
  if (paired : bool) then ShipConnectionSetSmeState kSmeHelloStateReadyInit
  else ShipConnectionSetSmeState kSmeHelloStatePendingInit.

(** ** Client *)

Definition CmiStateClientSend : Prog St unit :=
  ret ← ShipConnectionSend (Some kShipInitMessage);
  if is_ok ret then ShipConnectionSetSmeState kCmiStateClientWait
  else ShipConnectionCloseWithError "CMI client send failed".

Definition CmiStateClientWait : Prog St unit :=
  ret ← ShipConnectionReceive cmiTimeout;
  if is_ok ret then ShipConnectionSetSmeState kCmiStateClientEvaluate
  else ShipConnectionCloseWithError "CMI client wait failed".

Definition CmiStateClientEvaluate : Prog St unit :=
  buf ← rd msg;
  (if ShipConnectionEvaluateInitMsg buf
   then ShipConnectionSetSmeState kSmeHelloState
   else ShipConnectionCloseWithError "Invalid init message received");;
  MessageBufferRelease_msg.

Definition SmeProtHandshakeStateClientInit : Prog St unit :=
  EEBUS_TIMER_STOP WaitForReady;;
  ret ← ShipConnectionSerializeAndSendMessage
          (VProtocolHandshake
             (mkProtHs kProtocolHandshakeTypeAnnounceMax
                SHIP_PROTOCOL_MAX_SUPPORTED_MAJOR_VERSION
                SHIP_PROTOCOL_MAX_SUPPORTED_MINOR_VERSION
                [kMessageProtocolFormatTypeUTF8]));
  if negb (is_ok ret)
  then ShipConnectionCloseWithError "Error serializing protocol handshake ship message"
  else ShipConnectionSetSmeState kSmeProtHStateClientListenChoice.

Definition SmeProtHandshakeStateMessageCheck (sme_prot_hs : MessageProtocolHandshake) : bool :=
  if bool_decide (handshake_type sme_prot_hs ≠ kProtocolHandshakeTypeSelect) then false
  else if bool_decide (version_major sme_prot_hs ≠ SHIP_PROTOCOL_MAX_SUPPORTED_MAJOR_VERSION)
  then false
  else if bool_decide (version_minor sme_prot_hs ≠ SHIP_PROTOCOL_MAX_SUPPORTED_MINOR_VERSION)
  then false
  else
    match formats sme_prot_hs with
    | [] => false
    | f :: _ => if bool_decide (f ≠ kMessageProtocolFormatTypeUTF8) then false else true
    end.

Definition SmeProtHandshakeStateSendMaximumSupportedShipVersion : Prog St EebusError :=
  ShipConnectionSerializeAndSendMessage
    (VProtocolHandshake
       (mkProtHs kProtocolHandshakeTypeSelect
          SHIP_PROTOCOL_MAX_SUPPORTED_MAJOR_VERSION
          SHIP_PROTOCOL_MAX_SUPPORTED_MINOR_VERSION
          [kMessageProtocolFormatTypeUTF8])).

Definition SmeProtHandshakeStateClientListenChoice : Prog St unit :=
  ret ← ShipConnectionReceive cmiTimeout;
  if negb (is_ok ret)
  then SmeProtHandshakeStateAbort kMessageProtocolHandshakeErrorTypeUnexpectedMessage
  else
    buf ← rd msg;
    match prot_hs_of (value (ShipMessageDeserializeCreate buf)) with
    | Some sme_prot_hs =>
        EEBUS_TIMER_STOP WaitForReady;;
        if negb (SmeProtHandshakeStateMessageCheck sme_prot_hs)
        then
          MessageBufferRelease_msg;;
          SmeProtHandshakeStateAbort kMessageProtocolHandshakeErrorTypeSelectionMismatch
        else
          ret ← SmeProtHandshakeStateSendMaximumSupportedShipVersion;
          if negb (is_ok ret)
          then
            MessageBufferRelease_msg;;
            ShipConnectionCloseWithError "Error serializing protocol handshake ship message"
          else
            ShipConnectionSetSmeState kSmeProtHStateClientOk;;
            MessageBufferRelease_msg
    | None =>
        SmeProtHandshakeStateAbort kMessageProtocolHandshakeErrorTypeUnexpectedMessage;;
        MessageBufferRelease_msg
    end.

Definition ClientHandleState : Prog St unit :=
  state ← rd sme_state;
  match state with
  | kCmiStateClientSend => CmiStateClientSend
  | kCmiStateClientWait => CmiStateClientWait
  | kCmiStateClientEvaluate => CmiStateClientEvaluate
  | kSmeHelloState => SmeHelloEnter
  | kSmeHelloStateReadyInit => SmeHelloStateReadyInit
  | kSmeHelloStateReadyListen => SmeHelloStateReadyListen
  | kSmeHelloStateReadyTimeout => SmeHelloStateAbort
  | kSmeHelloStatePendingInit => SmeHelloStatePendingInit
  | kSmeHelloStatePendingListen => SmeHelloStatePendingListen
  | kSmeHelloStatePendingTimeout => SmeHelloStatePendingTimeout
  | kSmeHelloStateOk => ShipConnectionSetSmeState kSmeProtHStateClientInit
  | kSmeHelloStateAbort | kSmeHelloStateAbortDone | kSmeHelloStateRemoteAbortDone
  | kSmeHelloStateRejected => SmeHelloStateAbort
  | kSmeProtHStateClientInit => SmeProtHandshakeStateClientInit
  | kSmeProtHStateClientListenChoice => SmeProtHandshakeStateClientListenChoice
  | kSmeProtHStateClientOk => ShipConnectionSetSmeState kSmePinStateCheckInit
  | kSmePinStateCheckInit => SmePinStateCheckInit
  | kSmePinStateCheckListen => SmePinStateCheckListen
  | kSmePinStateCheckBusyWait => ShipConnectionSetSmeState kSmePinStateCheckListen
  | kSmePinStateCheckOk => ShipConnectionSetSmeState kSmeStateApproved
  | kSmeAccessMethodsRequest => mret tt
  | kSmeStateApproved => SmeStateApproved
  | kDataExchange => DataExchange
  | kSmeStateError => mret tt
  | _ => EebusThreadSleep 10
  end.

(** ** Server *)

Definition CmiStateServerWait : Prog St unit :=
  ret ← ShipConnectionReceive cmiTimeout;
  if is_ok ret then ShipConnectionSetSmeState kCmiStateServerEvaluate
  else ShipConnectionCloseWithError "CMI server wait failed".

Definition CmiStateServerEvaluate : Prog St unit :=
  buf ← rd msg;
  if negb (ShipConnectionEvaluateInitMsg buf)
  then MessageBufferRelease_msg;; ShipConnectionCloseWithError "Invalid init message received"
  else
    ret ← ShipConnectionSend (Some kShipInitMessage);
    if negb (is_ok ret)
    then MessageBufferRelease_msg;;
         ShipConnectionCloseWithError "Server CMI message send failed"
    else ShipConnectionSetSmeState kSmeHelloState;; MessageBufferRelease_msg.

Definition SmeProtHandshakeStateServerInit : Prog St unit :=
  EEBUS_TIMER_STOP WaitForReady;;
  ShipConnectionSetSmeState kSmeProtHStateServerListenProposal.

Definition SmeProtHandshakeStateSendAgreementMessage (major minor : Z) : Prog St EebusError :=
  ShipConnectionSerializeAndSendMessage
    (VProtocolHandshake
       (mkProtHs kProtocolHandshakeTypeSelect major minor [kMessageProtocolFormatTypeUTF8])).

(** The agreed version, [None] for [false]; the parameters are [uint8_t]. *)
Definition SmeProtHandshakeStateAgreeOnProtocolVersion (sme_prot_hs : MessageProtocolHandshake)
    : option (Z * Z) :=
  if bool_decide (version_major sme_prot_hs <= SHIP_PROTOCOL_MAX_SUPPORTED_MAJOR_VERSION)
     && bool_decide (version_minor sme_prot_hs <= SHIP_PROTOCOL_MAX_SUPPORTED_MINOR_VERSION)
  then Some (u8 (version_major sme_prot_hs), u8 (version_minor sme_prot_hs))
  else None.

Definition SmeProtHandshakeStateServerListenProposal : Prog St unit :=
  ret ← ShipConnectionReceive cmiTimeout;
  if negb (is_ok ret)
  then SmeProtHandshakeStateAbort kMessageProtocolHandshakeErrorTypeUnexpectedMessage
  else
    buf ← rd msg;
    match prot_hs_of (value (ShipMessageDeserializeCreate buf)) with
    | Some msg_value =>
        EEBUS_TIMER_STOP WaitForReady;;
        if bool_decide (handshake_type msg_value ≠ kProtocolHandshakeTypeAnnounceMax)
        then
          MessageBufferRelease_msg;;
          SmeProtHandshakeStateAbort kMessageProtocolHandshakeErrorTypeUnexpectedMessage
        else
          match SmeProtHandshakeStateAgreeOnProtocolVersion msg_value with
          | None =>
              MessageBufferRelease_msg;;
              SmeProtHandshakeStateAbort kMessageProtocolHandshakeErrorTypeSelectionMismatch
          | Some (major, minor) =>
              ret ← SmeProtHandshakeStateSendAgreementMessage major minor;
              if negb (is_ok ret)
              then
                MessageBufferRelease_msg;;
                ShipConnectionCloseWithError
                  "Error serializing protocol handshake ship message"
              else
                ShipConnectionSetSmeState kSmeProtHStateServerListenConfirm;;
                MessageBufferRelease_msg
          end
    | None =>
        SmeProtHandshakeStateAbort kMessageProtocolHandshakeErrorTypeUnexpectedMessage;;
        MessageBufferRelease_msg
    end.

Definition SmeProtHandshakeStateServerListenConfirm : Prog St unit :=
  ret ← ShipConnectionReceive cmiTimeout;
  if negb (is_ok ret)
  then SmeProtHandshakeStateAbort kMessageProtocolHandshakeErrorTypeUnexpectedMessage
  else
    buf ← rd msg;
    match prot_hs_of (value (ShipMessageDeserializeCreate buf)) with
    | Some sme_prot_hs =>
        if bool_decide (handshake_type sme_prot_hs ≠ kProtocolHandshakeTypeSelect)
        then
          MessageBufferRelease_msg;;
          SmeProtHandshakeStateAbort kMessageProtocolHandshakeErrorTypeSelectionMismatch
        else
          EEBUS_TIMER_STOP WaitForReady;;
          ShipConnectionSetSmeState kSmeProtHStateServerOk;;
          MessageBufferRelease_msg
    | None =>
        SmeProtHandshakeStateAbort kMessageProtocolHandshakeErrorTypeSelectionMismatch;;
        MessageBufferRelease_msg
    end.

Definition ServerHandleState : Prog St unit :=
  state ← rd sme_state;
  match state with
  | kCmiStateServerWait => CmiStateServerWait
  | kCmiStateServerEvaluate => CmiStateServerEvaluate
  | kSmeHelloState => SmeHelloEnter
  | kSmeHelloStateReadyInit => SmeHelloStateReadyInit
  | kSmeHelloStateReadyListen => SmeHelloStateReadyListen
  | kSmeHelloStateReadyTimeout => SmeHelloStateAbort
  | kSmeHelloStatePendingInit => SmeHelloStatePendingInit
  | kSmeHelloStatePendingListen => SmeHelloStatePendingListen
  | kSmeHelloStatePendingTimeout => SmeHelloStatePendingTimeout
  | kSmeHelloStateOk => ShipConnectionSetSmeState kSmeProtHStateServerInit
  | kSmeHelloStateAbort | kSmeHelloStateAbortDone | kSmeHelloStateRemoteAbortDone
  | kSmeHelloStateRejected => SmeHelloStateAbort
  | kSmeProtHStateServerInit => SmeProtHandshakeStateServerInit
  | kSmeProtHStateServerListenProposal => SmeProtHandshakeStateServerListenProposal
  | kSmeProtHStateServerListenConfirm => SmeProtHandshakeStateServerListenConfirm
  | kSmeProtHStateServerOk => ShipConnectionSetSmeState kSmePinStateCheckInit
  | kSmePinStateCheckInit => SmePinStateCheckInit
  | kSmePinStateCheckListen => SmePinStateCheckListen
  | kSmePinStateCheckBusyWait => ShipConnectionSetSmeState kSmePinStateCheckListen
  | kSmePinStateCheckOk => ShipConnectionSetSmeState kSmeStateApproved
  | kSmeAccessMethodsRequest => mret tt
  | kSmeStateApproved => SmeStateApproved
  | kDataExchange => DataExchange
  | kSmeStateError => mret tt
  | _ => EebusThreadSleep 10
  end.

(** ** The connection thread *)

Definition HandleState : Prog St unit :=
  r ← rd role;
  match r with
  | kShipRoleClient => ClientHandleState
  | kShipRoleServer => ServerHandleState
  | _ => mret tt
  end.

(** [ShipConnectionLoop] for at most [n] rounds. *)
Fixpoint ShipConnectionLoop (n : nat) : Prog St unit :=
  match n with
  | O => mret tt
  | S n' =>
      branch (λ s, negb (cancel (sc s)) && negb (shutdown_once (sc s)))
        (HandleState;; ShipConnectionLoop n')
        (mret tt)
  end.
End ship_handshake.
