(* ===== verification/ShipReach.v ===== *)
(** * What the connection thread's calls can change

    The handshake depends on a few fields of the connection ([Core]) and is
    visible through a few calls ([key] events).  [Reach s0 k c s]: between [s0]
    and [s] the key events [k] happened, the core is [c], and the message
    queue is a FIFO whose approvals are all justified by the trace.  Every call
    of the connection thread gets a rule on [Reach]; in particular the
    synchronisation points, where the other threads run, are [quiet]. *)

From S2P Require Import Prelude Queue Timer ShipTypes ShipState ShipConnection.

Record Core := mkCore {
  c_role : ShipRole;
  c_state : SmeState;
  c_closed : bool;
  c_websocket : bool;
  c_reader : option nat;
  c_decision : ShipConnectionTrustDecision;
  c_decision_id : Z;
  c_decision_cb : option nat;
  c_req_sent : bool;
}.

Definition conn_core (c : ShipConnection) : Core :=
  mkCore (role c) (sme_state c) (shutdown_once c) (websocket c) (data_reader c)
    (trust_decision c) (trust_decision_id c) (trust_accept_cb c) (is_access_methods_req_sent c).
Definition core (s : St) : Core := conn_core (sc s).

Definition with_state (x : SmeState) (c : Core) : Core :=
  mkCore (c_role c) x (c_closed c) (c_websocket c) (c_reader c) (c_decision c) (c_decision_id c)
    (c_decision_cb c) (c_req_sent c).
Definition with_closed (c : Core) : Core :=
  mkCore (c_role c) (c_state c) true (c_websocket c) (c_reader c) (c_decision c)
    (c_decision_id c) (c_decision_cb c) (c_req_sent c).
Definition with_reader (r : option nat) (c : Core) : Core :=
  mkCore (c_role c) (c_state c) (c_closed c) (c_websocket c) r (c_decision c)
    (c_decision_id c) (c_decision_cb c) (c_req_sent c).
Definition with_decision (d : ShipConnectionTrustDecision) (i : Z) (cb : option nat) (c : Core)
    : Core :=
  mkCore (c_role c) (c_state c) (c_closed c) (c_websocket c) (c_reader c) d i cb (c_req_sent c).
Definition with_req_sent (c : Core) : Core :=
  mkCore (c_role c) (c_state c) (c_closed c) (c_websocket c) (c_reader c) (c_decision c)
    (c_decision_id c) (c_decision_cb c) true.

(** The events that show the course of the handshake. *)
Definition key (o : Out) : bool :=
  match o with
  | OStateUpdate _ | OIsPaired _ | OAcceptCallback _ _ _ | OSetupRemoteDevice
  | OConnectionClosed _ | OHandleMessage _ => true
  | OReportShipId _ | OWebsocketWrite _ | OWebsocketClose _ _ | OSleep _ | OApprove => false
  end.

Definition keys (t : list Out) : list Out := filter (λ o, key o = true) t.

Lemma keys_app t1 t2 : keys (t1 ++ t2) = keys t1 ++ keys t2.
Proof. apply filter_app. Qed.

(** A grant without a callback in the queue stems from an approval. *)
Definition good (t : list Out) (m : ShipConnectionQueueMessage) : Prop :=
  qtype m = kShipConnectionQueueMsgTypeTrustGranted → accept_cb m = None → OApprove ∈ t.

Lemma good_mono t t' m : good t m → good (t' ++ t) m.
Proof. intros H ? ?. apply elem_of_app. right. by apply H. Qed.

(** At most [n] messages wait, all of them good. *)
Definition queue_ok (t : list Out) (n : nat) (c : ShipConnection) : Prop :=
  ∃ q l, msg_queue c = Some q ∧ open_fifo kQueueMaxMsg q l ∧ Forall (good t) l ∧ length l ≤ n.

Lemma queue_ok_mono t t' n n' c : n ≤ n' → queue_ok t n c → queue_ok (t' ++ t) n' c.
Proof.
  intros Hn (q & l & Hq & Hl & Hg & Hle). exists q, l. split_and!; [done|done| |lia].
  eapply Forall_impl; [exact Hg|]. intros m. apply good_mono.
Qed.

Lemma queue_ok_ext t n c c' : msg_queue c' = msg_queue c → queue_ok t n c → queue_ok t n c'.
Proof. intros E. unfold queue_ok. by rewrite E. Qed.

Lemma queue_ok_cap t n c : queue_ok t n c → queue_ok t kQueueMaxMsg c.
Proof.
  intros (q & l & Hq & Hl & Hg & _). exists q, l. split_and!; try done.
  destruct Hl as ([Hc _ _] & _ & <-). apply Hc.
Qed.

(** ** The other threads *)

(** An entry point adds at most one message and leaves the core alone. *)
Definition posts {A} (t : list Out) (m : Prog ShipConnection A) : Prop :=
  ∀ n c, queue_ok t n c →
    match m c with
    | Ret _ c' | Block c' => conn_core c' = conn_core c ∧ queue_ok t (S n) c'
    | Crash _ => True
    end.

Lemma queue_send_posts t m : good t m → posts t (queue_send m).
Proof.
  intros Hm n c (q & l & Hq & Hl & Hg & Hle). unfold queue_send. rewrite Hq.
  destruct (Send_spec kQueueMaxMsg q l m kTimeoutInfinite Hl) as (a & q' & Hans & _ & Hq').
  destruct (Queue.Send _ _ q) as [e q1|q1|why]; simpl in Hans; [| |done];
    (injection Hans as <- <-; split; [done|];
     eexists _, _; split; [reflexivity|]; split; [exact Hq'|]; simpl;
     case_bool_decide; simpl;
     [rewrite length_app; simpl; split; [apply Forall_app; auto|lia] | split; [done|lia]]).
Qed.

Lemma posts_mret {A} t (a : A) : posts t (mret a).
Proof. intros n c H. split; [done|]. by apply (queue_ok_mono t [] n (S n)); [lia|]. Qed.

Lemma posts_branch {A} t b (m1 m2 : Prog ShipConnection A) :
  posts t m1 → posts t m2 → posts t (branch b m1 m2).
Proof. intros H1 H2 n c H. unfold branch. destruct (b c); [by apply H1|by apply H2]. Qed.

Lemma good_plain t ty buf :
  ty ≠ kShipConnectionQueueMsgTypeTrustGranted → good t (qmsg ty buf).
Proof. intros H E. done. Qed.

Lemma timer_wakes_posts t now tm : posts t (timer_wakes now tm).
Proof.
  intros n c H. unfold timer_wakes.
  destruct (Timer.Wake now (get_timer tm c)) as [t' fired]. destruct fired.
  - pose proof (queue_send_posts t (qmsg kShipConnectionQueueMsgTypeTimeout None)
      ltac:(by apply good_plain) n c H) as Hp.
    unfold ShipConnectionTimeoutCallback. destruct (queue_send _ c) as [e c'|c'|]; [|done|done].
    destruct Hp as [<- Hp]. split; [by destruct tm|].
    eapply queue_ok_ext; [|exact Hp]. by destruct tm.
  - split; [by destruct tm|]. eapply queue_ok_ext; [|apply (queue_ok_mono t [] n); [|exact H]; lia].
    by destruct tm.
Qed.

Lemma StopRequest_posts t : posts t StopRequest.
Proof.
  intros n c H. unfold StopRequest. unfold_prog.
  pose proof (queue_send_posts t (qmsg kShipConnectionQueueMsgTypeCancel None)
    ltac:(by apply good_plain) n (ShipState.set_cancel true c)) as Hp.
  apply Hp. eapply queue_ok_ext; [|exact H]. done.
Qed.

#[export] Hint Resolve posts_mret posts_branch queue_send_posts timer_wakes_posts StopRequest_posts
  good_plain : eebus.

Lemma run_on_sc_posts {A} (m : Prog ShipConnection A) s n :
  posts (trace s) m → queue_ok (trace s) n (sc s) →
  core (run_on_sc m s) = core s ∧ trace (run_on_sc m s) = trace s ∧
  queue_ok (trace s) (S n) (sc (run_on_sc m s)).
Proof.
  intros Hm H. specialize (Hm n (sc s) H). unfold run_on_sc.
  destruct (m (sc s)) as [a c'|c'|why]; [by destruct Hm|by destruct Hm|].
  split_and!; [done|done|]. by apply (queue_ok_mono _ [] n (S n)); [lia|].
Qed.

(** What the other threads do between two points of the connection thread. *)
Definition quiet (s s' : St) : Prop :=
  core s' = core s ∧ ∃ t, trace s' = t ++ trace s ∧ keys t = [].

#[export] Instance quiet_preorder : PreOrder quiet.
Proof.
  split.
  - intros s. split; [done|]. by exists [].
  - intros s1 s2 s3 [E1 (t1 & T1 & K1)] [E2 (t2 & T2 & K2)]. split; [congruence|].
    exists (t2 ++ t1). by rewrite T2, T1, keys_app, K1, K2, app_assoc.
Qed.

Lemma env_step_quiet e s n : queue_ok (trace s) n (sc s) →
  quiet s (env_step e s) ∧ queue_ok (trace (env_step e s)) (S n) (sc (env_step e s)).
Proof.
  intros H.
  assert (∀ A (m : Prog ShipConnection A), posts (trace s) m →
    quiet s (run_on_sc m s) ∧ queue_ok (trace (run_on_sc m s)) (S n) (sc (run_on_sc m s))) as Hrun.
  { intros A m Hm. destruct (run_on_sc_posts m s n Hm H) as (E & T & Hq).
    split; [split; [done|by exists []]|by rewrite T]. }
  assert (quiet s s ∧ queue_ok (trace s) (S n) (sc s)) as Hid.
  { split; [reflexivity|]. by apply (queue_ok_mono _ [] n (S n)); [lia|]. }
  destruct e as [ns|tm| |id cb ctx| |m|ty data| |]; simpl; try exact Hid; try apply Hrun.
  - auto with eebus.
  - destruct (run_on_sc_posts ApprovePendingHandshake
      (set_calls_trace (calls s) (OApprove :: trace s) s) n) as (E & T & Hq).
    + apply posts_branch; [apply posts_mret|]. apply queue_send_posts.
      intros _ _. apply list_elem_of_here.
    + by apply (queue_ok_mono (trace s) [OApprove] n n); [lia|].
    + split; [split; [exact E|]|by rewrite T].
      exists [OApprove]. by rewrite T.
  - unfold ShipConnectionApprovePendingHandshakeWithToken. destruct cb as [cb|]; [|apply posts_mret].
    apply posts_branch; [apply posts_mret|]. by apply queue_send_posts.
  - apply posts_branch; [apply posts_mret|]. by apply queue_send_posts.
  - apply queue_send_posts. by apply good_plain.
  - apply posts_branch; [apply posts_mret|].
    destruct ty; apply queue_send_posts; by apply good_plain.
  - apply StopRequest_posts.
Qed.

Lemma env_until_yield_quiet evs : ∀ s n, queue_ok (trace s) n (sc s) →
  quiet s (env_until_yield evs s) ∧
  ∃ n', queue_ok (trace (env_until_yield evs s)) n' (sc (env_until_yield evs s)) ∧
    n' + length (sched (env_until_yield evs s)) ≤ n + length evs.
Proof.
  induction evs as [|e evs IH]; intros s n H; simpl.
  - split; [split; [done|by exists []]|]. exists n. split; [exact H|simpl; lia].
  - destruct (env_step_quiet e s n H) as [Hquiet Hok].
    assert (quiet s (env_until_yield evs (env_step e s)) ∧
      ∃ n', queue_ok (trace (env_until_yield evs (env_step e s))) n'
              (sc (env_until_yield evs (env_step e s))) ∧
        n' + length (sched (env_until_yield evs (env_step e s))) ≤ n + S (length evs)) as Hgo.
    { destruct (IH _ _ Hok) as [Hq (n' & Hn' & Hle)]. split; [by etrans|]. exists n'. split; [done|lia]. }
    destruct e; try exact Hgo.
    split; [split; [done|by exists []]|]. exists n. split; [exact H|simpl; lia].
Qed.

Lemma env_until_message_quiet evs : ∀ s n, queue_ok (trace s) n (sc s) →
  quiet s (env_until_message evs s) ∧
  ∃ n', queue_ok (trace (env_until_message evs s)) n' (sc (env_until_message evs s)) ∧
    n' + length (sched (env_until_message evs s)) ≤ n + length evs.
Proof.
  induction evs as [|e evs IH]; intros s n H; simpl; destruct (message_waits (sc s)).
  1-3: split; [split; [done|by exists []]|]; exists n; split; [exact H|simpl; lia].
  destruct (env_step_quiet e s n H) as [Hquiet Hok].
  destruct (IH _ _ Hok) as [Hq (n' & Hn' & Hle)]. split; [by etrans|]. exists n'. split; [done|lia].
Qed.

(** ** Calls that are quiet *)

(** What holds at every point of the connection thread. *)
Definition ok (s : St) : Prop :=
  (∃ n, queue_ok (trace s) n (sc s)) ∧ websocket (sc s) = true.

Abbreviation quietly m := (keeps ok quiet m).

Lemma quiet_websocket s s' : quiet s s' → websocket (sc s') = websocket (sc s).
Proof. intros [E _]. by injection E. Qed.

(** A modification of fields outside the core and the queue. *)
Lemma quiet_upd f :
  (∀ c, conn_core (f c) = conn_core c ∧ msg_queue (f c) = msg_queue c) → quietly (upd f).
Proof.
  intros Hf s [(n & Hq) Hw]. destruct (Hf (sc s)) as [Hc Hm]. cbn.
  assert (quiet s (set_sc (f (sc s)) s)) as Hquiet by (split; [exact Hc|by exists []]).
  split; [|done]. split.
  - exists n. eapply queue_ok_ext; [exact Hm|exact Hq].
  - by rewrite (quiet_websocket _ _ Hquiet).
Qed.

Lemma quiet_emit o : key o = false → quietly (emit o).
Proof.
  intros Ho s [(n & Hq) Hw]. split.
  - split; [|done]. exists n. by apply (queue_ok_mono (trace s) [o] n n).
  - split; [done|]. exists [o]. split; [done|]. unfold keys. by rewrite filter_cons, Ho.
Qed.

Lemma quiet_next_call : quietly next_call.
Proof. intros s H. split; [exact H|]. split; [done|by exists []]. Qed.

Lemma quiet_sync : quietly sync.
Proof.
  intros s [(n & Hq) Hw]. destruct (env_until_yield_quiet (sched s) s n Hq) as [Hquiet (n' & Hn' & _)].
  cbn. split; [|done]. split; [by exists n'|]. by rewrite (quiet_websocket _ _ Hquiet).
Qed.

Lemma quiet_timer_start t ms : quietly (EEBUS_TIMER_START t ms).
Proof.
  apply keeps_bind; [apply _|apply quiet_sync|]. intros _ s [(n & Hq) Hw].
  cbn. split; [split|split; [|by exists []]]; try (by destruct t).
  exists n. eapply queue_ok_ext; [|exact Hq]. by destruct t.
Qed.

Lemma quiet_timer_stop t : quietly (EEBUS_TIMER_STOP t).
Proof.
  apply keeps_bind; [apply _|apply quiet_sync|]. intros _ s [(n & Hq) Hw].
  cbn. split; [split|split; [|by exists []]]; try (by destruct t).
  exists n. eapply queue_ok_ext; [|exact Hq]. by destruct t.
Qed.

Lemma quiet_timer_state t : quietly (EEBUS_TIMER_GET_TIMER_STATE t).
Proof. apply keeps_bind; [apply _|apply quiet_sync|]. intros _. apply keeps_gets. apply _. Qed.

Lemma quiet_timer_remaining t : quietly (EEBUS_TIMER_GET_REMAINING_TIME t).
Proof. apply keeps_bind; [apply _|apply quiet_sync|]. intros _. apply keeps_gets. apply _. Qed.

Lemma quiet_need_websocket : quietly need_websocket.
Proof.
  intros s [Hq Hw]. unfold need_websocket. apply wp_branch; intros Hb; [|congruence].
  split; [by split|]. split; [done|by exists []].
Qed.

#[export] Hint Resolve quiet_next_call quiet_sync quiet_timer_start quiet_timer_stop
  quiet_timer_state quiet_timer_remaining quiet_need_websocket : eebus.
#[export] Hint Extern 1 (keeps ok quiet (emit _)) => apply quiet_emit; reflexivity : eebus.
#[export] Hint Extern 1 (keeps ok quiet (upd _)) =>
  apply quiet_upd; intros ?; split; reflexivity : eebus.
#[export] Hint Extern 1 (keeps ok quiet (rd _)) => apply keeps_gets; apply _ : eebus.

Section calls.
Context `{ShipEnv, ShipCodec}.

Lemma quiet_write data : quietly (WEBSOCKET_WRITE data).
Proof. unfold WEBSOCKET_WRITE. solve_keeps. Qed.

Lemma quiet_close code reason : quietly (WEBSOCKET_CLOSE code reason).
Proof. unfold WEBSOCKET_CLOSE. solve_keeps. Qed.
Hint Resolve quiet_write quiet_close : eebus.

Lemma quiet_serialize_send v : quietly (ShipConnectionSerializeAndSendMessage v).
Proof. unfold ShipConnectionSerializeAndSendMessage, ShipConnectionSend. solve_keeps. Qed.

Lemma quiet_send buf : quietly (ShipConnectionSend buf).
Proof. unfold ShipConnectionSend. solve_keeps. Qed.

Lemma quiet_hello p w b : quietly (SmeHelloStateSendHelloMsg p w b).
Proof. apply quiet_serialize_send. Qed.
Hint Resolve quiet_serialize_send quiet_send quiet_hello : eebus.

Lemma quiet_pin_send p i : quietly (SmePinStateCommonPinRequirementSendProcedure p i).
Proof. unfold SmePinStateCommonPinRequirementSendProcedure. solve_keeps. Qed.

Lemma quiet_release : quietly MessageBufferRelease_msg.
Proof. unfold MessageBufferRelease_msg. solve_keeps. Qed.
Hint Resolve quiet_pin_send quiet_release : eebus.

Lemma quiet_waiting_value w : quietly (ShipConnectionSetWaitingValue w).
Proof. unfold ShipConnectionSetWaitingValue. solve_keeps. Qed.

Lemma quiet_access_request : quietly SmeHandshakeAccessMethodsRequestHandle.
Proof. unfold SmeHandshakeAccessMethodsRequestHandle. solve_keeps. Qed.

Lemma quiet_access d : quietly (SmeHandshakeAccessMethodsHandle d).
Proof.
  unfold SmeHandshakeAccessMethodsHandle, SmeHandshakeAccessMethodsCheckMessageVal. solve_keeps.
Qed.

Lemma quiet_spine_data b : quietly (DataExchangeHandleSendSpineData b).
Proof. apply quiet_serialize_send. Qed.
End calls.

#[export] Hint Resolve quiet_write quiet_close quiet_serialize_send quiet_send quiet_hello
  quiet_pin_send quiet_release quiet_waiting_value quiet_access_request quiet_access
  quiet_spine_data : eebus.

(** ** Receiving *)

(** With [n] messages in the queue and the other threads' schedule, every
    receive uses up one of the two. *)
Definition stock (n : nat) (s : St) : Prop :=
  websocket (sc s) = true ∧ ∃ k, queue_ok (trace s) k (sc s) ∧ k + length (sched s) ≤ n.

Lemma ok_stock s : ok s → stock (kQueueMaxMsg + length (sched s)) s.
Proof. intros [(n & Hq) Hw]. split; [done|]. exists kQueueMaxMsg. split; [by eapply queue_ok_cap|lia]. Qed.

Lemma stock_ok n s : stock n s → ok s.
Proof. intros (Hw & k & Hq & _). split; [by exists k|done]. Qed.

Lemma stock_sync n s : stock n s → wp sync (λ _ s', stock n s' ∧ quiet s s') s.
Proof.
  intros (Hw & k & Hq & Hle). destruct (env_until_yield_quiet (sched s) s k Hq) as [Hquiet (k' & Hk' & Hle')].
  cbn. split; [|done]. split; [by rewrite (quiet_websocket _ _ Hquiet)|]. exists k'. split; [done|lia].
Qed.

Lemma stock_wait n s : stock n s → wp wait_message (λ _ s', stock n s' ∧ quiet s s') s.
Proof.
  intros (Hw & k & Hq & Hle).
  destruct (env_until_message_quiet (sched s) s k Hq) as [Hquiet (k' & Hk' & Hle')].
  cbn. split; [|done]. split; [by rewrite (quiet_websocket _ _ Hquiet)|]. exists k'. split; [done|lia].
Qed.

Lemma stock_take n s : stock (S n) s →
  wp queue_take (λ r s', stock n s' ∧ quiet s s' ∧
    ∃ m, r = (kEebusErrorOk, Some m) ∧ good (trace s') m) s.
Proof.
  intros (Hw & k & (q & l & Hq & Hl & Hg & Hlk) & Hle). unfold wp, queue_take. rewrite Hq.
  destruct (Receive_spec kQueueMaxMsg q l kTimeoutInfinite Hl) as (a & q' & Hans & Ha & Hq').
  destruct l as [|m l]; simpl in *.
  - destruct (Queue.Receive _ q) as [r q1|q1|]; simpl in Hans; simplify_eq; done.
  - destruct (Queue.Receive _ q) as [[e o] q1|q1|]; simpl in Hans; simplify_eq/=.
    inversion Hg as [|?? Hm Hg']; subst. split_and!; [|by split; [|by exists []]|eauto].
    split; [done|]. exists (length l). split; [|simpl; lia].
    eexists _, _. split_and!; [reflexivity|done|done|lia].
Qed.

(** A receive takes from a non-empty stock; on an empty one it never returns. *)
Lemma queue_receive_spec n s : stock n s →
  wp EEBUS_QUEUE_RECEIVE (λ r s', n ≠ 0 ∧ stock (pred n) s' ∧ quiet s s' ∧
    ∃ m, r = (kEebusErrorOk, Some m) ∧ good (trace s') m) s.
Proof.
  intros Hs. unfold EEBUS_QUEUE_RECEIVE.
  apply wp_bind. eapply wp_mono; [|by apply (stock_sync n)]. simpl. intros _ s1 [Hs1 Q1].
  apply wp_bind. eapply wp_mono; [|by apply (stock_wait n)]. simpl. intros _ s2 [Hs2 Q2].
  destruct n as [|n].
  - destruct Hs2 as (_ & k & (q & l & Hq & Hl & _ & Hlk) & Hle).
    unfold wp, queue_take. rewrite Hq.
    destruct l; [|simpl in *; lia].
    destruct (Receive_spec kQueueMaxMsg q [] kTimeoutInfinite Hl) as (a & q' & Hans & Ha & _).
    destruct (Queue.Receive _ q); simpl in *; simplify_eq; done.
  - eapply wp_mono; [|by apply (stock_take n)]. simpl. intros r s3 (Hs3 & Q3 & Hr).
    split_and!; [done|done| |done]. by repeat (etrans; [eassumption|]).
Qed.

(** ** Reach *)

Definition Reach (s0 : St) (k : list Out) (c : Core) (s : St) : Prop :=
  ok s ∧ core s = c ∧ ∃ t, trace s = t ++ trace s0 ∧ keys t = k.

Lemma Reach_refl s : ok s → Reach s [] (core s) s.
Proof. intros H. split_and!; [done|done|]. by exists []. Qed.

Lemma Reach_quiet s0 k c s s' : Reach s0 k c s → ok s' → quiet s s' → Reach s0 k c s'.
Proof.
  intros (Hok & Hc & t & Ht & Hk) Hok' [Hc' (t' & Ht' & Hk')]. split_and!; [done|congruence|].
  exists (t' ++ t). rewrite Ht', Ht, keys_app, Hk', Hk. split; [apply app_assoc|done].
Qed.

Lemma Reach_trans s0 k1 c1 s1 k2 c2 s2 :
  Reach s0 k1 c1 s1 → Reach s1 k2 c2 s2 → Reach s0 (k2 ++ k1) c2 s2.
Proof.
  intros (_ & _ & t1 & Ht1 & Hk1) (Hok & Hc & t2 & Ht2 & Hk2). split_and!; [done|done|].
  exists (t2 ++ t1). rewrite keys_app, Hk1, Hk2, Ht2, Ht1. split; [apply app_assoc|done].
Qed.

Lemma Reach_elem s0 k c s o : Reach s0 k c s → o ∈ trace s0 → o ∈ trace s.
Proof. intros (_ & _ & t & -> & _) Ho. apply elem_of_app. by right. Qed.

Section rules.
Context {s0 : St} {k : list Out} {c : Core} {s : St}.
Hypothesis (HR : Reach s0 k c s).

Lemma wp_quiet {A B} (m : Prog St A) (f : A → Prog St B) Q :
  quietly m → (∀ a s', Reach s0 k c s' → wp (f a) Q s') → wp (m ≫= f) Q s.
Proof.
  intros Hm Hf. eapply wp_keeps; [exact Hm|apply HR|]. intros a s' Hok Hq.
  apply Hf. by eapply Reach_quiet.
Qed.

Lemma wp_quiet_end {A} (m : Prog St A) (Q : A → St → Prop) :
  quietly m → (∀ a s', Reach s0 k c s' → Q a s') → wp m Q s.
Proof.
  intros Hm Hf. eapply wp_mono; [|apply Hm, HR]. simpl. intros a s' [Hok Hq].
  apply Hf. by eapply Reach_quiet.
Qed.

Lemma wp_emit o (Q : unit → St → Prop) :
  key o = true → (∀ s', Reach s0 (o :: k) c s' → Q tt s') → wp (emit o) Q s.
Proof.
  intros Ho HQ. cbn. apply HQ. destruct HR as ([(n & Hq) Hw] & Hc & t & Ht & Hk).
  split_and!; [split; [|done]|done|].
  - exists n. by apply (queue_ok_mono (trace s) [o] n n).
  - exists (o :: t). split; [cbn; by rewrite Ht|].
    unfold keys. rewrite filter_cons, decide_True by done. by f_equal.
Qed.

Lemma wp_upd f c' (Q : unit → St → Prop) :
  (∀ x, conn_core x = c → conn_core (f x) = c') →
  (∀ x, msg_queue (f x) = msg_queue x) → (∀ x, websocket (f x) = websocket x) →
  (∀ s', Reach s0 k c' s' → Q tt s') → wp (upd f) Q s.
Proof.
  intros Hc' Hmq Hws HQ. cbn. apply HQ. destruct HR as ([(n & Hq) Hw] & Hc & Ht).
  split_and!; [split|by apply Hc'|done]; [|by simpl; rewrite Hws].
  exists n. by eapply queue_ok_ext; [apply Hmq|].
Qed.

Lemma Reach_core : core s = c.
Proof. apply HR. Qed.

Lemma Reach_state : sme_state (sc s) = c_state c.
Proof. by rewrite <- Reach_core. Qed.

Lemma Reach_closed : shutdown_once (sc s) = c_closed c.
Proof. by rewrite <- Reach_core. Qed.
End rules.

(** Four field updates in a row, as one. *)
Lemma wp_upd4 {A} f1 f2 f3 f4 (m : Prog St A) Q s :
  wp m Q (set_sc (f4 (f3 (f2 (f1 (sc s))))) s) →
  wp (upd f1;; upd f2;; upd f3;; upd f4;; m) Q s.
Proof. done. Qed.

Lemma Reach_upd s0 k c c' s f :
  Reach s0 k c s → (∀ x, conn_core x = c → conn_core (f x) = c') →
  (∀ x, msg_queue (f x) = msg_queue x) → (∀ x, websocket (f x) = websocket x) →
  Reach s0 k c' (set_sc (f (sc s)) s).
Proof.
  intros HR Hc Hm Hw. apply (wp_upd HR f c' (λ _ s', Reach s0 k c' s') Hc Hm Hw). done.
Qed.

(** The states whose end counts as a completed handshake. *)
Definition handshake_ended (x : SmeState) : bool :=
  bool_decide (x = kDataExchange) || bool_decide (x = kSmeHelloStateAbortDone)
  || bool_decide (x = kSmeHelloStateRemoteAbortDone) || bool_decide (x = kSmeHelloStateRejected).

Section rules2.
Context `{ShipEnv, ShipCodec} {s0 : St} {k : list Out} {c : Core} {s : St}.
Hypothesis (HR : Reach s0 k c s).

Lemma wp_set_state y (Q : unit → St → Prop) :
  (c_state c ≠ y → ∀ s', Reach s0 (OStateUpdate y :: k) (with_state y c) s' → Q tt s') →
  (c_state c = y → Q tt s) →
  wp (ShipConnectionSetSmeState y) Q s.
Proof.
  intros Hne Heq. unfold ShipConnectionSetSmeState. apply wp_branch; rewrite (Reach_state HR).
  - intros Hb%bool_decide_eq_true. apply wp_bind.
    eapply (wp_upd HR _ (with_state y c)); [by intros x <-|done|done|].
    intros s' HR'. eapply wp_emit; [exact HR'|done|]. by apply Hne.
  - intros Hb%bool_decide_eq_false. apply dec_stable in Hb. by apply Heq.
Qed.

Lemma wp_move y (Q : unit → St → Prop) :
  c_state c ≠ y →
  (∀ s', Reach s0 (OStateUpdate y :: k) (with_state y c) s' → Q tt s') →
  wp (ShipConnectionSetSmeState y) Q s.
Proof. intros Hne HQ. apply wp_set_state; [intros _; exact HQ|by intros E]. Qed.

Lemma wp_closed safe code reason (Q : unit → St → Prop) :
  c_closed c = true → Q tt s → wp (CloseConnection safe code reason) Q s.
Proof.
  intros Hc HQ. apply wp_branch_true; [by rewrite (Reach_closed HR)|exact HQ].
Qed.
End rules2.

Lemma wp_CloseConnection `{ShipEnv, ShipCodec} {s0 k c s} safe code reason (Q : unit → St → Prop) :
  Reach s0 k c s → c_closed c = false →
  (∀ s', Reach s0 (OConnectionClosed (handshake_ended (c_state c)) :: k) (with_closed c) s' → Q tt s') →
  wp (CloseConnection safe code reason) Q s.
Proof.
  intros HR Hc HQ. apply wp_branch_false; [by rewrite (Reach_closed HR)|].
  do 3 (eapply wp_quiet; [eassumption|solve_keeps|]; clear dependent s; intros _ s HR).
  apply wp_bind, wp_gets. rewrite (Reach_state HR).
  eapply wp_quiet; [exact HR|solve_keeps|]. clear dependent s. intros _ s HR.
  eapply wp_quiet; [exact HR|solve_keeps|]. clear dependent s. intros _ s HR.
  apply wp_bind. eapply (wp_upd HR _ (with_closed c)); [by intros x <-|done|done|].
  clear dependent s. intros s HR.
  eapply wp_emit; [exact HR|done|]. exact HQ.
Qed.

Lemma wp_CloseWithError `{ShipEnv, ShipCodec} {s0 k c s} err (Q : unit → St → Prop) :
  Reach s0 k c s → c_closed c = false → c_state c ≠ kSmeStateError →
  (∀ s', Reach s0 (OConnectionClosed false :: OStateUpdate kSmeStateError :: k)
           (with_closed (with_state kSmeStateError c)) s' → Q tt s') →
  wp (ShipConnectionCloseWithError err) Q s.
Proof.
  intros HR Hc Hne HQ. apply wp_bind. eapply wp_move; [exact HR|done|].
  intros s' HR'. by eapply wp_CloseConnection.
Qed.

(** A second failure, after the connection was closed in the error state. *)
Lemma wp_CloseWithError_again `{ShipEnv, ShipCodec} {s0 k c s} err (Q : unit → St → Prop) :
  Reach s0 k c s → c_closed c = true → c_state c = kSmeStateError →
  Q tt s → wp (ShipConnectionCloseWithError err) Q s.
Proof.
  intros HR Hc He HQ. apply wp_bind. eapply wp_set_state; [exact HR|done|].
  intros _. by eapply wp_closed.
Qed.

(** The message a wait ends with: [PENDING] stores a trust decision, elsewhere
    decisions are dropped, and the fuel is enough. *)
Definition waited (s0 : St) (k : list Out) (c : Core)
    (r : EebusError * option ShipConnectionQueueMessage) (s : St) : Prop :=
  ∃ m, r = (kEebusErrorOk, Some m) ∧
    ((qtype m ≠ kShipConnectionQueueMsgTypeTrustGranted ∧
      qtype m ≠ kShipConnectionQueueMsgTypeTrustDenied ∧ Reach s0 k c s) ∨
     (c_state c = kSmeHelloStatePendingListen ∧ good (trace s) m ∧
      ((qtype m = kShipConnectionQueueMsgTypeTrustGranted ∧
        Reach s0 k (with_decision kShipConnectionTrustDecisionGranted (approval_id m)
                      (accept_cb m) c) s) ∨
       (qtype m = kShipConnectionQueueMsgTypeTrustDenied ∧
        Reach s0 k (with_decision kShipConnectionTrustDecisionDenied (approval_id m)
                      (accept_cb m) c) s)))).

Lemma wait_loop_spec s0 k c fuel : ∀ n s,
  Reach s0 k c s → stock n s → n < fuel → wp (wait_loop fuel) (waited s0 k c) s.
Proof.
  induction fuel as [|fuel IH]; intros n s HR Hn Hlt; [lia|].
  cbn [wait_loop]. apply wp_bind.
  eapply wp_mono; [|by apply queue_receive_spec].
  simpl. intros r s1 (Hpos & Hs1 & Hq1 & m & -> & Hm).
  assert (HR1 : Reach s0 k c s1) by (eapply Reach_quiet; eauto using stock_ok).
  destruct (bool_decide (qtype m = _) || _) eqn:Htrust; cbn [negb].
  - eapply wp_branch; rewrite (Reach_state HR1).
    + intros _. eapply IH; [done|done|lia].
    + intros Hp%bool_decide_eq_false. apply dec_stable in Hp.
      apply wp_upd4. exists m. split; [done|]. right. split; [done|]. split; [exact Hm|].
      apply orb_true_iff in Htrust as [Ht|Ht]; apply bool_decide_eq_true in Ht; [left|right];
        (split; [done|]); rewrite Ht;
        apply (Reach_upd _ _ _ _ _
          (λ x, set_trust_accept_ctx _ (set_trust_accept_cb _ (set_trust_decision_id _
                  (set_trust_decision _ x)))) HR1); try done; by intros x <-.
  - apply orb_false_iff in Htrust as [H1%bool_decide_eq_false H2%bool_decide_eq_false].
    exists m. naive_solver.
Qed.

Lemma quiet_good s s' m : quiet s s' → good (trace s) m → good (trace s') m.
Proof. intros [_ (t & -> & _)]. apply good_mono. Qed.

Lemma waited_quiet s0 k c r s s' : waited s0 k c r s → ok s' → quiet s s' → waited s0 k c r s'.
Proof.
  intros (m & -> & Hm) Hok Hq. exists m. split; [done|].
  assert (∀ c', Reach s0 k c' s → Reach s0 k c' s') as HR by (intros; by eapply Reach_quiet).
  destruct Hm as [(? & ? & ?)|(? & Hg & Hd)]; [left; auto|right].
  split; [done|]. split; [by eapply quiet_good|].
  destruct Hd as [[? ?]|[? ?]]; auto.
Qed.

(** The outcome of [ShipConnectionReceive]: an error code other than
    [kEebusErrorNoChange] or data, with the core unchanged; or a trust decision,
    only in PENDING. *)
Definition received (s0 : St) (k : list Out) (c : Core) (e : EebusError) (s : St) : Prop :=
  (e ≠ kEebusErrorNoChange ∧ Reach s0 k c s) ∨
  (e = kEebusErrorNoChange ∧ c_state c = kSmeHelloStatePendingListen ∧
   ∃ d id cb, d ≠ kShipConnectionTrustDecisionNone ∧ Reach s0 k (with_decision d id cb c) s ∧
     (d = kShipConnectionTrustDecisionGranted → cb = None → OApprove ∈ trace s)).

Lemma Reach_decision s0 k c s : Reach s0 k c s → trust_decision (sc s) = c_decision c.
Proof. intros HR. by rewrite <- (Reach_core HR). Qed.

Lemma wp_wait `{ShipEnv, ShipCodec} {s0 k c s} t :
  Reach s0 k c s → wp (ShipConnectionWaitForMessage t) (waited s0 k c) s.
Proof.
  intros HR. unfold ShipConnectionWaitForMessage.
  eapply (wp_quiet HR); [auto with eebus|]. clear dependent s. intros _ s HR.
  apply wp_bind, wp_gets, wp_bind. eapply wp_mono; [|eapply (wait_loop_spec s0 k c)]; cycle 1.
  - exact HR.
  - apply ok_stock, HR.
  - unfold wait_fuel. destruct HR as ([(n & q & l & Hq & (_ & _ & Hn) & _) _] & _).
    rewrite Hq, Hn. lia.
  - simpl. intros r s1 Hw.
    assert (ok s1) as Hok1.
    { destruct Hw as (m & _ & [(_ & _ & HR1)|(_ & _ & [[_ HR1]|[_ HR1]])]); apply HR1. }
    eapply wp_keeps; [auto with eebus|exact Hok1|]. intros _ s2 Hok2 Hq2.
    apply wp_ret. by eapply waited_quiet.
Qed.

Lemma wp_Receive `{ShipEnv, ShipCodec} {s0 k c s} t :
  Reach s0 k c s → c_decision c = kShipConnectionTrustDecisionNone →
  wp (ShipConnectionReceive t) (received s0 k c) s.
Proof.
  intros HR Hd. apply wp_bind. eapply wp_mono; [|exact (wp_wait t HR)].
  clear dependent s. simpl. intros r s (m & -> & [(Hn1 & Hn2 & HR)|(Hp & Hg & Hw)]).
  - apply wp_bind. apply wp_branch_false; [by rewrite (Reach_decision _ _ _ _ HR), Hd|].
    assert (∀ e (b : option MessageBuffer), e ≠ kEebusErrorNoChange →
      wp (match b with Some buf => upd (set_msg buf) | None => mret tt end;; mret e)
        (received s0 k c) s) as Hend.
    { intros e b He. destruct b as [b|]; [|by left].
      eapply (wp_quiet HR); [solve_keeps|]. intros _ s' HR'. by left. }
    apply wp_ret. cbn [fst snd]. destruct (qtype m); apply Hend; done.
  - assert (∀ d, d ≠ kShipConnectionTrustDecisionNone →
      (d = kShipConnectionTrustDecisionGranted → qtype m = kShipConnectionQueueMsgTypeTrustGranted) →
      Reach s0 k (with_decision d (approval_id m) (accept_cb m) c) s →
      wp (t ← ShipConnectionTranslateQueueMessage m;
          match t.2 with Some buf => upd (set_msg buf) | None => mret tt end;; mret t.1)
        (received s0 k c) s) as Hend.
    { intros d Hdn Hgr HR. apply wp_bind.
      apply wp_branch_true; [rewrite (Reach_decision _ _ _ _ HR); by apply bool_decide_eq_true|].
      right. split; [done|]. split; [done|]. exists d, (approval_id m), (accept_cb m).
      split_and!; [done|exact HR|]. intros Hg' Hcb. by apply Hg; [apply Hgr|]. }
    destruct Hw as [[Ht HR]|[Ht HR]]; by eapply Hend; [..|exact HR].
Qed.
