(* ===== verification/ShipRefine.v ===== *)
(** * The abstract handshake machine and its refinement

    [hs_round] specifies one round of the connection thread in a form the SHIP
    specification's state charts can be compared with: the SME state, whether
    the connection is closed, and the key events of the round, newest first.
    [HandleState_refines] shows that every round of the implementation, for any
    interleaving with the other threads and any behaviour of peer, websocket
    and node, is a round of the machine. *)

From S2P Require Import Prelude Queue Timer ShipTypes ShipState ShipConnection ShipHandshake ShipReach.

(** The transitions that are a change of state and nothing else. *)
Definition next (r : ShipRole) (x : SmeState) : list SmeState :=
  match x, r with
  | kCmiStateClientSend, kShipRoleClient => [kCmiStateClientWait]
  | kCmiStateClientWait, kShipRoleClient => [kCmiStateClientEvaluate]
  | kCmiStateClientEvaluate, kShipRoleClient => [kSmeHelloState]
  | kCmiStateServerWait, kShipRoleServer => [kCmiStateServerEvaluate]
  | kCmiStateServerEvaluate, kShipRoleServer => [kSmeHelloState]
  | kSmeHelloStateReadyInit, (kShipRoleClient | kShipRoleServer) =>
      [kSmeHelloStateAbort; kSmeHelloStateOk; kSmeHelloStateReadyListen]
  | kSmeHelloStateReadyListen, (kShipRoleClient | kShipRoleServer) =>
      [kSmeHelloStateOk; kSmeHelloStateAbort; kSmeHelloStateReadyTimeout]
  | kSmeHelloStatePendingInit, (kShipRoleClient | kShipRoleServer) =>
      [kSmeHelloStatePendingListen; kSmeHelloStateAbort]
  | kSmeHelloStatePendingListen, (kShipRoleClient | kShipRoleServer) =>
      [kSmeHelloStateAbort; kSmeHelloStatePendingTimeout]
  | kSmeHelloStatePendingTimeout, (kShipRoleClient | kShipRoleServer) =>
      [kSmeHelloStateAbort; kSmeHelloStatePendingListen]
  | kSmeHelloStateOk, kShipRoleClient => [kSmeProtHStateClientInit]
  | kSmeHelloStateOk, kShipRoleServer => [kSmeProtHStateServerInit]
  | kSmeProtHStateClientInit, kShipRoleClient => [kSmeProtHStateClientListenChoice]
  | kSmeProtHStateClientListenChoice, kShipRoleClient => [kSmeProtHStateClientOk]
  | kSmeProtHStateClientOk, kShipRoleClient => [kSmePinStateCheckInit]
  | kSmeProtHStateServerInit, kShipRoleServer => [kSmeProtHStateServerListenProposal]
  | kSmeProtHStateServerListenProposal, kShipRoleServer => [kSmeProtHStateServerListenConfirm]
  | kSmeProtHStateServerListenConfirm, kShipRoleServer => [kSmeProtHStateServerOk]
  | kSmeProtHStateServerOk, kShipRoleServer => [kSmePinStateCheckInit]
  | kSmePinStateCheckInit, (kShipRoleClient | kShipRoleServer) =>
      [kSmePinStateCheckBusyWait; kSmePinStateCheckListen; kSmePinStateCheckOk; kSmeHelloStateAbort]
  | kSmePinStateCheckListen, (kShipRoleClient | kShipRoleServer) => [kSmePinStateCheckOk]
  | kSmePinStateCheckBusyWait, (kShipRoleClient | kShipRoleServer) => [kSmePinStateCheckListen]
  | kSmePinStateCheckOk, (kShipRoleClient | kShipRoleServer) => [kSmeStateApproved]
  | _, _ => []
  end.

(** The states whose handler may give up the connection. *)
Definition can_fail (r : ShipRole) (x : SmeState) : bool :=
  match x, r with
  | (kCmiStateClientSend | kCmiStateClientWait | kCmiStateClientEvaluate
     | kSmeProtHStateClientInit | kSmeProtHStateClientListenChoice), kShipRoleClient => true
  | (kCmiStateServerWait | kCmiStateServerEvaluate
     | kSmeProtHStateServerListenProposal | kSmeProtHStateServerListenConfirm), kShipRoleServer => true
  | (kSmeHelloStateReadyTimeout | kSmeHelloStateAbort | kSmeHelloStateAbortDone
     | kSmeHelloStateRemoteAbortDone | kSmeHelloStateRejected | kSmeHelloStatePendingTimeout
     | kSmePinStateCheckInit | kSmePinStateCheckListen), (kShipRoleClient | kShipRoleServer) => true
  | _, _ => false
  end.

(** The states in which a round may do nothing visible. *)
Definition can_stay (r : ShipRole) (x : SmeState) : bool :=
  match r with
  | kShipRoleAuto => true
  | _ =>
      match x with
      | kSmeHelloStateReadyListen | kSmeHelloStatePendingListen | kSmeHelloStatePendingTimeout
      | kSmeAccessMethodsRequest | kSmeStateError => true
      | kSmeHelloState | kSmeStateApproved | kDataExchange => false
      | _ => bool_decide (next r x = []) && negb (can_fail r x)
      end
  end.

Record Abs := mkAbs {
  a_state : SmeState;
  a_closed : bool;
  a_req_sent : bool;   (* the access methods request has been handled *)
}.

(** The failure of a connection: error state, then the report. *)
Definition failure : list Out := [OConnectionClosed false; OStateUpdate kSmeStateError].

(** What handling one message in the data exchange shows when the access methods
    request could not be sent before it: the connection is closed already. *)
Inductive late_handling : list Out → Prop :=
| late_nothing : late_handling []
| late_data p : late_handling [OHandleMessage p]
| late_close : late_handling [OConnectionClosed true].

(** One round of an open connection.  [approved]: the application approved the
    peer; [unsent]: the access methods request may fail to be sent. *)
Inductive hs_round (r : ShipRole) (unsent approved : Prop) : Abs → list Out → Abs → Prop :=
| round_stay x q : can_stay r x = true →
    hs_round r unsent approved (mkAbs x false q) [] (mkAbs x false q)
| round_move x y q : y ∈ next r x →
    hs_round r unsent approved (mkAbs x false q) [OStateUpdate y] (mkAbs y false q)
| round_fail x q : can_fail r x = true →
    hs_round r unsent approved (mkAbs x false q) failure (mkAbs kSmeStateError true q)
| round_ask q (paired : bool) (y := if paired then kSmeHelloStateReadyInit
                                     else kSmeHelloStatePendingInit) :
    hs_round r unsent approved (mkAbs kSmeHelloState false q) [OStateUpdate y; OIsPaired paired]
      (mkAbs y false q)
| round_approved q : approved →
    hs_round r unsent approved (mkAbs kSmeHelloStatePendingListen false q)
      [OStateUpdate kSmeHelloStateReadyInit] (mkAbs kSmeHelloStateReadyInit false q)
| round_accept q cb id (yes : bool) (y := if yes then kSmeHelloStateReadyInit
                                            else kSmeHelloStateAbort) :
    hs_round r unsent approved (mkAbs kSmeHelloStatePendingListen false q)
      [OStateUpdate y; OAcceptCallback cb id yes] (mkAbs y false q)
| round_setup q :
    hs_round r unsent approved (mkAbs kSmeStateApproved false q)
      [OStateUpdate kDataExchange; OSetupRemoteDevice] (mkAbs kDataExchange false q)
| round_data q o : o = [] ∨ (∃ p, o = [OHandleMessage p]) →
    hs_round r unsent approved (mkAbs kDataExchange false q) o (mkAbs kDataExchange false true)
| round_data_fail q :
    hs_round r unsent approved (mkAbs kDataExchange false q) failure (mkAbs kSmeStateError true true)
| round_data_peer_closes q :
    hs_round r unsent approved (mkAbs kDataExchange false q) [OConnectionClosed true]
      (mkAbs kDataExchange true true)
| round_data_socket_closes q :
    hs_round r unsent approved (mkAbs kDataExchange false q)
      [OStateUpdate kSmeStateError; OConnectionClosed true] (mkAbs kSmeStateError true true)
| round_data_unsent o : unsent → late_handling o →
    hs_round r unsent approved (mkAbs kDataExchange false false) (o ++ failure)
      (mkAbs kSmeStateError true true).

#[export] Hint Constructors hs_round late_handling : eebus.

Lemma hs_round_mono r (U P P' : Prop) a o a' :
  (P → P') → hs_round r U P a o a' → hs_round r U P' a o a'.
Proof. intros HP Hr. destruct Hr; eauto with eebus. Qed.

Definition core_abs (c : Core) : Abs := mkAbs (c_state c) (c_closed c) (c_req_sent c).
Definition abs (s : St) : Abs := core_abs (core s).

(** What holds between two rounds. *)
Definition core_inv (c : Core) : Prop :=
  c_decision c = kShipConnectionTrustDecisionNone ∧
  (c_state c = kDataExchange → c_reader c ≠ None).

Definition Inv (s : St) : Prop := ok s ∧ core_inv (core s).

(** The access methods request always gets through to the socket. *)
Definition request_sendable `{ShipEnv, ShipCodec} : Prop :=
  ∃ bs, ship_serialize VAccessMethodsRequest = Some bs ∧ (Z.of_nat (length bs) < 2 ^ 31)%Z ∧
    ∀ n, env_write n bs = Z.of_nat (length bs).

(** A finished round from [s0], where the core was [c0]. *)
Definition Done (U : Prop) (s0 : St) (c0 : Core) (s : St) : Prop :=
  ∃ k c, Reach s0 k c s ∧ core_inv c ∧ c_role c = c_role c0 ∧
    hs_round (c_role c0) U (OApprove ∈ trace s) (core_abs c0) k (core_abs c).

(** ** Ways to finish a round *)

Definition open_core (c : Core) : Prop := core_inv c ∧ c_closed c = false.

Lemma next_not_data r x y : y ∈ next r x → y ≠ kDataExchange ∧ y ≠ x.
Proof.
  destruct r, x; cbn [next]; rewrite ?list_elem_of_In; cbn [In]; intros Hy;
    repeat (destruct Hy as [<-|Hy]; [done|]); done.
Qed.

Lemma can_fail_not_error r x : can_fail r x = true → x ≠ kSmeStateError.
Proof. by destruct r, x. Qed.

Section finish.
Context `{ShipEnv, ShipCodec} {U : Prop} {s0 : St} {c : Core} (Hc : open_core c).

Lemma core_abs_open : core_abs c = mkAbs (c_state c) false (c_req_sent c).
Proof. unfold core_abs. by rewrite (proj2 Hc). Qed.

Lemma Done_quiet s s' : Done U s0 c s → ok s' → quiet s s' → Done U s0 c s'.
Proof.
  intros (k & c' & HR & Hi & Hr & Hround) Hok Hq. exists k, c'.
  split_and!; [by eapply Reach_quiet|done|done|].
  eapply hs_round_mono; [|exact Hround].
  destruct Hq as [_ (t & -> & _)]. intros ?. apply elem_of_app. by right.
Qed.

(** Clean-up after the outcome is decided. *)
Lemma wp_then {A B} (m : Prog St A) (m2 : A → Prog St B) s :
  wp m (λ _, Done U s0 c) s → (∀ a, quietly (m2 a)) → wp (m ≫= m2) (λ _, Done U s0 c) s.
Proof.
  intros Hm Hm2. apply wp_bind. eapply wp_mono; [|exact Hm]. simpl. intros a s' HD.
  destruct HD as (k & c' & HR & HD). eapply wp_mono; [|apply Hm2, HR]. simpl.
  intros _ s'' [Hok Hq]. eapply Done_quiet; [|exact Hok|exact Hq]. by exists k, c'.
Qed.

Lemma Done_stay s : can_stay (c_role c) (c_state c) = true → Reach s0 [] c s → Done U s0 c s.
Proof.
  intros Hst HR. exists [], c. split_and!; [done|apply Hc|done|].
  rewrite core_abs_open. by constructor.
Qed.

Lemma wp_stay {A} (m : Prog St A) s :
  can_stay (c_role c) (c_state c) = true → Reach s0 [] c s → quietly m → wp m (λ _, Done U s0 c) s.
Proof. intros Hst HR Hm. eapply (wp_quiet_end HR); [done|]. intros _ s'. by apply Done_stay. Qed.

Lemma Done_move y s : y ∈ next (c_role c) (c_state c) →
  Reach s0 [OStateUpdate y] (with_state y c) s → Done U s0 c s.
Proof.
  intros Hy HR. destruct (next_not_data _ _ _ Hy) as [Hnd _].
  exists [OStateUpdate y], (with_state y c). split_and!; [done| |done|].
  - split; [apply Hc|]. by intros E.
  - rewrite core_abs_open. unfold core_abs, with_state. simpl. rewrite (proj2 Hc).
    by constructor.
Qed.

Lemma wp_goto y s : Reach s0 [] c s → y ∈ next (c_role c) (c_state c) →
  wp (ShipConnectionSetSmeState y) (λ _, Done U s0 c) s.
Proof.
  intros HR Hy. eapply (wp_move HR); [by eapply not_eq_sym, next_not_data|].
  intros s'. by apply Done_move.
Qed.

Lemma wp_give_up err s : Reach s0 [] c s → can_fail (c_role c) (c_state c) = true →
  wp (ShipConnectionCloseWithError err) (λ _, Done U s0 c) s.
Proof.
  intros HR Hf. eapply (wp_CloseWithError err _ HR); [apply Hc|by eapply can_fail_not_error|].
  intros s' HR'. exists failure, (with_closed (with_state kSmeStateError c)).
  split_and!; [done| |done|].
  - split; [apply Hc|]. done.
  - rewrite core_abs_open. unfold core_abs. simpl. by constructor.
Qed.
End finish.

(** The machine does not see the other fields of the core. *)
Lemma Done_ext U s0 c c1 s :
  core_abs c1 = core_abs c → c_role c1 = c_role c → Done U s0 c1 s → Done U s0 c s.
Proof.
  intros Ha Hr (k & c' & HR & Hi & Hr' & Hround). exists k, c'.
  rewrite <- Ha, <- Hr. done.
Qed.

(** ** Proof automation for the handlers *)

(** Membership in [next], [can_fail] and [can_stay], by the state and the role. *)
Ltac table :=
  match goal with Hx : c_state _ = _ |- _ => rewrite ?Hx end;
  match goal with
  | Hl : c_role _ = _ |- _ => rewrite Hl
  | Hr : c_role _ = _ ∨ _ |- _ => destruct Hr as [-> | ->]
  end;
  solve [reflexivity | apply (bool_decide_unpack _); vm_compute; exact I].

(** A call that is quiet. *)
Ltac qstep :=
  match goal with
  | HR : Reach _ _ _ ?s |- wp (_ ≫= _) _ ?s =>
      eapply (wp_quiet HR); [solve [solve_keeps]|]; clear dependent s; intros ? s HR
  end.

(** The message type decides which value there is. *)
Lemma deserialize_hello `{ShipCodec} buf :
  value_type (ShipMessageDeserializeCreate buf) = kSmeHello →
  ∃ h, hello_of (value (ShipMessageDeserializeCreate buf)) = Some h.
Proof.
  unfold ShipMessageDeserializeCreate. destruct (buf ≫= ship_deserialize) as [[]|]; simpl; naive_solver.
Qed.

Section handlers.
Context `{ShipEnv, ShipCodec} {U : Prop} {s0 : St} {c : Core} (Hc : open_core c)
  (Hr : c_role c = kShipRoleClient ∨ c_role c = kShipRoleServer).
Abbreviation round m s := (wp m (λ _, Done U s0 c) s).

(** Outside PENDING a receive yields an error code or data. *)
Lemma wp_recv {A} t (f : EebusError → Prog St A) Q s :
  Reach s0 [] c s → c_state c ≠ kSmeHelloStatePendingListen →
  (∀ e s', Reach s0 [] c s' → wp (f e) Q s') → wp (ShipConnectionReceive t ≫= f) Q s.
Proof.
  intros HR Hp Hf. apply wp_bind. eapply wp_mono; [|apply (wp_Receive t HR), Hc].
  simpl. intros e s' [[_ HR']|(_ & Hp' & _)]; [by apply Hf|done].
Qed.

Lemma SmeHelloStateReadyInit_round s : c_state c = kSmeHelloStateReadyInit →
  Reach s0 [] c s → round SmeHelloStateReadyInit s.
Proof.
  intros Hx HR. unfold SmeHelloStateReadyInit. do 3 qstep.
  destruct (negb _); [apply (wp_goto Hc); [done|table]|].
  apply wp_branch; intros _; (apply (wp_goto Hc); [done|table]).
Qed.

Lemma SmeHelloStateAbort_round s : can_fail (c_role c) (c_state c) = true →
  Reach s0 [] c s → round SmeHelloStateAbort s.
Proof. intros Hf HR. unfold SmeHelloStateAbort. qstep. by apply (wp_give_up Hc). Qed.

(** The prolongation request is answered, or sending the answer fails. *)
Lemma prolongation_round m s :
  can_stay (c_role c) (c_state c) = true →
  kSmeHelloStateAbort ∈ next (c_role c) (c_state c) →
  Reach s0 [] c s →
  round (SmeHelloStateCommonProlongationRequestAndUpdateMessageSendProcedure m) s.
Proof.
  intros Hst Hab HR. unfold SmeHelloStateCommonProlongationRequestAndUpdateMessageSendProcedure.
  destruct (prolongation_request m) as [[]|]; [|by apply (wp_stay Hc); [..|solve_keeps]..].
  do 2 qstep. unfold SmeHelloStateCommonUpdateHelloMessageSendProcedure. do 3 qstep.
  destruct (is_ok _); [by apply (wp_stay Hc); [..|solve_keeps]|by apply (wp_goto Hc)].
Qed.

Lemma SmeHelloStateReadyListen_round s : c_state c = kSmeHelloStateReadyListen →
  Reach s0 [] c s → round SmeHelloStateReadyListen s.
Proof.
  intros Hx HR. unfold SmeHelloStateReadyListen.
  eapply (wp_recv _ _ _ _ HR); [by rewrite Hx|]. clear dependent s. intros e s HR.
  destruct e; try (apply (wp_goto Hc); [done|table]).
  unfold SmeHelloReadyStateEvaluateReceivedHelloMessage. qstep.
  case_bool_decide as Hv.
  - apply wp_then; [apply (wp_goto Hc); [done|table]|auto with eebus].
  - destruct (deserialize_hello _ Hv) as [h ->].
    apply wp_then; [|auto with eebus].
    destruct (hello_phase h); [|apply (wp_goto Hc); [done|table]..].
    apply prolongation_round; [table..|done].
Qed.

Lemma SmeHelloStatePendingInit_round s : c_state c = kSmeHelloStatePendingInit →
  Reach s0 [] c s → round SmeHelloStatePendingInit s.
Proof.
  intros Hx HR. unfold SmeHelloStatePendingInit. do 3 qstep.
  destruct (is_ok _); (apply (wp_goto Hc); [done|table]).
Qed.

Lemma quiet_new_wait m w :
  waiting m = Some w → quietly (SmeHelloCalculateNewWaitValueAndSetTimer m).
Proof. intros Hw. unfold SmeHelloCalculateNewWaitValueAndSetTimer. rewrite Hw. solve_keeps. Qed.

Lemma PendingEvaluate_round s : c_state c = kSmeHelloStatePendingListen →
  Reach s0 [] c s → round SmeHelloPendingStateEvaluateReceivedHelloMessage s.
Proof.
  intros Hx HR. unfold SmeHelloPendingStateEvaluateReceivedHelloMessage. qstep.
  case_bool_decide as Hv.
  { apply wp_then; [apply (wp_goto Hc); [done|table]|auto with eebus]. }
  destruct (deserialize_hello _ Hv) as [h ->].
  apply wp_then; [|auto with eebus].
  destruct (hello_phase h).
  - unfold SmeHelloStateCheckWaitAndProlongationRequestSubelements.
    destruct (waiting h) as [w|] eqn:Hw; [destruct (prolongation_request h) as [b|]|];
      [apply prolongation_round; [table..|done]| |
       apply prolongation_round; [table..|done]].
    qstep. apply (wp_stay Hc); [table|done|by eapply quiet_new_wait].
  - qstep. unfold SmeHelloStateCheckWaitingSubelement.
    destruct (waiting h) as [w|] eqn:Hw; [|apply (wp_goto Hc); [done|table]].
    do 2 qstep. apply (wp_stay Hc); [table|done|by eapply quiet_new_wait].
  - apply (wp_goto Hc); [done|table].
Qed.

(** A trust decision in PENDING: the stored decision is consumed; a grant
    needs an approval or a callback that accepts. *)
Definition trust_branch (decision : ShipConnectionTrustDecision) (id : Z) (ctx : nat)
    (cb : option nat) : Prog St unit :=
  if bool_decide (decision = kShipConnectionTrustDecisionGranted)
  then
    accepted ← match cb with
               | Some f => call_accept_cb f id ctx
               | None => mret (bool_decide (id = 0%Z))
               end;
    if negb accepted then ShipConnectionSetSmeState kSmeHelloStateAbort
    else
      EEBUS_TIMER_STOP SendProlongationRequest;;
      EEBUS_TIMER_STOP ProlongationRequestReply;;
      ShipConnectionSetSmeState kSmeHelloStateReadyInit
  else ShipConnectionSetSmeState kSmeHelloStateAbort.

Lemma trust_branch_round d id ctx cb s : c_state c = kSmeHelloStatePendingListen →
  (d = kShipConnectionTrustDecisionGranted → cb = None → OApprove ∈ trace s) →
  Reach s0 [] c s → round (trust_branch d id ctx cb) s.
Proof.
  intros Hx Hap HR. unfold trust_branch.
  case_bool_decide as Hd; [|apply (wp_goto Hc); [done|table]].
  destruct cb as [f|].
  - apply wp_bind. unfold call_accept_cb. qstep. apply wp_bind.
    eapply (wp_emit HR); [done|]. clear dependent s. intros s HR. apply wp_ret.
    set (yes := env_accept _ _ _ _) in *. clearbody yes.
    assert (∀ s', Reach s0 [OStateUpdate (if yes then kSmeHelloStateReadyInit else kSmeHelloStateAbort);
                            OAcceptCallback f id yes]
                   (with_state (if yes then kSmeHelloStateReadyInit else kSmeHelloStateAbort) c) s' →
                  Done U s0 c s') as Hend.
    { intros s' HR'. eexists _, _. split_and!; [exact HR'|split; [apply Hc|by destruct yes]|done|].
      rewrite (core_abs_open Hc), Hx. unfold core_abs. simpl. rewrite (proj2 Hc). constructor. }
    destruct yes; cbn [negb]; [do 2 qstep|]; (eapply (wp_move HR); [by rewrite Hx|exact Hend]).
  - apply wp_bind, wp_ret. case_bool_decide; cbn [negb];
      [|apply (wp_goto Hc); [done|table]].
    pose proof (Hap Hd eq_refl) as Hin. clear Hap.
    pose proof (Reach_refl s (proj1 HR)) as HR1. rewrite (Reach_core HR) in HR1.
    assert (∀ s', Reach s [OStateUpdate kSmeHelloStateReadyInit]
                   (with_state kSmeHelloStateReadyInit c) s' → Done U s0 c s') as Hend.
    { intros s' HR'. pose proof (Reach_trans _ _ _ _ _ _ _ HR HR') as HR2.
      eexists _, _. split_and!; [exact HR2|split; [apply Hc|done]|done|].
      rewrite (core_abs_open Hc), Hx. unfold core_abs. simpl. rewrite (proj2 Hc).
      apply round_approved. exact (Reach_elem _ _ _ _ _ HR' Hin). }
    eapply (wp_quiet HR1); [solve_keeps|]. intros _ s2 HR2.
    eapply (wp_quiet HR2); [solve_keeps|]. intros _ s3 HR3.
    eapply (wp_move HR3); [by rewrite Hx|exact Hend].
Qed.

Lemma SmeHelloStatePendingTimeout_round s : c_state c = kSmeHelloStatePendingTimeout →
  Reach s0 [] c s → round SmeHelloStatePendingTimeout s.
Proof.
  intros Hx HR. unfold SmeHelloStatePendingTimeout. do 2 qstep.
  destruct a0; [apply (wp_goto Hc); [done|table]|]. qstep.
  case_bool_decide; [|apply (wp_stay Hc); [table|done|auto with eebus typeclass_instances]].
  qstep. destruct (negb _); [apply (wp_give_up Hc); [done|table]|].
  do 3 qstep. apply (wp_goto Hc); [done|table].
Qed.

(** ** Connection mode initialisation *)

Ltac goto := apply (wp_goto Hc); [eassumption|table].
Ltac fails := apply (wp_give_up Hc); [eassumption|table].
Ltac recv :=
  match goal with
  | HR : Reach _ _ _ ?s, Hx : c_state c = _ |- wp (ShipConnectionReceive _ ≫= _) _ ?s =>
      eapply (wp_recv _ _ _ _ HR); [by rewrite Hx|]; clear dependent s; intros ? s HR
  end.

Lemma CmiStateClientSend_round s : c_role c = kShipRoleClient → c_state c = kCmiStateClientSend →
  Reach s0 [] c s → round CmiStateClientSend s.
Proof. intros Hcl Hx HR. unfold CmiStateClientSend. qstep. destruct (is_ok _); [goto|fails]. Qed.

Lemma CmiStateClientWait_round s : c_role c = kShipRoleClient → c_state c = kCmiStateClientWait →
  Reach s0 [] c s → round CmiStateClientWait s.
Proof. intros Hcl Hx HR. unfold CmiStateClientWait. recv. destruct (is_ok _); [goto|fails]. Qed.

Lemma CmiStateClientEvaluate_round s :
  c_role c = kShipRoleClient → c_state c = kCmiStateClientEvaluate →
  Reach s0 [] c s → round CmiStateClientEvaluate s.
Proof.
  intros Hcl Hx HR. unfold CmiStateClientEvaluate. qstep.
  apply wp_then; [|auto with eebus]. destruct (ShipConnectionEvaluateInitMsg _); [goto|fails].
Qed.

Lemma CmiStateServerWait_round s : c_role c = kShipRoleServer → c_state c = kCmiStateServerWait →
  Reach s0 [] c s → round CmiStateServerWait s.
Proof. intros Hcl Hx HR. unfold CmiStateServerWait. recv. destruct (is_ok _); [goto|fails]. Qed.

Lemma CmiStateServerEvaluate_round s :
  c_role c = kShipRoleServer → c_state c = kCmiStateServerEvaluate →
  Reach s0 [] c s → round CmiStateServerEvaluate s.
Proof.
  intros Hcl Hx HR. unfold CmiStateServerEvaluate. qstep.
  destruct (negb _); [qstep; fails|]. qstep.
  destruct (negb _); [qstep; fails|]. apply wp_then; [goto|auto with eebus].
Qed.

Lemma SmeHelloEnter_round s : c_state c = kSmeHelloState →
  Reach s0 [] c s → round SmeHelloEnter s.
Proof.
  intros Hx HR. unfold SmeHelloEnter, INFO_PROVIDER_IS_REMOTE_SERVICE_FOR_SKI_PAIRED.
  apply wp_bind. do 2 qstep. apply wp_bind. eapply (wp_emit HR); [done|].
  clear dependent s. intros s HR. apply wp_ret.
  set (yes := env_paired _ _) in *. clearbody yes.
  assert (∀ s', let y := if yes then kSmeHelloStateReadyInit else kSmeHelloStatePendingInit in
                Reach s0 [OStateUpdate y; OIsPaired yes] (with_state y c) s' → Done U s0 c s') as Hend.
  { intros s' y HR'. eexists _, _.
    split_and!; [exact HR'|split; [apply Hc|by unfold y; destruct yes]|done|].
    rewrite (core_abs_open Hc), Hx. unfold core_abs. simpl. rewrite (proj2 Hc). constructor. }
  destruct yes; (eapply (wp_move HR); [by rewrite Hx|exact Hend]).
Qed.
End handlers.

(** The stored trust decision is consumed. *)
Definition forget_decision (x : ShipConnection) : ShipConnection :=
  set_trust_accept_ctx 0 (set_trust_accept_cb None (set_trust_decision_id 0
    (set_trust_decision kShipConnectionTrustDecisionNone x))).

Section handlers2.
Context `{ShipEnv, ShipCodec} {U : Prop} {s0 : St} {c : Core} (Hc : open_core c)
  (Hr : c_role c = kShipRoleClient ∨ c_role c = kShipRoleServer).
Abbreviation round m s := (wp m (λ _, Done U s0 c) s).

Ltac goto := apply (wp_goto Hc); [eassumption|table].
Ltac fails := apply (wp_give_up Hc); [eassumption|table].
Ltac recv :=
  match goal with
  | HR : Reach _ _ _ ?s, Hx : c_state c = _ |- wp (ShipConnectionReceive _ ≫= _) _ ?s =>
      eapply (wp_recv Hc _ _ _ _ HR); [by rewrite Hx|]; clear dependent s; intros ? s HR
  end.

Lemma SmeHelloStatePendingListen_round s : c_state c = kSmeHelloStatePendingListen →
  Reach s0 [] c s → round SmeHelloStatePendingListen s.
Proof.
  intros Hx HR. unfold SmeHelloStatePendingListen. apply wp_bind.
  eapply wp_mono; [|apply (wp_Receive _ HR), Hc]. clear dependent s. simpl.
  intros e s [[He HR]|(-> & _ & d & id & cb & Hd & HR & Hap)].
  - destruct e; try goto; [|done]. by apply (PendingEvaluate_round Hc Hr).
  - do 4 apply wp_bind, wp_gets.
    pose proof (Reach_core HR) as Hcore. unfold core, conn_core, with_decision in Hcore.
    injection Hcore as _ _ _ _ _ Ed Ei Ecb _. rewrite Ed, Ei, Ecb.
    apply wp_upd4. set (c1 := with_decision kShipConnectionTrustDecisionNone 0 None c).
    eapply wp_mono; [intros ? s'; apply (Done_ext U s0 c c1); done|].
    change (wp (trust_branch d id (trust_accept_ctx (sc s)) cb) (λ _, Done U s0 c1)
      (set_sc (forget_decision (sc s)) s)).
    apply trust_branch_round; [split; [split; [done|apply Hc]|apply Hc]|done|done|done|].
    apply (Reach_upd _ _ _ c1 _ forget_decision HR); [|done|done].
    intros x Hcx.
    change (with_decision kShipConnectionTrustDecisionNone 0 None (conn_core x) = c1).
    by rewrite Hcx.
Qed.

(** ** Protocol handshake *)

(** The error message is sent; either way the connection is given up. *)
Lemma SmeProtHandshakeStateAbort_round err s : can_fail (c_role c) (c_state c) = true →
  Reach s0 [] c s → round (SmeProtHandshakeStateAbort err) s.
Proof.
  intros Hf HR. unfold SmeProtHandshakeStateAbort. do 2 qstep.
  destruct (negb _); [by apply (wp_give_up Hc)|].
  apply wp_bind. eapply (wp_move HR); [by eapply can_fail_not_error|].
  clear dependent s. intros s HR. apply wp_bind. eapply (wp_set_state HR); [done|]. intros _.
  eapply (wp_CloseConnection _ _ _ _ HR); [apply Hc|].
  intros s' HR'. exists failure, (with_closed (with_state kSmeStateError c)).
  split_and!; [exact HR'| split; [apply Hc|done]|done|].
  rewrite (core_abs_open Hc). unfold core_abs. simpl. by constructor.
Qed.
Ltac aborts := apply SmeProtHandshakeStateAbort_round; [table|done].

Lemma ClientInit_round s : c_role c = kShipRoleClient → c_state c = kSmeProtHStateClientInit →
  Reach s0 [] c s → round SmeProtHandshakeStateClientInit s.
Proof.
  intros Hcl Hx HR. unfold SmeProtHandshakeStateClientInit. do 2 qstep.
  destruct (negb _); [fails|goto].
Qed.

Lemma ClientListenChoice_round s :
  c_role c = kShipRoleClient → c_state c = kSmeProtHStateClientListenChoice →
  Reach s0 [] c s → round SmeProtHandshakeStateClientListenChoice s.
Proof.
  intros Hcl Hx HR. unfold SmeProtHandshakeStateClientListenChoice. recv.
  destruct (negb _); [aborts|]. qstep.
  destruct (prot_hs_of _) as [h|]; [|apply wp_then; [aborts|auto with eebus]]. qstep.
  destruct (negb _); [qstep; aborts|].
  unfold SmeProtHandshakeStateSendMaximumSupportedShipVersion. qstep.
  destruct (negb _); [qstep; fails|]. apply wp_then; [goto|auto with eebus].
Qed.

Lemma ServerInit_round s : c_role c = kShipRoleServer → c_state c = kSmeProtHStateServerInit →
  Reach s0 [] c s → round SmeProtHandshakeStateServerInit s.
Proof. intros Hcl Hx HR. unfold SmeProtHandshakeStateServerInit. qstep. goto. Qed.

Lemma ServerListenProposal_round s :
  c_role c = kShipRoleServer → c_state c = kSmeProtHStateServerListenProposal →
  Reach s0 [] c s → round SmeProtHandshakeStateServerListenProposal s.
Proof.
  intros Hcl Hx HR. unfold SmeProtHandshakeStateServerListenProposal. recv.
  destruct (negb _); [aborts|]. qstep.
  destruct (prot_hs_of _) as [h|]; [|apply wp_then; [aborts|auto with eebus]]. qstep.
  case_bool_decide; [qstep; aborts|].
  destruct (SmeProtHandshakeStateAgreeOnProtocolVersion h) as [[major minor]|]; [|qstep; aborts].
  unfold SmeProtHandshakeStateSendAgreementMessage. qstep.
  destruct (negb _); [qstep; fails|]. apply wp_then; [goto|auto with eebus].
Qed.

Lemma ServerListenConfirm_round s :
  c_role c = kShipRoleServer → c_state c = kSmeProtHStateServerListenConfirm →
  Reach s0 [] c s → round SmeProtHandshakeStateServerListenConfirm s.
Proof.
  intros Hcl Hx HR. unfold SmeProtHandshakeStateServerListenConfirm. recv.
  destruct (negb _); [aborts|]. qstep.
  destruct (prot_hs_of _) as [h|]; [|apply wp_then; [aborts|auto with eebus]].
  case_bool_decide; [qstep; aborts|]. qstep. apply wp_then; [goto|auto with eebus].
Qed.

(** ** PIN *)

Lemma SmePinStateCheckInit_round s : c_state c = kSmePinStateCheckInit →
  Reach s0 [] c s → round SmePinStateCheckInit s.
Proof.
  intros Hx HR. unfold SmePinStateCheckInit. qstep. destruct (negb _); [fails|]. recv.
  destruct (negb _); [fails|]. qstep.
  case_bool_decide; (apply wp_then; [|auto with eebus]); [goto|].
  destruct (pin_state_of _) as [p|]; [|goto].
  unfold SmePinStateCheckPinStateAndRequirement, SmePinStateHandlePermissionType.
  destruct (pin_state p), (input_permission p) as [[]|]; first [goto|fails].
Qed.

Lemma SmePinStateCheckListen_round s : c_state c = kSmePinStateCheckListen →
  Reach s0 [] c s → round SmePinStateCheckListen s.
Proof.
  intros Hx HR. unfold SmePinStateCheckListen. recv. destruct (negb _); [fails|]. qstep.
  case_bool_decide; (apply wp_then; [|auto with eebus]); [fails|].
  destruct (pin_state_of _) as [p|]; [|fails]. destruct (pin_state p); first [goto|fails].
Qed.
End handlers2.

(** ** Data exchange *)

Lemma with_req_sent_id c : c_req_sent c = true → with_req_sent c = c.
Proof. destruct c; simpl. by intros ->. Qed.

(** What handling one message of the data exchange does. *)
Definition handled (s0 : St) (k : list Out) (c : Core) (e : EebusError) (s : St) : Prop :=
  Reach s0 k c s ∨
  (e = kEebusErrorOk ∧ ∃ p, Reach s0 (OHandleMessage p :: k) c s) ∨
  (e = kEebusErrorOk ∧ Reach s0 (OConnectionClosed true :: k) (with_closed c) s) ∨
  (e = kEebusErrorCommunicationEnd ∧ c_closed c = false ∧
   Reach s0 (OConnectionClosed (handshake_ended (c_state c)) :: k) (with_closed c) s).

Section data.
Context `{ShipEnv, ShipCodec} {s0 : St}.

Lemma DataExchangeHandleClose_handled k c s d :
  Reach s0 k c s → wp (DataExchangeHandleClose d) (handled s0 k c) s.
Proof.
  intros HR. unfold DataExchangeHandleClose.
  eapply (wp_quiet HR); [destruct (close_phase d); solve_keeps|].
  clear dependent s. intros _ s HR. do 4 qstep.
  apply wp_bind. eapply (wp_upd HR _ (with_closed c)); [by intros x <-|done|done|].
  clear dependent s. intros s HR. apply wp_bind. eapply (wp_emit HR); [done|].
  intros s' HR'. apply wp_ret. right; right; left. done.
Qed.

Lemma DataExchangeHandleReceive_handled k c s buf :
  c_reader c ≠ None → Reach s0 k c s → wp (DataExchangeHandleReceive buf) (handled s0 k c) s.
Proof.
  intros Hrd HR. unfold DataExchangeHandleReceive.
  assert (∀ m : Prog St EebusError, quietly m → wp m (handled s0 k c) s) as Hq.
  { intros m Hm. eapply (wp_quiet_end HR); [done|]. intros a s' HR'. by left. }
  destruct (value_type _); try (apply Hq; auto with eebus typeclass_instances; fail).
  - destruct (data_of _) as [d|]; [|apply Hq; auto with eebus typeclass_instances].
    apply wp_bind. apply wp_branch_false.
    { apply bool_decide_eq_false. by rewrite <- (Reach_core HR) in Hrd. }
    eapply (wp_emit HR); [done|]. intros s' HR'. apply wp_ret. right; left. eauto.
  - destruct (close_of _) as [d|]; [|apply Hq; auto with eebus typeclass_instances].
    by apply DataExchangeHandleClose_handled.
Qed.

Lemma DataExchangeHandle_handled k c s :
  c_reader c ≠ None → Reach s0 k c s → wp DataExchangeHandle (handled s0 k c) s.
Proof.
  intros Hrd HR. unfold DataExchangeHandle. apply wp_bind.
  eapply wp_mono; [|eapply queue_receive_spec, ok_stock, HR]. simpl.
  intros r s1 (_ & Hs1 & Hq1 & m & -> & _).
  assert (Reach s0 k c s1) as HR1 by (eapply Reach_quiet; eauto using stock_ok).
  assert (∀ m : Prog St EebusError, quietly m → wp m (handled s0 k c) s1) as Hq.
  { intros m' Hm. eapply (wp_quiet_end HR1); [done|]. intros a s' HR'. by left. }
  destruct (qtype m); try (apply Hq; auto with eebus typeclass_instances; fail).
  - by apply DataExchangeHandleReceive_handled.
  - apply wp_bind. destruct (c_closed c) eqn:Hcl.
    + apply (wp_closed HR1); [done|]. apply wp_ret. by left.
    + apply (wp_CloseConnection true 0 None _ HR1); [done|].
      intros s' HR'. apply wp_ret. right; right; right. done.
Qed.
End data.

Section handlers3.
Context `{ShipEnv, ShipCodec} {U : Prop} {s0 : St} {c : Core} (Hc : open_core c).
Context (Hsetup : ∀ n ski, env_setup n ski ≠ None) (Hsend : U ∨ request_sendable).
Abbreviation round m s := (wp m (λ _, Done U s0 c) s).

Lemma SmeStateApproved_round s : c_state c = kSmeStateApproved →
  Reach s0 [] c s → round SmeStateApproved s.
Proof.
  intros Hx HR. unfold SmeStateApproved, INFO_PROVIDER_SETUP_REMOTE_DEVICE.
  apply wp_bind. do 2 qstep. apply wp_bind. eapply (wp_emit HR); [done|].
  clear dependent s. intros s HR. apply wp_ret, wp_bind.
  eapply (wp_upd HR _ (with_reader (env_setup a a0) c)); [by intros x <-|done|done|].
  clear dependent s. intros s HR. qstep.
  eapply (wp_move HR); [simpl; by rewrite Hx|]. intros s' HR'.
  eexists _, _. split_and!; [exact HR'|split; [apply Hc|intros _; apply Hsetup]|done|].
  rewrite (core_abs_open Hc), Hx. unfold core_abs. simpl. rewrite (proj2 Hc). constructor.
Qed.

(** The end of a data exchange round on an open connection. *)
Lemma data_end e s :
  c_state c = kDataExchange →
  handled s0 [] (with_req_sent c) e s →
  round (if negb (is_ok e) then ShipConnectionCloseWithError "kDataExchange: data exchange failed"
         else mret tt) s.
Proof.
  intros Hx Hh. set (c1 := with_req_sent c) in *.
  assert (c_closed c1 = false) as Hcl by apply Hc.
  assert (∀ k c' s', Reach s0 k c' s' → c_decision c' = c_decision c → c_reader c' = c_reader c →
    c_role c' = c_role c →
    hs_round (c_role c) U (OApprove ∈ trace s') (mkAbs kDataExchange false (c_req_sent c)) k (core_abs c') →
    Done U s0 c s') as Hdone.
  { intros k c' s' HR' Hd Hrd Hr Hround. exists k, c'.
    split_and!; [done|split; [by rewrite Hd; apply Hc|by rewrite Hrd; intros _; apply Hc]|done|].
    by rewrite (core_abs_open Hc), Hx. }
  assert (∀ o, core_abs c1 = mkAbs kDataExchange false true →
    o = [] ∨ (∃ p, o = [OHandleMessage p]) → ∀ P, hs_round (c_role c) U P
      (mkAbs kDataExchange false (c_req_sent c)) o (core_abs c1)) as Hok.
  { intros o -> Ho P. by constructor. }
  assert (core_abs c1 = mkAbs kDataExchange false true) as Hc1.
  { unfold core_abs, c1. simpl. by rewrite (proj2 Hc), Hx. }
  destruct Hh as [HR|[(-> & p & HR)|[(-> & HR)|(-> & _ & HR)]]]; cbn [negb is_ok].
  - destruct (negb _).
    + apply (wp_CloseWithError _ _ HR); [done|by simpl; rewrite Hx|]. intros s' HR'.
      eapply Hdone; [exact HR'|done..|]. unfold core_abs. simpl. constructor.
    + apply wp_ret. eapply Hdone; [exact HR|done..|]. apply Hok; auto.
  - apply wp_ret. eapply Hdone; [exact HR|done..|]. apply Hok; eauto.
  - apply wp_ret. eapply Hdone; [exact HR|done..|]. unfold core_abs. simpl. rewrite Hx. constructor.
  - simpl in HR. rewrite Hx in HR. apply wp_bind.
    eapply (wp_move HR); [simpl; by rewrite Hx|]. intros s' HR'.
    apply (wp_closed HR'); [done|]. eapply Hdone; [exact HR'|done..|].
    unfold core_abs. simpl. constructor.
Qed.

(** A sendable request is sent. *)
Lemma access_request_sent s :
  Reach s0 [] c s →
  wp (ShipConnectionSerializeAndSendMessage VAccessMethodsRequest)
    (λ e s', Reach s0 [] c s' ∧ (e ≠ kEebusErrorOk → U)) s.
Proof.
  intros HR. destruct Hsend as [HU|(bs & Hser & Hlen & Hw)].
  - eapply (wp_quiet_end HR); [auto with eebus|]. auto.
  - unfold ShipConnectionSerializeAndSendMessage, ShipConnectionSend, WEBSOCKET_WRITE.
    rewrite Hser. change (default [] (Some bs)) with bs. apply wp_bind. do 2 qstep.
    apply wp_bind. eapply wp_mono; [|apply (quiet_emit (OWebsocketWrite bs)); [done|apply HR]].
    simpl. intros _ s' [Hok Hq]. do 2 apply wp_ret.
    split; [exact (Reach_quiet _ _ _ _ _ HR Hok Hq)|].
    rewrite Hw, u64_small by lia.
    rewrite bool_decide_false; [by intros E|intros E; by apply E].
Qed.

(** The same after the access methods request could not be sent. *)
Lemma late_end e s (c1 := with_req_sent (with_closed (with_state kSmeStateError c))) :
  c_state c = kDataExchange → c_req_sent c = false → U →
  handled s0 failure c1 e s →
  round (if negb (is_ok e) then ShipConnectionCloseWithError "kDataExchange: data exchange failed"
         else mret tt) s.
Proof.
  intros Hx Hq HU Hh.
  assert (∀ o s', late_handling o → Reach s0 (o ++ failure) c1 s' → Done U s0 c s') as Hdone.
  { intros o s' Ho HR'. eexists _, c1. split_and!; [exact HR'|split; [apply Hc|done]|done|].
    rewrite (core_abs_open Hc), Hx, Hq. by constructor. }
  destruct Hh as [HR|[(-> & p & HR)|[(-> & HR)|(-> & Hcl & HR)]]]; [| | |done]; cbn [negb is_ok].
  - destruct (negb _).
    + apply (wp_CloseWithError_again _ _ HR); [done..|]. by apply (Hdone []); [constructor|].
    + apply wp_ret. by apply (Hdone []); [constructor|].
  - apply wp_ret. by apply (Hdone [OHandleMessage p]); [constructor|].
  - apply wp_ret. by apply (Hdone [OConnectionClosed true]); [constructor|].
Qed.

Lemma DataExchange_round s : c_state c = kDataExchange → Reach s0 [] c s → round DataExchange s.
Proof.
  intros Hx HR. unfold DataExchange. apply wp_bind.
  assert (c_reader c ≠ None) as Hrd by (apply Hc, Hx).
  assert (∀ s', Reach s0 [] (with_req_sent c) s' →
    round (err ← DataExchangeHandle;
           if negb (is_ok err) then ShipConnectionCloseWithError "kDataExchange: data exchange failed"
           else mret tt) s') as Hgo.
  { intros s' HR'. apply wp_bind. eapply wp_mono; [|by apply (DataExchangeHandle_handled _ (with_req_sent c) _ Hrd HR')].
    simpl. intros e s1. by apply data_end. }
  assert (is_access_methods_req_sent (sc s) = c_req_sent c) as Hsent by (by rewrite <- (Reach_core HR)).
  apply wp_branch; rewrite Hsent; intros Hq%negb_true_iff || intros Hq%negb_false_iff.
  - unfold SmeHandshakeAccessMethodsInit. do 2 apply wp_bind.
    eapply wp_mono; [|by apply access_request_sent]. clear dependent s. simpl.
    intros e s [HR HU]. destruct (negb _) eqn:He.
    + apply (wp_CloseWithError _ _ HR); [apply Hc|by rewrite Hx|].
      clear dependent s. intros s HR.
      eapply (wp_upd HR _ (with_req_sent (with_closed (with_state kSmeStateError c))));
        [by intros x <-|done|done|].
      clear dependent s. intros s HR. apply wp_bind.
      eapply wp_mono; [|by eapply (DataExchangeHandle_handled _ (with_req_sent
        (with_closed (with_state kSmeStateError c))) _ Hrd HR)].
      simpl. intros e1 s1. apply late_end; [done..|].
      apply HU. intros ->. done.
    + eapply (wp_quiet_end HR); [auto with eebus|]. clear dependent s. intros _ s HR.
      eapply (wp_upd HR _ (with_req_sent c)); [by intros x <-|done|done|exact Hgo].
  - rewrite negb_involutive in Hq. apply wp_ret, Hgo. by rewrite with_req_sent_id.
Qed.
End handlers3.

(** ** One round, and the whole thread *)

Section refinement.
Context `{ShipEnv, ShipCodec}.
Context (U : Prop) (Hsetup : ∀ n ski, env_setup n ski ≠ None) (Hsend : U ∨ request_sendable).

(** What a state's round keeps and shows. *)
Definition refines (s s' : St) : Prop :=
  Inv s' ∧ role (sc s') = role (sc s) ∧
  ∃ o t, trace s' = t ++ trace s ∧ keys t = o ∧
    hs_round (role (sc s)) U (OApprove ∈ trace s') (abs s) o (abs s').

Lemma Done_refines s s' : Done U s (core s) s' → refines s s'.
Proof.
  intros (k & c & HR & Hi & Hr & Hround). pose proof HR as (Hok & <- & t & Ht & Hk).
  split; [done|]. split; [exact Hr|]. exists k, t. done.
Qed.

(** The table of the machine at the state and role of [s]. *)
Ltac table_at s Hrole Hx :=
  change (c_role (core s)) with (role (sc s)); change (c_state (core s)) with (sme_state (sc s));
  rewrite Hrole, ?Hx; solve [reflexivity | apply (bool_decide_unpack _); vm_compute; exact I].

(** The handler in the goal decides the lemma. *)
Ltac handler Hc HR Hrole Hx s :=
  lazymatch goal with
  | |- wp (mret _) _ _ => apply (wp_stay Hc); [table_at s Hrole Hx|exact HR|solve_keeps]
  | |- wp (EebusThreadSleep _) _ _ =>
      apply (wp_stay Hc); [table_at s Hrole Hx|exact HR|unfold EebusThreadSleep; solve_keeps]
  | |- wp (ShipConnectionSetSmeState _) _ _ =>
      apply (wp_goto Hc); [exact HR|table_at s Hrole Hx]
  | |- wp CmiStateClientSend _ _ => eapply CmiStateClientSend_round
  | |- wp CmiStateClientWait _ _ => eapply CmiStateClientWait_round
  | |- wp CmiStateClientEvaluate _ _ => eapply CmiStateClientEvaluate_round
  | |- wp CmiStateServerWait _ _ => eapply CmiStateServerWait_round
  | |- wp CmiStateServerEvaluate _ _ => eapply CmiStateServerEvaluate_round
  | |- wp SmeHelloEnter _ _ => eapply SmeHelloEnter_round
  | |- wp SmeHelloStateReadyInit _ _ => eapply SmeHelloStateReadyInit_round
  | |- wp SmeHelloStateReadyListen _ _ => eapply SmeHelloStateReadyListen_round
  | |- wp SmeHelloStatePendingInit _ _ => eapply SmeHelloStatePendingInit_round
  | |- wp SmeHelloStatePendingListen _ _ => eapply SmeHelloStatePendingListen_round
  | |- wp SmeHelloStatePendingTimeout _ _ => eapply SmeHelloStatePendingTimeout_round
  | |- wp SmeHelloStateAbort _ _ => apply (SmeHelloStateAbort_round Hc); [table_at s Hrole Hx|]
  | |- wp SmeProtHandshakeStateClientInit _ _ => eapply ClientInit_round
  | |- wp SmeProtHandshakeStateClientListenChoice _ _ => eapply ClientListenChoice_round
  | |- wp SmeProtHandshakeStateServerInit _ _ => eapply ServerInit_round
  | |- wp SmeProtHandshakeStateServerListenProposal _ _ => eapply ServerListenProposal_round
  | |- wp SmeProtHandshakeStateServerListenConfirm _ _ => eapply ServerListenConfirm_round
  | |- wp SmePinStateCheckInit _ _ => eapply SmePinStateCheckInit_round
  | |- wp SmePinStateCheckListen _ _ => eapply SmePinStateCheckListen_round
  | |- wp SmeStateApproved _ _ => eapply SmeStateApproved_round
  | |- wp DataExchange _ _ => eapply DataExchange_round
  end.

Lemma ClientHandleState_done s (Hc : open_core (core s)) :
  ok s → role (sc s) = kShipRoleClient → wp ClientHandleState (λ _, Done U s (core s)) s.
Proof.
  intros Hok Hrole. pose proof (Reach_refl s Hok) as HR.
  assert (c_role (core s) = kShipRoleClient ∨ c_role (core s) = kShipRoleServer) as Hr by (by left).
  unfold ClientHandleState. apply wp_bind, wp_gets.
  destruct (sme_state (sc s)) eqn:Hx; handler Hc HR Hrole Hx s; assumption.
Qed.

Lemma ServerHandleState_done s (Hc : open_core (core s)) :
  ok s → role (sc s) = kShipRoleServer → wp ServerHandleState (λ _, Done U s (core s)) s.
Proof.
  intros Hok Hrole. pose proof (Reach_refl s Hok) as HR.
  assert (c_role (core s) = kShipRoleClient ∨ c_role (core s) = kShipRoleServer) as Hr by (by right).
  unfold ServerHandleState. apply wp_bind, wp_gets.
  destruct (sme_state (sc s)) eqn:Hx; handler Hc HR Hrole Hx s; assumption.
Qed.

Lemma HandleState_done s :
  Inv s → shutdown_once (sc s) = false → wp HandleState (λ _ s', refines s s') s.
Proof.
  intros [Hok Hi] Hcl. eapply wp_mono; [intros ? s'; apply Done_refines|].
  assert (open_core (core s)) as Hc by done.
  unfold HandleState. apply wp_bind, wp_gets. destruct (role (sc s)) eqn:Hrole.
  - by apply ServerHandleState_done.
  - by apply ClientHandleState_done.
  - apply (wp_stay Hc); [|by apply Reach_refl|solve_keeps].
    change (can_stay (role (sc s)) (sme_state (sc s)) = true). by rewrite Hrole.
Qed.
End refinement.
