(* ===== verification/ShipDemo.v ===== *)
(** * A concrete codec and environment for the SHIP connection

    Used by the witnesses: a codec given by a table, a websocket that takes every
    message, and a peer that follows the protocol. *)

From S2P Require Import Prelude Queue Timer ShipTypes ShipState ShipConnection ShipHandshake ShipRefine.

Definition demo_table : list (ShipValue * list byte) :=
  [ (VHello (mkHello kConnectionHelloPhaseReady (Some 60000%Z) None), [x01; x01]);
    (VHello (mkHello kConnectionHelloPhasePending (Some 60000%Z) None), [x01; x02]);
    (VHello (mkHello kConnectionHelloPhaseAborted None None), [x01; x03]);
    (VProtocolHandshake (mkProtHs kProtocolHandshakeTypeAnnounceMax 1 0
       [kMessageProtocolFormatTypeUTF8]), [x01; x04]);
    (VProtocolHandshake (mkProtHs kProtocolHandshakeTypeSelect 1 0
       [kMessageProtocolFormatTypeUTF8]), [x01; x05]);
    (VPinState (mkPinState kPinStateTypeNone None), [x01; x06]);
    (VAccessMethodsRequest, [x01; x07]);
    (VAccessMethods (mkAccessMethods (Some "peer"%string) false None), [x01; x08]);
    (VData (mkData SHIP_PROTOCOL_ID (Some [x41])), [x02; x01]);
    (VClose (mkClose kConnectionClosePhaseTypeAnnounce None None), [x03; x01]);
    (VClose (mkClose kConnectionClosePhaseTypeConfirm None None), [x03; x02]) ].

#[export] Instance demo_codec : ShipCodec := {|
  ship_serialize v := snd <$> find (λ p, bool_decide (p.1 = v)) demo_table;
  ship_deserialize bs := fst <$> find (λ p, bool_decide (p.2 = bs)) demo_table;
|}.

(** [writes]: what the websocket returns; [paired]: is the peer paired? *)
Definition demo_env (writes : nat → list byte → Z) (paired : bool) : ShipEnv := {|
  env_write := writes;
  env_paired _ _ := paired;
  env_accept _ _ _ _ := true;
  env_setup _ _ := Some 7;
|}.

Definition writes_all (_ : nat) (data : list byte) : Z := Z.of_nat (length data).

(** Every write succeeds except the [k]-th call of the environment. *)
Definition writes_but (k n : nat) (data : list byte) : Z :=
  if bool_decide (n = k) then (-1)%Z else Z.of_nat (length data).

Definition read (bs : list byte) : Ev := EvWebsocket kWebsocketCallbackTypeRead bs.

(** A server's messages to a client it trusts at once, then data and a close. *)
Definition demo_server_sends : list Ev :=
  [ read [x00; x00]; read [x01; x01]; read [x01; x05]; read [x01; x06]; read [x02; x01];
    read [x03; x01] ].

(** A client's messages to a server whose user approves the client. *)
Definition demo_client_sends : list Ev :=
  [ read [x00; x00]; EvApprovePendingHandshake; read [x01; x01]; read [x01; x04];
    read [x01; x05]; read [x01; x06] ].

(** A connection just started at second 100. *)
Definition demo_start (r : ShipRole) (evs : list Ev) : St :=
  match ShipConnectionTryStart true (ShipConnectionConstruct r "me" "ski" None) with
  | Ret _ c => mkSt c (100 * 10 ^ 9) evs 0 []
  | _ => mkSt (ShipConnectionConstruct r "me" "ski" None) 0 [] 0 []
  end.

(** The state a run ends in. *)
Definition final {A} (o : outcome St A) : option St :=
  match o with Ret _ s | Block s => Some s | Crash _ => None end.
