(* ===== verification/ShipWire.v ===== *)
(** * What a SHIP connection writes to its peer

    The connection with the codec of the repository: every message the thread
    writes, in either role and whatever the other threads do meanwhile, is one the
    reader on the other side takes for what the writer meant. *)

From S2P Require Import Prelude Queue Timer StringUtil Json ShipTypes ShipState ShipConnection ShipHandshake ShipSerialize ShipDeserialize ShipFrame ShipCodec.

Local Open Scope Z_scope.

Create HintDb says.

Section wire.
Context `{ShipEnv, CJsonLaws}.

(** The first two bytes of a connection, or a message that is read as it was meant;
    of data this is required for payloads that are JSON text. *)
Definition understood (data : list byte) : Prop :=
  data = kShipInitMessage ∨
  ∃ v, Serialize v = Parsed data ∧
       ((∀ d, v = VData d → json_text payload_depth (payload d)) → Deserialize data = Parsed v).

Definition event_understood (o : Out) : Prop :=
  match o with OWebsocketWrite data => understood data | _ => True end.

(** [says Q m]: with a SHIP id that is a C string, [m] writes only what is understood,
    keeps the id, and returns a value with [Q]. *)
Definition speaks (s s' : St) : Prop :=
  local_ship_id (sc s') = local_ship_id (sc s) ∧
  ∃ t, trace s' = t ++ trace s ∧ Forall event_understood t.

Definition says {A} (Q : A → Prop) (m : Prog St A) : Prop :=
  ∀ s, is_cstring (local_ship_id (sc s)) →
    match m s with
    | Ret a s' => speaks s s' ∧ Q a
    | Block s' => speaks s s'
    | Crash _ => True
    end.
Abbreviation says_any := (says (λ _, True)).

#[local] Instance speaks_preorder : PreOrder speaks.
Proof.
  split.
  - intros s. split; [done|]. by exists [].
  - intros s1 s2 s3 [E1 (t1 & T1 & K1)] [E2 (t2 & T2 & K2)]. split; [congruence|].
    exists (t2 ++ t1). rewrite T2, T1, app_assoc. split; [done|]. by apply Forall_app.
Qed.

(** ** Composition *)

Lemma says_mono {A} (P Q : A → Prop) m : (∀ a, P a → Q a) → says P m → says Q m.
Proof.
  intros HPQ Hm s Hs. specialize (Hm s Hs). destruct (m s); [|done|done].
  destruct Hm as [Hw Ha]. auto.
Qed.

Lemma says_ret {A} (Q : A → Prop) a : Q a → says Q (mret a).
Proof. intros Ha s Hs. split; [reflexivity|done]. Qed.

Lemma says_bind {A B} (P : A → Prop) (Q : B → Prop) (m : Prog St A) f :
  says P m → (∀ a, P a → says Q (f a)) → says Q (m ≫= f).
Proof.
  intros Hm Hf s Hs. specialize (Hm s Hs). unfold mbind, Prog_bind.
  destruct (m s) as [a s1|s1|]; [|done|done]. destruct Hm as [Hw Ha].
  specialize (Hf a Ha s1). rewrite (proj1 Hw) in Hf. specialize (Hf Hs).
  destruct (f a s1); [destruct Hf; split; [by etrans|done]|by etrans|done].
Qed.

Lemma says_seq {A B} (Q : B → Prop) (m : Prog St A) f :
  says_any m → (∀ a, says Q (f a)) → says Q (m ≫= f).
Proof. intros Hm Hf. eapply says_bind; [exact Hm|]. auto. Qed.

Lemma says_branch {A} (Q : A → Prop) c t e : says Q t → says Q e → says Q (branch c t e).
Proof. intros Ht He s. unfold branch. destruct (c s); [apply Ht|apply He]. Qed.

Lemma says_if {A} (Q : A → Prop) (b : bool) (t e : Prog St A) :
  says Q t → says Q e → says Q (if b then t else e).
Proof. by destruct b. Qed.

Lemma says_gets {A} (g : St → A) : says_any (gets g).
Proof. intros s Hs. split; [reflexivity|done]. Qed.

Lemma says_crash {A} (Q : A → Prop) why : says Q (crash why).
Proof. done. Qed.

Lemma says_upd f : (∀ c, local_ship_id (f c) = local_ship_id c) → says_any (upd f).
Proof. intros Hf s Hs. split; [|done]. split; [apply Hf|]. by exists []. Qed.

Lemma says_emit o : event_understood o → says_any (emit o).
Proof. intros Ho s Hs. split; [|done]. split; [done|]. exists [o]. by split; [|constructor]. Qed.

Lemma says_ship_id : says is_cstring (rd local_ship_id).
Proof. intros s Hs. split; [reflexivity|done]. Qed.

Lemma says_next_call : says_any next_call.
Proof. intros s Hs. split; [|done]. split; [done|]. by exists []. Qed.

(** ** The other threads *)

Definition keeps_id {A} (m : Prog ShipConnection A) : Prop :=
  ∀ c, match m c with
       | Ret _ c' | Block c' => local_ship_id c' = local_ship_id c
       | Crash _ => True
       end.

Lemma queue_send_id m : keeps_id (queue_send m).
Proof.
  intros c. unfold queue_send. destruct (msg_queue c) as [q|]; [|done].
  by destruct (Queue.Send m kTimeoutInfinite q).
Qed.

Lemma mret_id {A} (a : A) : keeps_id (mret a).
Proof. done. Qed.

Lemma branch_id {A} b (m1 m2 : Prog ShipConnection A) :
  keeps_id m1 → keeps_id m2 → keeps_id (branch b m1 m2).
Proof. intros Hm1 Hm2 c. unfold branch. destruct (b c); [apply Hm1|apply Hm2]. Qed.

Lemma set_timer_id t x c : local_ship_id (set_timer t x c) = local_ship_id c.
Proof. by destruct t. Qed.

Lemma timer_wakes_id now t : keeps_id (timer_wakes now t).
Proof.
  intros c. unfold timer_wakes. destruct (Timer.Wake now (get_timer t c)) as [t' []].
  - pose proof (queue_send_id (qmsg kShipConnectionQueueMsgTypeTimeout None) c) as Hq.
    unfold ShipConnectionTimeoutCallback. destruct (queue_send _ c); [|done|done].
    by rewrite set_timer_id.
  - apply set_timer_id.
Qed.

Lemma run_on_sc_speaks {A} (m : Prog ShipConnection A) s : keeps_id m → speaks s (run_on_sc m s).
Proof.
  intros Hm. specialize (Hm (sc s)). unfold run_on_sc.
  destruct (m (sc s)); [| |reflexivity]; (split; [exact Hm|by exists []]).
Qed.

Lemma env_step_speaks e s : speaks s (env_step e s).
Proof.
  destruct e as [ns|tm| |id cb ctx| |m|ty data| |]; simpl;
    try (apply run_on_sc_speaks); try (split; [done|by exists []]).
  - apply timer_wakes_id.
  - transitivity (set_calls_trace (calls s) (OApprove :: trace s) s).
    + split; [done|]. exists [OApprove]. by split; [|constructor].
    + apply run_on_sc_speaks. apply branch_id; [apply mret_id|apply queue_send_id].
  - destruct cb; [|apply mret_id]. apply branch_id; [apply mret_id|apply queue_send_id].
  - apply branch_id; [apply mret_id|apply queue_send_id].
  - apply queue_send_id.
  - apply branch_id; [apply mret_id|]. destruct ty; apply queue_send_id.
  - intros c. apply (queue_send_id _ (ShipState.set_cancel true c)).
Qed.

Lemma env_until_yield_speaks evs : ∀ s, speaks s (env_until_yield evs s).
Proof.
  induction evs as [|e evs IH]; intros s; simpl; [split; [done|by exists []]|].
  destruct e; first [split; [done|by exists []] | etrans; [apply env_step_speaks|apply IH]].
Qed.

Lemma env_until_message_speaks evs : ∀ s, speaks s (env_until_message evs s).
Proof.
  induction evs as [|e evs IH]; intros s; simpl; destruct (message_waits (sc s)).
  1-3: split; [done|by exists []].
  etrans; [apply env_step_speaks|apply IH].
Qed.

Lemma says_sync : says_any sync.
Proof. intros s Hs. split; [apply env_until_yield_speaks|done]. Qed.

Lemma says_wait_message : says_any wait_message.
Proof. intros s Hs. split; [apply env_until_message_speaks|done]. Qed.
(** ** The calls of the connection thread *)

Lemma says_queue_take : says_any queue_take.
Proof.
  intros s Hs. unfold queue_take. destruct (msg_queue (sc s)) as [q|]; [|done].
  destruct (Queue.Receive kTimeoutInfinite q); [|reflexivity|done].
  split; [|done]. split; [done|by exists []].
Qed.

Lemma says_set_timer f t : says_any (modify (λ s, set_sc (set_timer t (f s) (sc s)) s)).
Proof. intros s Hs. split; [|done]. split; [apply set_timer_id|by exists []]. Qed.

Lemma says_remaining t : says is_u32 (EEBUS_TIMER_GET_REMAINING_TIME t).
Proof.
  eapply says_bind; [apply says_sync|]. intros _ _ s Hs. split; [reflexivity|].
  unfold GetRemainingTime. repeat case_match; try apply u32_range; unfold is_u32; lia.
Qed.

(** What may be written: of data any payload. *)
Definition speakable (v : ShipValue) : Prop :=
  match v with VData d => protocol_id d = SHIP_PROTOCOL_ID | _ => sendable v end.

Lemma speakable_understood v bs : speakable v → Serialize v = Parsed bs → understood bs.
Proof.
  intros Hv Hbs. right. exists v. split; [done|]. intros Hd.
  destruct (codec_round_trip v) as (bs' & E & Hread); [|congruence].
  destruct v; try exact Hv. specialize (Hd _ eq_refl). simpl in Hv. split; [|exact Hd].
  destruct Hd as (j & s & Hp & _ & Hbuf). unfold well_typed. rewrite Hv. split; [done|].
  split; [vm_compute; lia|]. eauto.
Qed.
End wire.
Abbreviation says_any := (says (λ _, True)).

#[export] Hint Resolve says_gets says_crash says_next_call says_sync says_wait_message says_queue_take
  says_set_timer : says.

Ltac says_step :=
  first
    [ solve [eauto with says]
    | apply says_ret; exact I
    | apply says_upd; reflexivity
    | apply says_emit; exact I
    | apply says_seq; [|intros ?]
    | apply says_branch
    | apply says_if
    | case_match ].
(** Closes goals of the form [says_any m]. *)
Ltac solve_says := unfold rd; repeat says_step.

Section connection.
Context `{ShipEnv, CJsonLaws}.

Lemma says_timer_start t ms : says_any (EEBUS_TIMER_START t ms).
Proof. unfold EEBUS_TIMER_START. solve_says. Qed.
Lemma says_timer_stop t : says_any (EEBUS_TIMER_STOP t).
Proof. unfold EEBUS_TIMER_STOP. solve_says. Qed.
Lemma says_timer_state t : says_any (EEBUS_TIMER_GET_TIMER_STATE t).
Proof. unfold EEBUS_TIMER_GET_TIMER_STATE. solve_says. Qed.
Lemma says_receive : says_any EEBUS_QUEUE_RECEIVE.
Proof. unfold EEBUS_QUEUE_RECEIVE. solve_says. Qed.
Lemma says_set_state x : says_any (ShipConnectionSetSmeState x).
Proof. unfold ShipConnectionSetSmeState. solve_says. Qed.
#[local] Hint Resolve says_timer_start says_timer_stop says_timer_state says_receive says_set_state : says.

Lemma says_write data : understood data → says_any (ShipConnectionSend (Some data)).
Proof.
  intros Hd. unfold ShipConnectionSend, WEBSOCKET_WRITE, need_websocket. simpl.
  assert (says_any (emit (OWebsocketWrite data))) by by apply says_emit. solve_says.
Qed.

Lemma says_message v : speakable v → says_any (ShipConnectionSerializeAndSendMessage v).
Proof.
  intros Hv. unfold ShipConnectionSerializeAndSendMessage. simpl.
  destruct (Serialize v) as [bs| |] eqn:E; simpl; [|by solve_says..].
  apply says_write. by eapply speakable_understood.
Qed.

Lemma says_init : says_any (ShipConnectionSend (Some kShipInitMessage)).
Proof. apply says_write. by left. Qed.
#[local] Hint Resolve says_init : says.

Lemma says_close safe code reason : opt_all is_cstring reason → says_any (CloseConnection safe code reason).
Proof.
  intros Hr. unfold CloseConnection.
  assert (says_any (ShipConnectionSerializeAndSendMessage
    (VClose (mkClose kConnectionClosePhaseTypeAnnounce None reason)))).
  { apply says_message. by split. }
  unfold WEBSOCKET_CLOSE, need_websocket. solve_says.
Qed.

#[local] Hint Resolve says_close : says.
#[local] Hint Extern 1 (opt_all is_cstring _) => exact eq_refl : says.
#[local] Hint Extern 1 (opt_all is_cstring None) => exact I : says.

Lemma says_close_with_error err : is_cstring err → says_any (ShipConnectionCloseWithError err).
Proof.
  intros Herr. unfold ShipConnectionCloseWithError.
  assert (says_any (CloseConnection true 0 (Some err))) by by apply says_close.
  solve_says.
Qed.
#[local] Hint Resolve says_close_with_error : says.
#[local] Hint Extern 1 (is_cstring _) => exact eq_refl : says.

Lemma says_wait_loop fuel : says_any (wait_loop fuel).
Proof. induction fuel as [|fuel IH]; simpl; [done|]. solve_says. Qed.
#[local] Hint Resolve says_wait_loop : says.

Lemma says_ShipConnectionReceive timeout : says_any (ShipConnectionReceive timeout).
Proof.
  unfold ShipConnectionReceive, ShipConnectionWaitForMessage, ShipConnectionTranslateQueueMessage.
  solve_says.
Qed.
#[local] Hint Resolve says_ShipConnectionReceive : says.

Lemma says_release : says_any MessageBufferRelease_msg.
Proof. unfold MessageBufferRelease_msg. solve_says. Qed.
#[local] Hint Resolve says_release : says.

(** *** Hello *)

Lemma says_hello phase w prolongation :
  w = 0 ∨ (is_u32 w ∧ prolongation = false) → says_any (SmeHelloStateSendHelloMsg phase w prolongation).
Proof.
  intros Hw. apply says_message. split; [|done]. destruct Hw as [->|[Hw ->]]; simpl; [auto|].
  case_bool_decide; simpl; auto.
Qed.

Lemma says_hello_init phase : says_any (SmeHelloStateSendHelloMsg phase tHelloInit false).
Proof. apply says_hello. right. split; [|done]. unfold tHelloInit. vm_compute. done. Qed.
Lemma says_hello_none phase b : says_any (SmeHelloStateSendHelloMsg phase 0 b).
Proof. apply says_hello. by left. Qed.
#[local] Hint Resolve says_hello_init says_hello_none : says.

Lemma says_hello_abort : says_any SmeHelloStateAbort.
Proof. unfold SmeHelloStateAbort. solve_says. Qed.
Lemma says_hello_ready_init : says_any SmeHelloStateReadyInit.
Proof. unfold SmeHelloStateReadyInit. solve_says. Qed.
Lemma says_hello_pending_init : says_any SmeHelloStatePendingInit.
Proof. unfold SmeHelloStatePendingInit. solve_says. Qed.
#[local] Hint Resolve says_hello_abort says_hello_ready_init says_hello_pending_init : says.

Lemma says_hello_update m : says_any (SmeHelloStateCommonUpdateHelloMessageSendProcedure m).
Proof.
  unfold SmeHelloStateCommonUpdateHelloMessageSendProcedure. apply says_seq; [solve_says|intros st].
  apply (says_bind is_u32).
  - apply says_if; [apply says_remaining|]. apply says_ret. by split.
  - intros w Hw. assert (says_any (SmeHelloStateSendHelloMsg (hello_phase m) w false))
      by (apply says_hello; auto). solve_says.
Qed.
#[local] Hint Resolve says_hello_update : says.

Lemma says_hello_prolong m :
  says_any (SmeHelloStateCommonProlongationRequestAndUpdateMessageSendProcedure m).
Proof.
  unfold SmeHelloStateCommonProlongationRequestAndUpdateMessageSendProcedure.
  destruct (prolongation_request m) as [[]|]; [|solve_says..].
  eapply says_bind; [apply says_remaining|]. intros. solve_says.
Qed.
#[local] Hint Resolve says_hello_prolong : says.

Lemma says_hello_wait m : says_any (SmeHelloCalculateNewWaitValueAndSetTimer m).
Proof.
  unfold SmeHelloCalculateNewWaitValueAndSetTimer, ShipConnectionSetWaitingValue. solve_says.
Qed.
#[local] Hint Resolve says_hello_wait : says.

Lemma says_hello_ready_listen : says_any SmeHelloStateReadyListen.
Proof. unfold SmeHelloStateReadyListen, SmeHelloReadyStateEvaluateReceivedHelloMessage. solve_says. Qed.
Lemma says_hello_pending_listen : says_any SmeHelloStatePendingListen.
Proof.
  unfold SmeHelloStatePendingListen, SmeHelloPendingStateEvaluateReceivedHelloMessage,
    SmeHelloStateCheckWaitingSubelement, SmeHelloStateCheckWaitAndProlongationRequestSubelements,
    call_accept_cb. solve_says.
Qed.
Lemma says_hello_pending_timeout : says_any SmeHelloStatePendingTimeout.
Proof.
  unfold SmeHelloStatePendingTimeout, ShipConnectionSetWaitingValue.
  assert (says_any (EEBUS_TIMER_GET_REMAINING_TIME ProlongationRequestReply)).
  { eapply says_mono; [|apply says_remaining]. done. }
  solve_says.
Qed.
Lemma says_hello_enter : says_any SmeHelloEnter.
Proof. unfold SmeHelloEnter, INFO_PROVIDER_IS_REMOTE_SERVICE_FOR_SKI_PAIRED. solve_says. Qed.
#[local] Hint Resolve says_hello_ready_listen says_hello_pending_listen says_hello_pending_timeout
  says_hello_enter : says.

(** *** Protocol handshake and PIN *)

Lemma says_protocol_handshake t major minor :
  is_u8 major → is_u8 minor →
  says_any (ShipConnectionSerializeAndSendMessage
    (VProtocolHandshake (mkProtHs t major minor [kMessageProtocolFormatTypeUTF8]))).
Proof. intros. apply says_message. split; [|done]. split_and!; [done..|]. simpl. unfold formats_max. lia. Qed.

Lemma u8_is_u8 x : is_u8 (u8 x).
Proof. apply Z.mod_pos_bound. done. Qed.

Lemma says_supported t :
  says_any (ShipConnectionSerializeAndSendMessage
    (VProtocolHandshake (mkProtHs t SHIP_PROTOCOL_MAX_SUPPORTED_MAJOR_VERSION
       SHIP_PROTOCOL_MAX_SUPPORTED_MINOR_VERSION [kMessageProtocolFormatTypeUTF8]))).
Proof. apply says_protocol_handshake; by split. Qed.
Lemma says_handshake_error e : says_any (ShipConnectionSerializeAndSendMessage (VProtocolHandshakeError e)).
Proof. by apply says_message. Qed.
Lemma says_pin_state p : says_any (ShipConnectionSerializeAndSendMessage (VPinState p)).
Proof. by apply says_message. Qed.
#[local] Hint Resolve says_supported says_handshake_error says_pin_state : says.

Lemma says_handshake_abort e : says_any (SmeProtHandshakeStateAbort e).
Proof. unfold SmeProtHandshakeStateAbort. solve_says. Qed.
#[local] Hint Resolve says_handshake_abort : says.

Lemma says_client_init : says_any SmeProtHandshakeStateClientInit.
Proof. unfold SmeProtHandshakeStateClientInit. solve_says. Qed.
Lemma says_client_choice : says_any SmeProtHandshakeStateClientListenChoice.
Proof.
  unfold SmeProtHandshakeStateClientListenChoice, SmeProtHandshakeStateSendMaximumSupportedShipVersion.
  solve_says.
Qed.
Lemma says_server_proposal : says_any SmeProtHandshakeStateServerListenProposal.
Proof.
  unfold SmeProtHandshakeStateServerListenProposal, SmeProtHandshakeStateAgreeOnProtocolVersion,
    SmeProtHandshakeStateSendAgreementMessage.
  assert (∀ t x y, says_any (ShipConnectionSerializeAndSendMessage
    (VProtocolHandshake (mkProtHs t (u8 x) (u8 y) [kMessageProtocolFormatTypeUTF8])))).
  { intros. apply says_protocol_handshake; apply u8_is_u8. }
  apply says_seq; [solve_says|intros ret]. apply says_if; [solve_says|].
  apply says_seq; [solve_says|intros buf]. destruct (prot_hs_of _) as [p|]; [|solve_says].
  apply says_seq; [solve_says|intros _]. apply says_if; [solve_says|].
  destruct (_ && _); solve_says.
Qed.
Lemma says_server_confirm : says_any SmeProtHandshakeStateServerListenConfirm.
Proof. unfold SmeProtHandshakeStateServerListenConfirm. solve_says. Qed.
Lemma says_pin_init : says_any SmePinStateCheckInit.
Proof.
  unfold SmePinStateCheckInit, SmePinStateCommonPinRequirementSendProcedure,
    SmePinStateCheckPinStateAndRequirement, SmePinStateHandlePermissionType. solve_says.
Qed.
Lemma says_pin_listen : says_any SmePinStateCheckListen.
Proof. unfold SmePinStateCheckListen. solve_says. Qed.
#[local] Hint Resolve says_client_init says_client_choice says_server_proposal says_server_confirm
  says_pin_init says_pin_listen : says.

(** *** Access methods and data *)

Lemma says_approved : says_any SmeStateApproved.
Proof. unfold SmeStateApproved, INFO_PROVIDER_SETUP_REMOTE_DEVICE. solve_says. Qed.
Lemma says_request : says_any (ShipConnectionSerializeAndSendMessage VAccessMethodsRequest).
Proof. by apply says_message. Qed.
#[local] Hint Resolve says_approved says_request : says.

Lemma says_access_methods : says_any SmeHandshakeAccessMethodsRequestHandle.
Proof.
  eapply says_bind; [apply says_ship_id|]. intros id Hid. apply says_message.
  split; [|done]. split; [by eexists|done].
Qed.
Lemma says_access_methods_handle d : says_any (SmeHandshakeAccessMethodsHandle d).
Proof. unfold SmeHandshakeAccessMethodsHandle, SmeHandshakeAccessMethodsCheckMessageVal. solve_says. Qed.
Lemma says_data buf : says_any (ShipConnectionSerializeAndSendMessage (VData (mkData SHIP_PROTOCOL_ID buf))).
Proof. by apply says_message. Qed.
Lemma says_confirm :
  says_any (ShipConnectionSerializeAndSendMessage (VClose (mkClose kConnectionClosePhaseTypeConfirm None None))).
Proof. by apply says_message. Qed.
#[local] Hint Resolve says_access_methods says_access_methods_handle says_data says_confirm : says.

Lemma says_data_exchange : says_any DataExchange.
Proof.
  unfold DataExchange, SmeHandshakeAccessMethodsInit, DataExchangeHandle, DataExchangeHandleReceive,
    DataExchangeHandleSendSpineData, DataExchangeHandleClose, DATA_READER_HANDLE_MESSAGE,
    WEBSOCKET_CLOSE, need_websocket. solve_says.
Qed.
#[local] Hint Resolve says_data_exchange : says.

(** ** The thread *)

Lemma says_HandleState : says_any HandleState.
Proof.
  unfold HandleState, ClientHandleState, ServerHandleState, CmiStateClientSend, CmiStateClientWait,
    CmiStateClientEvaluate, CmiStateServerWait, CmiStateServerEvaluate, SmeProtHandshakeStateServerInit,
    EebusThreadSleep. solve_says.
Qed.

Lemma says_loop n : says_any (ShipConnectionLoop n).
Proof.
  induction n as [|n IH]; simpl; [by apply says_ret|]. apply says_branch; [|by apply says_ret].
  apply says_seq; [apply says_HandleState|]. by intros _.
Qed.

Lemma says_StopFinish : says_any StopFinish.
Proof. unfold StopFinish. solve_says. Qed.

(** Some rounds of the thread, and the rest of [Stop] when it was called. *)
Definition run_and_stop (n : nat) (stopped : bool) : Prog St unit :=
  ShipConnectionLoop n;; (if stopped then StopFinish else mret tt).

End connection.

(** ** A connection on the wire

    The run of the witness of [ShipWire]: a client that meets a server it trusts, with
    the codec of the repository on the text of [JsonText], so every message below is the
    bytes a device sends. *)

From Stdlib Require Import Ascii Strings.String.
From S2P Require Import JsonText ShipDemo.

Local Open Scope string_scope.
Local Open Scope list_scope.
Local Open Scope Z_scope.

#[local] Existing Instances jtree_json jtree_laws ship_message_codec.

Definition wire_server_sends : list Ev :=
  [ read [x00; x00];
    read (wire kMsgTypeControl "{^connectionHello^:[{^phase^:^ready^},{^waiting^:60000}]}");
    read (wire kMsgTypeControl "{^messageProtocolHandshake^:[{^handshakeType^:^select^},{^version^:[{^major^:1},{^minor^:0}]},{^formats^:[{^format^:[^JSON-UTF8^]}]}]}");
    read (wire kMsgTypeControl "{^connectionPinState^:[{^pinState^:^none^}]}");
    read (wire kMsgTypeControl "{^accessMethodsRequest^:[]}");
    read (wire kMsgTypeEnd "{^connectionClose^:[{^phase^:^announce^}]}") ].

Definition wire_run : outcome St unit :=
  @run_and_stop (demo_env writes_all true) jtree_json 20 false (demo_start kShipRoleClient wire_server_sends).
Definition wire_end : St := default (demo_start kShipRoleClient []) (final wire_run).
Definition wire_writes : list (list byte) :=
  omap (λ o, match o with OWebsocketWrite data => Some data | _ => None end) (trace wire_end).

(** What the client writes, the last message first. *)
Example handshake_on_the_wire :
  wire_writes =
  [ wire kMsgTypeEnd "{^connectionClose^:[{^phase^:^confirm^}]}";
    wire kMsgTypeControl "{^accessMethods^:[{^id^:^me^}]}";
    wire kMsgTypeControl "{^accessMethodsRequest^:[]}";
    wire kMsgTypeControl "{^connectionPinState^:[{^pinState^:^none^}]}";
    wire kMsgTypeControl "{^messageProtocolHandshake^:[{^handshakeType^:^select^},{^version^:[{^major^:1},{^minor^:0}]},{^formats^:[{^format^:[^JSON-UTF8^]}]}]}";
    wire kMsgTypeControl "{^messageProtocolHandshake^:[{^handshakeType^:^announceMax^},{^version^:[{^major^:1},{^minor^:0}]},{^formats^:[{^format^:[^JSON-UTF8^]}]}]}";
    wire kMsgTypeControl "{^connectionHello^:[{^phase^:^ready^},{^waiting^:60000}]}";
    kShipInitMessage ].
Proof. vm_compute. reflexivity. Qed.

