(* ===== verification/ShipProperties.v ===== *)
(** * Properties of the SHIP connection

    What the refinement of [ShipRefine.v] means for a whole run of the
    connection thread, from a connection that was just started. *)

From S2P Require Import Prelude StringUtil Queue Timer ShipTypes ShipState ShipConnection ShipHandshake.
From S2P Require Import ShipReach ShipRefine ShipDemo.

(** ** Runs *)

(** Rounds of the machine until the connection is closed; events newest first. *)
Inductive hs_run (r : ShipRole) (U P : Prop) (a : Abs) : list Out → Abs → Prop :=
| run_start : hs_run r U P a [] a
| run_round o a' o' a'' : hs_run r U P a o a' → hs_round r U P a' o' a'' →
    hs_run r U P a (o' ++ o) a''.

Lemma hs_run_mono r (U P P' : Prop) a o a' :
  (P → P') → hs_run r U P a o a' → hs_run r U P' a o a'.
Proof. intros HP Hr. induction Hr; econstructor; eauto using hs_round_mono. Qed.

(** The abstract state of a connection that was just constructed. *)
Definition first_state (r : ShipRole) : Abs :=
  mkAbs (if bool_decide (r = kShipRoleServer) then kCmiStateServerWait else kCmiStateClientSend)
    false false.

(** A connection constructed and started, at some time, before some schedule. *)
Definition started (r : ShipRole) (s : St) : Prop :=
  ∃ local ski remote, 
    ShipConnectionTryStart true (ShipConnectionConstruct r local ski remote)
    = Ret kEebusErrorOk (sc s) ∧ calls s = 0 ∧ trace s = [].

Lemma TryStart_core r local ski remote c :
  ShipConnectionTryStart true (ShipConnectionConstruct r local ski remote) = Ret kEebusErrorOk c →
  conn_core c = mkCore r (a_state (first_state r)) false true None
                  kShipConnectionTrustDecisionNone 0 None false ∧
  ∃ q, msg_queue c = Some q ∧ open_fifo kQueueMaxMsg q [].
Proof.
  unfold ShipConnectionTryStart.
  destruct (EebusQueueCreate _ _ _) as [q|] eqn:Hq; [|done].
  unfold_prog. intros Hs. injection Hs as <-. split; [done|].
  exists q. split; [done|]. by apply EebusQueueCreate_fifo in Hq.
Qed.

Lemma started_inv r s : started r s →
  Inv s ∧ role (sc s) = r ∧ abs s = first_state r ∧ trace s = [].
Proof.
  intros (local & ski & remote & Hs & _ & Ht).
  apply TryStart_core in Hs as (Hcore & q & Hq & Hl).
  assert (core s = conn_core (sc s)) as E by done. rewrite Hcore in E.
  split_and!; [|by injection Hcore|unfold abs; rewrite E; by destruct r|done].
  split; [split; [|by injection Hcore]|].
  - exists 0, q, []. done.
  - rewrite E. split; [done|]. by destruct r.
Qed.

Section runs.
Context `{ShipEnv, ShipCodec} (U : Prop)
  (Hsetup : ∀ n ski, env_setup n ski ≠ None) (Hsend : U ∨ request_sendable).

(** A property of the connection between rounds, kept by every round, is kept
    by the thread. *)
Lemma loop_invariant (J : St → Prop) :
  (∀ s s', J s → shutdown_once (sc s) = false → Inv s → refines U s s' → J s') →
  ∀ n s, Inv s → J s → wp (ShipConnectionLoop n) (λ _ s', Inv s' ∧ J s') s.
Proof.
  intros Hstep n. induction n as [|n IH]; intros s Hs HJ; cbn [ShipConnectionLoop]; [done|].
  apply wp_branch; [|done].
  intros [_ Hopen%negb_true_iff]%andb_true_iff. apply wp_bind.
  eapply wp_mono; [|by apply (HandleState_done U)]. simpl. intros _ s' Hr.
  apply IH; [apply Hr|by eapply Hstep].
Qed.

Lemma loop_refines r s0 n : started r s0 →
  wp (ShipConnectionLoop n)
    (λ _ s, Inv s ∧ role (sc s) = r ∧
            hs_run r U (OApprove ∈ trace s) (first_state r) (keys (trace s)) (abs s)) s0.
Proof.
  intros (Hinv & Hrole & Habs & Ht)%started_inv.
  apply (loop_invariant (λ s, role (sc s) = r ∧
    hs_run r U (OApprove ∈ trace s) (first_state r) (keys (trace s)) (abs s))); [|done|].
  - intros s s' [Hr Hrun] _ _ (_ & Hr' & o & t & Htr & Ho & Hround).
    split; [congruence|]. rewrite Htr, keys_app, Ho. rewrite Hr in Hround.
    rewrite Htr in Hround. econstructor; [|exact Hround].
    eapply hs_run_mono; [|exact Hrun]. intros ?. apply elem_of_app. by right.
  - split; [done|]. rewrite Ht, Habs. constructor.
Qed.
End runs.

(** ** Trust *)

(** Evidence that the peer is trusted. *)
Definition trusted (t : list Out) : Prop :=
  OApprove ∈ t ∨ OIsPaired true ∈ t ∨ ∃ cb id, OAcceptCallback cb id true ∈ t.

Lemma trusted_mono t t' : trusted t → trusted (t' ++ t).
Proof. intros [H|[H|(cb & id & H)]]; [left|right; left|right; right; exists cb, id]; apply elem_of_app; by right. Qed.

(** The states after the "hello" phase has found the peer trusted. *)
Definition trusted_state (x : SmeState) : bool :=
  match x with
  | kSmeHelloStateReadyInit | kSmeHelloStateReadyListen | kSmeHelloStateReadyTimeout
  | kSmeHelloStateOk
  | kSmeProtHStateServerInit | kSmeProtHStateClientInit
  | kSmeProtHStateServerListenProposal | kSmeProtHStateServerListenConfirm
  | kSmeProtHStateClientListenChoice | kSmeProtHStateClientOk | kSmeProtHStateServerOk
  | kSmePinStateCheckInit | kSmePinStateCheckListen | kSmePinStateCheckBusyWait
  | kSmePinStateCheckOk | kSmeStateApproved | kDataExchange => true
  | _ => false
  end.

(** What only a trusted peer may cause. *)
Definition privileged (o : Out) : bool :=
  match o with OSetupRemoteDevice | OHandleMessage _ => true | _ => false end.

Lemma next_trusted r x y : y ∈ next r x → trusted_state y = true → trusted_state x = true.
Proof.
  destruct r, x; cbn [next]; rewrite ?list_elem_of_In; cbn [In]; intros Hy;
    repeat (destruct Hy as [<-|Hy]; [done|]); done.
Qed.

(** A round into a trusted state starts in one, or finds evidence; a round with a
    privileged event starts in a trusted state. *)
Lemma round_trusted r U P a o a' : hs_round r U P a o a' →
  (trusted_state (a_state a') = true →
     trusted_state (a_state a) = true ∨ P ∨ OIsPaired true ∈ o ∨
     ∃ cb id, OAcceptCallback cb id true ∈ o) ∧
  (existsb privileged o = true → trusted_state (a_state a) = true).
Proof.
  intros Hr. split.
  - destruct Hr as [| | |? [] y| |? cb id [] y| | | | | |]; simpl; try done; auto;
      intros Ht; try (left; by eapply next_trusted); right; right.
    + left. set_solver.
    + right. exists cb, id. set_solver.
  - by destruct Hr as [| | |? [] y| |? cb id [] y| |? ? [->|[p ->]]| | | |? Hu []].
Qed.

(** The invariant of the trust property. *)
Definition trust_inv (s : St) : Prop :=
  (trusted_state (sme_state (sc s)) = true → trusted (trace s)) ∧
  (∀ l2 o l1, trace s = l2 ++ o :: l1 → privileged o = true → trusted l1).

Lemma app_cons_split {A} (t t0 l2 l1 : list A) o :
  t ++ t0 = l2 ++ o :: l1 →
  (∃ t1, t = l2 ++ o :: t1 ∧ l1 = t1 ++ t0) ∨ (∃ t2, t0 = t2 ++ o :: l1).
Proof.
  revert l2. induction t as [|x t IH]; intros l2 E; simpl in E; [right; by exists l2|].
  destruct l2 as [|y l2]; injection E as -> E; [left; by exists t|].
  destruct (IH l2 E) as [(t1 & -> & ->)|(t2 & ->)]; [left; by exists t1|right; by exists t2].
Qed.

Lemma privileged_key o : privileged o = true → key o = true.
Proof. by destruct o. Qed.

Lemma trust_step `{ShipEnv, ShipCodec} U s s' : trust_inv s → refines U s s' → trust_inv s'.
Proof.
  intros [Hst Hpr] (_ & _ & o & t & Ht & Ho & Hround).
  destruct (round_trusted _ _ _ _ _ _ Hround) as [Hin Hpriv].
  assert (∀ x, x ∈ o → x ∈ trace s') as Hsub.
  { intros x Hx. rewrite Ht. apply elem_of_app. left. rewrite <- Ho in Hx.
    by apply list_elem_of_filter in Hx as [_ Hx]. }
  split.
  - intros Hts. destruct (Hin Hts) as [Hs|[Hs|[Hs|(cb & id & Hs)]]].
    + rewrite Ht. by apply trusted_mono, Hst.
    + by left.
    + right; left. by apply Hsub.
    + right; right. exists cb, id. by apply Hsub.
  - intros l2 x l1 E Hx. rewrite Ht in E.
    destruct (app_cons_split _ _ _ _ _ E) as [(t1 & -> & ->)|(t2 & E2)].
    + apply trusted_mono, Hst, Hpriv, existsb_exists. exists x. split; [|done].
      rewrite <- list_elem_of_In, <- Ho. apply list_elem_of_filter.
      split; [by apply privileged_key|]. apply elem_of_app. right. apply list_elem_of_here.
    + by eapply Hpr.
Qed.

(** ** Closing *)

Definition is_closing (o : Out) : bool := match o with OConnectionClosed _ => true | _ => false end.
Definition closings (t : list Out) : nat := length (filter (λ o, is_closing o = true) t).

Lemma closings_app t1 t2 : closings (t1 ++ t2) = closings t1 + closings t2.
Proof. unfold closings. by rewrite filter_app, length_app. Qed.

Lemma closings_cons o t : closings (o :: t) = (if is_closing o then 1 else 0) + closings t.
Proof. unfold closings. rewrite filter_cons. by destruct o. Qed.

Lemma closings_keys t : closings (keys t) = closings t.
Proof.
  induction t as [|o t IH]; [done|]. unfold keys in *. rewrite filter_cons.
  destruct o; simpl; rewrite ?closings_cons; simpl; by rewrite ?IH.
Qed.

(** With a request that is sent, a round reports the end exactly when it closes. *)
Lemma round_closings r P a o a' : hs_round r False P a o a' →
  closings o = if a_closed a' then 1 else 0.
Proof.
  by destruct 1 as [| | |? [] y| |? cb id [] y| |? ? [->|[p ->]]| | | |? []].
Qed.

Definition close_inv (s : St) : Prop :=
  closings (trace s) = if shutdown_once (sc s) then 1 else 0.

Lemma close_step `{ShipEnv, ShipCodec} s s' :
  close_inv s → shutdown_once (sc s) = false → refines False s s' → close_inv s'.
Proof.
  unfold close_inv. intros Hs Hopen (_ & _ & o & t & Ht & Ho & Hround).
  rewrite Ht, closings_app, Hs, Hopen, <- (closings_keys t), Ho, (round_closings _ _ _ _ _ Hround).
  change (a_closed (abs s')) with (shutdown_once (sc s')). lia.
Qed.

(** ** Progress after the "hello" phase *)

(** Rounds left to the data exchange, at most. *)
Definition rounds_left (x : SmeState) : option nat :=
  match x with
  | kSmeHelloStateOk => Some 10
  | kSmeProtHStateClientInit | kSmeProtHStateServerInit => Some 9
  | kSmeProtHStateClientListenChoice | kSmeProtHStateServerListenProposal => Some 8
  | kSmeProtHStateServerListenConfirm => Some 7
  | kSmeProtHStateClientOk | kSmeProtHStateServerOk => Some 6
  | kSmePinStateCheckInit => Some 5
  | kSmePinStateCheckBusyWait => Some 4
  | kSmePinStateCheckListen => Some 3
  | kSmePinStateCheckOk => Some 2
  | kSmeStateApproved | kSmeHelloStateAbort => Some 1
  | kDataExchange => Some 0
  | _ => None
  end.

(** The states of a role that has finished the "hello" phase. *)
Definition after_hello (r : ShipRole) (x : SmeState) : bool :=
  match r, x with
  | kShipRoleAuto, _ => false
  | kShipRoleClient, (kSmeProtHStateServerInit | kSmeProtHStateServerListenProposal
                     | kSmeProtHStateServerListenConfirm | kSmeProtHStateServerOk) => false
  | kShipRoleServer, (kSmeProtHStateClientInit | kSmeProtHStateClientListenChoice
                     | kSmeProtHStateClientOk) => false
  | _, _ => bool_decide (is_Some (rounds_left x))
  end.

Lemma next_progress r x y k : after_hello r x = true → rounds_left x = Some k → y ∈ next r x →
  x ≠ kDataExchange → after_hello r y = true ∧ ∃ j, rounds_left y = Some j ∧ j < k.
Proof.
  intros Ha Hk Hy Hx. destruct r, x; try done; cbn [next] in Hy; rewrite ?list_elem_of_In in Hy;
    cbn [In] in Hy; simpl in Hk; simplify_eq;
    repeat (destruct Hy as [<-|Hy]; [split; [reflexivity|eexists; split; [reflexivity|lia]]|]); done.
Qed.

(** A round after the "hello" phase closes the connection, reaches the data
    exchange or comes closer to it. *)
Lemma round_progress r U P a o a' k : hs_round r U P a o a' →
  after_hello r (a_state a) = true → rounds_left (a_state a) = Some (S k) →
  a_closed a' = true ∨
  (after_hello r (a_state a') = true ∧ ∃ j, rounds_left (a_state a') = Some j ∧ j ≤ k).
Proof.
  destruct 1 as [x q Hst|x y q Hy|x q Hf| | | |q|q o [->|[p ->]]| | | |o Hu Hl]; simpl; intros Ha Hk;
    try done; try (by left); right.
  - by destruct r, x.
  - destruct (next_progress r x y (S k)) as (? & j & ? & ?); [done..| |].
    + by intros ->.
    + split; [done|]. exists j. split; [done|lia].
  - split; [by destruct r|]. exists 0. split; [done|lia].
Qed.

Lemma round_data_stays r U P a o a' : hs_round r U P a o a' → a_state a = kDataExchange →
  a_closed a' = true ∨ a_state a' = kDataExchange.
Proof.
  destruct 1 as [|x y q Hy| | | | | | | | | |]; simpl; intros Ha; subst; try done; auto.
  exfalso. revert Hy. rewrite list_elem_of_In. by destruct r.
Qed.

(** One more round, from a state with at most [S n] rounds left. *)
Lemma round_left r U P a o a' n :
  hs_round r U P a o a' → after_hello r (a_state a) = true →
  (∃ k, rounds_left (a_state a) = Some k ∧ k ≤ S n) →
  a_closed a' = true ∨
  (after_hello r (a_state a') = true ∧ ∃ j, rounds_left (a_state a') = Some j ∧ j ≤ n).
Proof.
  intros Hr Ha (k & Hk & Hle). destruct k as [|k].
  - assert (a_state a = kDataExchange) as E by (by destruct (a_state a)).
    destruct (round_data_stays _ _ _ _ _ _ Hr E) as [|Hd]; [by left|right].
    rewrite E in Ha. rewrite Hd. split; [done|]. exists 0. split; [done|lia].
  - destruct (round_progress _ _ _ _ _ _ k Hr Ha Hk) as [|(? & j & ? & ?)]; [by left|right].
    split; [done|]. exists j. split; [done|lia].
Qed.

Lemma loop_ended `{ShipEnv, ShipCodec} n s (Q : unit → St → Prop) :
  shutdown_once (sc s) = true → Q tt s → wp (ShipConnectionLoop n) Q s.
Proof.
  intros Hc HQ. destruct n; [done|]. cbn [ShipConnectionLoop].
  apply wp_branch_false; [by rewrite Hc, andb_false_r|done].
Qed.

Lemma loop_progress `{ShipEnv, ShipCodec} (Hsetup : ∀ n ski, env_setup n ski ≠ None) n : ∀ s,
  Inv s → after_hello (role (sc s)) (sme_state (sc s)) = true →
  (∃ k, rounds_left (sme_state (sc s)) = Some k ∧ k ≤ n) →
  wp (ShipConnectionLoop n)
    (λ _ s, sme_state (sc s) = kDataExchange ∨ shutdown_once (sc s) = true ∨
            ShipState.cancel (sc s) = true) s.
Proof.
  induction n as [|n IH]; intros s Hinv Ha Hk; cbn [ShipConnectionLoop].
  - apply wp_ret. left. destruct Hk as (k & Hk & ?).
    destruct (sme_state (sc s)); simpl in Hk; simplify_eq; done || lia.
  - apply wp_branch.
    + intros [_ Hopen%negb_true_iff]%andb_true_iff. apply wp_bind.
      eapply wp_mono; [|by apply (HandleState_done True Hsetup (or_introl I))]. simpl.
      intros _ s' (Hinv' & Hrole & o & t & _ & _ & Hround).
      destruct (round_left _ _ _ _ _ _ n Hround Ha Hk) as [Hc|(Ha' & Hk')].
      * apply loop_ended; auto.
      * apply IH; [done|by rewrite Hrole|done].
    + intros [Hc%negb_false_iff|Hc%negb_false_iff]%andb_false_iff; apply wp_ret; auto.
Qed.

(** ** Properties *)

(** C1: Refinement: from a connection that was just started, in either role, the
    connection thread never dereferences a null pointer, never runs past its
    queue and never loops inside a receive, and whatever the peer, the socket,
    the node and the application do and however their actions interleave with
    the thread, the key events of the run are a run of the abstract handshake
    machine that ends in the abstraction of the connection's state. *)
Theorem ShipConnectionLoop_refines `{ShipEnv, ShipCodec} (Hsetup : ∀ n ski, env_setup n ski ≠ None)
    r s0 n : started r s0 →
  wp (ShipConnectionLoop n)
    (λ _ s, hs_run r True (OApprove ∈ trace s) (first_state r) (keys (trace s)) (abs s)) s0.
Proof.
  intros Hs. eapply wp_mono; [|by apply (loop_refines True Hsetup (or_introl I))].
  simpl. by intros _ s (_ & _ & Hrun).
Qed.

Lemma ShipConnectionLoop_refines_witness :
  (λ s, sme_state (sc s)) <$>
    final (ShipConnectionLoop (H := demo_env writes_all true) 14
             (demo_start kShipRoleClient demo_server_sends)) = Some kDataExchange ∧
  wp (ShipConnectionLoop (H := demo_env writes_all true) 14)
    (λ _ s, hs_run kShipRoleClient True (OApprove ∈ trace s) (first_state kShipRoleClient)
              (keys (trace s)) (abs s)) (demo_start kShipRoleClient demo_server_sends).
Proof.
  split; [vm_compute; reflexivity|].
  apply (@ShipConnectionLoop_refines (demo_env writes_all true)); [discriminate|].
  exists "me"%string, "ski"%string, None. repeat split.
Defined.

(** C5: Trust: whatever happens around the connection, it is in a state past the
    untrusted part of the "hello" phase only if the node reported the peer as
    paired, the user approved it, or an acceptance callback accepted it; and
    the remote device is set up, and data handed to it, only after that
    evidence. *)
Theorem trust_before_privilege `{ShipEnv, ShipCodec} (Hsetup : ∀ n ski, env_setup n ski ≠ None)
    r s0 n : started r s0 →
  wp (ShipConnectionLoop n)
    (λ _ s, (trusted_state (sme_state (sc s)) = true → trusted (trace s)) ∧
            ∀ later o earlier, trace s = later ++ o :: earlier → privileged o = true →
              trusted earlier) s0.
Proof.
  intros (Hinv & Hrole & Habs & Ht)%started_inv.
  eapply wp_mono; [|apply (loop_invariant True Hsetup (or_introl I) trust_inv)]; [|..|exact Hinv|].
  - simpl. by intros _ s [_ Hs].
  - intros s s' Hs _ _. by apply trust_step.
  - split; rewrite ?Ht; [|by intros [|] ? ? E].
    assert (a_state (abs s0) = a_state (first_state r)) as E by (by rewrite Habs).
    change (sme_state (sc s0)) with (a_state (abs s0)). rewrite E. by destruct r.
Qed.

Lemma trust_before_privilege_witness :
  (λ s, sme_state (sc s)) <$>
    final (ShipConnectionLoop (H := demo_env writes_all false) 20
             (demo_start kShipRoleServer demo_client_sends)) = Some kDataExchange ∧
  wp (ShipConnectionLoop (H := demo_env writes_all false) 20)
    (λ _ s, (trusted_state (sme_state (sc s)) = true → trusted (trace s)) ∧
            ∀ later o earlier, trace s = later ++ o :: earlier → privileged o = true →
              trusted earlier) (demo_start kShipRoleServer demo_client_sends).
Proof.
  split; [vm_compute; reflexivity|].
  apply (@trust_before_privilege (demo_env writes_all false)) with (r := kShipRoleServer);
    [discriminate|].
  exists "me"%string, "ski"%string, None. repeat split.
Defined.

(** C34: Closing: when the access methods request always gets through to the
    socket, a connection that runs and is then stopped reports its end to the
    node exactly once, however the run went. *)
Theorem closed_exactly_once `{ShipEnv, ShipCodec} (Hsetup : ∀ n ski, env_setup n ski ≠ None)
    (Hreq : request_sendable) r s0 n : started r s0 →
  wp (ShipConnectionLoop n;; StopFinish) (λ _ s, closings (trace s) = 1) s0.
Proof.
  intros (Hinv & Hrole & Habs & Ht)%started_inv. apply wp_bind.
  eapply wp_mono; [|apply (loop_invariant False Hsetup (or_intror Hreq) close_inv)];
    [|..|exact Hinv|].
  - simpl. intros _ s [[Hok _] Hs]. unfold close_inv in Hs. pose proof (Reach_refl s Hok) as HR.
    destruct (shutdown_once (sc s)) eqn:Hc.
    + by eapply (wp_closed HR).
    + eapply (wp_CloseConnection _ _ _ _ HR); [done|]. intros s' (_ & _ & t & Ht' & Hk).
      by rewrite Ht', closings_app, Hs, <- closings_keys, Hk, closings_cons.
  - intros s s' Hs Hopen _. by apply close_step.
  - unfold close_inv. rewrite Ht. change (shutdown_once (sc s0)) with (a_closed (abs s0)).
    by rewrite Habs.
Qed.

Lemma closed_exactly_once_witness :
  wp (ShipConnectionLoop (H := demo_env writes_all true) 16;; StopFinish (H := demo_env writes_all true))
    (λ _ s, closings (trace s) = 1) (demo_start kShipRoleClient demo_server_sends).
Proof.
  apply (@closed_exactly_once (demo_env writes_all true)) with (r := kShipRoleClient).
  - discriminate.
  - exists [x01; x07]. repeat split.
  - exists "me"%string, "ski"%string, None. repeat split.
Defined.

(** Without that assumption the end can be reported twice: when the access
    methods request cannot be written, [DataExchange] closes the connection and
    yet goes on to handle the next message; a close message of the peer is then
    answered and the end reported a second time. *)
Theorem closed_twice_when_request_fails :
  (λ s, (closings (trace s), sme_state (sc s))) <$>
    final (ShipConnectionLoop (H := demo_env (writes_but 7) true) 16
             (demo_start kShipRoleClient
                [read [x00; x00]; read [x01; x01]; read [x01; x05]; read [x01; x06];
                 read [x03; x01]]))
  = Some (2, kSmeStateError).
Proof. vm_compute. reflexivity. Qed.

(** C35: Progress: a connection between rounds that has finished the "hello" phase
    is after ten more rounds in the data exchange, closed, or cancelled: the
    protocol handshake and the PIN phase cannot loop. *)
Theorem handshake_progress `{ShipEnv, ShipCodec} (Hsetup : ∀ n ski, env_setup n ski ≠ None) s0 :
  Inv s0 → after_hello (role (sc s0)) (sme_state (sc s0)) = true →
  wp (ShipConnectionLoop 10)
    (λ _ s, sme_state (sc s) = kDataExchange ∨ shutdown_once (sc s) = true ∨
            ShipState.cancel (sc s) = true) s0.
Proof.
  intros Hinv Ha. apply (loop_progress Hsetup); [done|done|].
  destruct (role (sc s0)), (sme_state (sc s0)); try done; eexists; (split; [reflexivity|lia]).
Qed.

Lemma Inv_set_state s x : Inv s → x ≠ kDataExchange → Inv (set_sc (set_sme_state x (sc s)) s).
Proof.
  intros [[(n & Hq) Hw] [Hd _]] Hx. split; [split; [|done]|].
  - exists n. by eapply queue_ok_ext; [|exact Hq].
  - by split.
Qed.

Lemma handshake_progress_witness :
  let s := demo_start kShipRoleClient [read [x01; x05]; read [x01; x06]] in
  let s1 := set_sc (set_sme_state kSmeHelloStateOk (sc s)) s in
  after_hello (role (sc s1)) (sme_state (sc s1)) = true ∧
  wp (ShipConnectionLoop (H := demo_env writes_all true) 10)
    (λ _ s, sme_state (sc s) = kDataExchange ∨ shutdown_once (sc s) = true ∨
            ShipState.cancel (sc s) = true) s1.
Proof.
  intros s s1. split; [reflexivity|].
  apply (@handshake_progress (demo_env writes_all true)); [discriminate| |reflexivity].
  apply Inv_set_state; [|discriminate]. apply (started_inv kShipRoleClient).
  exists "me"%string, "ski"%string, None. repeat split.
Defined.

(** ** SHIP ids *)

(** A peer's SHIP id is pinned: a connection that knows the id of its peer
    accepts an access methods message exactly when it carries that id, and keeps
    it; without a known id it accepts any message with an id and adopts it. *)
Theorem ship_id_pinned a s :
  let d := mkDeserialize (Some (VAccessMethods a)) kSmeConnectionAccessMethods in
  SmeHandshakeAccessMethodsCheckMessageVal d s =
    match access_id a, remote_ship_id (sc s) with
    | None, _ => Ret false s
    | Some id, Some ((String _ _) as known) => Ret (bool_decide (known = id)) s
    | Some id, _ => Ret true (set_sc (set_remote_ship_id (Some id) (sc s)) s)
    end.
Proof.
  intros d. unfold SmeHandshakeAccessMethodsCheckMessageVal. simpl.
  destruct (access_id a) as [id|]; [|done]. unfold_prog. unfold rd, gets. simpl.
  destruct (remote_ship_id (sc s)) as [[|c known]|]; try done.
  unfold StringIsEmpty. rewrite bool_decide_false by done. simpl negb. cbv iota.
  change (default EmptyString (Some (String c known))) with (String c known).
  by rewrite StringNCompare_eq.
Qed.

(** ** Protocol versions *)

(** Version negotiation: a server agrees to exactly the announcements that ask
    for no more than it supports, and to the announced version unchanged; the
    agreement it sends in reply to this client's own announcement passes the
    client's check; and the client accepts nothing but a selection of the one
    version it supports, in UTF-8. *)
Theorem versions_interoperate m :
  (0 <= version_major m < 256)%Z → (0 <= version_minor m < 256)%Z →
  (SmeProtHandshakeStateAgreeOnProtocolVersion m =
     if bool_decide (version_major m <= 1)%Z && bool_decide (version_minor m = 0)%Z
     then Some (version_major m, version_minor m) else None) ∧
  (SmeProtHandshakeStateMessageCheck m = true ↔
     handshake_type m = kProtocolHandshakeTypeSelect ∧ version_major m = 1%Z ∧
     version_minor m = 0%Z ∧ formats m !! 0 = Some kMessageProtocolFormatTypeUTF8) ∧
  (∀ major minor,
     SmeProtHandshakeStateAgreeOnProtocolVersion
       (mkProtHs kProtocolHandshakeTypeAnnounceMax SHIP_PROTOCOL_MAX_SUPPORTED_MAJOR_VERSION
          SHIP_PROTOCOL_MAX_SUPPORTED_MINOR_VERSION [kMessageProtocolFormatTypeUTF8])
     = Some (major, minor) →
     SmeProtHandshakeStateMessageCheck
       (mkProtHs kProtocolHandshakeTypeSelect major minor [kMessageProtocolFormatTypeUTF8]) = true).
Proof.
  intros Hmaj Hmin. split_and!.
  - unfold SmeProtHandshakeStateAgreeOnProtocolVersion,
      SHIP_PROTOCOL_MAX_SUPPORTED_MAJOR_VERSION, SHIP_PROTOCOL_MAX_SUPPORTED_MINOR_VERSION.
    assert (u8 (version_major m) = version_major m) as -> by (apply Z.mod_small; lia).
    assert (u8 (version_minor m) = version_minor m) as -> by (apply Z.mod_small; lia).
    do 3 case_bool_decide; simpl; try done; lia.
  - unfold SmeProtHandshakeStateMessageCheck.
    repeat case_bool_decide; simplify_eq/=; try (split; [done|naive_solver]).
    destruct (formats m) as [|f fs]; [split; [done|naive_solver]|].
    case_bool_decide; (split; [|done || naive_solver]); [done|naive_solver].
  - by intros major minor [= <- <-].
Qed.

Lemma versions_interoperate_witness :
  let m := mkProtHs kProtocolHandshakeTypeSelect 1 0 [kMessageProtocolFormatTypeUTF8] in
  SmeProtHandshakeStateMessageCheck m = true ∧
  SmeProtHandshakeStateAgreeOnProtocolVersion m = Some (1, 0)%Z.
Proof.
  intros m. split.
  - apply (versions_interoperate m); [split; [discriminate|reflexivity]..|]. repeat split.
  - apply (versions_interoperate m); [split; [discriminate|reflexivity]..].
Defined.

(** ** Prolongation requests *)

(** Once the timer that schedules prolongation requests has expired, its
    thread handle is still in place and every later attempt to arm it is ignored:
    a waiting value that calls for a new prolongation request leaves the
    expired timer as it is, so no second request is scheduled. *)
Theorem prolongation_timer_not_rearmed m w s :
  waiting m = Some w → sched s = [] →
  thread (send_prolongation_request_timer (sc s)) = ThreadExited →
  (tHelloProlongThrInc <= w < 2 ^ 32)%Z →
  ∃ s', SmeHelloCalculateNewWaitValueAndSetTimer m s = Ret tt s' ∧
        last_received_waiting_value (sc s') = w ∧
        send_prolongation_request_timer (sc s') = send_prolongation_request_timer (sc s).
Proof.
  unfold tHelloProlongThrInc. intros Hw Hs Ht Hr.
  unfold SmeHelloCalculateNewWaitValueAndSetTimer. rewrite Hw.
  unfold tHelloProlongThrInc, tHelloProlongWaitingGap, tHelloProlongMin.
  rewrite bool_decide_true by lia.
  rewrite u32_small by (unfold is_u32; lia). rewrite bool_decide_true by lia.
  unfold_prog. unfold ShipConnectionSetWaitingValue, EEBUS_TIMER_START, sync, upd. unfold_prog.
  simpl. rewrite Hs. simpl. rewrite Start_busy by (simpl; by rewrite Ht). eauto.
Qed.

Lemma prolongation_timer_not_rearmed_witness :
  let timer := (Timer.Wake (10 ^ 11) (Timer.Start (10 ^ 10) 45000 false EebusTimerCreate)).1 in
  let s0 := demo_start kShipRoleServer [] in
  let s := set_sc (set_send_prolongation_request_timer timer (sc s0)) s0 in
  timer_state timer = kEebusTimerStateExpired ∧
  ∃ s', SmeHelloCalculateNewWaitValueAndSetTimer
          (mkHello kConnectionHelloPhasePending (Some 60000%Z) None) s = Ret tt s' ∧
        last_received_waiting_value (sc s') = 60000%Z ∧
        send_prolongation_request_timer (sc s') = send_prolongation_request_timer (sc s).
Proof.
  intros timer s0 s. split; [reflexivity|].
  apply prolongation_timer_not_rearmed; [reflexivity..|]. split; [discriminate|reflexivity].
Defined.
