(* ===== verification/NodeConnection.v ===== *)
(** * The peers of a SHIP node ([src/ship/ship_node/node_connection.c],
    [node_connection_container.c])

    A [NodeConnection] is what a node knows of a peer.  A [ShipConnectionObject*]
    is its address.  The container is the list of its elements in the order of
    the vector; a [NodeConnectionObject*] is a position in it, and the code keeps
    none of these pointers while the container can change.  Allocation of the
    node's own objects succeeds; [ShipConnectionCreate] may fail. *)

From stdpp Require Import gmap.
From S2P Require Import Prelude StringUtil.

Local Open Scope Z_scope.

(** The address of a [ShipConnection]. *)
Abbreviation sc_ptr := nat.

(** [retry_timer] is the delay the timer is armed with; [attempt_cnt] counts
    closed connections in a row, at most one in ten seconds from the third on. *)
Record NodeConnection := mkNC {
  ski : option string;
  ship_id : option string;
  connection : option sc_ptr;
  pending_approval_id : Z;
  attempt_cnt : Z;
  is_attempt_running : bool;
  handshake_complete : bool;
  is_trusted : bool;
  provisional : bool;
  trusted_by_pairing : bool;
  expected_fingerprint : option string;
  peer_fingerprint : option string;
  retry_timer : option Z;
}.

Definition set_ski (x : option string) (nc : NodeConnection) : NodeConnection :=
  mkNC x (ship_id nc) (connection nc) (pending_approval_id nc) (attempt_cnt nc)
    (is_attempt_running nc) (handshake_complete nc) (is_trusted nc) (provisional nc)
    (trusted_by_pairing nc) (expected_fingerprint nc) (peer_fingerprint nc) (retry_timer nc).
Definition set_ship_id (x : option string) (nc : NodeConnection) : NodeConnection :=
  mkNC (ski nc) x (connection nc) (pending_approval_id nc) (attempt_cnt nc)
    (is_attempt_running nc) (handshake_complete nc) (is_trusted nc) (provisional nc)
    (trusted_by_pairing nc) (expected_fingerprint nc) (peer_fingerprint nc) (retry_timer nc).
Definition set_connection (x : option sc_ptr) (nc : NodeConnection) : NodeConnection :=
  mkNC (ski nc) (ship_id nc) x (pending_approval_id nc) (attempt_cnt nc) (is_attempt_running nc)
    (handshake_complete nc) (is_trusted nc) (provisional nc) (trusted_by_pairing nc)
    (expected_fingerprint nc) (peer_fingerprint nc) (retry_timer nc).
Definition set_pending_approval_id (x : Z) (nc : NodeConnection) : NodeConnection :=
  mkNC (ski nc) (ship_id nc) (connection nc) x (attempt_cnt nc) (is_attempt_running nc)
    (handshake_complete nc) (is_trusted nc) (provisional nc) (trusted_by_pairing nc)
    (expected_fingerprint nc) (peer_fingerprint nc) (retry_timer nc).
Definition set_attempt_cnt (x : Z) (nc : NodeConnection) : NodeConnection :=
  mkNC (ski nc) (ship_id nc) (connection nc) (pending_approval_id nc) x (is_attempt_running nc)
    (handshake_complete nc) (is_trusted nc) (provisional nc) (trusted_by_pairing nc)
    (expected_fingerprint nc) (peer_fingerprint nc) (retry_timer nc).
Definition set_is_attempt_running (x : bool) (nc : NodeConnection) : NodeConnection :=
  mkNC (ski nc) (ship_id nc) (connection nc) (pending_approval_id nc) (attempt_cnt nc) x
    (handshake_complete nc) (is_trusted nc) (provisional nc) (trusted_by_pairing nc)
    (expected_fingerprint nc) (peer_fingerprint nc) (retry_timer nc).
Definition set_handshake_complete (x : bool) (nc : NodeConnection) : NodeConnection :=
  mkNC (ski nc) (ship_id nc) (connection nc) (pending_approval_id nc) (attempt_cnt nc)
    (is_attempt_running nc) x (is_trusted nc) (provisional nc) (trusted_by_pairing nc)
    (expected_fingerprint nc) (peer_fingerprint nc) (retry_timer nc).
Definition set_is_trusted (x : bool) (nc : NodeConnection) : NodeConnection :=
  mkNC (ski nc) (ship_id nc) (connection nc) (pending_approval_id nc) (attempt_cnt nc)
    (is_attempt_running nc) (handshake_complete nc) x (provisional nc) (trusted_by_pairing nc)
    (expected_fingerprint nc) (peer_fingerprint nc) (retry_timer nc).
Definition set_provisional (x : bool) (nc : NodeConnection) : NodeConnection :=
  mkNC (ski nc) (ship_id nc) (connection nc) (pending_approval_id nc) (attempt_cnt nc)
    (is_attempt_running nc) (handshake_complete nc) (is_trusted nc) x (trusted_by_pairing nc)
    (expected_fingerprint nc) (peer_fingerprint nc) (retry_timer nc).
Definition set_trusted_by_pairing (x : bool) (nc : NodeConnection) : NodeConnection :=
  mkNC (ski nc) (ship_id nc) (connection nc) (pending_approval_id nc) (attempt_cnt nc)
    (is_attempt_running nc) (handshake_complete nc) (is_trusted nc) (provisional nc) x
    (expected_fingerprint nc) (peer_fingerprint nc) (retry_timer nc).
Definition set_expected_fingerprint (x : option string) (nc : NodeConnection) : NodeConnection :=
  mkNC (ski nc) (ship_id nc) (connection nc) (pending_approval_id nc) (attempt_cnt nc)
    (is_attempt_running nc) (handshake_complete nc) (is_trusted nc) (provisional nc)
    (trusted_by_pairing nc) x (peer_fingerprint nc) (retry_timer nc).
Definition set_peer_fingerprint (x : option string) (nc : NodeConnection) : NodeConnection :=
  mkNC (ski nc) (ship_id nc) (connection nc) (pending_approval_id nc) (attempt_cnt nc)
    (is_attempt_running nc) (handshake_complete nc) (is_trusted nc) (provisional nc)
    (trusted_by_pairing nc) (expected_fingerprint nc) x (retry_timer nc).
Definition set_retry_timer (x : option Z) (nc : NodeConnection) : NodeConnection :=
  mkNC (ski nc) (ship_id nc) (connection nc) (pending_approval_id nc) (attempt_cnt nc)
    (is_attempt_running nc) (handshake_complete nc) (is_trusted nc) (provisional nc)
    (trusted_by_pairing nc) (expected_fingerprint nc) (peer_fingerprint nc) x.

Definition NodeConnectionConstruct (s : option string) : NodeConnection :=
  mkNC s None None 0 0 false false false false false None None None.

Definition OwnsConnection (nc : NodeConnection) (sc : sc_ptr) : bool :=
  bool_decide (connection nc = Some sc).

Definition NodeConnectionHasPendingApproval (nc : option NodeConnection) (sc : option sc_ptr)
    (approval_id : Z) : bool :=
  match nc, sc with
  | Some nc, Some sc =>
      bool_decide (connection nc = Some sc) && bool_decide (approval_id ≠ 0)
      && bool_decide (pending_approval_id nc = approval_id)
  | _, _ => false
  end.

Definition ReleaseShipConnection (nc : NodeConnection) : option sc_ptr * NodeConnection :=
  (connection nc, set_pending_approval_id 0 (set_connection None nc)).

Definition RetryDelayMs (attempt_cnt : Z) : Z :=
  if attempt_cnt <=? 1 then 0 else if attempt_cnt =? 2 then 3000 else 10000.

Definition OnConnectionClosed (nc : NodeConnection) : Z * NodeConnection :=
  let nc :=
    set_attempt_cnt (attempt_cnt nc + 1)
      (set_peer_fingerprint None (set_handshake_complete false
        (set_is_attempt_running false (set_pending_approval_id 0 (set_connection None nc))))) in
  (RetryDelayMs (attempt_cnt nc), nc).

Definition StopRetryTimer (nc : NodeConnection) : NodeConnection := set_retry_timer None nc.
Definition ScheduleRetry (delay_ms : Z) (nc : NodeConnection) : NodeConnection :=
  set_retry_timer (Some delay_ms) nc.

Definition OnHandshakeComplete (nc : NodeConnection) : bool * NodeConnection :=
  if handshake_complete nc then (false, nc)
  else (true, set_attempt_cnt 0 (set_handshake_complete true nc)).

(** [created] is what [ShipConnectionCreate] returns, [start] what starting it does;
    the last result is the connection the call deletes. *)
Definition ClientConnect (wsc : bool) (created : option sc_ptr) (start : EebusError)
    (nc : NodeConnection) : EebusError * NodeConnection * option sc_ptr :=
  if negb wsc then (kEebusErrorInputArgumentNull, nc, None)
  else if is_attempt_running nc then (kEebusErrorCommunicationBusy, nc, None)
  else
    let nc := set_connection created (set_pending_approval_id 0 nc) in
    match created with
    | None => (kEebusErrorMemoryAllocate, nc, None)
    | Some sc =>
        if is_ok start then (kEebusErrorOk, set_is_attempt_running true nc, None)
        else (start, set_connection None nc, Some sc)
    end.

(** What starting the connection returns is ignored. *)
Definition ServerConnect (created : option sc_ptr) (start : EebusError) (nc : NodeConnection)
    : EebusError * NodeConnection :=
  let nc := set_connection created (set_pending_approval_id 0 nc) in
  match created with
  | None => (kEebusErrorMemoryAllocate, nc)
  | Some _ => (kEebusErrorOk, set_is_attempt_running true nc)
  end.

(** ** The container *)

Definition find_first (p : NodeConnection → bool) (l : list NodeConnection) : option nat :=
  fst <$> list_find (λ nc, p nc = true) l.

Definition FindWithSki (s : option string) (l : list NodeConnection) : option nat :=
  if StringIsEmpty s then None else find_first (λ nc, StringEqualsIgnoreCase (ski nc) s) l.

Definition FindWithShipId (id : option string) (l : list NodeConnection) : option nat :=
  if StringIsEmpty id then None
  else find_first (λ nc, bool_decide (ship_id nc = id)) l.

Definition FindWithFingerprint (fp : option string) (l : list NodeConnection) : option nat :=
  if StringIsEmpty fp then None
  else find_first (λ nc, is_trusted nc && StringEqualsIgnoreCase (expected_fingerprint nc) fp) l.

Definition FindWithShipConnection (sc : option sc_ptr) (l : list NodeConnection) : option nat :=
  sc ← sc; find_first (λ nc, OwnsConnection nc sc) l.

(** The element, and the container afterwards. *)
Definition GetOrCreate (s : option string) (l : list NodeConnection)
    : nat * list NodeConnection :=
  match FindWithSki s l with
  | Some i => (i, l)
  | None => (length l, l ++ [NodeConnectionConstruct s])
  end.

Definition Remove (nc : option nat) (l : list NodeConnection) : list NodeConnection :=
  match nc with None => l | Some i => delete i l end.

Definition RemoveWithSki (s : option string) (l : list NodeConnection) : list NodeConnection :=
  Remove (FindWithSki s l) l.

Definition IsSkiTrusted (s : option string) (l : list NodeConnection) : bool :=
  match FindWithSki s l ≫= (l !!.) with Some nc => is_trusted nc | None => false end.

Definition IsSkiConnected (s : option string) (l : list NodeConnection) : bool :=
  match FindWithSki s l ≫= (l !!.) with Some nc => is_attempt_running nc | None => false end.

(** ** Facts on the container *)

Lemma find_first_Some p l i : find_first p l = Some i →
  ∃ nc, l !! i = Some nc ∧ p nc = true ∧
    ∀ j y, l !! j = Some y → (j < i)%nat → p y = false.
Proof.
  unfold find_first. intros E. apply fmap_Some in E as ([i' nc] & E & ->).
  apply list_find_Some in E as (Hi & Hp & Hlt). exists nc. split_and!; [done..|].
  intros j y Hj Hji. apply not_true_iff_false. eauto.
Qed.

Lemma find_first_None p l : find_first p l = None → ∀ i nc, l !! i = Some nc → p nc = false.
Proof.
  unfold find_first. intros E i nc Hi. apply fmap_None, list_find_None in E.
  rewrite Forall_lookup in E. apply not_true_iff_false. eauto.
Qed.

(** A test that only one element can pass finds it. *)
Lemma find_first_unique p l i nc :
  l !! i = Some nc → p nc = true → (∀ j y, l !! j = Some y → p y = true → j = i) →
  find_first p l = Some i.
Proof.
  intros Hi Hp Hu. unfold find_first. apply fmap_Some. exists (i, nc). split; [|done].
  apply list_find_Some. split_and!; [done..|]. intros j y Hj Hlt Hpy.
  specialize (Hu j y Hj Hpy). lia.
Qed.

(** No two elements have the same key. *)
Definition distinct {K} (f : NodeConnection → option K) (l : list NodeConnection) : Prop :=
  ∀ i j x y k, l !! i = Some x → l !! j = Some y → f x = Some k → f y = Some k → i = j.

Lemma distinct_alter {K} (f : NodeConnection → option K) g i l :
  (∀ x k, l !! i = Some x → f (g x) = Some k → ∀ j y, l !! j = Some y → f y = Some k → j = i) →
  distinct f l → distinct f (alter g i l).
Proof.
  intros Hg Hd j1 j2 x y k. rewrite !list_lookup_alter.
  repeat case_decide; subst; try done.
  - intros (x' & Hx & ->)%fmap_Some ? Hk ?. symmetry. eauto.
  - intros ? (y' & Hy & ->)%fmap_Some ? Hk. eauto.
  - apply Hd.
Qed.

Lemma distinct_alter_same {K} (f : NodeConnection → option K) g i l :
  (∀ x k, f (g x) = Some k → f x = Some k) → distinct f l → distinct f (alter g i l).
Proof.
  intros Hg Hd. apply distinct_alter; [|done]. intros x k Hx Hk j y Hy Hyk.
  eapply Hd; eauto.
Qed.

Lemma distinct_snoc {K} (f : NodeConnection → option K) l a :
  (∀ k i y, f a = Some k → l !! i = Some y → f y ≠ Some k) → distinct f l → distinct f (l ++ [a]).
Proof.
  intros Ha Hd i j x y k Hi Hj Hx Hy.
  apply lookup_app_Some in Hi as [Hi|[Hil Hi]]; apply lookup_app_Some in Hj as [Hj|[Hjl Hj]].
  - eauto.
  - apply list_lookup_singleton_Some in Hj as [? <-]. by destruct (Ha _ _ _ Hy Hi).
  - apply list_lookup_singleton_Some in Hi as [? <-]. by destruct (Ha _ _ _ Hx Hj).
  - apply list_lookup_singleton_Some in Hi as [? <-].
    apply list_lookup_singleton_Some in Hj as [? <-]. lia.
Qed.

Lemma lookup_delete_inv {A} (l : list A) i j x : delete i l !! j = Some x →
  ∃ j', l !! j' = Some x ∧ (j' = j ∧ (j < i)%nat ∨ j' = S j ∧ (i ≤ j)%nat).
Proof.
  rewrite list_lookup_delete. case_decide; intros ?; eexists; (split; [eassumption|lia]).
Qed.

Lemma distinct_delete {K} (f : NodeConnection → option K) i l :
  distinct f l → distinct f (delete i l).
Proof.
  intros Hd j1 j2 x y k (j1' & H1 & ?)%lookup_delete_inv (j2' & H2 & ?)%lookup_delete_inv Hx Hy.
  specialize (Hd _ _ _ _ _ H1 H2 Hx Hy). lia.
Qed.

Lemma distinct_fmap {K} (f : NodeConnection → option K) g l :
  (∀ x, f (g x) = f x) → distinct f l → distinct f (g <$> l).
Proof.
  intros Hg Hd i j x y k. rewrite !list_lookup_fmap.
  intros (x' & Hx & ->)%fmap_Some (y' & Hy & ->)%fmap_Some. rewrite !Hg. eauto.
Qed.

(** A peer's SKI as the container compares it. *)
Definition ski_key (nc : NodeConnection) : option string :=
  if StringIsEmpty (ski nc) then None else lowercase <$> ski nc.

Lemma ski_key_equal a b k : ski_key a = Some k → ski_key b = Some k →
  StringEqualsIgnoreCase (ski a) (ski b) = true.
Proof.
  unfold ski_key. do 2 case_match; try done. destruct (ski a), (ski b); simpl; try done.
  rewrite bool_decide_eq_true. intros. congruence.
Qed.

Lemma FindWithSki_Some s l i : FindWithSki s l = Some i →
  ∃ nc, l !! i = Some nc ∧ StringEqualsIgnoreCase (ski nc) s = true ∧ StringIsEmpty s = false.
Proof.
  unfold FindWithSki. case_match; [done|]. intros (nc & ? & ? & _)%find_first_Some. eauto.
Qed.

(** A SKI that is not found is nobody's. *)
Lemma FindWithSki_None s l nc k i y : FindWithSki s l = None →
  ski nc = s → ski_key nc = Some k → l !! i = Some y → ski_key y ≠ Some k.
Proof.
  unfold FindWithSki. intros E Hs Hk Hi Hy.
  pose proof (ski_key_equal _ _ _ Hy Hk) as Heq. rewrite Hs in Heq.
  destruct (StringIsEmpty s) eqn:Hempty.
  - unfold ski_key in Hk. by rewrite Hs, Hempty in Hk.
  - by rewrite (find_first_None _ _ E i y Hi) in Heq.
Qed.

Lemma FindWithShipConnection_Some sc l i : FindWithShipConnection sc l = Some i →
  ∃ nc p, sc = Some p ∧ l !! i = Some nc ∧ connection nc = Some p.
Proof.
  unfold FindWithShipConnection. destruct sc as [p|]; [|done]. simpl.
  intros (nc & ? & Hown & _)%find_first_Some. exists nc, p. split_and!; [done..|].
  by apply bool_decide_eq_true in Hown.
Qed.

Lemma FindWithFingerprint_Some fp l i : FindWithFingerprint fp l = Some i →
  ∃ nc, l !! i = Some nc ∧ is_trusted nc = true ∧
    StringEqualsIgnoreCase (expected_fingerprint nc) fp = true.
Proof.
  unfold FindWithFingerprint. case_match; [done|].
  intros (nc & ? & Hp%andb_true_iff & _)%find_first_Some. naive_solver.
Qed.

Lemma find_first_alter p f i l :
  (∀ nc, p (f nc) = p nc) → find_first p (alter f i l) = find_first p l.
Proof.
  intros Hp. destruct (find_first p l) as [j|] eqn:E.
  - apply find_first_Some in E as (nc & Hj & Hpj & Hlt).
    unfold find_first. apply fmap_Some.
    exists (j, if decide (i = j) then f nc else nc). split; [|done].
    apply list_find_Some. rewrite list_lookup_alter. split_and!.
    + case_decide; [subst; by rewrite Hj|done].
    + case_decide; [by rewrite Hp|done].
    + intros j' y Hy Hlt' Hpy. rewrite list_lookup_alter in Hy. case_decide; subst.
      * apply fmap_Some in Hy as (y' & Hy & ->). rewrite Hp in Hpy.
        rewrite (Hlt _ _ Hy Hlt') in Hpy. done.
      * rewrite (Hlt _ _ Hy Hlt') in Hpy. done.
  - unfold find_first. apply fmap_None, list_find_None, Forall_lookup. intros j y Hy.
    apply not_true_iff_false. rewrite list_lookup_alter in Hy. case_decide; subst.
    + apply fmap_Some in Hy as (y' & Hy & ->). rewrite Hp. by apply (find_first_None _ _ E j).
    + by apply (find_first_None _ _ E j).
Qed.

Lemma FindWithSki_alter s f i l :
  (∀ nc, ski (f nc) = ski nc) → FindWithSki s (alter f i l) = FindWithSki s l.
Proof.
  intros Hf. unfold FindWithSki. case_match; [done|]. apply find_first_alter.
  intros nc. by rewrite Hf.
Qed.

(** A new peer is found under its SKI, unless that is empty. *)
Lemma FindWithSki_snoc s l : FindWithSki s l = None →
  FindWithSki s (l ++ [NodeConnectionConstruct s])
  = if StringIsEmpty s then None else Some (length l).
Proof.
  unfold FindWithSki. destruct (StringIsEmpty s) eqn:E; [done|]. intros Hl.
  apply (find_first_unique _ _ _ (NodeConnectionConstruct s)).
  - by apply list_lookup_middle.
  - simpl. apply StringIsEmpty_false in E as (a & -> & _). by apply bool_decide_eq_true.
  - intros j y [Hj|[Hlen Hj]]%lookup_app_Some Hy.
    + by rewrite (find_first_None _ _ Hl j y Hj) in Hy.
    + apply list_lookup_singleton_Some in Hj as [? _]. lia.
Qed.

(** Where SKIs are distinct, a peer is found under its own, and where owners are,
    a connection leads to its owner. *)
Lemma FindWithSki_own l i nc : distinct ski_key l →
  l !! i = Some nc → StringIsEmpty (ski nc) = false → FindWithSki (ski nc) l = Some i.
Proof.
  intros Hd Hi Hne. unfold FindWithSki. rewrite Hne.
  apply StringIsEmpty_false in Hne as (a & Ha & Hne).
  apply (find_first_unique _ _ _ nc); [done| |].
  - rewrite Ha. by apply bool_decide_eq_true.
  - intros j y Hj Hy. eapply Hd; [exact Hj|exact Hi| |];
      unfold ski_key; rewrite ?(StringEqualsIgnoreCase_empty _ _ Hy), Ha; simpl;
      rewrite bool_decide_false by done; [|done].
    rewrite Ha in Hy. destruct (ski y); simpl in *; [|done].
    f_equal. by apply bool_decide_eq_true in Hy.
Qed.

Lemma FindWithShipConnection_own l i nc sc : distinct connection l →
  l !! i = Some nc → connection nc = Some sc → FindWithShipConnection (Some sc) l = Some i.
Proof.
  intros Hd Hi Hc. apply (find_first_unique _ _ _ nc); [done|by apply bool_decide_eq_true|].
  intros j y Hj Hy%bool_decide_eq_true. by eapply Hd.
Qed.

Lemma FindWithShipConnection_none l sc :
  (∀ j nc, l !! j = Some nc → connection nc ≠ Some sc) → FindWithShipConnection (Some sc) l = None.
Proof.
  intros Hn. destruct (FindWithShipConnection _ l) as [i|] eqn:E; [|done].
  apply FindWithShipConnection_Some in E as (nc & p & [= <-] & Hi & Hc). by destruct (Hn _ _ Hi).
Qed.
