(* ===== verification/ShipNode.v ===== *)
(** * The SHIP node ([src/ship/ship_node/ship_node.c])

    The node admits incoming connections, opens outgoing ones, and holds what it
    knows of its peers in a container guarded by a mutex.  [ShipNodeConnectionLoop n]
    is [n] rounds of its thread, which serves a queue of twenty messages.

    The other threads (the application, the websocket server, the discovery, the
    connections and the timers) are a schedule of [NodeEv]: each event is
    one of their critical sections.  The loop lets them run wherever it takes
    the mutex, waits for a message or joins a thread.  A message that is being
    sent is in [posting] until a later event puts it into the queue: senders block
    while the queue is full, and overtake each other.

    The connections themselves are addresses of [live]; using an
    address that is not live is a [Crash].  [env_create] stands for the
    allocator, which may return a freed address again. *)

From stdpp Require Import gmap.
From S2P Require Import Prelude StringUtil ShipTypes NodeConnection.

Local Open Scope Z_scope.

Inductive ShipNodeQueueMsgType :=
| kShipNodeQueueMsgTypeCancel
| kShipNodeQueueMsgTypeMdnsEntriesFound
| kShipNodeQueueMsgTypeShipConnectionClosed
| kShipNodeQueueMsgTypeShipUnregisterSki
| kShipNodeQueueMsgTypeShipRegisterSki
| kShipNodeQueueMsgTypeShipCancelPairingSki
| kShipNodeQueueMsgTypeRetryConnectionForSki
| kShipNodeQueueMsgTypePromoteFingerprint
| kShipNodeQueueMsgTypeApprovePendingSki
| kShipNodeQueueMsgTypeRevokePairingFingerprint.

Inductive PeerTrustSource := kPeerTrustConfigured | kPeerTrustFromPairingRequest.
Inductive EebusTrustMode := kEebusTrustModePreTrust | kEebusTrustModePostTrust.

#[export] Instance PeerTrustSource_eq_dec : EqDecision PeerTrustSource.
Proof. solve_decision. Defined.
#[export] Instance EebusTrustMode_eq_dec : EqDecision EebusTrustMode.
Proof. solve_decision. Defined.

Record ShipNodeQueueMessage := mkMsg {
  msg_type : ShipNodeQueueMsgType;
  msg_ship_connection : option sc_ptr;
  msg_had_error : bool;
  msg_is_trusted : bool;
  msg_ski : option string;
  msg_approval_id : Z;
}.

(** The fields of [MdnsEntry] the node looks at. *)
Record MdnsEntry := mkEntry { entry_id : option string; entry_ski : option string }.

(** [ship_pairing]: is it not NULL? *)
Record ShipNode := mkShipNode {
  msg_queue : list ShipNodeQueueMessage;
  mdns_entries : list MdnsEntry;
  search_for_remote_ski : bool;
  cancel : bool;
  next_approval_id : Z;
  connections : list NodeConnection;
  remote_fingerprint : option string;
  ship_pairing : bool;
  role : ShipRole;
  trust_mode : EebusTrustMode;
}.

(** What the other threads do. *)
Inductive NodeEv :=
| EvMdnsEntriesFound (found : option (list MdnsEntry))
| EvServerConnection (ski peer_fingerprint : option string)
| EvAcceptPendingTrust (sc : sc_ptr) (approval_id : Z)
| EvHandleConnectionClosed (sc : sc_ptr) (had_error : bool)
| EvReportServiceShipId (service_id ship_id : option string)
| EvHandleShipStateUpdate (ski : option string) (state : SmeState)
| EvRegisterRemoteSki (ski : option string) (trusted : bool)
| EvUnregisterRemoteSki (ski : option string)
| EvCancelPairingWithSki (ski : option string)
| EvApprovePendingHandshakeWithSki (ski : option string)
| EvGetPendingWaitingMs (ski : option string)
| EvRegisterRemoteFingerprint (fingerprint : option string)
| EvRegisterPeerTrust (ship_id fingerprint : option string) (source : PeerTrustSource)
| EvRetryTimer (nc : nat)
| EvSent (k : nat)
| EvSendFailed (k : nat)
| EvStop
| EvYield.

(** What leaves the node, and the two moments of an approval. *)
Inductive NodeOut :=
| OServerConnection (ski : option string) (answer : Z)
| OApprovalIssued (sc : sc_ptr) (approval_id : Z)
| OTrustAccepted (sc : sc_ptr) (approval_id : Z)
| OApproveHandshake (sc : sc_ptr) (approval_id : Z)
| OAbortHandshake (sc : sc_ptr)
| OStop (sc : sc_ptr)
| ODelete (sc : sc_ptr)
| OConnected (ski : option string)
| ODisconnected (ski : option string)
| OShipStateUpdate (ski : option string) (state : SmeState)
| OShipIdUpdate (ski ship_id : option string)
| ORemoteServicesUpdate
| ONotifyMessageExchange.

(** [live]: the connections not yet deleted, each with its [remote_ski]. *)
Record Node := mkNode {
  sn : ShipNode;
  posting : list ShipNodeQueueMessage;
  live : gmap sc_ptr (option string);
  sched : list NodeEv;
  calls : nat;
  trace : list NodeOut;   (* newest first *)
}.

(** The answers of the code around the node, by number of the call. *)
Class NodeEnv := {
  env_create : nat → gset sc_ptr → option sc_ptr;       (* ShipConnectionCreate *)
  env_create_fresh n l sc : env_create n l = Some sc → sc ∉ l;
  env_start : nat → EebusError;                         (* SHIP_CONNECTION_START *)
  env_client_creator : nat → bool;                      (* WebsocketClientCreator... is not NULL *)
  env_waiting_allowed : nat → option string → bool;     (* IS_WAITING_FOR_TRUST_ALLOWED *)
  env_approve : nat → EebusError;                       (* what posting a decision returns *)
}.

Definition set_msg_queue (x : list ShipNodeQueueMessage) (s : ShipNode) : ShipNode :=
  mkShipNode x (mdns_entries s) (search_for_remote_ski s) (cancel s) (next_approval_id s)
    (connections s) (remote_fingerprint s) (ship_pairing s) (role s) (trust_mode s).
Definition set_mdns_entries (x : list MdnsEntry) (s : ShipNode) : ShipNode :=
  mkShipNode (msg_queue s) x (search_for_remote_ski s) (cancel s) (next_approval_id s)
    (connections s) (remote_fingerprint s) (ship_pairing s) (role s) (trust_mode s).
Definition set_search_for_remote_ski (x : bool) (s : ShipNode) : ShipNode :=
  mkShipNode (msg_queue s) (mdns_entries s) x (cancel s) (next_approval_id s) (connections s)
    (remote_fingerprint s) (ship_pairing s) (role s) (trust_mode s).
Definition set_cancel (x : bool) (s : ShipNode) : ShipNode :=
  mkShipNode (msg_queue s) (mdns_entries s) (search_for_remote_ski s) x (next_approval_id s)
    (connections s) (remote_fingerprint s) (ship_pairing s) (role s) (trust_mode s).
Definition set_next_approval_id (x : Z) (s : ShipNode) : ShipNode :=
  mkShipNode (msg_queue s) (mdns_entries s) (search_for_remote_ski s) (cancel s) x
    (connections s) (remote_fingerprint s) (ship_pairing s) (role s) (trust_mode s).
Definition set_connections (x : list NodeConnection) (s : ShipNode) : ShipNode :=
  mkShipNode (msg_queue s) (mdns_entries s) (search_for_remote_ski s) (cancel s)
    (next_approval_id s) x (remote_fingerprint s) (ship_pairing s) (role s) (trust_mode s).
Definition set_remote_fingerprint (x : option string) (s : ShipNode) : ShipNode :=
  mkShipNode (msg_queue s) (mdns_entries s) (search_for_remote_ski s) (cancel s)
    (next_approval_id s) (connections s) x (ship_pairing s) (role s) (trust_mode s).
Definition set_sn (x : ShipNode) (s : Node) : Node :=
  mkNode x (posting s) (live s) (sched s) (calls s) (trace s).
Definition set_posting (x : list ShipNodeQueueMessage) (s : Node) : Node :=
  mkNode (sn s) x (live s) (sched s) (calls s) (trace s).
Definition set_live (x : gmap sc_ptr (option string)) (s : Node) : Node :=
  mkNode (sn s) (posting s) x (sched s) (calls s) (trace s).
Definition set_sched (x : list NodeEv) (s : Node) : Node :=
  mkNode (sn s) (posting s) (live s) x (calls s) (trace s).
Definition set_calls (x : nat) (s : Node) : Node :=
  mkNode (sn s) (posting s) (live s) (sched s) x (trace s).
Definition set_trace (x : list NodeOut) (s : Node) : Node :=
  mkNode (sn s) (posting s) (live s) (sched s) (calls s) x.

Definition upd (f : ShipNode → ShipNode) : Prog Node unit := modify (λ s, set_sn (f (sn s)) s).
Definition rd {A} (f : ShipNode → A) : Prog Node A := gets (λ s, f (sn s)).
Definition upd_conns (f : list NodeConnection → list NodeConnection) : Prog Node unit :=
  upd (λ c, set_connections (f (connections c)) c).
Definition upd_nc (i : nat) (f : NodeConnection → NodeConnection) : Prog Node unit :=
  upd_conns (alter f i).
(** [NODE_CONNECTION_CONTAINER_GET_WITH_INDEX] and a dereference. *)
Definition get_nc (i : nat) : Prog Node NodeConnection := λ s,
  match connections (sn s) !! i with
  | Some nc => Ret nc s
  | None => Crash "NULL node connection"
  end.
(** [NODE_CONNECTION_CONTAINER_GET_OR_CREATE] *)
Definition get_or_create (ski : option string) : Prog Node nat :=
  i ← rd (λ c, (GetOrCreate ski (connections c)).1);
  upd_conns (λ l, (GetOrCreate ski l).2);;
  mret i.
Definition emit (o : NodeOut) : Prog Node unit :=
  modify (λ s, set_trace (o :: trace s) s).
Definition next_call : Prog Node nat := λ s, Ret (calls s) (set_calls (S (calls s)) s).
Definition EEBUS_QUEUE_SEND (m : ShipNodeQueueMessage) : Prog Node unit :=
  modify (λ s, set_posting (posting s ++ [m]) s).

(** The [ShipConnection] behind an address. *)
Definition deref (sc : sc_ptr) : Prog Node (option string) := λ s,
  match live s !! sc with
  | Some remote_ski => Ret remote_ski s
  | None => Crash "use of a deleted connection"
  end.
Definition SHIP_CONNECTION_GET_REMOTE_SKI (sc : sc_ptr) : Prog Node (option string) := deref sc.
Definition ShipConnectionDelete (sc : sc_ptr) : Prog Node unit :=
  deref sc;; modify (λ s, set_live (delete sc (live s)) s);; emit (ODelete sc).

Definition ShipNodeFingerprintMatches (peer_fingerprint trusted_fingerprint : option string) : bool :=
  if StringIsEmpty trusted_fingerprint || StringIsEmpty peer_fingerprint then false
  else StringEqualsIgnoreCase peer_fingerprint trusted_fingerprint.

Definition ShipNodeShouldPromotePendingPeer (has_connection : bool)
    (connected_peer_fingerprint trusted_fingerprint : option string) : bool :=
  if negb has_connection then false
  else ShipNodeFingerprintMatches connected_peer_fingerprint trusted_fingerprint.

Definition SkiMatches (ski_a ski_b : option string) : bool :=
  if StringIsEmpty ski_a || StringIsEmpty ski_b then false else StringEqualsIgnoreCase ski_a ski_b.

Definition ShipNodeIsClientSupported (s : ShipNode) : bool :=
  bool_decide (role s = kShipRoleClient) || bool_decide (role s = kShipRoleAuto).

(** [ShipConnectionCreate(.., nc->ski, ..)] *)
Definition ShipConnectionCreate `{NodeEnv} (ski : option string) : Prog Node (option sc_ptr) :=
  n ← next_call;
  l ← gets live;
  match env_create n (dom l) with
  | None => mret None
  | Some sc => modify (λ s, set_live (<[sc := ski]> (live s)) s);; mret (Some sc)
  end.

Definition ShipNodePostConnectionClose (sc : option sc_ptr) (had_error : bool) : Prog Node unit :=
  EEBUS_QUEUE_SEND (mkMsg kShipNodeQueueMsgTypeShipConnectionClosed sc had_error false None 0).

(** A message that carries at most a SKI. *)
Definition ski_message (t : ShipNodeQueueMsgType) (ski : option string) : ShipNodeQueueMessage :=
  mkMsg t None false false ski 0.

(** ** The critical sections of the other threads *)

Section threads.
Context `{NodeEnv}.

Definition ShipNodeOnMdnsEntriesFoundCallback (found : option (list MdnsEntry)) : Prog Node unit :=
  branch (λ s, cancel (sn s)) (mret tt)
    (match found with
     | None => mret tt
     | Some es =>
         upd (set_mdns_entries es);;
         upd (set_search_for_remote_ski true);;
         emit ORemoteServicesUpdate;;
         branch (λ s, ShipNodeIsClientSupported (sn s))
           (EEBUS_QUEUE_SEND (ski_message kShipNodeQueueMsgTypeMdnsEntriesFound None))
           (mret tt)
     end).

Definition IsRemoteServiceForSkiPaired (ski : option string) : Prog Node bool :=
  rd (λ c, IsSkiTrusted ski (connections c)).

(** The position of the owner of [sc], and the owner. *)
Definition find_owner (sc : option sc_ptr) : Prog Node (option (nat * NodeConnection)) :=
  rd (λ c, i ← FindWithShipConnection sc (connections c); nc ← connections c !! i; Some (i, nc)).
Definition find_ski (ski : option string) : Prog Node (option (nat * NodeConnection)) :=
  rd (λ c, i ← FindWithSki ski (connections c); nc ← connections c !! i; Some (i, nc)).

Definition ShipNodeAcceptPendingTrust (sc : sc_ptr) (approval_id : Z) : Prog Node bool :=
  owner ← find_owner (Some sc);
  c ← rd cancel;
  match owner with
  | Some (i, nc) =>
      if (c : bool) then mret false
      else if bool_decide (approval_id = 0) then mret (is_trusted nc)
      else if NodeConnectionHasPendingApproval (Some nc) (Some sc) approval_id
      then upd_nc i (λ nc, set_provisional false (set_is_trusted true (set_pending_approval_id 0 nc)));;
           emit (OTrustAccepted sc approval_id);; mret true
      else mret false
  | None => mret false
  end.

Definition ShipNodeDiscardPendingTrust (sc : option sc_ptr) (approval_id : Z) : Prog Node unit :=
  owner ← find_owner sc;
  match owner with
  | Some (i, nc) =>
      if NodeConnectionHasPendingApproval (Some nc) sc approval_id
      then upd_nc i (set_pending_approval_id 0) else mret tt
  | None => mret tt
  end.

Definition ShipNodeIsCurrentPairingPeer (s : ShipNode) (peer : NodeConnection) : bool :=
  is_trusted peer && trusted_by_pairing peer
  && ShipNodeFingerprintMatches (expected_fingerprint peer) (remote_fingerprint s).

Definition ShipNodeIsPairingMessageExchangeAvailable : Prog Node bool :=
  rd (λ s, existsb (λ peer, bool_decide (connection peer ≠ None) && handshake_complete peer
                            && ShipNodeIsCurrentPairingPeer s peer) (connections s)).

Definition HandleConnectionClosed (sc : sc_ptr) (had_error : bool) : Prog Node unit :=
  owner ← find_owner (Some sc);
  s ← gets sn;
  (match owner with
   | Some (i, _) => upd_nc i (set_pending_approval_id 0)
   | None => mret tt
   end);;
  let current_pairing_closed :=
    match owner with
    | Some (_, nc) => handshake_complete nc && ShipNodeIsCurrentPairingPeer s nc
    | None => false
    end in
  if cancel s then mret tt
  else
    (if current_pairing_closed && ship_pairing s then emit ONotifyMessageExchange else mret tt);;
    ShipNodePostConnectionClose (Some sc) had_error.

Definition ReportServiceShipId (service_id id : option string) : Prog Node unit :=
  found ← find_ski service_id;
  (match found with
   | Some (i, nc) => if bool_decide (ship_id nc = None) then upd_nc i (set_ship_id id) else mret tt
   | None => mret tt
   end);;
  emit (OShipIdUpdate service_id id).

Definition HandleShipStateUpdate (ski : option string) (state : SmeState) : Prog Node unit :=
  emit (OShipStateUpdate ski state);;
  if bool_decide (state = kDataExchange) then
    found ← find_ski ski;
    s ← gets sn;
    match found with
    | Some (i, nc) =>
        let '(just_completed, nc') := OnHandshakeComplete nc in
        upd_nc i (λ nc, (OnHandshakeComplete nc).2);;
        (if just_completed && ShipNodeIsCurrentPairingPeer s nc' && ship_pairing s
         then emit ONotifyMessageExchange else mret tt);;
        if (just_completed : bool) then emit (OConnected ski) else mret tt
    | None => mret tt
    end
  else mret tt.

Definition ShipNodeFindPeerForRegistration (s : ShipNode) (id fingerprint : option string)
    (source : PeerTrustSource) : option nat :=
  let l := connections s in
  let nc := FindWithShipId id l in
  let nc := match nc with None => FindWithFingerprint fingerprint l | _ => nc end in
  let nc :=
    match nc with
    | None =>
        if bool_decide (source = kPeerTrustFromPairingRequest)
        then find_first (λ c, ShipNodeFingerprintMatches (peer_fingerprint c) fingerprint) l
        else None
    | _ => nc
    end in
  match nc with
  | None =>
      e ← find (λ e, bool_decide (entry_id e ≠ None) && bool_decide (entry_id e = id))
            (mdns_entries s);
      FindWithSki (entry_ski e) l
  | _ => nc
  end.

(** The error, and the connection to close. *)
Definition ShipNodeCheckPeerRegistration (nc : option NodeConnection) (fingerprint : option string)
    (source : PeerTrustSource) : EebusError * option sc_ptr :=
  match nc with
  | Some nc =>
      if is_attempt_running nc
         && negb (ShipNodeFingerprintMatches (expected_fingerprint nc) fingerprint)
      then
        if bool_decide (source = kPeerTrustConfigured) then (kEebusErrorCommunicationBusy, None)
        else if negb (ShipNodeFingerprintMatches (peer_fingerprint nc) fingerprint)
        then (kEebusErrorOk, connection nc)
        else (kEebusErrorOk, None)
      else (kEebusErrorOk, None)
  | None => (kEebusErrorOk, None)
  end.

Definition ShipNodeSchedulePeerConnection (close_connection : option sc_ptr) : Prog Node unit :=
  (if bool_decide (close_connection ≠ None)
   then ShipNodePostConnectionClose close_connection false else mret tt);;
  branch (λ s, ShipNodeIsClientSupported (sn s))
    (EEBUS_QUEUE_SEND (ski_message kShipNodeQueueMsgTypeMdnsEntriesFound None)) (mret tt).

Definition ShipNodeRegisterPeerTrust (id fingerprint : option string) (source : PeerTrustSource)
    : Prog Node EebusError :=
  if StringIsEmpty id || (63 <? Z.of_nat (String.length (default EmptyString id)))
     || bool_decide (StringHexToBytes fingerprint 32 = None)
  then mret kEebusErrorInputArgument
  else
    s ← gets sn;
    let found := ShipNodeFindPeerForRegistration s id fingerprint source in
    let '(ret, close_connection) :=
      ShipNodeCheckPeerRegistration (found ≫= (connections s !!.)) fingerprint source in
    if negb (is_ok ret) then mret ret
    else
      i ← match found with Some i => mret i | None => get_or_create None end;
      upd_nc i (λ peer,
        set_trusted_by_pairing
          (trusted_by_pairing peer || bool_decide (source = kPeerTrustFromPairingRequest))
          (set_provisional false (set_is_trusted true
            (set_expected_fingerprint fingerprint (set_ship_id id peer)))));;
      ShipNodeSchedulePeerConnection close_connection;;
      mret kEebusErrorOk.

Definition RegisterRemoteFingerprintWithShipId (id fingerprint : option string)
    : Prog Node EebusError :=
  ShipNodeRegisterPeerTrust id fingerprint kPeerTrustConfigured.

Definition RegisterRemoteFingerprint (fingerprint : option string) : Prog Node unit :=
  s ← gets sn;
  let current := remote_fingerprint s in
  let replacing := negb (StringIsEmpty current)
                   && negb (ShipNodeFingerprintMatches current fingerprint) in
  (if (replacing : bool)
   then upd_conns (fmap (λ nc,
          if trusted_by_pairing nc && ShipNodeFingerprintMatches (expected_fingerprint nc) current
          then set_pending_approval_id 0 (set_provisional true (set_is_trusted false nc))
          else nc))
   else mret tt);;
  upd (set_remote_fingerprint fingerprint);;
  (if (replacing : bool)
   then EEBUS_QUEUE_SEND (ski_message kShipNodeQueueMsgTypeRevokePairingFingerprint current)
   else mret tt);;
  EEBUS_QUEUE_SEND (ski_message kShipNodeQueueMsgTypePromoteFingerprint None).

(** The decision of the websocket server's callback; [connected] is the peer
    [ServerConnect] is called for. *)
Definition ServerConnectPeer (i : nat) : Prog Node Z :=
  nc ← get_nc i;
  created ← ShipConnectionCreate (ski nc);
  n ← next_call;
  upd_nc i (λ nc, (ServerConnect created (env_start n) nc).2);;
  mret (if is_ok (ServerConnect created (env_start n) nc).1 then 0 else -1).

Definition ShipNodeAdmitPeer (peer_ski peer_fp : option string) (recognised_by_current_pairing : bool)
    (i : nat) : Prog Node Z :=
  s ← gets sn;
  (if recognised_by_current_pairing
   then upd_nc i (λ nc, set_trusted_by_pairing true
                          (set_expected_fingerprint (remote_fingerprint s) nc))
   else mret tt);;
  upd_nc i (λ nc, if SkiMatches (ski nc) peer_ski then nc else set_ski peer_ski nc);;
  upd_nc i (set_peer_fingerprint peer_fp);;
  ServerConnectPeer i.

Definition ShipNodeOnWebsocketServerConnectionCallback (peer_ski peer_fp : option string)
    : Prog Node Z :=
  s ← gets sn;
  if cancel s then mret (-1)
  else
    let l := connections s in
    let found := match FindWithSki peer_ski l with
                 | None => FindWithFingerprint peer_fp l
                 | nc => nc
                 end in
    let nc := found ≫= (l !!.) in
    let expected := nc ≫= expected_fingerprint in
    if bool_decide (nc ≠ None) && negb (StringIsEmpty expected)
       && negb (ShipNodeFingerprintMatches peer_fp expected)
    then mret (-1)
    else
      let was_trusted := match nc with Some nc => is_trusted nc | None => false end in
      let trusted_ski := if was_trusted then nc ≫= ski else None in
      let recognised_by_current_pairing :=
        ShipNodeFingerprintMatches peer_fp (remote_fingerprint s) in
      let recognised_by_certificate :=
        recognised_by_current_pairing
        || (was_trusted && ShipNodeFingerprintMatches peer_fp expected) in
      let recognised := SkiMatches peer_ski trusted_ski || recognised_by_certificate in
      let post_trust := bool_decide (trust_mode s = kEebusTrustModePostTrust) in
      n ← next_call;
      if bool_decide (nc = None) && negb recognised && negb post_trust
         && negb (env_waiting_allowed n peer_ski)
      then mret (-1)
      else
        match found, nc with
        | Some i, Some nc =>
            if is_attempt_running nc then mret (-1)
            else
              (if recognised
               then upd_nc i (λ nc, set_provisional false (set_is_trusted true nc))
               else mret tt);;
              ShipNodeAdmitPeer peer_ski peer_fp recognised_by_current_pairing i
        | _, _ =>
            i ← get_or_create peer_ski;
            upd_nc i (λ nc, set_provisional (negb (recognised || negb post_trust))
                              (set_is_trusted (recognised || negb post_trust) nc));;
            ShipNodeAdmitPeer peer_ski peer_fp recognised_by_current_pairing i
        end.

Definition clear_pending_approval (ski : option string) : Prog Node bool :=
  found ← find_ski ski;
  match found with
  | Some (i, _) => upd_nc i (set_pending_approval_id 0);; mret true
  | None => mret false
  end.

Definition RegisterRemoteSki (ski : option string) (trusted : bool) : Prog Node unit :=
  (if trusted then mret tt else clear_pending_approval ski;; mret tt);;
  EEBUS_QUEUE_SEND (mkMsg kShipNodeQueueMsgTypeShipRegisterSki None false trusted ski 0).

Definition UnregisterRemoteSki (ski : option string) : Prog Node unit :=
  registered ← clear_pending_approval ski;
  if (registered : bool)
  then EEBUS_QUEUE_SEND (ski_message kShipNodeQueueMsgTypeShipUnregisterSki ski) else mret tt.

Definition CancelPairingWithSki (ski : option string) : Prog Node unit :=
  if StringIsEmpty ski then mret tt
  else
    clear_pending_approval ski;;
    EEBUS_QUEUE_SEND (ski_message kShipNodeQueueMsgTypeShipCancelPairingSki ski).

Definition UINT64_MAX : Z := 2 ^ 64 - 1.

Definition ApprovePendingHandshakeWithSki (ski : option string) : Prog Node unit :=
  if StringIsEmpty ski then mret tt
  else
    found ← find_ski ski;
    s ← gets sn;
    match found with
    | Some (i, nc) =>
        match connection nc with
        | Some sc =>
            if negb (cancel s) && bool_decide (pending_approval_id nc = 0)
               && bool_decide (next_approval_id s ≠ UINT64_MAX)
            then
              let id := u64 (next_approval_id s + 1) in
              upd (set_next_approval_id id);;
              upd_nc i (set_pending_approval_id id);;
              emit (OApprovalIssued sc id);;
              EEBUS_QUEUE_SEND
                (mkMsg kShipNodeQueueMsgTypeApprovePendingSki (Some sc) false false None id)
            else mret tt
        | None => mret tt
        end
    | None => mret tt
    end.

(** The answer of the connection is not modelled, that there is one is. *)
Definition GetPendingWaitingMsWithSki (ski : option string) : Prog Node unit :=
  found ← find_ski ski;
  match found ≫= (λ '(_, nc), connection nc) with
  | Some sc => deref sc;; mret tt
  | None => mret tt
  end.

(** An armed timer fires once. *)
Definition ShipNodeRetryTimerCallback (i : nat) : Prog Node unit :=
  s ← gets sn;
  match connections s !! i with
  | Some nc =>
      match retry_timer nc with
      | Some _ =>
          upd_nc i (set_retry_timer None);;
          if cancel s then mret tt
          else EEBUS_QUEUE_SEND (ski_message kShipNodeQueueMsgTypeRetryConnectionForSki (ski nc))
      | None => mret tt
      end
  | None => mret tt
  end.

(** ** Interleaving *)

Definition kQueueMaxMsg : nat := 20.

(** A sender gets its message into the queue, or gives up: then an approval is
    taken back. *)
Definition Sent (k : nat) : Prog Node unit := λ s,
  match posting s !! k with
  | Some m =>
      if bool_decide (length (msg_queue (sn s)) < kQueueMaxMsg)%nat
      then Ret tt (set_posting (delete k (posting s))
                     (set_sn (set_msg_queue (msg_queue (sn s) ++ [m]) (sn s)) s))
      else Ret tt s
  | None => Ret tt s
  end.
Definition SendFailed (k : nat) : Prog Node unit :=
  p ← gets posting;
  match p !! k with
  | Some m =>
      modify (λ s, set_posting (delete k (posting s)) s);;
      match msg_type m with
      | kShipNodeQueueMsgTypeApprovePendingSki =>
          ShipNodeDiscardPendingTrust (msg_ship_connection m) (msg_approval_id m)
      | _ => mret tt
      end
  | None => mret tt
  end.

(** [Stop] up to the join of the node's thread. *)
Definition StopRequest : Prog Node unit :=
  upd (set_cancel true);;
  EEBUS_QUEUE_SEND (ski_message kShipNodeQueueMsgTypeCancel None).

Definition env_step (e : NodeEv) : Prog Node unit :=
  match e with
  | EvMdnsEntriesFound found => ShipNodeOnMdnsEntriesFoundCallback found
  | EvServerConnection ski fp =>
      answer ← ShipNodeOnWebsocketServerConnectionCallback ski fp;
      emit (OServerConnection ski answer)
  | EvAcceptPendingTrust sc id => ShipNodeAcceptPendingTrust sc id;; mret tt
  | EvHandleConnectionClosed sc had_error => HandleConnectionClosed sc had_error
  | EvReportServiceShipId ski id => ReportServiceShipId ski id
  | EvHandleShipStateUpdate ski state => HandleShipStateUpdate ski state
  | EvRegisterRemoteSki ski trusted => RegisterRemoteSki ski trusted
  | EvUnregisterRemoteSki ski => UnregisterRemoteSki ski
  | EvCancelPairingWithSki ski => CancelPairingWithSki ski
  | EvApprovePendingHandshakeWithSki ski => ApprovePendingHandshakeWithSki ski
  | EvGetPendingWaitingMs ski => GetPendingWaitingMsWithSki ski
  | EvRegisterRemoteFingerprint fp => RegisterRemoteFingerprint fp
  | EvRegisterPeerTrust id fp source => ShipNodeRegisterPeerTrust id fp source;; mret tt
  | EvRetryTimer i => ShipNodeRetryTimerCallback i
  | EvSent k => Sent k
  | EvSendFailed k => SendFailed k
  | EvStop => StopRequest
  | EvYield => mret tt
  end.

Fixpoint env_until_yield (evs : list NodeEv) : Prog Node unit :=
  match evs with
  | [] => modify (set_sched [])
  | EvYield :: evs' => modify (set_sched evs')
  | e :: evs' => env_step e;; env_until_yield evs'
  end.

Fixpoint env_until_message (evs : list NodeEv) : Prog Node unit :=
  branch (λ s, bool_decide (msg_queue (sn s) ≠ [])) (modify (set_sched evs))
    (match evs with
     | [] => modify (set_sched [])
     | e :: evs' => env_step e;; env_until_message evs'
     end).

Definition sync : Prog Node unit := evs ← gets sched; env_until_yield evs.

Definition queue_take : Prog Node ShipNodeQueueMessage := λ s,
  match msg_queue (sn s) with
  | [] => Block s
  | m :: q => Ret m (set_sn (set_msg_queue q (sn s)) s)
  end.
Definition EEBUS_QUEUE_RECEIVE : Prog Node ShipNodeQueueMessage :=
  sync;; evs ← gets sched; env_until_message evs;; queue_take.
End threads.

(** ** The thread of the node *)

Section loop.
Context `{NodeEnv}.

(** [SHIP_CONNECTION_STOP] joins the thread of the connection. *)
Definition SHIP_CONNECTION_STOP (sc : sc_ptr) : Prog Node unit :=
  deref sc;; sync;; emit (OStop sc).

Definition ShipNodeFindServiceForPeer (s : ShipNode) (nc : NodeConnection) : option MdnsEntry :=
  if cancel s then None
  else
    find (λ e,
      (if negb (StringIsEmpty (ship_id nc)) && negb (StringIsEmpty (expected_fingerprint nc))
       then bool_decide (entry_id e ≠ None) && bool_decide (entry_id e = ship_id nc)
       else SkiMatches (entry_ski e) (ski nc))
      && negb (StringIsEmpty (entry_ski e)))
      (mdns_entries s).

(** [NODE_CONNECTION_CLIENT_CONNECT] with a new websocket creator: without one, or
    with an attempt running, it does nothing. *)
Definition ClientConnectPeer (i : nat) : Prog Node unit :=
  n ← next_call;
  nc ← get_nc i;
  (if env_client_creator n && negb (is_attempt_running nc)
   then
     created ← ShipConnectionCreate (ski nc);
     m ← next_call;
     upd_nc i (λ nc, (ClientConnect true created (env_start m) nc).1.2);;
     match (ClientConnect true created (env_start m) nc).2 with
     | Some sc => ShipConnectionDelete sc
     | None => mret tt
     end
   else mret tt).

Definition ShipNodeConnectToPendingSkiInternal (i : nat) : Prog Node unit :=
  nc ← get_nc i;
  s ← gets sn;
  match ShipNodeFindServiceForPeer s nc with
  | None => mret tt
  | Some found =>
      if SkiMatches (ski nc) (entry_ski found) then ClientConnectPeer i
      else
        match FindWithSki (entry_ski found) (connections s) with
        | Some j =>
            if bool_decide (j ≠ i) then mret tt
            else upd_nc i (set_ski (entry_ski found));; ClientConnectPeer i
        | None => upd_nc i (set_ski (entry_ski found));; ClientConnectPeer i
        end
  end.

Definition ShipNodeConnectToPendingSki (ski : option string) : Prog Node unit :=
  branch (λ s, negb (ShipNodeIsClientSupported (sn s))) (mret tt)
    (sync;;
     found ← find_ski ski;
     match found with
     | Some (i, nc) =>
         if is_attempt_running nc then mret tt else ShipNodeConnectToPendingSkiInternal i
     | None => mret tt
     end).

(** [n] rounds from position [i]; the body leaves the size of the container alone. *)
Fixpoint connect_loop (n i : nat) : Prog Node unit :=
  match n with
  | O => mret tt
  | S n' =>
      nc ← get_nc i;
      (if is_attempt_running nc then mret tt else ShipNodeConnectToPendingSkiInternal i);;
      connect_loop n' (S i)
  end.

Definition ShipNodeConnectToAllPendingSkis : Prog Node unit :=
  branch (λ s, negb (ShipNodeIsClientSupported (sn s))) (mret tt)
    (sync;;
     n ← rd (λ c, length (connections c));
     connect_loop n 0;;
     upd (set_search_for_remote_ski false)).

(** The critical section of [CloseShipConnection]: the peer's SKI, [discard] and
    the delay, where the connection has an owner. *)
Definition CloseSection (sc : sc_ptr) : Prog Node (option (option string * bool * Z)) :=
  owner ← find_owner (Some sc);
  c ← rd cancel;
  match owner with
  | None => mret None
  | Some (i, nc) =>
      let discard := provisional nc && negb (is_trusted nc) in
      let retry_delay := (OnConnectionClosed nc).1 in
      upd_nc i (λ nc, (OnConnectionClosed nc).2);;
      (if discard then upd_conns (RemoveWithSki (ski nc))
       else if negb c && (0 <? retry_delay) then upd_nc i (ScheduleRetry retry_delay)
       else mret tt);;
      mret (Some (ski nc, discard, retry_delay))
  end.

Definition CloseShipConnection (sc : option sc_ptr) : Prog Node unit :=
  match sc with
  | None => mret tt
  | Some sc =>
      sync;;
      closed ← CloseSection sc;
      match closed with
      | None => mret tt
      | Some (ski, discard, retry_delay) =>
          SHIP_CONNECTION_STOP sc;;
          emit (ODisconnected ski);;
          ShipConnectionDelete sc;;
          c ← rd cancel;
          if negb c && negb discard && (retry_delay =? 0) && bool_decide (ski ≠ None)
          then ShipNodeConnectToPendingSki ski else mret tt
      end
  end.

(** Stops, reports and deletes a connection taken from its owner. *)
Definition DropConnection (sc : option sc_ptr) : Prog Node unit :=
  match sc with
  | None => mret tt
  | Some sc =>
      SHIP_CONNECTION_STOP sc;;
      remote_ski ← SHIP_CONNECTION_GET_REMOTE_SKI sc;
      emit (ODisconnected remote_ski);;
      ShipConnectionDelete sc
  end.

(** The [while] loop, from position [i]. *)
Fixpoint revoke_loop (fingerprint : option string) (fuel i : nat) : Prog Node unit :=
  match fuel with
  | O => crash "revoke_loop: out of fuel"
  | S fuel' =>
      sync;;
      l ← rd connections;
      match l !! i with
      | None => mret tt
      | Some nc =>
          if negb (trusted_by_pairing nc)
             || negb (ShipNodeFingerprintMatches (expected_fingerprint nc) fingerprint)
          then revoke_loop fingerprint fuel' (S i)
          else
            upd_nc i (λ nc, (ReleaseShipConnection nc).2);;
            upd_conns (Remove (Some i));;
            DropConnection (ReleaseShipConnection nc).1;;
            revoke_loop fingerprint fuel' i
      end
  end.

(** Each round passes or removes a peer, and each event adds at most one. *)
Definition revoke_fuel (s : Node) : nat :=
  S (length (connections (sn s)) + length (sched s)).
Definition ShipNodeRevokePairingFingerprint (fingerprint : option string) : Prog Node unit :=
  fuel ← gets revoke_fuel; revoke_loop fingerprint fuel 0.

(** [ShipConnectionApprovePendingHandshakeWithToken] with the node's callback. *)
Definition ApproveWithToken (sc : sc_ptr) (approval_id : Z) : Prog Node EebusError :=
  deref sc;; n ← next_call; emit (OApproveHandshake sc approval_id);; mret (env_approve n).

Fixpoint promote_loop (n i : nat) : Prog Node unit :=
  match n with
  | O => mret tt
  | S n' =>
      sync;;
      nc ← get_nc i;
      s ← gets sn;
      match connection nc with
      | Some sc =>
          if ShipNodeShouldPromotePendingPeer true (peer_fingerprint nc) (remote_fingerprint s)
          then
            upd_nc i (λ nc, set_expected_fingerprint (remote_fingerprint s)
                              (set_trusted_by_pairing true
                                (set_provisional false (set_is_trusted true nc))));;
            sync;;
            ApproveWithToken sc 0;; mret tt
          else mret tt
      | None => mret tt
      end;;
      promote_loop n' (S i)
  end.

Definition ShipNodePromoteFingerprint : Prog Node unit :=
  sync;;
  n ← rd (λ c, length (connections c));
  promote_loop n 0.

Definition ShipNodeApprovePendingHandshake (sc : option sc_ptr) (approval_id : Z) : Prog Node unit :=
  sync;;
  owner ← find_owner sc;
  match owner, sc with
  | Some (_, nc), Some p =>
      if NodeConnectionHasPendingApproval (Some nc) sc approval_id
      then
        sync;;
        err ← ApproveWithToken p approval_id;
        if is_ok err then mret tt
        else sync;; ShipNodeDiscardPendingTrust sc approval_id
      else mret tt
  | _, _ => mret tt
  end.

Definition ShipNodeRegisterSki (ski : option string) (trusted : bool) : Prog Node unit :=
  sync;;
  i ← get_or_create ski;
  upd_nc i (λ nc, set_pending_approval_id 0 (set_provisional false (set_is_trusted trusted nc))).

Definition ShipNodeUnregisterSki (ski : option string) : Prog Node unit :=
  sync;;
  found ← find_ski ski;
  match found with
  | None => mret tt
  | Some (i, nc) =>
      upd_nc i (λ nc, (ReleaseShipConnection nc).2);;
      upd_conns (RemoveWithSki ski);;
      DropConnection (ReleaseShipConnection nc).1
  end.

Definition ShipNodeCancelPairingSki (ski : option string) : Prog Node unit :=
  if StringIsEmpty ski then mret tt
  else
    sync;;
    found ← find_ski ski;
    match found with
    | None => mret tt
    | Some (i, nc) =>
        upd_nc i (set_pending_approval_id 0);;
        if provisional nc then
          sync;;
          match connection nc with
          | Some sc => deref sc;; emit (OAbortHandshake sc)
          | None => upd_conns (RemoveWithSki ski)
          end
        else mret tt
    end.

Definition HandleMessage (m : ShipNodeQueueMessage) : Prog Node unit :=
  match msg_type m with
  | kShipNodeQueueMsgTypeMdnsEntriesFound => ShipNodeConnectToAllPendingSkis
  | kShipNodeQueueMsgTypeShipConnectionClosed => CloseShipConnection (msg_ship_connection m)
  | kShipNodeQueueMsgTypeShipUnregisterSki => ShipNodeUnregisterSki (msg_ski m)
  | kShipNodeQueueMsgTypeShipRegisterSki =>
      ShipNodeRegisterSki (msg_ski m) (msg_is_trusted m);;
      ShipNodeConnectToPendingSki (msg_ski m)
  | kShipNodeQueueMsgTypeShipCancelPairingSki => ShipNodeCancelPairingSki (msg_ski m)
  | kShipNodeQueueMsgTypeRetryConnectionForSki => ShipNodeConnectToPendingSki (msg_ski m)
  | kShipNodeQueueMsgTypePromoteFingerprint => ShipNodePromoteFingerprint
  | kShipNodeQueueMsgTypeApprovePendingSki =>
      ShipNodeApprovePendingHandshake (msg_ship_connection m) (msg_approval_id m)
  | kShipNodeQueueMsgTypeRevokePairingFingerprint => ShipNodeRevokePairingFingerprint (msg_ski m)
  | kShipNodeQueueMsgTypeCancel => mret tt
  end.

(** At most [n] rounds. *)
Fixpoint ShipNodeConnectionLoop (n : nat) : Prog Node unit :=
  match n with
  | O => mret tt
  | S n' =>
      branch (λ s, cancel (sn s)) (mret tt)
        (m ← EEBUS_QUEUE_RECEIVE; HandleMessage m;; ShipNodeConnectionLoop n')
  end.

(** What [Stop] does once the thread has ended: position after position, up to
    the size the container has then. *)
Fixpoint stop_loop (fuel i : nat) : Prog Node unit :=
  match fuel with
  | O => crash "stop_loop: out of fuel"
  | S fuel' =>
      sync;;
      l ← rd connections;
      match l !! i with
      | None => mret tt
      | Some nc =>
          upd_nc i (λ nc, StopRetryTimer (ReleaseShipConnection nc).2);;
          DropConnection (ReleaseShipConnection nc).1;;
          stop_loop fuel' (S i)
      end
  end.
Definition StopFinish : Prog Node unit := fuel ← gets revoke_fuel; stop_loop fuel 0.
End loop.

(** ** A new node *)

Definition ShipNodeConstruct (r : string) (mode : EebusTrustMode) (pairing : bool) : ShipNode :=
  mkShipNode [] [] false false 0 [] None pairing
    (if bool_decide (r = "server"%string) then kShipRoleServer
     else if bool_decide (r = "client"%string) then kShipRoleClient else kShipRoleAuto)
    mode.

Definition node_start (r : string) (mode : EebusTrustMode) (pairing : bool) (evs : list NodeEv)
    : Node :=
  mkNode (ShipNodeConstruct r mode pairing) [] ∅ evs 0 [].
