(* ===== verification/ShipNodeInv.v ===== *)
(** * The invariant of the SHIP node

    [inv]: no connection has two owners, no SKI two peers, owned connections are
    not deleted and belong to a running attempt; approvals carry ids that are
    never used twice.  [env_rel] is what the loop may rely on while the other
    threads run: they delete no connection and take none from its owner. *)

From stdpp Require Import gmap.
From S2P Require Import Prelude StringUtil ShipTypes NodeConnection ShipNode.

Local Open Scope Z_scope.

(** The approvals issued and accepted so far. *)
Definition issued (tr : list NodeOut) : list (sc_ptr * Z) :=
  omap (λ o, match o with OApprovalIssued sc id => Some (sc, id) | _ => None end) tr.
Definition accepted (tr : list NodeOut) : list (sc_ptr * Z) :=
  omap (λ o, match o with OTrustAccepted sc id => Some (sc, id) | _ => None end) tr.

Record inv (l : list NodeConnection) (lv : gmap sc_ptr (option string)) (next : Z)
    (tr : list NodeOut) : Prop := {
  inv_owners : distinct connection l;
  inv_skis : distinct ski_key l;
  inv_live i nc sc : l !! i = Some nc → connection nc = Some sc → is_Some (lv !! sc);
  inv_running i nc : l !! i = Some nc → connection nc ≠ None → is_attempt_running nc = true;
  inv_next : 0 <= next <= UINT64_MAX;
  inv_ids sc id : (sc, id) ∈ issued tr → 0 < id <= next;
  inv_issued : NoDup (issued tr).*2;
  inv_pending i nc : l !! i = Some nc → pending_approval_id nc ≠ 0 →
    ∃ sc, connection nc = Some sc ∧ (sc, pending_approval_id nc) ∈ issued tr ∧
      pending_approval_id nc ∉ (accepted tr).*2;
  inv_accepted p : p ∈ accepted tr → p ∈ issued tr;
  inv_once : NoDup (accepted tr).*2;
}.

Definition conns (s : Node) : list NodeConnection := connections (sn s).
Definition Inv (s : Node) : Prop := inv (conns s) (live s) (next_approval_id (sn s)) (trace s).

(** [sc] is the connection of the peer at position [i]. *)
Definition owns (s : Node) (i : nat) (sc : sc_ptr) : Prop :=
  ∃ nc, conns s !! i = Some nc ∧ connection nc = Some sc.

Record env_rel (s s' : Node) : Prop := {
  rel_live sc k : live s !! sc = Some k → live s' !! sc = Some k;
  rel_owned i sc : owns s i sc → owns s' i sc;
  rel_fresh i sc : owns s' i sc → is_Some (live s !! sc) → owns s i sc;
  rel_length : (length (conns s) ≤ length (conns s'))%nat;
}.

#[export] Instance env_rel_preorder : PreOrder env_rel.
Proof.
  split; [by constructor|]. intros s1 s2 s3 [L1 O1 F1 N1] [L2 O2 F2 N2]. constructor; auto.
  - intros i sc Ho [k Hk]. eauto.
  - lia.
Qed.

(** ** Updates of one peer *)

(** [nc'] is [nc] with at most less rights and no connection. *)
Definition keeps_pending (nc nc' : NodeConnection) : Prop :=
  pending_approval_id nc' = pending_approval_id nc ∨ pending_approval_id nc' = 0.
Definition tame (nc nc' : NodeConnection) : Prop :=
  ski_key nc' = ski_key nc ∧ connection nc' = connection nc ∧
  is_attempt_running nc' = is_attempt_running nc ∧ keeps_pending nc nc'.
Definition shrinks (nc nc' : NodeConnection) : Prop :=
  tame nc nc' ∨
  (ski_key nc' = ski_key nc ∧ connection nc' = None ∧ pending_approval_id nc' = 0).

Lemma tame_refl nc : tame nc nc.
Proof. repeat split. by left. Qed.
Lemma tame_shrinks nc nc' : tame nc nc' → shrinks nc nc'.
Proof. by left. Qed.

(** A list whose elements come, each at most once, from [l]. *)
Definition shrunk (l l' : list NodeConnection) : Prop :=
  ∃ pos : nat → nat, (∀ i j x y, l' !! i = Some x → l' !! j = Some y → pos i = pos j → i = j) ∧
    ∀ i nc', l' !! i = Some nc' → ∃ nc, l !! pos i = Some nc ∧ shrinks nc nc'.

Lemma shrunk_alter f i l : (∀ nc, shrinks nc (f nc)) → shrunk l (alter f i l).
Proof.
  intros Hf. exists id. split; [done|]. intros j nc'. rewrite list_lookup_alter.
  case_decide as E; [|eauto using tame_shrinks, tame_refl].
  subst. intros (nc & Hnc & ->)%fmap_Some. eauto.
Qed.

Lemma shrunk_fmap f l : (∀ nc, shrinks nc (f nc)) → shrunk l (f <$> l).
Proof.
  intros Hf. exists id. split; [done|]. intros j nc'. rewrite list_lookup_fmap.
  intros (nc & Hnc & ->)%fmap_Some. eauto.
Qed.

Lemma shrunk_remove i l : shrunk l (Remove i l).
Proof.
  destruct i as [i|]; [|exists id; split; [done|]; eauto using tame_shrinks, tame_refl]. simpl.
  exists (λ j, if decide (j < i)%nat then j else S j). split.
  - intros j1 j2 x y _ _. repeat case_decide; lia.
  - intros j nc' Hj. rewrite list_lookup_delete in Hj.
    exists nc'. split; [by case_decide|]. apply tame_shrinks, tame_refl.
Qed.

(** More live connections and entries of the log other than approvals do no harm. *)
Lemma inv_shrunk l l' lv lv' next tr :
  shrunk l l' → (∀ sc, is_Some (lv !! sc) → is_Some (lv' !! sc)) →
  inv l lv next tr → inv l' lv' next tr.
Proof.
  intros (pos & Hpos & Hl') Hlv [Ho Hs Hl Hr Hn Hid His Hp Ha Hone]. constructor; try done.
  - intros i j x y k Hi Hj Hx Hy. destruct (Hl' _ _ Hi) as (x0 & Hx0 & Sx).
    destruct (Hl' _ _ Hj) as (y0 & Hy0 & Sy). apply (Hpos i j x y Hi Hj).
    apply (Ho _ _ x0 y0 k Hx0 Hy0); [destruct Sx|destruct Sy]; unfold tame in *; intuition congruence.
  - intros i j x y k Hi Hj Hx Hy. destruct (Hl' _ _ Hi) as (x0 & Hx0 & Sx).
    destruct (Hl' _ _ Hj) as (y0 & Hy0 & Sy). apply (Hpos i j x y Hi Hj).
    apply (Hs _ _ x0 y0 k Hx0 Hy0); [destruct Sx|destruct Sy]; unfold tame in *; intuition congruence.
  - intros i x sc Hi Hx. destruct (Hl' _ _ Hi) as (x0 & Hx0 & Sx). apply Hlv.
    apply (Hl _ x0 sc Hx0). destruct Sx; unfold tame in *; intuition congruence.
  - intros i x Hi Hx. destruct (Hl' _ _ Hi) as (x0 & Hx0 & [(_ & Hc & -> & _)|(_ & Hc & _)]); [|done].
    apply (Hr _ x0 Hx0). congruence.
  - intros i x Hi Hx. destruct (Hl' _ _ Hi) as (x0 & Hx0 & [(_ & Hc & _ & [E|E])|(_ & _ & E)]);
      [|done..]. rewrite Hc, E in *. eauto.
Qed.

Lemma inv_trace l lv next tr tr' :
  issued tr' = issued tr → accepted tr' = accepted tr → inv l lv next tr → inv l lv next tr'.
Proof. intros Ei Ea [? ? ? ? ? ? ? ? ? ?]. constructor; rewrite ?Ei, ?Ea; auto. Qed.

(** ** The other changes of the container *)

Lemma inv_get_or_create s l lv next tr :
  inv l lv next tr → inv (GetOrCreate s l).2 lv next tr.
Proof.
  unfold GetOrCreate. destruct (FindWithSki s l) eqn:E; [done|]. simpl.
  intros [Ho Hs Hl Hr Hn Hid His Hp Ha Hone].
  assert (∀ i nc, (l ++ [NodeConnectionConstruct s]) !! i = Some nc →
    l !! i = Some nc ∨ nc = NodeConnectionConstruct s) as Hall.
  { intros i nc [Hi|[_ Hi]]%lookup_app_Some; [by left|].
    apply list_lookup_singleton_Some in Hi as [_ <-]. by right. }
  constructor; try done.
  - by apply distinct_snoc.
  - apply distinct_snoc; [|done]. intros k i y Hk Hi.
    by apply (FindWithSki_None s l (NodeConnectionConstruct s) k i).
  - intros i nc sc [Hi| ->]%Hall; [by eapply Hl|done].
  - intros i nc [Hi| ->]%Hall; [by eapply Hr|done].
  - intros i nc [Hi| ->]%Hall; [by eapply Hp|done].
Qed.

(** An update that leaves the connections and the approvals alone. *)
Lemma inv_alter_ski g i l lv next tr :
  (∀ nc, connection (g nc) = connection nc ∧ is_attempt_running (g nc) = is_attempt_running nc ∧
     pending_approval_id (g nc) = pending_approval_id nc) →
  distinct ski_key (alter g i l) → inv l lv next tr → inv (alter g i l) lv next tr.
Proof.
  intros Hg Hs' [Ho Hs Hl Hr Hn Hid His Hp Ha Hone].
  assert (∀ j nc', alter g i l !! j = Some nc' →
    ∃ nc, l !! j = Some nc ∧ connection nc' = connection nc ∧
      is_attempt_running nc' = is_attempt_running nc ∧
      pending_approval_id nc' = pending_approval_id nc) as Hold.
  { intros j nc'. rewrite list_lookup_alter. case_decide; [|eauto].
    subst. intros (nc & ? & ->)%fmap_Some. exists nc. split; [done|]. apply Hg. }
  constructor; try done.
  - apply distinct_alter_same; [|done]. intros x k. by destruct (Hg x) as (-> & _).
  - intros j nc' sc (nc & ? & -> & _)%Hold. eauto.
  - intros j nc' (nc & ? & -> & -> & _)%Hold. eauto.
  - intros j nc' (nc & ? & -> & _ & ->)%Hold. eauto.
Qed.

(** Giving a peer a SKI that is not another peer's. *)
Lemma inv_set_ski s g i l lv next tr :
  (∀ nc, g nc = nc ∨ g nc = set_ski s nc) →
  FindWithSki s l = None ∨ FindWithSki s l = Some i →
  inv l lv next tr → inv (alter g i l) lv next tr.
Proof.
  intros Hg Hfind Hinv. pose proof (inv_skis _ _ _ _ Hinv) as Hs.
  apply inv_alter_ski; [intros nc; by destruct (Hg nc) as [->| ->]| |done].
  apply distinct_alter; [|done]. intros x k Hx Hk j y Hy Hyk.
  destruct (Hg x) as [E|E]; rewrite E in Hk; [by eapply Hs|].
  destruct Hfind as [Hf|Hf].
  - destruct (FindWithSki_None s l (set_ski s x) k j y Hf); done.
  - apply FindWithSki_Some in Hf as (nc & Hnc & Heq & Hne).
    eapply Hs; [exact Hy|exact Hnc|exact Hyk|]. unfold ski_key in *. simpl in Hk.
    rewrite (StringEqualsIgnoreCase_empty _ _ Heq), Hne. rewrite Hne in Hk.
    destruct (ski nc), s; simpl in *; try done. by apply bool_decide_eq_true in Heq as ->.
Qed.

(** A peer gets a new connection and an attempt. *)
Lemma inv_connect g sc k i l lv next tr :
  (∀ nc, ski_key (g nc) = ski_key nc ∧ connection (g nc) = Some sc ∧
     is_attempt_running (g nc) = true ∧ pending_approval_id (g nc) = 0) →
  lv !! sc = None → inv l lv next tr → inv (alter g i l) (<[sc := k]> lv) next tr.
Proof.
  intros Hg Hsc [Ho Hs Hl Hr Hn Hid His Hp Ha Hone]. constructor; try done.
  - apply distinct_alter; [|done]. intros x k' Hx Hk j y Hy Hyk.
    destruct (Hg x) as (_ & Hc & _). rewrite Hc in Hk. simplify_eq.
    destruct (Hl _ _ _ Hy Hyk) as [? ?]. congruence.
  - apply distinct_alter_same; [|done]. intros x k'. by destruct (Hg x) as (-> & _).
  - intros j nc sc'. rewrite list_lookup_alter. case_decide as E.
    + subst. intros (x & Hx & ->)%fmap_Some Hc. destruct (Hg x) as (_ & Hc' & _).
      rewrite Hc' in Hc. simplify_eq. rewrite lookup_insert_eq. eauto.
    + intros Hj Hc. apply lookup_insert_is_Some'. right. eauto.
  - intros j nc. rewrite list_lookup_alter. case_decide as E; [|eauto].
    subst. intros (x & Hx & ->)%fmap_Some _. apply Hg.
  - intros j nc. rewrite list_lookup_alter. case_decide as E; [|eauto].
    subst. intros (x & Hx & ->)%fmap_Some Hne. by destruct (Hg x) as (_ & _ & _ & ?).
Qed.

(** An approval is issued. *)
Lemma inv_issue nc sc i l lv next tr :
  l !! i = Some nc → connection nc = Some sc → next ≠ UINT64_MAX →
  inv l lv next tr →
  inv (alter (set_pending_approval_id (u64 (next + 1))) i l) lv (u64 (next + 1))
    (OApprovalIssued sc (u64 (next + 1)) :: tr).
Proof.
  intros Hi Hc Hmax [Ho Hs Hl Hr Hn Hid His Hp Ha Hone]. unfold UINT64_MAX in *.
  rewrite u64_small by lia.
  assert (next + 1 ∉ (issued tr).*2) as Hfresh.
  { intros ([sc' id'] & E & Hin)%list_elem_of_fmap. simpl in E. subst. apply Hid in Hin. lia. }
  constructor; try done.
  - apply distinct_alter_same; [|done]. done.
  - apply distinct_alter_same; [|done]. done.
  - intros j x sc'. rewrite list_lookup_alter. case_decide; [|eauto].
    subst. intros (y & Hy & ->)%fmap_Some. simpl. eauto.
  - intros j x. rewrite list_lookup_alter. case_decide; [|eauto].
    subst. intros (y & Hy & ->)%fmap_Some. simpl. eauto.
  - unfold UINT64_MAX. lia.
  - intros sc' id. simpl. rewrite elem_of_cons. intros [E|Hin]; [simplify_eq; lia|].
    apply Hid in Hin. lia.
  - simpl. by apply NoDup_cons.
  - intros j x. rewrite list_lookup_alter. case_decide as E.
    + subst j. rewrite Hi. simpl. intros E _. simplify_eq/=. exists sc. split; [done|].
      split; [apply list_elem_of_here|]. intros ([sc' id'] & E & Hin)%list_elem_of_fmap.
      apply Hfresh. simpl in E. rewrite E. apply Ha, (list_elem_of_fmap_2 snd) in Hin. done.
    + intros Hj Hne. destruct (Hp j x Hj Hne) as (sc' & ? & ? & ?). exists sc'.
      split_and!; [done|by apply list_elem_of_further|done].
  - intros p Hp'. apply list_elem_of_further, Ha, Hp'.
Qed.

(** An approval is accepted for the connection it was issued for. *)
Lemma inv_accept g nc sc i l lv next tr :
  (∀ nc, ski_key (g nc) = ski_key nc ∧ connection (g nc) = connection nc ∧
     is_attempt_running (g nc) = is_attempt_running nc ∧ pending_approval_id (g nc) = 0) →
  l !! i = Some nc → connection nc = Some sc → pending_approval_id nc ≠ 0 →
  inv l lv next tr →
  inv (alter g i l) lv next (OTrustAccepted sc (pending_approval_id nc) :: tr).
Proof.
  intros Hg Hi Hc Hne Hinv.
  assert (inv (alter g i l) lv next tr) as [Ho Hs Hl Hr Hn Hid His Hp Ha Hone].
  { eapply inv_shrunk; [apply shrunk_alter|done|exact Hinv]. intros x. left.
    destruct (Hg x) as (? & ? & ? & ?). split_and!; [done..|by right]. }
  destruct (inv_pending _ _ _ _ Hinv i nc Hi Hne) as (sc' & Hc' & Hiss & Hacc).
  rewrite Hc in Hc'. simplify_eq. constructor; try done; simpl.
  - intros j x Hj Hx. destruct (Hp j x Hj Hx) as (sc & Hcx & Hin & Hnot). exists sc.
    split_and!; [done..|]. apply not_elem_of_cons. split; [|done]. intros E. rewrite E in Hin.
    assert ((sc', pending_approval_id nc) = (sc, pending_approval_id nc)) as [= <-].
    { apply list_elem_of_lookup in Hiss as [a Ha1], Hin as [b Hb].
      assert (a = b) as <-; [|congruence].
      eapply NoDup_lookup; [exact His| |]; rewrite list_lookup_fmap; [by rewrite Ha1|by rewrite Hb]. }
    rewrite list_lookup_alter in Hj. case_decide as Eij.
    + subst. apply fmap_Some in Hj as (y & _ & ->). by destruct (Hg y) as (_ & _ & _ & ?).
    + by apply Eij, (inv_owners _ _ _ _ Hinv i j nc x sc').
  - intros p [->|Hin]%elem_of_cons; auto.
  - by apply NoDup_cons.
Qed.

(** ** The other threads keep the invariant *)

Abbreviation keeps_env := (keeps Inv env_rel).

Lemma keeps_same (g : Node → Node) :
  (∀ s, conns (g s) = conns s ∧ live (g s) = live s ∧
     next_approval_id (sn (g s)) = next_approval_id (sn s) ∧
     issued (trace (g s)) = issued (trace s) ∧ accepted (trace (g s)) = accepted (trace s)) →
  keeps_env (modify g).
Proof.
  intros Hg. apply keeps_modify. intros s Hs. destruct (Hg s) as (Ec & El & En & Ei & Ea). split.
  - unfold Inv. rewrite Ec, El, En. by eapply inv_trace.
  - constructor; unfold owns; rewrite ?Ec, ?El; done.
Qed.

Lemma keeps_upd_conns (f : list NodeConnection → list NodeConnection) :
  (∀ l lv next tr, inv l lv next tr → inv (f l) lv next tr) →
  (∀ l, (length l ≤ length (f l))%nat ∧
     ∀ i sc, (∃ nc, l !! i = Some nc ∧ connection nc = Some sc) ↔
             (∃ nc, f l !! i = Some nc ∧ connection nc = Some sc)) →
  keeps_env (upd_conns f).
Proof.
  intros Hf Hown. apply keeps_modify. intros s Hs. split; [by apply Hf|].
  destruct (Hown (conns s)) as [Hlen Hiff].
  constructor; [done|..|exact Hlen]; intros i sc; [apply Hiff|intros Ho _; by apply Hiff].
Qed.

Lemma keeps_upd_nc i f : (∀ nc, tame nc (f nc)) → keeps_env (upd_nc i f).
Proof.
  intros Hf. apply keeps_upd_conns.
  - intros l lv next tr. apply inv_shrunk; [|done]. apply shrunk_alter. intros nc. by left.
  - intros l. split; [by rewrite length_alter|]. intros j sc. rewrite list_lookup_alter.
    case_decide; [subst|done]. split.
    + intros (nc & -> & Hc). exists (f nc). split; [done|]. by destruct (Hf nc) as (_ & -> & _).
    + intros (nc' & (nc & -> & ->)%fmap_Some & Hc). exists nc. split; [done|].
      by destruct (Hf nc) as (_ & <- & _).
Qed.

Lemma keeps_fmap f : (∀ nc, tame nc (f nc)) → keeps_env (upd_conns (fmap f)).
Proof.
  intros Hf. apply keeps_upd_conns.
  - intros l lv next tr. apply inv_shrunk; [|done]. apply shrunk_fmap. intros nc. by left.
  - intros l. split; [by rewrite length_fmap|]. intros j sc. rewrite list_lookup_fmap. split.
    + intros (nc & -> & Hc). exists (f nc). split; [done|]. by destruct (Hf nc) as (_ & -> & _).
    + intros (nc' & (nc & -> & ->)%fmap_Some & Hc). exists nc. split; [done|].
      by destruct (Hf nc) as (_ & <- & _).
Qed.

Lemma GetOrCreate_snoc s l :
  GetOrCreate s l = (length l, l ++ [NodeConnectionConstruct s]) ∧ FindWithSki s l = None ∨
  ∃ i, GetOrCreate s l = (i, l) ∧ FindWithSki s l = Some i.
Proof. unfold GetOrCreate. case_match; eauto. Qed.

Lemma keeps_get_or_create s : keeps_env (get_or_create s).
Proof.
  apply keeps_bind; [apply _|apply keeps_gets; apply _|]. intros i.
  apply keeps_bind; [apply _| |intros _; apply keeps_ret; apply _].
  apply keeps_upd_conns; [intros *; apply inv_get_or_create|]. intros l.
  destruct (GetOrCreate_snoc s l) as [[-> _]|(j & -> & _)]; simpl; [|done].
  split; [rewrite length_app; lia|]. intros j sc. split.
  - intros (nc & Hj & Hc). exists nc. split; [|done]. by apply lookup_app_l_Some.
  - intros (nc & [Hj|[_ Hj]]%lookup_app_Some & Hc); [eauto|].
    by apply list_lookup_singleton_Some in Hj as [_ <-].
Qed.

(** An owned connection can be used. *)
Lemma wp_deref sc (Q : option string → Node → Prop) s :
  is_Some (live s !! sc) → (∀ k, Q k s) → wp (deref sc) Q s.
Proof. intros [k Hk] HQ. unfold wp, deref. by rewrite Hk. Qed.

Lemma Inv_owned s i sc : Inv s → owns s i sc → is_Some (live s !! sc).
Proof. intros Hs (nc & Hi & Hc). by eapply (inv_live _ _ _ _ Hs). Qed.

(** Closes goals of the form [tame nc (f nc)]. *)
Ltac solve_tame :=
  intros; unfold OnHandshakeComplete; repeat case_match; repeat split; by (left + right).

#[export] Hint Resolve keeps_get_or_create : eebus.
#[export] Hint Extern 2 (keeps Inv env_rel (upd_nc _ _)) => apply keeps_upd_nc; solve_tame : eebus.
#[export] Hint Extern 2 (keeps Inv env_rel (upd_conns (fmap _))) => apply keeps_fmap; solve_tame : eebus.
#[export] Hint Extern 3 (keeps Inv env_rel (modify _)) => apply keeps_same; done : eebus.
#[export] Hint Extern 2 (keeps Inv env_rel (upd _)) => apply keeps_same; done : eebus.
#[export] Hint Extern 2 (keeps Inv env_rel (emit _)) => apply keeps_same; done : eebus.
#[export] Hint Extern 2 (keeps Inv env_rel (EEBUS_QUEUE_SEND _)) => apply keeps_same; done : eebus.
#[export] Hint Extern 2 (keeps Inv env_rel next_call) => apply (keeps_same (λ s, set_calls (S (calls s)) s)); done : eebus.
#[export] Hint Extern 2 (keeps Inv env_rel (rd _)) => apply keeps_gets; apply _ : eebus.

Section threads.
Context `{NodeEnv}.

Lemma keeps_find_owner sc : keeps_env (find_owner sc).
Proof. apply keeps_gets; apply _. Qed.
Lemma keeps_find_ski s : keeps_env (find_ski s).
Proof. apply keeps_gets; apply _. Qed.
#[local] Hint Resolve keeps_find_owner keeps_find_ski : eebus.

Lemma keeps_DiscardPendingTrust sc id : keeps_env (ShipNodeDiscardPendingTrust sc id).
Proof. unfold ShipNodeDiscardPendingTrust. solve_keeps. Qed.
Lemma keeps_HandleConnectionClosed sc e : keeps_env (HandleConnectionClosed sc e).
Proof. unfold HandleConnectionClosed, ShipNodePostConnectionClose. solve_keeps. Qed.
Lemma keeps_HandleShipStateUpdate k st : keeps_env (HandleShipStateUpdate k st).
Proof. unfold HandleShipStateUpdate. solve_keeps. Qed.
Lemma keeps_RegisterPeerTrust id fp src : keeps_env (ShipNodeRegisterPeerTrust id fp src).
Proof.
  unfold ShipNodeRegisterPeerTrust, ShipNodeSchedulePeerConnection, ShipNodePostConnectionClose.
  solve_keeps.
Qed.
Lemma keeps_RegisterRemoteFingerprint fp : keeps_env (RegisterRemoteFingerprint fp).
Proof. unfold RegisterRemoteFingerprint. solve_keeps. Qed.
Lemma keeps_clear_pending s : keeps_env (clear_pending_approval s).
Proof. unfold clear_pending_approval. solve_keeps. Qed.
Lemma keeps_RetryTimerCallback i : keeps_env (ShipNodeRetryTimerCallback i).
Proof. unfold ShipNodeRetryTimerCallback. solve_keeps. Qed.
Lemma keeps_MdnsEntriesFound es : keeps_env (ShipNodeOnMdnsEntriesFoundCallback es).
Proof. unfold ShipNodeOnMdnsEntriesFoundCallback. solve_keeps. Qed.
#[local] Hint Resolve keeps_clear_pending keeps_DiscardPendingTrust : eebus.

Lemma keeps_GetPendingWaitingMs s : keeps_env (GetPendingWaitingMsWithSki s).
Proof.
  intros st Hst. unfold GetPendingWaitingMsWithSki, find_ski, rd. apply wp_bind, wp_gets.
  destruct (FindWithSki s _) as [i|]; [|by apply wp_ret]. simpl.
  destruct (connections (sn st) !! i) as [nc|] eqn:Hi; [|by apply wp_ret]. simpl.
  destruct (connection nc) as [sc|] eqn:Hc; [|by apply wp_ret].
  apply wp_bind, wp_deref; [|by intros; apply wp_ret].
  eapply Inv_owned; [done|]. exists nc. eauto.
Qed.

Lemma keeps_Sent k : keeps_env (Sent k).
Proof.
  intros s Hs. unfold Sent, wp. destruct (posting s !! k); [|by split].
  case_bool_decide; [|by split]. split; [exact Hs|]. by constructor.
Qed.
Lemma keeps_SendFailed k : keeps_env (SendFailed k).
Proof. unfold SendFailed. solve_keeps. Qed.

(** [P] and the relation carry over when only one peer is replaced. *)
Lemma env_rel_alter s s' i f :
  conns s' = alter f i (conns s) → (∀ nc, connection (f nc) = connection nc) →
  live s' = live s → env_rel s s'.
Proof.
  intros Ec Hf El. constructor; rewrite ?El, ?Ec, ?length_alter; try done;
    intros j sc; unfold owns; rewrite Ec, list_lookup_alter; case_decide; try done; subst.
  - intros (nc & -> & Hc). exists (f nc). by rewrite Hf.
  - intros (nc' & (nc & -> & ->)%fmap_Some & Hc) _. exists nc. by rewrite Hf in Hc.
Qed.

Lemma keeps_AcceptPendingTrust sc id : keeps_env (ShipNodeAcceptPendingTrust sc id).
Proof.
  intros s Hs. unfold ShipNodeAcceptPendingTrust, find_owner, rd.
  apply wp_bind, wp_gets, wp_bind, wp_gets.
  destruct (FindWithShipConnection _ _) as [i|] eqn:Hf; [|by apply wp_ret]. simpl.
  apply FindWithShipConnection_Some in Hf as (nc & p & [= <-] & Hi & Hc). rewrite Hi. simpl.
  case_match; [by apply wp_ret|]. case_bool_decide as Hid; [by apply wp_ret|].
  case_match eqn:Hpend; [|by apply wp_ret]. simpl in Hpend.
  apply andb_true_iff in Hpend as [_ Hpend%bool_decide_eq_true]. subst id.
  unfold upd_nc, upd_conns, upd, emit.
  apply wp_bind, wp_modify, wp_bind, wp_modify, wp_ret. split.
  - by eapply inv_accept.
  - by eapply env_rel_alter.
Qed.

Lemma keeps_ApprovePending s : keeps_env (ApprovePendingHandshakeWithSki s).
Proof.
  intros st Hs. unfold ApprovePendingHandshakeWithSki, find_ski, rd.
  case_match; [by apply wp_ret|]. apply wp_bind, wp_gets, wp_bind, wp_gets.
  destruct (FindWithSki s _) as [i|]; [|by apply wp_ret]. simpl.
  destruct (connections (sn st) !! i) as [nc|] eqn:Hi; [|by apply wp_ret]. simpl.
  destruct (connection nc) as [sc|] eqn:Hc; [|by apply wp_ret].
  case_match eqn:Hcond; [|by apply wp_ret].
  apply andb_true_iff in Hcond as [_ Hmax%bool_decide_eq_true].
  unfold upd_nc, upd_conns, upd, emit, EEBUS_QUEUE_SEND.
  do 3 apply wp_bind, wp_modify. apply wp_modify. split.
  - by eapply inv_issue.
  - by eapply env_rel_alter.
Qed.

(** A peer that is about to get a connection, as the peer of the SKI [k]. *)
Definition ready (k : option string) (i : nat) (s : Node) : Prop :=
  Inv s ∧ (FindWithSki k (conns s) = None ∨ FindWithSki k (conns s) = Some i) ∧
  ∃ nc, conns s !! i = Some nc ∧ is_attempt_running nc = false.

Lemma wp_upd_nc_ready k i f s (Q : unit → Node → Prop) :
  (∀ nc, tame nc (f nc) ∧ ski (f nc) = ski nc) → ready k i s →
  (∀ s', ready k i s' → env_rel s s' → Q tt s') → wp (upd_nc i f) Q s.
Proof.
  intros Hf (Hs & Hk & nc & Hi & Hr) HQ.
  pose proof (keeps_upd_nc i f (λ nc, proj1 (Hf nc)) s Hs) as [Hs' Hrel]. apply HQ; [|exact Hrel].
  split; [exact Hs'|]. split.
  - change (conns _) with (alter f i (conns s)). by rewrite FindWithSki_alter by apply Hf.
  - exists (f nc). change (conns _) with (alter f i (conns s)). rewrite list_lookup_alter_eq, Hi.
    split; [done|]. destruct (Hf nc) as [(_ & _ & -> & _) _]. done.
Qed.

Lemma idle_no_connection s i nc :
  Inv s → conns s !! i = Some nc → is_attempt_running nc = false → connection nc = None.
Proof.
  intros Hs Hi Hr. destruct (connection nc) eqn:Hc; [|done].
  rewrite (inv_running _ _ _ _ Hs i nc Hi) in Hr by congruence. done.
Qed.

Lemma env_rel_alter_idle s s' i f :
  conns s' = alter f i (conns s) →
  (∀ nc, conns s !! i = Some nc → connection nc = None ∧
     ∀ sc, connection (f nc) = Some sc → live s !! sc = None) →
  (∀ sc k, live s !! sc = Some k → live s' !! sc = Some k) → env_rel s s'.
Proof.
  intros Ec Hidle Hlive. constructor; [done|..|by rewrite Ec, length_alter];
    intros j sc; unfold owns; rewrite Ec, list_lookup_alter; case_decide; try done; subst.
  - intros (nc & Hj & Hc). destruct (Hidle _ Hj) as [Hn _]. congruence.
  - intros (nc' & (nc & Hj & ->)%fmap_Some & Hc) [k Hk]. destruct (Hidle _ Hj) as [_ Hn].
    rewrite (Hn _ Hc) in Hk. done.
Qed.

Lemma wp_ServerConnectPeer k i s :
  ready k i s → wp (ServerConnectPeer i) (λ _ s', Inv s' ∧ env_rel s s') s.
Proof.
  intros (Hs & _ & nc & Hi & Hr). pose proof (idle_no_connection _ _ _ Hs Hi Hr) as Hc.
  unfold ServerConnectPeer, ShipConnectionCreate, upd_nc, upd_conns, upd, next_call, get_nc, wp.
  unfold_prog. unfold conns in Hi. cbn. rewrite Hi. cbn.
  destruct (env_create _ _) as [sc|] eqn:Hcreate; cbn; split.
  - apply inv_connect; [done| |done]. apply env_create_fresh in Hcreate. by apply not_elem_of_dom.
  - apply env_create_fresh, not_elem_of_dom in Hcreate.
    eapply env_rel_alter_idle; [done|..].
    + intros nc' Hi'. unfold conns in Hi'. simplify_eq. split; [done|]. intros sc' [= <-]. done.
    + intros sc' k' Hk. cbn. rewrite lookup_insert_ne; [done|]. intros ->. congruence.
  - eapply inv_shrunk; [apply shrunk_alter|done|exact Hs]. intros nc'. by right.
  - eapply env_rel_alter_idle; [done|..|done].
    intros nc' Hi'. unfold conns in Hi'. by simplify_eq.
Qed.

Lemma wp_AdmitPeer k fp b i s :
  ready k i s → wp (ShipNodeAdmitPeer k fp b i) (λ _ s', Inv s' ∧ env_rel s s') s.
Proof.
  intros Hr. unfold ShipNodeAdmitPeer. apply wp_bind, wp_gets, wp_bind.
  assert (∀ s', ready k i s' → env_rel s s' →
    wp (upd_nc i (λ nc, if SkiMatches (ski nc) k then nc else set_ski k nc) ≫= λ _,
        upd_nc i (set_peer_fingerprint fp) ≫= λ _, ServerConnectPeer i)
      (λ _ s', Inv s' ∧ env_rel s s') s') as Hgo.
  { clear Hr. intros s1 (Hs1 & Hk1 & nc & Hi & Hr) Hrel1. apply wp_bind.
    unfold upd_nc at 1, upd_conns, upd. apply wp_modify.
    set (g := λ nc, if SkiMatches (ski nc) k then nc else set_ski k nc).
    match goal with |- wp _ _ ?st => set (s2 := st) end.
    assert (Inv s2) as Hs2.
    { eapply (inv_set_ski k g); [|exact Hk1|exact Hs1]. intros x. unfold g. case_match; auto. }
    assert (env_rel s1 s2) as Hrel2.
    { eapply env_rel_alter; [done| |done]. intros x. unfold g. by case_match. }
    assert (conns s2 !! i = Some (g nc)) as Hi2.
    { change (conns s2) with (alter g i (conns s1)). by rewrite list_lookup_alter_eq, Hi. }
    assert (is_attempt_running (g nc) = false) as Hr2 by (unfold g; by case_match).
    assert (ready None i s2) as Hready2 by (split_and!; [done|by left|eauto]).
    apply wp_bind. eapply wp_upd_nc_ready; [|exact Hready2|]; [split; [solve_tame|done]|].
    intros s3 Hready3 Hrel3. eapply wp_mono; [|eapply wp_ServerConnectPeer, Hready3].
    intros _ s' [Hs' Hrel']. split; [done|]. by do 3 (etransitivity; [eassumption|]). }
  destruct b; [|by apply wp_ret, Hgo].
  eapply wp_upd_nc_ready; [|exact Hr|exact Hgo]. split; [solve_tame|done].
Qed.

(** The peer an incoming connection belongs to. *)
Definition known_peer (k fp : option string) (l : list NodeConnection) : option nat :=
  match FindWithSki k l with None => FindWithFingerprint fp l | nc => nc end.

Lemma known_peer_Some k fp l i : known_peer k fp l = Some i →
  (FindWithSki k l = None ∨ FindWithSki k l = Some i) ∧ is_Some (l !! i).
Proof.
  unfold known_peer. destruct (FindWithSki k l) as [j|] eqn:E.
  - intros [= ->]. apply FindWithSki_Some in E as (nc & -> & _). eauto.
  - intros (nc & -> & _)%FindWithFingerprint_Some. eauto.
Qed.

Lemma known_peer_None k fp l : known_peer k fp l = None → FindWithSki k l = None.
Proof. unfold known_peer. by destruct (FindWithSki k l). Qed.

(** Setting the trust of a peer that is ready, and admitting it. *)
Lemma wp_trust_and_admit k fp b i s m (f : NodeConnection → NodeConnection) :
  (∀ nc, tame nc (f nc) ∧ ski (f nc) = ski nc) → ready k i m → env_rel s m →
  wp (upd_nc i f ≫= λ _, ShipNodeAdmitPeer k fp b i) (λ _ s', Inv s' ∧ env_rel s s') m.
Proof.
  intros Hf Hready Hrel. apply wp_bind. eapply wp_upd_nc_ready; [exact Hf|exact Hready|].
  intros m' Hready' Hrel'. eapply wp_mono; [|by apply wp_AdmitPeer].
  intros _ s' [Hs' Hrel'']. split; [done|]. by do 2 (etransitivity; [eassumption|]).
Qed.

(** The container after [get_or_create] of a SKI nobody has. *)
Lemma get_or_create_new k s : Inv s → FindWithSki k (conns s) = None →
  ∃ s', get_or_create k s = Ret (length (conns s)) s' ∧ ready k (length (conns s)) s' ∧
    env_rel s s'.
Proof.
  intros Hs Hk. pose proof (keeps_get_or_create k s Hs) as Hkeep.
  set (s' := set_sn (set_connections (GetOrCreate k (conns s)).2 (sn s)) s).
  assert (get_or_create k s = Ret (GetOrCreate k (conns s)).1 s') as E by done.
  unfold wp in Hkeep. rewrite E in Hkeep. destruct Hkeep as [Hs' Hrel].
  assert (conns s' = (GetOrCreate k (conns s)).2) as Hc by done. clearbody s'.
  destruct (GetOrCreate_snoc k (conns s)) as [[Eg _]|(i & _ & Ei)]; [|congruence].
  rewrite Eg in E, Hc. exists s'. split; [exact E|]. split; [|exact Hrel].
  split; [exact Hs'|]. rewrite Hc. simpl. split.
  - rewrite FindWithSki_snoc by done. case_match; auto.
  - exists (NodeConnectionConstruct k). split; [by apply list_lookup_middle|done].
Qed.

Lemma keeps_ServerConnection k fp :
  keeps_env (ShipNodeOnWebsocketServerConnectionCallback k fp).
Proof.
  intros s Hs. unfold ShipNodeOnWebsocketServerConnectionCallback.
  apply wp_bind, wp_gets. case_match; [by apply wp_ret|]. cbv zeta.
  fold (known_peer k fp (connections (sn s))).
  destruct (known_peer k fp (connections (sn s))) as [i|] eqn:Hfound; simpl.
  - apply known_peer_Some in Hfound as (Hk & nc & Hi). rewrite Hi. simpl.
    case_match; [by apply wp_ret|]. apply wp_bind. unfold next_call, wp at 1. simpl.
    destruct (is_attempt_running nc) eqn:Hr; [by apply wp_ret|].
    assert (ready k i (set_calls (S (calls s)) s)) as Hready by (split_and!; eauto).
    case_match; [by apply wp_trust_and_admit; [split; [solve_tame|done]|done|by constructor]|].
    apply wp_bind, wp_ret. eapply wp_mono; [|by apply wp_AdmitPeer].
    intros _ s' [? ?]. split; [done|]. etransitivity; [|eassumption]. by constructor.
  - apply known_peer_None in Hfound. apply wp_bind. unfold next_call, wp at 1. simpl.
    case_match; [by apply wp_ret|].
    destruct (get_or_create_new k (set_calls (S (calls s)) s)) as (s' & E & Hready & Hrel); [done..|].
    apply wp_bind. unfold wp at 1. rewrite E.
    apply wp_trust_and_admit; [split; [solve_tame|done]|done|].
    etransitivity; [|exact Hrel]. by constructor.
Qed.

#[local] Hint Resolve keeps_MdnsEntriesFound keeps_HandleConnectionClosed
  keeps_HandleShipStateUpdate keeps_ApprovePending keeps_GetPendingWaitingMs
  keeps_RegisterRemoteFingerprint keeps_RetryTimerCallback keeps_Sent keeps_SendFailed
  keeps_ServerConnection keeps_AcceptPendingTrust keeps_RegisterPeerTrust : eebus.

Lemma keeps_env_step e : keeps_env (env_step e).
Proof.
  destruct e; simpl;
    unfold ReportServiceShipId, RegisterRemoteSki, UnregisterRemoteSki, CancelPairingWithSki,
      StopRequest; solve_keeps.
Qed.

Lemma keeps_env_until_yield evs : keeps_env (env_until_yield evs).
Proof.
  induction evs as [|e evs IH]; [simpl; solve_keeps|].
  pose proof (keeps_env_step e). destruct e; simpl in *; solve_keeps.
Qed.

Lemma keeps_env_until_message evs : keeps_env (env_until_message evs).
Proof.
  induction evs as [|e evs IH]; simpl; [solve_keeps|]. pose proof (keeps_env_step e). solve_keeps.
Qed.

Lemma keeps_sync : keeps_env sync.
Proof.
  apply keeps_bind; [apply _|apply keeps_gets; apply _|]. intros. apply keeps_env_until_yield.
Qed.

Lemma keeps_RECEIVE : keeps_env EEBUS_QUEUE_RECEIVE.
Proof.
  apply keeps_bind; [apply _|apply keeps_sync|]. intros _.
  apply keeps_bind; [apply _|apply keeps_gets; apply _|]. intros evs.
  apply keeps_bind; [apply _|apply keeps_env_until_message|]. intros _ s Hs.
  unfold queue_take, wp. destruct (msg_queue (sn s)); [done|]. split; [exact Hs|by constructor].
Qed.
End threads.
