(* ===== verification/ShipNodeSafe.v ===== *)
(** * The loop of the SHIP node keeps the invariant

    Every function of the node's thread, with the other threads running in
    between: no deleted connection is used or deleted again, and the loops
    have enough fuel. *)

From stdpp Require Import gmap.
From S2P Require Import Prelude StringUtil ShipTypes NodeConnection ShipNode ShipNodeInv.

(** ** How many peers an event adds

    Each event of the other threads adds at most one peer to the node, so the
    loops of its thread over the peers end ([load]). *)

Local Open Scope Z_scope.

Definition adds {A} (n : nat) (m : Prog Node A) : Prop := ∀ s,
  match m s with
  | Ret _ s' => (length (conns s') ≤ n + length (conns s))%nat ∧ sched s' = sched s
  | _ => True
  end.

Lemma adds_ret {A} n (a : A) : adds n (mret a).
Proof. intros s. simpl. split; [lia|done]. Qed.
Lemma adds_gets {A} n (f : Node → A) : adds n (gets f).
Proof. intros s. simpl. split; [lia|done]. Qed.

Lemma adds_bind {A B} n1 n2 (m : Prog Node A) (k : A → Prog Node B) :
  adds n1 m → (∀ a, adds n2 (k a)) → adds (n1 + n2) (m ≫= k).
Proof.
  intros Hm Hk s. unfold mbind, Prog_bind. specialize (Hm s).
  destruct (m s) as [a s'| |]; [|done..]. specialize (Hk a s').
  destruct (k a s') as [b s''| |]; [|done..]. destruct Hm, Hk. split; [lia|congruence].
Qed.
Lemma adds_bind_l {A B} n (m : Prog Node A) (k : A → Prog Node B) :
  adds 0 m → (∀ a, adds n (k a)) → adds n (m ≫= k).
Proof. apply (adds_bind 0 n). Qed.
Lemma adds_bind_r {A B} n (m : Prog Node A) (k : A → Prog Node B) :
  adds n m → (∀ a, adds 0 (k a)) → adds n (m ≫= k).
Proof. rewrite <- (Nat.add_0_r n) at 2. apply (adds_bind n 0). Qed.

Lemma adds_modify n g :
  (∀ s, (length (conns (g s)) ≤ n + length (conns s))%nat ∧ sched (g s) = sched s) →
  adds n (modify g).
Proof. intros Hg s. apply Hg. Qed.

Lemma adds_same n g :
  (∀ s, conns (g s) = conns s ∧ sched (g s) = sched s) → adds n (modify g).
Proof. intros Hg. apply adds_modify. intros s. destruct (Hg s) as [-> ->]. split; [lia|done]. Qed.

Lemma adds_upd_conns n (f : list NodeConnection → list NodeConnection) :
  (∀ l, length (f l) ≤ n + length l)%nat → adds n (upd_conns f).
Proof. intros Hf. apply adds_modify. intros s. split; [apply Hf|done]. Qed.

Lemma adds_branch {A} n c (t e : Prog Node A) : adds n t → adds n e → adds n (branch c t e).
Proof. intros Ht He s. unfold branch. destruct (c s); [apply Ht|apply He]. Qed.

Lemma adds_if {A} n (b : bool) (t e : Prog Node A) : adds n t → adds n e → adds n (if b then t else e).
Proof. by destruct b. Qed.

Lemma adds_get_or_create k : adds 1 (get_or_create k).
Proof.
  intros s. set (l' := (GetOrCreate k (conns s)).2).
  change (get_or_create k s)
    with (Ret (GetOrCreate k (conns s)).1 (set_sn (set_connections l' (sn s)) s)).
  split; [|done]. change (conns _) with l' at 1. subst l'.
  destruct (GetOrCreate_snoc k (conns s)) as [[-> _]|(i & -> & _)]; cbn [snd]; [|lia].
  rewrite length_app. simpl. lia.
Qed.

Lemma adds_deref n sc : adds n (deref sc).
Proof. intros s. unfold deref. destruct (live s !! sc); [split; [lia|done]|done]. Qed.
Lemma adds_get_nc n i : adds n (get_nc i).
Proof. intros s. unfold get_nc. destruct (connections (sn s) !! i); [split; [lia|done]|done]. Qed.
Lemma adds_Sent n k : adds n (Sent k).
Proof.
  intros s. unfold Sent. destruct (posting s !! k); [|split; [lia|done]].
  case_bool_decide; (split; [unfold conns; simpl; lia|done]).
Qed.
Lemma adds_upd_nc n i f : adds n (upd_nc i f).
Proof. apply adds_upd_conns. intros l. rewrite length_alter. lia. Qed.
Lemma adds_fmap n f : adds n (upd_conns (fmap f)).
Proof. apply adds_upd_conns. intros l. rewrite length_fmap. lia. Qed.

(** Closes goals of the form [adds n m]. *)
Ltac adds_prim :=
  first
    [ apply adds_ret | apply adds_gets | apply adds_upd_nc | apply adds_fmap | apply adds_deref
    | apply adds_get_nc | apply adds_Sent
    | (unfold upd, emit, EEBUS_QUEUE_SEND; apply adds_same; done)
    | (apply adds_same; done)
    | (unfold next_call; apply (adds_same _ (λ s, set_calls (S (calls s)) s)); done) ].
Ltac solve_adds :=
  first
    [ adds_prim
    | apply adds_get_or_create
    | apply adds_bind_l; [solve [solve_adds]|intros; solve_adds]
    | apply adds_bind_r; [solve_adds|intros; solve_adds]
    | apply adds_branch; solve_adds
    | case_match; solve_adds ].

Section load.
Context `{NodeEnv}.

Lemma adds_next_call n : adds n next_call.
Proof. intros s. simpl. split; [unfold conns; simpl; lia|done]. Qed.

Lemma adds_AdmitPeer k fp b i : adds 0 (ShipNodeAdmitPeer k fp b i).
Proof.
  unfold ShipNodeAdmitPeer, ServerConnectPeer, ShipConnectionCreate. solve_adds.
Qed.

Lemma adds_trust_and_admit f k fp b i :
  adds 0 (upd_nc i f ≫= λ _, ShipNodeAdmitPeer k fp b i).
Proof. apply adds_bind_l; [adds_prim|intros _; apply adds_AdmitPeer]. Qed.

Lemma adds_ServerConnection k fp : adds 1 (ShipNodeOnWebsocketServerConnectionCallback k fp).
Proof.
  unfold ShipNodeOnWebsocketServerConnectionCallback. apply adds_bind_l; [adds_prim|]. intros s.
  cbv zeta. destruct (cancel s); [adds_prim|].
  apply adds_if; [adds_prim|]. apply adds_bind_l; [apply adds_next_call|]. intros n.
  apply adds_if; [adds_prim|].
  destruct (match FindWithSki k (connections s) with Some _ => _ | None => _ end) as [i|]; simpl;
    [destruct (connections s !! i) as [nc|]; simpl|];
    [|apply adds_bind_r; [apply adds_get_or_create|]; intros j; apply adds_trust_and_admit..].
  destruct (is_attempt_running nc); [adds_prim|].
  apply (adds_bind 1 0); [case_match; adds_prim|intros _; apply adds_AdmitPeer].
Qed.

Lemma adds_SchedulePeerConnection sc : adds 0 (ShipNodeSchedulePeerConnection sc).
Proof. unfold ShipNodeSchedulePeerConnection, ShipNodePostConnectionClose. solve_adds. Qed.

Lemma adds_RegisterPeerTrust id fp src : adds 1 (ShipNodeRegisterPeerTrust id fp src).
Proof.
  unfold ShipNodeRegisterPeerTrust. apply adds_if; [adds_prim|].
  apply adds_bind_l; [adds_prim|]. intros s. cbv zeta.
  destruct (ShipNodeCheckPeerRegistration _ _ _) as [ret close]. apply adds_if; [adds_prim|].
  apply adds_bind_r; [case_match; solve_adds|]. intros i.
  apply adds_bind_l; [adds_prim|]. intros _.
  apply adds_bind_l; [apply adds_SchedulePeerConnection|]. intros _. adds_prim.
Qed.

Lemma adds_env_step e : adds 1 (env_step e).
Proof.
  destruct e; cbn [env_step];
    try (apply adds_bind_r; [apply adds_ServerConnection || apply adds_RegisterPeerTrust|
                             intros; adds_prim]);
    unfold ShipNodeOnMdnsEntriesFoundCallback,
    ShipNodeAcceptPendingTrust, HandleConnectionClosed, ReportServiceShipId,
    HandleShipStateUpdate, RegisterRemoteSki, UnregisterRemoteSki, CancelPairingWithSki,
    ApprovePendingHandshakeWithSki, GetPendingWaitingMsWithSki, RegisterRemoteFingerprint,
    ShipNodeRetryTimerCallback, SendFailed, StopRequest, ShipNodeDiscardPendingTrust,
    clear_pending_approval, ShipNodePostConnectionClose, find_owner, find_ski, rd; cbv zeta; solve_adds.
Qed.

(** The events and the peers together do not grow. *)
Definition load (s : Node) : nat := length (conns s) + length (sched s).

Lemma load_env_until_yield evs : ∀ s s',
  env_until_yield evs s = Ret tt s' → (load s' ≤ length (conns s) + length evs)%nat.
Proof.
  unfold load.
  induction evs as [|e evs IH]; intros s s' E; [injection E as <-; unfold conns; simpl; lia|].
  assert (match e with EvYield => True | _ => env_until_yield (e :: evs) s
    = match env_step e s with
      | Ret _ s1 => env_until_yield evs s1 | Block s1 => Block s1 | Crash why => Crash why
      end end) as Estep by by destruct e.
  pose proof (adds_env_step e s) as Hadd. cbn [length].
  destruct e; try (rewrite Estep in E; clear Estep; revert E Hadd;
    destruct (env_step _ s) as [[] s1| |]; [|done..]; intros E%IH [??]; lia).
  injection E as <-. unfold conns. simpl. lia.
Qed.

Lemma load_sync s s' : sync s = Ret tt s' → (load s' ≤ load s)%nat.
Proof. apply load_env_until_yield. Qed.
End load.

Local Open Scope Z_scope.

Section safe.
Context `{NodeEnv}.

(** ** Connections in the hands of the loop *)

(** Entries of the log that are not about approvals. *)
Lemma Inv_log s o :
  issued (o :: trace s) = issued (trace s) → accepted (o :: trace s) = accepted (trace s) →
  Inv s → Inv (set_trace (o :: trace s) s).
Proof. intros ??. by apply inv_trace. Qed.

(** [sc] is live and belongs to no peer. *)
Definition inhand (sc : sc_ptr) (s : Node) : Prop :=
  is_Some (live s !! sc) ∧ ∀ i, ¬ owns s i sc.

Lemma inhand_rel sc s s' : env_rel s s' → inhand sc s → inhand sc s'.
Proof.
  intros Hrel [[k Hk] Hno]. split; [exists k; by apply (rel_live _ _ Hrel)|].
  intros i Ho. apply (Hno i), (rel_fresh _ _ Hrel); eauto.
Qed.

Lemma wp_sync (Q : unit → Node → Prop) s :
  Inv s → (∀ s', Inv s' → env_rel s s' → (load s' ≤ load s)%nat → Q tt s') → wp sync Q s.
Proof.
  intros Hs HQ. pose proof (keeps_sync s Hs) as Hk. unfold wp in *. revert Hk.
  destruct (sync s) as [[] s'| |] eqn:E; [|done..]. intros [??]. apply HQ; [done..|by apply load_sync].
Qed.

Lemma wp_STOP sc (Q : unit → Node → Prop) s :
  Inv s → is_Some (live s !! sc) →
  (∀ s', Inv s' → env_rel s s' → (load s' ≤ load s)%nat → Q tt s') →
  wp (SHIP_CONNECTION_STOP sc) Q s.
Proof.
  intros Hs Hl HQ. unfold SHIP_CONNECTION_STOP. apply wp_bind, wp_deref; [done|]. intros _.
  apply wp_bind, wp_sync; [done|]. intros s' Hs' Hrel Hload. apply wp_modify, HQ; [by apply Inv_log| |].
  - destruct Hrel. by constructor.
  - exact Hload.
Qed.

(** Deleting a connection in hand. *)
Lemma wp_Delete sc (Q : unit → Node → Prop) s :
  Inv s → inhand sc s →
  (∀ s', Inv s' → conns s' = conns s → sched s' = sched s → Q tt s') →
  wp (ShipConnectionDelete sc) Q s.
Proof.
  intros Hs [Hl Hno] HQ. unfold ShipConnectionDelete. apply wp_bind, wp_deref; [done|]. intros _.
  apply wp_bind, wp_modify, wp_modify, HQ; [|done..]. apply Inv_log; [done..|].
  destruct Hs as [? ? Hlv ? ? ? ? ? ? ?]. constructor; try done.
  intros i nc sc' Hi Hc. simpl. rewrite lookup_delete_ne; [by eapply Hlv|].
  intros <-. apply (Hno i). exists nc. done.
Qed.

(** [DropConnection]: the connection just taken from its owner. *)
Lemma wp_DropConnection sc (Q : unit → Node → Prop) s :
  Inv s → (∀ p, sc = Some p → inhand p s) →
  (∀ s', Inv s' → (load s' ≤ load s)%nat → (length (conns s) ≤ length (conns s'))%nat → Q tt s') →
  wp (DropConnection sc) Q s.
Proof.
  intros Hs Hsc HQ. destruct sc as [p|]; [|by apply wp_ret, HQ]. simpl.
  specialize (Hsc p eq_refl). apply wp_bind, wp_STOP; [done|apply Hsc|]. intros s1 Hs1 Hrel Hload.
  pose proof (inhand_rel _ _ _ Hrel Hsc) as Hin.
  apply wp_bind, wp_deref; [apply Hin|]. intros k. apply wp_bind, wp_modify.
  apply wp_Delete; [by apply Inv_log|exact Hin|]. intros s2 Hs2 Hc Hsch. apply HQ; [done| |].
  - unfold load in *. rewrite Hc, Hsch. exact Hload.
  - rewrite Hc. apply (rel_length _ _ Hrel).
Qed.

Lemma wp_upd_conns (f : list NodeConnection → list NodeConnection) (Q : unit → Node → Prop) s :
  Inv s → shrunk (conns s) (f (conns s)) →
  (∀ s', Inv s' → conns s' = f (conns s) → live s' = live s → sched s' = sched s → Q tt s') →
  wp (upd_conns f) Q s.
Proof. intros Hs Hf HQ. apply wp_modify, HQ; [|done..]. by eapply inv_shrunk. Qed.

(** No element of the list has the connection [sc]. *)
Definition unowned (sc : sc_ptr) (l : list NodeConnection) : Prop :=
  ∀ j nc, l !! j = Some nc → connection nc ≠ Some sc.

Lemma unowned_remove sc i l : unowned sc l → unowned sc (Remove i l).
Proof.
  intros Hu. destruct i as [i|]; [|done]. intros j nc (j' & Hj & _)%lookup_delete_inv. eauto.
Qed.

Lemma unowned_release s i nc sc f :
  Inv s → conns s !! i = Some nc → connection nc = Some sc → (∀ nc, connection (f nc) = None) →
  unowned sc (alter f i (conns s)).
Proof.
  intros Hs Hi Hc Hf j nc'. rewrite list_lookup_alter. case_decide as E.
  - subst. intros (x & Hx & ->)%fmap_Some. by rewrite Hf.
  - intros Hj Hc'. by apply E, (inv_owners _ _ _ _ Hs i j nc nc' sc).
Qed.

(** ** Functions that remove no peer *)

Definition grow (s s' : Node) : Prop := (length (conns s) ≤ length (conns s'))%nat.
#[export] Instance grow_preorder : PreOrder grow.
Proof. unfold grow. split; [intros s; lia|intros s1 s2 s3; lia]. Qed.

Lemma keeps_grow {A} (m : Prog Node A) : keeps_env m → keeps Inv grow m.
Proof.
  intros Hm s Hs. eapply wp_mono; [|by apply Hm]. intros a s' [? Hrel]. split; [done|].
  apply (rel_length _ _ Hrel).
Qed.

Lemma wp_upd_conns_grow f s :
  Inv s → shrunk (conns s) (f (conns s)) → length (f (conns s)) = length (conns s) →
  wp (upd_conns f) (λ _ s', Inv s' ∧ grow s s') s.
Proof.
  intros Hs Hf Hlen. apply wp_upd_conns; [done..|]. intros s' Hs' Hc _ _. split; [done|].
  unfold grow. by rewrite Hc, Hlen.
Qed.

Lemma alter_ext_at (f g : NodeConnection → NodeConnection) (i : nat) (l : list NodeConnection) nc :
  l !! i = Some nc → f nc = g nc → alter f i l = alter g i l.
Proof. intros Hi E. apply list_alter_ext; [|done]. intros x Hx. congruence. Qed.

Lemma wp_ClientConnectPeer i s :
  Inv s → (i < length (conns s))%nat → wp (ClientConnectPeer i) (λ _ s', Inv s' ∧ grow s s') s.
Proof.
  intros Hs Hi. apply lookup_lt_is_Some in Hi as [nc Hi].
  unfold ClientConnectPeer, next_call, get_nc, wp. unfold_prog. unfold conns in Hi. cbn.
  rewrite Hi. cbn. destruct (env_client_creator _ && _) eqn:Hcond; cbn; [|split; [exact Hs|apply Nat.le_refl]].
  apply andb_true_iff in Hcond as [_ Hr%negb_true_iff].
  assert (∀ f g : NodeConnection → NodeConnection, f nc = g nc →
    alter f i (connections (sn s)) = alter g i (connections (sn s))) as Hext.
  { intros f g ?. by apply (alter_ext_at f g i _ nc). }
  unfold ShipConnectionCreate, next_call, upd_nc, upd_conns, upd. unfold_prog. cbn.
  destruct (env_create _ _) as [sc|] eqn:Hcreate; cbn; rewrite Hr; cbn.
  - apply env_create_fresh, not_elem_of_dom in Hcreate. destruct (is_ok _) eqn:Hok; cbn.
    + split; [|unfold grow, conns; cbn; by rewrite length_alter].
      rewrite (Hext _ (λ nc, set_is_attempt_running true (set_connection (Some sc)
        (set_pending_approval_id 0 nc)))) by (cbv beta; by rewrite Hr).
      by apply inv_connect.
    + set (g := λ nc, set_connection None (set_connection (Some sc) (set_pending_approval_id 0 nc))).
      rewrite (Hext _ g) by (cbv beta; by rewrite Hr).
      match goal with |- match _ ?st with _ => _ end => set (s2 := st) end.
      assert (Inv s2) as Hs2.
      { eapply inv_shrunk; [apply shrunk_alter| |exact Hs]; [by right|].
        intros sc' Hl. by apply lookup_insert_is_Some'; right. }
      apply (wp_Delete sc); [exact Hs2| |].
      * split; [cbn; rewrite lookup_insert_eq; eauto|].
        intros j (x & Hj & Hx). change (conns s2) with (alter g i (connections (sn s))) in Hj.
        rewrite list_lookup_alter in Hj. case_decide.
        { subst. apply fmap_Some in Hj as (y & _ & ->). done. }
        destruct (inv_live _ _ _ _ Hs j x sc Hj Hx) as [k Hk]. congruence.
      * intros s3 Hs3 Hc _. split; [done|]. unfold grow. rewrite Hc.
        change (conns s2) with (alter g i (connections (sn s))). by rewrite length_alter.
  - set (g := λ nc, set_connection None (set_pending_approval_id 0 nc)).
    rewrite (Hext _ g) by (cbv beta; by rewrite Hr).
    split; [|unfold grow, conns; cbn; by rewrite length_alter].
    eapply inv_shrunk; [apply shrunk_alter|done|exact Hs]. by right.
Qed.

Lemma wp_then_connect (f : NodeConnection → NodeConnection) i s :
  inv (alter f i (conns s)) (live s) (next_approval_id (sn s)) (trace s) →
  (i < length (conns s))%nat →
  wp (upd_nc i f ≫= λ _, ClientConnectPeer i) (λ _ s', Inv s' ∧ grow s s') s.
Proof.
  intros Hs' Hi. apply wp_bind. unfold upd_nc, upd_conns, upd. apply wp_modify.
  eapply wp_mono; [|apply wp_ClientConnectPeer; [exact Hs'|]].
  - intros _ s' [? Hg]. split; [done|]. unfold grow in *.
    change (conns (set_sn _ _)) with (alter f i (conns s)) in Hg. by rewrite length_alter in Hg.
  - change (conns (set_sn _ _)) with (alter f i (conns s)). by rewrite length_alter.
Qed.

Lemma wp_ConnectToPendingSkiInternal i s :
  Inv s → (i < length (conns s))%nat →
  wp (ShipNodeConnectToPendingSkiInternal i) (λ _ s', Inv s' ∧ grow s s') s.
Proof.
  intros Hs Hi. assert (Hlen := Hi). apply lookup_lt_is_Some in Hi as [nc Hi].
  unfold ShipNodeConnectToPendingSkiInternal, get_nc.
  apply wp_bind. unfold wp at 1. unfold conns in Hi. rewrite Hi. apply wp_bind, wp_gets.
  assert (Inv s ∧ grow s s) as Hdone by (split; [done|reflexivity]).
  destruct (ShipNodeFindServiceForPeer _ _) as [e|]; [|by apply wp_ret].
  case_match; [by apply wp_ClientConnectPeer|].
  destruct (FindWithSki (entry_ski e) _) as [j|] eqn:Hf.
  - case_bool_decide; [by apply wp_ret|]. apply wp_then_connect; [|done].
    eapply inv_set_ski; [by right|right|exact Hs]. unfold conns. rewrite Hf. f_equal. lia.
  - apply wp_then_connect; [|done]. eapply inv_set_ski; [by right|by left|exact Hs].
Qed.

Lemma find_ski_valid k s (Q : option (nat * NodeConnection) → Node → Prop) :
  Q None s → (∀ i nc, FindWithSki k (conns s) = Some i → conns s !! i = Some nc → Q (Some (i, nc)) s) →
  wp (find_ski k) Q s.
Proof.
  intros HN HS. unfold find_ski, rd. apply wp_gets. fold (conns s).
  destruct (FindWithSki k (conns s)) as [j|] eqn:Hf; [|exact HN]. simpl.
  destruct (conns s !! j) as [x|] eqn:Hj; [by apply HS|exact HN].
Qed.

Lemma keeps_ConnectToPendingSki k : keeps Inv grow (ShipNodeConnectToPendingSki k).
Proof.
  unfold ShipNodeConnectToPendingSki. apply keeps_branch; [apply keeps_ret; apply _|].
  apply keeps_bind; [apply _|apply keeps_grow, keeps_sync|]. intros _ s Hs.
  apply wp_bind, find_ski_valid; [done..|by apply wp_ret|]. intros i nc _ Hi.
  case_match; [apply wp_ret; split; [done|reflexivity]|].
  apply wp_ConnectToPendingSkiInternal; [done|by eapply lookup_lt_Some].
Qed.

Lemma wp_connect_loop n : ∀ i s, Inv s → (i + n ≤ length (conns s))%nat →
  wp (connect_loop n i) (λ _ s', Inv s' ∧ grow s s') s.
Proof.
  induction n as [|n IH]; intros i s Hs Hn; simpl; [apply wp_ret; by split|].
  assert (is_Some (conns s !! i)) as [nc Hi] by (apply lookup_lt_is_Some; lia).
  apply wp_bind. unfold get_nc, wp at 1. unfold conns in Hi. rewrite Hi.
  assert (∀ s', Inv s' → grow s s' → wp (connect_loop n (S i)) (λ _ s', Inv s' ∧ grow s s') s') as Hgo.
  { intros s' Hs' Hg. eapply wp_mono; [|apply IH; [done|unfold grow in *; lia]].
    intros _ s'' [??]. split; [done|]. by etransitivity. }
  apply wp_bind. case_match; [apply wp_ret, Hgo; [done|reflexivity]|].
  eapply wp_mono; [|apply wp_ConnectToPendingSkiInternal; [done|lia]].
  intros _ s' [??]. by apply Hgo.
Qed.

Lemma keeps_ConnectToAll : keeps Inv grow ShipNodeConnectToAllPendingSkis.
Proof.
  unfold ShipNodeConnectToAllPendingSkis. apply keeps_branch; [apply keeps_ret; apply _|].
  apply keeps_bind; [apply _|apply keeps_grow, keeps_sync|]. intros _ s Hs.
  apply wp_bind, wp_gets, wp_bind. eapply wp_mono; [|by apply wp_connect_loop].
  intros _ s' [Hs' Hg]. apply wp_modify. by split.
Qed.

Lemma keeps_RegisterSki k b : keeps Inv grow (ShipNodeRegisterSki k b).
Proof.
  unfold ShipNodeRegisterSki. apply keeps_grow.
  apply keeps_bind; [apply _|apply keeps_sync|]. intros _. solve_keeps.
Qed.

(** Sending a decision to an owned connection. *)
Lemma wp_ApproveWithToken sc id s :
  Inv s → is_Some (live s !! sc) → wp (ApproveWithToken sc id) (λ _ s', Inv s' ∧ env_rel s s') s.
Proof.
  intros Hs Hl. unfold ApproveWithToken. apply wp_bind, wp_deref; [done|]. intros _.
  unfold_prog. unfold next_call, emit, wp. cbn. split.
  - by apply (Inv_log (set_calls (S (calls s)) s)).
  - by constructor.
Qed.

Lemma wp_promote_loop n : ∀ i s, Inv s → (i + n ≤ length (conns s))%nat →
  wp (promote_loop n i) (λ _ s', Inv s' ∧ grow s s') s.
Proof.
  induction n as [|n IH]; intros i s Hs Hn; cbn [promote_loop]; [apply wp_ret; by split|].
  apply wp_bind, wp_sync; [done|]. intros s1 Hs1 Hrel1 _.
  pose proof (rel_length _ _ Hrel1) as Hlen1.
  assert (is_Some (conns s1 !! i)) as [nc Hi] by (apply lookup_lt_is_Some; lia).
  apply wp_bind. unfold get_nc, wp at 1. assert (Hi' := Hi). unfold conns in Hi'. rewrite Hi'.
  apply wp_bind, wp_gets.
  assert (∀ s', Inv s' → env_rel s1 s' →
    wp (promote_loop n (S i)) (λ _ s', Inv s' ∧ grow s s') s') as Hgo.
  { intros s' Hs' Hrel'. pose proof (rel_length _ _ Hrel') as Hlen'.
    eapply wp_mono; [|apply IH; [done|lia]]. intros _ s'' [? Hg]. split; [done|].
    unfold grow in *. lia. }
  destruct (connection nc) as [sc|] eqn:Hc; [|by apply wp_bind, wp_ret, Hgo].
  case_match; [|by apply wp_bind, wp_ret, Hgo].
  assert (owns s1 i sc) as Hown by (exists nc; done).
  apply wp_bind, wp_bind. set (f := λ nc, _).
  assert (∀ nc, tame nc (f nc)) as Hf by (unfold f; solve_tame).
  eapply wp_mono; [|by apply (keeps_upd_nc i f Hf s1)]. intros _ s2 [Hs2 Hrel2].
  apply wp_bind, wp_sync; [done|]. intros s3 Hs3 Hrel3 _.
  assert (env_rel s1 s3) as Hrel by by etransitivity.
  apply wp_bind. eapply wp_mono.
  2: { apply wp_ApproveWithToken; [done|]. eapply Inv_owned; [done|]. by eapply (rel_owned _ _ Hrel). }
  intros _ s4 [Hs4 Hrel4]. apply wp_ret, Hgo; [done|]. by etransitivity.
Qed.

Lemma keeps_PromoteFingerprint : keeps Inv grow ShipNodePromoteFingerprint.
Proof.
  unfold ShipNodePromoteFingerprint. apply keeps_bind; [apply _|apply keeps_grow, keeps_sync|].
  intros _ s Hs. apply wp_bind, wp_gets. by apply wp_promote_loop.
Qed.

(** ** Functions that may remove peers *)

Definition safe {A} (m : Prog Node A) : Prop := ∀ s, Inv s → wp m (λ _ s', Inv s') s.

Lemma safe_keeps {A} R (m : Prog Node A) : keeps Inv R m → safe m.
Proof. intros Hm s Hs. eapply wp_mono; [|by apply Hm]. by intros a s' [? _]. Qed.

Lemma find_owner_valid sc s (Q : option (nat * NodeConnection) → Node → Prop) :
  Q None s →
  (∀ i nc p, sc = Some p → conns s !! i = Some nc → connection nc = Some p → Q (Some (i, nc)) s) →
  wp (find_owner sc) Q s.
Proof.
  intros HN HS. unfold find_owner, rd. apply wp_gets. fold (conns s).
  destruct (FindWithShipConnection sc (conns s)) as [j|] eqn:Hf; [|exact HN]. simpl.
  apply FindWithShipConnection_Some in Hf as (nc & p & -> & Hj & Hc). rewrite Hj. simpl. eauto.
Qed.

Lemma inhand_unowned sc s : is_Some (live s !! sc) → unowned sc (conns s) → inhand sc s.
Proof. intros Hl Hu. split; [done|]. intros i (nc & Hi & Hc). by apply (Hu i nc). Qed.

(** Taking the connection from the peer at [i] and removing a peer. *)
Lemma wp_release_remove {B} i nc (f : NodeConnection → NodeConnection)
    (g : list NodeConnection → option nat) (rest : Prog Node B) (Q : B → Node → Prop) s :
  Inv s → conns s !! i = Some nc →
  (∀ nc, ski_key (f nc) = ski_key nc ∧ connection (f nc) = None ∧ pending_approval_id (f nc) = 0) →
  (∀ s', Inv s' → conns s' = Remove (g (alter f i (conns s))) (alter f i (conns s)) →
     sched s' = sched s → (∀ p, connection nc = Some p → inhand p s') → wp rest Q s') →
  wp (upd_nc i f ≫= λ _, upd_conns (λ l, Remove (g l) l) ≫= λ _, rest) Q s.
Proof.
  intros Hs Hi Hf HQ. apply wp_bind. unfold upd_nc.
  apply wp_upd_conns; [done|apply shrunk_alter; intros x; by right|]. intros s1 Hs1 Hc1 Hl1 Hsch1.
  apply wp_bind, wp_upd_conns; [done|apply shrunk_remove|]. intros s2 Hs2 Hc2 Hl2 Hsch2.
  apply HQ; [done|by rewrite Hc2, Hc1|congruence|]. intros p Hp. apply inhand_unowned.
  - rewrite Hl2, Hl1. eapply Inv_owned; [done|]. by exists nc.
  - rewrite Hc2. apply unowned_remove. rewrite Hc1. eapply unowned_release; [done..|apply Hf].
Qed.

Lemma safe_UnregisterSki k : safe (ShipNodeUnregisterSki k).
Proof.
  intros s Hs. unfold ShipNodeUnregisterSki. apply wp_bind, wp_sync; [done|]. intros s1 Hs1 _ _.
  apply wp_bind, find_ski_valid; [by apply wp_ret|]. intros i nc _ Hi. cbv zeta.
  eapply (wp_release_remove i nc _ (FindWithSki k)); [done..|]. intros s2 Hs2 _ _ Hin.
  by apply wp_DropConnection.
Qed.

(** The rounds of the revocation: each passes or removes a peer. *)
Lemma wp_revoke_loop fp fuel : ∀ i s, Inv s → (load s < fuel + i)%nat →
  (i ≤ length (conns s))%nat → wp (revoke_loop fp fuel i) (λ _ s', Inv s') s.
Proof.
  induction fuel as [|fuel IH]; intros i s Hs Hfuel Hi; [unfold load in Hfuel; lia|].
  cbn [revoke_loop]. apply wp_bind, wp_sync; [done|]. intros s1 Hs1 Hrel1 Hload1.
  pose proof (rel_length _ _ Hrel1) as Hlen1. apply wp_bind. unfold rd. apply wp_gets. fold (conns s1).
  destruct (conns s1 !! i) as [nc|] eqn:Hnc; [|by apply wp_ret].
  apply lookup_lt_Some in Hnc as Hlt.
  case_match; [apply IH; [done|unfold load in *; lia..]|]. cbv zeta.
  apply (wp_release_remove i nc (λ nc, (ReleaseShipConnection nc).2) (λ _, Some i)); [done..|].
  intros s2 Hs2 Hc2 Hsch2 Hin. apply wp_bind, wp_DropConnection; [done|exact Hin|].
  intros s3 Hs3 Hload3 Hlen3.
  assert (length (conns s2) = length (conns s1) - 1)%nat as Hlen2.
  { rewrite Hc2. simpl. rewrite length_delete, length_alter; [done|].
    rewrite list_lookup_alter_eq, Hnc. eauto. }
  apply IH; [done|unfold load in *; rewrite Hsch2 in *; lia|lia].
Qed.

Lemma safe_RevokePairingFingerprint fp : safe (ShipNodeRevokePairingFingerprint fp).
Proof.
  intros s Hs. unfold ShipNodeRevokePairingFingerprint. apply wp_bind, wp_gets.
  apply wp_revoke_loop; [done|unfold load, revoke_fuel, conns; lia|lia].
Qed.

Lemma safe_ApprovePendingHandshake sc id : safe (ShipNodeApprovePendingHandshake sc id).
Proof.
  intros s Hs. unfold ShipNodeApprovePendingHandshake. apply wp_bind, wp_sync; [done|].
  intros s1 Hs1 _ _. apply wp_bind, find_owner_valid; [by apply wp_ret|].
  intros i nc p -> Hi Hc. case_match; [|by apply wp_ret].
  apply wp_bind, wp_sync; [done|]. intros s2 Hs2 Hrel _. apply wp_bind.
  eapply wp_mono; [|apply wp_ApproveWithToken; [done|]].
  2: { eapply Inv_owned; [done|]. eapply (rel_owned _ _ Hrel). by exists nc. }
  intros err s3 [Hs3 _]. case_match; [by apply wp_ret|].
  apply wp_bind, wp_sync; [done|]. intros s4 Hs4 _ _.
  by apply (safe_keeps env_rel), Hs4; apply keeps_DiscardPendingTrust.
Qed.

Lemma safe_CancelPairingSki k : safe (ShipNodeCancelPairingSki k).
Proof.
  intros s Hs. unfold ShipNodeCancelPairingSki. case_match; [by apply wp_ret|].
  apply wp_bind, wp_sync; [done|]. intros s1 Hs1 _ _.
  apply wp_bind, find_ski_valid; [by apply wp_ret|]. intros i nc _ Hi. apply wp_bind.
  eapply wp_mono; [|apply (keeps_upd_nc i (set_pending_approval_id 0)); [solve_tame|done]].
  intros _ s2 [Hs2 Hrel2]. case_match; [|by apply wp_ret].
  apply wp_bind, wp_sync; [done|]. intros s3 Hs3 Hrel3 _.
  destruct (connection nc) as [sc|] eqn:Hc.
  - apply wp_bind, wp_deref; [|intros _; by apply wp_modify, Inv_log].
    eapply Inv_owned; [done|]. eapply (rel_owned _ _ Hrel3), (rel_owned _ _ Hrel2). by exists nc.
  - apply (wp_upd_conns (λ l, Remove (FindWithSki k l) l)); [done|apply shrunk_remove|done].
Qed.

(** The critical section of [CloseShipConnection] leaves the connection in hand. *)
Lemma wp_CloseSection sc (Q : option (option string * bool * Z) → Node → Prop) s :
  Inv s → Q None s → (∀ r s', Inv s' → inhand sc s' → Q (Some r) s') → wp (CloseSection sc) Q s.
Proof.
  intros Hs HN HS. unfold CloseSection.
  apply wp_bind, find_owner_valid; [by apply wp_bind, wp_gets, wp_ret|].
  intros i nc p [= <-] Hi Hc. apply wp_bind, wp_gets, wp_bind. unfold upd_nc at 1.
  apply wp_upd_conns; [done|apply shrunk_alter; intros x; by right|]. intros s1 Hs1 Hc1 Hl1 _.
  assert (is_Some (live s !! sc)) as Hl by (eapply Inv_owned; [done|]; by exists nc).
  assert (unowned sc (conns s1)) as Hu by (rewrite Hc1; by eapply unowned_release).
  assert (∀ s2, Inv s2 → live s2 = live s1 → unowned sc (conns s2) →
    Q (Some (ski nc, provisional nc && negb (is_trusted nc), (OnConnectionClosed nc).1)) s2) as Hgo.
  { intros s2 Hs2 Hl2 Hu2. apply HS; [done|]. apply inhand_unowned; [by rewrite Hl2, Hl1|done]. }
  apply wp_bind. case_match; [|case_match; [|by apply wp_ret, wp_ret, Hgo]].
  - apply (wp_upd_conns (λ l, Remove (FindWithSki (ski nc) l) l)); [done|apply shrunk_remove|].
    intros s2 Hs2 Hc2 Hl2 _. apply wp_ret, Hgo; [done..|]. rewrite Hc2. by apply unowned_remove.
  - unfold upd_nc. apply wp_upd_conns; [done|apply shrunk_alter; intros x; left; solve_tame|].
    intros s2 Hs2 Hc2 Hl2 _. apply wp_ret, Hgo; [done..|]. rewrite Hc2. intros j x.
    rewrite list_lookup_alter. case_decide; [subst|by apply Hu].
    intros (y & Hy & ->)%fmap_Some. by apply (Hu j y).
Qed.

Lemma safe_CloseShipConnection sc : safe (CloseShipConnection sc).
Proof.
  intros s Hs. destruct sc as [sc|]; [|by apply wp_ret]. simpl.
  apply wp_bind, wp_sync; [done|]. intros s1 Hs1 _ _.
  apply wp_bind, wp_CloseSection; [done|by apply wp_ret|]. intros [[k b] z] s2 Hs2 Hin.
  apply wp_bind, wp_STOP; [done|apply Hin|]. intros s3 Hs3 Hrel _.
  apply wp_bind, wp_modify, wp_bind, wp_Delete; [by apply Inv_log| |].
  - by apply (inhand_rel _ _ _ Hrel).
  - intros s4 Hs4 _ _. apply wp_bind, wp_gets. case_match; [|by apply wp_ret].
    by apply (safe_keeps grow), Hs4; apply keeps_ConnectToPendingSki.
Qed.

Lemma safe_HandleMessage m : safe (HandleMessage m).
Proof.
  unfold HandleMessage.
  destruct (msg_type m); eauto using safe_CloseShipConnection, safe_UnregisterSki,
    safe_CancelPairingSki, safe_ApprovePendingHandshake, safe_RevokePairingFingerprint,
    safe_keeps, keeps_ConnectToAll, keeps_ConnectToPendingSki, keeps_PromoteFingerprint.
  - intros s Hs. by apply wp_ret.
  - intros s Hs. apply wp_bind. eapply wp_mono; [|by apply keeps_RegisterSki].
    intros _ s' [Hs' _]. by apply (safe_keeps grow), Hs'; apply keeps_ConnectToPendingSki.
Qed.

Lemma safe_Loop n : safe (ShipNodeConnectionLoop n).
Proof.
  induction n as [|n IH]; intros s Hs; simpl; [by apply wp_ret|].
  apply wp_branch; intros _; [by apply wp_ret|]. apply wp_bind.
  eapply wp_mono; [|by apply keeps_RECEIVE]. intros m s1 [Hs1 _]. apply wp_bind.
  eapply wp_mono; [|by apply safe_HandleMessage]. intros ? s2. apply IH.
Qed.

Lemma wp_stop_loop fuel : ∀ i s, Inv s → (load s < fuel + i)%nat → (i ≤ length (conns s))%nat →
  wp (stop_loop fuel i) (λ _ s', Inv s') s.
Proof.
  induction fuel as [|fuel IH]; intros i s Hs Hfuel Hi; [unfold load in Hfuel; lia|].
  cbn [stop_loop]. apply wp_bind, wp_sync; [done|]. intros s1 Hs1 Hrel1 Hload1.
  pose proof (rel_length _ _ Hrel1) as Hlen1. apply wp_bind. unfold rd. apply wp_gets. fold (conns s1).
  destruct (conns s1 !! i) as [nc|] eqn:Hnc; [|by apply wp_ret]. cbv zeta.
  apply lookup_lt_Some in Hnc as Hlt.
  set (f := λ nc, StopRetryTimer (ReleaseShipConnection nc).2).
  apply wp_bind. unfold upd_nc.
  apply wp_upd_conns; [done|apply shrunk_alter; intros x; by right|]. intros s2 Hs2 Hc2 Hl2 Hsch2.
  assert (length (conns s2) = length (conns s1)) as Hlen2 by by rewrite Hc2, length_alter.
  apply wp_bind, wp_DropConnection; [done| |].
  - intros p Hp. apply inhand_unowned.
    + rewrite Hl2. eapply Inv_owned; [done|]. by exists nc.
    + rewrite Hc2. by eapply unowned_release.
  - intros s3 Hs3 Hload3 Hlen3. apply IH; [done|unfold load in *; rewrite Hsch2 in *; lia|lia].
Qed.

Lemma safe_StopFinish : safe StopFinish.
Proof.
  intros s Hs. unfold StopFinish. apply wp_bind, wp_gets.
  apply wp_stop_loop; [done|unfold load, revoke_fuel, conns; lia|lia].
Qed.
End safe.
