(* ===== verification/ShipNodeProperties.v ===== *)
(** * What the SHIP node promises

    The theorems on whole runs of the node's thread, with any schedule of the
    other threads; who is admitted and trusted; when a peer is connected to
    again; and the orders of events in which the node goes wrong. *)

From stdpp Require Import gmap.
From S2P Require Import Prelude StringUtil ShipTypes NodeConnection ShipNode ShipNodeInv.
From S2P Require Import ShipNodeSafe.

Local Open Scope Z_scope.

(** ** A concrete environment

    Every connection can be created and started, except that starting the
    connections of [fails] fails.  Addresses are used again as soon as they are free. *)

Definition first_free (l : gset sc_ptr) : sc_ptr :=
  default (S (max_list (elements l))) (find (λ x, bool_decide (x ∉ l)) (seq 1 (size l))).

Lemma max_list_elem (x : nat) l : x ∈ l → (x ≤ max_list l)%nat.
Proof. intros Hx. by apply max_list_elem_of_le. Qed.

Lemma first_free_fresh l : first_free l ∉ l.
Proof.
  unfold first_free. destruct (find _ _) as [x|] eqn:E; simpl.
  - apply find_some in E as [_ E]. by apply bool_decide_eq_true in E.
  - intros Hin. apply elem_of_elements, max_list_elem in Hin. lia.
Qed.

Program Definition demo_node_env (fails : nat → bool) (waiting : bool) : NodeEnv := {|
  env_create _ l := Some (first_free l);
  env_start n := if fails n then kEebusErrorCommunicationBegin else kEebusErrorOk;
  env_client_creator _ := true;
  env_waiting_allowed _ _ := waiting;
  env_approve _ := kEebusErrorOk;
|}.
Next Obligation. intros _ _ _ l sc [= <-]. apply first_free_fresh. Qed.

(** ** Whole runs *)

Lemma node_start_inv r mode pairing evs : Inv (node_start r mode pairing evs).
Proof.
  constructor; simpl; try done; try (by apply NoDup_nil); try (intros *; set_solver).
Qed.

Section runs.
Context `{NodeEnv}.

(** C27: Whatever the other threads do and however many rounds the node's thread
    runs, it never uses or deletes a connection that is already deleted, its
    loops end, and afterwards every connection has at most one owner, is not
    deleted while it has one, belongs to an attempt that is running, and no two
    peers have the same SKI. *)
Theorem node_runs_safely r mode pairing evs n :
  let run := (ShipNodeConnectionLoop n;; StopFinish) (node_start r mode pairing evs) in
  (∀ why, run ≠ Crash why) ∧
  ∀ s, run = Ret tt s →
    distinct connection (conns s) ∧ distinct ski_key (conns s) ∧
    ∀ i nc sc, conns s !! i = Some nc → connection nc = Some sc →
      is_Some (live s !! sc) ∧ is_attempt_running nc = true.
Proof.
  intros run.
  assert (wp (ShipNodeConnectionLoop n;; StopFinish) (λ _ s, Inv s) (node_start r mode pairing evs))
    as Hwp.
  { apply wp_bind. eapply wp_mono; [|apply safe_Loop, node_start_inv]. intros ? s. apply safe_StopFinish. }
  split; [intros why; by eapply wp_no_crash|]. intros s Hrun.
  pose proof (wp_ret_inv _ _ _ _ _ Hwp Hrun) as Hs. split_and!; [apply Hs..|].
  intros i nc sc Hi Hc. split; [by eapply (inv_live _ _ _ _ Hs)|].
  eapply (inv_running _ _ _ _ Hs); [done|congruence].
Qed.

(** C28: An approval by the application carries an id that is never used again, it
    is accepted at most once, and only for the connection it was issued for:
    a decision that arrives late cannot approve a later connection. *)
Theorem approvals_accepted_once r mode pairing evs n s :
  ShipNodeConnectionLoop n (node_start r mode pairing evs) = Ret tt s →
  NoDup (issued (trace s)).*2 ∧ NoDup (accepted (trace s)).*2 ∧
  ∀ sc id, (sc, id) ∈ accepted (trace s) →
    (sc, id) ∈ issued (trace s) ∧ ∀ sc', (sc', id) ∈ issued (trace s) → sc' = sc.
Proof.
  intros Hrun. pose proof (wp_ret_inv _ _ _ _ _ (safe_Loop n _ (node_start_inv r mode pairing evs)) Hrun) as Hs.
  split_and!; [apply Hs..|]. intros sc id Hin. apply (inv_accepted _ _ _ _ Hs) in Hin.
  split; [done|]. intros sc' Hin'.
  apply list_elem_of_lookup in Hin as [a Ha], Hin' as [b Hb]. assert (a = b) as <-; [|congruence].
  eapply NoDup_lookup; [apply (inv_issued _ _ _ _ Hs)| |];
    rewrite list_lookup_fmap; [by rewrite Ha|by rewrite Hb].
Qed.
End runs.

(** A peer that connects, is shown to a user and approved. *)
Definition demo_approval : list NodeEv :=
  [ EvServerConnection (Some "aa"%string) (Some "f1"%string);
    EvApprovePendingHandshakeWithSki (Some "AA"%string); EvSent 0; EvYield; EvYield;
    EvYield; EvAcceptPendingTrust 1 1; EvAcceptPendingTrust 1 1;
    EvRegisterRemoteSki (Some "bb"%string) false; EvSent 0 ].

Lemma approvals_accepted_once_witness : ∃ s,
  @ShipNodeConnectionLoop (demo_node_env (λ _, false) false) 2
    (node_start "server" kEebusTrustModePostTrust false demo_approval) = Ret tt s ∧
  accepted (trace s) = [(1%nat, 1)] ∧ NoDup (issued (trace s)).*2.
Proof.
  eexists. split; [vm_compute; reflexivity|]. split; [reflexivity|].
  refine (proj1 (@approvals_accepted_once (demo_node_env (λ _, false) false) "server"
    kEebusTrustModePostTrust false demo_approval 2 _ _)). vm_compute. reflexivity.
Defined.

(** ** Who is admitted *)

Section admission.
Context `{NodeEnv}.

(** The decision on an incoming connection with the SKI [k] and a certificate
    with the fingerprint [fp]; [waiting]: does the application accept strangers now? *)
Definition admissible (k fp : option string) (waiting : bool) (s : ShipNode) : bool :=
  negb (cancel s) &&
  match known_peer k fp (connections s) ≫= (connections s !!.) with
  | Some nc =>
      (StringIsEmpty (expected_fingerprint nc)
       || ShipNodeFingerprintMatches fp (expected_fingerprint nc))
      && negb (is_attempt_running nc)
  | None =>
      ShipNodeFingerprintMatches fp (remote_fingerprint s)
      || bool_decide (trust_mode s = kEebusTrustModePostTrust) || waiting
  end.

(** Is the peer trusted once it is connected? *)
Definition trusted_after (k fp : option string) (s : ShipNode) : bool :=
  ShipNodeFingerprintMatches fp (remote_fingerprint s) ||
  match known_peer k fp (connections s) ≫= (connections s !!.) with
  | Some nc => is_trusted nc
  | None => negb (bool_decide (trust_mode s = kEebusTrustModePostTrust))
  end.

(** What [ShipNodeAdmitPeer] makes of the peer. *)
Definition admitted (k fp remote : option string) (pairing : bool) (created : option sc_ptr)
    (nc : NodeConnection) : NodeConnection :=
  let nc := if pairing then set_trusted_by_pairing true (set_expected_fingerprint remote nc) else nc in
  let nc := set_peer_fingerprint fp (if SkiMatches (ski nc) k then nc else set_ski k nc) in
  (ServerConnect created kEebusErrorOk nc).2.

Lemma ServerConnect_start created e e' nc : ServerConnect created e nc = ServerConnect created e' nc.
Proof. done. Qed.

Lemma AdmitPeer_run k fp b i s nc : conns s !! i = Some nc →
  ∃ s', ShipNodeAdmitPeer k fp b i s
      = Ret (if bool_decide (env_create (calls s) (dom (live s)) = None) then -1 else 0) s' ∧
    conns s' !! i = Some (admitted k fp (remote_fingerprint (sn s)) b
                            (env_create (calls s) (dom (live s))) nc) ∧
    ∀ j, j ≠ i → conns s' !! j = conns s !! j.
Proof.
  intros Hi. unfold ShipNodeAdmitPeer, ServerConnectPeer, ShipConnectionCreate, upd_nc, upd_conns,
    upd, next_call, get_nc. unfold_prog. unfold conns in *.
  assert (∀ f : NodeConnection → NodeConnection, alter f i (connections (sn s)) !! i = Some (f nc))
    as Hf by (intros f; by rewrite list_lookup_alter_eq, Hi).
  destruct b; cbn; rewrite ?list_lookup_alter_eq, Hi; cbn;
    (destruct (env_create _ _) as [sc|]; cbn; eexists; (split; [reflexivity|]); cbn;
     (split; [by rewrite ?list_lookup_alter_eq, Hi|]);
     intros j Hj; by rewrite ?list_lookup_alter_ne by done).
Qed.

(** The certificate a peer presented is the one it is bound to, if it is bound to one. *)
Definition pinned (fp : option string) (nc : NodeConnection) : Prop :=
  StringIsEmpty (expected_fingerprint nc) = false →
  ShipNodeFingerprintMatches fp (expected_fingerprint nc) = true.

(** The peer [nc] has just been connected as [k] with the certificate [fp]. *)
Record connected_as (k fp : option string) (sc : option sc_ptr) (trusted : bool)
    (nc : NodeConnection) : Prop := {
  ca_connection : connection nc = sc;
  ca_running : is_attempt_running nc = true;
  ca_fingerprint : peer_fingerprint nc = fp;
  ca_trusted : is_trusted nc = trusted;
  ca_ski : StringIsEmpty k = false → SkiMatches (ski nc) k = true;
  ca_pinned : pinned fp nc;
}.

Lemma SkiMatches_refl k : StringIsEmpty k = false → SkiMatches k k = true.
Proof.
  intros Hk. unfold SkiMatches. rewrite Hk. simpl. apply StringIsEmpty_false in Hk as (a & -> & _).
  by apply bool_decide_eq_true.
Qed.

Lemma admitted_connected k fp remote sc nc : pinned fp nc →
  connected_as k fp (Some sc) (is_trusted nc)
    (admitted k fp remote (ShipNodeFingerprintMatches fp remote) (Some sc) nc).
Proof.
  intros Hp. unfold admitted.
  destruct (ShipNodeFingerprintMatches fp remote) eqn:Hm; simpl;
    destruct (SkiMatches (ski nc) k) eqn:Hs; constructor; try done;
    first [intros _; exact Hm | intros Hk; exact Hs | intros Hk; by apply SkiMatches_refl].
Qed.

(** The answer once the trust of the peer at [i] is settled, in the state [m]. *)
Lemma AdmitPeer_answer k fp i nc s m :
  conns m !! i = Some nc → pinned fp nc → (∀ j, j ≠ i → conns m !! j = conns s !! j) →
  let created := env_create (calls m) (dom (live m)) in
  ∃ a s', ShipNodeAdmitPeer k fp (ShipNodeFingerprintMatches fp (remote_fingerprint (sn m))) i m
      = Ret a s' ∧
    (a = 0 ↔ created ≠ None) ∧
    (a = 0 → ∃ i nc', conns s' !! i = Some nc' ∧ connected_as k fp created (is_trusted nc) nc' ∧
       ∀ j, j ≠ i → conns s' !! j = conns s !! j).
Proof.
  intros Hi Hp Hj created.
  destruct (AdmitPeer_run k fp (ShipNodeFingerprintMatches fp (remote_fingerprint (sn m))) i m nc Hi)
    as (s' & E & Hi' & Hj'). fold created in E, Hi'. eexists _, s'. split; [exact E|].
  destruct created as [sc|]; simpl; [|by split].
  split; [done|]. intros _. exists i. eexists. split; [exact Hi'|]. split.
  - by apply admitted_connected.
  - intros j Hne. by rewrite Hj', Hj.
Qed.

(** The same after an update [f] of the peer. *)
Lemma trust_then_admit f k fp i nc s m :
  conns m !! i = Some nc → pinned fp (f nc) → (∀ j, j ≠ i → conns m !! j = conns s !! j) →
  let created := env_create (calls m) (dom (live m)) in
  ∃ a s', (upd_nc i f ≫= λ _, ShipNodeAdmitPeer k fp
             (ShipNodeFingerprintMatches fp (remote_fingerprint (sn m))) i) m = Ret a s' ∧
    (a = 0 ↔ created ≠ None) ∧
    (a = 0 → ∃ i nc', conns s' !! i = Some nc' ∧
       connected_as k fp created (is_trusted (f nc)) nc' ∧
       ∀ j, j ≠ i → conns s' !! j = conns s !! j).
Proof.
  intros Hi Hp Hj. set (m' := set_sn (set_connections (alter f i (conns m)) (sn m)) m).
  assert (conns m' = alter f i (conns m)) as Hm' by done.
  apply (AdmitPeer_answer k fp i (f nc) s m'); [|done|].
  - by rewrite Hm', list_lookup_alter_eq, Hi.
  - intros j Hne. rewrite Hm', list_lookup_alter_ne by done. by apply Hj.
Qed.

Lemma GetOrCreate_none k s : FindWithSki k (conns s) = None →
  get_or_create k s = Ret (length (conns s))
    (set_sn (set_connections (conns s ++ [NodeConnectionConstruct k]) (sn s)) s).
Proof.
  intros Hk. destruct (GetOrCreate_snoc k (conns s)) as [[E _]|(i & _ & E)]; [|congruence].
  change (get_or_create k s) with (Ret (GetOrCreate k (conns s)).1
    (set_sn (set_connections (GetOrCreate k (conns s)).2 (sn s)) s)).
  by rewrite E.
Qed.

(** C26: An incoming connection is admitted exactly when the node is not being
    stopped, the peer has no attempt running and presents the certificate it is
    bound to, and a stranger presents the certificate of the current
    pairing, or strangers are shown to a user, or are being waited for.  It is
    trusted afterwards exactly when it was before, presents that certificate, or is
    a stranger that is being waited for without a user.  No other peer changes, and a
    rejection changes none. *)
Theorem admission_exact k fp s :
  let ok := admissible k fp (env_waiting_allowed (calls s) k) (sn s) in
  let created := env_create (S (calls s)) (dom (live s)) in
  ∃ a s', ShipNodeOnWebsocketServerConnectionCallback k fp s = Ret a s' ∧
    (a = 0 ↔ ok = true ∧ created ≠ None) ∧
    (ok = false → conns s' = conns s) ∧
    (a = 0 → ∃ i nc, conns s' !! i = Some nc ∧
       connected_as k fp created (trusted_after k fp (sn s)) nc ∧
       ∀ j, j ≠ i → conns s' !! j = conns s !! j).
Proof.
  cbv zeta. unfold ShipNodeOnWebsocketServerConnectionCallback, admissible, trusted_after.
  unfold mbind, Prog_bind at 1, gets at 1.
  destruct (cancel (sn s)) eqn:Hcancel; simpl.
  { eexists _, s. split; [done|]. split_and!; [split; [done|by intros [? _]]|done|done]. }
  fold (known_peer k fp (connections (sn s))). set (s1 := set_calls (S (calls s)) s).
  destruct (known_peer k fp (connections (sn s))) as [i|] eqn:Hfound; simpl.
  - apply known_peer_Some in Hfound as (Hk & nc & Hi). rewrite Hi. simpl.
    destruct (StringIsEmpty (expected_fingerprint nc)
      || ShipNodeFingerprintMatches fp (expected_fingerprint nc)) eqn:Hpin; simpl.
    2: { rewrite orb_false_iff in Hpin. destruct Hpin as [-> ->]. simpl. eexists _, s.
      split; [done|]. split_and!; [split; [done|by intros [? _]]|done|done]. }
    assert (negb (StringIsEmpty (expected_fingerprint nc)) &&
      negb (ShipNodeFingerprintMatches fp (expected_fingerprint nc)) = false) as ->.
    { apply orb_true_iff in Hpin as [-> | ->]; [done|apply andb_false_r]. }
    unfold Prog_bind at 1, next_call. cbv beta iota. fold s1.
    destruct (is_attempt_running nc) eqn:Hr; simpl.
    { eexists _, s1. split; [done|]. split_and!; [split; [done|by intros [? _]]|done|done]. }
    assert (pinned fp nc) as Hp by (intros E; by rewrite E in Hpin).
    change (remote_fingerprint (sn s)) with (remote_fingerprint (sn s1)).
    set (p := ShipNodeFingerprintMatches fp (remote_fingerprint (sn s1))).
    fold p. destruct (SkiMatches k _ || _) eqn:Hrec.
    + destruct (trust_then_admit (λ nc, set_provisional false (set_is_trusted true nc)) k fp i nc s s1)
        as (ans & sa & E & Hans & Hpost); [done..|]. exists ans, sa. split; [exact E|].
      assert (p || is_trusted nc = true) as ->.
      { destruct p, (is_trusted nc); try done.
        unfold SkiMatches in Hrec. by rewrite orb_true_r in Hrec. }
      split_and!; [rewrite Hans; by split; [|intros [_ ?]]|done|exact Hpost].
    + destruct (AdmitPeer_answer k fp i nc s s1) as (ans & sa & E & Hans & Hpost); [done..|].
      exists ans, sa. split; [exact E|].
      assert (p = false) as -> by (destruct p; [by rewrite orb_true_r in Hrec|done]).
      split_and!; [rewrite Hans; by split; [|intros [_ ?]]|done|exact Hpost].
  - apply known_peer_None in Hfound. unfold Prog_bind at 1, next_call. cbv beta iota. fold s1.
    assert (SkiMatches k None = false) as -> by (unfold SkiMatches; by rewrite orb_true_r).
    change (remote_fingerprint (sn s)) with (remote_fingerprint (sn s1)).
    set (p := ShipNodeFingerprintMatches fp (remote_fingerprint (sn s1))).
    set (pt := bool_decide _). set (w := env_waiting_allowed _ _).
    assert (negb (false || (p || false)) && negb pt && negb w = negb (p || pt || w)) as ->
      by (by destruct p, pt, w).
    destruct (p || pt || w); simpl.
    2: { eexists _, s1. split; [done|]. split_and!; [split; [done|by intros [? _]]|done|done]. }
    unfold Prog_bind at 1. rewrite GetOrCreate_none by done. cbv beta iota.
    set (m := set_sn (set_connections (conns s1 ++ [NodeConnectionConstruct k]) (sn s1)) s1).
    assert (conns m = conns s ++ [NodeConnectionConstruct k]) as Hm by done.
    destruct (trust_then_admit (λ nc, set_provisional (negb (p || false || negb pt))
      (set_is_trusted (p || false || negb pt) nc)) k fp (length (conns s1))
      (NodeConnectionConstruct k) s m) as (ans & sa & E & Hans & Hpost);
      [rewrite Hm; by apply list_lookup_middle|done| |exists ans, sa; split; [exact E|]].
    { intros j Hne. rewrite Hm.
      destruct (decide (j < length (conns s))%nat); [by rewrite lookup_app_l|].
      rewrite !lookup_ge_None_2; [done|lia|rewrite length_app; simpl; change (conns s1) with (conns s) in Hne; lia]. }
    assert (p || negb pt = is_trusted (set_provisional (negb (p || false || negb pt))
      (set_is_trusted (p || false || negb pt) (NodeConnectionConstruct k)))) as ->
      by (simpl; by rewrite orb_false_r).
    split_and!; [rewrite Hans; by split; [|intros [_ ?]]|done|exact Hpost].
Qed.
End admission.

(** ** When a connection has closed *)

Lemma RetryDelayMs_next n :
  RetryDelayMs (n + 1) = if n <=? 0 then 0 else if n =? 1 then 3000 else 10000.
Proof.
  unfold RetryDelayMs. destruct (Z.leb_spec n 0).
  - by rewrite (proj2 (Z.leb_le _ _)) by lia.
  - rewrite (proj2 (Z.leb_gt _ _)) by lia. destruct (Z.eqb_spec n 1) as [-> |]; [done|].
    by rewrite (proj2 (Z.eqb_neq _ _)) by lia.
Qed.

(** The section where the connection has an owner. *)
Definition closed_conns (i : nat) (nc : NodeConnection) (s : Node) : list NodeConnection :=
  let l := <[i := (OnConnectionClosed nc).2]> (conns s) in
  let delay := (OnConnectionClosed nc).1 in
  if provisional nc && negb (is_trusted nc) then RemoveWithSki (ski nc) l
  else if negb (cancel (sn s)) && (0 <? delay) then alter (ScheduleRetry delay) i l else l.

Lemma alter_insert_at (f : NodeConnection → NodeConnection) (i : nat) (l : list NodeConnection) nc :
  l !! i = Some nc → alter f i l = <[i := f nc]> l.
Proof.
  intros Hi. apply list_eq. intros j. rewrite list_lookup_alter. case_decide; [subst|].
  - rewrite Hi. symmetry. apply list_lookup_insert_eq. by eapply lookup_lt_Some.
  - by rewrite list_lookup_insert_ne.
Qed.

Lemma delete_insert_at (l : list NodeConnection) (i : nat) x : delete i (<[i := x]> l) = delete i l.
Proof.
  apply list_eq. intros j. rewrite !list_lookup_delete.
  case_decide; by rewrite list_lookup_insert_ne by lia.
Qed.

Lemma CloseSection_run s i nc sc : Inv s → conns s !! i = Some nc → connection nc = Some sc →
  CloseSection sc s
  = Ret (Some (ski nc, provisional nc && negb (is_trusted nc), (OnConnectionClosed nc).1))
      (set_sn (set_connections (closed_conns i nc s) (sn s)) s).
Proof.
  intros Hs Hi Hc. unfold closed_conns.
  rewrite <- (alter_insert_at (λ nc, (OnConnectionClosed nc).2)) by done.
  unfold CloseSection, find_owner, rd. unfold_prog. fold (conns s).
  rewrite (FindWithShipConnection_own _ i nc) by (done || apply Hs). cbn. rewrite Hi. cbn.
  destruct (provisional nc && negb (is_trusted nc)); [reflexivity|].
  by destruct (negb (cancel (sn s)) && (0 <? RetryDelayMs (attempt_cnt nc + 1))).
Qed.

Lemma CloseSection_unowned s i nc sc : Inv s → conns s !! i = Some nc → connection nc = Some sc →
  unowned sc (closed_conns i nc s).
Proof.
  intros Hs Hi Hc.
  assert (wp (CloseSection sc) (λ r s', ∀ x, r = Some x → inhand sc s') s) as Hwp
    by by apply wp_CloseSection.
  pose proof (wp_ret_inv _ _ _ _ _ Hwp (CloseSection_run s i nc sc Hs Hi Hc) _ eq_refl) as [_ Hno].
  intros j x Hj Hx. apply (Hno j). by exists x.
Qed.

Lemma CloseSection_again s sc : unowned sc (conns s) → CloseSection sc s = Ret None s.
Proof.
  intros Hu. unfold CloseSection, find_owner, rd. unfold_prog. fold (conns s).
  by rewrite FindWithShipConnection_none.
Qed.

(** A closed connection is taken from its owner once: a second report of the
    close finds no owner.  A peer that was only shown to the user and has a SKI
    is forgotten; any other is kept, without connection, attempt and pending
    approval, and is connected to again at once after the first close in a row,
    after three seconds after the second and after ten seconds after
    every later one, unless the node is being stopped. *)
Theorem close_exact s i nc sc :
  Inv s → conns s !! i = Some nc → connection nc = Some sc →
  let discard := provisional nc && negb (is_trusted nc) in
  let delay := if attempt_cnt nc <=? 0 then 0 else if attempt_cnt nc =? 1 then 3000 else 10000 in
  ∃ s', CloseSection sc s = Ret (Some (ski nc, discard, delay)) s' ∧
    CloseSection sc s' = Ret None s' ∧
    if discard && negb (StringIsEmpty (ski nc)) then conns s' = delete i (conns s)
    else ∃ nc', conns s' = <[i := nc']> (conns s) ∧
      (connection nc', is_attempt_running nc', handshake_complete nc', pending_approval_id nc')
      = (None, false, false, 0) ∧
      (attempt_cnt nc', is_trusted nc', ski nc') = (attempt_cnt nc + 1, is_trusted nc, ski nc) ∧
      retry_timer nc' = if discard || cancel (sn s) || (delay =? 0) then retry_timer nc
                        else Some delay.
Proof.
  intros Hs Hi Hc discard delay.
  assert ((OnConnectionClosed nc).1 = delay) as Hdelay by apply RetryDelayMs_next.
  rewrite (CloseSection_run s i nc sc Hs Hi Hc), Hdelay. fold discard.
  eexists. split; [reflexivity|].
  set (s' := set_sn _ _). assert (conns s' = closed_conns i nc s) as Hc' by done.
  pose proof (CloseSection_unowned s i nc sc Hs Hi Hc) as Hu. split.
  { apply CloseSection_again. by rewrite Hc'. }
  rewrite Hc'. clear Hc' s'. unfold closed_conns. fold discard. rewrite Hdelay.
  set (nc' := (OnConnectionClosed nc).2).
  destruct discard; simpl.
  - unfold RemoveWithSki. destruct (StringIsEmpty (ski nc)) eqn:Hne; simpl.
    + exists nc'. split; [|done]. unfold FindWithSki. by rewrite Hne.
    + rewrite (FindWithSki_own _ i nc' : _ → _ → _ → FindWithSki (ski nc) _ = _); [|..|done].
      * apply delete_insert_at.
      * unfold nc'. rewrite <- (alter_insert_at (λ nc, (OnConnectionClosed nc).2)) by done.
        apply distinct_alter_same; [done|apply Hs].
      * apply list_lookup_insert_eq. by eapply lookup_lt_Some.
  - assert ((0 <? delay) = negb (delay =? 0)) as ->.
    { unfold delay. by repeat case_match. }
    destruct (cancel (sn s)); simpl; [by exists nc'|]. destruct (delay =? 0); simpl; [by exists nc'|].
    exists (ScheduleRetry delay nc'). split; [|done]. rewrite (alter_insert_at _ _ _ nc').
    + apply list_insert_insert_eq.
    + apply list_lookup_insert_eq. by eapply lookup_lt_Some.
Qed.

(** A stranger that was shown to the user, and whose connection closes. *)
Definition demo_stranger : Node :=
  match @env_step (demo_node_env (λ _, false) false)
          (EvServerConnection (Some "aa"%string) (Some "f1"%string))
          (node_start "server" kEebusTrustModePostTrust false []) with
  | Ret _ s => s
  | _ => node_start "server" kEebusTrustModePostTrust false []
  end.

Lemma keeps_result {A} R (m : Prog Node A) s :
  keeps Inv R m → Inv s → Inv (match m s with Ret _ s' => s' | _ => s end).
Proof. intros Hm Hs. specialize (Hm s Hs). unfold wp in Hm. destruct (m s); [apply Hm|done..]. Qed.

Lemma demo_stranger_inv : Inv demo_stranger.
Proof. eapply keeps_result; [apply keeps_env_step|apply node_start_inv]. Qed.

Lemma close_exact_witness :
  length (conns demo_stranger) = 1%nat ∧
  ∃ s', CloseSection 1 demo_stranger = Ret (Some (Some "aa"%string, true, 0)) s' ∧ conns s' = [].
Proof.
  split; [vm_compute; reflexivity|].
  destruct (close_exact demo_stranger 0 (default (NodeConnectionConstruct None) (head (conns demo_stranger)))
    1 demo_stranger_inv) as (s' & Hrun & _ & Hdel); [vm_compute; reflexivity..|].
  exists s'. split; [exact Hrun|]. exact Hdel.
Defined.

(** ** Where the order of events defeats the node *)

#[local] Instance demo_env : NodeEnv := demo_node_env (λ _, false) true.

Definition fingerprint_a : string :=
  "aaaaaaaaaaaaaaaaaaaaaaaaaaaaaaaaaaaaaaaaaaaaaaaaaaaaaaaaaaaaaaaa".
Definition fingerprint_b : string :=
  "bbbbbbbbbbbbbbbbbbbbbbbbbbbbbbbbbbbbbbbbbbbbbbbbbbbbbbbbbbbbbbbb".

(** The connection thread can report its end twice.  When the first report is
    served, the peer is connected to again at once, and the new connection may get
    the address of the deleted one: the second report then closes it. *)
Definition demo_stale_close : list NodeEv :=
  [ EvMdnsEntriesFound (Some [mkEntry (Some "id"%string) (Some "aa"%string)]);
    EvRegisterRemoteSki (Some "aa"%string) true; EvSent 1; EvYield; EvYield; EvYield;
    EvHandleConnectionClosed 1 true; EvHandleConnectionClosed 1 true; EvSent 1; EvSent 1 ].

Example stale_close_closes_new_connection :
  match ShipNodeConnectionLoop 3 (node_start "client" kEebusTrustModePreTrust false demo_stale_close) with
  | Ret _ s => omap (λ o, match o with ODelete sc => Some sc | _ => None end) (trace s)
  | _ => []
  end = [1%nat; 1%nat].
Proof. vm_compute. reflexivity. Qed.

(** The revocation of a replaced certificate is only queued.  If the certificate is
    accepted again before the queue is served, the peer is removed although its
    certificate is the one of the current pairing. *)
Definition demo_late_revocation : list NodeEv :=
  let pair id fp := [ EvRegisterRemoteFingerprint (Some fp);
                      EvRegisterPeerTrust (Some id) (Some fp) kPeerTrustFromPairingRequest ] in
  pair "a"%string fingerprint_a ++ pair "b"%string fingerprint_b ++
  pair "a"%string fingerprint_a ++ [EvSent 1; EvYield].

Example late_revocation_removes_current_peer :
  match ShipNodeConnectionLoop 1 (node_start "server" kEebusTrustModePreTrust true demo_late_revocation) with
  | Ret _ s => (remote_fingerprint (sn s), expected_fingerprint <$> conns s, msg_type <$> posting s)
  | _ => (None, [], [])
  end
  = (Some fingerprint_a, [Some fingerprint_b],
     [kShipNodeQueueMsgTypePromoteFingerprint; kShipNodeQueueMsgTypePromoteFingerprint;
      kShipNodeQueueMsgTypeRevokePairingFingerprint; kShipNodeQueueMsgTypePromoteFingerprint]).
Proof. vm_compute. reflexivity. Qed.

(** [CancelPairingWithSki] looks at the peer and removes it in two steps.  A peer
    that connects in between is removed with its connection, which nobody owns
    or deletes afterwards. *)
Definition demo_cancel_race : list NodeEv :=
  [ EvRegisterRemoteFingerprint (Some fingerprint_a);
    EvRegisterPeerTrust (Some "a"%string) (Some fingerprint_a) kPeerTrustFromPairingRequest;
    EvServerConnection (Some "aa"%string) (Some fingerprint_a);
    EvHandleConnectionClosed 1 false; EvSent 1; EvYield; EvYield; EvYield;
    EvRegisterRemoteFingerprint (Some fingerprint_b);
    EvCancelPairingWithSki (Some "aa"%string); EvSent 3; EvYield; EvYield;
    EvServerConnection (Some "aa"%string) (Some fingerprint_a) ].

Example cancel_race_leaks_connection :
  match ShipNodeConnectionLoop 2 (node_start "server" kEebusTrustModePreTrust true demo_cancel_race) with
  | Ret _ s => (elements (dom (live s)), conns s, head (trace s))
  | _ => ([], [], None)
  end
  = ([1%nat], [], Some (OServerConnection (Some "aa"%string) 0)).
Proof. vm_compute. reflexivity. Qed.

(** That a server connection did not start is not noticed: the peer counts as
    connected, its next connection is refused. *)
Example failed_start_keeps_peer_out :
  match (@env_step (demo_node_env (λ _, true) false) (EvServerConnection (Some "aa"%string) None);;
         @env_step (demo_node_env (λ _, true) false) (EvServerConnection (Some "aa"%string) None))
          (node_start "server" kEebusTrustModePostTrust false []) with
  | Ret _ s => trace s
  | _ => []
  end = [OServerConnection (Some "aa"%string) (-1); OServerConnection (Some "aa"%string) 0].
Proof. vm_compute. reflexivity. Qed.
