(* ===== verification/Spine.v ===== *)
(** * SPINE addresses and the device tree

    Feature and entity addresses ([src/spine/model/feature_types.c],
    [entity_types.c] and the comparison of [src/common/eebus_data]), features
    ([src/spine/feature/feature.c]), and the look-up of features in the local
    and in remote devices ([device_local.c], [device_remote.c],
    [entity_local.c], [entity_remote.c]).  A NULL pointer is [None]. *)

From S2P Require Import Prelude FeatureFunctions.

(** ** Addresses *)

Record FeatureAddressType := mkFeatureAddress {
  fa_device : option string;
  fa_entity : option (list (option Z));
  fa_feature : option Z;
}.

Record EntityAddressType := mkEntityAddress {
  ea_device : option string;
  ea_entity : option (list (option Z));
}.

#[export] Instance FeatureAddressType_eq_dec : EqDecision FeatureAddressType.
Proof. solve_decision. Defined.
#[export] Instance EntityAddressType_eq_dec : EqDecision EntityAddressType.
Proof. solve_decision. Defined.

(** The comparison of one field of a sequence: both NULL, or equal values. *)
Definition SimpleCompare {A} `{EqDecision A} (a b : option A) : bool :=
  match a, b with
  | Some x, Some y => bool_decide (x = y)
  | None, None => true
  | _, _ => false
  end.

(** [Compare] of [eebus_data_list.c]: the loop over the elements. *)
Fixpoint ListCompare_loop (a b : list (option Z)) : bool :=
  match a, b with
  | x :: a', y :: b' => if negb (SimpleCompare x y) then false else ListCompare_loop a' b'
  | _, _ => true
  end.
Definition ListCompare (a b : option (list (option Z))) : bool :=
  match a, b with
  | Some a, Some b =>
      if bool_decide (length a ≠ length b) then false else ListCompare_loop a b
  | None, None => true
  | _, _ => false
  end.

(** [EebusDataSequenceCompare] with the fields of [feature_address_cfg]. *)
Definition FeatureAddressCompare (a b : option FeatureAddressType) : bool :=
  match a, b with
  | Some a, Some b =>
      if negb (SimpleCompare (fa_device a) (fa_device b)) then false
      else if negb (ListCompare (fa_entity a) (fa_entity b)) then false
      else if negb (SimpleCompare (fa_feature a) (fa_feature b)) then false
      else true
  | None, None => true
  | _, _ => false
  end.

Definition EntityAddressCompare (a b : option EntityAddressType) : bool :=
  match a, b with
  | Some a, Some b =>
      if negb (SimpleCompare (ea_device a) (ea_device b)) then false
      else if negb (ListCompare (ea_entity a) (ea_entity b)) then false
      else true
  | None, None => true
  | _, _ => false
  end.

Definition FeatureAddressIsValid (a : option FeatureAddressType) : bool :=
  match a with
  | None => false
  | Some a => bool_decide (fa_feature a ≠ None) && bool_decide (fa_entity a ≠ None)
              && bool_decide (length (default [] (fa_entity a)) ≠ 0)
  end.

Definition FeatureAddressMatchDevice (a : option FeatureAddressType) (device : option string) : bool :=
  match a, device with
  | Some a, Some d =>
      match fa_device a with Some d' => bool_decide (d' = d) | None => false end
  | _, _ => false
  end.

Definition EntityAddressMatchIds (self : option EntityAddressType)
    (entity_ids : option (list (option Z))) : bool :=
  match self with
  | None => false
  | Some self =>
      if bool_decide (ea_entity self = None) || bool_decide (ea_entity self = Some []) then false
      else if bool_decide (entity_ids = None) || bool_decide (entity_ids = Some []) then false
      else EntityAddressCompare (Some (mkEntityAddress None (ea_entity self)))
             (Some (mkEntityAddress None entity_ids))
  end.

(** ** Features, entities, devices *)

Inductive RoleType := kRoleTypeClient | kRoleTypeServer | kRoleTypeSpecial.
#[export] Instance RoleType_eq_dec : EqDecision RoleType.
Proof. solve_decision. Defined.

(** [FeatureTypeType] is an [int32_t]. *)

(** The fields of [Feature] the look-ups use.  Its address is never NULL. *)
Record Feature := mkFeature {
  address : FeatureAddressType;
  feature_role : RoleType;
  feature_type : Z;
}.

Record Entity := mkEntity {
  entity_address : EntityAddressType;
  features : list Feature;
}.

Record DeviceLocal := mkDeviceLocal {
  dl_address : option string;
  dl_entities : list Entity;
}.

Record DeviceRemote := mkDeviceRemote {
  dr_ski : string;
  dr_address : option string;
  dr_entities : list Entity;
}.

(** A remote feature knows its device and its entity. *)
Record FeatureRemote := mkFeatureRemote {
  fr_feature : Feature;
  fr_entity : EntityAddressType;
  fr_ski : string;
}.

Definition FeatureParametersMatch (feature : option Feature) (role : RoleType) (type : Z) : bool :=
  match feature with
  | None => false
  | Some f =>
      if bool_decide (feature_role f ≠ kRoleTypeSpecial) && bool_decide (feature_role f ≠ role)
      then false
      else if bool_decide (feature_type f ≠ kFeatureTypeTypeGeneric)
              && bool_decide (feature_type f ≠ type)%Z then false
      else true
  end.

(** [GetFeatureWithId] of local and remote entities. *)
Fixpoint GetFeatureWithId_loop (id : Z) (fs : list Feature) : option Feature :=
  match fs with
  | [] => None
  | f :: fs' =>
      match fa_feature (address f) with
      | Some i => if bool_decide (i = id)%Z then Some f else GetFeatureWithId_loop id fs'
      | None => GetFeatureWithId_loop id fs'
      end
  end.
Definition GetFeatureWithId (e : Entity) (feature_id : option Z) : option Feature :=
  match feature_id with None => None | Some id => GetFeatureWithId_loop id (features e) end.

(** [GetFeatureWithTypeAndRole] of local and remote entities. *)
Fixpoint GetFeatureWithTypeAndRole (fs : list Feature) (type : Z) (role : RoleType) : option Feature :=
  match fs with
  | [] => None
  | f :: fs' =>
      if bool_decide (feature_type f = type)%Z && bool_decide (feature_role f = role) then Some f
      else GetFeatureWithTypeAndRole fs' type role
  end.

(** The loop of [GetEntity] of both kinds of device. *)
Fixpoint GetEntity_loop (ids : option (list (option Z))) (es : list Entity) : option Entity :=
  match es with
  | [] => None
  | e :: es' =>
      if EntityAddressMatchIds (Some (entity_address e)) ids then Some e else GetEntity_loop ids es'
  end.

Definition DeviceLocalGetEntity (dl : DeviceLocal) (ids : option (list (option Z))) : option Entity :=
  if bool_decide (ids = None) || bool_decide (ids = Some []) then None
  else GetEntity_loop ids (dl_entities dl).

Definition DeviceRemoteGetEntity (dr : DeviceRemote) (ids : option (list (option Z)))
    : option Entity :=
  GetEntity_loop ids (dr_entities dr).

(** [GetFeatureWithAddress] of [device_local.c] *)
Definition DeviceLocalGetFeatureWithAddress (dl : DeviceLocal) (a : option FeatureAddressType)
    : option Feature :=
  match dl_address dl, a with
  | Some self, Some a =>
      let foreign := match fa_device a with Some d => bool_decide (d ≠ self) | None => false end in
      if foreign then None
      else
        match DeviceLocalGetEntity dl (fa_entity a) with
        | None => None
        | Some e => GetFeatureWithId e (fa_feature a)
        end
  | _, _ => None
  end.

(** [GetFeatureWithAddress] of [device_remote.c]; the address is dereferenced. *)
Definition remote_feature (dr : DeviceRemote) (a : FeatureAddressType) : option FeatureRemote :=
  match DeviceRemoteGetEntity dr (fa_entity a) with
  | None => None
  | Some e =>
      (λ f, mkFeatureRemote f (entity_address e) (dr_ski dr)) <$> GetFeatureWithId e (fa_feature a)
  end.
Definition DeviceRemoteGetFeatureWithAddress {S} (dr : DeviceRemote) (a : option FeatureAddressType)
    : Prog S (option FeatureRemote) :=
  match a with
  | None => crash "NULL feature address"
  | Some a => mret (remote_feature dr a)
  end.

(** An absent device is the given one. *)
Definition with_device (a : FeatureAddressType) (device : option string) : FeatureAddressType :=
  match fa_device a with
  | None => mkFeatureAddress device (fa_entity a) (fa_feature a)
  | Some _ => a
  end.

(** ** Comparison is equality *)

Lemma SimpleCompare_eq {A} `{EqDecision A} (a b : option A) : SimpleCompare a b = bool_decide (a = b).
Proof.
  destruct a as [a|], b as [b|]; try done. simpl. apply bool_decide_ext. naive_solver.
Qed.

Lemma ListCompare_loop_eq (a : list (option Z)) : ∀ b, length a = length b →
  ListCompare_loop a b = bool_decide (a = b).
Proof.
  induction a as [|x a IH]; intros [|y b] Hl; try done. simpl. rewrite SimpleCompare_eq.
  case_bool_decide as Hxy; simpl.
  - rewrite IH by (simpl in Hl; lia). apply bool_decide_ext. naive_solver.
  - symmetry. apply bool_decide_eq_false. naive_solver.
Qed.

Lemma ListCompare_eq (a b : option (list (option Z))) : ListCompare a b = bool_decide (a = b).
Proof.
  destruct a as [a|], b as [b|]; try done. simpl. case_bool_decide as Hl.
  - symmetry. apply bool_decide_eq_false. by intros [= ->].
  - rewrite ListCompare_loop_eq by done. apply bool_decide_ext. naive_solver.
Qed.

(** The generic comparison of addresses is equality, NULL fields included. *)
Lemma FeatureAddressCompare_eq a b : FeatureAddressCompare a b = bool_decide (a = b).
Proof.
  destruct a as [[d e f]|], b as [[d' e' f']|]; try done. simpl.
  rewrite !SimpleCompare_eq, ListCompare_eq.
  repeat case_bool_decide; simplify_eq; try done; naive_solver.
Qed.

Lemma EntityAddressCompare_eq a b : EntityAddressCompare a b = bool_decide (a = b).
Proof.
  destruct a as [[d e]|], b as [[d' e']|]; try done. simpl.
  rewrite !SimpleCompare_eq, ListCompare_eq.
  repeat case_bool_decide; simplify_eq; try done; naive_solver.
Qed.

#[export] Hint Rewrite @SimpleCompare_eq ListCompare_eq FeatureAddressCompare_eq
  EntityAddressCompare_eq : eebus.

(** A local feature found by an address lies under the device's own address. *)
Lemma DeviceLocalGetFeature_device dl a f :
  DeviceLocalGetFeatureWithAddress dl (Some a) = Some f →
  fa_device a = None ∨ fa_device a = dl_address dl.
Proof.
  unfold DeviceLocalGetFeatureWithAddress. destruct (dl_address dl) as [self|]; [|done].
  destruct (fa_device a) as [d|]; [|by left]. case_bool_decide as Hd; [done|].
  intros _. right. by f_equal.
Qed.

(** ** Well-formed devices *)

(** Every feature lies under the address of its entity and of its device. *)
Definition device_wf (device : option string) (es : list Entity) : Prop :=
  ∀ e f, e ∈ es → f ∈ features e →
    fa_device (address f) = device ∧ fa_entity (address f) = ea_entity (entity_address e).

Lemma GetFeatureWithId_spec e id f : GetFeatureWithId e id = Some f →
  f ∈ features e ∧ id ≠ None ∧ fa_feature (address f) = id.
Proof.
  unfold GetFeatureWithId. destruct id as [id|]; [|done].
  induction (features e) as [|f' fs IH]; simpl; [done|].
  destruct (fa_feature (address f')) as [i|] eqn:Hi.
  - case_bool_decide as Hid.
    + intros [= ->]. split_and!; [apply list_elem_of_here|done|congruence].
    + intros (Hin & ? & ?)%IH. split_and!; [by apply list_elem_of_further|done..].
  - intros (Hin & ? & ?)%IH. split_and!; [by apply list_elem_of_further|done..].
Qed.

Lemma EntityAddressMatchIds_spec ea ids : EntityAddressMatchIds (Some ea) ids = true →
  ea_entity ea = ids.
Proof.
  unfold EntityAddressMatchIds. case_match; [done|]. case_match; [done|].
  rewrite EntityAddressCompare_eq, bool_decide_eq_true. by intros [= ->].
Qed.

Lemma GetEntity_loop_spec ids es e : GetEntity_loop ids es = Some e →
  e ∈ es ∧ ea_entity (entity_address e) = ids.
Proof.
  induction es as [|e' es IH]; cbn [GetEntity_loop]; [done|].
  destruct (EntityAddressMatchIds (Some (entity_address e')) ids) eqn:E.
  - intros [= ->]. split; [apply list_elem_of_here|by apply EntityAddressMatchIds_spec].
  - intros [Hin Hids]%IH. split; [by apply list_elem_of_further|done].
Qed.

(** In a well-formed device, the feature found has the address, completed with the device. *)
Lemma DeviceLocalGetFeature_address dl a f :
  device_wf (dl_address dl) (dl_entities dl) →
  DeviceLocalGetFeatureWithAddress dl (Some a) = Some f → address f = with_device a (dl_address dl).
Proof.
  intros Hwf Hf. pose proof (DeviceLocalGetFeature_device _ _ _ Hf) as Hd.
  unfold DeviceLocalGetFeatureWithAddress in Hf. destruct (dl_address dl) as [self|] eqn:Hself; [|done].
  destruct (match fa_device a with Some d => bool_decide (d ≠ self) | None => false end); [done|].
  destruct (DeviceLocalGetEntity dl (fa_entity a)) as [e|] eqn:He; [|done].
  unfold DeviceLocalGetEntity in He. case_match; [done|].
  apply GetEntity_loop_spec in He as [Hin Hids].
  apply GetFeatureWithId_spec in Hf as (Hfin & _ & Hid).
  destruct (Hwf e f Hin Hfin) as [H1 H2]. destruct (address f) as [d en fe], a as [d' en' fe'].
  unfold with_device. simpl in *. destruct Hd as [->| ->]; congruence.
Qed.

Lemma remote_feature_address dr a f :
  device_wf (dr_address dr) (dr_entities dr) → fa_device a = dr_address dr →
  remote_feature dr a = Some f → address (fr_feature f) = a.
Proof.
  intros Hwf Hdev Hf. unfold remote_feature, DeviceRemoteGetEntity in Hf.
  destruct (GetEntity_loop (fa_entity a) (dr_entities dr)) as [e|] eqn:He; [|done].
  apply GetEntity_loop_spec in He as [Hin Hids].
  destruct (GetFeatureWithId e (fa_feature a)) as [f'|] eqn:Hf'; [|done]. injection Hf as <-.
  apply GetFeatureWithId_spec in Hf' as (Hfin & _ & Hid).
  destruct (Hwf e f' Hin Hfin) as [H1 H2]. simpl.
  destruct (address f') as [d en fe], a as [d' en' fe']. simpl in *. congruence.
Qed.
