(* ===== verification/FeatureLink.v ===== *)
(** * Feature links and their container

    [src/spine/feature_link/feature_link.c] and [feature_link_container.c]: a link
    joins a local server feature and a remote client feature under a number; a
    container owns its links.  What the code publishes or sends while it works
    on a container goes to the pool's log ([SpineEvent], newest first).  The
    feature pointers of a link may be NULL; using one that is is a [Crash]. *)

From S2P Require Import Prelude Vector Pool Spine.

Record FeatureLink := mkLink {
  link_id : Z;
  server_feature : option Feature;
  client_feature : option FeatureRemote;
}.

Inductive ElementChange := kElementChangeAdd | kElementChangeUpdate | kElementChangeRemove.
Inductive EventType :=
| kEventTypeDeviceChange
| kEventTypeEntityChange
| kEventTypeSubscriptionChange
| kEventTypeBindingChange
| kEventTypeDataChange
| kEventTypeUseCaseChange.

(** [EVENTS_PUBLISH] with the fields of its payload that differ, and [SEND_NOTIFY]. *)
Inductive SpineEvent :=
| EventPublish (event_type : EventType) (change : ElementChange) (ski : string)
    (entity : EntityAddressType) (feature : option Feature) (local_feature : option Feature)
| SendNotify (ski : string) (sender_addr dest_addr : FeatureAddressType).

Section feature_link.
Context {V : Type → Type} `{VectorInterface V}.
Abbreviation FeatureLinkContainer := (Pool (V := V) FeatureLink SpineEvent).

Definition FeatureLinkGetServerAddr {S} (l : FeatureLink) : Prog S FeatureAddressType :=
  match server_feature l with Some f => mret (address f) | None => crash "NULL server feature" end.
Definition FeatureLinkGetClientAddr {S} (l : FeatureLink) : Prog S FeatureAddressType :=
  match client_feature l with
  | Some f => mret (address (fr_feature f))
  | None => crash "NULL client feature"
  end.

Definition FeatureLinkRemoteDeviceMatch {S} (l : FeatureLink) (ski : string) : Prog S bool :=
  match client_feature l with
  | Some f => mret (bool_decide (fr_ski f = ski))
  | None => crash "NULL client feature"
  end.

Definition FeatureLinkRemoteEntityMatch {S} (l : FeatureLink) (entity : EntityAddressType)
    : Prog S bool :=
  client_addr ← FeatureLinkGetClientAddr l;
  mret (EntityAddressCompare (Some entity)
          (Some (mkEntityAddress (fa_device client_addr) (fa_entity client_addr)))).

Definition FeatureLinkContainerConstruct : FeatureLinkContainer := pool_empty.

(** [FeatureLinkCreate] and [VectorPushBack] *)
Definition FeatureLinkContainerAdd (id : Z) (server : option Feature) (client : option FeatureRemote)
    : Prog FeatureLinkContainer unit := pool_add (mkLink id server client).

Definition FeatureLinkContainerFind (server_address client_address : option FeatureAddressType)
    : Prog FeatureLinkContainer (option ptr) :=
  for_each (λ x,
    link ← pool_load x;
    server ← FeatureLinkGetServerAddr link;
    if negb (FeatureAddressCompare server_address (Some server)) then mret None
    else
      client ← FeatureLinkGetClientAddr link;
      mret (if FeatureAddressCompare client_address (Some client) then Some x else None)).

Definition FeatureLinkContainerRemove (x : ptr) : Prog FeatureLinkContainer unit := pool_drop x.

Definition FeatureLinkContainerHasServer (server_address : option FeatureAddressType)
    : Prog FeatureLinkContainer bool :=
  r ← for_each (λ x,
    link ← pool_load x;
    server ← FeatureLinkGetServerAddr link;
    mret (if FeatureAddressCompare server_address (Some server) then Some true else None));
  mret (default false r).

(** The count of [FeatureLinkContainerGetRemoteDeviceMatchNum], [n] rounds from [i]. *)
Fixpoint match_num (ski : string) (n i count : nat) : Prog FeatureLinkContainer nat :=
  match n with
  | 0 => mret count
  | S n' =>
      x ← pool_elem i;
      link ← pool_load x;
      b ← FeatureLinkRemoteDeviceMatch link ski;
      match_num ski n' (S i) (if (b : bool) then S count else count)
  end.
Definition FeatureLinkContainerGetRemoteDeviceMatchNum (ski : string)
    : Prog FeatureLinkContainer nat :=
  n ← pool_size; match_num ski n 0 0.

(** ** Specifications *)

(** A link whose two features are there, as all links of well-formed requests. *)
Definition link_ok (l : FeatureLink) : Prop :=
  is_Some (server_feature l) ∧ is_Some (client_feature l).
Definition server_addr (l : FeatureLink) : option FeatureAddressType := address <$> server_feature l.
Definition client_addr (l : FeatureLink) : option FeatureAddressType :=
  (λ f, address (fr_feature f)) <$> client_feature l.
Definition client_ski (l : FeatureLink) : option string := fr_ski <$> client_feature l.

Definition joins (sa ca : option FeatureAddressType) (l : FeatureLink) : bool :=
  bool_decide (sa = server_addr l) && bool_decide (ca = client_addr l).

(** A container of well-formed links. *)
Definition links (p : FeatureLinkContainer) (ls : list FeatureLink) : Prop :=
  pool_list p ls ∧ Forall link_ok ls.

Lemma find_body_eq sa ca x (p : FeatureLinkContainer) l :
  heap p !! x = Some l → link_ok l →
  (link ← pool_load x;
   server ← FeatureLinkGetServerAddr link;
   if negb (FeatureAddressCompare sa (Some server)) then mret None
   else
     client ← FeatureLinkGetClientAddr link;
     mret (if FeatureAddressCompare ca (Some client) then Some x else None)) p
  = Ret (if joins sa ca l then Some x else None) p.
Proof.
  intros Hx [[s Hs] [c Hc]]. unfold joins, server_addr, client_addr.
  unfold FeatureLinkGetServerAddr, FeatureLinkGetClientAddr, mbind, Prog_bind.
  rewrite (pool_load_at _ _ _ Hx), Hs, Hc. unfold mret, Prog_ret. simpl.
  autorewrite with eebus. case_bool_decide; [|done]. simpl. by autorewrite with eebus.
Qed.

Lemma Find_none sa ca p ls : links p ls → Forall (λ l, joins sa ca l = false) ls →
  FeatureLinkContainerFind sa ca p = Ret None p.
Proof.
  intros [Hp Hok] Hno. apply (for_each_pass _ _ _ Hp). intros x l Hl Hx.
  rewrite Forall_forall in Hok, Hno. rewrite (find_body_eq _ _ _ _ _ Hx (Hok l Hl)).
  by rewrite (Hno l Hl).
Qed.

Lemma Find_some sa ca p ps1 x ps2 ls1 l ls2 :
  pool_at p (ps1 ++ x :: ps2) (ls1 ++ l :: ls2) → length ps1 = length ls1 →
  Forall link_ok (ls1 ++ l :: ls2) →
  Forall (λ l, joins sa ca l = false) ls1 → joins sa ca l = true →
  FeatureLinkContainerFind sa ca p = Ret (Some x) p.
Proof.
  intros Hp Hlen Hok Hno Hyes. eapply for_each_stop; [exact Hp|exact Hlen| |].
  - intros y b Hb Hy. rewrite Forall_app, Forall_forall in Hok. rewrite Forall_forall in Hno.
    rewrite (find_body_eq _ _ _ _ _ Hy) by (by apply Hok). by rewrite (Hno b Hb).
  - destruct (pool_split _ _ _ _ _ Hp) as (qs1 & y & qs2 & Eps & Hq & Hy & _ & _).
    apply app_inj_1 in Eps as [<- Eps]; [|congruence]. injection Eps as <- <-.
    apply Forall_app in Hok as [_ Hok]. apply Forall_cons in Hok as [Hok _].
    by rewrite (find_body_eq _ _ _ _ _ Hy Hok), Hyes.
Qed.

(** A list either has no link that passes a test, or a first one. *)
Lemma first_link (f : FeatureLink → bool) ls :
  Forall (λ l, f l = false) ls ∨
  ∃ ls1 l ls2, ls = ls1 ++ l :: ls2 ∧ Forall (λ l, f l = false) ls1 ∧ f l = true.
Proof.
  induction ls as [|l ls IH]; [by left|]. destruct (f l) eqn:E.
  - right. by exists [], l, ls.
  - destruct IH as [IH|(ls1 & l' & ls2 & -> & IH & E')]; [left; by constructor|right].
    exists (l :: ls1), l', ls2. split_and!; [done|by constructor|done].
Qed.

Lemma existsb_first (f : FeatureLink → bool) ls1 l ls2 :
  f l = true → existsb f (ls1 ++ l :: ls2) = true.
Proof. intros Hl. apply existsb_exists. exists l. split; [|done]. apply in_or_app. right. by left. Qed.

Lemma existsb_none (f : FeatureLink → bool) ls : Forall (λ l, f l = false) ls → existsb f ls = false.
Proof. induction 1 as [|l ls Hl _ IH]; simpl; [done|]. by rewrite Hl. Qed.

(** The list without its first link that passes a test, if there is one. *)
Fixpoint without_first (f : FeatureLink → bool) (ls : list FeatureLink) : option (list FeatureLink) :=
  match ls with
  | [] => None
  | l :: ls' => if f l then Some ls' else cons l <$> without_first f ls'
  end.

Lemma without_first_none f ls : Forall (λ l, f l = false) ls → without_first f ls = None.
Proof. induction 1 as [|l ls Hl _ IH]; simpl; [done|]. by rewrite Hl, IH. Qed.

Lemma without_first_some f ls1 l ls2 : Forall (λ l, f l = false) ls1 → f l = true →
  without_first f (ls1 ++ l :: ls2) = Some (ls1 ++ ls2).
Proof. intros H1 Hl. induction H1 as [|l' ls1 Hl' _ IH]; simpl; [by rewrite Hl|]. by rewrite Hl', IH. Qed.

Lemma without_first_sublist f ls ls' : without_first f ls = Some ls' → ls' `sublist_of` ls.
Proof.
  revert ls'. induction ls as [|l ls IH]; intros ls'; simpl; [done|].
  destruct (f l); [intros [= <-]; by constructor|].
  destruct (without_first f ls) as [ls1|]; [|done]. intros [= <-]. constructor. by apply IH.
Qed.

Lemma nodup_sublist {K} (key : FeatureLink → K) ls ls' :
  ls' `sublist_of` ls → NoDup (key <$> ls) → NoDup (key <$> ls').
Proof.
  induction 1 as [|l ls' ls Hsub IH|l ls' ls Hsub IH]; simpl; [done|..];
    rewrite NoDup_cons; intros [Hnin Hnd]; [|by apply IH].
  apply NoDup_cons. split; [|by apply IH]. intros Hin. apply Hnin.
  apply list_elem_of_fmap in Hin as (x & -> & Hin). apply list_elem_of_fmap_2.
  by eapply elem_of_sublist.
Qed.

(** [FeatureLinkContainerFind] and [FeatureLinkContainerRemove] of what it finds. *)
Lemma Find_Remove_spec sa ca p ls : links p ls →
  match without_first (joins sa ca) ls with
  | None => FeatureLinkContainerFind sa ca p = Ret None p
  | Some ls' => ∃ x p', FeatureLinkContainerFind sa ca p = Ret (Some x) p ∧
      FeatureLinkContainerRemove x p = Ret tt p' ∧ links p' ls' ∧ log p' = log p
  end.
Proof.
  intros Hl. destruct (first_link (joins sa ca) ls) as [Hno|(ls1 & l & ls2 & -> & Hno & Hyes)].
  - rewrite without_first_none by done. by apply Find_none with ls.
  - rewrite without_first_some by done. destruct Hl as [[ps Hp] Hok].
    destruct (pool_split _ _ _ _ _ Hp) as (ps1 & x & ps2 & -> & Hq & _ & _ & _).
    destruct (pool_drop_at _ _ _ _ _ _ _ Hp Hq) as [Hd Hp'].
    eexists x, _. rewrite (Find_some _ _ _ _ _ _ _ _ _ Hp Hq Hok Hno Hyes).
    split_and!; [done|exact Hd| |done]. split; [by eexists|].
    apply Forall_app in Hok as [Hok1 Hok2]. apply Forall_cons in Hok2 as [_ Hok2].
    by apply Forall_app.
Qed.

Lemma Find_spec sa ca p ls : links p ls →
  ∃ r, FeatureLinkContainerFind sa ca p = Ret r p ∧
    bool_decide (is_Some r) = existsb (joins sa ca) ls.
Proof.
  intros Hl. destruct (first_link (joins sa ca) ls) as [Hno|(ls1 & l & ls2 & -> & Hno & Hyes)].
  - exists None. rewrite (Find_none _ _ _ _ Hl Hno). by rewrite existsb_none.
  - destruct Hl as [[ps Hp] Hok].
    destruct (pool_split _ _ _ _ _ Hp) as (ps1 & x & ps2 & -> & Hq & _ & _ & _).
    exists (Some x). rewrite (Find_some _ _ _ _ _ _ _ _ _ Hp Hq Hok Hno Hyes).
    by rewrite existsb_first.
Qed.

Lemma HasServer_spec sa p ls : links p ls →
  FeatureLinkContainerHasServer sa p = Ret (existsb (λ l, bool_decide (sa = server_addr l)) ls) p.
Proof.
  intros [Hp Hok].
  assert (∀ x l, heap p !! x = Some l → link_ok l →
    (link ← pool_load x; server ← FeatureLinkGetServerAddr link;
     mret (if FeatureAddressCompare sa (Some server) then Some true else None)) p
    = Ret (if bool_decide (sa = server_addr l) then Some true else None) p) as Hbody.
  { intros x l Hx [[s Hs] _]. unfold server_addr, FeatureLinkGetServerAddr, mbind, Prog_bind.
    rewrite (pool_load_at _ _ _ Hx), Hs. unfold mret, Prog_ret. simpl. by autorewrite with eebus. }
  unfold FeatureLinkContainerHasServer, mbind at 1, Prog_bind at 1.
  destruct (first_link (λ l, bool_decide (sa = server_addr l)) ls)
    as [Hno|(ls1 & l & ls2 & -> & Hno & Hyes)].
  - rewrite existsb_none by done. rewrite (for_each_pass _ _ _ Hp); [done|]. intros x l Hl Hx.
    rewrite Forall_forall in Hok, Hno. by rewrite (Hbody x l Hx (Hok l Hl)), (Hno l Hl).
  - rewrite existsb_first by done. destruct Hp as [ps Hp].
    destruct (pool_split _ _ _ _ _ Hp) as (ps1 & x & ps2 & -> & Hq & Hx & _ & _).
    apply Forall_app in Hok as [Hok1 Hok]. apply Forall_cons in Hok as [Hok _].
    rewrite (for_each_stop _ _ _ _ _ _ _ _ true p Hp Hq); [done| |by rewrite (Hbody x l Hx Hok), Hyes].
    intros y b Hb Hy. rewrite Forall_forall in Hok1, Hno.
    by rewrite (Hbody y b Hy (Hok1 b Hb)), (Hno b Hb).
Qed.

Lemma Add_spec id s c p ls : links p ls → (Z.of_nat (length ls) < num_elements_max)%Z →
  is_Some s → is_Some c →
  ∃ p', FeatureLinkContainerAdd id s c p = Ret tt p' ∧ links p' (ls ++ [mkLink id s c]) ∧
    log p' = log p.
Proof.
  intros [Hp Hok] Hmax Hs Hc. destruct (pool_add_list p ls (mkLink id s c) Hp Hmax) as (p' & H1 & H2 & H3).
  exists p'. split_and!; [done| |done]. split; [done|]. apply Forall_app. split; [done|].
  by repeat constructor.
Qed.

(** The links of a device, by SKI. *)
Definition of_device (ski : string) (l : FeatureLink) : bool := bool_decide (client_ski l = Some ski).

Lemma RemoteDeviceMatch_spec {S} l ski (s : S) : link_ok l →
  FeatureLinkRemoteDeviceMatch l ski s = Ret (of_device ski l) s.
Proof.
  intros [_ [c Hc]]. unfold FeatureLinkRemoteDeviceMatch, of_device, client_ski. rewrite Hc.
  simpl. unfold mret, Prog_ret. f_equal. apply bool_decide_ext. naive_solver.
Qed.

Definition device_links (ski : string) (ls : list FeatureLink) : list FeatureLink :=
  filter (λ l, of_device ski l = true) ls.

Lemma match_num_spec ski p ls ps : pool_at p ps ls → Forall link_ok ls →
  ∀ ls2 ls1 count, ls = ls1 ++ ls2 →
  match_num ski (length ls2) (length ls1) count p
  = Ret (count + length (device_links ski ls2)) p.
Proof.
  intros Hp Hok. induction ls2 as [|l ls2 IH]; intros ls1 count ->; cbn [match_num length];
    [unfold mret, Prog_ret; by rewrite Nat.add_0_r|].
  destruct (pool_split _ _ _ _ _ Hp) as (ps1 & x & ps2 & -> & Hq & Hx & _ & _).
  unfold mbind, Prog_bind. pose proof (pool_elem_at _ _ _ _ _ Hp) as He. rewrite Hq in He.
  rewrite He, (pool_load_at _ _ _ Hx).
  assert (link_ok l) as Hl by (rewrite Forall_forall in Hok; apply Hok; set_solver).
  rewrite (RemoteDeviceMatch_spec _ _ _ Hl).
  specialize (IH (ls1 ++ [l]) (if of_device ski l then S count else count)).
  rewrite length_app, Nat.add_1_r in IH. rewrite IH by (by rewrite <- app_assoc).
  f_equal. unfold device_links. rewrite filter_cons. destruct (of_device ski l); simpl; lia.
Qed.

Lemma MatchNum_spec ski p ls : links p ls →
  FeatureLinkContainerGetRemoteDeviceMatchNum ski p = Ret (length (device_links ski ls)) p.
Proof.
  intros [[ps Hp] Hok]. unfold FeatureLinkContainerGetRemoteDeviceMatchNum, mbind, Prog_bind.
  rewrite (pool_size_at _ _ _ Hp). by apply (match_num_spec _ _ _ _ Hp Hok ls [] 0).
Qed.
End feature_link.
