(* ===== verification/LinkManager.v ===== *)
(** * What the binding and the subscription manager share

    [binding_manager.c] and [subscription_manager.c] keep the same state and
    repeat the same code for removal and for the answer to a read request; the
    definitions here take the event type that differs.  The specifications are
    about the list of links of the manager. *)

From S2P Require Import Prelude Vector Pool Spine FeatureLink.

(** [BindingManagementRequestCallType], [SubscriptionManagementRequestCallType] *)
Record RequestCall := mkRequestCall {
  rq_client_address : option FeatureAddressType;
  rq_server_address : option FeatureAddressType;
  rq_server_feature_type : option Z;
}.
(** [BindingManagementDeleteCallType], [SubscriptionManagementDeleteCallType] *)
Record DeleteCall := mkDeleteCall {
  del_client_address : option FeatureAddressType;
  del_server_address : option FeatureAddressType;
}.
(** [BindingManagementEntryDataType], [SubscriptionManagementEntryDataType] *)
Record EntryData := mkEntryData {
  entry_id : Z;
  entry_server_address : FeatureAddressType;
  entry_client_address : FeatureAddressType;
}.

Section link_manager.
Context {V : Type → Type} `{VectorInterface V}.
Abbreviation FeatureLinkContainer := (Pool (V := V) FeatureLink SpineEvent).

(** [BindingManager], [SubscriptionManager] *)
Record LinkManager := mkLinkManager {
  local_device : DeviceLocal;
  link_num : Z;
  entries : FeatureLinkContainer;
}.

Definition on_entries {A} (m : Prog FeatureLinkContainer A) : Prog LinkManager A := λ s,
  match m (entries s) with
  | Ret a p => Ret a (mkLinkManager (local_device s) (link_num s) p)
  | Block p => Block (mkLinkManager (local_device s) (link_num s) p)
  | Crash why => Crash why
  end.

Definition LinkManagerConstruct (dl : DeviceLocal) : LinkManager :=
  mkLinkManager dl 0 FeatureLinkContainerConstruct.

(** [self->num++] on a [uint64_t] *)
Definition GetNextLinkId : Prog LinkManager Z := λ s,
  Ret (link_num s) (mkLinkManager (local_device s) (u64 (link_num s + 1)) (entries s)).

Definition deref_address {S} (a : option FeatureAddressType) : Prog S FeatureAddressType :=
  match a with Some a => mret a | None => crash "NULL feature address" end.

(** The addition of a link for a request: [duplicate] is the check that differs. *)
Definition AddLink (ev : EventType) (duplicate : Prog FeatureLinkContainer bool)
    (dr : DeviceRemote) (data : RequestCall) : Prog LinkManager EebusError :=
  s ← get;
  let server_feature := DeviceLocalGetFeatureWithAddress (local_device s) (rq_server_address data) in
  client_feature ← DeviceRemoteGetFeatureWithAddress dr (rq_client_address data);
  let matches :=
    match rq_server_feature_type data with
    | None => true
    | Some type =>
        if negb (FeatureParametersMatch server_feature kRoleTypeServer type) then false
        else if negb (FeatureParametersMatch (fr_feature <$> client_feature) kRoleTypeClient type)
        then false
        else true
    end in
  if negb matches then mret kEebusErrorNoChange
  else
    exists_already ← on_entries duplicate;
    if (exists_already : bool) then mret kEebusErrorNoChange
    else
      id ← GetNextLinkId;
      on_entries (FeatureLinkContainerAdd id server_feature client_feature);;
      match client_feature with
      | None => crash "NULL client feature"
      | Some cf =>
          on_entries (pool_log (EventPublish ev kElementChangeAdd (dr_ski dr) (fr_entity cf)
                                  (Some (fr_feature cf)) server_feature));;
          mret kEebusErrorOk
      end.

(** The removal of the link a delete call names: [acceptable] is the check on the
    server feature that differs. *)
Definition RemoveLink (ev : EventType) (acceptable : Feature → bool)
    (dr : DeviceRemote) (data : DeleteCall) : Prog LinkManager EebusError :=
  s ← get;
  client_address ← deref_address (del_client_address data);
  let client_addr := with_device client_address (dr_address dr) in
  server_address ← deref_address (del_server_address data);
  let server_addr := with_device server_address (dl_address (local_device s)) in
  client_feature ← DeviceRemoteGetFeatureWithAddress dr (Some client_addr);
  match client_feature with
  | None => mret kEebusErrorInputArgumentNull
  | Some cf =>
      match DeviceLocalGetFeatureWithAddress (local_device s) (Some server_addr) with
      | None => mret kEebusErrorNoChange
      | Some sf =>
          if negb (acceptable sf) then mret kEebusErrorNoChange
          else
            link ← on_entries (FeatureLinkContainerFind (Some server_addr) (Some client_addr));
            match link with
            | None => mret kEebusErrorNoChange
            | Some x =>
                on_entries (FeatureLinkContainerRemove x);;
                on_entries (pool_log (EventPublish ev kElementChangeRemove (dr_ski dr)
                                        (fr_entity cf) (Some (fr_feature cf)) (Some sf)));;
                mret kEebusErrorOk
            end
      end
  end.

(** [EVENTS_PUBLISH] for the removal of a link of a remote entity *)
Definition publish_removed (ev : EventType) (dr : DeviceRemote) (entity : Entity)
    (dl : DeviceLocal) (link : FeatureLink) : Prog FeatureLinkContainer unit :=
  server_addr ← FeatureLinkGetServerAddr link;
  client_addr ← FeatureLinkGetClientAddr link;
  pool_log (EventPublish ev kElementChangeRemove (dr_ski dr) (entity_address entity)
              (GetFeatureWithId entity (fa_feature client_addr))
              (DeviceLocalGetFeatureWithAddress dl (Some server_addr))).

Definition RemoveEntityLinks (ev : EventType) (remote_entity : option (DeviceRemote * Entity))
    : Prog LinkManager unit :=
  match remote_entity with
  | None => mret tt
  | Some (dr, entity) =>
      s ← get;
      on_entries (for_each_removing (λ x,
        link ← pool_load x;
        b ← FeatureLinkRemoteEntityMatch link (entity_address entity);
        if (b : bool) then
          publish_removed ev dr entity (local_device s) link;;
          FeatureLinkContainerRemove x;;
          mret true
        else mret false))
  end.

(** The loop over [DEVICE_REMOTE_GET_ENTITIES]. *)
Fixpoint RemoveEntitiesLinks (ev : EventType) (dr : DeviceRemote) (es : list Entity)
    : Prog LinkManager unit :=
  match es with
  | [] => mret tt
  | e :: es' => RemoveEntityLinks ev (Some (dr, e));; RemoveEntitiesLinks ev dr es'
  end.
Definition RemoveDeviceLinks (ev : EventType) (remote_device : option DeviceRemote)
    : Prog LinkManager unit :=
  match remote_device with
  | None => mret tt
  | Some dr => RemoveEntitiesLinks ev dr (dr_entities dr)
  end.

Definition CreateEntryData {S} (link : FeatureLink) : Prog S EntryData :=
  server_addr ← FeatureLinkGetServerAddr link;
  client_addr ← FeatureLinkGetClientAddr link;
  mret (mkEntryData (link_id link) server_addr client_addr).

(** The loop of [AddBindingEntries] and [AddSubscriptionEntries] over the
    elements [i ..]: [buf] is the array allocated for the device's links ([None] where
    nothing was written yet), [size] the count written to the message. *)
Fixpoint AddEntries_loop (ski : string) (n i : nat) (buf : list (option EntryData)) (size : nat)
    : Prog FeatureLinkContainer (list (option EntryData) * nat) :=
  match n with
  | 0 => mret (buf, size)
  | S n' =>
      x ← pool_elem i;
      link ← pool_load x;
      b ← FeatureLinkRemoteDeviceMatch link ski;
      if (b : bool) then
        e ← CreateEntryData link;
        if bool_decide (i < length buf)
        then AddEntries_loop ski n' (S i) (<[i := Some e]> buf) (S size)
        else crash "write past the end of the array"
      else AddEntries_loop ski n' (S i) buf size
  end.

(** The array of the message and its size; both stay empty when no link matches. *)
Definition AddEntries (dr : DeviceRemote)
    : Prog FeatureLinkContainer (list (option EntryData) * nat) :=
  n ← FeatureLinkContainerGetRemoteDeviceMatchNum (dr_ski dr);
  if bool_decide (n = 0) then mret ([], 0)
  else
    size ← pool_size;
    AddEntries_loop (dr_ski dr) size 0 (replicate n None) 0.

Definition CreateData (dr : DeviceRemote) : Prog LinkManager (list (option EntryData) * nat) :=
  on_entries (AddEntries dr).

(** ** Specifications *)

Definition on_links (s : LinkManager) (p : FeatureLinkContainer) : LinkManager :=
  mkLinkManager (local_device s) (link_num s) p.

Lemma on_entries_ret {A} (m : Prog FeatureLinkContainer A) s a p :
  m (entries s) = Ret a p → on_entries m s = Ret a (on_links s p).
Proof. intros E. unfold on_entries. by rewrite E. Qed.

Lemma on_links_self s : on_links s (entries s) = s.
Proof. by destruct s. Qed.

Lemma on_entries_read {A} (m : Prog FeatureLinkContainer A) s a :
  m (entries s) = Ret a (entries s) → on_entries m s = Ret a s.
Proof. intros E. by rewrite (on_entries_ret _ _ _ _ E), on_links_self. Qed.

Definition client_entity (l : FeatureLink) : option EntityAddressType :=
  (λ a, mkEntityAddress (fa_device a) (fa_entity a)) <$> client_addr l.
Definition under (ea : EntityAddressType) (l : FeatureLink) : bool :=
  bool_decide (client_entity l = Some ea).

Definition removed_event (ev : EventType) (dr : DeviceRemote) (e : Entity) (dl : DeviceLocal)
    (l : FeatureLink) : SpineEvent :=
  EventPublish ev kElementChangeRemove (dr_ski dr) (entity_address e)
    (GetFeatureWithId e (client_addr l ≫= fa_feature))
    (DeviceLocalGetFeatureWithAddress dl (server_addr l)).

Lemma RemoteEntityMatch_spec {S} l ea (s : S) : link_ok l →
  FeatureLinkRemoteEntityMatch l ea s = Ret (under ea l) s.
Proof.
  intros [_ [c Hc]]. unfold FeatureLinkRemoteEntityMatch, FeatureLinkGetClientAddr, under.
  unfold client_entity, client_addr, mbind, Prog_bind, mret, Prog_ret. rewrite Hc.
  rewrite EntityAddressCompare_eq. f_equal. apply bool_decide_ext. split; [by intros [= ->]|by intros [= <-]].
Qed.

Lemma publish_removed_spec ev dr e dl l p : link_ok l →
  publish_removed ev dr e dl l p
  = Ret tt (mkPool (items p) (heap p) (next_ptr p) (removed_event ev dr e dl l :: log p)).
Proof.
  intros [[f Hf] [c Hc]]. unfold publish_removed, removed_event, client_addr, server_addr.
  unfold FeatureLinkGetServerAddr, FeatureLinkGetClientAddr, mbind, Prog_bind, mret, Prog_ret.
  by rewrite Hf, Hc.
Qed.

Lemma concat_singles {A B} (f : A → B) (l : list A) : concat ((λ a, [f a]) <$> l) = f <$> l.
Proof. induction l as [|a l IH]; [done|]. change (f a :: concat ((λ a, [f a]) <$> l) = f a :: (f <$> l)). by rewrite IH. Qed.

(** Removal for an entity keeps exactly the other links, in their order, and
    publishes one event for each removed link. *)
Lemma RemoveEntityLinks_list ev dr e s ls : links (entries s) ls →
  ∃ p, RemoveEntityLinks ev (Some (dr, e)) s = Ret tt (on_links s p) ∧
    links p (filter (λ l, under (entity_address e) l = false) ls) ∧
    log p = (removed_event ev dr e (local_device s) <$>
               reverse (filter (λ l, under (entity_address e) l = true) ls)) ++ log (entries s).
Proof.
  intros [Hp Hok].
  edestruct (for_each_removing_list (λ x,
      link ← pool_load x;
      b ← FeatureLinkRemoteEntityMatch link (entity_address e);
      if (b : bool) then
        publish_removed ev dr e (local_device s) link;;
        FeatureLinkContainerRemove x;; mret true
      else mret false) (λ l, negb (under (entity_address e) l))
      (λ l, [removed_event ev dr e (local_device s) l]) link_ok) as (p & Hrun & Hl & Hlog);
    [|exact Hp|exact Hok|].
  - intros p ps1 x ps2 l1 l l2 Hp1 Hlen Hl. unfold mbind, Prog_bind.
    assert (heap p !! x = Some l) as Hx.
    { destruct (Forall2_app_inv _ _ _ _ _ Hlen (pool_objects _ _ _ Hp1)) as [_ Ho].
      by apply Forall2_cons in Ho as [? _]. }
    rewrite (pool_load_at _ _ _ Hx), (RemoteEntityMatch_spec _ _ _ Hl).
    destruct (under (entity_address e) l); simpl; [|done].
    rewrite publish_removed_spec by done.
    pose proof (pool_at_log _ _ _ (removed_event ev dr e (local_device s) l :: log p) Hp1) as Hp2.
    destruct (pool_drop_at _ _ _ _ _ _ _ Hp2 Hlen) as [Hd Hp3].
    unfold FeatureLinkContainerRemove. rewrite Hd. by eexists.
  - exists p. split; [by apply on_entries_ret|]. split; [split|].
    + rewrite (list_filter_iff _ (λ l, under (entity_address e) l = false)) in Hl; [exact Hl|].
      intros l. by destruct (under _ l).
    + rewrite Forall_forall in Hok |- *. intros l Hin. apply Hok.
      by apply list_elem_of_filter in Hin as [_ Hin].
    + rewrite Hlog, concat_singles.
      rewrite (list_filter_iff (λ l, negb (under (entity_address e) l) = false)
                 (λ l, under (entity_address e) l = true)); [done|].
      intros l. by destruct (under _ l).
Qed.

(** The entities of a device in turn: what is left, and what is published. *)
Definition outside (es : list Entity) (l : FeatureLink) : bool :=
  negb (existsb (λ e, under (entity_address e) l) es).
Fixpoint removed_events (ev : EventType) (dr : DeviceRemote) (dl : DeviceLocal) (es : list Entity)
    (ls : list FeatureLink) : list SpineEvent :=
  match es with
  | [] => []
  | e :: es' =>
      removed_events ev dr dl es' (filter (λ l, under (entity_address e) l = false) ls) ++
      (removed_event ev dr e dl <$> reverse (filter (λ l, under (entity_address e) l = true) ls))
  end.

Lemma filter_true (ls : list FeatureLink) : filter (λ l, outside [] l = true) ls = ls.
Proof. induction ls as [|l ls IH]; [done|]. rewrite filter_cons. simpl. by rewrite IH. Qed.

Lemma RemoveEntitiesLinks_list ev dr es : ∀ s ls, links (entries s) ls →
  ∃ p, RemoveEntitiesLinks ev dr es s = Ret tt (on_links s p) ∧
    links p (filter (λ l, outside es l = true) ls) ∧
    log p = removed_events ev dr (local_device s) es ls ++ log (entries s).
Proof.
  induction es as [|e es IH]; intros s ls Hs; cbn [RemoveEntitiesLinks removed_events].
  - exists (entries s). rewrite on_links_self. split_and!; [done| |done].
    by rewrite filter_true.
  - destruct (RemoveEntityLinks_list ev dr e s ls Hs) as (p & Hrun & Hl & Hlog).
    unfold mbind, Prog_bind. rewrite Hrun.
    destruct (IH (on_links s p) _ Hl) as (p' & Hrun' & Hl' & Hlog').
    exists p'. split; [exact Hrun'|]. split.
    + rewrite list_filter_filter, (list_filter_iff _ (λ l, outside (e :: es) l = true)) in Hl';
        [exact Hl'|].
      intros l. unfold outside. simpl. destruct (under (entity_address e) l); naive_solver.
    + simpl in Hlog'. by rewrite Hlog', Hlog, app_assoc.
Qed.

Lemma RemoveDeviceLinks_list ev dr s ls : links (entries s) ls →
  ∃ p, RemoveDeviceLinks ev (Some dr) s = Ret tt (on_links s p) ∧
    links p (filter (λ l, outside (dr_entities dr) l = true) ls) ∧
    log p = removed_events ev dr (local_device s) (dr_entities dr) ls ++ log (entries s).
Proof. apply RemoveEntitiesLinks_list. Qed.

(** ** Addition and removal of one link *)

Definition params_match (sf : option Feature) (cf : option FeatureRemote) (type : Z) : bool :=
  FeatureParametersMatch sf kRoleTypeServer type &&
  FeatureParametersMatch (fr_feature <$> cf) kRoleTypeClient type.

Lemma params_match_found sf cf type : params_match sf cf type = true → is_Some sf ∧ is_Some cf.
Proof. destruct sf, cf; unfold params_match; simpl; rewrite ?andb_false_r; by eauto. Qed.

Lemma AddLink_list ev duplicate b dr data s ls type ca :
  links (entries s) ls → (Z.of_nat (length ls) < num_elements_max)%Z →
  rq_server_feature_type data = Some type → rq_client_address data = Some ca →
  duplicate (entries s) = Ret b (entries s) →
  let sfo := DeviceLocalGetFeatureWithAddress (local_device s) (rq_server_address data) in
  let cfo := remote_feature dr ca in
  if params_match sfo cfo type && negb b then
    ∃ sf cf p, sfo = Some sf ∧ cfo = Some cf ∧
      AddLink ev duplicate dr data s
      = Ret kEebusErrorOk (mkLinkManager (local_device s) (u64 (link_num s + 1)) p) ∧
      links p (ls ++ [mkLink (link_num s) (Some sf) (Some cf)]) ∧
      log p = EventPublish ev kElementChangeAdd (dr_ski dr) (fr_entity cf) (Some (fr_feature cf))
                (Some sf) :: log (entries s)
  else AddLink ev duplicate dr data s = Ret kEebusErrorNoChange s.
Proof.
  intros Hs Hmax Ht Hca Hdup sfo cfo.
  assert (params_match sfo cfo type = true → is_Some sfo ∧ is_Some cfo) as Hfound
    by apply params_match_found.
  unfold AddLink, DeviceRemoteGetFeatureWithAddress, mbind, Prog_bind, get.
  rewrite Hca, Ht. fold sfo. unfold mret, Prog_ret. fold cfo.
  unfold params_match in *. destruct (FeatureParametersMatch sfo kRoleTypeServer type); [|done].
  simpl. destruct (FeatureParametersMatch (fr_feature <$> cfo) kRoleTypeClient type); [|done].
  simpl. rewrite (on_entries_read _ _ _ Hdup). destruct b; [done|]. simpl.
  destruct Hfound as [[sf Hsf] [cf Hcf]]; [done|]. rewrite Hsf, Hcf.
  destruct (Add_spec (link_num s) (Some sf) (Some cf) (entries s) ls) as (p & Hrun & Hl & Hlog);
    [done..|].
  set (lg := EventPublish ev kElementChangeAdd (dr_ski dr) (fr_entity cf) (Some (fr_feature cf))
               (Some sf) :: log (entries s)).
  exists sf, cf, (mkPool (items p) (heap p) (next_ptr p) lg). split_and!; [done|done| | |done].
  - unfold on_entries at 1. simpl. rewrite Hrun. unfold lg. by rewrite <- Hlog.
  - destruct Hl as [[ps Hp] Hok]. split; [exists ps; by apply pool_at_log|done].
Qed.

Lemma RemoveLink_list ev acceptable dr data s ls sa ca :
  links (entries s) ls →
  del_client_address data = Some ca → del_server_address data = Some sa →
  let ca' := with_device ca (dr_address dr) in
  let sa' := with_device sa (dl_address (local_device s)) in
  let run := RemoveLink ev acceptable dr data s in
  match remote_feature dr ca', DeviceLocalGetFeatureWithAddress (local_device s) (Some sa') with
  | None, _ => run = Ret kEebusErrorInputArgumentNull s
  | Some _, None => run = Ret kEebusErrorNoChange s
  | Some cf, Some sf =>
      match without_first (joins (Some sa') (Some ca')) ls with
      | Some ls' =>
          if acceptable sf then
            ∃ p, run = Ret kEebusErrorOk (on_links s p) ∧ links p ls' ∧
              log p = EventPublish ev kElementChangeRemove (dr_ski dr) (fr_entity cf)
                        (Some (fr_feature cf)) (Some sf) :: log (entries s)
          else run = Ret kEebusErrorNoChange s
      | None => run = Ret kEebusErrorNoChange s
      end
  end.
Proof.
  intros Hs Hca Hsa ca' sa' run. unfold run, RemoveLink, deref_address, mbind, Prog_bind, get.
  rewrite Hca, Hsa. unfold DeviceRemoteGetFeatureWithAddress, mret, Prog_ret. fold ca' sa'.
  destruct (remote_feature dr ca') as [cf|]; [|done].
  destruct (DeviceLocalGetFeatureWithAddress (local_device s) (Some sa')) as [sf|]; [|done].
  pose proof (Find_Remove_spec (Some sa') (Some ca') _ _ Hs) as Hfind.
  destruct (without_first (joins (Some sa') (Some ca')) ls) as [ls'|].
  - destruct (acceptable sf); [|done]. destruct Hfind as (x & p & Hf & Hr & Hl & Hlog). simpl.
    rewrite (on_entries_read _ _ _ Hf), (on_entries_ret _ _ _ _ Hr). unfold on_entries, on_links.
    simpl. eexists. split; [done|]. simpl. rewrite Hlog. split; [|done].
    destruct Hl as [[ps Hp] Hok]. split; [exists ps; by apply pool_at_log|done].
  - destruct (acceptable sf); [|done]. simpl. by rewrite (on_entries_read _ _ _ Hfind).
Qed.

(** ** What the managers keep

    After at most [k] calls: at most [k] links, with different ids, and with
    different keys, whatever the manager takes as the key of a link. *)

Section manager_ok.
Context {K : Type} (key : FeatureLink → K).

Record manager_ok (dl : DeviceLocal) (k : nat) (s : LinkManager) (ls : list FeatureLink) : Prop := {
  mo_device : local_device s = dl;
  mo_links : links (entries s) ls;
  mo_length : length ls ≤ k;
  mo_num : (0 <= link_num s <= Z.of_nat k)%Z;
  mo_fresh : Forall (λ l, link_id l < link_num s)%Z ls;
  mo_ids : NoDup (link_id <$> ls);
  mo_keys : NoDup (key <$> ls);
}.

Lemma manager_ok_start dl : manager_ok dl 0 (LinkManagerConstruct dl) [].
Proof.
  constructor; simpl; try done; try constructor; [apply pool_empty_list|constructor].
Qed.

Lemma manager_ok_mono dl k k' s ls : k ≤ k' → manager_ok dl k s ls → manager_ok dl k' s ls.
Proof. intros Hk [? ? ? ? ? ? ?]. constructor; try done; lia. Qed.

Lemma manager_ok_sublist dl k s ls p ls' : manager_ok dl k s ls → ls' `sublist_of` ls →
  links p ls' → manager_ok dl k (on_links s p) ls'.
Proof.
  intros [Hd _ Hlen Hnum Hfr Hids Hsrv] Hsub Hp. constructor; simpl; try done.
  - apply sublist_length in Hsub. lia.
  - rewrite Forall_forall in Hfr |- *. intros l Hl. apply Hfr. by eapply elem_of_sublist.
  - by eapply nodup_sublist.
  - by eapply nodup_sublist.
Qed.

Lemma manager_ok_snoc dl k s ls sf cf p :
  (Z.of_nat k < num_elements_max)%Z → manager_ok dl k s ls →
  let l := mkLink (link_num s) (Some sf) (Some cf) in
  (key l ∉ key <$> ls) → links p (ls ++ [l]) →
  manager_ok dl (S k) (mkLinkManager (local_device s) (u64 (link_num s + 1)) p) (ls ++ [l]).
Proof.
  intros Hk [Hd _ Hlen Hnum Hfr Hids Hkeys] l Hnew Hp.
  assert (num_elements_max < 2 ^ 64 - 1)%Z by (vm_compute; done).
  rewrite u64_small by lia. constructor; simpl; try done.
  - rewrite length_app. simpl. lia.
  - lia.
  - apply Forall_app. split; [|repeat constructor; simpl; lia].
    eapply Forall_impl; [exact Hfr|]. simpl. lia.
  - rewrite fmap_app. apply NoDup_app. split_and!; [done| |apply NoDup_singleton].
    intros id Hin Heq. apply list_elem_of_singleton in Heq as ->.
    apply list_elem_of_fmap in Hin as (l' & Hid & Hin). rewrite Forall_forall in Hfr.
    apply Hfr in Hin. simpl in Hid. lia.
  - rewrite fmap_app. apply NoDup_app. split_and!; [done| |apply NoDup_singleton].
    intros y Hin Heq. apply list_elem_of_singleton in Heq as ->. by apply Hnew.
Qed.

Lemma manager_ok_RemoveLink ev acceptable dr data dl k s ls :
  is_Some (del_client_address data) → is_Some (del_server_address data) →
  manager_ok dl k s ls →
  ∃ e s' ls', RemoveLink ev acceptable dr data s = Ret e s' ∧ manager_ok dl k s' ls'.
Proof.
  intros [ca Hca] [sa Hsa] Hs.
  pose proof (RemoveLink_list ev acceptable dr data s ls sa ca (mo_links _ _ _ _ Hs) Hca Hsa) as Hr.
  simpl in Hr. repeat case_match; try (by do 3 eexists).
  destruct Hr as (p & -> & Hl & _). do 3 eexists. split; [done|].
  eapply manager_ok_sublist; [done| |exact Hl]. by eapply without_first_sublist.
Qed.

Lemma manager_ok_RemoveEntity ev e dl k s ls : manager_ok dl k s ls →
  ∃ s' ls', RemoveEntityLinks ev e s = Ret tt s' ∧ manager_ok dl k s' ls'.
Proof.
  intros Hs. destruct e as [[dr e]|]; [|by do 2 eexists].
  destruct (RemoveEntityLinks_list ev dr e s ls (mo_links _ _ _ _ Hs)) as (p & -> & Hl & _).
  do 2 eexists. split; [done|]. eapply manager_ok_sublist; [done| |exact Hl].
  apply sublist_filter.
Qed.

Lemma manager_ok_RemoveDevice ev d dl k s ls : manager_ok dl k s ls →
  ∃ s' ls', RemoveDeviceLinks ev d s = Ret tt s' ∧ manager_ok dl k s' ls'.
Proof.
  intros Hs. destruct d as [dr|]; [|by do 2 eexists].
  destruct (RemoveDeviceLinks_list ev dr s ls (mo_links _ _ _ _ Hs)) as (p & -> & Hl & _).
  do 2 eexists. split; [done|]. eapply manager_ok_sublist; [done| |exact Hl].
  apply sublist_filter.
Qed.

(** An addition keeps the keys apart if its duplicate check covers the key. *)
Lemma manager_ok_AddLink ev duplicate b dr data dl k s ls type ca :
  (Z.of_nat k < num_elements_max)%Z → manager_ok dl k s ls →
  rq_server_feature_type data = Some type → rq_client_address data = Some ca →
  duplicate (entries s) = Ret b (entries s) →
  (∀ sf cf, DeviceLocalGetFeatureWithAddress dl (rq_server_address data) = Some sf →
     remote_feature dr ca = Some cf → b = false →
     key (mkLink (link_num s) (Some sf) (Some cf)) ∉ key <$> ls) →
  ∃ e s' ls', AddLink ev duplicate dr data s = Ret e s' ∧ manager_ok dl (S k) s' ls'.
Proof.
  intros Hk Hs Ht Hca Hdup Hkey.
  pose proof (AddLink_list ev duplicate b dr data s ls type ca (mo_links _ _ _ _ Hs)) as Ha.
  assert (length ls ≤ k) by apply (mo_length _ _ _ _ Hs).
  specialize (Ha ltac:(lia) Ht Hca Hdup). simpl in Ha. rewrite (mo_device _ _ _ _ Hs) in Ha.
  destruct (params_match _ _ _ && negb b) eqn:E.
  - destruct Ha as (sf & cf & p & Hsf & Hcf & -> & Hl & _). do 3 eexists. split; [done|].
    rewrite <- (mo_device _ _ _ _ Hs). apply manager_ok_snoc; [done| | |exact Hl].
    + by rewrite (mo_device _ _ _ _ Hs).
    + apply andb_true_iff in E as [_ E]. apply Hkey; [done..|]. by destruct b.
  - rewrite Ha. do 3 eexists. split; [done|]. eapply manager_ok_mono; [|done]. lia.
Qed.
End manager_ok.

(** ** The answer to a read request *)

Definition entry_of (l : FeatureLink) : option EntryData :=
  match server_addr l, client_addr l with
  | Some sa, Some ca => Some (mkEntryData (link_id l) sa ca)
  | _, _ => None
  end.

Section answer.
Context (ski : string) (p : FeatureLinkContainer) (ps : list ptr) (ls : list FeatureLink).
Hypothesis Hp : pool_at p ps ls.
Hypothesis Hok : Forall link_ok ls.

Lemma AddEntries_round ls1 l ls2 n buf size : ls = ls1 ++ l :: ls2 →
  AddEntries_loop ski (S n) (length ls1) buf size p =
    if of_device ski l then
      if bool_decide (length ls1 < length buf)
      then AddEntries_loop ski n (S (length ls1)) (<[length ls1 := entry_of l]> buf) (S size) p
      else Crash "write past the end of the array"
    else AddEntries_loop ski n (S (length ls1)) buf size p.
Proof.
  intros E. rewrite E in Hp, Hok.
  destruct (pool_split _ _ _ _ _ Hp) as (ps1 & x & ps2 & Eps & Hq & Hx & _ & _).
  rewrite Eps in Hp. cbn [AddEntries_loop]. unfold mbind, Prog_bind.
  pose proof (pool_elem_at _ _ _ _ _ Hp) as He. rewrite Hq in He.
  rewrite He, (pool_load_at _ _ _ Hx).
  assert (link_ok l) as Hl by (rewrite Forall_forall in Hok; apply Hok; set_solver).
  rewrite (RemoteDeviceMatch_spec _ _ _ Hl). destruct (of_device ski l); [|done].
  destruct Hl as [[f Hf] [c Hc]]. unfold entry_of, server_addr, client_addr.
  unfold CreateEntryData, FeatureLinkGetServerAddr, FeatureLinkGetClientAddr.
  rewrite Hf, Hc. unfold mbind, Prog_bind, mret, Prog_ret. simpl.
  by case_bool_decide.
Qed.

(** The device's links come first: each is written to its own cell. *)
Lemma AddEntries_fill ls2 : ∀ ls1 pre rest size,
  ls = ls1 ++ ls2 ++ rest → length pre = length ls1 →
  Forall (λ l, of_device ski l = true) ls2 → Forall (λ l, of_device ski l = false) rest →
  AddEntries_loop ski (length (ls2 ++ rest)) (length ls1) (pre ++ replicate (length ls2) None) size p
  = Ret (pre ++ (entry_of <$> ls2), size + length ls2) p.
Proof.
  induction ls2 as [|l ls2 IH]; intros ls1 pre rest size E Hpre Hin Hout.
  - clear Hin. simpl in *. rewrite Nat.add_0_r. revert ls1 E Hpre. generalize (pre ++ []) as buf.
    intros buf ls1 E _. revert ls1 E.
    induction rest as [|l rest IH]; intros ls1 E; [done|].
    apply Forall_cons in Hout as [Hl Hout]. cbn [length].
    rewrite (AddEntries_round _ _ _ _ _ _ E), Hl.
    specialize (IH Hout (ls1 ++ [l])). rewrite length_app, Nat.add_1_r in IH.
    apply IH. by rewrite <- app_assoc.
  - apply Forall_cons in Hin as [Hl Hin]. cbn [length app].
    rewrite (AddEntries_round _ _ _ _ _ _ E), Hl. cbn [replicate].
    rewrite bool_decide_true by (rewrite length_app; simpl; lia).
    rewrite list_insert_middle by done.
    specialize (IH (ls1 ++ [l]) (pre ++ [entry_of l]) rest (S size)).
    replace (length (ls1 ++ [l])) with (S (length ls1)) in IH by (rewrite length_app; simpl; lia).
    rewrite <- !app_assoc in IH. cbn [app] in IH.
    rewrite IH; [f_equal; f_equal; simpl; lia|done| |done|done].
    rewrite length_app. simpl. lia.
Qed.

(** A link of the device that lies beyond the array: the write is out of bounds. *)
Lemma AddEntries_overflow ls2a : ∀ ls1 l ls2b buf size,
  ls = ls1 ++ ls2a ++ l :: ls2b → of_device ski l = true →
  length buf ≤ length (ls1 ++ ls2a) →
  AddEntries_loop ski (length (ls2a ++ l :: ls2b)) (length ls1) buf size p
  = Crash "write past the end of the array".
Proof.
  induction ls2a as [|l' ls2a IH]; intros ls1 l ls2b buf size E Hl Hlen; cbn [length app].
  - rewrite app_nil_r in Hlen. rewrite (AddEntries_round _ _ _ _ _ _ E), Hl.
    by rewrite bool_decide_false by lia.
  - rewrite (AddEntries_round _ _ _ _ _ _ E).
    pose proof (IH (ls1 ++ [l']) l ls2b) as IH'.
    replace (length (ls1 ++ [l'])) with (S (length ls1)) in IH' by (rewrite length_app; simpl; lia).
    rewrite <- !app_assoc in IH'. cbn [app] in IH'.
    case_match; [case_bool_decide; [|done]|]; (apply IH';
      [done|done|]); by rewrite ?length_insert.
Qed.
End answer.

(** The links of a device fill the first places of the container, or one of
    them lies beyond as many places as there are. *)
Lemma device_links_first ski ls :
  (∃ rest, ls = device_links ski ls ++ rest ∧ Forall (λ l, of_device ski l = false) rest) ∨
  (∃ ls1 l ls2, ls = ls1 ++ l :: ls2 ∧ of_device ski l = true ∧
     length (device_links ski ls) ≤ length ls1).
Proof.
  induction ls as [|l ls IH] using rev_ind; [left; by exists []|].
  unfold device_links in *. rewrite filter_app, filter_cons, filter_nil.
  destruct (of_device ski l) eqn:Hl; simpl.
  - destruct IH as [(rest & E & Hr)|(ls1 & l' & ls2 & E & Hl' & Hlen)].
    + destruct rest as [|l' rest].
      * left. exists []. rewrite app_nil_r in *. split; [by rewrite <- E|done].
      * right. exists ls, l, []. split_and!; [done|done|].
        apply (f_equal length) in E. rewrite length_app in E |- *. simpl in *. lia.
    + right. exists ls, l, []. split_and!; [done|done|].
      apply (f_equal length) in E as E'. rewrite length_app in E' |- *. simpl in *. lia.
  - rewrite app_nil_r. destruct IH as [(rest & E & Hr)|(ls1 & l' & ls2 & E & Hl' & Hlen)].
    + left. exists (rest ++ [l]). rewrite app_assoc, <- E. split; [done|].
      apply Forall_app. by repeat constructor.
    + right. exists ls1, l', (ls2 ++ [l]). rewrite E at 1. by rewrite <- app_assoc.
Qed.

Lemma device_links_all ski ls : Forall (λ l, of_device ski l = true) (device_links ski ls).
Proof. apply Forall_forall. intros l Hl. by apply list_elem_of_filter in Hl as [? _]. Qed.

(** The answer is the device's links when they come first in the container. *)
Lemma CreateData_first dr s ls rest : links (entries s) ls →
  ls = device_links (dr_ski dr) ls ++ rest → Forall (λ l, of_device (dr_ski dr) l = false) rest →
  CreateData dr s = Ret (entry_of <$> device_links (dr_ski dr) ls,
                         length (device_links (dr_ski dr) ls)) s.
Proof.
  intros Hs E Hrest. apply on_entries_read. unfold AddEntries, mbind, Prog_bind.
  rewrite (MatchNum_spec _ _ _ Hs). destruct Hs as [[ps Hp] Hok]. case_bool_decide as Hn.
  - by rewrite (length_zero_iff_nil (device_links (dr_ski dr) ls)) in Hn; rewrite Hn.
  - rewrite (pool_size_at _ _ _ Hp). rewrite E at 1.
    by apply (AddEntries_fill _ _ _ _ Hp Hok _ [] [] rest 0); [..|apply device_links_all|].
Qed.

Lemma CreateData_overflow dr s ls ls1 l ls2 : links (entries s) ls →
  ls = ls1 ++ l :: ls2 → of_device (dr_ski dr) l = true →
  length (device_links (dr_ski dr) ls) ≤ length ls1 →
  CreateData dr s = Crash "write past the end of the array".
Proof.
  intros Hs E Hl Hlen. unfold CreateData, on_entries, AddEntries, mbind, Prog_bind.
  rewrite (MatchNum_spec _ _ _ Hs). destruct Hs as [[ps Hp] Hok]. rewrite bool_decide_false.
  - rewrite (pool_size_at _ _ _ Hp). rewrite E at 1.
    by rewrite (AddEntries_overflow _ _ _ _ Hp Hok ls1 [] l ls2) by (done || by rewrite length_replicate).
  - intros Hn%length_zero_iff_nil. assert (l ∈ device_links (dr_ski dr) ls) as Hin.
    { apply list_elem_of_filter. split; [done|]. rewrite E. set_solver. }
    rewrite Hn in Hin. by apply not_elem_of_nil in Hin.
Qed.
End link_manager.

(** ** A local device and two remote ones

    The devices at which the theorems on bindings and subscriptions are
    evaluated: each has one entity with one feature, a server on the local and
    a client on the remote devices. *)

From S2P Require Import FeatureFunctions.

Definition ids : option (list (option Z)) := Some [Some 1%Z].
Definition addr (device : string) (feature : Z) : FeatureAddressType :=
  mkFeatureAddress (Some device) ids (Some feature).
Definition entity (device : string) (f : Feature) : Entity :=
  mkEntity (mkEntityAddress (Some device) ids) [f].

Definition load_control : Z := kFeatureTypeTypeLoadControl.
Definition heat_pump : Feature := mkFeature (addr "local" 3) kRoleTypeServer load_control.
Definition thermostat (device : string) : Feature :=
  mkFeature (addr device 7) kRoleTypeClient load_control.

Definition local : DeviceLocal := mkDeviceLocal (Some "local") [entity "local" heat_pump].
Definition remote (device : string) : DeviceRemote :=
  mkDeviceRemote (String.append "ski of " device) (Some device) [entity device (thermostat device)].

Definition request (device : string) : RequestCall :=
  mkRequestCall (Some (addr device 7)) (Some (addr "local" 3)) (Some load_control).
(** The same request without the device of the server address. *)
Definition short_request (device : string) : RequestCall :=
  mkRequestCall (Some (addr device 7)) (Some (mkFeatureAddress None ids (Some 3%Z)))
    (Some load_control).

Lemma local_wf : device_wf (dl_address local) (dl_entities local).
Proof.
  intros e f He Hf. apply list_elem_of_singleton in He as ->.
  by apply list_elem_of_singleton in Hf as ->.
Qed.

Lemma remote_wf d : device_wf (dr_address (remote d)) (dr_entities (remote d)).
Proof.
  intros e f He Hf. apply list_elem_of_singleton in He as ->.
  by apply list_elem_of_singleton in Hf as ->.
Qed.
