(* ===== verification/BindingManager.v ===== *)
(** * The binding manager

    [src/spine/binding/binding_manager.c].  A remote client feature asks for a
    binding to a local server feature; "a local feature can only have one remote
    binding". *)

From S2P Require Import Prelude Vector Pool Spine FeatureLink LinkManager.

Section binding_manager.
Context {V : Type → Type} `{VectorInterface V}.
Abbreviation FeatureLinkContainer := (Pool (V := V) FeatureLink SpineEvent).
Abbreviation BindingManager := (LinkManager (V := V)).

Definition BindingManagerConstruct (dl : DeviceLocal) : BindingManager := LinkManagerConstruct dl.
Definition GetNextBindingId : Prog BindingManager Z := GetNextLinkId.

Definition AddBinding (dr : DeviceRemote) (data : RequestCall) : Prog BindingManager EebusError :=
  AddLink kEventTypeBindingChange (FeatureLinkContainerHasServer (rq_server_address data)) dr data.

Definition RemoveBinding (data : DeleteCall) (dr : DeviceRemote) : Prog BindingManager EebusError :=
  RemoveLink kEventTypeBindingChange (λ sf, bool_decide (feature_role sf = kRoleTypeServer)) dr data.

Definition RemoveDeviceBindings (remote_device : option DeviceRemote) : Prog BindingManager unit :=
  RemoveDeviceLinks kEventTypeBindingChange remote_device.

Definition RemoveEntityBindings (remote_entity : option (DeviceRemote * Entity))
    : Prog BindingManager unit :=
  RemoveEntityLinks kEventTypeBindingChange remote_entity.

Definition HasBinding (local_addr remote_addr : option FeatureAddressType)
    : Prog BindingManager bool :=
  r ← on_entries (FeatureLinkContainerFind local_addr remote_addr);
  mret (bool_decide (is_Some r)).

Definition CreateBindingEntryData (binding : FeatureLink) : Prog FeatureLinkContainer EntryData :=
  CreateEntryData binding.
Definition AddBindingEntries (dr : DeviceRemote)
    : Prog FeatureLinkContainer (list (option EntryData) * nat) := AddEntries dr.
Definition CreateBindingData (dr : DeviceRemote)
    : Prog BindingManager (list (option EntryData) * nat) := CreateData dr.

(** ** Sequences of calls *)

Inductive BindingCall :=
| CallAdd (dr : DeviceRemote) (data : RequestCall)
| CallRemove (data : DeleteCall) (dr : DeviceRemote)
| CallRemoveEntity (remote_entity : option (DeviceRemote * Entity))
| CallRemoveDevice (remote_device : option DeviceRemote).

Definition call (c : BindingCall) : Prog BindingManager unit :=
  match c with
  | CallAdd dr data => AddBinding dr data;; mret tt
  | CallRemove data dr => RemoveBinding data dr;; mret tt
  | CallRemoveEntity e => RemoveEntityBindings e
  | CallRemoveDevice d => RemoveDeviceBindings d
  end.
Fixpoint calls (cs : list BindingCall) : Prog BindingManager unit :=
  match cs with [] => mret tt | c :: cs' => call c;; calls cs' end.

(** A request that carries the feature type and names the device of the server
    address, and a delete call that has its addresses. *)
Definition call_ok (c : BindingCall) : Prop :=
  match c with
  | CallAdd _ data =>
      is_Some (rq_server_feature_type data) ∧ is_Some (rq_client_address data) ∧
      ∃ a, rq_server_address data = Some a ∧ fa_device a ≠ None
  | CallRemove data _ => is_Some (del_client_address data) ∧ is_Some (del_server_address data)
  | _ => True
  end.

Lemma existsb_server a ls :
  existsb (λ l, bool_decide (a = server_addr l)) ls = false → a ∉ server_addr <$> ls.
Proof.
  intros Hno Hin. apply list_elem_of_fmap in Hin as (l & -> & Hin).
  assert (existsb (λ l', bool_decide (server_addr l = server_addr l')) ls = true) as Hyes; [|congruence].
  apply existsb_exists. exists l. split; [by apply list_elem_of_In|]. by apply bool_decide_true.
Qed.

Lemma binding_call_keeps c dl k s ls : device_wf (dl_address dl) (dl_entities dl) →
  (Z.of_nat k < num_elements_max)%Z → call_ok c → manager_ok server_addr dl k s ls →
  ∃ s' ls', call c s = Ret tt s' ∧ manager_ok server_addr dl (S k) s' ls'.
Proof.
  intros Hwf Hk Hc Hs. assert (∀ s' ls', manager_ok server_addr dl k s' ls' →
    manager_ok server_addr dl (S k) s' ls') as Hmono by (intros; eapply manager_ok_mono; [|done]; lia).
  destruct c as [dr data|data dr|e|d]; unfold call, mbind, Prog_bind.
  - destruct Hc as ([type Ht] & [ca Hca] & a & Ha & Hdev). unfold AddBinding.
    edestruct (manager_ok_AddLink server_addr kEventTypeBindingChange) as (e & s' & ls' & Hrun & Hok);
      [exact Hk|exact Hs|exact Ht|exact Hca|apply (HasServer_spec (rq_server_address data) _ ls), Hs| |].
    + rewrite Ha. intros sf cf Hsf _ Hno. unfold server_addr at 1. simpl.
      rewrite (DeviceLocalGetFeature_address _ _ _ Hwf Hsf).
      unfold with_device. destruct (fa_device a); [|done]. by apply existsb_server.
    + rewrite Hrun. by exists s', ls'.
  - destruct Hc as [Hca Hsa]. unfold RemoveBinding.
    edestruct (manager_ok_RemoveLink server_addr) as (e & s' & ls' & Hrun & Hok); [done..|].
    rewrite Hrun. exists s', ls'. auto.
  - destruct (manager_ok_RemoveEntity server_addr kEventTypeBindingChange e _ _ _ _ Hs)
      as (s' & ls' & Hrun & Hok). exists s', ls'. auto.
  - destruct (manager_ok_RemoveDevice server_addr kEventTypeBindingChange d _ _ _ _ Hs)
      as (s' & ls' & Hrun & Hok). exists s', ls'. auto.
Qed.

(** C37: A local server feature has at most one remote binding, the ids are unique, and no
    call uses freed memory or a NULL pointer, throughout any sequence of calls, fewer than a
    container has room for, whose requests carry the type of the server feature and the client address and
    name the device of the server address, and whose delete calls carry both addresses.  The manager does not
    check this: a request without the type leads to a NULL pointer ([unchecked_request_poisons]). *)
Theorem bindings_stay_unique dl cs :
  device_wf (dl_address dl) (dl_entities dl) →
  (Z.of_nat (length cs) < num_elements_max)%Z → Forall call_ok cs →
  ∃ s ls, calls cs (BindingManagerConstruct dl) = Ret tt s ∧ links (entries s) ls ∧
    NoDup (server_addr <$> ls) ∧ NoDup (link_id <$> ls).
Proof.
  intros Hwf Hmax Hcs.
  assert (∀ k s ls, (Z.of_nat (k + length cs) < num_elements_max)%Z →
    manager_ok server_addr dl k s ls →
    ∃ s' ls', calls cs s = Ret tt s' ∧ manager_ok server_addr dl (k + length cs) s' ls') as Hgo.
  2: { destruct (Hgo 0 (LinkManagerConstruct dl) [] Hmax (manager_ok_start _ dl)) as (s & ls & Hrun & Hok).
       exists s, ls. split_and!; [done|apply Hok..]. }
  clear Hmax. induction Hcs as [|c cs Hc Hcs IH]; intros k s ls Hk Hs; simpl in *.
  - exists s, ls. by rewrite Nat.add_0_r.
  - destruct (binding_call_keeps c dl k s ls) as (s1 & ls1 & Hrun & Hok); [done|lia|done..|].
    unfold mbind, Prog_bind. rewrite Hrun.
    destruct (IH (S k) s1 ls1) as (s2 & ls2 & Hrun2 & Hok2); [by rewrite Nat.add_succ_comm in *|done|].
    exists s2, ls2. by rewrite Nat.add_succ_r.
Qed.

Lemma HasBinding_spec sa ca s ls : links (entries s) ls →
  HasBinding sa ca s = Ret (existsb (joins sa ca) ls) s.
Proof.
  intros Hs. destruct (Find_spec sa ca _ _ Hs) as (r & Hr & E).
  unfold HasBinding, mbind, Prog_bind. by rewrite (on_entries_read _ _ _ Hr), <- E.
Qed.

Lemma no_server_no_join sa ca ls :
  existsb (λ l, bool_decide (sa = server_addr l)) ls = false →
  Forall (λ l, joins sa ca l = false) ls.
Proof.
  intros Hno%existsb_server. apply Forall_forall. intros l Hl. unfold joins.
  rewrite bool_decide_false; [done|]. intros ->. apply Hno. by apply list_elem_of_fmap_2.
Qed.

Lemma AddBinding_list dr data s ls type ca :
  links (entries s) ls → (Z.of_nat (length ls) < num_elements_max)%Z →
  rq_server_feature_type data = Some type → rq_client_address data = Some ca →
  let sfo := DeviceLocalGetFeatureWithAddress (local_device s) (rq_server_address data) in
  let cfo := remote_feature dr ca in
  if params_match sfo cfo type &&
     negb (existsb (λ l, bool_decide (rq_server_address data = server_addr l)) ls) then
    ∃ sf cf p, sfo = Some sf ∧ cfo = Some cf ∧
      AddBinding dr data s
      = Ret kEebusErrorOk (mkLinkManager (local_device s) (u64 (link_num s + 1)) p) ∧
      links p (ls ++ [mkLink (link_num s) (Some sf) (Some cf)]) ∧
      log p = EventPublish kEventTypeBindingChange kElementChangeAdd (dr_ski dr) (fr_entity cf)
                (Some (fr_feature cf)) (Some sf) :: log (entries s)
  else AddBinding dr data s = Ret kEebusErrorNoChange s.
Proof. intros Hs Hmax Ht Hca. apply AddLink_list; [done..|]. by apply HasServer_spec. Qed.

(** Bind and unbind.  When a request with complete addresses of well-formed devices
    is granted, the binding is there; if the local feature is a server, the delete call
    with the same addresses succeeds, takes the binding away again and leaves exactly the
    bindings there were before. *)
Theorem bind_unbind dl k s ls dr data sa ca type s1 :
  device_wf (dl_address dl) (dl_entities dl) → device_wf (dr_address dr) (dr_entities dr) →
  manager_ok server_addr dl k s ls → (Z.of_nat k < num_elements_max)%Z →
  rq_server_feature_type data = Some type → rq_client_address data = Some ca →
  rq_server_address data = Some sa → fa_device sa ≠ None → fa_device ca = dr_address dr →
  AddBinding dr data s = Ret kEebusErrorOk s1 →
  HasBinding (Some sa) (Some ca) s1 = Ret true s1 ∧
  ((∀ sf, DeviceLocalGetFeatureWithAddress dl (Some sa) = Some sf → feature_role sf = kRoleTypeServer) →
   ∃ s2, RemoveBinding (mkDeleteCall (Some ca) (Some sa)) dr s1 = Ret kEebusErrorOk s2 ∧
     links (entries s2) ls ∧ HasBinding (Some sa) (Some ca) s2 = Ret false s2).
Proof.
  intros Hwf Hwfr Hs Hk Ht Hca Hsa Hdev Hcdev Hrun. pose proof (mo_links _ _ _ _ _ Hs) as Hl.
  pose proof (AddBinding_list dr data s ls type ca Hl
    ltac:(pose proof (mo_length _ _ _ _ _ Hs); lia) Ht Hca) as Ha.
  simpl in Ha. rewrite Hsa, (mo_device _ _ _ _ _ Hs) in Ha.
  destruct (params_match _ _ _ && negb _) eqn:E; [|rewrite Ha in Hrun; discriminate].
  destruct Ha as (sf & cf & p & Hsf & Hcf & Ha & Hp & Hlog). rewrite Hrun in Ha. injection Ha as ->.
  apply andb_true_iff in E as [_ Hno]. apply negb_true_iff in Hno.
  set (l := mkLink (link_num s) (Some sf) (Some cf)) in *.
  assert (with_device sa (dl_address dl) = sa) as Esa
    by (unfold with_device; by destruct (fa_device sa)).
  assert (with_device ca (dr_address dr) = ca) as Eca.
  { unfold with_device. destruct ca as [d en fe]. simpl in *. subst d. by destruct (dr_address dr). }
  assert (joins (Some sa) (Some ca) l = true) as Hj.
  { unfold joins, server_addr, client_addr. simpl.
    rewrite (DeviceLocalGetFeature_address _ _ _ Hwf Hsf), Esa.
    rewrite (remote_feature_address _ _ _ Hwfr Hcdev Hcf). by rewrite !bool_decide_true. }
  pose proof (no_server_no_join (Some sa) (Some ca) ls Hno) as Hnj.
  set (s1 := mkLinkManager dl (u64 (link_num s + 1)) p).
  split; [rewrite (HasBinding_spec _ _ s1 _ Hp); by rewrite existsb_first|]. intros Hrole.
  pose proof (RemoveLink_list kEventTypeBindingChange
    (λ sf, bool_decide (feature_role sf = kRoleTypeServer)) dr (mkDeleteCall (Some ca) (Some sa)) s1 _ sa ca
    Hp eq_refl eq_refl) as Hr.
  simpl in Hr. rewrite Eca, Esa, Hcf, Hsf in Hr.
  rewrite without_first_some in Hr by done. rewrite app_nil_r in Hr.
  rewrite bool_decide_true in Hr by (by apply Hrole).
  destruct Hr as (p2 & Hr & Hp2 & _). eexists. split; [exact Hr|]. split; [done|].
  by rewrite (HasBinding_spec _ _ (on_links s1 p2) _ Hp2), existsb_none.
Qed.

(** The rule "a local feature can only have one remote binding" is not kept for requests
    that leave out the device of the server address, which stands for the recipient's: two such
    requests for the same server feature are both granted. *)
Theorem short_requests_bind_twice dl dr1 dr2 data1 data2 sa type ca1 ca2 :
  device_wf (dl_address dl) (dl_entities dl) → fa_device sa = None →
  rq_server_address data1 = Some sa → rq_server_address data2 = Some sa →
  rq_server_feature_type data1 = Some type → rq_server_feature_type data2 = Some type →
  rq_client_address data1 = Some ca1 → rq_client_address data2 = Some ca2 →
  params_match (DeviceLocalGetFeatureWithAddress dl (Some sa)) (remote_feature dr1 ca1) type = true →
  params_match (DeviceLocalGetFeatureWithAddress dl (Some sa)) (remote_feature dr2 ca2) type = true →
  ∃ s l1 l2, calls [CallAdd dr1 data1; CallAdd dr2 data2] (BindingManagerConstruct dl) = Ret tt s ∧
    links (entries s) [l1; l2] ∧
    server_addr l1 = Some (with_device sa (dl_address dl)) ∧ server_addr l2 = server_addr l1.
Proof.
  intros Hwf Hdev Hsa1 Hsa2 Ht1 Ht2 Hca1 Hca2 Hm1 Hm2.
  destruct (params_match_found _ _ _ Hm1) as [[sf Hsf] _].
  pose proof (DeviceLocalGetFeature_address _ _ _ Hwf Hsf) as Haddr.
  assert (dl_address dl ≠ None) as Hself.
  { unfold DeviceLocalGetFeatureWithAddress in Hsf. by destruct (dl_address dl). }
  assert (Some sa ≠ Some (with_device sa (dl_address dl))) as Hne.
  { unfold with_device. rewrite Hdev. intros [= E]. rewrite E in Hdev. done. }
  pose proof (AddBinding_list dr1 data1 (BindingManagerConstruct dl) [] type ca1
    (mo_links _ _ _ _ _ (manager_ok_start server_addr dl)) eq_refl Ht1 Hca1) as H1.
  simpl in H1. rewrite Hsa1, Hm1 in H1. simpl in H1. destruct H1 as (sf1 & cf1 & p1 & E1 & _ & H1 & Hp1 & _).
  rewrite Hsf in E1. injection E1 as <-.
  pose proof (AddBinding_list dr2 data2 (mkLinkManager dl 1 p1) _ type ca2 Hp1 eq_refl Ht2 Hca2) as H2.
  simpl in H2. rewrite Hsa2, Hm2 in H2. unfold server_addr in H2. simpl in H2.
  rewrite Haddr, bool_decide_false in H2 by done. simpl in H2.
  destruct H2 as (sf2 & cf2 & p2 & E2 & _ & H2 & Hp2 & _). rewrite Hsf in E2. injection E2 as <-.
  eexists (mkLinkManager dl (u64 2) p2), _, _. split; [|split; [exact Hp2|]].
  - cbn [calls call]. unfold mbind, Prog_bind. rewrite H1. unfold mret, Prog_ret.
    change (u64 (0 + 1)) with 1%Z. by rewrite H2.
  - unfold server_addr. simpl. by rewrite Haddr.
Qed.

(** When a remote device leaves, exactly its entities' bindings are removed; the others
    stay, in their order, and one event is published for each removed binding, entity by
    entity. *)
Theorem RemoveDeviceBindings_exact dr s ls : links (entries s) ls →
  ∃ s', RemoveDeviceBindings (Some dr) s = Ret tt s' ∧
    links (entries s') (filter (λ l, outside (dr_entities dr) l = true) ls) ∧
    log (entries s')
    = removed_events kEventTypeBindingChange dr (local_device s) (dr_entities dr) ls
      ++ log (entries s) ∧
    ∀ e sa ca, e ∈ dr_entities dr →
      entity_address e = mkEntityAddress (fa_device ca) (fa_entity ca) →
      HasBinding sa (Some ca) s' = Ret false s'.
Proof.
  intros Hs. destruct (RemoveDeviceLinks_list kEventTypeBindingChange dr s ls Hs) as (p & Hrun & Hl & Hlog).
  exists (on_links s p). split_and!; [done..|]. intros e sa ca He Hea.
  rewrite (HasBinding_spec _ _ (on_links s p) _ Hl), existsb_none; [done|].
  apply Forall_forall. intros l Hin. apply list_elem_of_filter in Hin as [Hout _].
  unfold joins. apply andb_false_iff. right. apply bool_decide_eq_false. intros Hca.
  unfold outside in Hout. apply negb_true_iff, not_true_iff_false in Hout. apply Hout.
  apply existsb_exists. exists e. split; [by apply list_elem_of_In|].
  unfold under, client_entity. rewrite <- Hca, Hea. by apply bool_decide_true.
Qed.

(** The answer to a read of the bindings is right exactly when the bindings of the
    asking device come first in the container: then it lists them all, in order, with
    their number; otherwise the entry at some container index is written past the end of
    the array, which has as many places as the device has bindings. *)
Theorem CreateBindingData_exact dr s ls : links (entries s) ls →
  let mine := device_links (dr_ski dr) ls in
  (CreateBindingData dr s = Ret (entry_of <$> mine, length mine) s ∧
   ∃ rest, ls = mine ++ rest ∧ Forall (λ l, of_device (dr_ski dr) l = false) rest) ∨
  (CreateBindingData dr s = Crash "write past the end of the array" ∧
   ∃ i l, ls !! i = Some l ∧ of_device (dr_ski dr) l = true ∧ length mine ≤ i).
Proof.
  intros Hs mine. destruct (device_links_first (dr_ski dr) ls) as [(rest & E & Hr)|(ls1 & l & ls2 & E & Hl & Hlen)].
  - left. split; [by apply (CreateData_first _ _ _ rest)|]. by exists rest.
  - right. split; [by apply (CreateData_overflow _ _ ls ls1 l ls2)|].
    exists (length ls1), l. split_and!; [|done|done]. rewrite E. by apply list_lookup_middle.
Qed.

(** A request that leaves out the feature type is not checked at all: for an unknown
    server feature it is granted with a NULL server feature, and the next look-up of any
    binding follows that pointer. *)
Theorem unchecked_request_poisons dr data s ca cf :
  links (entries s) [] → rq_server_feature_type data = None → rq_client_address data = Some ca →
  DeviceLocalGetFeatureWithAddress (local_device s) (rq_server_address data) = None →
  remote_feature dr ca = Some cf →
  ∃ s', AddBinding dr data s = Ret kEebusErrorOk s' ∧
    ∀ sa ca', HasBinding sa ca' s' = Crash "NULL server feature".
Proof.
  intros Hs Ht Hca Hsf Hcf. unfold AddBinding, AddLink, mbind, Prog_bind, get.
  rewrite Ht, Hca, Hsf. unfold DeviceRemoteGetFeatureWithAddress, mret, Prog_ret. rewrite Hcf. simpl.
  rewrite (on_entries_read _ _ _ (HasServer_spec _ _ _ Hs)). simpl.
  destruct (pool_add_list (entries s) [] (mkLink (link_num s) None (Some cf))) as (p & Hrun & [ps Hp] & Hlog);
    [apply Hs|done|].
  unfold on_entries at 1, FeatureLinkContainerAdd. simpl. rewrite Hrun. eexists. split; [done|].
  intros sa ca'. unfold HasBinding, mbind, Prog_bind, on_entries. simpl.
  assert (Hp' := Hp). destruct (pool_split _ _ [] _ [] Hp) as (ps1 & x & ps2 & -> & Hq & Hx & _ & H2).
  destruct ps1; [|done]. apply (pool_at_log _ _ _ (EventPublish kEventTypeBindingChange kElementChangeAdd
    (dr_ski dr) (fr_entity cf) (Some (fr_feature cf)) None :: log p)) in Hp'.
  unfold FeatureLinkContainerFind, for_each, mbind, Prog_bind.
  rewrite (pool_size_at _ _ _ Hp'). cbn [length app search]. unfold mbind, Prog_bind.
  pose proof (pool_elem_at _ [] x _ _ Hp') as He. simpl in He. rewrite He. unfold pool_load. simpl. by rewrite Hx.
Qed.
End binding_manager.

(** ** Witnesses *)

(** A second server feature, so that the local device can have two bindings. *)
Definition local2 : DeviceLocal :=
  mkDeviceLocal (Some "local")
    [mkEntity (mkEntityAddress (Some "local") ids)
       [heat_pump; mkFeature (addr "local" 4) kRoleTypeServer load_control]].
Definition request4 (device : string) : RequestCall :=
  mkRequestCall (Some (addr device 7)) (Some (addr "local" 4)) (Some load_control).
Definition remote_thermostat (device : string) : FeatureRemote :=
  mkFeatureRemote (thermostat device) (mkEntityAddress (Some device) ids)
    (String.append "ski of " device).
Definition demo_links : list FeatureLink :=
  [mkLink 0 (Some heat_pump) (Some (remote_thermostat "b"));
   mkLink 1 (Some (mkFeature (addr "local" 4) kRoleTypeServer load_control))
     (Some (remote_thermostat "a"))].

(** Device "b" binds first, then device "a". *)
Lemma demo_manager : ∃ s : LinkManager (V := Vector),
  calls [CallAdd (remote "b") (request "b"); CallAdd (remote "a") (request4 "a")]
    (BindingManagerConstruct local2) = Ret tt s ∧ links (entries s) demo_links.
Proof.
  pose proof (AddBinding_list (V := Vector) (remote "b") (request "b") (BindingManagerConstruct local2) []
    load_control (addr "b" 7) (mo_links _ _ _ _ _ (manager_ok_start server_addr local2))
    eq_refl eq_refl eq_refl) as (sf & cf & p & [= <-] & [= <-] & H1 & Hp & _).
  pose proof (AddBinding_list (remote "a") (request4 "a") (mkLinkManager local2 1 p) _
    load_control (addr "a" 7) Hp eq_refl eq_refl eq_refl) as (sf2 & cf2 & p2 & [= <-] & [= <-] & H2 & Hp2 & _).
  exists (mkLinkManager local2 (u64 2) p2). split; [|exact Hp2]. cbn [calls call]. unfold mbind, Prog_bind. rewrite H1.
  unfold mret, Prog_ret. simpl in H2 |- *. change (u64 (0 + 1)) with 1%Z. by rewrite H2.
Qed.

Lemma bindings_stay_unique_witness :
  let cs := [CallAdd (remote "a") (request "a"); CallAdd (remote "b") (request "b")] in
  ∃ (s : LinkManager (V := Vector)) ls, calls cs (BindingManagerConstruct local) = Ret tt s ∧
    links (entries s) ls ∧ NoDup (server_addr <$> ls) ∧ NoDup (link_id <$> ls).
Proof.
  intros cs. apply (bindings_stay_unique local cs); [apply local_wf|done|].
  repeat constructor; simpl; eauto; by eexists.
Defined.

Lemma bind_unbind_witness :
  let s0 := LinkManagerConstruct (V := Vector) local in
  ∃ s1, AddBinding (remote "a") (request "a") s0 = Ret kEebusErrorOk s1 ∧
    HasBinding (Some (addr "local" 3)) (Some (addr "a" 7)) s1 = Ret true s1.
Proof.
  eexists. split; [vm_compute; reflexivity|].
  refine (proj1 (bind_unbind local 0 (LinkManagerConstruct local) [] (remote "a") (request "a")
    (addr "local" 3) (addr "a" 7) load_control _ local_wf (remote_wf "a") (manager_ok_start _ local)
    _ _ _ _ _ _ _)); done.
Defined.

Lemma short_requests_bind_twice_witness :
  ∃ (s : LinkManager (V := Vector)) l1 l2,
    calls [CallAdd (remote "a") (short_request "a"); CallAdd (remote "b") (short_request "b")]
      (BindingManagerConstruct local) = Ret tt s ∧ links (entries s) [l1; l2] ∧
    server_addr l1 = Some (addr "local" 3) ∧ server_addr l2 = server_addr l1.
Proof.
  apply (short_requests_bind_twice local (remote "a") (remote "b") (short_request "a") (short_request "b")
    (mkFeatureAddress None ids (Some 3%Z)) load_control (addr "a" 7) (addr "b" 7)); try done.
  apply local_wf.
Defined.

Lemma RemoveDeviceBindings_exact_witness :
  ∃ s s' : LinkManager (V := Vector),
    links (entries s) demo_links ∧ RemoveDeviceBindings (Some (remote "b")) s = Ret tt s' ∧
    links (entries s') (drop 1 demo_links).
Proof.
  destruct demo_manager as (s & _ & Hs). exists s.
  destruct (RemoveDeviceBindings_exact (remote "b") s demo_links Hs) as (s' & H1 & H2 & _).
  by exists s'.
Defined.

(** The binding of device "a" comes second: reading the bindings of "a" overflows. *)
Lemma CreateBindingData_exact_witness :
  ∃ s : LinkManager (V := Vector), links (entries s) demo_links ∧
    CreateBindingData (remote "a") s = Crash "write past the end of the array".
Proof.
  destruct demo_manager as (s & _ & Hs). exists s. split; [exact Hs|].
  destruct (CreateBindingData_exact (remote "a") s demo_links Hs) as [[_ (rest & E & _)]|[H _]];
    [discriminate E|exact H].
Defined.

Lemma unchecked_request_poisons_witness :
  let data := mkRequestCall (Some (addr "a" 7)) (Some (addr "local" 9)) None in
  let s0 := LinkManagerConstruct (V := Vector) local in
  ∃ s', AddBinding (remote "a") data s0 = Ret kEebusErrorOk s' ∧
    ∀ sa ca', HasBinding sa ca' s' = Crash "NULL server feature".
Proof.
  apply (unchecked_request_poisons (remote "a") _ (LinkManagerConstruct local) (addr "a" 7)
    (mkFeatureRemote (thermostat "a") (entity_address (entity "a" (thermostat "a"))) "ski of a"));
    [apply (manager_ok_start (λ _, ()) local)|done..].
Defined.
