(* ===== verification/SubscriptionManager.v ===== *)
(** * The subscription manager

    [src/spine/subscription/subscription_manager.c].  A remote client feature
    subscribes to a local server feature; [Publish] notifies the subscribers. *)

From S2P Require Import Prelude Vector Pool Spine FeatureLink LinkManager.

Section subscription_manager.
Context {V : Type → Type} `{VectorInterface V}.
Abbreviation FeatureLinkContainer := (Pool (V := V) FeatureLink SpineEvent).
Abbreviation SubscriptionManager := (LinkManager (V := V)).

Definition SubscriptionManagerConstruct (dl : DeviceLocal) : SubscriptionManager :=
  LinkManagerConstruct dl.
Definition GetNextSubscriptionId : Prog SubscriptionManager Z := GetNextLinkId.

Definition AddSubscription (dr : DeviceRemote) (data : RequestCall)
    : Prog SubscriptionManager EebusError :=
  AddLink kEventTypeSubscriptionChange
    (r ← FeatureLinkContainerFind (rq_server_address data) (rq_client_address data);
     mret (bool_decide (is_Some r))) dr data.

Definition RemoveSubscription (dr : DeviceRemote) (data : DeleteCall)
    : Prog SubscriptionManager EebusError :=
  RemoveLink kEventTypeSubscriptionChange (λ _, true) dr data.

Definition RemoveDeviceSubscriptions (remote_device : option DeviceRemote)
    : Prog SubscriptionManager unit :=
  RemoveDeviceLinks kEventTypeSubscriptionChange remote_device.

Definition RemoveEntitySubscriptions (remote_entity : option (DeviceRemote * Entity))
    : Prog SubscriptionManager unit :=
  RemoveEntityLinks kEventTypeSubscriptionChange remote_entity.

(** One round of the loop of [Publish]. *)
Definition notify (feature_addr : option FeatureAddressType) (x : ptr)
    : Prog FeatureLinkContainer (option unit) :=
  subscription ← pool_load x;
  server_addr ← FeatureLinkGetServerAddr subscription;
  if FeatureAddressCompare (Some server_addr) feature_addr then
    client_addr ← FeatureLinkGetClientAddr subscription;
    match client_feature subscription with
    | None => crash "NULL client feature"
    | Some cf => pool_log (SendNotify (fr_ski cf) server_addr client_addr);; mret None
    end
  else mret None.
Definition Publish (feature_addr : option FeatureAddressType) : Prog SubscriptionManager unit :=
  on_entries (for_each (notify feature_addr));; mret tt.

Definition CreateSubscriptionEntryData (subscription : FeatureLink)
    : Prog FeatureLinkContainer EntryData := CreateEntryData subscription.
Definition AddSubscriptionEntries (dr : DeviceRemote)
    : Prog FeatureLinkContainer (list (option EntryData) * nat) := AddEntries dr.
Definition CreateSubscriptionData (dr : DeviceRemote)
    : Prog SubscriptionManager (list (option EntryData) * nat) := CreateData dr.

(** ** Sequences of calls *)

Inductive SubscriptionCall :=
| CallAdd (dr : DeviceRemote) (data : RequestCall)
| CallRemove (dr : DeviceRemote) (data : DeleteCall)
| CallRemoveEntity (remote_entity : option (DeviceRemote * Entity))
| CallRemoveDevice (remote_device : option DeviceRemote)
| CallPublish (feature_addr : option FeatureAddressType).

Definition call (c : SubscriptionCall) : Prog SubscriptionManager unit :=
  match c with
  | CallAdd dr data => AddSubscription dr data;; mret tt
  | CallRemove dr data => RemoveSubscription dr data;; mret tt
  | CallRemoveEntity e => RemoveEntitySubscriptions e
  | CallRemoveDevice d => RemoveDeviceSubscriptions d
  | CallPublish a => Publish a
  end.
Fixpoint calls (cs : list SubscriptionCall) : Prog SubscriptionManager unit :=
  match cs with [] => mret tt | c :: cs' => call c;; calls cs' end.

(** A request with its feature type and complete addresses, from a well-formed device. *)
Definition call_ok (c : SubscriptionCall) : Prop :=
  match c with
  | CallAdd dr data =>
      device_wf (dr_address dr) (dr_entities dr) ∧ is_Some (rq_server_feature_type data) ∧
      (∃ a, rq_client_address data = Some a ∧ fa_device a = dr_address dr) ∧
      ∃ a, rq_server_address data = Some a ∧ fa_device a ≠ None
  | CallRemove _ data => is_Some (del_client_address data) ∧ is_Some (del_server_address data)
  | _ => True
  end.

(** ** Notifications *)

Definition subscribed (a : option FeatureAddressType) (l : FeatureLink) : bool :=
  bool_decide (server_addr l = a).
Definition notification (l : FeatureLink) : option SpineEvent :=
  match server_addr l, client_feature l with
  | Some sa, Some cf => Some (SendNotify (fr_ski cf) sa (address (fr_feature cf)))
  | _, _ => None
  end.

Definition round_log (a : option FeatureAddressType) (l : FeatureLink) : list SpineEvent :=
  if subscribed a l then from_option (λ e, [e]) [] (notification l) else [].

Lemma Publish_list a s ls : links (entries s) ls →
  Publish a s = Ret tt (on_links s (mkPool (items (entries s)) (heap (entries s)) (next_ptr (entries s))
    (concat (round_log a <$> reverse ls) ++ log (entries s)))).
Proof.
  intros [Hp Hok]. unfold Publish, mbind, Prog_bind, on_entries.
  rewrite (for_each_logs (notify a) (round_log a) link_ok _ ls); [done| |done|done].
  intros p x l Hx [[f Hf] [c Hc]]. unfold notify, round_log, notification, subscribed, server_addr.
  unfold FeatureLinkGetServerAddr, FeatureLinkGetClientAddr, mbind, Prog_bind.
  rewrite (pool_load_at _ _ _ Hx), Hf, Hc. unfold mret, Prog_ret.
  rewrite FeatureAddressCompare_eq. cbn [fmap option_fmap option_map].
  case_bool_decide; [done|]. by destruct p.
Qed.

(** In the order they were sent, what the rounds log. *)
Lemma rounds_log a ls : reverse (concat (round_log a <$> reverse ls)) =
  omap notification (filter (λ l, subscribed a l = true) ls).
Proof.
  induction ls as [|l ls IH]; [done|].
  rewrite reverse_cons, fmap_app, List.concat_app, reverse_app, IH, filter_cons. simpl.
  rewrite app_nil_r. unfold round_log at 1. destruct (subscribed a l); [|done]. simpl.
  by destruct (notification l).
Qed.

Lemma AddSubscription_duplicate sa ca p ls : links p ls →
  (r ← FeatureLinkContainerFind sa ca; mret (bool_decide (is_Some r))) p
  = Ret (existsb (joins sa ca) ls) p.
Proof.
  intros Hp. destruct (Find_spec sa ca p ls Hp) as (r & Hr & E).
  unfold mbind, Prog_bind. by rewrite Hr, <- E.
Qed.

Definition pair_of (l : FeatureLink) : option FeatureAddressType * option FeatureAddressType :=
  (server_addr l, client_addr l).

Lemma existsb_joins sa ca ls : existsb (joins sa ca) ls = false → (sa, ca) ∉ pair_of <$> ls.
Proof.
  intros Hno Hin. apply list_elem_of_fmap in Hin as (l & [= -> ->] & Hin).
  assert (existsb (joins (server_addr l) (client_addr l)) ls = true) as Hyes; [|congruence].
  apply existsb_exists. exists l. split; [by apply list_elem_of_In|]. unfold joins.
  by rewrite !bool_decide_true.
Qed.

Lemma subscription_call_keeps c dl k s ls : device_wf (dl_address dl) (dl_entities dl) →
  (Z.of_nat k < num_elements_max)%Z → call_ok c → manager_ok pair_of dl k s ls →
  ∃ s' ls', call c s = Ret tt s' ∧ manager_ok pair_of dl (S k) s' ls'.
Proof.
  intros Hwf Hk Hc Hs. assert (∀ s' ls', manager_ok pair_of dl k s' ls' →
    manager_ok pair_of dl (S k) s' ls') as Hmono by (intros; eapply manager_ok_mono; [|done]; lia).
  destruct c as [dr data|dr data|e|d|a]; unfold call, mbind, Prog_bind.
  - destruct Hc as (Hwfr & [type Ht] & (ca & Hca & Hcdev) & a & Ha & Hdev). unfold AddSubscription.
    edestruct (manager_ok_AddLink pair_of kEventTypeSubscriptionChange) as (e & s' & ls' & Hrun & Hok);
      [exact Hk|exact Hs|exact Ht|exact Hca| | |].
    + apply (AddSubscription_duplicate (rq_server_address data) (rq_client_address data) _ ls), Hs.
    + rewrite Ha, Hca. intros sf cf Hsf Hcf Hno. unfold pair_of at 1, server_addr, client_addr. simpl.
      rewrite (DeviceLocalGetFeature_address _ _ _ Hwf Hsf).
      rewrite (remote_feature_address _ _ _ Hwfr Hcdev Hcf).
      unfold with_device. destruct (fa_device a); [|done]. by apply existsb_joins.
    + rewrite Hrun. by exists s', ls'.
  - destruct Hc as [Hca Hsa]. unfold RemoveSubscription.
    edestruct (manager_ok_RemoveLink pair_of) as (e & s' & ls' & Hrun & Hok); [done..|].
    rewrite Hrun. exists s', ls'. auto.
  - destruct (manager_ok_RemoveEntity pair_of kEventTypeSubscriptionChange e _ _ _ _ Hs)
      as (s' & ls' & Hrun & Hok). exists s', ls'. auto.
  - destruct (manager_ok_RemoveDevice pair_of kEventTypeSubscriptionChange d _ _ _ _ Hs)
      as (s' & ls' & Hrun & Hok). exists s', ls'. auto.
  - pose proof (mo_links _ _ _ _ _ Hs) as Hl. pose proof (Publish_list a s ls Hl) as Hp.
    unfold call. rewrite Hp. eexists _, ls. split; [done|]. apply Hmono.
    eapply manager_ok_sublist; [exact Hs|done|]. destruct Hl as [[ps Hps] Hok].
    split; [exists ps; by apply pool_at_log|done].
Qed.

(** No client feature is subscribed twice to the same server feature, the ids are unique,
    and no call uses freed memory or a NULL pointer, throughout any sequence of calls
    whose requests are complete and come from well-formed devices. *)
Theorem subscriptions_stay_unique dl cs :
  device_wf (dl_address dl) (dl_entities dl) →
  (Z.of_nat (length cs) < num_elements_max)%Z → Forall call_ok cs →
  ∃ s ls, calls cs (SubscriptionManagerConstruct dl) = Ret tt s ∧ links (entries s) ls ∧
    NoDup (pair_of <$> ls) ∧ NoDup (link_id <$> ls).
Proof.
  intros Hwf Hmax Hcs.
  assert (∀ k s ls, (Z.of_nat (k + length cs) < num_elements_max)%Z →
    manager_ok pair_of dl k s ls →
    ∃ s' ls', calls cs s = Ret tt s' ∧ manager_ok pair_of dl (k + length cs) s' ls') as Hgo.
  2: { destruct (Hgo 0 (LinkManagerConstruct dl) [] Hmax (manager_ok_start _ dl)) as (s & ls & Hrun & Hok).
       exists s, ls. split_and!; [done|apply Hok..]. }
  clear Hmax. induction Hcs as [|c cs Hc Hcs IH]; intros k s ls Hk Hs; simpl in *.
  - exists s, ls. by rewrite Nat.add_0_r.
  - destruct (subscription_call_keeps c dl k s ls) as (s1 & ls1 & Hrun & Hok); [done|lia|done..|].
    unfold mbind, Prog_bind. rewrite Hrun.
    destruct (IH (S k) s1 ls1) as (s2 & ls2 & Hrun2 & Hok2); [by rewrite Nat.add_succ_comm in *|done|].
    exists s2, ls2. by rewrite Nat.add_succ_r.
Qed.

(** A publication sends exactly one notification to each client subscribed to the feature,
    in the order of the subscriptions, from the server's to the client's address over
    the client's device, and nothing else; the subscriptions stay as they are. *)
Theorem Publish_exact a s ls : links (entries s) ls →
  ∃ s', Publish a s = Ret tt s' ∧ links (entries s') ls ∧ link_num s' = link_num s ∧
    reverse (log (entries s')) = reverse (log (entries s)) ++
      omap notification (filter (λ l, subscribed a l = true) ls).
Proof.
  intros Hl. eexists. split; [by apply Publish_list|]. simpl. split; [|split; [done|]].
  - destruct Hl as [[ps Hp] Hok]. split; [exists ps; by apply pool_at_log|done].
  - by rewrite reverse_app, rounds_log.
Qed.
End subscription_manager.

(** ** Witnesses *)

Lemma subscriptions_stay_unique_witness :
  let cs := [CallAdd (remote "a") (request "a"); CallAdd (remote "b") (request "b");
             CallPublish (Some (addr "local" 3))] in
  ∃ (s : LinkManager (V := Vector)) ls, calls cs (SubscriptionManagerConstruct local) = Ret tt s ∧
    links (entries s) ls ∧ NoDup (pair_of <$> ls) ∧ NoDup (link_id <$> ls).
Proof.
  intros cs. apply (subscriptions_stay_unique local cs); [apply local_wf|done|].
  assert (∀ d, call_ok (CallAdd (remote d) (request d))) as Hadd.
  { intros d. split_and!; [apply remote_wf|by eexists|by exists (addr d 7)|by exists (addr "local" 3)]. }
  apply Forall_cons; split; [apply Hadd|]. apply Forall_cons; split; [apply Hadd|].
  by apply Forall_singleton.
Defined.

(** Devices "a" and "b" subscribe, one after the other. *)
Definition two_subscribed : list FeatureLink :=
  [mkLink 0 (Some heat_pump)
     (Some (mkFeatureRemote (thermostat "a") (mkEntityAddress (Some "a") ids) "ski of a"));
   mkLink 1 (Some heat_pump)
     (Some (mkFeatureRemote (thermostat "b") (mkEntityAddress (Some "b") ids) "ski of b"))].

Lemma two_subscribers : ∃ s : LinkManager (V := Vector), links (entries s) two_subscribed.
Proof.
  pose proof (mo_links _ _ _ _ _ (manager_ok_start (V := Vector) pair_of local)) as H0.
  destruct (AddLink_list kEventTypeSubscriptionChange (λ p, Ret false p) false (remote "a") (request "a")
    _ [] load_control (addr "a" 7) H0 eq_refl eq_refl eq_refl eq_refl)
    as (sf & cf & p & [= <-] & [= <-] & _ & Hp & _).
  destruct (AddLink_list kEventTypeSubscriptionChange (λ p, Ret false p) false (remote "b") (request "b")
    (mkLinkManager local 1 p) _ load_control (addr "b" 7) Hp eq_refl eq_refl eq_refl eq_refl)
    as (sf2 & cf2 & p2 & [= <-] & [= <-] & _ & Hp2 & _).
  by exists (mkLinkManager local 2 p2).
Qed.

Lemma Publish_exact_witness : ∃ s s' : LinkManager (V := Vector),
  links (entries s) two_subscribed ∧ Publish (Some (addr "local" 3)) s = Ret tt s' ∧
  reverse (log (entries s')) = reverse (log (entries s)) ++
    [SendNotify "ski of a" (addr "local" 3) (addr "a" 7);
     SendNotify "ski of b" (addr "local" 3) (addr "b" 7)].
Proof.
  destruct two_subscribers as (s & Hs). exists s.
  destruct (Publish_exact (Some (addr "local" 3)) s two_subscribed Hs) as (s' & Hrun & _ & _ & Hlog).
  by exists s'.
Defined.
