(* ===== verification/Pending.v ===== *)
(** * Pending replies and results

    [src/common/eebus_countdown/eebus_countdown.h], [src/spine/feature/pending_reply.c],
    [pending_reply_container.c], [pending_result.c], [pending_result_container.c]: a
    request that was sent waits in a container for its reply or result, or for its
    time to run out; then its callback is called.  A callback is its function and
    context ([cb], [ctx]), its calls are logged ([PendingEvent]); what a callback
    does to the container itself is not followed.

    The two containers are the same code over the virtual functions of their
    items: [PendingInterface] is that table. *)

From S2P Require Import Prelude Timer Vector Pool Spine.

(** ** Countdown *)

Record EebusCountdown := EEBUS_COUNTDOWN_of { remaining : Z; expired : bool }.
Definition EEBUS_COUNTDOWN (ticks : Z) : EebusCountdown := EEBUS_COUNTDOWN_of ticks false.
Definition EebusCountdownTick (c : EebusCountdown) : EebusCountdown :=
  let r := if bool_decide (remaining c > 0)%Z then u32 (remaining c - 1) else remaining c in
  EEBUS_COUNTDOWN_of r (if bool_decide (r = 0)%Z then true else expired c).
Definition EebusCountdownHasExpired (c : EebusCountdown) : bool := expired c.
Definition EebusCountdownGetRemaining (c : EebusCountdown) : Z := remaining c.

Definition kDefaultMaxResponseDelayMs : Z := 10000.

(** ** Items *)

(** The message of a reply or result, with the fields the items use; [m_data] stands for
    what the callback finds in the rest. *)
Record PendingMessage := mkMessage {
  msg_cnt_ref : Z;
  m_function_type : Z;
  m_ski : option string;
  m_data : option Z;
}.

Inductive PendingEvent :=
| Called (cb ctx : Z) (msg : option PendingMessage) (addr : option FeatureAddressType) (err : EebusError).

(** The tables [PendingReplyInterface] and [PendingResultInterface]; [fire] is [None] when it
    follows a NULL pointer. *)
Class PendingInterface (A : Type) := {
  get_msg_cnt_ref : A → Z;
  has_expired : A → bool;
  update_time : A → A;
  fire : A → option PendingMessage → EebusError → option PendingEvent;
}.

Record PendingReply := mkPendingReply {
  pr_msg_cnt_ref : Z;
  pr_cb : Z;
  pr_ctx : Z;
  pr_remote_feature_addr : option FeatureAddressType;
  pr_function_type : Z;
  pr_ski : option string;
  pr_countdown : EebusCountdown;
}.

Definition PendingReplyConstruct (msg_cnt_ref : Z) (addr : option FeatureAddressType)
    (function_type : Z) (ski : option string) (cb ctx : Z) : PendingReply :=
  mkPendingReply msg_cnt_ref cb ctx addr function_type ski
    (EEBUS_COUNTDOWN (TIME_MS_TO_S kDefaultMaxResponseDelayMs)).

Definition PendingReplyFire (pr : PendingReply) (reply_msg : option PendingMessage) (err : EebusError)
    : option PendingEvent :=
  if bool_decide (err = kEebusErrorOk) then
    Some (Called (pr_cb pr) (pr_ctx pr) reply_msg (pr_remote_feature_addr pr) err)
  else
    let timeout_msg := mkMessage (pr_msg_cnt_ref pr) (pr_function_type pr) (pr_ski pr) None in
    Some (Called (pr_cb pr) (pr_ctx pr) (Some timeout_msg) (pr_remote_feature_addr pr) err).

#[export] Instance PendingReply_interface : PendingInterface PendingReply := {|
  get_msg_cnt_ref := pr_msg_cnt_ref;
  has_expired pr := EebusCountdownHasExpired (pr_countdown pr);
  update_time pr :=
    mkPendingReply (pr_msg_cnt_ref pr) (pr_cb pr) (pr_ctx pr) (pr_remote_feature_addr pr)
      (pr_function_type pr) (pr_ski pr) (EebusCountdownTick (pr_countdown pr));
  fire := PendingReplyFire;
|}.

Record PendingResult := mkPendingResult {
  pres_msg_cnt_ref : Z;
  pres_function_type : Z;
  pres_cb : Z;
  pres_ctx : Z;
  pres_remote_feature_addr : option FeatureAddressType;
  pres_countdown : EebusCountdown;
}.

Definition PendingResultConstruct (msg_cnt_ref function_type : Z) (addr : option FeatureAddressType)
    (cb ctx : Z) : PendingResult :=
  mkPendingResult msg_cnt_ref function_type cb ctx addr
    (EEBUS_COUNTDOWN (TIME_MS_TO_S kDefaultMaxResponseDelayMs)).

Definition PendingResultFire (pr : PendingResult) (result_msg : option PendingMessage) (err : EebusError)
    : option PendingEvent :=
  if bool_decide (err = kEebusErrorOk) then
    match result_msg with
    | None => None
    | Some m =>
        let msg_with_type := mkMessage (msg_cnt_ref m) (pres_function_type pr) (m_ski m) (m_data m) in
        Some (Called (pres_cb pr) (pres_ctx pr) (Some msg_with_type) (pres_remote_feature_addr pr) err)
    end
  else
    let timeout_msg := mkMessage (pres_msg_cnt_ref pr) (pres_function_type pr) None None in
    Some (Called (pres_cb pr) (pres_ctx pr) (Some timeout_msg) (pres_remote_feature_addr pr) err).

#[export] Instance PendingResult_interface : PendingInterface PendingResult := {|
  get_msg_cnt_ref := pres_msg_cnt_ref;
  has_expired pr := EebusCountdownHasExpired (pres_countdown pr);
  update_time pr :=
    mkPendingResult (pres_msg_cnt_ref pr) (pres_function_type pr) (pres_cb pr) (pres_ctx pr)
      (pres_remote_feature_addr pr) (EebusCountdownTick (pres_countdown pr));
  fire := PendingResultFire;
|}.

(** ** Containers *)

Section container.
Context {V : Type → Type} `{VectorInterface V} {A : Type} `{PendingInterface A}.
Abbreviation Container := (Pool (V := V) A PendingEvent).

Definition pool_fire (a : A) (msg : option PendingMessage) (err : EebusError) : Prog Container unit :=
  match fire a msg err with Some e => pool_log e | None => crash "NULL message" end.

(** [PendingReplyCreate]/[PendingResultCreate] and [VectorPushBack] *)
Definition Add (a : A) : Prog Container EebusError := pool_add a;; mret kEebusErrorOk.

Definition Process (msg : PendingMessage) (err : EebusError) : Prog Container unit :=
  for_each (λ x,
    pending ← pool_load x;
    if bool_decide (get_msg_cnt_ref pending = msg_cnt_ref msg) then
      pool_fire pending (Some msg) err;;
      pool_drop x;;
      mret (Some tt)
    else mret None);;
  mret tt.

Definition tick_item (x : ptr) : Prog Container unit :=
  pending ← pool_load x;
  if has_expired pending then
    pool_fire pending None kEebusErrorTime;;
    pool_drop x
  else pool_store x (update_time pending).
Definition Tick : Prog Container unit := for_each_down tick_item.

(** The loop of the [RemoveFor...] operations over the items that match. *)
Definition remove_item (matches : A → bool) (x : ptr) : Prog Container unit :=
  pending ← pool_load x;
  if matches pending then pool_drop x else mret tt.
Definition RemoveMatching (matches : A → bool) : Prog Container unit :=
  for_each_down (remove_item matches).
End container.

Section reply_container.
Context {V : Type → Type} `{VectorInterface V}.
Abbreviation PendingReplyContainer := (Pool (V := V) PendingReply PendingEvent).

Definition PendingReplyAdd (msg_cnt_ref : Z) (addr : option FeatureAddressType) (function_type : Z)
    (ski : option string) (cb ctx : Z) : Prog PendingReplyContainer EebusError :=
  Add (PendingReplyConstruct msg_cnt_ref addr function_type ski cb ctx).

Definition RemoveForDevice (device_addr : option string) : Prog PendingReplyContainer unit :=
  match device_addr with
  | None => mret tt
  | Some _ =>
      RemoveMatching (λ pr, FeatureAddressMatchDevice (pr_remote_feature_addr pr) device_addr)
  end.

Definition RemoveForSki (ski : option string) : Prog PendingReplyContainer unit :=
  match ski with
  | None => mret tt
  | Some ski =>
      RemoveMatching (λ pr, match pr_ski pr with Some s => bool_decide (s = ski) | None => false end)
  end.
End reply_container.

Section result_container.
Context {V : Type → Type} `{VectorInterface V}.
Abbreviation PendingResultContainer := (Pool (V := V) PendingResult PendingEvent).

Definition PendingResultAdd (msg_cnt_ref function_type : Z) (addr : option FeatureAddressType)
    (cb ctx : Z) : Prog PendingResultContainer EebusError :=
  Add (PendingResultConstruct msg_cnt_ref function_type addr cb ctx).
Definition PendingResultProcess (msg : PendingMessage) : Prog PendingResultContainer unit :=
  Process msg kEebusErrorOk.
End result_container.

(** ** The contract of the items *)

(** Who is called. *)
Definition called (e : PendingEvent) : Z * Z := match e with Called cb ctx _ _ _ => (cb, ctx) end.

Class PendingLaws (A : Type) `{PendingInterface A} := {
  caller : A → Z * Z;
  fire_reply a m err : ∃ e, fire a (Some m) err = Some e ∧ called e = caller a;
  fire_timeout a : ∃ e, fire a None kEebusErrorTime = Some e ∧ called e = caller a;
  update_time_caller a : caller (update_time a) = caller a;
}.

#[export, refine] Instance PendingReply_laws : PendingLaws PendingReply := {|
  caller pr := (pr_cb pr, pr_ctx pr);
|}.
Proof.
  - intros a m err. simpl. unfold PendingReplyFire. case_bool_decide; by eexists.
  - intros a. by eexists.
  - done.
Defined.

#[export, refine] Instance PendingResult_laws : PendingLaws PendingResult := {|
  caller pr := (pres_cb pr, pres_ctx pr);
|}.
Proof.
  - intros a m err. simpl. unfold PendingResultFire. case_bool_decide; by eexists.
  - intros a. by eexists.
  - done.
Defined.

(** ** The contract of the containers *)

Section spec.
Context {V : Type → Type} `{VectorInterface V} {A : Type} `{PendingLaws A}.
Abbreviation Container := (Pool (V := V) A PendingEvent).

Inductive Op :=
| OpAdd (a : A)
| OpProcess (msg : PendingMessage) (err : EebusError)
| OpTick
| OpRemove (matches : A → bool).

Definition run_op (o : Op) : Prog Container unit :=
  match o with
  | OpAdd a => Add a;; mret tt
  | OpProcess msg err => Process msg err
  | OpTick => Tick
  | OpRemove matches => RemoveMatching matches
  end.
Fixpoint run_ops (os : list Op) : Prog Container unit :=
  match os with [] => mret tt | o :: os' => run_op o;; run_ops os' end.

(** The abstract container: the waiting items, what was called (newest first), and the items
    that were removed. *)
Record Abstract := mkAbstract { waiting : list A; calls : list PendingEvent; removed : list A }.

Fixpoint split_first (f : A → bool) (l : list A) : option (list A * A * list A) :=
  match l with
  | [] => None
  | a :: l' =>
      if f a then Some ([], a, l')
      else match split_first f l' with
           | Some (l1, b, l2) => Some (a :: l1, b, l2)
           | None => None
           end
  end.

Definition answers (msg : PendingMessage) (a : A) : bool :=
  bool_decide (get_msg_cnt_ref a = msg_cnt_ref msg).
Definition timeout (a : A) : option PendingEvent :=
  if has_expired a then fire a None kEebusErrorTime else None.
Definition survives (a : A) : option A := if has_expired a then None else Some (update_time a).

Definition abs_op (o : Op) (s : Abstract) : Abstract :=
  match o with
  | OpAdd a => mkAbstract (waiting s ++ [a]) (calls s) (removed s)
  | OpProcess msg err =>
      match split_first (answers msg) (waiting s) with
      | None => s
      | Some (l1, a, l2) =>
          mkAbstract (l1 ++ l2) (option_list (fire a (Some msg) err) ++ calls s) (removed s)
      end
  | OpTick => mkAbstract (omap survives (waiting s)) (omap timeout (waiting s) ++ calls s) (removed s)
  | OpRemove matches =>
      mkAbstract (filter (λ a, matches a = false) (waiting s)) (calls s)
        (filter (λ a, matches a = true) (waiting s) ++ removed s)
  end.
Definition abs_ops (os : list Op) (s : Abstract) : Abstract := foldl (λ s o, abs_op o s) s os.

Definition implements (p : Container) (s : Abstract) : Prop :=
  pool_list p (waiting s) ∧ log p = calls s.

Lemma split_first_none f l : split_first f l = None → ∀ a, a ∈ l → f a = false.
Proof.
  induction l as [|a l IH]; simpl; [intros _ a Ha; by apply not_elem_of_nil in Ha|].
  destruct (f a) eqn:E; [done|]. destruct (split_first f l) as [[[l1 b] l2]|]; [done|].
  intros _ x Hx. apply elem_of_cons in Hx as [->|Hx]; [done|by apply IH].
Qed.

Lemma split_first_some f l l1 a l2 : split_first f l = Some (l1, a, l2) →
  l = l1 ++ a :: l2 ∧ f a = true ∧ ∀ b, b ∈ l1 → f b = false.
Proof.
  revert l1. induction l as [|b l IH]; intros l1; simpl; [done|].
  destruct (f b) eqn:E.
  - intros [= <- <- <-]. split_and!; [done|done|]. intros x Hx. by apply not_elem_of_nil in Hx.
  - destruct (split_first f l) as [[[l1' a'] l2']|]; [|done]. intros [= <- <- <-].
    destruct (IH l1' eq_refl) as (-> & Ha & Hno). split_and!; [done|done|].
    intros x Hx. apply elem_of_cons in Hx as [->|Hx]; [done|by apply Hno].
Qed.

Lemma Process_implements msg err p s : implements p s →
  ∃ p', Process msg err p = Ret tt p' ∧ implements p' (abs_op (OpProcess msg err) s).
Proof.
  intros [Hp Hlog]. unfold Process, mbind at 1, Prog_bind at 1. simpl.
  destruct (split_first (answers msg) (waiting s)) as [[[l1 a] l2]|] eqn:E.
  - apply split_first_some in E as (El & Ha & Hno). rewrite El in Hp. destruct Hp as [ps Hp].
    destruct (pool_split _ _ _ _ _ Hp) as (ps1 & x & ps2 & -> & Hq & Hx & _ & _).
    destruct (fire_reply a msg err) as (e & He & _).
    pose proof (pool_at_log _ _ _ (e :: log p) Hp) as Hp1.
    destruct (pool_drop_at _ _ _ _ _ _ _ Hp1 Hq) as [Hd Hp2].
    erewrite for_each_stop; [|exact Hp|exact Hq| |].
    + eexists. split; [done|]. rewrite He. split; [by eexists|]. simpl. by rewrite Hlog.
    + intros y b Hb Hy. unfold mbind, Prog_bind. rewrite (pool_load_at _ _ _ Hy).
      apply Hno in Hb. unfold answers in Hb. by rewrite Hb.
    + unfold mbind, Prog_bind. rewrite (pool_load_at _ _ _ Hx). unfold answers in Ha. rewrite Ha.
      unfold pool_fire. rewrite He. unfold pool_log, modify. by rewrite Hd.
  - erewrite for_each_pass; [by exists p|exact Hp|]. intros x a Ha Hx.
    unfold mbind, Prog_bind. rewrite (pool_load_at _ _ _ Hx).
    apply (split_first_none _ _ E) in Ha. unfold answers in Ha. by rewrite Ha.
Qed.

Lemma concat_options {B} (f : A → option B) l : concat ((λ a, option_list (f a)) <$> l) = omap f l.
Proof.
  induction l as [|a l IH]; [done|].
  change (option_list (f a) ++ concat ((λ a, option_list (f a)) <$> l) = omap f (a :: l)).
  rewrite IH. simpl. by destruct (f a).
Qed.

Lemma Tick_implements p s : implements p s →
  ∃ p', Tick p = Ret tt p' ∧ implements p' (abs_op OpTick s).
Proof.
  intros [Hp Hlog]. destruct (for_each_down_list (V := V) tick_item survives
    (λ a, option_list (timeout a)) p (waiting s)) as (p' & Hrun & Hl & Hlog'); [|done|].
  - clear p Hp Hlog. intros p ps1 x ps2 l1 a l2 Hp Hq. unfold tick_item, mbind, Prog_bind.
    destruct (pool_split _ _ _ _ _ Hp) as (qs1 & y & qs2 & Eps & Hq' & Hx & _ & _).
    apply app_inj_1 in Eps as [<- Eps]; [|congruence]. injection Eps as <- <-.
    rewrite (pool_load_at _ _ _ Hx). unfold survives, timeout. destruct (has_expired a).
    + destruct (fire_timeout a) as (e & He & _). unfold pool_fire. rewrite He.
      unfold pool_log, modify. pose proof (pool_at_log _ _ _ (e :: log p) Hp) as Hp1.
      destruct (pool_drop_at _ _ _ _ _ _ _ Hp1 Hq) as [Hd Hp2]. rewrite Hd. by eexists.
    + destruct (pool_store_at _ _ _ _ _ _ _ (update_time a) Hp Hq) as (p' & Hrun & Hp' & Hlog).
      rewrite Hrun. by exists p'.
  - exists p'. split; [done|]. split; [done|]. by rewrite Hlog', concat_options, Hlog.
Qed.

Lemma filter_omap (f : A → bool) (l : list A) :
  omap (λ a, if f a then None else Some a) l = filter (λ a, f a = false) l.
Proof.
  induction l as [|a l IH]; [done|]. rewrite filter_cons, <- IH. simpl. by destruct (f a).
Qed.

Lemma Remove_implements matches p s : implements p s →
  ∃ p', RemoveMatching matches p = Ret tt p' ∧ implements p' (abs_op (OpRemove matches) s).
Proof.
  intros [Hp Hlog]. destruct (for_each_down_list (V := V) (remove_item matches)
    (λ a, if matches a then None else Some a) (λ _, []) p (waiting s)) as (p' & Hrun & Hl & Hlog');
    [|done|].
  - clear p Hp Hlog. intros p ps1 x ps2 l1 a l2 Hp Hq. unfold remove_item, mbind, Prog_bind.
    destruct (pool_split _ _ _ _ _ Hp) as (qs1 & y & qs2 & Eps & Hq' & Hx & _ & _).
    apply app_inj_1 in Eps as [<- Eps]; [|congruence]. injection Eps as <- <-.
    rewrite (pool_load_at _ _ _ Hx). destruct (matches a).
    + destruct (pool_drop_at _ _ _ _ _ _ _ Hp Hq) as [Hd Hp2]. rewrite Hd. by eexists.
    + by exists p.
  - exists p'. split; [done|]. rewrite filter_omap in Hl. split; [done|].
    rewrite Hlog', Hlog. simpl. clear. by induction (waiting s).
Qed.

Lemma Add_implements a p s : implements p s → (Z.of_nat (length (waiting s)) < num_elements_max)%Z →
  ∃ p', run_op (OpAdd a) p = Ret tt p' ∧ implements p' (abs_op (OpAdd a) s).
Proof.
  intros [Hp Hlog] Hmax. destruct (pool_add_list p (waiting s) a Hp Hmax) as (p' & Hrun & Hl & Hlog').
  exists p'. unfold run_op, Add, mbind, Prog_bind. rewrite Hrun. split; [done|]. split; [done|].
  by rewrite Hlog'.
Qed.

Lemma op_implements o p s : implements p s → (Z.of_nat (length (waiting s)) < num_elements_max)%Z →
  ∃ p', run_op o p = Ret tt p' ∧ implements p' (abs_op o s).
Proof.
  destruct o; intros Hs Hmax; [by apply Add_implements|by apply Process_implements|
    by apply Tick_implements|by apply Remove_implements].
Qed.

Lemma length_survivors l : length (omap survives l) ≤ length l.
Proof.
  induction l as [|a l IH]; [done|].
  change (omap survives (a :: l)) with
    (match survives a with Some b => b :: omap survives l | None => omap survives l end).
  destruct (survives a); cbn [length]; lia.
Qed.

Lemma abs_op_length o s : length (waiting (abs_op o s)) ≤ S (length (waiting s)).
Proof.
  destruct o as [a|msg err| |matches]; simpl.
  - rewrite length_app. simpl. lia.
  - destruct (split_first (answers msg) (waiting s)) as [[[l1 a] l2]|] eqn:E; simpl; [|lia].
    apply split_first_some in E as (-> & _). rewrite !length_app. simpl. lia.
  - pose proof (length_survivors (waiting s)). lia.
  - pose proof (length_filter (λ a, matches a = false) (waiting s)). lia.
Qed.

Lemma ops_implement os p s : implements p s →
  (Z.of_nat (length (waiting s) + length os) < num_elements_max)%Z →
  ∃ p', run_ops os p = Ret tt p' ∧ implements p' (abs_ops os s).
Proof.
  revert p s. induction os as [|o os IH]; intros p s Hs Hmax; [by exists p|].
  destruct (op_implements o p s Hs) as (p1 & Hrun & Hs1); [lia|].
  cbn [run_ops]. unfold mbind, Prog_bind. rewrite Hrun. apply IH; [done|].
  pose proof (abs_op_length o s). simpl in Hmax. lia.
Qed.

Lemma implements_start : implements pool_empty (mkAbstract [] [] []).
Proof. split; [apply pool_empty_list|done]. Qed.

(** C38: The containers refine the abstract container: any sequence of additions, replies,
    ticks and removals runs without touching freed memory, keeps exactly the waiting
    items allocated, and calls exactly the callbacks of the abstract one. *)
Theorem pending_refines os : (Z.of_nat (length os) < num_elements_max)%Z →
  ∃ p, run_ops os pool_empty = Ret tt p ∧ implements p (abs_ops os (mkAbstract [] [] [])).
Proof. intros Hmax. apply ops_implement; [apply implements_start|done]. Qed.

(** The items a sequence adds. *)
Definition added (os : list Op) : list A :=
  omap (λ o, match o with OpAdd a => Some a | _ => None end) os.
Definition keeps_all (o : Op) : Prop := match o with OpRemove _ => False | _ => True end.

Lemma tick_callers l :
  (caller <$> omap survives l) ++ (called <$> omap timeout l) ≡ₚ caller <$> l.
Proof.
  induction l as [|a l IH]; [done|]. csimpl. unfold survives at 1, timeout at 1.
  destruct (has_expired a); csimpl.
  - destruct (fire_timeout a) as (e & -> & E). csimpl. rewrite E, <- IH.
    symmetry. apply Permutation_middle.
  - by rewrite update_time_caller, IH.
Qed.

Lemma filter_callers (f : A → bool) (l : list A) :
  (caller <$> filter (λ a, f a = false) l) ++ (caller <$> filter (λ a, f a = true) l) ≡ₚ caller <$> l.
Proof.
  induction l as [|a l IH]; [done|]. rewrite !filter_cons. destruct (f a); csimpl; rewrite <- IH.
  - symmetry. apply Permutation_middle.
  - done.
Qed.

Definition accounted (s : Abstract) : list (Z * Z) :=
  (caller <$> waiting s) ++ (called <$> calls s) ++ (caller <$> removed s).

Lemma accounted_op o s : accounted (abs_op o s) ≡ₚ (caller <$> added [o]) ++ accounted s.
Proof.
  unfold accounted. destruct o as [a|msg err| |matches]; simpl.
  - rewrite fmap_app, <- app_assoc. csimpl. symmetry. apply Permutation_middle.
  - destruct (split_first (answers msg) (waiting s)) as [[[l1 a] l2]|] eqn:E; simpl; [|done].
    apply split_first_some in E as (-> & _). destruct (fire_reply a msg err) as (e & -> & Ec). csimpl.
    rewrite Ec, !fmap_app, fmap_cons, <- !app_assoc. csimpl.
    apply Permutation_app_head. symmetry. apply Permutation_middle.
  - rewrite fmap_app, <- (tick_callers (waiting s)). by rewrite <- !app_assoc.
  - rewrite fmap_app, <- (filter_callers matches (waiting s)), <- !app_assoc.
    apply Permutation_app_head, Permutation_app_swap_app.
Qed.

Lemma accounted_ops os s : accounted (abs_ops os s) ≡ₚ (caller <$> added os) ++ accounted s.
Proof.
  revert s. induction os as [|o os IH]; intros s; [done|].
  change (abs_ops (o :: os) s) with (abs_ops os (abs_op o s)). rewrite IH, accounted_op.
  replace (added (o :: os)) with (added [o] ++ added os) by (by destruct o).
  rewrite fmap_app, <- !app_assoc. apply Permutation_app_swap_app.
Qed.

Lemma removed_ops os s : Forall keeps_all os → removed (abs_ops os s) = removed s.
Proof.
  intros Hos. revert s. induction Hos as [|o os Ho Hos IH]; intros s; [done|].
  change (abs_ops (o :: os) s) with (abs_ops os (abs_op o s)). rewrite IH.
  destruct o; try done. simpl. by destruct (split_first _ _) as [[[? ?] ?]|].
Qed.

(** No callback is called twice, and none is lost.  Counted with their multiplicity,
    the callbacks still waiting and those called, by a reply or by the timeout, are
    callbacks of requests that were added; without removals they are all of them. *)
Theorem each_callback_once os : (Z.of_nat (length os) < num_elements_max)%Z →
  ∃ p l, run_ops os pool_empty = Ret tt p ∧ pool_list p l ∧
    (caller <$> l) ++ (called <$> log p) ⊆+ caller <$> added os ∧
    (Forall keeps_all os → (caller <$> l) ++ (called <$> log p) ≡ₚ caller <$> added os).
Proof.
  intros Hmax. destruct (ops_implement os _ _ implements_start Hmax) as (p & Hrun & Hp & Hlog).
  pose proof (accounted_ops os (mkAbstract [] [] [])) as Hacc. unfold accounted in Hacc at 1.
  rewrite <- Hlog, app_assoc in Hacc. change (accounted (mkAbstract [] [] [])) with (@nil (Z * Z)) in Hacc.
  rewrite app_nil_r in Hacc. exists p, (waiting (abs_ops os (mkAbstract [] [] []))). split_and!; [done..| |].
  - rewrite <- Hacc. apply submseteq_inserts_r. done.
  - intros Hos. by rewrite (removed_ops os _ Hos), app_nil_r in Hacc.
Qed.
End spec.

(** ** Replies: when they time out, and whose they are *)

Section replies.
Context {V : Type → Type} `{VectorInterface V}.
Abbreviation PendingReplyContainer := (Pool (V := V) PendingReply PendingEvent).
Implicit Types (p : PendingReplyContainer) (l : list PendingReply).

(** The reply with [r] ticks left. *)
Definition left (r : nat) (pr : PendingReply) : PendingReply :=
  mkPendingReply (pr_msg_cnt_ref pr) (pr_cb pr) (pr_ctx pr) (pr_remote_feature_addr pr)
    (pr_function_type pr) (pr_ski pr) (EEBUS_COUNTDOWN_of (Z.of_nat r) (bool_decide (r = 0))).
Definition timeout_call (pr : PendingReply) : PendingEvent :=
  Called (pr_cb pr) (pr_ctx pr)
    (Some (mkMessage (pr_msg_cnt_ref pr) (pr_function_type pr) (pr_ski pr) None))
    (pr_remote_feature_addr pr) kEebusErrorTime.

Lemma update_time_left r pr : (Z.of_nat r < 2 ^ 32)%Z → update_time (left (S r) pr) = left r pr.
Proof.
  intros Hr. unfold left at 1. simpl. unfold EebusCountdownTick. simpl remaining. simpl expired.
  rewrite bool_decide_true by lia. replace (Z.of_nat (S r) - 1)%Z with (Z.of_nat r) by lia.
  rewrite u32_small by (unfold is_u32; lia). unfold left. f_equal. f_equal.
  case_bool_decide; case_bool_decide; (done || lia).
Qed.

Lemma omap_fmap_all {A B C} (f : B → option C) (g : A → B) (h : A → C) (l : list A) :
  (∀ a, f (g a) = Some (h a)) → omap f (g <$> l) = h <$> l.
Proof.
  intros Hf. induction l as [|a l IH]; [done|]. rewrite !fmap_cons.
  change (match f (g a) with Some c => c :: omap f (g <$> l) | None => omap f (g <$> l) end
          = h a :: (h <$> l)). by rewrite Hf, IH.
Qed.

Lemma omap_fmap_none {A B C} (f : B → option C) (g : A → B) (l : list A) :
  (∀ a, f (g a) = None) → omap f (g <$> l) = [].
Proof.
  intros Hf. induction l as [|a l IH]; [done|]. rewrite fmap_cons.
  change (match f (g a) with Some c => c :: omap f (g <$> l) | None => omap f (g <$> l) end = []).
  by rewrite Hf.
Qed.

Lemma tick_left r l c : (Z.of_nat r < 2 ^ 32)%Z →
  abs_op OpTick (mkAbstract (left (S r) <$> l) c []) = mkAbstract (left r <$> l) c [].
Proof.
  intros Hr. cbn [abs_op waiting calls removed]. f_equal.
  - apply omap_fmap_all. intros pr. unfold survives.
    change (has_expired (left (S r) pr)) with (bool_decide (S r = 0)).
    rewrite bool_decide_false by lia. by rewrite update_time_left.
  - by rewrite omap_fmap_none.
Qed.

Lemma tick_out l c :
  abs_op OpTick (mkAbstract (left 0 <$> l) c []) = mkAbstract [] ((timeout_call <$> l) ++ c) [].
Proof.
  cbn [abs_op waiting calls removed]. f_equal; [by apply omap_fmap_none|].
  f_equal. by apply omap_fmap_all.
Qed.

Lemma ticks_left k : ∀ r l c, (Z.of_nat (k + r) < 2 ^ 32)%Z →
  abs_ops (replicate k OpTick) (mkAbstract (left (k + r) <$> l) c []) = mkAbstract (left r <$> l) c [].
Proof.
  induction k as [|k IH]; intros r l c Hr; [done|].
  change (abs_ops (replicate (S k) OpTick) ?s) with (abs_ops (replicate k OpTick) (abs_op OpTick s)).
  simpl Nat.add. rewrite tick_left by lia. apply IH. lia.
Qed.

(** The ticks a new request has. *)
Definition response_ticks : nat := Z.to_nat (TIME_MS_TO_S kDefaultMaxResponseDelayMs).

Lemma construct_left cnt a ft ski cb ctx :
  PendingReplyConstruct cnt a ft ski cb ctx = left response_ticks (PendingReplyConstruct cnt a ft ski cb ctx).
Proof. done. Qed.

(** C39: A request without a reply times out at the eleventh tick: the ten ticks of the
    default response delay call nothing and keep every request waiting, the next one
    calls each callback once, with the error [kEebusErrorTime] and the data of its request,
    and leaves the container empty. *)
Theorem requests_time_out p l : pool_list p (left response_ticks <$> l) →
  (Z.of_nat (length l + 11) < num_elements_max)%Z →
  (∀ k, k ≤ 10 → ∃ p', run_ops (replicate k OpTick) p = Ret tt p' ∧
     pool_list p' (left (10 - k) <$> l) ∧ log p' = log p) ∧
  (∃ p', run_ops (replicate 11 OpTick) p = Ret tt p' ∧
     pool_list p' [] ∧ log p' = (timeout_call <$> l) ++ log p).
Proof.
  intros Hp Hmax.
  assert (∀ k, k ≤ 11 → ∃ p', run_ops (replicate k OpTick) p = Ret tt p' ∧
    implements p' (abs_ops (replicate k OpTick) (mkAbstract (left 10 <$> l) (log p) []))) as Hrun.
  { intros k Hk. apply ops_implement; [by split|]. simpl. rewrite length_fmap, length_replicate. lia. }
  split.
  - intros k Hk. destruct (Hrun k) as (p' & Hr & Hl & Hlog); [lia|]. exists p'.
    replace 10 with (k + (10 - k)) in Hl, Hlog by lia. rewrite ticks_left in Hl, Hlog by lia. done.
  - destruct (Hrun 11) as (p' & Hr & Hl & Hlog); [lia|]. exists p'. split; [done|].
    change (abs_ops (replicate 11 OpTick) ?s) with (abs_op OpTick (abs_ops (replicate 10 OpTick) s)) in Hl, Hlog.
    rewrite (ticks_left 10 0), tick_out in Hl, Hlog by done. done.
Qed.

(** A reply is matched by its message counter alone.  Message counters are counted for
    each remote device; of two requests with the same counter the first one added takes
    the reply, whatever device it was sent to and whatever device the reply comes from, and the
    other one stays. *)
Theorem reply_goes_to_first_counter msg p pa pb : pool_list p [pa; pb] →
  pr_msg_cnt_ref pa = msg_cnt_ref msg → pr_msg_cnt_ref pb = msg_cnt_ref msg →
  ∃ p', Process msg kEebusErrorOk p = Ret tt p' ∧ pool_list p' [pb] ∧
    log p' = Called (pr_cb pa) (pr_ctx pa) (Some msg) (pr_remote_feature_addr pa) kEebusErrorOk :: log p.
Proof.
  intros Hp Ha Hb. destruct (Process_implements msg kEebusErrorOk p (mkAbstract [pa; pb] (log p) []))
    as (p' & Hrun & Hl & Hlog); [by split|]. exists p'. split; [done|].
  simpl in Hl, Hlog. unfold answers in Hl, Hlog. simpl in Hl, Hlog.
  rewrite Ha, bool_decide_true in Hl, Hlog by done. done.
Qed.
End replies.

(** ** Witnesses *)

Definition reading (device ski : string) (cnt cb : Z) : PendingReply :=
  PendingReplyConstruct cnt (Some (mkFeatureAddress (Some device) (Some [Some 1%Z]) (Some 2%Z))) 14
    (Some ski) cb 0.

Lemma two_readings : ∃ p : Pool (V := Vector) PendingReply PendingEvent,
  pool_list p [reading "a" "ski a" 1 100; reading "b" "ski b" 1 200] ∧ log p = [].
Proof.
  destruct (ops_implement (V := Vector) [OpAdd (reading "a" "ski a" 1 100); OpAdd (reading "b" "ski b" 1 200)]
    _ _ implements_start) as (p & _ & Hp); [done|]. by exists p.
Qed.

Lemma pending_refines_witness :
  let os := [OpAdd (reading "a" "ski a" 1 100); OpTick; OpProcess (mkMessage 1 14 None (Some 5%Z)) kEebusErrorOk] in
  ∃ p : Pool (V := Vector) PendingReply PendingEvent, run_ops os pool_empty = Ret tt p ∧ pool_list p [] ∧
    called <$> log p = [(100%Z, 0%Z)].
Proof.
  intros os. destruct (pending_refines (V := Vector) os) as (p & Hrun & Hl & Hlog); [done|].
  exists p. split; [exact Hrun|]. split; [exact Hl|]. by rewrite Hlog.
Defined.

Lemma each_callback_once_witness :
  let os := [OpAdd (reading "a" "ski a" 1 100); OpAdd (reading "b" "ski b" 2 200)] in
  ∃ (p : Pool (V := Vector) PendingReply PendingEvent) (l : list PendingReply), run_ops os pool_empty = Ret tt p ∧
    (caller <$> l) ++ (called <$> log p) ≡ₚ [(100, 0); (200, 0)]%Z.
Proof.
  intros os. destruct (each_callback_once (V := Vector) os) as (p & l & Hrun & _ & _ & Hall); [done|].
  exists p, l. split; [exact Hrun|]. apply Hall. by repeat constructor.
Defined.

Lemma requests_time_out_witness : ∃ p p' : Pool (V := Vector) PendingReply PendingEvent,
  log p = [] ∧ run_ops (replicate 11 OpTick) p = Ret tt p' ∧ pool_list p' [] ∧
  (called <$> log p') = [(100, 0); (200, 0)]%Z.
Proof.
  destruct two_readings as (p & Hp & Hlog).
  destruct (requests_time_out p [reading "a" "ski a" 1 100; reading "b" "ski b" 1 200] Hp eq_refl)
    as [_ (p' & Hrun & Hl & Hlog')].
  exists p, p'. split; [exact Hlog|]. split; [exact Hrun|]. split; [exact Hl|]. by rewrite Hlog', Hlog.
Defined.

(** The reply of device "b" calls the callback of the reading of device "a". *)
Lemma reply_goes_to_first_counter_witness : ∃ p p' : Pool (V := Vector) PendingReply PendingEvent,
  pool_list p [reading "a" "ski a" 1 100; reading "b" "ski b" 1 200] ∧
  Process (mkMessage 1 14 (Some "ski b") (Some 5%Z)) kEebusErrorOk p = Ret tt p' ∧
  (called <$> log p') = [(100, 0)]%Z.
Proof.
  destruct two_readings as (p & Hp & Hlog). exists p.
  destruct (reply_goes_to_first_counter (mkMessage 1 14 (Some "ski b") (Some 5%Z)) p _ _ Hp eq_refl eq_refl)
    as (p' & Hrun & _ & Hlog'). exists p'. split; [exact Hp|]. split; [exact Hrun|]. by rewrite Hlog', Hlog.
Defined.
