(* ===== verification/Sender.v ===== *)
(** * The sender

    [src/spine/device/sender.c]: every remote device has a sender, which counts the
    messages, puts the header in front of the commands and hands the text to the
    writer.  The printer of the data model, which also adds the constant
    specification version, and the allocation of the command array are parameters
    ([SenderEnv]). *)

From stdpp Require Import sorting.
From S2P Require Import Prelude SpineFunction Vector Pool Spine FeatureLink LinkManager.
From S2P Require Import BindingManager.

Inductive CommandClassifierType :=
| kCommandClassifierTypeRead
| kCommandClassifierTypeReply
| kCommandClassifierTypeNotify
| kCommandClassifierTypeWrite
| kCommandClassifierTypeCall
| kCommandClassifierTypeResult.

#[export] Instance CommandClassifierType_eq_dec : EqDecision CommandClassifierType.
Proof. solve_decision. Defined.

(** The commands the sender builds itself, and those of its callers. *)
Inductive CmdType :=
| CmdData (cmd : SpineFunction.CmdType)
| CmdResultData (error_number : Z) (description : option string)
| CmdSubscriptionRequestCall (data : RequestCall)
| CmdSubscriptionDeleteCall (data : DeleteCall)
| CmdBindingRequestCall (data : RequestCall)
| CmdBindingDeleteCall (data : DeleteCall).

Record HeaderType := mkHeader {
  src_addr : option FeatureAddressType;
  dest_addr : option FeatureAddressType;
  msg_cnt : option Z;
  hdr_msg_cnt_ref : option Z;
  cmd_classifier : CommandClassifierType;
  ack_request : option bool;
}.
Record DatagramType := mkDatagram { header : HeaderType; payload : list CmdType }.

Record ErrorType := mkError { error_number : Z; description : option string }.
Definition kErrorNumberTypeNoError : Z := 0.

Class SenderEnv := {
  DatagramPrintUnformatted : DatagramType → option string;
  alloc_cmds : nat → bool;
}.

(** [Sender]; [written] is what the writer received, newest first, with the datagram the
    text was printed from. *)
Record Sender := mkSender {
  msg_num : Z;
  writer : bool;
  written : list (DatagramType * string);
}.

Section sender.
Context `{SenderEnv}.

Definition SenderConstruct (writer : bool) : Sender := mkSender 0 writer [].

Definition SenderGetNextMsgCounter : Prog Sender Z := λ s,
  let n := u64 (msg_num s + 1) in Ret n (mkSender n (writer s) (written s)).

Definition DATA_WRITER_WRITE_MESSAGE (d : DatagramType) (msg : string) : Prog Sender unit :=
  modify (λ s, mkSender (msg_num s) (writer s) ((d, msg) :: written s)).

(** The error and, through [msg_cnt], the counter of the message when it was assigned. *)
Definition SendSpineMessage (classifier : CommandClassifierType)
    (src_addr dst_addr : option FeatureAddressType) (msg_counter_ref : option Z) (request_ack : bool)
    (cmd : list CmdType) : Prog Sender (EebusError * option Z) :=
  if bool_decide (src_addr = None) || bool_decide (dst_addr = None) || bool_decide (length cmd = 0)
  then mret (kEebusErrorInputArgumentNull, None)
  else
    w ← gets writer;
    if negb w then mret (kEebusErrorInit, None)
    else
      msg_counter ← SenderGetNextMsgCounter;
      let header := mkHeader src_addr dst_addr (Some msg_counter) msg_counter_ref classifier
                      (if request_ack then Some true else None) in
      if negb (alloc_cmds (length cmd)) then mret (kEebusErrorMemoryAllocate, Some msg_counter)
      else
        let datagram := mkDatagram header cmd in
        match DatagramPrintUnformatted datagram with
        | None => mret (kEebusErrorMemoryAllocate, Some msg_counter)
        | Some msg =>
            DATA_WRITER_WRITE_MESSAGE datagram msg;;
            mret (kEebusErrorOk, Some msg_counter)
        end.

Definition Read (sender_addr dest_addr : option FeatureAddressType) (cmd : CmdType)
    : Prog Sender (EebusError * option Z) :=
  SendSpineMessage kCommandClassifierTypeRead sender_addr dest_addr None false [cmd].

Definition Reply (request_header : option HeaderType) (sender_addr : option FeatureAddressType)
    (cmd : CmdType) : Prog Sender EebusError :=
  match request_header, sender_addr with
  | Some h, Some sa =>
      if bool_decide (src_addr h = None) then mret kEebusErrorInputArgument
      else
        dest ← deref_address (dest_addr h);
        let src := mkFeatureAddress (fa_device sa) (fa_entity dest) (fa_feature dest) in
        r ← SendSpineMessage kCommandClassifierTypeReply (Some src) (src_addr h) (msg_cnt h) false [cmd];
        mret r.1
  | _, _ => mret kEebusErrorInputArgumentNull
  end.

Definition Notify (sender_addr dest_addr : option FeatureAddressType) (cmd : CmdType)
    : Prog Sender EebusError :=
  r ← SendSpineMessage kCommandClassifierTypeNotify sender_addr dest_addr None false [cmd]; mret r.1.

Definition Write (sender_addr dest_addr : option FeatureAddressType) (cmd : CmdType)
    : Prog Sender (EebusError * option Z) :=
  SendSpineMessage kCommandClassifierTypeWrite sender_addr dest_addr None true [cmd].

Definition NodeManagementAddress (device_addr : option string) : FeatureAddressType :=
  mkFeatureAddress device_addr (Some [Some 0%Z]) (Some 0%Z).

Definition SendNodeManagmentCall (cmd : CmdType) (local_device remote_device : option string)
    : Prog Sender EebusError :=
  r ← SendSpineMessage kCommandClassifierTypeCall (Some (NodeManagementAddress local_device))
        (Some (NodeManagementAddress remote_device)) None true [cmd];
  mret r.1.

(** The four calls to the node management of the remote device. *)
Definition node_management_call (sender_addr dest_addr : option FeatureAddressType) (cmd : CmdType)
    : Prog Sender EebusError :=
  match sender_addr, dest_addr with
  | Some sa, Some da => SendNodeManagmentCall cmd (fa_device sa) (fa_device da)
  | _, _ => mret kEebusErrorInputArgumentNull
  end.
Definition CallSubscribe (sender_addr dest_addr : option FeatureAddressType) (server_feature_type : Z)
    : Prog Sender EebusError :=
  node_management_call sender_addr dest_addr
    (CmdSubscriptionRequestCall (mkRequestCall sender_addr dest_addr (Some server_feature_type))).
Definition CallUnsubscribe (sender_addr dest_addr : option FeatureAddressType) : Prog Sender EebusError :=
  node_management_call sender_addr dest_addr
    (CmdSubscriptionDeleteCall (mkDeleteCall sender_addr dest_addr)).
Definition CallBind (sender_addr dest_addr : option FeatureAddressType) (server_feature_type : Z)
    : Prog Sender EebusError :=
  node_management_call sender_addr dest_addr
    (CmdBindingRequestCall (mkRequestCall sender_addr dest_addr (Some server_feature_type))).
Definition CallUnbind (sender_addr dest_addr : option FeatureAddressType) : Prog Sender EebusError :=
  node_management_call sender_addr dest_addr
    (CmdBindingDeleteCall (mkDeleteCall sender_addr dest_addr)).

Definition SendResult (request_header : option HeaderType) (sender_addr : option FeatureAddressType)
    (err : option ErrorType) : Prog Sender EebusError :=
  match request_header, sender_addr with
  | Some h, Some sa =>
      match dest_addr h with
      | None => mret kEebusErrorInputArgument
      | Some dest =>
          let src := mkFeatureAddress (fa_device sa) (fa_entity dest) (fa_feature dest) in
          let err_number := match err with Some e => error_number e | None => kErrorNumberTypeNoError end in
          let cmd := CmdResultData err_number (err ≫= description) in
          r ← SendSpineMessage kCommandClassifierTypeResult (Some src) (src_addr h) (msg_cnt h) false [cmd];
          mret r.1
      end
  | _, _ => mret kEebusErrorInputArgumentNull
  end.
Definition ResultSuccess (request_header : option HeaderType) (sender_addr : option FeatureAddressType)
    : Prog Sender EebusError := SendResult request_header sender_addr None.
Definition ResultError (request_header : option HeaderType) (sender_addr : option FeatureAddressType)
    (err : option ErrorType) : Prog Sender EebusError := SendResult request_header sender_addr err.

(** ** One message *)

Lemma SendSpineMessage_spec c src dst cref (ack : bool) cmd s : writer s = true → cmd ≠ [] →
  let n := u64 (msg_num s + 1) in
  let d := mkDatagram (mkHeader (Some src) (Some dst) (Some n) cref c
             (if ack then Some true else None)) cmd in
  SendSpineMessage c (Some src) (Some dst) cref ack cmd s
  = match (if alloc_cmds (length cmd) then DatagramPrintUnformatted d else None) with
    | Some msg => Ret (kEebusErrorOk, Some n) (mkSender n (writer s) ((d, msg) :: written s))
    | None => Ret (kEebusErrorMemoryAllocate, Some n) (mkSender n (writer s) (written s))
    end.
Proof.
  destruct s as [num w wr]. simpl. intros -> Hcmd. set (n := u64 (num + 1)).
  set (d := mkDatagram _ cmd).
  unfold SendSpineMessage, mbind, Prog_bind, gets. rewrite bool_decide_false by done.
  rewrite bool_decide_false by done. rewrite bool_decide_false by (by destruct cmd). simpl.
  destruct (alloc_cmds (length cmd)); [|done]. simpl. fold n d.
  by destruct (DatagramPrintUnformatted d).
Qed.

(** What a call may do to the sender: count on, and write messages with the counters
    it has passed, in order. *)
Definition counter (w : DatagramType * string) : option Z := msg_cnt (header w.1).
Definition sends (s s' : Sender) : Prop :=
  writer s' = writer s ∧ (msg_num s <= msg_num s' <= msg_num s + 1)%Z ∧
  (written s' = written s ∨
   ∃ w, written s' = w :: written s ∧ counter w = Some (msg_num s') ∧ (msg_num s < msg_num s')%Z).

Lemma sends_refl s : sends s s.
Proof. split_and!; [done|lia|lia|by left]. Qed.

Lemma SendSpineMessage_sends c src dst cref ack cmd s : (0 <= msg_num s < 2 ^ 64 - 1)%Z →
  ∃ r s', SendSpineMessage c src dst cref ack cmd s = Ret r s' ∧ sends s s'.
Proof.
  intros Hn. destruct src as [src|]; [|by eexists _, s; split; [|apply sends_refl]].
  destruct dst as [dst|]; [|by eexists _, s; split; [|apply sends_refl]].
  destruct cmd as [|x cmd]; [by eexists _, s; split; [|apply sends_refl]|].
  destruct (writer s) eqn:Hw.
  - rewrite SendSpineMessage_spec by done. rewrite u64_small by lia.
    case_match; (do 2 eexists; split; [done|]); (split; [done|]); (split; [simpl; lia|]).
    + right. eexists. split; [done|]. simpl. split; [done|lia].
    + by left.
  - exists (kEebusErrorInit, None), s. split; [|apply sends_refl].
    unfold SendSpineMessage, mbind, Prog_bind, gets. simpl. by rewrite Hw.
Qed.

(** ** Sequences of calls *)

Inductive SenderOp :=
| OpRead (sender_addr dest_addr : option FeatureAddressType) (cmd : CmdType)
| OpReply (request_header : option HeaderType) (sender_addr : option FeatureAddressType) (cmd : CmdType)
| OpNotify (sender_addr dest_addr : option FeatureAddressType) (cmd : CmdType)
| OpWrite (sender_addr dest_addr : option FeatureAddressType) (cmd : CmdType)
| OpCallSubscribe (sender_addr dest_addr : option FeatureAddressType) (server_feature_type : Z)
| OpCallUnsubscribe (sender_addr dest_addr : option FeatureAddressType)
| OpCallBind (sender_addr dest_addr : option FeatureAddressType) (server_feature_type : Z)
| OpCallUnbind (sender_addr dest_addr : option FeatureAddressType)
| OpResult (request_header : option HeaderType) (sender_addr : option FeatureAddressType)
    (err : option ErrorType).

Definition ignore {A} (m : Prog Sender A) : Prog Sender unit := m;; mret tt.
Definition sender_op (o : SenderOp) : Prog Sender unit :=
  match o with
  | OpRead sa da cmd => ignore (Read sa da cmd)
  | OpReply h sa cmd => ignore (Reply h sa cmd)
  | OpNotify sa da cmd => ignore (Notify sa da cmd)
  | OpWrite sa da cmd => ignore (Write sa da cmd)
  | OpCallSubscribe sa da t => ignore (CallSubscribe sa da t)
  | OpCallUnsubscribe sa da => ignore (CallUnsubscribe sa da)
  | OpCallBind sa da t => ignore (CallBind sa da t)
  | OpCallUnbind sa da => ignore (CallUnbind sa da)
  | OpResult h sa err => ignore (SendResult h sa err)
  end.
Fixpoint sender_ops (os : list SenderOp) : Prog Sender unit :=
  match os with [] => mret tt | o :: os' => sender_op o;; sender_ops os' end.

(** A reply is to a request with a destination. *)
Definition op_ok (o : SenderOp) : Prop :=
  match o with OpReply (Some h) _ _ => dest_addr h ≠ None | _ => True end.

Definition total (m : Prog Sender unit) : Prop :=
  ∀ s, (0 <= msg_num s < 2 ^ 64 - 1)%Z → ∃ s', m s = Ret tt s' ∧ sends s s'.

Lemma total_ret {A} (a : A) : total (ignore (mret a : Prog Sender A)).
Proof. intros s _. exists s. split; [done|apply sends_refl]. Qed.

Lemma total_send c src dst cref ack cmd : total (ignore (SendSpineMessage c src dst cref ack cmd)).
Proof.
  intros s Hn. destruct (SendSpineMessage_sends c src dst cref ack cmd s Hn) as (r & s' & E & Hs).
  exists s'. unfold ignore, mbind, Prog_bind. by rewrite E.
Qed.

Lemma total_send_fst c src dst cref ack cmd :
  total (ignore (r ← SendSpineMessage c src dst cref ack cmd; mret r.1)).
Proof.
  intros s Hn. destruct (SendSpineMessage_sends c src dst cref ack cmd s Hn) as (r & s' & E & Hs).
  exists s'. unfold ignore, mbind, Prog_bind. by rewrite E.
Qed.

#[local] Hint Resolve total_ret total_send total_send_fst : core.

Lemma sender_op_total o : op_ok o → total (sender_op o).
Proof.
  assert (∀ sa da cmd, total (ignore (node_management_call sa da cmd))) as Hnm.
  { intros [sa|] [da|] cmd; apply total_ret || apply total_send_fst. }
  destruct o as [| h sa cmd | | | | | | | h sa err]; simpl; try done; intros Hok; try apply Hnm.
  - apply total_send.
  - destruct h as [h|], sa as [sa|]; try apply total_ret. unfold Reply.
    case_bool_decide; [apply total_ret|]. destruct (dest_addr h) as [dest|]; [|done].
    apply total_send_fst.
  - apply total_send_fst.
  - apply total_send.
  - destruct h as [h|], sa as [sa|]; try apply total_ret. unfold SendResult.
    destruct (dest_addr h) as [dest|]; [apply total_send_fst|apply total_ret].
Qed.

(** Message counters are never used twice.  Over any sequence of calls, the messages
    written carry counters that strictly increase and lie beyond all earlier ones, whatever calls
    fail; no call crashes when replies are to requests with a destination. *)
Theorem message_counters_increase os s :
  Forall op_ok os → (0 <= msg_num s)%Z → (msg_num s + Z.of_nat (length os) < 2 ^ 64)%Z →
  ∃ s' new cs, sender_ops os s = Ret tt s' ∧ written s' = new ++ written s ∧
    counter <$> new = Some <$> cs ∧ StronglySorted Z.gt cs ∧
    (msg_num s <= msg_num s')%Z ∧ Forall (λ c, msg_num s < c <= msg_num s')%Z cs.
Proof.
  intros Hos. revert s. induction Hos as [|o os Ho Hos IH]; intros s Hn Hmax.
  - exists s, [], []. by repeat constructor.
  - simpl in Hmax. destruct (sender_op_total o Ho s) as (s1 & Hrun & _ & Hnum & Hw); [lia|].
    destruct (IH s1) as (s' & new & cs & Hrun' & Hw' & Hcs & Hsort & Hle & Hbnd); [lia..|].
    cbn [sender_ops]. unfold mbind, Prog_bind. rewrite Hrun, Hrun'.
    destruct Hw as [Hw|(w & Hw & Hc & Hlt)]; rewrite Hw in Hw'.
    + exists s', new, cs. split_and!; [done..|lia|]. eapply Forall_impl; [exact Hbnd|]. simpl. lia.
    + exists s', (new ++ [w]), (cs ++ [msg_num s1]). rewrite <- app_assoc. split_and!; [done|done| | |lia|].
      * rewrite !fmap_app, Hcs. simpl. by rewrite Hc.
      * apply StronglySorted_app. split_and!; [|done|by repeat constructor].
        intros x y Hx Hy. apply list_elem_of_singleton in Hy as ->.
        rewrite Forall_forall in Hbnd. apply Hbnd in Hx. lia.
      * apply Forall_app. split; [eapply Forall_impl; [exact Hbnd|]; simpl; lia|].
        repeat constructor; lia.
Qed.

(** A subscription or binding the library asks for is one the other side can grant
    safely.  The written call goes to the node management of the server's device, asks
    for an acknowledgement, and its request carries the feature type and both addresses; when
    the server's address names its device, it is a request of the kind for which the binding
    manager keeps its invariants. *)
Theorem CallBind_request_ok ca sa type s d msg s' :
  CallBind (Some ca) (Some sa) type s = Ret kEebusErrorOk s' →
  written s' = (d, msg) :: written s →
  ∃ data, payload d = [CmdBindingRequestCall data] ∧
    dest_addr (header d) = Some (NodeManagementAddress (fa_device sa)) ∧
    cmd_classifier (header d) = kCommandClassifierTypeCall ∧ ack_request (header d) = Some true ∧
    DatagramPrintUnformatted d = Some msg ∧
    rq_client_address data = Some ca ∧ rq_server_address data = Some sa ∧
    ∀ dr, fa_device sa ≠ None → BindingManager.call_ok (BindingManager.CallAdd dr data).
Proof.
  unfold CallBind, node_management_call, SendNodeManagmentCall, mbind, Prog_bind. intros Hrun Hw.
  destruct (writer s) eqn:Hwr.
  2: { unfold SendSpineMessage, mbind, Prog_bind, gets in Hrun. simpl in Hrun. rewrite Hwr in Hrun.
       discriminate Hrun. }
  rewrite SendSpineMessage_spec in Hrun by done. simpl in Hrun.
  destruct (alloc_cmds 1); [|discriminate Hrun].
  destruct (DatagramPrintUnformatted _) as [text|] eqn:Htext in Hrun; [|discriminate Hrun].
  injection Hrun as <-. simpl in Hw. injection Hw as <- <-.
  eexists. split; [done|]. split_and!; [done|done|done|exact Htext|done|done|].
  intros dr Hdev. simpl. split_and!; eauto.
Qed.

(** An answer goes back to where the request came from: to the request's source, from the
    feature the request was for, under the device of the sender, with a reference to the
    request's counter.  A reply to a request without a destination dereferences NULL, where the
    result of such a request is refused. *)
Theorem answers_go_back h sa cmd err s :
  (∀ dest src, dest_addr h = Some dest → src_addr h = Some src → ∀ m, 
     m = Reply (Some h) (Some sa) cmd ∨ m = SendResult (Some h) (Some sa) err →
     ∀ s' d msg, m s = Ret kEebusErrorOk s' → written s' = (d, msg) :: written s →
     dest_addr (header d) = Some src ∧ hdr_msg_cnt_ref (header d) = msg_cnt h ∧
     src_addr (header d) = Some (mkFeatureAddress (fa_device sa) (fa_entity dest) (fa_feature dest)) ∧
     ack_request (header d) = None) ∧
  (dest_addr h = None → src_addr h ≠ None →
     Reply (Some h) (Some sa) cmd s = Crash "NULL feature address" ∧
     SendResult (Some h) (Some sa) err s = Ret kEebusErrorInputArgument s).
Proof.
  split.
  - intros dest src Hd Hs m Hm s' d msg Hrun Hw.
    assert (∃ c cmds, cmds ≠ [] ∧ (r ← SendSpineMessage c
      (Some (mkFeatureAddress (fa_device sa) (fa_entity dest) (fa_feature dest)))
      (Some src) (msg_cnt h) false cmds; mret r.1) s = Ret kEebusErrorOk s') as (c & cmds & Hne & Hsend).
    { destruct Hm as [-> | ->]; unfold Reply, SendResult in Hrun; rewrite Hd, ?Hs in Hrun.
      - rewrite bool_decide_false in Hrun by done. by do 2 eexists; split; [|exact Hrun].
      - by do 2 eexists; split; [|exact Hrun]. }
    clear Hrun Hm. unfold mbind, Prog_bind in Hsend. destruct (writer s) eqn:Hwr.
    2: { unfold SendSpineMessage, mbind, Prog_bind, gets in Hsend. simpl in Hsend.
         destruct cmds; [done|]. simpl in Hsend. rewrite Hwr in Hsend. discriminate Hsend. }
    rewrite SendSpineMessage_spec in Hsend by done. simpl in Hsend.
    destruct (alloc_cmds (length cmds)); [|discriminate Hsend].
    destruct (DatagramPrintUnformatted _) in Hsend; [|discriminate Hsend].
    injection Hsend as <-. simpl in Hw. by injection Hw as <- <-.
  - intros Hd Hs. unfold Reply, SendResult. rewrite Hd. by rewrite bool_decide_false.
Qed.
End sender.

(** ** Witnesses *)

(** A printer that names the command. *)
Definition demo_print : SenderEnv := {|
  DatagramPrintUnformatted d :=
    match payload d with [CmdBindingRequestCall _] => Some "bind"%string | _ => Some "other"%string end;
  alloc_cmds _ := true;
|}.

Lemma message_counters_increase_witness : ∃ s' new cs,
  sender_ops (H := demo_print) [OpRead (Some (addr "a" 7)) (Some (addr "b" 3)) (CmdData CmdCreateEmpty);
    OpCallBind (Some (addr "a" 7)) (Some (addr "b" 3)) load_control] (SenderConstruct true) = Ret tt s' ∧
  written s' = new ++ [] ∧ counter <$> new = Some <$> cs ∧ StronglySorted Z.gt cs.
Proof.
  destruct (message_counters_increase (H := demo_print)
    [OpRead (Some (addr "a" 7)) (Some (addr "b" 3)) (CmdData CmdCreateEmpty);
     OpCallBind (Some (addr "a" 7)) (Some (addr "b" 3)) load_control] (SenderConstruct true))
    as (s' & new & cs & H1 & H2 & H3 & H4 & _); [by repeat constructor|done|done|].
  by exists s', new, cs.
Defined.

Lemma CallBind_request_ok_witness : ∃ s' d data,
  CallBind (H := demo_print) (Some (addr "a" 7)) (Some (addr "b" 3)) load_control (SenderConstruct true)
    = Ret kEebusErrorOk s' ∧
  written s' = [(d, "bind"%string)] ∧ payload d = [CmdBindingRequestCall data] ∧
  BindingManager.call_ok (BindingManager.CallAdd (remote "a") data).
Proof.
  eexists _, _, _. split; [vm_compute; reflexivity|]. split; [vm_compute; reflexivity|].
  edestruct (CallBind_request_ok (H := demo_print) (addr "a" 7) (addr "b" 3) load_control
    (SenderConstruct true)) as (data & Hd & _ & _ & _ & _ & _ & _ & Hok); [reflexivity|reflexivity|].
  split; [reflexivity|]. injection Hd as Hd. rewrite <- Hd in Hok. by apply Hok.
Defined.

Lemma answers_go_back_witness :
  let h := mkHeader (Some (addr "b" 3)) (Some (addr "a" 7)) (Some 42%Z) None kCommandClassifierTypeRead None in
  ∃ s' d, Reply (H := demo_print) (Some h) (Some (addr "a" 7)) (CmdData CmdCreateEmpty) (SenderConstruct true)
    = Ret kEebusErrorOk s' ∧ written s' = [(d, "other"%string)] ∧
  dest_addr (header d) = Some (addr "b" 3) ∧ hdr_msg_cnt_ref (header d) = Some 42%Z.
Proof.
  intros h. eexists _, _. split; [vm_compute; reflexivity|]. split; [vm_compute; reflexivity|].
  destruct (answers_go_back (H := demo_print) h (addr "a" 7) (CmdData CmdCreateEmpty) None (SenderConstruct true))
    as [Hback _].
  edestruct (Hback (addr "a" 7) (addr "b" 3) eq_refl eq_refl _ (or_introl eq_refl)) as (H1 & H2 & _);
    [vm_compute; reflexivity|vm_compute; reflexivity|].
  split; [exact H1|exact H2].
Defined.
