(* ===== verification/Heartbeat.v ===== *)
(** * The heartbeat manager

    [src/spine/heartbeat/heartbeat_manager.c]: a local entity with a heartbeat server
    updates the data of its feature, and so notifies its subscribers, every
    [heartbeat_period] ticks of one second.  [FEATURE_LOCAL_SET_DATA] is an entry of the
    log: the counter and the declared timeout; the time stamp is that of the call. *)

From S2P Require Import Prelude FeatureFunctions Spine LinkManager.


Record HeartbeatManager := mkHeartbeatManager {
  local_feature : option Feature;
  heartbeat_num : Z;
  tick_cnt : Z;
  heartbeat_period : Z;
  running : bool;
  data_set : list (Z * Z);
}.

Definition HeartbeatManagerConstruct (period : Z) : HeartbeatManager :=
  mkHeartbeatManager None 0 period period false [].

Definition IsHeartbeatRunning (hm : HeartbeatManager) : bool := running hm.

Definition UpdateHeartbeatData : Prog HeartbeatManager unit := λ hm,
  match local_feature hm with
  | None => Crash "NULL local feature"
  | Some _ =>
      Ret tt (mkHeartbeatManager (local_feature hm) (heartbeat_num hm) (tick_cnt hm)
                (heartbeat_period hm) (running hm)
                ((heartbeat_num hm, heartbeat_period hm) :: data_set hm))
  end.

Definition set_tick_cnt (n : Z) (hm : HeartbeatManager) : HeartbeatManager :=
  mkHeartbeatManager (local_feature hm) (heartbeat_num hm) n (heartbeat_period hm) (running hm)
    (data_set hm).
Definition set_running (b : bool) (hm : HeartbeatManager) : HeartbeatManager :=
  mkHeartbeatManager (local_feature hm) (heartbeat_num hm) (tick_cnt hm) (heartbeat_period hm) b
    (data_set hm).

Definition Start : Prog HeartbeatManager EebusError :=
  modify (set_running true);; mret kEebusErrorOk.

Definition Stop : Prog HeartbeatManager unit :=
  branch IsHeartbeatRunning (modify (set_running false)) (mret tt).

(** [has_heartbeat]: the feature has the operations of the heartbeat function. *)
Definition SetLocalFeature (entity : bool) (feature : option Feature) (has_heartbeat : bool)
    : Prog HeartbeatManager unit :=
  match feature with
  | None => mret tt
  | Some f =>
      if negb entity then mret tt
      else if bool_decide (feature_type f ≠ kFeatureTypeTypeDeviceDiagnosis)%Z
              || bool_decide (feature_role f ≠ kRoleTypeServer) then mret tt
      else if negb has_heartbeat then mret tt
      else
        modify (λ hm, mkHeartbeatManager (Some f) (heartbeat_num hm) (tick_cnt hm)
                        (heartbeat_period hm) (running hm) (data_set hm));;
        UpdateHeartbeatData;;
        Start;;
        mret tt
  end.

Definition Tick : Prog HeartbeatManager unit :=
  branch (λ hm, bool_decide (heartbeat_period hm = 0)%Z) (mret tt)
    (branch (λ hm, running hm && bool_decide (tick_cnt hm > 0)%Z)
       (modify (λ hm, set_tick_cnt (u32 (tick_cnt hm - 1)) hm)) (mret tt);;
     branch (λ hm, bool_decide (tick_cnt hm = 0)%Z)
       (modify (λ hm, mkHeartbeatManager (local_feature hm) (u64 (heartbeat_num hm + 1)) (tick_cnt hm)
                        (heartbeat_period hm) (running hm) (data_set hm));;
        UpdateHeartbeatData;;
        modify (λ hm, set_tick_cnt (heartbeat_period hm) hm))
       (mret tt)).

Fixpoint Ticks (n : nat) : Prog HeartbeatManager unit :=
  match n with 0 => mret tt | S n' => Tick;; Ticks n' end.

(** ** The schedule *)

(** A manager with its feature, between two heartbeats. *)
Record armed (hm : HeartbeatManager) : Prop := {
  ar_feature : is_Some (local_feature hm);
  ar_period : (0 < heartbeat_period hm < 2 ^ 32)%Z;
  ar_tick : (0 < tick_cnt hm <= heartbeat_period hm)%Z;
  ar_num : (0 <= heartbeat_num hm)%Z;
}.

Lemma Tick_stopped hm : armed hm → running hm = false → Tick hm = Ret tt hm.
Proof.
  intros [_ Hp Ht _] Hr. unfold Tick, branch, mbind, Prog_bind.
  rewrite bool_decide_false by lia. rewrite Hr. simpl. by rewrite bool_decide_false by lia.
Qed.

Lemma Tick_waits hm : armed hm → running hm = true → (1 < tick_cnt hm)%Z →
  Tick hm = Ret tt (set_tick_cnt (tick_cnt hm - 1) hm).
Proof.
  intros [_ Hp Ht _] Hr Hgt. unfold Tick, branch, mbind, Prog_bind.
  rewrite bool_decide_false by lia. rewrite Hr. rewrite bool_decide_true by lia. simpl.
  rewrite u32_small by (unfold is_u32; lia). by rewrite bool_decide_false by lia.
Qed.

Definition beat (hm : HeartbeatManager) : HeartbeatManager :=
  mkHeartbeatManager (local_feature hm) (heartbeat_num hm + 1) (heartbeat_period hm)
    (heartbeat_period hm) (running hm) ((heartbeat_num hm + 1, heartbeat_period hm)%Z :: data_set hm).

Lemma Tick_beats hm : armed hm → running hm = true → tick_cnt hm = 1%Z →
  (heartbeat_num hm < 2 ^ 64 - 1)%Z → Tick hm = Ret tt (beat hm).
Proof.
  destruct hm as [lf num tc per run ds]. intros [[f Hf] Hp Ht Hn] Hr H1 Hmax. simpl in *. subst.
  unfold Tick, branch, mbind, Prog_bind. simpl. rewrite bool_decide_false by lia. simpl.
  unfold UpdateHeartbeatData, beat, set_tick_cnt. simpl. by rewrite u64_small by lia.
Qed.

Lemma armed_tick hm n : armed hm → (0 < n <= heartbeat_period hm)%Z → armed (set_tick_cnt n hm).
Proof. intros [? ? ? ?] Hn. by constructor. Qed.

Lemma armed_beat hm : armed hm → armed (beat hm).
Proof. intros [? ? ? ?]. constructor; simpl; (done || lia). Qed.

(** The heartbeats of counters [num + 1 .. num + k], newest first. *)
Definition beats (num period : Z) (k : nat) : list (Z * Z) :=
  reverse ((λ i, (num + 1 + Z.of_nat i, period)%Z) <$> seq 0 k).

Lemma beats_S num period k : beats num period (S k) = beats (num + 1) period k ++ [(num + 1, period)%Z].
Proof.
  unfold beats. simpl. rewrite reverse_cons. f_equal.
  - f_equal. rewrite <- fmap_S_seq, <- list_fmap_compose. apply list_fmap_ext. intros i x _. simpl.
    f_equal. lia.
  - by rewrite Z.add_0_r.
Qed.

Lemma Ticks_wait k : ∀ hm, armed hm → running hm = true → (Z.of_nat k < tick_cnt hm)%Z →
  Ticks k hm = Ret tt (set_tick_cnt (tick_cnt hm - Z.of_nat k) hm).
Proof.
  induction k as [|k IH]; intros hm Ha Hr Hk.
  - unfold set_tick_cnt. rewrite Z.sub_0_r. by destruct hm.
  - cbn [Ticks]. unfold mbind, Prog_bind. rewrite Tick_waits by (done || lia).
    rewrite IH; [|apply armed_tick; [done|destruct Ha; lia]|done|simpl; lia].
    unfold set_tick_cnt. simpl. f_equal. f_equal. lia.
Qed.

Lemma Ticks_app m n hm : Ticks (m + n) hm = (Ticks m;; Ticks n) hm.
Proof.
  revert hm. induction m as [|m IH]; intros hm; [done|]. cbn [Ticks Nat.add].
  unfold mbind, Prog_bind in *. destruct (Tick hm); [apply IH|done..].
Qed.

Lemma Ticks_period hm : armed hm → running hm = true → (heartbeat_num hm < 2 ^ 64 - 1)%Z →
  Ticks (Z.to_nat (tick_cnt hm)) hm = Ret tt (beat hm).
Proof.
  intros Ha Hr Hmax. pose proof (ar_tick _ Ha) as Ht.
  replace (Z.to_nat (tick_cnt hm)) with (Z.to_nat (tick_cnt hm - 1) + 1) by lia.
  rewrite Ticks_app. unfold mbind, Prog_bind. rewrite Ticks_wait by (done || lia).
  cbn [Ticks]. unfold mbind, Prog_bind.
  set (hm' := set_tick_cnt (tick_cnt hm - Z.of_nat (Z.to_nat (tick_cnt hm - 1))) hm).
  rewrite (Tick_beats hm'); [done|apply armed_tick; [done|lia]|done|simpl; lia|done].
Qed.

Lemma Ticks_stopped n hm : armed hm → running hm = false → Ticks n hm = Ret tt hm.
Proof.
  intros Ha Hr. induction n as [|n IH]; [done|]. cbn [Ticks]. unfold mbind, Prog_bind.
  by rewrite Tick_stopped.
Qed.

(** A running heartbeat sends exactly one heartbeat for every full period.  From the
    start of a period, [k] periods and [r] further ticks set the data [k] times, with consecutive
    counters and the period as the declared timeout, and leave [r] ticks of the next
    period used up; a stopped heartbeat sends nothing. *)
Theorem heartbeats_are_periodic hm k r : armed hm →
  (running hm = true → tick_cnt hm = heartbeat_period hm → (0 <= r < heartbeat_period hm)%Z →
   (heartbeat_num hm + Z.of_nat k < 2 ^ 64)%Z →
   ∃ hm', Ticks (k * Z.to_nat (heartbeat_period hm) + Z.to_nat r) hm = Ret tt hm' ∧
     data_set hm' = beats (heartbeat_num hm) (heartbeat_period hm) k ++ data_set hm ∧
     heartbeat_num hm' = (heartbeat_num hm + Z.of_nat k)%Z ∧
     tick_cnt hm' = (heartbeat_period hm - r)%Z) ∧
  (running hm = false → ∀ n, Ticks n hm = Ret tt hm).
Proof.
  intros Ha. split; [|intros Hr n; by apply Ticks_stopped].
  revert hm Ha. induction k as [|k IH]; intros hm Ha Hr Hfull Hrange Hmax.
  - simpl. rewrite Ticks_wait by (done || lia). eexists. split; [done|]. simpl.
    split_and!; [done|lia|lia].
  - cbn [Nat.mul]. rewrite <- Nat.add_assoc, Ticks_app. unfold mbind, Prog_bind.
    pose proof (Ticks_period hm Ha Hr ltac:(lia)) as Hp. rewrite Hfull in Hp. rewrite Hp.
    destruct (IH (beat hm)) as (hm' & Hrun & Hdata & Hnum & Htick);
      [by apply armed_beat|done|done|done|simpl; lia|].
    simpl in Hrun, Hdata, Hnum, Htick. exists hm'. split; [exact Hrun|]. split_and!; [|lia|done].
    by rewrite Hdata, beats_S, <- app_assoc.
Qed.

(** ** Witness *)

Definition diagnosis : Feature := mkFeature (addr "local" 5) kRoleTypeServer kFeatureTypeTypeDeviceDiagnosis.

Lemma heartbeats_are_periodic_witness : ∃ hm hm',
  SetLocalFeature true (Some diagnosis) true (HeartbeatManagerConstruct 60) = Ret tt hm ∧
  Ticks 125 hm = Ret tt hm' ∧ data_set hm' = [(2, 60); (1, 60); (0, 60)]%Z.
Proof.
  exists (mkHeartbeatManager (Some diagnosis) 0 60 60 true [(0, 60)%Z]).
  destruct (heartbeats_are_periodic (mkHeartbeatManager (Some diagnosis) 0 60 60 true [(0, 60)%Z]) 2 5)
    as [Hrun _]; [constructor; simpl; first [lia|by eexists]|].
  destruct Hrun as (hm' & Hrun & Hdata & _); [done|done|simpl; lia|done|].
  exists hm'. split; [reflexivity|]. split; [exact Hrun|exact Hdata].
Defined.
