(* ===== verification/PendingWrite.v ===== *)
(** * Write requests that wait for approval

    [src/spine/feature/pending_write_request.c], [pending_write_request_container.c] and the
    write handling of [feature_local.c]: a write to a local server feature with
    approval callbacks waits until all of them approved it, one denied it, or its
    time ran out.

    What an operation finds around it, which may change from one to the next, is a
    [WriteEnv]: the feature, the number of its approval callbacks, the remote devices, the
    expiry callback, and the answer of the functions of the feature to an update.  What the
    operations send, call and execute is logged ([WriteEvent]); what the callbacks do in
    turn are operations of their own. *)

From stdpp Require Import gmap.
From S2P Require Import Prelude SpineFunction Timer Vector Pool Spine Sender Pending LinkManager.

Record Message := mkMsg {
  request_header : option HeaderType;
  msg_cmd_classifier : CommandClassifierType;
  msg_cmd : option CmdType;
  feature_remote : option FeatureRemote;
  device_remote : option DeviceRemote;
}.

Record PendingWriteRequest := mkPendingWrite {
  pwr_ski : string;
  pwr_msg_counter : Z;
  num_approvals : Z;
  pwr_countdown : EebusCountdown;
  pwr_cmd_classifier : CommandClassifierType;
  pwr_cmd : CmdType;
  pwr_header : HeaderType;
  pwr_feature_address : FeatureAddressType;
}.

(** [SEND_RESULT_ERROR] and [SEND_RESULT_SUCCESS] over the sender of the device [ski]; a call of
    an approval callback; the update of the data of the feature; the expiry callback. *)
Inductive WriteEvent :=
| ResultErrorSent (ski : string) (header : HeaderType) (addr : FeatureAddressType) (error : Z)
| ResultSuccessSent (ski : string) (header : HeaderType) (addr : FeatureAddressType)
| ApprovalAsked (callback : nat) (msg : Message)
| WriteExecuted (header : HeaderType) (cmd : CmdType)
| WriteExpired (callback : Z) (ski : string) (counter : Z).

Record WriteEnv := mkWriteEnv {
  we_feature : Feature;
  we_approval_cbs : nat;
  we_devices : list DeviceRemote;
  we_on_expired : option Z;
  we_update : CmdType → EebusError;
}.

Definition kErrorNumberTypeGeneralError : Z := 1.
Definition kErrorNumberTypeTimeout : Z := 2.

(** [DEVICE_LOCAL_GET_REMOTE_DEVICE_WITH_ADDRESS] *)
Fixpoint GetRemoteDeviceWithAddress_loop (device_addr : string) (ds : list DeviceRemote)
    : option DeviceRemote :=
  match ds with
  | [] => None
  | dr :: ds' =>
      match dr_address dr with
      | Some addr =>
          if bool_decide (addr = device_addr) then Some dr
          else GetRemoteDeviceWithAddress_loop device_addr ds'
      | None => GetRemoteDeviceWithAddress_loop device_addr ds'
      end
  end.
Definition GetRemoteDeviceWithAddress (ds : list DeviceRemote) (device_addr : option string)
    : option DeviceRemote :=
  match device_addr with None => None | Some a => GetRemoteDeviceWithAddress_loop a ds end.

(** ** Requests *)

(** [PendingWriteRequestCreate]: NULL when a part of the message is missing. *)
Definition PendingWriteRequestCreate {S} (dr : DeviceRemote) (header : HeaderType) (msg : Message)
    : Prog S (option PendingWriteRequest) :=
  match msg_cnt header with
  | None => mret None
  | Some counter =>
      match msg_cmd msg with
      | None => mret None
      | Some cmd =>
          match feature_remote msg with
          | None => crash "NULL remote feature"
          | Some fr =>
              mret (Some (mkPendingWrite (dr_ski dr) counter 0
                      (EEBUS_COUNTDOWN (TIME_MS_TO_S kDefaultMaxResponseDelayMs))
                      (msg_cmd_classifier msg) cmd header (address (fr_feature fr))))
          end
      end
  end.

(** [GetMessage]: the message again, over the remote device as it is known now. *)
Definition GetMessage (env : WriteEnv) (pwr : PendingWriteRequest) : EebusError * option Message :=
  match GetRemoteDeviceWithAddress (we_devices env) (fa_device (pwr_feature_address pwr)) with
  | None => (kEebusErrorNotAvailable, None)
  | Some dr =>
      match remote_feature dr (pwr_feature_address pwr) with
      | None => (kEebusErrorNotAvailable, None)
      | Some fr =>
          (kEebusErrorOk,
           Some (mkMsg (Some (pwr_header pwr)) (pwr_cmd_classifier pwr) (Some (pwr_cmd pwr))
                   (Some fr) (Some dr)))
      end
  end.

Definition AddApproval (pwr : PendingWriteRequest) : PendingWriteRequest :=
  mkPendingWrite (pwr_ski pwr) (pwr_msg_counter pwr) (u64 (num_approvals pwr + 1)) (pwr_countdown pwr)
    (pwr_cmd_classifier pwr) (pwr_cmd pwr) (pwr_header pwr) (pwr_feature_address pwr).
Definition UpdateRemainingTime (pwr : PendingWriteRequest) : PendingWriteRequest :=
  mkPendingWrite (pwr_ski pwr) (pwr_msg_counter pwr) (num_approvals pwr)
    (EebusCountdownTick (pwr_countdown pwr)) (pwr_cmd_classifier pwr) (pwr_cmd pwr) (pwr_header pwr)
    (pwr_feature_address pwr).
Definition HasExpired (pwr : PendingWriteRequest) : bool := EebusCountdownHasExpired (pwr_countdown pwr).

Section container.
Context {V : Type → Type} `{VectorInterface V}.
Abbreviation Container := (Pool (V := V) PendingWriteRequest WriteEvent).

(** ** The container *)

Definition is_request (ski : string) (msg_cnt : Z) (pwr : PendingWriteRequest) : bool :=
  bool_decide (pwr_ski pwr = ski) && bool_decide (pwr_msg_counter pwr = msg_cnt)%Z.

Definition Find (ski : option string) (msg_cnt : Z) : Prog Container (option ptr) :=
  match ski with
  | None => mret None
  | Some ski =>
      for_each (λ x,
        item ← pool_load x;
        mret (if is_request ski msg_cnt item then Some x else None))
  end.

Definition WriteAdd (msg : Message) : Prog Container EebusError :=
  match device_remote msg, request_header msg with
  | Some dr, Some header =>
      match msg_cnt header with
      | None => mret kEebusErrorInputArgumentNull
      | Some counter =>
          found ← Find (Some (dr_ski dr)) counter;
          match found with
          | Some _ => mret kEebusErrorNoChange
          | None =>
              pending ← PendingWriteRequestCreate dr header msg;
              match pending with
              | None => mret kEebusErrorMemoryAllocate
              | Some pwr => pool_add pwr;; mret kEebusErrorOk
              end
          end
      end
  | _, _ => mret kEebusErrorInputArgumentNull
  end.

Definition Remove (x : ptr) : Prog Container unit := pool_drop x.

(** [SEND_RESULT_...(MessageGetSender(msg), ...)] *)
Definition send_result (msg : Message) (f : string → WriteEvent) : Prog Container unit :=
  match device_remote msg with
  | None => crash "NULL sender"
  | Some dr => pool_log (f (dr_ski dr))
  end.

(** The part of a round of [Tick] for a request that has expired: the answer, the removal and the
    callback, in this order. *)
Definition expire (env : WriteEnv) (x : ptr) (item : PendingWriteRequest) : Prog Container unit :=
  match GetMessage env item with
  | (kEebusErrorOk, Some msg) =>
      send_result msg (λ ski, ResultErrorSent ski (pwr_header item) (address (we_feature env))
                                kErrorNumberTypeTimeout)
  | _ => mret tt
  end;;
  pool_unlink x;;
  match we_on_expired env with
  | Some cb => pool_log (WriteExpired cb (pwr_ski item) (pwr_msg_counter item))
  | None => mret tt
  end;;
  pool_free x.

Definition tick_write (env : WriteEnv) (x : ptr) : Prog Container unit :=
  item ← pool_load x;
  if HasExpired item then expire env x item else pool_store x (UpdateRemainingTime item).
Definition WriteTick (env : WriteEnv) : Prog Container unit := for_each_down (tick_write env).

(** ** The write handling of local features *)

(** [ProcessWriteFunctionData]: the update of the function's data, a call of the function. *)
Definition ProcessWriteFunctionData (env : WriteEnv) (header : HeaderType) (msg : Message)
    : Prog Container EebusError :=
  match msg_cmd msg with
  | None => crash "NULL command"
  | Some cmd => pool_log (WriteExecuted header cmd);; mret (we_update env cmd)
  end.

Definition ProcessWriteInternal (env : WriteEnv) (msg : Message) : Prog Container EebusError :=
  match request_header msg with
  | None => mret kEebusErrorInvalid
  | Some header =>
      let addr := address (we_feature env) in
      err ← ProcessWriteFunctionData env header msg;
      (if negb (is_ok err) then
         send_result msg (λ ski, ResultErrorSent ski header addr kErrorNumberTypeGeneralError)
       else
         match ack_request header with
         | Some true => send_result msg (λ ski, ResultSuccessSent ski header addr)
         | _ => mret tt
         end);;
      mret kEebusErrorOk
  end.

Fixpoint ask_approvals (n i : nat) (msg : Message) : Prog Container unit :=
  match n with
  | 0 => mret tt
  | S n' => pool_log (ApprovalAsked i msg);; ask_approvals n' (S i) msg
  end.
Definition ProcessWriteApprovalCallbacks (env : WriteEnv) (msg : Message) : Prog Container unit :=
  ask_approvals (we_approval_cbs env) 0 msg.

Definition ProcessWrite (env : WriteEnv) (msg : Message) : Prog Container EebusError :=
  if bool_decide (0 < we_approval_cbs env) then
    WriteAdd msg;;
    ProcessWriteApprovalCallbacks env msg;;
    mret kEebusErrorOk
  else ProcessWriteInternal env msg.

Definition FeatureLocalTryApproveWrite (env : WriteEnv) (ski : option string) (msg_cnt : Z)
    : Prog Container EebusError :=
  if bool_decide (feature_role (we_feature env) ≠ kRoleTypeServer) || bool_decide (ski = None)
  then mret kEebusErrorInputArgument
  else
    found ← Find ski msg_cnt;
    match found with
    | None => mret kEebusErrorNoChange
    | Some x =>
        item ← pool_load x;
        pool_store x (AddApproval item);;
        pwr ← pool_load x;
        if bool_decide (Z.of_nat (we_approval_cbs env) > num_approvals pwr)%Z then mret kEebusErrorPending
        else
          match GetMessage env pwr with
          | (kEebusErrorOk, Some msg) =>
              status ← ProcessWriteInternal env msg;
              Remove x;;
              mret status
          | (status, _) => mret status
          end
    end.

Definition FeatureLocalDenyWrite (env : WriteEnv) (ski : option string) (msg_cnt : Z)
    (err : option ErrorType) : Prog Container EebusError :=
  if bool_decide (feature_role (we_feature env) ≠ kRoleTypeServer) || bool_decide (ski = None)
  then mret kEebusErrorInputArgument
  else
    match err with
    | None => mret kEebusErrorInputArgument
    | Some e =>
        if bool_decide (error_number e = kErrorNumberTypeNoError) then mret kEebusErrorInputArgument
        else
          found ← Find ski msg_cnt;
          match found with
          | None => mret kEebusErrorNoChange
          | Some x =>
              pwr ← pool_load x;
              match GetMessage env pwr with
              | (kEebusErrorOk, Some msg) =>
                  send_result msg (λ ski, ResultErrorSent ski (pwr_header pwr)
                                            (address (we_feature env)) (error_number e));;
                  Remove x;;
                  mret kEebusErrorOk
              | (status, _) => mret status
              end
          end
    end.

(** ** Specifications *)

Definition key_of (pwr : PendingWriteRequest) : string * Z := (pwr_ski pwr, pwr_msg_counter pwr).

(** The container's requests, with different keys. *)
Definition requests (p : Container) (l : list PendingWriteRequest) : Prop :=
  pool_list p l ∧ NoDup (key_of <$> l).

Lemma is_request_key ski c pwr : is_request ski c pwr = true ↔ key_of pwr = (ski, c).
Proof.
  unfold is_request, key_of. rewrite andb_true_iff, !bool_decide_eq_true. split.
  - by intros [-> ->].
  - by intros [= -> ->].
Qed.

Lemma find_item ski c x item (p : Container) : heap p !! x = Some item →
  (item ← pool_load x; mret (if is_request ski c item then Some x else None)) p
  = Ret (if is_request ski c item then Some x else None) p.
Proof. intros Hx. unfold mbind, Prog_bind. by rewrite (pool_load_at _ _ _ Hx). Qed.

(** [Find] finds the request with the key, if there is one. *)
Lemma Find_absent ski c p l : pool_list p l → (ski, c) ∉ key_of <$> l → Find (Some ski) c p = Ret None p.
Proof.
  intros Hp Hno. apply (for_each_pass _ _ _ Hp). intros x item Hin Hx. cbv beta. rewrite (find_item _ _ _ _ _ Hx).
  destruct (is_request ski c item) eqn:E; [|done]. apply is_request_key in E. exfalso. apply Hno.
  rewrite <- E. by apply list_elem_of_fmap_2.
Qed.

Lemma Find_present ski c p ps1 x ps2 l1 item l2 :
  pool_at p (ps1 ++ x :: ps2) (l1 ++ item :: l2) → length ps1 = length l1 →
  NoDup (key_of <$> l1 ++ item :: l2) → key_of item = (ski, c) → Find (Some ski) c p = Ret (Some x) p.
Proof.
  intros Hp Hq Hnd Hk. eapply for_each_stop; [exact Hp|exact Hq| |].
  - intros y b Hb Hy. cbv beta. rewrite (find_item _ _ _ _ _ Hy).
    destruct (is_request ski c b) eqn:E; [|done]. exfalso. apply is_request_key in E.
    rewrite fmap_app, NoDup_app in Hnd. destruct Hnd as (_ & Hnd & _).
    apply (Hnd (ski, c)); [rewrite <- E; by apply list_elem_of_fmap_2|].
    csimpl. rewrite Hk. apply list_elem_of_here.
  - destruct (pool_split _ _ _ _ _ Hp) as (qs1 & y & qs2 & Eps & Hq' & Hx & _ & _).
    apply app_inj_1 in Eps as [<- Eps]; [|congruence]. injection Eps as <- <-.
    cbv beta. rewrite (find_item _ _ _ _ _ Hx). apply is_request_key in Hk. by rewrite Hk.
Qed.

(** A key is absent, or at some position. *)
Lemma key_split k (l : list PendingWriteRequest) :
  k ∉ key_of <$> l ∨ ∃ l1 item l2, l = l1 ++ item :: l2 ∧ key_of item = k.
Proof.
  destruct (decide (k ∈ key_of <$> l)) as [Hin|Hno]; [right|by left].
  apply list_elem_of_fmap in Hin as (item & -> & Hin). apply list_elem_of_split in Hin as (l1 & l2 & ->).
  by exists l1, item, l2.
Qed.

Lemma pool_position (p : Container) l1 item l2 : pool_list p (l1 ++ item :: l2) →
  ∃ ps1 x ps2, pool_at p (ps1 ++ x :: ps2) (l1 ++ item :: l2) ∧ length ps1 = length l1 ∧
    heap p !! x = Some item.
Proof.
  intros [ps Hp]. destruct (pool_split _ _ _ _ _ Hp) as (ps1 & x & ps2 & -> & Hq & Hx & _ & _).
  by exists ps1, x, ps2.
Qed.

(** *** Time *)

Definition answered (env : WriteEnv) (item : PendingWriteRequest) : list WriteEvent :=
  match (GetMessage env item).2 ≫= device_remote with
  | Some dr => [ResultErrorSent (dr_ski dr) (pwr_header item) (address (we_feature env))
                  kErrorNumberTypeTimeout]
  | None => []
  end.
Definition expiry_called (env : WriteEnv) (item : PendingWriteRequest) : list WriteEvent :=
  match we_on_expired env with
  | Some cb => [WriteExpired cb (pwr_ski item) (pwr_msg_counter item)]
  | None => []
  end.

Lemma GetMessage_cases env pwr :
  (GetMessage env pwr = (kEebusErrorNotAvailable, None)) ∨
  ∃ fr dr, GetMessage env pwr =
    (kEebusErrorOk, Some (mkMsg (Some (pwr_header pwr)) (pwr_cmd_classifier pwr) (Some (pwr_cmd pwr))
                            (Some fr) (Some dr))).
Proof.
  unfold GetMessage. destruct (GetRemoteDeviceWithAddress _ _) as [dr|]; [|by left].
  destruct (remote_feature dr _) as [fr|]; [|by left]. right. by exists fr, dr.
Qed.

Lemma expire_at env p ps1 x ps2 l1 item l2 :
  pool_at p (ps1 ++ x :: ps2) (l1 ++ item :: l2) → length ps1 = length l1 →
  ∃ p', expire env x item p = Ret tt p' ∧
    log p' = (expiry_called env item ++ answered env item) ++ log p ∧
    pool_at p' (ps1 ++ ps2) (l1 ++ l2).
Proof.
  intros Hp Hq. destruct (pool_drop_at _ _ _ _ _ _ _ Hp Hq) as [Hd Hp'].
  assert (heap p !! x = Some item) as Hx.
  { destruct (pool_split _ _ _ _ _ Hp) as (qs1 & y & qs2 & Eps & Hq' & Hx & _ & _).
    apply app_inj_1 in Eps as [<- Eps]; [|congruence]. by injection Eps as <- <-. }
  set (lg := (expiry_called env item ++ answered env item) ++ log p).
  exists (mkPool (vec_remove x (items p)) (delete x (heap p)) (next_ptr p) lg).
  split; [|split; [done|by apply (pool_at_log _ _ _ lg) in Hp']].
  unfold expire, lg, answered, expiry_called, mbind, Prog_bind.
  destruct (GetMessage_cases env item) as [-> |(fr & dr & ->)]; simpl;
    destruct (we_on_expired env); unfold pool_free; simpl; by rewrite Hx.
Qed.

Definition write_survives (item : PendingWriteRequest) : option PendingWriteRequest :=
  if HasExpired item then None else Some (UpdateRemainingTime item).
Definition write_expiry (env : WriteEnv) (item : PendingWriteRequest) : list WriteEvent :=
  if HasExpired item then expiry_called env item ++ answered env item else [].

Lemma WriteTick_list env p l : pool_list p l →
  ∃ p', WriteTick env p = Ret tt p' ∧ pool_list p' (omap write_survives l) ∧
    log p' = concat (write_expiry env <$> l) ++ log p.
Proof.
  intros Hp. apply for_each_down_list; [|exact Hp]. clear p Hp.
  intros p ps1 x ps2 l1 item l2 Hp Hq. unfold tick_write, mbind, Prog_bind.
  destruct (pool_split _ _ _ _ _ Hp) as (qs1 & y & qs2 & Eps & Hq' & Hx & _ & _).
  apply app_inj_1 in Eps as [<- Eps]; [|congruence]. injection Eps as <- <-.
  rewrite (pool_load_at _ _ _ Hx). unfold write_survives, write_expiry. destruct (HasExpired item).
  - by apply expire_at.
  - destruct (pool_store_at _ _ _ _ _ _ _ (UpdateRemainingTime item) Hp Hq) as (p' & Hrun & Hp' & Hlog).
    exists p'. by rewrite Hrun.
Qed.

(** *** Execution *)

Definition executed_events (env : WriteEnv) (header : HeaderType) (cmd : CmdType) (dr : DeviceRemote)
    : list WriteEvent :=
  (if is_ok (we_update env cmd) then
     match ack_request header with
     | Some true => [ResultSuccessSent (dr_ski dr) header (address (we_feature env))]
     | _ => []
     end
   else [ResultErrorSent (dr_ski dr) header (address (we_feature env)) kErrorNumberTypeGeneralError])
  ++ [WriteExecuted header cmd].

Definition with_log (p : Container) (es : list WriteEvent) : Container :=
  mkPool (items p) (heap p) (next_ptr p) (es ++ log p).

Lemma ProcessWriteInternal_at env header c cmd fr dr p :
  ProcessWriteInternal env (mkMsg (Some header) c (Some cmd) fr (Some dr)) p
  = Ret kEebusErrorOk (with_log p (executed_events env header cmd dr)).
Proof.
  unfold ProcessWriteInternal, ProcessWriteFunctionData, executed_events, with_log, mbind, Prog_bind.
  simpl. unfold mret, Prog_ret, pool_log, modify. simpl. destruct (is_ok (we_update env cmd)); [|done].
  simpl. destruct (ack_request header) as [[|]|]; done.
Qed.

Lemma pool_at_with_log p ps l es : pool_at p ps l → pool_at (with_log p es) ps l.
Proof. apply pool_at_log. Qed.

Lemma Approve_list env ski c p l1 item l2 : requests p (l1 ++ item :: l2) →
  feature_role (we_feature env) = kRoleTypeServer → key_of item = (ski, c) →
  ∃ e p' l', FeatureLocalTryApproveWrite env (Some ski) c p = Ret e p' ∧ requests p' l' ∧
    if bool_decide (u64 (num_approvals item + 1) < Z.of_nat (we_approval_cbs env))%Z then
      e = kEebusErrorPending ∧ l' = l1 ++ AddApproval item :: l2 ∧ log p' = log p
    else
      match (GetMessage env item).2 ≫= device_remote with
      | None => e = kEebusErrorNotAvailable ∧ l' = l1 ++ AddApproval item :: l2 ∧ log p' = log p
      | Some dr =>
          e = kEebusErrorOk ∧ l' = l1 ++ l2 ∧
          log p' = executed_events env (pwr_header item) (pwr_cmd item) dr ++ log p
      end.
Proof.
  intros [Hp Hnd] Hrole Hk. unfold FeatureLocalTryApproveWrite.
  rewrite bool_decide_false by auto. rewrite bool_decide_false by done.
  destruct (pool_position _ _ _ _ Hp) as (ps1 & x & ps2 & Hat & Hq & Hx).
  cbn [orb]. unfold mbind, Prog_bind. rewrite (Find_present _ _ _ _ _ _ _ _ _ Hat Hq Hnd Hk).
  rewrite (pool_load_at _ _ _ Hx).
  destruct (pool_store_at _ _ _ _ _ _ _ (AddApproval item) Hat Hq) as (p1 & Hst & Hat1 & Hlog1).
  rewrite Hst. assert (heap p1 !! x = Some (AddApproval item)) as Hx1.
  { unfold pool_store in Hst. rewrite Hx in Hst. injection Hst as <-. apply lookup_insert_eq. }
  rewrite (pool_load_at _ _ _ Hx1).
  change (num_approvals (AddApproval item)) with (u64 (num_approvals item + 1)).
  assert (requests p1 (l1 ++ AddApproval item :: l2)) as Hreq1.
  { split; [by eexists|]. rewrite fmap_app, fmap_cons in Hnd |- *. exact Hnd. }
  rewrite (bool_decide_ext (Z.of_nat (we_approval_cbs env) > u64 (num_approvals item + 1))%Z
    (u64 (num_approvals item + 1) < Z.of_nat (we_approval_cbs env))%Z) by lia.
  case_bool_decide; [by exists kEebusErrorPending, p1, (l1 ++ AddApproval item :: l2)|].
  change (GetMessage env (AddApproval item)) with (GetMessage env item).
  destruct (GetMessage_cases env item) as [-> |(fr & dr & ->)]; simpl.
  + by exists kEebusErrorNotAvailable, p1, (l1 ++ AddApproval item :: l2).
  + rewrite ProcessWriteInternal_at.
    pose proof (pool_at_with_log _ _ _ (executed_events env (pwr_header item) (pwr_cmd item) dr) Hat1) as Hat2.
    destruct (pool_drop_at _ _ _ _ _ _ _ Hat2 Hq) as [Hd Hat3]. unfold Remove. rewrite Hd.
    do 2 eexists. exists (l1 ++ l2). split; [done|]. split.
    * split; [by eexists|]. eapply sublist_NoDup; [exact Hnd|]. rewrite !fmap_app, fmap_cons.
      apply sublist_app; [done|]. by constructor.
    * split; [done|]. split; [done|]. simpl. by rewrite Hlog1.
Qed.

(** An approval, exactly.  For a server feature and a waiting request, one more approval is
    counted; while there are fewer approvals than callbacks nothing else happens; with
    the last one the write is executed once, answered as its outcome demands, and the request
    leaves the container; only when the device or feature it came from is gone does
    it stay, unexecuted.  Without such a request, or for another role, nothing changes. *)
Theorem approval_exact env ski c p l : requests p l → feature_role (we_feature env) = kRoleTypeServer →
  let run := FeatureLocalTryApproveWrite env (Some ski) c p in
  ((ski, c) ∉ key_of <$> l → run = Ret kEebusErrorNoChange p) ∧
  ∀ l1 item l2, l = l1 ++ item :: l2 → key_of item = (ski, c) →
    (0 <= num_approvals item < 2 ^ 64 - 1)%Z →
    ∃ e p' l', run = Ret e p' ∧ requests p' l' ∧
      if bool_decide (num_approvals item + 1 < Z.of_nat (we_approval_cbs env))%Z then
        e = kEebusErrorPending ∧ l' = l1 ++ AddApproval item :: l2 ∧ log p' = log p
      else
        match (GetMessage env item).2 ≫= device_remote with
        | None => e = kEebusErrorNotAvailable ∧ l' = l1 ++ AddApproval item :: l2 ∧ log p' = log p
        | Some dr =>
            e = kEebusErrorOk ∧ l' = l1 ++ l2 ∧
            log p' = executed_events env (pwr_header item) (pwr_cmd item) dr ++ log p
        end.
Proof.
  intros [Hp Hnd] Hrole run. unfold run, FeatureLocalTryApproveWrite. rewrite bool_decide_false by auto.
  rewrite bool_decide_false by done. split.
  - intros Hno. cbn [orb]. unfold mbind, Prog_bind. by rewrite (Find_absent _ _ _ _ Hp Hno).
  - intros l1 item l2 -> Hk Hn.
    destruct (Approve_list env ski c p l1 item l2 (conj Hp Hnd) Hrole Hk) as (e & p' & l' & Hrun & Hl & Hcase).
    rewrite u64_small in Hcase by lia. exists e, p', l'. split; [|done].
    unfold FeatureLocalTryApproveWrite in Hrun. rewrite bool_decide_false in Hrun by auto.
    rewrite bool_decide_false in Hrun by done. exact Hrun.
Qed.

(** Time, exactly.  A tick ages every request that has not expired and removes every
    one that has; each of these is answered with a timeout error if its device is
    still known, and then reported to the expiry callback if there is one. *)
Theorem expiry_exact env p l : requests p l →
  ∃ p', WriteTick env p = Ret tt p' ∧ requests p' (omap write_survives l) ∧
    log p' = concat (write_expiry env <$> l) ++ log p.
Proof.
  intros [Hp Hnd]. destruct (WriteTick_list env p l Hp) as (p' & Hrun & Hl & Hlog).
  exists p'. split; [done|]. split; [|done]. split; [done|].
  eapply sublist_NoDup; [exact Hnd|]. clear. induction l as [|item l IH]; [constructor|].
  csimpl. unfold write_survives at 1. destruct (HasExpired item); csimpl; by constructor.
Qed.

(** ** Sequences of operations *)

Inductive WriteOp :=
| OpWrite (env : WriteEnv) (msg : Message)
| OpApprove (env : WriteEnv) (ski : option string) (msg_cnt : Z)
| OpDeny (env : WriteEnv) (ski : option string) (msg_cnt : Z) (err : option ErrorType)
| OpWriteTick (env : WriteEnv).

Definition write_op (o : WriteOp) : Prog Container unit :=
  match o with
  | OpWrite env msg => ProcessWrite env msg;; mret tt
  | OpApprove env ski c => FeatureLocalTryApproveWrite env ski c;; mret tt
  | OpDeny env ski c err => FeatureLocalDenyWrite env ski c err;; mret tt
  | OpWriteTick env => WriteTick env
  end.
Fixpoint write_ops (os : list WriteOp) : Prog Container unit :=
  match os with [] => mret tt | o :: os' => write_op o;; write_ops os' end.

(** A message that was routed: its device, feature and command are there. *)
Definition write_op_ok (o : WriteOp) : Prop :=
  match o with
  | OpWrite _ msg => is_Some (device_remote msg) ∧ is_Some (feature_remote msg) ∧ is_Some (msg_cmd msg)
  | _ => True
  end.

(** The headers of the writes that came in, of those executed, and of those waiting. *)
Definition incoming (os : list WriteOp) : list HeaderType :=
  omap (λ o, match o with OpWrite _ msg => request_header msg | _ => None end) os.
Definition executed (es : list WriteEvent) : list HeaderType :=
  omap (λ e, match e with WriteExecuted h _ => Some h | _ => None end) es.
Definition held (p : Container) (l : list PendingWriteRequest) : list HeaderType :=
  (pwr_header <$> l) ++ executed (log p).

(** From requests [l] in [p] to requests [l'] in [p'], with the headers [hs] coming in. *)
Definition effect (hs : list HeaderType) (p : Container) (l : list PendingWriteRequest)
    (p' : Container) (l' : list PendingWriteRequest) : Prop :=
  requests p' l' ∧ length l' ≤ S (length l) ∧ held p' l' ⊆+ hs ++ held p l.

Lemma effect_none hs p l : requests p l → effect hs p l p l.
Proof. intros Hp. split; [done|]. split; [lia|]. by apply submseteq_inserts_l. Qed.

Lemma executed_app es1 es2 : executed (es1 ++ es2) = executed es1 ++ executed es2.
Proof. apply omap_app. Qed.

Lemma requests_drop p l1 item l2 p' : requests p (l1 ++ item :: l2) → pool_list p' (l1 ++ l2) →
  requests p' (l1 ++ l2).
Proof.
  intros [_ Hnd] Hp'. split; [done|]. eapply sublist_NoDup; [exact Hnd|].
  rewrite !fmap_app, fmap_cons. apply sublist_app; [done|]. by constructor.
Qed.

(** A request leaves, and its header is executed at most once. *)
Lemma effect_drop p l1 item l2 p' es : requests p (l1 ++ item :: l2) → pool_list p' (l1 ++ l2) →
  log p' = es ++ log p → executed es ⊆+ [pwr_header item] → effect [] p (l1 ++ item :: l2) p' (l1 ++ l2).
Proof.
  intros Hp Hp' Hlog Hes. split; [by eapply requests_drop|]. split; [rewrite !length_app; simpl; lia|].
  unfold held. rewrite Hlog, executed_app, !fmap_app, fmap_cons. simpl.
  rewrite <- !app_assoc. apply submseteq_app; [done|].
  rewrite (Permutation_app_swap_app (pwr_header <$> l2)). csimpl.
  change (pwr_header item :: ?x) with ([pwr_header item] ++ x). by apply submseteq_app.
Qed.

(** A request is replaced by itself with more approvals. *)
Lemma effect_same p l p' l' : requests p' l' → pwr_header <$> l' = pwr_header <$> l → log p' = log p →
  effect [] p l p' l'.
Proof.
  intros Hp' Hh Hlog. split; [done|]. split.
  - apply (f_equal length) in Hh. rewrite !length_fmap in Hh. lia.
  - unfold held. by rewrite Hh, Hlog.
Qed.

Lemma executed_events_once env h cmd dr : executed (executed_events env h cmd dr) = [h].
Proof.
  unfold executed_events. destruct (is_ok _); [|done]. by destruct (ack_request h) as [[|]|].
Qed.

Lemma WriteAdd_effect msg dr fr cmd p l : requests p l → (Z.of_nat (length l) < num_elements_max)%Z →
  device_remote msg = Some dr → feature_remote msg = Some fr → msg_cmd msg = Some cmd →
  ∃ e p' l', WriteAdd msg p = Ret e p' ∧ log p' = log p ∧
    effect (option_list (request_header msg)) p l p' l'.
Proof.
  intros Hp Hmax Hdr Hfr Hcmd. unfold WriteAdd. rewrite Hdr.
  destruct (request_header msg) as [header|].
  2: { do 2 eexists. exists l. split; [done|]. split; [done|]. by apply effect_none. }
  destruct (msg_cnt header) as [c|] eqn:Hc.
  2: { do 2 eexists. exists l. split; [done|]. split; [done|]. by apply effect_none. }
  unfold mbind, Prog_bind. destruct (key_split (dr_ski dr, c) l) as [Hno|(l1 & item & l2 & -> & Hk)].
  - destruct Hp as [Hp Hnd]. rewrite (Find_absent _ _ _ _ Hp Hno).
    unfold PendingWriteRequestCreate. rewrite Hc, Hcmd, Hfr. unfold mret, Prog_ret.
    match goal with |- context [pool_add ?a _] => set (new := a) end.
    destruct (pool_add_list p l new Hp Hmax) as (p' & Hrun & Hl & Hlog). rewrite Hrun.
    exists kEebusErrorOk, p', (l ++ [new]). split; [done|]. split; [done|]. split; [split; [done|]|split].
    + rewrite fmap_app. apply NoDup_app. split_and!; [done| |apply NoDup_singleton].
      intros k Hin Hk. apply list_elem_of_singleton in Hk as ->. by apply Hno.
    + rewrite length_app. simpl. lia.
    + unfold held. rewrite Hlog, fmap_app, <- app_assoc. csimpl.
      rewrite <- Permutation_middle. done.
  - destruct (pool_position _ _ _ _ (proj1 Hp)) as (ps1 & x & ps2 & Hat & Hq & _).
    rewrite (Find_present _ _ _ _ _ _ _ _ _ Hat Hq (proj2 Hp) Hk).
    do 2 eexists. exists (l1 ++ item :: l2). split; [done|]. split; [done|]. by apply effect_none.
Qed.

Lemma ask_approvals_log n : ∀ i msg p, ∃ es, ask_approvals n i msg p = Ret tt (with_log p es) ∧
  executed es = [].
Proof.
  induction n as [|n IH]; intros i msg p; [exists []; split; [by destruct p|done]|].
  cbn [ask_approvals]. unfold mbind, Prog_bind, pool_log, modify.
  destruct (IH (S i) msg (mkPool (items p) (heap p) (next_ptr p) (ApprovalAsked i msg :: log p)))
    as (es & Hrun & Hes).
  rewrite Hrun. exists (es ++ [ApprovalAsked i msg]). split.
  - unfold with_log. simpl. by rewrite <- app_assoc.
  - by rewrite executed_app, Hes.
Qed.

Lemma effect_log hs p l p' l' es : effect hs p l p' l' → executed es = [] →
  effect hs p l (with_log p' es) l'.
Proof.
  intros ([[ps Hp] Hnd] & Hlen & Hheld) Hes.
  split; [split; [exists ps; by apply pool_at_with_log|done]|].
  split; [done|]. unfold held in *. simpl. by rewrite executed_app, Hes.
Qed.

Lemma ProcessWrite_effect env msg p l : requests p l → (Z.of_nat (length l) < num_elements_max)%Z →
  write_op_ok (OpWrite env msg) →
  ∃ e p' l', ProcessWrite env msg p = Ret e p' ∧ effect (option_list (request_header msg)) p l p' l'.
Proof.
  intros Hp Hmax ([dr Hdr] & [fr Hfr] & [cmd Hcmd]). unfold ProcessWrite. case_bool_decide.
  - destruct (WriteAdd_effect msg dr fr cmd p l Hp Hmax Hdr Hfr Hcmd) as (e & p1 & l1 & Hrun & Hlog & He).
    unfold mbind, Prog_bind. rewrite Hrun. unfold ProcessWriteApprovalCallbacks.
    destruct (ask_approvals_log (we_approval_cbs env) 0 msg p1) as (es & Hask & Hes). rewrite Hask.
    do 2 eexists. exists l1. split; [done|]. by apply effect_log.
  - destruct msg as [rh c mc mf md]. simpl in *. subst. destruct rh as [header|].
    + rewrite ProcessWriteInternal_at. do 2 eexists. exists l. split; [done|].
      destruct Hp as [[ps Hat] Hnd]. split; [split; [exists ps; by apply pool_at_with_log|done]|].
      split; [lia|]. unfold held. simpl. rewrite executed_app, executed_events_once.
      by rewrite Permutation_app_swap_app.
    + do 2 eexists. exists l. split; [done|]. by apply effect_none.
Qed.

Lemma Approve_effect env ski c p l : requests p l →
  ∃ e p' l', FeatureLocalTryApproveWrite env ski c p = Ret e p' ∧ effect [] p l p' l'.
Proof.
  intros Hp. destruct ski as [ski|].
  2: { do 2 eexists. exists l. split; [|by apply effect_none]. unfold FeatureLocalTryApproveWrite.
       by destruct (bool_decide _). }
  destruct (decide (feature_role (we_feature env) = kRoleTypeServer)) as [Hrole|Hrole].
  2: { do 2 eexists. exists l. split; [|by apply effect_none]. unfold FeatureLocalTryApproveWrite.
       by rewrite bool_decide_true. }
  destruct (key_split (ski, c) l) as [Hno|(l1 & item & l2 & -> & Hk)].
  - do 2 eexists. exists l. split; [|by apply effect_none]. unfold FeatureLocalTryApproveWrite.
    rewrite bool_decide_false by auto. rewrite bool_decide_false by done. cbn [orb].
    unfold mbind, Prog_bind. by rewrite (Find_absent _ _ _ _ (proj1 Hp) Hno).
  - destruct (Approve_list env ski c p l1 item l2 Hp Hrole Hk) as (e & p' & l' & Hrun & Hl & Hcase).
    exists e, p', l'. split; [done|]. case_bool_decide; [|destruct (_ ≫= device_remote) as [dr|]];
      destruct Hcase as (-> & -> & Hlog).
    + apply effect_same; [done| |done]. by rewrite !fmap_app, !fmap_cons.
    + eapply effect_drop; [exact Hp|apply Hl|exact Hlog|]. by rewrite executed_events_once.
    + apply effect_same; [done| |done]. by rewrite !fmap_app, !fmap_cons.
Qed.

Lemma Deny_effect env ski c err p l : requests p l →
  ∃ e p' l', FeatureLocalDenyWrite env ski c err p = Ret e p' ∧ effect [] p l p' l'.
Proof.
  intros Hp.
  assert (∀ e, ∃ e' p' l', (mret e : Prog Container EebusError) p = Ret e' p' ∧ effect [] p l p' l')
    as Hnone by (intros e; exists e, p, l; split; [done|by apply effect_none]).
  unfold FeatureLocalDenyWrite. destruct (_ || _) eqn:E; [apply Hnone|].
  destruct ski as [ski|]; [clear E|by rewrite orb_true_r in E].
  destruct err as [err|]; [|apply Hnone]. case_bool_decide; [apply Hnone|].
  unfold mbind, Prog_bind. destruct (key_split (ski, c) l) as [Hno|(l1 & item & l2 & -> & Hk)].
  - rewrite (Find_absent _ _ _ _ (proj1 Hp) Hno). apply Hnone.
  - destruct (pool_position _ _ _ _ (proj1 Hp)) as (ps1 & x & ps2 & Hat & Hq & Hx).
    rewrite (Find_present _ _ _ _ _ _ _ _ _ Hat Hq (proj2 Hp) Hk), (pool_load_at _ _ _ Hx).
    destruct (GetMessage_cases env item) as [-> |(fr & dr & ->)]; [apply Hnone|]. simpl.
    set (ev := ResultErrorSent _ _ _ _).
    destruct (pool_drop_at _ _ _ _ _ _ _ (pool_at_with_log _ _ _ [ev] Hat) Hq) as [Hd Hat2].
    unfold Remove, pool_log, modify. change (mkPool (items p) (heap p) (next_ptr p) (ev :: log p)) with (with_log p [ev]).
    rewrite Hd. do 2 eexists. exists (l1 ++ l2). split; [done|].
    eapply effect_drop with (es := [ev]); [exact Hp|by eexists|done|]. apply submseteq_nil_l.
Qed.

Lemma expiry_not_executed env l : executed (concat (write_expiry env <$> l)) = [].
Proof.
  induction l as [|item l IH]; [done|]. csimpl. rewrite executed_app, IH, app_nil_r.
  unfold write_expiry, expiry_called, answered. destruct (HasExpired item); [|done].
  destruct (we_on_expired env), (_ ≫= device_remote); done.
Qed.

Lemma survivors_headers l : pwr_header <$> omap write_survives l ⊆+ pwr_header <$> l.
Proof.
  induction l as [|item l IH]; [done|]. csimpl. unfold write_survives at 1.
  destruct (HasExpired item); csimpl; by constructor.
Qed.

Lemma survivors_length l : length (omap write_survives l) ≤ length l.
Proof.
  pose proof (submseteq_length _ _ (survivors_headers l)) as Hlen. by rewrite !length_fmap in Hlen.
Qed.

Lemma WriteTick_effect env p l : requests p l →
  ∃ p' l', WriteTick env p = Ret tt p' ∧ effect [] p l p' l'.
Proof.
  intros [Hp Hnd]. destruct (WriteTick_list env p l Hp) as (p' & Hrun & Hl & Hlog).
  exists p', (omap write_survives l). split; [done|]. split; [split; [done|]|split].
  - eapply sublist_NoDup; [exact Hnd|]. clear. induction l as [|item l IH]; [constructor|].
    csimpl. unfold write_survives at 1. destruct (HasExpired item); csimpl; by constructor.
  - pose proof (survivors_length l). lia.
  - unfold held. rewrite Hlog, executed_app, expiry_not_executed. simpl.
    by apply submseteq_app; [apply survivors_headers|].
Qed.

Lemma write_op_effect o p l : requests p l → (Z.of_nat (length l) < num_elements_max)%Z →
  write_op_ok o → ∃ p' l', write_op o p = Ret tt p' ∧ effect (incoming [o]) p l p' l'.
Proof.
  intros Hp Hmax Ho. destruct o as [env msg|env ski c|env ski c err|env]; unfold write_op, mbind, Prog_bind.
  - destruct (ProcessWrite_effect env msg p l Hp Hmax Ho) as (e & p' & l' & Hrun & He). rewrite Hrun.
    exists p', l'. split; [done|]. unfold incoming. simpl. by destruct (request_header msg).
  - destruct (Approve_effect env ski c p l Hp) as (e & p' & l' & Hrun & He). rewrite Hrun. by exists p', l'.
  - destruct (Deny_effect env ski c err p l Hp) as (e & p' & l' & Hrun & He). rewrite Hrun. by exists p', l'.
  - apply WriteTick_effect, Hp.
Qed.

(** C40: No write is executed twice.  Through any sequence of writes, approvals, denials and
    ticks, with devices, callbacks and expiry handlers that come and go, the requests that wait
    have different keys, nothing uses freed memory, and, counted with their multiplicity, the
    headers of the writes executed and of those still waiting are headers of writes that came in. *)
Theorem writes_execute_at_most_once os : (Z.of_nat (length os) < num_elements_max)%Z →
  Forall write_op_ok os →
  ∃ p l, write_ops os pool_empty = Ret tt p ∧ requests p l ∧
    (pwr_header <$> l) ++ executed (log p) ⊆+ incoming os.
Proof.
  intros Hmax Hos.
  assert (∀ p l, requests p l → (Z.of_nat (length l + length os) < num_elements_max)%Z →
    ∃ p' l', write_ops os p = Ret tt p' ∧ requests p' l' ∧ held p' l' ⊆+ incoming os ++ held p l) as Hgo.
  2: { destruct (Hgo pool_empty []) as (p & l & Hrun & Hl & Hh);
         [split; [apply pool_empty_list|constructor]|done|].
       exists p, l. split_and!; [done..|]. by rewrite app_nil_r in Hh. }
  clear Hmax. induction Hos as [|o os Ho Hos IH]; intros p l Hp Hmax; [by exists p, l|].
  simpl in Hmax. destruct (write_op_effect o p l Hp) as (p1 & l1 & Hrun & Hp1 & Hlen & Hh); [lia|done|].
  destruct (IH p1 l1 Hp1) as (p2 & l2 & Hrun2 & Hp2 & Hh2); [lia|].
  cbn [write_ops]. unfold mbind, Prog_bind. rewrite Hrun. exists p2, l2. split_and!; [done..|].
  replace (incoming (o :: os)) with (incoming [o] ++ incoming os)
    by (unfold incoming; simpl; by destruct (match o with OpWrite _ _ => _ | _ => _ end)).
  etrans; [exact Hh2|]. rewrite <- app_assoc, (Permutation_app_swap_app (incoming [o])).
  by apply submseteq_app.
Qed.
End container.

(** ** Witnesses *)

(** A write from the feature of device "a" to a local feature with two approval callbacks. *)
Definition write_env : WriteEnv :=
  mkWriteEnv heat_pump 2 [remote "a"] (Some 9%Z) (λ _, kEebusErrorOk).
Definition write_header : HeaderType :=
  mkHeader (Some (addr "a" 7)) (Some (addr "local" 3)) (Some 5%Z) None kCommandClassifierTypeWrite
    (Some true).
Definition write_msg : Message :=
  mkMsg (Some write_header) kCommandClassifierTypeWrite (Some (CmdData CmdCreateEmpty))
    (remote_feature (remote "a") (addr "a" 7)) (Some (remote "a")).
Definition waiting_write (approvals : Z) : PendingWriteRequest :=
  mkPendingWrite "ski of a" 5 approvals (EEBUS_COUNTDOWN 10) kCommandClassifierTypeWrite (CmdData CmdCreateEmpty)
    write_header (addr "a" 7).

Lemma one_waiting : ∃ p : Pool (V := Vector) PendingWriteRequest WriteEvent,
  requests p [waiting_write 1] ∧ log p = [].
Proof.
  destruct (pool_add_list (V := Vector) (E := WriteEvent) pool_empty [] (waiting_write 1))
    as (p & _ & Hl & Hlog); [apply pool_empty_list|done|].
  exists p. split; [|done]. split; [done|]. apply NoDup_singleton.
Qed.

(** The second approval executes the write and answers it. *)
Lemma approval_exact_witness : ∃ p p' : Pool (V := Vector) PendingWriteRequest WriteEvent,
  requests p [waiting_write 1] ∧
  FeatureLocalTryApproveWrite write_env (Some "ski of a"%string) 5 p = Ret kEebusErrorOk p' ∧
  requests p' [] ∧
  log p' = [ResultSuccessSent "ski of a" write_header (addr "local" 3); WriteExecuted write_header (CmdData CmdCreateEmpty)].
Proof.
  destruct one_waiting as (p & Hp & Hlog).
  destruct (approval_exact write_env "ski of a" 5 p _ Hp eq_refl) as [_ Happ].
  assert (0 <= num_approvals (waiting_write 1) < 2 ^ 64 - 1)%Z as Hn by (simpl; lia).
  destruct (Happ [] (waiting_write 1) [] eq_refl eq_refl Hn)
    as (e & p' & l' & Hrun & Hp' & He & Hl & Hlog').
  exists p, p'. rewrite Hl in Hp'. rewrite He in Hrun. rewrite Hlog, app_nil_r in Hlog'.
  split; [exact Hp|]. split; [exact Hrun|]. split; [exact Hp'|exact Hlog'].
Defined.

Lemma expiry_exact_witness : ∃ p p' : Pool (V := Vector) PendingWriteRequest WriteEvent,
  requests p [waiting_write 1] ∧ WriteTick write_env p = Ret tt p' ∧
  requests p' [UpdateRemainingTime (waiting_write 1)] ∧ log p' = [].
Proof.
  destruct one_waiting as (p & Hp & Hlog).
  destruct (expiry_exact write_env p _ Hp) as (p' & Hrun & Hp' & Hlog').
  exists p, p'. rewrite Hlog in Hlog'. split; [exact Hp|]. split; [exact Hrun|]. split; [exact Hp'|exact Hlog'].
Defined.

Lemma writes_execute_at_most_once_witness :
  let os := [OpWrite write_env write_msg; OpApprove write_env (Some "ski of a"%string) 5;
             OpApprove write_env (Some "ski of a"%string) 5] in
  ∃ (p : Pool (V := Vector) PendingWriteRequest WriteEvent) l, write_ops os pool_empty = Ret tt p ∧
    requests p l ∧ (pwr_header <$> l) ++ executed (log p) ⊆+ [write_header].
Proof.
  intros os. apply (writes_execute_at_most_once os); [done|].
  apply Forall_cons; split; [|by repeat constructor]. split_and!; by eexists.
Defined.
