(* ===== verification/Datagram.v ===== *)
(** * Datagrams ([spine/model/datagram.c], [datagram.h])

    A datagram is the header and the commands of a message.  The C structures are records here, with
    the data of the table [datagram_data_cfg] as their encoding. *)

From S2P Require Import Prelude FeatureFunctions StringUtil Duration DateTime EebusData SpineFunction Timer Vector Pool Spine LinkManager Sender.

Local Open Scope list_scope.

Abbreviation CmdType := SpineFunction.CmdType.

(** ** Structures *)

(** Everything in the header of a message that was received may be missing. *)
Record HeaderType := mkHdr {
  hdr_spec_version : option string;
  hdr_src_addr : option FeatureAddressType;
  hdr_dest_addr : option FeatureAddressType;
  hdr_originator_addr : option FeatureAddressType;
  hdr_msg_cnt : option Z;
  hdr_msg_cnt_ref : option Z;
  hdr_cmd_classifier : option CommandClassifierType;
  hdr_ack_request : option bool;
  hdr_timestamp : option AbsoluteOrRelativeTimeType;
}.

(** [payload]: the array of commands, which is NULL where it is empty, of pointers that may be NULL. *)
Record DatagramType := mkDatagram {
  header : option HeaderType;
  payload : option (list (option CmdType));
}.

Definition DatagramHeaderIsValid (header : option HeaderType) : bool :=
  match header with
  | None => false
  | Some h =>
      bool_decide (hdr_spec_version h ≠ None) && FeatureAddressIsValid (hdr_src_addr h) &&
      FeatureAddressIsValid (hdr_dest_addr h) &&
      match hdr_originator_addr h with
      | Some a => FeatureAddressIsValid (Some a) && bool_decide (fa_device a ≠ None)
      | None => true
      end &&
      bool_decide (hdr_msg_cnt h ≠ None) && bool_decide (hdr_cmd_classifier h ≠ None)
  end.

Definition DatagramPayloadIsValid (payload : option (list (option CmdType))) : bool := true.

Definition DatagramIsValid (datagram : option DatagramType) : bool :=
  match datagram with
  | None => false
  | Some d => DatagramHeaderIsValid (header d) && DatagramPayloadIsValid (payload d)
  end.

(** ** The structures as data *)

Definition classifier_value (c : CommandClassifierType) : Z :=
  match c with
  | kCommandClassifierTypeRead => 0
  | kCommandClassifierTypeReply => 1
  | kCommandClassifierTypeNotify => 2
  | kCommandClassifierTypeWrite => 3
  | kCommandClassifierTypeCall => 4
  | kCommandClassifierTypeResult => 5
  end.

Definition entity_data (l : list (option Z)) : Data := Array (opt num_data <$> l).
Definition address_data (a : FeatureAddressType) : Data :=
  Struct [opt str_data (fa_device a); opt entity_data (fa_entity a); opt num_data (fa_feature a)].
Definition header_data (h : HeaderType) : Data :=
  Struct [ opt str_data (hdr_spec_version h); opt address_data (hdr_src_addr h); opt address_data (hdr_dest_addr h);
           opt address_data (hdr_originator_addr h); opt num_data (hdr_msg_cnt h); opt num_data (hdr_msg_cnt_ref h);
           opt (λ c, num_data (classifier_value c)) (hdr_cmd_classifier h); opt flag_data (hdr_ack_request h);
           opt time_data (hdr_timestamp h) ].
Definition payload_data (cmd : list (option CmdType)) : Data :=
  Struct [array (opt cmd_data) cmd].
Definition datagram_data (d : DatagramType) : Data := Struct [opt header_data (header d); opt payload_data (payload d)].

(** *** And back *)

Definition data_classifier (d : Data) : option CommandClassifierType :=
  z ← data_num d;
  find (λ c, (classifier_value c =? z)%Z)
    [ kCommandClassifierTypeRead; kCommandClassifierTypeReply; kCommandClassifierTypeNotify; kCommandClassifierTypeWrite;
      kCommandClassifierTypeCall; kCommandClassifierTypeResult ].

Definition data_entity (d : Data) : option (list (option Z)) :=
  match d with Array l => mapM (read_opt data_num) l | _ => None end.
Definition data_address (d : Data) : option FeatureAddressType :=
  match d with
  | Struct [device; entity; feature] =>
      device ← read_opt data_str device; entity ← read_opt data_entity entity; feature ← read_opt data_num feature;
      Some (mkFeatureAddress device entity feature)
  | _ => None
  end.
Definition data_header (d : Data) : option HeaderType :=
  match d with
  | Struct [spec; src; dest; orig; cnt; ref; classifier; ack; time] =>
      spec ← read_opt data_str spec;
      src ← read_opt data_address src; dest ← read_opt data_address dest; orig ← read_opt data_address orig;
      cnt ← read_opt data_num cnt; ref ← read_opt data_num ref;
      classifier ← read_opt data_classifier classifier; ack ← read_opt data_flag ack; time ← read_opt data_time time;
      Some (mkHdr spec src dest orig cnt ref classifier ack time)
  | _ => None
  end.
Definition data_payload (d : Data) : option (list (option CmdType)) :=
  match d with
  | Struct [l] => read_array (read_opt data_cmd) l
  | _ => None
  end.
Definition data_datagram (d : Data) : option DatagramType :=
  match d with
  | Struct [h; p] => h ← read_opt data_header h; p ← read_opt data_payload p; Some (mkDatagram h p)
  | _ => None
  end.

(** ** The encoding is faithful *)

Lemma data_address_data a : data_address (address_data a) = Some a.
Proof.
  destruct a as [d e f]. unfold address_data, data_address. cbn [fa_device fa_entity fa_feature].
  rewrite !read_opt_opt; [done|..]; try done. intros l. apply read_items. intros x. by apply read_opt_opt.
Qed.

Lemma data_header_data h : data_header (header_data h) = Some h.
Proof.
  destruct h. unfold header_data, data_header. cbn [hdr_spec_version hdr_src_addr hdr_dest_addr hdr_originator_addr hdr_msg_cnt hdr_msg_cnt_ref hdr_cmd_classifier hdr_ack_request hdr_timestamp].
  rewrite !read_opt_opt; try done; try (by intros []); apply data_address_data.
Qed.

Lemma data_payload_data l : data_payload (payload_data l) = Some l.
Proof. apply read_array_array. intros c. apply read_opt_opt; [apply data_cmd_data|done]. Qed.

Lemma data_datagram_data d : data_datagram (datagram_data d) = Some d.
Proof.
  destruct d. unfold datagram_data, data_datagram. cbn [header payload].
  rewrite (read_opt_opt header_data), (read_opt_opt payload_data); done || (intros; apply data_header_data || apply data_payload_data).
Qed.

(** ** What the sender writes ([device/sender.c]) *)

Definition specification_version : string := "1.3.0".


(** The calls hold one request; its id is NULL. *)
Definition request_data (r : RequestCall) : Data :=
  Struct [Struct [opt address_data (rq_client_address r); opt address_data (rq_server_address r);
                  opt num_data (rq_server_feature_type r)]].
Definition delete_data (r : DeleteCall) : Data :=
  Struct [Struct [Null; opt address_data (del_client_address r); opt address_data (del_server_address r)]].
Definition result_data (error_number : Z) (description : option string) : Data :=
  Struct [num_data error_number; opt str_data description].

Definition sender_cmd (c : Sender.CmdType) : CmdType :=
  let cmd t d := mkCmd None [] t d None None in
  match c with
  | CmdData c => c
  | CmdResultData n d => cmd kFunctionTypeResultData (result_data n d)
  | CmdSubscriptionRequestCall r => cmd kFunctionTypeNodeManagementSubscriptionRequestCall (request_data r)
  | CmdSubscriptionDeleteCall r => cmd kFunctionTypeNodeManagementSubscriptionDeleteCall (delete_data r)
  | CmdBindingRequestCall r => cmd kFunctionTypeNodeManagementBindingRequestCall (request_data r)
  | CmdBindingDeleteCall r => cmd kFunctionTypeNodeManagementBindingDeleteCall (delete_data r)
  end.

Definition sender_header (h : Sender.HeaderType) : HeaderType :=
  mkHdr (Some specification_version) (src_addr h) (dest_addr h) None (msg_cnt h) (Sender.hdr_msg_cnt_ref h)
    (Some (cmd_classifier h)) (ack_request h) None.
Definition sender_datagram (d : Sender.DatagramType) : DatagramType :=
  mkDatagram (Some (sender_header (Sender.header d))) (Some ((λ c, Some (sender_cmd c)) <$> Sender.payload d)).
