(* ===== verification/DatagramWire.v ===== *)
(** * Datagrams on the wire ([spine/model/datagram.c], [datagram.inc])

    What the parser makes of a text, and that a datagram that can be printed, by the sender or otherwise, is read by
    the other device as it was sent. *)

From S2P Require Import Prelude StringUtil Duration DateTime EebusData EebusDataWrite EebusDataFacts EebusDataMerge Json EebusDataJson EebusDataWire Timer Vector Pool Spine LinkManager Sender SpineFunction SpineReplica SpineTables SpineTablesFacts Datagram.

Local Open Scope list_scope.

(** ** Parsing and printing

    [None] outside is undefined; NULL is [None] inside. *)

Section datagrams.
Context `{Allocator} `{CJson}.

Definition DatagramParse (s : string) : option (option DatagramType) :=
  d ← EebusDataParse datagram_data_cfg s;
  match d with None => Some None | Some d => read_opt data_datagram d end.

Definition DatagramPrintUnformatted (d : DatagramType) : option (option string) :=
  EebusDataPrintUnformatted datagram_data_cfg (datagram_data d).

Definition DatagramCopy (d : DatagramType) : option (option DatagramType) :=
  '(err, c) ← copy datagram_data_cfg (datagram_data d) Null;
  if is_ok err then read_opt data_datagram c else Some None.

Definition DatagramHeaderCompare (a b : option HeaderType) : option bool :=
  let cfg := Sequence "" 0 datagram_header_data_cfg in compare cfg cfg (opt header_data a) (opt header_data b).
End datagrams.

(** ** Whatever is parsed is a structure *)

Definition readable {A} (cfg : EebusDataCfg) (g : Data → option A) : Prop := ∀ d, known cfg d = true → is_Some (read_opt g d).

Lemma known_fields c cs l : forall2b known (c :: cs) l = true →
  ∃ d l', l = d :: l' ∧ known c d = true ∧ forall2b known cs l' = true.
Proof. destruct l as [|d l]; [done|]. intros [? ?]%andb_true_iff. by exists d, l. Qed.

Lemma known_end l : forall2b known [] l = true → l = [].
Proof. by destruct l. Qed.

Lemma readable_string n f : readable (Simple n f KString) data_str.
Proof. intros [|[]| | | |] H; done || by eexists. Qed.
Lemma readable_numeric n f s b : readable (Simple n f (KNumeric s b)) data_num.
Proof. intros [|[]| | | |] H; done || by eexists. Qed.
Lemma readable_bool n f : readable (Simple n f KBool) data_flag.
Proof. intros [|[]| | | |] H; done || by eexists. Qed.
Lemma readable_time n f : readable (Simple n f (KTime TAbsoluteOrRelative)) data_time.
Proof. intros [|[]| | | |] H; done || by eexists. Qed.

Lemma readable_classifier n f : readable (Simple n f (KEnum cmd_classifiers)) data_classifier.
Proof.
  intros [|[z| | | | | |]| | | |] H; try done. cbn [known block_known] in H. unfold block_known in H.
  apply andb_true_iff in H as [_ H]. apply existsb_exists in H as (e & He & <-%Z.eqb_eq).
  repeat (destruct He as [<-|He]; [by eexists|]). destruct He.
Qed.

Lemma readable_array {A} n c (g : Data → option A) d : (∀ d, known c d = true → may_be_null c || negb (null d) = true → is_Some (g d)) →
  known (List_ n c) d = true → is_Some (read_array g d).
Proof.
  intros Hg. destruct d as [| | | |l|]; try done. cbn [known read_array]. intros Hl. apply mapM_is_Some, Forall_forall.
  intros d Hd. rewrite forallb_forall in Hl. apply list_elem_of_In, Hl in Hd as [? ?]%andb_true_iff. by apply Hg.
Qed.

Create HintDb readable.
#[local] Hint Resolve readable_string readable_numeric readable_bool readable_time readable_classifier : readable.

(** The fields of a structure, one after the other. *)
Ltac known_struct d H :=
  destruct d as [| | |?l| |]; try done; cbn [known] in H;
  repeat match type of H with forall2b known (_ :: _) _ = true =>
    apply known_fields in H as (?d & ?l & -> & ? & H) end;
  apply known_end in H as ->; cbn [read_opt].
Ltac read_fields :=
  repeat match goal with H : known ?c ?d = true |- context [read_opt ?g ?d] =>
    let Hr := fresh in assert (readable c g) as Hr by (eauto with readable);
    destruct (Hr d H) as [? ->]; clear H Hr; cbn [mbind option_bind] end.

Lemma readable_entity n : readable (List_ n entity_element_data_cfg) data_entity.
Proof.
  intros [| | | |l|] H; try done. cbn [read_opt data_entity].
  destruct (readable_array n entity_element_data_cfg (read_opt data_num) (Array l)) as [x E]; [|done|].
  - intros d Hd _. by apply readable_numeric in Hd.
  - cbn [read_array] in E. rewrite E. by eexists.
Qed.
#[local] Hint Resolve readable_entity : readable.

Lemma readable_address n : readable (EEBUS_DATA_SEQUENCE n feature_address_cfg) data_address.
Proof. intros d H. unfold EEBUS_DATA_SEQUENCE, feature_address_cfg in H. known_struct d H. unfold data_address. read_fields. eexists; reflexivity. Qed.
#[local] Hint Resolve readable_address : readable.

Lemma readable_header n : readable (EEBUS_DATA_SEQUENCE n datagram_header_data_cfg) data_header.
Proof. intros d H. unfold EEBUS_DATA_SEQUENCE, datagram_header_data_cfg in H. known_struct d H. unfold data_header. read_fields. eexists; reflexivity. Qed.

Lemma known_choice cs d : known (EEBUS_DATA_CHOICE cs) d = true → ∃ i x, d = Chosen i x.
Proof. destruct d as [| | | | |i x]; try done. by exists i, x. Qed.

Lemma readable_enum n f lut : readable (Simple n f (KEnum lut)) data_num.
Proof. intros [|[]| | | |] H; done || by eexists. Qed.
#[local] Hint Resolve readable_enum : readable.

Lemma readable_ctrl n : readable (EEBUS_DATA_SEQUENCE n cmd_control_cfg) data_ctrl.
Proof. intros d H. unfold EEBUS_DATA_SEQUENCE, cmd_control_cfg in H. known_struct d H. by eexists. Qed.
#[local] Hint Resolve readable_ctrl : readable.

Lemma readable_filter n : readable (Sequence n 0 filter_cfg) data_filter.
Proof.
  intros d H. unfold filter_cfg in H. known_struct d H.
  repeat match goal with H : known (EEBUS_DATA_CHOICE _) _ = true |- _ => apply known_choice in H as (? & ? & ->) end.
  unfold data_filter. read_fields. eexists; reflexivity.
Qed.

Lemma readable_cmd : readable cmd_element_data_cfg data_cmd.
Proof.
  intros d H. unfold cmd_element_data_cfg, cmd_cfg in H. known_struct d H.
  repeat match goal with H : known (EEBUS_DATA_CHOICE _) _ = true |- _ => apply known_choice in H as (? & ? & ->) end.
  match goal with H : known (EEBUS_DATA_LIST _ _) ?d = true |- _ =>
    apply (readable_array "filter" filter_element_data_cfg data_filter) in H as [fs Hfs] end.
  - unfold data_cmd. rewrite Hfs. read_fields. eexists; reflexivity.
  - intros f Hf Hn. destruct f; try done; destruct (readable_filter "" _ Hf) as [? E]; cbn [read_opt] in E;
      (destruct (data_filter _); [by eexists|done]).
Qed.

Lemma readable_payload n : readable (EEBUS_DATA_SEQUENCE n datagram_payload_data_cfg) data_payload.
Proof.
  intros d H. unfold EEBUS_DATA_SEQUENCE, datagram_payload_data_cfg in H. known_struct d H. unfold data_payload.
  match goal with H : known (EEBUS_DATA_LIST _ _) ?d = true |- _ =>
    destruct (readable_array "cmd" cmd_element_data_cfg (read_opt data_cmd) d) as [x ->]; [|done|] end.
  - intros c Hc _. by apply readable_cmd.
  - eexists; reflexivity.
Qed.
#[local] Hint Resolve readable_header readable_payload : readable.

Lemma readable_datagram : readable datagram_data_cfg data_datagram.
Proof.
  intros d H. unfold datagram_data_cfg, datagram_sequence_data_cfg in H. known_struct d H. unfold data_datagram.
  read_fields. eexists; reflexivity.
Qed.

(** ** What a received command holds *)

(** The data is of the function the command names with it, the selectors and elements of the function named with
    them; that may be another one. *)
Definition chosen_from (cs : list EebusDataCfg) (i : nat) (d : Data) : Prop :=
  ∃ cfg, cs !! i = Some cfg ∧ known cfg d = true.

Definition filter_known (f : FilterType) : Prop :=
  chosen_from data_selectors_choice_data_cfg (data_selectors_choice_type_id f) (data_selectors_choice f) ∧
  chosen_from data_elements_choice_data_cfg (data_elements_choice_type_id f) (data_elements_choice f).

Definition cmd_known (c : CmdType) : Prop :=
  chosen_from data_choice_data_cfg (data_choice_type_id c) (data_choice c) ∧ Forall filter_known (cmd_filter c).

Lemma known_chosen cs i d : known (EEBUS_DATA_CHOICE cs) (Chosen i d) = true → chosen_from cs i d.
Proof.
  unfold EEBUS_DATA_CHOICE. cbn [known]. rewrite pick_lookup. destruct (cs !! i) as [c|] eqn:Hc; [|done]. by exists c.
Qed.

Lemma data_filter_known n d f : known (Sequence n 0 filter_cfg) d = true → data_filter d = Some f → filter_known f.
Proof.
  intros H Hf. unfold filter_cfg in H. destruct d as [| | |l| |]; try done. cbn [known] in H.
  repeat match type of H with forall2b known (_ :: _) _ = true => apply known_fields in H as (?d & ?l & -> & ? & H) end.
  apply known_end in H as ->.
  repeat match goal with H : known (EEBUS_DATA_CHOICE _) ?d = true |- _ =>
    destruct (known_choice _ d H) as (? & ? & ->); apply known_chosen in H end.
  unfold data_filter in Hf. destruct (read_opt data_num _); [|done]. cbn [mbind option_bind] in Hf.
  destruct (read_opt data_ctrl _); [|done]. injection Hf as <-. done.
Qed.

Lemma data_cmd_known d c : known cmd_element_data_cfg d = true → data_cmd d = Some c → cmd_known c.
Proof.
  intros H Hf. unfold cmd_element_data_cfg, cmd_cfg in H. destruct d as [| | |l| |]; try done. cbn [known] in H.
  repeat match type of H with forall2b known (_ :: _) _ = true => apply known_fields in H as (?d & ?l & -> & ? & H) end.
  apply known_end in H as ->.
  match goal with H : known (EEBUS_DATA_CHOICE _) ?d = true |- _ =>
    destruct (known_choice _ d H) as (? & ? & ->); apply known_chosen in H end.
  unfold data_cmd in Hf. destruct (read_opt data_num _); [|done]. cbn [mbind option_bind] in Hf.
  match goal with H : known (EEBUS_DATA_LIST _ _) ?d = true |- _ => rename H into Hl; rename d into fd end.
  destruct (read_array data_filter fd) as [fs|] eqn:Hfs; [|done]. cbn [mbind option_bind] in Hf.
  destruct (read_opt data_time _); [|done]. cbn [mbind option_bind] in Hf.
  destruct (read_opt data_str _); [|done]. injection Hf as <-. split; [done|]. cbn [cmd_filter].
  destruct fd as [| | | |items|]; try done; [by injection Hfs as <-|]. cbn [read_array] in Hfs. apply mapM_Some in Hfs.
  unfold EEBUS_DATA_LIST in Hl. cbn [known] in Hl. rewrite forallb_forall in Hl. apply Forall_lookup. intros i f Hi.
  destruct (Forall2_lookup_r _ _ _ _ _ Hfs Hi) as (item & Hx & Hxf). eapply data_filter_known; [|exact Hxf].
  apply list_elem_of_lookup_2, list_elem_of_In, Hl in Hx. by apply andb_true_iff in Hx as [_ ?].
Qed.

Lemma data_payload_known n d l : known (EEBUS_DATA_SEQUENCE n datagram_payload_data_cfg) d = true → data_payload d = Some l →
  Forall (λ c, ∃ cmd, c = Some cmd ∧ cmd_known cmd) l.
Proof.
  intros H Hl. unfold EEBUS_DATA_SEQUENCE, datagram_payload_data_cfg in H. destruct d as [| | |l'| |]; try done. cbn [known] in H.
  apply known_fields in H as (d & l'' & -> & Hd & ->%known_end). cbn [data_payload] in Hl.
  destruct d as [| | | |items|]; try done; [by injection Hl as <-|]. cbn [read_array] in Hl. apply mapM_Some in Hl.
  unfold EEBUS_DATA_LIST in Hd. cbn [known] in Hd. rewrite forallb_forall in Hd. apply Forall_lookup. intros i c Hi.
  destruct (Forall2_lookup_r _ _ _ _ _ Hl Hi) as (x & Hx & Hxc).
  apply list_elem_of_lookup_2, list_elem_of_In, Hd in Hx. apply andb_true_iff in Hx as [Hn Hk].
  assert (null x = false) as Hnn by (by apply negb_true_iff). unfold read_opt in Hxc.
  destruct (data_cmd x) as [cmd|] eqn:Hc; [|by destruct x].
  exists cmd. split; [by destruct x; simplify_eq/=|]. by eapply data_cmd_known.
Qed.

(** ** Parsing *)

Lemma datagram_cfg_ok : json_ok datagram_data_cfg = true ∧ cfg_ok datagram_data_cfg = true.
Proof. by vm_compute. Qed.

Lemma datagram_not_deep : S (json_depth datagram_data_cfg) <= CJSON_NESTING_LIMIT.
Proof. apply Nat.leb_le. by vm_compute. Qed.

Section parsing.
Context `{Allocator} `{CJsonLaws}.

Definition commands (d : DatagramType) : list (option CmdType) := default [] (payload d).

(** C23: Whatever text a peer sends, the parser makes a datagram of it, or NULL, unless the text is JSON with a value, read for a field of the
    datagram, that C cannot convert: a number out of the range of the type of the field, or a negative duration of which a part is
    the smallest [int32_t].  No pointer to a command is NULL, and the data of each command is of the function whose name it is
    sent under, its selectors and elements of the functions named with them. *)
Theorem every_text_is_parsed (s : string) :
  (DatagramParse s = None →
     ∃ json k j, cJSON_Parse s = Some json ∧ reads_member datagram_data_cfg json true k j ∧ cannot_convert k j) ∧
  ∀ dg, DatagramParse s = Some (Some dg) → Forall (λ c, ∃ cmd, c = Some cmd ∧ cmd_known cmd) (commands dg).
Proof.
  unfold DatagramParse. destruct (EebusDataParse _ s) as [[d|]|] eqn:E; [|done|].
  2: { split; [|done]. intros _. by apply parse_undefined. }
  pose proof (parsed_known _ s d (proj1 datagram_cfg_ok) (proj2 datagram_cfg_ok) eq_refl E) as Hk. cbn [mbind option_bind].
  destruct (readable_datagram d Hk) as [x Hx]. rewrite Hx. split; [done|]. intros dg [= ->].
  destruct d as [| | |l| |]; try done. unfold datagram_data_cfg, datagram_sequence_data_cfg in Hk. cbn [known] in Hk.
  apply known_fields in Hk as (h & l1 & -> & _ & Hk). apply known_fields in Hk as (p & l2 & -> & Hp & ->%known_end).
  cbn [read_opt data_datagram] in Hx. destruct (read_opt data_header h); [|done]. cbn [mbind option_bind] in Hx.
  destruct (read_opt data_payload p) as [pl|] eqn:Epl; [|done]. injection Hx as <-. unfold commands. cbn [payload].
  destruct pl as [cmds|]; [|constructor]. eapply data_payload_known; [exact Hp|]. unfold read_opt in Epl.
  destruct (data_payload p) as [cmds'|]; [|by destruct p]. by destruct p; simplify_eq/=.
Qed.

(** ** What arrives of a datagram

    An empty array arrives as NULL, and the type of data that is NULL as that of the first function. *)

Definition wire_address (a : FeatureAddressType) : FeatureAddressType :=
  mkFeatureAddress (fa_device a) (match fa_entity a with Some [] => None | e => e end) (fa_feature a).
Definition wire_header (h : HeaderType) : HeaderType :=
  mkHdr (hdr_spec_version h) (wire_address <$> hdr_src_addr h) (wire_address <$> hdr_dest_addr h)
    (wire_address <$> hdr_originator_addr h) (hdr_msg_cnt h) (hdr_msg_cnt_ref h) (hdr_cmd_classifier h)
    (hdr_ack_request h) (hdr_timestamp h).
Definition wire_type (i : nat) (d : Data) : nat := if null d then 0 else i.
Definition wire_filter (f : FilterType) : FilterType :=
  mkFilter (filter_id f) (cmd_ctrl f)
    (wire_type (data_selectors_choice_type_id f) (data_selectors_choice f)) (wire (data_selectors_choice f))
    (wire_type (data_elements_choice_type_id f) (data_elements_choice f)) (wire (data_elements_choice f)).
Definition wire_cmd (c : CmdType) : CmdType :=
  mkCmd (cmd_function c) (wire_filter <$> cmd_filter c) (wire_type (data_choice_type_id c) (data_choice c))
    (wire (data_choice c)) (last_update_at c) (manufacturer_specific_extension c).
Definition wire_payload (cmd : list (option CmdType)) : list (option CmdType) := (λ c : option CmdType, wire_cmd <$> c) <$> cmd.
Definition wire_datagram (d : DatagramType) : DatagramType :=
  mkDatagram (wire_header <$> header d) (wire_payload <$> payload d).

Lemma wire_opt {A} (f : A → Data) (g : A → A) x : (∀ a, wire (f a) = f (g a)) → wire (opt f x) = opt f (g <$> x).
Proof. intros Hf. destruct x; [apply Hf|done]. Qed.
Lemma wire_block {A} (f : A → Data) x : (∀ a, ∃ b, f a = Leaf b) → wire (opt f x) = opt f x.
Proof. intros Hf. destruct x as [a|]; [|done]. simpl. by destruct (Hf a) as [b ->]. Qed.
Lemma wire_array {A} (f : A → Data) (g : A → A) l : (∀ a, wire (f a) = f (g a)) → wire (array f l) = array f (g <$> l).
Proof.
  intros Hf. destruct l as [|a l]; [done|]. simpl. rewrite Hf. do 2 f_equal. induction l as [|b l IH]; [done|].
  simpl. by rewrite Hf, IH.
Qed.

Lemma wire_chosen i d : wire (Chosen i d) = Chosen (wire_type i d) (wire d).
Proof. unfold wire_type. cbn [wire]. by destruct d. Qed.

Lemma wire_entity l : wire (opt entity_data (Some l)) = opt entity_data (match l with [] => None | _ => Some l end).
Proof.
  assert (map wire (opt num_data <$> l) = opt num_data <$> l) as E.
  { induction l as [|[x|] l IH]; [done|..]; rewrite fmap_cons; cbn [map]; by rewrite IH. }
  destruct l as [|x l]; [done|]. unfold opt, entity_data. cbn [from_option]. rewrite <- E at 2. done.
Qed.

Lemma wire_address_data a : wire (address_data a) = address_data (wire_address a).
Proof.
  destruct a as [d e f]. unfold address_data, wire_address. cbn [fa_device fa_entity fa_feature].
  assert (∀ l, wire (Struct l) = Struct (map wire l)) as -> by done. cbn [map]. rewrite !(wire_block str_data), !(wire_block num_data) by eauto.
  destruct e as [l|]; [|done]. rewrite wire_entity. by destruct l.
Qed.

Lemma wire_header_data h : wire (header_data h) = header_data (wire_header h).
Proof.
  destruct h as [v src dest o n r c a t]. unfold header_data, wire_header.
  cbn [hdr_spec_version hdr_src_addr hdr_dest_addr hdr_originator_addr hdr_msg_cnt hdr_msg_cnt_ref hdr_cmd_classifier hdr_ack_request hdr_timestamp wire map].
  rewrite !(wire_opt address_data wire_address) by apply wire_address_data. by rewrite !wire_block by (eauto; intros; by eexists).
Qed.

Lemma wire_filter_data f : wire (filter_data f) = filter_data (wire_filter f).
Proof.
  destruct f as [id ctrl i s j e]. unfold filter_data, wire_filter.
  cbn [filter_id cmd_ctrl data_selectors_choice_type_id data_selectors_choice data_elements_choice_type_id data_elements_choice].
  assert (∀ l, wire (Struct l) = Struct (map wire l)) as -> by done. cbn [map]. rewrite !wire_chosen, wire_block by eauto.
  by destruct ctrl as [[[] []]|].
Qed.

Lemma wire_cmd_data c : wire (cmd_data c) = cmd_data (wire_cmd c).
Proof.
  destruct c as [f l i d t e]. unfold cmd_data, wire_cmd.
  cbn [cmd_function cmd_filter data_choice_type_id data_choice last_update_at manufacturer_specific_extension].
  assert (∀ l, wire (Struct l) = Struct (map wire l)) as -> by done. cbn [map].
  rewrite wire_chosen, (wire_array filter_data wire_filter) by apply wire_filter_data.
  by rewrite !wire_block by (intros; by eexists).
Qed.

Lemma wire_datagram_data d : wire (datagram_data d) = datagram_data (wire_datagram d).
Proof.
  destruct d as [h p]. unfold datagram_data, wire_datagram. cbn [header payload].
  assert (∀ l, wire (Struct l) = Struct (map wire l)) as -> by done. cbn [map].
  rewrite (wire_opt header_data wire_header) by apply wire_header_data.
  rewrite (wire_opt payload_data wire_payload); [done|]. intros l. unfold payload_data.
  assert (∀ l, wire (Struct l) = Struct (map wire l)) as -> by done. cbn [map].
  rewrite (wire_array (opt cmd_data) (λ c : option CmdType, wire_cmd <$> c)); [done|]. intros c. apply wire_opt, wire_cmd_data.
Qed.

(** A datagram without empty arrays, and with the first type for data that is NULL, arrives as it is. *)
Lemma wire_datagram_tight d : tight (datagram_data d) = true → wire_datagram d = d.
Proof.
  intros Ht. apply (inj Some). rewrite <- !data_datagram_data. by rewrite <- wire_datagram_data, wire_tight.
Qed.

Lemma printed_datagram dg : printable datagram_data_cfg (datagram_data dg) = true →
  ∃ s, DatagramPrintUnformatted dg = Some (Some s) ∧ DatagramParse s = Some (Some (wire_datagram dg)).
Proof.
  intros Hp. destruct (printed_read datagram_data_cfg (datagram_data dg) (proj1 datagram_cfg_ok) eq_refl datagram_not_deep Hp eq_refl)
    as (s & Hs & Hr).
  exists s. split; [done|]. unfold DatagramParse. rewrite Hr. cbn [mbind option_bind].
  rewrite wire_datagram_data. unfold read_opt. rewrite data_datagram_data. done.
Qed.

(** A datagram that can be printed is printed as a text, of which the parser of the other device makes the same
    datagram, but for empty arrays, and the function types of data that is NULL. *)
Theorem datagram_round_trip (dg : DatagramType) : printable datagram_data_cfg (datagram_data dg) = true →
  ∃ s, DatagramPrintUnformatted dg = Some (Some s) ∧ DatagramParse s = Some (Some (wire_datagram dg)).
Proof. apply printed_datagram. Qed.

(** ** The sender's messages *)

#[local] Instance json_sender : SenderEnv := {|
  Sender.DatagramPrintUnformatted d := default None (DatagramPrintUnformatted (sender_datagram d));
  alloc_cmds _ := true;
|}.

(** C9: a message the sender is asked for, if it can be printed, is written as a text that the other device parses
    as that message, with its addresses, the next counter, the reference, the classifier and the commands: up to empty
    arrays, which arrive as NULL, and the function types of data that is NULL, and where there are none of these as exactly
    the same.  It can be printed ([printable]) if its data is of its functions, each the first of its name, without NUL in a
    string, with numbers below 10^15 and values that the enumerations have, and durations that the reader takes; the
    sender also writes others, which arrive changed or are refused ([large_number], [part_of_a_second_is_lost]). *)
Theorem sent_is_understood (c : CommandClassifierType) (src dst : FeatureAddressType) (ref : option Z) (ack : bool)
    (cmds : list Sender.CmdType) (s : Sender) :
  let n := u64 (msg_num s + 1) in
  let d := Sender.mkDatagram (mkHeader (Some src) (Some dst) (Some n) ref c (if ack then Some true else None)) cmds in
  writer s = true → cmds ≠ [] → printable datagram_data_cfg (datagram_data (sender_datagram d)) = true →
  ∃ msg, SendSpineMessage c (Some src) (Some dst) ref ack cmds s =
      Ret (kEebusErrorOk, Some n) (mkSender n (writer s) ((d, msg) :: written s)) ∧
    DatagramParse msg = Some (Some (wire_datagram (sender_datagram d))) ∧
    (tight (datagram_data (sender_datagram d)) = true → wire_datagram (sender_datagram d) = sender_datagram d).
Proof.
  intros n d Hw Hc Hp. destruct (printed_datagram _ Hp) as (msg & Hpr & Hpa). exists msg. split; [|split; [done|apply wire_datagram_tight]].
  rewrite SendSpineMessage_spec by done. cbn [alloc_cmds json_sender]. fold n. fold d.
  unfold Sender.DatagramPrintUnformatted, json_sender. by rewrite Hpr.
Qed.
End parsing.

(** ** A message on the wire

    The notification of two limits, as text and back; a text with selectors of one function next to data of
    another; and a number that does not survive. *)

From Stdlib Require Import Strings.String.
From S2P Require Import FeatureFunctions EebusDataTable EebusDataList EebusDataDemo JsonText LinkManager.

Section demo.
#[local] Existing Instances jtree_json jtree_laws.
#[local] Instance malloc_zero : Allocator := true.

Definition limits_cmd : CmdType :=
  mkCmd (Some 46) [mkFilter None (Some ctrl_partial) 46 Null 46 Null] 46 (Struct [Array two_limits]) None None.
Definition limits_header : HeaderType :=
  mkHdr (Some "1.3.0") (Some (addr "pump" 3)) (Some (addr "box" 7)) None (Some 42%Z) None
    (Some kCommandClassifierTypeNotify) None None.
Definition limits_datagram : DatagramType := mkDatagram (Some limits_header) (Some [Some limits_cmd]).

(** ** Sent and read *)

Lemma datagram_round_trip_witness : ∃ s, DatagramPrintUnformatted limits_datagram = Some (Some s) ∧
  DatagramParse s = Some (Some (wire_datagram limits_datagram)).
Proof. apply datagram_round_trip. by vm_compute. Defined.

(** Only the types of the missing selectors and elements are others. *)
Example what_arrives : wire_datagram limits_datagram =
  mkDatagram (Some limits_header)
    (Some [Some (mkCmd (Some 46) [mkFilter None (Some ctrl_partial) 0 Null 0 Null] 46 (Struct [Array two_limits]) None None)]).
Proof. by vm_compute. Qed.

Definition limits_text : string :=
  match DatagramPrintUnformatted limits_datagram with Some (Some s) => s | _ => EmptyString end.

Lemma every_text_is_parsed_witness : ∃ dg, DatagramParse limits_text = Some (Some dg) ∧
  Forall (λ c, ∃ cmd, c = Some cmd ∧ cmd_known cmd) (commands dg).
Proof.
  destruct (DatagramParse limits_text) as [[dg|]|] eqn:E; [|vm_compute in E; discriminate E..].
  exists dg. split; [reflexivity|]. exact (proj2 (every_text_is_parsed limits_text) dg E).
Defined.

Lemma data_round_trip_witness : ∃ s,
  EebusDataPrintUnformatted loadControlLimitListData (Struct [Array two_limits]) = Some (Some s) ∧
  EebusDataParse loadControlLimitListData s = Some (Some (Struct [Array two_limits])).
Proof.
  exact (data_round_trip loadControlLimitListData (Struct [Array two_limits]) ltac:(by vm_compute) eq_refl
    ltac:(by apply Nat.leb_le) ltac:(by vm_compute) eq_refl).
Defined.

Lemma parsed_data_typed_witness :
  known loadControlLimitListData (Struct [Array two_limits]) = true ∧ typed loadControlLimitListData (Struct [Array two_limits]) = true.
Proof.
  apply (parsed_data_typed loadControlLimitListData
    (match EebusDataPrintUnformatted loadControlLimitListData (Struct [Array two_limits]) with Some (Some s) => s | _ => EmptyString end));
    by vm_compute.
Defined.

Lemma sent_is_understood_witness :
  let cmds := [CmdData limits_cmd; CmdBindingRequestCall (mkRequestCall (Some (addr "box" 7)) (Some (addr "pump" 3)) (Some 9%Z))] in
  let d := Sender.mkDatagram (mkHeader (Some (addr "pump" 3)) (Some (addr "box" 7)) (Some 1%Z) None
             kCommandClassifierTypeNotify (Some true)) cmds in
  ∃ msg, SendSpineMessage (H := json_sender) kCommandClassifierTypeNotify (Some (addr "pump" 3)) (Some (addr "box" 7)) None true cmds
           (SenderConstruct true) = Ret (kEebusErrorOk, Some 1%Z) (mkSender 1 true [(d, msg)]) ∧
    DatagramParse msg = Some (Some (wire_datagram (sender_datagram d))) ∧
    (tight (datagram_data (sender_datagram d)) = true → wire_datagram (sender_datagram d) = sender_datagram d).
Proof.
  apply (sent_is_understood kCommandClassifierTypeNotify (addr "pump" 3) (addr "box" 7) None true
    [CmdData limits_cmd; CmdBindingRequestCall (mkRequestCall (Some (addr "box" 7)) (Some (addr "pump" 3)) (Some 9%Z))]
    (SenderConstruct true)); [reflexivity|discriminate|by vm_compute].
Defined.

(** ** What goes wrong *)

(** A 64-bit number beyond 2^53 does not survive: it is a [double] on its way. *)
Example large_number : JsonToNum false 64 (NumToJson false 64 (2 ^ 53 + 1)) = Parsed (2 ^ 53)%Z.
Proof. by vm_compute. Qed.

(** A negative duration of which a part is the smallest 32-bit number: negating it overflows. *)
Example smallest_duration : EebusDurationParse (list_ascii_of_string "-P2147483648Y") = None.
Proof. by vm_compute. Qed.

(** Selectors of measurements in a delete of limits. *)
Definition foreign_cmd : CmdType :=
  mkCmd (Some 46) [mkFilter None (Some ctrl_delete) 51 (Struct [Null; Null; Struct [Null; Null]]) 46 Null] 46
    (Struct [Array two_limits]) None None.
Definition foreign_datagram : DatagramType := mkDatagram (Some limits_header) (Some [Some foreign_cmd]).

(** A delete whose selectors are those of another function is parsed and kept with the data of the function the
    command names; the update then takes the selectors for those of that function, which is undefined. *)
Example foreign_selectors : ∃ s dg cmd f,
  DatagramPrintUnformatted foreign_datagram = Some (Some s) ∧ DatagramParse s = Some (Some dg) ∧
  commands dg = [Some cmd] ∧ CmdGetFilterDelete cmd = Some f ∧ data_choice_type_id cmd = 46 ∧
  data_selectors_choice_type_id f = 51 ∧
  UpdateData (mkFunction 46 (Struct [Array two_limits]) None) (data_choice cmd) (CmdGetFilterPartial cmd) (Some f) true true = None.
Proof.
  destruct (datagram_round_trip foreign_datagram) as (s & Hs & Hp); [by vm_compute|].
  exists s, (wire_datagram foreign_datagram). do 2 eexists. split_and!; [done|done|by vm_compute..].
Qed.

(** A call to subscribe without a request: the manager would dereference it. *)
Definition empty_call_cmd : CmdType := mkCmd None [] kFunctionTypeNodeManagementSubscriptionRequestCall (Struct [Null]) None None.

Example empty_call_parsed : ∃ s, DatagramPrintUnformatted (mkDatagram (Some limits_header) (Some [Some empty_call_cmd])) = Some (Some s) ∧
  DatagramParse s = Some (Some (mkDatagram (Some limits_header) (Some [Some empty_call_cmd]))).
Proof.
  destruct (datagram_round_trip (mkDatagram (Some limits_header) (Some [Some empty_call_cmd]))) as (s & Hs & Hp); [by vm_compute|].
  by exists s.
Qed.
End demo.
