(* ===== verification/FeatureData.v ===== *)
(** * The data of features ([spine/feature/feature_local.c], [feature_remote.c])

    A local feature holds the functions of this device, a remote feature the copies this device
    has of the functions of another.  Messages read, write and update them.  What a
    procedure sends, publishes and hands to other parts is a list of [FeatureOut]; [SpineEnv] says how
    the sender answers. *)

From S2P Require Import Prelude FeatureFunctions Duration DateTime EebusData EebusDataWrite EebusDataFacts EebusDataMerge Timer Vector Pool Spine Sender SpineFunction SpineReplica Datagram.

Local Open Scope list_scope.

Record Message := mkMessage {
  request_header : option HeaderType;
  msg_cmd_classifier : CommandClassifierType;
  msg_cmd : option CmdType;
  filter_partial : option FilterType;
  filter_delete : option FilterType;
}.

Record FeatureData := mkFeatureData {
  fd_type : Z;
  fd_role : RoleType;
  functions : list Function;
  wr_approval_cbs : nat;                        (** of a local feature *)
}.

Inductive FeatureOut :=
| NotifySubscribers (cmd : CmdType)
| SentRead (cmd : CmdType)
| SentReply (request_header : option HeaderType) (cmd : CmdType)
| SentWrite (cmd : CmdType) (counted : bool)
| SentResultError (header : HeaderType)
| SentResultSuccess (header : HeaderType)
| DataUpdated (function_type : nat) (new_data : Data) (classifier : CommandClassifierType)
| ResultProcessed (msg_cnt_ref : Z) (result : Data)
| ReplyProcessed (msg_cnt_ref : Z) (function_type : nat) (new_data : Data)
| WriteHeld (msg : Message)                     (** added to the pending writes, approvals asked for *)
| PendingResultAdded (msg_cnt : Z) (function_type : nat)
| PendingReplyAdded (msg_cnt : Z) (function_type : nat)
| HeartbeatFeatureSet.

(** The answer of a send, and the counter it gave the message; whether the remote device has a
    sender.  Features always have an address. *)
Class SpineEnv := { sent : FeatureOut → EebusError * Z; has_sender : bool }.


Section features.
Context `{Allocator} {M : SpineModel} {E : SpineEnv}.

Abbreviation Outs := (list FeatureOut).

(** ** Functions of a feature *)

Definition FeatureGetFunction (self : FeatureData) (t : nat) : option (nat * Function) :=
  list_find (λ f, type f = t) (functions self).

Definition with_functions (fs : list Function) (self : FeatureData) : FeatureData :=
  mkFeatureData (fd_type self) (fd_role self) fs (wr_approval_cbs self).

Definition set_function (i : nat) (f : Function) (self : FeatureData) : FeatureData :=
  with_functions (<[i := f]> (functions self)) self.

(** [FeatureConstruct]: a function of every type of the feature that the model knows; the
    others would be NULL. *)
Definition FeatureConstruct (feature_functions : list nat) (t : Z) (role : RoleType) : option FeatureData :=
  fs ← mapM FunctionCreate feature_functions; Some (mkFeatureData t role fs 0).

Definition FeatureGetFunctionOperations (self : FeatureData) (t : nat) : option Operations :=
  '(_, f) ← FeatureGetFunction self t; operations f.

(** [FeatureLocalGetData] and [FeatureRemoteGetData]; NULL where there is no function. *)
Definition FeatureGetData (self : FeatureData) (t : nat) : Data :=
  match FeatureGetFunction self t with Some (_, f) => data f | None => Null end.

Definition FeatureDataCopy (self : FeatureData) (t : nat) : option Data :=
  match FeatureGetFunction self t with Some (_, f) => DataCopy f | None => Some Null end.

(** The update of one of the functions; [missing] where there is none. *)
Definition update_function (missing : EebusError) (self : FeatureData) (t : nat) (new_data : Data)
    (fp fd : option FilterType) (wr_remote persist : bool) : option (EebusError * FeatureData) :=
  match FeatureGetFunction self t with
  | None => Some (missing, self)
  | Some (i, f) =>
      '(err, f) ← UpdateData f new_data fp fd wr_remote persist; Some (err, set_function i f self)
  end.

(** ** Local features *)

Definition FeatureLocalSetFunctionOperations (self : FeatureData) (t : nat) (read write : bool) : FeatureData * Outs :=
  if negb (bool_decide (fd_role self = kRoleTypeServer)) && negb (bool_decide (fd_role self = kRoleTypeSpecial))
  then (self, [])
  else
    match FeatureGetFunction self t with
    | None => (self, [])
    | Some (i, f) =>
        (set_function i (SetOperations read false write true f) self,
         if bool_decide (fd_role self = kRoleTypeServer) && bool_decide (fd_type self = kFeatureTypeTypeDeviceDiagnosis)
            && bool_decide (t = kFunctionTypeDeviceDiagnosisHeartbeatData) then [HeartbeatFeatureSet] else [])
    end.

Definition FeatureLocalAddWriteApprovalCallback (self : FeatureData) : EebusError * FeatureData :=
  if negb (bool_decide (fd_role self = kRoleTypeServer)) then (kEebusErrorNoChange, self)
  else (kEebusErrorOk, mkFeatureData (fd_type self) (fd_role self) (functions self) (S (wr_approval_cbs self))).

Definition FunctionUpdateNotifySubscribers (f : Function) (new_data : Data) (fp fd : option FilterType) :
    option (EebusError * Outs) :=
  cmd ← CreateNotifyCmd f new_data fp fd;
  Some (match cmd with None => (kEebusErrorMemoryAllocate, []) | Some cmd => (kEebusErrorOk, [NotifySubscribers cmd]) end).

Definition FeatureLocalUpdateData (self : FeatureData) (t : nat) (new_data : Data) (fp fd : option FilterType) :
    option (EebusError * FeatureData * Outs) :=
  match FeatureGetFunction self t with
  | None => Some (kEebusErrorNoChange, self, [])
  | Some (i, f) =>
      '(err, f) ← UpdateData f new_data fp fd false true;
      let self := set_function i f self in
      if negb (is_ok err) then Some (err, self, [])
      else '(err, outs) ← FunctionUpdateNotifySubscribers f new_data fp fd; Some (err, self, outs)
  end.

Definition FeatureLocalSetData (self : FeatureData) (t : nat) (new_data : Data) : option (FeatureData * Outs) :=
  '(_, self, outs) ← FeatureLocalUpdateData self t new_data None None; Some (self, outs).

Definition FeatureLocalRequestRemoteData (self : FeatureData) (t : nat) (fp : option FilterType) :
    option (EebusError * Z * Outs) :=
  match FeatureGetFunction self t with
  | None => Some (kEebusErrorNoChange, 0%Z, [])
  | Some (_, f) =>
      cmd ← CreateReadCmd f fp;
      Some (match cmd with
            | None => (kEebusErrorMemoryAllocate, 0%Z, [])
            | Some cmd => let '(err, counter) := sent (SentRead cmd) in (err, counter, [SentRead cmd])
            end)
  end.

(** ** Remote features *)

Definition FeatureRemoteUpdateData (self : FeatureData) (t : nat) (new_data : Data) (fp fd : option FilterType)
    (persist : bool) : option (EebusError * FeatureData) :=
  update_function kEebusErrorInputArgument self t new_data fp fd false persist.

(** [ops]: read and write, each with its partial tag. *)
Definition SetRemoteOperations (self : FeatureData) (t : nat) (ops : option bool * option bool) : FeatureData :=
  match FeatureGetFunction self t with
  | None => self
  | Some (i, f) =>
      let present := λ o : option bool, match o with Some _ => true | None => false end in
      set_function i (SetOperations (present (fst ops)) (default false (fst ops)) (present (snd ops)) (default false (snd ops)) f) self
  end.

Fixpoint FeatureRemoteSetFunctionOperations (self : FeatureData)
    (supported_functions : list (option nat * option (option bool * option bool))) : FeatureData :=
  match supported_functions with
  | [] => self
  | (Some t, Some ops) :: l => FeatureRemoteSetFunctionOperations (SetRemoteOperations self t ops) l
  | _ :: l => FeatureRemoteSetFunctionOperations self l
  end.

(** [AddSupportedFunctions]: what discovery tells about the functions. *)
Definition AddSupportedFunctions (self : FeatureData) : list (nat * (option bool * option bool)) :=
  omap (λ f, ops ← operations f; Some (type f, OperationsGetInformation ops)) (functions self).

(** ** Requests to remote features

    [cb]: whether there is a callback for the answer. *)

Definition FeatureLocalWriteToRemote (dest_feature : FeatureData) (t : nat) (new_data : Data)
    (fp fd : option FilterType) (cb : bool) : option (EebusError * FeatureData * Outs) :=
  if null new_data then Some (kEebusErrorInputArgumentNull, dest_feature, [])
  else if negb has_sender then Some (kEebusErrorInit, dest_feature, [])
  else
    let finish dest cmd :=
      let out := SentWrite cmd cb in
      let '(err, counter) := sent out in
      Some (err, dest, out :: (if is_ok err && cb then [PendingResultAdded counter t] else [])) in
    if negb (from_option op_write_partial false (FeatureGetFunctionOperations dest_feature t)) then
      '(err, dest) ← FeatureRemoteUpdateData dest_feature t new_data None None false;
      if negb (is_ok err) then Some (err, dest, [])
      else finish dest (mkCmd None [] t (FeatureGetData dest t) None None)
    else
      let p := default (mkFilter None (Some ctrl_partial) t Null t Null) fp in
      finish dest_feature (mkCmd (Some t) (p :: option_list fd) t new_data None None).

Definition FeatureLocalReadFromRemote (self : FeatureData) (dest_feature : option FeatureData) (t : nat)
    (selectors elements : Data) (cb : bool) : option (EebusError * Outs) :=
  match dest_feature with
  | None => Some (kEebusErrorNoChange, [])
  | Some dest =>
      match FeatureGetFunctionOperations dest t with
      | None => Some (kEebusErrorNoChange, [])
      | Some ops =>
          if negb (op_read ops) then Some (kEebusErrorNoChange, [])
          else
            let fp := if null selectors || negb (op_read_partial ops) || negb (op_write_partial ops) then None
                      else Some (mkFilter None (Some ctrl_partial) t selectors t elements) in
            '(err, counter, outs) ← FeatureLocalRequestRemoteData self t fp;
            Some (err, outs ++ (if is_ok err && cb then [PendingReplyAdded counter t] else []))
      end
  end.

(** ** Messages *)

(** The error number of [ResultDataType], its first field. *)
Definition result_error_number (d : Data) : Data := match d with Struct (n :: _) => n | _ => Null end.

Definition msg_cnt_ref (msg : Message) : option Z := request_header msg ≫= hdr_msg_cnt_ref.

Definition FeatureLocalProcessResult (cmd : CmdType) (msg : Message) : EebusError * Outs :=
  if negb (data_choice_type_id cmd =? kFunctionTypeResultData) then (kEebusErrorInputArgument, [])
  else if null (data_choice cmd) || null (result_error_number (data_choice cmd)) then (kEebusErrorNotImplemented, [])
  else match msg_cnt_ref msg with
       | None => (kEebusErrorOk, [])
       | Some ref => (kEebusErrorOk, [ResultProcessed ref (data_choice cmd)])
       end.

Definition ProcessRead (self : FeatureData) (cmd : CmdType) (msg : Message) : option (EebusError * Outs) :=
  if bool_decide (fd_role self = kRoleTypeClient) then Some (kEebusErrorNoChange, [])
  else
    match FeatureGetFunction self (data_choice_type_id cmd) with
    | None => Some (kEebusErrorNoChange, [])
    | Some (_, f) =>
        reply ← CreateReplyCmd f;
        Some (match reply with
              | None => (kEebusErrorMemoryAllocate, [])
              | Some reply => let out := SentReply (request_header msg) reply in (fst (sent out), [out])
              end)
    end.

Definition ProcessNotify (fr : FeatureData) (cmd : CmdType) (msg : Message) : option (EebusError * FeatureData * Outs) :=
  '(err, fr) ← FeatureRemoteUpdateData fr (data_choice_type_id cmd) (data_choice cmd) (filter_partial msg) (filter_delete msg) true;
  Some (err, fr, if is_ok err then [DataUpdated (data_choice_type_id cmd) (data_choice cmd) kCommandClassifierTypeNotify] else []).

Definition ProcessReply (fr : FeatureData) (cmd : CmdType) (msg : Message) : option (EebusError * FeatureData * Outs) :=
  '(err, fr) ← FeatureRemoteUpdateData fr (data_choice_type_id cmd) (data_choice cmd) (filter_partial msg) (filter_delete msg) true;
  Some (err, fr,
        if is_ok err then
          DataUpdated (data_choice_type_id cmd) (data_choice cmd) kCommandClassifierTypeReply ::
          match msg_cnt_ref msg with
          | None => []
          | Some ref => [ReplyProcessed ref (data_choice_type_id cmd) (data_choice cmd)]
          end
        else []).

Definition ProcessWriteFunctionData (self : FeatureData) (cmd : CmdType) (msg : Message) :
    option (EebusError * FeatureData * Outs) :=
  match FeatureGetFunction self (data_choice_type_id cmd) with
  | None => Some (kEebusErrorNoChange, self, [])
  | Some (i, f) =>
      '(err, f) ← UpdateData f (data_choice cmd) (filter_partial msg) (filter_delete msg) true true;
      let self := set_function i f self in
      if negb (is_ok err) then Some (err, self, [])
      else
        (* the error of the notification is dropped *)
        '(_, outs) ← FunctionUpdateNotifySubscribers f (data_choice cmd) (filter_partial msg) (filter_delete msg);
        Some (kEebusErrorOk, self, outs ++ [DataUpdated (data_choice_type_id cmd) (data_choice cmd) kCommandClassifierTypeWrite])
  end.

Definition ProcessWriteInternal (self : FeatureData) (cmd : CmdType) (msg : Message) :
    option (EebusError * FeatureData * Outs) :=
  match request_header msg with
  | None => Some (kEebusErrorInvalid, self, [])
  | Some header =>
      '(err, self, outs) ← ProcessWriteFunctionData self cmd msg;
      Some (kEebusErrorOk, self,
            outs ++ (if negb (is_ok err) then [SentResultError header]
                     else if default false (hdr_ack_request header) then [SentResultSuccess header] else []))
  end.

Definition ProcessWrite (self : FeatureData) (cmd : CmdType) (msg : Message) : option (EebusError * FeatureData * Outs) :=
  if (0 <? wr_approval_cbs self)%nat then Some (kEebusErrorOk, self, [WriteHeld msg])
  else ProcessWriteInternal self cmd msg.

(** [HandleMessage]: the local feature and the remote one the message came from. *)
Definition HandleMessage (self fr : FeatureData) (msg : Message) :
    option (EebusError * (FeatureData * FeatureData) * Outs) :=
  match msg_cmd msg with
  | None => Some (kEebusErrorInputArgumentNull, (self, fr), [])
  | Some cmd =>
      if null (data_choice cmd) then Some (kEebusErrorInputArgumentNull, (self, fr), [])
      else
        match msg_cmd_classifier msg with
        | kCommandClassifierTypeResult => let '(err, outs) := FeatureLocalProcessResult cmd msg in Some (err, (self, fr), outs)
        | kCommandClassifierTypeRead => '(err, outs) ← ProcessRead self cmd msg; Some (err, (self, fr), outs)
        | kCommandClassifierTypeReply => '(err, fr, outs) ← ProcessReply fr cmd msg; Some (err, (self, fr), outs)
        | kCommandClassifierTypeNotify => '(err, fr, outs) ← ProcessNotify fr cmd msg; Some (err, (self, fr), outs)
        | kCommandClassifierTypeWrite => '(err, self, outs) ← ProcessWrite self cmd msg; Some (err, (self, fr), outs)
        | _ => Some (kEebusErrorNotImplemented, (self, fr), [])
        end
  end.
End features.
