(* ===== verification/FeatureReplica.v ===== *)
(** * Copies of features follow their originals

    The notifications of a local feature, handled by the device that subscribed to it, and the
    replies to its reads, keep the copies there equal to the data here; and what becomes of
    writes the other way round. *)

From S2P Require Import Prelude Duration DateTime EebusData EebusDataWrite EebusDataFacts EebusDataMerge Timer Vector Pool Spine Sender SpineFunction SpineReplica Datagram FeatureData.

Local Open Scope list_scope.

Section feature_replica.
Context `{Allocator} {M : SpineModel} {E : SpineEnv} (Hmodel : model_ok).

(** ** Finding and changing functions *)

(** What a message makes the copy of: the types and the data of the functions. *)
Definition contents (self : FeatureData) : list (nat * Data) := (λ f, (type f, data f)) <$> functions self.

Lemma FeatureGetFunction_Some self t i f : FeatureGetFunction self t = Some (i, f) →
  functions self !! i = Some f ∧ type f = t ∧ ∀ j f', functions self !! j = Some f' → j < i → type f' ≠ t.
Proof. unfold FeatureGetFunction. intros (? & ? & ?)%list_find_Some. split_and!; try done; eauto. Qed.

Lemma contents_lookup self i f : functions self !! i = Some f → contents self !! i = Some (type f, data f).
Proof. intros Hf. unfold contents. by rewrite list_lookup_fmap, Hf. Qed.

Lemma same_function self fr t i f : contents self = contents fr → FeatureGetFunction self t = Some (i, f) →
  ∃ g, FeatureGetFunction fr t = Some (i, g) ∧ type g = type f ∧ data g = data f.
Proof.
  intros Hc (Hf & Ht & Hmin)%FeatureGetFunction_Some. pose proof (contents_lookup self i f Hf) as Hi.
  rewrite Hc in Hi. unfold contents in Hi. rewrite list_lookup_fmap in Hi.
  apply fmap_Some in Hi as (g & Hg & [= Htg Hdg]). exists g. split; [|done].
  unfold FeatureGetFunction. apply list_find_Some. split_and!; [done|congruence|].
  intros j g' Hj Hlt Hty. assert (contents fr !! j = Some (type g', data g')) as Hcj by by apply contents_lookup.
  rewrite <- Hc in Hcj. unfold contents in Hcj. rewrite list_lookup_fmap in Hcj. apply fmap_Some in Hcj as (f' & Hf' & [= Hty' _]).
  by apply (Hmin j f'); [done|done|congruence].
Qed.

Lemma contents_set self i f : contents (set_function i f self) = <[i := (type f, data f)]> (contents self).
Proof. unfold contents, set_function. simpl. by rewrite list_fmap_insert. Qed.

Lemma FeatureGetData_set self t i f f' : FeatureGetFunction self t = Some (i, f) → type f' = t →
  FeatureGetData (set_function i f' self) t = data f'.
Proof.
  intros (Hf & Ht & Hmin)%FeatureGetFunction_Some Ht'. unfold FeatureGetData.
  assert (FeatureGetFunction (set_function i f' self) t = Some (i, f')) as ->; [|done].
  unfold FeatureGetFunction, set_function. simpl. apply list_find_Some. split_and!; [|done|].
  - apply list_lookup_insert_eq. by eapply lookup_lt_Some.
  - intros j g Hj Hlt. rewrite list_lookup_insert_ne in Hj by lia. by eapply Hmin.
Qed.

(** ** A run of updates and the messages it sends *)

Record Update := mkUpdate { up_type : nat; up_data : Data; up_partial : option FilterType; up_delete : option FilterType }.

(** The data is not NULL, and it, the selectors and the elements are of the type of the function. *)
Definition update_ok (u : Update) : Prop :=
  null (up_data u) = false ∧ data_of data_choice_data_cfg (up_type u) (up_data u) ∧
  from_option (filter_of (up_type u)) True (up_partial u) ∧ from_option (filter_of (up_type u)) True (up_delete u).

(** As long as the updates are accepted. *)
Fixpoint update_all (self : FeatureData) (us : list Update) : option (FeatureData * list FeatureOut) :=
  match us with
  | [] => Some (self, [])
  | u :: us =>
      '(err, self, outs) ← FeatureLocalUpdateData self (up_type u) (up_data u) (up_partial u) (up_delete u);
      if negb (is_ok err) then None
      else '(self, outs') ← update_all self us; Some (self, outs ++ outs')
  end.

(** What [ProcessCmd] makes of a command. *)
Definition received (header : option HeaderType) (classifier : CommandClassifierType) (cmd : CmdType) : Message :=
  mkMessage header classifier (Some cmd) (CmdGetFilterPartial cmd) (CmdGetFilterDelete cmd).

(** The other device gets the notifications, for its local feature, one after the other. *)
Fixpoint notify_all (local fr : FeatureData) (outs : list FeatureOut) : option FeatureData :=
  match outs with
  | [] => Some fr
  | NotifySubscribers cmd :: outs =>
      '(err, (_, fr), _) ← HandleMessage local fr (received None kCommandClassifierTypeNotify cmd);
      if negb (is_ok err) then None else notify_all local fr outs
  | _ :: outs => notify_all local fr outs
  end.

Lemma update_followed self local fr u self' outs : update_ok u → contents self = contents fr →
  FeatureLocalUpdateData self (up_type u) (up_data u) (up_partial u) (up_delete u) = Some (kEebusErrorOk, self', outs) →
  ∃ cmd fr' outs', outs = [NotifySubscribers cmd] ∧
    HandleMessage local fr (received None kCommandClassifierTypeNotify cmd) = Some (kEebusErrorOk, (local, fr'), outs') ∧
    contents self' = contents fr'.
Proof.
  intros (Hnn & Hd & Hp & Hdel) Hc. unfold FeatureLocalUpdateData.
  destruct (FeatureGetFunction self (up_type u)) as [[i f]|] eqn:Hf; [|done].
  destruct (same_function self fr _ i f Hc Hf) as (g & Hg & Htg & Hdg).
  pose proof (FeatureGetFunction_Some _ _ _ _ Hf) as (_ & Htf & _).
  destruct (UpdateData f _ _ _ _ _) as [[err f']|] eqn:Hup; [|done]. cbn [mbind option_bind].
  destruct (is_ok err) eqn:Herr; [|by intros [= -> _ _]]. apply is_ok_true in Herr as ->. cbn [negb].
  destruct (notify_replicates f g (up_data u) (up_partial u) (up_delete u) kEebusErrorOk f') as
    (cmd & g' & Hcmd & Htcmd & Hdc & Hup' & Htg' & Hdg'); try done; try (by rewrite Htf).
  unfold FunctionUpdateNotifySubscribers. rewrite Hcmd. cbn [mbind option_bind]. intros [= <- <-].
  eexists cmd, (set_function i g' fr), _. split; [done|].
  split.
  - unfold HandleMessage, received. cbn [msg_cmd msg_cmd_classifier]. rewrite Hdc, Hnn.
    unfold ProcessNotify, FeatureRemoteUpdateData, update_function. cbn [filter_partial filter_delete].
    rewrite Htcmd, Htf, Hg. rewrite Hup'. done.
  - rewrite !contents_set, Hc. by rewrite Htg', Hdg'.
Qed.

(** C6: a device that subscribed to a feature keeps its copies equal to the original: any updates that
    carry data and that the local feature accepts, full, partial, and deleting before they write, send
    notifications that the other device accepts and after which all functions of the copy have the data of
    the original.  An update that only deletes, without data, is not followed ([delete_is_not_followed]). *)
Theorem subscribers_keep_up (self local fr self' : FeatureData) (us : list Update) (outs : list FeatureOut) :
  contents self = contents fr → Forall update_ok us → update_all self us = Some (self', outs) →
  ∃ fr', notify_all local fr outs = Some fr' ∧ contents self' = contents fr'.
Proof.
  intros Hc Hus. revert self fr self' outs Hc. induction Hus as [|u us Hu _ IH]; intros self fr self' outs Hc; simpl.
  { intros [= <- <-]. by exists fr. }
  destruct (FeatureLocalUpdateData self _ _ _ _) as [[[err self1] outs1]|] eqn:Hup; [|done]. cbn [mbind option_bind].
  destruct (is_ok err) eqn:Herr; [|done]. apply is_ok_true in Herr as ->. cbn [negb].
  destruct (update_all self1 us) as [[self2 outs2]|] eqn:Hall; [|done]. intros [= -> <-].
  destruct (update_followed self local fr u self1 outs1 Hu Hc Hup) as (cmd & fr' & outs' & -> & Hh & Hc').
  cbn [app notify_all]. rewrite Hh. cbn [mbind option_bind]. change (is_ok kEebusErrorOk) with true. cbn [negb].
  by apply (IH self1).
Qed.

(** C7: the reply to a read of a function makes the copy of the reader equal to its data. *)
Theorem reader_gets_the_data (self local fr : FeatureData) (t i j : nat) (f g : Function) (header : option HeaderType)
    (read : CmdType) :
  fd_role self ≠ kRoleTypeClient → data_choice_type_id read = t → null (data_choice read) = false →
  FeatureGetFunction self t = Some (i, f) → FeatureGetFunction fr t = Some (j, g) →
  data_of data_choice_data_cfg t (data f) → null (data f) = false →
  ∃ reply fr' outs,
    HandleMessage self local (received header kCommandClassifierTypeRead read) =
      Some (fst (sent (SentReply header reply)), (self, local), [SentReply header reply]) ∧
    HandleMessage local fr (received header kCommandClassifierTypeReply reply) = Some (kEebusErrorOk, (local, fr'), outs) ∧
    FeatureGetData fr' t = FeatureGetData self t.
Proof.
  intros Hrole Ht Hnn Hf Hg Hd Hn.
  pose proof (FeatureGetFunction_Some _ _ _ _ Hf) as (_ & Htf & _). pose proof (FeatureGetFunction_Some _ _ _ _ Hg) as (_ & Htg & _).
  destruct (reply_replicates f g) as (reply & g' & Hr & Htr & Hdr & Hp & Hdl & Hup & Htg' & Hdg'); try done; [by rewrite Htf|congruence|].
  eexists reply, (set_function j g' fr), _. split_and!.
  - unfold HandleMessage, received. cbn [msg_cmd msg_cmd_classifier]. rewrite Hnn. unfold ProcessRead.
    rewrite bool_decide_false by done. rewrite Ht, Hf, Hr. done.
  - unfold HandleMessage, received. cbn [msg_cmd msg_cmd_classifier]. rewrite Hdr, Hn.
    unfold ProcessReply, FeatureRemoteUpdateData, update_function. cbn [filter_partial filter_delete].
    rewrite Htr, Htf, Hg, Hp, Hdl, Hup. done.
  - rewrite (FeatureGetData_set fr t j g g') by (done || congruence). rewrite Hdg'. unfold FeatureGetData. by rewrite Hf.
Qed.

(** A write to a function of another device that does not take partial writes sends the data that
    device is known to have: the data to be written is dropped. *)
Theorem write_sends_old_data (dest : FeatureData) (t i : nat) (g : Function) (new_data : Data)
    (fp fd : option FilterType) (cb : bool) :
  has_sender = true → null new_data = false →
  FeatureGetFunction dest t = Some (i, g) → is_Some (ModelGetDataCfg t) →
  from_option op_write_partial false (operations g) = false →
  ∃ err outs, FeatureLocalWriteToRemote dest t new_data fp fd cb =
    Some (err, dest, SentWrite (mkCmd None [] t (data g) None None) cb :: outs).
Proof.
  intros Hs Hn Hg [cfg Hcfg] Hops. pose proof (FeatureGetFunction_Some _ _ _ _ Hg) as (Hi & Htg & _).
  unfold FeatureLocalWriteToRemote, FeatureGetFunctionOperations. rewrite Hn, Hs, Hg. cbn [negb mbind option_bind]. rewrite Hops.
  unfold FeatureRemoteUpdateData, update_function. rewrite Hg. unfold UpdateData. rewrite Htg, Hcfg. cbn [mbind option_bind].
  change (is_ok kEebusErrorOk) with true. cbn [negb].
  assert (set_function i g dest = dest) as ->.
  { destruct dest. unfold set_function, with_functions. simpl in *. by rewrite list_insert_id. }
  unfold FeatureGetData. rewrite Hg. destruct (sent _) as [err counter]. eauto.
Qed.
End feature_replica.

(** ** Load control between two devices

    The limits of a device and their copy on another that subscribed to them: the data of the
    witnesses of [FeatureReplica], and two messages that go too far. *)

From S2P Require Import EebusDataTable SpineTables EebusDataList EebusDataDemo SpineTablesFacts.

Section feature_demo.
#[local] Existing Instance malloc_zero_is_not_null.
#[local] Instance all_is_sent : SpineEnv := { sent := λ _, (kEebusErrorOk, 1%Z); has_sender := true }.

Definition limits : nat := 46.
Definition limits_of (d : Data) (ops : option Operations) : FeatureData :=
  mkFeatureData 14 kRoleTypeServer [mkFunction limits d ops] 0.
Definition here : FeatureData := limits_of (Struct [Array two_limits]) None.
Definition client : FeatureData := mkFeatureData 14 kRoleTypeClient [] 0.

Definition FILTER_PARTIAL (selectors : Data) : FilterType := mkFilter None (Some ctrl_partial) limits selectors limits Null.
Definition FILTER_DELETE (selectors : Data) : FilterType := mkFilter None (Some ctrl_delete) limits selectors limits Null.

(** Change one limit and add one; delete the first and change another in one message; replace all. *)
Definition some_updates : list Update :=
  [ mkUpdate limits (Struct [Array activate_and_add]) (Some (FILTER_PARTIAL Null)) None;
    mkUpdate limits (Struct [Array [limit 3 (Some true) None]]) (Some (FILTER_PARTIAL Null)) (Some (FILTER_DELETE (Struct [num 1])));
    mkUpdate limits (Struct [Array [limit 7 None (Some 1000%Z)]]) None None ].

Lemma updates_ok : Forall update_ok some_updates.
Proof.
  assert (∀ id d, is_u32 id = true → ∀ f, f = mkFilter id (cmd_ctrl f) limits d limits Null →
    data_of SpineTables.data_selectors_choice_data_cfg limits d → filter_of limits f) as Hf.
  { intros id d Hid f -> Hd. constructor; [done|done|]. eexists. split; [reflexivity|]. by vm_compute. }
  repeat constructor; try (eexists; split; [reflexivity|]; by vm_compute); simpl;
    eapply Hf; try reflexivity; eexists; (split; [reflexivity|]); by vm_compute.
Qed.

(** The data of the first update at both ends. *)
Example first_update :
  (λ '(f, outs), (contents f, notify_all client here outs)) <$> update_all here (take 1 some_updates) =
    Some ([(limits, Struct [Array [limit 1 (Some false) (Some 4200%Z); limit 2 (Some true) (Some 6000%Z);
                                   limit 3 (Some false) (Some 100%Z)]])],
          Some (limits_of (Struct [Array [limit 1 (Some false) (Some 4200%Z); limit 2 (Some true) (Some 6000%Z);
                                   limit 3 (Some false) (Some 100%Z)]]) None)).
Proof. by vm_compute. Qed.

Lemma subscribers_keep_up_witness :
  ∃ self' outs fr', update_all here some_updates = Some (self', outs) ∧ length outs = 3 ∧
    notify_all client here outs = Some fr' ∧ contents self' = contents fr'.
Proof.
  destruct (update_all here some_updates) as [[self' outs]|] eqn:Hrun.
  - exists self', outs. assert (length outs = 3) as Hlen.
    { vm_compute in Hrun. injection Hrun as _ <-. reflexivity. }
    destruct (subscribers_keep_up spine_model_ok here client here self' some_updates outs eq_refl updates_ok Hrun) as (fr' & ? & ?).
    exists fr'. done.
  - vm_compute in Hrun. discriminate Hrun.
Defined.

Definition read_cmd : CmdType := mkCmd None [] limits (Struct [Null]) None None.

Lemma reader_gets_the_data_witness :
  ∃ reply fr' outs,
    HandleMessage here client (received None kCommandClassifierTypeRead read_cmd) =
      Some (fst (sent (SentReply None reply)), (here, client), [SentReply None reply]) ∧
    HandleMessage client (limits_of Null None) (received None kCommandClassifierTypeReply reply) =
      Some (kEebusErrorOk, (client, fr'), outs) ∧
    FeatureGetData fr' limits = FeatureGetData here limits.
Proof.
  apply (reader_gets_the_data spine_model_ok here client (limits_of Null None) limits 0 0
           (mkFunction limits (Struct [Array two_limits]) None) (mkFunction limits Null None) None read_cmd); try done.
  eexists. split; [reflexivity|]. by vm_compute.
Defined.

Lemma write_sends_old_data_witness :
  ∃ err outs, FeatureLocalWriteToRemote here limits (Struct [Array activate_and_add]) None None false =
    Some (err, here, SentWrite (mkCmd None [] limits (Struct [Array two_limits]) None None) false :: outs).
Proof.
  apply (write_sends_old_data here limits 0 (mkFunction limits (Struct [Array two_limits]) None)); try done.
Defined.

(** *** What goes too far

    The operations of a function are not asked for: a peer that is bound to the feature
    writes a function that is announced as readable only. *)
Definition read_only : FeatureData := fst (FeatureLocalSetFunctionOperations here limits true false).

Example read_only_is_written :
  ∃ outs, HandleMessage read_only client
      (received (Some (mkHdr None None None None None None None None None)) kCommandClassifierTypeWrite
         (mkCmd None [] limits (Struct [Array [limit 9 None None]]) None None)) =
    Some (kEebusErrorOk, (set_function 0 (mkFunction limits (Struct [Array [limit 9 None None]]) (Some (mkOperations true false false true))) read_only, client), outs).
Proof. eexists. by vm_compute. Qed.

(** An update that only deletes, without data, is accepted here and refused by every subscriber. *)
Example delete_is_not_followed :
  ∃ self' cmd,
    FeatureLocalUpdateData here limits Null None (Some (FILTER_DELETE (Struct [num 1]))) =
      Some (kEebusErrorOk, self', [NotifySubscribers cmd]) ∧
    contents self' = [(limits, Struct [Array [limit 2 (Some false) (Some 6000%Z)]])] ∧
    HandleMessage client here (received None kCommandClassifierTypeNotify cmd) =
      Some (kEebusErrorInputArgumentNull, (client, here), []).
Proof. eexists _, _. split; [by vm_compute|]. split; by vm_compute. Qed.
End feature_demo.
