(* ===== verification/UseCase.v ===== *)
(** * Use cases ([spine/model/usecase_information_types.c], [node_management_types.c], [node_management_remote.c], [entity_local.c])

    A device announces, for each entity and actor, the use cases it supports: the data of a function of
    its node management.  Its entities add and remove them; a device that gets the data of another
    publishes what has changed.

    [None] is undefined behaviour: a pointer that is NULL is dereferenced, or memory is read that was
    not written. *)

From S2P Require Import Prelude FeatureFunctions Duration DateTime EebusData EebusDataWrite EebusDataList SpineTables SpineFunction Timer Vector Pool Spine LinkManager Sender Datagram FeatureData SpineTablesFacts.

Local Open Scope list_scope.

(** ** Structures

    An array of pointers is NULL, or has items that may be NULL. *)

Abbreviation ArrayOf A := (option (list (option A))).

Record UseCaseSupportType := mkUseCaseSupport {
  use_case_name : option Z;
  use_case_version : option string;
  use_case_available : option bool;
  scenario_support : ArrayOf Z;
  use_case_document_sub_revision : option string;
}.

Record UseCaseInformationDataType := mkUseCaseInformation {
  uc_address : option FeatureAddressType;
  uc_actor : option Z;
  use_case_support : ArrayOf UseCaseSupportType;
}.

Record UseCaseFilterType := mkUseCaseFilter { uf_actor : Z; uf_use_case_name_id : Z }.

(** The one field of [NodeManagementUseCaseDataType], which is read as [UseCaseInformationListDataType] too. *)
Abbreviation NodeManagementUseCaseDataType := (ArrayOf UseCaseInformationDataType).


(** *** As data *)

Definition array_data {A} (f : A → Data) (l : list (option A)) : Data := Array (opt f <$> l).
Definition data_array {A} (f : Data → option A) (d : Data) : option (list (option A)) :=
  match d with Array l => mapM (read_opt f) l | _ => None end.

Definition support_data (s : UseCaseSupportType) : Data :=
  Struct [ opt num_data (use_case_name s); opt str_data (use_case_version s); opt flag_data (use_case_available s);
           opt (array_data num_data) (scenario_support s); opt str_data (use_case_document_sub_revision s) ].
Definition data_support (d : Data) : option UseCaseSupportType :=
  match d with
  | Struct [n; v; a; s; r] =>
      n ← read_opt data_num n; v ← read_opt data_str v; a ← read_opt data_flag a;
      s ← read_opt (data_array data_num) s; r ← read_opt data_str r; Some (mkUseCaseSupport n v a s r)
  | _ => None
  end.

Definition information_data (i : UseCaseInformationDataType) : Data :=
  Struct [opt address_data (uc_address i); opt num_data (uc_actor i); opt (array_data support_data) (use_case_support i)].
Definition data_information (d : Data) : option UseCaseInformationDataType :=
  match d with
  | Struct [a; c; s] =>
      a ← read_opt data_address a; c ← read_opt data_num c; s ← read_opt (data_array data_support) s;
      Some (mkUseCaseInformation a c s)
  | _ => None
  end.

Definition use_cases_data (l : NodeManagementUseCaseDataType) : Data := Struct [opt (array_data information_data) l].
Definition data_use_cases (d : Data) : option NodeManagementUseCaseDataType :=
  match d with Struct [l] => read_opt (data_array data_information) l | _ => None end.

Lemma data_array_data {A} (f : A → Data) g l :
  (∀ a, g (f a) = Some a) → (∀ a, f a ≠ Null) → data_array g (array_data f l) = Some l.
Proof. intros Hg Hn. apply read_items. intros x. by apply read_opt_opt. Qed.

Lemma data_support_data s : data_support (support_data s) = Some s.
Proof.
  destruct s as [n v a l r]. unfold support_data, data_support.
  cbn [use_case_name use_case_version use_case_available scenario_support use_case_document_sub_revision].
  rewrite !read_opt_opt; try done; [by intros []|]. intros x. by apply data_array_data.
Qed.

Lemma data_information_data i : data_information (information_data i) = Some i.
Proof.
  destruct i as [a c l]. unfold information_data, data_information. cbn [uc_address uc_actor use_case_support].
  rewrite (read_opt_opt address_data), (read_opt_opt num_data), (read_opt_opt (array_data support_data));
    done || (intros; apply data_array_data || apply data_address_data; by intros; try apply data_support_data).
Qed.

Lemma data_use_cases_data l : data_use_cases (use_cases_data l) = Some l.
Proof. apply read_opt_opt; [|done]. intros x. by apply data_array_data; [apply data_information_data|]. Qed.

(** ** Matching *)

Definition ActorMatch (use_case_info : UseCaseInformationDataType) (actor : option Z) : bool :=
  match actor with None => true | Some a => bool_decide (uc_actor use_case_info = Some a) end.

(** The first support of the name, and its index. *)
Fixpoint find_support (l : list (option UseCaseSupportType)) (name : Z) : option (option (nat * UseCaseSupportType)) :=
  match l with
  | [] => Some None
  | s :: l =>
      s ← s;
      if bool_decide (use_case_name s = Some name) then Some (Some (0, s))
      else r ← find_support l name; Some (match r with Some (i, s) => Some (S i, s) | None => None end)
  end.

Definition UseCaseInformationFind (use_case_info : UseCaseInformationDataType) (use_case_name_id : option Z) :
    option (option (nat * UseCaseSupportType)) :=
  match use_case_name_id with
  | None => Some None
  | Some n => find_support (default [] (use_case_support use_case_info)) n
  end.

Definition UseCaseNameIdMatch (use_case_info : UseCaseInformationDataType) (use_case_name_id : option Z) : option bool :=
  match use_case_name_id with
  | None => Some true
  | Some _ => r ← UseCaseInformationFind use_case_info use_case_name_id; Some (bool_decide (r ≠ None))
  end.

Definition without_feature (a : FeatureAddressType) : FeatureAddressType := mkFeatureAddress (fa_device a) (fa_entity a) None.

(** Without an entity on either side, the device of the information only has to be the start of the other. *)
Definition UseCaseInformationMatch (use_case_info : option UseCaseInformationDataType) (addr : FeatureAddressType)
    (actor use_case_name_id : option Z) : option bool :=
  use_case_info ← use_case_info;
  a ← uc_address use_case_info;
  m ← (if bool_decide (fa_entity a = None) || bool_decide (fa_entity addr = None)
       then da ← fa_device a; db ← fa_device addr; Some (String.prefix da db)
       else Some (FeatureAddressCompare (Some (without_feature a)) (Some (without_feature addr))));
  if negb (m && ActorMatch use_case_info actor) then Some false
  else UseCaseNameIdMatch use_case_info use_case_name_id.

Fixpoint find_information (l : list (option UseCaseInformationDataType)) (addr : FeatureAddressType)
    (actor use_case_name_id : option Z) : option (option (nat * UseCaseInformationDataType)) :=
  match l with
  | [] => Some None
  | info :: l =>
      m ← UseCaseInformationMatch info addr actor use_case_name_id;
      if m : bool then info ← info; Some (Some (0, info))
      else
        r ← find_information l addr actor use_case_name_id;
        Some (match r with Some (i, info) => Some (S i, info) | None => None end)
  end.

Section operations.
Context `{Allocator}.

(** ** Operations on the data of the function *)

(** [ModelDataCopy] of what [enc] makes of [x]; inside, [None] is NULL. *)
Definition ModelDataCopy {A} (cfg : EebusDataCfg) (enc : A → Data) (dec : Data → option A) (x : A) : option (option A) :=
  '(err, d) ← copy cfg (enc x) Null; if is_ok err then Some <$> dec d else Some None.

Definition append {A} (l : ArrayOf A) (el : option A) : option (EebusError * ArrayOf A) :=
  let buf := default [] l in
  '(err, (buf, _)) ← EebusDataListDataAppend buf (Z.of_nat (length buf)) (Some <$> el);
  Some (err, if is_ok err then Some buf else l).

Definition NodeManagementUseCaseDataFindInfo (use_case_data : NodeManagementUseCaseDataType) (addr : FeatureAddressType)
    (actor use_case_name_id : option Z) : option (option (nat * UseCaseInformationDataType)) :=
  find_information (default [] use_case_data) addr actor use_case_name_id.

Definition UseCaseInformationAdd (use_case_info : UseCaseInformationDataType) (support : UseCaseSupportType) :
    option (EebusError * UseCaseInformationDataType) :=
  copied ← ModelDataCopy use_case_support_element_data_cfg support_data data_support support;
  '(err, l) ← append (use_case_support use_case_info) copied;
  Some (err, mkUseCaseInformation (uc_address use_case_info) (uc_actor use_case_info) l).

Definition UseCaseInformationDataCreate (addr : FeatureAddressType) (actor : Z) (support : UseCaseSupportType) :
    option (option UseCaseInformationDataType) :=
  ModelDataCopy use_case_information_data_element_data_cfg information_data data_information
    (mkUseCaseInformation (Some (without_feature addr)) (Some actor) (Some [Some support])).

(** [malloc] of [n] pointers *)
Definition allocates (n : nat) : bool := malloc_zero || negb (n =? 0)%nat.

Definition set_item {A} (i : nat) (x : A) (l : ArrayOf A) : ArrayOf A := (λ l, <[i := Some x]> l) <$> l.

Definition NodeManagementUseCaseDataAddUseCaseSupport (use_case_data : NodeManagementUseCaseDataType)
    (addr : FeatureAddressType) (actor use_case_name_id : Z) (version sub_revision : option string) (available : bool)
    (scenarios : list Z) : option (EebusError * NodeManagementUseCaseDataType) :=
  if negb (allocates (length scenarios)) then Some (kEebusErrorMemoryAllocate, use_case_data)
  else
    let support := mkUseCaseSupport (Some use_case_name_id) version (Some available) (Some (Some <$> scenarios)) sub_revision in
    r ← NodeManagementUseCaseDataFindInfo use_case_data addr (Some actor) None;
    match r with
    | Some (i, info) =>
        '(err, info) ← UseCaseInformationAdd info support; Some (err, set_item i info use_case_data)
    | None => info ← UseCaseInformationDataCreate addr actor support; append use_case_data info
    end.

Definition NodeManagementUseCaseDataHasUseCaseSupport (use_case_data : NodeManagementUseCaseDataType)
    (addr : FeatureAddressType) (actor use_case_name_id : Z) : option bool :=
  r ← NodeManagementUseCaseDataFindInfo use_case_data addr (Some actor) (Some use_case_name_id);
  Some (bool_decide (r ≠ None)).

Definition with_available (available : bool) (s : UseCaseSupportType) : UseCaseSupportType :=
  mkUseCaseSupport (use_case_name s) (use_case_version s) (Some available) (scenario_support s)
    (use_case_document_sub_revision s).

Definition NodeManagementUseCaseDataSetAvailability (use_case_data : NodeManagementUseCaseDataType)
    (addr : FeatureAddressType) (actor use_case_name_id : Z) (available : bool) : option NodeManagementUseCaseDataType :=
  r ← NodeManagementUseCaseDataFindInfo use_case_data addr (Some actor) (Some use_case_name_id);
  match r with
  | None => Some use_case_data
  | Some (i, info) =>
      s ← UseCaseInformationFind info (Some use_case_name_id);
      Some (match s with
            | None => use_case_data
            | Some (j, s) =>
                set_item i (mkUseCaseInformation (uc_address info) (uc_actor info)
                              (set_item j (with_available available s) (use_case_support info))) use_case_data
            end)
  end.

(** The items [keep] keeps; [None] where it is undefined. *)
Fixpoint kept_items {A} (keep : A → option bool) (l : list A) : option (list A) :=
  match l with
  | [] => Some []
  | x :: l => k ← keep x; kept ← kept_items keep l; Some (if k : bool then x :: kept else kept)
  end.

Definition NodeManagementUseCaseDataRemoveWithAddress (use_case_data : NodeManagementUseCaseDataType)
    (addr : FeatureAddressType) : option NodeManagementUseCaseDataType :=
  let l := default [] use_case_data in
  kept ← kept_items (λ info, info ← info; Some (negb (FeatureAddressCompare (uc_address info) (Some addr)))) l;
  Some (if bool_decide (length kept = length l) then use_case_data
        else if allocates (length kept) then Some kept else use_case_data).

Fixpoint UseCaseInformationMatchAnyFilter (use_case_info : option UseCaseInformationDataType) (addr : FeatureAddressType)
    (use_case_filters : list UseCaseFilterType) : option bool :=
  match use_case_filters with
  | [] => Some false
  | f :: fs =>
      m ← UseCaseInformationMatch use_case_info addr (Some (uf_actor f)) (Some (uf_use_case_name_id f));
      if m : bool then Some true else UseCaseInformationMatchAnyFilter use_case_info addr fs
  end.

(** The array has a place for each filter and each of the items to be kept; the items take the first of
    the places, the others are not written, and the size is that of the array. *)
Definition NodeManagementUseCaseDataRemoveWithFilters (use_case_data : NodeManagementUseCaseDataType)
    (addr : FeatureAddressType) (use_case_filters : list UseCaseFilterType) : option NodeManagementUseCaseDataType :=
  let l := default [] use_case_data in
  kept ← kept_items (λ info, m ← UseCaseInformationMatchAnyFilter info addr use_case_filters; Some (negb m)) l;
  let n := length kept * length use_case_filters in
  if bool_decide (n = length l) then Some use_case_data
  else if negb (allocates n) then Some use_case_data
  else if bool_decide (n = length kept) then Some (Some kept) else None.
End operations.

(** ** The use cases of local entities ([entity_local.c])

    [nm] is the node management of the device, [self] the address of the entity. *)

Section entities.
Context `{Allocator} {E : SpineEnv}.

Abbreviation Outs := (list FeatureOut).

Definition entity_feature_address (self : EntityAddressType) : FeatureAddressType :=
  mkFeatureAddress (ea_device self) (ea_entity self) None.

(** A copy of the data, NULL where there is none. *)
Definition use_case_data_copy (nm : FeatureData) : option (option NodeManagementUseCaseDataType) :=
  d ← FeatureDataCopy nm kFunctionTypeNodeManagementUseCaseData; read_opt data_use_cases d.

Definition set_use_case_data (nm : FeatureData) (use_case_data : NodeManagementUseCaseDataType) : option (FeatureData * Outs) :=
  FeatureLocalSetData nm kFunctionTypeNodeManagementUseCaseData (use_cases_data use_case_data).

(** Whether the support was added or not, the data is set. *)
Definition AddUseCaseSupport (self : EntityAddressType) (nm : FeatureData) (actor use_case_name_id : Z)
    (version sub_revision : option string) (available : bool) (scenarios : list Z) : option (FeatureData * Outs) :=
  use_case_data ← use_case_data_copy nm;
  '(_, use_case_data) ← NodeManagementUseCaseDataAddUseCaseSupport (default None use_case_data)
     (entity_feature_address self) actor use_case_name_id version sub_revision available scenarios;
  set_use_case_data nm use_case_data.

Definition HasUseCaseSupport (self : EntityAddressType) (nm : FeatureData) (use_case_filter : UseCaseFilterType) : option bool :=
  use_case_data ← read_opt data_use_cases (FeatureGetData nm kFunctionTypeNodeManagementUseCaseData);
  match use_case_data with
  | None => Some false
  | Some use_case_data =>
      NodeManagementUseCaseDataHasUseCaseSupport use_case_data (entity_feature_address self)
        (uf_actor use_case_filter) (uf_use_case_name_id use_case_filter)
  end.

(** The data, if there is any, is changed and set. *)
Definition change_use_cases (nm : FeatureData)
    (change : NodeManagementUseCaseDataType → option NodeManagementUseCaseDataType) : option (FeatureData * Outs) :=
  use_case_data ← use_case_data_copy nm;
  match use_case_data with
  | None => Some (nm, [])
  | Some use_case_data => use_case_data ← change use_case_data; set_use_case_data nm use_case_data
  end.

Definition SetUseCaseAvailability (self : EntityAddressType) (nm : FeatureData) (use_case_filter : UseCaseFilterType)
    (available : bool) : option (FeatureData * Outs) :=
  change_use_cases nm (λ l, NodeManagementUseCaseDataSetAvailability l (entity_feature_address self)
    (uf_actor use_case_filter) (uf_use_case_name_id use_case_filter) available).

Definition RemoveUseCaseSupports (self : EntityAddressType) (nm : FeatureData) (use_case_filters : list UseCaseFilterType) :
    option (FeatureData * Outs) :=
  match use_case_filters with
  | [] => Some (nm, [])
  | _ => change_use_cases nm (λ l, NodeManagementUseCaseDataRemoveWithFilters l (entity_feature_address self) use_case_filters)
  end.

Definition RemoveAllUseCaseSupports (self : EntityAddressType) (nm : FeatureData) : option (FeatureData * Outs) :=
  change_use_cases nm (λ l, NodeManagementUseCaseDataRemoveWithAddress l (entity_feature_address self)).
End entities.

(** ** The use cases of another device ([node_management_remote.c], [node_management_usecase.c]) *)

Inductive ElementChangeType := kElementChangeAdd | kElementChangeRemove.
#[export] Instance ElementChangeType_eq_dec : EqDecision ElementChangeType.
Proof. solve_decision. Defined.

(** [use_case_data_prev] is NULL, or what was seen last. *)
Record NodeManagementRemote := mkNodeManagementRemote { nmr_feature : FeatureData; use_case_data_prev : Data }.

Inductive UseCaseOut :=
| DeviceUpdated (new_data : Data)
| UseCaseChanged (change_type : ElementChangeType) (entity : option Entity) (actor use_case_name_id : Z)
| UseCaseDataReceived (new_data : Data)
| UseCaseReplyProcessed (msg_cnt_ref : Z) (new_data : Data)
| FeatureOutput (out : FeatureOut).             (** as of any feature *)

Section remote.
Context `{Allocator} {E : SpineEnv} (dr : DeviceRemote).

Definition UseCaseInformationListFind (use_case_list : option NodeManagementUseCaseDataType) (addr : FeatureAddressType)
    (actor use_case_name_id : Z) : option (option (nat * UseCaseInformationDataType)) :=
  match use_case_list with
  | None => Some None
  | Some l => find_information (default [] l) addr (Some actor) (Some use_case_name_id)
  end.

(** Without an entity in the address, once for every entity of the device. *)
Definition PublishUseCaseSupportedEvent (addr : FeatureAddressType) (actor use_case_name_id : Z)
    (change_type : ElementChangeType) : list UseCaseOut :=
  match fa_entity addr with
  | None => (λ e, UseCaseChanged change_type (Some e) actor use_case_name_id) <$> dr_entities dr
  | Some ids => [UseCaseChanged change_type (DeviceRemoteGetEntity dr (Some ids)) actor use_case_name_id]
  end.

Definition process_supports (a : option NodeManagementUseCaseDataType) (addr : FeatureAddressType) (actor : Z)
    (change_type : ElementChangeType) : list (option UseCaseSupportType) → option (list UseCaseOut) :=
  fix loop l :=
    match l with
    | [] => Some []
    | s :: l =>
        match s ≫= use_case_name with
        | None => loop l
        | Some name =>
            r ← UseCaseInformationListFind a addr actor name;
            let out := match r with Some _ => [] | None => PublishUseCaseSupportedEvent addr actor name change_type end in
            outs ← loop l; Some (out ++ outs)
        end
    end.

Fixpoint process_information (a : option NodeManagementUseCaseDataType) (change_type : ElementChangeType)
    (l : list (option UseCaseInformationDataType)) : option (list UseCaseOut) :=
  match l with
  | [] => Some []
  | info :: l =>
      match info with
      | None => process_information a change_type l
      | Some info =>
          match uc_address info, uc_actor info with
          | Some addr, Some actor =>
              outs ← process_supports a addr actor change_type (default [] (use_case_support info));
              outs' ← process_information a change_type l; Some (outs ++ outs')
          | _, _ => process_information a change_type l
          end
      end
  end.

(** What [use_case_data_b] has and [use_case_data_a] has not. *)
Definition ProcessUseCaseSupport (use_case_data_a : option NodeManagementUseCaseDataType)
    (use_case_data_b : NodeManagementUseCaseDataType) (change_type : ElementChangeType) : option (list UseCaseOut) :=
  process_information use_case_data_a change_type (default [] use_case_data_b).

(** [new] is the data of the function now, or NULL. *)
Definition UpdateUseCaseData (self : NodeManagementRemote) (use_case_data_new : Data) :
    option (EebusError * NodeManagementRemote * list UseCaseOut) :=
  new ← read_opt data_use_cases use_case_data_new;
  prev ← read_opt data_use_cases (use_case_data_prev self);
  added ← (match new with None => Some [] | Some new => ProcessUseCaseSupport prev new kElementChangeAdd end);
  removed ← (match prev with None => Some [] | Some prev => ProcessUseCaseSupport new prev kElementChangeRemove end);
  let with_prev := mkNodeManagementRemote (nmr_feature self) in
  match new with
  | None => Some (kEebusErrorOk, with_prev Null, added ++ removed)
  | Some _ =>
      cfg ← ModelGetDataCfg kFunctionTypeNodeManagementUseCaseData;
      '(err, d) ← copy cfg use_case_data_new Null;
      Some (if is_ok err then (kEebusErrorOk, with_prev d, added ++ removed)
            else (kEebusErrorMemoryAllocate, with_prev Null, added ++ removed))
  end.

(** [UpdateData] of [node_management_remote.c] *)
Definition NodeManagementRemoteUpdateData (self : NodeManagementRemote) (function_type : nat) (new_data : Data)
    (fp fd : option FilterType) (persist : bool) : option (EebusError * NodeManagementRemote * list UseCaseOut) :=
  '(err, feature) ← FeatureRemoteUpdateData (nmr_feature self) function_type new_data fp fd persist;
  let self := mkNodeManagementRemote feature (use_case_data_prev self) in
  if negb (is_ok err) then Some (err, self, [])
  else if negb (bool_decide (function_type = kFunctionTypeNodeManagementUseCaseData)) then Some (kEebusErrorOk, self, [])
  else
    '(err, self, outs) ← UpdateUseCaseData self (FeatureGetData feature kFunctionTypeNodeManagementUseCaseData);
    Some (err, self, DeviceUpdated new_data :: outs).

(** [Destruct]: what is published last. *)
Definition NodeManagementRemoteDestruct (self : NodeManagementRemote) : option (list UseCaseOut) :=
  '(_, _, outs) ← UpdateUseCaseData self Null; Some outs.

(** *** Messages of the function *)

Definition ProcessReadUseCaseData (nm : FeatureData) (msg : Message) : option (EebusError * list UseCaseOut) :=
  match FeatureGetFunction nm kFunctionTypeNodeManagementUseCaseData with
  | None => Some (kEebusErrorNoChange, [])
  | Some (_, f) =>
      reply ← CreateReplyCmd f;
      Some (match reply with
            | None => (kEebusErrorMemoryAllocate, [])
            | Some reply => let out := SentReply (request_header msg) reply in (fst (sent out), [FeatureOutput out])
            end)
  end.

(** Filters are ignored. *)
Definition ProcessReplyUseCaseData (self : NodeManagementRemote) (cmd : CmdType) (msg : Message) :
    option (EebusError * NodeManagementRemote * list UseCaseOut) :=
  let d := data_choice cmd in
  '(err, self, outs) ← NodeManagementRemoteUpdateData self kFunctionTypeNodeManagementUseCaseData d None None true;
  Some (if negb (is_ok err) then (err, self, outs)
        else (kEebusErrorOk, self,
              outs ++ UseCaseDataReceived d :: (match msg_cnt_ref msg with None => [] | Some ref => [UseCaseReplyProcessed ref d] end))).

Definition HandleMsgUseCaseData (nm : FeatureData) (self : NodeManagementRemote) (cmd : CmdType) (msg : Message) :
    option (EebusError * NodeManagementRemote * list UseCaseOut) :=
  match msg_cmd_classifier msg with
  | kCommandClassifierTypeRead => '(err, outs) ← ProcessReadUseCaseData nm msg; Some (err, self, outs)
  | kCommandClassifierTypeReply | kCommandClassifierTypeNotify => ProcessReplyUseCaseData self cmd msg
  | _ => Some (kEebusErrorNotImplemented, self, [])
  end.
End remote.
