(* ===== verification/Discovery.v ===== *)
(** * Discovery ([spine/node_management/node_management_detailed_discovery.c], [device_local.c], [device_remote.c])

    The trees of devices, entities and features, what a device announces of its own, and the tree
    another makes of the announcement.

    [None] is undefined behaviour: a pointer that is NULL or was freed is followed. *)

From S2P Require Import Prelude FeatureFunctions Duration DateTime EebusData EebusDataWrite SpineTables SpineFunction Timer Vector Pool Spine LinkManager Pending Sender Datagram FeatureData SpineTablesFacts UseCase.

Local Open Scope list_scope.

(** ** The announcement ([spine/model/network_management_types.h], [node_management_types.h])

    The fields the code reads or sets; the others are NULL when it makes them. *)

(** [device_address] has one field, the address. *)
Record DeviceDescription := mkDeviceDescription {
  dd_device_address : option (option string);
  dd_device_type : option Z;
  dd_network_feature_set : option Z;
}.

Record EntityDescription := mkEntityDescription {
  ed_entity_address : option EntityAddressType;
  ed_entity_type : option Z;
  ed_description : option string;
}.

(** The function, and its [PossibleOperationsType]. *)
Abbreviation FunctionProperty := (option nat * option (option bool * option bool))%type.

Record FeatureDescription := mkFeatureDescription {
  fe_feature_address : option FeatureAddressType;
  fe_feature_type : option Z;
  fe_role : option RoleType;
  fe_supported_function : ArrayOf FunctionProperty;
  fe_description : option string;
  fe_max_response_delay : option EebusDuration;
}.

(** [DeviceInformation], and items of the other two, have one field, the description. *)
Record DiscoveryData := mkDiscoveryData {
  specification_version_list : option (ArrayOf string);
  device_information : option (option DeviceDescription);
  entity_information : ArrayOf (option EntityDescription);
  feature_information : ArrayOf (option FeatureDescription);
}.

(** *** As data *)

Definition information {A} (f : A → Data) (x : option A) : Data := Struct [opt f x].
Definition data_info {A} (f : Data → option A) (d : Data) : option (option A) :=
  match d with Struct [x] => read_opt f x | _ => None end.

Definition device_address_data (a : option string) : Data := Struct [opt str_data a].
Definition device_description_data (d : DeviceDescription) : Data :=
  Struct [ opt device_address_data (dd_device_address d); opt num_data (dd_device_type d); Null; Null; Null; Null;
           opt num_data (dd_network_feature_set d); Null; Null; Null; Null ].
Definition data_device_address (d : Data) : option (option string) :=
  match d with Struct [a] => read_opt data_str a | _ => None end.
Definition data_device_description (d : Data) : option DeviceDescription :=
  match d with
  | Struct [a; t; _; _; _; _; s; _; _; _; _] =>
      a ← read_opt data_device_address a; t ← read_opt data_num t; s ← read_opt data_num s; Some (mkDeviceDescription a t s)
  | _ => None
  end.

Definition entity_address_data (a : EntityAddressType) : Data := Struct [opt str_data (ea_device a); opt entity_data (ea_entity a)].
Definition data_entity_address (d : Data) : option EntityAddressType :=
  match d with
  | Struct [d; e] => d ← read_opt data_str d; e ← read_opt data_entity e; Some (mkEntityAddress d e)
  | _ => None
  end.
Definition entity_description_data (d : EntityDescription) : Data :=
  Struct [ opt entity_address_data (ed_entity_address d); opt num_data (ed_entity_type d); Null; Null; Null;
           opt str_data (ed_description d) ].
Definition data_entity_description (d : Data) : option EntityDescription :=
  match d with
  | Struct [a; t; _; _; _; s] =>
      a ← read_opt data_entity_address a; t ← read_opt data_num t; s ← read_opt data_str s; Some (mkEntityDescription a t s)
  | _ => None
  end.

Definition role_value (r : RoleType) : Z :=
  match r with kRoleTypeClient => 0 | kRoleTypeServer => 1 | kRoleTypeSpecial => 2 end.
(** The parser makes no other numbers than those of the table of roles. *)
Definition data_role (d : Data) : option RoleType :=
  z ← data_num d; find (λ r, (role_value r =? z)%Z) [kRoleTypeClient; kRoleTypeServer; kRoleTypeSpecial].

Definition operations_data (ops : option bool * option bool) : Data :=
  Struct [opt (λ p, Struct [tag p]) (fst ops); opt (λ p, Struct [tag p]) (snd ops)].
Definition data_partial (d : Data) : option bool := match d with Struct [p] => Some (is_tag_set p) | _ => None end.
Definition data_operations (d : Data) : option (option bool * option bool) :=
  match d with
  | Struct [r; w] => r ← read_opt data_partial r; w ← read_opt data_partial w; Some (r, w)
  | _ => None
  end.
Definition property_data (p : FunctionProperty) : Data :=
  Struct [opt (λ f, num_data (Z.of_nat f)) (fst p); opt operations_data (snd p)].
Definition data_property (d : Data) : option FunctionProperty :=
  match d with
  | Struct [f; o] =>
      f ← read_opt data_num f; o ← read_opt data_operations o; Some ((Z.to_nat <$> f) : option nat, o)
  | _ => None
  end.

Definition duration_data (d : EebusDuration) : Data := Leaf (BDuration d).
Definition data_duration (d : Data) : option EebusDuration := match d with Leaf (BDuration d) => Some d | _ => None end.
Definition feature_description_data (d : FeatureDescription) : Data :=
  Struct [ opt address_data (fe_feature_address d); opt num_data (fe_feature_type d); Null; Null;
           opt (λ r, num_data (role_value r)) (fe_role d); opt (array_data property_data) (fe_supported_function d);
           Null; Null; Null; opt str_data (fe_description d); opt duration_data (fe_max_response_delay d) ].
Definition data_feature_description (d : Data) : option FeatureDescription :=
  match d with
  | Struct [a; t; _; _; r; f; _; _; _; s; m] =>
      a ← read_opt data_address a; t ← read_opt data_num t; r ← read_opt data_role r;
      f ← read_opt (data_array data_property) f; s ← read_opt data_str s; m ← read_opt data_duration m;
      Some (mkFeatureDescription a t r f s m)
  | _ => None
  end.

Definition discovery_data (d : DiscoveryData) : Data :=
  Struct [ opt (information (array_data str_data)) (specification_version_list d);
           opt (information device_description_data) (device_information d);
           opt (array_data (information entity_description_data)) (entity_information d);
           opt (array_data (information feature_description_data)) (feature_information d) ].
Definition data_discovery (d : Data) : option DiscoveryData :=
  match d with
  | Struct [v; di; ei; fi] =>
      v ← read_opt (data_info (data_array data_str)) v; di ← read_opt (data_info data_device_description) di;
      ei ← read_opt (data_array (data_info data_entity_description)) ei;
      fi ← read_opt (data_array (data_info data_feature_description)) fi;
      Some (mkDiscoveryData v di ei fi)
  | _ => None
  end.

(** ** The trees ([spine/device/device.c], [spine/entity/entity.c], [spine/feature/feature.c])

    [fn_id] is the object of a remote feature, [fn_use_case_data_prev] what the node management of a remote device
    has beyond a feature. *)

Record FeatureNode := mkFeatureNode {
  fn_address : FeatureAddressType;
  fn_description : option string;
  fn_data : FeatureData;
  fn_max_response_delay : Z;
  fn_use_case_data_prev : option Data;
  fn_id : nat;
}.

Record EntityNode := mkEntityNode {
  en_address : EntityAddressType;
  en_type : Z;
  en_description : option string;
  en_next_feature_id : Z;
  en_features : list FeatureNode;
}.

Record LocalDevice := mkLocalDevice {
  ld_address : option string;
  ld_type : option Z;
  ld_feature_set : option Z;
  ld_entities : list EntityNode;
}.

(** A pointer to an integer that may be NULL, or freed. *)
Inductive Int32Ptr := IntNull | IntAt (z : Z) | IntFreed.

(** [rd_node_management] is the object of the feature, [rd_next_id] of the next one to be made. *)
Record RemoteDevice := mkRemoteDevice {
  rd_address : option string;
  rd_type : option Z;
  rd_feature_set : Int32Ptr;
  rd_ski : string;
  rd_entities : list EntityNode;
  rd_node_management : nat;
  rd_next_id : nat;
}.

Definition kEntityTypeTypeDeviceInformation : Z := 2.
Definition DEVICE_INFORMATION_ENTITY_ID : Z := 0.

(** As the look-ups of [Spine] see them. *)
Definition spine_feature (f : FeatureNode) : Feature := mkFeature (fn_address f) (fd_role (fn_data f)) (fd_type (fn_data f)).
Definition spine_entity (e : EntityNode) : Entity := mkEntity (en_address e) (spine_feature <$> en_features e).
Definition spine_local (d : LocalDevice) : DeviceLocal := mkDeviceLocal (ld_address d) (spine_entity <$> ld_entities d).
Definition spine_remote (d : RemoteDevice) : DeviceRemote := mkDeviceRemote (rd_ski d) (rd_address d) (spine_entity <$> rd_entities d).

Definition EntityAddressCreate (device : option string) (ids : list Z) : EntityAddressType :=
  mkEntityAddress device (Some (Some <$> ids)).

(** The ids of the entity are followed. *)
Definition FeatureAddressCreate (e : EntityAddressType) (feature_id : Z) : option FeatureAddressType :=
  ids ← mapM id (default [] (ea_entity e)); Some (mkFeatureAddress (ea_device e) (Some (Some <$> ids)) (Some feature_id)).

(** The first of the ids is read. *)
Definition EntityConstruct (type : Z) (device : option string) (entity_id : list Z) : option EntityNode :=
  match entity_id with
  | [] => None
  | i :: _ => Some (mkEntityNode (EntityAddressCreate device entity_id) type None (if (i =? 0)%Z then 0 else 1)%Z [])
  end.

Definition EntityGetNextFeatureId (self : EntityNode) : Z * EntityNode :=
  (en_next_feature_id self,
   mkEntityNode (en_address self) (en_type self) (en_description self) (u32 (en_next_feature_id self + 1)) (en_features self)).

Definition EntitySetDescription (description : option string) (self : EntityNode) : EntityNode :=
  mkEntityNode (en_address self) (en_type self) description (en_next_feature_id self) (en_features self).
Definition with_features (fs : list FeatureNode) (self : EntityNode) : EntityNode :=
  mkEntityNode (en_address self) (en_type self) (en_description self) (en_next_feature_id self) fs.
Definition FeatureSetDescription (description : option string) (self : FeatureNode) : FeatureNode :=
  mkFeatureNode (fn_address self) description (fn_data self) (fn_max_response_delay self) (fn_use_case_data_prev self) (fn_id self).

Definition with_entity (i : nat) (e : EntityNode) (self : RemoteDevice) : RemoteDevice :=
  mkRemoteDevice (rd_address self) (rd_type self) (rd_feature_set self) (rd_ski self) (<[i := e]> (rd_entities self))
    (rd_node_management self) (rd_next_id self).

Section discovery.
Context `{Allocator} {E : SpineEnv}.

(** ** Announcing *)

(** [ModelDataCopy] of an information. *)
Definition copied {A} (cfg : list EebusDataCfg) (enc : A → Data) (dec : Data → option A) (x : A) : option (option (option A)) :=
  ModelDataCopy (Sequence "" 0 cfg) (information enc) (data_info dec) (Some x).

Definition NodeManagementDetailedDiscoveryDeviceInformationCreate (device_addr : option string)
    (device_type feature_set : option Z) : option (option (option DeviceDescription)) :=
  copied node_management_detailed_discovery_device_information_cfg device_description_data data_device_description
    (mkDeviceDescription (Some device_addr) device_type feature_set).

(** Without the device of the address. *)
Definition NodeManagementDetailedDiscoveryEntityInformationCreate (entity_addr : EntityAddressType) (entity_type : Z) :
    option (option (option EntityDescription)) :=
  copied node_management_detailed_discovery_entity_information_cfg entity_description_data data_entity_description
    (mkEntityDescription (Some (mkEntityAddress None (ea_entity entity_addr))) (Some entity_type) None).

Definition NodeManagementDetailedDiscoveryFeatureInformationCreate (feature_address : FeatureAddressType) (feature_type : Z)
    (role : RoleType) (description : option string) : option (option (option FeatureDescription)) :=
  copied node_management_detailed_discovery_feature_information_cfg feature_description_data data_feature_description
    (mkFeatureDescription (Some (mkFeatureAddress None (fa_entity feature_address) (fa_feature feature_address)))
       (Some feature_type) (Some role) None description None).

Definition CreateDeviceInformation (self : LocalDevice) : option (option (option DeviceDescription)) :=
  NodeManagementDetailedDiscoveryDeviceInformationCreate (ld_address self) (ld_type self) (ld_feature_set self).
(** The description of the entity is not announced. *)
Definition CreateEntityInformation (self : EntityNode) : option (option (option EntityDescription)) :=
  NodeManagementDetailedDiscoveryEntityInformationCreate (en_address self) (en_type self).

(** The array that [AddSupportedFunctions] makes. *)
Definition supported_functions (fd : FeatureData) : ArrayOf FunctionProperty :=
  match AddSupportedFunctions fd with
  | [] => None
  | l => Some ((λ '(t, ops), Some (Some t, Some ops)) <$> l)
  end.

Definition FeatureLocalCreateInformation (self : FeatureNode) : option (option (option FeatureDescription)) :=
  info ← NodeManagementDetailedDiscoveryFeatureInformationCreate (fn_address self) (fd_type (fn_data self))
    (fd_role (fn_data self)) (fn_description self);
  Some (match info with
        | Some (Some d) =>
            Some (Some (mkFeatureDescription (fe_feature_address d) (fe_feature_type d) (fe_role d)
                          (supported_functions (fn_data self)) (fe_description d) (fe_max_response_delay d)))
        | _ => info
        end).

(** One after the other; inside, [None] is NULL, where it ends. *)
Fixpoint create_all {A B} (create : A → option (option B)) (l : list A) : option (option (list (option B))) :=
  match l with
  | [] => Some (Some [])
  | x :: l =>
      info ← create x;
      match info with
      | None => Some None
      | Some info => rest ← create_all create l; Some (match rest with Some rest => Some (Some info :: rest) | None => None end)
      end
  end.

Definition NodeManagementDetailedDiscoveryDataCreate (spec_versions : list string) : option (option DiscoveryData) :=
  ModelDataCopy (Sequence "" 0 node_management_detailed_discovery_data_cfg) discovery_data data_discovery
    (mkDiscoveryData (Some (Some (Some <$> spec_versions))) None None None).

(** [AddInfo], whose errors are all one to the caller: [None] inside. *)
Definition AddInfo (self : LocalDevice) (d : DiscoveryData) : option (option DiscoveryData) :=
  di ← CreateDeviceInformation self;
  match di with
  | None => Some None
  | Some di =>
      if negb (allocates (length (ld_entities self))) then Some None
      else
        ei ← create_all CreateEntityInformation (ld_entities self);
        let features := ld_entities self ≫= en_features in
        match ei with
        | None => Some None
        | Some ei =>
            if negb (allocates (length features)) then Some None
            else
              fi ← create_all FeatureLocalCreateInformation features;
              Some (match fi with
                    | Some fi => Some (mkDiscoveryData (specification_version_list d) (Some di) (Some ei) (Some fi))
                    | None => None
                    end)
        end
  end.

Definition discovery_cmd (d : DiscoveryData) : CmdType :=
  mkCmd None [] kFunctionTypeNodeManagementDetailedDiscoveryData (discovery_data d) None None.

Definition ProcessReadDetailedDiscoveryData (self : LocalDevice) (msg : Message) : option (EebusError * list FeatureOut) :=
  d ← NodeManagementDetailedDiscoveryDataCreate [specification_version];
  match d with
  | None => Some (kEebusErrorMemoryAllocate, [])
  | Some d =>
      d ← AddInfo self d;
      Some (match d with
            | None => (kEebusErrorMemoryAllocate, [])
            | Some d => let out := SentReply (request_header msg) (discovery_cmd d) in (fst (sent out), [out])
            end)
  end.
End discovery.

(** ** The remote device ([spine/device/device_remote.c], [spine/entity/entity_remote.c]) *)

Inductive DiscoveryOut :=
| DeviceAdded (feature : option FeatureNode)
| EntityAdded (entity : EntityNode)
| DiscoveryReplyProcessed (msg_cnt_ref : Z) (feature : FeatureNode)
| UseCaseEvent (out : UseCaseOut).

Section remote.
Context `{Allocator} {E : SpineEnv}.

Definition with_entities (es : list EntityNode) (self : RemoteDevice) : RemoteDevice :=
  mkRemoteDevice (rd_address self) (rd_type self) (rd_feature_set self) (rd_ski self) es (rd_node_management self) (rd_next_id self).

(** The index of the entity, which is the last; NULL is [None] inside. *)
Definition AddEntityWithAddressAndType (self : RemoteDevice) (addr : EntityAddressType) (entity_type : Z) :
    option (RemoteDevice * option nat) :=
  let entity := default [] (ea_entity addr) in
  if negb (allocates (length entity)) then Some (self, None)
  else
    match mapM id entity with
    | None => Some (self, None)
    | Some entity_ids =>
        e ← EntityConstruct entity_type (rd_address self) entity_ids;
        Some (with_entities (rd_entities self ++ [e]) self, Some (length (rd_entities self)))
    end.

Definition new_object (self : RemoteDevice) : RemoteDevice :=
  mkRemoteDevice (rd_address self) (rd_type self) (rd_feature_set self) (rd_ski self) (rd_entities self)
    (rd_node_management self) (S (rd_next_id self)).

Definition feature_create (prev : option Data) (self : RemoteDevice) (feature_id : Z) (entity : EntityNode) (feature_type : Z)
    (role : RoleType) : option (RemoteDevice * FeatureNode) :=
  addr ← FeatureAddressCreate (en_address entity) feature_id;
  fd ← FeatureConstruct (default [] (GetFeatureFunctions feature_type)) feature_type role;
  Some (new_object self, mkFeatureNode addr None fd kDefaultMaxResponseDelayMs prev (rd_next_id self)).

Definition FeatureRemoteCreate := feature_create None.

(** Created by both callers for [node_management]. *)
Definition NodeManagementRemoteCreate (self : RemoteDevice) (feature_id : Z) (entity : EntityNode) :
    option (RemoteDevice * FeatureNode) :=
  '(self, f) ← feature_create (Some Null) self feature_id entity kFeatureTypeTypeNodeManagement kRoleTypeSpecial;
  Some (mkRemoteDevice (rd_address self) (rd_type self) (rd_feature_set self) (rd_ski self) (rd_entities self) (fn_id f)
          (rd_next_id self), f).

(** A device of which nothing is known but that it has a node management. *)
Definition DeviceRemoteConstruct (ski : string) : option RemoteDevice :=
  let self := mkRemoteDevice None None IntNull ski [] 0 0 in
  '(self, i) ← AddEntityWithAddressAndType self (mkEntityAddress (rd_address self) (Some [Some DEVICE_INFORMATION_ENTITY_ID]))
    kEntityTypeTypeDeviceInformation;
  i ← i; entity ← rd_entities self !! i;
  let '(nm_feature_id, entity) := EntityGetNextFeatureId entity in
  '(self, f) ← NodeManagementRemoteCreate self nm_feature_id entity;
  Some (with_entity i (with_features (en_features entity ++ [f]) entity) self).

(** A freed pointer is freed again, or not. *)
Definition Int32Delete (p : Int32Ptr) : option Int32Ptr := match p with IntNull => Some IntNull | IntAt _ => Some IntFreed | IntFreed => None end.

(** For a device type that is given, the feature set is deleted, and not set to NULL. *)
Definition UpdateDevice (self : RemoteDevice) (description : option DeviceDescription) : option RemoteDevice :=
  match description with
  | None => Some self
  | Some d =>
      let address := match dd_device_address d with Some (Some a) => Some a | _ => rd_address self end in
      set1 ← (match dd_device_type d with Some _ => Int32Delete (rd_feature_set self) | None => Some (rd_feature_set self) end);
      let type := match dd_device_type d with Some t => Some t | None => rd_type self end in
      set2 ← (match dd_network_feature_set d with Some s => _ ← Int32Delete set1; Some (IntAt s) | None => Some set1 end);
      Some (mkRemoteDevice address type set2 (rd_ski self) (rd_entities self) (rd_node_management self) (rd_next_id self))
  end.

Definition DeviceInfoGetDeviceAddress (device_info : option (option DeviceDescription)) : option string :=
  match device_info with
  | Some (Some d) => match dd_device_address d with Some a => a | None => None end
  | _ => None
  end.

Definition with_max_response_delay (delay : Z) (f : FeatureNode) : FeatureNode :=
  mkFeatureNode (fn_address f) (fn_description f) (fn_data f) delay (fn_use_case_data_prev f) (fn_id f).
Definition with_data (fd : FeatureData) (f : FeatureNode) : FeatureNode :=
  mkFeatureNode (fn_address f) (fn_description f) fd (fn_max_response_delay f) (fn_use_case_data_prev f) (fn_id f).

(** Seconds take the place of milliseconds.  Items of the supported functions are followed. *)
Definition FeatureRemoteCreateWithInfo (self : RemoteDevice) (entity : EntityNode) (d : FeatureDescription) :
    option (RemoteDevice * option FeatureNode) :=
  match fe_feature_address d ≫= fa_feature, fe_feature_type d, fe_role d with
  | Some feature_id, Some feature_type, Some role =>
      '(self, fr) ← (if bool_decide (feature_type = kFeatureTypeTypeNodeManagement) && bool_decide (role = kRoleTypeSpecial)
                     then NodeManagementRemoteCreate self feature_id entity
                     else FeatureRemoteCreate self feature_id entity feature_type role);
      let fr := FeatureSetDescription (fe_description d) fr in
      let fr := match fe_max_response_delay d with
                | Some delay => with_max_response_delay (u32 (EebusDurationToSeconds delay)) fr
                | None => fr
                end in
      supported ← mapM id (default [] (fe_supported_function d));
      Some (self, Some (with_data (FeatureRemoteSetFunctionOperations (fn_data fr) supported) fr))
  | _, _, _ => Some (self, None)
  end.

Definition EntityIdsMatch (entity_addr : option EntityAddressType) (feature_addr : option FeatureAddressType) : bool :=
  match feature_addr with None => false | Some a => EntityAddressMatchIds entity_addr (fa_entity a) end.

Definition EntityRemoteAddFeature (f : FeatureNode) (e : EntityNode) : EntityNode := with_features (en_features e ++ [f]) e.

(** Items and their descriptions are followed. *)
Fixpoint EntityRemoteAddFeaturesWithInfo (self : RemoteDevice) (entity : EntityNode)
    (feature_info : list (option (option FeatureDescription))) : option (RemoteDevice * EntityNode) :=
  match feature_info with
  | [] => Some (self, entity)
  | info :: feature_info =>
      d ← info; d ← d;
      if EntityIdsMatch (Some (en_address entity)) (fe_feature_address d) then
        '(self, fr) ← FeatureRemoteCreateWithInfo self entity d;
        EntityRemoteAddFeaturesWithInfo self (match fr with Some fr => EntityRemoteAddFeature fr entity | None => entity end) feature_info
      else EntityRemoteAddFeaturesWithInfo self entity feature_info
  end.

(** The node management among them reports that the use cases are gone. *)
Fixpoint delete_features (dr : DeviceRemote) (fs : list FeatureNode) : option (list UseCaseOut) :=
  match fs with
  | [] => Some []
  | f :: fs =>
      outs ← (match fn_use_case_data_prev f with
              | None => Some []
              | Some prev => NodeManagementRemoteDestruct dr (mkNodeManagementRemote (fn_data f) prev)
              end);
      outs' ← delete_features dr fs; Some (outs ++ outs')
  end.

Definition RemoveAllFeatures (self : RemoteDevice) (entity : EntityNode) : option (EntityNode * list UseCaseOut) :=
  outs ← delete_features (spine_remote self) (en_features entity); Some (with_features [] entity, outs).

Definition UpdateDeviceAddress (device_addr : string) (entity : EntityNode) : EntityNode :=
  mkEntityNode (mkEntityAddress (Some device_addr) (ea_entity (en_address entity))) (en_type entity) (en_description entity)
    (en_next_feature_id entity) (en_features entity).

Definition CheckEntityInformation (self : RemoteDevice) (init : bool) (info : option EntityDescription) : EebusError :=
  match info with
  | None => kEebusErrorInputArgumentNull
  | Some d =>
      match ed_entity_address d with
      | None => kEebusErrorInputArgument
      | Some a =>
          match ea_entity a with
          | None => kEebusErrorInputArgument
          | Some _ =>
              if init then kEebusErrorOk
              else match ea_device a, rd_address self with
                   | Some d, Some addr => if bool_decide (d ≠ addr) then kEebusErrorInputArgument else kEebusErrorOk
                   | _, _ => kEebusErrorOk
                   end
          end
      end
  end.

(** The index of an entity. *)
Definition find_entity (self : RemoteDevice) (entity_ids : option (list (option Z))) : option nat :=
  fst <$> list_find (λ e, EntityAddressMatchIds (Some (en_address e)) entity_ids = true) (rd_entities self).

(** What is done with the entity [i] for the description of it. *)
Definition refresh_entity (self : RemoteDevice) (data : DiscoveryData) (d : EntityDescription) (i : nat) :
    option (RemoteDevice * list UseCaseOut) :=
  entity ← rd_entities self !! i;
  let unset := match ea_device (en_address entity) with None => true | Some a => bool_decide (a = EmptyString) end in
  let entity := match DeviceInfoGetDeviceAddress (device_information data) with
                | Some a => if unset then UpdateDeviceAddress a entity else entity
                | None => entity
                end in
  let entity := EntitySetDescription (ed_description d) entity in
  '(entity, outs) ← RemoveAllFeatures (with_entity i entity self) entity;
  '(self, entity) ← EntityRemoteAddFeaturesWithInfo self entity (default [] (feature_information data));
  Some (with_entity i entity self, outs).

(** The entities that were added, by their indices; [None] inside where an entity was refused. *)
Fixpoint add_entities (self : RemoteDevice) (init : bool) (data : DiscoveryData) (infos : list (option (option EntityDescription)))
    (new : list nat) : option (RemoteDevice * option (list nat) * list UseCaseOut) :=
  match infos with
  | [] => Some (self, Some new, [])
  | info :: infos =>
      info ← info;
      if negb (is_ok (CheckEntityInformation self init info)) then Some (self, None, [])
      else
        d ← info; addr ← ed_entity_address d;
        '(self, i, new) ← (match find_entity self (ea_entity addr) with
                           | Some i => Some (self, i, new)
                           | None =>
                               type ← ed_entity_type d;
                               '(self, i) ← AddEntityWithAddressAndType self addr type;
                               i ← i; Some (self, i, new ++ [i])
                           end);
        '(self, outs) ← refresh_entity self data d i;
        '(self, r, outs') ← add_entities self init data infos new; Some (self, r, outs ++ outs')
  end.

Definition AddEntityAndFeatures (self : RemoteDevice) (init : bool) (data : DiscoveryData) :
    option (RemoteDevice * option (list nat) * list UseCaseOut) :=
  add_entities self init data (default [] (entity_information data)) [].

(** *** Looking things up *)

Definition RemoteGetFeatureWithId (e : EntityNode) (feature_id : option Z) : option FeatureNode :=
  match feature_id with
  | None => None
  | Some id => snd <$> list_find (λ f, fa_feature (fn_address f) = Some id) (en_features e)
  end.

Definition RemoteGetFeatureWithAddress (self : RemoteDevice) (a : FeatureAddressType) : option FeatureNode :=
  match find_entity self (fa_entity a) with
  | None => None
  | Some i => match rd_entities self !! i with Some e => RemoteGetFeatureWithId e (fa_feature a) | None => None end
  end.

(** The object, if it is still there. *)
Definition find_object (self : RemoteDevice) (id : nat) : option FeatureNode :=
  snd <$> list_find (λ f, fn_id f = id) (rd_entities self ≫= en_features).

(** [HasUseCaseSupport] of a remote entity, which follows the pointer to the node management. *)
Definition EntityRemoteHasUseCaseSupport (self : RemoteDevice) (entity : EntityNode) (use_case_filter : UseCaseFilterType) : option bool :=
  nm ← find_object self (rd_node_management self);
  HasUseCaseSupport (en_address entity) (fn_data nm) use_case_filter.

(** *** Messages ([node_management_detailed_discovery.c])

    [feature_remote]: the feature of the device the message came from. *)

Definition FeatureAddressCopy (a : FeatureAddressType) : option (option FeatureAddressType) :=
  ModelDataCopy (Sequence "" 0 feature_address_cfg) address_data data_address a.

Definition ProcessReplyDetailedDiscoveryData (dr : RemoteDevice) (feature_remote : FeatureAddressType) (cmd : CmdType) (msg : Message) :
    option (EebusError * RemoteDevice * list DiscoveryOut) :=
  data ← data_discovery (data_choice cmd);
  match device_information data with
  | Some (Some device_description) =>
      dr ← UpdateDevice dr (Some device_description);
      feature_remote_addr ← FeatureAddressCopy feature_remote;
      match feature_remote_addr with
      | None => Some (kEebusErrorInputArgumentNull, dr, [])
      | Some feature_remote_addr =>
          '(dr, entities, gone) ← AddEntityAndFeatures dr true data;
          match entities with
          | None => Some (kEebusErrorMemoryAllocate, dr, UseCaseEvent <$> gone)
          | Some entities =>
              let new_remote_feature := RemoteGetFeatureWithAddress dr feature_remote_addr in
              let added := (UseCaseEvent <$> gone) ++ DeviceAdded new_remote_feature ::
                           (EntityAdded <$> omap (λ i, rd_entities dr !! i) entities) in
              match msg_cnt_ref msg with
              | None => Some (kEebusErrorOk, dr, added)
              | Some ref => f ← new_remote_feature; Some (kEebusErrorOk, dr, added ++ [DiscoveryReplyProcessed ref f])
              end
          end
      end
  | _ => Some (kEebusErrorInputArgument, dr, [])
  end.

Definition ProcessNotifyDetailedDiscoveryData : EebusError := kEebusErrorNotImplemented.

(** [FeatureOutput] of the answer, or what the reply does. *)
Definition HandleMsgDetailedDiscoveryData (self : LocalDevice) (dr : RemoteDevice) (feature_remote : FeatureAddressType)
    (cmd : CmdType) (msg : Message) : option (EebusError * RemoteDevice * (list FeatureOut + list DiscoveryOut)) :=
  if negb has_sender then Some (kEebusErrorInputArgument, dr, inr [])
  else
    match msg_cmd_classifier msg with
    | kCommandClassifierTypeRead => '(err, outs) ← ProcessReadDetailedDiscoveryData self msg; Some (err, dr, inl outs)
    | kCommandClassifierTypeReply =>
        '(err, dr, outs) ← ProcessReplyDetailedDiscoveryData dr feature_remote cmd msg; Some (err, dr, inr outs)
    | kCommandClassifierTypeNotify => Some (ProcessNotifyDetailedDiscoveryData, dr, inr [])
    | _ => Some (kEebusErrorNotImplemented, dr, inr [])
    end.
End remote.
