(* ===== verification/UseCaseFacts.v ===== *)
(** * The use cases devices know of each other

    The entities of a device keep a set of use cases, and a device that gets its notifications publishes
    what changes in that set: an observer there who goes by the events knows the same set. *)

From stdpp Require Import gmap.
From S2P Require Import Prelude FeatureFunctions Duration DateTime EebusData EebusDataWrite EebusDataFacts EebusDataList SpineTables SpineFunction SpineReplica Timer Vector Pool Spine LinkManager Sender Datagram FeatureData FeatureReplica SpineTablesFacts UseCase.

Local Open Scope list_scope.

(** ** The set of use cases *)

#[export] Instance EntityAddressType_countable : Countable EntityAddressType.
Proof. apply (inj_countable' (λ e, (ea_device e, ea_entity e)) (λ '(d, e), mkEntityAddress d e)). by intros []. Defined.

(** Of the entity, as the actor, the use case. *)
Abbreviation UseCaseKey := (EntityAddressType * Z * Z)%type.
Abbreviation UseCases := (gset UseCaseKey).

Definition entity_of (a : FeatureAddressType) : EntityAddressType := mkEntityAddress (fa_device a) (fa_entity a).
Definition names (l : list (option UseCaseSupportType)) : list Z := omap (λ s, s ≫= use_case_name) l.

Definition information_keys (o : option UseCaseInformationDataType) : list UseCaseKey :=
  match o with
  | Some (mkUseCaseInformation (Some a) (Some actor) ss) => (λ n, (entity_of a, actor, n)) <$> names (default [] ss)
  | _ => []
  end.

Definition supported (l : NodeManagementUseCaseDataType) : UseCases := list_to_set (default [] l ≫= information_keys).

(** Nothing is NULL that is followed, and an information is about an entity. *)
Definition addressed (o : option UseCaseInformationDataType) : Prop :=
  ∃ i a, o = Some i ∧ uc_address i = Some a ∧ fa_entity a ≠ None ∧ Forall is_Some (default [] (use_case_support i)).
Definition well_addressed (l : NodeManagementUseCaseDataType) : Prop := Forall addressed (default [] l).

(** ** Finding *)

Lemma find_support_spec l n : Forall is_Some l →
  ∃ r, find_support l n = Some r ∧ (r = None ↔ n ∉ names l) ∧
    ∀ j s, r = Some (j, s) → l !! j = Some (Some s) ∧ use_case_name s = Some n.
Proof.
  induction 1 as [|o l [s ->] _ IH]; simpl.
  { exists None. split_and!; [done| |done]. split; [|done]. intros _. by apply not_elem_of_nil. }
  case_bool_decide as Hn.
  - eexists. split; [done|]. rewrite Hn. split.
    + split; [done|]. rewrite elem_of_cons. tauto.
    + by intros ?? [= <- <-].
  - destruct IH as (r & -> & Hnone & Hsome). simpl. exists (match r with Some (i, s) => Some (S i, s) | None => None end).
    split; [done|]. split.
    + assert (n ∉ (match use_case_name s with Some y => y :: names l | None => names l end) ↔ n ∉ names l) as ->.
      { destruct (use_case_name s); [|done]. rewrite not_elem_of_cons. split; [by intros [? ?]|]. intros ?. split; [congruence|done]. }
      rewrite <- Hnone. by destruct r as [[]|].
    + destruct r as [[i s']|]; [|done]. intros ?? [= <- <-]. by apply Hsome.
Qed.

Lemma names_spec l n : n ∈ names l ↔ ∃ s, Some s ∈ l ∧ use_case_name s = Some n.
Proof.
  unfold names. rewrite list_elem_of_omap. split.
  - intros ([s|] & ? & ?); [eauto|done].
  - intros (s & ? & ?). by exists (Some s).
Qed.

Lemma entity_compare a b : FeatureAddressCompare (Some (without_feature a)) (Some (without_feature b)) = bool_decide (entity_of a = entity_of b).
Proof.
  rewrite FeatureAddressCompare_eq. apply bool_decide_ext. unfold without_feature, entity_of. split; intros [= -> ->]; done.
Qed.

(** Matching a name is being among the keys; without a name, it is being of the entity and actor. *)
Lemma match_key o addr actor n : addressed o → fa_entity addr ≠ None →
  UseCaseInformationMatch o addr (Some actor) (Some n) = Some (bool_decide ((entity_of addr, actor, n) ∈ information_keys o)).
Proof.
  intros ([a0 c ss] & a & -> & Ha & He & Hs) Hea. simpl in Ha, Hs. subst a0.
  unfold UseCaseInformationMatch. cbn [mbind option_bind uc_address]. rewrite (bool_decide_false (fa_entity a = None)), (bool_decide_false (fa_entity addr = None)) by done.
  cbn [orb mbind option_bind]. rewrite entity_compare.
  destruct (find_support_spec (default [] ss) n Hs) as (r & Hr & Hnone & _).
  unfold UseCaseNameIdMatch, UseCaseInformationFind. cbn [use_case_support ActorMatch uc_actor]. rewrite Hr. cbn [mbind option_bind].
  assert ((entity_of addr, actor, n) ∈ information_keys (Some (mkUseCaseInformation (Some a) c ss)) ↔
          entity_of a = entity_of addr ∧ c = Some actor ∧ r ≠ None) as Hk.
  { simpl. destruct c as [c|].
    - rewrite list_elem_of_fmap. rewrite Hnone. split.
      + intros (n' & [[He' Hc]%pair_eq Hn']%pair_eq & ?). subst n' c. rewrite He'. tauto.
      + intros (He' & [= ->] & Hin). exists n. rewrite He'. split; [done|]. destruct (decide (n ∈ names (default [] ss))); tauto.
    - rewrite elem_of_nil. split; [done|]. by intros (_ & ? & _). }
  rewrite (bool_decide_ext _ _ Hk), !bool_decide_and. by destruct (bool_decide (entity_of a = _)), (bool_decide (c = _)).
Qed.

Definition of_actor (e : EntityAddressType) (actor : Z) (o : option UseCaseInformationDataType) : Prop :=
  ∃ i a, o = Some i ∧ uc_address i = Some a ∧ entity_of a = e ∧ uc_actor i = Some actor.
#[export] Instance of_actor_dec e actor o : Decision (of_actor e actor o).
Proof.
  refine (match o with
          | Some (mkUseCaseInformation (Some a) c _) => cast_if (decide (entity_of a = e ∧ c = Some actor))
          | _ => right _
          end).
  - destruct a0 as [? ->]. by eexists _, a.
  - intros (i & a' & Hi & Ha & He & Hc). apply n. injection Hi as <-. by injection Ha as <-.
  - intros (i & a' & [= <-] & ? & ?). done.
  - intros (i & a' & ? & ?). done.
Defined.

Lemma match_actor o addr actor : addressed o → fa_entity addr ≠ None →
  UseCaseInformationMatch o addr (Some actor) None = Some (bool_decide (of_actor (entity_of addr) actor o)).
Proof.
  intros ([a0 c ss] & a & -> & Ha & He & Hs) Hea. simpl in Ha. subst a0.
  unfold UseCaseInformationMatch. cbn [mbind option_bind uc_address]. rewrite (bool_decide_false (fa_entity a = None)), (bool_decide_false (fa_entity addr = None)) by done.
  cbn [orb mbind option_bind ActorMatch uc_actor UseCaseNameIdMatch]. rewrite entity_compare.
  assert (of_actor (entity_of addr) actor (Some (mkUseCaseInformation (Some a) c ss)) ↔
          entity_of a = entity_of addr ∧ c = Some actor) as Hk.
  { split; [|by intros [??]; exists (mkUseCaseInformation (Some a) c ss), a].
    intros (i & a' & Hi & Ha' & ?). injection Hi as <-. by injection Ha' as <-. }
  rewrite (bool_decide_ext _ _ Hk), bool_decide_and. by destruct (bool_decide (entity_of a = _)), (bool_decide (c = _)).
Qed.

Lemma find_information_spec (P : option UseCaseInformationDataType → Prop) `{∀ o, Decision (P o)} l addr actor n :
  Forall (λ o, addressed o ∧ UseCaseInformationMatch o addr actor n = Some (bool_decide (P o))) l →
  ∃ r, find_information l addr actor n = Some r ∧ (r = None ↔ Forall (λ o, ¬ P o) l) ∧
    ∀ j i, r = Some (j, i) → l !! j = Some (Some i) ∧ P (Some i).
Proof.
  induction 1 as [|o l [(i & a & -> & _) Hm] _ IH]; cbn [find_information].
  { exists None. split_and!; [done| |done]. split; [constructor|done]. }
  rewrite Hm. cbn [mbind option_bind]. case_bool_decide as HP.
  - eexists. split; [done|]. split.
    + split; [done|]. by intros [? _]%Forall_cons.
    + by intros ?? [= <- <-].
  - destruct IH as (r & -> & Hnone & Hsome). cbn [mbind option_bind]. exists (match r with Some (i, s) => Some (S i, s) | None => None end).
    split; [done|]. split.
    + rewrite Forall_cons. rewrite <- Hnone. destruct r as [[]|]; (split; [done || by split|]); by intros [_ ?].
    + destruct r as [[j i']|]; [|done]. intros ?? [= <- <-]. by apply Hsome.
Qed.

Lemma supported_elem l k : k ∈ supported l ↔ ∃ o, o ∈ default [] l ∧ k ∈ information_keys o.
Proof. unfold supported. rewrite elem_of_list_to_set, list_elem_of_bind. by split; intros (o & ? & ?); exists o. Qed.

(** An information is found for the use cases of the set. *)
Lemma find_supported l addr actor n : well_addressed l → fa_entity addr ≠ None →
  ∃ r, find_information (default [] l) addr (Some actor) (Some n) = Some r ∧
    (r = None ↔ (entity_of addr, actor, n) ∉ supported l) ∧
    ∀ j i, r = Some (j, i) → default [] l !! j = Some (Some i) ∧ (entity_of addr, actor, n) ∈ information_keys (Some i).
Proof.
  intros Hl He.
  destruct (find_information_spec (λ o, (entity_of addr, actor, n) ∈ information_keys o) (default [] l) addr (Some actor) (Some n))
    as (r & Hr & Hnone & Hsome).
  { eapply Forall_impl; [exact Hl|]. intros o Ho. split; [done|]. by apply match_key. }
  exists r. split_and!; [done| |done]. rewrite Hnone, supported_elem, Forall_forall.
  split; [by intros Hn (o & ? & ?); apply (Hn o)|]. intros Hn o ??. apply Hn. by exists o.
Qed.

(** ** What another device publishes *)

Section remote_facts.
Context `{Allocator} {E : SpineEnv} (dr : DeviceRemote).

(** An observer of the events keeps a set. *)
Definition observe (seen : UseCases) (out : UseCaseOut) : UseCases :=
  match out with
  | UseCaseChanged kElementChangeAdd (Some e) actor n => seen ∪ {[(entity_address e, actor, n)]}
  | UseCaseChanged kElementChangeRemove (Some e) actor n => seen ∖ {[(entity_address e, actor, n)]}
  | _ => seen
  end.

Definition event (change_type : ElementChangeType) (k : UseCaseKey) : UseCaseOut :=
  let '(e, actor, n) := k in UseCaseChanged change_type (DeviceRemoteGetEntity dr (ea_entity e)) actor n.

(** The entity is one of the device, under its address. *)
Definition known (k : UseCaseKey) : Prop := ∃ e, DeviceRemoteGetEntity dr (ea_entity k.1.1) = Some e ∧ entity_address e = k.1.1.

Lemma observe_events c ks seen : Forall known ks →
  foldl observe seen (event c <$> ks) =
    match c with kElementChangeAdd => seen ∪ list_to_set ks | kElementChangeRemove => seen ∖ list_to_set ks end.
Proof.
  intros Hks. revert seen. induction Hks as [|[[e a] n] ks (d & Hd & He) _ IH]; intros seen; cbn [fmap list_fmap foldl].
  { destruct c; set_solver. }
  rewrite IH. cbn [fst] in *. unfold event. rewrite Hd. simpl. rewrite He. destruct c; set_solver.
Qed.

Abbreviation supported_of := (from_option supported ∅).

Definition missing (a : option NodeManagementUseCaseDataType) (ks : list UseCaseKey) : list UseCaseKey :=
  filter (λ k, k ∉ supported_of a) ks.

Lemma list_find_key a addr actor n : from_option well_addressed True a → fa_entity addr ≠ None →
  ∃ r, UseCaseInformationListFind a addr actor n = Some r ∧ (r = None ↔ (entity_of addr, actor, n) ∉ supported_of a).
Proof.
  intros Ha He. destruct a as [l|].
  - destruct (find_supported l addr actor n Ha He) as (r & ? & ? & _). by exists r.
  - exists None. split; [done|]. split; [|done]. intros _. apply not_elem_of_empty.
Qed.

Lemma process_supports_exact a addr actor c ss : from_option well_addressed True a → fa_entity addr ≠ None →
  process_supports dr a addr actor c ss = Some (event c <$> missing a ((λ n, (entity_of addr, actor, n)) <$> names ss)).
Proof.
  intros Ha He. induction ss as [|s ss IH]; [done|]. cbn [process_supports names omap list_omap] in *.
  destruct (s ≫= use_case_name) as [n|]; [|done].
  destruct (list_find_key a addr actor n Ha He) as (r & Hr & Hnone). rewrite Hr. cbn [mbind option_bind]. rewrite IH.
  cbn [mbind option_bind fmap list_fmap]. unfold missing at 2. rewrite filter_cons. destruct r as [x|].
  - rewrite decide_False; [done|]. intros Hk. by apply Hnone in Hk.
  - rewrite decide_True by by apply Hnone. unfold PublishUseCaseSupportedEvent. destruct addr as [d [ids|] f]; done.
Qed.

Lemma process_exact a b c : from_option well_addressed True a → well_addressed b →
  ProcessUseCaseSupport dr a b c = Some (event c <$> missing a (default [] b ≫= information_keys)).
Proof.
  intros Ha. unfold ProcessUseCaseSupport, well_addressed. induction 1 as [|o l (i & addr & -> & Haddr & He & Hs) _ IH]; [done|].
  destruct i as [addr' actor ss]. simpl in Haddr. subst addr'. cbn [process_information uc_address uc_actor use_case_support mbind list_bind].
  destruct actor as [actor|]; [|done]. rewrite process_supports_exact, IH by done.
  unfold missing. by rewrite filter_app, fmap_app.
Qed.

Lemma add_then_remove (p l : UseCases) : (p ∪ l ∖ p) ∖ (p ∖ l) = l.
Proof. apply set_eq. intros k. destruct (decide (k ∈ p)), (decide (k ∈ l)); set_solver. Qed.

(** Going by the events, an observer comes from what was to what is. *)
Lemma update_observed self prev l cfg : 
  read_opt data_use_cases (use_case_data_prev self) = Some prev →
  from_option well_addressed True prev → well_addressed l →
  ModelGetDataCfg kFunctionTypeNodeManagementUseCaseData = Some cfg →
  copy cfg (use_cases_data l) Null = Some (kEebusErrorOk, use_cases_data l) →
  set_Forall known (supported_of prev) → set_Forall known (supported l) →
  ∃ outs, UpdateUseCaseData dr self (use_cases_data l) =
      Some (kEebusErrorOk, mkNodeManagementRemote (nmr_feature self) (use_cases_data l), outs) ∧
    foldl observe (supported_of prev) outs = supported l.
Proof.
  intros Hprev Hp Hl Hcfg Hcopy Hkp Hkl. unfold UpdateUseCaseData.
  change (read_opt data_use_cases (use_cases_data l)) with (Some <$> data_use_cases (use_cases_data l)).
  rewrite data_use_cases_data, Hprev. cbn [mbind option_bind fmap option_fmap option_map].
  rewrite process_exact by done. cbn [mbind option_bind].
  assert (∀ m a, set_Forall known (supported m) → Forall known (missing a (default [] m ≫= information_keys))) as Hkn.
  { intros m a Hm. apply Forall_forall. intros k [_ Hk]%list_elem_of_filter. apply Hm. unfold supported. by apply elem_of_list_to_set. }
  assert (∀ m a, list_to_set (missing a (default [] m ≫= information_keys)) = supported m ∖ supported_of a) as Hset.
  { intros m a. unfold missing, supported. apply set_eq. intros k. rewrite elem_of_list_to_set, list_elem_of_filter, elem_of_difference, elem_of_list_to_set. tauto. }
  destruct prev as [prev|]; cbn [mbind option_bind].
  - rewrite process_exact by done. cbn [mbind option_bind]. rewrite Hcfg. cbn [mbind option_bind]. rewrite Hcopy. cbn [mbind option_bind].
    eexists. split; [done|]. rewrite foldl_app, !observe_events by (by apply Hkn). rewrite !Hset. simpl.
    apply add_then_remove.
  - rewrite Hcfg. cbn [mbind option_bind]. rewrite Hcopy. cbn [mbind option_bind].
    eexists. split; [done|]. rewrite app_nil_r, observe_events by (by apply Hkn). rewrite Hset. simpl. by rewrite difference_empty_L, union_empty_l_L.
Qed.
End remote_facts.
