(* ===== verification/UseCaseTable.v ===== *)
(** * The use cases of a device as a table

    What the entities of a device keep is a table of supports by entity and actor; here, what each
    operation does to the set of use cases it stands for. *)

From stdpp Require Import gmap.
From S2P Require Import Prelude FeatureFunctions Duration DateTime EebusData EebusDataWrite EebusDataFacts EebusDataMerge EebusDataTable EebusDataList SpineTables SpineFunction SpineReplica Timer Vector Pool Spine LinkManager Sender Datagram FeatureData SpineTablesFacts UseCase UseCaseFacts.

Local Open Scope list_scope.

(** The data as a table of the supports of each entity and actor. *)
Abbreviation Row := ((EntityAddressType * Z) * list UseCaseSupportType)%type.
Abbreviation Table := (list Row).

Section tables.
Context `{Allocator} (Hmalloc : malloc_zero = true) {E : SpineEnv}.

Definition entity_ok (e : EntityAddressType) : Prop :=
  ea_entity e ≠ None ∧ typed (Sequence "" 0 feature_address_cfg) (address_data (entity_feature_address e)) = true ∧
  fits (address_data (entity_feature_address e)) = true.
Definition int32 (z : Z) : bool := (- 2 ^ 31 <=? z)%Z && (z <? 2 ^ 31)%Z.

Definition support_ok (s : UseCaseSupportType) : Prop :=
  use_case_name s ≠ None ∧ typed use_case_support_element_data_cfg (support_data s) = true ∧ fits (support_data s) = true.

Definition entry (r : Row) : option UseCaseInformationDataType :=
  Some (mkUseCaseInformation (Some (entity_feature_address r.1.1)) (Some r.1.2) (Some (Some <$> r.2))).
Definition represents (l : NodeManagementUseCaseDataType) (t : Table) : Prop := default [] l = entry <$> t.

Definition row_keys (r : Row) : list UseCaseKey := (λ n, (r.1, n)) <$> omap use_case_name r.2.
Definition table_keys (t : Table) : UseCases := list_to_set (t ≫= row_keys).

Definition row_ok (n : nat) (r : Row) : Prop :=
  entity_ok r.1.1 ∧ int32 r.1.2 = true ∧ length r.2 ≤ n ∧ Forall support_ok r.2.

(** At most one entry of an entity and an actor; nothing has more than [n] items. *)
Record table_ok (n : nat) (t : Table) : Prop := {
  table_rows : Forall (row_ok n) t;
  table_unique : NoDup t.*1;
  table_length : length t ≤ n;
}.

Lemma names_present ss : names (Some <$> ss) = omap use_case_name ss.
Proof. induction ss as [|s ss IH]; [done|]. unfold names in *. simpl. destruct (use_case_name s); [f_equal|]; apply IH. Qed.

Lemma entry_keys r : information_keys (entry r) = row_keys r.
Proof.
  destruct r as [[[d e] a] ss]. unfold row_keys. simpl. by rewrite names_present.
Qed.

Lemma represents_supported l t : represents l t → supported l = table_keys t.
Proof.
  intros Hl. unfold supported, table_keys. rewrite Hl. f_equal. clear Hl.
  induction t as [|r t IH]; [done|]. cbn [fmap list_fmap mbind list_bind]. by rewrite entry_keys, IH.
Qed.

Lemma represents_addressed n l t : represents l t → table_ok n t → well_addressed l.
Proof.
  intros Hl [Ht _ _]. unfold well_addressed. rewrite Hl. apply Forall_fmap. eapply Forall_impl; [exact Ht|].
  intros [[e a] ss] [(He & _) _]. eexists _, _. split_and!; [done|done|done|]. simpl. apply Forall_fmap, Forall_true. by eexists.
Qed.

Lemma row_keys_elem r k : k ∈ row_keys r ↔ k.1 = r.1 ∧ ∃ s, s ∈ r.2 ∧ use_case_name s = Some k.2.
Proof.
  unfold row_keys. rewrite list_elem_of_fmap. setoid_rewrite list_elem_of_omap. split.
  - intros (n & -> & s & ? & ?). split; [done|]. by exists s.
  - intros [? (s & ? & ?)]. exists k.2. split; [by destruct k; f_equal|]. by exists s.
Qed.

Lemma table_keys_elem t k : k ∈ table_keys t ↔ ∃ r, r ∈ t ∧ k ∈ row_keys r.
Proof. unfold table_keys. rewrite elem_of_list_to_set, list_elem_of_bind. by split; intros (r & ? & ?); exists r. Qed.

Lemma table_keys_app t t' : table_keys (t ++ t') = table_keys t ∪ table_keys t'.
Proof. unfold table_keys. by rewrite bind_app, list_to_set_app_L. Qed.

Lemma table_keys_row r : table_keys [r] = list_to_set (row_keys r).
Proof. unfold table_keys. simpl. by rewrite app_nil_r. Qed.

Lemma same_row n t r r' : table_ok n t → r ∈ t → r' ∈ t → r.1 = r'.1 → r = r'.
Proof.
  intros [_ Hu _] (i & Hi)%list_elem_of_lookup (j & Hj)%list_elem_of_lookup Hk.
  assert (i = j) as ->; [|congruence].
  eapply NoDup_lookup; [exact Hu| |]; rewrite list_lookup_fmap; [rewrite Hi; done|rewrite Hj; simpl; by rewrite Hk].
Qed.

(** A row replaced by one of the same entity and actor. *)
Lemma replace_row n m t i k ss ss' : table_ok n t → n ≤ m → t !! i = Some (k, ss) → row_ok m (k, ss') →
  table_ok m (<[i := (k, ss')]> t) ∧
  ∀ x, list_to_set (row_keys (k, ss')) = list_to_set (row_keys (k, ss)) ∪ x →
    table_keys (<[i := (k, ss')]> t) = table_keys t ∪ x.
Proof.
  intros [Hr Hu Hlen] Hnm Hi Hok. split.
  - constructor.
    + apply Forall_insert; [|done]. eapply Forall_impl; [exact Hr|]. intros r (? & ? & ? & ?). split_and!; (done || lia).
    + rewrite list_fmap_insert, list_insert_id; [done|]. by rewrite list_lookup_fmap, Hi.
    + rewrite length_insert. lia.
  - intros x Hx. apply list_elem_of_split_length in Hi as (t1 & t2 & -> & ->).
    rewrite <- (Nat.add_0_r (length t1)), insert_app_r. simpl.
    rewrite (cons_middle _ t1), (cons_middle _ t1), !table_keys_app, !table_keys_row, Hx. set_solver.
Qed.

(** ** Copies and arrays *)

Lemma copy_model {A} cfg (enc : A → Data) dec x : cfg_ok cfg = true → is_choice cfg = false →
  typed cfg (enc x) = true → fits (enc x) = true → dec (enc x) = Some x → ModelDataCopy cfg enc dec x = Some (Some x).
Proof.
  intros Hok Hnc Ht Hf Hd. unfold ModelDataCopy, copy. rewrite write_copies; try done; [|by apply typed_null].
  simpl. by rewrite Hd.
Qed.

Lemma append_item {A} (l : ArrayOf A) x : (Z.of_nat (length (default [] l)) < kMaxElementsNum)%Z →
  append l (Some x) = Some (kEebusErrorOk, Some (default [] l ++ [Some x])).
Proof.
  intros Hl. unfold append. simpl. unfold EebusDataListDataAppend. rewrite elements_of_sized. cbn [mbind option_bind].
  rewrite CreateListBuffer_some by lia. done.
Qed.

Lemma allocates_all n : allocates n = true.
Proof. unfold allocates. by rewrite Hmalloc. Qed.

Lemma buffer_all n : (Z.of_nat n <= kMaxElementsNum)%Z → CreateListBuffer n = true.
Proof. intros Hn. unfold CreateListBuffer. rewrite Hmalloc, andb_true_r. by apply Z.leb_le. Qed.

Lemma forallb_fmap {A B} (f : B → bool) (g : A → B) l : Forall (λ a, f (g a) = true) l → forallb f (g <$> l) = true.
Proof. induction 1 as [|a l Ha _ IH]; [done|]. cbn [fmap list_fmap forallb]. by rewrite Ha. Qed.

(** ** The data of a table is data of the function *)

Lemma support_items n ss : (Z.of_nat n <= kMaxElementsNum)%Z → length ss ≤ n → Forall support_ok ss →
  typed (EEBUS_DATA_LIST "useCaseSupport" use_case_support_element_data_cfg) (array_data support_data (Some <$> ss)) = true ∧
  fits (array_data support_data (Some <$> ss)) = true.
Proof.
  intros Hn Hlen Hss. unfold array_data. cbn [typed EEBUS_DATA_LIST fits]. rewrite !length_fmap, buffer_all by lia. cbn [andb].
  rewrite <- list_fmap_compose. split; apply forallb_fmap; eapply Forall_impl; try exact Hss; by intros s (? & ? & ?).
Qed.

Lemma entry_data n r : (Z.of_nat n <= kMaxElementsNum)%Z → row_ok n r →
  typed use_case_information_element_data_cfg (opt information_data (entry r)) = true ∧ fits (opt information_data (entry r)) = true.
Proof.
  intros Hn ((_ & Ht & Hf) & Ha & Hlen & Hss). destruct (support_items n r.2 Hn Hlen Hss) as [Hts Hfs].
  set (a := address_data (entity_feature_address r.1.1)) in *.
  change (forall2b typed use_case_information_data_cfg [a; num_data r.1.2; array_data support_data (Some <$> r.2)] = true ∧
          forallb fits [a; num_data r.1.2; array_data support_data (Some <$> r.2)] = true).
  cbn [forall2b forallb use_case_information_data_cfg]. rewrite Hts, Hfs, Hf.
  change (typed (EEBUS_DATA_SEQUENCE "address" feature_address_cfg) a) with (typed (Sequence "" 0 feature_address_cfg) a).
  rewrite Ht. unfold int32 in Ha. split; [|done]. by rewrite !andb_true_r.
Qed.

Lemma table_data n l t : (Z.of_nat n <= kMaxElementsNum)%Z → represents l t → table_ok n t →
  data_of SpineFunction.data_choice_data_cfg kFunctionTypeNodeManagementUseCaseData (use_cases_data l).
Proof.
  intros Hn Hl [Ht _ Hlen]. eexists. split; [reflexivity|].
  destruct l as [l|]; [|by vm_compute]. unfold represents in Hl. simpl in Hl. subst l.
  unfold use_cases_data. cbn [opt from_option]. unfold array_data.
  cbn [typed node_management_use_case_data_cfg forall2b fits forallb EEBUS_DATA_LIST].
  rewrite !length_fmap, buffer_all by lia. cbn [andb]. rewrite !andb_true_r.
  rewrite <- list_fmap_compose. split; apply forallb_fmap; eapply Forall_impl; try exact Ht; intros r Hr; by apply (entry_data n).
Qed.

(** ** The operations *)

(** The row of an entity and actor is what the look-up without a name finds. *)
Lemma find_row n l t e actor : represents l t → table_ok n t → ea_entity e ≠ None →
  ∃ r, NodeManagementUseCaseDataFindInfo l (entity_feature_address e) (Some actor) None = Some r ∧
    (r = None → (e, actor) ∉ t.*1) ∧
    ∀ i info, r = Some (i, info) → ∃ ss, t !! i = Some ((e, actor), ss) ∧ Some info = entry ((e, actor), ss).
Proof.
  intros Hl Hok He. pose proof (represents_addressed n l t Hl Hok) as Hw.
  destruct (find_information_spec (of_actor e actor) (default [] l) (entity_feature_address e) (Some actor) None) as (r & Hr & Hnone & Hsome).
  { eapply Forall_impl; [exact Hw|]. intros o Ho. split; [done|]. rewrite match_actor by done. by destruct e. }
  assert (∀ r, of_actor e actor (entry r) ↔ r.1 = (e, actor)) as Hrow.
  { intros [[e' a'] ss]. unfold of_actor, entry. split.
    - intros (i & a & [= <-] & [= <-] & <- & [= ->]). by destruct e'.
    - intros [= -> ->]. eexists _, _. split_and!; try done. by destruct e. }
  exists r. split; [done|]. unfold represents in Hl. rewrite Hl in Hnone, Hsome. split.
  - intros Hn (row & Hk & Hin)%list_elem_of_fmap. apply Hnone in Hn. rewrite Forall_fmap, Forall_forall in Hn.
    apply (Hn row Hin). by apply Hrow.
  - intros i info Hi. destruct (Hsome i info Hi) as [Hlk Hof]. rewrite list_lookup_fmap in Hlk.
    apply fmap_Some in Hlk as (row & Hrow' & Heq). rewrite Heq in Hof. apply Hrow in Hof. destruct row as [k ss]. simpl in Hof. subst k.
    by exists ss.
Qed.

Lemma set_item_represents l t i r : represents l t → i < length t → ∃ o, entry r = Some o ∧ represents (set_item i o l) (<[i := r]> t).
Proof.
  intros Hl Hi. eexists. split; [reflexivity|]. unfold represents, set_item in *. destruct l as [l|]; simpl in *; subst; [|by destruct t; simpl in *; [lia|]].
  by rewrite list_fmap_insert.
Qed.

Lemma row_keys_snoc k ss s n : use_case_name s = Some n → row_keys (k, ss ++ [s]) = row_keys (k, ss) ++ [(k, n)].
Proof. intros Hn. unfold row_keys. cbn [fst snd]. rewrite omap_app, fmap_app. simpl. by rewrite Hn. Qed.

Lemma add_row n t r : table_ok n t → row_ok (S n) r → r.1 ∉ t.*1 → table_ok (S n) (t ++ [r]).
Proof.
  intros [Hr Hu Hlen] Hok Hnew. constructor.
  - apply Forall_app. split; [|by apply Forall_singleton]. eapply Forall_impl; [exact Hr|]. intros r' (? & ? & ? & ?). split_and!; (done || lia).
  - rewrite fmap_app. apply NoDup_app. split_and!; [done| |apply NoDup_singleton].
    intros k Hk ->%list_elem_of_singleton. done.
  - rewrite length_app. simpl. lia.
Qed.

Definition new_support (name : Z) (version sub_revision : option string) (available : bool) (scenarios : list Z) : UseCaseSupportType :=
  mkUseCaseSupport (Some name) version (Some available) (Some (Some <$> scenarios)) sub_revision.

Lemma add_exact n l t e actor name version sub available scenarios :
  represents l t → table_ok n t → (Z.of_nat n < kMaxElementsNum)%Z → entity_ok e → int32 actor = true →
  support_ok (new_support name version sub available scenarios) →
  ∃ l' t', NodeManagementUseCaseDataAddUseCaseSupport l (entity_feature_address e) actor name version sub available scenarios =
      Some (kEebusErrorOk, l') ∧
    represents l' t' ∧ table_ok (S n) t' ∧ table_keys t' = table_keys t ∪ {[(e, actor, name)]}.
Proof.
  intros Hl Hok Hn He Ha Hs. pose proof Hs as (_ & Hst & Hsf). pose proof He as (Hen & Hat & Haf).
  destruct (find_row n l t e actor Hl Hok Hen) as (r & Hr & Hnone & Hsome).
  unfold NodeManagementUseCaseDataAddUseCaseSupport. rewrite allocates_all. cbn [negb]. rewrite Hr. cbn [mbind option_bind].
  fold (new_support name version sub available scenarios). set (s := new_support name version sub available scenarios) in *.
  destruct r as [[i info]|].
  - destruct (Hsome i info eq_refl) as (ss & Hi & [= ->]). clear Hnone Hsome.
    assert (row_ok n ((e, actor), ss)) as (_ & _ & Hlen & Hss).
    { destruct Hok as [Hrows _ _]. rewrite Forall_forall in Hrows. apply Hrows. by eapply list_elem_of_lookup_2. }
    unfold UseCaseInformationAdd. rewrite copy_model; try done; [|apply data_support_data]. cbn [mbind option_bind use_case_support].
    rewrite append_item by (simpl in *; rewrite length_fmap; lia). cbn [mbind option_bind].
    destruct (set_item_represents l t i ((e, actor), ss ++ [s]) Hl) as (o & Ho & Hrep); [by eapply lookup_lt_Some|].
    destruct (replace_row n (S n) t i (e, actor) ss (ss ++ [s]) Hok) as [Hok' Hkeys]; [lia|done| |].
    { split_and!; simpl; [done|done| |]. { rewrite length_app. simpl in *. lia. } apply Forall_app. split; [done|by apply Forall_singleton]. }
    eexists _, (<[i := ((e, actor), ss ++ [s])]> t). split_and!; [reflexivity| |done|].
    + injection Ho as <-. simpl in Hrep. rewrite fmap_app in Hrep. exact Hrep.
    + apply Hkeys. by rewrite (row_keys_snoc _ _ _ name), list_to_set_app_L, list_to_set_singleton_L.
  - specialize (Hnone eq_refl). unfold UseCaseInformationDataCreate.
    assert (row_ok (S n) ((e, actor), [s])) as Hrow.
    { split_and!; simpl; [done|done|lia|by apply Forall_singleton]. }
    destruct (entry_data (S n) ((e, actor), [s])) as [Ht Hf]; [lia|done|]. unfold entry in Ht, Hf. cbn [opt from_option] in Ht, Hf.
    rewrite copy_model; try done; [|apply data_information_data]. cbn [mbind option_bind].
    rewrite append_item by (unfold represents in Hl; rewrite Hl, length_fmap; destruct Hok; lia).
    eexists _, (t ++ [((e, actor), [s])]). split_and!; [reflexivity| |by apply add_row|].
    + unfold represents in *. simpl. by rewrite Hl, fmap_app.
    + rewrite table_keys_app, table_keys_row. unfold row_keys. simpl. by rewrite union_empty_r_L.
Qed.

Lemma names_available (j : nat) s0 (ss : list UseCaseSupportType) available : ss !! j = Some s0 →
  omap use_case_name (<[j := with_available available s0]> ss) = omap use_case_name ss.
Proof.
  intros (l1 & l2 & -> & ->)%list_elem_of_split_length. rewrite <- (Nat.add_0_r (length l1)), insert_app_r. simpl.
  by rewrite !omap_app.
Qed.

Lemma available_ok s available : support_ok s → support_ok (with_available available s).
Proof.
  destruct s as [n v a l r]. intros (Hn & Ht & Hf). split; [done|]. split; [|by destruct a].
  change (forall2b typed use_case_support_cfg
    [opt num_data n; opt str_data v; flag_data available; opt (array_data num_data) l; opt str_data r] = true).
  change (forall2b typed use_case_support_cfg
    [opt num_data n; opt str_data v; opt flag_data a; opt (array_data num_data) l; opt str_data r] = true) in Ht.
  cbn [forall2b use_case_support_cfg] in *. rewrite !andb_true_iff in *. destruct_and!. split_and!; try done. by destruct available.
Qed.

Lemma set_availability_exact n l t e actor name available :
  represents l t → table_ok n t → ea_entity e ≠ None →
  ∃ l' t', NodeManagementUseCaseDataSetAvailability l (entity_feature_address e) actor name available = Some l' ∧
    represents l' t' ∧ table_ok n t' ∧ table_keys t' = table_keys t.
Proof.
  intros Hl Hok He. pose proof (represents_addressed n l t Hl Hok) as Hw.
  destruct (find_supported l (entity_feature_address e) actor name Hw He) as (r & Hr & _ & Hsome).
  unfold NodeManagementUseCaseDataSetAvailability, NodeManagementUseCaseDataFindInfo. rewrite Hr. cbn [mbind option_bind].
  destruct r as [[i info]|]; [|by exists l, t]. destruct (Hsome i info eq_refl) as [Hi _]. unfold represents in Hl. rewrite Hl in Hi.
  rewrite list_lookup_fmap in Hi. apply fmap_Some in Hi as ([k ss] & Hi & [= ->]). cbn [fst snd].
  unfold UseCaseInformationFind. cbn [use_case_support uc_address uc_actor default from_option id].
  destruct (find_support_spec (Some <$> ss) name) as (q & Hq & _ & Hfound); [by apply Forall_fmap, Forall_true; eexists|].
  rewrite Hq. cbn [mbind option_bind]. destruct q as [[j s]|]; [|by exists l, t].
  destruct (Hfound j s eq_refl) as [Hj _]. rewrite list_lookup_fmap in Hj. apply fmap_Some in Hj as (s0 & Hj & [= <-]).
  set (ss' := <[j := with_available available s]> ss).
  assert (row_ok n (k, ss)) as (H1 & H2 & H3 & H4).
  { destruct Hok as [Hrows _ _]. rewrite Forall_forall in Hrows. apply Hrows. by eapply list_elem_of_lookup_2. }
  destruct (replace_row n n t i k ss ss' Hok) as [Hok' Hkeys]; [done|done| |].
  { split_and!; [done|done|by unfold ss'; simpl; rewrite length_insert|]. apply Forall_insert; [done|].
    apply available_ok. rewrite Forall_forall in H4. apply H4. by eapply list_elem_of_lookup_2. }
  destruct (set_item_represents l t i (k, ss') Hl) as (o & Ho & Hrep); [by eapply lookup_lt_Some|].
  eexists _, (<[i := (k, ss')]> t). split_and!; [reflexivity| |done|].
  - injection Ho as <-. unfold ss' in Hrep. cbn [fst snd] in Hrep. rewrite list_fmap_insert in Hrep. exact Hrep.
  - rewrite (Hkeys ∅), union_empty_r_L; [done|]. rewrite union_empty_r_L. unfold row_keys, ss'. cbn [fst snd]. by rewrite names_available.
Qed.

(** *** Removing *)

Lemma kept_exact (P : Row → Prop) `{∀ r, Decision (P r)} keep t :
  Forall (λ r, keep (entry r) = Some (bool_decide (P r))) t → kept_items keep (entry <$> t) = Some (entry <$> filter P t).
Proof.
  induction 1 as [|r t Hr _ IH]; [done|]. cbn [fmap list_fmap kept_items]. rewrite Hr. cbn [mbind option_bind].
  rewrite IH. cbn [mbind option_bind]. rewrite filter_cons. destruct (decide (P r)) as [Hp|Hp]; [by rewrite bool_decide_true|by rewrite bool_decide_false].
Qed.

Lemma filter_row n t (P : Row → Prop) `{∀ r, Decision (P r)} : table_ok n t → table_ok n (filter P t).
Proof.
  intros [Hr Hu Hlen]. constructor.
  - rewrite Forall_forall in *. intros r [_ Hin]%list_elem_of_filter. by apply Hr.
  - eapply sublist_NoDup; [exact Hu|]. apply (fmap_sublist fst), sublist_filter.
  - etransitivity; [apply length_filter|done].
Qed.

(** What is kept becomes the data, also where that is all. *)
Lemma kept_represents l t (P : Row → Prop) `{∀ r, Decision (P r)} : represents l t →
  represents (if bool_decide (length (entry <$> filter P t) = length (default [] l)) then l else Some (entry <$> filter P t)) (filter P t).
Proof.
  intros Hl. case_bool_decide as Hlen; [|done]. unfold represents in *. rewrite Hl, !length_fmap in Hlen. rewrite Hl. f_equal.
  symmetry. rewrite (list_filter_iff' P (λ _, True)); [by rewrite filter_all|]. apply Forall_forall. intros r Hr. split; [done|]. intros _.
  destruct (decide (P r)) as [|Hp]; [done|]. pose proof (length_filter_lt P t r Hr Hp). lia.
Qed.

Lemma remove_all_exact n l t e : represents l t → table_ok n t →
  ∃ l' t', NodeManagementUseCaseDataRemoveWithAddress l (entity_feature_address e) = Some l' ∧
    represents l' t' ∧ table_ok n t' ∧ table_keys t' = filter (λ k, k.1.1 ≠ e) (table_keys t).
Proof.
  intros Hl Hok. exists (if bool_decide (length (entry <$> filter (λ r, r.1.1 ≠ e) t) = length (default [] l)) then l
    else Some (entry <$> filter (λ r, r.1.1 ≠ e) t)), (filter (λ r, r.1.1 ≠ e) t).
  split; [|split_and!; [by apply kept_represents|by apply filter_row|]].
  - unfold NodeManagementUseCaseDataRemoveWithAddress. pose proof Hl as Hl'. unfold represents in Hl'. rewrite Hl' at 1.
    rewrite (kept_exact (λ r, r.1.1 ≠ e)).
    { cbn [mbind option_bind]. by rewrite allocates_all. }
    apply Forall_true. intros [[e' a] ss]. cbn [entry mbind option_bind uc_address fst snd]. f_equal.
    rewrite FeatureAddressCompare_eq, <- bool_decide_not. apply bool_decide_ext.
    destruct e, e'. unfold entity_feature_address. simpl. split; intros Hne [= -> ->]; by apply Hne.
  - apply set_eq. intros k. rewrite elem_of_filter, !table_keys_elem. setoid_rewrite list_elem_of_filter. split.
    + intros (r & [Hne Hin] & Hk). split; [|by exists r]. apply row_keys_elem in Hk as [-> _]. done.
    + intros [Hne (r & Hin & Hk)]. exists r. split_and!; try done. apply row_keys_elem in Hk as [<- _]. done.
Qed.

(** With one filter, the use case goes, and with it all of the same entity and actor. *)
Definition without (e : EntityAddressType) (f : UseCaseFilterType) (s : UseCases) : UseCases :=
  if decide ((e, uf_actor f, uf_use_case_name_id f) ∈ s) then filter (λ k, k.1 ≠ (e, uf_actor f)) s else s.

Lemma remove_one_exact n l t e f : represents l t → table_ok n t → ea_entity e ≠ None →
  ∃ l' t', NodeManagementUseCaseDataRemoveWithFilters l (entity_feature_address e) [f] = Some l' ∧
    represents l' t' ∧ table_ok n t' ∧ table_keys t' = without e f (table_keys t).
Proof.
  intros Hl Hok He. pose proof (represents_addressed n l t Hl Hok) as Hw. destruct f as [actor name].
  set (key := (e, actor, name)). set (P := λ r, key ∉ row_keys r).
  exists (if bool_decide (length (entry <$> filter P t) = length (default [] l)) then l else Some (entry <$> filter P t)), (filter P t).
  split; [|split_and!; [by apply kept_represents|by apply filter_row|]].
  - unfold NodeManagementUseCaseDataRemoveWithFilters. pose proof Hl as Hl'. unfold represents in Hl'. rewrite Hl' at 1.
    rewrite (kept_exact P).
    { cbn [mbind option_bind length]. rewrite Nat.mul_1_r, allocates_all. cbn [negb]. case_bool_decide; [done|]. by rewrite bool_decide_true. }
    unfold well_addressed in Hw. rewrite Hl', Forall_fmap in Hw. eapply Forall_impl; [exact Hw|]. intros r Hr.
    cbn [UseCaseInformationMatchAnyFilter uf_actor uf_use_case_name_id]. rewrite match_key by done. cbn [mbind option_bind].
    replace (entity_of (entity_feature_address e)) with e by by destruct e. rewrite entry_keys. fold key.
    unfold P. rewrite (bool_decide_not (key ∈ row_keys r)). by destruct (bool_decide (key ∈ row_keys r)).
  - apply set_eq. intros k. rewrite table_keys_elem. setoid_rewrite list_elem_of_filter. unfold without. cbn [uf_actor uf_use_case_name_id].
    fold key. case_decide as Hin.
    + apply table_keys_elem in Hin as (r0 & Hr0 & Hk0). rewrite elem_of_filter, table_keys_elem. split.
      * intros (r & [HP Hr] & Hk). split; [|by exists r]. apply row_keys_elem in Hk as [-> _]. apply row_keys_elem in Hk0 as [Ha Hs].
        intros Heq. apply HP. rewrite (same_row n t r r0); try done; [by apply row_keys_elem|]. by rewrite Heq, <- Ha.
      * intros [Hne (r & Hr & Hk)]. exists r. split_and!; try done. intros Hkr. apply row_keys_elem in Hk as [Hk _].
        apply row_keys_elem in Hkr as [Hkr _]. apply Hne. by rewrite Hk, <- Hkr.
    + rewrite table_keys_elem in Hin |- *. split; intros (r & Hr & Hk); exists r; [by destruct Hr|].
      split_and!; try done. intros Hkr. apply Hin. by exists r.
Qed.
End tables.
