(* ===== verification/UseCaseSync.v ===== *)
(** * Use cases from one device to another

    The operations of the entities of a device, the notifications they send, and what another device makes
    of those. *)

From stdpp Require Import gmap.
From S2P Require Import Prelude FeatureFunctions Duration DateTime EebusData EebusDataWrite EebusDataFacts EebusDataMerge EebusDataList SpineTables SpineFunction SpineReplica Timer Vector Pool Spine LinkManager Sender Datagram FeatureData FeatureReplica SpineTablesFacts UseCase UseCaseFacts UseCaseTable.

Local Open Scope list_scope.

Section sync.
Context `{Allocator} (Hmalloc : malloc_zero = true) {E : SpineEnv}.

Abbreviation t := kFunctionTypeNodeManagementUseCaseData.

(** ** The data of the function, here and there *)

Lemma FeatureGetFunction_set nm ft i f f' : FeatureGetFunction nm ft = Some (i, f) → type f' = ft →
  FeatureGetFunction (set_function i f' nm) ft = Some (i, f').
Proof.
  intros (Hf & Ht & Hmin)%FeatureGetFunction_Some Ht'. unfold FeatureGetFunction, set_function. simpl.
  apply list_find_Some. split_and!; [|done|].
  - apply list_lookup_insert_eq. by eapply lookup_lt_Some.
  - intros j g Hj Hlt. rewrite list_lookup_insert_ne in Hj by lia. by eapply Hmin.
Qed.

Lemma full_update f d wr : type f = t → data_of SpineFunction.data_choice_data_cfg t d → null d = false →
  UpdateData f d None None wr true = Some (kEebusErrorOk, set_function_data d f).
Proof.
  intros Ht (c & Hc & Hty & Hf) Hn. unfold UpdateData, ModelGetDataCfg. rewrite Ht, Hc. cbn [mbind option_bind].
  destruct (model_data spine_model_ok) as [_ Hall]. rewrite Forall_forall in Hall.
  destruct (Hall c) as [Hok Hnc]; [by eapply list_elem_of_lookup_2|]. by rewrite write_over_plain.
Qed.

Definition notification (d : Data) : FeatureOut := NotifySubscribers (mkCmd None [] t d None None).

Lemma set_exact nm i f d : FeatureGetFunction nm t = Some (i, f) → data_of SpineFunction.data_choice_data_cfg t d → null d = false →
  FeatureLocalSetData nm t d = Some (set_function i (set_function_data d f) nm, [notification d]).
Proof.
  intros Hf Hd Hn. pose proof (FeatureGetFunction_Some _ _ _ _ Hf) as (_ & Ht & _).
  unfold FeatureLocalSetData, FeatureLocalUpdateData. rewrite Hf, full_update by done. cbn [mbind option_bind is_ok negb].
  change (is_ok kEebusErrorOk) with true. cbn [negb].
  unfold FunctionUpdateNotifySubscribers, CreateNotifyCmd.
  rewrite (CreateWriteCmd_exact (set_function_data d f) d None None spine_model_ok); [|by simpl; rewrite Ht|done|done].
  cbn [mbind option_bind]. rewrite bool_decide_true by done. simpl. by rewrite Ht.
Qed.

(** The data the function [i] holds, and the table it stands for. *)
Record holds (nm : FeatureData) (i : nat) (f : Function) (l : NodeManagementUseCaseDataType) (tb : Table) : Prop := {
  holds_function : FeatureGetFunction nm t = Some (i, f);
  holds_data : data f = use_cases_data l;
  holds_table : represents l tb;
}.

Lemma copy_held n nm i f l tb : holds nm i f l tb → table_ok n tb → (Z.of_nat n <= kMaxElementsNum)%Z →
  use_case_data_copy nm = Some (Some l).
Proof.
  intros [Hf Hd Hl] Hok Hn. pose proof (FeatureGetFunction_Some _ _ _ _ Hf) as (_ & Ht & _).
  destruct (copy_exact t (use_cases_data l) spine_model_ok) as (cfg & Hcfg & Hcopy & _); [by apply (table_data Hmalloc n l tb)|].
  unfold use_case_data_copy, FeatureDataCopy, DataCopy. rewrite Hf, Hd, Ht, Hcfg. cbn [mbind option_bind]. rewrite Hcopy.
  cbn [mbind option_bind]. change (is_ok kEebusErrorOk) with true. cbn iota.
  change (read_opt data_use_cases (use_cases_data l)) with (Some <$> data_use_cases (use_cases_data l)).
  by rewrite data_use_cases_data.
Qed.

Lemma set_held n nm i f l tb l' tb' : holds nm i f l tb → represents l' tb' → table_ok n tb' → (Z.of_nat n <= kMaxElementsNum)%Z →
  ∃ nm' f', set_use_case_data nm l' = Some (nm', [notification (use_cases_data l')]) ∧ holds nm' i f' l' tb'.
Proof.
  intros [Hf Hd Hl] Hl' Hok Hn. pose proof (FeatureGetFunction_Some _ _ _ _ Hf) as (_ & Ht & _).
  eexists _, (set_function_data (use_cases_data l') f). split.
  - unfold set_use_case_data. apply set_exact; [done|by apply (table_data Hmalloc n l' tb')|done].
  - constructor; [by eapply FeatureGetFunction_set|done|done].
Qed.

(** ** What entities do *)

Inductive Operation :=
| OpAdd (self : EntityAddressType) (actor name : Z) (version sub_revision : option string) (available : bool) (scenarios : list Z)
| OpSetAvailability (self : EntityAddressType) (use_case_filter : UseCaseFilterType) (available : bool)
| OpRemove (self : EntityAddressType) (use_case_filter : UseCaseFilterType)
| OpRemoveAll (self : EntityAddressType).

Definition operate (nm : FeatureData) (op : Operation) : option (FeatureData * list FeatureOut) :=
  match op with
  | OpAdd self actor name version sub available scenarios => AddUseCaseSupport self nm actor name version sub available scenarios
  | OpSetAvailability self f available => SetUseCaseAvailability self nm f available
  | OpRemove self f => RemoveUseCaseSupports self nm [f]
  | OpRemoveAll self => RemoveAllUseCaseSupports self nm
  end.

Fixpoint operate_all (nm : FeatureData) (ops : list Operation) : option (FeatureData * list FeatureOut) :=
  match ops with
  | [] => Some (nm, [])
  | op :: ops => '(nm, outs) ← operate nm op; '(nm, outs') ← operate_all nm ops; Some (nm, outs ++ outs')
  end.

(** What it is meant to do to the set of use cases; but removing one use case takes all of the actor. *)
Definition effect (s : UseCases) (op : Operation) : UseCases :=
  match op with
  | OpAdd self actor name _ _ _ _ => s ∪ {[(self, actor, name)]}
  | OpSetAvailability _ _ _ => s
  | OpRemove self f => without self f s
  | OpRemoveAll self => filter (λ k, k.1.1 ≠ self) s
  end.

Definition operation_ok (op : Operation) : Prop :=
  match op with
  | OpAdd self actor name version sub available scenarios =>
      entity_ok self ∧ int32 actor = true ∧ support_ok (new_support name version sub available scenarios)
  | OpSetAvailability self _ _ | OpRemove self _ | OpRemoveAll self => ea_entity self ≠ None
  end.

Lemma table_ok_more n tb : table_ok n tb → table_ok (S n) tb.
Proof.
  intros [Hr Hu Hl]. constructor; [|done|lia]. eapply Forall_impl; [exact Hr|]. intros r (? & ? & ? & ?). split_and!; (done || lia).
Qed.

Lemma change_held n nm i f l tb change l' tb' : holds nm i f l tb → table_ok n tb → (Z.of_nat (S n) <= kMaxElementsNum)%Z →
  change l = Some l' → represents l' tb' → table_ok n tb' →
  ∃ nm' f', change_use_cases nm change = Some (nm', [notification (use_cases_data l')]) ∧ holds nm' i f' l' tb'.
Proof.
  intros Hh Hok Hn Hc Hl' Hok'. unfold change_use_cases. rewrite (copy_held n nm i f l tb) by (done || lia).
  cbn [mbind option_bind]. rewrite Hc. cbn [mbind option_bind]. apply (set_held n nm i f l tb l' tb'); (done || lia).
Qed.

Lemma operate_exact n nm i f l tb op : holds nm i f l tb → table_ok n tb → (Z.of_nat (S n) <= kMaxElementsNum)%Z → operation_ok op →
  ∃ nm' f' l' tb', operate nm op = Some (nm', [notification (use_cases_data l')]) ∧ holds nm' i f' l' tb' ∧
    table_ok (S n) tb' ∧ table_keys tb' = effect (table_keys tb) op.
Proof.
  intros Hh Hok Hn Hop. pose proof (holds_table _ _ _ _ _ Hh) as Hl. destruct op as [self actor name v sr a sc|self uf a|self uf|self]; simpl in *.
  - destruct Hop as (He & Ha & Hs).
    destruct (add_exact Hmalloc n l tb self actor name v sr a sc) as (l' & tb' & Hadd & Hl' & Hok' & Hk); try done; [lia|].
    destruct (set_held (S n) nm i f l tb l' tb') as (nm' & f' & Hset & Hh'); try done.
    exists nm', f', l', tb'. split_and!; try done. unfold AddUseCaseSupport. rewrite (copy_held n nm i f l tb) by (done || lia).
    cbn [mbind option_bind default from_option id]. rewrite Hadd. done.
  - destruct (set_availability_exact Hmalloc n l tb self (uf_actor uf) (uf_use_case_name_id uf) a Hl Hok Hop) as (l' & tb' & Hc & Hl' & Hok' & Hk).
    destruct (change_held n nm i f l tb (λ l, NodeManagementUseCaseDataSetAvailability l (entity_feature_address self) (uf_actor uf) (uf_use_case_name_id uf) a) l' tb' Hh Hok Hn Hc Hl' Hok') as (nm' & f' & Hset & Hh').
    exists nm', f', l', tb'. split_and!; try done. by apply table_ok_more.
  - destruct (remove_one_exact Hmalloc n l tb self uf Hl Hok Hop) as (l' & tb' & Hc & Hl' & Hok' & Hk).
    destruct (change_held n nm i f l tb (λ l, NodeManagementUseCaseDataRemoveWithFilters l (entity_feature_address self) [uf]) l' tb' Hh Hok Hn Hc Hl' Hok') as (nm' & f' & Hset & Hh').
    exists nm', f', l', tb'. split_and!; try done. by apply table_ok_more.
  - destruct (remove_all_exact Hmalloc n l tb self Hl Hok) as (l' & tb' & Hc & Hl' & Hok' & Hk).
    destruct (change_held n nm i f l tb (λ l, NodeManagementUseCaseDataRemoveWithAddress l (entity_feature_address self)) l' tb' Hh Hok Hn Hc Hl' Hok') as (nm' & f' & Hset & Hh').
    exists nm', f', l', tb'. split_and!; try done. by apply table_ok_more.
Qed.

(** The set the entities keep: whatever they do, it is defined, and they have the use cases of the set. *)
Lemma operate_all_exact n nm i f l tb ops : holds nm i f l tb → table_ok n tb →
  (Z.of_nat (n + length ops) <= kMaxElementsNum)%Z → Forall operation_ok ops →
  ∃ nm' f' l' tb' outs, operate_all nm ops = Some (nm', outs) ∧ holds nm' i f' l' tb' ∧ table_ok (n + length ops) tb' ∧
    table_keys tb' = foldl effect (table_keys tb) ops.
Proof.
  intros Hh Hok Hn Hops. revert n nm f l tb Hh Hok Hn. induction Hops as [|op ops Hop _ IH]; intros n nm f l tb Hh Hok Hn; cbn [length foldl operate_all] in *.
  - exists nm, f, l, tb, []. split_and!; try done. by rewrite Nat.add_0_r.
  - destruct (operate_exact n nm i f l tb op) as (nm1 & f1 & l1 & tb1 & Ho & Hh1 & Hok1 & Hk1); try done; [lia|].
    destruct (IH (S n) nm1 f1 l1 tb1) as (nm2 & f2 & l2 & tb2 & outs & Hall & Hh2 & Hok2 & Hk2); try done; [lia|].
    rewrite Ho. cbn [mbind option_bind]. rewrite Hall. cbn [mbind option_bind].
    eexists nm2, f2, l2, tb2, _. split_and!; try done; [by replace (n + S (length ops)) with (S n + length ops) by lia|by rewrite Hk2, Hk1].
Qed.

Lemma has_exact n nm i f l tb self uf : holds nm i f l tb → table_ok n tb → ea_entity self ≠ None →
  HasUseCaseSupport self nm uf = Some (bool_decide ((self, uf_actor uf, uf_use_case_name_id uf) ∈ table_keys tb)).
Proof.
  intros [Hf Hd Hl] Hok He. unfold HasUseCaseSupport, FeatureGetData. rewrite Hf, Hd.
  change (read_opt data_use_cases (use_cases_data l)) with (Some <$> data_use_cases (use_cases_data l)).
  rewrite data_use_cases_data. cbn [mbind option_bind fmap option_fmap option_map].
  pose proof (represents_addressed n l tb Hl Hok) as Hw.
  destruct (find_supported l (entity_feature_address self) (uf_actor uf) (uf_use_case_name_id uf) Hw He) as (r & Hr & Hnone & _).
  unfold NodeManagementUseCaseDataHasUseCaseSupport, NodeManagementUseCaseDataFindInfo. rewrite Hr. cbn [mbind option_bind].
  f_equal. apply bool_decide_ext. rewrite (represents_supported l tb Hl) in Hnone. rewrite Hnone.
  replace (entity_of (entity_feature_address self)) with self by by destruct self. split; [|tauto]. apply dec_stable.
Qed.

(** ** What another device hears *)

Context (dr : DeviceRemote) (nm_there : FeatureData).

(** It gets the notifications one after the other. *)
Fixpoint receive_all (self : NodeManagementRemote) (outs : list FeatureOut) : option (NodeManagementRemote * list UseCaseOut) :=
  match outs with
  | [] => Some (self, [])
  | NotifySubscribers cmd :: outs =>
      '(err, self, events) ← HandleMsgUseCaseData dr nm_there self cmd (received None kCommandClassifierTypeNotify cmd);
      if negb (is_ok err) then None
      else '(self, events') ← receive_all self outs; Some (self, events ++ events')
  | _ :: outs => receive_all self outs
  end.

(** The data seen last; there is a function for the next. *)
Record saw (self : NodeManagementRemote) (seen : UseCases) : Prop := {
  saw_function : FeatureGetFunction (nmr_feature self) t ≠ None;
  saw_data : ∃ prev, read_opt data_use_cases (use_case_data_prev self) = Some prev ∧
    from_option well_addressed True prev ∧ from_option supported ∅ prev = seen;
}.

Lemma receive_exact n self seen l tb : saw self seen → represents l tb → table_ok n tb → (Z.of_nat n <= kMaxElementsNum)%Z →
  set_Forall (known dr) seen → set_Forall (known dr) (table_keys tb) →
  ∃ self' events, receive_all self [notification (use_cases_data l)] = Some (self', events) ∧ saw self' (table_keys tb) ∧
    foldl observe seen events = table_keys tb.
Proof.
  intros [Hfn (prev & Hprev & Hw & <-)] Hl Hok Hn Hks Hkt.
  destruct (FeatureGetFunction (nmr_feature self) t) as [[i f]|] eqn:Hf; [|done].
  pose proof (FeatureGetFunction_Some _ _ _ _ Hf) as (_ & Ht & _).
  pose proof (table_data Hmalloc n l tb Hn Hl Hok) as Hd.
  destruct (copy_exact t (use_cases_data l) spine_model_ok Hd) as (cfg & Hcfg & Hcopy & _).
  rewrite <- (represents_supported l tb Hl) in *.
  set (feature := set_function i (set_function_data (use_cases_data l) f) (nmr_feature self)).
  destruct (update_observed dr (mkNodeManagementRemote feature (use_case_data_prev self)) prev l cfg) as (outs & Hup & Hobs); try done.
  { by apply (represents_addressed n l tb). }
  assert (FeatureGetFunction feature t = Some (i, set_function_data (use_cases_data l) f)) as Hf' by by eapply FeatureGetFunction_set.
  assert (NodeManagementRemoteUpdateData dr self t (use_cases_data l) None None true =
    Some (kEebusErrorOk, mkNodeManagementRemote feature (use_cases_data l), DeviceUpdated (use_cases_data l) :: outs)) as Hall.
  { unfold NodeManagementRemoteUpdateData, FeatureRemoteUpdateData, update_function. rewrite Hf, full_update by done.
    cbn [mbind option_bind]. fold feature. change (is_ok kEebusErrorOk) with true. rewrite bool_decide_true by done. cbn [negb].
    unfold FeatureGetData. rewrite Hf'. cbn [data set_function_data]. rewrite Hup. done. }
  eexists (mkNodeManagementRemote feature (use_cases_data l)), _. split_and!.
  - unfold notification. cbn [receive_all]. unfold HandleMsgUseCaseData, received. cbn [msg_cmd_classifier].
    unfold ProcessReplyUseCaseData. cbn [data_choice]. rewrite Hall. cbn [mbind option_bind].
    change (is_ok kEebusErrorOk) with true. cbn [negb]. reflexivity.
  - constructor; [by simpl; rewrite Hf'|]. exists (Some l). split_and!; [|by apply (represents_addressed n l tb)|done].
    change (read_opt data_use_cases (use_cases_data l) = Some (Some l)).
    change (read_opt data_use_cases (use_cases_data l)) with (Some <$> data_use_cases (use_cases_data l)).
    by rewrite data_use_cases_data.
  - rewrite app_nil_r. cbn [app foldl observe]. rewrite foldl_app. cbn [foldl observe]. exact Hobs.
Qed.

(** The entities are those of the remote device. *)
Definition operation_known (op : Operation) : Prop :=
  match op with
  | OpAdd self _ _ _ _ _ _ => ∃ e, DeviceRemoteGetEntity dr (ea_entity self) = Some e ∧ entity_address e = self
  | _ => True
  end.

Lemma effect_known s op : set_Forall (known dr) s → operation_known op → set_Forall (known dr) (effect s op).
Proof.
  intros Hs Hop k. destruct op as [self a n v sr av sc|self uf av|self uf|self]; simpl in *.
  - intros [Hk| ->%elem_of_singleton]%elem_of_union; [by apply Hs|]. exact Hop.
  - apply Hs.
  - unfold without. case_decide; [|by apply Hs]. intros [_ Hk]%elem_of_filter. by apply Hs.
  - intros [_ Hk]%elem_of_filter. by apply Hs.
Qed.

Lemma receive_app self outs outs' : receive_all self (outs ++ outs') =
  ('(self, events) ← receive_all self outs; '(self, events') ← receive_all self outs'; Some (self, events ++ events')).
Proof.
  revert self. induction outs as [|o outs IH]; intros self; cbn [app receive_all].
  { cbn [mbind option_bind]. by destruct (receive_all self outs') as [[]|]. }
  destruct o; try apply IH. destruct (HandleMsgUseCaseData _ _ _ _ _) as [[[err s] ev]|]; [|done]. cbn [mbind option_bind].
  destruct (negb (is_ok err)); [done|]. rewrite IH. destruct (receive_all s outs) as [[s1 ev1]|]; [|done]. cbn [mbind option_bind].
  destruct (receive_all s1 outs') as [[s2 ev2]|]; [|done]. cbn [mbind option_bind]. by rewrite app_assoc.
Qed.

Lemma sync_exact n nm i f l tb self ops : holds nm i f l tb → table_ok n tb →
  (Z.of_nat (n + length ops) <= kMaxElementsNum)%Z → Forall operation_ok ops → Forall operation_known ops →
  ∀ seen, saw self seen → set_Forall (known dr) seen → set_Forall (known dr) (table_keys tb) → seen = table_keys tb →
  ∃ nm' outs self' events, operate_all nm ops = Some (nm', outs) ∧ receive_all self outs = Some (self', events) ∧
    foldl observe seen events = foldl effect (table_keys tb) ops.
Proof.
  intros Hh Hok Hn Hops. revert n nm f l tb self Hh Hok Hn.
  induction Hops as [|op ops Hop _ IH]; intros n nm f l tb self Hh Hok Hn Hkn seen Hsaw Hks Hkt ->; cbn [length foldl operate_all] in *.
  { by exists nm, [], self, []. }
  apply Forall_cons in Hkn as [Hkop Hkn].
  destruct (operate_exact n nm i f l tb op) as (nm1 & f1 & l1 & tb1 & Ho & Hh1 & Hok1 & Hk1); try done; [lia|].
  assert (set_Forall (known dr) (table_keys tb1)) as Hkt1 by by (rewrite Hk1; apply effect_known).
  destruct (receive_exact (S n) self (table_keys tb) l1 tb1) as (self1 & ev1 & Hrec & Hsaw1 & Hobs1); try done; [by destruct Hh1|lia|].
  destruct (IH (S n) nm1 f1 l1 tb1 self1) with (seen := table_keys tb1) as (nm2 & outs & self2 & ev2 & Hall & Hrec2 & Hobs2); try done; [lia|].
  eexists nm2, _, self2, (ev1 ++ ev2). split_and!.
  - rewrite Ho. cbn [mbind option_bind]. rewrite Hall. reflexivity.
  - rewrite receive_app, Hrec. cbn [mbind option_bind]. by rewrite Hrec2.
  - by rewrite foldl_app, Hobs1, Hobs2, Hk1.
Qed.

Lemma nothing_held nm : FeatureGetFunction nm t ≠ None → FeatureGetData nm t = use_cases_data None →
  ∃ i f, holds nm i f None [] ∧ table_ok 0 [].
Proof.
  unfold FeatureGetData. destruct (FeatureGetFunction nm t) as [[i f]|] eqn:Hf; [|done]. intros _ Hd.
  exists i, f. split; [by constructor|]. constructor; [done|apply NoDup_nil_2|done].
Qed.

(** C20: the entities of a device keep a set of use cases.  In any sequence, of at most as many operations as a list has room for, of adding
    or updating the support of a use case, setting its availability, removing one use case, and removing all of an entity, on data that was
    empty at first, no operation is undefined, and afterwards an entity has a use case exactly if it is in the set that these operations make
    of the empty one, where removing one use case takes all that the entity supports as the same actor.  Entities have an address, the
    supports are values of their types, each removal names one use case, not several ([unwritten_items], [nothing_removed]), and allocating
    nothing does not give NULL ([last_not_removed]). *)
Theorem entities_keep_use_cases (nm : FeatureData) (ops : list Operation) :
  FeatureGetFunction nm t ≠ None → FeatureGetData nm t = use_cases_data None →
  (Z.of_nat (length ops) <= kMaxElementsNum)%Z → Forall operation_ok ops →
  ∃ nm' outs, operate_all nm ops = Some (nm', outs) ∧
    ∀ self f, ea_entity self ≠ None →
      HasUseCaseSupport self nm' f = Some (bool_decide ((self, uf_actor f, uf_use_case_name_id f) ∈ foldl effect ∅ ops)).
Proof.
  intros Hfn Hd Hn Hops. destruct (nothing_held nm Hfn Hd) as (i & f & Hh & Hok).
  destruct (operate_all_exact 0 nm i f None [] ops) as (nm' & f' & l' & tb' & outs & Hall & Hh' & Hok' & Hk); try done.
  exists nm', outs. split; [done|]. intros self uf He. rewrite (has_exact _ _ _ _ _ _ _ _ Hh' Hok' He), Hk. done.
Qed.

End sync.

(** ** Use cases of a device with two entities

    The witnesses of [UseCaseSync], and what goes wrong: removing several use cases, data without an address,
    memory of size zero. *)

Definition here : string := "d:_n:demo_1".
Definition entity (id : Z) : EntityAddressType := mkEntityAddress (Some here) (Some [Some id]).

(** Entity 1 consumes and can be limited, entity 2 is measured. *)
Definition kUseCaseActorTypeControllableSystem : Z := 5.
Definition kUseCaseActorTypeMonitoredUnit : Z := 18.
Definition kUseCaseNameTypeLimitationOfPowerConsumption : Z := 14.
Definition kUseCaseNameTypeLimitationOfPowerProduction : Z := 15.
Definition kUseCaseNameTypeMonitoringOfPowerConsumption : Z := 25.

Definition node_management : FeatureData :=
  mkFeatureData 14 kRoleTypeSpecial [mkFunction kFunctionTypeNodeManagementUseCaseData (Struct [Null]) None] 0.
Definition remote_management : NodeManagementRemote := mkNodeManagementRemote node_management Null.
Definition remote_device : DeviceRemote :=
  mkDeviceRemote "abcd" (Some here) [mkEntity (entity 1) []; mkEntity (entity 2) []].

Definition add (id actor name : Z) : Operation := OpAdd (entity id) actor name (Some "1.0.0") (Some "release") true [1; 2; 3]%Z.

Definition changes : list Operation :=
  [ add 1 kUseCaseActorTypeControllableSystem kUseCaseNameTypeLimitationOfPowerConsumption;
    add 2 kUseCaseActorTypeMonitoredUnit kUseCaseNameTypeMonitoringOfPowerConsumption;
    add 1 kUseCaseActorTypeControllableSystem kUseCaseNameTypeLimitationOfPowerProduction;
    OpSetAvailability (entity 2) (mkUseCaseFilter kUseCaseActorTypeMonitoredUnit kUseCaseNameTypeMonitoringOfPowerConsumption) false;
    OpRemove (entity 1) (mkUseCaseFilter kUseCaseActorTypeControllableSystem kUseCaseNameTypeLimitationOfPowerProduction) ].

Section demo.
#[local] Instance malloc_zero_is_not_null : Allocator := true.
#[local] Instance all_is_sent : SpineEnv := { sent := λ _, (kEebusErrorOk, 1%Z); has_sender := true }.

Lemma changes_ok : Forall operation_ok changes.
Proof. repeat constructor; done || by vm_compute. Qed.

Lemma changes_known : Forall (operation_known remote_device) changes.
Proof. repeat constructor; by eexists. Qed.

Lemma entities_keep_use_cases_witness :
  ∃ nm' outs, operate_all node_management changes = Some (nm', outs) ∧
    ∀ self f, ea_entity self ≠ None →
      HasUseCaseSupport self nm' f = Some (bool_decide ((self, uf_actor f, uf_use_case_name_id f) ∈ foldl effect ∅ changes)).
Proof. apply (entities_keep_use_cases eq_refl); [done|done|done|apply changes_ok]. Defined.


(** ** Removing one use case of an entity *)

Definition table (l : list (Z * list Z)) : NodeManagementUseCaseDataType :=
  Some ((λ '(id, ns), entry ((entity id, kUseCaseActorTypeControllableSystem), (λ n, new_support n None None true []) <$> ns)) <$> l).

(** It takes the others of the same entity and actor. *)
Example neighbours_removed :
  NodeManagementUseCaseDataRemoveWithFilters (table [(1, [14; 15]); (2, [14])]%Z) (entity_feature_address (entity 1))
    [mkUseCaseFilter kUseCaseActorTypeControllableSystem 15] = Some (table [(2, [14])]%Z).
Proof. by vm_compute. Qed.

(** Two filters: of three entries, one is to go; the new array is of four, of which two are never written. *)
Example unwritten_items :
  NodeManagementUseCaseDataRemoveWithFilters (table [(1, [14]); (2, [14]); (3, [14])]%Z) (entity_feature_address (entity 1))
    [mkUseCaseFilter kUseCaseActorTypeControllableSystem 14; mkUseCaseFilter kUseCaseActorTypeControllableSystem 15] = None.
Proof. by vm_compute. Qed.

(** And nothing is removed where the numbers happen to agree. *)
Example nothing_removed :
  NodeManagementUseCaseDataRemoveWithFilters (table [(1, [14]); (2, [14])]%Z) (entity_feature_address (entity 1))
    [mkUseCaseFilter kUseCaseActorTypeControllableSystem 14; mkUseCaseFilter kUseCaseActorTypeControllableSystem 15] = Some (table [(1, [14]); (2, [14])]%Z).
Proof. by vm_compute. Qed.

(** ** Data of a peer without an address

    It is passed over when it comes, and dereferenced when the next comes. *)
Definition no_address : Data :=
  use_cases_data (Some [Some (mkUseCaseInformation None (Some kUseCaseActorTypeControllableSystem) (Some [Some (new_support 14 None None true [])]))]).
Definition with_address : Data := use_cases_data (table [(1, [14])]%Z).

Definition after_no_address : NodeManagementRemote :=
  match receive_all remote_device node_management remote_management [notification no_address] with Some (self, _) => self | None => remote_management end.

Theorem missing_address_is_undefined :
  ∃ self, receive_all remote_device node_management remote_management [notification no_address] = Some (self, [DeviceUpdated no_address; UseCaseDataReceived no_address]) ∧
    receive_all remote_device node_management self [notification with_address] = None.
Proof. exists after_no_address. split; vm_compute; reflexivity. Qed.
End demo.

(** ** Memory of size zero

    Where [malloc] gives NULL for it, the last use case is not removed. *)
Section no_memory_of_size_zero.
#[local] Instance malloc_zero_is_null : Allocator := false.

Example last_not_removed :
  NodeManagementUseCaseDataRemoveWithAddress (table [(1, [14])]%Z) (entity_feature_address (entity 1)) = Some (table [(1, [14])]%Z).
Proof. by vm_compute. Qed.
End no_memory_of_size_zero.
