(* ===== verification/DiscoveryFacts.v ===== *)
(** * What is announced is what is discovered

    The announcement of a device, and the tree another device makes of it: entity by entity, feature by feature,
    function by function. *)

From S2P Require Import Prelude FeatureFunctions Duration DateTime EebusData EebusDataWrite EebusDataFacts EebusDataList SpineTables SpineFunction Timer Vector Pool Spine LinkManager Pending Sender Datagram FeatureData SpineTablesFacts UseCase UseCaseFacts UseCaseTable Discovery.

Local Open Scope list_scope.

(** ** The encoding of the announcement *)

Lemma data_info_information {A} (f : A → Data) g x : (∀ a, g (f a) = Some a) → (∀ a, f a ≠ Null) → data_info g (information f x) = Some x.
Proof. intros. by apply read_opt_opt. Qed.

Lemma data_device_description_data d : data_device_description (device_description_data d) = Some d.
Proof.
  destruct d as [a t s]. unfold device_description_data, data_device_description.
  cbn [dd_device_address dd_device_type dd_network_feature_set].
  rewrite (read_opt_opt device_address_data), !(read_opt_opt num_data); try done. intros x. by apply read_opt_opt.
Qed.

Lemma data_entity_address_data a : data_entity_address (entity_address_data a) = Some a.
Proof.
  destruct a as [d e]. unfold entity_address_data, data_entity_address. cbn [ea_device ea_entity].
  rewrite !read_opt_opt; [done|..]; try done. intros l. apply read_items. intros x. by apply read_opt_opt.
Qed.

Lemma data_entity_description_data d : data_entity_description (entity_description_data d) = Some d.
Proof.
  destruct d as [a t s]. unfold entity_description_data, data_entity_description.
  cbn [ed_entity_address ed_entity_type ed_description].
  rewrite (read_opt_opt entity_address_data), (read_opt_opt num_data), (read_opt_opt str_data); try done. apply data_entity_address_data.
Qed.

Lemma data_operations_data ops : data_operations (operations_data ops) = Some ops.
Proof. by destruct ops as [[[]|] [[]|]]. Qed.

Lemma data_property_data p : data_property (property_data p) = Some p.
Proof.
  destruct p as [f o]. unfold property_data, data_property. cbn [fst snd].
  rewrite (read_opt_opt operations_data data_operations) by (done || apply data_operations_data).
  destruct f as [f|]; simpl; by rewrite ?Nat2Z.id.
Qed.

Lemma data_feature_description_data d : data_feature_description (feature_description_data d) = Some d.
Proof.
  destruct d as [a t r f s m]. unfold feature_description_data, data_feature_description.
  cbn [fe_feature_address fe_feature_type fe_role fe_supported_function fe_description fe_max_response_delay].
  rewrite (read_opt_opt address_data), (read_opt_opt num_data), (read_opt_opt (λ r, num_data (role_value r))),
    (read_opt_opt (array_data property_data)), (read_opt_opt str_data), (read_opt_opt duration_data); try done;
    first [by intros []|apply data_address_data|intros l; by apply data_array_data; [apply data_property_data|]].
Qed.

Lemma data_discovery_data d : data_discovery (discovery_data d) = Some d.
Proof.
  destruct d as [v di ei fi]. unfold discovery_data, data_discovery.
  cbn [specification_version_list device_information entity_information feature_information].
  rewrite (read_opt_opt (information (array_data str_data))), (read_opt_opt (information device_description_data)),
    (read_opt_opt (array_data (information entity_description_data))), (read_opt_opt (array_data (information feature_description_data)));
    try done; intros x.
  - apply data_array_data; [|done]. intros y. by apply data_info_information; [apply data_feature_description_data|].
  - apply data_array_data; [|done]. intros y. by apply data_info_information; [apply data_entity_description_data|].
  - by apply data_info_information; [apply data_device_description_data|].
  - apply data_info_information; [|done]. intros y. by apply data_array_data.
Qed.

(** ** Functions *)

(** What is known of a function on the other side. *)
Definition function_view (f : Function) : nat * option (option bool * option bool) := (type f, OperationsGetInformation <$> operations f).

Definition properties (fs : list Function) : list FunctionProperty :=
  (λ '(t, ops), (Some t, Some ops)) <$> omap (λ f, ops ← operations f; Some (type f, OperationsGetInformation ops)) fs.

Lemma set_operations_view g r rp w wp : operations g = None →
  function_view (SetOperations r rp w wp g) = (type g, Some (if r then Some rp else None, if w then Some wp else None)).
Proof. intros Hg. unfold SetOperations. by rewrite Hg. Qed.

Lemma SetRemoteOperations_at fd r1 g r2 ops : functions fd = r1 ++ g :: r2 → type g ∉ (type <$> r1) → operations g = None →
  ∃ g', type g' = type g ∧ function_view g' = (type g, Some ops) ∧
    SetRemoteOperations fd (type g) ops = with_functions (r1 ++ g' :: r2) fd.
Proof.
  intros Hfs Hnew Hg. unfold SetRemoteOperations, FeatureGetFunction.
  assert (list_find (λ f, type f = type g) (functions fd) = Some (length r1, g)) as ->.
  { rewrite Hfs. apply list_find_Some. split_and!; [by rewrite lookup_app_r, Nat.sub_diag by lia|done|].
    intros j f Hj Hlt Ht. rewrite lookup_app_l in Hj by lia. apply Hnew. rewrite <- Ht. apply list_elem_of_fmap_2.
    by eapply list_elem_of_lookup_2. }
  eexists. split_and!; [| |unfold set_function; rewrite Hfs, <- (Nat.add_0_r (length r1)), insert_app_r; done].
  - unfold SetOperations. by rewrite Hg.
  - rewrite set_operations_view by done. destruct ops as [[] []]; done.
Qed.

(** The operations of the functions [l] reach the same functions, [r2], of the other side. *)
Lemma set_operations_all l : ∀ fd r1 r2, functions fd = r1 ++ r2 → type <$> r2 = type <$> l → Forall (λ g, operations g = None) r2 →
  NoDup (type <$> (r1 ++ r2)) →
  ∃ r2', FeatureRemoteSetFunctionOperations fd (properties l) = with_functions (r1 ++ r2') fd ∧ function_view <$> r2' = function_view <$> l.
Proof.
  induction l as [|f l IH]; intros fd r1 r2 Hfs Ht Hn Hnd.
  { destruct r2; [|done]. exists []. split; [|done]. rewrite app_nil_r in *. simpl. destruct fd. unfold with_functions. simpl in *. by subst. }
  destruct r2 as [|g r2]; [done|]. injection Ht as Htg Ht. apply Forall_cons in Hn as [Hg Hn].
  assert (type g ∉ (type <$> r1)) as Hnew.
  { rewrite fmap_app in Hnd. apply NoDup_app in Hnd as (_ & Hd & _). intros Hin. apply (Hd _ Hin). apply list_elem_of_here. }
  unfold properties in *. cbn [omap list_omap]. destruct (operations f) as [ops|] eqn:Hops; cbn [mbind option_bind fmap list_fmap].
  - cbn [FeatureRemoteSetFunctionOperations]. rewrite <- Htg.
    destruct (SetRemoteOperations_at fd r1 g r2 (OperationsGetInformation ops) Hfs Hnew Hg) as (g' & Htg' & Hv & ->).
    destruct (IH (with_functions (r1 ++ g' :: r2) fd) (r1 ++ [g']) r2) as (r2' & -> & Hr2'); try done.
    { simpl. by rewrite <- app_assoc. }
    { rewrite <- app_assoc. simpl. rewrite fmap_app in *. simpl in *. by rewrite Htg'. }
    exists (g' :: r2'). split; [by rewrite <- app_assoc|]. rewrite !fmap_cons, Hr2', Hv. f_equal.
    unfold function_view. by rewrite Hops, Htg.
  - destruct (IH fd (r1 ++ [g]) r2) as (r2' & -> & Hr2'); try done.
    { by rewrite <- app_assoc. } { by rewrite <- app_assoc. }
    exists (g :: r2'). split; [by rewrite <- app_assoc|]. rewrite !fmap_cons, Hr2'. f_equal.
    unfold function_view. by rewrite Hops, Hg, Htg.
Qed.

(** The tables know every function of every feature, once. *)
Lemma feature_functions_known ft : ∃ fs, mapM FunctionCreate (default [] (GetFeatureFunctions ft)) = Some fs ∧
  type <$> fs = default [] (GetFeatureFunctions ft) ∧ Forall (λ g, operations g = None) fs ∧ NoDup (type <$> fs).
Proof.
  assert (∀ l, forallb (λ t, match FunctionCreate t with Some _ => true | None => false end) l = true → NoDup l →
    ∃ fs, mapM FunctionCreate l = Some fs ∧ type <$> fs = l ∧ Forall (λ g, operations g = None) fs ∧ NoDup (type <$> fs)) as Hall.
  { intros l Hl Hnd. assert (∃ fs, mapM FunctionCreate l = Some fs ∧ type <$> fs = l ∧ Forall (λ g, operations g = None) fs) as (fs & Hfs & Ht & Hn).
    - clear Hnd. induction l as [|t l IH]; [by exists []|]. cbn [forallb] in Hl. apply andb_true_iff in Hl as [Ht Hl].
      destruct (IH Hl) as (fs & Hfs & Hts & Hn). cbn [mapM]. destruct (FunctionCreate t) as [g|] eqn:Hg; [|done].
      cbn [mbind option_bind]. rewrite Hfs. exists (g :: fs). unfold FunctionCreate in Hg.
      destruct (ModelGetDataCfg t); [|done]. injection Hg as <-. split_and!; [done|by rewrite fmap_cons, Hts|by constructor].
    - exists fs. split_and!; try done. by rewrite Ht. }
  apply Hall; unfold GetFeatureFunctions; destruct (find _ feature_functions_table) as [[t l]|] eqn:Hf; try done; try apply NoDup_nil_2;
    apply find_some in Hf as [Hin _]; simpl.
  - assert (forallb (λ r, forallb (λ t, match FunctionCreate t with Some _ => true | None => false end) (snd r)) feature_functions_table = true) as H
      by by vm_compute.
    rewrite forallb_forall in H. by apply (H (t, l)).
  - assert (forallb (λ r, bool_decide (NoDup (snd r))) feature_functions_table = true) as H by by vm_compute.
    rewrite forallb_forall in H. apply (bool_decide_unpack _). apply Is_true_true. by apply (H (t, l)).
Qed.
