(* ===== verification/DiscoveryTree.v ===== *)
(** * What is announced is what is discovered

    A device that reads the announcement of another makes of it the same tree: the same entities in the
    same order, each with the same features, each with the same functions and operations. *)

From S2P Require Import Prelude FeatureFunctions Duration DateTime EebusData EebusDataWrite EebusDataFacts EebusDataList SpineTables SpineFunction Timer Vector Pool Spine LinkManager Pending Sender Datagram FeatureData SpineTablesFacts UseCase UseCaseFacts UseCaseTable Discovery DiscoveryFacts.

Local Open Scope list_scope.

Section trees.
Context `{malloc : Allocator} {E : SpineEnv}.

(** ** The announcement of a device *)

Definition announced_device (ld : LocalDevice) : DeviceDescription :=
  mkDeviceDescription (Some (ld_address ld)) (ld_type ld) (ld_feature_set ld).
Definition announced_entity (e : EntityNode) : EntityDescription :=
  mkEntityDescription (Some (mkEntityAddress None (ea_entity (en_address e)))) (Some (en_type e)) None.
Definition announced_feature_with (fs : ArrayOf FunctionProperty) (f : FeatureNode) : FeatureDescription :=
  mkFeatureDescription (Some (mkFeatureAddress None (fa_entity (fn_address f)) (fa_feature (fn_address f))))
    (Some (fd_type (fn_data f))) (Some (fd_role (fn_data f))) fs (fn_description f) None.
Definition announced_feature (f : FeatureNode) : FeatureDescription := announced_feature_with (supported_functions (fn_data f)) f.

Definition all_features (ld : LocalDevice) : list FeatureNode := ld_entities ld ≫= en_features.
Definition items {A B} (f : A → B) (l : list A) : ArrayOf (option B) := Some ((λ x, Some (Some (f x))) <$> l).
Definition announced (ld : LocalDevice) : DiscoveryData :=
  mkDiscoveryData (Some (Some [Some specification_version])) (Some (Some (announced_device ld)))
    (items announced_entity (ld_entities ld)) (items announced_feature (all_features ld)).

(** The values of the device are in the ranges of their types. *)
Definition is_data (cfg : list EebusDataCfg) (d : Data) : Prop := typed (Sequence "" 0 cfg) d = true ∧ fits d = true.

Record device_typed (ld : LocalDevice) : Prop := {
  dt_device : is_data network_management_device_description_data_cfg (device_description_data (announced_device ld));
  dt_entities : Forall (λ e, is_data network_management_entity_description_data_cfg (entity_description_data (announced_entity e))) (ld_entities ld);
  dt_features : Forall (λ f, is_data network_management_feature_description_data_cfg (feature_description_data (announced_feature_with None f)))
    (all_features ld);
}.

Lemma copied_exact {A} name cfg (enc : A → Data) dec x : forallb cfg_ok cfg = true → (∀ a, dec (enc a) = Some a) → (∀ a, enc a ≠ Null) →
  is_data cfg (enc x) → copied [EEBUS_DATA_SEQUENCE name cfg] enc dec x = Some (Some (Some x)).
Proof.
  intros Hok Hd Hn [Ht Hf]. apply copy_model.
  - cbn [cfg_ok forallb EEBUS_DATA_SEQUENCE]. by rewrite Hok.
  - done.
  - cbn [information opt from_option typed forall2b EEBUS_DATA_SEQUENCE]. rewrite andb_true_r. destruct (enc x); done.
  - cbn [information opt from_option fits forallb]. by rewrite Hf.
  - by apply data_info_information.
Qed.

Lemma create_all_exact {A B} (create : A → option (option B)) (g : A → B) l : Forall (λ x, create x = Some (Some (g x))) l →
  create_all create l = Some (Some ((λ x, Some (g x)) <$> l)).
Proof. induction 1 as [|x l Hx _ IH]; [done|]. cbn [create_all]. rewrite Hx. cbn [mbind option_bind]. by rewrite IH. Qed.

(** A device answers with its announcement. *)
Lemma read_exact ld msg : device_typed ld → ld_entities ld ≠ [] → all_features ld ≠ [] →
  ProcessReadDetailedDiscoveryData ld msg =
    Some (fst (sent (SentReply (request_header msg) (discovery_cmd (announced ld)))), [SentReply (request_header msg) (discovery_cmd (announced ld))]).
Proof.
  intros [Hd He Hf] Hne Hnf. unfold ProcessReadDetailedDiscoveryData, NodeManagementDetailedDiscoveryDataCreate.
  rewrite copy_model; [|by vm_compute|done|by vm_compute|by vm_compute; case malloc|apply data_discovery_data]. cbn [mbind option_bind].
  assert (∀ {A} (l : list A), l ≠ [] → allocates (length l) = true) as Hall.
  { intros A [|? l] ?; [done|]. by apply orb_true_r. }
  unfold AddInfo, CreateDeviceInformation, NodeManagementDetailedDiscoveryDeviceInformationCreate.
  setoid_rewrite (copied_exact "description" network_management_device_description_data_cfg); [|by vm_compute|apply data_device_description_data|done|done].
  cbn [mbind option_bind]. rewrite (Hall _ _ Hne). cbn [negb].
  rewrite (create_all_exact _ (λ e, Some (announced_entity e))).
  2:{ eapply Forall_impl; [exact He|]. intros e Hte. unfold CreateEntityInformation, NodeManagementDetailedDiscoveryEntityInformationCreate.
      by apply (copied_exact "description"); [by vm_compute|apply data_entity_description_data| |]. }
  cbn [mbind option_bind]. change (ld_entities ld ≫= en_features) with (all_features ld). rewrite (Hall _ _ Hnf). cbn [negb].
  rewrite (create_all_exact _ (λ f, Some (announced_feature f))); [done|].
  eapply Forall_impl; [exact Hf|]. intros f Htf. unfold FeatureLocalCreateInformation, NodeManagementDetailedDiscoveryFeatureInformationCreate.
  setoid_rewrite (copied_exact "description" network_management_feature_description_data_cfg); [done|by vm_compute|apply data_feature_description_data|done|done].
Qed.

(** ** One feature of another device *)

(** What both sides know of a feature, and of an entity. *)
Definition feature_view (f : FeatureNode) : FeatureAddressType * option string * Z * RoleType * list (nat * option (option bool * option bool)) :=
  (fn_address f, fn_description f, fd_type (fn_data f), fd_role (fn_data f), function_view <$> functions (fn_data f)).
Definition entity_view (e : EntityNode) := (en_address e, en_type e, feature_view <$> en_features e).

Definition is_node_management (f : FeatureNode) : bool :=
  bool_decide (fd_type (fn_data f) = kFeatureTypeTypeNodeManagement) && bool_decide (fd_role (fn_data f) = kRoleTypeSpecial).

(** A feature of the entity [ids], with the functions of its type. *)
Definition feature_ok (dev : string) (ids : list Z) (f : FeatureNode) : Prop :=
  (∃ id, fn_address f = mkFeatureAddress (Some dev) (Some (Some <$> ids)) (Some id)) ∧
  type <$> functions (fn_data f) = default [] (GetFeatureFunctions (fd_type (fn_data f))).

Definition with_objects (nm next : nat) (self : RemoteDevice) : RemoteDevice :=
  mkRemoteDevice (rd_address self) (rd_type self) (rd_feature_set self) (rd_ski self) (rd_entities self) nm next.
Definition with_address (a : option string) (self : RemoteDevice) : RemoteDevice :=
  mkRemoteDevice a (rd_type self) (rd_feature_set self) (rd_ski self) (rd_entities self) (rd_node_management self) (rd_next_id self).

Lemma supported_items fd : mapM id (default [] (supported_functions fd)) = Some (properties (functions fd)).
Proof.
  unfold supported_functions, properties, AddSupportedFunctions. destruct (omap _ (functions fd)) as [|p l]; [done|].
  cbn [default from_option]. rewrite <- (mapM_fmap_Some id Some); [|done].
  f_equal. rewrite <- list_fmap_compose. apply list_fmap_ext. by intros ? [].
Qed.

Lemma feature_address dev ids i : FeatureAddressCreate (EntityAddressCreate (Some dev) ids) i = Some (mkFeatureAddress (Some dev) (Some (Some <$> ids)) (Some i)).
Proof.
  unfold FeatureAddressCreate. change (default [] (ea_entity (EntityAddressCreate (Some dev) ids))) with (Some <$> ids).
  by rewrite (mapM_fmap_Some id Some).
Qed.

Lemma feature_created prev self dev ids entity id t role : en_address entity = EntityAddressCreate (Some dev) ids →
  ∃ fs, mapM FunctionCreate (default [] (GetFeatureFunctions t)) = Some fs ∧
    feature_create prev self id entity t role =
      Some (new_object self, mkFeatureNode (mkFeatureAddress (Some dev) (Some (Some <$> ids)) (Some id)) None (mkFeatureData t role fs 0)
        kDefaultMaxResponseDelayMs prev (rd_next_id self)).
Proof.
  intros He. destruct (feature_functions_known t) as (fs & Hfs & _). exists fs. split; [done|].
  unfold feature_create, FeatureConstruct. by rewrite He, feature_address, Hfs.
Qed.

Lemma create_with_info self dev ids entity f : en_address entity = EntityAddressCreate (Some dev) ids → feature_ok dev ids f →
  ∃ nm next g, FeatureRemoteCreateWithInfo self entity (announced_feature f) = Some (with_objects nm next self, Some g) ∧
    feature_view g = feature_view f ∧ nm = if is_node_management f then fn_id g else rd_node_management self.
Proof.
  intros He [[id Ha] Hfs]. unfold FeatureRemoteCreateWithInfo, announced_feature, announced_feature_with.
  cbn [fe_feature_address fe_feature_type fe_role fe_description fe_max_response_delay fe_supported_function mbind option_bind]. rewrite Ha. cbn [fa_feature].
  set (t := fd_type (fn_data f)) in *. set (role := fd_role (fn_data f)).
  destruct (feature_functions_known t) as (gs & Hgs & Htypes & Hnone & Hnd).
  set (g prev := mkFeatureNode (mkFeatureAddress (Some dev) (Some (Some <$> ids)) (Some id)) None (mkFeatureData t role gs 0)
        kDefaultMaxResponseDelayMs prev (rd_next_id self)).
  assert (∃ nm next prev, (if is_node_management f then NodeManagementRemoteCreate self id entity else FeatureRemoteCreate self id entity t role)
      = Some (with_objects nm next self, g prev) ∧ nm = if is_node_management f then rd_next_id self else rd_node_management self) as (nm & next & prev & Hc & ->).
  { unfold NodeManagementRemoteCreate, FeatureRemoteCreate.
    destruct (feature_created None self dev ids entity id t role He) as (gs' & Hgs' & ->).
    rewrite Hgs in Hgs'. injection Hgs' as <-. destruct (is_node_management f) eqn:Hnm.
    - apply andb_true_iff in Hnm as [Ht%bool_decide_eq_true Hr%bool_decide_eq_true].
      destruct (feature_created (Some Null) self dev ids entity id t role He) as (gs' & Hgs' & Hc).
      rewrite Hgs in Hgs'. injection Hgs' as <-. subst t role. rewrite Ht, Hr in Hc. rewrite Hc. cbn [mbind option_bind].
      eexists _, _, (Some Null). split; [|done]. unfold g. by rewrite Ht, Hr.
    - by eexists _, _, None. }
  change (bool_decide (t = _) && bool_decide (role = _)) with (is_node_management f). rewrite Hc. cbn [mbind option_bind]. rewrite supported_items. cbn [mbind option_bind].
  destruct (set_operations_all (functions (fn_data f)) (mkFeatureData t role gs 0) [] gs) as (gs' & Hset & Hview); try done; [congruence|].
  eexists _, _, _. split; [done|]. split; [|by destruct (is_node_management f)].
  unfold feature_view. cbn [with_data FeatureSetDescription fn_address fn_description fn_data fn_id g]. rewrite Hset.
  by rewrite Ha, <- Hview.
Qed.
(** ** The features of an entity *)

Lemma match_ids e ids ids' : ea_entity e = Some (Some <$> ids) → ids ≠ [] → ids' ≠ [] →
  EntityAddressMatchIds (Some e) (Some (Some <$> ids')) = bool_decide (ids' = ids).
Proof.
  intros He Hi Hi'. unfold EntityAddressMatchIds. rewrite He.
  destruct ids as [|i ids], ids' as [|i' ids']; try done.
  rewrite !bool_decide_false by done. cbn [orb]. rewrite EntityAddressCompare_eq. apply bool_decide_ext. split.
  - intros [= -> Heq]. f_equal. symmetry. by apply (inj (fmap Some)).
  - by intros ->.
Qed.

Definition in_entity (ids : list Z) (f : FeatureNode) : Prop := fa_entity (fn_address f) = Some (Some <$> ids).
#[export] Instance in_entity_dec ids f : Decision (in_entity ids f).
Proof. unfold in_entity. apply _. Defined.

(** The pointer to the node management is to a feature just made, or there was none to be made. *)
Definition managed (self : RemoteDevice) (nm : nat) (gs fs : list FeatureNode) : Prop :=
  nm ∈ fn_id <$> gs ∨ nm = rd_node_management self ∧ Forall (λ f, is_node_management f = false) fs.

Lemma add_features_exact dev ids fs : ids ≠ [] → Forall (λ f, ∃ ids', ids' ≠ [] ∧ feature_ok dev ids' f) fs →
  ∀ self entity, en_address entity = EntityAddressCreate (Some dev) ids →
  ∃ nm next gs, EntityRemoteAddFeaturesWithInfo self entity ((λ f, Some (Some (announced_feature f))) <$> fs) =
      Some (with_objects nm next self, with_features (en_features entity ++ gs) entity) ∧
    feature_view <$> gs = feature_view <$> filter (in_entity ids) fs ∧ managed self nm gs (filter (in_entity ids) fs).
Proof.
  intros Hids. induction 1 as [|f fs (ids' & Hids' & Hf) _ IH]; intros self entity He.
  { exists (rd_node_management self), (rd_next_id self), []. split_and!; [|done|by right]. rewrite app_nil_r. by destruct self, entity. }
  cbn [fmap list_fmap EntityRemoteAddFeaturesWithInfo mbind option_bind]. destruct Hf as [[i Ha] Hfs].
  assert (EntityIdsMatch (Some (en_address entity)) (fe_feature_address (announced_feature f)) = bool_decide (ids' = ids)) as ->.
  { cbn [announced_feature announced_feature_with fe_feature_address EntityIdsMatch fa_entity]. rewrite Ha. apply match_ids; try done. by rewrite He. }
  rewrite filter_cons. case_bool_decide as Heq.
  - subst ids'. rewrite decide_True by by unfold in_entity; rewrite Ha.
    destruct (create_with_info self dev ids entity f He) as (nm1 & next1 & g & -> & Hv & Hnm); [by split; [exists i|]|].
    cbn [mbind option_bind]. destruct (IH (with_objects nm1 next1 self) (EntityRemoteAddFeature g entity) He) as (nm & next & gs & -> & Hgs & Hm).
    exists nm, next, (g :: gs). split_and!.
    + f_equal. f_equal. unfold EntityRemoteAddFeature, with_features. cbn. by rewrite <- app_assoc.
    + by rewrite !fmap_cons, Hv, Hgs.
    + destruct Hm as [Hm|[-> Hm]]; [left; by right|]. cbn [rd_node_management with_objects]. subst nm1.
      destruct (is_node_management f) eqn:Hf; [left; by left|]. right. split; [done|]. by constructor.
  - rewrite decide_False. 2:{ unfold in_entity. rewrite Ha. intros [= Hf]. apply Heq. by apply (inj (fmap Some)). }
    apply IH, He.
Qed.

(** ** The description of an entity *)

(** The device the entity is of is the one announced, or is not known yet. *)
Definition of_device (dev : string) (ids : list Z) (e : EntityNode) : Prop :=
  en_address e = EntityAddressCreate (Some dev) ids ∨ en_address e = EntityAddressCreate None ids.

(** Deleting its features publishes nothing. *)
Definition no_use_cases (e : EntityNode) : Prop := ∀ dr, delete_features dr (en_features e) = Some [].

Lemma refresh_exact dev ids ld self d i e : ld_address ld = Some dev → ids ≠ [] →
  Forall (λ f, ∃ ids', ids' ≠ [] ∧ feature_ok dev ids' f) (all_features ld) →
  rd_entities self !! i = Some e → of_device dev ids e → no_use_cases e → ed_description d = None →
  ∃ nm next e', refresh_entity self (announced ld) d i = Some (with_objects nm next (with_entity i e' self), []) ∧
    entity_view e' = (EntityAddressCreate (Some dev) ids, en_type e, feature_view <$> filter (in_entity ids) (all_features ld)) ∧
    managed self nm (en_features e') (filter (in_entity ids) (all_features ld)).
Proof.
  intros Hdev Hids Hall Hi He Hno Hd. unfold refresh_entity. rewrite Hi. cbn [mbind option_bind announced device_information DeviceInfoGetDeviceAddress announced_device dd_device_address].
  rewrite Hdev, Hd.
  set (e1 := if _ : bool then _ else _).
  assert (e1 = mkEntityNode (EntityAddressCreate (Some dev) ids) (en_type e) (en_description e) (en_next_feature_id e) (en_features e)) as ->.
  { subst e1. unfold UpdateDeviceAddress. destruct e as [a t s n fs]. destruct He as [He|He]; simpl in He |- *; subst a; cbn [EntityAddressCreate ea_device ea_entity].
    - by case_bool_decide.
    - done. }
  unfold RemoveAllFeatures. cbn [EntitySetDescription en_features]. rewrite Hno. cbn [mbind option_bind feature_information items default from_option].
  destruct (add_features_exact dev ids (all_features ld) Hids Hall self
     (mkEntityNode (EntityAddressCreate (Some dev) ids) (en_type e) None (en_next_feature_id e) [])) as (nm & next & gs & Hadd & Hgs & Hm); [done|].
  setoid_rewrite Hadd. cbn [mbind option_bind].
  exists nm, next, (with_features gs (mkEntityNode (EntityAddressCreate (Some dev) ids) (en_type e) None (en_next_feature_id e) [])).
  split_and!; [done|by unfold entity_view; cbn; rewrite Hgs|done].
Qed.
(** ** The tree *)

Definition entity_ok (dev : string) (e : EntityNode) : Prop :=
  ∃ ids, ids ≠ [] ∧ en_address e = EntityAddressCreate (Some dev) ids ∧ Forall (feature_ok dev ids) (en_features e).

(** Entities are told apart by their ids; the first is the one with the node management. *)
Record local_ok (dev : string) (ld : LocalDevice) : Prop := {
  lo_address : ld_address ld = Some dev;
  lo_entities : Forall (entity_ok dev) (ld_entities ld);
  lo_distinct : NoDup (en_address <$> ld_entities ld);
  lo_first : ∃ e es f fs, ld_entities ld = e :: es ∧ en_address e = EntityAddressCreate (Some dev) [DEVICE_INFORMATION_ENTITY_ID] ∧
    en_type e = kEntityTypeTypeDeviceInformation ∧
    en_features e = f :: fs ∧ is_node_management f = true ∧ fa_feature (fn_address f) = Some 0%Z;
}.

Lemma filter_whole {A} (P : A → Prop) `{∀ x, Decision (P x)} l : Forall P l → filter P l = l.
Proof. induction 1 as [|x l Hx _ IH]; [done|]. by rewrite filter_cons_True, IH. Qed.
Lemma filter_nothing {A} (P : A → Prop) `{∀ x, Decision (P x)} l : Forall (λ x, ¬ P x) l → filter P l = [].
Proof. induction 1 as [|x l Hx _ IH]; [done|]. by rewrite filter_cons_False. Qed.

Lemma other_entity dev ids e : entity_ok dev e → en_address e ≠ EntityAddressCreate (Some dev) ids → filter (in_entity ids) (en_features e) = [].
Proof.
  intros (ids' & _ & He & Hfs) Hne. apply filter_nothing. eapply Forall_impl; [exact Hfs|]. intros f [[i Ha] _] Hin.
  apply Hne. rewrite He. unfold in_entity in Hin. rewrite Ha in Hin. unfold EntityAddressCreate. by injection Hin as ->%(inj (fmap Some)).
Qed.

Lemma own_features dev ids es e : Forall (entity_ok dev) es → NoDup (en_address <$> es) → e ∈ es →
  en_address e = EntityAddressCreate (Some dev) ids → filter (in_entity ids) (es ≫= en_features) = en_features e.
Proof.
  intros Hes Hnd (es1 & es2 & ->)%list_elem_of_split He.
  rewrite fmap_app, fmap_cons in Hnd. apply NoDup_app in Hnd as (_ & Hd1 & [Hd2 _]%NoDup_cons).
  apply Forall_app in Hes as [Hes1 [(ids' & _ & He' & Hfs) Hes2]%Forall_cons].
  assert (∀ l, Forall (entity_ok dev) l → en_address e ∉ en_address <$> l → filter (in_entity ids) (l ≫= en_features) = []) as Hnone.
  { clear -He. induction 1 as [|x l Hx _ IH]; [done|]. rewrite fmap_cons, not_elem_of_cons, bind_cons, filter_app. intros [Hne Hl].
    rewrite (other_entity dev), IH by (done || congruence). done. }
  rewrite bind_app, bind_cons, !filter_app, !Hnone; try done.
  2:{ intros Hin. apply (Hd1 _ Hin). apply list_elem_of_here. }
  rewrite app_nil_r. simpl. apply filter_whole. eapply Forall_impl; [exact Hfs|]. intros f [[i Ha] _]. unfold in_entity. rewrite Ha.
  rewrite He in He'. by injection He' as ->%(inj (fmap Some)).
Qed.

Lemma all_features_ok dev ld : Forall (entity_ok dev) (ld_entities ld) → Forall (λ f, ∃ ids, ids ≠ [] ∧ feature_ok dev ids f) (all_features ld).
Proof.
  intros Hes. unfold all_features. induction Hes as [|e es (ids & Hids & _ & Hfs) _ IH]; [constructor|].
  rewrite bind_cons. apply Forall_app. split; [|done]. eapply Forall_impl; [exact Hfs|]. intros f Hf. by exists ids.
Qed.

Lemma view_addresses (es es' : list EntityNode) : entity_view <$> es = entity_view <$> es' → en_address <$> es = en_address <$> es'.
Proof. intros Hv. apply (f_equal (fmap (λ v, v.1.1))) in Hv. by rewrite <- !list_fmap_compose in Hv. Qed.

Lemma not_found dev ids self : Forall (λ a, ∃ ids', ids' ≠ [] ∧ a = EntityAddressCreate (Some dev) ids') (en_address <$> rd_entities self) →
  ids ≠ [] → EntityAddressCreate (Some dev) ids ∉ en_address <$> rd_entities self → find_entity self (Some (Some <$> ids)) = None.
Proof.
  intros Hall Hids Hn. unfold find_entity. replace (list_find _ (rd_entities self)) with (@None (nat * EntityNode)); [done|].
  symmetry. apply list_find_None. apply Forall_forall. intros e He. rewrite Forall_forall in Hall.
  destruct (Hall (en_address e)) as (ids' & Hids' & Ha); [by apply list_elem_of_fmap_2|]. rewrite Ha, (match_ids _ ids') by done.
  intros Heq%bool_decide_eq_true. subst ids'. apply Hn. rewrite <- Ha. by apply list_elem_of_fmap_2.
Qed.

(** The node management pointed to is there. *)
Definition alive (self : RemoteDevice) : Prop := rd_node_management self ∈ fn_id <$> (rd_entities self ≫= en_features).
(** One entity more: it is told of after those in [past], which are known. *)
Lemma add_entity_exact dev ld self past e rest infos new : local_ok dev ld → ld_entities ld = past ++ e :: rest →
  rd_address self = Some dev → entity_view <$> rd_entities self = entity_view <$> past → alive self →
  ∃ nm next e', let self' := with_objects nm next (with_entities (rd_entities self ++ [e']) self) in
    add_entities self true (announced ld) (Some (Some (announced_entity e)) :: infos) new =
      ('(self'', r, outs) ← add_entities self' true (announced ld) infos (new ++ [length past]); Some (self'', r, outs)) ∧
    entity_view e' = entity_view e ∧ alive self'.
Proof.
  intros [Hdev Hes Hnd _] Hsplit Haddr Hviews Halive.
  assert (e ∈ ld_entities ld) as Hin by (rewrite Hsplit; apply elem_of_app; right; apply list_elem_of_here).
  pose proof Hes as Hpast. rewrite Hsplit in Hpast. apply Forall_app in Hpast as [Hpast [(ids & Hids & He & Hfs) _]%Forall_cons].
  assert (length (rd_entities self) = length past) as Hlen by by rewrite <- (length_fmap entity_view), Hviews, length_fmap.
  assert (find_entity self (Some (Some <$> ids)) = None) as Hfind.
  { apply (not_found dev); [|done|]; rewrite (view_addresses _ _ Hviews).
    - apply Forall_fmap. eapply Forall_impl; [exact Hpast|]. intros x (ids' & ? & ? & _). by exists ids'.
    - rewrite Hsplit, fmap_app, fmap_cons in Hnd. apply NoDup_app in Hnd as (_ & Hd & _). rewrite <- He. intros Hx. apply (Hd _ Hx), list_elem_of_here. }
  cbn [add_entities mbind option_bind announced_entity ed_entity_address ed_entity_type CheckEntityInformation ea_entity is_ok negb].
  rewrite He. cbn [EntityAddressCreate ea_entity is_ok negb]. rewrite Hfind. cbn [mbind option_bind].
  unfold AddEntityWithAddressAndType. cbn [ea_entity]. change (default [] (Some (Some <$> ids))) with (Some <$> ids).
  assert (allocates (length (Some <$> ids)) = true) as -> by (destruct ids; [done|by apply orb_true_r]).
  cbn [negb]. rewrite (mapM_fmap_Some id Some) by done.
  destruct ids as [|i0 ids'] eqn:Hcons; [done|]. rewrite <- Hcons in *. rewrite Haddr.
  replace (EntityConstruct (en_type e) (Some dev) ids)
    with (Some (mkEntityNode (EntityAddressCreate (Some dev) ids) (en_type e) None (if (i0 =? 0)%Z then 0 else 1)%Z [])) by by rewrite Hcons.
  cbn [mbind option_bind]. set (e0 := mkEntityNode _ _ _ _ _).
  destruct (refresh_exact dev ids ld (with_entities (rd_entities self ++ [e0]) self) (announced_entity e) (length (rd_entities self)) e0)
    as (nm & next & e' & Hr & Hv & Hm); try done; [by apply all_features_ok| |by left|].
  { cbn. by rewrite list_lookup_middle. }
  rewrite Hr. cbn [mbind option_bind].
  assert (filter (in_entity ids) (all_features ld) = en_features e) as Hfilter by by apply (own_features dev).
  exists nm, next, e'. split_and!.
  - rewrite <- Hlen. unfold with_entity. cbn [with_entities rd_entities rd_address rd_type rd_feature_set rd_ski rd_node_management rd_next_id].
    rewrite <- (Nat.add_0_r (length (rd_entities self))) at 1. by rewrite insert_app_r.
  - rewrite Hv, Hfilter. unfold entity_view. by rewrite He.
  - unfold alive. cbn. rewrite bind_app, fmap_app. cbn. rewrite app_nil_r. apply elem_of_app.
    destruct Hm as [Hm|[-> _]]; [by right|by left].
Qed.
Lemma add_entities_exact dev ld : local_ok dev ld → ∀ rest past self new, ld_entities ld = past ++ rest →
  rd_address self = Some dev → entity_view <$> rd_entities self = entity_view <$> past → alive self →
  ∃ nm next es, let self' := with_objects nm next (with_entities (rd_entities self ++ es) self) in
    add_entities self true (announced ld) ((λ e, Some (Some (announced_entity e))) <$> rest) new =
      Some (self', Some (new ++ seq (length past) (length rest)), []) ∧
    entity_view <$> es = entity_view <$> rest ∧ alive self'.
Proof.
  intros Hok. induction rest as [|e rest IH]; intros past self new Hsplit Haddr Hviews Halive.
  { exists (rd_node_management self), (rd_next_id self), []. cbn. rewrite (app_nil_r (rd_entities self)), (app_nil_r new). by destruct self. }
  destruct (add_entity_exact dev ld self past e rest ((λ e, Some (Some (announced_entity e))) <$> rest) new Hok Hsplit Haddr Hviews Halive)
    as (nm1 & next1 & e' & Hstep & Hv & Halive').
  destruct (IH (past ++ [e]) (with_objects nm1 next1 (with_entities (rd_entities self ++ [e']) self)) (new ++ [length past]))
    as (nm & next & es & Hrest & Hvs & Halive''); [by rewrite <- app_assoc|done| |done|].
  { cbn. by rewrite !fmap_app, Hviews, !fmap_cons, Hv. }
  exists nm, next, (e' :: es). cbn in Halive''. split_and!.
  - cbn [fmap list_fmap] in *. rewrite Hstep, Hrest. cbn [mbind option_bind]. rewrite length_app, Nat.add_1_r, <- app_assoc.
    cbn. by rewrite <- app_assoc.
  - by rewrite !fmap_cons, Hv, Hvs.
  - unfold alive in *. cbn in *. by rewrite <- app_assoc in Halive''.
Qed.

(** ** From a device of which nothing is known *)

Definition nm_address (device : option string) : FeatureAddressType := mkFeatureAddress device (Some [Some DEVICE_INFORMATION_ENTITY_ID]) (Some 0%Z).

Lemma device_constructed ski : ∃ f, (fn_use_case_data_prev f = Some Null ∧ fn_id f = 0 ∧ fn_address f = nm_address None ∧
    type <$> functions (fn_data f) = default [] (GetFeatureFunctions (fd_type (fn_data f)))) ∧ DeviceRemoteConstruct ski =
  Some (mkRemoteDevice None None IntNull ski
    [mkEntityNode (EntityAddressCreate None [DEVICE_INFORMATION_ENTITY_ID]) kEntityTypeTypeDeviceInformation None 1 [f]] 0 1).
Proof.
  unfold DeviceRemoteConstruct, AddEntityWithAddressAndType. cbn. assert (allocates 1 = true) as -> by apply orb_true_r.
  cbn. eexists. split; [|reflexivity]. by split_and!.
Qed.
Lemma lookups {A} (l : list A) : ∀ p, omap (λ i, (p ++ l) !! i) (seq (length p) (length l)) = l.
Proof.
  induction l as [|x l IH]; [done|]. intros p. cbn [length seq omap list_omap]. rewrite list_lookup_middle by done.
  rewrite (cons_middle x p l), (app_assoc p). specialize (IH (p ++ [x])). rewrite length_app, Nat.add_1_r in IH. by rewrite IH.
Qed.
Lemma others {A} (l : list A) : l ≠ [] → omap (λ i, l !! i) (seq 1 (length (tail l))) = tail l.
Proof. destruct l as [|x l]; [done|]. intros _. apply (lookups l [x]). Qed.

Lemma alive_found self : alive self → is_Some (find_object self (rd_node_management self)).
Proof.
  intros (f & Hid & Hf)%list_elem_of_fmap. unfold find_object. apply fmap_is_Some.
  by apply (list_find_elem_of _ _ f).
Qed.

Lemma reply_data d : data_discovery (data_choice (discovery_cmd d)) = Some d.
Proof. apply data_discovery_data. Qed.

Definition feature_set_of (ld : LocalDevice) : Int32Ptr := match ld_feature_set ld with Some s => IntAt s | None => IntNull end.

(** The node management of the first entity is what is found under its address. *)
Lemma management_found dev ld rd : local_ok dev ld → entity_view <$> rd_entities rd = entity_view <$> ld_entities ld →
  ∃ f g, head (all_features ld) = Some f ∧ RemoteGetFeatureWithAddress rd (nm_address None) = Some g ∧ feature_view g = feature_view f.
Proof.
  intros [_ _ _ (e & es & f & fs & Hes & He & _ & Hfs & _ & Hid)] Hviews. rewrite Hes in Hviews.
  destruct (rd_entities rd) as [|e' es'] eqn:Hrd; [done|]. rewrite !fmap_cons in Hviews. injection Hviews as Ha Ht Hfv _.
  rewrite Hfs in Hfv. destruct (en_features e') as [|g gs] eqn:Hg; [done|]. rewrite !fmap_cons in Hfv.
  injection Hfv as Hga Hrest1 Hrest2 Hrest3 Hrest4 _.
  exists f, g. split_and!.
  - unfold all_features. by rewrite Hes, bind_cons, Hfs.
  - unfold RemoteGetFeatureWithAddress, find_entity. rewrite Hrd. cbn [list_find nm_address fa_entity].
    rewrite decide_True. 2:{ rewrite Ha, He. by rewrite (match_ids _ [DEVICE_INFORMATION_ENTITY_ID] [DEVICE_INFORMATION_ENTITY_ID]). }
    cbn [fmap option_fmap option_map fst lookup list_lookup RemoteGetFeatureWithId fa_feature nm_address]. rewrite Hg. cbn [list_find].
    by rewrite decide_True by congruence.
  - unfold feature_view. congruence.
Qed.
(** All entities, on a device with nothing but its first one. *)
Lemma entities_discovered dev ld type set ski f : local_ok dev ld → fn_use_case_data_prev f = Some Null →
  let e0 := mkEntityNode (EntityAddressCreate None [DEVICE_INFORMATION_ENTITY_ID]) kEntityTypeTypeDeviceInformation None 1 [f] in
  ∃ nm next es, AddEntityAndFeatures (mkRemoteDevice (Some dev) type set ski [e0] 0 1) true (announced ld) =
      Some (mkRemoteDevice (Some dev) type set ski es nm next, Some (seq 1 (pred (length (ld_entities ld)))), []) ∧
    entity_view <$> es = entity_view <$> ld_entities ld ∧ alive (mkRemoteDevice (Some dev) type set ski es nm next).
Proof.
  intros Hok Hprev e0. destruct (lo_first dev ld Hok) as (e & es & f1 & fs & Hes & He & Ht & Hfs & Hnm & _).
  destruct (refresh_exact dev [DEVICE_INFORMATION_ENTITY_ID] ld (mkRemoteDevice (Some dev) type set ski [e0] 0 1) (announced_entity e) 0 e0)
    as (nm & next & e' & Hr & Hv & Hm); [by apply Hok|done|by apply all_features_ok, Hok|done|by right| |done|].
  { intros dr. cbn. rewrite Hprev. done. }
  assert (filter (in_entity [DEVICE_INFORMATION_ENTITY_ID]) (all_features ld) = en_features e) as Hfilter.
  { apply (own_features dev); [apply Hok|apply Hok| |done]. rewrite Hes. apply list_elem_of_here. }
  rewrite Hfilter in Hv, Hm.
  set (rd1 := with_objects nm next (with_entity 0 e' (mkRemoteDevice (Some dev) type set ski [e0] 0 1))) in *.
  destruct (add_entities_exact dev ld Hok es [e] rd1 []) as (nm' & next' & es' & Hrest & Hvs & Halive); [done|done| | |].
  { subst rd1. cbn. rewrite Hv. unfold entity_view. by rewrite He, Ht. }
  { subst rd1. unfold alive. cbn. rewrite app_nil_r. destruct Hm as [Hm|[_ Hm]]; [done|].
    rewrite Hfs in Hm. apply Forall_cons in Hm as [Hm _]. by rewrite Hnm in Hm. }
  exists nm', next', (e' :: es'). split_and!.
  - unfold AddEntityAndFeatures. cbn [entity_information announced items]. rewrite Hes.
    change (default [] (items announced_entity (e :: es))) with ((λ x, Some (Some (announced_entity x))) <$> e :: es).
    cbn [fmap list_fmap add_entities mbind option_bind]. cbn [announced_entity ed_entity_address CheckEntityInformation]. rewrite He. cbn [EntityAddressCreate ea_entity is_ok negb mbind option_bind].
    change (find_entity _ _) with (Some 0). cbn [mbind option_bind]. rewrite Hr. cbn [mbind option_bind]. setoid_rewrite Hrest. done.
  - rewrite !Hes, !fmap_cons, Hvs, Hv. unfold entity_view. by rewrite He, Ht.
  - done.
Qed.

(** C17: A device that reads the announcement of another, of which it knows nothing, makes of it the same tree: the
    same entities in the same order, each with the same features, each with the same functions and operations.  It
    reports the device and each of the other entities, and the node management it points to is in the tree. *)
Theorem discovered_as_announced dev ld ski msg reply : local_ok dev ld → device_typed ld →
  ∃ cmd rd rd' nm f, ProcessReadDetailedDiscoveryData ld msg =
      Some (fst (sent (SentReply (request_header msg) cmd)), [SentReply (request_header msg) cmd]) ∧
    DeviceRemoteConstruct ski = Some rd ∧
    ProcessReplyDetailedDiscoveryData rd (nm_address None) cmd reply =
      Some (kEebusErrorOk, rd', DeviceAdded (Some nm) :: (EntityAdded <$> tail (rd_entities rd')) ++
                                  (match msg_cnt_ref reply with Some ref => [DiscoveryReplyProcessed ref nm] | None => [] end)) ∧
    rd_address rd' = ld_address ld ∧ rd_type rd' = ld_type ld ∧ rd_feature_set rd' = feature_set_of ld ∧
    entity_view <$> rd_entities rd' = entity_view <$> ld_entities ld ∧
    head (all_features ld) = Some f ∧ feature_view nm = feature_view f ∧ is_Some (find_object rd' (rd_node_management rd')).
Proof.
  intros Hok Htyped. destruct (device_constructed ski) as (f0 & (Hprev & _) & Hrd).
  destruct (entities_discovered dev ld (ld_type ld) (feature_set_of ld) ski f0 Hok Hprev) as (nm & next & es & Hadd & Hviews & Halive).
  destruct (management_found dev ld (mkRemoteDevice (Some dev) (ld_type ld) (feature_set_of ld) ski es nm next) Hok Hviews)
    as (f & g & Hhead & Hfound & Hg).
  destruct (lo_first dev ld Hok) as (e & es0 & f1 & fs & Hes & _ & _ & Hfs & _).
  exists (discovery_cmd (announced ld)). eexists _, (mkRemoteDevice (Some dev) (ld_type ld) (feature_set_of ld) ski es nm next), g, f. split_and!.
  - apply read_exact; [done|by rewrite Hes|]. unfold all_features. by rewrite Hes, bind_cons, Hfs.
  - exact Hrd.
  - unfold ProcessReplyDetailedDiscoveryData. rewrite reply_data. cbn [mbind option_bind announced device_information].
    assert (∀ e0, UpdateDevice (mkRemoteDevice None None IntNull ski [e0] 0 1) (Some (announced_device ld)) =
      Some (mkRemoteDevice (Some dev) (ld_type ld) (feature_set_of ld) ski [e0] 0 1)) as Hupdate.
    { intros e0. unfold UpdateDevice, announced_device, feature_set_of. cbn. rewrite (lo_address dev ld Hok). by destruct (ld_type ld), (ld_feature_set ld). }
    rewrite Hupdate. cbn [mbind option_bind].
    assert (FeatureAddressCopy (nm_address None) = Some (Some (nm_address None))) as ->.
    { apply copy_model; [done|done|done| |apply data_address_data]. vm_compute. by case malloc. }
    cbn [mbind option_bind]. setoid_rewrite Hadd. cbn [mbind option_bind]. rewrite Hfound. cbn [fmap list_fmap app rd_entities].
    assert (pred (length (ld_entities ld)) = length (tail es)) as ->.
    { rewrite <- (length_fmap entity_view (ld_entities ld)), <- Hviews, length_fmap. by destruct es. }
    rewrite others by (intros ->; by rewrite Hes in Hviews). destruct (msg_cnt_ref reply); by rewrite ?app_nil_r.
  - by rewrite (lo_address dev ld Hok).
  - done.
  - done.
  - done.
  - done.
  - done.
  - by apply alive_found.
Qed.
End trees.
