(* ===== verification/DeviceBuild.v ===== *)
(** * Devices that applications build are announced and discovered

    Construction, entities, features, operations and data: whatever is built with them satisfies what
    [DiscoveryTree] asks of a device. *)

From S2P Require Import Prelude StringUtil FeatureFunctions Duration DateTime EebusData EebusDataWrite EebusDataFacts EebusDataJson SpineTables SpineFunction Timer Vector Pool Spine LinkManager Pending Sender Datagram FeatureData SpineTablesFacts UseCase Discovery EebusDataList UseCaseFacts UseCaseTable DiscoveryFacts DiscoveryTree.

Local Open Scope list_scope.

(** ** A device and its entities, as an application makes them ([spine/device/device_local.c], [spine/entity/entity_local.c])

    The tree of the device that [Discovery] announces: its construction with the node management, entities and
    their features.  [None] is undefined behaviour, or a feature that the model has no function for. *)

(** ** The device info ([common/eebus_device_info.c]) *)

Record EebusDeviceInfo := mkDeviceInfo {
  di_type : string;
  di_vendor : string;
  di_brand : string;
  di_model : string;
  di_serial_num : string;
  di_ship_id : string;
  di_address : string;
}.

(** NULL where one of the texts is NULL or empty. *)
Definition EebusDeviceInfoCreate (type vendor brand model serial_num ship_id : option string) : option EebusDeviceInfo :=
  if StringIsEmpty type || StringIsEmpty vendor || StringIsEmpty brand || StringIsEmpty model || StringIsEmpty serial_num ||
     StringIsEmpty ship_id then None
  else
    let text := default EmptyString in
    Some (mkDeviceInfo (text type) (text vendor) (text brand) (text model) (text serial_num) (text ship_id)
            ("d:_n:" +:+ text vendor +:+ "_" +:+ text serial_num)).

(** [EebusDataGetEnumMappingWithValue] *)
Definition enum_name (lut : list (string * Z)) (value : Z) : option string := fst <$> (snd <$> list_find (λ e, snd e = value) lut).

Definition ModelStringToDeviceType (s : string) : option Z := enum_value device_type_lut s.
Definition ModelFeatureTypeToString (feature_type : Z) : option string := enum_name feature_type_lut feature_type.
Definition ModelRoleToString (role : RoleType) : option string := enum_name role_lut (role_value role).

Definition kNetworkManagementFeatureSetTypeSimple : Z := 3.

Section tree.
Context `{Allocator}.

(** ** Features *)

Definition FeatureLocalCreate (id : Z) (entity : EntityNode) (type : Z) (role : RoleType) : option FeatureNode :=
  addr ← FeatureAddressCreate (en_address entity) id;
  fd ← FeatureConstruct (default [] (GetFeatureFunctions type)) type role;
  Some (mkFeatureNode addr None fd kDefaultMaxResponseDelayMs None 0).

Definition set_operations (l : list (nat * (bool * bool))) (fd : FeatureData) : FeatureData :=
  foldl (λ fd '(t, (read, write)), fst (FeatureLocalSetFunctionOperations fd t read write)) fd l.

(** [NodeManagementConstruct] *)
Definition management_operations (feature_set : option Z) : list (nat * (bool * bool)) :=
  [ (kFunctionTypeNodeManagementDetailedDiscoveryData, (true, false));
    (kFunctionTypeNodeManagementUseCaseData, (true, false));
    (kFunctionTypeNodeManagementSubscriptionData, (true, false));
    (kFunctionTypeNodeManagementSubscriptionRequestCall, (false, false));
    (kFunctionTypeNodeManagementSubscriptionDeleteCall, (false, false));
    (kFunctionTypeNodeManagementBindingData, (true, false));
    (kFunctionTypeNodeManagementBindingRequestCall, (false, false));
    (kFunctionTypeNodeManagementBindingDeleteCall, (false, false)) ] ++
  match feature_set with
  | Some s => if (s =? kNetworkManagementFeatureSetTypeSimple)%Z then []
              else [(kFunctionTypeNodeManagementDestinationListData, (true, false))]
  | None => []
  end.

Definition set_data (fd : FeatureData) (f : FeatureNode) : FeatureNode :=
  mkFeatureNode (fn_address f) (fn_description f) fd (fn_max_response_delay f) (fn_use_case_data_prev f) (fn_id f).

Definition NodeManagementCreate (id : Z) (entity : EntityNode) (feature_set : option Z) : option FeatureNode :=
  f ← FeatureLocalCreate id entity kFeatureTypeTypeNodeManagement kRoleTypeSpecial;
  Some (set_data (set_operations (management_operations feature_set) (fn_data f)) f).

(** ** Entities *)

Definition EntityLocalAddFeature (f : FeatureNode) (self : EntityNode) : EntityNode := with_features (en_features self ++ [f]) self.

Definition EntityLocalGetFeatureWithTypeAndRole (self : EntityNode) (type : Z) (role : RoleType) : option (nat * FeatureNode) :=
  list_find (λ f, type = fd_type (fn_data f) ∧ role = fd_role (fn_data f)) (en_features self).

(** The place of the feature, which may be there already. *)
Definition AddFeatureWithTypeAndRole (self : EntityNode) (type : Z) (role : RoleType) : option (EntityNode * nat) :=
  match EntityLocalGetFeatureWithTypeAndRole self type role with
  | Some (i, _) => Some (self, i)
  | None =>
      let '(id, self) := EntityGetNextFeatureId self in
      f ← FeatureLocalCreate id self type role;
      t ← ModelFeatureTypeToString type; r ← ModelRoleToString role;
      Some (EntityLocalAddFeature (FeatureSetDescription (Some (t +:+ " " +:+ r)) f) self, length (en_features self))
  end.

(** ** The device *)

Definition DeviceConstruct (addr type : string) (feature_set : option Z) : LocalDevice :=
  mkLocalDevice (Some addr) (ModelStringToDeviceType type) feature_set [].

Definition EntityLocalCreate (device : LocalDevice) (type : Z) (entity_id : list Z) : option EntityNode :=
  EntityConstruct type (ld_address device) entity_id.

(** The brand takes the place of the vendor. *)
Definition manufacturer_data (info : EebusDeviceInfo) : Data :=
  Struct [ str_data (di_model info); str_data (di_ship_id info); str_data (di_serial_num info); Null; Null;
           str_data (di_brand info); Null; str_data (di_brand info); Null; Null; Null; Null ].

Definition with_local_entities (es : list EntityNode) (self : LocalDevice) : LocalDevice :=
  mkLocalDevice (ld_address self) (ld_type self) (ld_feature_set self) es.

(** Nobody is subscribed yet. *)
Definition AddDeviceInformation (self : LocalDevice) (info : EebusDeviceInfo) : option LocalDevice :=
  entity ← EntityLocalCreate self kEntityTypeTypeDeviceInformation [DEVICE_INFORMATION_ENTITY_ID];
  let '(nm_id, entity) := EntityGetNextFeatureId entity in
  nm ← NodeManagementCreate nm_id entity (ld_feature_set self);
  let entity := EntityLocalAddFeature nm entity in
  let '(dc_id, entity) := EntityGetNextFeatureId entity in
  fl ← FeatureLocalCreate dc_id entity kFeatureTypeTypeDeviceClassification kRoleTypeServer;
  let fd := fst (FeatureLocalSetFunctionOperations (fn_data fl) kFunctionTypeDeviceClassificationManufacturerData true false) in
  '(fd, _) ← FeatureLocalSetData fd kFunctionTypeDeviceClassificationManufacturerData (manufacturer_data info);
  Some (with_local_entities (ld_entities self ++ [EntityLocalAddFeature (set_data fd fl) entity]) self).

Definition DeviceLocalConstruct (info : EebusDeviceInfo) (feature_set : option Z) : option LocalDevice :=
  AddDeviceInformation (DeviceConstruct (di_address info) (di_type info) feature_set) info.

(** [AddEntity], but for telling the subscribers. *)
Definition push_entity (entity : EntityNode) (self : LocalDevice) : LocalDevice := with_local_entities (ld_entities self ++ [entity]) self.
End tree.

Section build.
Context `{malloc : Allocator}.

(** ** What an application does *)

(** With an entity: it gets features, a description, operations and data of functions. *)
Inductive entity_step (e : EntityNode) : EntityNode → Prop :=
| StepFeature t role e' i : AddFeatureWithTypeAndRole e t role = Some (e', i) → entity_step e e'
| StepDescribe d : entity_step e (EntitySetDescription d e)
| StepOperations j f t read write : en_features e !! j = Some f →
    entity_step e (with_features (<[j := set_data (fst (FeatureLocalSetFunctionOperations (fn_data f) t read write)) f]> (en_features e)) e)
| StepData j f t d fp fdel err fd outs : en_features e !! j = Some f → FeatureLocalUpdateData (fn_data f) t d fp fdel = Some (err, fd, outs) →
    entity_step e (with_features (<[j := set_data fd f]> (en_features e)) e).

(** With the device: entities of new ids are added, in the ranges of their types. *)
Inductive builds (info : EebusDeviceInfo) (feature_set : option Z) : LocalDevice → Prop :=
| BuildConstruct ld : DeviceLocalConstruct info feature_set = Some ld → builds info feature_set ld
| BuildEntity ld type ids e : builds info feature_set ld → EntityLocalCreate ld type ids = Some e →
    en_address e ∉ en_address <$> ld_entities ld → int32 type = true →
    Forall is_u32 ids → (Z.of_nat (length ids) <= kMaxElementsNum)%Z → builds info feature_set (push_entity e ld)
| BuildStep ld i e e' : builds info feature_set ld → ld_entities ld !! i = Some e → entity_step e e' →
    builds info feature_set (with_local_entities (<[i := e']> (ld_entities ld)) ld).

(** ** The functions of a feature stay *)

Definition feature_key (f : FeatureNode) : FeatureAddressType * Z * RoleType := (fn_address f, fd_type (fn_data f), fd_role (fn_data f)).
Definition same_functions (fd fd' : FeatureData) : Prop :=
  fd_type fd' = fd_type fd ∧ fd_role fd' = fd_role fd ∧ type <$> functions fd' = type <$> functions fd.

Lemma set_function_same fd i f f' : functions fd !! i = Some f → type f' = type f → same_functions fd (set_function i f' fd).
Proof.
  intros Hi Ht. split_and!; [done|done|]. cbn [set_function with_functions functions]. rewrite list_fmap_insert, Ht.
  apply list_insert_id. by rewrite list_lookup_fmap, Hi.
Qed.

Lemma found_function fd t i f : FeatureGetFunction fd t = Some (i, f) → functions fd !! i = Some f.
Proof. by intros (? & _ & _)%list_find_Some. Qed.

Lemma set_operations_same fd t read write : same_functions fd (fst (FeatureLocalSetFunctionOperations fd t read write)).
Proof.
  unfold FeatureLocalSetFunctionOperations. destruct (_ && _); [done|].
  destruct (FeatureGetFunction fd t) as [[i f]|] eqn:Hf; [|done]. apply (set_function_same _ _ f); [by apply found_function in Hf|].
  unfold SetOperations. simpl. by destruct (operations f).
Qed.

Lemma UpdateData_type f d fp fdel wr persist err f' : UpdateData f d fp fdel wr persist = Some (err, f') → type f' = type f.
Proof.
  unfold UpdateData. intros Hu. destruct fp, fdel, persist; simplify_option_eq;
    repeat match goal with x : (_ * _)%type |- _ => destruct x end; simplify_option_eq;
    repeat match goal with x : (_ * _)%type |- _ => destruct x end; by simplify_eq/=.
Qed.

Lemma update_same fd t d fp fdel err fd' outs : FeatureLocalUpdateData fd t d fp fdel = Some (err, fd', outs) → same_functions fd fd'.
Proof.
  unfold FeatureLocalUpdateData. destruct (FeatureGetFunction fd t) as [[i f]|] eqn:Hf; [|by intros [= _ <- _]].
  destruct (UpdateData f d fp fdel false true) as [[err' f']|] eqn:Hu; [|done]. cbn [mbind option_bind].
  assert (same_functions fd (set_function i f' fd)) as Hs.
  { apply (set_function_same _ _ f); [by apply found_function in Hf|]. by apply UpdateData_type in Hu. }
  destruct (negb _); [by intros [= _ <- _]|]. destruct (FunctionUpdateNotifySubscribers _ _ _ _) as [[err2 outs2]|]; [|done].
  by intros [= _ <- _].
Qed.
(** ** Entities *)

Definition feature_built (dev : string) (ids : list Z) (f : FeatureNode) : Prop :=
  feature_ok dev ids f ∧ (∃ id, fa_feature (fn_address f) = Some id ∧ is_u32 id) ∧ int32 (fd_type (fn_data f)) = true.

Record entity_built (dev : string) (ids : list Z) (e : EntityNode) : Prop := {
  eb_address : en_address e = EntityAddressCreate (Some dev) ids;
  eb_next : is_u32 (en_next_feature_id e);
  eb_features : Forall (feature_built dev ids) (en_features e);
}.

Lemma known_type_range t s : ModelFeatureTypeToString t = Some s → int32 t = true.
Proof.
  unfold ModelFeatureTypeToString, enum_name. destruct (list_find _ feature_type_lut) as [[i [n z]]|] eqn:Hf; [|done]. intros _.
  apply list_find_Some in Hf as (Hi & Hz & _). simpl in Hz. subst z.
  assert (forallb (λ e, int32 (snd e)) feature_type_lut = true) as Hall by by vm_compute.
  rewrite forallb_forall in Hall. apply (Hall (n, t)). apply list_elem_of_In. by apply list_elem_of_lookup_2 in Hi.
Qed.

Lemma feature_local_built dev ids e i t role f : en_address e = EntityAddressCreate (Some dev) ids → is_u32 i → int32 t = true →
  FeatureLocalCreate i e t role = Some f → feature_built dev ids f ∧ fd_type (fn_data f) = t ∧ fd_role (fn_data f) = role ∧
    fn_address f = mkFeatureAddress (Some dev) (Some (Some <$> ids)) (Some i).
Proof.
  intros He Hi Ht. unfold FeatureLocalCreate, FeatureConstruct. rewrite He, feature_address. cbn [mbind option_bind].
  destruct (feature_functions_known t) as (fs & -> & Hfs & _). cbn [mbind option_bind]. intros [= <-].
  split_and!; try done; repeat split; try done; by exists i.
Qed.

Lemma set_data_built dev ids f fd : feature_built dev ids f → same_functions (fn_data f) fd →
  feature_built dev ids (set_data fd f) ∧ feature_key (set_data fd f) = feature_key f.
Proof.
  intros ([Ha Hfs] & Hid & Ht) (Hty & Hr & Hsame). split; [|by unfold feature_key; cbn; rewrite Hty, Hr].
  split_and!; [split; [done|]| |]; cbn [set_data fn_data fn_address]; by rewrite ?Hsame, ?Hty.
Qed.

Lemma replace_feature dev ids e j f fd : entity_built dev ids e → en_features e !! j = Some f → same_functions (fn_data f) fd →
  let e' := with_features (<[j := set_data fd f]> (en_features e)) e in
  entity_built dev ids e' ∧ feature_key <$> en_features e' = feature_key <$> en_features e.
Proof.
  intros [Ha Hn Hfs] Hj Hsame. rewrite Forall_forall in Hfs.
  destruct (set_data_built dev ids f fd) as [Hb Hk]; [by eapply Hfs, list_elem_of_lookup_2|done|]. split.
  - constructor; [done|done|]. cbn. apply Forall_insert; [by apply Forall_forall|done].
  - cbn. rewrite list_fmap_insert, Hk. apply list_insert_id. by rewrite list_lookup_fmap, Hj.
Qed.

Lemma entity_step_built dev ids e e' : entity_built dev ids e → entity_step e e' →
  entity_built dev ids e' ∧ en_type e' = en_type e ∧ (feature_key <$> en_features e) `prefix_of` (feature_key <$> en_features e').
Proof.
  intros He [t role e1 i Hadd|d|j f t read write Hj|j f t d fp fdel err fd outs Hj Hu].
  - unfold AddFeatureWithTypeAndRole in Hadd. destruct (EntityLocalGetFeatureWithTypeAndRole e t role) as [[k f]|]; [by injection Hadd as <- _|].
    destruct He as [Ha Hn Hfs]. cbn [EntityGetNextFeatureId] in Hadd. set (e1' := mkEntityNode _ _ _ _ _) in Hadd.
    destruct (FeatureLocalCreate (en_next_feature_id e) e1' t role) as [f|] eqn:Hc; [|done]. cbn [mbind option_bind] in Hadd.
    destruct (ModelFeatureTypeToString t) as [tn|] eqn:Ht; [|done]. destruct (ModelRoleToString role) as [rn|]; [|done].
    cbn [mbind option_bind] in Hadd. injection Hadd as <- _. apply known_type_range in Ht.
    destruct (feature_local_built dev ids e1' _ _ _ _ Ha Hn Ht Hc) as (([Hfa Hff] & Hid & Hty) & _).
    split_and!; [|done|cbn; rewrite fmap_app; by apply prefix_app_r].
    constructor; [done|apply u32_range|]. cbn. apply Forall_app. split; [done|]. apply Forall_singleton. split_and!; [split; done|done|done].
  - destruct He. split_and!; [by constructor|done|done].
  - destruct (replace_feature dev ids e j f _ He Hj (set_operations_same (fn_data f) t read write)) as [? Hk]. split_and!; [done|done|by rewrite Hk].
  - destruct (replace_feature dev ids e j f _ He Hj (update_same _ _ _ _ _ _ _ _ Hu)) as [? Hk]. split_and!; [done|done|by rewrite Hk].
Qed.
(** ** Devices *)

Definition entity_in_range (dev : string) (e : EntityNode) : Prop :=
  ∃ ids, ids ≠ [] ∧ Forall is_u32 ids ∧ (Z.of_nat (length ids) <= kMaxElementsNum)%Z ∧ int32 (en_type e) = true ∧ entity_built dev ids e.

Record device_built (dev : string) (ld : LocalDevice) : Prop := {
  db_address : ld_address ld = Some dev;
  db_type : from_option int32 true (ld_type ld) = true;
  db_set : from_option int32 true (ld_feature_set ld) = true;
  db_entities : Forall (entity_in_range dev) (ld_entities ld);
  db_distinct : NoDup (en_address <$> ld_entities ld);
  db_first : ∃ e es, ld_entities ld = e :: es ∧ en_address e = EntityAddressCreate (Some dev) [DEVICE_INFORMATION_ENTITY_ID] ∧
    en_type e = kEntityTypeTypeDeviceInformation ∧
    head (feature_key <$> en_features e) = Some (nm_address (Some dev), kFeatureTypeTypeNodeManagement, kRoleTypeSpecial);
}.

Lemma same_trans fd1 fd2 fd3 : same_functions fd1 fd2 → same_functions fd2 fd3 → same_functions fd1 fd3.
Proof. intros (? & ? & ?) (? & ? & ?). split_and!; congruence. Qed.

Lemma set_all_same l : ∀ fd, same_functions fd (set_operations l fd).
Proof.
  induction l as [|[t [read write]] l IH]; intros fd; [done|]. cbn [set_operations foldl].
  eapply same_trans; [apply set_operations_same|apply IH].
Qed.

Lemma device_type_range s : from_option int32 true (ModelStringToDeviceType s) = true.
Proof.
  unfold ModelStringToDeviceType, enum_value. destruct (list_find _ device_type_lut) as [[i [n z]]|] eqn:Hf; [|done].
  apply list_find_Some in Hf as (Hi & _ & _). simpl.
  assert (forallb (λ e, int32 (snd e)) device_type_lut = true) as Hall by by vm_compute.
  rewrite forallb_forall in Hall. apply (Hall (n, z)). apply list_elem_of_In. by apply list_elem_of_lookup_2 in Hi.
Qed.

Lemma construct_built info feature_set ld : from_option int32 true feature_set = true → DeviceLocalConstruct info feature_set = Some ld →
  device_built (di_address info) ld.
Proof.
  intros Hset. unfold DeviceLocalConstruct, AddDeviceInformation, EntityLocalCreate, DeviceConstruct. cbn [ld_address ld_feature_set ld_entities EntityConstruct mbind option_bind].
  set (dev := di_address info). cbn [EntityGetNextFeatureId en_next_feature_id]. unfold NodeManagementCreate.
  destruct (FeatureLocalCreate _ _ kFeatureTypeTypeNodeManagement kRoleTypeSpecial) as [f|] eqn:Hf; [|done]. cbn [mbind option_bind].
  apply (feature_local_built dev [DEVICE_INFORMATION_ENTITY_ID]) in Hf as (Hf & Ht & Hr & Ha); [|done|done|by vm_compute].
  destruct (set_data_built dev _ f _ Hf (set_all_same (management_operations feature_set) (fn_data f))) as [Hnm Hkey].
  set (nm := set_data _ f) in *. cbn [EntityLocalAddFeature EntityGetNextFeatureId en_next_feature_id with_features en_features].
  destruct (FeatureLocalCreate _ _ kFeatureTypeTypeDeviceClassification kRoleTypeServer) as [g|] eqn:Hg; [|done]. cbn [mbind option_bind].
  apply (feature_local_built dev [DEVICE_INFORMATION_ENTITY_ID]) in Hg as (Hg & _); [|done|by vm_compute|by vm_compute].
  unfold FeatureLocalSetData. destruct (FeatureLocalUpdateData _ _ _ None None) as [[[err fd] outs]|] eqn:Hu; [|done].
  cbn [mbind option_bind]. intros [= <-]. apply update_same in Hu.
  destruct (set_data_built dev _ g fd Hg) as [Hdc _]; [eapply same_trans; [apply set_operations_same|exact Hu]|].
  constructor; cbn; [done|apply device_type_range|done| |by apply NoDup_singleton|].
  - apply Forall_singleton. exists [DEVICE_INFORMATION_ENTITY_ID]. split_and!; [done|by repeat constructor|done|by vm_compute|].
    constructor; [done|by vm_compute|]. cbn. constructor; [done|]. by apply Forall_singleton.
  - eexists _, []. split_and!; try done. cbn. rewrite Hkey. unfold feature_key. by rewrite Ht, Hr, Ha.
Qed.

Lemma builds_built info feature_set ld : from_option int32 true feature_set = true → builds info feature_set ld → device_built (di_address info) ld.
Proof.
  intros Hset. induction 1 as [ld Hld|ld type ids e _ [Ha Ht Hs Hes Hnd Hfirst] He Hnew Htype Hids Hlen|ld i e e' _ [Ha Ht Hs Hes Hnd Hfirst] Hi Hstep].
  - by apply construct_built in Hld.
  - unfold EntityLocalCreate in He. rewrite Ha in He. destruct ids as [|i0 ids]; [done|]. injection He as <-.
    constructor; cbn; try done.
    + apply Forall_app. split; [done|]. apply Forall_singleton. exists (i0 :: ids). split_and!; try done.
      constructor; [done| |constructor]. cbn. by case_match.
    + rewrite fmap_app. apply NoDup_app. split_and!; [done| |apply NoDup_singleton]. by intros x Hx ->%list_elem_of_singleton.
    + destruct Hfirst as (e & es & -> & Hfirst). by exists e, (es ++ [mkEntityNode (EntityAddressCreate (Some (di_address info)) (i0 :: ids)) type None (if (i0 =? 0)%Z then 0 else 1)%Z []]).
  - assert (entity_in_range (di_address info) e) as (ids & Hne & Hids & Hlen & Htype & Heb).
    { rewrite Forall_forall in Hes. by eapply Hes, list_elem_of_lookup_2. }
    destruct (entity_step_built _ _ _ _ Heb Hstep) as (Heb' & Htype' & [rest Hkeys]).
    assert (en_address e' = en_address e) as Hae by by rewrite (eb_address _ _ _ Heb), (eb_address _ _ _ Heb').
    constructor; cbn; try done.
    + apply Forall_insert; [done|]. exists ids. by rewrite Htype'.
    + rewrite list_fmap_insert, Hae, list_insert_id; [done|]. by rewrite list_lookup_fmap, Hi.
    + destruct Hfirst as (e0 & es & Hl & Ha0 & Ht0 & Hk0). rewrite Hl in *. destruct i as [|i]; [|by exists e0, (<[i:=e']> es)].
      injection Hi as ->. exists e', es. split_and!; [done|congruence|congruence|]. rewrite Hkeys. destruct (feature_key <$> en_features e); [done|]. done.
Qed.
(** ** What is built is in the ranges of the types *)

Lemma ids_data ids : ids ≠ [] → Forall is_u32 ids → (Z.of_nat (length ids) <= kMaxElementsNum)%Z →
  typed (EEBUS_DATA_LIST "entity" entity_element_data_cfg) (entity_data (Some <$> ids)) = true ∧ fits (entity_data (Some <$> ids)) = true.
Proof.
  intros Hne Hids Hlen. unfold entity_data. rewrite <- list_fmap_compose. cbn [typed EEBUS_DATA_LIST fits]. rewrite length_fmap.
  rewrite CreateListBuffer_some; [|by destruct ids; [done|apply Nat.lt_0_succ]|done]. cbn [andb].
  split; apply forallb_fmap; eapply Forall_impl; try exact Hids; intros z [? ?]; [|done].
  cbn [compose opt from_option entity_element_data_cfg typed num_data block_of]. apply andb_true_iff. split; [by apply Z.leb_le|by apply Z.ltb_lt].
Qed.

Lemma struct_data cfg l : forall2b typed cfg l = true → forallb fits l = true → is_data cfg (Struct l).
Proof. done. Qed.
Lemma fits_struct l : fits (Struct l) = forallb fits l.
Proof. done. Qed.
Lemma forallb_cons {A} (f : A → bool) a l : forallb f (a :: l) = f a && forallb f l.
Proof. done. Qed.

Lemma enum_data z : int32 z = true → block_of (KEnum []) (BInt z) = true.
Proof. done. Qed.

Lemma device_data ld dev : device_built dev ld → is_data network_management_device_description_data_cfg (device_description_data (announced_device ld)).
Proof.
  intros [Ha Ht Hs _ _ _]. unfold announced_device. rewrite Ha.
  apply (struct_data network_management_device_description_data_cfg
    [device_address_data (Some dev); opt num_data (ld_type ld); Null; Null; Null; Null; opt num_data (ld_feature_set ld); Null; Null; Null; Null]).
  - unfold network_management_device_description_data_cfg. cbn [forall2b]. rewrite !andb_true_iff.
    split_and!; try done; [by destruct (ld_type ld)|by destruct (ld_feature_set ld)].
  - by destruct (ld_type ld), (ld_feature_set ld).
Qed.

Lemma entity_data_ok dev e : entity_in_range dev e → is_data network_management_entity_description_data_cfg (entity_description_data (announced_entity e)).
Proof.
  intros (ids & Hne & Hids & Hlen & Ht & [Ha _ _]). unfold announced_entity. rewrite Ha. destruct (ids_data ids Hne Hids Hlen) as [Hty Hfit].
  change (is_data network_management_entity_description_data_cfg
    (Struct [Struct [Null; entity_data (Some <$> ids)]; num_data (en_type e); Null; Null; Null; Null])).
  apply struct_data; [|by rewrite forallb_cons, fits_struct, !forallb_cons, Hfit].
  unfold network_management_entity_description_data_cfg. cbn [forall2b]. rewrite !andb_true_iff. split_and!; try done.
  apply (struct_data entity_address_cfg); [|by rewrite !forallb_cons, Hfit]. unfold entity_address_cfg. cbn [forall2b]. by rewrite Hty.
Qed.

Lemma feature_data_ok dev ids f : ids ≠ [] → Forall is_u32 ids → (Z.of_nat (length ids) <= kMaxElementsNum)%Z → feature_built dev ids f →
  is_data network_management_feature_description_data_cfg (feature_description_data (announced_feature_with None f)).
Proof.
  intros Hne Hids Hlen ([[i Ha] _] & (i' & Hi & Hu) & Ht). unfold announced_feature_with. rewrite Ha in *. injection Hi as <-.
  destruct (ids_data ids Hne Hids Hlen) as [Hty Hfit].
  change (is_data network_management_feature_description_data_cfg
    (Struct [Struct [Null; entity_data (Some <$> ids); num_data i]; num_data (fd_type (fn_data f)); Null; Null;
             num_data (role_value (fd_role (fn_data f))); Null; Null; Null; Null; opt str_data (fn_description f); Null])).
  apply struct_data; [|rewrite forallb_cons, fits_struct, !forallb_cons, Hfit; by destruct (fn_description f)].
  unfold network_management_feature_description_data_cfg. cbn [forall2b]. rewrite !andb_true_iff.
  split_and!; try done; [|by destruct (fd_role (fn_data f))|by destruct (fn_description f)].
  apply (struct_data feature_address_cfg); [|by rewrite !forallb_cons, Hfit]. unfold feature_address_cfg. cbn [forall2b]. rewrite Hty. cbn [andb].
  rewrite !andb_true_iff. split_and!; try done. destruct Hu as [Hu1 Hu2]. apply andb_true_iff. split; [by apply Z.leb_le|by apply Z.ltb_lt].
Qed.

Lemma built_ok dev ld : device_built dev ld → local_ok dev ld ∧ device_typed ld.
Proof.
  intros Hb. pose proof Hb as [Ha _ _ Hes Hnd (e & es & Hl & He & Ht & Hk)]. split.
  - constructor; [done| |done|].
    + eapply Forall_impl; [exact Hes|]. intros x (ids & Hne & _ & _ & _ & [Hx _ Hfs]). exists ids. split_and!; [done|done|].
      eapply Forall_impl; [exact Hfs|]. by intros f [? _].
    + destruct (en_features e) as [|f fs] eqn:Hfs; [done|]. injection Hk as Hfa Hft Hfr. exists e, es, f, fs. split_and!; try done.
      * unfold is_node_management. by rewrite Hft, Hfr.
      * by rewrite Hfa.
  - constructor; [by apply (device_data _ dev)| |].
    + eapply Forall_impl; [exact Hes|]. intros x. apply entity_data_ok.
    + unfold all_features. rewrite Forall_bind. eapply Forall_impl; [exact Hes|]. intros x (ids & Hne & Hids & Hlen & _ & [_ _ Hfs]).
      eapply Forall_impl; [exact Hfs|]. intros f. by apply feature_data_ok.
Qed.

End build.
