(* ===== verification/DeviceLocal.v ===== *)
(** * The local device ([spine/device/device_local.c], [spine/node_management/node_management.c])

    What a device does with the messages of others: the datagram is taken from the queue, each command goes to the
    feature it is for, a write only through a binding; the node management hands its commands to discovery, use
    cases and the managers of bindings and subscriptions.

    A pointer to a feature that was freed is one that a link must not use: the link's feature is NULL from then on. *)

From stdpp Require Import gmap.
From S2P Require Import Prelude FeatureFunctions Duration DateTime EebusData EebusDataWrite EebusDataFacts SpineTables SpineFunction Json EebusDataJson Timer Vector Pool Spine FeatureLink LinkManager BindingManager SubscriptionManager Pending Sender Datagram DatagramWire FeatureData SpineTablesFacts UseCase Discovery DeviceBuild.

Local Open Scope list_scope.

(** The device of a peer, at the address [re_object]. *)
Record RemoteEntry := mkRemoteEntry { re_ski : string; re_object : nat; re_device : RemoteDevice }.

(** [DeviceLocalQueueMessage] *)
Inductive DeviceLocalQueueMessage :=
| DataReceived (msg_buf : string) (remote_device : nat)
| TimerTick
| Cancel.

(** What goes to other parts: outputs of a feature, events, rounds of features. *)
Inductive DeviceOut :=
| OutFeature (feature : FeatureAddressType) (out : FeatureOut)
| OutUseCase (out : UseCaseOut)
| OutDiscovery (out : DiscoveryOut)
| OutRemoteRemoved (ski : string)
| OutCachesCleaned (feature : FeatureAddressType) (remote_addr : option string) (ski : string)
| OutTick (entity : EntityAddressType)
| OutLinksToRemotesRemoved (feature : FeatureAddressType)
| OutHeartbeatStopped (entity : EntityAddressType)
| OutSubscribeToRemote (feature remote_addr : FeatureAddressType).

(** [NetworkManagementStateChangeType] *)
Definition kNetworkManagementStateChangeTypeAdded : Z := 0.
Definition kNetworkManagementStateChangeTypeRemoved : Z := 1.

(** ** Looking things up *)

(** The places of the entity and of the feature in it. *)
Definition find_feature (es : list EntityNode) (ids : option (list (option Z))) (feature_id : option Z) : option (nat * nat * FeatureNode) :=
  '(i, e) ← list_find (λ e, EntityAddressMatchIds (Some (en_address e)) ids = true) es;
  id ← feature_id;
  '(j, f) ← list_find (λ f, fa_feature (fn_address f) = Some id) (en_features e);
  Some (i, j, f).

(** [GetFeatureWithAddress] *)
Definition DeviceGetFeatureWithAddress (t : LocalDevice) (a : option FeatureAddressType) : option (nat * nat * FeatureNode) :=
  match ld_address t, a with
  | Some self, Some a =>
      if (match fa_device a with Some d => bool_decide (d ≠ self) | None => false end) then None
      else find_feature (ld_entities t) (fa_entity a) (fa_feature a)
  | _, _ => None
  end.

Definition set_feature_data (i j : nat) (fd : FeatureData) (es : list EntityNode) : list EntityNode :=
  alter (λ e, with_features (alter (set_data fd) j (en_features e)) e) i es.

Definition set_feature (i j : nat) (f : FeatureNode) (es : list EntityNode) : list EntityNode :=
  alter (λ e, with_features (<[j := f]> (en_features e)) e) i es.

Definition with_management (nm : NodeManagementRemote) (f : FeatureNode) : FeatureNode :=
  mkFeatureNode (fn_address f) (fn_description f) (nmr_feature nm) (fn_max_response_delay f) (Some (use_case_data_prev nm)) (fn_id f).

Section device.
Context {V : Type → Type} `{VectorInterface V} `{Allocator} `{CJson} {E : SpineEnv}.
Abbreviation Links := (LinkManager (V := V)).

Record Device := mkDevice {
  tree : LocalDevice;
  bindings : Links;
  subscriptions : Links;
  remotes : list RemoteEntry;
  msg_queue : list DeviceLocalQueueMessage;
  cancelled : bool;
  outs : list DeviceOut;
}.

Definition set_tree (t : LocalDevice) (s : Device) : Device :=
  mkDevice t (bindings s) (subscriptions s) (remotes s) (msg_queue s) (cancelled s) (outs s).
Definition set_bindings (b : Links) (s : Device) : Device :=
  mkDevice (tree s) b (subscriptions s) (remotes s) (msg_queue s) (cancelled s) (outs s).
Definition set_subscriptions (b : Links) (s : Device) : Device :=
  mkDevice (tree s) (bindings s) b (remotes s) (msg_queue s) (cancelled s) (outs s).
Definition set_remotes (r : list RemoteEntry) (s : Device) : Device :=
  mkDevice (tree s) (bindings s) (subscriptions s) r (msg_queue s) (cancelled s) (outs s).
Definition set_queue (q : list DeviceLocalQueueMessage) (s : Device) : Device :=
  mkDevice (tree s) (bindings s) (subscriptions s) (remotes s) q (cancelled s) (outs s).

(** Undefined behaviour of the part that is called. *)
Definition defined {S A} (m : option A) : Prog S A := match m with Some a => mret a | None => crash "undefined" end.

Definition emit (os : list DeviceOut) : Prog Device unit :=
  modify (λ s, mkDevice (tree s) (bindings s) (subscriptions s) (remotes s) (msg_queue s) (cancelled s) (outs s ++ os)).

(** A manager sees the features the device has now. *)
Definition seen_by (m : Links) (s : Device) : Links := mkLinkManager (spine_local (tree s)) (link_num m) (entries m).
(** What it keeps of the device is the pointer it had. *)
Definition kept (old new : Links) : Links := mkLinkManager (local_device old) (link_num new) (entries new).
Definition on_bindings {A} (m : Prog Links A) : Prog Device A := λ s,
  match m (seen_by (bindings s) s) with Ret a b => Ret a (set_bindings (kept (bindings s) b) s) | Prelude.Block b => Prelude.Block (set_bindings (kept (bindings s) b) s) | Crash why => Crash why end.
Definition on_subscriptions {A} (m : Prog Links A) : Prog Device A := λ s,
  match m (seen_by (subscriptions s) s) with Ret a b => Ret a (set_subscriptions (kept (subscriptions s) b) s) | Prelude.Block b => Prelude.Block (set_subscriptions (kept (subscriptions s) b) s) | Crash why => Crash why end.

Definition remote_at (object : nat) (s : Device) : option RemoteDevice :=
  re_device <$> (snd <$> list_find (λ r, re_object r = object) (remotes s)).
Definition set_remote (object : nat) (rd : RemoteDevice) (s : Device) : Device :=
  set_remotes ((λ r, if (re_object r =? object)%nat then mkRemoteEntry (re_ski r) object rd else r) <$> remotes s) s.

Definition GetRemoteDeviceWithSki (ski : string) (s : Device) : option RemoteEntry := snd <$> list_find (λ r, re_ski r = ski) (remotes s).
Definition GetRemoteDeviceWithAddress (device_addr : option string) (s : Device) : option RemoteEntry :=
  match device_addr with
  | None => None
  | Some a => snd <$> list_find (λ r, rd_address (re_device r) = Some a) (remotes s)
  end.
Definition IsRemoteDeviceAlive (object : nat) (s : Device) : bool := existsb (λ r, (re_object r =? object)%nat) (remotes s).

(** ** Features that are freed *)

Definition objects_of (rd : RemoteDevice) : list nat := fn_id <$> (rd_entities rd ≫= en_features).

(** The link is to a feature of [old] that is not in [new]. *)
Definition freed_client (ski : string) (old new : RemoteDevice) (cf : FeatureRemote) : bool :=
  bool_decide (fr_ski cf = ski) &&
  existsb (λ f, bool_decide (fn_address f = address (fr_feature cf)) && negb (existsb (Nat.eqb (fn_id f)) (objects_of new)))
    (rd_entities old ≫= en_features).
Definition without_client (gone : FeatureRemote → bool) (l : FeatureLink) : FeatureLink :=
  match client_feature l with Some cf => if gone cf then mkLink (link_id l) (server_feature l) None else l | None => l end.
Definition without_server (gone : Feature → bool) (l : FeatureLink) : FeatureLink :=
  match server_feature l with Some sf => if gone sf then mkLink (link_id l) None (client_feature l) else l | None => l end.
Definition change_links (change : FeatureLink → FeatureLink) : Prog Links unit :=
  on_entries (for_each (λ x, link ← pool_load x; pool_store x (change link);; mret (None : option unit)));; mret tt.
Definition forget (change : FeatureLink → FeatureLink) : Prog Device unit :=
  on_bindings (change_links change);; on_subscriptions (change_links change).
(** ** Messages for a feature ([FEATURE_LOCAL_HANDLE_MESSAGE]) *)

(** The subscribers of the feature are told at once. *)
Fixpoint deliver (feature : FeatureAddressType) (os : list FeatureOut) : Prog Device unit :=
  match os with
  | [] => mret tt
  | o :: os =>
      (match o with NotifySubscribers _ => on_subscriptions (Publish (Some feature)) | _ => mret tt end);;
      emit [OutFeature feature o];; deliver feature os
  end.

(** [HandleMessage] of [feature_local.c]; what is replied or notified goes through [UpdateData] of the remote
    feature, which the node management has one of its own of. *)
Definition feature_message (rd : RemoteDevice) (self : FeatureData) (fr : FeatureNode) (msg : Message) :
    option (EebusError * (FeatureData * FeatureNode) * (list UseCaseOut * list FeatureOut)) :=
  let plain := '(err, (self, frd), os) ← HandleMessage self (fn_data fr) msg; Some (err, (self, set_data frd fr), ([], os)) in
  match fn_use_case_data_prev fr, msg_cmd msg with
  | Some prev, Some cmd =>
      let updated := λ replied : list FeatureOut,
        if null (data_choice cmd) then Some (kEebusErrorInputArgumentNull, (self, fr), ([], []))
        else
          '(err, nm, ucs) ← NodeManagementRemoteUpdateData (spine_remote rd) (mkNodeManagementRemote (fn_data fr) prev)
            (data_choice_type_id cmd) (data_choice cmd) (filter_partial msg) (filter_delete msg) true;
          Some (err, (self, with_management nm fr),
                (ucs, if is_ok err then DataUpdated (data_choice_type_id cmd) (data_choice cmd) (msg_cmd_classifier msg) :: replied else [])) in
      match msg_cmd_classifier msg with
      | kCommandClassifierTypeNotify => updated []
      | kCommandClassifierTypeReply =>
          updated (match msg_cnt_ref msg with
                   | Some ref => [ReplyProcessed ref (data_choice_type_id cmd) (data_choice cmd)]
                   | None => []
                   end)
      | _ => plain
      end
  | _, _ => plain
  end.

(** Where a message is for and where it comes from: the places of the local and of the remote feature. *)
Record Route := mkRoute {
  rt_object : nat;
  rt_device : RemoteDevice;
  rt_local : nat * nat * FeatureNode;
  rt_remote : nat * nat * FeatureNode;
}.

Definition store_local (r : Route) (fd : FeatureData) : Prog Device unit :=
  let '(i, j, _) := rt_local r in modify (λ s, set_tree (with_local_entities (set_feature_data i j fd (ld_entities (tree s))) (tree s)) s).
Definition store_remote (r : Route) (f : FeatureNode) : Prog Device unit :=
  let '(i, j, _) := rt_remote r in
  modify (set_remote (rt_object r) (Discovery.with_entities (set_feature i j f (rd_entities (rt_device r))) (rt_device r))).

Definition FeatureLocalHandleMessage (r : Route) (msg : Message) : Prog Device EebusError :=
  '(err, (self, fr), (ucs, os)) ← defined (feature_message (rt_device r) (fn_data (rt_local r).2) (rt_remote r).2 msg);
  store_local r self;; store_remote r fr;;
  emit (OutUseCase <$> ucs);; deliver (fn_address (rt_local r).2) os;;
  mret err.

(** ** Messages for the node management ([node_management.c]) *)

Definition data_request (d : Data) : option RequestCall :=
  match d with
  | Struct [c; s; t] => c ← read_opt data_address c; s ← read_opt data_address s; t ← read_opt data_num t; Some (mkRequestCall c s t)
  | _ => None
  end.
Definition data_delete (d : Data) : option DeleteCall :=
  match d with
  | Struct [_; c; s] => c ← read_opt data_address c; s ← read_opt data_address s; Some (mkDeleteCall c s)
  | _ => None
  end.
Definition entry_data (e : EntryData) : Data :=
  Struct [num_data (entry_id e); address_data (entry_client_address e); address_data (entry_server_address e); Null; Null].

Definition NodeManagementSendReply (r : Route) (data : Data) (data_type : nat) (msg : Message) : Prog Device EebusError :=
  let out := SentReply (request_header msg) (mkCmd None [] data_type data None None) in
  emit [OutFeature (fn_address (rt_local r).2) out];; mret (fst (sent out)).

(** Only a call is answered; what it holds may be NULL, which is followed. *)
Definition called {A} (dec : Data → option A) (cmd : CmdType) (msg : Message) (handle : A → Prog Device EebusError) : Prog Device EebusError :=
  match msg_cmd_classifier msg with
  | kCommandClassifierTypeCall => x ← defined (data_info dec (data_choice cmd)); x ← defined x; handle x
  | _ => mret kEebusErrorNotImplemented
  end.

Definition HandleMsgSubscriptionRequestCall (r : Route) (cmd : CmdType) (msg : Message) : Prog Device EebusError :=
  called data_request cmd msg (λ d, on_subscriptions (AddSubscription (spine_remote (rt_device r)) d)).
Definition HandleMsgSubscriptionDeleteCall (r : Route) (cmd : CmdType) (msg : Message) : Prog Device EebusError :=
  called data_delete cmd msg (λ d, on_subscriptions (RemoveSubscription (spine_remote (rt_device r)) d)).
Definition HandleMsgBindingRequestCall (r : Route) (cmd : CmdType) (msg : Message) : Prog Device EebusError :=
  called data_request cmd msg (λ d, on_bindings (AddBinding (spine_remote (rt_device r)) d)).
Definition HandleMsgBindingDeleteCall (r : Route) (cmd : CmdType) (msg : Message) : Prog Device EebusError :=
  called data_delete cmd msg (λ d, on_bindings (RemoveBinding d (spine_remote (rt_device r)))).

(** The array of the entries, NULL where there are none. *)
Definition entries_data (l : list (option EntryData) * nat) : Data := Struct [array (opt entry_data) (take l.2 l.1)].
Definition HandleMsgSubscriptionData (r : Route) (msg : Message) : Prog Device EebusError :=
  match msg_cmd_classifier msg with
  | kCommandClassifierTypeCall =>
      l ← on_subscriptions (CreateSubscriptionData (spine_remote (rt_device r)));
      NodeManagementSendReply r (entries_data l) kFunctionTypeNodeManagementSubscriptionData msg
  | _ => mret kEebusErrorNotImplemented
  end.
Definition HandleMsgBindingData (r : Route) (msg : Message) : Prog Device EebusError :=
  match msg_cmd_classifier msg with
  | kCommandClassifierTypeCall =>
      l ← on_bindings (CreateBindingData (spine_remote (rt_device r)));
      NodeManagementSendReply r (entries_data l) kFunctionTypeNodeManagementBindingData msg
  | _ => mret kEebusErrorNotImplemented
  end.

Definition DeviceCreateDestinationData (self : LocalDevice) : option (option (option DeviceDescription)) :=
  copied node_management_destination_data_cfg device_description_data data_device_description
    (mkDeviceDescription (Some (ld_address self)) (ld_type self) (ld_feature_set self)).
Definition HandleMsgDestinationListData (r : Route) (msg : Message) : Prog Device EebusError :=
  match msg_cmd_classifier msg with
  | kCommandClassifierTypeRead =>
      s ← get; d ← defined (DeviceCreateDestinationData (tree s));
      NodeManagementSendReply r (Struct [Array [opt (information device_description_data) d]]) kFunctionTypeNodeManagementDestinationListData msg
  | _ => mret kEebusErrorNotImplemented
  end.

(** A reply deletes features that links may point to. *)
Definition DiscoveryMessage (r : Route) (cmd : CmdType) (msg : Message) : Prog Device EebusError :=
  s ← get;
  '(err, rd, os) ← defined (HandleMsgDetailedDiscoveryData (tree s) (rt_device r) (fn_address (rt_remote r).2) cmd msg);
  modify (set_remote (rt_object r) rd);;
  forget (without_client (freed_client (rd_ski (rt_device r)) (rt_device r) rd));;
  emit (match os with inl l => OutFeature (fn_address (rt_local r).2) <$> l | inr l => OutDiscovery <$> l end);;
  mret err.

(** The use cases of a feature that is no node management are those of any function. *)
Definition UseCaseMessage (r : Route) (cmd : CmdType) (msg : Message) : Prog Device EebusError :=
  let '(_, _, fr) := rt_remote r in
  match fn_use_case_data_prev fr with
  | Some prev =>
      '(err, nm, ucs) ← defined (HandleMsgUseCaseData (spine_remote (rt_device r)) (fn_data (rt_local r).2)
        (mkNodeManagementRemote (fn_data fr) prev) cmd msg);
      store_remote r (with_management nm fr);; emit (OutUseCase <$> ucs);; mret err
  | None =>
      match msg_cmd_classifier msg with
      | kCommandClassifierTypeRead =>
          '(err, ucs) ← defined (ProcessReadUseCaseData (fn_data (rt_local r).2) msg); emit (OutUseCase <$> ucs);; mret err
      | kCommandClassifierTypeReply | kCommandClassifierTypeNotify =>
          '(err, frd) ← defined (FeatureRemoteUpdateData (fn_data fr) kFunctionTypeNodeManagementUseCaseData (data_choice cmd) None None true);
          store_remote r (set_data frd fr);;
          (if is_ok err
           then emit (OutUseCase <$> UseCaseDataReceived (data_choice cmd) ::
                        (match msg_cnt_ref msg with Some ref => [UseCaseReplyProcessed ref (data_choice cmd)] | None => [] end))
           else mret tt);;
          mret err
      | _ => mret kEebusErrorNotImplemented
      end
  end.

Definition NodeManagementHandleMessage (r : Route) (msg : Message) : Prog Device EebusError :=
  match msg_cmd msg with
  | None => mret kEebusErrorInputArgumentNull
  | Some cmd =>
      if null (data_choice cmd) then mret kEebusErrorInputArgumentNull
      else
        let holds t := (data_choice_type_id cmd =? t)%nat in
        if holds kFunctionTypeResultData then
          let '(err, os) := FeatureLocalProcessResult cmd msg in emit (OutFeature (fn_address (rt_local r).2) <$> os);; mret err
        else if holds kFunctionTypeNodeManagementDetailedDiscoveryData then DiscoveryMessage r cmd msg
        else if holds kFunctionTypeNodeManagementSubscriptionRequestCall then HandleMsgSubscriptionRequestCall r cmd msg
        else if holds kFunctionTypeNodeManagementSubscriptionDeleteCall then HandleMsgSubscriptionDeleteCall r cmd msg
        else if holds kFunctionTypeNodeManagementSubscriptionData then HandleMsgSubscriptionData r msg
        else if holds kFunctionTypeNodeManagementBindingRequestCall then HandleMsgBindingRequestCall r cmd msg
        else if holds kFunctionTypeNodeManagementBindingDeleteCall then HandleMsgBindingDeleteCall r cmd msg
        else if holds kFunctionTypeNodeManagementBindingData then HandleMsgBindingData r msg
        else if holds kFunctionTypeNodeManagementUseCaseData then UseCaseMessage r cmd msg
        else if holds kFunctionTypeNodeManagementDestinationListData then HandleMsgDestinationListData r msg
        else mret kEebusErrorNotImplemented
  end.

(** ** Datagrams *)

(** The node management is the first feature of the first entity, where [AddDeviceInformation] puts it. *)
Definition is_own_management (place : nat * nat * FeatureNode) : bool := let '(i, j, _) := place in (i =? 0)%nat && (j =? 0)%nat.

(** The address of the source is followed. *)
Definition ProcessCmd (header : HeaderType) (cmd : CmdType) (remote_device : nat) : Prog Device EebusError :=
  s ← get;
  match DeviceGetFeatureWithAddress (tree s) (hdr_dest_addr header) with
  | None => mret kEebusErrorInputArgumentOutOfRange
  | Some local =>
      src_addr ← deref_address (hdr_src_addr header);
      rd ← defined (remote_at remote_device s);
      match find_feature (rd_entities rd) (fa_entity src_addr) (fa_feature src_addr), hdr_cmd_classifier header with
      | None, _ => mret kEebusErrorNoChange
      | Some _, None => mret kEebusErrorInputArgumentNull
      | Some remote, Some classifier =>
          let msg := mkMessage (Some header) classifier (Some cmd) (CmdGetFilterPartial cmd) (CmdGetFilterDelete cmd) in
          allowed ← (match classifier with
                     | kCommandClassifierTypeWrite => on_bindings (HasBinding (Some (fn_address local.2)) (Some (fn_address remote.2)))
                     | _ => mret true
                     end);
          if negb allowed then mret kEebusErrorNoChange
          else
            let r := mkRoute remote_device rd local remote in
            if is_own_management local then NodeManagementHandleMessage r msg else FeatureLocalHandleMessage r msg
      end
  end.

(** The first error ends it. *)
Fixpoint process_cmds (header : HeaderType) (cmds : list (option CmdType)) (remote_device : nat) : Prog Device EebusError :=
  match cmds with
  | [] => mret kEebusErrorOk
  | None :: _ => mret kEebusErrorInputArgumentNull
  | Some cmd :: cmds =>
      err ← ProcessCmd header cmd remote_device;
      if is_ok err then process_cmds header cmds remote_device else mret err
  end.

Definition is_ack_cmd_classifier (c : CommandClassifierType) : bool :=
  match c with kCommandClassifierTypeCall | kCommandClassifierTypeReply | kCommandClassifierTypeNotify => true | _ => false end.

Definition acknowledged (header : HeaderType) (classifier : CommandClassifierType) : list DeviceOut :=
  match hdr_ack_request header, hdr_dest_addr header with
  | Some true, Some dest => if is_ack_cmd_classifier classifier then [OutFeature dest (SentResultSuccess header)] else []
  | _, _ => []
  end.

Definition ProcessDatagram (datagram : option DatagramType) (remote_device : nat) : Prog Device EebusError :=
  match datagram ≫= Datagram.header with
  | None => mret kEebusErrorInputArgumentNull
  | Some header =>
      match hdr_cmd_classifier header, datagram ≫= Datagram.payload with
      | None, _ | _, None | _, Some [] => mret kEebusErrorInputArgumentNull
      | Some classifier, Some cmds =>
          err ← process_cmds header cmds remote_device;
          (if is_ok err then emit (acknowledged header classifier) else mret tt);;
          mret err
      end
  end.

(** ** The queue *)

Definition DeviceLocalHandleMessage (msg : string) (remote_device : nat) : Prog Device EebusError :=
  modify (λ s, set_queue (msg_queue s ++ [DataReceived msg remote_device]) s);; mret kEebusErrorOk.
Definition DeviceLocal1sTickCallback : Prog Device unit := modify (λ s, set_queue (msg_queue s ++ [TimerTick]) s).

(** One round of the features of every entity, and of its heartbeats. *)
Definition DeviceLocalTick : Prog Device unit := s ← get; emit ((λ e, OutTick (en_address e)) <$> ld_entities (tree s)).

(** Waits for a message.  A device that is gone gets nothing. *)
Definition HandleQueueMessage : Prog Device EebusError :=
  s ← get;
  match msg_queue s with
  | [] => block
  | m :: q =>
      modify (set_queue q);;
      match m with
      | DataReceived text remote_device =>
          datagram ← defined (DatagramParse text);
          if IsRemoteDeviceAlive remote_device s then ProcessDatagram datagram remote_device else mret kEebusErrorOk
      | TimerTick => DeviceLocalTick;; mret kEebusErrorOk
      | Cancel => mret kEebusErrorOk
      end
  end.

Fixpoint DeviceLocalLoop (rounds : nat) : Prog Device unit :=
  match rounds with
  | 0 => mret tt
  | S rounds => s ← get; if cancelled s then mret tt else HandleQueueMessage;; DeviceLocalLoop rounds
  end.

Definition cancel (s : Device) : Device :=
  mkDevice (tree s) (bindings s) (subscriptions s) (remotes s) (msg_queue s ++ [Cancel]) true (outs s).

(** ** Remote devices *)

(** One entity after the other, while the device still lists them: an event of a node management in one of the
    later entities looks at the first, which is freed. *)
Definition DestroyRemoteDevice (r : RemoteEntry) : Prog Device unit :=
  let es := rd_entities (re_device r) in
  ucs ← defined (delete_features (spine_remote (re_device r)) (take 1 es ≫= en_features));
  later ← defined (delete_features (spine_remote (re_device r)) (drop 1 es ≫= en_features));
  (match later with [] => mret tt | _ => crash "look-up of an entity that was freed" end);;
  forget (without_client (λ cf, bool_decide (fr_ski cf = rd_ski (re_device r))));;
  emit (OutUseCase <$> ucs).

Definition RemoveRemoteDevice (ski : string) : Prog Device unit :=
  s ← get;
  match GetRemoteDeviceWithSki ski s with
  | None => mret tt
  | Some r =>
      let rd := re_device r in
      on_subscriptions (RemoveDeviceSubscriptions (Some (spine_remote rd)));;
      on_bindings (RemoveDeviceBindings (Some (spine_remote rd)));;
      emit ((λ f, OutCachesCleaned (fn_address f) (rd_address rd) ski) <$> (ld_entities (tree s) ≫= en_features));;
      modify (λ s, set_remotes (filter (λ r', re_object r' ≠ re_object r) (remotes s)) s);;
      DestroyRemoteDevice r
  end.

Definition RemoveRemoteDeviceConnection (ski : string) : Prog Device unit :=
  s ← get;
  match GetRemoteDeviceWithSki ski s with
  | None => mret tt
  | Some _ => emit [OutRemoteRemoved ski];; RemoveRemoteDevice ski
  end.

Definition AddRemoteDeviceForSki (ski : string) (object : nat) (rd : RemoteDevice) : Prog Device unit :=
  modify (λ s, set_remotes (remotes s ++ [mkRemoteEntry ski object rd]) s).

(** [RequestDetailedDiscovery] and [RequestUseCaseData] of the node management *)
Definition discovery_request : CmdType :=
  mkCmd None [] kFunctionTypeNodeManagementDetailedDiscoveryData (Struct [Null; Null; Null; Null]) None None.
Definition use_case_request : CmdType := mkCmd None [] kFunctionTypeNodeManagementUseCaseData (Struct [Null]) None None.
Definition request_from_remote (cmd : CmdType) : Prog Device EebusError :=
  s ← get;
  nm ← defined (head (ld_entities (tree s) ≫= en_features));
  let out := SentRead cmd in
  emit (OutFeature (fn_address nm) <$>
          out :: (if is_ok (fst (sent out)) then [PendingReplyAdded (snd (sent out)) (data_choice_type_id cmd)] else []));;
  mret (fst (sent out)).
Definition RequestDeviceRemoteDetailedDiscoveryData : Prog Device EebusError := request_from_remote discovery_request.
Definition RequestDeviceRemoteUseCaseData : Prog Device EebusError := request_from_remote use_case_request.

(** The callbacks of the two requests: the SKI, the data and the remote feature of the reply, or an error in place of it. *)
Definition OnUseCaseDataReadReply (ski : string) (err : EebusError) : Prog Device unit :=
  s ← get;
  if cancelled s then mret tt
  else if is_ok err then mret tt
  else match GetRemoteDeviceWithSki ski s with None => mret tt | Some _ => RequestDeviceRemoteUseCaseData;; mret tt end.

Definition OnDetailedDiscoveryReadReply (ski : string) (function_data : Data) (feature_remote : FeatureAddressType) (err : EebusError) :
    Prog Device unit :=
  s ← get;
  if cancelled s then mret tt
  else
    match GetRemoteDeviceWithSki ski s with
    | None => mret tt
    | Some r =>
        if negb (is_ok err) || null function_data then RequestDeviceRemoteDetailedDiscoveryData;; mret tt
        else
          nm ← defined (head (ld_entities (tree s) ≫= en_features));
          emit [OutSubscribeToRemote (fn_address nm) (with_device feature_remote (rd_address (re_device r)))];;
          RequestDeviceRemoteUseCaseData;; mret tt
    end.

(** [object]: the address the allocator gives, that of no other device there is. *)
Definition SetupRemoteDevice (ski : string) (object : nat) : Prog Device unit :=
  rd ← defined (DeviceRemoteConstruct ski);
  s ← get;
  (match GetRemoteDeviceWithSki ski s with Some _ => RemoveRemoteDevice ski | None => mret tt end);;
  AddRemoteDeviceForSki ski object rd;;
  RequestDeviceRemoteDetailedDiscoveryData;; mret tt.

Definition DeviceLocalCreate (info : EebusDeviceInfo) (feature_set : option Z) : option Device :=
  t ← DeviceLocalConstruct info feature_set;
  Some (mkDevice t (LinkManagerConstruct (spine_local t)) (LinkManagerConstruct (spine_local t)) [] [] false []).

(** ** Local entities *)

Definition with_last_state_change (state : Z) (d : Data) : Data :=
  match d with Struct [a; t; _; x; y; z] => Struct [a; t; num_data state; x; y; z] | _ => d end.

(** [CmdAddEntityDetailedDiscoveryData]; [None] inside where memory is missing.  No features are told of where there
    are none. *)
Definition CmdAddEntityDetailedDiscoveryData (t : LocalDevice) (entity : EntityNode) (state : Z) : option (option CmdType) :=
  '(err, cmd) ← CmdAddFilterPartialEmpty (mkCmd (Some kFunctionTypeNodeManagementDetailedDiscoveryData) [] 0 Null None None);
  d ← NodeManagementDetailedDiscoveryDataCreate [specification_version];
  di ← CreateDeviceInformation t;
  ei ← CreateEntityInformation entity;
  fi ← (if (state =? kNetworkManagementStateChangeTypeAdded)%Z
        then (if allocates (length (en_features entity)) then create_all FeatureLocalCreateInformation (en_features entity) else Some None)
        else Some (Some []));
  Some (match d, di, ei, fi with
        | Some d, Some di, Some (Some e), Some fi =>
            if is_ok err then
              Some (mkCmd (cmd_function cmd) (cmd_filter cmd) kFunctionTypeNodeManagementDetailedDiscoveryData
                (Struct [ opt (information (array_data str_data)) (specification_version_list d);
                          opt (information device_description_data) (Some di);
                          Array [Struct [with_last_state_change state (entity_description_data e)]];
                          if (state =? kNetworkManagementStateChangeTypeAdded)%Z
                          then Array (opt (information feature_description_data) <$> fi) else Null ]) None None)
            else None
        | _, _, _, _ => None
        end).

Definition NotifySubscribersOfEntity (entity : EntityNode) (state : Z) : Prog Device unit :=
  s ← get;
  cmd ← defined (CmdAddEntityDetailedDiscoveryData (tree s) entity state);
  match cmd with
  | None => mret tt
  | Some cmd => nm ← defined (head (ld_entities (tree s) ≫= en_features)); deliver (fn_address nm) [NotifySubscribers cmd]
  end.

Definition AddEntity (entity : EntityNode) : Prog Device unit :=
  modify (λ s, set_tree (push_entity entity (tree s)) s);; NotifySubscribersOfEntity entity kNetworkManagementStateChangeTypeAdded.

(** The features of the entity are freed; the managers keep their links to them. *)
Definition RemoveEntity (i : nat) : Prog Device unit :=
  s ← get;
  entity ← defined (ld_entities (tree s) !! i);
  nm ← defined (head (ld_entities (tree s) ≫= en_features));
  '(fd, os) ← defined (RemoveAllUseCaseSupports (en_address entity) (fn_data nm));
  modify (λ s, set_tree (with_local_entities (set_feature_data 0 0 fd (ld_entities (tree s))) (tree s)) s);;
  deliver (fn_address nm) os;;
  emit ((λ f, OutLinksToRemotesRemoved (fn_address f)) <$> en_features entity);;
  (match ea_entity (en_address entity) with
   | Some (Some id :: _) => if (id =? DEVICE_INFORMATION_ENTITY_ID)%Z then mret tt else emit [OutHeartbeatStopped (en_address entity)]
   | _ => mret tt
   end);;
  NotifySubscribersOfEntity entity kNetworkManagementStateChangeTypeRemoved;;
  modify (λ s, set_tree (with_local_entities (base.delete i (ld_entities (tree s))) (tree s)) s);;
  forget (without_server (λ sf, existsb (λ f, bool_decide (fn_address f = address sf)) (en_features entity))).
End device.
