(* ===== verification/RemoteLinks.v ===== *)
(** * What a feature subscribed to and is bound to ([spine/feature/feature_address_container.c], [feature_local.c])

    A client keeps the addresses of the features of others that it subscribed to, and of those it is bound to.  They are
    copies in a vector; no address is in it twice, so that an element is known by what it holds.

    What is sent is a log, newest last; [answer] says how the sender answered, which may be another time each time. *)

From S2P Require Import Prelude FeatureFunctions Spine.

Local Open Scope list_scope.

(** ** The container *)

Definition FeatureAddressContainerFind (self : list FeatureAddressType) (addr : option FeatureAddressType) : option (nat * FeatureAddressType) :=
  list_find (λ a, FeatureAddressCompare (Some a) addr = true) self.

(** The address is copied; NULL is not added by any caller. *)
Definition FeatureAddressContainerAdd (self : list FeatureAddressType) (addr : FeatureAddressType) : list FeatureAddressType :=
  match FeatureAddressContainerFind self (Some addr) with Some _ => self | None => self ++ [addr] end.

Definition FeatureAddressContainerRemove (self : list FeatureAddressType) (addr : option FeatureAddressType) : list FeatureAddressType :=
  match FeatureAddressContainerFind self addr with Some (i, _) => delete i self | None => self end.

(** The loop, down from [i]. *)
Fixpoint remove_for_device (device : string) (i : nat) (self : list FeatureAddressType) : list FeatureAddressType :=
  match i with
  | 0 => self
  | S i =>
      remove_for_device device i
        (match self !! i with Some a => if FeatureAddressMatchDevice (Some a) (Some device) then delete i self else self | None => self end)
  end.
Definition FeatureAddressContainerRemoveForDevice (self : list FeatureAddressType) (device : option string) : list FeatureAddressType :=
  match device with None => self | Some d => remove_for_device d (length self) self end.

(** ** The feature *)

Inductive RemoteCall :=
| CallSubscribe (sender_addr dest_addr : FeatureAddressType) (server_feature_type : Z)
| CallUnsubscribe (sender_addr dest_addr : FeatureAddressType)
| CallBind (sender_addr dest_addr : FeatureAddressType) (server_feature_type : Z)
| CallUnbind (sender_addr dest_addr : FeatureAddressType).

(** [has_sender_for]: the remote device of this address, with a sender, is known. *)
Class RemoteEnv := { answer : list RemoteCall → RemoteCall → EebusError; has_sender_for : string → bool }.

Record FeatureLinks := mkFeatureLinks {
  fl_addr : FeatureAddressType;
  fl_type : Z;
  fl_role : RoleType;
  fl_subscriptions : list FeatureAddressType;
  fl_bindings : list FeatureAddressType;
  fl_sent : list RemoteCall;
}.

Definition set_subscriptions (l : list FeatureAddressType) (s : FeatureLinks) : FeatureLinks :=
  mkFeatureLinks (fl_addr s) (fl_type s) (fl_role s) l (fl_bindings s) (fl_sent s).
Definition set_bindings (l : list FeatureAddressType) (s : FeatureLinks) : FeatureLinks :=
  mkFeatureLinks (fl_addr s) (fl_type s) (fl_role s) (fl_subscriptions s) l (fl_sent s).

Section remote_links.
Context {E : RemoteEnv}.

Definition FeatureLocalHasSubscriptionToRemote (self : FeatureLinks) (remote_addr : option FeatureAddressType) : bool :=
  match FeatureAddressContainerFind (fl_subscriptions self) remote_addr with Some _ => true | None => false end.
Definition FeatureLocalHasBindingToRemote (self : FeatureLinks) (remote_addr : option FeatureAddressType) : bool :=
  match FeatureAddressContainerFind (fl_bindings self) remote_addr with Some _ => true | None => false end.

Definition GetRemoteDeviceSender (remote_addr : option FeatureAddressType) : bool :=
  match remote_addr ≫= fa_device with Some d => has_sender_for d | None => false end.

(** One call to the sender. *)
Definition send_call (c : RemoteCall) : Prog FeatureLinks EebusError := λ s,
  Ret (answer (fl_sent s) c) (mkFeatureLinks (fl_addr s) (fl_type s) (fl_role s) (fl_subscriptions s) (fl_bindings s) (fl_sent s ++ [c])).

Definition FeatureLocalSubscribeToRemote (remote_addr : option FeatureAddressType) : Prog FeatureLinks EebusError :=
  s ← get;
  if bool_decide (fl_role s = kRoleTypeServer) then mret kEebusErrorNoChange
  else
    match remote_addr with
    | Some a =>
        if negb (GetRemoteDeviceSender (Some a)) then mret kEebusErrorNoChange
        else
          err ← send_call (CallSubscribe (fl_addr s) a (fl_type s));
          if negb (is_ok err) then mret err
          else modify (λ s, set_subscriptions (FeatureAddressContainerAdd (fl_subscriptions s) a) s);; mret kEebusErrorOk
    | None => mret kEebusErrorNoChange
    end.

Definition FeatureLocalRemoveRemoteSubscription (remote_addr : option FeatureAddressType) : Prog FeatureLinks EebusError :=
  s ← get;
  match remote_addr with
  | Some a =>
      if negb (GetRemoteDeviceSender (Some a)) then mret kEebusErrorNoChange
      else
        err ← send_call (CallUnsubscribe (fl_addr s) a);
        if negb (is_ok err) then mret err
        else modify (λ s, set_subscriptions (FeatureAddressContainerRemove (fl_subscriptions s) (Some a)) s);; mret kEebusErrorOk
  | None => mret kEebusErrorNoChange
  end.

Definition FeatureLocalBindToRemote (remote_addr : option FeatureAddressType) : Prog FeatureLinks EebusError :=
  s ← get;
  if bool_decide (fl_role s = kRoleTypeServer) then mret kEebusErrorNoChange
  else
    match remote_addr with
    | Some a =>
        if negb (GetRemoteDeviceSender (Some a)) then mret kEebusErrorNoChange
        else
          err ← send_call (CallBind (fl_addr s) a (fl_type s));
          if negb (is_ok err) then mret err
          else modify (λ s, set_bindings (FeatureAddressContainerAdd (fl_bindings s) a) s);; mret kEebusErrorOk
    | None => mret kEebusErrorNoChange
    end.

Definition FeatureLocalRemoveRemoteBinding (remote_addr : option FeatureAddressType) : Prog FeatureLinks EebusError :=
  s ← get;
  match remote_addr with
  | Some a =>
      if negb (GetRemoteDeviceSender (Some a)) then mret kEebusErrorNoChange
      else
        err ← send_call (CallUnbind (fl_addr s) a);
        if negb (is_ok err) then mret err
        else modify (λ s, set_bindings (FeatureAddressContainerRemove (fl_bindings s) (Some a)) s);; mret kEebusErrorOk
  | None => mret kEebusErrorNoChange
  end.

(** Until the container is empty: whether it was within [rounds]. *)
Fixpoint FeatureLocalRemoveAllRemoteSubscriptions (rounds : nat) : Prog FeatureLinks bool :=
  s ← get;
  match last (fl_subscriptions s), rounds with
  | None, _ => mret true
  | Some _, 0 => mret false
  | Some a, S rounds => FeatureLocalRemoveRemoteSubscription (Some a);; FeatureLocalRemoveAllRemoteSubscriptions rounds
  end.
Fixpoint FeatureLocalRemoveAllRemoteBindings (rounds : nat) : Prog FeatureLinks bool :=
  s ← get;
  match last (fl_bindings s), rounds with
  | None, _ => mret true
  | Some _, 0 => mret false
  | Some a, S rounds => FeatureLocalRemoveRemoteBinding (Some a);; FeatureLocalRemoveAllRemoteBindings rounds
  end.

(** [FeatureLocalCleanRemoteDeviceCaches], but for the pending replies. *)
Definition FeatureLocalCleanRemoteDeviceCaches (remote_addr : option (option string)) : Prog FeatureLinks unit :=
  match remote_addr with
  | Some (Some d) =>
      modify (λ s, set_bindings (FeatureAddressContainerRemoveForDevice (fl_bindings s) (Some d))
                     (set_subscriptions (FeatureAddressContainerRemoveForDevice (fl_subscriptions s) (Some d)) s))
  | _ => mret tt
  end.

(** ** The container is a set *)

Definition on_device (d : string) (a : FeatureAddressType) : Prop := fa_device a = Some d.
#[local] Instance on_device_dec d a : Decision (on_device d a).
Proof. unfold on_device. apply _. Defined.

Lemma address_found l a : match FeatureAddressContainerFind l (Some a) with
  | Some (i, b) => b = a ∧ l !! i = Some a
  | None => a ∉ l
  end.
Proof.
  unfold FeatureAddressContainerFind. destruct (list_find _ l) as [[i b]|] eqn:Hf.
  - apply list_find_Some in Hf as (Hi & Hb & _). rewrite FeatureAddressCompare_eq, bool_decide_eq_true in Hb. injection Hb as ->. done.
  - apply list_find_None in Hf. intros Hin. rewrite Forall_forall in Hf. apply (Hf a Hin). by rewrite FeatureAddressCompare_eq, bool_decide_true.
Qed.

Lemma address_found_in l a : (match FeatureAddressContainerFind l (Some a) with Some _ => true | None => false end) = bool_decide (a ∈ l).
Proof.
  pose proof (address_found l a) as Hf. destruct (FeatureAddressContainerFind l (Some a)) as [[i b]|]; symmetry.
  - apply bool_decide_true. destruct Hf as [_ Hi]. by eapply list_elem_of_lookup_2.
  - by apply bool_decide_false.
Qed.

Lemma address_added l a : NoDup l → NoDup (FeatureAddressContainerAdd l a) ∧ ∀ b, b ∈ FeatureAddressContainerAdd l a ↔ b = a ∨ b ∈ l.
Proof.
  intros Hl. unfold FeatureAddressContainerAdd. pose proof (address_found l a) as Hf. destruct (FeatureAddressContainerFind l (Some a)) as [[i b]|].
  - split; [done|]. destruct Hf as [_ Hi%list_elem_of_lookup_2]. naive_solver.
  - split; [apply NoDup_app; split_and!; [done| |apply NoDup_singleton]; by intros x Hx ->%list_elem_of_singleton|]. set_solver.
Qed.

Lemma delete_nodup (l : list FeatureAddressType) i a : NoDup l → l !! i = Some a → NoDup (delete i l) ∧ ∀ b, b ∈ delete i l ↔ b ≠ a ∧ b ∈ l.
Proof.
  intros Hl Hi. apply list_elem_of_split_length in Hi as (l1 & l2 & -> & ->). rewrite delete_middle.
  apply NoDup_app in Hl as (H1 & Hx & [Ha H2]%NoDup_cons). split.
  - apply NoDup_app. split_and!; [done|set_solver|done].
  - intros b. rewrite !elem_of_app, elem_of_cons. split; [|naive_solver]. intros Hb. split; [|tauto]. intros ->. destruct Hb as [Hb|Hb]; [|done].
    apply (Hx a Hb). apply list_elem_of_here.
Qed.

Lemma address_removed l a : NoDup l → NoDup (FeatureAddressContainerRemove l (Some a)) ∧ ∀ b, b ∈ FeatureAddressContainerRemove l (Some a) ↔ b ≠ a ∧ b ∈ l.
Proof.
  intros Hl. unfold FeatureAddressContainerRemove. pose proof (address_found l a) as Hf. destruct (FeatureAddressContainerFind l (Some a)) as [[i b]|].
  - destruct Hf as [_ Hi]. by apply delete_nodup.
  - split; [done|]. intros b. split; [|tauto]. intros Hb. split; [|done]. by intros ->.
Qed.

Lemma match_device a d : FeatureAddressMatchDevice (Some a) (Some d) = bool_decide (on_device d a).
Proof.
  unfold FeatureAddressMatchDevice, on_device. destruct a as [[d'|] e f]; cbn; [apply bool_decide_ext; naive_solver|by rewrite bool_decide_false].
Qed.

Lemma remove_for_device_filter d l1 : ∀ l2, remove_for_device d (length l1) (l1 ++ l2) = filter (λ a, ¬ on_device d a) l1 ++ l2.
Proof.
  induction l1 as [|a l1 IH] using rev_ind; intros l2; [done|]. rewrite length_app, Nat.add_1_r. cbn [remove_for_device].
  rewrite <- app_assoc. cbn [app]. rewrite list_lookup_middle, match_device, filter_app, <- app_assoc by done.
  destruct (decide (on_device d a)) as [Hd|Hd].
  - rewrite bool_decide_true, delete_middle by done. rewrite IH, (filter_cons_False _ a) by naive_solver. done.
  - rewrite bool_decide_false by done. rewrite IH, (filter_cons_True _ a) by done. done.
Qed.

Lemma addresses_of_device_removed l d : FeatureAddressContainerRemoveForDevice l (Some d) = filter (λ a, ¬ on_device d a) l.
Proof. cbn [FeatureAddressContainerRemoveForDevice]. rewrite <- (app_nil_r l) at 2. by rewrite remove_for_device_filter, app_nil_r. Qed.

(** ** All of them *)

Lemma remove_last (l : list FeatureAddressType) a : NoDup (l ++ [a]) → FeatureAddressContainerRemove (l ++ [a]) (Some a) = l.
Proof.
  intros Hl. unfold FeatureAddressContainerRemove. pose proof (address_found (l ++ [a]) a) as Hf.
  destruct (FeatureAddressContainerFind _ _) as [[i b]|]; [|exfalso; apply Hf; set_solver]. destruct Hf as [_ Hi].
  assert (i = length l) as -> by (eapply NoDup_lookup; [done|done|by apply list_lookup_middle]). by rewrite delete_middle, app_nil_r.
Qed.

Lemma unsubscribe_run a (s : FeatureLinks) : GetRemoteDeviceSender (Some a) = true → answer (fl_sent s) (CallUnsubscribe (fl_addr s) a) = kEebusErrorOk →
  FeatureLocalRemoveRemoteSubscription (Some a) s = Ret kEebusErrorOk
    (mkFeatureLinks (fl_addr s) (fl_type s) (fl_role s) (FeatureAddressContainerRemove (fl_subscriptions s) (Some a)) (fl_bindings s)
       (fl_sent s ++ [CallUnsubscribe (fl_addr s) a])).
Proof.
  intros Hs Ha. unfold FeatureLocalRemoveRemoteSubscription. unfold_prog. rewrite Hs. cbn [negb]. unfold send_call. by rewrite Ha.
Qed.

Lemma unsubscribe_all_run (s : FeatureLinks) rounds : NoDup (fl_subscriptions s) → length (fl_subscriptions s) ≤ rounds →
  (∀ a, a ∈ fl_subscriptions s → GetRemoteDeviceSender (Some a) = true) → (∀ sent a, answer sent (CallUnsubscribe (fl_addr s) a) = kEebusErrorOk) →
  FeatureLocalRemoveAllRemoteSubscriptions rounds s = Ret true
    (mkFeatureLinks (fl_addr s) (fl_type s) (fl_role s) [] (fl_bindings s)
       (fl_sent s ++ (CallUnsubscribe (fl_addr s) <$> reverse (fl_subscriptions s)))).
Proof.
  revert rounds. revert s. enough (∀ l rounds (s : FeatureLinks), l = fl_subscriptions s → NoDup l → length l ≤ rounds →
    (∀ a, a ∈ l → GetRemoteDeviceSender (Some a) = true) → (∀ sent a, answer sent (CallUnsubscribe (fl_addr s) a) = kEebusErrorOk) →
    FeatureLocalRemoveAllRemoteSubscriptions rounds s = Ret true
      (mkFeatureLinks (fl_addr s) (fl_type s) (fl_role s) [] (fl_bindings s) (fl_sent s ++ (CallUnsubscribe (fl_addr s) <$> reverse l)))) as Hgo
    by (intros s rounds Hnd Hlen Hs Ha; by apply Hgo).
  induction l as [|a l IH] using rev_ind; intros rounds s Hl Hnd Hlen Hs Ha.
  - assert (FeatureLocalRemoveAllRemoteSubscriptions rounds s = Ret true s) as ->.
    { destruct rounds; cbn [FeatureLocalRemoveAllRemoteSubscriptions]; unfold_prog; by rewrite <- Hl. }
    destruct s. cbn in *. subst. by rewrite app_nil_r.
  - rewrite length_app, Nat.add_1_r in Hlen. destruct rounds as [|rounds]; [lia|]. cbn [FeatureLocalRemoveAllRemoteSubscriptions].
    unfold mbind, Prog_bind, get. rewrite <- Hl, last_snoc, unsubscribe_run; [|apply Hs; set_solver|apply Ha]. rewrite <- Hl, (remove_last _ _ Hnd).
    apply NoDup_app in Hnd as (Hnd & _ & _). rewrite (IH rounds); cbn; [|done|done|lia|set_solver|done].
    by rewrite reverse_snoc, fmap_cons, <- app_assoc.
Qed.

(** Where the last call cannot be sent, because the device is not known any more or the sender refuses, the loop never ends. *)
Theorem unsubscribing_hangs (s : FeatureLinks) a rounds : last (fl_subscriptions s) = Some a →
  (GetRemoteDeviceSender (Some a) = false ∨ ∀ sent, answer sent (CallUnsubscribe (fl_addr s) a) ≠ kEebusErrorOk) →
  ∃ s', FeatureLocalRemoveAllRemoteSubscriptions rounds s = Ret false s'.
Proof.
  intros Hlast Hno. revert s Hlast Hno. induction rounds as [|rounds IH]; intros s Hlast Hno; cbn [FeatureLocalRemoveAllRemoteSubscriptions];
    unfold mbind, Prog_bind, get; rewrite Hlast; [by eexists|].
  assert (∃ err s1, FeatureLocalRemoveRemoteSubscription (Some a) s = Ret err s1 ∧ fl_subscriptions s1 = fl_subscriptions s ∧ fl_addr s1 = fl_addr s)
    as (err & s1 & Hrun & Hsub & Haddr).
  { unfold FeatureLocalRemoveRemoteSubscription. unfold_prog. destruct (GetRemoteDeviceSender (Some a)) eqn:Hg; cbn [negb]; [|by eexists _, _].
    destruct Hno as [?|Hno]; [done|]. unfold send_call. specialize (Hno (fl_sent s)). apply is_ok_false in Hno. rewrite Hno. cbn [negb]. by eexists _, _. }
  rewrite Hrun. apply IH; [by rewrite Hsub|by rewrite Haddr].
Qed.

(** ** Whatever a feature does *)

Inductive LinkOp :=
| OpSubscribe (a : option FeatureAddressType)
| OpUnsubscribe (a : option FeatureAddressType)
| OpBind (a : option FeatureAddressType)
| OpUnbind (a : option FeatureAddressType)
| OpClean (device : option (option string)).
Definition link_op (o : LinkOp) : Prog FeatureLinks unit :=
  match o with
  | OpSubscribe a => FeatureLocalSubscribeToRemote a;; mret tt
  | OpUnsubscribe a => FeatureLocalRemoveRemoteSubscription a;; mret tt
  | OpBind a => FeatureLocalBindToRemote a;; mret tt
  | OpUnbind a => FeatureLocalRemoveRemoteBinding a;; mret tt
  | OpClean d => FeatureLocalCleanRemoteDeviceCaches d
  end.

Fixpoint link_ops (os : list LinkOp) : Prog FeatureLinks unit :=
  match os with [] => mret tt | o :: os => link_op o;; link_ops os end.

(** No address is in a list twice. *)
Lemma link_op_keeps o (s s' : FeatureLinks) : NoDup (fl_subscriptions s) ∧ NoDup (fl_bindings s) → link_op o s = Ret tt s' →
  (NoDup (fl_subscriptions s') ∧ NoDup (fl_bindings s')) ∧ fl_addr s' = fl_addr s.
Proof.
  intros [Hs Hb]. assert (∀ a, NoDup (FeatureAddressContainerAdd (fl_subscriptions s) a) ∧ NoDup (FeatureAddressContainerAdd (fl_bindings s) a) ∧
    NoDup (FeatureAddressContainerRemove (fl_subscriptions s) (Some a)) ∧ NoDup (FeatureAddressContainerRemove (fl_bindings s) (Some a))) as Hall.
  { intros a. split_and!; by apply address_added || by apply address_removed. }
  destruct o as [a|a|a|a|[[d|]|]]; cbn [link_op].
  5: { intros [= <-]. split; [|done]. cbn [fl_subscriptions fl_bindings set_subscriptions set_bindings]. 
       split; (setoid_rewrite (addresses_of_device_removed _ d); by apply NoDup_filter). }
  all: unfold FeatureLocalSubscribeToRemote, FeatureLocalRemoveRemoteSubscription, FeatureLocalBindToRemote, FeatureLocalRemoveRemoteBinding,
      FeatureLocalCleanRemoteDeviceCaches, send_call; unfold_prog; try (destruct a as [a|]; [specialize (Hall a); destruct Hall as (? & ? & ? & ?)|]);
    repeat case_match; intros; simplify_eq/=; done.
Qed.

Definition FeatureLinksConstruct (addr : FeatureAddressType) (type : Z) (role : RoleType) : FeatureLinks := mkFeatureLinks addr type role [] [] [].

(** C21: Whatever a feature did before, when it is removed and every device it is subscribed to is known by its address and every call can be
    sent, it unsubscribes from everything, the last first, one call for each, and is done.  Where one of the devices is not known, or a call cannot
    be sent, the loop does not end ([unsubscribing_hangs]). *)
Theorem unsubscribes_from_all addr type role os (s : FeatureLinks) rounds : link_ops os (FeatureLinksConstruct addr type role) = Ret tt s →
  length (fl_subscriptions s) ≤ rounds →
  (∀ a, a ∈ fl_subscriptions s → GetRemoteDeviceSender (Some a) = true) → (∀ sent a, answer sent (CallUnsubscribe addr a) = kEebusErrorOk) →
  FeatureLocalRemoveAllRemoteSubscriptions rounds s = Ret true
    (mkFeatureLinks addr (fl_type s) (fl_role s) [] (fl_bindings s)
       (fl_sent s ++ (CallUnsubscribe addr <$> reverse (fl_subscriptions s)))).
Proof.
  intros Hos. assert (∀ s0 : FeatureLinks, NoDup (fl_subscriptions s0) ∧ NoDup (fl_bindings s0) → link_ops os s0 = Ret tt s →
    NoDup (fl_subscriptions s) ∧ fl_addr s = fl_addr s0) as Hgo.
  { clear Hos. induction os as [|o os IH]; intros s0 Hok; cbn [link_ops]; [intros [= <-]; by destruct Hok|].
    unfold mbind, Prog_bind. destruct (link_op o s0) as [[] s1| |] eqn:Ho; try done. apply link_op_keeps in Ho as [Hok1 <-]; [|done]. by apply IH. }
  destruct (Hgo (FeatureLinksConstruct addr type role)) as [Hnd Haddr]; [split; constructor|done|]. cbn in Haddr. subst addr. by apply unsubscribe_all_run.
Qed.
End remote_links.

(** ** A client of two servers *)

Section demo.
#[local] Instance all_known : RemoteEnv := { answer _ _ := kEebusErrorOk; has_sender_for _ := true }.
Definition own : FeatureAddressType := mkFeatureAddress (Some "local") (Some [Some 1%Z]) (Some 2%Z).
Definition server (device : string) : FeatureAddressType := mkFeatureAddress (Some device) (Some [Some 1%Z]) (Some 3%Z).
Definition some_ops : list LinkOp :=
  [OpSubscribe (Some (server "a")); OpSubscribe (Some (server "b")); OpBind (Some (server "a")); OpSubscribe (Some (server "a"));
   OpSubscribe (Some (server "c")); OpClean (Some (Some "c"))].
Definition subscribed : FeatureLinks :=
  match link_ops some_ops (FeatureLinksConstruct own kFeatureTypeTypeLoadControl kRoleTypeClient) with
  | Ret _ s => s | _ => FeatureLinksConstruct own kFeatureTypeTypeLoadControl kRoleTypeClient end.

Lemma unsubscribes_from_all_witness : fl_subscriptions subscribed = [server "a"; server "b"] ∧
  FeatureLocalRemoveAllRemoteSubscriptions 2 subscribed = Ret true
    (mkFeatureLinks own (fl_type subscribed) (fl_role subscribed) [] (fl_bindings subscribed)
       (fl_sent subscribed ++ [CallUnsubscribe own (server "b"); CallUnsubscribe own (server "a")])).
Proof.
  assert (fl_subscriptions subscribed = [server "a"; server "b"]) as Hsub by by vm_compute. split; [exact Hsub|].
  apply (unsubscribes_from_all own kFeatureTypeTypeLoadControl kRoleTypeClient some_ops subscribed 2); [by vm_compute|vm_compute; lia| |done].
  intros a. rewrite Hsub. intros [->|[->|[]%not_elem_of_nil]%elem_of_cons]%elem_of_cons; done.
Defined.
End demo.

(** A device that is not known by its address, as it is before it was discovered, or while its connection is closed. *)
Section lost.
#[local] Instance none_known : RemoteEnv := { answer _ _ := kEebusErrorOk; has_sender_for _ := false }.
Example removal_hangs rounds : ∃ s', FeatureLocalRemoveAllRemoteSubscriptions rounds subscribed = Ret false s'.
Proof. apply (unsubscribing_hangs subscribed (server "b")); [by vm_compute|by left]. Qed.
End lost.
