(* ===== verification/DiscoveryInv.v ===== *)
(** * The tree of a remote device, whatever it announces

    Every reply, of any content, leaves the entities told apart by their ids and the features under their entity,
    each with the functions of its type; a pointer to a feature is to no other. *)

From S2P Require Import Prelude FeatureFunctions Duration DateTime EebusData EebusDataWrite EebusDataFacts EebusDataList SpineTables SpineFunction Timer Vector Pool Spine LinkManager Pending Sender Datagram FeatureData SpineTablesFacts UseCase UseCaseFacts UseCaseTable Discovery DiscoveryFacts DiscoveryTree.

Local Open Scope list_scope.

Section invariant.
Context `{malloc : Allocator} {E : SpineEnv}.

(** ** Features *)

Definition feature_under (e : EntityNode) (f : FeatureNode) : Prop :=
  (∃ id, fn_address f = mkFeatureAddress (ea_device (en_address e)) (ea_entity (en_address e)) (Some id)) ∧
  type <$> functions (fn_data f) = default [] (GetFeatureFunctions (fd_type (fn_data f))).

Definition has_ids (e : EntityNode) : Prop := ∃ ids, ids ≠ [] ∧ ea_entity (en_address e) = Some (Some <$> ids).

Lemma set_operations_types supported : ∀ fd, fd_type (FeatureRemoteSetFunctionOperations fd supported) = fd_type fd ∧
  type <$> functions (FeatureRemoteSetFunctionOperations fd supported) = type <$> functions fd.
Proof.
  induction supported as [|[[t|] [ops|]] l IH]; intros fd; try done; try apply IH.
  cbn [FeatureRemoteSetFunctionOperations]. destruct (IH (SetRemoteOperations fd t ops)) as [-> ->].
  unfold SetRemoteOperations, FeatureGetFunction. destruct (list_find _ (functions fd)) as [[i f]|] eqn:Hf; [|done].
  apply list_find_Some in Hf as (Hi & _ & _). split; [done|]. cbn [set_function with_functions functions].
  rewrite list_fmap_insert. apply list_insert_id. rewrite list_lookup_fmap, Hi. unfold SetOperations. simpl. by destruct (operations f).
Qed.

Lemma feature_create_inv prev self i e t role self' f : has_ids e → feature_create prev self i e t role = Some (self', f) →
  self' = new_object self ∧ fn_id f = rd_next_id self ∧ feature_under e f.
Proof.
  intros (ids & _ & He). unfold feature_create, FeatureAddressCreate, FeatureConstruct. rewrite He.
  change (default [] (Some (Some <$> ids))) with (Some <$> ids). rewrite (mapM_fmap_Some id Some) by done.
  cbn [mbind option_bind].
  destruct (feature_functions_known t) as (fs & Hfs & Ht & _). rewrite Hfs. cbn [mbind option_bind]. intros [= <- <-].
  split_and!; [done|done|]. split; [by exists i; rewrite He|done].
Qed.

Lemma with_info_inv self e d self' r : has_ids e → FeatureRemoteCreateWithInfo self e d = Some (self', r) →
  match r with
  | None => self' = self
  | Some f => (∃ nm, self' = with_objects nm (S (rd_next_id self)) self) ∧ fn_id f = rd_next_id self ∧ feature_under e f
  end.
Proof.
  intros He. unfold FeatureRemoteCreateWithInfo.
  destruct (fe_feature_address d ≫= fa_feature) as [id|], (fe_feature_type d) as [t|], (fe_role d) as [role|]; try by intros [= <- <-].
  assert (∀ self' f, (if bool_decide (t = kFeatureTypeTypeNodeManagement) && bool_decide (role = kRoleTypeSpecial)
      then NodeManagementRemoteCreate self id e else FeatureRemoteCreate self id e t role) = Some (self', f) →
      (∃ nm, self' = with_objects nm (S (rd_next_id self)) self) ∧ fn_id f = rd_next_id self ∧ feature_under e f) as Hcreate.
  { intros self1 f. destruct (_ && _).
    - unfold NodeManagementRemoteCreate. destruct (feature_create (Some Null) self id e _ _) as [[self2 f2]|] eqn:Hc; [|done].
      intros [= <- <-]. destruct (feature_create_inv _ _ _ _ _ _ _ _ He Hc) as (-> & Hid & Hu). split; [by eexists|done].
    - intros Hc. destruct (feature_create_inv _ _ _ _ _ _ _ _ He Hc) as (-> & Hid & Hu). split; [|done]. by exists (rd_node_management self). }
  destruct (if _ : bool then _ else _) as [[self1 f1]|]; [|done]. destruct (Hcreate self1 f1 eq_refl) as (Hself & Hid & [Ha Hfs]).
  cbn [mbind option_bind]. destruct (mapM _ _) as [supported|]; [|done]. intros [= <- <-].
  split_and!; [done|by destruct (fe_max_response_delay d)|].
  match goal with |- feature_under _ (with_data (FeatureRemoteSetFunctionOperations ?fd supported) _) =>
    destruct (set_operations_types supported fd) as [Ht Hfs'] end.
  split; [by destruct (fe_max_response_delay d)|]. cbn [with_data fn_data]. rewrite Ht, Hfs'. by destruct (fe_max_response_delay d).
Qed.

Lemma add_features_inv infos : ∀ self e self' e', has_ids e → EntityRemoteAddFeaturesWithInfo self e infos = Some (self', e') →
  ∃ nm gs, self' = with_objects nm (rd_next_id self + length gs) self ∧ e' = with_features (en_features e ++ gs) e ∧
    fn_id <$> gs = seq (rd_next_id self) (length gs) ∧ Forall (feature_under e) gs.
Proof.
  induction infos as [|[[d|]|] infos IH]; intros self e self' e' He; cbn [EntityRemoteAddFeaturesWithInfo mbind option_bind]; try done.
  { intros [= <- <-]. exists (rd_node_management self), []. rewrite app_nil_r. split_and!; [|by destruct e|done|constructor].
    cbn. rewrite Nat.add_0_r. by destruct self. }
  destruct (EntityIdsMatch _ _); [|by apply IH].
  destruct (FeatureRemoteCreateWithInfo self e d) as [[self1 [f|]]|] eqn:Hc; [| |done]; apply with_info_inv in Hc; try done; cbn [mbind option_bind].
  - destruct Hc as ([nm1 ->] & Hid & Hf). intros Hrest. apply IH in Hrest as (nm & gs & -> & -> & Hids & Hgs); [|done].
    exists nm, (f :: gs). split_and!.
    + cbn. by rewrite Nat.add_succ_r.
    + unfold EntityRemoteAddFeature, with_features. cbn. by rewrite <- app_assoc.
    + rewrite fmap_cons, Hids, Hid. done.
    + by constructor.
  - subst self1. by apply IH.
Qed.
(** ** Entities *)

Definition entity_ids (e : EntityNode) : option (list (option Z)) := ea_entity (en_address e).
Definition objects (es : list EntityNode) : list nat := fn_id <$> (es ≫= en_features).

Record tree_ok (self : RemoteDevice) : Prop := {
  to_ids : NoDup (entity_ids <$> rd_entities self);
  to_entities : Forall (λ e, has_ids e ∧ Forall (feature_under e) (en_features e)) (rd_entities self);
  to_objects : NoDup (objects (rd_entities self));
  to_fresh : Forall (λ n, n < rd_next_id self) (objects (rd_entities self));
}.

Lemma objects_app es es' : objects (es ++ es') = objects es ++ objects es'.
Proof. unfold objects. by rewrite bind_app, fmap_app. Qed.
Lemma objects_cons e es : objects (e :: es) = (fn_id <$> en_features e) ++ objects es.
Proof. unfold objects. by rewrite bind_cons, fmap_app. Qed.

(** An entity is replaced by one of the same ids with new objects. *)
Lemma replace_entity self i e e' nm gs : tree_ok self → rd_entities self !! i = Some e → entity_ids e' = entity_ids e →
  en_features e' = gs → fn_id <$> gs = seq (rd_next_id self) (length gs) → Forall (feature_under e') gs →
  tree_ok (with_objects nm (rd_next_id self + length gs) (with_entity i e' self)).
Proof.
  intros [Hids Hes Hobj Hfresh] Hi He Hfs Hgs Hunder.
  apply list_elem_of_split_length in Hi as (l1 & l2 & Hl & ->). rewrite Hl in *.
  assert (<[length l1 := e']> (l1 ++ e :: l2) = l1 ++ e' :: l2) as Hins by by rewrite <- (Nat.add_0_r (length l1)), insert_app_r.
  rewrite objects_app, objects_cons in *. apply Forall_app in Hfresh as [Hf1 [_ Hf2]%Forall_app].
  apply Forall_app in Hes as [Hes1 [[(ids & Hne & Ha) _] Hes2]%Forall_cons].
  assert (objects (l1 ++ e' :: l2) ≡ₚ seq (rd_next_id self) (length gs) ++ (objects l1 ++ objects l2)) as Hperm.
  { rewrite objects_app, objects_cons, Hfs, Hgs. by rewrite Permutation_app_swap_app. }
  constructor; cbn; rewrite Hl, Hins.
  - rewrite fmap_app, fmap_cons in *. by rewrite He.
  - apply Forall_app. split; [done|]. apply Forall_cons. split; [|done]. split; [|by rewrite Hfs].
    exists ids. unfold entity_ids in He. by rewrite He.
  - rewrite Hperm. apply NoDup_app. split_and!; [apply NoDup_seq| |].
    + intros n [Hn _]%elem_of_seq Hin. rewrite Forall_forall in Hf1, Hf2.
      apply elem_of_app in Hin as [Hin|Hin]; [apply Hf1 in Hin|apply Hf2 in Hin]; lia.
    + rewrite (Permutation_app_swap_app (objects l1)) in Hobj. by apply NoDup_app in Hobj as (_ & _ & Hobj).
  - rewrite Hperm. apply Forall_app. split.
    + apply Forall_forall. intros n [_ Hn]%elem_of_seq. lia.
    + apply Forall_app; split; eapply Forall_impl; try eassumption; intros n; simpl; lia.
Qed.

Lemma refresh_inv self data d i self' outs : tree_ok self → refresh_entity self data d i = Some (self', outs) →
  tree_ok self' ∧ rd_feature_set self' = rd_feature_set self.
Proof.
  intros Hok. unfold refresh_entity. destruct (rd_entities self !! i) as [e|] eqn:Hi; [|done]. cbn [mbind option_bind].
  set (e1 := EntitySetDescription (ed_description d) _).
  assert (entity_ids e1 = entity_ids e) as Hids.
  { subst e1. unfold UpdateDeviceAddress. destruct (DeviceInfoGetDeviceAddress _); [|done]. by case_match. }
  unfold RemoveAllFeatures. destruct (delete_features _ _) as [gone|]; [|done]. cbn [mbind option_bind].
  destruct (EntityRemoteAddFeaturesWithInfo _ _ _) as [[self1 e2]|] eqn:Hadd; [|done]. cbn [mbind option_bind]. intros [= <- _].
  assert (has_ids (with_features [] e1)) as He1.
  { pose proof (to_entities self Hok) as Hes. rewrite Forall_forall in Hes.
    destruct (Hes e) as [(ids & Hne & Ha) _]; [by eapply list_elem_of_lookup_2|]. exists ids. split; [done|]. by rewrite <- Ha. }
  apply add_features_inv in Hadd as (nm & gs & -> & -> & Hgs & Hunder); [|done]. split; [|done].
  by apply (replace_entity self i e _ nm gs).
Qed.

Lemma not_found_ids self ids : find_entity self (Some (Some <$> ids)) = None → ids ≠ [] → Forall has_ids (rd_entities self) →
  Some (Some <$> ids) ∉ entity_ids <$> rd_entities self.
Proof.
  unfold find_entity. intros Hf Hne Hall (e & He & Hin)%list_elem_of_fmap. rewrite Forall_forall in Hall.
  destruct (Hall e Hin) as (ids' & Hne' & Ha). apply fmap_None, list_find_None in Hf. rewrite Forall_forall in Hf. apply (Hf e Hin).
  rewrite (match_ids _ ids') by done. apply bool_decide_eq_true. unfold entity_ids in He. rewrite Ha in He. by injection He as ->%(inj (fmap Some)).
Qed.

Lemma add_entity_inv self addr t self' i : tree_ok self → find_entity self (ea_entity addr) = None →
  AddEntityWithAddressAndType self addr t = Some (self', Some i) →
  tree_ok self' ∧ rd_feature_set self' = rd_feature_set self.
Proof.
  intros [Hids Hes Hobj Hfresh] Hfind. unfold AddEntityWithAddressAndType. destruct (negb _); [done|].
  destruct (mapM id (default [] (ea_entity addr))) as [ids|] eqn:Hm; [|done]. unfold EntityConstruct.
  destruct ids as [|i0 ids0] eqn:Hcons; [done|]. rewrite <- Hcons in *. cbn [mbind option_bind]. intros [= <- _]. split; [|done].
  assert (ids ≠ []) as Hne by by rewrite Hcons.
  assert (ea_entity addr = Some (Some <$> ids)) as Haddr.
  { destruct (ea_entity addr) as [l|]; [|by injection Hm as <-]. f_equal. apply mapM_Some_1 in Hm. clear -Hm.
    change (default [] (Some l)) with l in Hm. induction Hm as [|x y xs ys Hx _ IH]; [done|]. cbn in Hx. subst x. by rewrite fmap_cons, <- IH. }
  rewrite Haddr in Hfind.
  constructor; cbn [with_entities rd_entities rd_next_id]; rewrite ?objects_app, ?fmap_app.
  - apply NoDup_app. split_and!; [done| |apply NoDup_singleton]. intros x Hx ->%list_elem_of_singleton.
    apply (not_found_ids self ids); try done. eapply Forall_impl; [exact Hes|]. by intros e [].
  - apply Forall_app. split; [done|]. apply Forall_singleton. split; [by exists ids|constructor].
  - by rewrite app_nil_r.
  - by rewrite app_nil_r.
Qed.
Lemma add_entities_inv init data infos : ∀ self new self' r outs, tree_ok self → add_entities self init data infos new = Some (self', r, outs) →
  tree_ok self' ∧ rd_feature_set self' = rd_feature_set self.
Proof.
  induction infos as [|[info|] infos IH]; intros self new self' r outs Hok; cbn [add_entities mbind option_bind]; [by intros [= <- _ _]| |done].
  destruct (negb _); [by intros [= <- _ _]|]. destruct info as [d|]; [|done]. cbn [mbind option_bind].
  destruct (ed_entity_address d) as [addr|]; [|done]. cbn [mbind option_bind].
  assert (∀ self1 i new1, (match find_entity self (ea_entity addr) with
      | Some i => Some (self, i, new)
      | None => t ← ed_entity_type d; '(self, i) ← AddEntityWithAddressAndType self addr t; i ← i; Some (self, i, new ++ [i])
      end) = Some (self1, i, new1) → tree_ok self1 ∧ rd_feature_set self1 = rd_feature_set self) as Hfound.
  { intros self1 i new1. destruct (find_entity self (ea_entity addr)) as [j|] eqn:Hf; [by intros [= <- _ _]|].
    destruct (ed_entity_type d) as [t|]; [|done]. cbn [mbind option_bind].
    destruct (AddEntityWithAddressAndType self addr t) as [[self2 [j|]]|] eqn:Ha; try done. cbn [mbind option_bind]. intros [= <- _ _].
    by apply (add_entity_inv _ _ _ _ _ Hok Hf Ha). }
  destruct (match find_entity _ _ with Some _ => _ | None => _ end) as [[[self1 i] new1]|]; [|done]. cbn [mbind option_bind].
  destruct (Hfound self1 i new1 eq_refl) as [Hok1 <-].
  destruct (refresh_entity self1 data d i) as [[self2 outs2]|] eqn:Hr; [|done]. cbn [mbind option_bind].
  apply refresh_inv in Hr as [Hok2 <-]; [|done].
  destruct (add_entities self2 init data infos new1) as [[[self3 r3] outs3]|] eqn:Hrest; [|done]. cbn [mbind option_bind]. intros [= <- _ _].
  by apply (IH _ _ _ _ _ Hok2) in Hrest.
Qed.

(** ** Replies *)

Lemma update_device_inv self d self' : tree_ok self → UpdateDevice self d = Some self' → tree_ok self'.
Proof.
  intros [? ? ? ?]. destruct d as [d|]; [|by intros [= <-]]. unfold UpdateDevice.
  destruct (dd_device_type d), (rd_feature_set self), (dd_network_feature_set d); try done; intros [= <-]; by constructor.
Qed.

(** A reply that is not refused at once has updated the device, and then only its entities. *)
Lemma reply_inv self a cmd msg err self' outs : tree_ok self → ProcessReplyDetailedDiscoveryData self a cmd msg = Some (err, self', outs) →
  tree_ok self' ∧ ∀ data d, data_discovery (data_choice cmd) = Some data → device_information data = Some (Some d) →
    ∃ self1, UpdateDevice self (Some d) = Some self1 ∧ rd_feature_set self' = rd_feature_set self1.
Proof.
  intros Hok. unfold ProcessReplyDetailedDiscoveryData. destruct (data_discovery (data_choice cmd)) as [data|]; [|done]. cbn [mbind option_bind].
  destruct (device_information data) as [[d|]|] eqn:Hd.
  2-3: intros [= _ <- _]; split; [done|]; intros ? ? [= <-]; congruence.
  destruct (UpdateDevice self (Some d)) as [self1|] eqn:Hu; [|done]. cbn [mbind option_bind]. intros Hrest.
  assert (tree_ok self' ∧ rd_feature_set self' = rd_feature_set self1) as [? ?].
  { apply update_device_inv in Hu; [|done]. destruct (FeatureAddressCopy a) as [[a'|]|]; [|by injection Hrest as _ <- _|done].
    cbn [mbind option_bind] in Hrest. unfold AddEntityAndFeatures in Hrest.
    destruct (add_entities self1 true data _ []) as [[[self2 r] outs2]|] eqn:Hadd; [|done]. apply add_entities_inv in Hadd; [|done].
    cbn [mbind option_bind] in Hrest. destruct r as [new|]; [|by injection Hrest as _ <- _].
    destruct (msg_cnt_ref msg) as [ref|]; [|by injection Hrest as _ <- _].
    destruct (RemoteGetFeatureWithAddress self2 a') as [g|]; [|done]. by injection Hrest as _ <- _. }
  split; [done|]. intros data' d' [= <-]. rewrite Hd. intros [= <-]. by exists self1.
Qed.

(** What replies make of a device of which nothing is known. *)
Inductive reachable (ski : string) : RemoteDevice → Prop :=
| Constructed rd : DeviceRemoteConstruct ski = Some rd → reachable ski rd
| Replied rd a cmd msg err rd' outs : reachable ski rd →
    ProcessReplyDetailedDiscoveryData rd a cmd msg = Some (err, rd', outs) → reachable ski rd'.

Lemma reachable_ok ski rd : reachable ski rd → tree_ok rd.
Proof.
  induction 1 as [rd Hrd|rd a cmd msg err rd' outs _ Hok Hr]; [|by apply (reply_inv _ _ _ _ _ _ _ Hok) in Hr as [? _]].
  destruct (device_constructed ski) as (f & (_ & Hid & Ha & Ht) & Hc). rewrite Hc in Hrd. injection Hrd as <-.
  constructor; cbn; rewrite ?Hid; try apply NoDup_singleton; repeat constructor; [|by exists 0%Z|done].
  by exists [DEVICE_INFORMATION_ENTITY_ID].
Qed.

(** C18: Whatever another device announces, and however often: its entities have different ids; each feature is under
    its entity and has the functions of its type, in the order of the table; no two features are one object. *)
Theorem announced_tree_ok ski rd : reachable ski rd → tree_ok rd.
Proof. apply reachable_ok. Qed.

(** A reply that tells type and feature set of the device frees the feature set of before; where the device had
    one from the same reply, it is freed twice. *)
Theorem second_reply_frees_twice ski rd a cmd msg err rd' outs data d : reachable ski rd →
  data_discovery (data_choice cmd) = Some data → device_information data = Some (Some d) →
  dd_device_type d ≠ None → dd_network_feature_set d ≠ None →
  ProcessReplyDetailedDiscoveryData rd a cmd msg = Some (err, rd', outs) →
  ∀ a' msg', ProcessReplyDetailedDiscoveryData rd' a' cmd msg' = None.
Proof.
  intros Hrd Hdata Hd Ht Hs Hr a' msg'. apply reachable_ok in Hrd. apply reply_inv in Hr as [_ Hset]; [|done].
  destruct (Hset data d Hdata Hd) as (self1 & Hu & Hset1). unfold ProcessReplyDetailedDiscoveryData. rewrite Hdata. cbn [mbind option_bind]. rewrite Hd.
  assert (UpdateDevice rd' (Some d) = None) as ->; [|done]. unfold UpdateDevice in *. rewrite Hset1.
  destruct (dd_device_type d) as [t|], (dd_network_feature_set d) as [s|]; try done.
  destruct (rd_feature_set rd); try done; by injection Hu as <-.
Qed.
End invariant.

(** ** Discovering a device with two entities

    The witnesses of [DiscoveryTree] and [DiscoveryInv], and what goes wrong with other announcements. *)

Section demo.
#[local] Instance malloc_zero_is_null : Allocator := false.
#[local] Instance all_is_sent : SpineEnv := { sent := λ _, (kEebusErrorOk, 1%Z); has_sender := true }.

Definition dev : string := "d:_n:demo_1".
Definition kEntityTypeTypeHeatPumpAppliance : Z := 15.

(** A server whose first function can be read and written. *)
Definition server_data (t : Z) (role : RoleType) : FeatureData :=
  match FeatureConstruct (default [] (GetFeatureFunctions t)) t role with
  | Some fd => fst (FeatureLocalSetFunctionOperations fd (hd 0 (default [] (GetFeatureFunctions t))) true true)
  | None => mkFeatureData t role [] 0
  end.
Definition feature (entity id t : Z) (role : RoleType) (description : option string) : FeatureNode :=
  mkFeatureNode (mkFeatureAddress (Some dev) (Some [Some entity]) (Some id)) description (server_data t role) kDefaultMaxResponseDelayMs None 0.

Definition heat_pump : LocalDevice :=
  mkLocalDevice (Some dev) (Some 5%Z) (Some 1%Z)
    [ mkEntityNode (EntityAddressCreate (Some dev) [0%Z]) kEntityTypeTypeDeviceInformation None 2
        [ feature 0 0 kFeatureTypeTypeNodeManagement kRoleTypeSpecial None;
          feature 0 1 kFeatureTypeTypeDeviceClassification kRoleTypeServer None ];
      mkEntityNode (EntityAddressCreate (Some dev) [1%Z]) kEntityTypeTypeHeatPumpAppliance (Some "heat pump") 2
        [ feature 1 1 kFeatureTypeTypeLoadControl kRoleTypeServer (Some "limits") ] ].

Definition the_reply : Message := mkMessage None kCommandClassifierTypeReply None None None.

Lemma heat_pump_ok : local_ok dev heat_pump.
Proof.
  constructor; [done| |by apply (bool_decide_unpack _); vm_compute|].
  - repeat constructor; eexists; (split; [|split; [reflexivity|]]); try done; repeat constructor; by eexists.
  - by do 4 eexists.
Qed.

Lemma heat_pump_typed : device_typed heat_pump.
Proof. constructor; repeat constructor; by vm_compute. Qed.

Lemma discovered_as_announced_witness :
  ∃ cmd rd rd' nm f, ProcessReadDetailedDiscoveryData heat_pump the_reply =
      Some (fst (sent (SentReply (request_header the_reply) cmd)), [SentReply (request_header the_reply) cmd]) ∧
    DeviceRemoteConstruct "abcd" = Some rd ∧
    ProcessReplyDetailedDiscoveryData rd (nm_address None) cmd the_reply =
      Some (kEebusErrorOk, rd', DeviceAdded (Some nm) :: (EntityAdded <$> tail (rd_entities rd')) ++
                                  (match msg_cnt_ref the_reply with Some ref => [DiscoveryReplyProcessed ref nm] | None => [] end)) ∧
    rd_address rd' = ld_address heat_pump ∧ rd_type rd' = ld_type heat_pump ∧ rd_feature_set rd' = feature_set_of heat_pump ∧
    entity_view <$> rd_entities rd' = entity_view <$> ld_entities heat_pump ∧
    head (all_features heat_pump) = Some f ∧ feature_view nm = feature_view f ∧ is_Some (find_object rd' (rd_node_management rd')).
Proof. apply (discovered_as_announced dev heat_pump "abcd" the_reply the_reply); [apply heat_pump_ok|apply heat_pump_typed]. Defined.
(** ** Once more *)

Definition unknown : RemoteDevice := mkRemoteDevice None None IntNull "" [] 0 0.
Definition constructed : RemoteDevice := default unknown (DeviceRemoteConstruct "abcd").
Definition after (d : DiscoveryData) : RemoteDevice :=
  match ProcessReplyDetailedDiscoveryData constructed (nm_address None) (discovery_cmd d) the_reply with Some (_, rd, _) => rd | None => unknown end.
Definition first_events (d : DiscoveryData) : list DiscoveryOut :=
  match ProcessReplyDetailedDiscoveryData constructed (nm_address None) (discovery_cmd d) the_reply with Some (_, _, outs) => outs | None => [] end.

Lemma discovered_reachable : reachable "abcd" (after (announced heat_pump)).
Proof.
  apply (Replied _ constructed (nm_address None) (discovery_cmd (announced heat_pump)) the_reply kEebusErrorOk _ (first_events (announced heat_pump)));
    [by apply Constructed; vm_compute|by vm_compute].
Qed.

Lemma announced_tree_ok_witness : tree_ok (after (announced heat_pump)).
Proof. apply (announced_tree_ok "abcd"), discovered_reachable. Defined.

Lemma second_reply_frees_twice_witness :
  ProcessReplyDetailedDiscoveryData (after (announced heat_pump)) (nm_address None) (discovery_cmd (announced heat_pump)) the_reply = None.
Proof.
  apply (second_reply_frees_twice "abcd" constructed (nm_address None) (discovery_cmd (announced heat_pump)) the_reply kEebusErrorOk
    (after (announced heat_pump)) (first_events (announced heat_pump)) (announced heat_pump) (announced_device heat_pump));
    [by apply Constructed; vm_compute|apply data_discovery_data|done|done|done|by vm_compute].
Defined.

(** ** A device without a node management *)

Definition bare : LocalDevice :=
  mkLocalDevice (Some dev) None None [mkEntityNode (EntityAddressCreate (Some dev) [0%Z]) kEntityTypeTypeDeviceInformation None 1 []].
Definition refers_to (ref : Z) : Message :=
  mkMessage (Some (mkHdr None None None None None (Some ref) None None None)) kCommandClassifierTypeReply None None None.

(** The one that was constructed with the device is gone, and the pointer to it stays; an answer to a request is
    followed to its entity. *)
Theorem management_gone :
  first_events (announced bare) = [DeviceAdded None] ∧
  find_object (after (announced bare)) (rd_node_management (after (announced bare))) = None ∧
  ProcessReplyDetailedDiscoveryData constructed (nm_address None) (discovery_cmd (announced bare)) (refers_to 1) = None.
Proof. split_and!; by vm_compute. Qed.

(** A delay of ten seconds is one of ten milliseconds. *)
Definition slow_feature : FeatureDescription :=
  mkFeatureDescription (Some (nm_address None)) (Some kFeatureTypeTypeNodeManagement) (Some kRoleTypeSpecial) None None
    (Some (mkDuration 0 0 0 0 0 10 0)).
Example delay_in_seconds :
  match rd_entities constructed with
  | e :: _ => ∃ rd f, FeatureRemoteCreateWithInfo constructed e slow_feature = Some (rd, Some f) ∧ fn_max_response_delay f = 10%Z
  | [] => False
  end.
Proof. do 2 eexists. split; by vm_compute. Qed.
End demo.
