(* ===== verification/DeviceRouting.v ===== *)
(** * Where messages go and what they can do

    A write reaches a feature only through a binding and changes nothing but its data; a message touches no device
    but the one it came from. *)

From stdpp Require Import gmap.
From S2P Require Import Prelude FeatureFunctions Duration DateTime EebusData EebusDataWrite EebusDataFacts SpineTables SpineFunction Json EebusDataJson Timer Vector Pool Spine FeatureLink LinkManager BindingManager SubscriptionManager Pending Sender Datagram DatagramWire FeatureData SpineTablesFacts UseCase Discovery DiscoveryFacts DiscoveryTree DiscoveryInv DeviceBuild DeviceLocal.

Local Open Scope list_scope.

(** ** What a message can change of a device

    Data of functions only: the entities, the features, their functions and operations stay, here and, but for
    discovery, in the copies of the devices of others. *)

(** ** Features without their data *)

Definition skeleton (fd : FeatureData) : Z * RoleType * list (nat * option Operations) :=
  (fd_type fd, fd_role fd, (λ f, (type f, operations f)) <$> functions fd).
Definition feature_shape (f : FeatureNode) := (fn_address f, fn_description f, fn_id f, skeleton (fn_data f)).
Definition entity_shape (e : EntityNode) := (en_address e, en_type e, en_description e, en_next_feature_id e, feature_shape <$> en_features e).
Definition tree_shape (t : LocalDevice) := (ld_address t, ld_type t, ld_feature_set t, entity_shape <$> ld_entities t).

Ltac open_options := repeat (simplify_option_eq; repeat match goal with x : (_ * _)%type |- _ => destruct x end).

Section frame.
Context {V : Type → Type} `{VectorInterface V} `{malloc : Allocator} `{CJson} {E : SpineEnv}.
Abbreviation Device := (Device (V := V)).

Lemma UpdateData_shape f d fp fdel wr persist err f' : UpdateData f d fp fdel wr persist = Some (err, f') →
  (type f', operations f') = (type f, operations f).
Proof. unfold UpdateData. intros Hu. destruct fp, fdel, persist; open_options; by simplify_eq/=. Qed.

Lemma set_function_skeleton fd i f f' : functions fd !! i = Some f → (type f', operations f') = (type f, operations f) →
  skeleton (set_function i f' fd) = skeleton fd.
Proof.
  intros Hi Ht. unfold skeleton. cbn [set_function with_functions functions fd_type fd_role]. f_equal.
  rewrite list_fmap_insert, Ht. apply list_insert_id. by rewrite list_lookup_fmap, Hi.
Qed.

Lemma found_at fd t i f : FeatureGetFunction fd t = Some (i, f) → functions fd !! i = Some f.
Proof. by intros (? & _ & _)%list_find_Some. Qed.

Lemma update_function_skeleton missing fd t d fp fdel wr persist err fd' :
  update_function missing fd t d fp fdel wr persist = Some (err, fd') → skeleton fd' = skeleton fd.
Proof.
  unfold update_function. destruct (FeatureGetFunction fd t) as [[i f]|] eqn:Hf; [|by intros [= _ <-]].
  destruct (UpdateData f d fp fdel wr persist) as [[err' f']|] eqn:Hu; [|done]. cbn [mbind option_bind]. intros [= _ <-].
  eapply set_function_skeleton; [by apply found_at in Hf|by apply UpdateData_shape in Hu].
Qed.

Lemma ProcessWrite_skeleton fd cmd msg err fd' os : ProcessWrite fd cmd msg = Some (err, fd', os) → skeleton fd' = skeleton fd.
Proof.
  unfold ProcessWrite. destruct (_ <? _); [by intros [= _ <- _]|]. unfold ProcessWriteInternal.
  destruct (request_header msg) as [h|]; [|by intros [= _ <- _]]. unfold ProcessWriteFunctionData.
  destruct (FeatureGetFunction fd _) as [[i f]|] eqn:Hf; [|cbn; by intros [= _ <- _]].
  destruct (UpdateData f _ _ _ _ _) as [[err' f']|] eqn:Hu; [|done]. cbn [mbind option_bind].
  assert (skeleton (set_function i f' fd) = skeleton fd) as Hs
    by (eapply set_function_skeleton; [by apply found_at in Hf|by apply UpdateData_shape in Hu]).
  destruct (negb (is_ok err')); [cbn; by intros [= _ <- _]|].
  destruct (FunctionUpdateNotifySubscribers _ _ _ _) as [[e o]|]; [|done]. cbn. by intros [= _ <- _].
Qed.

(** A write changes the local feature, a reply or a notification the copy, other messages neither. *)
Lemma HandleMessage_shape fd frd msg err fd' frd' os : HandleMessage fd frd msg = Some (err, (fd', frd'), os) →
  skeleton fd' = skeleton fd ∧ skeleton frd' = skeleton frd ∧
  (msg_cmd_classifier msg ≠ kCommandClassifierTypeWrite → fd' = fd) ∧ (msg_cmd_classifier msg = kCommandClassifierTypeWrite → frd' = frd).
Proof.
  unfold HandleMessage. destruct (msg_cmd msg) as [cmd|]; [|by intros [= _ <- <- _]].
  destruct (null _); [by intros [= _ <- <- _]|]. destruct (msg_cmd_classifier msg); try by intros [= _ <- <- _].
  - destruct (ProcessRead fd cmd msg) as [[e o]|]; [|done]. cbn. by intros [= _ <- <- _].
  - unfold ProcessReply, FeatureRemoteUpdateData. destruct (update_function _ _ _ _ _ _ _ _) as [[e g]|] eqn:Hu; [|done].
    cbn. intros [= _ <- <- _]. split_and!; try done. by eapply update_function_skeleton.
  - unfold ProcessNotify, FeatureRemoteUpdateData. destruct (update_function _ _ _ _ _ _ _ _) as [[e g]|] eqn:Hu; [|done].
    cbn. intros [= _ <- <- _]. split_and!; try done. by eapply update_function_skeleton.
  - destruct (ProcessWrite fd cmd msg) as [[[e g] o]|] eqn:Hw; [|done]. cbn. intros [= _ <- <- _]. split_and!; try done.
    by eapply ProcessWrite_skeleton.
  - destruct (FeatureLocalProcessResult cmd msg). by intros [= _ <- <- _].
Qed.

Lemma UpdateUseCaseData_feature dr nm d err nm' ucs : UpdateUseCaseData dr nm d = Some (err, nm', ucs) → nmr_feature nm' = nmr_feature nm.
Proof.
  unfold UpdateUseCaseData. destruct (read_opt data_use_cases d) as [new|]; [|done]. cbn [mbind option_bind].
  destruct (read_opt data_use_cases _) as [prev|]; [|done]. cbn [mbind option_bind].
  destruct (match new with None => _ | Some _ => _ end) as [added|]; [|done]. cbn [mbind option_bind].
  destruct (match prev with None => _ | Some _ => _ end) as [removed|]; [|done]. cbn [mbind option_bind].
  destruct new; [|by intros [= _ <- _]]. destruct (ModelGetDataCfg _) as [cfg|]; [|done]. cbn [mbind option_bind].
  destruct (copy cfg d Null) as [[e c]|]; [|done]. cbn [mbind option_bind]. destruct (is_ok e); by intros [= _ <- _].
Qed.

Lemma NodeManagementUpdate_shape dr nm t d fp fdel persist err nm' ucs :
  NodeManagementRemoteUpdateData dr nm t d fp fdel persist = Some (err, nm', ucs) → skeleton (nmr_feature nm') = skeleton (nmr_feature nm).
Proof.
  unfold NodeManagementRemoteUpdateData, FeatureRemoteUpdateData. destruct (update_function _ _ _ _ _ _ _ _) as [[e g]|] eqn:Hu; [|done].
  apply update_function_skeleton in Hu. cbn [mbind option_bind]. destruct (negb (is_ok e)); [by intros [= _ <- _]|].
  destruct (negb _); [by intros [= _ <- _]|]. destruct (UpdateUseCaseData _ _ _) as [[[e2 nm2] ucs2]|] eqn:Huc; [|done].
  cbn [mbind option_bind]. intros [= _ <- _]. rewrite <- Hu. apply UpdateUseCaseData_feature in Huc. by rewrite Huc.
Qed.

(** [feature_message] as a whole. *)
Lemma feature_message_shape rd fd fr msg err fd' fr' os : feature_message rd fd fr msg = Some (err, (fd', fr'), os) →
  skeleton fd' = skeleton fd ∧ feature_shape fr' = feature_shape fr ∧
  (msg_cmd_classifier msg ≠ kCommandClassifierTypeWrite → fd' = fd) ∧ (msg_cmd_classifier msg = kCommandClassifierTypeWrite → fr' = fr).
Proof.
  assert (∀ err fd' fr' os, ('(err, (fd, frd), os) ← HandleMessage fd (fn_data fr) msg; Some (err, (fd, set_data frd fr), ([] : list UseCaseOut, os))) = Some (err, (fd', fr'), os) →
    skeleton fd' = skeleton fd ∧ feature_shape fr' = feature_shape fr ∧
    (msg_cmd_classifier msg ≠ kCommandClassifierTypeWrite → fd' = fd) ∧ (msg_cmd_classifier msg = kCommandClassifierTypeWrite → fr' = fr)) as Hplain.
  { intros err1 fd1 fr1 os1. destruct (HandleMessage _ _ _) as [[[e [fd2 frd2]] os2]|] eqn:Hm; [|done]. cbn. intros [= _ <- <- _].
    apply HandleMessage_shape in Hm as (H1 & H2 & H3 & H4). split_and!; [done|unfold feature_shape; cbn; by rewrite H2|done|].
    intros Hw. rewrite (H4 Hw). by destruct fr. }
  unfold feature_message. destruct (fn_use_case_data_prev fr) as [prev|]; [|apply Hplain].
  destruct (msg_cmd msg) as [cmd|]; [|apply Hplain].
  assert (∀ replied, msg_cmd_classifier msg ≠ kCommandClassifierTypeWrite →
    (if null (data_choice cmd) then Some (kEebusErrorInputArgumentNull, (fd, fr), ([] : list UseCaseOut, [] : list FeatureOut))
     else '(err, nm, ucs) ← NodeManagementRemoteUpdateData (spine_remote rd) (mkNodeManagementRemote (fn_data fr) prev)
            (data_choice_type_id cmd) (data_choice cmd) (filter_partial msg) (filter_delete msg) true;
          Some (err, (fd, with_management nm fr),
                (ucs, if is_ok err then DataUpdated (data_choice_type_id cmd) (data_choice cmd) (msg_cmd_classifier msg) :: replied else [])))
    = Some (err, (fd', fr'), os) →
    skeleton fd' = skeleton fd ∧ feature_shape fr' = feature_shape fr ∧
    (msg_cmd_classifier msg ≠ kCommandClassifierTypeWrite → fd' = fd) ∧ (msg_cmd_classifier msg = kCommandClassifierTypeWrite → fr' = fr)) as Hupd.
  { intros replied Hnw. destruct (null _); [by intros [= _ <- <- _]|].
    destruct (NodeManagementRemoteUpdateData _ _ _ _ _ _ _) as [[[e nm] ucs]|] eqn:Hu; [|done]. cbn. intros [= _ <- <- _].
    apply NodeManagementUpdate_shape in Hu. split_and!; try done. unfold feature_shape. cbn. by rewrite Hu. }
  destruct (msg_cmd_classifier msg) eqn:Hc; try apply Hplain; by apply Hupd.
Qed.

(** ** Programs that return in a related state *)

Definition stays {S A} (R : S → S → Prop) (m : Prog S A) : Prop := ∀ s a s', m s = Ret a s' → R s s'.

Section stays.
Context {S : Type} (R : S → S → Prop) `{!PreOrder R}.

Lemma stays_ret {A} (a : A) : stays R (mret a).
Proof. intros s b s' [= _ <-]. reflexivity. Qed.
Lemma stays_get : stays R get.
Proof. intros s b s' [= _ <-]. reflexivity. Qed.
Lemma stays_crash {A} why : stays R (crash (A := A) why).
Proof. done. Qed.
Lemma stays_block {A} : stays R (block (A := A)).
Proof. done. Qed.
Lemma stays_modify g : (∀ s, R s (g s)) → stays R (modify g).
Proof. intros Hg s a s' [= _ <-]. apply Hg. Qed.
Lemma stays_defined {A} (m : option A) : stays R (defined m).
Proof. destruct m; [apply stays_ret|done]. Qed.

Lemma bind_ret {A B} (m : Prog S A) (k : A → Prog S B) s b s' : (m ≫= k) s = Ret b s' → ∃ a s1, m s = Ret a s1 ∧ k a s1 = Ret b s'.
Proof. unfold mbind, Prog_bind. destruct (m s) as [a s1| |] eqn:Hm; try done. by exists a, s1. Qed.

Lemma run_bind {A B} (m : Prog S A) (k : A → Prog S B) s a s1 : m s = Ret a s1 → (m ≫= k) s = k a s1.
Proof. unfold mbind, Prog_bind. by intros ->. Qed.

Lemma stays_bind {A B} (m : Prog S A) (k : A → Prog S B) : stays R m → (∀ a, stays R (k a)) → stays R (m ≫= k).
Proof. intros Hm Hk s b s' (a & s1 & H1 & H2)%bind_ret. transitivity s1; [by eapply Hm|by eapply Hk]. Qed.
End stays.

(** The part of the device that the managers, events and answers do not touch. *)
Record framed (s s' : Device) : Prop := {
  fr_tree : tree s' = tree s;
  fr_remotes : remotes s' = remotes s;
  fr_queue : msg_queue s' = msg_queue s;
  fr_cancelled : cancelled s' = cancelled s;
}.

#[export] Instance framed_preorder : PreOrder framed.
Proof. split; [by intros s|]. intros s1 s2 s3 [H1 H2 H3 H4] [H5 H6 H7 H8]. constructor; congruence. Qed.

Lemma on_bindings_framed {A} (m : Prog (LinkManager (V := V)) A) : stays framed (on_bindings m).
Proof. intros s a s'. unfold on_bindings. destruct (m _); try done. by intros [= _ <-]. Qed.
Lemma on_subscriptions_framed {A} (m : Prog (LinkManager (V := V)) A) : stays framed (on_subscriptions m).
Proof. intros s a s'. unfold on_subscriptions. destruct (m _); try done. by intros [= _ <-]. Qed.
Lemma emit_framed os : stays framed (emit (V := V) os).
Proof. by apply stays_modify. Qed.
End frame.

Create HintDb device.
#[export] Hint Resolve on_bindings_framed on_subscriptions_framed emit_framed : device.
#[export] Existing Instance framed_preorder.
Ltac stays_step :=
  first
    [ apply stays_ret; apply _ | apply stays_get; apply _ | apply stays_crash | apply stays_block | apply stays_defined; apply _
    | apply stays_modify; done
    | solve [eauto with device]
    | apply stays_bind; [apply _| |intros ?]
    | case_match ].
Ltac solve_stays := repeat stays_step.

Section handlers.
Context {V : Type → Type} `{VectorInterface V} `{malloc : Allocator} `{CJson} {E : SpineEnv}.
Abbreviation Device := (Device (V := V)).

Lemma forget_framed change : stays framed (forget (V := V) change).
Proof. unfold forget. solve_stays. Qed.
Lemma deliver_framed a os : stays framed (deliver (V := V) a os).
Proof. induction os as [|o os IH]; cbn [deliver]; solve_stays. Qed.
Lemma reply_framed r d t msg : stays framed (NodeManagementSendReply (V := V) r d t msg).
Proof. unfold NodeManagementSendReply. solve_stays. Qed.

(** ** What depends on shapes only *)

Definition feature_key_of (f : FeatureNode) := (fn_address f, fn_id f, fd_type (fn_data f), type <$> functions (fn_data f)).
Lemma shape_key f f' : feature_shape f' = feature_shape f → feature_key_of f' = feature_key_of f.
Proof.
  destruct f as [a d [t r fs w] m u n], f' as [a' d' [t' r' fs' w'] m' u' n']. unfold feature_shape, skeleton, feature_key_of. cbn. intros [= -> -> -> -> -> Hfs].
  assert (∀ l : list Function, type <$> l = fst <$> ((λ f, (type f, operations f)) <$> l)) as Hl by (intros l; by rewrite <- list_fmap_compose).
  by rewrite (Hl fs), (Hl fs'), Hfs.
Qed.

Lemma same_shape_elem {A B} (g : A → B) (l l' : list A) x : g <$> l' = g <$> l → x ∈ l' → ∃ y, y ∈ l ∧ g x = g y.
Proof. intros Hl Hx. apply (list_elem_of_fmap_2 g) in Hx. rewrite Hl in Hx. apply list_elem_of_fmap in Hx as (y & Hg & Hy). by exists y. Qed.

Lemma same_shape_bind {A B C} (g : A → B) (h : A → list C) (l : list A) : ∀ l', (∀ x y, g x = g y → h x = h y) → g <$> l' = g <$> l → l' ≫= h = l ≫= h.
Proof.
  induction l as [|x l IH]; intros [|y l'] Hh; cbn; try done. intros [= Hxy Hl]. by rewrite (Hh _ _ Hxy), (IH l').
Qed.

Lemma shape_features e e' {B} (g : FeatureNode → B) : (∀ f f', feature_shape f' = feature_shape f → g f' = g f) →
  entity_shape e' = entity_shape e → g <$> en_features e' = g <$> en_features e.
Proof.
  intros Hg [= _ _ _ _ Hfs]. revert Hfs. generalize (en_features e). induction (en_features e') as [|f fs IH]; intros [|f' fs']; cbn; try done.
  intros Hfs. assert (feature_shape f = feature_shape f' ∧ feature_shape <$> fs = feature_shape <$> fs') as [Hf Hr] by (split; congruence).
  f_equal; [by apply Hg|by apply IH].
Qed.

Lemma shape_features_all {B} (g : FeatureNode → B) es es' : (∀ f f', feature_shape f' = feature_shape f → g f' = g f) →
  entity_shape <$> es' = entity_shape <$> es → g <$> (es' ≫= en_features) = g <$> (es ≫= en_features).
Proof.
  intros Hg Hes. assert (∀ l, g <$> (l ≫= en_features) = l ≫= (λ e, g <$> en_features e)) as Hb.
  { induction l as [|e l IH]; [done|]. rewrite !bind_cons, fmap_app. by rewrite IH. }
  rewrite !Hb. eapply same_shape_bind; [|exact Hes]. intros e e' Hee. by apply shape_features.
Qed.

(** The tree of a remote device. *)
Lemma tree_ok_shape rd rd' : entity_shape <$> rd_entities rd' = entity_shape <$> rd_entities rd → rd_next_id rd' = rd_next_id rd →
  tree_ok rd → tree_ok rd'.
Proof.
  intros Hes Hnext [H1 H2 H3 H4].
  assert (entity_ids <$> rd_entities rd' = entity_ids <$> rd_entities rd) as Hids.
  { assert (∀ l, entity_ids <$> l = (λ t, ea_entity t.1.1.1.1) <$> (entity_shape <$> l)) as Hl by (intros l; by rewrite <- list_fmap_compose).
    by rewrite (Hl (rd_entities rd')), (Hl (rd_entities rd)), Hes. }
  assert (DiscoveryInv.objects (rd_entities rd') = DiscoveryInv.objects (rd_entities rd)) as Hobj.
  { unfold DiscoveryInv.objects. apply shape_features_all; [|done]. intros f f' Hf. unfold feature_shape in Hf. congruence. }
  constructor; [by rewrite Hids| |by rewrite Hobj|by rewrite Hobj, Hnext].
  apply Forall_forall. intros e' He'. destruct (same_shape_elem _ _ _ _ Hes He') as (e & He & Hee).
  rewrite Forall_forall in H2. destruct (H2 e He) as [Hhas Hfs]. pose proof Hee as [= Ha _ _ _ _].
  split; [by unfold has_ids in *; rewrite Ha|]. apply Forall_forall. intros f' Hf'.
  assert (feature_key_of <$> en_features e' = feature_key_of <$> en_features e) as Hkeys by by apply shape_features, Hee; apply shape_key.
  destruct (same_shape_elem _ _ _ _ Hkeys Hf') as (f & Hf & [= Hfa _ Hft Hty]). rewrite Forall_forall in Hfs. destruct (Hfs f Hf) as [Hid Hall].
  split; [by rewrite Hfa, Ha|by rewrite Hft, Hty].
Qed.

(** The local tree: what it announces, and what [DiscoveryTree] asks of it. *)
Lemma same_shape_map {A B C} (g : A → B) (h : A → C) (l : list A) : ∀ l', (∀ x y, g x = g y → h x = h y) → g <$> l' = g <$> l → h <$> l' = h <$> l.
Proof.
  induction l as [|x l IH]; intros [|y l'] Hh; cbn; try done. intros [= Hxy Hl]. by rewrite (Hh _ _ Hxy), (IH l').
Qed.

Lemma shape_announced_feature f f' : feature_shape f' = feature_shape f → announced_feature f' = announced_feature f.
Proof.
  destruct f as [a d [t r fs w] m u n], f' as [a' d' [t' r' fs' w'] m' u' n']. unfold feature_shape, skeleton. cbn. intros [= -> -> -> -> -> Hfs].
  unfold announced_feature, announced_feature_with, supported_functions, AddSupportedFunctions. cbn.
  assert (∀ l : list Function, omap (λ f, ops ← operations f; Some (type f, OperationsGetInformation ops)) l =
    omap (λ p, ops ← p.2; Some (p.1, OperationsGetInformation ops)) ((λ f, (type f, operations f)) <$> l)) as Hl.
  { induction l as [|g l IH]; [done|]. cbn [omap list_omap fmap list_fmap fst snd]. destruct (operations g); cbn [mbind option_bind]; [f_equal|]; exact IH. }
  setoid_rewrite (Hl fs'). setoid_rewrite (Hl fs). by rewrite Hfs.
Qed.

Lemma announced_shape t t' : tree_shape t' = tree_shape t → announced t' = announced t.
Proof.
  intros [= Ha Ht Hs Hes]. unfold announced, items, announced_device, all_features. rewrite Ha, Ht, Hs.
  rewrite (same_shape_map entity_shape (λ e, Some (Some (announced_entity e))) (ld_entities t) (ld_entities t')); [|by intros e e' [= ? ? _ _ _]; unfold announced_entity; congruence|done].
  rewrite (shape_features_all (λ f, Some (Some (announced_feature f))) (ld_entities t) (ld_entities t')); [done| |done].
  intros f f' Hf. by rewrite (shape_announced_feature f f').
Qed.

Lemma device_typed_shape t t' : tree_shape t' = tree_shape t → device_typed t → device_typed t'.
Proof.
  intros [= Ha Ht Hs Hes] [Hd He Hf]. pose proof (proj1 (Forall_forall _ _) He) as Hea. pose proof (proj1 (Forall_forall _ _) Hf) as Hfa. constructor.
  - unfold announced_device in *. by rewrite Ha, Ht, Hs.
  - apply Forall_forall. intros e' He'. destruct (same_shape_elem _ _ _ _ Hes He') as (e & Hin & [= Hae Hte _ _ _]).
    pose proof (Hea e Hin) as He1. unfold announced_entity in *. by rewrite Hae, Hte.
  - apply Forall_forall. intros f' Hf'. assert (feature_shape <$> all_features t' = feature_shape <$> all_features t) as Hall by by apply shape_features_all.
    destruct (same_shape_elem _ _ _ _ Hall Hf') as (f & Hin & Hff). pose proof (Hfa f Hin) as Hf1.
    assert (announced_feature_with None f' = announced_feature_with None f) as ->; [|done].
    unfold feature_shape, skeleton in Hff. unfold announced_feature_with. simplify_eq. congruence.
Qed.

Lemma feature_ok_shape dev ids f f' : feature_shape f' = feature_shape f → feature_ok dev ids f → feature_ok dev ids f'.
Proof. intros [= Ha _ Ht Hty]%shape_key [Hid Hfs]. split; [by rewrite Ha|by rewrite Hty, Ht]. Qed.

Lemma local_ok_shape dev t t' : tree_shape t' = tree_shape t → local_ok dev t → local_ok dev t'.
Proof.
  intros [= Ha _ _ Hes] [H1 H2 H3 (e & es & f & fs & Hl & He & Hte & Hfs & Hnm & Hf)]. constructor.
  - by rewrite Ha.
  - apply Forall_forall. intros e' He'. destruct (same_shape_elem _ _ _ _ Hes He') as (e0 & Hin & Hee).
    rewrite Forall_forall in H2. destruct (H2 e0 Hin) as (ids & Hne & Hids & Hall). exists ids. split; [done|].
    pose proof Hee as [= Hae _ _ _ Hffs]. split; [by rewrite Hae|]. apply Forall_forall. intros g Hg.
    destruct (same_shape_elem _ _ _ _ Hffs Hg) as (g0 & Hg0 & Hgg). rewrite Forall_forall in Hall. by eapply feature_ok_shape, Hall.
  - rewrite (same_shape_map entity_shape en_address (ld_entities t) (ld_entities t')); [done| |done]. by intros x y [= ? _ _ _ _].
  - rewrite Hl in Hes. destruct (ld_entities t') as [|e' es']; [done|]. rewrite !fmap_cons in Hes.
    assert (entity_shape e' = entity_shape e) as [= Hae Hty _ _ Hffs] by congruence.
    rewrite Hfs in Hffs. destruct (en_features e') as [|f' fs'] eqn:Hef; [done|]. rewrite !fmap_cons in Hffs.
    assert (feature_shape f' = feature_shape f) as Hff by congruence. pose proof (shape_key _ _ Hff) as [= Hfa _ Hfty _].
    assert (fd_role (fn_data f') = fd_role (fn_data f)) as Hfr by (unfold feature_shape, skeleton in Hff; congruence).
    exists e', es', f', fs'. split_and!; try congruence. unfold is_node_management in *. by rewrite Hfty, Hfr.
Qed.

(** ** Places *)

(** The feature is at its place. *)
Definition at_place (es : list EntityNode) (p : nat * nat * FeatureNode) : Prop :=
  let '(i, j, f) := p in ∃ e, es !! i = Some e ∧ en_features e !! j = Some f.

Lemma find_feature_place es ids id p : find_feature es ids id = Some p → at_place es p.
Proof.
  unfold find_feature. destruct (list_find _ es) as [[i e]|] eqn:He; [|done]. cbn [mbind option_bind]. destruct id as [id|]; [|done]. cbn [mbind option_bind].
  destruct (list_find _ (en_features e)) as [[j f]|] eqn:Hf; [|done]. cbn. intros [= <-].
  apply list_find_Some in He as (He & _ & _), Hf as (Hf & _ & _). by exists e.
Qed.

Lemma alter_at {A} (g : A → A) i (l : list A) x : l !! i = Some x → alter g i l = <[i := g x]> l.
Proof. intros Hi. apply list_eq. intros j. destruct (decide (j = i)) as [->|Hne].
  - rewrite list_lookup_alter_eq, Hi, list_lookup_insert_eq; [done|by eapply lookup_lt_Some].
  - by rewrite list_lookup_alter_ne, list_lookup_insert_ne.
Qed.

(** A feature of the same shape in its place. *)
Lemma set_feature_shape es i j f f' : at_place es (i, j, f) → feature_shape f' = feature_shape f →
  entity_shape <$> set_feature i j f' es = entity_shape <$> es.
Proof.
  intros (e & Hi & Hj) Hf. unfold set_feature. rewrite (alter_at _ _ _ _ Hi), list_fmap_insert. apply list_insert_id.
  rewrite list_lookup_fmap, Hi. cbn. f_equal. unfold entity_shape. cbn. f_equal. rewrite list_fmap_insert, Hf. symmetry.
  apply list_insert_id. by rewrite list_lookup_fmap, Hj.
Qed.

Lemma set_feature_same es i j f : at_place es (i, j, f) → set_feature i j f es = es.
Proof.
  intros (e & Hi & Hj). unfold set_feature. rewrite (alter_at _ _ _ _ Hi), (list_insert_id (en_features e)) by done. apply list_insert_id.
  rewrite Hi. by destruct e.
Qed.

Lemma set_data_place es i j f fd : at_place es (i, j, f) → set_feature_data i j fd es = set_feature i j (set_data fd f) es.
Proof.
  intros (e & Hi & Hj). unfold set_feature_data, set_feature. rewrite !(alter_at _ _ _ _ Hi). by rewrite (alter_at _ _ _ _ Hj).
Qed.
End handlers.

Section routing.
Context {V : Type → Type} `{VectorInterface V} `{malloc : Allocator} `{CJson} {E : SpineEnv}.
Abbreviation Device := (Device (V := V)).

(** The features are where the route says. *)
Record route_ok (s : Device) (r : Route) : Prop := {
  ro_local : at_place (ld_entities (tree s)) (rt_local r);
  ro_device : remote_at (rt_object r) s = Some (rt_device r);
  ro_remote : at_place (rd_entities (rt_device r)) (rt_remote r);
}.

Definition put_local (r : Route) (fd : FeatureData) (s : Device) : Device :=
  let '(i, j, _) := rt_local r in set_tree (with_local_entities (set_feature_data i j fd (ld_entities (tree s))) (tree s)) s.
Definition with_remote_feature (r : Route) (f : FeatureNode) : RemoteDevice :=
  let '(i, j, _) := rt_remote r in Discovery.with_entities (set_feature i j f (rd_entities (rt_device r))) (rt_device r).

Lemma store_local_run r fd s : store_local (V := V) r fd s = Ret tt (put_local r fd s).
Proof. unfold store_local, put_local. by destruct (rt_local r) as [[i j] f]. Qed.
Lemma store_remote_run r f s : store_remote (V := V) r f s = Ret tt (set_remote (rt_object r) (with_remote_feature r f) s).
Proof. unfold store_remote, with_remote_feature. by destruct (rt_remote r) as [[i j] g]. Qed.

(** What a message makes of the device it came from: data of one of its features, or what it announced. *)
Inductive remote_change (r : Route) : RemoteDevice → Prop :=
| ChangeNothing : remote_change r (rt_device r)
| ChangeData f : feature_shape f = feature_shape (rt_remote r).2 → remote_change r (with_remote_feature r f)
| ChangeAnnounced a cmd msg err rd outs : ProcessReplyDetailedDiscoveryData (rt_device r) a cmd msg = Some (err, rd, outs) → remote_change r rd.

Lemma remote_change_ok s r rd : route_ok s r → tree_ok (rt_device r) → remote_change r rd → tree_ok rd.
Proof.
  intros [_ _ Hat] Hok [|f Hf|a cmd msg err rd' outs Hr]; [done| |by eapply reply_inv in Hok as [Hok _]].
  unfold with_remote_feature. destruct (rt_remote r) as [[i j] g]. apply (tree_ok_shape (rt_device r)); [|done|exact Hok].
  by eapply set_feature_shape.
Qed.

Definition with_change (r : Route) (o : option RemoteDevice) (s : Device) : Device :=
  match o with Some rd => set_remote (rt_object r) rd s | None => s end.

(** Before the device of the peer is changed, and after it, only outputs and links. *)
Definition effect {A} (r : Route) (m : Prog Device A) : Prop :=
  ∀ s a s', m s = Ret a s' → ∃ o, framed (with_change r o s) s' ∧ ∀ rd, o = Some rd → remote_change r rd.

Lemma framed_effect {A} r (m : Prog Device A) : stays framed m → effect r m.
Proof. intros Hm s a s' Hs. exists None. split; [by eapply Hm|done]. Qed.

Lemma called_framed {A} (dec : Data → option A) cmd msg handle :
  (∀ a, stays framed (handle a)) → stays framed (called (V := V) dec cmd msg handle).
Proof. intros Hh. unfold called. case_match; try apply stays_ret, _. repeat (apply stays_bind; [apply _|apply stays_defined, _|intros ?]). apply Hh. Qed.

Lemma framed_remote object rd (s s' : Device) : framed s s' → framed (set_remote object rd s) (set_remote object rd s').
Proof. intros [H1 H2 H3 H4]. constructor; cbn; [done| |done|done]. by rewrite H2. Qed.

Lemma DiscoveryMessage_effect r cmd msg : effect r (DiscoveryMessage (V := V) r cmd msg).
Proof.
  intros s err s'. unfold DiscoveryMessage. intros (s0 & s1 & [= <- <-] & Hs)%bind_ret.
  apply bind_ret in Hs as ([[e rd] os] & s2 & Hd & Hs).
  destruct (HandleMsgDetailedDiscoveryData _ _ _ _ _) as [[[e' rd'] os']|] eqn:Hh; [|done]. injection Hd as -> -> -> <-.
  apply bind_ret in Hs as ([] & s3 & [= <-] & Hs). exists (Some rd). split.
  - match type of Hs with ?m _ = _ => assert (stays framed m) as Hm end; [|by apply Hm in Hs].
    apply stays_bind; [apply _|apply forget_framed|intros ?]. solve_stays.
  - intros ? [= <-]. unfold HandleMsgDetailedDiscoveryData in Hh. destruct (negb has_sender); [injection Hh as _ <- _; apply ChangeNothing|].
    destruct (msg_cmd_classifier msg); try (injection Hh as _ <- _; apply ChangeNothing).
    + destruct (ProcessReadDetailedDiscoveryData _ _) as [[? ?]|]; [|done]. injection Hh as _ <- _. apply ChangeNothing.
    + destruct (ProcessReplyDetailedDiscoveryData _ _ _ _) as [[[e2 rd2] os2]|] eqn:Hr; [|done]. injection Hh as _ <- _. by eapply ChangeAnnounced.
Qed.

Lemma HandleUseCase_shape dr fd nm cmd msg err nm' ucs : HandleMsgUseCaseData dr fd nm cmd msg = Some (err, nm', ucs) →
  skeleton (nmr_feature nm') = skeleton (nmr_feature nm).
Proof.
  assert (∀ err nm' ucs, ProcessReplyUseCaseData dr nm cmd msg = Some (err, nm', ucs) → skeleton (nmr_feature nm') = skeleton (nmr_feature nm)) as Hr.
  { intros e n u. unfold ProcessReplyUseCaseData. destruct (NodeManagementRemoteUpdateData _ _ _ _ _ _ _) as [[[e2 nm2] u2]|] eqn:Hu; [|done].
    apply NodeManagementUpdate_shape in Hu. cbn [mbind option_bind]. destruct (negb _); by intros [= _ <- _]. }
  unfold HandleMsgUseCaseData. destruct (msg_cmd_classifier msg); try (by intros [= _ <- _]); try by apply Hr.
  destruct (ProcessReadUseCaseData fd msg) as [[? ?]|]; [|done]. cbn. by intros [= _ <- _].
Qed.

(** The data of the feature is stored, then only outputs. *)
Lemma store_remote_effect {A} r f (m : Prog Device A) : feature_shape f = feature_shape (rt_remote r).2 → stays framed m →
  effect r (store_remote r f;; m).
Proof.
  intros Hf Hm s a s' (u & s1 & Hs & Hrun)%bind_ret. rewrite store_remote_run in Hs. injection Hs as <- <-.
  exists (Some (with_remote_feature r f)). split; [by apply Hm in Hrun|]. intros ? [= <-]. by apply ChangeData.
Qed.

Lemma defined_effect {A B} r (m : option A) (k : A → Prog Device B) : (∀ a, m = Some a → effect r (k a)) → effect r (a ← defined m; k a).
Proof. intros Hk s b s' (a & s1 & Hd & Hrun)%bind_ret. destruct m as [a'|]; [|done]. injection Hd as -> <-. by eapply Hk. Qed.

Lemma UseCaseMessage_effect r cmd msg : effect r (UseCaseMessage (V := V) r cmd msg).
Proof.
  unfold UseCaseMessage. destruct (rt_remote r) as [[k l] fr] eqn:Hr. destruct (fn_use_case_data_prev fr) as [prev|].
  - apply defined_effect. intros [[err nm] ucs] Hh%HandleUseCase_shape. apply store_remote_effect; [|solve_stays].
    rewrite Hr. unfold feature_shape. cbn in *. by rewrite Hh.
  - assert (∀ (m : Prog Device EebusError), stays framed m → effect r m) as Hframed by by intros; apply framed_effect.
    assert (effect r ('(err, frd) ← defined (FeatureRemoteUpdateData (fn_data fr) kFunctionTypeNodeManagementUseCaseData (data_choice cmd) None None true);
          store_remote r (set_data frd fr);;
          (if is_ok err
           then emit (OutUseCase <$> UseCaseDataReceived (data_choice cmd) ::
                        (match msg_cnt_ref msg with Some ref => [UseCaseReplyProcessed ref (data_choice cmd)] | None => [] end))
           else mret tt);;
          mret err)) as Hupd.
    { apply defined_effect. intros [err frd] Hu%update_function_skeleton. apply store_remote_effect; [|solve_stays].
      rewrite Hr. unfold feature_shape. cbn. by rewrite Hu. }
    destruct (msg_cmd_classifier msg); try exact Hupd; apply Hframed; solve_stays.
Qed.

Lemma NodeManagement_effect r msg : effect r (NodeManagementHandleMessage (V := V) r msg).
Proof.
  unfold NodeManagementHandleMessage. destruct (msg_cmd msg) as [cmd|]; [|apply framed_effect; solve_stays].
  destruct (null (data_choice cmd)); [apply framed_effect; solve_stays|]. cbn zeta.
  repeat (match goal with |- effect r (if _ then _ else _) => case_match end);
    try apply DiscoveryMessage_effect; try apply UseCaseMessage_effect; apply framed_effect;
    unfold HandleMsgSubscriptionRequestCall, HandleMsgSubscriptionDeleteCall, HandleMsgBindingRequestCall, HandleMsgBindingDeleteCall,
      HandleMsgSubscriptionData, HandleMsgBindingData, HandleMsgDestinationListData; try (apply called_framed; intros ?); solve_stays; apply reply_framed.
Qed.

(** A message for a feature: data of the local and of the remote feature, then only outputs. *)
Lemma FeatureLocal_effect r msg s err s' : FeatureLocalHandleMessage (V := V) r msg s = Ret err s' →
  ∃ fd fr os, feature_message (rt_device r) (fn_data (rt_local r).2) (rt_remote r).2 msg = Some (err, (fd, fr), os) ∧
    framed (set_remote (rt_object r) (with_remote_feature r fr) (put_local r fd s)) s' ∧ bindings s' = bindings s.
Proof.
  unfold FeatureLocalHandleMessage. intros ([[e [fd fr]] [ucs os]] & s1 & Hd & Hs)%bind_ret.
  destruct (feature_message _ _ _ _) as [[[e' [fd' fr']] [ucs' os']]|] eqn:Hm; [|done]. injection Hd as -> -> -> -> -> <-.
  apply bind_ret in Hs as (u1 & s2 & Hl & Hs). rewrite store_local_run in Hl. injection Hl as <- <-.
  apply bind_ret in Hs as (u2 & s3 & Hl & Hs). rewrite store_remote_run in Hl. injection Hl as <- <-.
  apply bind_ret in Hs as (u3 & s4 & [= <- <-] & Hs). apply bind_ret in Hs as (u4 & s5 & Hdel & [= <- <-]).
  exists fd, fr, (ucs, os). split; [done|]. split; [by apply deliver_framed in Hdel as []; constructor|].
  assert (∀ os a s1 u s2, deliver (V := V) a os s1 = Ret u s2 → bindings s2 = bindings s1) as Hb.
  { clear. induction os as [|o os IH]; intros a s1 u s2; cbn [deliver]; [by intros [= _ <-]|].
    intros (u1 & s3 & Ho & (u2 & s4 & [= <- <-] & ->%IH)%bind_ret)%bind_ret. cbn. destruct o; try by injection Ho as _ <-.
    revert Ho. unfold on_subscriptions. destruct (Publish _ _); try done. by intros [= _ <-]. }
  rewrite (Hb _ _ _ _ _ Hdel). unfold put_local. by destruct (rt_local r) as [[i j] f].
Qed.

(** ** Commands *)

(** What is not the sender's or the data of a feature stays; trees of peers stay in order. *)
Record served (object : nat) (s s' : Device) : Prop := {
  sv_shape : tree_shape (tree s') = tree_shape (tree s);
  sv_others : Forall2 (λ r r', re_ski r' = re_ski r ∧ re_object r' = re_object r ∧ (re_object r ≠ object → r' = r)) (remotes s) (remotes s');
  sv_queue : msg_queue s' = msg_queue s;
  sv_cancelled : cancelled s' = cancelled s;
  sv_trees : Forall (λ r, tree_ok (re_device r)) (remotes s) → Forall (λ r, tree_ok (re_device r)) (remotes s');
}.

#[export] Instance served_preorder object : PreOrder (served object).
Proof.
  split.
  - intros s. constructor; try done. by apply Forall_Forall2_diag, Forall_true.
  - intros s1 s2 s3 [H1 H2 H3 H4 H5] [H6 H7 H8 H9 H10]. constructor; try congruence; [|auto].
    eapply Forall2_trans; [|exact H2|exact H7]. cbn. intros r1 r2 r3 (Ha & Hb & Hc) (Hd & He & Hf). split_and!; try congruence.
    intros Hne. rewrite Hf; [by apply Hc|congruence].
Qed.

Lemma framed_served object (s s' : Device) : framed s s' → served object s s'.
Proof. intros [H1 H2 H3 H4]. constructor; rewrite ?H1, ?H2; try done. by apply Forall_Forall2_diag, Forall_true. Qed.

Lemma framed_served_bind object (s s1 s' : Device) : served object s s1 → framed s1 s' → served object s s'.
Proof. intros Hs Hf. transitivity s1; [done|by apply framed_served]. Qed.

Lemma set_remote_served object rd (s : Device) : (Forall (λ r, tree_ok (re_device r)) (remotes s) → tree_ok rd) → served object s (set_remote object rd s).
Proof.
  intros Hrd. constructor; cbn; try done.
  - rewrite Forall2_fmap_r. apply Forall_Forall2_diag, Forall_true. intros r. cbn. destruct (re_object r =? object)%nat eqn:Ho; [|done]. by apply Nat.eqb_eq in Ho.
  - intros Hall. apply Forall_fmap. eapply Forall_impl; [exact Hall|]. intros r Hr. cbn. case_match; [by apply Hrd|done].
Qed.

Lemma remote_at_ok object (s : Device) rd : remote_at object s = Some rd → Forall (λ r, tree_ok (re_device r)) (remotes s) → tree_ok rd.
Proof.
  unfold remote_at. destruct (list_find _ _) as [[i r]|] eqn:Hf; [|done]. cbn. intros [= <-] Hall. apply list_find_Some in Hf as (Hi & _ & _).
  rewrite Forall_forall in Hall. by eapply Hall, list_elem_of_lookup_2.
Qed.

Lemma effect_served {A} r (m : Prog Device A) s a s' : effect r m → route_ok s r → m s = Ret a s' → served (rt_object r) s s'.
Proof.
  intros Hm Hok Hs. apply Hm in Hs as (o & Hf & Ho). destruct o as [rd|]; [|by apply framed_served].
  eapply framed_served_bind; [|exact Hf]. apply set_remote_served. intros Hall.
  eapply remote_change_ok; [exact Hok|eapply remote_at_ok; [apply Hok|done]|by apply Ho].
Qed.

Lemma set_feature_data_shape es i j f fd : at_place es (i, j, f) → skeleton fd = skeleton (fn_data f) →
  entity_shape <$> set_feature_data i j fd es = entity_shape <$> es.
Proof.
  intros Hat Hsk. rewrite (set_data_place _ _ _ _ _ Hat). eapply set_feature_shape; [done|]. unfold feature_shape. cbn. by rewrite Hsk.
Qed.

Lemma FeatureLocal_served r msg s err s' : route_ok s r → FeatureLocalHandleMessage (V := V) r msg s = Ret err s' → served (rt_object r) s s'.
Proof.
  intros Hok (fd & fr & os & Hm & Hf & _)%FeatureLocal_effect. apply feature_message_shape in Hm as (Hfd & Hfr & _).
  eapply framed_served_bind; [|exact Hf]. pose proof Hok as [Hl Hd Hr]. transitivity (put_local r fd s).
  - unfold put_local. destruct (rt_local r) as [[i j] f]. constructor; try done; [|by apply Forall_Forall2_diag, Forall_true].
    unfold tree_shape. cbn. by rewrite (set_feature_data_shape _ i j f fd).
  - apply set_remote_served. intros Hall. eapply remote_change_ok; [exact Hok| |by apply ChangeData].
    eapply remote_at_ok; [exact Hd|]. unfold put_local in Hall. by destruct (rt_local r) as [[i j] f].
Qed.

(** [ProcessCmd] on the features it finds. *)
Inductive processed (header : HeaderType) (cmd : CmdType) (object : nat) (s : Device) : EebusError → Device → Prop :=
| CmdRefused err : err ≠ kEebusErrorOk → processed header cmd object s err s
| CmdUnbound s1 : hdr_cmd_classifier header = Some kCommandClassifierTypeWrite → framed s s1 → processed header cmd object s kEebusErrorNoChange s1
| CmdHandled r src classifier s1 err s2 : hdr_cmd_classifier header = Some classifier → route_ok s1 r → rt_object r = object →
    DeviceGetFeatureWithAddress (tree s) (hdr_dest_addr header) = Some (rt_local r) → hdr_src_addr header = Some src →
    find_feature (rd_entities (rt_device r)) (fa_entity src) (fa_feature src) = Some (rt_remote r) →
    (if bool_decide (classifier = kCommandClassifierTypeWrite)
     then on_bindings (HasBinding (Some (fn_address (rt_local r).2)) (Some (fn_address (rt_remote r).2))) s = Ret true s1 else s1 = s) →
    (if is_own_management (rt_local r) then NodeManagementHandleMessage r else FeatureLocalHandleMessage r)
      (mkMessage (Some header) classifier (Some cmd) (CmdGetFilterPartial cmd) (CmdGetFilterDelete cmd)) s1 = Ret err s2 →
    processed header cmd object s err s2.

Lemma local_place t a p : DeviceGetFeatureWithAddress t a = Some p → at_place (ld_entities t) p.
Proof. unfold DeviceGetFeatureWithAddress. destruct (ld_address t), a; try done. case_match; [done|]. apply find_feature_place. Qed.

Lemma ProcessCmd_cases header cmd object s err s' : ProcessCmd (V := V) header cmd object s = Ret err s' → processed header cmd object s err s'.
Proof.
  unfold ProcessCmd. intros (s0 & s1 & [= <- <-] & Hs)%bind_ret.
  destruct (DeviceGetFeatureWithAddress _ _) as [local|] eqn:Hl; [|injection Hs as <- <-; by apply CmdRefused].
  apply bind_ret in Hs as (src & s1 & Hsrc & Hs). destruct (hdr_src_addr header) as [src'|] eqn:Hh; [|done]. injection Hsrc as -> <-.
  apply bind_ret in Hs as (rd & s1 & Hrd & Hs). destruct (remote_at object s) as [rd'|] eqn:Hr; [|done]. injection Hrd as -> <-.
  destruct (find_feature _ _ _) as [remote|] eqn:Hf; [|injection Hs as <- <-; by apply CmdRefused].
  destruct (hdr_cmd_classifier header) as [classifier|] eqn:Hc; [|injection Hs as <- <-; by apply CmdRefused].
  apply bind_ret in Hs as (allowed & s1 & Ha & Hs).
  assert (framed s s1 ∧ ((if bool_decide (classifier = kCommandClassifierTypeWrite)
     then on_bindings (HasBinding (Some (fn_address local.2)) (Some (fn_address remote.2))) s = Ret allowed s1 else allowed = true ∧ s1 = s)))
    as [Hfr Hallowed].
  { destruct classifier; try by (injection Ha as <- <-). split; [by eapply on_bindings_framed|done]. }
  destruct allowed; cbn [negb] in Hs.
  - eapply CmdHandled with (r := mkRoute object rd local remote) (s1 := s1); try done.
    + constructor; cbn; [|unfold remote_at; by rewrite (fr_remotes _ _ Hfr)|by eapply find_feature_place].
      rewrite (fr_tree _ _ Hfr). by eapply local_place.
    + cbn. case_bool_decide; [done|]. by destruct Hallowed.
    + cbn. destruct (is_own_management local); exact Hs.
  - case_bool_decide as Hw; [|by destruct Hallowed]. injection Hs as <- <-. apply CmdUnbound; [by rewrite Hw in Hc|done].
Qed.

Lemma ProcessCmd_served header cmd object s err s' : ProcessCmd (V := V) header cmd object s = Ret err s' → served object s s'.
Proof.
  intros [err' _|s1 _ Hf|r src classifier s1 err' s2 _ Hok <- _ _ _ Hallowed Hrun]%ProcessCmd_cases; [done|by apply framed_served|].
  transitivity s1.
  - case_bool_decide; [|by subst]. apply framed_served. by eapply on_bindings_framed.
  - destruct (is_own_management _); [eapply effect_served; [apply NodeManagement_effect|done|exact Hrun]|by eapply FeatureLocal_served].
Qed.

Lemma process_cmds_served header cmds object : ∀ s err s', process_cmds (V := V) header cmds object s = Ret err s' → served object s s'.
Proof.
  induction cmds as [|[cmd|] cmds IH]; intros s err s'; cbn [process_cmds]; try by intros [= _ <-].
  intros (e & s1 & Hs%ProcessCmd_served & Hrest)%bind_ret. transitivity s1; [done|].
  destruct (is_ok e); [by eapply IH|by injection Hrest as _ <-].
Qed.

(** The commands of a datagram, and then outputs. *)
Lemma ProcessDatagram_run dg object s err s' : ProcessDatagram (V := V) dg object s = Ret err s' →
  (err ≠ kEebusErrorOk ∧ s' = s) ∨
  ∃ header cmds s1, dg ≫= Datagram.header = Some header ∧ dg ≫= Datagram.payload = Some cmds ∧
    process_cmds header cmds object s = Ret err s1 ∧ framed s1 s' ∧ bindings s' = bindings s1.
Proof.
  unfold ProcessDatagram. destruct (dg ≫= Datagram.header) as [header|]; [|intros [= <- <-]; by left].
  destruct (hdr_cmd_classifier header) as [classifier|]; [|intros [= <- <-]; by left].
  destruct (dg ≫= Datagram.payload) as [[|c cmds]|]; [intros [= <- <-]; by left| |intros [= <- <-]; by left].
  intros (e & s1 & Hs & (u & s2 & Hout & [= <- <-])%bind_ret)%bind_ret. right. exists header, (c :: cmds), s1. split_and!; try done.
  - destruct (is_ok e); [by eapply emit_framed|by injection Hout as _ <-].
  - destruct (is_ok e); by injection Hout as _ <-.
Qed.

Lemma ProcessDatagram_served dg object s err s' : ProcessDatagram (V := V) dg object s = Ret err s' → served object s s'.
Proof.
  intros [[_ ->]|(header & cmds & s1 & _ & _ & Hs & Hf & _)]%ProcessDatagram_run; [done|].
  transitivity s1; [by eapply process_cmds_served|by apply framed_served].
Qed.

(** ** Writes *)

Definition is_write (header : HeaderType) : Prop := hdr_cmd_classifier header = Some kCommandClassifierTypeWrite.

Lemma set_remote_same object rd (s : Device) : remote_at object s = Some rd → remote_at object (set_remote object rd s) = Some rd.
Proof.
  unfold remote_at. cbn. destruct (list_find (λ r, re_object r = object) (remotes s)) as [[i r]|] eqn:Hf; [|done]. cbn. intros [= <-].
  apply list_find_Some in Hf as (Hi & Ho & Hmin). rewrite list_find_fmap.
  assert (list_find ((λ r, re_object r = object) ∘ (λ r', if (re_object r' =? object)%nat then mkRemoteEntry (re_ski r') object (re_device r) else r')) (remotes s) = Some (i, r)) as ->.
  { apply list_find_Some. split_and!; [done| |].
    - cbn. by rewrite Ho, Nat.eqb_refl.
    - intros j y Hj Hlt. cbn. destruct (re_object y =? object)%nat eqn:He; [|by eapply Hmin]. apply Nat.eqb_eq in He. intros _. by eapply Hmin. }
  cbn. by rewrite Ho, Nat.eqb_refl.
Qed.

(** A write to the node management is refused, or nothing is done. *)
Lemma management_write r msg s err s' : msg_cmd_classifier msg = kCommandClassifierTypeWrite →
  NodeManagementHandleMessage (V := V) r msg s = Ret err s' → tree s' = tree s ∧
  (err = kEebusErrorOk → bindings s' = bindings s ∧ remotes s' = remotes s).
Proof.
  intros Hw Hs. split.
  { apply NodeManagement_effect in Hs as (o & [Ht _ _ _] & _). rewrite Ht. by destruct o. }
  revert Hs. unfold NodeManagementHandleMessage. destruct (msg_cmd msg) as [cmd|]; [|by intros [= <- <-]].
  destruct (null (data_choice cmd)); [by intros [= <- <-]|]. cbn zeta.
  case_match. { destruct (FeatureLocalProcessResult cmd msg) as [e os]. by intros ([] & s1 & [= <-] & [= <- <-])%bind_ret. }
  case_match.
  { unfold DiscoveryMessage. intros (s0 & s1 & [= <- <-] & Hs)%bind_ret Herr. apply bind_ret in Hs as ([[e rd] os] & s2 & Hd & Hs).
    unfold HandleMsgDetailedDiscoveryData in Hd. rewrite Hw in Hd. exfalso.
    assert (e ≠ kEebusErrorOk) as He by (destruct (negb has_sender); by injection Hd as <- _ _ _).
    apply bind_ret in Hs as (? & ? & _ & (? & ? & _ & (? & ? & _ & [= Heq _])%bind_ret)%bind_ret). congruence. }
  unfold HandleMsgSubscriptionRequestCall, HandleMsgSubscriptionDeleteCall, HandleMsgBindingRequestCall, HandleMsgBindingDeleteCall,
    HandleMsgSubscriptionData, HandleMsgBindingData, HandleMsgDestinationListData, called, UseCaseMessage. rewrite Hw.
  destruct (rt_remote r) as [[k l] fr].
  repeat (case_match; [by intros [= <- _]|]). case_match; [|case_match; by intros [= <- _]].
  destruct (fn_use_case_data_prev fr); [|by intros [= <- _]]. unfold HandleMsgUseCaseData. rewrite Hw.
  intros ([[e nm] ucs] & s1 & [= <- _ _ _] & (? & ? & _ & (? & ? & _ & [= <- _])%bind_ret)%bind_ret)%bind_ret. done.
Qed.

(** Looking up a binding changes nothing. *)
Lemma HasBinding_read sa ca (s : Device) ls : links (entries (bindings s)) ls →
  on_bindings (HasBinding sa ca) s = Ret (existsb (joins sa ca) ls) s.
Proof.
  intros Hl. unfold on_bindings. rewrite (HasBinding_spec sa ca (seen_by (bindings s) s) ls Hl). f_equal.
  destruct s as [t [d n e] su re q c o]. done.
Qed.

Lemma find_shape {A B} (g : A → B) (P : A → Prop) `{∀ x, Decision (P x)} (l l' : list A) i x : (∀ x y, g x = g y → P x → P y) →
  g <$> l' = g <$> l → list_find P l = Some (i, x) → ∃ y, list_find P l' = Some (i, y) ∧ g y = g x.
Proof.
  intros HP Hl (Hi & HPx & Hmin)%list_find_Some.
  assert (∀ j y, l' !! j = Some y → ∃ z, l !! j = Some z ∧ g y = g z) as Hlook.
  { intros j y Hj. assert ((g <$> l') !! j = Some (g y)) as Hg by by rewrite list_lookup_fmap, Hj.
    rewrite Hl, list_lookup_fmap in Hg. destruct (l !! j) as [z|]; [|done]. exists z. by injection Hg. }
  destruct (l' !! i) as [y|] eqn:Hy.
  2:{ exfalso. assert ((g <$> l') !! i = None) as Hg by by rewrite list_lookup_fmap, Hy. by rewrite Hl, list_lookup_fmap, Hi in Hg. }
  exists y. destruct (Hlook i y Hy) as (z & Hz & Hyz). assert (z = x) as -> by congruence. split; [|done].
  apply list_find_Some. split_and!; [done|by eapply HP|]. intros j w Hw Hlt Hbad. destruct (Hlook j w Hw) as (v & Hv & Hwv).
  eapply (Hmin j v); [done|done|]. by eapply HP.
Qed.

Lemma local_found_shape t t' a i j f : tree_shape t' = tree_shape t → DeviceGetFeatureWithAddress t a = Some (i, j, f) →
  ∃ f', DeviceGetFeatureWithAddress t' a = Some (i, j, f') ∧ feature_shape f' = feature_shape f.
Proof.
  intros [= Ha _ _ Hes]. unfold DeviceGetFeatureWithAddress. rewrite Ha. destruct (ld_address t), a as [a|]; try done. case_match; [done|].
  unfold find_feature. destruct (list_find _ (ld_entities t)) as [[i' e]|] eqn:He; [|done]. cbn [mbind option_bind].
  destruct (fa_feature a) as [id|]; [|done]. cbn [mbind option_bind]. destruct (list_find _ (en_features e)) as [[j' f0]|] eqn:Hf; [|done].
  cbn. intros [= -> -> ->]. eapply (find_shape entity_shape) in He as (e' & He' & Hee); [| |exact Hes].
  - setoid_rewrite He'. cbn. pose proof Hee as [= _ _ _ _ Hfs]. eapply (find_shape feature_shape) in Hf as (f' & Hf' & Hff); [| |exact Hfs].
    + setoid_rewrite Hf'. by exists f'.
    + cbn. intros x y [= Hxy _ _ _]. by rewrite Hxy.
  - cbn. intros x y [= Hxy _ _ _ _]. by rewrite Hxy.
Qed.

(** A binding joins the feature at [i], [j] with the feature of the sender's. *)
Definition bound (header : HeaderType) (object : nat) (ls : list FeatureLink) (s : Device) (i j : nat) : Prop :=
  ∃ f src rd k l g, DeviceGetFeatureWithAddress (tree s) (hdr_dest_addr header) = Some (i, j, f) ∧ hdr_src_addr header = Some src ∧
    remote_at object s = Some rd ∧ find_feature (rd_entities rd) (fa_entity src) (fa_feature src) = Some (k, l, g) ∧
    existsb (joins (Some (fn_address f)) (Some (fn_address g))) ls = true.

Definition with_written (i j : nat) (fd : FeatureData) (t : LocalDevice) : LocalDevice :=
  with_local_entities (set_feature_data i j fd (ld_entities t)) t.

Lemma written_twice i j fd fd' t : with_written i j fd' (with_written i j fd t) = with_written i j fd' t.
Proof.
  unfold with_written, with_local_entities. cbn. f_equal. unfold set_feature_data. rewrite list_alter_alter_eq.
  apply list_alter_ext; [|done]. intros e He. unfold with_features. cbn. f_equal. rewrite list_alter_alter_eq. by apply list_alter_ext.
Qed.

(** One command of a write is without effect, or changes the data of the bound feature. *)
Lemma write_cmd header cmd object s err s' ls : is_write header → links (entries (bindings s)) ls → ProcessCmd (V := V) header cmd object s = Ret err s' →
  (err = kEebusErrorOk → bindings s' = bindings s ∧ remote_at object s' = remote_at object s) ∧
  (tree s' = tree s ∨ ∃ i j fd, bound header object ls s i j ∧ tree s' = with_written i j fd (tree s)).
Proof.
  intros Hw Hls [err' He|s1 _ Hf|r src classifier s1 err' s2 Hc Hok <- Hl Hsrc Hr Hallowed Hrun]%ProcessCmd_cases.
  - split; [done|by left].
  - split; [done|left; apply Hf].
  - unfold is_write in Hw. assert (classifier = kCommandClassifierTypeWrite) as -> by congruence. rewrite bool_decide_true in Hallowed by done.
    rewrite (HasBinding_read _ _ _ _ Hls) in Hallowed. injection Hallowed as Hjoin <-. set (msg := mkMessage _ _ _ _ _) in Hrun.
    destruct (is_own_management _).
    + apply management_write in Hrun as [Ht Hrest]; [|done]. split; [|by left]. intros He. destruct (Hrest He) as [-> Hre]. split; [done|].
      unfold remote_at. by rewrite Hre.
    + apply FeatureLocal_effect in Hrun as (fd & fr & os & Hm & Hf & Hb). apply feature_message_shape in Hm as (_ & _ & _ & Hfr).
      rewrite (Hfr eq_refl) in Hf. pose proof Hok as [_ Hd Hat].
      assert (with_remote_feature r (rt_remote r).2 = rt_device r) as Hsame.
      { unfold with_remote_feature. destruct (rt_remote r) as [[k l] g]. rewrite set_feature_same by done. by destruct (rt_device r). }
      rewrite Hsame in Hf. split.
      * intros _. split; [done|]. unfold remote_at at 1. rewrite (fr_remotes _ _ Hf). rewrite Hd.
        change (remote_at (rt_object r) (set_remote (rt_object r) (rt_device r) (put_local r fd s)) = Some (rt_device r)). apply set_remote_same.
        unfold put_local. by destruct (rt_local r) as [[i j] f].
      * right. destruct (rt_local r) as [[i j] f] eqn:Hloc. destruct (rt_remote r) as [[k l] g] eqn:Hrem. exists i, j, fd. split.
        { by exists f, src, (rt_device r), k, l, g. }
        rewrite (fr_tree _ _ Hf). unfold put_local. by rewrite Hloc.
Qed.

Lemma bound_shape header object ls s s' i j : tree_shape (tree s') = tree_shape (tree s) → remote_at object s' = remote_at object s →
  bound header object ls s' i j → bound header object ls s i j.
Proof.
  intros Ht Hre (f & src & rd & k & l & g & Hl & Hsrc & Hrd & Hf & Hj).
  destruct (local_found_shape (tree s') (tree s) _ i j f (eq_sym Ht) Hl) as (f' & Hl' & Hff).
  assert (fn_address f' = fn_address f) as Ha by (unfold feature_shape in Hff; congruence).
  exists f', src, rd, k, l, g. rewrite Ha. split_and!; try done. congruence.
Qed.

Lemma bound_unique header object ls s i j i' j' : bound header object ls s i j → bound header object ls s i' j' → i' = i ∧ j' = j.
Proof. intros (f & ? & ? & ? & ? & ? & Hl & _) (f' & ? & ? & ? & ? & ? & Hl' & _). rewrite Hl in Hl'. by injection Hl' as -> -> _. Qed.

Lemma write_cmds header object ls cmds : is_write header → ∀ s err s', links (entries (bindings s)) ls →
  process_cmds (V := V) header cmds object s = Ret err s' →
  tree s' = tree s ∨ ∃ i j fd, bound header object ls s i j ∧ tree s' = with_written i j fd (tree s).
Proof.
  intros Hw. induction cmds as [|[cmd|] cmds IH]; intros s err s' Hls; cbn [process_cmds]; try by (intros [= _ <-]; left).
  intros (e & s1 & Hcmd & Hrest)%bind_ret. pose proof (ProcessCmd_served _ _ _ _ _ _ Hcmd) as Hsv.
  apply (write_cmd _ _ _ _ _ _ _ Hw Hls) in Hcmd as [Hok Hcmd]. destruct (is_ok e) eqn:He; [|by injection Hrest as _ <-].
  apply is_ok_true in He. destruct (Hok He) as [Hb Hre]. rewrite <- Hb in Hls. apply (IH _ _ _ Hls) in Hrest as [Ht|(i & j & fd & Hbound & Ht)].
  { rewrite Ht. exact Hcmd. }
  apply (bound_shape _ _ _ s) in Hbound; [|apply Hsv|done]. right. destruct Hcmd as [Ht1|(i1 & j1 & fd1 & Hbound1 & Ht1)].
  - exists i, j, fd. by rewrite Ht, Ht1.
  - destruct (bound_unique _ _ _ _ _ _ _ _ Hbound Hbound1) as [-> ->]. exists i, j, fd. split; [done|]. by rewrite Ht, Ht1, written_twice.
Qed.

(** Other messages change no data of the device. *)
Lemma other_cmd header cmd object s err s' : ¬ is_write header → ProcessCmd (V := V) header cmd object s = Ret err s' → tree s' = tree s.
Proof.
  intros Hw [err' He|s1 Hc _|r src classifier s1 err' s2 Hc Hok <- Hl Hsrc Hr Hallowed Hrun]%ProcessCmd_cases; [done|done|].
  assert (classifier ≠ kCommandClassifierTypeWrite) as Hne by (intros ->; by apply Hw). rewrite bool_decide_false in Hallowed by done. subst s1.
  destruct (is_own_management _).
  - apply NodeManagement_effect in Hrun as (o & [Ht _ _ _] & _). rewrite Ht. by destruct o.
  - apply FeatureLocal_effect in Hrun as (fd & fr & os & Hm & Hf & _). apply feature_message_shape in Hm as (_ & _ & Hfd & _).
    rewrite (fr_tree _ _ Hf). rewrite (Hfd Hne). pose proof (ro_local _ _ Hok) as Hat. unfold put_local.
    destruct (rt_local r) as [[i j] f]. cbn in *. rewrite (set_data_place _ _ _ _ _ Hat).
    replace (set_data (fn_data f) f) with f by by destruct f. rewrite set_feature_same by done. by destruct (tree s).
Qed.

Lemma other_cmds header object cmds : ¬ is_write header → ∀ s err s', process_cmds (V := V) header cmds object s = Ret err s' → tree s' = tree s.
Proof.
  intros Hw. induction cmds as [|[cmd|] cmds IH]; intros s err s'; cbn [process_cmds]; try by intros [= _ <-].
  intros (e & s1 & Hcmd%other_cmd & Hrest)%bind_ret; [|done]. destruct (is_ok e); [|by injection Hrest as _ <-].
  apply IH in Hrest. congruence.
Qed.
End routing.
