(* ===== verification/DeviceProperties.v ===== *)
(** * What a device promises its applications and its peers

    Theorems about [DeviceLocal]: who may change the data of a device, what a message leaves alone, and what stays
    whatever peers send. *)

From stdpp Require Import gmap.
From S2P Require Import Prelude FeatureFunctions Duration DateTime EebusData EebusDataWrite EebusDataFacts SpineTables SpineFunction Json EebusDataJson Timer Vector Pool Spine FeatureLink LinkManager BindingManager SubscriptionManager Pending Sender Datagram DatagramWire FeatureData SpineTablesFacts UseCase UseCaseFacts UseCaseTable Discovery DiscoveryFacts DiscoveryTree DiscoveryInv DeviceBuild DeviceLocal DeviceRouting.

Local Open Scope list_scope.

Section properties.
Context {V : Type → Type} `{VectorInterface V} `{malloc : Allocator} `{CJson} {E : SpineEnv}.
Abbreviation Device := (Device (V := V)).

(** C10: The data of a device changes through writes only, and only what is bound: a datagram that changes anything of
    the local entities is a write, a binding joins the feature it is for with a feature of the device it came from, and all it
    changes is the data of that feature. *)
Theorem only_bound_writes_change_data dg object s err s' ls : links (entries (bindings s)) ls →
  ProcessDatagram (V := V) dg object s = Ret err s' → tree s' ≠ tree s →
  ∃ header i j fd, dg ≫= Datagram.header = Some header ∧ is_write header ∧ bound header object ls s i j ∧ tree s' = with_written i j fd (tree s).
Proof.
  intros Hls [[_ ->]|(header & cmds & s1 & Hh & _ & Hs & Hf & _)]%ProcessDatagram_run Hne; [done|]. rewrite (fr_tree _ _ Hf) in *.
  destruct (decide (hdr_cmd_classifier header = Some kCommandClassifierTypeWrite)) as [Hw|Hw].
  - apply (write_cmds _ _ ls) in Hs as [Ht|(i & j & fd & Hb & Ht)]; [done| |done..]. by exists header, i, j, fd.
  - by apply other_cmds in Hs.
Qed.

(** C11: A write without a binding between the two features is refused with [kEebusErrorNoChange]; nothing is
    changed, sent or told. *)
Theorem unbound_write_refused dg header cmd cmds object s ls src rd i j f k l g :
  dg ≫= Datagram.header = Some header → dg ≫= Datagram.payload = Some (Some cmd :: cmds) → is_write header →
  DeviceGetFeatureWithAddress (tree s) (hdr_dest_addr header) = Some (i, j, f) → hdr_src_addr header = Some src →
  remote_at object s = Some rd → find_feature (rd_entities rd) (fa_entity src) (fa_feature src) = Some (k, l, g) →
  links (entries (bindings s)) ls → existsb (joins (Some (fn_address f)) (Some (fn_address g))) ls = false →
  ProcessDatagram (V := V) dg object s = Ret kEebusErrorNoChange s.
Proof.
  intros Hh Hp Hw Hl Hsrc Hrd Hf Hls Hno. unfold ProcessDatagram. rewrite Hh, Hp. unfold is_write in Hw. rewrite Hw.
  assert (ProcessCmd header cmd object s = Ret kEebusErrorNoChange s) as Hcmd.
  2: { rewrite (run_bind _ _ s kEebusErrorNoChange s); [done|]. cbn [process_cmds]. by rewrite (run_bind _ _ _ _ _ Hcmd). }
  unfold ProcessCmd. rewrite (run_bind get _ s s s), Hl, Hsrc by done. cbn [deref_address].
  rewrite (run_bind (mret src) _ s src s), Hrd by done. rewrite (run_bind (defined (Some rd)) _ s rd s), Hf, Hw by done.
  rewrite (run_bind _ _ _ _ _ (HasBinding_read _ _ _ _ Hls)). cbn [snd]. by rewrite Hno.
Qed.

(** A datagram touches no other device than the one it came from: the others keep all their data, and whatever
    it holds, the queue and the entities, features, functions and operations of this device stay. *)
Theorem messages_stay_with_sender dg object s err s' : ProcessDatagram (V := V) dg object s = Ret err s' →
  (∀ other, other ≠ object → remote_at other s' = remote_at other s) ∧ re_ski <$> remotes s' = re_ski <$> remotes s ∧
  msg_queue s' = msg_queue s ∧ tree_shape (tree s') = tree_shape (tree s).
Proof.
  intros [Ht Ho Hq _ _]%ProcessDatagram_served. split_and!; [|by induction Ho as [|r r' l l' (Hski & _) _ IH]; cbn; [|f_equal]|done|done].
  intros other Hne. unfold remote_at. f_equal. induction Ho as [|r r' l l' (_ & Hobj & Hr) _ IH]; [done|]. cbn.
  destruct (decide (re_object r = other)) as [Heq|Hneq].
  - rewrite decide_True by congruence. cbn. by rewrite Hr by congruence.
  - rewrite decide_False by congruence. destruct (list_find _ l) as [[? ?]|], (list_find _ l') as [[? ?]|]; cbn in *; congruence.
Qed.

(** ** Whatever peers do *)

(** A message arrives, or the next of the queue is served; a second has passed; a device appears or vanishes; a
    request is answered, or its time is over. *)
Inductive PeerStep :=
| Receive (text : string) (object : nat)
| Serve
| Second
| Appear (ski : string) (object : nat)
| Vanish (ski : string)
| Discovered (ski : string) (function_data : Data) (feature_remote : FeatureAddressType) (err : EebusError)
| UseCasesRead (ski : string) (err : EebusError).

Definition peer_step (p : PeerStep) : Prog Device unit :=
  match p with
  | Receive text object => DeviceLocalHandleMessage text object;; mret tt
  | Serve => HandleQueueMessage;; mret tt
  | Second => DeviceLocal1sTickCallback
  | Appear ski object => SetupRemoteDevice ski object
  | Vanish ski => RemoveRemoteDeviceConnection ski
  | Discovered ski function_data feature_remote err => OnDetailedDiscoveryReadReply ski function_data feature_remote err
  | UseCasesRead ski err => OnUseCaseDataReadReply ski err
  end.
Fixpoint peer_steps (ps : list PeerStep) : Prog Device unit :=
  match ps with [] => mret tt | p :: ps => peer_step p;; peer_steps ps end.

Record lasting (s s' : Device) : Prop := {
  la_shape : tree_shape (tree s') = tree_shape (tree s);
  la_trees : Forall (λ r, tree_ok (re_device r)) (remotes s) → Forall (λ r, tree_ok (re_device r)) (remotes s');
}.
#[local] Instance lasting_preorder : PreOrder lasting.
Proof. split; [by intros s|]. intros s1 s2 s3 [H1 H2] [H3 H4]. constructor; [congruence|auto]. Qed.

Lemma framed_lasting {A} (m : Prog Device A) : stays framed m → stays lasting m.
Proof. intros Hm s a s' Hs%Hm. destruct Hs as [H1 H2 _ _]. constructor; [by rewrite H1|by rewrite H2]. Qed.

Lemma same_lasting g : (∀ s : Device, tree (g s) = tree s ∧ remotes (g s) = remotes s) → stays lasting (modify g).
Proof. intros Hg. apply stays_modify. intros s. destruct (Hg s) as [H1 H2]. constructor; [by rewrite H1|by rewrite H2]. Qed.

Lemma serve_lasting : stays lasting (HandleQueueMessage (V := V)).
Proof.
  unfold HandleQueueMessage. apply stays_bind; [apply _|apply stays_get, _|]. intros s0. destruct (msg_queue s0) as [|m q]; [done|].
  apply stays_bind; [apply _|by apply same_lasting|]. intros _. destruct m as [text object| |].
  - apply stays_bind; [apply _|apply stays_defined, _|]. intros dg. destruct (IsRemoteDeviceAlive object s0); [|apply stays_ret, _].
    intros s err s' [Ht _ _ _ Hr]%ProcessDatagram_served. by constructor.
  - apply framed_lasting. unfold DeviceLocalTick. solve_stays.
  - apply stays_ret, _.
Qed.

Lemma RemoveRemoteDevice_lasting ski : stays lasting (RemoveRemoteDevice (V := V) ski).
Proof.
  unfold RemoveRemoteDevice. apply stays_bind; [apply _|apply stays_get, _|]. intros s0. destruct (GetRemoteDeviceWithSki ski s0) as [r|]; [|apply stays_ret, _].
  do 3 (apply stays_bind; [apply _|apply framed_lasting; solve_stays|intros ?]). apply stays_bind; [apply _| |intros ?].
  - apply stays_modify. intros s. constructor; cbn; [done|]. intros Hall. apply Forall_forall. intros x [_ Hx]%list_elem_of_filter.
    rewrite Forall_forall in Hall. by apply Hall.
  - apply framed_lasting. unfold DestroyRemoteDevice. cbn zeta. repeat (apply stays_bind; [apply _|apply stays_defined, _|intros ?]).
    apply stays_bind; [apply _|case_match; solve_stays|intros ?]. apply stays_bind; [apply _|apply forget_framed|intros ?]. solve_stays.
Qed.

Lemma stays_defined_bind {A B} (R : Device → Device → Prop) `{!PreOrder R} (m : option A) (k : A → Prog Device B) :
  (∀ a, m = Some a → stays R (k a)) → stays R (a ← defined m; k a).
Proof. intros Hk. destruct m as [a|]; [|done]. by apply (Hk a). Qed.

Lemma peer_step_lasting p : stays lasting (peer_step p).
Proof.
  destruct p as [text object| | |ski object|ski|ski d a err|ski err]; cbn [peer_step].
  - unfold DeviceLocalHandleMessage. repeat (apply stays_bind; [apply _| |intros ?]); try apply stays_ret, _. by apply same_lasting.
  - apply stays_bind; [apply _|apply serve_lasting|intros ?]. apply stays_ret, _.
  - by apply same_lasting.
  - unfold SetupRemoteDevice. apply stays_defined_bind; [apply _|]. intros rd Hrd. apply stays_bind; [apply _|apply stays_get, _|]. intros s0.
    apply stays_bind; [apply _|case_match; [apply RemoveRemoteDevice_lasting|apply stays_ret, _]|intros ?]. apply stays_bind; [apply _| |intros ?].
    + apply stays_modify. intros s. constructor; cbn; [done|]. intros Hall. apply Forall_app. split; [done|]. apply Forall_singleton.
      by eapply reachable_ok, Constructed.
    + apply framed_lasting. unfold RequestDeviceRemoteDetailedDiscoveryData, request_from_remote. solve_stays.
  - unfold RemoveRemoteDeviceConnection. apply stays_bind; [apply _|apply stays_get, _|]. intros s0. case_match; [|apply stays_ret, _].
    apply stays_bind; [apply _|apply framed_lasting; solve_stays|intros ?]. apply RemoveRemoteDevice_lasting.
  - apply framed_lasting. unfold OnDetailedDiscoveryReadReply, RequestDeviceRemoteDetailedDiscoveryData, RequestDeviceRemoteUseCaseData, request_from_remote.
    solve_stays.
  - apply framed_lasting. unfold OnUseCaseDataReadReply, RequestDeviceRemoteUseCaseData, request_from_remote. solve_stays.
Qed.

(** C14: Whatever messages come, in whatever order, and whatever devices appear and vanish: a device that was built
    as it can be keeps what it announces, its answer to a discovery is the same as ever, and the trees of the other
    devices are well-formed. *)
Theorem peers_cannot_reshape info feature_set s ps s' msg : from_option int32 true feature_set = true → builds info feature_set (tree s) →
  remotes s = [] → peer_steps ps s = Ret tt s' →
  local_ok (di_address info) (tree s') ∧ device_typed (tree s') ∧ Forall (λ r, tree_ok (re_device r)) (remotes s') ∧
  ProcessReadDetailedDiscoveryData (tree s') msg =
    Some (fst (sent (SentReply (request_header msg) (discovery_cmd (announced (tree s))))),
          [SentReply (request_header msg) (discovery_cmd (announced (tree s)))]).
Proof.
  intros Hset Hb Hre Hps. apply builds_built, built_ok in Hb as [Hok Ht]; [|done].
  assert (lasting s s') as [Hshape Htrees].
  { clear Hok Ht Hre. revert s Hps. induction ps as [|p ps IH]; intros s; cbn [peer_steps]; [by intros [= <-]|].
    intros ([] & s1 & Hp%peer_step_lasting & Hrest%IH)%bind_ret. by transitivity s1. }
  pose proof (local_ok_shape _ _ _ Hshape Hok) as Hok'. pose proof (device_typed_shape _ _ Hshape Ht) as Ht'. split_and!; [done|done|by apply Htrees; rewrite Hre|].
  rewrite <- (announced_shape _ _ Hshape). destruct (lo_first _ _ Hok') as (e & es & f & fs & He & _ & _ & Hf & _).
  apply read_exact; [done|by rewrite He|]. unfold all_features. by rewrite He, bind_cons, Hf.
Qed.

(** ** Removal *)

Lemma change_links_list change (m : LinkManager (V := V)) ls : pool_list (entries m) ls →
  ∃ p, change_links change m = Ret tt (on_links m p) ∧ pool_list p (change <$> ls).
Proof.
  intros [ps Hp]. unfold change_links. set (body := λ x, link ← pool_load x; pool_store x (change link);; mret (None : option unit)).
  assert (∀ l2 l1 p, pool_at p ps (l1 ++ l2) →
    ∃ p', search body (length l2) (length l1) p = Ret None p' ∧ pool_at p' ps (l1 ++ (change <$> l2))) as Hgo.
  { induction l2 as [|l l2 IH]; intros l1 p Hat; [by exists p|]. destruct (pool_split _ _ _ _ _ Hat) as (ps1 & x & ps2 & Eps & Hlen & Hx & _ & _).
    rewrite Eps in Hat. destruct (pool_store_at _ _ _ _ _ _ _ (change l) Hat Hlen) as (p1 & Hstore & Hat1 & _). rewrite <- Eps in Hat1.
    destruct (IH (l1 ++ [change l]) p1) as (p' & Hs & Hat'); [by rewrite <- app_assoc|]. rewrite length_app, Nat.add_1_r in Hs. rewrite <- app_assoc in Hat'.
    exists p'. split; [|done]. cbn [search length]. rewrite <- Hlen at 1. rewrite (run_bind _ _ _ _ _ (pool_elem_at _ _ _ _ _ Hat)).
    assert (body x p = Ret None p1) as Hbody; [|by rewrite (run_bind _ _ _ _ _ Hbody)].
    unfold body. rewrite (run_bind _ _ _ _ _ (pool_load_at _ _ _ Hx)). by rewrite (run_bind _ _ _ _ _ Hstore). }
  destruct (Hgo ls [] (entries m) Hp) as (p' & Hs & Hat). exists p'. split; [|by eexists].
  assert (for_each body (entries m) = Ret None p') as Hfe.
  { unfold for_each. rewrite (run_bind _ _ _ _ _ (pool_size_at _ _ _ Hp)). exact Hs. }
  by rewrite (run_bind _ _ _ _ _ (on_entries_ret _ _ _ _ Hfe)).
Qed.

(** The links of the device are under its entities, as it is when they were made after its announcement. *)
Definition links_under (rd : RemoteDevice) (ls : list FeatureLink) : Prop :=
  Forall (λ l, client_ski l = Some (rd_ski rd) → outside (dr_entities (spine_remote rd)) l = false) ls.
Definition of_others (rd : RemoteDevice) (ls : list FeatureLink) : list FeatureLink :=
  filter (λ l, outside (dr_entities (spine_remote rd)) l = true) ls.

Lemma of_others_kept rd ls : links_under rd ls →
  without_client (λ cf, bool_decide (fr_ski cf = rd_ski rd)) <$> of_others rd ls = of_others rd ls.
Proof.
  intros Hu. unfold of_others. induction Hu as [|l ls Hl _ IH]; [done|]. rewrite filter_cons. destruct (decide _) as [Ho|Ho]; [|done].
  rewrite fmap_cons, IH. f_equal. unfold without_client. destruct l as [id sf [cf|]]; [|done]. cbn. case_bool_decide as Hski; [|done].
  exfalso. assert (client_ski (mkLink id sf (Some cf)) = Some (rd_ski rd)) as Hc by (unfold client_ski; cbn; congruence). rewrite (Hl Hc) in Ho. done.
Qed.

Lemma on_bindings_run {A} (m : Prog (LinkManager (V := V)) A) (s : Device) a b : m (seen_by (bindings s) s) = Ret a b →
  on_bindings m s = Ret a (set_bindings (kept (bindings s) b) s).
Proof. unfold on_bindings. by intros ->. Qed.
Lemma on_subscriptions_run {A} (m : Prog (LinkManager (V := V)) A) (s : Device) a b : m (seen_by (subscriptions s) s) = Ret a b →
  on_subscriptions m s = Ret a (set_subscriptions (kept (subscriptions s) b) s).
Proof. unfold on_subscriptions. by intros ->. Qed.

(** [forget] leaves the links that it does not change. *)
Lemma forget_run change (s : Device) ls ls' : pool_list (entries (bindings s)) ls → pool_list (entries (subscriptions s)) ls' →
  ∃ b b', forget change s = Ret tt (set_subscriptions b' (set_bindings b s)) ∧
    pool_list (entries b) (change <$> ls) ∧ pool_list (entries b') (change <$> ls').
Proof.
  intros Hl Hl'. destruct (change_links_list change (seen_by (bindings s) s) ls Hl) as (p & Hp & Hpl).
  destruct (change_links_list change (seen_by (subscriptions s) s) ls' Hl') as (p' & Hp' & Hpl').
  eexists _, _. unfold forget. rewrite (run_bind _ _ _ _ _ (on_bindings_run _ _ _ _ Hp)).
  rewrite (on_subscriptions_run _ _ tt (on_links (seen_by (subscriptions s) s) p')); [done|exact Hp'].
Qed.

Lemma alive_no_more object (l : list RemoteEntry) : existsb (λ r, (re_object r =? object)%nat) (filter (λ r, re_object r ≠ object) l) = false.
Proof.
  apply not_true_iff_false. intros (r & Hr & Ho)%existsb_exists. apply list_elem_of_In, list_elem_of_filter in Hr as [Hne _].
  by apply Nat.eqb_eq in Ho.
Qed.

Lemma others_stay object other (s : Device) : other ≠ object →
  remote_at other (set_remotes (filter (λ r, re_object r ≠ object) (remotes s)) s) = remote_at other s.
Proof.
  intros Hne. unfold remote_at. cbn. f_equal. induction (remotes s) as [|r l IH]; [done|]. rewrite filter_cons. cbn.
  destruct (decide (re_object r ≠ object)) as [Ho|Ho].
  - cbn. destruct (decide (re_object r = other)); [done|]. destruct (list_find _ l) as [[? ?]|], (list_find _ (filter _ l)) as [[? ?]|]; cbn in *; congruence.
  - rewrite (decide_False (P := re_object r = other)) by naive_solver. rewrite IH. by destruct (list_find _ l) as [[? ?]|].
Qed.

(** The features of the device can be freed: what its node management reports then can be read, and it is under the first entity. *)
Definition can_be_freed (r : RemoteEntry) : Prop :=
  is_Some (delete_features (spine_remote (re_device r)) (take 1 (rd_entities (re_device r)) ≫= en_features)) ∧
  delete_features (spine_remote (re_device r)) (drop 1 (rd_entities (re_device r)) ≫= en_features) = Some [].

(** What is left are the links outside the entities of the device, whosever they are. *)
Lemma RemoveRemoteDevice_exact ski s r ls ls' : GetRemoteDeviceWithSki ski s = Some r →
  links (entries (bindings s)) ls → links (entries (subscriptions s)) ls' → links_under (re_device r) ls → links_under (re_device r) ls' →
  can_be_freed r → ∃ s', RemoveRemoteDevice (V := V) ski s = Ret tt s' ∧
  tree s' = tree s ∧ IsRemoteDeviceAlive (re_object r) s' = false ∧ (∀ other, other ≠ re_object r → remote_at other s' = remote_at other s) ∧
  links (entries (bindings s')) (of_others (re_device r) ls) ∧ links (entries (subscriptions s')) (of_others (re_device r) ls') ∧
  ∀ text q, DatagramParse text ≠ None →
    HandleQueueMessage (set_queue (DataReceived text (re_object r) :: q) s') = Ret kEebusErrorOk (set_queue q s').
Proof.
  intros Hr Hl Hl' Hu Hu' [[ucs Hfirst] Hlater]. unfold RemoveRemoteDevice. rewrite (run_bind get _ s s s), Hr by done.
  destruct (RemoveDeviceLinks_list kEventTypeSubscriptionChange (spine_remote (re_device r)) (seen_by (subscriptions s) s) ls' Hl') as (p' & Hp' & Hpl' & _).
  rewrite (run_bind _ _ _ _ _ (on_subscriptions_run _ _ _ _ Hp')). set (s1 := set_subscriptions _ s).
  destruct (RemoveDeviceLinks_list kEventTypeBindingChange (spine_remote (re_device r)) (seen_by (bindings s1) s1) ls Hl) as (p & Hp & Hpl & _).
  rewrite (run_bind _ _ _ _ _ (on_bindings_run _ _ _ _ Hp)). set (s2 := set_bindings _ s1).
  rewrite (run_bind (emit _) _ _ tt _ eq_refl), (run_bind (modify _) _ _ tt _ eq_refl). set (s4 := set_remotes _ _).
  unfold DestroyRemoteDevice. cbn zeta. rewrite Hfirst, Hlater, (run_bind (defined (Some ucs)) _ s4 ucs s4 eq_refl).
  rewrite (run_bind (defined (Some [])) _ s4 [] s4 eq_refl), (run_bind (mret tt) _ s4 tt s4 eq_refl).
  destruct (forget_run (without_client (λ cf, bool_decide (fr_ski cf = rd_ski (re_device r)))) s4 _ _ (proj1 Hpl) (proj1 Hpl')) as (b & b' & Hf & Hb & Hb').
  rewrite (run_bind _ _ _ _ _ Hf). eexists. split; [reflexivity|].
  assert (of_others (re_device r) ls = filter (λ l, outside (dr_entities (spine_remote (re_device r))) l = true) ls) as Hof by done.
  rewrite <- Hof, (of_others_kept _ _ Hu) in Hb. change (filter _ ls') with (of_others (re_device r) ls') in Hb'. rewrite (of_others_kept _ _ Hu') in Hb'.
  assert (IsRemoteDeviceAlive (re_object r) (set_subscriptions b' (set_bindings b s4)) = false) as Hgone by apply alive_no_more.
  split_and!; [done|done| |split; [exact Hb|apply Hpl]|split; [exact Hb'|apply Hpl']|].
  - intros other Hne. apply (others_stay (re_object r) other s Hne).
  - intros text q Hparse. unfold HandleQueueMessage.
    match goal with |- _ ?s = _ => rewrite (run_bind get _ s s s) by done end. cbn [msg_queue set_queue].
    rewrite (run_bind (modify (set_queue q)) _ _ tt _ eq_refl). destruct (DatagramParse text) as [dg|]; [|done].
    rewrite (run_bind (defined (Some dg)) _ _ dg _ eq_refl). 
    match goal with |- context [IsRemoteDeviceAlive ?o ?x] => assert (IsRemoteDeviceAlive o x = false) as -> by exact Hgone end. done.
Qed.

(** Whose a link is: the device that its client feature belongs to. *)
Definition owned_by (r : RemoteEntry) (l : FeatureLink) : Prop := client_ski l = Some (rd_ski (re_device r)).
#[export] Instance owned_by_dec r l : Decision (owned_by r l).
Proof. unfold owned_by. apply _. Defined.
Definition within (r : RemoteEntry) (l : FeatureLink) : Prop := outside (dr_entities (spine_remote (re_device r))) l = false.

(** Every link is owned by a device that is there, under one of its entities; no two devices have an entity of the same address. *)
Definition links_known (s : Device) (ls : list FeatureLink) : Prop :=
  Forall (λ l, ∃ r, r ∈ remotes s ∧ owned_by r l ∧ within r l) ls.
Definition devices_differ (s : Device) : Prop := ∀ r1 r2, r1 ∈ remotes s → r2 ∈ remotes s →
  rd_ski (re_device r1) = rd_ski (re_device r2) ∨
  (∃ e1 e2, e1 ∈ dr_entities (spine_remote (re_device r1)) ∧ e2 ∈ dr_entities (spine_remote (re_device r2)) ∧ entity_address e1 = entity_address e2) →
  r1 = r2.

Lemma within_entity r l : within r l ↔ ∃ e, e ∈ dr_entities (spine_remote (re_device r)) ∧ client_entity l = Some (entity_address e).
Proof.
  unfold within, outside. rewrite negb_false_iff, existsb_exists. unfold under. split; intros (e & Hin & He); exists e.
  - by apply bool_decide_eq_true in He as ->; rewrite list_elem_of_In.
  - by rewrite bool_decide_eq_true; rewrite <- list_elem_of_In.
Qed.

Lemma within_is_owned s r l : devices_differ s → r ∈ remotes s → (∃ r0, r0 ∈ remotes s ∧ owned_by r0 l ∧ within r0 l) → within r l ↔ owned_by r l.
Proof.
  intros Hd Hr (r0 & Hr0 & Ho & Hw). split; [intros Hw'|intros Ho'].
  - apply within_entity in Hw as (e0 & He0 & Hc0), Hw' as (e & He & Hc). enough (r0 = r) as <- by done. apply Hd; [done..|right].
    exists e0, e. split_and!; [done..|]. congruence.
  - enough (r0 = r) as <- by done. apply Hd; [done..|left]. unfold owned_by in *. congruence.
Qed.

Lemma owned_links s r ls : devices_differ s → r ∈ remotes s → links_known s ls →
  links_under (re_device r) ls ∧ of_others (re_device r) ls = filter (λ l, ¬ owned_by r l) ls.
Proof.
  intros Hd Hr Hk. split.
  - eapply Forall_impl; [exact Hk|]. intros l Hl. apply (within_is_owned s r l Hd Hr Hl).
  - unfold of_others. induction Hk as [|l ls Hl _ IH]; [done|]. pose proof (within_is_owned s r l Hd Hr Hl) as Heq. unfold within in Heq.
    rewrite !filter_cons, IH. destruct (outside _ l); destruct (decide _), (decide _); (done || (exfalso; intuition congruence)).
Qed.

(** C15: A device that is removed is gone.  Where every link is owned by a device that is there, under one of its entities, and no two devices have the same
    SKI or an entity of the same address, and the device can be freed (only its first entity has a node management, and the use cases it told of
    have addresses): the removal ends; the device is not in the list; of the bindings and of the subscriptions exactly those are left that
    another device owns; the other devices and the entities of this device stay; and messages of it that wait in the queue have no effect.
    Devices with the same addresses lose each other's links ([shared_address_loses_links]). *)
Theorem removed_device_is_gone ski s r ls ls' : GetRemoteDeviceWithSki ski s = Some r → devices_differ s →
  links (entries (bindings s)) ls → links (entries (subscriptions s)) ls' → links_known s ls → links_known s ls' →
  can_be_freed r → ∃ s', RemoveRemoteDevice (V := V) ski s = Ret tt s' ∧
  tree s' = tree s ∧ IsRemoteDeviceAlive (re_object r) s' = false ∧ (∀ other, other ≠ re_object r → remote_at other s' = remote_at other s) ∧
  links (entries (bindings s')) (filter (λ l, ¬ owned_by r l) ls) ∧ links (entries (subscriptions s')) (filter (λ l, ¬ owned_by r l) ls') ∧
  ∀ text q, DatagramParse text ≠ None →
    HandleQueueMessage (set_queue (DataReceived text (re_object r) :: q) s') = Ret kEebusErrorOk (set_queue q s').
Proof.
  intros Hr Hd Hl Hl' Hk Hk' Hfree. assert (r ∈ remotes s) as Hin.
  { unfold GetRemoteDeviceWithSki in Hr. destruct (list_find _ _) as [[i r']|] eqn:Hf; [|done]. injection Hr as <-.
    apply list_find_Some in Hf as (Hi & _). by eapply list_elem_of_lookup_2. }
  destruct (owned_links s r ls Hd Hin Hk) as [Hu <-], (owned_links s r ls' Hd Hin Hk') as [Hu' <-]. by apply (RemoveRemoteDevice_exact ski).
Qed.
End properties.

(** ** A heat pump and two boxes that control it

    The witnesses of [DeviceBuild] and [DeviceProperties], and runs in which the device is worse off. *)

From S2P Require Import EebusDataMerge EebusDataList EebusDataDemo JsonText.

Section demo.
#[local] Existing Instances jtree_json.
#[local] Instance malloc_zero_is_null : Allocator := false.
#[local] Instance all_is_sent : SpineEnv := { sent := λ _, (kEebusErrorOk, 1%Z); has_sender := true }.
Abbreviation Device := (DeviceLocal.Device (V := Vector)).

(** ** The heat pump, as an application builds it *)

Definition pump_info : EebusDeviceInfo :=
  default (mkDeviceInfo EmptyString EmptyString EmptyString EmptyString EmptyString EmptyString EmptyString)
    (EebusDeviceInfoCreate (Some "HeatGenerationSystem") (Some "Vendor") (Some "Brand") (Some "Model") (Some "1") (Some "ship")).
Definition bare_pump : LocalDevice := default (mkLocalDevice None None None []) (DeviceLocalConstruct pump_info (Some 0%Z)).
Definition no_entity : EntityNode := mkEntityNode (mkEntityAddress None None) 0 None 0 [].
Definition new_appliance : EntityNode := default no_entity (EntityLocalCreate bare_pump 15 [1%Z]).
(** A server of load control. *)
Definition appliance : EntityNode := fst (default (no_entity, 0) (AddFeatureWithTypeAndRole new_appliance kFeatureTypeTypeLoadControl kRoleTypeServer)).
Definition pump : LocalDevice := with_local_entities (<[1 := appliance]> (ld_entities (push_entity new_appliance bare_pump))) (push_entity new_appliance bare_pump).

Lemma bare_pump_is : DeviceLocalConstruct pump_info (Some 0%Z) = Some bare_pump.
Proof. by vm_compute. Qed.
Lemma new_appliance_is : EntityLocalCreate bare_pump 15 [1%Z] = Some new_appliance.
Proof. by vm_compute. Qed.
Lemma appliance_is : AddFeatureWithTypeAndRole new_appliance kFeatureTypeTypeLoadControl kRoleTypeServer = Some (appliance, 0).
Proof. by vm_compute. Qed.
Lemma appliance_is_new : en_address new_appliance ∉ en_address <$> ld_entities bare_pump.
Proof. apply (bool_decide_unpack _). by vm_compute. Qed.
Lemma second_entity : ld_entities (push_entity new_appliance bare_pump) !! 1 = Some new_appliance.
Proof. by vm_compute. Qed.

Lemma pump_is_built : builds pump_info (Some 0%Z) pump.
Proof.
  refine (BuildStep pump_info (Some 0%Z) (push_entity new_appliance bare_pump) 1 new_appliance appliance _ second_entity _).
  - refine (BuildEntity pump_info (Some 0%Z) bare_pump 15 [1%Z] new_appliance (BuildConstruct _ _ _ bare_pump_is) new_appliance_is appliance_is_new eq_refl _ _).
    + by apply Forall_singleton.
    + done.
  - exact (StepFeature _ _ _ _ _ appliance_is).
Qed.


(** ** The boxes *)

(** Clients of load control.  Without type and feature set, which are freed twice else. *)
Definition box_address (name : string) (feature : Z) : FeatureAddressType := mkFeatureAddress (Some name) (Some [Some 1%Z]) (Some feature).
Definition fd_of (t : Z) (role : RoleType) : FeatureData :=
  default (mkFeatureData t role [] 0) (FeatureConstruct (default [] (GetFeatureFunctions t)) t role).
Definition box (name : string) : LocalDevice :=
  mkLocalDevice (Some name) None None
    [ mkEntityNode (EntityAddressCreate (Some name) [0%Z]) kEntityTypeTypeDeviceInformation None 1
        [ mkFeatureNode (nm_address (Some name)) None (fd_of kFeatureTypeTypeNodeManagement kRoleTypeSpecial) kDefaultMaxResponseDelayMs None 0 ];
      mkEntityNode (EntityAddressCreate (Some name) [1%Z]) 15 None 2
        [ mkFeatureNode (box_address name 7) None (fd_of kFeatureTypeTypeLoadControl kRoleTypeClient) kDefaultMaxResponseDelayMs None 0 ] ].

Definition header_of (src dest : FeatureAddressType) (c : CommandClassifierType) : HeaderType :=
  mkHdr (Some "1.3.0") (Some src) (Some dest) None (Some 1%Z) None (Some c) (Some false) None.
Definition datagram (src dest : FeatureAddressType) (c : CommandClassifierType) (cmd : CmdType) : option DatagramType :=
  Some (mkDatagram (Some (header_of src dest c)) (Some [Some cmd])).

Definition pump_name : string := di_address pump_info.
Definition limits : FeatureAddressType := mkFeatureAddress (Some pump_name) (Some [Some 1%Z]) (Some 1%Z).
Definition announcement (name : string) : option DatagramType :=
  datagram (nm_address None) (nm_address None) kCommandClassifierTypeReply (discovery_cmd (announced (box name))).
Definition binding_call (name : string) : option DatagramType :=
  datagram (nm_address (Some name)) (nm_address None) kCommandClassifierTypeCall
    (mkCmd None [] kFunctionTypeNodeManagementBindingRequestCall
       (Struct [Struct [address_data (box_address name 7); address_data limits; num_data kFeatureTypeTypeLoadControl]]) None None).
Definition write_limits (name : string) : option DatagramType :=
  datagram (box_address name 7) limits kCommandClassifierTypeWrite (mkCmd None [] 46 (Struct [Array two_limits]) None None).

Definition start : Device := mkDevice pump (LinkManagerConstruct (spine_local pump)) (LinkManagerConstruct (spine_local pump)) [] [] false [].

(** The box is discovered, then bound. *)
Definition appeared (name : string) (object : nat) : Prog Device EebusError :=
  SetupRemoteDevice name object;; ProcessDatagram (announcement name) object.
Definition bound_by (name : string) (object : nat) : Prog Device EebusError :=
  appeared name object;; ProcessDatagram (binding_call name) object.

Definition end_of {A} (o : outcome Device A) : Device := match o with Ret _ s => s | _ => start end.
Definition answer {A} (o : outcome Device A) : option A := match o with Ret a _ => Some a | _ => None end.
Definition known : Device := end_of (appeared "box" 1 start).
Definition ready : Device := end_of (bound_by "box" 1 start).
Definition written_to : Device := end_of (ProcessDatagram (write_limits "box") 1 ready).

Definition feature_data_at (s : Device) : option Data :=
  e ← ld_entities (tree s) !! 1; f ← head (en_features e); Some (FeatureGetData (fn_data f) 46).

Example they_work : answer (appeared "box" 1 start) = Some kEebusErrorOk ∧ answer (bound_by "box" 1 start) = Some kEebusErrorOk ∧
  answer (ProcessDatagram (write_limits "box") 1 ready) = Some kEebusErrorOk.
Proof. split_and!; by vm_compute. Qed.

Definition the_box : RemoteDevice := match remotes known with r :: _ => re_device r | [] => mkRemoteDevice None None IntNull EmptyString [] 0 0 end.
Definition the_request : RequestCall := mkRequestCall (Some (box_address "box" 7)) (Some limits) (Some kFeatureTypeTypeLoadControl).
Definition no_link : FeatureLink := mkLink 0 None None.
Definition the_link : FeatureLink :=
  mkLink 0 (DeviceLocalGetFeatureWithAddress (spine_local pump) (Some limits)) (remote_feature (spine_remote the_box) (box_address "box" 7)).

Lemma ready_links : links (entries (bindings ready)) [the_link].
Proof.
  pose proof (AddBinding_list (V := Vector) (spine_remote the_box) the_request (LinkManagerConstruct (spine_local pump)) [] kFeatureTypeTypeLoadControl (box_address "box" 7)
    (mo_links _ _ _ _ _ (manager_ok_start server_addr (spine_local pump))) eq_refl eq_refl eq_refl) as Ha. cbn zeta in Ha.
  assert (params_match (DeviceLocalGetFeatureWithAddress (local_device (LinkManagerConstruct (V := Vector) (spine_local pump))) (rq_server_address the_request))
    (remote_feature (spine_remote the_box) (box_address "box" 7)) kFeatureTypeTypeLoadControl &&
    negb (existsb (λ l : FeatureLink, bool_decide (rq_server_address the_request = server_addr l)) []) = true) as Hm by by vm_compute.
  rewrite Hm in Ha. destruct Ha as (sf & cf & p & Hsf & Hcf & Ha & Hp & _).
  assert (entries (bindings ready) = match AddBinding (spine_remote the_box) the_request (LinkManagerConstruct (V := Vector) (spine_local pump)) with
    | Ret _ m => entries m | _ => FeatureLinkContainerConstruct end) as -> by by vm_compute.
  rewrite Ha. cbn [entries]. unfold the_link. change (Some limits) with (rq_server_address the_request). 
  change (spine_local pump) with (local_device (LinkManagerConstruct (V := Vector) (spine_local pump))). rewrite Hsf, Hcf. exact Hp.
Qed.

Lemma known_links : links (entries (bindings known)) [].
Proof.
  assert (entries (bindings known) = FeatureLinkContainerConstruct) as -> by by vm_compute.
  apply (mo_links _ _ _ _ _ (manager_ok_start (V := Vector) server_addr (spine_local pump))).
Qed.

(** ** The witnesses *)

Lemma only_bound_writes_change_data_witness :
  ∃ header i j fd, write_limits "box" ≫= Datagram.header = Some header ∧ is_write header ∧ bound header 1 [the_link] ready i j ∧
    tree written_to = with_written i j fd (tree ready).
Proof.
  apply (only_bound_writes_change_data (write_limits "box") 1 ready kEebusErrorOk written_to [the_link]);
    [apply ready_links|by vm_compute|]. intros Heq.
  assert (feature_data_at written_to = feature_data_at ready) as Hd by (unfold feature_data_at; by rewrite Heq). vm_compute in Hd. discriminate Hd.
Defined.

Definition found {A} (default_value : A) (o : option A) : A := match o with Some a => a | None => default_value end.
Definition no_feature : FeatureNode := mkFeatureNode (nm_address None) None (fd_of 0 kRoleTypeClient) 0 None 0.
Definition limits_place : FeatureNode := (found (0, 0, no_feature) (DeviceGetFeatureWithAddress (tree known) (Some limits))).2.
Definition client_place : FeatureNode := (found (0, 0, no_feature) (find_feature (rd_entities the_box) (Some [Some 1%Z]) (Some 7%Z))).2.

Lemma unbound_write_refused_witness : ProcessDatagram (write_limits "box") 1 known = Ret kEebusErrorNoChange known.
Proof.
  apply (unbound_write_refused (write_limits "box") (header_of (box_address "box" 7) limits kCommandClassifierTypeWrite)
    (mkCmd None [] 46 (Struct [Array two_limits]) None None) [] 1 known [] (box_address "box" 7) the_box 1 0 limits_place 1 0 client_place);
    [reflexivity|reflexivity|reflexivity|vm_compute; reflexivity..|apply known_links|reflexivity].
Defined.

(** Two boxes: what one of them sends is nothing to the other. *)
Definition both : Device := end_of ((bound_by "box" 1;; appeared "tv" 2) start).
Definition both_after : Device := end_of (ProcessDatagram (announcement "tv") 2 both).

Lemma messages_stay_with_sender_witness : remote_at 1 both_after = remote_at 1 both ∧ re_ski <$> remotes both_after = re_ski <$> remotes both.
Proof.
  destruct (messages_stay_with_sender (announcement "tv") 2 both kEebusErrorOk both_after) as (Hother & Hskis & _); [by vm_compute|].
  split; [by apply Hother|done].
Defined.

Definition text_of (dg : option DatagramType) : string :=
  match dg ≫= DatagramPrintUnformatted with Some (Some text) => text | _ => EmptyString end.
Definition visit : list PeerStep :=
  [Appear "box" 1; Receive (text_of (announcement "box")) 1; Serve; Second; Serve; Receive (text_of (write_limits "box")) 1; Serve; Vanish "box"].
Definition visited : Device := end_of (peer_steps visit start).

Lemma peers_cannot_reshape_witness : local_ok (di_address pump_info) (tree visited) ∧
  ProcessReadDetailedDiscoveryData (tree visited) (mkMessage None kCommandClassifierTypeRead None None None) =
    Some (kEebusErrorOk, [SentReply None (discovery_cmd (announced pump))]).
Proof.
  destruct (peers_cannot_reshape pump_info (Some 0%Z) start visit visited (mkMessage None kCommandClassifierTypeRead None None None)) as (Hok & _ & _ & Hread);
    [done|apply pump_is_built|done|by vm_compute|]. split; [exact Hok|exact Hread].
Defined.

Definition both_bound : Device := end_of ((bound_by "box" 1;; appeared "tv" 2) start).

Lemma both_links : links (entries (bindings both_bound)) [the_link] ∧ links (entries (subscriptions both_bound)) [].
Proof.
  assert (entries (bindings both_bound) = entries (bindings ready)) as -> by by vm_compute. split; [apply ready_links|].
  assert (entries (subscriptions both_bound) = FeatureLinkContainerConstruct) as -> by by vm_compute.
  apply (mo_links _ _ _ _ _ (manager_ok_start (V := Vector) server_addr (spine_local pump))).
Qed.

Definition the_tv : RemoteDevice := match remotes both_bound with [_; r] => re_device r | _ => the_box end.
Definition addresses_of (rd : RemoteDevice) : list EntityAddressType := entity_address <$> dr_entities (spine_remote rd).

Lemma two_differ (s : Device) r r' : remotes s = [r; r'] → rd_ski (re_device r) ≠ rd_ski (re_device r') →
  Forall (λ a, a ∉ addresses_of (re_device r')) (addresses_of (re_device r)) → devices_differ s.
Proof.
  intros Hrs Hski Hno r1 r2. rewrite Forall_forall in Hno. rewrite Hrs, !elem_of_cons.
  intros [->|[->|[]%not_elem_of_nil]] [->|[->|[]%not_elem_of_nil]]; try done;
    (intros [E|(e1 & e2 & H1%(list_elem_of_fmap_2 entity_address) & H2%(list_elem_of_fmap_2 entity_address) & E)]; [congruence|]);
    rewrite E in H1; exfalso; by eapply Hno.
Qed.

Lemma both_remotes : remotes both_bound = [mkRemoteEntry "box" 1 the_box; mkRemoteEntry "tv" 2 the_tv].
Proof. by vm_compute. Qed.

Lemma both_differ : devices_differ both_bound.
Proof.
  apply (two_differ _ _ _ both_remotes); [by vm_compute|]. apply (bool_decide_unpack _). by vm_compute.
Qed.

Lemma removed_device_is_gone_witness : ∃ s', RemoveRemoteDevice "tv" both_bound = Ret tt s' ∧
  links (entries (bindings s')) [the_link] ∧ IsRemoteDeviceAlive 2 s' = false.
Proof.
  destruct (removed_device_is_gone "tv" both_bound (mkRemoteEntry "tv" 2 the_tv) [the_link] [])
    as (s' & Hrun & _ & Halive & _ & Hb & _);
    [by vm_compute|apply both_differ|apply both_links|apply both_links| |constructor|split; [eexists; vm_compute; reflexivity|by vm_compute]|
     exists s'; split; [exact Hrun|split; [exact Hb|exact Halive]]].
  apply Forall_singleton. exists (mkRemoteEntry "box" 1 the_box). split; [|split; by vm_compute].
  rewrite both_remotes. left.
Defined.

(** ** Runs that go wrong *)

(** Every announcement frees the features of before, and the binding points to one of them; the next write of the box
    looks at it. *)
Theorem second_announcement_crashes :
  (bound_by "box" 1;; ProcessDatagram (announcement "box") 1;; ProcessDatagram (write_limits "box") 1) start = Crash "NULL client feature".
Proof. by vm_compute. Qed.

(** An entity is removed while a box is subscribed to one of its features; the next notification looks at it. *)
Definition subscription_call (name : string) : option DatagramType :=
  datagram (nm_address (Some name)) (nm_address None) kCommandClassifierTypeCall
    (mkCmd None [] kFunctionTypeNodeManagementSubscriptionRequestCall
       (Struct [Struct [address_data (box_address name 7); address_data limits; num_data kFeatureTypeTypeLoadControl]]) None None).
Theorem removed_entity_is_looked_at :
  (appeared "box" 1;; ProcessDatagram (subscription_call "box") 1;; RemoveEntity 1;; AddEntity appliance) start = Crash "NULL server feature".
Proof. by vm_compute. Qed.

(** A delete call is answered for whom its addresses name: one box unbinds the other. *)
Definition delete_call (sender name : string) : option DatagramType :=
  datagram (nm_address (Some sender)) (nm_address None) kCommandClassifierTypeCall
    (mkCmd None [] kFunctionTypeNodeManagementBindingDeleteCall
       (Struct [Struct [Null; address_data (box_address name 7); address_data limits]]) None None).
Definition unbound_by_other : Prog Device EebusError :=
  bound_by "box" 1;; appeared "tv" 2;; ProcessDatagram (delete_call "tv" "box") 2.
Theorem others_can_unbind :
  answer (unbound_by_other start) = Some kEebusErrorOk ∧
  answer ((unbound_by_other;; ProcessDatagram (write_limits "box") 1) start) = Some kEebusErrorNoChange.
Proof. split; by vm_compute. Qed.

(** Two devices that announce the same address: removing one takes the binding of the other, which may then not write. *)
Definition impostor_left : Prog Device EebusError :=
  bound_by "box" 1;; SetupRemoteDevice "tv" 2;; ProcessDatagram (announcement "box") 2;; RemoveRemoteDevice "tv";; mret kEebusErrorOk.
Theorem shared_address_loses_links :
  re_ski <$> remotes (end_of (impostor_left start)) = ["box"] ∧
  answer ((impostor_left;; ProcessDatagram (write_limits "box") 1) start) = Some kEebusErrorNoChange.
Proof. split; by vm_compute. Qed.

(** A message that waits for a device that is gone is taken for one of the device that has its place now. *)
Definition late_message : Prog Device EebusError :=
  SetupRemoteDevice "box" 1;; DeviceLocalHandleMessage (text_of (announcement "box")) 1;; RemoveRemoteDeviceConnection "box";;
  SetupRemoteDevice "tv" 1;; HandleQueueMessage.
Theorem late_message_is_misattributed :
  (λ r, (re_ski r, rd_address (re_device r))) <$> remotes (end_of (late_message start)) = [("tv", Some "box")].
Proof. by vm_compute. Qed.

(** The device tells the brand as the name of the vendor. *)
Theorem vendor_is_brand : di_vendor pump_info = "Vendor" ∧
  ∃ d, (e ← head (ld_entities bare_pump); f ← en_features e !! 1; Some (FeatureGetData (fn_data f) kFunctionTypeDeviceClassificationManufacturerData)) = Some d ∧
  ∃ l, d = Struct l ∧ l !! 5 = Some (str_data "Brand") ∧ l !! 7 = Some (str_data "Brand").
Proof. split; [by vm_compute|]. eexists. split; [by vm_compute|]. eexists. by split_and!. Qed.
End demo.
