(* ===== verification/ScaledValue.v ===== *)
(** * Scaled values ([src/use_case/model/scaled_value.c], [src/common/eebus_math/eebus_math.c])

    A number as a value and a power of ten, and its text.  The conversions from and to
    floating point are not here.  [None] is what C leaves undefined, an overflow of
    [int64_t]; memory is there. *)

From Stdlib Require Import Ascii String DecimalPos DecimalN DecimalFacts.
From S2P Require Import Prelude Duration.

Local Open Scope list_scope.
Local Open Scope Z_scope.

Record ScaledValue := mkScaledValue { value : Z; scale : Z }.

Definition is_i64 (z : Z) : bool := (LONG_MIN <=? z) && (z <=? LONG_MAX).
(** The result of an operation on [int64_t]. *)
Definition int64 (z : Z) : option Z := if is_i64 z then Some z else None.
(** The conversion of an [int] to [int8_t], modulo 2^8. *)
Definition i8 (z : Z) : Z := (z + 2 ^ 7) `mod` 2 ^ 8 - 2 ^ 7.

(** The structures are those of the source: what their types can hold. *)
Definition scaled_ok (self : ScaledValue) : Prop :=
  LONG_MIN <= value self <= LONG_MAX ∧ - 2 ^ 7 <= scale self < 2 ^ 7.

Fixpoint power_loop (n : nat) (result : Z) : option Z :=
  match n with O => Some result | S n => r ← int64 (result * 10); power_loop n r end.
Definition PowerOfTen (exponent : Z) : option Z := power_loop (Z.to_nat exponent) 1.

Definition kMaxSafeScale : Z := 18.

(** A [ScaledNumberType]: two pointers. *)
Record ScaledNumberType := mkScaledNumber { sn_number : option Z; sn_scale : option Z }.

(** The scaled value that is there is changed only with [kEebusErrorOk]. *)
Definition ScaledValueInitWithScaledNumber (scaled_value : option ScaledValue) (scaled_number : option ScaledNumberType) :
    EebusError * option ScaledValue :=
  match scaled_value, scaled_number with
  | Some _, Some n =>
      match sn_number n with
      | None => (kEebusErrorInputArgument, scaled_value)
      | Some number => (kEebusErrorOk, Some (mkScaledValue number (default 0 (sn_scale n))))
      end
  | _, _ => (kEebusErrorInputArgumentNull, scaled_value)
  end.

(** ** Texts

    [print_int] is ["%lld"]; with a precision, of a number that is not negative, it is [print_pad]. *)

Definition print_int (z : Z) : list ascii := if z <? 0 then "-"%char :: print_nat (- z) else print_nat z.

Definition ScaledValueToString (scaled_value : option ScaledValue) : option (option (list ascii)) :=
  match scaled_value with
  | None => Some None
  | Some self =>
      if (scale self =? 0) || (value self =? 0) then Some (Some (print_int (value self)))
      else if (kMaxSafeScale <? scale self) || (scale self <? - kMaxSafeScale) then Some None
      else if 0 <? scale self then Some (Some (print_int (value self) ++ print_pad (Z.to_nat (scale self)) 0))
      else
        let scale_tmp := i8 (- scale self) in
        power_of_ten ← PowerOfTen scale_tmp;
        let v := Z.quot (value self) power_of_ten in
        let fraction := Z.abs (Z.rem (value self) power_of_ten) in
        Some (Some (
          if fraction =? 0 then print_int v
          else
            let text := print_int v ++ "."%char :: print_pad (Z.to_nat scale_tmp) fraction in
            if (v =? 0) && (value self <? 0) then "-"%char :: text else text))
  end.

(** The loop over the digits of the fraction. *)
Fixpoint count_fraction (scale : Z) (end_ptr : list ascii) : Z * list ascii :=
  match end_ptr with
  | c :: l => if isdigit c then count_fraction (i8 (scale - 1)) l else (scale, end_ptr)
  | [] => (scale, end_ptr)
  end.

(** [s] is the text up to its terminator. *)
Definition ScaledValueParse (s : option (list ascii)) (scaled_value : option ScaledValue) :
    option (EebusError * option ScaledValue) :=
  match s, scaled_value with
  | Some s, Some _ =>
      let failed := Some (kEebusErrorParse, scaled_value) in
      let is_negative := bool_decide (head s = Some "-"%char) in
      let p := if is_negative || bool_decide (head s = Some "+"%char) then tail s else s in
      if negb (from_option isdigit false (head p)) then failed
      else
        let '(v, end_ptr) := strtol p in
        if bool_decide (end_ptr = p) then failed
        else
          let finish v sc :=
            Some (kEebusErrorOk, Some (mkScaledValue (if is_negative && (0 <? v) then - v else v) sc)) in
          match end_ptr with
          | "."%char :: frac_start =>
              let '(sc, end_ptr) := count_fraction 0 frac_start in
              if bool_decide (end_ptr = frac_start) || negb (bool_decide (end_ptr = [])) then failed
              else
                let fraction := fst (strtol frac_start) in
                if fraction =? 0 then finish v 0
                else
                  power_of_ten ← PowerOfTen (i8 (- sc));
                  v ← int64 (v * power_of_ten);
                  v ← int64 (v + (if 0 <=? v then fraction else - fraction));
                  finish v sc
          | [] => finish v 0
          | _ => failed
          end
  | _, _ => Some (kEebusErrorInputArgumentNull, scaled_value)
  end.

(** ** Numbers and their digits *)

Lemma is_i64_true z : LONG_MIN <= z <= LONG_MAX → is_i64 z = true.
Proof. unfold is_i64. intros. apply andb_true_iff. split; apply Z.leb_le; lia. Qed.

Lemma int64_in z : LONG_MIN <= z <= LONG_MAX → int64 z = Some z.
Proof. intros. unfold int64. by rewrite is_i64_true. Qed.

Lemma i8_small z : - 2 ^ 7 <= z < 2 ^ 7 → i8 z = z.
Proof. intros. unfold i8. rewrite Z.mod_small; lia. Qed.

(** A power of ten that [int64_t] holds. *)
Lemma power_small n : (n <= 18)%nat → 1 <= 10 ^ Z.of_nat n <= 10 ^ 18.
Proof. intros. split; [|apply Z.pow_le_mono_r; lia]. pose proof (Z.pow_pos_nonneg 10 (Z.of_nat n)). lia. Qed.

Lemma power_loop_ok n k : (k + n <= 18)%nat →
  power_loop n (10 ^ Z.of_nat k) = Some (10 ^ Z.of_nat (k + n)).
Proof.
  revert k. induction n as [|n IH]; intros k Hk; [by rewrite Nat.add_0_r|]. cbn [power_loop].
  assert (10 ^ Z.of_nat k * 10 = 10 ^ Z.of_nat (S k)) as ->.
  { rewrite Nat2Z.inj_succ, Z.pow_succ_r by lia. lia. }
  rewrite int64_in by (pose proof (power_small (S k)); unfold LONG_MIN, LONG_MAX; lia). simpl.
  rewrite IH by lia. do 3 f_equal. lia.
Qed.

Lemma PowerOfTen_ok n : (n <= 18)%nat → PowerOfTen (Z.of_nat n) = Some (10 ^ Z.of_nat n).
Proof. intros Hn. unfold PowerOfTen. rewrite Nat2Z.id. by apply (power_loop_ok n 0). Qed.

(** Every number below [10 ^ w] has [w] digits, little-endian. *)
Lemma digits_exist w : ∀ n, (n < 10 ^ N.of_nat w)%N → ∃ d, Decimal.nb_digits d = w ∧ DecimalPos.Unsigned.of_lu d = n.
Proof.
  induction w as [|w IH]; intros n Hn.
  - exists Decimal.Nil. split; [done|]. simpl in *. lia.
  - rewrite Nat2N.inj_succ, N.pow_succ_r' in Hn.
    destruct (IH (n / 10)%N) as (d & Hd & Hv).
    { apply N.Div0.div_lt_upper_bound. done. }
    pose proof (N.mod_lt n 10 ltac:(done)). pose proof (N.Div0.div_mod n 10).
    assert (∀ r, (r < 10)%N → (r = 0 ∨ r = 1 ∨ r = 2 ∨ r = 3 ∨ r = 4 ∨ r = 5 ∨ r = 6 ∨ r = 7 ∨ r = 8 ∨ r = 9)%N)
      as Hcases by lia.
    destruct (Hcases (n mod 10)%N ltac:(done)) as [Hc|[Hc|[Hc|[Hc|[Hc|[Hc|[Hc|[Hc|[Hc|Hc]]]]]]]]];
      [exists (Decimal.D0 d)|exists (Decimal.D1 d)|exists (Decimal.D2 d)|exists (Decimal.D3 d)|exists (Decimal.D4 d)
      |exists (Decimal.D5 d)|exists (Decimal.D6 d)|exists (Decimal.D7 d)|exists (Decimal.D8 d)|exists (Decimal.D9 d)];
      (split; [simpl; by rewrite Hd|]); rewrite DecimalPos.Unsigned.of_lu_eqn; simpl; rewrite Hv; lia.
Qed.

Lemma print_nat_length w z : (0 < w)%nat → 0 <= z < 10 ^ Z.of_nat w → (length (print_nat z) <= w)%nat.
Proof.
  intros Hw Hz. destruct (digits_exist w (Z.to_N z)) as (d & Hd & Hv).
  { apply N2Z.inj_lt. rewrite Z2N.id, N2Z.inj_pow, nat_N_Z by lia. simpl. lia. }
  unfold print_nat. rewrite print_uint_length, <- Hv, <- DecimalPos.Unsigned.of_lu_rev.
  change (Pos.of_uint (Decimal.rev d)) with (N.of_uint (Decimal.rev d)). rewrite DecimalN.Unsigned.to_of.
  rewrite <- Hd, <- (DecimalFacts.nb_digits_rev d). apply DecimalFacts.nb_digits_unorm.
  apply DecimalFacts.nb_digits_n0. rewrite DecimalFacts.nb_digits_rev. lia.
Qed.

Lemma print_pad_length w z : (0 < w)%nat → 0 <= z < 10 ^ Z.of_nat w → length (print_pad w z) = w.
Proof.
  intros Hw Hz. pose proof (print_nat_length w z Hw Hz). unfold print_pad. rewrite length_app, length_replicate. lia.
Qed.

(** Zeros appended. *)
Definition append_zeros (n : nat) (u : Decimal.uint) : Decimal.uint :=
  Decimal.rev (Nat.iter n Decimal.D0 (Decimal.rev u)).

Lemma of_append_zeros n u : N.of_uint (append_zeros n u) = (N.of_uint u * 10 ^ N.of_nat n)%N.
Proof.
  unfold append_zeros, N.of_uint. rewrite DecimalPos.Unsigned.of_lu_rev, DecimalPos.Unsigned.of_uint_alt.
  induction n as [|n IH]; [simpl; lia|]. rewrite DecimalPos.Unsigned.of_lu_eqn.
  rewrite Nat2N.inj_succ, N.pow_succ_r'. cbn [Nat.iter nat_rect DecimalPos.Unsigned.hd DecimalPos.Unsigned.tl].
  change (nat_rect _ _ _ n) with (Nat.iter n Decimal.D0 (Decimal.rev u)). rewrite IH. lia.
Qed.

Lemma print_revapp d : ∀ d', print_uint (Decimal.revapp d d') = reverse (print_uint d) ++ print_uint d'.
Proof.
  induction d as [|d IH|d IH|d IH|d IH|d IH|d IH|d IH|d IH|d IH|d IH]; intros d'; [done|..];
    simpl; rewrite IH, reverse_cons, <- (assoc_L (++)); done.
Qed.

Lemma print_append_zeros n u : print_uint (append_zeros n u) = print_uint u ++ replicate n "0"%char.
Proof.
  unfold append_zeros, Decimal.rev. rewrite print_revapp, app_nil_r.
  assert (∀ d, print_uint (Nat.iter n Decimal.D0 d) = replicate n "0"%char ++ print_uint d) as ->.
  { intros d. induction n as [|n IH]; [done|]. simpl. by rewrite <- IH. }
  by rewrite print_revapp, app_nil_r, reverse_app, reverse_involutive, reverse_replicate.
Qed.

Lemma strtol_print_uint u rest : u ≠ Decimal.Nil → no_digit rest →
  strtol (print_uint u ++ rest) = (Z.min LONG_MAX (Z.of_N (N.of_uint u)), rest).
Proof.
  intros Hu Hr. rewrite strtol_first by by apply (zeros_first 0).
  rewrite parse_uint_print by done. by destruct u.
Qed.

(** The digits of [z] followed by [n] zeros, cut to the greatest [long]. *)
Lemma strtol_zeros z n rest : 0 <= z → no_digit rest →
  strtol (print_nat z ++ replicate n "0"%char ++ rest) = (Z.min LONG_MAX (z * 10 ^ Z.of_nat n), rest).
Proof.
  intros Hz Hr. unfold print_nat. set (u := N.to_uint (Z.to_N z)).
  assert (Z.of_N (N.of_uint (append_zeros n u)) = z * 10 ^ Z.of_nat n) as Hval.
  { rewrite of_append_zeros, N2Z.inj_mul, N2Z.inj_pow, nat_N_Z. subst u.
    by rewrite DecimalN.Unsigned.of_to, Z2N.id by done. }
  rewrite (assoc_L (++)), <- print_append_zeros, <- Hval.
  apply strtol_print_uint; [|done].
  intros E. apply (f_equal print_uint) in E. rewrite print_append_zeros in E.
  apply app_nil in E as [E _]. apply (f_equal length) in E. rewrite print_uint_length in E.
  apply DecimalFacts.nb_digits_0 in E. by apply (to_uint_nonnil (Z.to_N z)).
Qed.

(** ** Reading *)

(** The sign of a text. *)
Definition signed (neg : bool) (l : list ascii) : list ascii := if neg then "-"%char :: l else l.
Definition with_sign (neg : bool) (z : Z) : Z := if neg then - z else z.

Definition starts_with_digit (l : list ascii) : Prop := match l with c :: _ => isdigit c = true | [] => False end.

(** What the text says after its sign. *)
Lemma parse_signed neg l old : starts_with_digit l →
  ScaledValueParse (Some (signed neg l)) (Some old) =
  let '(v, end_ptr) := strtol l in
  if bool_decide (end_ptr = l) then Some (kEebusErrorParse, Some old)
  else
    let finish v sc := Some (kEebusErrorOk, Some (mkScaledValue (if neg && (0 <? v) then - v else v) sc)) in
    match end_ptr with
    | "."%char :: frac_start =>
        let '(sc, end_ptr) := count_fraction 0 frac_start in
        if bool_decide (end_ptr = frac_start) || negb (bool_decide (end_ptr = [])) then Some (kEebusErrorParse, Some old)
        else
          let fraction := fst (strtol frac_start) in
          if fraction =? 0 then finish v 0
          else
            power_of_ten ← PowerOfTen (i8 (- sc));
            v ← int64 (v * power_of_ten);
            v ← int64 (v + (if 0 <=? v then fraction else - fraction));
            finish v sc
    | [] => finish v 0
    | _ => Some (kEebusErrorParse, Some old)
    end.
Proof.
  destruct l as [|c l]; [done|]. intros Hc.
  assert (c ≠ "-"%char ∧ c ≠ "+"%char) as [Hm Hp] by (split; intros ->; done).
  unfold ScaledValueParse. destruct neg; cbn [signed head].
  - rewrite bool_decide_true by done. cbn [orb tail head]. cbn [from_option]. rewrite Hc. done.
  - rewrite (bool_decide_false (Some c = Some "-"%char)) by congruence.
    rewrite (bool_decide_false (Some c = Some "+"%char)) by congruence. cbn [orb head from_option]. rewrite Hc. done.
Qed.

Lemma starts_digit_print z rest : starts_with_digit (print_nat z ++ rest).
Proof.
  unfold print_nat. pose proof (zeros_first 0 (N.to_uint (Z.to_N z)) rest (to_uint_nonnil _)) as H. exact H.
Qed.

Lemma rest_shorter {A} (x : list A) rest : x ≠ [] → rest ≠ x ++ rest.
Proof. intros Hx E. apply (f_equal length) in E. rewrite length_app in E. destruct x; [done|simpl in E; lia]. Qed.

Lemma print_nat_nonnil z : print_nat z ≠ [].
Proof. pose proof (starts_digit_print z []) as H. rewrite app_nil_r in H. intros E. by rewrite E in H. Qed.

Lemma finish_value neg z sc : 0 <= z →
  mkScaledValue (if neg && (0 <? z) then - z else z) sc = mkScaledValue (with_sign neg z) sc.
Proof. intros Hz. destruct neg; [|done]. simpl. destruct (Z.ltb_spec 0 z); [done|]. f_equal. lia. Qed.

(** A whole number, with zeros behind it, cut to the range. *)
Lemma parse_whole neg z n old : 0 <= z →
  ScaledValueParse (Some (signed neg (print_nat z ++ replicate n "0"%char))) (Some old)
  = Some (kEebusErrorOk, Some (mkScaledValue (with_sign neg (Z.min LONG_MAX (z * 10 ^ Z.of_nat n))) 0)).
Proof.
  intros Hz. rewrite parse_signed by apply starts_digit_print.
  pose proof (strtol_zeros z n [] Hz I) as E. rewrite app_nil_r in E. rewrite E.
  rewrite bool_decide_false.
  - cbv beta iota zeta. rewrite finish_value; [done|]. pose proof (Z.pow_nonneg 10 (Z.of_nat n)). unfold LONG_MAX. nia.
  - intros E'. symmetry in E'. apply app_nil in E' as [E' _]. by apply (print_nat_nonnil z).
Qed.

Lemma count_fraction_digits l : ∀ sc, Forall (λ c, isdigit c = true) l → - 128 <= sc - Z.of_nat (length l) → sc <= 0 →
  count_fraction sc l = (sc - Z.of_nat (length l), []).
Proof.
  induction l as [|c l IH]; intros sc Hl Hsc Hs; [simpl; f_equal; lia|].
  inversion Hl as [|? ? Hc Hl']; subst. cbn [count_fraction]. rewrite Hc. cbn [length] in *.
  rewrite i8_small by lia. rewrite IH by (done || lia). f_equal. lia.
Qed.

Lemma print_uint_are_digits u : Forall (λ c, isdigit c = true) (print_uint u).
Proof. induction u; constructor; done. Qed.

Lemma print_pad_digits w z : Forall (λ c, isdigit c = true) (print_pad w z).
Proof.
  unfold print_pad. apply Forall_app. split; [by apply Forall_replicate|]. apply print_uint_are_digits.
Qed.

(** A number with a fraction that is not zero: the sum may be out of range. *)
Lemma parse_fractional neg z w f old : 0 <= z → (0 < w <= 18)%nat → 0 < f < 10 ^ Z.of_nat w → z * 10 ^ Z.of_nat w <= LONG_MAX →
  ScaledValueParse (Some (signed neg (print_nat z ++ "."%char :: print_pad w f))) (Some old)
  = if LONG_MAX <? z * 10 ^ Z.of_nat w + f then None
    else Some (kEebusErrorOk, Some (mkScaledValue (with_sign neg (z * 10 ^ Z.of_nat w + f)) (- Z.of_nat w))).
Proof.
  intros Hz Hw Hf Hmax. rewrite parse_signed by apply starts_digit_print.
  pose proof (power_small w ltac:(lia)) as Hpow.
  assert (0 <= z * 10 ^ Z.of_nat w) as Hzp by (apply Z.mul_nonneg_nonneg; lia).
  assert (z <= z * 10 ^ Z.of_nat w) as Hzle by nia.
  rewrite strtol_print_nat by (done || lia).
  rewrite bool_decide_false by apply rest_shorter, print_nat_nonnil.
  pose proof (print_pad_length w f ltac:(lia) ltac:(lia)) as Hlen.
  rewrite count_fraction_digits by (rewrite ?Hlen; apply print_pad_digits || lia). rewrite Hlen.
  rewrite bool_decide_false by (intros E; apply (f_equal length) in E; rewrite Hlen in E; simpl in E; lia).
  rewrite (bool_decide_true ([] = [])) by done. cbn [orb negb].
  pose proof (strtol_print_pad w f [] ltac:(unfold LONG_MAX in *; lia) I) as Hfr. rewrite app_nil_r in Hfr. rewrite Hfr. cbn [fst].
  rewrite (proj2 (Z.eqb_neq f 0)) by lia.
  rewrite i8_small by lia. replace (- (0 - Z.of_nat w)) with (Z.of_nat w) by lia.
  rewrite PowerOfTen_ok by lia. cbn [mbind option_bind].
  rewrite int64_in by (unfold LONG_MIN; lia). cbn [mbind option_bind].
  rewrite (proj2 (Z.leb_le 0 (z * _))) by lia. destruct (Z.ltb_spec LONG_MAX (z * 10 ^ Z.of_nat w + f)) as [Hover|Hin].
  - unfold int64, is_i64. rewrite (proj2 (Z.leb_gt _ LONG_MAX)) by done. by rewrite andb_false_r.
  - rewrite int64_in by (unfold LONG_MIN; lia). cbn [mbind option_bind]. rewrite finish_value by lia. done.
Qed.

(** ** Texts are read back *)

Lemma print_int_signed z : z ≠ 0 → print_int z = signed (z <? 0) (print_nat (Z.abs z)).
Proof. intros Hz. unfold print_int. destruct (Z.ltb_spec z 0); simpl; do 2 f_equal; lia. Qed.

Lemma with_sign_abs z : with_sign (z <? 0) (Z.abs z) = z.
Proof. unfold with_sign. destruct (Z.ltb_spec z 0); lia. Qed.

Lemma with_sign_mul neg a b : with_sign neg (a * b) = with_sign neg a * b.
Proof. destruct neg; simpl; lia. Qed.

(** The number, in units of [10 ^ -18]. *)
Definition number (self : ScaledValue) : Z := value self * 10 ^ (scale self + kMaxSafeScale).

(** What [ScaledValueToString] writes. *)
Definition scaled_text (v : Z) (sc : Z) : list ascii :=
  if (sc =? 0) || (v =? 0) then print_int v
  else if 0 <? sc then print_int v ++ replicate (Z.to_nat sc) "0"%char
  else
    let p := 10 ^ (- sc) in
    signed (v <? 0) (if Z.abs v mod p =? 0 then print_nat (Z.abs v / p)
                     else print_nat (Z.abs v / p) ++ "."%char :: print_pad (Z.to_nat (- sc)) (Z.abs v mod p)).

Lemma print_pad_zero n : (0 < n)%nat → print_pad n 0 = replicate n "0"%char.
Proof.
  intros Hn. destruct n as [|n]; [lia|]. unfold print_pad. change (print_nat 0) with ["0"%char].
  cbn [length]. rewrite Nat.sub_succ, Nat.sub_0_r. by rewrite <- replicate_cons_app.
Qed.

(** Division in C, of numbers with a sign. *)
Lemma quot_rem_abs v p : 0 < p → Z.abs (Z.rem v p) = Z.abs v mod p ∧ Z.abs (Z.quot v p) = Z.abs v / p ∧
  (Z.quot v p < 0 → v < 0) ∧ (0 < Z.quot v p → 0 < v).
Proof.
  intros Hp. rewrite <- Z.rem_abs, <- Z.quot_abs by lia. rewrite (Z.abs_eq p) by lia.
  rewrite Z.rem_mod_nonneg, Z.quot_div_nonneg by lia. split_and!; [done|done|..]; intros Hq.
  - destruct (Z.lt_ge_cases v 0); [done|]. pose proof (Z.quot_pos v p ltac:(lia) Hp). lia.
  - destruct (Z.lt_ge_cases 0 v); [done|].
    pose proof (Z.quot_opp_l v p ltac:(lia)). pose proof (Z.quot_pos (- v) p ltac:(lia) Hp). lia.
Qed.

Lemma print_quot v p : 0 < p → v ≠ 0 → Z.quot v p ≠ 0 →
  print_int (Z.quot v p) = signed (v <? 0) (print_nat (Z.abs v / p)).
Proof.
  intros Hp Hv Hq. destruct (quot_rem_abs v p Hp) as (_ & Habs & Hneg & Hpos).
  rewrite print_int_signed, Habs by done. f_equal.
  destruct (Z.ltb_spec (Z.quot v p) 0), (Z.ltb_spec v 0); try done; lia.
Qed.

Lemma fractional_text v p frac : 0 < p → v ≠ 0 →
  (if (Z.quot v p =? 0) && (v <? 0) then "-"%char :: print_int (Z.quot v p) ++ frac else print_int (Z.quot v p) ++ frac)
  = signed (v <? 0) (print_nat (Z.abs v / p) ++ frac).
Proof.
  intros Hp Hv. destruct (Z.eqb_spec (Z.quot v p) 0) as [Hq|Hq].
  - destruct (quot_rem_abs v p Hp) as (_ & Habs & _). rewrite Hq in *. simpl in Habs. rewrite <- Habs.
    by destruct (v <? 0).
  - rewrite print_quot by done. by destruct (v <? 0).
Qed.

Lemma ToString_text v sc : - kMaxSafeScale <= sc <= kMaxSafeScale →
  ScaledValueToString (Some (mkScaledValue v sc)) = Some (Some (scaled_text v sc)).
Proof.
  unfold kMaxSafeScale. intros Hsc. unfold ScaledValueToString, scaled_text, kMaxSafeScale. cbn [value scale].
  destruct (Z.eqb_spec sc 0) as [|Hs]; [done|]. destruct (Z.eqb_spec v 0) as [|Hv]; [done|]. cbn [orb].
  destruct (Z.ltb_spec 18 sc); [lia|]. destruct (Z.ltb_spec sc (- (18))); [lia|]. cbn [orb].
  destruct (Z.ltb_spec 0 sc); [rewrite print_pad_zero by lia; done|].
  rewrite i8_small by lia. replace (- sc) with (Z.of_nat (Z.to_nat (- sc))) by lia.
  set (w := Z.to_nat (- sc)). rewrite PowerOfTen_ok by lia. rewrite Nat2Z.id.
  set (p := 10 ^ Z.of_nat w). assert (0 < p) as Hp by (apply Z.pow_pos_nonneg; lia).
  cbn [mbind option_bind]. destruct (quot_rem_abs v p Hp) as (Hrem & Habs & _). rewrite Hrem. do 2 f_equal.
  destruct (Z.eqb_spec (Z.abs v mod p) 0) as [Hf|Hf].
  - apply print_quot; [done..|]. intros Hq. rewrite Hq in Habs. simpl in Habs.
    pose proof (Z.div_mod (Z.abs v) p ltac:(lia)). lia.
  - by apply fractional_text.
Qed.

(** *** Reading the text back: the three shapes of [scaled_text] *)

(** Cut to what [int64_t] can hold with a sign and no scale. *)
Definition clamp (self : ScaledValue) : Z :=
  Z.max (- LONG_MAX * 10 ^ kMaxSafeScale) (Z.min (LONG_MAX * 10 ^ kMaxSafeScale) (number self)).
Definition reads_back (text : list ascii) (self : ScaledValue) : Prop :=
  ∀ old, ∃ self', ScaledValueParse (Some text) (Some old) = Some (kEebusErrorOk, Some self') ∧
    number self' = clamp self ∧ (self' = self ∨ scale self' = 0).

(** A whole number, cut. *)
Lemma clamp_whole v sc : 0 <= sc →
  number (mkScaledValue (with_sign (v <? 0) (Z.min LONG_MAX (Z.abs v * 10 ^ sc))) 0) = clamp (mkScaledValue v sc).
Proof.
  intros Hs. unfold clamp, number. cbn [value scale]. rewrite Z.add_0_l, (Z.pow_add_r 10 sc), Z.mul_assoc by (unfold kMaxSafeScale; lia).
  assert (0 < 10 ^ kMaxSafeScale) by (by vm_compute). assert (0 < LONG_MAX) by (by vm_compute). assert (0 < 10 ^ sc) by (apply Z.pow_pos_nonneg; lia).
  unfold with_sign. destruct (Z.ltb_spec v 0); [replace (Z.abs v) with (- v) by lia|replace (Z.abs v) with v by lia]; nia.
Qed.

Lemma clamp_small self : Z.abs (number self) <= LONG_MAX * 10 ^ kMaxSafeScale → clamp self = number self.
Proof. unfold clamp. lia. Qed.

Lemma print_int_sign z l : print_int z ++ l = signed (z <? 0) (print_nat (Z.abs z) ++ l).
Proof.
  destruct (decide (z = 0)) as [->|Hz]; [done|]. rewrite print_int_signed by done. by destruct (z <? 0).
Qed.

Lemma reads_back_zeros v sc : 0 <= sc → reads_back (print_int v ++ replicate (Z.to_nat sc) "0"%char) (mkScaledValue v sc).
Proof.
  intros Hs old. eexists. rewrite print_int_sign, parse_whole by lia. rewrite Z2Nat.id by lia. split; [done|].
  split; [by apply clamp_whole|by right].
Qed.

Lemma reads_back_int v sc : sc = 0 ∨ v = 0 → reads_back (print_int v) (mkScaledValue v sc).
Proof.
  intros Hz old. destruct (reads_back_zeros v 0 ltac:(lia) old) as (self' & Hparse & Hn & Hs). cbn [Z.to_nat replicate] in Hparse.
  rewrite app_nil_r in Hparse. exists self'. split; [done|]. destruct Hz as [->|Hz]; [done|]. split; [|destruct Hs as [->|]; by right].
  rewrite Hn, Hz. by vm_compute.
Qed.

(** The text of a fraction, where the value is the smallest, is beyond the range. *)
Lemma fraction_read v sc old : - kMaxSafeScale <= sc < 0 → LONG_MIN <= v <= LONG_MAX → let p := 10 ^ (- sc) in
  let text := signed (v <? 0) (if Z.abs v mod p =? 0 then print_nat (Z.abs v / p)
                else print_nat (Z.abs v / p) ++ "."%char :: print_pad (Z.to_nat (- sc)) (Z.abs v mod p)) in
  if v =? LONG_MIN then ScaledValueParse (Some text) (Some old) = None
  else ∃ self', ScaledValueParse (Some text) (Some old) = Some (kEebusErrorOk, Some self') ∧
    number self' = clamp (mkScaledValue v sc) ∧ (self' = mkScaledValue v sc ∨ scale self' = 0).
Proof.
  intros Hs Hv p text. unfold kMaxSafeScale in Hs. assert (10 <= p) as Hp by (change 10 with (10 ^ 1) at 1; apply Z.pow_le_mono_r; lia).
  pose proof (Z.div_mod (Z.abs v) p ltac:(lia)) as Hdm. pose proof (Z.mod_pos_bound (Z.abs v) p ltac:(lia)) as Hmod.
  pose proof (Z.div_pos (Z.abs v) p ltac:(lia) ltac:(lia)) as Hq. assert (Z.of_nat (Z.to_nat (- sc)) = - sc) as Hw by lia.
  destruct (Z.eqb_spec v LONG_MIN) as [->|Hne].
  - unfold text. assert (Z.abs LONG_MIN mod p ≠ 0) as Hf.
    { intros Hf. assert (10 | Z.abs LONG_MIN) as [k Hk]; [|unfold LONG_MIN in Hk; lia].
      transitivity p; [|apply Z.mod_divide; lia]. exists (10 ^ (- sc - 1)). unfold p. replace (- sc) with (Z.succ (- sc - 1)) at 1 by lia. rewrite Z.pow_succ_r by lia. lia. }
    rewrite (proj2 (Z.eqb_neq _ _) Hf), parse_fractional by (rewrite ?Hw; fold p; unfold LONG_MIN, LONG_MAX in *; lia).
    rewrite Hw. fold p. rewrite (proj2 (Z.ltb_lt _ _)); [done|]. unfold LONG_MIN, LONG_MAX in *. lia.
  - assert (Z.abs v <= LONG_MAX) as Hmax by (unfold LONG_MIN, LONG_MAX in *; lia).
    assert (number (mkScaledValue v sc) = v * 10 ^ (sc + 18)) as Hnum by done.
    rewrite clamp_small.
    2: { rewrite Hnum, Z.abs_mul, (Z.abs_eq (10 ^ _)) by (apply Z.pow_nonneg; lia). apply Z.mul_le_mono_nonneg; [lia|done|apply Z.pow_nonneg; lia|].
         apply Z.pow_le_mono_r; unfold kMaxSafeScale; lia. }
    unfold text. destruct (Z.eqb_spec (Z.abs v mod p) 0) as [Hf|Hf].
    + exists (mkScaledValue (with_sign (v <? 0) (Z.abs v / p)) 0). pose proof (parse_whole (v <? 0) (Z.abs v / p) 0 old Hq) as Hparse.
      cbn [replicate] in Hparse. change (10 ^ Z.of_nat 0) with 1 in Hparse. rewrite app_nil_r, Z.mul_1_r, Z.min_r in Hparse by nia.
      split; [done|]. split; [|by right]. rewrite Hnum. unfold number, kMaxSafeScale. cbn [value scale].
      replace (10 ^ (0 + 18)) with (p * 10 ^ (sc + 18)) by (unfold p; rewrite <- Z.pow_add_r by lia; f_equal; lia).
      rewrite Z.mul_assoc, <- with_sign_mul. replace (Z.abs v / p * p) with (Z.abs v) by lia. by rewrite with_sign_abs.
    + exists (mkScaledValue v sc). rewrite parse_fractional by (rewrite ?Hw; fold p; lia). rewrite Hw. fold p.
      replace (Z.abs v / p * p + Z.abs v mod p) with (Z.abs v) by lia. rewrite with_sign_abs, Z.opp_involutive.
      destruct (Z.ltb_spec LONG_MAX (Z.abs v)); [lia|]. split; [done|]. split; [done|]. by left.
Qed.

(** C22: The text of a scaled value and its reading, for every value the types can hold.  A value whose scale has more than 18 digits
    has no text, unless it is zero.  Every other has one, and reading it gives the same number, in the same value and scale or
    as a whole number, cut to the range of [int64_t] without its smallest value; but the smallest
    value with a fraction is written as a text whose reading overflows. *)
Theorem scaled_value_round_trip self old : scaled_ok self →
  if (kMaxSafeScale <? Z.abs (scale self)) && negb (value self =? 0) then ScaledValueToString (Some self) = Some None
  else ∃ text, ScaledValueToString (Some self) = Some (Some text) ∧
    if (value self =? LONG_MIN) && (scale self <? 0) then ScaledValueParse (Some text) (Some old) = None
    else ∃ self', ScaledValueParse (Some text) (Some old) = Some (kEebusErrorOk, Some self') ∧
      number self' = clamp self ∧ (self' = self ∨ scale self' = 0).
Proof.
  destruct self as [v sc]. unfold scaled_ok. cbn [value scale]. intros [Hv _]. destruct (Z.eqb_spec v 0) as [Hz|Hz].
  - rewrite andb_false_r. exists (print_int v). unfold ScaledValueToString. cbn [value scale]. rewrite (proj2 (Z.eqb_eq v 0)), orb_true_r by done.
    split; [done|]. rewrite (proj2 (Z.eqb_neq v LONG_MIN)) by (unfold LONG_MIN; lia). apply reads_back_int. by right.
  - rewrite andb_true_r. destruct (Z.ltb_spec kMaxSafeScale (Z.abs sc)) as [Hbig|Hsc].
    + unfold ScaledValueToString, kMaxSafeScale in *. cbn [value scale]. rewrite (proj2 (Z.eqb_neq sc 0)), (proj2 (Z.eqb_neq v 0)) by lia.
      destruct (Z.ltb_spec 18 sc), (Z.ltb_spec sc (- (18))); done || lia.
    + exists (scaled_text v sc). split; [apply ToString_text; lia|]. unfold scaled_text. rewrite (proj2 (Z.eqb_neq v 0)), orb_false_r by done.
      destruct (Z.ltb_spec sc 0); [|rewrite andb_false_r; destruct (Z.eqb_spec sc 0); [apply reads_back_int; by left|]].
      * rewrite andb_true_r, (proj2 (Z.eqb_neq sc 0)), (proj2 (Z.ltb_ge 0 sc)) by lia. apply fraction_read; [lia|done].
      * rewrite (proj2 (Z.ltb_lt 0 sc)) by lia. apply reads_back_zeros. lia.
Qed.

Lemma scaled_value_round_trip_witness : ∃ text self',
  ScaledValueToString (Some (mkScaledValue (-205) (-2))) = Some (Some text) ∧
  ScaledValueParse (Some text) (Some (mkScaledValue 0 0)) = Some (kEebusErrorOk, Some self') ∧
  number self' = - 205 * 10 ^ 16 ∧ (self' = mkScaledValue (-205) (-2) ∨ scale self' = 0).
Proof.
  destruct (scaled_value_round_trip (mkScaledValue (-205) (-2)) (mkScaledValue 0 0) ltac:(vm_compute; repeat split; done)) as (text & Htext & self' & Hparse & Hn & Hs).
  exists text, self'. split; [exact Htext|]. split; [exact Hparse|]. split; [|exact Hs]. rewrite Hn. vm_compute. reflexivity.
Defined.

(** *** Where reading goes wrong *)

(** The smallest value is written, but reading it gives another. *)
Lemma smallest_value_changes old :
  ∃ text, ScaledValueToString (Some (mkScaledValue LONG_MIN 0)) = Some (Some text) ∧
    ScaledValueParse (Some text) (Some old) = Some (kEebusErrorOk, Some (mkScaledValue (- LONG_MAX) 0)).
Proof. eexists. split; [by vm_compute|]. by vm_compute. Qed.

(** A fraction of nineteen digits is undefined behaviour, not an error. *)
Lemma long_fraction_overflows old :
  ScaledValueParse (Some (list_ascii_of_string "0.1234567890123456789")) (Some old) = None.
Proof. by vm_compute. Qed.
