(* ===== verification/LoadControl.v ===== *)
(** * Limits of load control ([src/use_case/specialization/load_control/], [helper.c], [feature_info_server.c],
      [use_case/model/load_limit_types.c], [spine/model/loadcontrol_types.c])

    How a use case finds, reads and writes the limits that a local server feature of load control
    holds, and how it sets the feature up ([AddLoadControlFeature] and the limit of
    [use_case/actor/cs/cs_lp_public.c]).  The structures of the source are records; their data is the encoding
    by which the tables see it, where a number has the bits of its width.  [None] is undefined
    behaviour: a NULL pointer followed, data that is not of its table. *)

From S2P Require Import Prelude FeatureFunctions Duration DateTime EebusData EebusDataWrite EebusDataFacts EebusDataMerge EebusDataList EebusDataJson Timer Vector Pool Spine Sender SpineFunction SpineReplica Datagram FeatureData FeatureReplica Discovery DeviceBuild EebusDataTable SpineTables EebusDataDemo SpineTablesFacts UseCaseTable ScaledValue.

Local Open Scope list_scope.

(** ** Data *)

Record TimePeriodType := mkTimePeriod {
  start_time : option AbsoluteOrRelativeTimeType;
  end_time : option AbsoluteOrRelativeTimeType;
}.

Record LoadControlLimitDataType := mkLimitData {
  limit_id : option Z;
  is_limit_changeable : option bool;
  is_limit_active : option bool;
  time_period : option TimePeriodType;
  limit_value : option ScaledNumberType;
}.

Record LoadControlLimitDescriptionDataType := mkLimitDescription {
  ld_limit_id : option Z;
  limit_type : option Z;
  limit_category : option Z;
  limit_direction : option Z;
  measurement_id : option Z;
  limit_unit : option Z;
  scope_type : option Z;
}.

(** The bits of a number of the width, and the number. *)
Definition signed_data (bits z : Z) : Data := num_data (z `mod` 2 ^ bits).
Definition data_signed (bits : Z) (d : Data) : option Z := number_value true bits <$> data_num d.

Definition scaled_number_data (n : ScaledNumberType) : Data :=
  Struct [opt (signed_data 64) (sn_number n); opt (signed_data 8) (sn_scale n)].
Definition data_scaled_number (d : Data) : option ScaledNumberType :=
  match d with
  | Struct [n; s] => n ← read_opt (data_signed 64) n; s ← read_opt (data_signed 8) s; Some (mkScaledNumber n s)
  | _ => None
  end.

Definition time_period_data (p : TimePeriodType) : Data := Struct [opt time_data (start_time p); opt time_data (end_time p)].
Definition data_time_period (d : Data) : option TimePeriodType :=
  match d with
  | Struct [s; e] => s ← read_opt data_time s; e ← read_opt data_time e; Some (mkTimePeriod s e)
  | _ => None
  end.

Definition limit_data (l : LoadControlLimitDataType) : Data :=
  Struct [ opt num_data (limit_id l); opt flag_data (is_limit_changeable l); opt flag_data (is_limit_active l);
           opt time_period_data (time_period l); opt scaled_number_data (limit_value l) ].
Definition data_limit (d : Data) : option LoadControlLimitDataType :=
  match d with
  | Struct [i; c; a; p; v] =>
      i ← read_opt data_num i; c ← read_opt data_flag c; a ← read_opt data_flag a;
      p ← read_opt data_time_period p; v ← read_opt data_scaled_number v; Some (mkLimitData i c a p v)
  | _ => None
  end.

(** The label and the description are NULL wherever the code makes one, and not read. *)
Definition limit_description_data (l : LoadControlLimitDescriptionDataType) : Data :=
  Struct [ opt num_data (ld_limit_id l); opt num_data (limit_type l); opt num_data (limit_category l);
           opt num_data (limit_direction l); opt num_data (measurement_id l); opt num_data (limit_unit l);
           opt num_data (scope_type l); Null; Null ].
Definition data_limit_description (d : Data) : option LoadControlLimitDescriptionDataType :=
  match d with
  | Struct [i; t; c; dir; m; u; s; _; _] =>
      i ← read_opt data_num i; t ← read_opt data_num t; c ← read_opt data_num c; dir ← read_opt data_num dir;
      m ← read_opt data_num m; u ← read_opt data_num u; s ← read_opt data_num s;
      Some (mkLimitDescription i t c dir m u s)
  | _ => None
  end.

(** A list container and its items; NULL is no item. *)
Definition list_data (items : list Data) : Data := Struct [Array items].
Definition data_list (d : Data) : option (list Data) :=
  match d with Null => Some [] | Struct (b :: _) => list_items b | _ => None end.

(** [spine/model/loadcontrol_types.h]: the values that the use case writes. *)
Definition kLoadControlLimitTypeTypeSignDependentAbsValueLimit : Z := 2.
Definition kLoadControlCategoryTypeObligation : Z := 0.
Definition kEnergyDirectionTypeConsume : Z := 0.
Definition kEnergyDirectionTypeProduce : Z := 1.
Definition kUnitOfMeasurementTypeW : Z := 10.
Definition kScopeTypeTypeActivePowerLimit : Z := 73.

(** ** [loadcontrol_types.c] *)

Definition LoadControlLimitIsValid (limit : option LoadControlLimitDataType) : bool :=
  match limit with
  | None => false
  | Some l => bool_decide (is_Some (limit_id l)) && bool_decide (is_Some (limit_value l ≫= sn_number))
  end.
Definition LoadControlLimitIsLimitChangeable (limit : option LoadControlLimitDataType) : bool :=
  default false (limit ≫= is_limit_changeable).
Definition LoadControlLimitIsActive (limit : option LoadControlLimitDataType) : bool :=
  default false (limit ≫= is_limit_active).

(** The duration, and whether there is none. *)
Definition LoadControlLimitGetDuration (limit : LoadControlLimitDataType) (duration : EebusDuration) :
    EebusError * EebusDuration * bool :=
  match time_period limit ≫= end_time with
  | None => (kEebusErrorOk, duration, true)
  | Some (kAbsoluteOrRelativeTimeTypeDateTime _) => (kEebusErrorNoChange, duration, false)
  | Some (kAbsoluteOrRelativeTimeTypeDuration d) => (kEebusErrorOk, d, false)
  end.

(** ** [load_limit_types.c] *)

Record LoadLimit := mkLoadLimit {
  ll_value : ScaledValue;
  ll_duration : EebusDuration;
  ll_is_changeable : bool;
  ll_is_active : bool;
  ll_delete_duration : bool;
}.

Definition LoadLimitInitWithLoadControlLimitData (self : LoadLimit) (data : option LoadControlLimitDataType) :
    EebusError * LoadLimit :=
  match data with
  | Some limit =>
      if negb (LoadControlLimitIsValid data) then (kEebusErrorOther, self)
      else
        match ScaledValueInitWithScaledNumber (Some (ll_value self)) (limit_value limit) with
        | (kEebusErrorOk, Some v) =>
            let '(err, duration, delete_duration) := LoadControlLimitGetDuration limit (ll_duration self) in
            (err, mkLoadLimit v duration (LoadControlLimitIsLimitChangeable data) (LoadControlLimitIsActive data) delete_duration)
        | (err, _) => (err, self)
        end
  | None => (kEebusErrorOther, self)
  end.

Section use_cases.
Context `{malloc : Allocator} {M : SpineModel} {E : SpineEnv}.

Abbreviation Outs := (list FeatureOut).

(** ** [helper.c], [feature_info_server.c] *)

(** [EbusDataContainerListMatchFirst]: the list is the first field of the container. *)
Definition HelperListMatchFirst (function_type : nat) (data_container filter : Data) : option EebusDataListMatchIterator :=
  cfg ← ModelGetDataCfg function_type;
  match cfg with
  | Container _ _ (List_ _ _ as list_cfg :: _) | Container _ _ (ListSimple _ _ as list_cfg :: _) =>
      match data_container with
      | Null => EebusDataListMatchIteratorConstruct (Some list_cfg) None (Some filter)
      | Struct (buf :: _) => EebusDataListMatchIteratorConstruct (Some list_cfg) (Some buf) (Some filter)
      | _ => None
      end
  | _ => EebusDataListMatchIteratorConstruct None None None
  end.

(** The item that matches, if there is exactly one. *)
Definition HelperGetListUniqueMatch (function_type : nat) (data_container filter : Data) : option (option Data) :=
  it ← HelperListMatchFirst function_type data_container filter;
  if EebusDataListMatchIteratorIsDone it then Some None
  else
    ret ← EebusDataListMatchIteratorGet it;
    it ← EebusDataListMatchIteratorNext it;
    Some (if EebusDataListMatchIteratorIsDone it then Some ret else None).

(** The server feature of the type that an entity has: its place and its data. *)
Definition FeatureInfoServerConstruct (feature_type : Z) (local_entity : EntityNode) : option (nat * FeatureData) :=
  '(i, f) ← EntityLocalGetFeatureWithTypeAndRole local_entity feature_type kRoleTypeServer; Some (i, fn_data f).

(** The entity with the data of one of its features changed. *)
Definition with_feature_data (i : nat) (fd : FeatureData) (e : EntityNode) : EntityNode :=
  match en_features e !! i with Some f => with_features (<[i := set_data fd f]> (en_features e)) e | None => e end.

(** ** [load_control_common.c], over the data of a feature *)

Definition LoadControlCommonGetLimitDescriptionWithFilter (self : FeatureData) (filter : LoadControlLimitDescriptionDataType) :
    option (option LoadControlLimitDescriptionDataType) :=
  d ← HelperGetListUniqueMatch kFunctionTypeLoadControlLimitDescriptionListData
        (FeatureGetData self kFunctionTypeLoadControlLimitDescriptionListData) (limit_description_data filter);
  match d with None => Some None | Some d => Some <$> data_limit_description d end.

Definition description_with_id (id : option Z) : LoadControlLimitDescriptionDataType :=
  mkLimitDescription id None None None None None None.
Definition limit_with_id (id : option Z) : LoadControlLimitDataType := mkLimitData id None None None None.

Definition LoadControlCommonGetLimitDescriptionWithId (self : FeatureData) (limit_id : Z) :=
  LoadControlCommonGetLimitDescriptionWithFilter self (description_with_id (Some limit_id)).

Definition LoadControlCommonGetLimitWithFilter (self : FeatureData) (filter : LoadControlLimitDescriptionDataType) :
    option (option LoadControlLimitDataType) :=
  description ← LoadControlCommonGetLimitDescriptionWithFilter self filter;
  match description ≫= ld_limit_id with
  | None => Some None
  | Some id =>
      d ← HelperGetListUniqueMatch kFunctionTypeLoadControlLimitListData
            (FeatureGetData self kFunctionTypeLoadControlLimitListData) (limit_data (limit_with_id (Some id)));
      match d with None => Some None | Some d => Some <$> data_limit d end
  end.

Definition LoadControlCommonGetLimitWithId (self : FeatureData) (limit_id : Z) :=
  LoadControlCommonGetLimitWithFilter self (description_with_id (Some limit_id)).

Definition LimitIdMatch (id_a id_b : option Z) : bool :=
  match id_a, id_b with Some a, Some b => (a =? b)%Z | _, _ => false end.

(** Whether [data] gives a value to a limit of the filter; the rounds of the loop. *)
Fixpoint check_limits (fuel : nat) (it : EebusDataListMatchIterator) (data : list LoadControlLimitDataType) : option bool :=
  match fuel with
  | O => None
  | S fuel =>
      if EebusDataListMatchIteratorIsDone it then Some false
      else
        description ← EebusDataListMatchIteratorGet it ≫= data_limit_description;
        if existsb (λ item, LimitIdMatch (limit_id item) (ld_limit_id description) && bool_decide (is_Some (limit_value item))) data
        then Some true
        else it ← EebusDataListMatchIteratorNext it; check_limits fuel it data
  end.

Definition LoadControlCommonCheckLimitWithFilter (self : FeatureData) (data : Data) (filter : LoadControlLimitDescriptionDataType) :
    option bool :=
  match data with
  | Null => Some false
  | _ =>
      let descriptions := FeatureGetData self kFunctionTypeLoadControlLimitDescriptionListData in
      it ← HelperListMatchFirst kFunctionTypeLoadControlLimitDescriptionListData descriptions (limit_description_data filter);
      n ← length <$> data_list descriptions;
      l ← data_list data ≫= mapM data_limit;
      check_limits (S n) it l
  end.

(** ** [load_control_server.c] *)

Definition partial_of (t : nat) : FilterType := mkFilter None (Some ctrl_partial) t Null t Null.
Definition delete_of (t : nat) (selectors elements : Data) : FilterType := mkFilter None (Some ctrl_delete) t selectors t elements.

Definition LoadControlServerConstruct (local_entity : EntityNode) : option (nat * FeatureData) :=
  FeatureInfoServerConstruct kFeatureTypeTypeLoadControl local_entity.

(** The next [uint32_t] after the ids that are there. *)
Fixpoint next_limit_id (l : list LoadControlLimitDescriptionDataType) (next_id : Z) : Z :=
  match l with
  | [] => next_id
  | d :: l =>
      next_limit_id l (match ld_limit_id d with Some id => if (next_id <=? id)%Z then u32 (id + 1) else next_id | None => next_id end)
  end.
Definition LoadControlServerGetNextLimitId (self : FeatureData) : option Z :=
  l ← data_list (FeatureGetData self kFunctionTypeLoadControlLimitDescriptionListData) ≫= mapM data_limit_description;
  Some (next_limit_id l 0).

(** Also the id that was given. *)
Definition LoadControlServerAddLimitDescription (self : FeatureData) (description : LoadControlLimitDescriptionDataType) :
    option (EebusError * FeatureData * Outs * option Z) :=
  match ld_limit_id description with
  | Some _ => Some (kEebusErrorNoChange, self, [], None)
  | None =>
      id ← LoadControlServerGetNextLimitId self;
      let d := mkLimitDescription (Some id) (limit_type description) (limit_category description) (limit_direction description)
                 (measurement_id description) (limit_unit description) (scope_type description) in
      let t := kFunctionTypeLoadControlLimitDescriptionListData in
      '(err, self, outs) ← FeatureLocalUpdateData self t (list_data [limit_description_data d]) (Some (partial_of t)) None;
      Some (err, self, outs, Some id)
  end.

Definition UpdateLimitData (self : FeatureData) (limits : list LoadControlLimitDataType) (delete_selectors delete_elements : Data) :
    option (EebusError * FeatureData * Outs) :=
  let t := kFunctionTypeLoadControlLimitListData in
  FeatureLocalUpdateData self t (list_data (limit_data <$> limits)) (Some (partial_of t))
    (if null delete_selectors && null delete_elements then None else Some (delete_of t delete_selectors delete_elements)).

Definition with_limit_id (id : option Z) (l : LoadControlLimitDataType) : LoadControlLimitDataType :=
  mkLimitData id (is_limit_changeable l) (is_limit_active l) (time_period l) (limit_value l).

Definition LoadControlServerUpdateLimitWithId (self : FeatureData) (limit : LoadControlLimitDataType) (limit_id : Z) :
    option (EebusError * FeatureData * Outs) :=
  description ← LoadControlCommonGetLimitDescriptionWithFilter self (description_with_id (Some limit_id));
  match description with
  | None => Some (kEebusErrorNoChange, self, [])
  | Some d => UpdateLimitData self [with_limit_id (ld_limit_id d) limit] Null Null
  end.

Definition LoadControlServerUpdateLimitWithFilter (self : FeatureData) (limit : LoadControlLimitDataType)
    (filter : LoadControlLimitDescriptionDataType) (delete_selectors delete_elements : Data) :
    option (EebusError * FeatureData * Outs) :=
  description ← LoadControlCommonGetLimitDescriptionWithFilter self filter;
  match description ≫= ld_limit_id with
  | None => Some (kEebusErrorNoChange, self, [])
  | Some id => UpdateLimitData self [with_limit_id (Some id) limit] delete_selectors delete_elements
  end.

(** ** The limit of a controllable system ([use_case/actor/cs/cs_lp.c], [cs_lp_public.c]) *)

(** The filter for the limit of the use case. *)
Definition active_power_limit (energy_direction : Z) : LoadControlLimitDescriptionDataType :=
  mkLimitDescription None (Some kLoadControlLimitTypeTypeSignDependentAbsValueLimit) (Some kLoadControlCategoryTypeObligation)
    (Some energy_direction) None None (Some kScopeTypeTypeActivePowerLimit).

(** The id that the description has is followed. *)
Definition CsLpGetLimitId (energy_direction : Z) (load_control_server : FeatureData) : option (EebusError * option Z) :=
  description ← LoadControlCommonGetLimitDescriptionWithFilter load_control_server (active_power_limit energy_direction);
  match description with
  | None => Some (kEebusErrorNoChange, None)
  | Some d => id ← ld_limit_id d; Some (kEebusErrorOk, Some id)
  end.

Definition CsLpGetActivePowerLimitInternal (energy_direction : Z) (local_entity : EntityNode) (limit : LoadLimit) :
    option (EebusError * LoadLimit) :=
  match LoadControlServerConstruct local_entity with
  | None => Some (kEebusErrorInputArgumentNull, limit)
  | Some (_, lcs) =>
      '(err, id) ← CsLpGetLimitId energy_direction lcs;
      match id with
      | None => Some (err, limit)
      | Some id =>
          data ← LoadControlCommonGetLimitWithId lcs id;
          Some (LoadLimitInitWithLoadControlLimitData limit data)
      end
  end.

(** The limit that is there is deleted, and the new one written. *)
Definition CsLpSetActivePowerLimitInternal (energy_direction : Z) (local_entity : EntityNode) (limit : ScaledValue)
    (is_active is_changeable : bool) : option (EebusError * EntityNode * Outs) :=
  match LoadControlServerConstruct local_entity with
  | None => Some (kEebusErrorInputArgumentNull, local_entity, [])
  | Some (i, lcs) =>
      '(err, id) ← CsLpGetLimitId energy_direction lcs;
      match id with
      | None => Some (err, local_entity, [])
      | Some id =>
          '(err, lcs, outs) ← LoadControlServerUpdateLimitWithFilter lcs
             (mkLimitData None (Some is_changeable) (Some is_active) None (Some (mkScaledNumber (Some (value limit)) (Some (scale limit)))))
             (description_with_id (Some id)) (Struct [num_data id]) Null;
          Some (err, with_feature_data i lcs local_entity, outs)
      end
  end.

(** [AddLoadControlFeature], with the place of the feature; its approval callback is counted. *)
Definition AddLoadControlFeature (energy_direction : Z) (entity : EntityNode) : option (EebusError * EntityNode * Outs) :=
  '(entity, i) ← AddFeatureWithTypeAndRole entity kFeatureTypeTypeLoadControl kRoleTypeServer;
  fl ← en_features entity !! i;
  let fd := fst (FeatureLocalSetFunctionOperations (fn_data fl) kFunctionTypeLoadControlLimitDescriptionListData true false) in
  let fd := fst (FeatureLocalSetFunctionOperations fd kFunctionTypeLoadControlLimitListData true true) in
  let fd := snd (FeatureLocalAddWriteApprovalCallback fd) in
  let entity := with_feature_data i fd entity in
  match LoadControlServerConstruct entity with
  | None => Some (kEebusErrorInputArgumentNull, entity, [])
  | Some (i, lc) =>
      '(err, lc, outs, limit_id) ← LoadControlServerAddLimitDescription lc
         (mkLimitDescription None (Some kLoadControlLimitTypeTypeSignDependentAbsValueLimit) (Some kLoadControlCategoryTypeObligation)
            (Some energy_direction) (Some 0%Z) (Some kUnitOfMeasurementTypeW) (Some kScopeTypeTypeActivePowerLimit));
      let entity := with_feature_data i lc entity in
      if negb (is_ok err) then Some (err, entity, outs)
      else
        (* the error of the update is not looked at *)
        '(_, lc, outs') ← LoadControlServerUpdateLimitWithId lc
           (mkLimitData None (Some true) (Some false) None (Some (mkScaledNumber None None))) (default 0%Z limit_id);
        Some (kEebusErrorOk, with_feature_data i lc entity, outs ++ outs')
  end.
End use_cases.

(** ** The limits as a table *)

Section limits.
Context `{malloc : Allocator} (Hmalloc : malloc_zero = true) {E : SpineEnv}.

Abbreviation item := load_control_limit_data_element_data_cfg.
Abbreviation limits_t := kFunctionTypeLoadControlLimitListData.
Abbreviation descriptions_t := kFunctionTypeLoadControlLimitDescriptionListData.

(** Every item has an id. *)
Lemma limit_item b : typed item b = true → identified item b = true →
  ∃ k ds, b = Struct (num_data k :: ds) ∧ identity item b = [num_data k].
Proof.
  unfold identified. destruct b as [| | |l| |]; try done. destruct l as [|i ds]; [done|]. cbn [identity item null negb andb].
  cbn [typed item forall2b load_control_limit_data_cfg]. intros [Hi _]%andb_true_iff.
  destruct i as [|[z| | | | | |]| | | |]; try done. intros _. exists z, ds. split; [done|].
  destruct ds as [|? [|? [|? [|? ds]]]]; done.
Qed.

Lemma num_data_inj a b : [num_data a] = [num_data b] ↔ a = b.
Proof. unfold num_data. split; congruence. Qed.

Lemma limit_selected id b : typed item b = true → identified item b = true →
  selectors_match item b (Sequence "loadControlLimitListDataSelectors" 0 load_control_limit_list_data_selectors_cfg) (Struct [num_data id])
  = Some (bool_decide (identity item b = [num_data id])).
Proof.
  intros Ht Hi. destruct (limit_item b Ht Hi) as (k & ds & -> & ->). cbn. rewrite (bool_decide_true ("limitId" = "limitId")%string) by done.
  cbn. rewrite (bool_decide_ext ([num_data k] = [num_data id]) (BInt k = BInt id)) by (unfold num_data; split; congruence).
  by destruct (bool_decide (BInt k = BInt id)).
Qed.

Lemma limit_matched id b : typed item b = true → identified item b = true →
  item_matches item (limit_data (limit_with_id (Some id))) b = Some (bool_decide (identity item b = [num_data id])).
Proof.
  intros Ht Hi. destruct (limit_item b Ht Hi) as (k & ds & -> & ->). unfold item_matches. cbn.
  rewrite (bool_decide_true ("limitId" = "limitId")%string) by done. cbn.
  rewrite (bool_decide_ext ([num_data k] = [num_data id]) (BInt k = BInt id)) by (unfold num_data; split; congruence).
  by destruct (bool_decide (BInt k = BInt id)).
Qed.

(** The unique match of a list, when one item at most matches. *)
Lemma unique_match t cname lname c cs m sel l o : ModelGetDataCfg t = Some (Container KContainer cname (List_ lname c :: cs)) →
  Forall (λ b, item_matches c m b = Some (sel b)) l → filter (λ b, sel b = true) l = option_list o →
  HelperGetListUniqueMatch t (Struct [Array l]) m = Some o.
Proof.
  intros Hcfg Hsel Hf. unfold HelperGetListUniqueMatch, HelperListMatchFirst. rewrite Hcfg. cbn [mbind option_bind].
  cbn [EebusDataListMatchIteratorConstruct list_items mbind option_bind]. destruct (Nat.eqb_spec (length l) 0) as [El|_].
  { apply nil_length_inv in El as ->. by destruct o. }
  cbn [EebusDataListDataFindMatching mbind option_bind]. rewrite drop_0.
  destruct (find_from_spec c m sel 0 l Hsel) as [[-> Ef]|(pre & b & post & -> & -> & Ef)]; rewrite Ef in Hf.
  { by destruct o. }
  destruct o as [b'|]; [|done]. injection Hf as <- Hpost. cbn [mbind option_bind Nat.add].
  unfold EebusDataListMatchIteratorIsDone, EebusDataListMatchIteratorGet, EebusDataListMatchIteratorNext.
  cbn [current EebusDataList.ar ar_element_cfg data_to_match mbind option_bind EebusDataListDataFindMatching].
  rewrite list_lookup_middle by done. cbn [mbind option_bind].
  assert (drop (S (length pre)) (pre ++ b :: post) = post) as ->.
  { rewrite cons_middle, (assoc_L (++)). replace (S (length pre)) with (length (pre ++ [b])) by (rewrite length_app; simpl; lia).
    by rewrite drop_app_length. }
  apply Forall_app in Hsel as [_ [_ Hsel]%Forall_cons].
  destruct (find_from_spec c m sel (S (length pre)) post Hsel) as [[-> _]|(? & ? & ? & _ & _ & Ef')]; [done|congruence].
Qed.

(** The limit with an id. *)
Lemma limit_found l id : is_table item l →
  HelperGetListUniqueMatch limits_t (Struct [Array l]) (limit_data (limit_with_id (Some id))) =
  Some (find_by (identity item) l [num_data id]).
Proof.
  intros [Ht Hi Hu]. eapply (unique_match _ _ _ _ _ _ (λ b, bool_decide (identity item b = [num_data id]))); [reflexivity| |].
  - rewrite Forall_forall in *. rewrite forallb_forall in Ht. intros b Hb. apply limit_matched; [by apply Ht, list_elem_of_In|by apply Hi].
  - rewrite <- filter_key by done. apply list_filter_iff'. rewrite Forall_forall. intros b _. by rewrite bool_decide_eq_true.
Qed.

Definition new_limit (id : Z) (v : ScaledValue) (is_active is_changeable : bool) : Data :=
  limit_data (mkLimitData (Some id) (Some is_changeable) (Some is_active) None (Some (mkScaledNumber (Some (value v)) (Some (scale v))))).

Definition is_id (id : Z) : Prop := (0 <= id < 2 ^ 32)%Z.

Lemma new_limit_item id v act ch : is_id id → typed item (new_limit id v act ch) = true ∧ identified item (new_limit id v act ch) = true ∧
  identity item (new_limit id v act ch) = [num_data id] ∧ fits (new_limit id v act ch) = true.
Proof.
  intros [H0 H1]. split_and!; try done. unfold new_limit. cbn. rewrite (proj2 (Z.leb_le 0 id)), (proj2 (Z.ltb_lt id _)) by done.
  pose proof (Z.mod_pos_bound (value v) (2 ^ 64) eq_refl). pose proof (Z.mod_pos_bound (scale v) (2 ^ 8) eq_refl).
  rewrite !(proj2 (Z.leb_le 0 (_ `mod` _)%Z)), !(proj2 (Z.ltb_lt (_ `mod` _)%Z _)) by lia. by destruct act, ch.
Qed.

(** *** Writing the limit *)

(** The function of the limits holds the items of a table with room for one more. *)
Record holds_limits (self : FeatureData) (j : nat) (f : Function) (list : Data) : Prop := {
  limits_function : FeatureGetFunction self limits_t = Some (j, f);
  limits_data : data f = Struct [list];
  limits_list : list = Null ∨ list = Array (items list);
  limits_table : is_table item (items list);
  limits_room : (Z.of_nat (length (items list)) < kMaxElementsNum)%Z;
}.

Lemma keys_bound (l : list Data) (ks : list (list Data)) : NoDup (identity item <$> l) →
  (∀ k, is_Some (find_by (identity item) l k) → k ∈ ks) → length l <= length ks.
Proof.
  intros Hnd Hks. rewrite <- (length_fmap (identity item)). apply submseteq_length, NoDup_submseteq; [done|].
  intros k Hk. apply Hks. destruct (find_by (identity item) l k) eqn:Hf; [by eexists|]. by apply find_by_None in Hf.
Qed.

Lemma limit_deleted list id : list = Null ∨ list = Array (items list) → is_table item (items list) →
  (Z.of_nat (length (items list)) < kMaxElementsNum)%Z →
  ∃ list', delete_partial loadControlLimitListData (Struct [list]) loadControlLimitListDataSelectors (Struct [num_data id])
             loadControlLimitDataElements Null = Some (Struct [list']) ∧
    (list' = Null ∨ list' = Array (items list')) ∧ is_table item (items list') ∧
    length (items list') <= length (items list) ∧
    ∀ k, find_by (identity item) (items list') k =
         if bool_decide (k = [num_data id]) then None else find_by (identity item) (items list) k.
Proof.
  intros [-> |Hlist] Hl Hlen.
  { exists Null. split_and!; [by vm_compute|by left|done|done|]. intros k. by case_bool_decide. }
  destruct (selected_items_deleted item "loadControlLimitListData" "loadControlLimitData" [] (items list) []
              loadControlLimitListDataSelectors (Struct [num_data id]) loadControlLimitDataElements Null
              (λ b, bool_decide (identity item b = [num_data id]))) as (l & Hdel & Htab & Hfind); try done; [lia| |by left|].
  { destruct Hl as [Ht Hi _]. rewrite Forall_forall in *. rewrite forallb_forall in Ht. intros b Hb.
    apply limit_selected; [by apply Ht, list_elem_of_In|by apply Hi]. }
  assert (∀ k, find_by (identity item) l k = if bool_decide (k = [num_data id]) then None else find_by (identity item) (items list) k) as Hkeys.
  { intros k. rewrite Hfind. destruct (find_by (identity item) (items list) k) as [b|] eqn:Hb; [|by case_bool_decide].
    apply find_by_key in Hb as [<- _]. simpl. by case_bool_decide. }
  exists (Array l). rewrite Hlist at 1. split_and!; [done|by right|done| |done].
  rewrite <- (length_fmap (identity item) (items list)). apply keys_bound; [apply Htab|]. intros k. simpl. rewrite Hkeys.
  case_bool_decide; intros [b Hb]; [done|]. apply find_by_key in Hb as [<- Hin]. by apply list_elem_of_fmap_2.
Qed.

(** Deleting the limit [id], and writing it: the others keep what they have. *)
Lemma limits_updated list id v act ch : is_id id →
  list = Null ∨ list = Array (items list) → is_table item (items list) → (Z.of_nat (length (items list)) < kMaxElementsNum)%Z →
  ∃ l, updated_data limits_t (Struct [list]) (list_data [new_limit id v act ch]) (Some (partial_of limits_t))
         (Some (delete_of limits_t (Struct [num_data id]) Null)) true = Some (kEebusErrorOk, Struct [Array l]) ∧
    is_table item l ∧
    ∀ k, find_by (identity item) l k = if bool_decide (k = [num_data id]) then Some (new_limit id v act ch)
                                       else find_by (identity item) (items list) k.
Proof.
  intros Hid Hlist Hl Hlen. destruct (new_limit_item id v act ch Hid) as (Hnt & Hni & Hnk & Hnf).
  destruct (limit_deleted list id Hlist Hl Hlen) as (list' & Hdel & Hlist' & Hl' & Hlen' & Hfind').
  assert (is_table item [new_limit id v act ch]) as Hnew.
  { constructor; [cbn [forallb]; by rewrite Hnt|by apply Forall_singleton|apply NoDup_singleton]. }
  assert (forallb fits [new_limit id v act ch] = true) as Hfits by (cbn [forallb]; by rewrite Hnf).
  exists (merged item (items list') [new_limit id v act ch]).
  destruct (merged_table item eq_refl eq_refl (items list') [new_limit id v act ch] Hl' Hnew Hfits) as [Htab Hentry]. split_and!; [|done|].
  - unfold updated_data. change (ModelGetDataCfg limits_t) with (Some loadControlLimitListData).
    change (ModelGetDataSelectorsCfg limits_t) with (Some loadControlLimitListDataSelectors).
    change (ModelGetDataElementsCfg limits_t) with (Some loadControlLimitDataElements). cbn [mbind option_bind].
    cbn [data_selectors_choice data_elements_choice delete_of]. rewrite Hdel. cbn [mbind option_bind].
    apply (list_update_merges item eq_refl eq_refl "loadControlLimitListData" "loadControlLimitData" [] list' []
             [new_limit id v act ch] []); (done || (simpl; lia)).
  - intros k. rewrite Hentry, Hfind'. cbn [find_by]. rewrite Hnk. case_bool_decide as E1; case_bool_decide; subst; try done.
    by destruct (find_by _ _ _).
Qed.

Lemma update_of_limits id v act ch : is_id id → data_of SpineFunction.data_choice_data_cfg limits_t (list_data [new_limit id v act ch]).
Proof.
  intros Hid. destruct (new_limit_item id v act ch Hid) as (Hnt & _ & _ & Hnf). eexists. split; [reflexivity|].
  cbn [typed list_data load_control_limit_list_data_cfg forall2b EEBUS_DATA_LIST forallb fits length]. rewrite Hnt, Hnf.
  unfold CreateListBuffer. rewrite Hmalloc. done.
Qed.
Lemma filters_of_limits id : is_id id →
  filter_of limits_t (partial_of limits_t) ∧ filter_of limits_t (delete_of limits_t (Struct [num_data id]) Null).
Proof.
  intros [H0 H1]. split; constructor; try done; (eexists; split; [reflexivity|split; [|done]]); try done.
  cbn. by rewrite (proj2 (Z.leb_le 0 id)), (proj2 (Z.ltb_lt id _)).
Qed.

Lemma UpdateLimitData_exact self j f list id v act ch : is_id id → holds_limits self j f list →
  ∃ l outs, UpdateLimitData self [mkLimitData (Some id) (Some ch) (Some act) None (Some (mkScaledNumber (Some (value v)) (Some (scale v))))]
              (Struct [num_data id]) Null =
            Some (kEebusErrorOk, set_function j (set_function_data (Struct [Array l]) f) self, outs) ∧
    is_table item l ∧
    ∀ k, find_by (identity item) l k = if bool_decide (k = [num_data id]) then Some (new_limit id v act ch)
                                       else find_by (identity item) (items list) k.
Proof.
  intros Hid [Hf Hd Hlist Htab Hlen]. destruct (limits_updated list id v act ch Hid Hlist Htab Hlen) as (l & Hup & Hl & Hkeys).
  destruct (filters_of_limits id Hid) as [Hp Hdel]. pose proof (FeatureGetFunction_Some _ _ _ _ Hf) as (_ & Ht & _).
  unfold UpdateLimitData, FeatureLocalUpdateData. rewrite Hf. cbn [null andb fmap list_fmap]. rewrite UpdateData_data, Ht, Hd.
  change (limit_data _) with (new_limit id v act ch). rewrite Hup. cbn [mbind option_bind].
  change (is_ok kEebusErrorOk) with true. cbn [negb]. unfold FunctionUpdateNotifySubscribers, CreateNotifyCmd.
  rewrite (CreateWriteCmd_exact _ _ _ _ spine_model_ok) by (cbn [type set_function_data]; rewrite Ht; first [by apply update_of_limits|done]).
  cbn [mbind option_bind]. by eexists l, _.
Qed.

(** *** Reading it *)

Lemma list_find_insert_other {A} (P : A → Prop) `{∀ a, Decision (P a)} (l : list A) j x y : l !! j = Some x → ¬ P x → ¬ P y →
  list_find P (<[j := y]> l) = list_find P l.
Proof.
  revert j. induction l as [|a l IH]; intros [|j]; simpl; try done.
  - intros [= ->] Hx Hy. by rewrite (decide_False (P := P x)), (decide_False (P := P y)).
  - intros Hj Hx Hy. by rewrite IH.
Qed.

Lemma FeatureGetData_other self t t' j f f' : FeatureGetFunction self t = Some (j, f) → type f' = t → t' ≠ t →
  FeatureGetData (set_function j f' self) t' = FeatureGetData self t'.
Proof.
  intros (Hf & Ht & _)%FeatureGetFunction_Some Ht' Hne. unfold FeatureGetData, FeatureGetFunction, set_function, with_functions.
  cbn [functions]. by rewrite (list_find_insert_other _ _ _ f) by congruence.
Qed.

(** A new feature's data in its entity is found there. *)
Lemma server_changed e i fn fd : EntityLocalGetFeatureWithTypeAndRole e kFeatureTypeTypeLoadControl kRoleTypeServer = Some (i, fn) →
  fd_type fd = fd_type (fn_data fn) → fd_role fd = fd_role (fn_data fn) →
  LoadControlServerConstruct (with_feature_data i fd e) = Some (i, fd).
Proof.
  unfold LoadControlServerConstruct, FeatureInfoServerConstruct, EntityLocalGetFeatureWithTypeAndRole, with_feature_data.
  intros (Hi & [Ht Hr] & Hmin)%list_find_Some Hty Hro. rewrite Hi. cbn [with_features en_features].
  assert (list_find (λ f, kFeatureTypeTypeLoadControl = fd_type (fn_data f) ∧ kRoleTypeServer = fd_role (fn_data f))
            (<[i := set_data fd fn]> (en_features e)) = Some (i, set_data fd fn)) as ->; [|done].
  apply list_find_Some. split_and!; [|cbn; congruence|cbn; congruence|].
  - apply list_lookup_insert_eq. by eapply lookup_lt_Some.
  - intros k y Hk Hlt. rewrite list_lookup_insert_ne in Hk by lia. by apply (Hmin k).
Qed.
Lemma signed_bits bits z : (0 < bits)%Z → (- 2 ^ (bits - 1) <= z < 2 ^ (bits - 1))%Z → number_value true bits (z `mod` 2 ^ bits) = z.
Proof.
  intros Hb Hz. unfold number_value. cbn [andb].
  assert (2 ^ bits = 2 * 2 ^ (bits - 1))%Z as E' by (rewrite <- Z.pow_succ_r by lia; f_equal; lia).
  pose proof (Z.pow_pos_nonneg 2 (bits - 1)). destruct (Z.lt_ge_cases z 0).
  - rewrite <- (Z_mod_plus_full z 1), Z.mod_small by lia. destruct (Z.leb_spec (2 ^ (bits - 1)) (z + 1 * 2 ^ bits)); lia.
  - rewrite Z.mod_small by lia. destruct (Z.leb_spec (2 ^ (bits - 1)) z); lia.
Qed.

Lemma read_signed bits z : (0 < bits)%Z → (- 2 ^ (bits - 1) <= z < 2 ^ (bits - 1))%Z →
  read_opt (data_signed bits) (signed_data bits z) = Some (Some z).
Proof. intros. unfold read_opt, signed_data, num_data, data_signed. cbn [data_num fmap option_fmap option_map]. by rewrite signed_bits. Qed.

Lemma data_new_limit id v act ch : scaled_ok v → data_limit (new_limit id v act ch) =
  Some (mkLimitData (Some id) (Some ch) (Some act) None (Some (mkScaledNumber (Some (value v)) (Some (scale v))))).
Proof.
  intros [[Hv1 Hv2] Hs]. unfold LONG_MIN, LONG_MAX in *. unfold new_limit, limit_data, data_limit.
  cbn [limit_id is_limit_changeable is_limit_active time_period limit_value opt from_option].
  cbn [read_opt num_data flag_data data_num data_flag fmap option_fmap option_map mbind option_bind].
  unfold scaled_number_data. cbn [sn_number sn_scale opt from_option]. cbn [data_scaled_number read_opt].
  rewrite !read_signed by lia. by destruct act, ch.
Qed.

End limits.

(** ** Witnesses: consumption and production on one entity *)

Section demo.
#[local] Instance malloc_zero_is_not_null : Allocator := true.
#[local] Instance all_is_sent : SpineEnv := { sent := λ _, (kEebusErrorOk, 1%Z); has_sender := true }.

Definition bare_entity : EntityNode := mkEntityNode (EntityAddressCreate (Some "pump"%string) [1%Z]) 15 None 1 [].
Definition added (r : option (EebusError * EntityNode * list FeatureOut)) : EntityNode :=
  match r with Some (_, e, _) => e | None => bare_entity end.
Definition consumer : EntityNode := added (AddLoadControlFeature kEnergyDirectionTypeConsume bare_entity).
Definition prosumer : EntityNode := added (AddLoadControlFeature kEnergyDirectionTypeProduce consumer).
Definition no_feature : FeatureNode := mkFeatureNode (mkFeatureAddress None None None) None (mkFeatureData 0 kRoleTypeServer [] 0) 0 None 0.
Definition limits_feature : FeatureNode :=
  default no_feature (snd <$> EntityLocalGetFeatureWithTypeAndRole prosumer kFeatureTypeTypeLoadControl kRoleTypeServer).
Definition limits_held : Function :=
  default (mkFunction 0 Null None) (snd <$> FeatureGetFunction (fn_data limits_feature) kFunctionTypeLoadControlLimitListData).
Definition no_limit : LoadLimit := mkLoadLimit (mkScaledValue 0 0) zero_duration false false false.

(** Each use case finds its own limit; none has a value yet. *)
Example two_limits_made :
  CsLpGetLimitId kEnergyDirectionTypeConsume (fn_data limits_feature) = Some (kEebusErrorOk, Some 0%Z) ∧
  CsLpGetLimitId kEnergyDirectionTypeProduce (fn_data limits_feature) = Some (kEebusErrorOk, Some 1%Z) ∧
  CsLpGetActivePowerLimitInternal kEnergyDirectionTypeProduce prosumer no_limit = Some (kEebusErrorOther, no_limit).
Proof. by vm_compute. Qed.

Definition held_list : Data := match data limits_held with Struct [l] => l | _ => Null end.

Lemma limits_are_held : holds_limits (fn_data limits_feature) 3 limits_held held_list.
Proof.
  constructor; [by vm_compute|by vm_compute|right; by vm_compute| |by vm_compute].
  constructor; [by vm_compute|repeat constructor; by vm_compute|by apply (bool_decide_unpack _); vm_compute].
Qed.

End demo.

(** ** Where an old duration stays

    Where [malloc(0)] gives NULL, the only limit of a list cannot be deleted, and the new one is laid over it. *)

Section stale.
#[local] Instance malloc_zero_is_null : Allocator := false.
#[local] Instance all_sent : SpineEnv := { sent := λ _, (kEebusErrorOk, 1%Z); has_sender := true }.

Definition two_hours : EebusDuration := mkDuration 0 0 0 2 0 0 0.
Definition timed_limit : LoadControlLimitDataType :=
  mkLimitData (Some 0%Z) None (Some true) (Some (mkTimePeriod None (Some (kAbsoluteOrRelativeTimeTypeDuration two_hours))))
    (Some (mkScaledNumber (Some 1000%Z) None)).

(** A limit for two hours; one is set without a duration; it is read with the two hours. *)
Lemma old_duration_stays : ∃ e i fd e' outs,
  AddLoadControlFeature kEnergyDirectionTypeConsume bare_entity = Some (kEebusErrorOk, e, outs) ∧
  LoadControlServerConstruct e = Some (i, fd) ∧
  (∃ fd' outs', UpdateLimitData fd [timed_limit] Null Null = Some (kEebusErrorOk, fd', outs') ∧
    ∃ outs'', CsLpSetActivePowerLimitInternal kEnergyDirectionTypeConsume (with_feature_data i fd' e) (mkScaledValue 500 0) true true
                = Some (kEebusErrorOk, e', outs'')) ∧
  CsLpGetActivePowerLimitInternal kEnergyDirectionTypeConsume e' no_limit
    = Some (kEebusErrorOk, mkLoadLimit (mkScaledValue 500 0) two_hours true true false).
Proof.
  do 5 eexists. split; [vm_compute; reflexivity|]. split; [vm_compute; reflexivity|].
  split; [|]. 
  - do 2 eexists. split; [vm_compute; reflexivity|]. eexists. vm_compute; reflexivity.
  - vm_compute. reflexivity.
Qed.
End stale.
