(* ===== verification/DeviceConfiguration.v ===== *)
(** * Failsafe values in the device configuration ([src/use_case/specialization/device_configuration/],
      [spine/model/device_configuration_types.c])

    How a use case finds, reads and writes the key values that a local server feature of device
    configuration holds, and what a controllable system does with those for the failsafe state
    ([use_case/actor/cs/cs_lp.c], [cs_lp_public.c]).  Conventions as in [LoadControl]. *)

From S2P Require Import Prelude FeatureFunctions Duration DateTime EebusData EebusDataWrite EebusDataFacts EebusDataMerge EebusDataList EebusDataJson Timer Vector Pool Spine Sender SpineFunction SpineReplica Datagram FeatureData Discovery DeviceBuild SpineTablesFacts ScaledValue LoadControl.

Local Open Scope list_scope.

(** ** Data

    Of a value the fields for a duration and a scaled number; the others are NULL wherever the code makes
    one, and not read. *)

Record DeviceConfigurationKeyValueValueType := mkKeyValueValue {
  kv_duration : option EebusDuration;
  kv_scaled_number : option ScaledNumberType;
}.

Record DeviceConfigurationKeyValueDataType := mkKeyValue {
  key_id : option Z;
  key_value : option DeviceConfigurationKeyValueValueType;
  is_value_changeable : option bool;
}.

Record DeviceConfigurationKeyValueDescriptionDataType := mkKeyDescription {
  kd_key_id : option Z;
  key_name : option Z;
  value_type : option Z;
  kd_unit : option Z;
}.

Definition key_value_value_data (v : DeviceConfigurationKeyValueValueType) : Data :=
  Struct [Null; Null; Null; opt duration_data (kv_duration v); Null; Null; opt scaled_number_data (kv_scaled_number v); Null].
Definition data_key_value_value (d : Data) : option DeviceConfigurationKeyValueValueType :=
  match d with
  | Struct [_; _; _; t; _; _; n; _] =>
      t ← read_opt data_duration t; n ← read_opt data_scaled_number n; Some (mkKeyValueValue t n)
  | _ => None
  end.

Definition key_value_data (k : DeviceConfigurationKeyValueDataType) : Data :=
  Struct [opt num_data (key_id k); opt key_value_value_data (key_value k); opt flag_data (is_value_changeable k)].
Definition data_key_value (d : Data) : option DeviceConfigurationKeyValueDataType :=
  match d with
  | Struct [i; v; c] =>
      i ← read_opt data_num i; v ← read_opt data_key_value_value v; c ← read_opt data_flag c; Some (mkKeyValue i v c)
  | _ => None
  end.

Definition key_description_data (k : DeviceConfigurationKeyValueDescriptionDataType) : Data :=
  Struct [ opt num_data (kd_key_id k); opt num_data (key_name k); opt num_data (value_type k); opt num_data (kd_unit k); Null; Null ].
Definition data_key_description (d : Data) : option DeviceConfigurationKeyValueDescriptionDataType :=
  match d with
  | Struct [i; n; t; u; _; _] =>
      i ← read_opt data_num i; n ← read_opt data_num n; t ← read_opt data_num t; u ← read_opt data_num u;
      Some (mkKeyDescription i n t u)
  | _ => None
  end.

Definition kDeviceConfigurationKeyNameTypeFailsafeConsumptionActivePowerLimit : Z := 14.
Definition kDeviceConfigurationKeyNameTypeFailsafeProductionActivePowerLimit : Z := 15.
Definition kDeviceConfigurationKeyNameTypeFailsafeDurationMinimum : Z := 31.
Definition kDeviceConfigurationKeyValueTypeTypeDuration : Z := 3.
Definition kDeviceConfigurationKeyValueTypeTypeScaledNumber : Z := 6.

(** ** [device_configuration_types.c] *)

Definition DeviceConfigurationKeyValueIsValid (kv : option DeviceConfigurationKeyValueDataType) : bool :=
  match kv with Some k => bool_decide (is_Some (key_id k)) && bool_decide (is_Some (key_value k)) | None => false end.
Definition DeviceConfigurationKeyValueGetDuration (kv : option DeviceConfigurationKeyValueDataType) (duration : option EebusDuration) :
    EebusError * option EebusDuration :=
  match kv, duration with
  | Some k, Some _ =>
      match key_value k ≫= kv_duration with Some d => (kEebusErrorOk, Some d) | None => (kEebusErrorNoChange, duration) end
  | _, _ => (kEebusErrorInputArgumentNull, duration)
  end.
Definition DeviceConfigurationKeyValueGetScaledNumber (kv : option DeviceConfigurationKeyValueDataType) : option ScaledNumberType :=
  (kv ≫= key_value) ≫= kv_scaled_number.
Definition DeviceConfigurationKeyValueIsChangeable (kv : option DeviceConfigurationKeyValueDataType) : bool :=
  default false (kv ≫= is_value_changeable).

Section use_cases.
Context `{malloc : Allocator} {M : SpineModel} {E : SpineEnv}.

Abbreviation Outs := (list FeatureOut).
Abbreviation values_t := kFunctionTypeDeviceConfigurationKeyValueListData.
Abbreviation keys_t := kFunctionTypeDeviceConfigurationKeyValueDescriptionListData.

(** ** [device_configuration_common.c], over the data of a feature *)

Definition DeviceConfigurationCommonKeyValueDescriptionMatchFirst (self : FeatureData)
    (filter : DeviceConfigurationKeyValueDescriptionDataType) : option EebusDataListMatchIterator :=
  HelperListMatchFirst keys_t (FeatureGetData self keys_t) (key_description_data filter).

Definition DeviceConfigurationCommonGetKeyValueDescriptionWithFilter (self : FeatureData)
    (filter : DeviceConfigurationKeyValueDescriptionDataType) : option (option DeviceConfigurationKeyValueDescriptionDataType) :=
  d ← HelperGetListUniqueMatch keys_t (FeatureGetData self keys_t) (key_description_data filter);
  match d with None => Some None | Some d => Some <$> data_key_description d end.

Definition key_with_id (id : Z) : DeviceConfigurationKeyValueDescriptionDataType := mkKeyDescription (Some id) None None None.
Definition key_with_name (name : Z) : DeviceConfigurationKeyValueDescriptionDataType := mkKeyDescription None (Some name) None None.

Definition DeviceConfigurationCommonGetKeyValueDescriptionWithKeyId (self : FeatureData) (key_id : Z) :=
  DeviceConfigurationCommonGetKeyValueDescriptionWithFilter self (key_with_id key_id).

(** The first key value with the id of the first description; an id the description lacks is followed. *)
Fixpoint find_key_value (l : list Data) (description : DeviceConfigurationKeyValueDescriptionDataType) :
    option (option DeviceConfigurationKeyValueDataType) :=
  match l with
  | [] => Some None
  | d :: l =>
      kv ← data_key_value d;
      match key_id kv with
      | None => find_key_value l description
      | Some id => id' ← kd_key_id description; if (id =? id')%Z then Some (Some kv) else find_key_value l description
      end
  end.

Definition DeviceConfigurationCommonGetKeyValueWithFilter (self : FeatureData) (filter : DeviceConfigurationKeyValueDescriptionDataType) :
    option (option DeviceConfigurationKeyValueDataType) :=
  l ← data_list (FeatureGetData self values_t);
  match l with
  | [] => Some None
  | _ =>
      it ← DeviceConfigurationCommonKeyValueDescriptionMatchFirst self filter;
      if EebusDataListMatchIteratorIsDone it then Some None
      else description ← EebusDataListMatchIteratorGet it ≫= data_key_description; find_key_value l description
  end.

Definition DeviceConfigurationCommonGetKeyValueWithKeyId (self : FeatureData) (key_id : Z) :=
  DeviceConfigurationCommonGetKeyValueWithFilter self (key_with_id key_id).

(** Whether [data] gives a value to a key of the filter; the rounds of the loop. *)
Fixpoint check_keys (fuel : nat) (it : EebusDataListMatchIterator) (data : list DeviceConfigurationKeyValueDataType) : option bool :=
  match fuel with
  | O => None
  | S fuel =>
      if EebusDataListMatchIteratorIsDone it then Some false
      else
        description ← EebusDataListMatchIteratorGet it ≫= data_key_description;
        if existsb (λ kv, LimitIdMatch (key_id kv) (kd_key_id description) && bool_decide (is_Some (key_value kv))) data
        then Some true
        else it ← EebusDataListMatchIteratorNext it; check_keys fuel it data
  end.

Definition DeviceConfigurationCommonCheckKeyValueWithFilter (self : FeatureData) (data : Data)
    (description : DeviceConfigurationKeyValueDescriptionDataType) : option bool :=
  match data with
  | Null => Some false
  | _ =>
      it ← DeviceConfigurationCommonKeyValueDescriptionMatchFirst self description;
      n ← length <$> data_list (FeatureGetData self keys_t);
      l ← data_list data ≫= mapM data_key_value;
      check_keys (S n) it l
  end.

(** ** [device_configuration_server.c] *)

Definition DeviceConfigurationServerConstruct (local_entity : EntityNode) : option (nat * FeatureData) :=
  FeatureInfoServerConstruct kFeatureTypeTypeDeviceConfiguration local_entity.

Fixpoint next_key_id (l : list DeviceConfigurationKeyValueDescriptionDataType) (next_id : Z) : Z :=
  match l with
  | [] => next_id
  | d :: l =>
      next_key_id l (match kd_key_id d with Some id => if (next_id <=? id)%Z then u32 (id + 1) else next_id | None => next_id end)
  end.
Definition GetNextDeviceConfigurationKeyId (self : FeatureData) : option Z :=
  l ← data_list (FeatureGetData self keys_t) ≫= mapM data_key_description; Some (next_key_id l 0).

Definition DeviceConfigurationServerAddKeyValueDescription (self : FeatureData)
    (description : DeviceConfigurationKeyValueDescriptionDataType) : option (EebusError * FeatureData * Outs) :=
  id ← GetNextDeviceConfigurationKeyId self;
  let d := mkKeyDescription (Some id) (key_name description) (value_type description) (kd_unit description) in
  FeatureLocalUpdateData self keys_t (list_data [key_description_data d]) (Some (partial_of keys_t)) None.

Definition GetKeyIdWithDescription (self : FeatureData) (description : DeviceConfigurationKeyValueDescriptionDataType) :
    option (EebusError * option Z) :=
  d ← DeviceConfigurationCommonGetKeyValueDescriptionWithFilter self description;
  Some (match d with
        | None => (kEebusErrorOther, None)
        | Some d => match kd_key_id d with None => (kEebusErrorNoChange, None) | Some id => (kEebusErrorOk, Some id) end
        end).

Definition DeviceConfigurationServerUpdateKeyValueWithFilter (self : FeatureData) (kv : DeviceConfigurationKeyValueDataType)
    (delete_elements : Data) (filter : DeviceConfigurationKeyValueDescriptionDataType) :
    option (EebusError * FeatureData * Outs) :=
  '(err, id) ← GetKeyIdWithDescription self filter;
  match id with
  | None => Some (err, self, [])
  | Some id =>
      FeatureLocalUpdateData self values_t
        (list_data [key_value_data (mkKeyValue (Some id) (key_value kv) (is_value_changeable kv))]) (Some (partial_of values_t))
        (if null delete_elements then None else Some (delete_of values_t (Struct [num_data id]) delete_elements))
  end.

Definition DeviceConfigurationServerUpdateKeyValueWithKeyId (self : FeatureData) (kv : DeviceConfigurationKeyValueDataType)
    (delete_elements : Data) (key_id : Z) :=
  DeviceConfigurationServerUpdateKeyValueWithFilter self kv delete_elements (key_with_id key_id).

(** ** The failsafe values of a controllable system *)

Definition failsafe_power_limit_key (energy_direction : Z) : Z :=
  if (energy_direction =? kEnergyDirectionTypeConsume)%Z then kDeviceConfigurationKeyNameTypeFailsafeConsumptionActivePowerLimit
  else kDeviceConfigurationKeyNameTypeFailsafeProductionActivePowerLimit.

Definition CsLpGetFailsafeActivePowerLimitInternal (energy_direction : Z) (local_entity : EntityNode)
    (power_limit : ScaledValue) (is_changeable : bool) : option (EebusError * ScaledValue * bool) :=
  match DeviceConfigurationServerConstruct local_entity with
  | None => Some (kEebusErrorInputArgumentNull, power_limit, is_changeable)
  | Some (_, dc) =>
      kv ← DeviceConfigurationCommonGetKeyValueWithFilter dc (key_with_name (failsafe_power_limit_key energy_direction));
      Some (
        if negb (DeviceConfigurationKeyValueIsValid kv) then (kEebusErrorOther, power_limit, is_changeable)
        else
          match ScaledValueInitWithScaledNumber (Some power_limit) (DeviceConfigurationKeyValueGetScaledNumber kv) with
          | (kEebusErrorOk, Some v) => (kEebusErrorOk, v, DeviceConfigurationKeyValueIsChangeable kv)
          | (err, _) => (err, power_limit, is_changeable)
          end)
  end.

(** The server feature of an entity, updated. *)
Definition update_server (local_entity : EntityNode) (update : FeatureData → option (EebusError * FeatureData * Outs)) :
    option (EebusError * EntityNode * Outs) :=
  match DeviceConfigurationServerConstruct local_entity with
  | None => Some (kEebusErrorInputArgumentNull, local_entity, [])
  | Some (i, dc) => '(err, dc, outs) ← update dc; Some (err, with_feature_data i dc local_entity, outs)
  end.

Definition CsLpSetFailsafeActivePowerLimitInternal (energy_direction : Z) (local_entity : EntityNode) (power_limit : ScaledValue)
    (is_changeable : bool) : option (EebusError * EntityNode * Outs) :=
  update_server local_entity (λ dc, DeviceConfigurationServerUpdateKeyValueWithFilter dc
    (mkKeyValue None (Some (mkKeyValueValue None (Some (mkScaledNumber (Some (value power_limit)) (Some (scale power_limit))))))
       (Some is_changeable)) Null (key_with_name (failsafe_power_limit_key energy_direction))).

Definition CsLpGetFailsafeDurationMinimumInternal (local_entity : EntityNode) (duration : EebusDuration) (is_changeable : bool) :
    option (EebusError * EebusDuration * bool) :=
  match DeviceConfigurationServerConstruct local_entity with
  | None => Some (kEebusErrorInputArgumentNull, duration, is_changeable)
  | Some (_, dc) =>
      kv ← DeviceConfigurationCommonGetKeyValueWithFilter dc (key_with_name kDeviceConfigurationKeyNameTypeFailsafeDurationMinimum);
      Some (
        if negb (DeviceConfigurationKeyValueIsValid kv) || bool_decide ((kv ≫= key_value) ≫= kv_duration = None)
        then (kEebusErrorOther, duration, is_changeable)
        else
          match DeviceConfigurationKeyValueGetDuration kv (Some duration) with
          | (kEebusErrorOk, Some d) => (kEebusErrorOk, d, DeviceConfigurationKeyValueIsChangeable kv)
          | _ => (kEebusErrorOther, duration, is_changeable)
          end)
  end.

(** The range of the duration is not checked. *)
Definition CsLpSetFailsafeDurationMinimumInternal (local_entity : EntityNode) (duration : option EebusDuration) (is_changeable : bool) :
    option (EebusError * EntityNode * Outs) :=
  match duration with
  | None => Some (kEebusErrorInputArgumentNull, local_entity, [])
  | Some d =>
      update_server local_entity (λ dc, DeviceConfigurationServerUpdateKeyValueWithFilter dc
        (mkKeyValue None (Some (mkKeyValueValue (Some d) None)) (Some is_changeable)) Null
        (key_with_name kDeviceConfigurationKeyNameTypeFailsafeDurationMinimum))
  end.

(** [AddDeviceConfigurationFeature]: the errors of all but the last update are not looked at. *)
Definition AddDeviceConfigurationFeature (energy_direction : Z) (entity : EntityNode) : option (EebusError * EntityNode * Outs) :=
  '(entity, i) ← AddFeatureWithTypeAndRole entity kFeatureTypeTypeDeviceConfiguration kRoleTypeServer;
  fl ← en_features entity !! i;
  let fd := fst (FeatureLocalSetFunctionOperations (fn_data fl) keys_t true false) in
  let fd := fst (FeatureLocalSetFunctionOperations fd values_t true true) in
  let fd := snd (FeatureLocalAddWriteApprovalCallback (snd (FeatureLocalAddWriteApprovalCallback fd))) in
  let entity := with_feature_data i fd entity in
  match DeviceConfigurationServerConstruct entity with
  | None => Some (kEebusErrorInputArgumentNull, entity, [])
  | Some (i, dcs) =>
      let power_key := failsafe_power_limit_key energy_direction in
      let duration_key := kDeviceConfigurationKeyNameTypeFailsafeDurationMinimum in
      '(_, dcs, outs1) ← DeviceConfigurationServerAddKeyValueDescription dcs
          (mkKeyDescription None (Some power_key) (Some kDeviceConfigurationKeyValueTypeTypeScaledNumber) (Some kUnitOfMeasurementTypeW));
      it ← DeviceConfigurationCommonKeyValueDescriptionMatchFirst dcs (key_with_name duration_key);
      '(dcs, outs2) ← (if EebusDataListMatchIteratorIsDone it then
                         '(_, dcs, outs) ← DeviceConfigurationServerAddKeyValueDescription dcs
                            (mkKeyDescription None (Some duration_key) (Some kDeviceConfigurationKeyValueTypeTypeDuration) None);
                         Some (dcs, outs)
                       else Some (dcs, []));
      '(_, dcs, outs3) ← DeviceConfigurationServerUpdateKeyValueWithFilter dcs
          (mkKeyValue None (Some (mkKeyValueValue None (Some (mkScaledNumber (Some 0%Z) None)))) (Some true)) Null (key_with_name power_key);
      '(err, dcs, outs4) ← DeviceConfigurationServerUpdateKeyValueWithFilter dcs
          (mkKeyValue None (Some (mkKeyValueValue (Some zero_duration) None)) (Some true)) Null (key_with_name duration_key);
      Some (err, with_feature_data i dcs entity, outs1 ++ outs2 ++ outs3 ++ outs4)
  end.

(** [CsLpFindKeyValue]: the first with an id and a value whose description has the name. *)
Fixpoint CsLpFindKeyValue (l : list Data) (dc : FeatureData) (name : Z) : option (option DeviceConfigurationKeyValueDataType) :=
  match l with
  | [] => Some None
  | Null :: l => CsLpFindKeyValue l dc name
  | d :: l =>
      kv ← data_key_value d;
      match key_id kv, key_value kv with
      | Some id, Some _ =>
          desc ← DeviceConfigurationCommonGetKeyValueDescriptionWithKeyId dc id;
          if bool_decide (desc ≫= key_name = Some name) then Some (Some kv) else CsLpFindKeyValue l dc name
      | _, _ => CsLpFindKeyValue l dc name
      end
  end.

Definition CsLpIsFailsafeDurationValid (duration : Z) : bool := (2 * 60 * 60 <=? duration)%Z && (duration <=? 24 * 60 * 60)%Z.
End use_cases.

Section demo.
#[local] Instance malloc_zero_is_not_null : Allocator := true.
#[local] Instance all_is_sent : SpineEnv := { sent := λ _, (kEebusErrorOk, 1%Z); has_sender := true }.

Definition configured (r : option (EebusError * EntityNode * list FeatureOut)) : EntityNode :=
  match r with Some (_, e, _) => e | None => bare_entity end.
Definition failsafe_entity : EntityNode := configured (AddDeviceConfigurationFeature kEnergyDirectionTypeConsume bare_entity).

(** Failsafe values as they are at first, and as they are set. *)
Example failsafe_values :
  CsLpGetFailsafeActivePowerLimitInternal kEnergyDirectionTypeConsume failsafe_entity (mkScaledValue 7 7) false
    = Some (kEebusErrorOk, mkScaledValue 0 0, true) ∧
  (let e := configured (CsLpSetFailsafeActivePowerLimitInternal kEnergyDirectionTypeConsume failsafe_entity (mkScaledValue (-15) 2) false) in
   CsLpGetFailsafeActivePowerLimitInternal kEnergyDirectionTypeConsume e (mkScaledValue 0 0) true
     = Some (kEebusErrorOk, mkScaledValue (-15) 2, false)) ∧
  (let e := configured (CsLpSetFailsafeDurationMinimumInternal failsafe_entity (Some two_hours) true) in
   CsLpGetFailsafeDurationMinimumInternal e zero_duration false = Some (kEebusErrorOk, two_hours, true)).
Proof. by vm_compute. Qed.
End demo.
