(* ===== verification/CsLp.v ===== *)
(** * Writes that a controllable system approves ([src/use_case/actor/cs/cs_lp.c], [cs_lp_public.c],
      [cs_lp_write_approval_container.c])

    A controllable system (the use cases LPC and LPP) can have an approver: writes of its power limit and
    of its failsafe values then wait until the approver approved or denied them.  The features hold
    the writes ([PendingWrite]), the use case remembers which of them its approver was asked about, in a
    container of its own, and votes for or against them at once where the approver need not be asked.

    What an operation finds around it is an [LpEnv].  The callbacks of the approver are logged
    ([LpEvent]); what it does in turn are operations of their own.  There is one
    use case on the entity, so the server of load control has one approval callback, that of
    device configuration two. *)

From stdpp Require Import gmap.
From S2P Require Import Prelude StringUtil FeatureFunctions Duration DateTime EebusData EebusDataWrite EebusDataFacts EebusDataMerge EebusDataList EebusDataJson Timer Vector Pool Spine Sender SpineFunction SpineReplica Pending LinkManager PendingWrite Datagram FeatureData Discovery DeviceBuild ScaledValue LoadControl DeviceConfiguration.

Abbreviation Message := PendingWrite.Message.

(** ** State *)

Inductive LpFeature := LoadControlFeature | DeviceConfigurationFeature.
#[export] Instance LpFeature_eq_dec : EqDecision LpFeature.
Proof. solve_decision. Defined.

Record CsLpPendingApproval := mkPendingApproval { pa_msg_cnt : Z; pa_ski : string; pa_feature : LpFeature }.

(** The calls of the approver. *)
Inductive LpEvent :=
| PowerLimitApprovalRequested (ski : string) (msg_cnt : Z) (value : ScaledValue) (duration : option EebusDuration) (is_active : bool)
| FailsafeValueApprovalRequested (ski : string) (msg_cnt : Z) (value : ScaledValue)
| FailsafeDurationApprovalRequested (ski : string) (msg_cnt : Z) (duration : EebusDuration)
| ApprovalRequestExpired (ski : string) (msg_cnt : Z).

(** The features as the writes find them, the local entity with their data, and whether there is an approver. *)
Record LpEnv := mkLpEnv {
  le_feature : LpFeature → WriteEnv;
  le_entity : EntityNode;
  le_approver : bool;
}.

Definition kErrorNumberTypeCommandRejected : Z := 7.

Section cs_lp.
Context {V : Type → Type} `{VectorInterface V} `{malloc : Allocator} {M : SpineModel}.

Abbreviation Approvals := (Pool (V := V) CsLpPendingApproval LpEvent).
Abbreviation Writes := (Pool (V := V) PendingWriteRequest WriteEvent).

Record CsLp := mkCsLp { pend : Approvals; writes : LpFeature → Writes }.

Definition on_pend {A} (m : Prog Approvals A) : Prog CsLp A := λ s,
  match m (pend s) with Ret a p => Ret a (mkCsLp p (writes s)) | Prelude.Block p => Prelude.Block (mkCsLp p (writes s)) | Crash why => Crash why end.

Definition set_writes (f : LpFeature) (p : Writes) (s : CsLp) : CsLp :=
  mkCsLp (pend s) (λ g, if decide (g = f) then p else writes s g).
Definition on_writes {A} (f : LpFeature) (m : Prog Writes A) : Prog CsLp A := λ s,
  match m (writes s f) with Ret a p => Ret a (set_writes f p s) | Prelude.Block p => Prelude.Block (set_writes f p s) | Crash why => Crash why end.

(** What C leaves undefined. *)
Definition defined {S A} (why : string) (x : option A) : Prog S A :=
  match x with Some a => mret a | None => crash why end.

(** ** [cs_lp_write_approval_container.c] *)

Definition Add (ski : string) (msg_cnt : Z) (feature : LpFeature) : Prog Approvals unit :=
  pool_add (mkPendingApproval msg_cnt ski feature).

Definition is_approval (ski : string) (msg_cnt : Z) (entry : CsLpPendingApproval) : bool :=
  bool_decide (pa_msg_cnt entry = msg_cnt)%Z && StringNCompare (pa_ski entry) ski (String.length ski).

Definition FindApproval (ski : string) (msg_cnt : Z) : Prog Approvals (option ptr) :=
  for_each (λ x, entry ← pool_load x; mret (if is_approval ski msg_cnt entry then Some x else None)).

(** The loop of [Find], and the entry that it finds is taken out and freed. *)
Definition RemoveApproval (ski : string) (msg_cnt : Z) : Prog Approvals unit :=
  found ← FindApproval ski msg_cnt;
  match found with None => mret tt | Some x => pool_drop x end.

(** ** The use case *)

Section use_case.
Context (energy_direction : Z).

Definition TryApprove (env : LpEnv) (f : LpFeature) (ski : string) (msg_cnt : Z) : Prog CsLp EebusError :=
  on_writes f (FeatureLocalTryApproveWrite (le_feature env f) (Some ski) msg_cnt).
Definition Deny (env : LpEnv) (f : LpFeature) (ski : string) (msg_cnt : Z) (err : option ErrorType) : Prog CsLp EebusError :=
  on_writes f (FeatureLocalDenyWrite (le_feature env f) (Some ski) msg_cnt err).
Definition tell (e : LpEvent) : Prog CsLp unit := on_pend (pool_log e).

(** What the callbacks read of a message first. *)
Definition message_parts (msg : Message) : option (string * Z * CmdType) :=
  match PendingWrite.request_header msg ≫= Sender.msg_cnt, sender_cmd <$> PendingWrite.msg_cmd msg, device_remote msg with
  | Some counter, Some cmd, Some dr => if null (data_choice cmd) then None else Some (dr_ski dr, counter, cmd)
  | _, _, _ => None
  end.

(** The server of the entity, and the id of the limit of the use case. *)
Definition known_limit (env : LpEnv) : option (option (FeatureData * Z)) :=
  match LoadControlServerConstruct (le_entity env) with
  | None => Some None
  | Some (_, lcs) => '(_, id) ← CsLpGetLimitId energy_direction lcs; Some (id ← id; Some (lcs, id))
  end.

Definition command_rejected (text : string) : option ErrorType := Some (mkError kErrorNumberTypeCommandRejected (Some text)).

(** The parsed limit starts undefined; its fields are read only where they were set. *)
Definition unset_limit : LoadLimit := mkLoadLimit (mkScaledValue 0 0) zero_duration false false false.

Definition CsLpLoadControlCallback (env : LpEnv) (msg : Message) : Prog CsLp unit :=
  let f := LoadControlFeature in
  match message_parts msg with
  | None => mret tt
  | Some (ski, counter, cmd) =>
      let approve := TryApprove env f ski counter;; mret tt in
      if negb (le_approver env) then approve
      else if negb (data_choice_type_id cmd =? kFunctionTypeLoadControlLimitListData) then approve
      else
        limit_list ← defined "not a list" (data_list (data_choice cmd));
        match limit_list with
        | [] => approve
        | first_entry :: rest =>
            known ← defined "limit id" (known_limit env);
            target_limit_id ← (match rest with
                               | [] => first ← defined "NULL entry" (data_limit first_entry); mret (limit_id first)
                               | _ => mret None
                               end);
            match target_limit_id, known with
            | Some target, Some (lcs, known_limit_id) =>
                if negb (target =? known_limit_id)%Z then
                  description ← defined "descriptions" (LoadControlCommonGetLimitDescriptionWithFilter lcs (description_with_id (Some target)));
                  match description with
                  | Some _ => approve
                  | None => Deny env f ski counter (command_rejected "Write targets an unknown load control limit");; mret tt
                  end
                else
                  match LoadLimitInitWithLoadControlLimitData unset_limit (data_limit first_entry) with
                  | (kEebusErrorOk, parsed) =>
                      on_pend (Add ski counter f);;
                      tell (PowerLimitApprovalRequested ski counter (ll_value parsed)
                              (if ll_delete_duration parsed then None else Some (ll_duration parsed)) (ll_is_active parsed))
                  | _ => approve
                  end
            | _, _ =>
                Deny env f ski counter (command_rejected "Write must target exactly the single known load control limit");; mret tt
            end
        end
  end.

Definition CsLpWriteExpiryCallback (env : LpEnv) (ski : string) (msg_cnt : Z) : Prog CsLp unit :=
  found ← on_pend (FindApproval ski msg_cnt);
  match found with
  | None => mret tt
  | Some _ =>
      (if le_approver env then tell (ApprovalRequestExpired ski msg_cnt) else mret tt);;
      on_pend (RemoveApproval ski msg_cnt)
  end.

(** [CsLpDeviceConfigParseMessage]: it has voted where it gives nothing. *)
Definition CsLpDeviceConfigParseMessage (env : LpEnv) (msg : Message) : Prog CsLp (option (string * Z * list Data * FeatureData)) :=
  match message_parts msg with
  | None => mret None
  | Some (ski, counter, cmd) =>
      let approve := TryApprove env DeviceConfigurationFeature ski counter;; mret None in
      if negb (le_approver env) then approve
      else if negb (data_choice_type_id cmd =? kFunctionTypeDeviceConfigurationKeyValueListData) then approve
      else
        match DeviceConfigurationServerConstruct (le_entity env) with
        | None => approve
        | Some (_, dc) => l ← defined "not a list" (data_list (data_choice cmd)); mret (Some (ski, counter, l, dc))
        end
  end.

(** The entry is made once for both callbacks. *)
Definition remember (ski : string) (counter : Z) : Prog CsLp unit :=
  on_pend (found ← FindApproval ski counter;
           match found with Some _ => mret tt | None => Add ski counter DeviceConfigurationFeature end).

Definition CsLpcFailsafeValueCallback (env : LpEnv) (msg : Message) : Prog CsLp unit :=
  parsed ← CsLpDeviceConfigParseMessage env msg;
  match parsed with
  | None => mret tt
  | Some (ski, counter, l, dc) =>
      kv ← defined "key value" (CsLpFindKeyValue l dc (failsafe_power_limit_key energy_direction));
      match (kv ≫= key_value) ≫= kv_scaled_number with
      | None => TryApprove env DeviceConfigurationFeature ski counter;; mret tt
      | Some n =>
          match ScaledValueInitWithScaledNumber (Some (mkScaledValue 0 0)) (Some n) with
          | (kEebusErrorOk, Some v) => remember ski counter;; tell (FailsafeValueApprovalRequested ski counter v)
          | _ => TryApprove env DeviceConfigurationFeature ski counter;; mret tt
          end
      end
  end.

Definition CsLpcFailsafeDurationCallback (env : LpEnv) (msg : Message) : Prog CsLp unit :=
  parsed ← CsLpDeviceConfigParseMessage env msg;
  match parsed with
  | None => mret tt
  | Some (ski, counter, l, dc) =>
      kv ← defined "key value" (CsLpFindKeyValue l dc kDeviceConfigurationKeyNameTypeFailsafeDurationMinimum);
      match (kv ≫= key_value) ≫= kv_duration with
      | None => TryApprove env DeviceConfigurationFeature ski counter;; mret tt
      | Some d => remember ski counter;; tell (FailsafeDurationApprovalRequested ski counter d)
      end
  end.

(** ** [cs_lp_public.c] *)

(** The entry is known by its address while the feature is asked. *)
Definition CsLpApproveWrite (env : LpEnv) (ski : option string) (msg_cnt : Z) : Prog CsLp EebusError :=
  match ski with
  | None => mret kEebusErrorInputArgumentNull
  | Some ski =>
      found ← on_pend (FindApproval ski msg_cnt);
      match found with
      | None => mret kEebusErrorNoChange
      | Some x =>
          entry ← on_pend (pool_load x);
          result ← TryApprove env (pa_feature entry) (pa_ski entry) msg_cnt;
          (if bool_decide (result = kEebusErrorPending) then mret tt else on_pend (RemoveApproval ski msg_cnt));;
          mret result
      end
  end.

Definition CsLpDenyWrite (env : LpEnv) (ski : option string) (msg_cnt : Z) (err : option ErrorType) : Prog CsLp EebusError :=
  match ski with
  | None => mret kEebusErrorInputArgumentNull
  | Some ski =>
      found ← on_pend (FindApproval ski msg_cnt);
      match found with
      | None => mret kEebusErrorNoChange
      | Some x =>
          entry ← on_pend (pool_load x);
          result ← Deny env (pa_feature entry) (pa_ski entry) msg_cnt err;
          on_pend (RemoveApproval ski msg_cnt);;
          mret result
      end
  end.

(** ** Writes, votes and time

    A write that comes in is held by its feature, which then calls the callbacks one after the other; the
    second one of device configuration is an operation of its own, since the approver may answer between them.
    A tick removes what expired and calls the expiry callback for each; that callback touches
    nothing of the feature, so its calls may follow the tick. *)

Inductive LpOp :=
| LpWrite (env : LpEnv) (f : LpFeature) (msg : Message)
| LpSecondCallback (env : LpEnv) (msg : Message)
| LpApprove (env : LpEnv) (ski : string) (msg_cnt : Z)
| LpDeny (env : LpEnv) (ski : string) (msg_cnt : Z) (err : option ErrorType)
| LpTick (env : LpEnv) (f : LpFeature).

Definition first_callback (env : LpEnv) (f : LpFeature) (msg : Message) : Prog CsLp unit :=
  match f with
  | LoadControlFeature => CsLpLoadControlCallback env msg
  | DeviceConfigurationFeature => CsLpcFailsafeValueCallback env msg
  end.

Fixpoint expiries (env : LpEnv) (es : list WriteEvent) : Prog CsLp unit :=
  match es with
  | [] => mret tt
  | WriteExpired _ ski counter :: es => CsLpWriteExpiryCallback env ski counter;; expiries env es
  | _ :: es => expiries env es
  end.

Definition lp_op (o : LpOp) : Prog CsLp unit :=
  match o with
  | LpWrite env f msg => on_writes f (PendingWrite.ProcessWrite (le_feature env f) msg);; first_callback env f msg
  | LpSecondCallback env msg => CsLpcFailsafeDurationCallback env msg
  | LpApprove env ski c => CsLpApproveWrite env (Some ski) c;; mret tt
  | LpDeny env ski c err => CsLpDenyWrite env (Some ski) c err;; mret tt
  | LpTick env f =>
      before ← gets (λ s, length (log (writes s f)));
      on_writes f (WriteTick (le_feature env f));;
      after ← gets (λ s, log (writes s f));
      expiries env (reverse (take (length after - before) after))
  end.
Fixpoint lp_ops (os : list LpOp) : Prog CsLp unit :=
  match os with [] => mret tt | o :: os => lp_op o;; lp_ops os end.

Definition CsLpUseCaseConstruct : CsLp := mkCsLp pool_empty (λ _, pool_empty).
End use_case.
End cs_lp.
