(* ===== verification/CsLpSafe.v ===== *)
(** * No power limit without its approver

    What the callback of [CsLp] decides about a write of the power limit, and the invariant behind the theorem: with
    an approver, and counters that a peer does not use twice, a write of the limit is executed only if the approver
    was shown its limit and approved it, or if it is one of the writes that escape the callback.  Then, the runs in which
    the approver is passed by. *)

From stdpp Require Import gmap.
From S2P Require Import Prelude StringUtil FeatureFunctions Duration DateTime EebusData EebusDataWrite EebusDataFacts EebusDataMerge EebusDataList SpineTables EebusDataJson EebusDataWire Timer Vector Pool Spine Sender SpineFunction SpineReplica SpineTablesFacts Pending LinkManager PendingWrite Datagram DatagramWire FeatureData Discovery DeviceBuild ScaledValue LoadControl DeviceConfiguration CsLp.

(** ** Runs that end *)

Definition runs {S A} (m : Prog S A) (Q : A → S → Prop) (s : S) : Prop :=
  match m s with Ret a s' => Q a s' | _ => False end.

Lemma runs_bind {S A B} (m : Prog S A) (k : A → Prog S B) Q s : runs m (λ a, runs (k a) Q) s → runs (m ≫= k) Q s.
Proof. unfold runs, mbind, Prog_bind. by destruct (m s). Qed.

Lemma runs_mono {S A} (m : Prog S A) (Q Q' : A → S → Prop) s : runs m Q s → (∀ a s', Q a s' → Q' a s') → runs m Q' s.
Proof. unfold runs. destruct (m s); eauto. Qed.

Lemma runs_ret {S A} (a : A) (Q : A → S → Prop) s : Q a s → runs (mret a) Q s.
Proof. done. Qed.

Lemma runs_then {S A B} (m : Prog S A) (k : A → Prog S B) P Q s : runs m P s → (∀ a s', P a s' → runs (k a) Q s') → runs (m ≫= k) Q s.
Proof. intros Hm Hk. apply runs_bind. by eapply runs_mono. Qed.

Section safety.
Context {V : Type → Type} `{VectorInterface V} `{malloc : Allocator} (energy_direction : Z).

Abbreviation Approvals := (Pool (V := V) CsLpPendingApproval LpEvent).
Abbreviation Writes := (Pool (V := V) PendingWriteRequest WriteEvent).
Abbreviation CsLp := (CsLp (V := V)).

(** ** What the callback decides *)

Inductive Verdict := Ignore | Pass | Reject (text : string) | Review (limit : LoadLimit).

Definition not_the_single_limit : string := "Write must target exactly the single known load control limit".

(** [None]: C leaves it undefined. *)
Definition verdict_of_entry (env : LpEnv) (first_entry : Data) : option Verdict :=
  entry ← data_limit first_entry;
  known ← known_limit energy_direction env;
  match limit_id entry, known with
  | Some target, Some (lcs, known_limit_id) =>
      if negb (target =? known_limit_id)%Z then
        description ← LoadControlCommonGetLimitDescriptionWithFilter lcs (description_with_id (Some target));
        Some (match description with Some _ => Pass | None => Reject "Write targets an unknown load control limit" end)
      else Some (match LoadLimitInitWithLoadControlLimitData unset_limit (Some entry) with
                 | (kEebusErrorOk, limit) => Review limit
                 | _ => Pass
                 end)
  | _, _ => Some (Reject not_the_single_limit)
  end.

Definition verdict (env : LpEnv) (msg : Message) : option Verdict :=
  match message_parts msg with
  | None => Some Ignore
  | Some (_, _, cmd) =>
      if negb (le_approver env) || negb (data_choice_type_id cmd =? kFunctionTypeLoadControlLimitListData) then Some Pass
      else
        limits ← data_list (data_choice cmd);
        match limits with
        | [] => Some Pass
        | [first_entry] => verdict_of_entry env first_entry
        | _ => known_limit energy_direction env;; Some (Reject not_the_single_limit)
        end
  end.

(** What the approver is asked. *)
Definition request (ski : string) (counter : Z) (limit : LoadLimit) : LpEvent :=
  PowerLimitApprovalRequested ski counter (ll_value limit) (if ll_delete_duration limit then None else Some (ll_duration limit))
    (ll_is_active limit).

Definition carry_out (env : LpEnv) (ski : string) (counter : Z) (v : Verdict) : Prog CsLp unit :=
  match v with
  | Ignore => mret tt
  | Pass => TryApprove env LoadControlFeature ski counter;; mret tt
  | Reject text => Deny env LoadControlFeature ski counter (command_rejected text);; mret tt
  | Review limit => on_pend (Add ski counter LoadControlFeature);; tell (request ski counter limit)
  end.

Lemma callback_is_verdict env msg v ski counter cmd s : message_parts msg = Some (ski, counter, cmd) → verdict env msg = Some v →
  CsLpLoadControlCallback energy_direction env msg s = carry_out env ski counter v s.
Proof.
  intros Hparts. unfold verdict, CsLpLoadControlCallback. rewrite Hparts.
  destruct (le_approver env); cbn [negb orb]; [|by intros [= <-]].
  destruct (data_choice_type_id cmd =? kFunctionTypeLoadControlLimitListData); cbn [negb]; [|by intros [= <-]].
  destruct (data_list (data_choice cmd)) as [[|d [|d' l]]|]; [|unfold verdict_of_entry| |done]; cbn [mbind option_bind];
    unfold defined, mbind, Prog_bind, mret, Prog_ret.
  - by intros [= <-].
  - destruct (data_limit d) as [entry|] eqn:Hd; [|done]. cbn [mbind option_bind].
    destruct (known_limit energy_direction env) as [known|]; [|done]. cbn [mbind option_bind].
    destruct (limit_id entry) as [target|]; [|by intros [= <-]]. destruct known as [[lcs k]|]; [|by intros [= <-]].
    destruct (negb (target =? k)%Z).
    + destruct (LoadControlCommonGetLimitDescriptionWithFilter lcs _) as [[desc|]|]; [by intros [= <-]..|done].
    + destruct (LoadLimitInitWithLoadControlLimitData unset_limit (Some entry)) as [[] limit]; by intros [= <-].
  - destruct (known_limit energy_direction env) as [known|]; [|done]. cbn [mbind option_bind]. by intros [= <-].
Qed.

(** A write that is not of the form that the approver is shown, and is voted for all the same. *)
Definition escapes (env : LpEnv) (msg : Message) : Prop :=
  ∃ ski counter cmd, message_parts msg = Some (ski, counter, cmd) ∧
  (le_approver env = false ∨ data_choice_type_id cmd ≠ kFunctionTypeLoadControlLimitListData ∨ data_list (data_choice cmd) = Some [] ∨
   ∃ d entry lcs k, data_list (data_choice cmd) = Some [d] ∧ data_limit d = Some entry ∧ known_limit energy_direction env = Some (Some (lcs, k)) ∧
     ((∃ other desc, limit_id entry = Some other ∧ other ≠ k ∧
         LoadControlCommonGetLimitDescriptionWithFilter lcs (description_with_id (Some other)) = Some (Some desc)) ∨
      (limit_id entry = Some k ∧ (limit_value entry ≫= sn_number = None ∨
         ∃ date_time, time_period entry ≫= end_time = Some (kAbsoluteOrRelativeTimeTypeDateTime date_time))))).

(** A write of exactly one limit, the one of the use case, with all that the approver is shown. *)
Definition shows (env : LpEnv) (msg : Message) (limit : LoadLimit) : Prop :=
  ∃ ski counter cmd d entry lcs k number, message_parts msg = Some (ski, counter, cmd) ∧
    le_approver env = true ∧ data_choice_type_id cmd = kFunctionTypeLoadControlLimitListData ∧
    data_list (data_choice cmd) = Some [d] ∧ data_limit d = Some entry ∧ known_limit energy_direction env = Some (Some (lcs, k)) ∧
    limit_id entry = Some k ∧ limit_value entry ≫= sn_number = Some number ∧
    ll_value limit = mkScaledValue number (default 0%Z (limit_value entry ≫= sn_scale)) ∧
    ll_is_active limit = default false (is_limit_active entry) ∧
    (if ll_delete_duration limit then None else Some (kAbsoluteOrRelativeTimeTypeDuration (ll_duration limit))) = time_period entry ≫= end_time.

Lemma init_limit entry : is_Some (limit_id entry) →
  match LoadLimitInitWithLoadControlLimitData unset_limit (Some entry) with
  | (kEebusErrorOk, limit) =>
      ∃ number, limit_value entry ≫= sn_number = Some number ∧
        ll_value limit = mkScaledValue number (default 0%Z (limit_value entry ≫= sn_scale)) ∧
        ll_is_active limit = default false (is_limit_active entry) ∧
        (if ll_delete_duration limit then None else Some (kAbsoluteOrRelativeTimeTypeDuration (ll_duration limit))) = time_period entry ≫= end_time
  | _ => limit_value entry ≫= sn_number = None ∨
         ∃ date_time, time_period entry ≫= end_time = Some (kAbsoluteOrRelativeTimeTypeDateTime date_time)
  end.
Proof.
  intros Hid. unfold LoadLimitInitWithLoadControlLimitData, LoadControlLimitIsValid. rewrite (bool_decide_true (is_Some (limit_id entry))) by done.
  destruct (limit_value entry) as [[[number|] sc]|]; cbn [mbind option_bind sn_number]; [|by left..].
  rewrite bool_decide_true by done. cbn. unfold LoadControlLimitGetDuration.
  destruct (time_period entry ≫= end_time) as [[d|dt]|] eqn:Ht; cbn; [|right; by eexists|];
    (exists number; split_and!; try done).
Qed.

Lemma verdict_pass env msg : verdict env msg = Some Pass → escapes env msg.
Proof.
  unfold verdict, escapes. destruct (message_parts msg) as [[[ski counter] cmd]|]; [|done]. intros Hv. exists ski, counter, cmd. split; [done|].
  destruct (le_approver env); [|by left]. right. destruct (Nat.eqb_spec (data_choice_type_id cmd) kFunctionTypeLoadControlLimitListData) as [|Ht]; [|by left].
  right. cbn [negb orb] in Hv. destruct (data_list (data_choice cmd)) as [[|d [|d' l]]|]; [by left| |exfalso|done]; cbn [mbind option_bind] in Hv.
  2: { by destruct (known_limit energy_direction env). }
  right. unfold verdict_of_entry in Hv. destruct (data_limit d) as [entry|] eqn:Hd; [|done]. cbn [mbind option_bind] in Hv.
  destruct (known_limit energy_direction env) as [[[lcs k]|]|] eqn:Hk; [|by destruct (limit_id entry)|done]. cbn [mbind option_bind] in Hv.
  destruct (limit_id entry) as [target|] eqn:Hid; [|done]. exists d, entry, lcs, k. split_and!; [done..|].
  destruct (Z.eqb_spec target k) as [->|Hne]; cbn [negb] in Hv.
  - right. split; [done|]. pose proof (init_limit entry ltac:(rewrite Hid; by eexists)) as Hinit.
    destruct (LoadLimitInitWithLoadControlLimitData unset_limit (Some entry)) as [[] limit]; done.
  - left. destruct (LoadControlCommonGetLimitDescriptionWithFilter lcs _) as [[desc|]|] eqn:Hdesc; [|done..]. by exists target, desc.
Qed.

Lemma verdict_review env msg limit : verdict env msg = Some (Review limit) → shows env msg limit.
Proof.
  unfold verdict, shows. destruct (message_parts msg) as [[[ski counter] cmd]|]; [|done]. intros Hv. exists ski, counter, cmd.
  destruct (le_approver env); [|done]. destruct (Nat.eqb_spec (data_choice_type_id cmd) kFunctionTypeLoadControlLimitListData) as [Ht|Ht]; [|done].
  cbn [negb orb] in Hv. destruct (data_list (data_choice cmd)) as [[|d [|d' l]]|]; [done| |exfalso|done]; cbn [mbind option_bind] in Hv.
  2: { by destruct (known_limit energy_direction env). }
  unfold verdict_of_entry in Hv. destruct (data_limit d) as [entry|] eqn:Hd; [|done]. cbn [mbind option_bind] in Hv.
  destruct (known_limit energy_direction env) as [[[lcs k]|]|] eqn:Hk; [|by destruct (limit_id entry)|done]. cbn [mbind option_bind] in Hv.
  destruct (limit_id entry) as [target|] eqn:Hid; [|done]. destruct (Z.eqb_spec target k) as [->|Hne]; cbn [negb] in Hv.
  - pose proof (init_limit entry ltac:(rewrite Hid; by eexists)) as Hinit.
    destruct (LoadLimitInitWithLoadControlLimitData unset_limit (Some entry)) as [[] limit']; try done. injection Hv as <-.
    destruct Hinit as (number & ? & ? & ? & ?). exists d, entry, lcs, k, number. done.
  - by destruct (LoadControlCommonGetLimitDescriptionWithFilter lcs _) as [[desc|]|].
Qed.

(** ** What the operations do to the writes of a feature *)

(** What stays of a request. *)
Definition core (item : PendingWriteRequest) : string * Z * Sender.HeaderType * Sender.CmdType :=
  (pwr_ski item, pwr_msg_counter item, pwr_header item, pwr_cmd item).

(** No request is new, and what is executed was one of those with an allowed key. *)
Record evolves (allowed : string * Z → Prop) (p : Writes) (l : list PendingWriteRequest) (p' : Writes) (l' : list PendingWriteRequest) : Prop := {
  evolves_requests : requests p' l';
  evolves_length : length l' ≤ length l;
  evolves_core item' : item' ∈ l' → ∃ item, item ∈ l ∧ core item' = core item;
  evolves_executed h cmd : WriteExecuted h cmd ∈ log p' → WriteExecuted h cmd ∈ log p ∨
    ∃ item, item ∈ l ∧ allowed (key_of item) ∧ pwr_header item = h ∧ pwr_cmd item = cmd;
}.

Lemma evolves_refl allowed p l : requests p l → evolves allowed p l p l.
Proof. intros Hp. split; eauto. Qed.

(** The same requests, with other fields. *)
Lemma evolves_replace allowed (p p' : Writes) l1 l2 item item' : requests p' (l1 ++ item' :: l2) → core item' = core item → log p' = log p →
  evolves allowed p (l1 ++ item :: l2) p' (l1 ++ item' :: l2).
Proof.
  intros Hp' Hc Hlog. split; [done|by rewrite !length_app| |rewrite Hlog; by left]. intros x. rewrite elem_of_app, elem_of_cons.
  intros [Hx|[->|Hx]]; [exists x|exists item|exists x]; rewrite elem_of_app, elem_of_cons; tauto.
Qed.

Lemma evolves_drop (allowed : string * Z → Prop) (p p' : Writes) l1 l2 item es : requests p' (l1 ++ l2) → log p' = es ++ log p →
  (∀ h cmd, WriteExecuted h cmd ∈ es → allowed (key_of item) ∧ pwr_header item = h ∧ pwr_cmd item = cmd) →
  evolves allowed p (l1 ++ item :: l2) p' (l1 ++ l2).
Proof.
  intros Hp' Hlog Hes. split; [done|rewrite !length_app; simpl; lia| |].
  - intros x Hx. exists x. split; [|done]. rewrite elem_of_app, elem_of_cons. rewrite elem_of_app in Hx. tauto.
  - intros h cmd. rewrite Hlog, elem_of_app. intros [Hin|]; [right|by left]. exists item. split; [|by apply Hes].
    rewrite elem_of_app, elem_of_cons. tauto.
Qed.

Lemma executed_in env h cmd dr h' cmd' : WriteExecuted h' cmd' ∈ executed_events env h cmd dr → h = h' ∧ cmd = cmd'.
Proof.
  unfold executed_events. rewrite elem_of_app, list_elem_of_singleton. intros [Hin|[= -> ->]]; [|done]. exfalso. revert Hin.
  destruct (is_ok _); [destruct (ack_request h) as [[]|]|]; rewrite ?list_elem_of_singleton; (done || by intros []%not_elem_of_nil).
Qed.

Lemma approve_evolves env ski c (p : Writes) l : requests p l →
  ∃ e p' l', FeatureLocalTryApproveWrite env (Some ski) c p = Ret e p' ∧ evolves (λ k, k = (ski, c)) p l p' l'.
Proof.
  intros Hp. destruct (decide (feature_role (we_feature env) = kRoleTypeServer)) as [Hrole|Hrole].
  2: { exists kEebusErrorInputArgument, p, l. split; [|by apply evolves_refl]. unfold FeatureLocalTryApproveWrite. by rewrite bool_decide_true. }
  destruct (key_split (ski, c) l) as [Hno|(l1 & item & l2 & -> & Hk)].
  - exists kEebusErrorNoChange, p, l. split; [|by apply evolves_refl].
    unfold FeatureLocalTryApproveWrite. rewrite bool_decide_false by auto. rewrite bool_decide_false by done. cbn [orb].
    unfold mbind, Prog_bind. by rewrite (Find_absent _ _ _ _ (proj1 Hp) Hno).
  - destruct (Approve_list env ski c p l1 item l2 Hp Hrole Hk) as (e & p' & l' & Hrun & Hl & Hcase). exists e, p', l'. split; [done|].
    case_bool_decide; [|destruct (_ ≫= device_remote) as [dr|]]; destruct Hcase as (_ & -> & Hlog); try by apply evolves_replace.
    apply (evolves_drop _ _ _ _ _ _ _ Hl Hlog). by intros h cmd [-> ->]%executed_in.
Qed.

Lemma deny_evolves env ski c err (p : Writes) l : requests p l →
  ∃ e p' l', FeatureLocalDenyWrite env (Some ski) c err p = Ret e p' ∧ evolves (λ _, False) p l p' l'.
Proof.
  intros Hp. assert (∀ e, ∃ e' p' l', (mret e : Prog Writes EebusError) p = Ret e' p' ∧ evolves (λ _, False) p l p' l') as Hnone.
  { intros e. exists e, p, l. split; [done|by apply evolves_refl]. }
  unfold FeatureLocalDenyWrite. destruct (_ || _); [apply Hnone|]. destruct err as [err|]; [|apply Hnone]. case_bool_decide; [apply Hnone|].
  unfold mbind, Prog_bind. destruct (key_split (ski, c) l) as [Hno|(l1 & item & l2 & -> & Hk)].
  - rewrite (Find_absent _ _ _ _ (proj1 Hp) Hno). apply Hnone.
  - destruct (pool_position _ _ _ _ (proj1 Hp)) as (ps1 & x & ps2 & Hat & Hq & Hx).
    rewrite (Find_present _ _ _ _ _ _ _ _ _ Hat Hq (proj2 Hp) Hk), (pool_load_at _ _ _ Hx).
    destruct (GetMessage_cases env item) as [-> |(fr & dr & ->)]; [apply Hnone|]. simpl. set (ev := ResultErrorSent _ _ _ _).
    destruct (pool_drop_at _ _ _ _ _ _ _ (pool_at_with_log _ _ _ [ev] Hat) Hq) as [Hd Hat2].
    unfold Remove, pool_log, modify. change (mkPool (items p) (heap p) (next_ptr p) (ev :: log p)) with (with_log p [ev]).
    rewrite Hd. do 2 eexists. exists (l1 ++ l2). split; [done|]. eapply evolves_drop with (es := [ev]); [|done|].
    + eapply requests_drop; [exact Hp|]. by eexists.
    + by intros h cmd ?%list_elem_of_singleton.
Qed.

Lemma expiry_executes env l h cmd : WriteExecuted h cmd ∉ concat (write_expiry env <$> l).
Proof.
  induction l as [|item l IH]; csimpl; [apply not_elem_of_nil|]. rewrite elem_of_app. intros [Hin|?]; [|done].
  unfold write_expiry, expiry_called, answered in Hin. destruct (HasExpired item); [|by apply not_elem_of_nil in Hin].
  destruct (we_on_expired env), (_ ≫= device_remote); set_unfold in Hin; intuition congruence.
Qed.

Lemma tick_evolves env (p : Writes) l : requests p l →
  ∃ p' l' es, WriteTick env p = Ret tt p' ∧ evolves (λ _, False) p l p' l' ∧ log p' = es ++ log p.
Proof.
  intros [Hp Hnd]. destruct (WriteTick_list env p l Hp) as (p' & Hrun & Hl & Hlog). do 3 eexists. split; [exact Hrun|]. split; [|exact Hlog].
  assert (∀ item' : PendingWriteRequest, item' ∈ omap write_survives l → ∃ item, item ∈ l ∧ core item' = core item) as Hcore.
  { intros item' (item & Hin & Hs)%list_elem_of_omap. exists item. split; [done|]. unfold write_survives in Hs.
    destruct (HasExpired item); [done|by injection Hs as <-]. }
  split; [|apply survivors_length|done|].
  - split; [done|]. eapply sublist_NoDup; [exact Hnd|]. clear. induction l as [|item l IH]; [constructor|].
    csimpl. unfold write_survives at 1. destruct (HasExpired item); csimpl; by constructor.
  - intros h cmd. rewrite Hlog, elem_of_app. intros [Hin|]; [by apply expiry_executes in Hin|by left].
Qed.

(** The request that a message makes. *)
Definition request_of (msg : Message) (item : PendingWriteRequest) : Prop :=
  PendingWrite.request_header msg = Some (pwr_header item) ∧ Sender.msg_cnt (pwr_header item) = Some (pwr_msg_counter item) ∧
  PendingWrite.msg_cmd msg = Some (pwr_cmd item) ∧ dr_ski <$> device_remote msg = Some (pwr_ski item).

(** A write that comes in adds at most one request, with what the message holds. *)
Lemma process_evolves env msg (p : Writes) l : requests p l → (Z.of_nat (length l) < num_elements_max)%Z → 0 < we_approval_cbs env →
  write_op_ok (OpWrite env msg) →
  ∃ e p' l' new, PendingWrite.ProcessWrite env msg p = Ret e p' ∧ length new ≤ 1 ∧ evolves (λ _, False) p (l ++ new) p' l' ∧
    ∀ item, item ∈ new → request_of msg item.
Proof.
  intros Hp Hmax Hcbs ([dr Hdr] & [fr Hfr] & [cmd Hcmd]). unfold PendingWrite.ProcessWrite. rewrite bool_decide_true by done.
  unfold PendingWrite.ProcessWriteApprovalCallbacks.
  assert (∃ e p' l' new, WriteAdd msg p = Ret e p' ∧ length new ≤ 1 ∧ evolves (λ _, False) p (l ++ new) p' l' ∧
    ∀ item, item ∈ new → request_of msg item) as (e & p' & l' & new & Hrun & Hlen & He & Hnew).
  { assert (∀ e, ∃ e' p' l' new, (mret e : Prog Writes EebusError) p = Ret e' p' ∧ length new ≤ 1 ∧ evolves (λ _, False) p (l ++ new) p' l' ∧
      ∀ item : PendingWriteRequest, item ∈ new → request_of msg item) as Hnone.
    { intros e. exists e, p, l, []. split; [done|]. split; [simpl; lia|]. rewrite app_nil_r. split; [by apply evolves_refl|]. by intros ? ?%not_elem_of_nil. }
    unfold WriteAdd. rewrite Hdr. destruct (PendingWrite.request_header msg) as [header|] eqn:Hh; [|apply Hnone].
    destruct (Sender.msg_cnt header) as [c|] eqn:Hc; [|apply Hnone].
    unfold mbind, Prog_bind. destruct (key_split (dr_ski dr, c) l) as [Hno|(l1 & item & l2 & -> & Hk)].
    - rewrite (Find_absent _ _ _ _ (proj1 Hp) Hno).
      unfold PendingWriteRequestCreate. rewrite Hc, Hcmd, Hfr. unfold mret, Prog_ret.
      match goal with |- context [pool_add ?a _] => set (new := a) end.
      destruct (pool_add_list p l new (proj1 Hp) Hmax) as (p' & Hrun & Hl & Hlog). rewrite Hrun.
      exists kEebusErrorOk, p', (l ++ [new]), [new]. split; [done|]. split; [done|]. split.
      + split; [|done|eauto|rewrite Hlog; by left]. split; [done|]. rewrite fmap_app. apply NoDup_app.
        split_and!; [apply Hp| |apply NoDup_singleton]. intros k Hin Hk. apply list_elem_of_singleton in Hk as ->. by apply Hno.
      + intros item ->%list_elem_of_singleton. unfold request_of. by rewrite Hh, Hdr.
    - destruct (pool_position _ _ _ _ (proj1 Hp)) as (ps1 & x & ps2 & Hat & Hq & _).
      rewrite (Find_present _ _ _ _ _ _ _ _ _ Hat Hq (proj2 Hp) Hk). apply Hnone. }
  unfold mbind, Prog_bind. rewrite Hrun. destruct (ask_approvals_log (we_approval_cbs env) 0 msg p') as (es & Hask & Hes). rewrite Hask.
  do 2 eexists. exists l', new. split; [done|]. split; [done|]. split; [|done]. destruct He as [[[ps Hat] Hnd] Hl Hcore Hex].
  split; [split; [exists ps; by apply pool_at_with_log|done]|done|done|]. intros h cmd'. simpl. rewrite elem_of_app. intros [Hin|]; [|by apply Hex].
  exfalso. apply (not_elem_of_nil h). rewrite <- Hes. apply list_elem_of_omap. by exists (WriteExecuted h cmd').
Qed.

(** ** The container of approvals *)

Lemma StringNCompare_length a : ∀ b, StringNCompare a b (String.length b) = bool_decide (a = b).
Proof.
  induction a as [|c a IH]; intros [|d b]; simpl; try done.
  case_bool_decide as Hcd; [subst d|by rewrite bool_decide_false by congruence]. rewrite IH. apply bool_decide_ext. split; congruence.
Qed.

Lemma is_approval_key ski c entry : is_approval ski c entry = bool_decide (pa_msg_cnt entry = c ∧ pa_ski entry = ski).
Proof. unfold is_approval. by rewrite StringNCompare_length, bool_decide_and. Qed.

Lemma split_first {A} (f : A → bool) l : Forall (λ a, f a = false) l ∨
  ∃ l1 a l2, l = l1 ++ a :: l2 ∧ Forall (λ a, f a = false) l1 ∧ f a = true.
Proof.
  induction l as [|a l IH]; [by left; constructor|]. destruct (f a) eqn:Ha.
  - right. exists [], a, l. split_and!; [done|constructor|done].
  - destruct IH as [|(l1 & b & l2 & -> & Hl & Hb)]; [left; by constructor|right]. exists (a :: l1), b, l2. split_and!; [done|by constructor|done].
Qed.

(** [Find] gives the entry of the key at its position, if there is one. *)
Lemma FindApproval_list ski c (p : Approvals) la : pool_list p la →
  FindApproval ski c p = Ret None p ∨
  ∃ x entry l1 l2 ps1 ps2, FindApproval ski c p = Ret (Some x) p ∧ la = l1 ++ entry :: l2 ∧ pool_at p (ps1 ++ x :: ps2) la ∧
    length ps1 = length l1 ∧ heap p !! x = Some entry ∧ pa_ski entry = ski ∧ pa_msg_cnt entry = c.
Proof.
  intros Hp. assert (∀ x a, heap p !! x = Some a → (entry ← pool_load x; mret (if is_approval ski c entry then Some x else None)) p
    = Ret (if is_approval ski c a then Some x else None) p) as Hbody.
  { intros x a Hx. unfold mbind, Prog_bind. by rewrite (pool_load_at _ _ _ Hx). }
  destruct (split_first (is_approval ski c) la) as [Hno|(l1 & entry & l2 & -> & Hno & Hyes)]; rewrite Forall_forall in Hno.
  - left. apply (for_each_pass _ _ _ Hp). intros x a Ha Hx. by rewrite (Hbody _ _ Hx), (Hno a Ha).
  - right. destruct Hp as [ps Hp]. destruct (pool_split _ _ _ _ _ Hp) as (ps1 & x & ps2 & -> & Hq & Hx & _).
    exists x, entry, l1, l2, ps1, ps2. rewrite is_approval_key in Hyes. apply bool_decide_eq_true in Hyes as [Hc Hski].
    split_and!; try done. eapply for_each_stop; [exact Hp|exact Hq| |].
    + intros y b Hb Hy. by rewrite (Hbody _ _ Hy), (Hno b Hb).
    + rewrite (Hbody _ _ Hx), is_approval_key. by rewrite bool_decide_true.
Qed.

Lemma RemoveApproval_list ski c (p : Approvals) la : pool_list p la →
  ∃ p' la', RemoveApproval ski c p = Ret tt p' ∧ pool_list p' la' ∧ sublist la' la ∧ log p' = log p.
Proof.
  intros Hp. unfold RemoveApproval, mbind, Prog_bind.
  destruct (FindApproval_list ski c p la Hp) as [-> |(x & entry & l1 & l2 & ps1 & ps2 & -> & -> & Hat & Hq & _)]; [by exists p, la|].
  destruct (pool_drop_at _ _ _ _ _ _ _ Hat Hq) as [Hrun Hat']. rewrite Hrun. do 2 eexists. split; [done|]. split; [by eexists|].
  split; [|done]. apply sublist_app; [done|by constructor].
Qed.

(** ** The invariant *)

Definition write_key (msg : Message) : option (string * Z) :=
  dr ← device_remote msg; h ← PendingWrite.request_header msg; c ← Sender.msg_cnt h; Some (dr_ski dr, c).

Definition limit_write (os : list LpOp) (env : LpEnv) (msg : Message) (k : string * Z) : Prop :=
  LpWrite env LoadControlFeature msg ∈ os ∧ write_key msg = Some k.

(** The approver saw the limit of the write, and approved a write with its key. *)
Definition reviewed (os : list LpOp) (asked : list LpEvent) (k : string * Z) : Prop :=
  ∃ env msg limit, limit_write os env msg k ∧ verdict env msg = Some (Review limit) ∧ request k.1 k.2 limit ∈ asked.

(** What may be executed under a key. *)
Definition voted (os : list LpOp) (asked : list LpEvent) (k : string * Z) : Prop :=
  ∀ env msg, limit_write os env msg k → verdict env msg = Some Pass ∨
    ∃ limit env', verdict env msg = Some (Review limit) ∧ request k.1 k.2 limit ∈ asked ∧ LpApprove env' k.1 k.2 ∈ os.

Definition came (os : list LpOp) (item : PendingWriteRequest) : Prop :=
  ∃ env msg, limit_write os env msg (key_of item) ∧ request_of msg item.

Definition justified (os : list LpOp) (asked : list LpEvent) (h : Sender.HeaderType) (cmd : Sender.CmdType) : Prop :=
  ∃ env msg k, limit_write os env msg k ∧ PendingWrite.request_header msg = Some h ∧ PendingWrite.msg_cmd msg = Some cmd ∧
    (verdict env msg = Some Pass ∨
     ∃ limit env', verdict env msg = Some (Review limit) ∧ request k.1 k.2 limit ∈ asked ∧ LpApprove env' k.1 k.2 ∈ os).

(** After the operations [os], with at most [np] approvals waiting, and at most [nw] writes at each feature. *)
Record Inv (os : list LpOp) (np nw : nat) (s : CsLp) (la : list CsLpPendingApproval) (lw : LpFeature → list PendingWriteRequest) : Prop := {
  inv_pend : pool_list (pend s) la;
  inv_pend_length : length la ≤ np;
  inv_writes f : requests (writes s f) (lw f);
  inv_writes_length f : length (lw f) ≤ nw;
  inv_came item : item ∈ lw LoadControlFeature → came os item;
  inv_reviewed e : e ∈ la → pa_feature e = LoadControlFeature → reviewed os (log (pend s)) (pa_ski e, pa_msg_cnt e);
  inv_executed h cmd : WriteExecuted h cmd ∈ log (writes s LoadControlFeature) → justified os (log (pend s)) h cmd;
}.
Definition inv (os : list LpOp) (np nw : nat) (s : CsLp) : Prop := ∃ la lw, Inv os np nw s la lw.

Lemma limit_write_mono os os' env msg k : os ⊆ os' → limit_write os env msg k → limit_write os' env msg k.
Proof. intros Hos [Hin Hk]. split; [by apply Hos|done]. Qed.

Lemma reviewed_mono os os' lg lg' k : os ⊆ os' → lg ⊆ lg' → reviewed os lg k → reviewed os' lg' k.
Proof. intros Hos Hlg (env & msg & limit & Hw & Hv & Hin). exists env, msg, limit. split_and!; [by eapply limit_write_mono|done|by apply Hlg]. Qed.

Lemma justified_mono os os' lg lg' h cmd : os ⊆ os' → lg ⊆ lg' → justified os lg h cmd → justified os' lg' h cmd.
Proof.
  intros Hos Hlg (env & msg & k & Hw & Hh & Hcmd & Hv). exists env, msg, k. split_and!; [by eapply limit_write_mono|done..|].
  destruct Hv as [|(limit & env' & Hv & Hin & Ha)]; [by left|right]. exists limit, env'. split_and!; [done|by apply Hlg|by apply Hos].
Qed.

Lemma came_mono os os' item : os ⊆ os' → came os item → came os' item.
Proof. intros Hos (env & msg & Hw & Hr). exists env, msg. split; [by eapply limit_write_mono|done]. Qed.

Lemma inv_mono os os' np np' nw nw' s : os ⊆ os' → np ≤ np' → nw ≤ nw' → inv os np nw s → inv os' np' nw' s.
Proof.
  intros Hos Hnp Hnw (la & lw & [Hp Hpl Hw Hwl Hc Hr He]). exists la, lw. split; try done; try lia.
  - intros f. specialize (Hwl f). lia.
  - intros item Hin. eapply came_mono; [exact Hos|auto].
  - intros e Hin Hf. eapply reviewed_mono; [exact Hos|done|auto].
  - intros h cmd Hin. eapply justified_mono; [exact Hos|done|auto].
Qed.

Lemma came_core os item item' : core item' = core item → came os item → came os item'.
Proof. intros [= E1 E2 E3 E4] (env & msg & Hw & Hr). exists env, msg. unfold key_of, request_of in *. by rewrite E1, E2, E3, E4. Qed.

(** The requests of a feature evolve, after [new] came in. *)
Lemma inv_evolve os np nw s la lw f new allowed p' l' : Inv os np nw s la lw → evolves allowed (writes s f) (lw f ++ new) p' l' →
  (f = LoadControlFeature → ∀ item, item ∈ new → came os item) →
  (f = LoadControlFeature → ∀ k, allowed k → voted os (log (pend s)) k) →
  inv os np (length new + nw) (set_writes f p' s).
Proof.
  intros [Hp Hpl Hw Hwl Hc Hr He] [Hreq Hlen Hcore Hex] Hnew Hvoted. exists la, (λ g, if decide (g = f) then l' else lw g). split; simpl; try done.
  - intros g. by destruct (decide (g = f)).
  - intros g. specialize (Hwl g). destruct (decide (g = f)) as [->|]; [rewrite length_app in Hlen; lia|lia].
  - destruct (decide (LoadControlFeature = f)) as [<-|]; [|done]. intros item' (item & Hin & Hi)%Hcore.
    eapply came_core; [exact Hi|]. apply elem_of_app in Hin as [|]; auto.
  - destruct (decide (LoadControlFeature = f)) as [<-|]; [|done]. intros h cmd [|(item & Hin & Hk & <- & <-)]%Hex; [auto|].
    assert (came os item) as (env & msg & Hlw & Hh & _ & Hcmd & _) by (apply elem_of_app in Hin as [|]; auto).
    exists env, msg, (key_of item). split_and!; [done..|]. by apply Hvoted.
Qed.

(** The container of approvals changes. *)
Lemma inv_container os np np' nw s la lw p' la' : Inv os np nw s la lw → pool_list p' la' → length la' ≤ np' → log (pend s) ⊆ log p' →
  (∀ e, e ∈ la' → e ∈ la ∨ (pa_feature e = LoadControlFeature → reviewed os (log p') (pa_ski e, pa_msg_cnt e))) →
  inv os np' nw (mkCsLp p' (writes s)).
Proof.
  intros [Hp Hpl Hw Hwl Hc Hr He] Hp' Hlen Hlog Hla. exists la', lw. split; simpl; try done.
  - intros e [Hin|]%Hla; [intros Hf|done]. eapply reviewed_mono; [done|exact Hlog|auto].
  - intros h cmd Hin. eapply justified_mono; [done|exact Hlog|auto].
Qed.

(** ** What keeps it *)

Lemma on_writes_runs {A} f (m : Prog Writes A) (Q : A → CsLp → Prop) s a p' : m (writes s f) = Ret a p' → Q a (set_writes f p' s) → runs (on_writes f m) Q s.
Proof. intros Hm HQ. unfold runs, on_writes. by rewrite Hm. Qed.
Lemma on_pend_runs {A} (m : Prog Approvals A) (Q : A → CsLp → Prop) s a p' : m (pend s) = Ret a p' → Q a (mkCsLp p' (writes s)) → runs (on_pend m) Q s.
Proof. intros Hm HQ. unfold runs, on_pend. by rewrite Hm. Qed.

Lemma TryApprove_runs os np nw s env f ski c : inv os np nw s → (f = LoadControlFeature → voted os (log (pend s)) (ski, c)) →
  runs (TryApprove env f ski c) (λ _, inv os np nw) s.
Proof.
  intros (la & lw & HI) Hvoted. destruct (approve_evolves (le_feature env f) ski c _ _ (inv_writes _ _ _ _ _ _ HI f)) as (e & p' & l' & Hrun & He).
  eapply on_writes_runs; [exact Hrun|]. eapply (inv_evolve _ _ _ _ _ _ f [] _ _ _ HI); [by rewrite app_nil_r|by intros _ ? ?%not_elem_of_nil|].
  intros Hf k ->. by apply Hvoted.
Qed.

Lemma Deny_runs os np nw s env f ski c err : inv os np nw s → runs (Deny env f ski c err) (λ _, inv os np nw) s.
Proof.
  intros (la & lw & HI). destruct (deny_evolves (le_feature env f) ski c err _ _ (inv_writes _ _ _ _ _ _ HI f)) as (e & p' & l' & Hrun & He).
  eapply on_writes_runs; [exact Hrun|]. by eapply (inv_evolve _ _ _ _ _ _ f [] _ _ _ HI); [rewrite app_nil_r|intros _ ? ?%not_elem_of_nil|].
Qed.

Lemma tell_runs os np nw s e : inv os np nw s → runs (tell e) (λ _, inv os np nw) s.
Proof.
  intros (la & lw & HI). eapply on_pend_runs; [done|]. eapply (inv_container _ _ _ _ _ _ _ _ la HI); [|apply HI|set_solver|auto].
  destruct (inv_pend _ _ _ _ _ _ HI) as [ps Hp]. exists ps. by apply pool_at_log.
Qed.

Lemma Remove_runs os np nw s ski c : inv os np nw s → runs (on_pend (RemoveApproval ski c)) (λ _, inv os np nw) s.
Proof.
  intros (la & lw & HI). destruct (RemoveApproval_list ski c _ _ (inv_pend _ _ _ _ _ _ HI)) as (p' & la' & Hrun & Hl & Hsub & Hlog).
  eapply on_pend_runs; [exact Hrun|]. eapply (inv_container _ _ _ _ _ _ _ _ la' HI); [done| |by rewrite Hlog|].
  - pose proof (sublist_length _ _ Hsub). pose proof (inv_pend_length _ _ _ _ _ _ HI). lia.
  - intros e Hin. left. eapply elem_of_submseteq; [exact Hin|by apply sublist_submseteq].
Qed.

(** An entry for device configuration, made once. *)
Lemma remember_runs os np nw s ski c : inv os np nw s → (Z.of_nat np < num_elements_max)%Z → runs (remember ski c) (λ _, inv os (S np) nw) s.
Proof.
  intros (la & lw & HI) Hmax. pose proof (inv_pend_length _ _ _ _ _ _ HI) as Hlen.
  destruct (FindApproval_list ski c _ _ (inv_pend _ _ _ _ _ _ HI)) as [Hf|(x & entry & l1 & l2 & ps1 & ps2 & Hf & _)].
  - destruct (pool_add_list (pend s) la (mkPendingApproval c ski DeviceConfigurationFeature) (inv_pend _ _ _ _ _ _ HI)) as (p' & Hrun & Hl & Hlog); [lia|].
    eapply on_pend_runs; [unfold mbind, Prog_bind; rewrite Hf; exact Hrun|].
    eapply (inv_container _ _ _ _ _ _ _ _ _ HI); [exact Hl|rewrite length_app; simpl; lia|by rewrite Hlog|].
    intros e [| ->%list_elem_of_singleton]%elem_of_app; [by left|by right].
  - eapply on_pend_runs; [unfold mbind, Prog_bind; by rewrite Hf|]. eapply (inv_container _ _ _ _ _ _ _ _ la HI); [apply HI|lia|done|auto].
Qed.

(** An entry for load control, and the call of the approver. *)
Lemma review_runs os np nw s env msg ski c limit : inv os np nw s → (Z.of_nat np < num_elements_max)%Z → limit_write os env msg (ski, c) →
  verdict env msg = Some (Review limit) → runs (carry_out env ski c (Review limit)) (λ _, inv os (S np) nw) s.
Proof.
  intros (la & lw & HI) Hmax Hw Hv. pose proof (inv_pend_length _ _ _ _ _ _ HI) as Hlen.
  destruct (pool_add_list (pend s) la (mkPendingApproval c ski LoadControlFeature) (inv_pend _ _ _ _ _ _ HI)) as (p' & Hrun & [ps Hl] & Hlog); [lia|].
  apply runs_bind. eapply on_pend_runs; [exact Hrun|]. eapply on_pend_runs; [done|].
  eapply (inv_container _ _ _ _ _ _ _ _ (la ++ [_]) HI); [exists ps; by apply pool_at_log|rewrite length_app; simpl; lia|simpl; rewrite Hlog; intros ? ?; by apply list_elem_of_further|].
  intros e [| ->%list_elem_of_singleton]%elem_of_app; [by left|right]. intros _. exists env, msg, limit. split_and!; [done..|]. simpl. left.
Qed.

(** ** The operations keep it *)

Definition limit_key (o : LpOp) : option (string * Z) :=
  match o with LpWrite _ LoadControlFeature msg => write_key msg | _ => None end.

(** A peer uses a counter once. *)
Lemma same_write os env msg env' msg' k : NoDup (omap limit_key os) → limit_write os env msg k → limit_write os env' msg' k →
  env = env' ∧ msg = msg'.
Proof.
  intros Hnd [Hin Hk] [Hin' Hk']. enough (LpWrite env LoadControlFeature msg = LpWrite env' LoadControlFeature msg') as [= -> ->] by done.
  assert (limit_key (LpWrite env LoadControlFeature msg) = Some k ∧ limit_key (LpWrite env' LoadControlFeature msg') = Some k) as [Hk1 Hk2] by done.
  clear Hk Hk'. revert Hin Hin' Hk1 Hk2. generalize (LpWrite env LoadControlFeature msg) (LpWrite env' LoadControlFeature msg'). clear env msg env' msg'.
  intros o o' Hin Hin' Hk Hk'. induction os as [|x os IH]; [by apply not_elem_of_nil in Hin|].
  apply elem_of_cons in Hin as [->|Hin], Hin' as [->|Hin']; [done|..]; csimpl in Hnd.
  - rewrite Hk in Hnd. apply NoDup_cons in Hnd as [[] _]. apply list_elem_of_omap. by exists o'.
  - rewrite Hk' in Hnd. apply NoDup_cons in Hnd as [[] _]. apply list_elem_of_omap. by exists o.
  - destruct (limit_key x); [apply NoDup_cons in Hnd as [_ Hnd]|]; auto.
Qed.

Lemma message_parts_key msg ski c cmd : message_parts msg = Some (ski, c, cmd) → write_key msg = Some (ski, c).
Proof.
  unfold message_parts, write_key. destruct (PendingWrite.request_header msg) as [h|]; [|done]. cbn [mbind option_bind].
  destruct (Sender.msg_cnt h) as [c'|]; [|done]. destruct (sender_cmd <$> _) as [cmd'|]; [|done]. destruct (device_remote msg) as [dr|]; [|done].
  destruct (null _); [done|]. by intros [= <- <- _].
Qed.

(** *** Messages and entities whose content is data of the tables *)

Abbreviation descriptions_t := kFunctionTypeLoadControlLimitDescriptionListData.
Abbreviation keys_t := kFunctionTypeDeviceConfigurationKeyValueDescriptionListData.
Abbreviation description_item := load_control_limit_description_data_element_data_cfg.
Abbreviation key_item := device_configuration_key_value_description_data_element_data_cfg.

(** Data of a function, as the reader makes it. *)
Definition known_data (t : nat) (d : Data) : bool := match SpineTables.data_choice_data_cfg !! t with Some c => known c d | None => false end.

(** What the peer writes is data of the function that it is sent under. *)
Definition message_known (msg : Message) : bool :=
  match message_parts msg with Some (_, _, cmd) => known_data (data_choice_type_id cmd) (data_choice cmd) | None => true end.

(** The descriptions of the entity's own features are data of their functions, and the ones of limits have ids. *)
Definition has_limit_id (d : Data) : bool :=
  match data_limit_description d with Some description => bool_decide (is_Some (ld_limit_id description)) | None => true end.
Definition entity_described (e : EntityNode) : bool :=
  match LoadControlServerConstruct e with
  | Some (_, lcs) =>
      let d := FeatureGetData lcs descriptions_t in known_data descriptions_t d && forallb has_limit_id (default [] (data_list d))
  | None => true
  end &&
  match DeviceConfigurationServerConstruct e with Some (_, dc) => known_data keys_t (FeatureGetData dc keys_t) | None => true end.

(** Messages that were routed, to features with the callbacks of the use case. *)
Definition op_ok (o : LpOp) : Prop :=
  match o with
  | LpWrite env f msg => write_op_ok (OpWrite (le_feature env f) msg) ∧ 0 < we_approval_cbs (le_feature env f) ∧
      message_known msg = true ∧ entity_described (le_entity env) = true
  | LpSecondCallback env msg => message_known msg = true ∧ entity_described (le_entity env) = true
  | _ => True
  end.

(** *** It can be read *)

Lemma known_list t cname lname n f cs d : SpineTables.data_choice_data_cfg !! t = Some (Container KContainer cname [List_ lname (Sequence n f cs)]) →
  known_data t d = true → d = Null ∨ ∃ b l, d = Struct [b] ∧ list_items b = Some l ∧ Forall (λ x, null x = false ∧ known (Sequence n f cs) x = true) l.
Proof.
  intros Hc. unfold known_data. rewrite Hc. destruct d as [| | |ds| |]; try done; [by left|]. cbn [known]. intros Hk. right.
  apply known_fields in Hk as (b & ds' & -> & Hb & ->%known_end). exists b. destruct b as [| | | |l|]; try done; [by exists []|].
  exists l. split_and!; [done..|]. cbn [known may_be_null] in Hb. rewrite forallb_forall in Hb. apply Forall_forall. intros x Hx.
  apply list_elem_of_In, Hb, andb_true_iff in Hx as [Hn Hx]. split; [|done]. by apply negb_true_iff.
Qed.

Lemma known_list_read t cname lname n f cs d : SpineTables.data_choice_data_cfg !! t = Some (Container KContainer cname [List_ lname (Sequence n f cs)]) →
  known_data t d = true → ∃ l, data_list d = Some l ∧ Forall (λ x, null x = false ∧ known (Sequence n f cs) x = true) l.
Proof. intros Hc [->|(b & l & -> & Hl & Hall)]%(known_list _ _ _ _ _ _ _ Hc); [by exists []|by exists l]. Qed.

Lemma read_item {A} n f cs (g : Data → option A) x : readable (Sequence n f cs) g → null x = false → known (Sequence n f cs) x = true → is_Some (g x).
Proof. intros Hg Hn Hx. destruct (Hg x Hx) as [y Hy]. destruct x; try done; cbn [read_opt] in Hy; (destruct (g _); [by eexists|done]). Qed.

(** Comparing the fields of simple items. *)
Definition is_simple (c : EebusDataCfg) : bool := match c with Simple _ _ _ => true | _ => false end.
Definition is_leaf (d : Data) : bool := match d with Null | Leaf _ => true | _ => false end.

Lemma leaf_num x : is_leaf (opt num_data x) = true.
Proof. by destruct x. Qed.

Lemma simple_known c d : is_simple c = true → known c d = true → is_leaf d = true.
Proof. by destruct c, d. Qed.

Lemma simples_known cs l : forallb is_simple cs = true → forall2b known cs l = true → Forall (λ d, is_leaf d = true) l ∧ length cs = length l.
Proof.
  revert l. induction cs as [|c cs IH]; intros [|d l]; try done. cbn [forallb forall2b length]. intros [Hc Hcs]%andb_true_iff [Hd Hl]%andb_true_iff.
  destruct (IH l Hcs Hl) as [? ->]. split; [|done]. constructor; [by eapply simple_known|done].
Qed.

Lemma simple_compared c a b : is_simple c = true → is_leaf a = true → is_leaf b = true → is_Some (compare c c a b).
Proof.
  destruct c as [n f k| | | | | | |]; try done. intros _ Ha Hb. cbn [compare].
  assert (same_interface k k = true) as -> by by destruct k. cbn [negb]. destruct a as [|x| | | |]; try done; destruct b as [|y| | | |]; try done; try by eexists.
  unfold compare_blocks. destruct k; try rewrite bool_decide_true by done; by eexists.
Qed.

Lemma get_simple_field cs bs c : NoDup (cfg_name <$> cs) → c ∈ cs → length cs = length bs → Forall (λ d, is_leaf d = true) bs →
  ∃ b, get_field cs bs (cfg_name c) = Some (c, b) ∧ is_leaf b = true.
Proof.
  intros Hnd Hin Hlen Hbs. revert cs Hnd Hin Hlen. induction Hbs as [|b bs Hb _ IH]; intros [|c' cs] Hnd Hin Hlen; try done; [by apply not_elem_of_nil in Hin|].
  cbn [get_field]. csimpl in Hnd. apply NoDup_cons in Hnd as [Hne Hnd]. apply elem_of_cons in Hin as [->|Hin].
  - rewrite bool_decide_true by done. by exists b.
  - case_bool_decide as Heq; [|apply IH; by simplify_eq/=]. destruct Hne. rewrite Heq. by apply list_elem_of_fmap_2.
Qed.

Lemma simple_item_matched n f cs m b : forallb is_simple cs = true → NoDup (cfg_name <$> cs) → known (Sequence n f cs) b = true →
  Forall (λ d, is_leaf d = true) m → length cs = length m → is_Some (item_matches (Sequence n f cs) (Struct m) b).
Proof.
  intros Hs Hnd Hb Hm Hlen. unfold item_matches. cbn [selectors_match]. destruct b as [| | |bs| |]; try done. cbn [known] in Hb.
  destruct (simples_known cs bs Hs Hb) as [Hbs Hlen']. assert (∀ scs ss, scs ⊆ cs → Forall (λ d, is_leaf d = true) ss → length scs = length ss →
    is_Some (selectors_loop cs bs scs ss)) as Hloop; [|by apply Hloop].
  intros scs ss Hsub Hss. revert scs Hsub. induction Hss as [|s ss Hl _ IH]; intros [|sc scs] Hsub Hlen2; try done.
  cbn [selectors_loop]. destruct (IH scs) as [r Hr]; [set_solver|by simplify_eq/=|]. destruct (is_null sc s); [by eexists|].
  destruct (get_simple_field cs bs sc Hnd) as (b & -> & Hb'); [set_solver|done..|].
  destruct (simple_compared sc b s) as [x ->]; [|done..|rewrite Hr; destruct x; by eexists].
  rewrite forallb_forall in Hs. apply Hs, list_elem_of_In. set_solver.
Qed.

Lemma find_from_defined c m l : Forall (λ b, is_Some (item_matches c m b)) l → ∀ p, ∃ r, find_from c m p l = Some r ∧
  match r with Some q => ∃ i x, q = p + i ∧ l !! i = Some x | None => True end.
Proof.
  induction 1 as [|b l [x Hx] _ IH]; intros p; [by exists None|]. cbn [find_from]. rewrite Hx. cbn [mbind option_bind]. destruct x.
  - exists (Some p). split; [done|]. exists 0, b. split; [lia|done].
  - destruct (IH (S p)) as (r & -> & Hr). exists r. split; [done|]. destruct r as [q|]; [|done]. destruct Hr as (i & x & -> & Hx').
    exists (S i), x. split; [lia|done].
Qed.

(** The match in the list of a function with simple items. *)
Lemma unique_match_defined t cname lname n f cs d m :
  SpineTables.data_choice_data_cfg !! t = Some (Container KContainer cname [List_ lname (Sequence n f cs)]) →
  forallb is_simple cs = true → NoDup (cfg_name <$> cs) → known_data t d = true → Forall (λ x, is_leaf x = true) m → length cs = length m →
  ∃ r, HelperGetListUniqueMatch t d (Struct m) = Some r ∧
    match r with Some x => x ∈ default [] (data_list d) ∧ null x = false ∧ known (Sequence n f cs) x = true | None => True end.
Proof.
  intros Hc Hs Hnd Hd Hm Hlen. unfold HelperGetListUniqueMatch, HelperListMatchFirst. change (ModelGetDataCfg t) with (SpineTables.data_choice_data_cfg !! t).
  rewrite Hc. cbn [mbind option_bind]. destruct (known_list _ _ _ _ _ _ _ Hc Hd) as [->|(b & l & -> & Hl & Hall)]; [by exists None|].
  cbn [EebusDataListMatchIteratorConstruct]. rewrite Hl. cbn [mbind option_bind]. destruct (length l =? 0); [by exists None|].
  assert (∀ k, Forall (λ x, is_Some (item_matches (Sequence n f cs) (Struct m) x)) (drop k l)) as Hmatch.
  { intros k. apply Forall_drop. eapply Forall_impl; [exact Hall|]. intros x [_ Hx]. by apply simple_item_matched. }
  cbn [EebusDataListDataFindMatching]. destruct (find_from_defined _ _ _ (Hmatch 0) 0) as (r & -> & Hr). cbn [mbind option_bind].
  destruct r as [q|]; [|by exists None]. destruct Hr as (i & x & -> & Hx). rewrite drop_0 in Hx.
  unfold EebusDataListMatchIteratorIsDone, EebusDataListMatchIteratorGet, EebusDataListMatchIteratorNext.
  cbn [current EebusDataList.ar ar_element_cfg data_to_match mbind option_bind EebusDataListDataFindMatching Nat.add]. rewrite Hx. cbn [mbind option_bind].
  destruct (find_from_defined _ _ _ (Hmatch (S i)) (S i)) as (r & -> & _). cbn [mbind option_bind current].
  destruct r as [q|]; [by exists None|]. exists (Some x). split; [done|]. cbn [data_list]. rewrite Hl. cbn [default].
  split; [by eapply list_elem_of_lookup_2|]. rewrite Forall_forall in Hall. by apply Hall, (list_elem_of_lookup_2 l i).
Qed.

#[local] Hint Resolve readable_numeric readable_bool readable_time readable_enum : readable.

Lemma readable_signed n f b bits : readable (Simple n f (KNumeric b bits)) (data_signed bits).
Proof. intros [|[]| | | |] Hd; done || by eexists. Qed.
Lemma readable_duration n f : readable (Simple n f (KTime TDuration)) data_duration.
Proof. intros [|[]| | | |] Hd; done || by eexists. Qed.
#[local] Hint Resolve readable_signed readable_duration : readable.

Lemma readable_scaled_number n : readable (EEBUS_DATA_SEQUENCE n scaled_number_cfg) data_scaled_number.
Proof. intros d Hd. unfold EEBUS_DATA_SEQUENCE, scaled_number_cfg in Hd. known_struct d Hd. unfold data_scaled_number. read_fields. eexists; reflexivity. Qed.
Lemma readable_time_period n : readable (EEBUS_DATA_SEQUENCE n time_period_cfg) data_time_period.
Proof. intros d Hd. unfold EEBUS_DATA_SEQUENCE, time_period_cfg in Hd. known_struct d Hd. unfold data_time_period. read_fields. eexists; reflexivity. Qed.
#[local] Hint Resolve readable_scaled_number readable_time_period : readable.

Lemma readable_limit : readable load_control_limit_data_element_data_cfg data_limit.
Proof. intros d Hd. unfold load_control_limit_data_element_data_cfg, load_control_limit_data_cfg in Hd. known_struct d Hd. unfold data_limit. read_fields. eexists; reflexivity. Qed.
Lemma readable_limit_description : readable description_item data_limit_description.
Proof.
  intros d Hd. unfold load_control_limit_description_data_element_data_cfg, load_control_limit_description_data_cfg in Hd. known_struct d Hd.
  unfold data_limit_description. read_fields. eexists; reflexivity.
Qed.
Lemma readable_key_description : readable key_item data_key_description.
Proof.
  intros d Hd. unfold device_configuration_key_value_description_data_element_data_cfg, device_configuration_key_value_description_data_cfg in Hd.
  known_struct d Hd. unfold data_key_description. read_fields. eexists; reflexivity.
Qed.
Lemma readable_key_value_value n : readable (EEBUS_DATA_SEQUENCE n device_configuration_key_value_value_cfg) data_key_value_value.
Proof.
  intros d Hd. unfold EEBUS_DATA_SEQUENCE, device_configuration_key_value_value_cfg in Hd. known_struct d Hd. unfold data_key_value_value.
  read_fields. eexists; reflexivity.
Qed.
#[local] Hint Resolve readable_key_value_value : readable.
Lemma readable_key_value : readable device_configuration_key_value_data_element_data_cfg data_key_value.
Proof.
  intros d Hd. unfold device_configuration_key_value_data_element_data_cfg, device_configuration_key_value_data_cfg in Hd. known_struct d Hd.
  unfold data_key_value. read_fields. eexists; reflexivity.
Qed.

(** The description that matches a filter, read. *)
Lemma description_found lcs filter : known_data descriptions_t (FeatureGetData lcs descriptions_t) = true →
  ∃ r, LoadControlCommonGetLimitDescriptionWithFilter lcs filter = Some r ∧
    match r with Some desc => ∃ x, x ∈ default [] (data_list (FeatureGetData lcs descriptions_t)) ∧ data_limit_description x = Some desc | None => True end.
Proof.
  intros Hk. unfold LoadControlCommonGetLimitDescriptionWithFilter, limit_description_data.
  edestruct (unique_match_defined descriptions_t) as (r & -> & Hr); [reflexivity|done|apply (bool_decide_unpack _); by vm_compute|exact Hk| |done|].
  { repeat (apply Forall_cons_2; [first [apply leaf_num|done]|]). apply Forall_nil_2. }
  cbn [mbind option_bind]. destruct r as [x|]; [|by exists None]. destruct Hr as (Hin & Hn & Hx).
  destruct (read_item _ _ _ _ _ readable_limit_description Hn Hx) as [desc Hdesc]. rewrite Hdesc. exists (Some desc). split; [done|by exists x].
Qed.

Lemma known_limit_defined env : entity_described (le_entity env) = true → ∃ r, known_limit energy_direction env = Some r ∧
  match r with Some (lcs, _) => known_data descriptions_t (FeatureGetData lcs descriptions_t) = true | None => True end.
Proof.
  unfold entity_described, known_limit. intros [Hlc _]%andb_true_iff. destruct (LoadControlServerConstruct (le_entity env)) as [[i lcs]|]; [|by exists None].
  apply andb_true_iff in Hlc as [Hk Hids]. unfold CsLpGetLimitId. destruct (description_found lcs (active_power_limit energy_direction) Hk) as (r & -> & Hr).
  cbn [mbind option_bind]. destruct r as [desc|]; [|by exists None]. destruct Hr as (x & Hin & Hx). rewrite forallb_forall in Hids.
  apply list_elem_of_In, Hids in Hin. unfold has_limit_id in Hin. rewrite Hx in Hin. apply bool_decide_eq_true in Hin as [id ->].
  by exists (Some (lcs, id)).
Qed.

Lemma verdict_defined env msg : message_known msg = true → entity_described (le_entity env) = true → is_Some (verdict env msg).
Proof.
  unfold message_known, verdict. intros Hm He. destruct (message_parts msg) as [[[ski c] cmd]|]; [|by eexists].
  destruct (negb (le_approver env)); [by eexists|]. cbn [orb]. destruct (Nat.eqb_spec (data_choice_type_id cmd) kFunctionTypeLoadControlLimitListData) as [Ht|]; [|by eexists].
  cbn [negb]. rewrite Ht in Hm. edestruct known_list_read as (l & -> & Hl); [|exact Hm|]; [reflexivity|]. cbn [mbind option_bind].
  destruct (known_limit_defined env He) as (known & Hknown & Hdesc). destruct l as [|d [|d' l]]; [by eexists| |rewrite Hknown; by eexists].
  apply Forall_cons in Hl as [[Hn Hd] _]. unfold verdict_of_entry. destruct (read_item _ _ _ _ _ readable_limit Hn Hd) as [entry ->].
  rewrite Hknown. cbn [mbind option_bind]. destruct (limit_id entry) as [target|]; [|by eexists]. destruct known as [[lcs k]|]; [|by eexists].
  destruct (negb (target =? k)%Z); [|by eexists]. destruct (description_found lcs (description_with_id (Some target)) Hdesc) as (r & -> & _). by eexists.
Qed.

(** The values of a list, each with its description. *)
Lemma find_value_defined dc l key : known_data keys_t (FeatureGetData dc keys_t) = true →
  Forall (λ x, null x = false ∧ known device_configuration_key_value_data_element_data_cfg x = true) l → is_Some (CsLpFindKeyValue l dc key).
Proof.
  intros Hk. induction 1 as [|x l [Hn Hx] _ [r IH]]; [by eexists|]. destruct (read_item _ _ _ _ _ readable_key_value Hn Hx) as [kv Hkv].
  assert (CsLpFindKeyValue (x :: l) dc key = (kv ← data_key_value x;
      match key_id kv, key_value kv with
      | Some id, Some _ =>
          desc ← DeviceConfigurationCommonGetKeyValueDescriptionWithKeyId dc id;
          if bool_decide (desc ≫= key_name = Some key) then Some (Some kv) else CsLpFindKeyValue l dc key
      | _, _ => CsLpFindKeyValue l dc key
      end)) as -> by by destruct x.
  rewrite Hkv, IH. cbn [mbind option_bind]. destruct (key_id kv) as [id|]; [|by eexists]. destruct (key_value kv); [|by eexists].
  unfold DeviceConfigurationCommonGetKeyValueDescriptionWithKeyId, DeviceConfigurationCommonGetKeyValueDescriptionWithFilter, key_description_data.
  edestruct (unique_match_defined keys_t) as (o & -> & Ho); [reflexivity|done|apply (bool_decide_unpack _); by vm_compute|exact Hk| |done|].
  { repeat (apply Forall_cons_2; [first [apply leaf_num|done]|]). apply Forall_nil_2. }
  cbn [mbind option_bind]. destruct o as [y|]; [|by eexists]. destruct Ho as (_ & Hyn & Hy).
  destruct (read_item _ _ _ _ _ readable_key_description Hyn Hy) as [desc ->]. cbn [mbind option_bind fmap option_fmap option_map]. destruct (bool_decide (_ = Some key)); by eexists.
Qed.

Lemma parsed_message_known msg ski c cmd : message_parts msg = Some (ski, c, cmd) → cmd_known cmd → message_known msg = true.
Proof. unfold message_known, known_data. intros -> [(cfg & -> & ?) _]. done. Qed.

(** The list of a write of failsafe values. *)
Definition list_read (env : LpEnv) (msg : Message) : Prop :=
  match message_parts msg, DeviceConfigurationServerConstruct (le_entity env) with
  | Some (_, _, cmd), Some (_, dc) => data_choice_type_id cmd = kFunctionTypeDeviceConfigurationKeyValueListData →
      ∃ l, data_list (data_choice cmd) = Some l ∧ ∀ key, is_Some (CsLpFindKeyValue l dc key)
  | _, _ => True
  end.

Lemma list_read_defined env msg : message_known msg = true → entity_described (le_entity env) = true → list_read env msg.
Proof.
  unfold message_known, list_read, entity_described. intros Hm [_ He]%andb_true_iff. destruct (message_parts msg) as [[[ski c] cmd]|]; [|done].
  destruct (DeviceConfigurationServerConstruct (le_entity env)) as [[i dc]|]; [|done]. intros Ht. rewrite Ht in Hm.
  edestruct known_list_read as (l & -> & Hl); [|exact Hm|]; [reflexivity|]. exists l. split; [done|]. intros key. by apply find_value_defined.
Qed.

Lemma load_control_runs os n nw s env msg : inv os n nw s → (Z.of_nat n < num_elements_max)%Z → NoDup (omap limit_key os) →
  LpWrite env LoadControlFeature msg ∈ os → is_Some (verdict env msg) → runs (CsLpLoadControlCallback energy_direction env msg) (λ _, inv os (S n) nw) s.
Proof.
  intros HI Hmax Hnd Hin [v Hv]. assert (inv os (S n) nw s) as HI' by (eapply inv_mono; [..|exact HI]; [done|lia|done]).
  destruct (message_parts msg) as [[[ski c] cmd]|] eqn:Hparts.
  2: { unfold CsLpLoadControlCallback. rewrite Hparts. by apply runs_ret. }
  unfold runs. rewrite (callback_is_verdict _ _ _ _ _ _ s Hparts Hv). change (runs (carry_out env ski c v) (λ _, inv os (S n) nw) s).
  assert (limit_write os env msg (ski, c)) as Hw by (split; [done|by eapply message_parts_key]).
  destruct v as [| |text|limit]; [by apply runs_ret|..].
  - eapply runs_then; [apply (TryApprove_runs _ _ _ _ _ _ _ _ HI')|done]. intros _ env' msg' Hw'.
    destruct (same_write _ _ _ _ _ _ Hnd Hw Hw') as [<- <-]. by left.
  - eapply runs_then; [apply (Deny_runs _ _ _ _ _ _ _ _ _ HI')|done].
  - by eapply review_runs.
Qed.

(** The callbacks of device configuration vote in their feature, or remember the write. *)
Lemma parse_runs os n nw s env msg : inv os n nw s →
  list_read env msg → runs (CsLpDeviceConfigParseMessage env msg) (λ r s', inv os n nw s' ∧
    match r with None => True | Some (_, _, l, dc) => ∀ key, is_Some (CsLpFindKeyValue l dc key) end) s.
Proof.
  intros HI Hread. unfold CsLpDeviceConfigParseMessage. unfold list_read in Hread.
  destruct (message_parts msg) as [[[ski c] cmd]|]; [|by apply runs_ret].
  assert (runs (TryApprove env DeviceConfigurationFeature ski c;; mret None) (λ (r : option (string * Z * list Data * FeatureData)) s', inv os n nw s' ∧
    match r with None => True | Some (_, _, l, dc) => ∀ key, is_Some (CsLpFindKeyValue l dc key) end) s) as Happrove.
  { eapply runs_then; [by apply (TryApprove_runs _ _ _ _ _ _ _ _ HI)|]. intros a s' HI'. by apply runs_ret. }
  destruct (negb (le_approver env)); [done|].
  destruct (Nat.eqb_spec (data_choice_type_id cmd) kFunctionTypeDeviceConfigurationKeyValueListData) as [Ht|]; cbn [negb]; [|done].
  destruct (DeviceConfigurationServerConstruct (le_entity env)) as [[e dc]|]; [|done].
  destruct (Hread Ht) as (l & -> & Hfind). by apply runs_ret.
Qed.

Lemma failsafe_runs {A} os n nw s env ski c (x : option A) (event : A → LpEvent) : inv os n nw s → (Z.of_nat n < num_elements_max)%Z →
  runs (match x with
        | None => TryApprove env DeviceConfigurationFeature ski c;; mret tt
        | Some a => remember ski c;; tell (event a)
        end) (λ _, inv os (S n) nw) s.
Proof.
  intros HI Hmax. destruct x as [a|].
  - eapply runs_then; [by eapply remember_runs|]. intros u s' HI'. by apply tell_runs.
  - eapply runs_then; [by apply TryApprove_runs|]. intros a s' HI'. apply runs_ret. by eapply inv_mono; [..|exact HI']; [|lia|].
Qed.

Lemma parsed_runs {A} os n nw s env msg (k : option (string * Z * list Data * FeatureData) → Prog CsLp A) Q : inv os n nw s → list_read env msg →
  (∀ s', inv os n nw s' → runs (k None) Q s') →
  (∀ s' ski c l dc, inv os n nw s' → (∀ key, is_Some (CsLpFindKeyValue l dc key)) → runs (k (Some (ski, c, l, dc))) Q s') →
  runs (CsLpDeviceConfigParseMessage env msg ≫= k) Q s.
Proof.
  intros HI Hread Hnone Hsome. eapply runs_then; [by apply parse_runs|]. cbv beta. intros r s' [HI' Hr].
  destruct r as [[[[ski c] l] dc]|]; auto.
Qed.

Lemma failsafe_value_runs os n nw s env msg : inv os n nw s → (Z.of_nat n < num_elements_max)%Z → list_read env msg →
  runs (CsLpcFailsafeValueCallback energy_direction env msg) (λ _, inv os (S n) nw) s.
Proof.
  intros HI Hmax Hread. apply (parsed_runs os n nw); [done..| |].
  - intros s' HI'. apply runs_ret. eapply inv_mono; [..|exact HI']; [done|lia|done].
  - intros s' ski c l dc HI' Hfind. destruct (Hfind (failsafe_power_limit_key energy_direction)) as [kv ->].
    pose proof (λ x, failsafe_runs os n nw s' env ski c x (FailsafeValueApprovalRequested ski c) HI' Hmax) as Hruns.
    apply runs_bind, runs_ret. destruct ((kv ≫= key_value) ≫= kv_scaled_number) as [number|]; [|exact (Hruns None)].
    destruct (ScaledValueInitWithScaledNumber _ _) as [[] [v|]]; first [exact (Hruns None)|exact (Hruns (Some v))].
Qed.

Lemma failsafe_duration_runs os n nw s env msg : inv os n nw s → (Z.of_nat n < num_elements_max)%Z → list_read env msg →
  runs (CsLpcFailsafeDurationCallback env msg) (λ _, inv os (S n) nw) s.
Proof.
  intros HI Hmax Hread. apply (parsed_runs os n nw); [done..| |].
  - intros s' HI'. apply runs_ret. eapply inv_mono; [..|exact HI']; [done|lia|done].
  - intros s' ski c l dc HI' Hfind. destruct (Hfind kDeviceConfigurationKeyNameTypeFailsafeDurationMinimum) as [kv ->].
    pose proof (λ x, failsafe_runs os n nw s' env ski c x (FailsafeDurationApprovalRequested ski c) HI' Hmax) as Hruns.
    apply runs_bind, runs_ret. destruct ((kv ≫= key_value) ≫= kv_duration) as [d|]; [exact (Hruns (Some d))|exact (Hruns None)].
Qed.

Lemma expiries_runs os np nw env es : ∀ s, inv os np nw s → runs (expiries env es) (λ _, inv os np nw) s.
Proof.
  induction es as [|e es IH]; intros s HI; [by apply runs_ret|]. destruct e; try by apply IH. cbn [expiries].
  eapply runs_then with (P := λ _, inv os np nw); [|intros u s' HI'; by apply IH]. unfold CsLpWriteExpiryCallback. apply runs_bind.
  pose proof HI as (la & lw & HI0).
  assert (inv os np nw (mkCsLp (pend s) (writes s))) as Hs by by destruct s.
  destruct (FindApproval_list ski counter _ _ (inv_pend _ _ _ _ _ _ HI0)) as [Hf|(x & entry & l1 & l2 & ps1 & ps2 & Hf & _)];
    (eapply on_pend_runs; [exact Hf|]); [by apply runs_ret|].
  eapply runs_then with (P := λ _, inv os np nw).
  - destruct (le_approver env); [by apply tell_runs|by apply runs_ret].
  - intros u s' HI'. by apply Remove_runs.
Qed.

Lemma LpWrite_runs os n s env f msg : inv os n n s → (Z.of_nat n < num_elements_max)%Z → NoDup (omap limit_key os) →
  LpWrite env f msg ∈ os → op_ok (LpWrite env f msg) → runs (lp_op energy_direction (LpWrite env f msg)) (λ _, inv os (S n) (S n)) s.
Proof.
  intros HI Hmax Hnd Hin (Hmsg & Hcbs & Hknown & Hdesc). pose proof HI as (la & lw & HI0). pose proof (inv_writes_length _ _ _ _ _ _ HI0 f) as Hlen.
  destruct (process_evolves (le_feature env f) msg _ _ (inv_writes _ _ _ _ _ _ HI0 f)) as (e & p' & l' & new & Hrun & Hnew & He & Hof); [lia|done..|].
  cbn [lp_op]. apply runs_bind. eapply on_writes_runs; [exact Hrun|].
  assert (inv os n (S n) (set_writes f p' s)) as HI1.
  { apply (inv_mono os os n n (length new + n)); [done..|lia|]. eapply (inv_evolve _ _ _ _ _ _ f _ _ _ _ HI0); [exact He| |by intros].
    intros -> item Hitem. specialize (Hof item Hitem). exists env, msg. split; [|done]. split; [done|]. destruct Hof as (Hh & Hc & _ & Hdr).
    unfold write_key. destruct (device_remote msg) as [dr|]; [|done]. injection Hdr as Hdr. rewrite Hh. cbn [mbind option_bind]. rewrite Hc.
    cbn [mbind option_bind]. unfold key_of. by rewrite Hdr. }
  destruct f; [by apply load_control_runs, verdict_defined|by apply failsafe_value_runs, list_read_defined].
Qed.

Lemma LpTick_runs os np nw s env f : inv os np nw s → runs (lp_op energy_direction (LpTick env f)) (λ _, inv os np nw) s.
Proof.
  intros (la & lw & HI). cbn [lp_op]. apply runs_bind, runs_ret, runs_bind.
  destruct (tick_evolves (le_feature env f) _ _ (inv_writes _ _ _ _ _ _ HI f)) as (p' & l' & es & Hrun & He & _).
  eapply on_writes_runs; [exact Hrun|]. apply runs_bind, runs_ret, expiries_runs.
  by eapply (inv_evolve _ _ _ _ _ _ f [] _ _ _ HI); [rewrite app_nil_r|intros _ ? ?%not_elem_of_nil|].
Qed.

(** The entry of the key, loaded: a review, if it is one of load control. *)
Lemma found_entry os np nw s ski c : inv os np nw s →
  FindApproval ski c (pend s) = Ret None (pend s) ∨
  ∃ x entry, FindApproval ski c (pend s) = Ret (Some x) (pend s) ∧ pool_load x (pend s) = Ret entry (pend s) ∧ pa_ski entry = ski ∧
    (pa_feature entry = LoadControlFeature → reviewed os (log (pend s)) (ski, c)).
Proof.
  intros (la & lw & HI). destruct (FindApproval_list ski c _ _ (inv_pend _ _ _ _ _ _ HI))
    as [|(x & entry & l1 & l2 & ps1 & ps2 & Hf & -> & Hat & Hq & Hx & Hski & Hc)]; [by left|right].
  exists x, entry. split_and!; [done|by apply pool_load_at|done|]. rewrite <- Hski, <- Hc.
  apply (inv_reviewed _ _ _ _ _ _ HI). apply elem_of_app. right. left.
Qed.

Lemma LpApprove_runs os np nw s env ski c : inv os np nw s → NoDup (omap limit_key os) → LpApprove env ski c ∈ os →
  runs (lp_op energy_direction (LpApprove env ski c)) (λ _, inv os np nw) s.
Proof.
  intros HI Hnd Hin. cbn [lp_op]. unfold CsLpApproveWrite. eapply runs_then with (P := λ _, inv os np nw); [|done]. apply runs_bind.
  assert (inv os np nw (mkCsLp (pend s) (writes s))) as Hs by by destruct s.
  destruct (found_entry os np nw s ski c HI) as [Hf|(x & entry & Hf & Hx & <- & Hrev)]; (eapply on_pend_runs; [exact Hf|]); [by apply runs_ret|].
  apply runs_bind. eapply on_pend_runs; [exact Hx|]. eapply runs_then; [apply (TryApprove_runs _ _ _ _ _ _ _ _ Hs)|].
  - intros Hlc env' msg' Hw'. destruct (Hrev Hlc) as (env0 & msg0 & limit & Hw & Hv & Hreq).
    destruct (same_write _ _ _ _ _ _ Hnd Hw Hw') as [<- <-]. right. by exists limit, env.
  - cbv beta. intros result s' HI'. eapply runs_then with (P := λ _, inv os np nw); [|done].
    case_bool_decide; [by apply runs_ret|by apply Remove_runs].
Qed.

Lemma LpDeny_runs os np nw s env ski c err : inv os np nw s → runs (lp_op energy_direction (LpDeny env ski c err)) (λ _, inv os np nw) s.
Proof.
  intros HI. cbn [lp_op]. unfold CsLpDenyWrite. eapply runs_then with (P := λ _, inv os np nw); [|done]. apply runs_bind.
  assert (inv os np nw (mkCsLp (pend s) (writes s))) as Hs by by destruct s.
  destruct (found_entry os np nw s ski c HI) as [Hf|(x & entry & Hf & Hx & <- & _)]; (eapply on_pend_runs; [exact Hf|]); [by apply runs_ret|].
  apply runs_bind. eapply on_pend_runs; [exact Hx|]. eapply runs_then; [apply (Deny_runs _ _ _ _ _ _ _ _ _ Hs)|].
  cbv beta. intros result s' HI'. eapply runs_then with (P := λ _, inv os np nw); [by apply Remove_runs|done].
Qed.

Lemma lp_op_runs done o s : inv done (length done) (length done) s → (Z.of_nat (length done) < num_elements_max)%Z →
  NoDup (omap limit_key (done ++ [o])) → op_ok o →
  runs (lp_op energy_direction o) (λ _, inv (done ++ [o]) (length (done ++ [o])) (length (done ++ [o]))) s.
Proof.
  intros HI Hmax Hnd Hok. assert (o ∈ done ++ [o]) as Hin by (apply elem_of_app; right; left).
  set (n := length done) in *. rewrite length_app, Nat.add_comm. change (length [o] + length done) with (S n).
  apply (inv_mono done (done ++ [o]) n n n n) in HI; [|by apply list_subseteq_app_l|done..].
  assert (∀ s', inv (done ++ [o]) n n s' → inv (done ++ [o]) (S n) (S n) s') as Hmono by (intros s'; apply inv_mono; [done|lia..]).
  revert HI Hnd Hin Hmono. generalize (done ++ [o]) as os. intros os HI Hnd Hin Hmono. destruct o as [env f msg|env msg|env ski c|env ski c err|env f].
  - by apply LpWrite_runs.
  - destruct Hok as [Hknown Hdesc]. eapply runs_mono; [apply (failsafe_duration_runs os n n); [done..|by apply list_read_defined]|]. intros [] s'. apply inv_mono; [done|lia..].
  - eapply runs_mono; [by apply (LpApprove_runs os n n)|auto].
  - eapply runs_mono; [by apply (LpDeny_runs os n n)|auto].
  - eapply runs_mono; [by apply (LpTick_runs os n n)|auto].
Qed.

Lemma lp_ops_runs os : ∀ done s, inv done (length done) (length done) s → (Z.of_nat (length (done ++ os)) < num_elements_max)%Z →
  NoDup (omap limit_key (done ++ os)) → Forall op_ok os →
  runs (lp_ops energy_direction os) (λ _, inv (done ++ os) (length (done ++ os)) (length (done ++ os))) s.
Proof.
  induction os as [|o os IH]; intros done s HI Hmax Hnd Hok; [rewrite app_nil_r; by apply runs_ret|].
  apply Forall_cons in Hok as [Ho Hok]. rewrite length_app in Hmax. simpl in Hmax. rewrite (app_assoc done [o] os : done ++ o :: os = _) in Hnd |- *.
  cbn [lp_ops]. eapply runs_then; [apply (lp_op_runs done o s HI); [lia| |done]|].
  - rewrite omap_app in Hnd. by apply NoDup_app in Hnd as [Hnd _].
  - cbv beta. intros u s' HI'. apply IH; [done| |done..]. rewrite !length_app. simpl. lia.
Qed.

Lemma inv_initial : inv [] 0 0 CsLpUseCaseConstruct.
Proof.
  exists [], (λ _, []). split; simpl; try done; try (by intros ? ?%not_elem_of_nil).
  - apply pool_empty_list.
  - intros f. split; [apply pool_empty_list|constructor].
  - by intros h cmd ?%not_elem_of_nil.
Qed.

(** C12: No power limit without its approver.  Take any sequence of writes, votes of the approver and ticks in which the messages have a sender, a
    feature and a command, the data that is written is data of the function it is sent under, as that of every parsed message is, the entity's own
    descriptions are data of their functions, those of limits with an id, and no peer uses a message counter for two writes of the limit.
    It ends in a state, nothing is undefined, and every write of the power limit that was executed came in as one; and either it escapes the
    callback (there is no approver, or what it writes is not one limit of the use case that the callback can read), or the approver was
    shown that limit, value, duration and activity, under the peer and the counter of the write, and approved exactly these.  Where a
    counter is used twice the claim is false ([reused_counter_executes]). *)
Theorem limits_need_approval os : Forall op_ok os → NoDup (omap limit_key os) → (Z.of_nat (length os) < num_elements_max)%Z →
  ∃ s', lp_ops energy_direction os CsLpUseCaseConstruct = Ret tt s' ∧
  ∀ h cmd, WriteExecuted h cmd ∈ log (writes s' LoadControlFeature) →
  ∃ env msg ski c, LpWrite env LoadControlFeature msg ∈ os ∧ write_key msg = Some (ski, c) ∧
    PendingWrite.request_header msg = Some h ∧ PendingWrite.msg_cmd msg = Some cmd ∧
    (escapes env msg ∨ ∃ limit env', shows env msg limit ∧ request ski c limit ∈ log (pend s') ∧ LpApprove env' ski c ∈ os).
Proof.
  intros Hok Hnd Hmax. pose proof (lp_ops_runs os [] _ inv_initial Hmax Hnd Hok) as Hruns. unfold runs in Hruns. simpl in Hruns.
  destruct (lp_ops energy_direction os CsLpUseCaseConstruct) as [[] s'|s'|why]; [|done..]. exists s'. split; [done|].
  destruct Hruns as (la & lw & HI). intros h cmd (env & msg & [ski c] & [Hin Hk] & Hh & Hcmd & Hv)%(inv_executed _ _ _ _ _ _ HI).
  exists env, msg, ski, c. split_and!; [done..|]. destruct Hv as [Hv|(limit & env' & Hv & Hreq & Happ)].
  - left. by apply verdict_pass.
  - right. exists limit, env'. split; [by apply verdict_review|done].
Qed.
End safety.

(** ** Runs *)

Section demo.
#[local] Instance malloc_not_null : Allocator := true.

Definition limit_cmd (l : list LoadControlLimitDataType) : Sender.CmdType :=
  CmdData (mkCmd None [] kFunctionTypeLoadControlLimitListData (list_data (limit_data <$> l)) None None).
Definition limit_message (counter : Z) (l : list LoadControlLimitDataType) : Message :=
  PendingWrite.mkMsg (Some (mkHeader (Some (addr "a" 7)) (Some (addr "local" 3)) (Some counter) None kCommandClassifierTypeWrite (Some false)))
    kCommandClassifierTypeWrite (Some (limit_cmd l)) (remote_feature (remote "a") (addr "a" 7)) (Some (remote "a")).
Definition pump_env : LpEnv :=
  mkLpEnv (λ _, mkWriteEnv heat_pump 1 [remote "a"] (Some 9%Z) (λ _, kEebusErrorOk)) consumer true.
Definition limit_of (v : Z) : LoadControlLimitDataType :=
  mkLimitData (Some 0%Z) None (Some true) None (Some (mkScaledNumber (Some v) None)).
Definition write_limits (counter : Z) (l : list LoadControlLimitDataType) : LpOp := LpWrite pump_env LoadControlFeature (limit_message counter l).
Definition approve (counter : Z) : LpOp := LpApprove pump_env "ski of a" counter.

(** What a sequence executes, and what the approver was asked. *)
Definition outcome (os : list LpOp) : option (list Sender.CmdType * list LpEvent) :=
  match lp_ops kEnergyDirectionTypeConsume os (CsLpUseCaseConstruct (V := Vector)) with
  | Ret _ s => Some (omap (λ e, match e with WriteExecuted _ cmd => Some cmd | _ => None end) (log (writes s LoadControlFeature)), log (pend s))
  | _ => None
  end.

Example reviewed_write :
  outcome [write_limits 5 [limit_of 4200]] = Some ([], [PowerLimitApprovalRequested "ski of a" 5 (mkScaledValue 4200 0) None true]) ∧
  outcome [write_limits 5 [limit_of 4200]; approve 5]
    = Some ([limit_cmd [limit_of 4200]], [PowerLimitApprovalRequested "ski of a" 5 (mkScaledValue 4200 0) None true]).
Proof. by vm_compute. Qed.

(** The entities that the use case sets up are described. *)
Example entities_described : entity_described consumer = true ∧ entity_described failsafe_entity = true.
Proof. by vm_compute. Qed.

(** A write with an absolute end time is executed without the approver, and so is one that has no value, here one that only
    switches the limit off. *)
Definition until (date_time : EebusDateTime) : option TimePeriodType :=
  Some (mkTimePeriod None (Some (kAbsoluteOrRelativeTimeTypeDateTime date_time))).
Lemma absolute_end_is_not_reviewed : ∃ date_time,
  let limit := mkLimitData (Some 0%Z) None (Some true) (until date_time) (Some (mkScaledNumber (Some 9000%Z) None)) in
  outcome [write_limits 5 [limit]] = Some ([limit_cmd [limit]], []).
Proof. exists (mkDateTime (mkDate 2030 1 1) (mkTime 0 0 0)). by vm_compute. Qed.

Lemma switch_off_is_not_reviewed :
  let off := mkLimitData (Some 0%Z) None (Some false) None None in
  outcome [write_limits 5 [off]] = Some ([limit_cmd [off]], []).
Proof. by vm_compute. Qed.

(** With a counter that is used twice, the vote for an empty write executes the one that waits: the
    approver was asked, and has not answered. *)
Lemma reused_counter_executes :
  outcome [write_limits 5 [limit_of 9000]; write_limits 5 []]
    = Some ([limit_cmd [limit_of 9000]], [PowerLimitApprovalRequested "ski of a" 5 (mkScaledValue 9000 0) None true]).
Proof. by vm_compute. Qed.

Lemma limits_need_approval_witness :
  let os := [write_limits 5 [limit_of 4200]; write_limits 6 [limit_of 9000]; LpTick pump_env LoadControlFeature; approve 5; LpDeny pump_env "ski of a" 6 (command_rejected "no")] in
  ∃ s', lp_ops kEnergyDirectionTypeConsume os (CsLpUseCaseConstruct (V := Vector)) = Ret tt s' ∧
    ∀ h cmd, WriteExecuted h cmd ∈ log (writes s' LoadControlFeature) →
    ∃ env msg ski c, LpWrite env LoadControlFeature msg ∈ os ∧ write_key msg = Some (ski, c) ∧
      PendingWrite.request_header msg = Some h ∧ PendingWrite.msg_cmd msg = Some cmd ∧
      (escapes kEnergyDirectionTypeConsume env msg ∨
       ∃ limit env', shows kEnergyDirectionTypeConsume env msg limit ∧ request ski c limit ∈ log (pend s') ∧ LpApprove env' ski c ∈ os).
Proof.
  intros os. apply (limits_need_approval kEnergyDirectionTypeConsume os).
  - apply Forall_cons_2; [|apply Forall_cons_2; [|by repeat (apply Forall_cons_2; [done|]); apply Forall_nil_2]];
      (split; [split_and!; by eexists|split; [cbn; lia|split; by vm_compute]]).
  - apply (bool_decide_unpack _). by vm_compute.
  - done.
Defined.
End demo.

(** ** A failsafe value that is written twice in one list *)

Section failsafe.
#[local] Instance malloc_zero_not_null : Allocator := true.
#[local] Instance always_sent : SpineEnv := { sent := λ _, (kEebusErrorOk, 1%Z); has_sender := true }.

Definition failsafe_of (v : Z) : Data :=
  key_value_data (mkKeyValue (Some 0%Z) (Some (mkKeyValueValue None (Some (mkScaledNumber (Some v) None)))) None).
Definition failsafe_cmd (l : list Data) : CmdType :=
  mkCmd None [mkFilter None (Some ctrl_partial) 0 Null 0 Null] kFunctionTypeDeviceConfigurationKeyValueListData (list_data l) None None.
Definition failsafe_env : LpEnv :=
  mkLpEnv (λ _, mkWriteEnv heat_pump 2 [remote "a"] (Some 9%Z) (λ _, kEebusErrorOk)) failsafe_entity true.
Definition failsafe_message (l : list Data) : Message :=
  PendingWrite.mkMsg (Some (mkHeader (Some (addr "a" 7)) (Some (addr "local" 3)) (Some 5%Z) None kCommandClassifierTypeWrite (Some false)))
    kCommandClassifierTypeWrite (Some (CmdData (failsafe_cmd l))) (remote_feature (remote "a") (addr "a" 7)) (Some (remote "a")).

(** The approver is asked about the first value; with its approval the last one is in force. *)
Lemma approved_failsafe_is_not_applied :
  let l := [failsafe_of 100; failsafe_of 900] in
  (∃ s, lp_ops kEnergyDirectionTypeConsume
          [LpWrite failsafe_env DeviceConfigurationFeature (failsafe_message l); LpSecondCallback failsafe_env (failsafe_message l);
           LpApprove failsafe_env "ski of a" 5] (CsLpUseCaseConstruct (V := Vector)) = Ret tt s ∧
     log (pend s) = [FailsafeValueApprovalRequested "ski of a" 5 (mkScaledValue 100 0)] ∧
     head (omap (λ e, match e with WriteExecuted _ cmd => Some cmd | _ => None end) (log (writes s DeviceConfigurationFeature)))
       = Some (CmdData (failsafe_cmd l))) ∧
  ∃ i dc dc' outs, DeviceConfigurationServerConstruct failsafe_entity = Some (i, dc) ∧
    FeatureData.ProcessWriteFunctionData dc (failsafe_cmd l)
      (mkMessage None kCommandClassifierTypeWrite (Some (failsafe_cmd l)) (CmdGetFilterPartial (failsafe_cmd l)) (CmdGetFilterDelete (failsafe_cmd l)))
      = Some (kEebusErrorOk, dc', outs) ∧
    CsLpGetFailsafeActivePowerLimitInternal kEnergyDirectionTypeConsume (with_feature_data i dc' failsafe_entity) (mkScaledValue 0 0) true
      = Some (kEebusErrorOk, mkScaledValue 900 0, true).
Proof.
  split.
  - eexists. split; [vm_compute; reflexivity|]. split; by vm_compute.
  - do 4 eexists. split; [vm_compute; reflexivity|]. split; [vm_compute; reflexivity|]. by vm_compute.
Qed.
End failsafe.
